(* ===== verification/_CoqProject ===== *)
-Q . S2P
Prelude.v
Spinlock.v
KState.v
SchedScan.v
SchedRR.v
SchedPriority.v
SchedMLFQ.v
Sched.v
CString.v
Riscv.v
Proc.v
ProcTable.v
ProcSleep.v
ProcLife.v
ProcWait.v
ProcExit.v
ProcFork.v
Kalloc.v
Vm.v
VmTree.v
VmMap.v
VmFree.v
VmCopy.v
KvmSpec.v
FsState.v
Bytes.v
Bio.v
BioList.v
BioSpec.v
BioOps.v
Log.v
LogSpec.v
LogCrash.v
LogOps.v
Fs.v
FsNames.v
FsTxn.v
FsAlloc.v
FsFile.v
FsBmap.v
FsRead.v
FsWrite.v
Pipe.v
PipeSpec.v
File.v
Sysfile.v
Grep.v
Printf.v
Ulib.v
Tools.v
Umalloc.v
UmallocSpec.v
UmallocSafe.v
Console.v
ConsoleSpec.v
Trap.v
TrapSpec.v
TrapSys.v
Exec.v
ExecSpec.v
ExecSys.v
Sh.v
ShSpec.v
ShPrint.v
ShRun.v
Virtio.v
VirtioSpec.v
VirtioRun.v
Mkfs.v
MkfsSpec.v
MkfsImage.v
MkfsSafe.v
Uart.v
UartSpec.v
Plic.v
BootMem.v
Boot.v
BootProc.v
BootInv.v
BootSpec.v
