(* ===== verification/Prelude.v ===== *)
(** * Verification of an xv6-riscv kernel with pluggable schedulers

    The program is the xv6 teaching kernel for RISC-V (src/kernel), extended
    with exchangeable scheduling strategies (round robin, static priority and a
    multi-level feedback queue), with the user programs of src/user.  This
    library models the C code of the kernel and proves what makes its parts
    correct.

    ** How the code is translated

    A C function is a function of the state it works on; its result is an
    [outcome]: a value with the new state, [panic()], waiting for somebody else
    for ever ([Spin]), or undefined behaviour of C ([UB]).  Machine integers
    are [Z] with the wrap-around of their width written out ([u32], [i32],
    [u64] ...).  A pointer into a table is the position in the table.  A
    [for]/[while] loop is [for_each], [for_until] or [mloop], whose bound is
    the loop's own or an expression that the theorems show to be enough: no
    theorem concludes from [NoFuel].  What the code calls and src/ does not
    define in C (the context switch, the hardware) or what belongs to a part of
    the kernel that is modelled elsewhere is a class argument ([Interference],
    [Switch], [ProcEnv], [ExecEnv], [TrapEnv], [ConsEnv], [FsEnv], [PipeEnv],
    [DevEnv], [ArgEnv], [SbrkEnv], [Sys]) whose laws ([SwitchLaws], [TickLaws],
    [EnvLaws], [GrowLaws], [ExecLaws], [TrapLaws], [UserLaws], [PipeLaws], [SysLaws]) are
    hypotheses with witnesses.

    ** Parts, files and theorems

    - [Prelude]: outcomes, the state monad, record update, machine integers,
      tactics, lemmas on loops and lists.
    - Spin locks (spinlock.c, struct cpu): [Spinlock].  The routines as one CPU
      runs them, and [lk_step], the interleaved memory accesses of any number
      of CPUs: mutual exclusion; nesting of push_off/pop_off.
    - Scheduling (sched.c, sched_rr.c, sched_priority.c, sched_mlfq.c, sched.h):
      [KState] (struct proc, the process table, other CPUs interfering between
      the steps of a scan), [SchedScan], [SchedRR], [SchedPriority],
      [SchedMLFQ], [Sched].  Selection returns a RUNNABLE, locked process under
      every policy and every interference; functional correctness of each
      policy; absence of starvation; invariants of the hooks.
    - Processes (proc.c): [Proc] (all routines), [ProcTable], [ProcLife]
      (allocproc, freeproc), [ProcFork], [ProcExit], [ProcWait] (kwait, kkill,
      statistics), [ProcSleep] (sleep/wakeup and the protocol around sched()).
      No lost wakeup under any interleaving; fork, exit and wait on every
      branch; locking protocol of the scheduler.
    - Strings (string.c): [CString], over a byte memory.
    - Memory (kalloc.c, vm.c, riscv.h, memlayout.h): [Riscv], [Kalloc] (the free
      list in the pages themselves: free and owned pages partition the memory),
      [Vm] (Sv39 page tables in physical memory), [VmTree] (what a well-formed
      page table is), [VmMap] (walk, mappages, uvmunmap), [VmFree], [VmCopy]
      (copyout, copyin, page faults of lazily allocated memory), [KvmSpec] (the
      kernel's own page table: what it maps, to what, and what it leaves out).
    - Sleep locks and file-system data (sleeplock.c, buf.h, fs.h, file.h):
      [FsState]; bytes of blocks: [Bytes].
    - Buffer cache (bio.c): [Bio], [BioList] (the doubly linked LRU list),
      [BioSpec], [BioOps]: the invariant [bio s V R K], in which [V] gives the
      contents of every block as the kernel sees it, [R] the reference counts
      and [K] the locked blocks.
    - Log (log.c): [Log], [LogSpec], [LogCrash] (a crash between any two disk
      writes, and during recovery), [LogOps] (log_write, begin_op, end_op): an
      operation refines one atomic update of its blocks.
    - File system (fs.c): [Fs] (all of fs.c), [FsNames] (path elements, names,
      the layout of inodes and directory entries), [FsTxn] (blocks inside a
      transaction), [FsAlloc] (free map: balloc, bfree), [FsFile] (the blocks
      of a file), [FsBmap] (bmap), [FsRead] (readi), [FsWrite] (writei, and
      that readi returns what writei wrote).
    - Pipes (pipe.c): [Pipe], [PipeSpec] (a FIFO queue under any interleaving).
    - Files (file.c): [File] (with: a chunk of a write fits in the log).
    - System calls on files (sysfile.c, argument fetching of syscall.c): [Sysfile].
    - Traps and system calls (trap.c, sysproc.c, the dispatch of syscall.c):
      [Trap], [TrapSpec] (an interrupt in the kernel is transparent to the code
      it interrupts, also when it yields; a trap from user mode returns to the
      right place with the registers set up for the next trap), [TrapSys]
      (pause() ends and waits long enough; sbrk() keeps sizes in bounds).
    - Program loading (exec.c, sys_exec, forkret): [Exec], [ExecSpec] (kexec()
      replaces the program as a whole or leaves everything as it was),
      [ExecSys] (the pages of the arguments).
    - Console (console.c): [Console], [ConsoleSpec] (the ring buffer refines a
      line-edited queue).
    - Disk driver (virtio_disk.c, virtio.h): [Virtio] (the driver and the device
      it shares the queue with), [VirtioSpec] (the invariant of descriptors and
      rings), [VirtioRun]: under any interleaving of processes, interrupts and
      the device the driver is safe, refines a disk that moves each requested
      block once, and every request comes to an end.
    - Serial port (uart.c): [Uart] (the driver and a 16550 with its FIFO),
      [UartSpec]: under any interleaving of writers, the interrupt handler and
      the device every byte written is transmitted once and in order, and every
      write ends.
    - The file system image (mkfs.c): [Mkfs] (the host program over the bytes of
      the image file), [MkfsSpec] (the sectors and the inodes), [MkfsImage] (the
      invariant of the image under construction), [MkfsSafe] (the finished image
      is one the kernel's fs.c accepts, and holds the files it was given).
    - Interrupt controller (plic.c): [Plic] (the driver and a controller behind
      its addresses): no two harts serve one interrupt, and none is lost.
    - Formatted output (printf.c, printk.c): [Printf].
    - User programs: [Ulib] (ulib.c), [Umalloc], [UmallocSpec], [UmallocSafe]
      (umalloc.c: blocks handed out are disjoint, after any sequence of calls),
      [Grep] (grep.c: the matcher against a declarative definition of matching,
      and the line loop whatever pieces read() returns).
    - Small tools (cat, echo, wc, ls, rm, mkdir, ln, kill, sync, init, schedinfo,
      main() of grep): [Tools], over the system calls of the class [Sys] with the
      laws [SysLaws]: cat, wc and ls print what they should however read() cuts
      a file up, and init waits for orphans and restarts the shell.
    - Shell (sh.c): [Sh] (lexer, recursive-descent parser, runcmd() as the tree
      of system calls it makes), [ShSpec] (the parser ends on every line, with a
      well-formed command or a syntax error), [ShPrint] (parsing what is printed
      gives the command back), [ShRun] (which program runs with which files on
      its descriptors).

    - Boot (start.c, main.c): [Boot] puts the other components together in one
      machine with all its harts; [lower_env] is the class [ProcEnv] of the
      processes, given by [Vm] and [Fs].  [BootMem] (the memory while the rest is
      initialised, and the address space of the first process), [BootProc]
      (procinit, iinit and userinit over it), [BootInv] (the invariant: which
      part is initialised is a function of the calls hart 0 has left, call by
      call), [BootSpec]: in every interleaving no hart fails, none passes the
      loop on [started] too early, and all reach scheduler().

    ** Bounds

    Table sizes, block sizes and all other constants are those of param.h,
    fs.h and riscv.h.  [NPROC] rounds of a scan, one iteration per block, page
    or table entry are the loops' own bounds.  [mlfq_select_next] and
    [priority_select_next] may start over when another CPU takes the process
    they found; their [fuel] argument bounds the rounds, and one is shown to be
    enough when no other CPU interferes.  The theorems on readi and writei ask
    for room in the log and in the buffer cache ([room]); [File] shows that
    a chunk of filewrite() has it.

    ** Not modelled, and limits of the model

    - Assembly (entry.S, swtch.S, trampoline.S, kernelvec.S): its meaning is the
      hardware's.  For the buffer cache a disk transfer is one atomic read or
      write of a block, which is what [VirtioRun] shows of the driver; what
      printk writes is part of the state only in [Boot].
    - At boot a step is a whole call of main(): a hart that waits for a lock of
      another does not show.  The TLB is not modelled, so that sfence_vma() does
      nothing.  [Vm] and [Fs] have a copy of struct cpu each, which [Boot] sets
      from the hart's own before each call.  What happens after the harts are
      in scheduler() is the subject of the other parts.
    - The disk driver's writes to the notification and acknowledge registers,
      and the wakeup() of processes that wait for the disk, have no effect in
      [Virtio]; the device's part follows the virtio specification.
    - The file system runs one process at a time: where it would sleep for
      another process the outcome is [Spin]; wakeup() has no effect there.
    - The serial port is a 16550 whose registers behave as its data sheet says;
      push_off() and the check of [panicking] in uartputc_sync() are left out,
      and a process asleep in uartwrite() is one whose channel is set.
    - mkfs runs on a little-endian host; the files it copies are a parameter.
    - The test programs of src/user (usertests.c, grind.c and others) and the
      benchmark schedbench.c: they only issue system calls.  A read() of the
      small tools does not fail once a file is open.
    - The trap code has one hart's registers; what interrupts and other
      processes do to them meanwhile is [csr_other].
    - proc.c calls the page allocator, the virtual memory and the file system
      through the class [ProcEnv]; [Kalloc], [Vm] and [Fs] are the models of these
      parts and [Boot] builds [ProcEnv] from them, but [EnvLaws], which the
      theorems on fork and exit ask for, is not derived from them. *)
From Stdlib Require Import ZArith Lia.
From stdpp Require Import base list strings option gmap.

#[global] Open Scope Z_scope.
#[global] Arguments Nat.modulo : simpl never.
#[global] Arguments Nat.div : simpl never.
#[global] Arguments Z.modulo : simpl never.
#[global] Arguments Z.div : simpl never.
#[global] Arguments Z.mul : simpl never.
#[global] Arguments Z.add : simpl never.
#[global] Arguments Z.sub : simpl never.
#[global] Arguments Z.pow : simpl never.
#[global] Arguments Z.eqb : simpl never.
#[global] Arguments Z.ltb : simpl never.
#[global] Arguments Z.leb : simpl never.

(** ** Outcomes of kernel code

    A kernel routine returns a value, halts the machine in [panic(msg)], spins
    for ever waiting for another CPU (a [while] loop on a lock word), or leaves
    the defined behaviour of C ([UB]: an array index out of range, a null
    dereference).  [NoFuel] is only produced by loops whose bound is an
    explicit argument of the definition. *)
Inductive outcome (A : Type) : Type :=
| Ok (a : A)
| Panic (msg : string)
| Spin
| UB
| NoFuel.
Arguments Ok {A} a.
Arguments Panic {A} msg.
Arguments Spin {A}.
Arguments UB {A}.
Arguments NoFuel {A}.

Definition obind {A B : Type} (m : outcome A) (k : A -> outcome B) : outcome B :=
  match m with
  | Ok a => k a
  | Panic msg => Panic msg
  | Spin => Spin
  | UB => UB
  | NoFuel => NoFuel
  end.

(** A stateful kernel routine: explicit state passing over [outcome]. *)
Definition M (S A : Type) : Type := S -> outcome (A * S).

Definition mret {S A : Type} (a : A) : M S A := fun s => Ok (a, s).
Definition mbind {S A B : Type} (m : M S A) (k : A -> M S B) : M S B :=
  fun s => obind (m s) (fun r => k (fst r) (snd r)).
Definition mget {S : Type} : M S S := fun s => Ok (s, s).
Definition mreads {S A : Type} (f : S -> A) : M S A := fun s => Ok (f s, s).
Definition mmodify {S : Type} (f : S -> S) : M S unit := fun s => Ok (tt, f s).
Definition mpanic {S A : Type} (msg : string) : M S A := fun _ => Panic msg.
Definition mspin {S A : Type} : M S A := fun _ => Spin.
Definition mub {S A : Type} : M S A := fun _ => UB.
Definition mnofuel {S A : Type} : M S A := fun _ => NoFuel.
Definition mlift {S A : Type} (o : outcome A) : M S A :=
  fun s => obind o (fun a => Ok (a, s)).

Create HintDb kernel.

Declare Scope kernel_scope.
Delimit Scope kernel_scope with K.
Notation "'let*' x := m 'in' k" := (mbind m (fun x => k))
  (at level 10, x pattern, m at level 100, k at level 200,
   format "'[v' 'let*'  x  :=  m  'in' '/' k ']'") : kernel_scope.
Notation "m ';;;' k" := (mbind m (fun _ => k))
  (at level 199, right associativity, format "'[v' m ;;; '/' k ']'") : kernel_scope.
#[global] Open Scope kernel_scope.

(** [for (x in l) body], and the same loop with an early [return]. *)
Fixpoint for_each {S A : Type} (l : list A) (body : A -> M S unit) : M S unit :=
  match l with
  | [] => mret tt
  | x :: l' => body x ;;; for_each l' body
  end.

Fixpoint for_until {S A R : Type} (l : list A) (body : A -> M S (option R))
    : M S (option R) :=
  match l with
  | [] => mret None
  | x :: l' =>
      let* r := body x in
      match r with
      | Some v => mret (Some v)
      | None => for_until l' body
      end
  end.

(** A loop that threads local variables [acc] through its iterations. *)
Fixpoint for_fold {S A B : Type} (l : list A) (body : A -> B -> M S B) (acc : B) : M S B :=
  match l with
  | [] => mret acc
  | x :: l' => let* acc := body x acc in for_fold l' body acc
  end.

(** [while]/[for (;;)]: [body] maps the loop variables to their next values
    or to the result; [fuel] bounds the number of iterations. *)
Fixpoint mloop {S A B : Type} (fuel : nat) (body : A -> M S (A + B)) (a : A) : M S B :=
  match fuel with
  | O => mnofuel
  | Datatypes.S fuel =>
      let* r := body a in
      match r with
      | inl a => mloop fuel body a
      | inr b => mret b
      end
  end.

(** ** Record update: [r <| field := v |>] *)
Class Eta (R : Type) := eta : R -> R.
Class Setter {R T : Type} (get : R -> T) : Type := mkSetter { update : (T -> T) -> R -> R }.
Arguments update {R T} get {_} f r /.
Arguments eta {R _} r /.

Ltac solve_setter :=
  match goal with
  | |- @Setter ?R ?T ?get =>
      let f := fresh "f" in let r := fresh "r" in
      refine (@mkSetter R T get (fun (f : T -> T) (r : R) => _));
      let inst := constr:(_ : Eta R) in
      let e := eval red in (inst r) in
      let b := eval pattern (get r) in e in
      match b with
      | ?F _ =>
          let t := eval cbv beta in (F (f (get r))) in exact t
      end
  end.
#[global] Hint Extern 1 (Setter _) => solve_setter : typeclass_instances.

Notation "r <| f := v |>" := (update f (fun _ => v) r)
  (at level 1, left associativity, format "r  <| f  :=  v |>") : kernel_scope.
Notation "r <| f ::= g |>" := (update f g r)
  (at level 1, left associativity, format "r  <| f  ::=  g |>") : kernel_scope.


(** ** Machine integers

    A [w]-bit unsigned value is a [Z] in [0, 2^w); a signed one is its two's
    complement reading. *)
Definition u8 (x : Z) : Z := x mod 2 ^ 8.
Definition u16 (x : Z) : Z := x mod 2 ^ 16.
Definition u32 (x : Z) : Z := x mod 2 ^ 32.
Definition u64 (x : Z) : Z := x mod 2 ^ 64.
Definition i32 (x : Z) : Z :=
  let y := x mod 2 ^ 32 in if y <? 2 ^ 31 then y else y - 2 ^ 32.
Definition i16 (x : Z) : Z :=
  let y := x mod 2 ^ 16 in if y <? 2 ^ 15 then y else y - 2 ^ 16.

(** ** Tactics of the development *)
Ltac munfold :=
  unfold mbind, mret, mget, mreads, mmodify, mpanic, mspin, mub, mnofuel, mlift,
    obind in *; cbn [fst snd] in *.

(** Case analysis on the scrutinee of a [match] or [if] in the goal or in a
    hypothesis. *)
Ltac dmatch :=
  match goal with
  | |- context [match ?x with _ => _ end] => destruct x eqn:?
  end.
Ltac dmatch_in H :=
  match type of H with
  | context [match ?x with _ => _ end] => destruct x eqn:?
  end.

(** ** Generic lemmas *)
Section Monad.
Context {S A B : Type}.
Implicit Types (m : M S A) (k : A -> M S B).

Lemma mbind_Ok m k s a s1 :
  m s = Ok (a, s1) -> mbind m k s = k a s1.
Proof. intros H. unfold mbind. rewrite H. reflexivity. Qed.

Lemma mbind_modify (f : S -> S) (k : unit -> M S B) s : mbind (mmodify f) k s = k tt (f s).
Proof. reflexivity. Qed.
Lemma mbind_reads (f : S -> A) k s : mbind (mreads f) k s = k (f s) s.
Proof. reflexivity. Qed.
Lemma mbind_ret a k s : mbind (mret a) k s = k a s.
Proof. reflexivity. Qed.

Lemma mbind_Panic m k s msg :
  m s = Panic msg -> mbind m k s = Panic msg.
Proof. intros H. unfold mbind. rewrite H. reflexivity. Qed.

Lemma mbind_Ok_inv m k s b s2 :
  mbind m k s = Ok (b, s2) ->
  exists a s1, m s = Ok (a, s1) /\ k a s1 = Ok (b, s2).
Proof.
  unfold mbind, obind. destruct (m s) as [[a s1]| | | |] eqn:E; try discriminate.
  simpl. intros H. eauto.
Qed.
End Monad.

Lemma mbind_assoc {S A B C : Type} (m : M S A) (f : A -> M S B) (k : B -> M S C) s :
  mbind (mbind m f) k s = mbind m (fun a => mbind (f a) k) s.
Proof. unfold mbind, obind. by destruct (m s) as [[a s1]| | | |]. Qed.

Lemma mbind_get {S B : Type} (k : S -> M S B) (x : S) : mbind mget k x = k x x.
Proof. reflexivity. Qed.

Lemma Ok_pair_inj {S A : Type} (a b : A) (s t : S) :
  Ok (a, s) = Ok (b, t) -> a = b /\ s = t.
Proof. intros H. split; congruence. Qed.

(** [bind_inv H] peels one [let*] off a hypothesis [_ = Ok _]. *)
Tactic Notation "bind_inv" hyp(H) "as" ident(a) ident(s) ident(E) :=
  apply mbind_Ok_inv in H; destruct H as (a & s & E & H).

Lemma for_each_app {S A : Type} (l1 l2 : list A) (body : A -> M S unit) (s : S) :
  for_each (l1 ++ l2) body s = (for_each l1 body ;;; for_each l2 body) s.
Proof.
  revert s. induction l1 as [|x l1 IH]; intros s; simpl; [reflexivity|].
  unfold mbind, obind. destruct (body x s) as [[[] s1]| | | |]; simpl; auto.
Qed.

(** An invariant of the body of a loop is an invariant of the loop. *)
Lemma for_each_inv {S A : Type} (P : S -> Prop) (l : list A) (body : A -> M S unit) s s' :
  (forall x s1 s2, x ∈ l -> P s1 -> body x s1 = Ok (tt, s2) -> P s2) ->
  P s -> for_each l body s = Ok (tt, s') -> P s'.
Proof.
  revert s. induction l as [|x l IH]; intros s Hb HP H; simpl in H.
  - unfold mret in H. congruence.
  - apply mbind_Ok_inv in H as ([] & s1 & H1 & H2).
    eapply IH; [|eapply Hb; eauto; constructor|exact H2].
    intros y s2 s3 Hy. apply Hb. by constructor.
Qed.

Lemma insert_as_alter {A : Type} (f : A -> A) (l : list A) i x :
  l !! i = Some x -> <[i := f x]> l = alter f i l.
Proof.
  intros Hx. apply list_eq. intros j. rewrite list_lookup_alter.
  destruct (decide (i = j)) as [<-|Hne].
  - rewrite list_lookup_insert_eq by (eapply lookup_lt_Some; eauto). by rewrite Hx.
  - by rewrite list_lookup_insert_ne by done.
Qed.

(** [List.find] returns the first match. *)
Lemma find_first {A : Type} (f : A -> bool) (l : list A) x :
  List.find f l = Some x ->
  exists n, l !! n = Some x /\ f x = true /\
    forall m y, (m < n)%nat -> l !! m = Some y -> f y = false.
Proof.
  induction l as [|a l IH]; simpl; [done|]. destruct (f a) eqn:Ha.
  - intros [= ->]. exists 0%nat. split_and!; try done. intros; lia.
  - intros H. destruct (IH H) as (n & H1 & H2 & H3). exists (S n). split_and!; try done.
    intros [|m] y Hm Hy; simpl in Hy; [congruence|]. apply (H3 m); [lia|done].
Qed.

Lemma find_none_elem {A : Type} (f : A -> bool) (l : list A) x :
  List.find f l = None -> x ∈ l -> f x = false.
Proof. intros H Hx. eapply find_none; [exact H|by apply list_elem_of_In]. Qed.

Lemma find_ext {A : Type} (f g : A -> bool) (l : list A) :
  (forall x, f x = g x) -> List.find f l = List.find g l.
Proof. intros H. induction l as [|x l IH]; simpl; [done|]. by rewrite H, IH. Qed.

Section ForUntil.
Context {S A R : Type} (body : A -> M S (option R)).

Lemma for_until_next x l s s1 :
  body x s = Ok (None, s1) -> for_until (x :: l) body s = for_until l body s1.
Proof. intros H. simpl. unfold mbind. rewrite H. reflexivity. Qed.

Lemma for_until_found x l s s1 v :
  body x s = Ok (Some v, s1) -> for_until (x :: l) body s = Ok (Some v, s1).
Proof. intros H. simpl. unfold mbind. rewrite H. reflexivity. Qed.
End ForUntil.

Section Loop.
Context {S A B : Type} (body : A -> M S (A + B)).

Lemma mloop_next fuel a a' s s' :
  body a s = Ok (inl a', s') -> mloop (Datatypes.S fuel) body a s = mloop fuel body a' s'.
Proof. intros H. cbn [mloop]. by rewrite (mbind_Ok _ _ _ _ _ H). Qed.

Lemma mloop_stop fuel a b s s' :
  body a s = Ok (inr b, s') -> mloop (Datatypes.S fuel) body a s = Ok (b, s').
Proof. intros H. cbn [mloop]. by rewrite (mbind_Ok _ _ _ _ _ H). Qed.

(** A loop whose variant [mu] decreases returns, with a postcondition that its
    last iteration establishes from the invariant [Inv]. *)
Lemma mloop_ok (Inv : A -> S -> Prop) (Post : B -> S -> Prop) (mu : A -> nat) fuel a s :
  (forall a s, Inv a s -> exists r s', body a s = Ok (r, s') /\ match r with
     | inl a' => Inv a' s' /\ (mu a' < mu a)%nat
     | inr b => Post b s'
     end) ->
  Inv a s -> (mu a < fuel)%nat ->
  exists b s', mloop fuel body a s = Ok (b, s') /\ Post b s'.
Proof.
  intros Hb. revert a s. induction fuel as [|fuel IH]; intros a s Ha Hf; [lia|].
  destruct (Hb a s Ha) as ([a'|b] & s' & H1 & H2).
  - rewrite (mloop_next _ _ _ _ _ H1). destruct H2 as [H2 Hlt]. apply IH; [done|lia].
  - rewrite (mloop_stop _ _ _ _ _ H1). eauto.
Qed.
End Loop.

Section MachineIntegers.
Lemma u32_range x : 0 <= u32 x < 2 ^ 32.
Proof. apply Z.mod_pos_bound. lia. Qed.
Lemma u64_range x : 0 <= u64 x < 2 ^ 64.
Proof. apply Z.mod_pos_bound. lia. Qed.
Lemma u32_small x : 0 <= x < 2 ^ 32 -> u32 x = x.
Proof. apply Z.mod_small. Qed.
Lemma u64_small x : 0 <= x < 2 ^ 64 -> u64 x = x.
Proof. apply Z.mod_small. Qed.
Lemma u32_u32 x : u32 (u32 x) = u32 x.
Proof. apply u32_small, u32_range. Qed.
Lemma u64_u64 x : u64 (u64 x) = u64 x.
Proof. apply u64_small, u64_range. Qed.
Lemma u32_add_l x y : u32 (u32 x + y) = u32 (x + y).
Proof. apply Z.add_mod_idemp_l. lia. Qed.
Lemma u32_sub_idemp x y : u32 (u32 x - u32 y) = u32 (x - y).
Proof. unfold u32. rewrite <- Zminus_mod. reflexivity. Qed.
Lemma i32_small x : - 2 ^ 31 <= x < 2 ^ 31 -> i32 x = x.
Proof.
  intros H. unfold i32. destruct (decide (0 <= x)).
  - rewrite Z.mod_small by lia. destruct (Z.ltb_spec x (2 ^ 31)); lia.
  - rewrite <- (Z.mod_unique x (2 ^ 32) (-1) (x + 2 ^ 32)) by lia.
    destruct (Z.ltb_spec (x + 2 ^ 32) (2 ^ 31)); lia.
Qed.
Lemma i32_range x : - 2 ^ 31 <= i32 x < 2 ^ 31.
Proof.
  unfold i32. pose proof (Z.mod_pos_bound x (2 ^ 32) ltac:(lia)).
  destruct (Z.ltb_spec (x mod 2 ^ 32) (2 ^ 31)); lia.
Qed.
End MachineIntegers.
