(* ===== verification/Spinlock.v ===== *)
(** * Spin locks and interrupt nesting (kernel/spinlock.c)

    [struct spinlock], the per-CPU nesting counters of [struct cpu], and the
    routines of kernel/spinlock.c.  The first part gives the routines as one
    CPU executes them; the second part breaks [acquire] and [release] into
    their memory accesses and interleaves the accesses of any number of CPUs. *)
From stdpp Require Import base list strings relations.
From Stdlib Require Import ZArith Lia.
From S2P Require Import Prelude.

(** struct spinlock (kernel/spinlock.h) *)
Record spinlock : Type := mkSpinlock {
  locked : Z;
  lk_name : string;
  lk_cpu : option nat
}.
#[global] Instance eta_spinlock : Eta spinlock :=
  fun l => mkSpinlock (locked l) (lk_name l) (lk_cpu l).

(** struct cpu (kernel/proc.h), without the saved context; [sie] is the SIE
    bit of the hart's sstatus register. *)
Record cpu : Type := mkCpu {
  cpu_proc : option nat;
  noff : Z;
  intena : bool;
  sie : bool
}.
#[global] Instance eta_cpu : Eta cpu :=
  fun c => mkCpu (cpu_proc c) (noff c) (intena c) (sie c).

Definition intr_on (c : cpu) : cpu := c <| sie := true |>.
Definition intr_off (c : cpu) : cpu := c <| sie := false |>.
Definition intr_get (c : cpu) : bool := sie c.

Definition initlock (name : string) : spinlock :=
  {| locked := 0; lk_name := name; lk_cpu := None |}.

Definition holding (me : nat) (lk : spinlock) : bool :=
  negb (locked lk =? 0) && bool_decide (lk_cpu lk = Some me).

Definition push_off (c : cpu) : cpu :=
  let old := sie c in
  let c := intr_off c in
  let c := if noff c =? 0 then c <| intena := old |> else c in
  c <| noff ::= fun n => n + 1 |>.

Definition pop_off (c : cpu) : outcome cpu :=
  if intr_get c then Panic "pop_off - interruptible"
  else if noff c <? 1 then Panic "pop_off"
  else
    let c := c <| noff ::= fun n => n - 1 |> in
    Ok (if (noff c =? 0) && intena c then intr_on c else c).

(** The exchange loop of [acquire] ends at once when the lock is free and
    spins when another CPU holds it. *)
Definition acquire (me : nat) (c : cpu) (lk : spinlock) : outcome (cpu * spinlock) :=
  let c := push_off c in
  if holding me lk then Panic "acquire"
  else if locked lk =? 0 then Ok (c, lk <| locked := 1 |> <| lk_cpu := Some me |>)
  else Spin.

Definition release (me : nat) (c : cpu) (lk : spinlock) : outcome (cpu * spinlock) :=
  if negb (holding me lk) then Panic "release"
  else
    let lk := lk <| lk_cpu := None |> <| locked := 0 |> in
    obind (pop_off c) (fun c => Ok (c, lk)).

(** ** Facts for the clients *)
Definition lk_free (lk : spinlock) : Prop := locked lk = 0 /\ lk_cpu lk = None.
Definition lk_held (me : nat) (lk : spinlock) : Prop :=
  locked lk = 1 /\ lk_cpu lk = Some me.

(** What one balanced [acquire]/[release] pair leaves of the CPU state: only
    the scratch copy of the interrupt flag may change. *)
Definition lockcycle (c : cpu) : cpu :=
  if noff c =? 0 then c <| intena := sie c |> else c.

(** Interrupts are off while a lock is held: what [push_off] establishes. *)
Definition cpu_wf (c : cpu) : Prop := 0 <= noff c /\ (0 < noff c -> sie c = false).

Lemma lockcycle_idemp c : lockcycle (lockcycle c) = lockcycle c.
Proof. unfold lockcycle. destruct c as [p n i s]; simpl. destruct (n =? 0) eqn:E; simpl; rewrite ?E; reflexivity. Qed.

Lemma lockcycle_noff c : noff (lockcycle c) = noff c.
Proof. unfold lockcycle. destruct (noff c =? 0); reflexivity. Qed.

Lemma lockcycle_sie c : sie (lockcycle c) = sie c.
Proof. unfold lockcycle. destruct (noff c =? 0); reflexivity. Qed.

Lemma lockcycle_proc c : cpu_proc (lockcycle c) = cpu_proc c.
Proof. unfold lockcycle. destruct (noff c =? 0); reflexivity. Qed.

Lemma cpu_wf_lockcycle c : cpu_wf c -> cpu_wf (lockcycle c).
Proof. unfold cpu_wf. rewrite lockcycle_noff, lockcycle_sie. auto. Qed.

Lemma cpu_wf_push_off c : cpu_wf c -> cpu_wf (push_off c).
Proof. unfold cpu_wf, push_off. simpl. destruct (noff c =? 0); simpl; intuition lia. Qed.

Lemma noff_push_off c : noff (push_off c) = noff c + 1.
Proof. unfold push_off. simpl. destruct (noff c =? 0); reflexivity. Qed.

Lemma sie_push_off c : sie (push_off c) = false.
Proof. unfold push_off. simpl. destruct (noff c =? 0); reflexivity. Qed.

Lemma proc_push_off c : cpu_proc (push_off c) = cpu_proc c.
Proof. unfold push_off. simpl. destruct (noff c =? 0); reflexivity. Qed.

(** Same nesting depth and same current process. *)
Definition same_depth (c c' : cpu) : Prop := noff c' = noff c /\ cpu_proc c' = cpu_proc c.
Lemma same_depth_lockcycle c c' : same_depth (lockcycle c) c' <-> same_depth c c'.
Proof. unfold same_depth. by rewrite lockcycle_noff, lockcycle_proc. Qed.
Lemma same_depth_trans c1 c2 c3 : same_depth c1 c2 -> same_depth c2 c3 -> same_depth c1 c3.
Proof. unfold same_depth. intuition congruence. Qed.

Lemma pop_push_off c :
  cpu_wf c -> pop_off (push_off c) = Ok (lockcycle c).
Proof.
  intros [Hn Hs]. unfold pop_off, intr_get. rewrite sie_push_off, noff_push_off.
  destruct (Z.ltb_spec (noff c + 1) 1); [lia|].
  unfold push_off, lockcycle. destruct c as [p n i s]; simpl in *.
  destruct (Z.eqb_spec n 0) as [->|]; simpl.
  - destruct s; reflexivity.
  - replace (n + 1 - 1) with n by lia.
    destruct (Z.eqb_spec n 0); [lia|]. simpl. rewrite Hs by lia. reflexivity.
Qed.

Lemma acquire_free me c lk :
  lk_free lk ->
  acquire me c lk = Ok (push_off c, lk <| locked := 1 |> <| lk_cpu := Some me |>).
Proof. intros [H1 H2]. unfold acquire, holding. rewrite H1, H2. reflexivity. Qed.

Lemma release_held me c lk :
  lk_held me lk ->
  release me c lk = obind (pop_off c) (fun c => Ok (c, lk <| lk_cpu := None |> <| locked := 0 |>)).
Proof.
  intros [H1 H2]. unfold release, holding. rewrite H1, H2. simpl.
  rewrite bool_decide_eq_true_2 by reflexivity. reflexivity.
Qed.

Lemma acquire_release me c lk :
  lk_free lk -> cpu_wf c ->
  obind (acquire me c lk) (fun r => release me (fst r) (snd r)) = Ok (lockcycle c, lk).
Proof.
  intros Hf Hc. rewrite acquire_free by done. cbn [obind fst snd].
  rewrite release_held by (split; reflexivity). rewrite pop_push_off by done.
  destruct Hf as [H1 H2]. destruct lk as [a b d]; simpl in *. subst. reflexivity.
Qed.

#[export] Hint Resolve cpu_wf_lockcycle cpu_wf_push_off : kernel.

(** ** Nesting of push_off/pop_off *)
Inductive offop : Type := PushOff | PopOff.

Fixpoint run_offs (l : list offop) (c : cpu) : outcome cpu :=
  match l with
  | [] => Ok c
  | PushOff :: l => run_offs l (push_off c)
  | PopOff :: l => obind (pop_off c) (run_offs l)
  end.

(** Matched sequences of push_off and pop_off. *)
Inductive balanced : list offop -> Prop :=
| balanced_nil : balanced []
| balanced_nest l l' :
    balanced l -> balanced l' -> balanced (PushOff :: l ++ PopOff :: l').

(** ** The lock word shared by several CPUs

    Each CPU is at one of the accesses of [acquire]/[release] to the lock. *)
Inductive lkpc : Type :=
| Outside      (* not holding, not acquiring *)
| Exchanging   (* in the atomic-exchange loop of acquire *)
| Exchanged    (* won the exchange, lk->cpu not yet written *)
| Critical     (* acquire returned *)
| Releasing.   (* release cleared lk->cpu, lk->locked not yet stored *)

#[global] Instance lkpc_eq_dec : EqDecision lkpc.
Proof. solve_decision. Defined.

Record lkmachine : Type := mkLkm { lkm_lock : spinlock; lkm_pc : list lkpc }.

Inductive lk_step : lkmachine -> lkmachine -> Prop :=
| step_enter l pcs i :
    pcs !! i = Some Outside -> holding i l = false ->
    lk_step (mkLkm l pcs) (mkLkm l (<[i := Exchanging]> pcs))
| step_exchange_busy l pcs i :
    pcs !! i = Some Exchanging -> locked l <> 0 ->
    lk_step (mkLkm l pcs) (mkLkm (l <| locked := 1 |>) pcs)
| step_exchange_won l pcs i :
    pcs !! i = Some Exchanging -> locked l = 0 ->
    lk_step (mkLkm l pcs) (mkLkm (l <| locked := 1 |>) (<[i := Exchanged]> pcs))
| step_set_cpu l pcs i :
    pcs !! i = Some Exchanged ->
    lk_step (mkLkm l pcs) (mkLkm (l <| lk_cpu := Some i |>) (<[i := Critical]> pcs))
| step_clear_cpu l pcs i :
    pcs !! i = Some Critical -> holding i l = true ->
    lk_step (mkLkm l pcs) (mkLkm (l <| lk_cpu := None |>) (<[i := Releasing]> pcs))
| step_store l pcs i :
    pcs !! i = Some Releasing ->
    lk_step (mkLkm l pcs) (mkLkm (l <| locked := 0 |>) (<[i := Outside]> pcs)).

Definition lkm_init (name : string) (ncpu : nat) : lkmachine :=
  mkLkm (initlock name) (replicate ncpu Outside).

Definition owns (p : lkpc) : bool :=
  match p with Exchanged | Critical | Releasing => true | _ => false end.

(** The invariant: the lock word is set exactly when some CPU owns the lock,
    at most one CPU does, and lk->cpu names the CPU in its critical section. *)
Record lk_inv (m : lkmachine) : Prop := {
  lki_word : locked (lkm_lock m) = 0 \/ locked (lkm_lock m) = 1;
  lki_owner : locked (lkm_lock m) <> 0 <->
              exists i p, lkm_pc m !! i = Some p /\ owns p = true;
  lki_unique : forall i j p q, lkm_pc m !! i = Some p -> lkm_pc m !! j = Some q ->
              owns p = true -> owns q = true -> i = j;
  lki_cpu : forall i, lk_cpu (lkm_lock m) = Some i <-> lkm_pc m !! i = Some Critical
}.

Lemma run_offs_app l l' c :
  run_offs (l ++ l') c = obind (run_offs l c) (run_offs l').
Proof.
  revert c. induction l as [|[] l IH]; intros c; simpl; auto.
  unfold obind. destruct (pop_off c); auto.
Qed.

Lemma run_offs_balanced l :
  balanced l -> forall c, cpu_wf c ->
  run_offs l c = Ok (match l with [] => c | _ => lockcycle c end).
Proof.
  induction 1 as [|l l' _ IH _ IH']; intros c Hc; simpl; [reflexivity|].
  rewrite run_offs_app, IH by auto with kernel. simpl.
  assert (match l with [] => push_off c | _ => lockcycle (push_off c) end = push_off c) as ->.
  { destruct l; [reflexivity|]. unfold lockcycle. rewrite noff_push_off.
    destruct Hc. destruct (Z.eqb_spec (noff c + 1) 0); [lia|reflexivity]. }
  rewrite pop_push_off by done. simpl. rewrite IH' by auto with kernel.
  destruct l'; [reflexivity|]. by rewrite lockcycle_idemp.
Qed.

Lemma lk_inv_init name n : lk_inv (lkm_init name n).
Proof.
  split; simpl.
  - auto.
  - split; [done|]. intros (i & p & H & Ho).
    apply lookup_replicate in H as [-> _]. discriminate.
  - intros i j p q H. apply lookup_replicate in H as [-> _]. discriminate.
  - intros i. split; [done|]. intros H. apply lookup_replicate in H as [? _]. discriminate.
Qed.

(** Lookup after one CPU has moved to another access. *)
Lemma lookup_moved {A} (l : list A) i j (x y z : A) :
  l !! i = Some z -> <[i := x]> l !! j = Some y ->
  (j = i /\ y = x) \/ (j <> i /\ l !! j = Some y).
Proof.
  intros Hi H. destruct (decide (i = j)) as [->|Hne].
  - rewrite list_lookup_insert_eq in H by (eapply lookup_lt_Some; eauto).
    left. split; congruence.
  - rewrite list_lookup_insert_ne in H by done. right. split; congruence.
Qed.

Lemma lookup_self {A} (l : list A) i (x z : A) :
  l !! i = Some z -> <[i := x]> l !! i = Some x.
Proof. intros H. apply list_lookup_insert_eq. eapply lookup_lt_Some; eauto. Qed.

(** Moving a CPU between two non-owning or two owning accesses keeps the set
    of owners. *)
Lemma owners_moved (pcs : list lkpc) (i : nat) p p' :
  pcs !! i = Some p -> owns p' = owns p ->
  forall j, (exists q, <[i := p']> pcs !! j = Some q /\ owns q = true) <->
            (exists q, pcs !! j = Some q /\ owns q = true).
Proof.
  intros Hi Ho j. destruct (decide (j = i)) as [->|Hne].
  - rewrite (lookup_self _ _ _ _ Hi), Hi. split; intros (q & [= <-] & Hq); eexists; split; try done; congruence.
  - rewrite list_lookup_insert_ne by congruence. reflexivity.
Qed.

Lemma lk_inv_same_owners l l' (pcs : list lkpc) (i : nat) p p' :
  lk_inv (mkLkm l pcs) -> pcs !! i = Some p -> owns p' = owns p ->
  locked l' = locked l ->
  (forall j, lk_cpu l' = Some j <-> <[i := p']> pcs !! j = Some Critical) ->
  lk_inv (mkLkm l' (<[i := p']> pcs)).
Proof.
  intros [Hw Ho Hu _] Hi Hp Hl Hcpu. simpl in *. pose proof (owners_moved _ _ _ _ Hi Hp) as Hmv.
  split; simpl; rewrite ?Hl; auto.
  - rewrite Ho. split.
    + intros (j & q & Hj & Hq). destruct (proj2 (Hmv j)) as (q' & ? & ?); eauto.
    + intros (j & q & Hj & Hq). destruct (proj1 (Hmv j)) as (q' & ? & ?); eauto.
  - intros j1 j2 q1 q2 H1 H2 O1 O2.
    destruct (proj1 (Hmv j1)) as (q1' & ? & ?); eauto.
    destruct (proj1 (Hmv j2)) as (q2' & ? & ?); eauto.
Qed.

Lemma holding_spec me lk :
  holding me lk = true <-> locked lk <> 0 /\ lk_cpu lk = Some me.
Proof.
  unfold holding. rewrite andb_true_iff, negb_true_iff, Z.eqb_neq, bool_decide_eq_true.
  reflexivity.
Qed.

Lemma lk_inv_step m m' : lk_inv m -> lk_step m m' -> lk_inv m'.
Proof.
  intros Hinv Hstep. pose proof Hinv as [Hw Ho Hu Hc].
  destruct Hstep as [l pcs i Hi Hh|l pcs i Hi Hl|l pcs i Hi Hl|l pcs i Hi|l pcs i Hi Hh|l pcs i Hi];
    simpl in *.
  - apply (lk_inv_same_owners l l pcs i Outside); auto.
    intros j. rewrite Hc. destruct (decide (j = i)) as [->|].
    + rewrite Hi, (lookup_self _ _ _ _ Hi). split; discriminate.
    + by rewrite list_lookup_insert_ne by congruence.
  - assert (locked l = 1) as Hl1 by tauto.
    assert (l <| locked := 1 |> = l) as E by (destruct l; simpl in *; by subst).
    simpl in E. by rewrite E.
  - assert (forall j q, pcs !! j = Some q -> owns q = false) as Hno.
    { intros j q Hj. destruct (owns q) eqn:E; [|done]. exfalso.
      apply (proj2 Ho); eauto. }
    split; simpl.
    + auto.
    + split; [|lia]. intros _. exists i, Exchanged. by rewrite (lookup_self _ _ _ _ Hi).
    + intros a b p q Ha Hb Hp Hq.
      destruct (lookup_moved _ _ _ _ _ _ Hi Ha) as [[-> ->]|[? Ha']];
        destruct (lookup_moved _ _ _ _ _ _ Hi Hb) as [[-> ->]|[? Hb']]; auto;
        exfalso; [apply Hno in Hb'|apply Hno in Ha'|apply Hno in Ha']; congruence.
    + intros j. rewrite Hc. destruct (decide (j = i)) as [->|].
      * rewrite Hi, (lookup_self _ _ _ _ Hi). split; discriminate.
      * by rewrite list_lookup_insert_ne by congruence.
  - apply (lk_inv_same_owners l _ pcs i Exchanged); auto.
    intros j. simpl. destruct (decide (j = i)) as [->|Hne].
    + rewrite (lookup_self _ _ _ _ Hi). split; auto.
    + rewrite list_lookup_insert_ne by congruence. split; [congruence|].
      intros Hj. exfalso. apply Hne. by eapply (Hu j i); eauto.
  - apply (lk_inv_same_owners l _ pcs i Critical); auto.
    intros j. simpl. split; [discriminate|]. intros Hj.
    destruct (lookup_moved _ _ _ _ _ _ Hi Hj) as [[-> ?]|[Hne Hj']]; [discriminate|].
    exfalso. apply Hne. by eapply (Hu j i); eauto.
  - assert (forall j q, j <> i -> pcs !! j = Some q -> owns q = false) as Hno.
    { intros j q Hj Hq. destruct (owns q) eqn:E; [|done]. exfalso. apply Hj.
      by eapply (Hu j i); eauto. }
    split; simpl.
    + auto.
    + split; [lia|]. intros (j & q & Hj & Hq) _.
      destruct (lookup_moved _ _ _ _ _ _ Hi Hj) as [[-> ->]|[? Hj']]; [discriminate|].
      apply Hno in Hj'; congruence.
    + intros a b p q Ha Hb Hp Hq.
      destruct (lookup_moved _ _ _ _ _ _ Hi Ha) as [[-> ->]|[? Ha']]; [discriminate|].
      apply Hno in Ha'; congruence.
    + intros j. rewrite Hc. destruct (decide (j = i)) as [->|].
      * rewrite Hi, (lookup_self _ _ _ _ Hi). split; discriminate.
      * by rewrite list_lookup_insert_ne by congruence.
Qed.

Lemma lk_inv_reachable name n m :
  rtc lk_step (lkm_init name n) m -> lk_inv m.
Proof.
  intros H. pose proof (lk_inv_init name n) as Hi. revert Hi.
  induction H; eauto using lk_inv_step.
Qed.

(** ** Theorems *)

(** a matched sequence of [push_off]/[pop_off] never panics, restores the
    nesting depth and the interrupt flag, whatever it was before. *)
Theorem push_pop_off_balanced l c :
  balanced l -> cpu_wf c ->
  exists c', run_offs l c = Ok c' /\ noff c' = noff c /\ sie c' = sie c /\ cpu_wf c'.
Proof.
  intros Hl Hc. rewrite (run_offs_balanced _ Hl) by done. eexists. split; [reflexivity|].
  destruct l; [done|]. rewrite lockcycle_noff, lockcycle_sie. auto with kernel.
Qed.

Lemma push_pop_off_balanced_witness :
  exists c', run_offs [PushOff; PushOff; PopOff; PopOff] (mkCpu None 0 false true) = Ok c' /\
    noff c' = 0 /\ sie c' = true /\ cpu_wf c'.
Proof.
  apply (push_pop_off_balanced [PushOff; PushOff; PopOff; PopOff] (mkCpu None 0 false true)).
  - apply (balanced_nest [PushOff; PopOff] []); [apply (balanced_nest [] [])|]; constructor.
  - split; simpl; lia.
Defined.

(** C38: mutual exclusion. *)
Theorem spinlock_mutex name n m :
  rtc lk_step (lkm_init name n) m ->
  (forall i j, lkm_pc m !! i = Some Critical -> lkm_pc m !! j = Some Critical -> i = j) /\
  (forall i, lkm_pc m !! i = Some Critical -> holding i (lkm_lock m) = true) /\
  (forall i, lkm_pc m !! i = Some Outside -> holding i (lkm_lock m) = false).
Proof.
  intros H. apply lk_inv_reachable in H as [Hw Ho Hu Hc]. split; [|split].
  - intros i j Hi Hj. by eapply (Hu i j).
  - intros i Hi. apply holding_spec. split; [|by apply Hc]. apply Ho. eauto.
  - intros i Hi. apply not_true_iff_false. rewrite holding_spec. intros [_ Hcpu].
    apply Hc in Hcpu. congruence.
Qed.

Lemma spinlock_mutex_witness :
  let m := mkLkm (mkSpinlock 1 "l" (Some 1%nat)) [Exchanging; Critical] in
  holding 1 (lkm_lock m) = true.
Proof.
  intros m. assert (rtc lk_step (lkm_init "l" 2) m) as H.
  { eapply rtc_l; [apply (step_enter _ _ 0%nat); reflexivity|]. simpl.
    eapply rtc_l; [apply (step_enter _ _ 1%nat); reflexivity|]. simpl.
    eapply rtc_l; [apply (step_exchange_won _ _ 1%nat); reflexivity|]. simpl.
    eapply rtc_l; [apply (step_set_cpu _ _ 1%nat); reflexivity|]. simpl.
    apply rtc_refl. }
  exact (proj1 (proj2 (spinlock_mutex "l" 2 m H)) 1%nat eq_refl).
Defined.
