(* ===== verification/KState.v ===== *)
(** * The process table and the kernel state around it (kernel/proc.h,
    kernel/sched.h, kernel/param.h)

    [struct proc], [struct trapframe] and the globals of kernel/proc.c,
    kernel/sched*.c and kernel/trap.c that the process and scheduling code
    reads and writes, as one record passed explicitly; the accesses to a table
    entry under its lock. *)
From stdpp Require Import base list strings gmap.
From Stdlib Require Import ZArith Lia.
From S2P Require Import Prelude Spinlock.

(** kernel/param.h *)
Definition NPROC : nat := 64.
Definition NCPU : nat := 8.
Definition NOFILE : nat := 16.

(** enum procstate (kernel/proc.h) *)
Inductive procstate : Type :=
| UNUSED | USED | SLEEPING | RUNNABLE | RUNNING | ZOMBIE.

#[global] Instance procstate_eq_dec : EqDecision procstate.
Proof. solve_decision. Defined.

(** The integer value of the enumerator. *)
Definition procstate_num (s : procstate) : nat :=
  match s with
  | UNUSED => 0 | USED => 1 | SLEEPING => 2 | RUNNABLE => 3 | RUNNING => 4 | ZOMBIE => 5
  end.
Definition PROC_STATE_COUNT : nat := 6.

(** enum sched_policy (kernel/sched.h) *)
Definition SCHED_RR : Z := 0.
Definition SCHED_STATIC_PRIORITY : Z := 1.
Definition SCHED_MLFQ : Z := 2.
Definition SCHED_POLICY_COUNT : Z := 3.
(** The default of kernel/sched.h when the build does not override it. *)
Definition SCHED_DEFAULT_POLICY : Z := SCHED_RR.
Definition SCHED_DEFAULT_PRIORITY : Z := 0.
Definition SCHED_DEFAULT_QUEUE_LEVEL : Z := 0.
Definition SCHED_RR_TIME_SLICE : Z := 1.
Definition SCHED_MLFQ_LEVELS : Z := 3.
Definition SCHED_MLFQ_TIME_SLICE_0 : Z := 1.
Definition SCHED_MLFQ_TIME_SLICE_1 : Z := 2.
Definition SCHED_MLFQ_TIME_SLICE_2 : Z := 4.
Definition SCHED_MLFQ_AGING_THRESHOLD : Z := 8.

(** A wait channel: the address of the object a process waits for. *)
Inductive waitchan : Type :=
| ChProc (i : nat)        (* a struct proc, for wait() *)
| ChTicks                 (* &ticks *)
| ChLog                   (* &log *)
| ChAddr (a : Z).         (* any other kernel object *)

#[global] Instance waitchan_eq_dec : EqDecision waitchan.
Proof. solve_decision. Defined.

(** struct trapframe (kernel/proc.h) *)
Record trapframe : Type := mkTrapframe {
  kernel_satp : Z; kernel_sp : Z; kernel_trap : Z; epc : Z; kernel_hartid : Z;
  tf_ra : Z; tf_sp : Z; tf_gp : Z; tf_tp : Z; tf_t0 : Z; tf_t1 : Z; tf_t2 : Z;
  tf_s0 : Z; tf_s1 : Z; tf_a0 : Z; tf_a1 : Z; tf_a2 : Z; tf_a3 : Z; tf_a4 : Z;
  tf_a5 : Z; tf_a6 : Z; tf_a7 : Z; tf_s2 : Z; tf_s3 : Z; tf_s4 : Z; tf_s5 : Z;
  tf_s6 : Z; tf_s7 : Z; tf_s8 : Z; tf_s9 : Z; tf_s10 : Z; tf_s11 : Z; tf_t3 : Z;
  tf_t4 : Z; tf_t5 : Z; tf_t6 : Z
}.
#[global] Instance eta_trapframe : Eta trapframe := fun t =>
  mkTrapframe (kernel_satp t) (kernel_sp t) (kernel_trap t) (epc t) (kernel_hartid t)
    (tf_ra t) (tf_sp t) (tf_gp t) (tf_tp t) (tf_t0 t) (tf_t1 t) (tf_t2 t)
    (tf_s0 t) (tf_s1 t) (tf_a0 t) (tf_a1 t) (tf_a2 t) (tf_a3 t) (tf_a4 t)
    (tf_a5 t) (tf_a6 t) (tf_a7 t) (tf_s2 t) (tf_s3 t) (tf_s4 t) (tf_s5 t)
    (tf_s6 t) (tf_s7 t) (tf_s8 t) (tf_s9 t) (tf_s10 t) (tf_s11 t) (tf_t3 t)
    (tf_t4 t) (tf_t5 t) (tf_t6 t).

(** struct context (kernel/proc.h) as allocproc uses it: the return address,
    the stack pointer and the twelve callee-saved registers. *)
Record context : Type := mkContext { ctx_ra : Z; ctx_sp : Z; ctx_s : list Z }.
#[global] Instance eta_context : Eta context := fun c =>
  mkContext (ctx_ra c) (ctx_sp c) (ctx_s c).

(** struct proc (kernel/proc.h).  Pointers to other tables are their index or
    address, 0 standing for the null pointer of [ofile], [cwd], [pagetable]
    and [trapframe]. *)
Record proc : Type := mkProc {
  lock : spinlock;
  state : procstate;
  chan : option waitchan;
  killed : Z;
  xstate : Z;
  pid : Z;
  priority : Z;
  queue_level : Z;
  time_slice : Z;
  run_time : Z;
  ready_count : Z;
  ready_ticks : Z;
  ready_since : Z;
  total_ready_time : Z;
  wait_count : Z;
  schedule_count : Z;
  create_tick : Z;
  first_run_tick : Z;
  exit_tick : Z;
  state_stat : list Z;
  sched_policy : Z;
  parent : option nat;
  kstack : Z;
  sz : Z;
  pagetable : Z;
  trapframe_ptr : Z;
  p_context : context;
  ofile : list Z;
  cwd : Z;
  name : list Z
}.
#[global] Instance eta_proc : Eta proc := fun p =>
  mkProc (lock p) (state p) (chan p) (killed p) (xstate p) (pid p) (priority p)
    (queue_level p) (time_slice p) (run_time p) (ready_count p) (ready_ticks p)
    (ready_since p) (total_ready_time p) (wait_count p) (schedule_count p)
    (create_tick p) (first_run_tick p) (exit_tick p) (state_stat p) (sched_policy p)
    (parent p) (kstack p) (sz p) (pagetable p) (trapframe_ptr p) (p_context p)
    (ofile p) (cwd p) (name p).

(** The globals of kernel/proc.c, kernel/sched.c, kernel/sched_rr.c,
    kernel/sched_priority.c, kernel/sched_mlfq.c and kernel/trap.c.  [mycpu] is
    the entry of cpus[] of the executing hart, [hartid] its tp register;
    [strategies] holds the registered strategy objects by their identity;
    [tframes] maps the address of a page used as a struct trapframe to it;
    [env] is the state of the memory and file layers below (see [Proc]).
    [kclock] counts the acquisitions of process locks, which is where other
    CPUs get to run (see [Interference]). *)
Record kst (E : Type) : Type := mkKst {
  ticks : Z;
  current_sched_policy : Z;
  strategies : list (option nat);
  procs : list proc;
  nextpid : Z;
  initproc : option nat;
  hartid : nat;
  mycpu : cpu;
  rr_cursor : list nat;
  priority_cursor : list nat;
  mlfq_cursor : list nat;
  wait_lock : spinlock;
  pid_lock : spinlock;
  tframes : gmap Z trapframe;
  env : E;
  kclock : nat
}.
Arguments mkKst {E}.
Arguments ticks {E} _.
Arguments current_sched_policy {E} _.
Arguments strategies {E} _.
Arguments procs {E} _.
Arguments nextpid {E} _.
Arguments initproc {E} _.
Arguments hartid {E} _.
Arguments mycpu {E} _.
Arguments rr_cursor {E} _.
Arguments priority_cursor {E} _.
Arguments mlfq_cursor {E} _.
Arguments wait_lock {E} _.
Arguments pid_lock {E} _.
Arguments tframes {E} _.
Arguments env {E} _.
Arguments kclock {E} _.
#[global] Instance eta_kst E : Eta (kst E) := fun k =>
  mkKst (ticks k) (current_sched_policy k) (strategies k) (procs k) (nextpid k)
    (initproc k) (hartid k) (mycpu k) (rr_cursor k) (priority_cursor k)
    (mlfq_cursor k) (wait_lock k) (pid_lock k) (tframes k) (env k) (kclock k).

(** ** Other CPUs

    While this CPU does not hold an entry's lock, other CPUs may acquire it,
    change the entry and release it.  An [Interference] says what they have
    done to the table by the time of the [n]-th acquisition: they leave the
    entries this CPU has locked alone and their own locks released. *)
Class Interference : Type := {
  interfere : nat -> list proc -> list proc;
  interfere_length n t : length (interfere n t) = length t;
  interfere_locked n t i p :
    t !! i = Some p -> locked (lock p) <> 0 -> interfere n t !! i = Some p;
  interfere_unlocked n t i p q :
    t !! i = Some p -> lk_free (lock p) -> interfere n t !! i = Some q ->
    lk_free (lock q)
}.

(** No other CPU runs: the single-hart configuration of the experiments. *)
Definition quiet : Interference.
Proof.
  refine {| interfere := fun _ t => t |}; try done.
  intros n t i p q Hp Hf Hq. rewrite Hp in Hq. by simplify_eq.
Defined.

Section Access.
Context {E : Type} {I : Interference}.

(** acquire(&proc[i].lock), release(&proc[i].lock) *)
Definition acquire_proc (i : nat) : M (kst E) unit := fun k =>
  let t := interfere (kclock k) (procs k) in
  match t !! i with
  | None => UB
  | Some p =>
      obind (acquire (hartid k) (mycpu k) (lock p)) (fun r =>
        Ok (tt, k <| procs := <[i := p <| lock := snd r |>]> t |>
                  <| mycpu := fst r |> <| kclock ::= S |>))
  end.

Definition release_proc (i : nat) : M (kst E) unit := fun k =>
  match procs k !! i with
  | None => UB
  | Some p =>
      obind (release (hartid k) (mycpu k) (lock p)) (fun r =>
        Ok (tt, k <| procs := <[i := p <| lock := snd r |>]> (procs k) |>
                  <| mycpu := fst r |>))
  end.

(** Reading and assigning fields of proc[i]. *)
Definition read_proc (i : nat) : M (kst E) proc := fun k =>
  match procs k !! i with
  | None => UB
  | Some p => Ok (p, k)
  end.

Definition modify_proc (i : nat) (f : proc -> proc) : M (kst E) unit := fun k =>
  match procs k !! i with
  | None => UB
  | Some p => Ok (tt, k <| procs := <[i := f p]> (procs k) |>)
  end.

End Access.

(** ** Well-formed states and lemmas on critical sections *)
Definition locks_free (t : list proc) : Prop :=
  forall i p, t !! i = Some p -> lk_free (lock p).

Record kwf {E} (k : kst E) : Prop := {
  kwf_procs : length (procs k) = NPROC;
  kwf_cpu : cpu_wf (mycpu k);
  kwf_hart : (hartid k < NCPU)%nat;
  kwf_rr : length (rr_cursor k) = NCPU /\ Forall (fun n => (n < NPROC)%nat) (rr_cursor k);
  kwf_prio : length (priority_cursor k) = NCPU /\
             Forall (fun n => (n < NPROC)%nat) (priority_cursor k);
  kwf_mlfq : length (mlfq_cursor k) = NCPU /\
             Forall (fun n => (n < NPROC)%nat) (mlfq_cursor k)
}.

(** A cursor array of a strategy: one table index per CPU. *)
Definition cursor_ok (c : list nat) : Prop :=
  length c = NCPU /\ Forall (fun n => (n < NPROC)%nat) c.

Lemma cursor_ok_insert c h n : cursor_ok c -> (n < NPROC)%nat -> cursor_ok (<[h := n]> c).
Proof.
  intros [H1 H2] Hn. split; [by rewrite length_insert|]. by apply Forall_insert.
Qed.

(** The lock value while this hart holds it. *)
Definition held_by (h : nat) (l : spinlock) : spinlock :=
  l <| locked := 1 |> <| lk_cpu := Some h |>.

(** The state once other CPUs have run, and after this hart has locked entry
    [i], then holding [p]. *)
Definition kenter {E} {I : Interference} (k : kst E) : kst E :=
  k <| procs := interfere (kclock k) (procs k) |> <| kclock ::= S |>.
Definition klocked {E} {I : Interference} (k : kst E) (i : nat) (p : proc) : kst E :=
  (kenter k) <| procs ::= <[i := p <| lock := held_by (hartid k) (lock p) |>]> |>
           <| mycpu ::= push_off |>.
(** ... and after it has released it with entry [i] set to [p]. *)
Definition kpass {E} {I : Interference} (k : kst E) (i : nat) (p : proc) : kst E :=
  (kenter k) <| procs ::= <[i := p]> |> <| mycpu ::= lockcycle |>.

(** Field assignments under the lock do not look at the lock. *)
Definition lock_frame (f : proc -> proc) : Prop :=
  forall p l, f (p <| lock := l |>) = (f p) <| lock := l |>.

Lemma lk_held_held_by h l : lk_held h (held_by h l).
Proof. split; reflexivity. Qed.

Lemma locks_free_interfere {I : Interference} n t :
  locks_free t -> locks_free (interfere n t).
Proof.
  intros H i q Hq. destruct (t !! i) as [p|] eqn:Hp.
  - eapply interfere_unlocked; eauto.
  - apply lookup_ge_None in Hp. apply lookup_lt_Some in Hq.
    rewrite interfere_length in Hq. lia.
Qed.

Lemma locks_free_insert t i p :
  locks_free t -> lk_free (lock p) -> locks_free (<[i := p]> t).
Proof.
  intros Ht Hp j q Hq. destruct (decide (i = j)) as [->|Hne].
  - destruct (decide (j < length t)%nat).
    + rewrite list_lookup_insert_eq in Hq by done. by simplify_eq.
    + rewrite list_insert_ge in Hq by lia. eauto.
  - rewrite list_lookup_insert_ne in Hq by done. eauto.
Qed.

Lemma free_unheld h p :
  lk_free (lock p) -> p <| lock := held_by h (lock p) |> <| lock ::= fun l => l <| lk_cpu := None |> <| locked := 0 |> |> = p.
Proof. intros [H1 H2]. destruct p as [[]]; simpl in *; subst. reflexivity. Qed.

Section AccessFacts.
Context {E : Type} {I : Interference}.
Implicit Types (k : kst E).

Lemma acquire_proc_ok k i p :
  interfere (kclock k) (procs k) !! i = Some p -> lk_free (lock p) ->
  acquire_proc i k = Ok (tt, klocked k i p).
Proof.
  intros Hp Hf. unfold acquire_proc. cbv zeta. rewrite Hp.
  rewrite acquire_free by done. reflexivity.
Qed.

Lemma release_proc_ok k i p c :
  procs k !! i = Some p -> lk_held (hartid k) (lock p) -> pop_off (mycpu k) = Ok c ->
  release_proc i k =
    Ok (tt, k <| procs ::= <[i := p <| lock ::= fun l => l <| lk_cpu := None |> <| locked := 0 |> |>]> |>
              <| mycpu := c |>).
Proof.
  intros Hp Hl Hc. unfold release_proc. rewrite Hp, release_held, Hc by done. reflexivity.
Qed.

Lemma lookup_klocked k i p q :
  interfere (kclock k) (procs k) !! i = Some q ->
  procs (klocked k i p) !! i = Some (p <| lock := held_by (hartid k) (lock p) |>).
Proof.
  intros Hq. unfold klocked. simpl. apply list_lookup_insert_eq.
  eapply lookup_lt_Some; eauto.
Qed.

Lemma read_proc_klocked k i p q :
  interfere (kclock k) (procs k) !! i = Some q ->
  read_proc i (klocked k i p) = Ok (p <| lock := held_by (hartid k) (lock p) |>, klocked k i p).
Proof. intros Hq. unfold read_proc. by rewrite (lookup_klocked _ _ _ _ Hq). Qed.

Lemma modify_proc_klocked k i p q f :
  interfere (kclock k) (procs k) !! i = Some q -> lock_frame f -> lock (f p) = lock p ->
  modify_proc i f (klocked k i p) = Ok (tt, klocked k i (f p)).
Proof.
  intros Hq Hf Hl. unfold modify_proc. rewrite (lookup_klocked _ _ _ _ Hq). rewrite Hf.
  unfold klocked. simpl. rewrite list_insert_insert_eq, Hl. reflexivity.
Qed.

Lemma release_proc_klocked k i p q :
  interfere (kclock k) (procs k) !! i = Some q -> lk_free (lock p) -> cpu_wf (mycpu k) ->
  release_proc i (klocked k i p) = Ok (tt, kpass k i p).
Proof.
  intros Hq Hf Hc.
  rewrite (release_proc_ok _ _ (p <| lock := held_by (hartid k) (lock p) |>) (lockcycle (mycpu k))).
  - pose proof (free_unheld (hartid k) _ Hf) as Hu. simpl in Hu. simpl. rewrite Hu.
    unfold kpass, klocked. simpl. rewrite list_insert_insert_eq. reflexivity.
  - by apply (lookup_klocked _ _ _ q).
  - apply lk_held_held_by.
  - apply pop_push_off. done.
Qed.

(** The critical section [acquire; assignments; release]. *)
Lemma crit_modify k i p f :
  interfere (kclock k) (procs k) !! i = Some p -> lk_free (lock p) -> cpu_wf (mycpu k) ->
  lock_frame f -> lock (f p) = lock p ->
  (acquire_proc i ;;; modify_proc i f ;;; release_proc i) k = Ok (tt, kpass k i (f p)).
Proof.
  intros Hp Hf Hc Hlf Hl. rewrite (mbind_Ok _ _ _ _ _ (acquire_proc_ok _ _ _ Hp Hf)).
  rewrite (mbind_Ok _ _ _ _ _ (modify_proc_klocked _ _ _ _ _ Hp Hlf Hl)).
  apply (release_proc_klocked _ _ _ _ Hp); [by rewrite Hl|done].
Qed.

Lemma crit_skip k i p :
  interfere (kclock k) (procs k) !! i = Some p -> lk_free (lock p) -> cpu_wf (mycpu k) ->
  (acquire_proc i ;;; release_proc i) k = Ok (tt, kpass k i p).
Proof.
  intros Hp Hf Hc. rewrite (mbind_Ok _ _ _ _ _ (acquire_proc_ok _ _ _ Hp Hf)).
  by apply (release_proc_klocked _ _ _ _ Hp).
Qed.

Lemma locked_read {A} k i p (K : proc -> M (kst E) A) :
  interfere (kclock k) (procs k) !! i = Some p -> lk_free (lock p) ->
  (acquire_proc i ;;; let* q := read_proc i in K q) k =
    K (p <| lock := held_by (hartid k) (lock p) |>) (klocked k i p).
Proof.
  intros Hp Hf. rewrite (mbind_Ok _ _ _ _ _ (acquire_proc_ok _ _ _ Hp Hf)).
  apply mbind_Ok, (read_proc_klocked _ _ _ _ Hp).
Qed.

(** An entry of the table exists and is unlocked when this hart holds no lock. *)
Lemma entry_free k i :
  kwf k -> locks_free (procs k) -> (i < NPROC)%nat ->
  exists p, interfere (kclock k) (procs k) !! i = Some p /\ lk_free (lock p).
Proof.
  intros Hk Hl Hi. destruct (lookup_lt_is_Some_2 (interfere (kclock k) (procs k)) i) as [p Hp].
  { rewrite interfere_length. destruct Hk. lia. }
  exists p. split; [done|]. eapply locks_free_interfere; eauto.
Qed.

Lemma kwf_kenter k : kwf k -> kwf (kenter k).
Proof. intros [H1 H2 H3 H4 H5 H6]. split; simpl; auto. by rewrite interfere_length. Qed.

Lemma kwf_kpass k i p : kwf k -> kwf (kpass k i p).
Proof.
  intros [H1 H2 H3 H4 H5 H6]. split; simpl; auto with kernel.
  by rewrite length_insert, interfere_length.
Qed.

Lemma locks_free_kpass k i p :
  locks_free (procs k) -> lk_free (lock p) -> locks_free (procs (kpass k i p)).
Proof. intros. simpl. by apply locks_free_insert, H0; apply locks_free_interfere. Qed.

End AccessFacts.
#[export] Hint Resolve kwf_kenter kwf_kpass locks_free_kpass locks_free_interfere
  locks_free_insert : kernel.

(** With no other CPU running, a pass over an entry changes only the CPU's
    scratch interrupt flag and the acquisition count. *)
Definition same_table {E} (k k' : kst E) : Prop :=
  k' = k <| mycpu := mycpu k' |> <| kclock := kclock k' |>.

Lemma same_table_refl {E} (k : kst E) : same_table k k.
Proof. by destruct k. Qed.

Lemma same_table_trans {E} (k1 k2 k3 : kst E) :
  same_table k1 k2 -> same_table k2 k3 -> same_table k1 k3.
Proof. unfold same_table. intros H1 H2. rewrite H2, H1. reflexivity. Qed.

Lemma same_table_fields {E} (k k' : kst E) :
  same_table k k' -> procs k' = procs k /\ wait_lock k' = wait_lock k /\ pid_lock k' = pid_lock k /\
    nextpid k' = nextpid k /\ ticks k' = ticks k /\ hartid k' = hartid k.
Proof. intros ->. split_and!; reflexivity. Qed.

Lemma same_table_kpass {E} (k : kst E) i p :
  procs k !! i = Some p -> same_table k (kpass (I := quiet) k i p).
Proof.
  intros H. unfold same_table, kpass. simpl. by rewrite list_insert_id.
Qed.

Lemma lockcycle_kpass {E} {I : Interference} (k : kst E) i p :
  mycpu (kpass k i p) = lockcycle (mycpu k).
Proof. reflexivity. Qed.

(** ** The state at boot: zero-initialised globals of hart [h] *)
Definition zero_proc : proc :=
  {| lock := initlock ""; state := UNUSED; chan := None; killed := 0; xstate := 0; pid := 0;
     priority := 0; queue_level := 0; time_slice := 0; run_time := 0; ready_count := 0;
     ready_ticks := 0; ready_since := 0; total_ready_time := 0; wait_count := 0;
     schedule_count := 0; create_tick := 0; first_run_tick := 0; exit_tick := 0;
     state_stat := replicate PROC_STATE_COUNT 0; sched_policy := 0; parent := None;
     kstack := 0; sz := 0; pagetable := 0; trapframe_ptr := 0;
     p_context := mkContext 0 0 (replicate 12 0); ofile := replicate NOFILE 0; cwd := 0;
     name := replicate 16 0 |}.

Definition boot_kst {E} (e : E) (h : nat) : kst E :=
  {| ticks := 0; current_sched_policy := SCHED_DEFAULT_POLICY;
     strategies := replicate (Z.to_nat SCHED_POLICY_COUNT) None;
     procs := replicate NPROC zero_proc; nextpid := 1; initproc := None; hartid := h;
     mycpu := mkCpu None 0 false false; rr_cursor := replicate NCPU 0%nat;
     priority_cursor := replicate NCPU 0%nat; mlfq_cursor := replicate NCPU 0%nat;
     wait_lock := initlock ""; pid_lock := initlock ""; tframes := ∅; env := e; kclock := 0 |}.

Lemma kwf_boot {E} (e : E) h : (h < NCPU)%nat -> kwf (boot_kst e h).
Proof.
  intros Hh. assert (Forall (fun n => (n < NPROC)%nat) (replicate NCPU 0%nat)) as HF.
  { apply Forall_replicate. unfold NPROC. lia. }
  by split.
Qed.

Lemma locks_free_replicate n p : lk_free (lock p) -> locks_free (replicate n p).
Proof. intros Hp i q Hq. apply lookup_replicate in Hq as [-> _]. done. Qed.

Lemma kwf_procs_set {E} (k : kst E) t : kwf k -> length t = NPROC -> kwf (k <| procs := t |>).
Proof. intros [] Ht. by split. Qed.

(** A table in which entry [i] is set by [f], for evaluating on examples. *)
Definition with_proc {E} (i : nat) (f : proc -> proc) (k : kst E) : kst E :=
  k <| procs ::= alter f i |>.

Lemma kwf_with_proc {E} (k : kst E) i f : kwf k -> kwf (with_proc i f k).
Proof. intros H. apply kwf_procs_set; [done|]. rewrite length_alter. apply H. Qed.

Lemma locks_free_with_proc {E} (k : kst E) i f :
  locks_free (procs k) -> (forall p, lock (f p) = lock p) -> locks_free (procs (with_proc i f k)).
Proof.
  intros Hl Hf j q Hq. simpl in Hq. rewrite list_lookup_alter in Hq.
  destruct (decide (i = j)) as [->|]; [|eauto].
  apply fmap_Some in Hq as (p & Hp & ->). rewrite Hf. eauto.
Qed.

Lemma locks_free_boot {E} (e : E) h : locks_free (procs (boot_kst e h)).
Proof. by apply locks_free_replicate. Qed.
#[export] Hint Resolve kwf_boot kwf_with_proc locks_free_with_proc locks_free_boot : kernel.
