(* ===== verification/SchedScan.v ===== *)
(** * Cyclic scans of the process table

    The three strategies of kernel/sched_rr.c, kernel/sched_priority.c and
    kernel/sched_mlfq.c all visit the table from a per-CPU cursor, wrapping
    around, locking one entry at a time.  This file holds what they share: the
    order of the visit, the distance from the cursor, and the effect of a whole
    scan whose body locks an entry, updates it and keeps a best candidate. *)
From stdpp Require Import base list strings gmap.
From Stdlib Require Import ZArith Lia.
From S2P Require Import Prelude Spinlock KState.

(** ** Cyclic scans of the table, shared by the three strategies *)
Definition rotation (start : nat) : list nat :=
  map (fun offset => ((start + offset) mod NPROC)%nat) (seq 0 NPROC).

Definition runnable (p : proc) : bool := bool_decide (state p = RUNNABLE).
Definition runnable_at (t : list proc) (i : nat) : bool :=
  match t !! i with Some p => runnable p | None => false end.

(** Steps from the cursor to entry [i] in scan order. *)
Definition cyc_dist (start i : nat) : nat := ((i + (NPROC - start)) mod NPROC)%nat.

(** ** Lemmas on rotations *)
Lemma length_rotation s : length (rotation s) = NPROC.
Proof. unfold rotation. rewrite length_map, length_seq. reflexivity. Qed.

Lemma rotation_map s :
  map (fun o => ((s + o) mod NPROC)%nat) (seq 0 NPROC) = rotation s.
Proof. reflexivity. Qed.

Lemma rotation_lookup s o : (o < NPROC)%nat -> rotation s !! o = Some ((s + o) mod NPROC)%nat.
Proof.
  intros Ho. unfold rotation. rewrite list_lookup_fmap, lookup_seq_lt by done. reflexivity.
Qed.

Lemma rotation_lt s i : i ∈ rotation s -> (i < NPROC)%nat.
Proof.
  intros H. apply list_elem_of_lookup in H as (o & Ho).
  pose proof (lookup_lt_Some _ _ _ Ho) as Hlt. rewrite length_rotation in Hlt.
  rewrite rotation_lookup in Ho by done. simplify_eq. apply Nat.mod_upper_bound.
  unfold NPROC. lia.
Qed.

Lemma cyc_dist_lt s i : (cyc_dist s i < NPROC)%nat.
Proof. apply Nat.mod_upper_bound. unfold NPROC. lia. Qed.

Lemma cyc_dist_spec s i :
  (s < NPROC)%nat -> (i < NPROC)%nat ->
  cyc_dist s i = if decide (s <= i)%nat then (i - s)%nat else (i + NPROC - s)%nat.
Proof.
  intros Hs Hi. unfold cyc_dist. case_decide.
  - replace (i + (NPROC - s))%nat with (i - s + 1 * NPROC)%nat by lia.
    rewrite Nat.Div0.mod_add. apply Nat.mod_small. lia.
  - rewrite Nat.mod_small by lia. lia.
Qed.

Lemma rotation_cyc_dist s i :
  (s < NPROC)%nat -> (i < NPROC)%nat -> rotation s !! cyc_dist s i = Some i.
Proof.
  intros Hs Hi. rewrite rotation_lookup by apply cyc_dist_lt. f_equal.
  rewrite cyc_dist_spec by done. case_decide.
  - replace (s + (i - s))%nat with i by lia. by apply Nat.mod_small.
  - replace (s + (i + NPROC - s))%nat with (i + 1 * NPROC)%nat by lia.
    rewrite Nat.Div0.mod_add. by apply Nat.mod_small.
Qed.

Lemma rotation_elem s i : (s < NPROC)%nat -> (i < NPROC)%nat -> i ∈ rotation s.
Proof. intros. apply list_elem_of_lookup. exists (cyc_dist s i). by apply rotation_cyc_dist. Qed.

Lemma cyc_dist_rotation s o :
  (s < NPROC)%nat -> (o < NPROC)%nat -> cyc_dist s ((s + o) mod NPROC) = o.
Proof.
  intros Hs Ho. destruct (decide (s + o < NPROC)%nat).
  - rewrite (Nat.mod_small (s + o)) by lia. rewrite cyc_dist_spec by lia. case_decide; lia.
  - assert (((s + o) mod NPROC)%nat = (s + o - NPROC)%nat) as ->.
    { replace (s + o)%nat with (s + o - NPROC + 1 * NPROC)%nat at 1 by lia.
      rewrite Nat.Div0.mod_add. apply Nat.mod_small. lia. }
    rewrite cyc_dist_spec by lia. case_decide; lia.
Qed.

(** Advancing the cursor past [j] shortens the distance to every entry that
    comes after [j] in scan order. *)
Lemma cyc_dist_advance s i j :
  (s < NPROC)%nat -> (i < NPROC)%nat -> (j < NPROC)%nat ->
  (cyc_dist s j < cyc_dist s i)%nat ->
  (cyc_dist ((j + 1) mod NPROC) i < cyc_dist s i)%nat.
Proof.
  intros Hs Hi Hj. rewrite !cyc_dist_spec by (done || (apply Nat.mod_upper_bound; unfold NPROC; lia)).
  destruct (decide (j + 1 < NPROC)%nat).
  - rewrite (Nat.mod_small (j + 1)) by done. repeat case_decide; lia.
  - assert ((j + 1) mod NPROC = 0)%nat as ->.
    { replace (j + 1)%nat with NPROC by lia. reflexivity. }
    repeat case_decide; lia.
Qed.

Lemma index_lt start offset : ((start + offset) mod NPROC < NPROC)%nat.
Proof. apply Nat.mod_upper_bound. unfold NPROC. lia. Qed.


Lemma NoDup_rotation s : (s < NPROC)%nat -> NoDup (rotation s).
Proof.
  intros Hs. apply NoDup_alt. intros i j x Hi Hj.
  pose proof (lookup_lt_Some _ _ _ Hi) as Hli. pose proof (lookup_lt_Some _ _ _ Hj) as Hlj.
  rewrite length_rotation in Hli, Hlj. rewrite rotation_lookup in Hi, Hj by done. simplify_eq.
  rewrite <- (cyc_dist_rotation s i), <- (cyc_dist_rotation s j) by done. congruence.
Qed.

Lemma next_cursor j :
  Z.to_nat ((Z.of_nat j + 1) mod Z.of_nat NPROC) = ((j + 1) mod NPROC)%nat.
Proof.
  replace (Z.of_nat j + 1) with (Z.of_nat (j + 1)) by lia.
  rewrite <- Nat2Z.inj_mod. apply Nat2Z.id.
Qed.

Lemma next_cursor_lt (x : Z) : (Z.to_nat (x mod Z.of_nat NPROC) < NPROC)%nat.
Proof. pose proof (Z.mod_pos_bound x (Z.of_nat NPROC)). unfold NPROC in *. lia. Qed.

(** ** A whole scan *)
Section Scan.
Context {E A : Type} (start : nat) (T : Z).
(** [f] is what the body does to an entry, [upd] to the candidate. *)
Context (f : proc -> proc) (upd : A -> nat -> proc -> A).
Context (body : Interference -> nat -> A -> M (kst E) A).
Hypothesis f_lock : forall p, lock (f p) = lock p.
Hypothesis body_eq : forall (I : Interference) k offset acc p,
  let i := ((start + offset) mod NPROC)%nat in
  ticks k = T -> cpu_wf (mycpu k) ->
  interfere (kclock k) (procs k) !! i = Some p -> lk_free (lock p) ->
  body I offset acc k = Ok (upd acc i (f p), kpass k i (f p)).

Definition idxs (l : list nat) : list nat := map (fun o => ((start + o) mod NPROC)%nat) l.

(** Under any interference the scan ends, holding no lock, and the candidate
    satisfies every property that visiting an entry preserves. *)
Lemma scan_any (I : Interference) (P : A -> Prop) l acc k :
  (forall a i p, (i < NPROC)%nat -> P a -> P (upd a i (f p))) ->
  P acc -> ticks k = T -> kwf k -> locks_free (procs k) ->
  exists acc' k', for_fold l (body I) acc k = Ok (acc', k') /\ P acc' /\ ticks k' = T /\
    kwf k' /\ locks_free (procs k') /\ hartid k' = hartid k /\
    same_depth (mycpu k) (mycpu k').
Proof.
  intros HP. revert acc k. induction l as [|o l IH]; intros acc k Ha Ht Hk Hl.
  { exists acc, k. by split_and!. }
  destruct (entry_free k _ Hk Hl (index_lt start o)) as (p & Hp & Hf).
  pose proof (body_eq I k o acc p Ht (kwf_cpu _ Hk) Hp Hf) as Hb. simpl.
  unfold mbind. rewrite Hb. cbn [obind fst snd].
  destruct (IH (upd acc ((start + o) mod NPROC)%nat (f p))
               (kpass k ((start + o) mod NPROC) (f p))) as (acc' & k' & H1 & H2 & H3 & H4 & H5 & H6 & H7).
  - apply HP; [apply index_lt|done].
  - done.
  - auto with kernel.
  - apply locks_free_kpass; [done|]. by rewrite f_lock.
  - exists acc', k'. rewrite H1. split_and!; try done.
    by rewrite lockcycle_kpass, same_depth_lockcycle in H7.
Qed.

Definition scan_acc (t : list proc) (acc : A) (ixs : list nat) : A :=
  fold_left (fun a i => match t !! i with Some p => upd a i (f p) | None => a end) ixs acc.

Lemma scan_acc_insert t acc ixs i q :
  i ∉ ixs -> scan_acc (<[i := q]> t) acc ixs = scan_acc t acc ixs.
Proof.
  revert acc. induction ixs as [|j ixs IH]; intros acc Hni; [done|].
  apply not_elem_of_cons in Hni as [Hne Hni]. simpl.
  rewrite list_lookup_insert_ne by done. by apply IH.
Qed.

(** With no other CPU running, the scan updates each visited entry once and
    folds [upd] over the entries in the order of the visit. *)
Lemma scan_quiet l acc k :
  NoDup (idxs l) -> ticks k = T -> kwf k -> locks_free (procs k) ->
  exists t c n, for_fold l (body quiet) acc k =
      Ok (scan_acc (procs k) acc (idxs l), k <| procs := t |> <| mycpu := c |> <| kclock := n |>) /\
    (forall j, t !! j = if decide (j ∈ idxs l) then f <$> procs k !! j else procs k !! j) /\
    cpu_wf c /\ noff c = noff (mycpu k).
Proof.
  revert acc k. induction l as [|o l IH]; intros acc k Hnd Ht Hk Hl.
  { exists (procs k), (mycpu k), (kclock k). split_and!; try (destruct k; done); try apply Hk. }
  set (i := ((start + o) mod NPROC)%nat) in *.
  destruct (entry_free (I := quiet) k _ Hk Hl (index_lt start o)) as (p & Hp & Hf).
  pose proof (body_eq quiet k o acc p Ht (kwf_cpu _ Hk) Hp Hf) as Hb. fold i in Hb, Hp.
  simpl in Hp. apply NoDup_cons in Hnd as [Hni Hnd]. fold i in Hni.
  destruct (IH (upd acc i (f p)) (kpass (I := quiet) k i (f p)))
    as (t & c & n & H1 & H2 & H3 & H4); auto with kernel.
  { apply locks_free_kpass; [done|]. by rewrite f_lock. }
  exists t, c, n. split; [|split; [|split]].
  - simpl. unfold mbind. rewrite Hb. cbn [obind fst snd]. rewrite H1. simpl. fold i.
    rewrite Hp. f_equal. f_equal. by apply scan_acc_insert.
  - intros j. rewrite H2. simpl. fold i. destruct (decide (j = i)) as [->|Hne].
    + rewrite decide_False by done. rewrite decide_True by (by constructor).
      rewrite list_lookup_insert_eq by (eapply lookup_lt_Some; eauto). by rewrite Hp.
    + rewrite list_lookup_insert_ne by done.
      destruct (decide (j ∈ idxs l)).
      * rewrite decide_True by (by constructor). done.
      * rewrite decide_False by (rewrite not_elem_of_cons; done). done.
  - done.
  - rewrite H4. simpl. apply lockcycle_noff.
Qed.

(** A scan of all NPROC entries maps [f] over the table. *)
Lemma scan_quiet_full acc k :
  (start < NPROC)%nat -> ticks k = T -> kwf k -> locks_free (procs k) ->
  exists c n, for_fold (seq 0 NPROC) (body quiet) acc k =
      Ok (scan_acc (procs k) acc (rotation start),
          k <| procs := f <$> procs k |> <| mycpu := c |> <| kclock := n |>) /\
    cpu_wf c /\ noff c = noff (mycpu k).
Proof.
  intros Hs Ht Hk Hl.
  destruct (scan_quiet (seq 0 NPROC) acc k) as (t & c & n & H1 & H2 & H3 & H4); auto.
  { by apply NoDup_rotation. }
  exists c, n. rewrite H1. split; [|done].
  assert (t = f <$> procs k) as ->; [|done].
  apply list_eq. intros j. rewrite H2, list_lookup_fmap. fold (rotation start).
  destruct (decide (j < NPROC)%nat).
  - by rewrite decide_True by (by apply rotation_elem).
  - rewrite decide_False by (intros Hj%rotation_lt; done).
    by rewrite lookup_ge_None_2 by (rewrite (kwf_procs _ Hk); lia).
Qed.
End Scan.

(** ** The best candidate of a scan

    [key i] is the rank of entry [i], [None] when it is not eligible; a scan
    keeps the first entry of the highest rank. *)
Definition argmax_step (key : nat -> option Z) (b : option (nat * Z)) (i : nat) : option (nat * Z) :=
  match key i with
  | None => b
  | Some v =>
      match b with
      | None => Some (i, v)
      | Some (_, w) => if w <? v then Some (i, v) else b
      end
  end.
Definition argmax (key : nat -> option Z) (l : list nat) : option (nat * Z) :=
  fold_left (argmax_step key) l None.

Definition argmax_best (key : nat -> option Z) (l : list nat) (j : nat) (v : Z) : Prop :=
  exists n, l !! n = Some j /\ key j = Some v /\
    forall m i w, l !! m = Some i -> key i = Some w -> w <= v /\ ((m < n)%nat -> w < v).

Lemma argmax_spec key l :
  match argmax key l with
  | None => forall i, i ∈ l -> key i = None
  | Some (j, v) => argmax_best key l j v
  end.
Proof.
  induction l as [|x l IH] using rev_ind; [intros i Hi; by apply elem_of_nil in Hi|].
  unfold argmax in *. rewrite fold_left_app. simpl. unfold argmax_step at 1.
  destruct (fold_left (argmax_step key) l None) as [[j w]|].
  - destruct IH as (n & Hn & Hj & Hmax).
    assert (n < length l)%nat as Hlt by (eapply lookup_lt_Some; eauto).
    destruct (key x) as [v|] eqn:Hx.
    + destruct (Z.ltb_spec w v) as [Hwv|Hwv].
      * exists (length l). split; [by rewrite list_lookup_middle|]. split; [done|].
        intros m i u Hm Hi. apply lookup_snoc_Some in Hm as [[Hm1 Hm2]|[-> ->]].
        { destruct (Hmax _ _ _ Hm2 Hi). lia. }
        split; [|lia]. simplify_eq. lia.
      * exists n. split; [by rewrite lookup_app_l|]. split; [done|].
        intros m i u Hm Hi. apply lookup_snoc_Some in Hm as [[Hm1 Hm2]|[-> ->]].
        { by apply (Hmax m i). }
        simplify_eq. split; [lia|intros; lia].
    + exists n. split; [by rewrite lookup_app_l|]. split; [done|].
      intros m i u Hm Hi. apply lookup_snoc_Some in Hm as [[Hm1 Hm2]|[-> ->]]; [by apply (Hmax m i)|].
      congruence.
  - destruct (key x) as [v|] eqn:Hx.
    + exists (length l). split; [by rewrite list_lookup_middle|]. split; [done|].
      intros m i u Hm Hi. apply lookup_snoc_Some in Hm as [[Hm1 Hm2]|[-> ->]].
      { rewrite IH in Hi; [done|]. apply list_elem_of_lookup. eauto. }
      simplify_eq. split; [lia|intros; lia].
    + intros i Hi. apply elem_of_app in Hi as [Hi|Hi]; [by apply IH|].
      by apply list_elem_of_singleton in Hi as ->.
Qed.

(** The winner of a full rotation, in terms of cyclic distance. *)
Lemma argmax_rotation key s :
  (s < NPROC)%nat ->
  match argmax key (rotation s) with
  | None => forall i, (i < NPROC)%nat -> key i = None
  | Some (j, v) => (j < NPROC)%nat /\ key j = Some v /\
      forall i w, (i < NPROC)%nat -> key i = Some w ->
        w <= v /\ (i <> j -> w = v -> (cyc_dist s j < cyc_dist s i)%nat)
  end.
Proof.
  intros Hs. pose proof (argmax_spec key (rotation s)) as H.
  destruct (argmax key (rotation s)) as [[j v]|].
  - destruct H as (n & Hn & Hj & Hmax).
    pose proof (lookup_lt_Some _ _ _ Hn) as Hlt. rewrite length_rotation in Hlt.
    assert (cyc_dist s j = n) as Hd.
    { rewrite rotation_lookup in Hn by done. simplify_eq. by apply cyc_dist_rotation. }
    split; [eapply rotation_lt, list_elem_of_lookup; eauto|]. split; [done|].
    intros i w Hi Hw. destruct (Hmax _ _ _ (rotation_cyc_dist s i Hs Hi) Hw) as [H1 H2].
    split; [done|]. intros Hne ->. rewrite Hd.
    destruct (decide (cyc_dist s i = n)) as [Heq|]; [|lia].
    exfalso. apply Hne. pose proof (rotation_cyc_dist s i Hs Hi) as H3. congruence.
  - intros i Hi. apply H. by apply rotation_elem.
Qed.

(** The scan order is never compared by unfolding it into its 64 entries. *)
Strategy opaque [argmax rotation cyc_dist].
