(* ===== verification/SchedRR.v ===== *)
(** * Round-robin strategy (kernel/sched_rr.c)

    [rr_select_next] scans the table from the CPU's cursor and returns the
    first RUNNABLE entry with its lock held.  The facts proved here: it
    computes the reference [rr_pick]; whatever other CPUs do meanwhile, what
    it returns is RUNNABLE and locked; and no RUNNABLE process is passed over
    more than [NPROC - 1] times. *)
From stdpp Require Import base list strings gmap.
From Stdlib Require Import ZArith Lia.
From S2P Require Import Prelude Spinlock KState SchedScan.

Section RR.
Context {E : Type} {I : Interference}.

(** One iteration of the scan: the body of the [for] loop. *)
Definition rr_scan (cpu start offset : nat) : M (kst E) (option nat) :=
  let index := ((start + offset) mod NPROC)%nat in
  acquire_proc index ;;;
  let* p := read_proc index in
  if bool_decide (state p = RUNNABLE) then
    mmodify (fun k => k <| rr_cursor ::= <[cpu := ((index + 1) mod NPROC)%nat]> |>) ;;;
    mret (Some index)
  else
    release_proc index ;;;
    mret None.

Definition rr_select_next : M (kst E) (option nat) :=
  let* cpu := mreads hartid in
  let* start := mreads (fun k => rr_cursor k !!! cpu) in
  for_until (seq 0 NPROC) (rr_scan cpu start).

Definition rr_on_tick (i : nat) : M (kst E) unit := mret tt.
Definition rr_on_yield (i : nat) : M (kst E) unit :=
  modify_proc i (fun p => p <| time_slice := SCHED_RR_TIME_SLICE |>).
Definition rr_on_wakeup (i : nat) : M (kst E) unit := mret tt.
Definition rr_should_preempt (i : nat) : M (kst E) Z := mret 1.

End RR.

(** The reference: the first RUNNABLE entry in scan order. *)
Definition rr_pick (start : nat) (t : list proc) : option nat :=
  List.find (runnable_at t) (rotation start).

(** ** The scan loop *)
Section RRFacts.
Context {E : Type}.
Implicit Types (k : kst E).

Lemma rr_scan_eq {I : Interference} k cpu start offset p :
  let i := ((start + offset) mod NPROC)%nat in
  cpu_wf (mycpu k) -> interfere (kclock k) (procs k) !! i = Some p -> lk_free (lock p) ->
  rr_scan cpu start offset k =
    if runnable p
    then Ok (Some i, (klocked k i p) <| rr_cursor ::= <[cpu := ((i + 1) mod NPROC)%nat]> |>)
    else Ok (None, kpass k i p).
Proof.
  intros i Hc Hp Hf. unfold rr_scan. fold i. rewrite (locked_read _ _ p) by done.
  simpl. fold (runnable p). destruct (runnable p); [reflexivity|].
  by rewrite (mbind_Ok _ _ _ _ _ (release_proc_klocked _ _ _ _ Hp Hf Hc)).
Qed.

(** Whatever the other CPUs do, the scan ends, and what it returns is RUNNABLE
    and locked by this hart, with no other lock held. *)
Lemma rr_scan_loop {I : Interference} cpu start l k :
  kwf k -> locks_free (procs k) ->
  exists r k', for_until l (rr_scan cpu start) k = Ok (r, k') /\ hartid k' = hartid k /\
    match r with
    | None => kwf k' /\ locks_free (procs k') /\ same_depth (mycpu k) (mycpu k')
    | Some j => exists k1 p, kwf k1 /\ locks_free (procs k1) /\
        same_depth (mycpu k) (mycpu k1) /\
        interfere (kclock k1) (procs k1) !! j = Some p /\ runnable p = true /\
        k' = (klocked k1 j p) <| rr_cursor ::= <[cpu := ((j + 1) mod NPROC)%nat]> |>
    end.
Proof.
  revert k. induction l as [|o l IH]; intros k Hk Hl.
  { exists None, k. simpl. by unfold mret. }
  destruct (entry_free k _ Hk Hl (index_lt start o)) as (p & Hp & Hf).
  pose proof (rr_scan_eq k cpu start o p (kwf_cpu _ Hk) Hp Hf) as Hs.
  destruct (runnable p) eqn:Hr.
  - rewrite (for_until_found _ _ _ _ _ _ Hs).
    eexists _, _. split; [reflexivity|]. split; [reflexivity|]. exists k, p. by split_and!.
  - rewrite (for_until_next _ _ _ _ _ Hs).
    destruct (IH (kpass k ((start + o) mod NPROC) p)) as (r & k' & H1 & H2 & H3);
      auto with kernel.
    exists r, k'. rewrite H1. split; [done|]. split; [done|]. simpl in H3.
    destruct r; setoid_rewrite same_depth_lockcycle in H3; done.
Qed.

Lemma rr_scan_loop_quiet cpu start l k :
  kwf k -> locks_free (procs k) ->
  exists k1, same_table k k1 /\ cpu_wf (mycpu k1) /\ noff (mycpu k1) = noff (mycpu k) /\
    for_until l (rr_scan (I := quiet) cpu start) k =
      match List.find (runnable_at (procs k)) (map (fun o => ((start + o) mod NPROC)%nat) l) with
      | None => Ok (None, k1)
      | Some j => Ok (Some j,
          k1 <| procs ::= alter (fun p => p <| lock ::= held_by (hartid k) |>) j |>
             <| mycpu ::= push_off |> <| kclock ::= S |>
             <| rr_cursor ::= <[cpu := ((j + 1) mod NPROC)%nat]> |>)
      end.
Proof.
  revert k. induction l as [|o l IH]; intros k Hk Hl.
  { exists k. split; [apply same_table_refl|]. destruct Hk. done. }
  destruct (entry_free (I := quiet) k _ Hk Hl (index_lt start o)) as (p & Hp & Hf).
  simpl in Hp.
  pose proof (rr_scan_eq (I := quiet) k cpu start o p (kwf_cpu _ Hk) Hp Hf) as Hs.
  cbn [map List.find]. unfold runnable_at at 1. rewrite Hp. destruct (runnable p) eqn:Hr.
  - rewrite (for_until_found _ _ _ _ _ _ Hs).
    exists k. split; [apply same_table_refl|]. split; [apply Hk|]. split; [done|].
    do 3 f_equal. unfold klocked. simpl. f_equal.
    exact (insert_as_alter (fun p => p <| lock ::= held_by (hartid k) |>) _ _ _ Hp).
  - rewrite (for_until_next _ _ _ _ _ Hs).
    destruct (IH (kpass (I := quiet) k ((start + o) mod NPROC) p)) as (k1 & H1 & H2 & H3 & H4);
      auto with kernel.
    exists k1. split; [eapply same_table_trans; [|exact H1]; by apply same_table_kpass|].
    split; [done|]. split; [by rewrite H3; simpl; rewrite lockcycle_noff|].
    rewrite H4. simpl. by rewrite list_insert_id by done.
Qed.
End RRFacts.

(** ** The reference selection *)
Lemma rr_pick_Some s t j :
  rr_pick s t = Some j -> (s < NPROC)%nat ->
  (j < NPROC)%nat /\ runnable_at t j = true /\
  forall i, (i < NPROC)%nat -> runnable_at t i = true -> (cyc_dist s j <= cyc_dist s i)%nat.
Proof.
  intros H Hs. apply find_first in H as (n & Hn & Hr & Hmin).
  pose proof (lookup_lt_Some _ _ _ Hn) as Hlt. rewrite length_rotation in Hlt.
  assert (cyc_dist s j = n) as Hd.
  { rewrite rotation_lookup in Hn by done. simplify_eq. by apply cyc_dist_rotation. }
  split; [eapply rotation_lt, list_elem_of_lookup; eauto|]. split; [done|].
  intros i Hi Hri. rewrite Hd. destruct (decide (n <= cyc_dist s i)%nat) as [|Hlt']; [done|].
  rewrite (Hmin (cyc_dist s i) i) in Hri; [done|lia|by apply rotation_cyc_dist].
Qed.

Lemma rr_pick_None s t :
  rr_pick s t = None -> (s < NPROC)%nat -> forall i, (i < NPROC)%nat -> runnable_at t i = false.
Proof. intros H Hs i Hi. eapply find_none_elem; [exact H|]. by apply rotation_elem. Qed.

Lemma cursor_lt {E} (k : kst E) : kwf k -> (rr_cursor k !!! hartid k < NPROC)%nat.
Proof.
  intros [_ _ Hh [Hl Hf] _ _]. destruct (lookup_lt_is_Some_2 (rr_cursor k) (hartid k)) as [c Hc]; [lia|].
  rewrite (list_lookup_total_correct _ _ _ Hc). by apply (Forall_lookup_1 _ _ _ _ Hf Hc).
Qed.

(** The state in which [rr_select_next] returns entry [j]. *)
Definition rr_selected {E} (k : kst E) (j : nat) : kst E :=
  k <| procs ::= alter (fun p => p <| lock ::= held_by (hartid k) |>) j |>
    <| rr_cursor ::= <[hartid k := ((j + 1) mod NPROC)%nat]> |>.

Lemma rr_select_quiet {E} (k : kst E) :
  kwf k -> locks_free (procs k) ->
  exists c n, cpu_wf c /\
    noff c = noff (mycpu k) + (match rr_pick (rr_cursor k !!! hartid k) (procs k) with Some _ => 1 | None => 0 end) /\
    rr_select_next (I := quiet) k =
      Ok (rr_pick (rr_cursor k !!! hartid k) (procs k),
          (match rr_pick (rr_cursor k !!! hartid k) (procs k) with
           | Some j => rr_selected k j
           | None => k
           end) <| mycpu := c |> <| kclock := n |>).
Proof.
  intros Hk Hl. unfold rr_select_next, mreads, mbind, obind. cbn [fst snd].
  destruct (rr_scan_loop_quiet (hartid k) (rr_cursor k !!! hartid k) (seq 0 NPROC) k Hk Hl)
    as (k1 & Hs & Hc & Hn & ->).
  rewrite rotation_map.
  fold (rr_pick (rr_cursor k !!! hartid k) (procs k)).
  destruct (rr_pick (rr_cursor k !!! hartid k) (procs k)) as [j|].
  - exists (push_off (mycpu k1)), (S (kclock k1)). split; [auto with kernel|].
    rewrite noff_push_off, Hn. split; [done|].
    unfold same_table in Hs. rewrite Hs. reflexivity.
  - exists (mycpu k1), (kclock k1). split; [done|]. rewrite Hn. split; [lia|].
    unfold same_table in Hs. by rewrite <- Hs.
Qed.

(** ** Runs of the round-robin scheduler in which process [i] stays RUNNABLE

    One round selects an entry; what the selected process then does to the
    state is arbitrary, as long as it leaves this hart's cursor alone and
    process [i] RUNNABLE when the next selection starts. *)
Inductive rr_rounds {E} (i : nat) : kst E -> list nat -> Prop :=
| rr_rounds_nil k : rr_rounds i k []
| rr_rounds_cons k j k1 k2 js :
    kwf k -> locks_free (procs k) -> runnable_at (procs k) i = true ->
    rr_select_next (I := quiet) k = Ok (Some j, k1) ->
    hartid k2 = hartid k -> rr_cursor k2 !!! hartid k = rr_cursor k1 !!! hartid k ->
    rr_rounds i k2 js ->
    rr_rounds i k (j :: js).

Lemma rr_rounds_bound {E} i (k : kst E) js :
  (i < NPROC)%nat -> (rr_cursor k !!! hartid k < NPROC)%nat ->
  rr_rounds i k js -> i ∉ js ->
  (length js <= cyc_dist (rr_cursor k !!! hartid k) i)%nat.
Proof.
  intros Hi Hc Hr. revert Hc. induction Hr as [|k j k1 k2 js Hk Hl Hri Hsel Hh Hcur _ IH]; intros Hc Hni.
  { simpl. lia. }
  destruct (rr_select_quiet k Hk Hl) as (c & n & _ & _ & Heq). rewrite Heq in Hsel.
  apply Ok_pair_inj in Hsel as [Hpick Hk1]. rewrite Hpick in Hk1.
  destruct (rr_pick_Some _ _ _ Hpick Hc) as (Hj & _ & Hmin).
  assert (rr_cursor k1 !!! hartid k = ((j + 1) mod NPROC)%nat) as Hc1.
  { rewrite <- Hk1. simpl. apply list_lookup_total_insert_eq.
    destruct Hk as [_ _ ? [-> _] _ _]. done. }
  apply not_elem_of_cons in Hni as [Hne Hni].
  assert (cyc_dist (rr_cursor k !!! hartid k) j < cyc_dist (rr_cursor k !!! hartid k) i)%nat as Hlt.
  { assert (cyc_dist (rr_cursor k !!! hartid k) j <> cyc_dist (rr_cursor k !!! hartid k) i) as Hd.
    { intros Hd. apply Hne. pose proof (rotation_cyc_dist _ i Hc Hi) as H1.
      rewrite <- Hd, rotation_cyc_dist in H1 by done. congruence. }
    specialize (Hmin i Hi Hri). lia. }
  pose proof (cyc_dist_advance _ _ _ Hc Hi Hj Hlt) as Hadv.
  rewrite Hh, Hcur, Hc1 in IH. simpl. specialize (IH (index_lt j 1) Hni). lia.
Qed.

(** ** Theorems *)

(** with no other CPU running, rr_select_next returns the RUNNABLE entry
    nearest to the CPU's cursor in cyclic order, RUNNABLE and locked by this
    hart, and moves the cursor just behind it, changing nothing else of the
    table; when it returns null no entry is RUNNABLE and nothing has changed. *)
Theorem rr_select_next_correct {E} (k : kst E) :
  kwf k -> locks_free (procs k) ->
  let start := rr_cursor k !!! hartid k in
  exists r c n,
    match r with
    | Some j =>
        rr_select_next (I := quiet) k = Ok (Some j, (rr_selected k j) <| mycpu := c |> <| kclock := n |>) /\
        (j < NPROC)%nat /\ runnable_at (procs k) j = true /\
        noff c = noff (mycpu k) + 1 /\
        forall i, (i < NPROC)%nat -> runnable_at (procs k) i = true ->
          (cyc_dist start j <= cyc_dist start i)%nat
    | None =>
        rr_select_next (I := quiet) k = Ok (None, k <| mycpu := c |> <| kclock := n |>) /\
        noff c = noff (mycpu k) /\
        forall i, (i < NPROC)%nat -> runnable_at (procs k) i = false
    end.
Proof.
  intros Hk Hl start. destruct (rr_select_quiet k Hk Hl) as (c & n & _ & Hn & Heq).
  fold start in Hn, Heq. exists (rr_pick start (procs k)), c, n. rewrite Heq.
  pose proof (cursor_lt k Hk) as Hc. fold start in Hc.
  destruct (rr_pick start (procs k)) as [j|] eqn:Hp.
  - destruct (rr_pick_Some _ _ _ Hp Hc) as (H1 & H2 & H3). by split_and!.
  - split; [done|]. split; [lia|]. by apply (rr_pick_None start).
Qed.

(** Hart 1, cursor at 0, entries 3 and 5 RUNNABLE. *)
Definition rr_demo : kst unit :=
  with_proc 3 (fun p => p <| state := RUNNABLE |>)
    (with_proc 5 (fun p => p <| state := RUNNABLE |>) (boot_kst tt 1)).
Lemma rr_demo_kwf : kwf rr_demo.
Proof. apply kwf_with_proc, kwf_with_proc, kwf_boot. unfold NCPU. lia. Qed.
Lemma rr_demo_free : locks_free (procs rr_demo).
Proof. apply locks_free_with_proc; [|done]. apply locks_free_with_proc; [|done]. apply locks_free_boot. Qed.

Lemma rr_select_next_correct_witness :
  runnable_at (procs rr_demo) 3 = true /\
  exists r c n,
    match r with
    | Some j =>
        rr_select_next (I := quiet) rr_demo = Ok (Some j, (rr_selected rr_demo j) <| mycpu := c |> <| kclock := n |>) /\
        (j < NPROC)%nat /\ runnable_at (procs rr_demo) j = true /\
        noff c = noff (mycpu rr_demo) + 1 /\
        forall i, (i < NPROC)%nat -> runnable_at (procs rr_demo) i = true ->
          (cyc_dist (rr_cursor rr_demo !!! hartid rr_demo) j <=
           cyc_dist (rr_cursor rr_demo !!! hartid rr_demo) i)%nat
    | None =>
        rr_select_next (I := quiet) rr_demo = Ok (None, rr_demo <| mycpu := c |> <| kclock := n |>) /\
        noff c = noff (mycpu rr_demo) /\
        forall i, (i < NPROC)%nat -> runnable_at (procs rr_demo) i = false
    end.
Proof.
  split; [vm_compute; reflexivity|].
  exact (rr_select_next_correct rr_demo rr_demo_kwf rr_demo_free).
Defined.

(** Round robin does not starve: in any run of selections of one CPU during
    which process [i] is RUNNABLE at every selection, whatever the selected
    processes do in between, fewer than NPROC selections pass before [i] is
    selected. *)
Theorem rr_no_starvation {E} i (k : kst E) js :
  (i < NPROC)%nat -> kwf k -> rr_rounds i k js -> i ∉ js -> (length js < NPROC)%nat.
Proof.
  intros Hi Hk Hr Hni.
  pose proof (rr_rounds_bound i k js Hi (cursor_lt k Hk) Hr Hni) as H.
  pose proof (cyc_dist_lt (rr_cursor k !!! hartid k) i). lia.
Qed.

(** One round on [rr_demo]: entry 3 is selected, entry 5 passed over. *)
Lemma rr_demo_rounds : rr_rounds 5 rr_demo [3%nat].
Proof.
  destruct (rr_select_quiet rr_demo rr_demo_kwf rr_demo_free) as (c & n & _ & _ & H).
  assert (rr_pick (rr_cursor rr_demo !!! hartid rr_demo) (procs rr_demo) = Some 3%nat) as Hp
    by (vm_compute; reflexivity).
  rewrite Hp in H.
  set (k1 := (rr_selected rr_demo 3) <| mycpu := c |> <| kclock := n |>) in H.
  apply (rr_rounds_cons 5 rr_demo 3 k1 k1 []);
    [exact rr_demo_kwf|exact rr_demo_free|vm_compute; reflexivity|exact H
    |reflexivity|reflexivity|constructor].
Qed.

Lemma rr_no_starvation_witness : (length [3%nat] < NPROC)%nat.
Proof.
  apply (rr_no_starvation 5 rr_demo [3%nat]).
  - unfold NPROC. lia.
  - exact rr_demo_kwf.
  - exact rr_demo_rounds.
  - intros H. apply list_elem_of_singleton in H. discriminate.
Defined.
