(* ===== verification/SchedPriority.v ===== *)
(** * Static-priority strategy (kernel/sched_priority.c)

    [priority_select_next] scans the whole table for the RUNNABLE entry of the
    highest priority, releasing each lock before taking the next one, then
    locks the candidate again and starts over if another CPU took it. *)
From stdpp Require Import base list strings gmap.
From Stdlib Require Import ZArith Lia.
From S2P Require Import Prelude Spinlock KState SchedScan.

(** The local variables of the scan: best, best_index, best_priority. *)
Record pcand : Type := mkPcand { best : option nat; best_index : Z; best_priority : Z }.

Section Priority.
Context {E : Type} {I : Interference}.

(** The body of the inner [for] loop. *)
Definition priority_scan (start offset : nat) (a : pcand) : M (kst E) pcand :=
  let index := ((start + offset) mod NPROC)%nat in
  acquire_proc index ;;;
  let* p := read_proc index in
  let a :=
    if bool_decide (state p = RUNNABLE) &&
       (bool_decide (best a = None) || (best_priority a <? priority p))
    then {| best := Some index; best_index := Z.of_nat index; best_priority := priority p |}
    else a in
  release_proc index ;;;
  mret a.

(** The outer [for (;;)] loop; [fuel] bounds the number of times it starts
    over. *)
Fixpoint priority_select_next (fuel : nat) : M (kst E) (option nat) :=
  match fuel with
  | O => mnofuel
  | S fuel =>
      let* cpu := mreads hartid in
      let* start := mreads (fun k => priority_cursor k !!! cpu) in
      let* a := for_fold (seq 0 NPROC) (priority_scan start)
                  {| best := None; best_index := -1; best_priority := 0 |} in
      match best a with
      | None => mret None
      | Some b =>
          acquire_proc b ;;;
          let* p := read_proc b in
          if bool_decide (state p = RUNNABLE) then
            mmodify (fun k => k <| priority_cursor ::=
              <[cpu := Z.to_nat ((best_index a + 1) mod Z.of_nat NPROC)]> |>) ;;;
            mret (Some b)
          else
            release_proc b ;;;
            priority_select_next fuel
      end
  end.

Definition priority_on_tick (i : nat) : M (kst E) unit := mret tt.
Definition priority_on_yield (i : nat) : M (kst E) unit :=
  modify_proc i (fun p => p <| time_slice := SCHED_RR_TIME_SLICE |>).
Definition priority_on_wakeup (i : nat) : M (kst E) unit := mret tt.
Definition priority_should_preempt (i : nat) : M (kst E) Z := mret 1.

End Priority.

(** The rank of an entry for the static-priority scan. *)
Definition priority_key (t : list proc) (i : nat) : option Z :=
  match t !! i with
  | Some p => if runnable p then Some (priority p) else None
  | None => None
  end.

(** The reference: the first entry of the highest priority in scan order. *)
Definition priority_pick (start : nat) (t : list proc) : option nat :=
  fst <$> argmax (priority_key t) (rotation start).

Definition priority_upd (a : pcand) (i : nat) (p : proc) : pcand :=
  if runnable p && (bool_decide (best a = None) || (best_priority a <? priority p))
  then {| best := Some i; best_index := Z.of_nat i; best_priority := priority p |}
  else a.

Definition pcand_of (b : option (nat * Z)) : pcand :=
  match b with
  | None => {| best := None; best_index := -1; best_priority := 0 |}
  | Some (j, v) => {| best := Some j; best_index := Z.of_nat j; best_priority := v |}
  end.

(** ** Lemmas *)
Lemma priority_scan_eq {E} (I : Interference) start (k : kst E) offset a p :
  let i := ((start + offset) mod NPROC)%nat in
  cpu_wf (mycpu k) -> interfere (kclock k) (procs k) !! i = Some p ->
  lk_free (lock p) ->
  priority_scan start offset a k = Ok (priority_upd a i p, kpass k i p).
Proof.
  intros i Hc Hp Hf. unfold priority_scan. fold i. rewrite (locked_read _ _ p) by done.
  cbn zeta. rewrite (mbind_Ok _ _ _ _ _ (release_proc_klocked _ _ _ _ Hp Hf Hc)). reflexivity.
Qed.

Lemma priority_scan_acc t b l :
  scan_acc id priority_upd t (pcand_of b) l = pcand_of (fold_left (argmax_step (priority_key t)) l b).
Proof.
  revert b. induction l as [|i l IH]; intros b; [done|].
  unfold scan_acc in *. simpl. rewrite <- IH. f_equal.
  unfold argmax_step, priority_key, priority_upd. destruct (t !! i) as [p|]; [|done]. simpl.
  destruct (runnable p); [|done]. destruct b as [[j v]|]; simpl; [|done].
  destruct (v <? priority p); done.
Qed.

Lemma priority_scan_argmax t l :
  scan_acc id priority_upd t (pcand_of None) l = pcand_of (argmax (priority_key t) l).
Proof. apply priority_scan_acc. Qed.

Section PriorityFacts.
Context {E : Type}.
Implicit Types (k : kst E).

Lemma priority_cursor_lt k : kwf k -> (priority_cursor k !!! hartid k < NPROC)%nat.
Proof.
  intros [_ _ Hh _ [Hl Hf] _].
  destruct (lookup_lt_is_Some_2 (priority_cursor k) (hartid k)) as [c Hc]; [lia|].
  rewrite (list_lookup_total_correct _ _ _ Hc). by apply (Forall_lookup_1 _ _ _ _ Hf Hc).
Qed.

(** The state in which the selection returns entry [j]. *)
Definition priority_selected (k : kst E) (j : nat) : kst E :=
  k <| procs ::= alter (fun p => p <| lock ::= held_by (hartid k) |>) j |>
    <| priority_cursor ::= <[hartid k := ((j + 1) mod NPROC)%nat]> |>.

Lemma priority_key_Some t i v :
  priority_key t i = Some v <->
  exists p, t !! i = Some p /\ state p = RUNNABLE /\ priority p = v.
Proof.
  unfold priority_key, runnable. destruct (t !! i) as [p|]; [|split; [done|by intros (? & ? & _)]].
  case_bool_decide; split.
  - intros [= <-]. eauto.
  - intros (q & [= <-] & _ & <-). done.
  - done.
  - intros (q & [= <-] & ? & _). done.
Qed.

Lemma priority_select_quiet fuel k :
  kwf k -> locks_free (procs k) ->
  exists c n, cpu_wf c /\
    noff c = noff (mycpu k) +
      (match priority_pick (priority_cursor k !!! hartid k) (procs k) with
       | Some _ => 1 | None => 0 end) /\
    priority_select_next (I := quiet) (S fuel) k =
      Ok (priority_pick (priority_cursor k !!! hartid k) (procs k),
          (match priority_pick (priority_cursor k !!! hartid k) (procs k) with
           | Some j => priority_selected k j
           | None => k
           end) <| mycpu := c |> <| kclock := n |>).
Proof.
  intros Hk Hl. set (s := priority_cursor k !!! hartid k).
  assert (s < NPROC)%nat as Hs by (by apply priority_cursor_lt).
  destruct (scan_quiet_full s (ticks k) id priority_upd
              (fun I => @priority_scan E I s) (fun p => eq_refl)
              (fun I k o a p _ => priority_scan_eq I s k o a p)
              (pcand_of None) k Hs eq_refl Hk Hl) as (c & n & Hscan & Hc & Hn).
  rewrite list_fmap_id, priority_scan_argmax in Hscan.
  cbn [priority_select_next]. unfold mreads at 1 2, mbind at 1 2, obind at 1 2. cbn [fst snd].
  fold s. rewrite (mbind_Ok _ _ _ _ _ Hscan). unfold priority_pick.
  pose proof (argmax_rotation (priority_key (procs k)) s Hs) as Hmax.
  destruct (argmax (priority_key (procs k)) (rotation s)) as [[j v]|]; cbn [pcand_of best best_index fmap option_fmap option_map fst].
  - destruct Hmax as (Hj & Hkey & _). apply priority_key_Some in Hkey as (p & Hp & Hr & _).
    set (k1 := k <| procs := procs k |> <| mycpu := c |> <| kclock := n |>).
    rewrite (locked_read (I := quiet) k1 j p) by (simpl; eauto). simpl.
    rewrite bool_decide_eq_true_2 by done. rewrite next_cursor.
    exists (push_off c), (S n). split; [auto with kernel|]. rewrite noff_push_off, Hn.
    split; [done|]. unfold mmodify, mbind, obind, mret. cbn [fst snd]. do 2 f_equal.
    unfold priority_selected, klocked. simpl. f_equal.
    exact (insert_as_alter (fun p => p <| lock ::= held_by (hartid k) |>) _ _ _ Hp).
  - exists c, n. split; [done|]. rewrite Hn. split; [lia|]. reflexivity.
Qed.

(** Under any interference each round of the outer loop either returns a
    RUNNABLE entry, locked, or nothing, or starts over with no lock held. *)
Lemma priority_select_any (I : Interference) fuel k :
  kwf k -> locks_free (procs k) ->
  priority_select_next fuel k = NoFuel \/
  exists r k', priority_select_next fuel k = Ok (r, k') /\ hartid k' = hartid k /\
    match r with
    | None => kwf k' /\ locks_free (procs k') /\ same_depth (mycpu k) (mycpu k')
    | Some j => exists k1 p c, kwf k1 /\ locks_free (procs k1) /\
        same_depth (mycpu k) (mycpu k1) /\
        interfere (kclock k1) (procs k1) !! j = Some p /\ runnable p = true /\ cursor_ok c /\
        k' = (klocked k1 j p) <| priority_cursor := c |>
    end.
Proof.
  revert k. induction fuel as [|fuel IH]; intros k Hk Hl; [by left|].
  remember (priority_select_next (S fuel) k) as o eqn:Ho.
  cbn [priority_select_next] in Ho. unfold mreads at 1 2, mbind at 1 2, obind at 1 2 in Ho.
  cbn [fst snd] in Ho. set (s := priority_cursor k !!! hartid k).
  destruct (scan_any s (ticks k) id priority_upd
              (fun I => @priority_scan E I s) (fun p => eq_refl)
              (fun I k o a p _ => priority_scan_eq I s k o a p) I
              (fun a => forall b, best a = Some b -> (b < NPROC)%nat) (seq 0 NPROC) (pcand_of None) k)
    as (a & k1 & H1 & H2 & _ & H4 & H5 & H6 & H7); try done.
  { intros a i p Hi Ha b. unfold priority_upd. destruct (_ && _); [|auto]. intros [= <-]. done. }
  fold s in Ho. rewrite (mbind_Ok _ _ _ _ _ H1) in Ho. destruct (best a) as [b|] eqn:Hb.
  - destruct (entry_free k1 b H4 H5 (H2 _ eq_refl)) as (p & Hp & Hf).
    rewrite (locked_read k1 b p) in Ho by done. simpl in Ho. fold (runnable p) in Ho.
    destruct (runnable p) eqn:Hr.
    + right. eexists _, _. split; [exact Ho|]. split; [done|]. exists k1, p.
      eexists. split_and!; try done. apply cursor_ok_insert; [apply H4|apply next_cursor_lt].
    + rewrite (mbind_Ok _ _ _ _ _ (release_proc_klocked _ _ _ _ Hp Hf (kwf_cpu _ H4))) in Ho.
      subst o. destruct (IH (kpass k1 b p)) as [?|(r & k' & Hr1 & Hr2 & Hr3)]; auto with kernel.
      right. exists r, k'. split; [done|]. split; [by rewrite Hr2|].
      simpl in Hr3. destruct r as [j|].
      * destruct Hr3 as (k2 & p2 & c2 & B1 & B2 & B3 & B4). rewrite same_depth_lockcycle in B3.
        exists k2, p2, c2. split; [done|]. split; [done|]. split; [|done].
        by eapply same_depth_trans.
      * destruct Hr3 as (B1 & B2 & B3). rewrite same_depth_lockcycle in B3.
        split; [done|]. split; [done|]. by eapply same_depth_trans.
  - right. exists None, k1. by split_and!.
Qed.
End PriorityFacts.

(** ** Theorems *)

(** With no other CPU running, one round of priority_select_next suffices,
    and it returns a RUNNABLE entry of the highest priority, the first of them
    in cyclic order from the CPU's cursor (so that processes of equal priority
    take turns), locked by this hart and with the cursor moved just behind it;
    when it returns null no entry is RUNNABLE and nothing has changed. *)
Theorem priority_select_next_correct {E} fuel (k : kst E) :
  kwf k -> locks_free (procs k) ->
  let start := priority_cursor k !!! hartid k in
  exists r c n,
    match r with
    | Some j => exists p,
        priority_select_next (I := quiet) (S fuel) k =
          Ok (Some j, (priority_selected k j) <| mycpu := c |> <| kclock := n |>) /\
        noff c = noff (mycpu k) + 1 /\ procs k !! j = Some p /\ state p = RUNNABLE /\
        forall i q, procs k !! i = Some q -> state q = RUNNABLE ->
          priority q <= priority p /\
          (i <> j -> priority q = priority p -> (cyc_dist start j < cyc_dist start i)%nat)
    | None =>
        priority_select_next (I := quiet) (S fuel) k = Ok (None, k <| mycpu := c |> <| kclock := n |>) /\
        noff c = noff (mycpu k) /\
        forall i q, procs k !! i = Some q -> state q <> RUNNABLE
    end.
Proof.
  intros Hk Hl start. destruct (priority_select_quiet fuel k Hk Hl) as (c & n & _ & Hn & Heq).
  pose proof (priority_cursor_lt k Hk) as Hc. fold start in Hn, Heq, Hc.
  assert (forall i q, procs k !! i = Some q -> (i < NPROC)%nat) as Hlt.
  { intros i q Hq. rewrite <- (kwf_procs _ Hk). by eapply lookup_lt_Some. }
  pose proof (argmax_rotation (priority_key (procs k)) start Hc) as Hmax.
  exists (priority_pick start (procs k)), c, n. rewrite Heq. clear Heq. unfold priority_pick in *.
  destruct (argmax (priority_key (procs k)) (rotation start)) as [[j v]|];
    cbn [fmap option_fmap option_map fst] in *.
  - destruct Hmax as (Hj & Hkey & Hbest). apply priority_key_Some in Hkey as (p & Hp & Hr & <-).
    exists p. split_and!; try done. intros i q Hq Hs.
    apply Hbest; [by eapply Hlt|]. apply priority_key_Some. eauto.
  - split; [done|]. split; [lia|]. intros i q Hq Hs.
    assert (priority_key (procs k) i = Some (priority q)) as H by (apply priority_key_Some; eauto).
    rewrite Hmax in H by (by eapply Hlt). done.
Qed.

(** Hart 0; entry 2 RUNNABLE with priority 1, entries 4 and 9 with priority 7. *)
Definition prio_demo : kst unit :=
  with_proc 2 (fun p => p <| state := RUNNABLE |> <| priority := 1 |>)
    (with_proc 4 (fun p => p <| state := RUNNABLE |> <| priority := 7 |>)
      (with_proc 9 (fun p => p <| state := RUNNABLE |> <| priority := 7 |>) (boot_kst tt 0))).
Lemma prio_demo_kwf : kwf prio_demo.
Proof. do 3 apply kwf_with_proc. apply kwf_boot. unfold NCPU. lia. Qed.
Lemma prio_demo_free : locks_free (procs prio_demo).
Proof. do 3 (apply locks_free_with_proc; [|done]). apply locks_free_boot. Qed.

Lemma priority_select_next_correct_witness :
  fst <$> (match priority_select_next (I := quiet) 1 prio_demo with
           | Ok x => Some x | _ => None end) = Some (Some 4%nat) /\
  exists r c n,
    match r with
    | Some j => exists p,
        priority_select_next (I := quiet) 1 prio_demo =
          Ok (Some j, (priority_selected prio_demo j) <| mycpu := c |> <| kclock := n |>) /\
        noff c = noff (mycpu prio_demo) + 1 /\ procs prio_demo !! j = Some p /\ state p = RUNNABLE /\
        forall i q, procs prio_demo !! i = Some q -> state q = RUNNABLE ->
          priority q <= priority p /\
          (i <> j -> priority q = priority p ->
           (cyc_dist (priority_cursor prio_demo !!! hartid prio_demo) j <
            cyc_dist (priority_cursor prio_demo !!! hartid prio_demo) i)%nat)
    | None =>
        priority_select_next (I := quiet) 1 prio_demo = Ok (None, prio_demo <| mycpu := c |> <| kclock := n |>) /\
        noff c = noff (mycpu prio_demo) /\
        forall i q, procs prio_demo !! i = Some q -> state q <> RUNNABLE
    end.
Proof.
  split; [vm_compute; reflexivity|].
  exact (priority_select_next_correct 0 prio_demo prio_demo_kwf prio_demo_free).
Defined.
