(* ===== verification/SchedMLFQ.v ===== *)
(** * Multi-level feedback queue strategy (kernel/sched_mlfq.c)

    Three levels, 0 the highest.  A process that uses up its time slice moves
    down a level when it yields, one that wakes up moves up, and one that has
    been RUNNABLE for [SCHED_MLFQ_AGING_THRESHOLD] ticks moves up when a CPU
    scans the table.  Proved here: every operation keeps levels and slices in
    range; the selection returns the first entry of the best level after
    aging; and aging rules out starvation. *)
From stdpp Require Import base list strings gmap.
From Stdlib Require Import ZArith Lia.
From S2P Require Import Prelude Spinlock KState SchedScan.

Definition mlfq_time_slice (level : Z) : Z :=
  if level =? 0 then SCHED_MLFQ_TIME_SLICE_0
  else if level =? 1 then SCHED_MLFQ_TIME_SLICE_1
  else SCHED_MLFQ_TIME_SLICE_2.

Definition mlfq_level (level : Z) : Z :=
  if level <? 0 then 0
  else if SCHED_MLFQ_LEVELS <=? level then SCHED_MLFQ_LEVELS - 1
  else level.

(** mlfq_age_locked on the entry [p] when the global tick count is [T]; ticks
    is a 32-bit unsigned value, the subtraction is done in 64 bits. *)
Definition mlfq_age (T : Z) (p : proc) : proc :=
  if negb (bool_decide (state p = RUNNABLE)) then p
  else
    let p := p <| ready_ticks := u64 (T - ready_since p) |> in
    if (SCHED_MLFQ_AGING_THRESHOLD <=? ready_ticks p) && (0 <? queue_level p) then
      let p := p <| queue_level ::= fun l => l - 1 |> in
      let p := p <| time_slice := mlfq_time_slice (queue_level p) |> in
      let p := p <| ready_since := T |> in
      p <| ready_ticks := 0 |>
    else p.

(** The local variables of the scan: best, best_index, best_level. *)
Record mcand : Type := mkMcand { mbest : option nat; mbest_index : Z; best_level : Z }.

Section MLFQ.
Context {E : Type} {I : Interference}.

Definition mlfq_age_locked (i : nat) : M (kst E) unit :=
  let* T := mreads ticks in
  modify_proc i (mlfq_age T).

(** The body of the inner [for] loop of mlfq_select_next. *)
Definition mlfq_scan (start offset : nat) (a : mcand) : M (kst E) mcand :=
  let index := ((start + offset) mod NPROC)%nat in
  acquire_proc index ;;;
  mlfq_age_locked index ;;;
  let* p := read_proc index in
  let a :=
    if bool_decide (state p = RUNNABLE) && (queue_level p <? best_level a)
    then {| mbest := Some index; mbest_index := Z.of_nat index; best_level := queue_level p |}
    else a in
  release_proc index ;;;
  mret a.

(** The outer [for (;;)] loop; [fuel] bounds the number of times it starts
    over. *)
Fixpoint mlfq_select_next (fuel : nat) : M (kst E) (option nat) :=
  match fuel with
  | O => mnofuel
  | S fuel =>
      let* cpu := mreads hartid in
      let* start := mreads (fun k => mlfq_cursor k !!! cpu) in
      let* a := for_fold (seq 0 NPROC) (mlfq_scan start)
                  {| mbest := None; mbest_index := -1; best_level := SCHED_MLFQ_LEVELS |} in
      match mbest a with
      | None => mret None
      | Some b =>
          acquire_proc b ;;;
          mlfq_age_locked b ;;;
          let* p := read_proc b in
          if bool_decide (state p = RUNNABLE) && (queue_level p <=? best_level a) then
            mmodify (fun k => k <| mlfq_cursor ::=
              <[cpu := Z.to_nat ((mbest_index a + 1) mod Z.of_nat NPROC)]> |>) ;;;
            mret (Some b)
          else
            release_proc b ;;;
            mlfq_select_next fuel
      end
  end.

Definition mlfq_on_tick (i : nat) : M (kst E) unit := mret tt.

(** mlfq_on_yield and mlfq_on_wakeup on the entry, at tick count [T]. *)
Definition mlfq_yield_proc (T : Z) (p : proc) : proc :=
  let p := p <| queue_level ::= mlfq_level |> in
  let p :=
    if time_slice p <=? 0 then
      let p := if queue_level p <? SCHED_MLFQ_LEVELS - 1
               then p <| queue_level ::= fun l => l + 1 |> else p in
      p <| time_slice := mlfq_time_slice (queue_level p) |>
    else p in
  p <| ready_since := T |> <| ready_ticks := 0 |>.

Definition mlfq_on_yield (i : nat) : M (kst E) unit :=
  let* T := mreads ticks in
  modify_proc i (mlfq_yield_proc T).

Definition mlfq_wakeup_proc (T : Z) (p : proc) : proc :=
  let p := p <| queue_level ::= mlfq_level |> in
  let p := if 0 <? queue_level p then p <| queue_level ::= fun l => l - 1 |> else p in
  let p := p <| time_slice := mlfq_time_slice (queue_level p) |> in
  p <| ready_since := T |>.

Definition mlfq_on_wakeup (i : nat) : M (kst E) unit :=
  let* T := mreads ticks in
  modify_proc i (mlfq_wakeup_proc T).

(** The body of the loop of mlfq_should_preempt over the candidates. *)
Definition mlfq_preempt_scan (i c : nat) : M (kst E) (option Z) :=
  acquire_proc c ;;;
  let* candidate := read_proc c in
  let* p := read_proc i in
  if bool_decide (state candidate = RUNNABLE) && (queue_level candidate <? queue_level p) then
    release_proc c ;;;
    mret (Some 1)
  else
    release_proc c ;;;
    mret None.

Definition mlfq_should_preempt (i : nat) : M (kst E) Z :=
  let* p := read_proc i in
  if time_slice p <=? 0 then mret 1
  else
    let* r := for_until (seq 0 NPROC) (mlfq_preempt_scan i) in
    mret (default 0 r).

End MLFQ.

(** ** Reference definitions *)

(** Levels and slices are in range. *)
Definition mlfq_ok (p : proc) : Prop :=
  0 <= queue_level p < SCHED_MLFQ_LEVELS /\
  0 <= time_slice p <= mlfq_time_slice (queue_level p).

(** The rank of an entry: RUNNABLE entries by level, the lowest number first. *)
Definition mlfq_key (t : list proc) (i : nat) : option Z :=
  match t !! i with
  | Some p => if runnable p && (queue_level p <? SCHED_MLFQ_LEVELS) then Some (- queue_level p) else None
  | None => None
  end.

(** The reference selection: age every entry, then take the first entry of the
    best level in scan order. *)
Definition mlfq_pick (T : Z) (start : nat) (t : list proc) : option nat :=
  fst <$> argmax (mlfq_key (mlfq_age T <$> t)) (rotation start).

Definition mlfq_upd (a : mcand) (i : nat) (p : proc) : mcand :=
  if runnable p && (queue_level p <? best_level a)
  then {| mbest := Some i; mbest_index := Z.of_nat i; best_level := queue_level p |}
  else a.

Definition mcand_of (b : option (nat * Z)) : mcand :=
  match b with
  | None => {| mbest := None; mbest_index := -1; best_level := SCHED_MLFQ_LEVELS |}
  | Some (j, v) => {| mbest := Some j; mbest_index := Z.of_nat j; best_level := - v |}
  end.

(** ** Lemmas on the entry operations *)
Lemma mlfq_time_slice_pos l : 1 <= mlfq_time_slice l.
Proof. unfold mlfq_time_slice. repeat destruct (_ =? _); compute; congruence. Qed.

Lemma mlfq_level_range l : 0 <= mlfq_level l < SCHED_MLFQ_LEVELS.
Proof.
  unfold mlfq_level, SCHED_MLFQ_LEVELS.
  destruct (Z.ltb_spec l 0); [lia|]. destruct (Z.leb_spec 3 l); lia.
Qed.

Lemma mlfq_level_id l : 0 <= l < SCHED_MLFQ_LEVELS -> mlfq_level l = l.
Proof.
  unfold mlfq_level, SCHED_MLFQ_LEVELS. intros H.
  destruct (Z.ltb_spec l 0); [lia|]. destruct (Z.leb_spec 3 l); lia.
Qed.

Lemma mlfq_age_lock T p : lock (mlfq_age T p) = lock p.
Proof. unfold mlfq_age. destruct (negb _); [done|]. simpl. by destruct (_ && _). Qed.

Lemma mlfq_age_state T p : state (mlfq_age T p) = state p.
Proof. unfold mlfq_age. destruct (negb _); [done|]. simpl. by destruct (_ && _). Qed.

Lemma mlfq_age_lock_frame T : lock_frame (mlfq_age T).
Proof.
  intros p l. unfold mlfq_age. simpl. destruct (negb _); [done|]. simpl. by destruct (_ && _).
Qed.

Lemma mlfq_age_idemp T p : mlfq_age T (mlfq_age T p) = mlfq_age T p.
Proof.
  unfold mlfq_age at 2 3. case_bool_decide as Hs; simpl.
  2:{ unfold mlfq_age. rewrite bool_decide_eq_false_2 by done. done. }
  destruct ((_ <=? _) && (0 <? queue_level p)) eqn:Hc; simpl.
  - unfold mlfq_age. simpl. rewrite bool_decide_eq_true_2 by done. simpl.
    rewrite Z.sub_diag. unfold u64. rewrite Z.mod_0_l by lia. simpl. reflexivity.
  - unfold mlfq_age. simpl. rewrite bool_decide_eq_true_2 by done. simpl.
    rewrite Hc. reflexivity.
Qed.

Lemma mlfq_age_ok T p : mlfq_ok p -> mlfq_ok (mlfq_age T p).
Proof.
  intros Hp. unfold mlfq_age. destruct (negb _); [done|]. simpl.
  destruct (_ && (0 <? queue_level p)) eqn:Hc; [|done].
  apply andb_true_iff in Hc as [_ Hc]. apply Z.ltb_lt in Hc.
  destruct Hp as [H1 H2]. split; simpl; [lia|].
  pose proof (mlfq_time_slice_pos (queue_level p - 1)). lia.
Qed.

Lemma mlfq_yield_ok T p : mlfq_ok p -> mlfq_ok (mlfq_yield_proc T p).
Proof.
  intros [H1 H2]. unfold mlfq_yield_proc. simpl. rewrite (mlfq_level_id (queue_level p)) by done.
  unfold mlfq_ok, SCHED_MLFQ_LEVELS in *.
  destruct (Z.leb_spec (time_slice p) 0); simpl; [|lia].
  destruct (Z.ltb_spec (queue_level p) (3 - 1)); simpl.
  - pose proof (mlfq_time_slice_pos (queue_level p + 1)). lia.
  - pose proof (mlfq_time_slice_pos (queue_level p)). lia.
Qed.

Lemma mlfq_wakeup_ok T p : mlfq_ok (mlfq_wakeup_proc T p).
Proof.
  unfold mlfq_wakeup_proc. simpl. pose proof (mlfq_level_range (queue_level p)) as H.
  destruct (Z.ltb_spec 0 (mlfq_level (queue_level p))); simpl; split; simpl; try lia.
  - pose proof (mlfq_time_slice_pos (mlfq_level (queue_level p) - 1)). lia.
  - pose proof (mlfq_time_slice_pos (mlfq_level (queue_level p))). lia.
Qed.

(** ** The selection *)
Lemma age_locked_klocked {E} {I : Interference} (k : kst E) i p q :
  interfere (kclock k) (procs k) !! i = Some q ->
  mlfq_age_locked i (klocked k i p) = Ok (tt, klocked k i (mlfq_age (ticks k) p)).
Proof.
  intros Hq. unfold mlfq_age_locked, mreads, mbind, obind. cbn [fst snd].
  apply (modify_proc_klocked _ _ _ q); [done|apply mlfq_age_lock_frame|apply mlfq_age_lock].
Qed.

(** acquire, age, read, continue *)
Lemma locked_age_read {E A} {I : Interference} (k : kst E) i p (K : proc -> M (kst E) A) :
  interfere (kclock k) (procs k) !! i = Some p -> lk_free (lock p) ->
  (acquire_proc i ;;; mlfq_age_locked i ;;; let* q := read_proc i in K q) k =
    K ((mlfq_age (ticks k) p) <| lock := held_by (hartid k) (lock p) |>)
      (klocked k i (mlfq_age (ticks k) p)).
Proof.
  intros Hp Hf. rewrite (mbind_Ok _ _ _ _ _ (acquire_proc_ok _ _ _ Hp Hf)).
  rewrite (mbind_Ok _ _ _ _ _ (age_locked_klocked _ _ _ _ Hp)).
  rewrite (mbind_Ok _ _ _ _ _ (read_proc_klocked _ _ _ _ Hp)).
  by rewrite mlfq_age_lock.
Qed.

Lemma mlfq_scan_eq {E} (I : Interference) T start (k : kst E) offset a p :
  let i := ((start + offset) mod NPROC)%nat in
  ticks k = T -> cpu_wf (mycpu k) -> interfere (kclock k) (procs k) !! i = Some p ->
  lk_free (lock p) ->
  mlfq_scan start offset a k = Ok (mlfq_upd a i (mlfq_age T p), kpass k i (mlfq_age T p)).
Proof.
  intros i <- Hc Hp Hf. unfold mlfq_scan. fold i. rewrite (locked_age_read _ _ p) by done.
  cbn zeta. rewrite (mbind_Ok _ _ _ _ _ (release_proc_klocked _ _ (mlfq_age (ticks k) p) _ Hp
    ltac:(by rewrite mlfq_age_lock) Hc)). reflexivity.
Qed.

Lemma mlfq_scan_acc T t b l :
  (forall j v, b = Some (j, v) -> - SCHED_MLFQ_LEVELS < v) ->
  scan_acc (mlfq_age T) mlfq_upd t (mcand_of b) l =
    mcand_of (fold_left (argmax_step (mlfq_key (mlfq_age T <$> t))) l b).
Proof.
  revert b. induction l as [|i l IH]; intros b Hb; [done|].
  unfold scan_acc in *. simpl.
  assert (match t !! i with
          | Some p => mlfq_upd (mcand_of b) i (mlfq_age T p)
          | None => mcand_of b
          end = mcand_of (argmax_step (mlfq_key (mlfq_age T <$> t)) b i)) as ->.
  { unfold argmax_step, mlfq_key, mlfq_upd. rewrite list_lookup_fmap.
    destruct (t !! i) as [p|]; [|done]. simpl. set (q := mlfq_age T p).
    destruct (runnable q); [|done]. simpl. destruct b as [[j v]|]; simpl.
    - specialize (Hb _ _ eq_refl). unfold SCHED_MLFQ_LEVELS in *.
      destruct (Z.ltb_spec (queue_level q) (- v)), (Z.ltb_spec (queue_level q) 3); simpl; try lia.
      + destruct (Z.ltb_spec v (- queue_level q)); [|lia]. simpl. f_equal; lia.
      + destruct (Z.ltb_spec v (- queue_level q)); [lia|]. done.
      + done.
    - destruct (queue_level q <? SCHED_MLFQ_LEVELS); [|done]. simpl. f_equal. lia. }
  apply IH. intros j v. unfold argmax_step, mlfq_key. rewrite list_lookup_fmap.
  destruct (t !! i) as [p|]; simpl; [|apply Hb].
  destruct (runnable (mlfq_age T p)); simpl; [|apply Hb].
  destruct (Z.ltb_spec (queue_level (mlfq_age T p)) SCHED_MLFQ_LEVELS); [|apply Hb].
  destruct b as [[j' v']|]; [destruct (v' <? _)|]; intros H1; try (by eapply Hb);
    simplify_eq; lia.
Qed.

Lemma mlfq_scan_argmax T t l :
  scan_acc (mlfq_age T) mlfq_upd t (mcand_of None) l =
    mcand_of (argmax (mlfq_key (mlfq_age T <$> t)) l).
Proof. by apply mlfq_scan_acc. Qed.

Lemma mlfq_key_Some t i v :
  mlfq_key t i = Some v <->
  exists p, t !! i = Some p /\ state p = RUNNABLE /\ queue_level p < SCHED_MLFQ_LEVELS /\
    v = - queue_level p.
Proof.
  unfold mlfq_key, runnable. destruct (t !! i) as [p|]; [|split; [done|by intros (? & ? & _)]].
  case_bool_decide; simpl.
  - destruct (Z.ltb_spec (queue_level p) SCHED_MLFQ_LEVELS); split; try done.
    + intros [= <-]. eauto.
    + intros (q & [= <-] & _ & _ & ->). done.
    + intros (q & [= <-] & _ & ? & _). lia.
  - split; [done|]. intros (q & [= <-] & ? & _). done.
Qed.

Section MLFQFacts.
Context {E : Type}.
Implicit Types (k : kst E).

Lemma mlfq_cursor_lt k : kwf k -> (mlfq_cursor k !!! hartid k < NPROC)%nat.
Proof.
  intros [_ _ Hh _ _ [Hl Hf]].
  destruct (lookup_lt_is_Some_2 (mlfq_cursor k) (hartid k)) as [c Hc]; [lia|].
  rewrite (list_lookup_total_correct _ _ _ Hc). by apply (Forall_lookup_1 _ _ _ _ Hf Hc).
Qed.

(** The state in which the selection returns entry [j], or nothing: every
    entry aged, and [j] locked with the cursor behind it. *)
Definition mlfq_aged (k : kst E) : kst E := k <| procs ::= fmap (mlfq_age (ticks k)) |>.
Definition mlfq_selected (k : kst E) (j : nat) : kst E :=
  (mlfq_aged k) <| procs ::= alter (fun p => p <| lock ::= held_by (hartid k) |>) j |>
    <| mlfq_cursor ::= <[hartid k := ((j + 1) mod NPROC)%nat]> |>.

Lemma mlfq_select_quiet fuel k r :
  kwf k -> locks_free (procs k) ->
  r = mlfq_pick (ticks k) (mlfq_cursor k !!! hartid k) (procs k) ->
  exists c n, cpu_wf c /\
    noff c = noff (mycpu k) + (match r with Some _ => 1 | None => 0 end) /\
    mlfq_select_next (I := quiet) (S fuel) k =
      Ok (r, (match r with Some j => mlfq_selected k j | None => mlfq_aged k end)
               <| mycpu := c |> <| kclock := n |>).
Proof.
  intros Hk Hl ->. set (s := mlfq_cursor k !!! hartid k).
  assert (s < NPROC)%nat as Hs by (by apply mlfq_cursor_lt).
  destruct (scan_quiet_full s (ticks k) (mlfq_age (ticks k)) mlfq_upd
              (fun I => @mlfq_scan E I s) (mlfq_age_lock _)
              (fun I k' o a p Ht => mlfq_scan_eq I (ticks k) s k' o a p Ht)
              (mcand_of None) k Hs eq_refl Hk Hl) as (c & n & Hscan & Hc & Hn).
  rewrite mlfq_scan_argmax in Hscan.
  cbn [mlfq_select_next]. unfold mreads at 1 2, mbind at 1 2, obind at 1 2. cbn [fst snd].
  fold s. rewrite (mbind_Ok _ _ _ _ _ Hscan). unfold mlfq_pick.
  set (t := mlfq_age (ticks k) <$> procs k) in *.
  pose proof (argmax_rotation (mlfq_key t) s Hs) as Hmax.
  destruct (argmax (mlfq_key t) (rotation s)) as [[j v]|];
    cbn [mcand_of mbest mbest_index best_level fmap option_fmap option_map fst].
  - destruct Hmax as (Hj & Hkey & _). apply mlfq_key_Some in Hkey as (p & Hp & Hr & _ & ->).
    set (k1 := k <| procs := t |> <| mycpu := c |> <| kclock := n |>).
    assert (mlfq_age (ticks k) p = p) as Hage.
    { unfold t in Hp. rewrite list_lookup_fmap in Hp.
      destruct (procs k !! j); [|done]. simpl in Hp. simplify_eq. apply mlfq_age_idemp. }
    assert (lk_free (lock p)) as Hf.
    { unfold t in Hp. rewrite list_lookup_fmap in Hp.
      destruct (procs k !! j) as [p0|] eqn:E0; [|done]. simpl in Hp. simplify_eq.
      rewrite mlfq_age_lock. eauto. }
    rewrite (locked_age_read (I := quiet) k1 j p) by done.
    change (ticks k1) with (ticks k). rewrite Hage. simpl.
    rewrite bool_decide_eq_true_2 by done. rewrite Z.opp_involutive, Z.leb_refl. simpl.
    rewrite next_cursor.
    exists (push_off c), (S n). split; [auto with kernel|]. rewrite noff_push_off, Hn.
    split; [done|]. unfold mmodify, mbind, obind, mret. cbn [fst snd]. do 2 f_equal.
    unfold mlfq_selected, mlfq_aged, klocked. simpl. f_equal.
    exact (insert_as_alter (fun p => p <| lock ::= held_by (hartid k) |>) _ _ _ Hp).
  - exists c, n. split; [done|]. rewrite Hn. split; [lia|]. reflexivity.
Qed.

Lemma mlfq_select_any (I : Interference) fuel k :
  kwf k -> locks_free (procs k) ->
  mlfq_select_next fuel k = NoFuel \/
  exists r k', mlfq_select_next fuel k = Ok (r, k') /\ hartid k' = hartid k /\
    match r with
    | None => kwf k' /\ locks_free (procs k') /\ same_depth (mycpu k) (mycpu k')
    | Some j => exists k1 p q c, kwf k1 /\ locks_free (procs k1) /\
        same_depth (mycpu k) (mycpu k1) /\
        interfere (kclock k1) (procs k1) !! j = Some q /\ lk_free (lock p) /\ runnable p = true /\
        cursor_ok c /\ k' = (klocked k1 j p) <| mlfq_cursor := c |>
    end.
Proof.
  revert k. induction fuel as [|fuel IH]; intros k Hk Hl; [by left|].
  remember (mlfq_select_next (S fuel) k) as o eqn:Ho.
  cbn [mlfq_select_next] in Ho. unfold mreads at 1 2, mbind at 1 2, obind at 1 2 in Ho.
  cbn [fst snd] in Ho. set (s := mlfq_cursor k !!! hartid k).
  destruct (scan_any s (ticks k) (mlfq_age (ticks k)) mlfq_upd
              (fun I => @mlfq_scan E I s) (mlfq_age_lock _)
              (fun I k' o a p Ht => mlfq_scan_eq I (ticks k) s k' o a p Ht) I
              (fun a => forall b, mbest a = Some b -> (b < NPROC)%nat) (seq 0 NPROC) (mcand_of None) k)
    as (a & k1 & H1 & H2 & _ & H4 & H5 & H6 & H7); try done.
  { intros a i p Hi Ha b. unfold mlfq_upd. destruct (_ && _); [|auto]. intros [= <-]. done. }
  fold s in Ho. rewrite (mbind_Ok _ _ _ _ _ H1) in Ho. destruct (mbest a) as [b|] eqn:Hb.
  - destruct (entry_free k1 b H4 H5 (H2 _ eq_refl)) as (p & Hp & Hf).
    assert (lk_free (lock (mlfq_age (ticks k1) p))) as Hf' by (by rewrite mlfq_age_lock).
    rewrite (locked_age_read k1 b p) in Ho by done. simpl in Ho.
    fold (runnable (mlfq_age (ticks k1) p)) in Ho.
    destruct (runnable (mlfq_age (ticks k1) p) && _) eqn:Hr in Ho.
    + apply andb_true_iff in Hr as [Hr _].
      right. eexists _, _. split; [exact Ho|]. split; [done|].
      exists k1, (mlfq_age (ticks k1) p), p. eexists. split_and!; try done.
      apply cursor_ok_insert; [apply H4|apply next_cursor_lt].
    + rewrite (mbind_Ok _ _ _ _ _ (release_proc_klocked _ _ _ _ Hp Hf' (kwf_cpu _ H4))) in Ho.
      subst o. destruct (IH (kpass k1 b (mlfq_age (ticks k1) p))) as [?|(r & k' & Hr1 & Hr2 & Hr3)];
        auto with kernel.
      right. exists r, k'. split; [done|]. split; [by rewrite Hr2|].
      simpl in Hr3. destruct r as [j|].
      * destruct Hr3 as (k2 & p2 & q2 & c2 & B1 & B2 & B3 & B4). rewrite same_depth_lockcycle in B3.
        exists k2, p2, q2, c2. split; [done|]. split; [done|]. split; [|done].
        by eapply same_depth_trans.
      * destruct Hr3 as (B1 & B2 & B3). rewrite same_depth_lockcycle in B3.
        split; [done|]. split; [done|]. by eapply same_depth_trans.
  - right. exists None, k1. by split_and!.
Qed.
End MLFQFacts.

(** ** Runs of the MLFQ scheduler in which process [i] stays RUNNABLE

    A round is a selection at tick [ticks k].  Between rounds the rest of the
    system may change every other entry, as long as levels stay in range; it
    leaves entry [i] and this hart's cursor alone, and ticks do not go back
    (nor wrap around, see [mlfq_ticks_wrap]). A round is [late] for [i] when
    [i] is at level 0 or has waited for the aging threshold. *)
Definition late (T : Z) (p : proc) : bool :=
  (queue_level p =? 0) || (SCHED_MLFQ_AGING_THRESHOLD <=? T - ready_since p).

Record mlfq_waits {E} (i : nat) (k : kst E) (p : proc) : Prop := {
  mw_kwf : kwf k;
  mw_free : locks_free (procs k);
  mw_levels : forall j q, procs k !! j = Some q -> mlfq_ok q;
  mw_entry : procs k !! i = Some p;
  mw_runnable : state p = RUNNABLE;
  mw_ticks : 0 <= ready_since p <= ticks k /\ ticks k < 2 ^ 32
}.

(** The rounds of a run: what was selected and whether the round was late. *)
Inductive mlfq_rounds {E} (i : nat) : kst E -> list (nat * bool) -> Prop :=
| mlfq_rounds_nil k : mlfq_rounds i k []
| mlfq_rounds_cons k p j k1 k2 fuel js :
    mlfq_waits i k p ->
    mlfq_select_next (I := quiet) (S fuel) k = Ok (Some j, k1) ->
    hartid k2 = hartid k -> mlfq_cursor k2 !!! hartid k = mlfq_cursor k1 !!! hartid k ->
    (j <> i -> procs k2 !! i = procs k1 !! i) -> ticks k <= ticks k2 ->
    mlfq_rounds i k2 js ->
    mlfq_rounds i k ((j, late (ticks k) p) :: js).

Definition late_count (js : list (nat * bool)) : nat :=
  length (filter (fun r => snd r = true) js).

(** How many more late rounds entry [i] can be passed over. *)
Definition wait_bound (cursor i : nat) (p : proc) : nat :=
  if queue_level p =? 0 then cyc_dist cursor i
  else (Z.to_nat (queue_level p) + (NPROC - 1))%nat.

Lemma mlfq_age_runnable T p :
  mlfq_ok p -> state p = RUNNABLE -> 0 <= ready_since p <= T -> T < 2 ^ 32 ->
  queue_level (mlfq_age T p) =
    (if negb (queue_level p =? 0) && late T p then queue_level p - 1 else queue_level p) /\
  0 <= ready_since (mlfq_age T p) <= T.
Proof.
  intros [Hl _] Hs Hr HT. unfold mlfq_age. rewrite bool_decide_eq_true_2 by done. simpl.
  rewrite u64_small by lia. unfold late, SCHED_MLFQ_AGING_THRESHOLD in *.
  destruct (Z.eqb_spec (queue_level p) 0), (Z.leb_spec 8 (T - ready_since p)),
    (Z.ltb_spec 0 (queue_level p)); simpl; try lia; split; lia.
Qed.

Lemma mlfq_select_inv {E} (k : kst E) j k1 fuel :
  kwf k -> locks_free (procs k) ->
  mlfq_select_next (I := quiet) (S fuel) k = Ok (Some j, k1) ->
  mlfq_pick (ticks k) (mlfq_cursor k !!! hartid k) (procs k) = Some j /\
  exists c n, k1 = (mlfq_selected k j) <| mycpu := c |> <| kclock := n |>.
Proof.
  intros Hk Hl Hsel.
  destruct (mlfq_select_quiet fuel k _ Hk Hl eq_refl) as (c & n & _ & _ & Heq).
  rewrite Heq in Hsel. apply Ok_pair_inj in Hsel as [Hpick Hk1]. rewrite Hpick in Hk1. clear Heq.
  split; [exact Hpick|]. exists c, n. symmetry. exact Hk1.
Qed.

Lemma mlfq_pick_Some T s t j :
  (s < NPROC)%nat -> mlfq_pick T s t = Some j ->
  exists q, t !! j = Some q /\ state q = RUNNABLE /\ (j < NPROC)%nat /\
    forall i p, (i < NPROC)%nat -> t !! i = Some p -> state p = RUNNABLE ->
      queue_level (mlfq_age T p) < SCHED_MLFQ_LEVELS ->
      queue_level (mlfq_age T q) <= queue_level (mlfq_age T p) /\
      (i <> j -> queue_level (mlfq_age T p) = queue_level (mlfq_age T q) ->
       (cyc_dist s j < cyc_dist s i)%nat).
Proof.
  intros Hs Hpick. pose proof (argmax_rotation (mlfq_key (mlfq_age T <$> t)) s Hs) as Hmax.
  unfold mlfq_pick in Hpick. apply fmap_Some in Hpick as ([j' v] & Heq & ->).
  rewrite Heq in Hmax. destruct Hmax as (Hj & Hkey & Hbest).
  apply mlfq_key_Some in Hkey as (q & Hq & Hqs & _ & ->).
  rewrite list_lookup_fmap in Hq. apply fmap_Some in Hq as (q0 & Hq0 & ->). exists q0.
  rewrite mlfq_age_state in Hqs. split_and!; try done.
  intros i p Hi Hp Hps Hlev. destruct (Hbest i (- queue_level (mlfq_age T p))) as [H1 H2]; [done| |].
  { apply mlfq_key_Some. exists (mlfq_age T p).
    rewrite list_lookup_fmap, Hp, mlfq_age_state. done. }
  simpl fst. split; [lia|]. intros Hne Hl. apply H2; [done|lia].
Qed.

Lemma mlfq_round_entry {E} i (k : kst E) p j k1 fuel :
  mlfq_waits i k p -> mlfq_select_next (I := quiet) (S fuel) k = Ok (Some j, k1) -> j <> i ->
  (i < NPROC)%nat /\ (j < NPROC)%nat /\ procs k1 !! i = Some (mlfq_age (ticks k) p) /\
  mlfq_cursor k1 !!! hartid k = ((j + 1) mod NPROC)%nat /\
  (queue_level (mlfq_age (ticks k) p) = 0 ->
   (cyc_dist (mlfq_cursor k !!! hartid k) j < cyc_dist (mlfq_cursor k !!! hartid k) i)%nat).
Proof.
  intros [Hk Hl Hlev Hp Hs Ht] Hsel Hne.
  assert (i < NPROC)%nat as Hi by (rewrite <- (kwf_procs _ Hk); eapply lookup_lt_Some; eauto).
  apply mlfq_select_inv in Hsel as [Hpick (c & n & ->)]; [|done|done].
  apply mlfq_pick_Some in Hpick as (q & Hq & Hqs & Hj & Hbest); [|by apply mlfq_cursor_lt].
  split; [done|]. split; [done|]. split; [|split].
  - simpl. rewrite list_lookup_alter_ne by done. by rewrite list_lookup_fmap, Hp.
  - simpl. apply list_lookup_total_insert_eq. rewrite (proj1 (kwf_mlfq _ Hk)). apply Hk.
  - intros H0. destruct (Hbest i p Hi Hp Hs) as [Hle Hlt]; [rewrite H0; by compute|].
    pose proof (mlfq_age_ok (ticks k) _ (Hlev _ _ Hq)) as [Hq0 _].
    apply Hlt; [done|lia].
Qed.

Lemma mlfq_rounds_bound {E} i (k : kst E) js p :
  mlfq_rounds i k js -> procs k !! i = Some p -> i ∉ (fst <$> js) ->
  (late_count js <= wait_bound (mlfq_cursor k !!! hartid k) i p)%nat.
Proof.
  intros Hr. revert p. induction Hr as [|k p0 j k1 k2 fuel js Hw Hsel Hh Hcur Hent Htk _ IH];
    intros p Hp Hni; [unfold late_count; simpl; lia|].
  assert (p0 = p) as -> by (destruct Hw; congruence).
  simpl in Hni. apply not_elem_of_cons in Hni as [Hne Hni].
  destruct (mlfq_round_entry _ _ _ _ _ _ Hw Hsel ltac:(congruence)) as (Hi & Hj & Hp1 & Hc1 & Hd).
  pose proof (mlfq_cursor_lt k (mw_kwf _ _ _ Hw)) as Hc.
  destruct Hw as [Hk Hl Hlev _ Hs Ht].
  destruct (mlfq_age_runnable (ticks k) p (Hlev _ _ Hp) Hs) as [Hq _]; [lia|lia|].
  specialize (IH (mlfq_age (ticks k) p)). rewrite Hent, Hp1, Hh, Hcur, Hc1 in IH by congruence.
  specialize (IH eq_refl Hni). destruct (Hlev _ _ Hp) as [Hlp _].
  assert (late_count ((j, late (ticks k) p) :: js) =
          (if late (ticks k) p then 1 else 0) + late_count js)%nat as ->.
  { unfold late_count. rewrite filter_cons. simpl. destruct (late (ticks k) p).
    - by rewrite decide_True.
    - by rewrite decide_False. }
  pose proof (cyc_dist_lt (mlfq_cursor k !!! hartid k) i) as Hdi.
  pose proof (cyc_dist_lt ((j + 1) mod NPROC) i) as Hdj.
  pose proof (cyc_dist_advance (mlfq_cursor k !!! hartid k) i j Hc Hi Hj) as Hadv.
  unfold wait_bound in *. rewrite Hq in IH, Hd.
  destruct (Z.eqb_spec (queue_level p) 0) as [H0|H0].
  - rewrite H0 in IH, Hd. change (0 =? 0) with true in IH, Hd. cbn [negb andb] in IH, Hd.
    change (0 =? 0) with true in IH. cbv iota in IH. specialize (Hadv (Hd eq_refl)).
    destruct (late (ticks k) p); lia.
  - destruct (late (ticks k) p); cbn [negb andb] in IH.
    + destruct (Z.eqb_spec (queue_level p - 1) 0); lia.
    + destruct (Z.eqb_spec (queue_level p) 0); lia.
Qed.

(** ** Preemption *)

(** A RUNNABLE process of a better level exists. *)
Definition better_waiting (t : list proc) (level : Z) (c : nat) : bool :=
  match t !! c with
  | Some q => runnable q && (queue_level q <? level)
  | None => false
  end.

Lemma mlfq_preempt_scan_quiet {E} (k : kst E) i p c :
  kwf k -> locks_free (procs k) -> procs k !! i = Some p -> (c < NPROC)%nat ->
  exists k', same_table k k' /\ cpu_wf (mycpu k') /\ noff (mycpu k') = noff (mycpu k) /\
    mlfq_preempt_scan (I := quiet) i c k =
      Ok (if better_waiting (procs k) (queue_level p) c then Some 1 else None, k').
Proof.
  intros Hk Hl Hp Hc. destruct (entry_free (I := quiet) k c Hk Hl Hc) as (q & Hq & Hf).
  simpl in Hq. exists (kpass (I := quiet) k c q).
  split; [by apply same_table_kpass|]. split; [apply cpu_wf_lockcycle, Hk|].
  split; [apply lockcycle_noff|]. unfold mlfq_preempt_scan, better_waiting.
  rewrite (locked_read (I := quiet) k c q) by done. rewrite Hq.
  assert (exists p', read_proc i (klocked (I := quiet) k c q) = Ok (p', klocked (I := quiet) k c q) /\
            queue_level p' = queue_level p) as (p' & Hr & Hlev).
  { unfold read_proc, klocked. simpl. destruct (decide (c = i)) as [->|Hne].
    - rewrite list_lookup_insert_eq by (eapply lookup_lt_Some; eauto).
      eexists. split; [reflexivity|]. simpl. congruence.
    - rewrite list_lookup_insert_ne by done. rewrite Hp. eauto. }
  rewrite (mbind_Ok _ _ _ _ _ Hr), Hlev. simpl. fold (runnable q).
  destruct (runnable q && (queue_level q <? queue_level p));
    by rewrite (mbind_Ok _ _ _ _ _ (release_proc_klocked (I := quiet) _ _ _ _ Hq Hf (kwf_cpu _ Hk))).
Qed.

Lemma mlfq_preempt_loop_quiet {E} (k : kst E) i p l :
  kwf k -> locks_free (procs k) -> procs k !! i = Some p -> Forall (fun c => (c < NPROC)%nat) l ->
  exists k', same_table k k' /\
    for_until l (mlfq_preempt_scan (I := quiet) i) k =
      Ok (if existsb (better_waiting (procs k) (queue_level p)) l then Some 1 else None, k').
Proof.
  intros Hk Hl Hp Hf. revert k Hk Hl Hp. induction Hf as [|c l Hc _ IH]; intros k Hk Hl Hp.
  { exists k. split; [apply same_table_refl|done]. }
  destruct (mlfq_preempt_scan_quiet k i p c Hk Hl Hp Hc) as (k1 & Hs & Hc1 & Hn & Hb).
  cbn [existsb]. destruct (better_waiting (procs k) (queue_level p) c) eqn:Hbw; cbn [orb].
  - exists k1. split; [done|]. by rewrite (for_until_found _ _ _ _ _ _ Hb).
  - unfold same_table in Hs.
    assert (procs k1 = procs k) as Hp1 by (rewrite Hs; done).
    destruct (IH k1) as (k2 & Hs2 & H2); [|by rewrite Hp1|by rewrite Hp1|].
    { destruct Hk. rewrite Hs. by split. }
    exists k2. split; [by eapply same_table_trans|].
    rewrite (for_until_next _ _ _ _ _ Hb), H2, Hp1. done.
Qed.

(** ** Theorems *)

(** With no other CPU running, one round of mlfq_select_next suffices; it
    ages every entry, and returns a RUNNABLE entry of the best level after
    aging, the first of that level in cyclic order from the CPU's cursor,
    locked by this hart and with the cursor moved just behind it; when it
    returns null no entry is RUNNABLE. *)
Theorem mlfq_select_next_correct {E} fuel (k : kst E) :
  kwf k -> locks_free (procs k) -> (forall i p, procs k !! i = Some p -> mlfq_ok p) ->
  let start := mlfq_cursor k !!! hartid k in
  let level p := queue_level (mlfq_age (ticks k) p) in
  exists r c n,
    match r with
    | Some j => exists p,
        mlfq_select_next (I := quiet) (S fuel) k =
          Ok (Some j, (mlfq_selected k j) <| mycpu := c |> <| kclock := n |>) /\
        noff c = noff (mycpu k) + 1 /\ procs k !! j = Some p /\ state p = RUNNABLE /\
        forall i q, procs k !! i = Some q -> state q = RUNNABLE ->
          level p <= level q /\
          (i <> j -> level q = level p -> (cyc_dist start j < cyc_dist start i)%nat)
    | None =>
        mlfq_select_next (I := quiet) (S fuel) k =
          Ok (None, (mlfq_aged k) <| mycpu := c |> <| kclock := n |>) /\
        noff c = noff (mycpu k) /\
        forall i q, procs k !! i = Some q -> state q <> RUNNABLE
    end.
Proof.
  intros Hk Hl Hok start level. pose proof (mlfq_cursor_lt k Hk) as Hc. fold start in Hc.
  assert (forall i q, procs k !! i = Some q -> (i < NPROC)%nat) as Hlt.
  { intros i q Hq. rewrite <- (kwf_procs _ Hk). by eapply lookup_lt_Some. }
  assert (forall i q, procs k !! i = Some q -> level q < SCHED_MLFQ_LEVELS) as Hlev.
  { intros i q Hq. by destruct (mlfq_age_ok (ticks k) q (Hok _ _ Hq)) as [[_ ?] _]. }
  destruct (mlfq_select_quiet fuel k _ Hk Hl eq_refl) as (c & n & _ & Hn & Heq).
  fold start in Hn, Heq. exists (mlfq_pick (ticks k) start (procs k)), c, n. rewrite Heq. clear Heq.
  destruct (mlfq_pick (ticks k) start (procs k)) as [j|] eqn:Hpick.
  - apply mlfq_pick_Some in Hpick as (p & Hp & Hr & _ & Hbest); [|done].
    exists p. split_and!; try done. intros i q Hq Hs.
    apply Hbest; [by eapply Hlt|done|done|by eapply Hlev].
  - split; [done|]. split; [lia|]. intros i q Hq Hs.
    pose proof (argmax_rotation (mlfq_key (mlfq_age (ticks k) <$> procs k)) start Hc) as Hmax.
    unfold mlfq_pick in Hpick. apply fmap_None in Hpick. rewrite Hpick in Hmax.
    assert (mlfq_key (mlfq_age (ticks k) <$> procs k) i = Some (- level q)) as H.
    { apply mlfq_key_Some. exists (mlfq_age (ticks k) q).
      rewrite list_lookup_fmap, Hq, mlfq_age_state. split_and!; try done. by eapply Hlev. }
    rewrite Hmax in H by (by eapply Hlt). done.
Qed.

(** Hart 2 at tick 100: entry 1 RUNNABLE at level 1 since tick 99, entry 6
    RUNNABLE at level 2 since tick 90, which aging promotes to level 1. *)
Definition mlfq_demo : kst unit :=
  (with_proc 1 (fun p => p <| state := RUNNABLE |> <| queue_level := 1 |> <| ready_since := 99 |>)
    (with_proc 6 (fun p => p <| state := RUNNABLE |> <| queue_level := 2 |> <| ready_since := 90 |>)
      (boot_kst tt 2))) <| ticks := 100 |>.
Lemma mlfq_demo_kwf : kwf mlfq_demo.
Proof.
  assert (kwf (E := unit) (boot_kst tt 2)) as [] by (apply kwf_boot; unfold NCPU; lia). by split.
Qed.
Lemma mlfq_demo_free : locks_free (procs mlfq_demo).
Proof.
  change (procs mlfq_demo) with
    (procs (with_proc 1 (fun p => p <| state := RUNNABLE |> <| queue_level := 1 |> <| ready_since := 99 |>)
      (with_proc 6 (fun p => p <| state := RUNNABLE |> <| queue_level := 2 |> <| ready_since := 90 |>)
        (boot_kst tt 2)))).
  do 2 (apply locks_free_with_proc; [|done]). apply locks_free_boot.
Qed.
Lemma mlfq_demo_ok i p : procs mlfq_demo !! i = Some p -> mlfq_ok p.
Proof.
  intros H. assert (Forall mlfq_ok (procs mlfq_demo)) as HF.
  { apply (Forall_impl (fun q => bool_decide (0 <= queue_level q < 3) &&
       bool_decide (0 <= time_slice q <= mlfq_time_slice (queue_level q)) = true)).
    - apply List.Forall_forall, List.forallb_forall. vm_compute. reflexivity.
    - intros q Hq. apply andb_true_iff in Hq as [H1 H2].
      by split; [apply bool_decide_eq_true in H1|apply bool_decide_eq_true in H2]. }
  by eapply Forall_lookup_1 in H.
Qed.

Lemma mlfq_select_next_correct_witness :
  fst <$> (match mlfq_select_next (I := quiet) 1 mlfq_demo with
           | Ok x => Some x | _ => None end) = Some (Some 1%nat) /\
  exists r c n,
    match r with
    | Some j => exists p,
        mlfq_select_next (I := quiet) 1 mlfq_demo =
          Ok (Some j, (mlfq_selected mlfq_demo j) <| mycpu := c |> <| kclock := n |>) /\
        noff c = noff (mycpu mlfq_demo) + 1 /\ procs mlfq_demo !! j = Some p /\ state p = RUNNABLE /\
        forall i q, procs mlfq_demo !! i = Some q -> state q = RUNNABLE ->
          queue_level (mlfq_age 100 p) <= queue_level (mlfq_age 100 q) /\
          (i <> j -> queue_level (mlfq_age 100 q) = queue_level (mlfq_age 100 p) ->
           (cyc_dist (mlfq_cursor mlfq_demo !!! hartid mlfq_demo) j <
            cyc_dist (mlfq_cursor mlfq_demo !!! hartid mlfq_demo) i)%nat)
    | None =>
        mlfq_select_next (I := quiet) 1 mlfq_demo =
          Ok (None, (mlfq_aged mlfq_demo) <| mycpu := c |> <| kclock := n |>) /\
        noff c = noff (mycpu mlfq_demo) /\
        forall i q, procs mlfq_demo !! i = Some q -> state q <> RUNNABLE
    end.
Proof.
  split; [vm_compute; reflexivity|].
  exact (mlfq_select_next_correct 0 mlfq_demo mlfq_demo_kwf mlfq_demo_free mlfq_demo_ok).
Defined.

(** C10: aging rules out starvation: in any run of selections of one CPU during
    which process [i] stays RUNNABLE and unselected and ticks do not wrap, at
    most NPROC + 1 selections happen at which [i] is at the top level or has
    waited for the aging threshold since it last became ready or was promoted
    (two promotions, then fewer than NPROC turns of the top level). *)
Theorem mlfq_no_starvation {E} i (k : kst E) js :
  mlfq_rounds i k js -> i ∉ (fst <$> js) -> (late_count js <= NPROC + 1)%nat.
Proof.
  intros Hr Hni. destruct Hr as [k|k p j k1 k2 fuel js Hw Hsel Hh Hc He Ht Hr]; [unfold late_count; simpl; lia|].
  pose proof (mw_entry _ _ _ Hw) as Hp. pose proof (mw_levels _ _ _ Hw _ _ Hp) as [Hlev _].
  pose proof (mlfq_rounds_bound i k _ p (mlfq_rounds_cons i k p j k1 k2 fuel js Hw Hsel Hh Hc He Ht Hr)
    Hp Hni) as H.
  pose proof (cyc_dist_lt (mlfq_cursor k !!! hartid k) i) as Hd.
  unfold wait_bound, SCHED_MLFQ_LEVELS in *. destruct (queue_level p =? 0); lia.
Qed.

(** One round on [mlfq_demo], late for entry 6, which is passed over. *)
Lemma mlfq_demo_rounds : mlfq_rounds 6 mlfq_demo [(1%nat, true)].
Proof.
  destruct (mlfq_select_quiet 0 mlfq_demo (Some 1%nat) mlfq_demo_kwf mlfq_demo_free) as (c & n & _ & _ & H);
    [vm_compute; reflexivity|].
  set (k1 := (mlfq_selected mlfq_demo 1) <| mycpu := c |> <| kclock := n |>) in H.
  set (p := zero_proc <| state := RUNNABLE |> <| queue_level := 2 |> <| ready_since := 90 |>).
  assert (true = late (ticks mlfq_demo) p) as -> by (vm_compute; reflexivity).
  apply (mlfq_rounds_cons 6 mlfq_demo p 1 k1 k1 0 []);
    [|exact H|reflexivity|reflexivity|reflexivity|reflexivity|constructor].
  split; [exact mlfq_demo_kwf|exact mlfq_demo_free|exact mlfq_demo_ok|reflexivity|reflexivity|].
  simpl. lia.
Qed.

Lemma mlfq_no_starvation_witness : (late_count [(1%nat, true)] <= NPROC + 1)%nat.
Proof.
  apply (mlfq_no_starvation 6 mlfq_demo [(1%nat, true)]).
  - exact mlfq_demo_rounds.
  - intros H. apply list_elem_of_singleton in H. discriminate.
Defined.

(** With no other CPU running, mlfq_should_preempt answers 1 exactly when
    the running process has used up its slice or a RUNNABLE process of a
    strictly better level exists, and leaves the table as it was. *)
Theorem mlfq_should_preempt_correct {E} (k : kst E) i p :
  kwf k -> locks_free (procs k) -> procs k !! i = Some p ->
  exists r k', mlfq_should_preempt (I := quiet) i k = Ok (r, k') /\ same_table k k' /\
    (r = 0 \/ r = 1) /\
    (r = 1 <-> time_slice p <= 0 \/
       exists c q, procs k !! c = Some q /\ state q = RUNNABLE /\ queue_level q < queue_level p).
Proof.
  intros Hk Hl Hp. unfold mlfq_should_preempt, read_proc, mbind at 1, obind at 1.
  rewrite Hp. cbn [fst snd]. destruct (Z.leb_spec (time_slice p) 0) as [Hs|Hs].
  { exists 1, k. split; [done|]. split; [apply same_table_refl|]. split; [by right|]. tauto. }
  destruct (mlfq_preempt_loop_quiet k i p (seq 0 NPROC) Hk Hl Hp) as (k' & Hs' & Hloop).
  { apply Forall_seq. unfold NPROC. lia. }
  rewrite (mbind_Ok _ _ _ _ _ Hloop).
  destruct (existsb (better_waiting (procs k) (queue_level p)) (seq 0 NPROC)) eqn:Hb.
  - exists 1, k'. split; [done|]. split; [done|]. split; [by right|]. split; [|done].
    intros _. right. apply existsb_exists in Hb as (c & _ & Hc). unfold better_waiting in Hc.
    destruct (procs k !! c) as [q|] eqn:Hq; [|done]. apply andb_true_iff in Hc as [H1 H2].
    exists c, q. apply bool_decide_eq_true in H1. apply Z.ltb_lt in H2. done.
  - exists 0, k'. split; [done|]. split; [done|]. split; [by left|]. split; [done|].
    intros [?|(c & q & Hq & Hr & Hlt)]; [lia|]. exfalso.
    apply not_true_iff_false in Hb. apply Hb. apply existsb_exists. exists c. split.
    + apply in_seq. apply lookup_lt_Some in Hq. rewrite (kwf_procs _ Hk) in Hq. lia.
    + unfold better_waiting, runnable. rewrite Hq, bool_decide_eq_true_2 by done.
      by apply Z.ltb_lt.
Qed.

Lemma mlfq_should_preempt_correct_witness :
  exists r k', mlfq_should_preempt (I := quiet) 1 mlfq_demo = Ok (r, k') /\ same_table mlfq_demo k' /\
    (r = 0 \/ r = 1) /\
    (r = 1 <-> 0 <= 0 \/
       exists c q, procs mlfq_demo !! c = Some q /\ state q = RUNNABLE /\ queue_level q < 1).
Proof.
  exact (mlfq_should_preempt_correct mlfq_demo 1
    (zero_proc <| state := RUNNABLE |> <| queue_level := 1 |> <| ready_since := 99 |>)
    mlfq_demo_kwf mlfq_demo_free eq_refl).
Defined.

(** Ticks is a 32-bit counter and ready_since a 64-bit one, and their
    difference is taken in 64 bits.  A process that has been ready for [w]
    ticks, fewer than the aging threshold, keeps its level as long as the
    counter has not wrapped meanwhile; if it has wrapped, the process is
    promoted at once. *)
Theorem mlfq_ticks_wrap R w p :
  state p = RUNNABLE -> 0 < queue_level p -> ready_since p = R ->
  0 <= R < 2 ^ 32 -> 0 <= w < SCHED_MLFQ_AGING_THRESHOLD ->
  queue_level (mlfq_age (u32 (R + w)) p) =
    if R + w <? 2 ^ 32 then queue_level p else queue_level p - 1.
Proof.
  intros Hs Hq HR HR' Hw. unfold mlfq_age. rewrite bool_decide_eq_true_2 by done.
  cbn [negb]. simpl. rewrite HR. unfold SCHED_MLFQ_AGING_THRESHOLD in *.
  destruct (Z.ltb_spec (R + w) (2 ^ 32)) as [Hlt|Hge].
  - rewrite (u32_small (R + w)) by lia. rewrite u64_small by lia.
    destruct (Z.leb_spec 8 (R + w - R)); [lia|]. done.
  - assert (u32 (R + w) = R + w - 2 ^ 32) as ->.
    { unfold u32. symmetry. apply (Z.mod_unique _ _ 1); lia. }
    assert (u64 (R + w - 2 ^ 32 - R) = 2 ^ 64 + w - 2 ^ 32) as ->.
    { unfold u64. symmetry. apply (Z.mod_unique _ _ (-1)); lia. }
    destruct (Z.leb_spec 8 (2 ^ 64 + w - 2 ^ 32)); [|lia].
    destruct (Z.ltb_spec 0 (queue_level p)); [|lia]. done.
Qed.

Lemma mlfq_ticks_wrap_witness :
  queue_level (mlfq_age (u32 (2 ^ 32 - 1 + 1))
    (zero_proc <| state := RUNNABLE |> <| queue_level := 2 |> <| ready_since := 2 ^ 32 - 1 |>)) = 1.
Proof.
  etransitivity; [apply (mlfq_ticks_wrap (2 ^ 32 - 1) 1
    (zero_proc <| state := RUNNABLE |> <| queue_level := 2 |> <| ready_since := 2 ^ 32 - 1 |>));
    [reflexivity|reflexivity|reflexivity|lia|unfold SCHED_MLFQ_AGING_THRESHOLD; lia]
  |vm_compute; reflexivity].
Defined.
