(* ===== verification/Sched.v ===== *)
(** * The strategy layer of the scheduler (kernel/sched.c, kernel/sched.h)

    A strategy is a record of operations; kernel/sched.c keeps a table of
    registered strategy objects indexed by policy and dispatches to the one of
    the current policy.  [StrategyLaws] is what the rest of the kernel relies
    on; the three strategies are shown to satisfy it, and the dispatch
    functions are shown correct against it. *)
From stdpp Require Import base list strings gmap.
From Stdlib Require Import ZArith Lia.
From S2P Require Import Prelude Spinlock KState SchedScan SchedRR SchedPriority SchedMLFQ.

(** struct sched_strategy (kernel/sched.h); [None] is a null pointer.  The
    first argument of [select_next] bounds the retries of a selection that
    races with other CPUs. *)
Record sched_strategy (E : Type) : Type := mkStrategy {
  policy : Z;
  s_name : option string;
  select_next : option (nat -> M (kst E) (option nat));
  on_tick : option (nat -> M (kst E) unit);
  on_yield : option (nat -> M (kst E) unit);
  on_wakeup : option (nat -> M (kst E) unit);
  should_preempt : option (nat -> M (kst E) Z)
}.
Arguments mkStrategy {E}.
Arguments policy {E} _.
Arguments s_name {E} _.
Arguments select_next {E} _.
Arguments on_tick {E} _.
Arguments on_yield {E} _.
Arguments on_wakeup {E} _.
Arguments should_preempt {E} _.

Section Sched.
Context {E : Type} {I : Interference}.

Definition rr_sched_strategy : sched_strategy E :=
  {| policy := SCHED_RR; s_name := Some "rr"%string;
     select_next := Some (fun _ => rr_select_next);
     on_tick := Some rr_on_tick; on_yield := Some rr_on_yield;
     on_wakeup := Some rr_on_wakeup; should_preempt := Some rr_should_preempt |}.

Definition priority_sched_strategy : sched_strategy E :=
  {| policy := SCHED_STATIC_PRIORITY; s_name := Some "spq"%string;
     select_next := Some priority_select_next;
     on_tick := Some priority_on_tick; on_yield := Some priority_on_yield;
     on_wakeup := Some priority_on_wakeup; should_preempt := Some priority_should_preempt |}.

Definition mlfq_sched_strategy : sched_strategy E :=
  {| policy := SCHED_MLFQ; s_name := Some "mlfq"%string;
     select_next := Some mlfq_select_next;
     on_tick := Some mlfq_on_tick; on_yield := Some mlfq_on_yield;
     on_wakeup := Some mlfq_on_wakeup; should_preempt := Some mlfq_should_preempt |}.

(** The strategy objects of the kernel, by identity: the entries of the table
    [strategies] are the addresses of these three constants. *)
Definition strategy_obj (ptr : nat) : sched_strategy E :=
  match ptr with
  | O => rr_sched_strategy
  | S O => priority_sched_strategy
  | _ => mlfq_sched_strategy
  end.
Definition rr_ptr : nat := 0.
Definition priority_ptr : nat := 1.
Definition mlfq_ptr : nat := 2.

Definition is_null {A : Type} (o : option A) : bool :=
  match o with Some _ => false | None => true end.

(** [strategy] is a null pointer or the address and contents of an object. *)
Definition sched_register_strategy (strategy : option (nat * sched_strategy E)) : M (kst E) Z :=
  match strategy with
  | None => mret (-1)
  | Some (ptr, s) =>
      if (policy s <? 0) || (SCHED_POLICY_COUNT <=? policy s) ||
         is_null (s_name s) || is_null (select_next s) ||
         is_null (on_tick s) || is_null (on_yield s) ||
         is_null (on_wakeup s) || is_null (should_preempt s)
      then mret (-1)
      else
        mmodify (fun k => k <| strategies ::= <[Z.to_nat (policy s) := Some ptr]> |>) ;;;
        mret 0
  end.

Definition sched_policy_current : M (kst E) Z := mreads current_sched_policy.

Definition sched_policy_available (p : Z) : M (kst E) Z :=
  mreads (fun k =>
    if (0 <=? p) && (p <? SCHED_POLICY_COUNT) &&
       negb (is_null (strategies k !!! Z.to_nat p)) then 1 else 0).

Definition active_strategy : M (kst E) nat :=
  let* p := sched_policy_current in
  if (p <? 0) || (SCHED_POLICY_COUNT <=? p) then mret rr_ptr
  else
    let* strategy := mreads (fun k => strategies k !!! Z.to_nat p) in
    match strategy with
    | None => mret rr_ptr
    | Some s => mret s
    end.

Definition schedinit : M (kst E) unit :=
  sched_register_strategy (Some (rr_ptr, rr_sched_strategy)) ;;;
  sched_register_strategy (Some (priority_ptr, priority_sched_strategy)) ;;;
  sched_register_strategy (Some (mlfq_ptr, mlfq_sched_strategy)) ;;;
  let* a := sched_policy_available SCHED_DEFAULT_POLICY in
  if a =? 0 then mmodify (fun k => k <| current_sched_policy := SCHED_RR |>)
  else mret tt.

Definition sched_policy_switch (p : Z) : M (kst E) Z :=
  let* a := sched_policy_available p in
  if a =? 0 then mret (-1)
  else
    mmodify (fun k => k <| current_sched_policy := p |>) ;;;
    mret 0.

Definition sched_policy_name (p : Z) : string :=
  if p =? SCHED_RR then "rr"
  else if p =? SCHED_STATIC_PRIORITY then "spq"
  else if p =? SCHED_MLFQ then "mlfq"
  else "unknown".

(** A call through a function pointer. *)
Definition call {A B : Type} (fn : option (A -> M (kst E) B)) (a : A) : M (kst E) B :=
  match fn with Some f => f a | None => mub end.

Definition select_next_proc (fuel : nat) : M (kst E) (option nat) :=
  let* s := active_strategy in
  call (select_next (strategy_obj s)) fuel.

(** The entry as sched_proc_init leaves it, at tick count [T] under policy
    [pol]. *)
Definition proc_sched_init (T pol : Z) (p : proc) : proc :=
  p <| priority := SCHED_DEFAULT_PRIORITY |>
    <| queue_level := SCHED_DEFAULT_QUEUE_LEVEL |>
    <| time_slice := SCHED_RR_TIME_SLICE |>
    <| run_time := 0 |> <| ready_count := 0 |> <| ready_ticks := 0 |>
    <| ready_since := T |> <| total_ready_time := 0 |> <| wait_count := 0 |>
    <| schedule_count := 0 |> <| create_tick := T |> <| first_run_tick := 0 |>
    <| exit_tick := 0 |> <| sched_policy := pol |>
    <| state_stat := replicate PROC_STATE_COUNT 0 |>.

Definition sched_proc_init (i : nat) : M (kst E) unit :=
  let* T := mreads ticks in
  let* pol := sched_policy_current in
  modify_proc i (proc_sched_init T pol).

Definition sched_proc_runnable (i : nat) : M (kst E) unit :=
  let* T := mreads ticks in
  modify_proc i (fun p =>
    p <| ready_count ::= fun n => u64 (n + 1) |> <| ready_since := T |>).

(** The entry after a clock tick, before the strategy's hook. *)
Definition proc_after_tick (p : proc) : proc :=
  let p := p <| run_time ::= fun n => u64 (n + 1) |> in
  let p := p <| state_stat ::= alter (fun n => u64 (n + 1)) (procstate_num RUNNING) |> in
  if 0 <? time_slice p then p <| time_slice ::= fun n => n - 1 |> else p.

Definition update_proc_after_tick (i : nat) : M (kst E) unit :=
  modify_proc i proc_after_tick ;;;
  let* s := active_strategy in
  call (on_tick (strategy_obj s)) i.

Definition sched_on_yield (i : nat) : M (kst E) unit :=
  let* s := active_strategy in
  call (on_yield (strategy_obj s)) i.

Definition sched_on_wakeup (i : nat) : M (kst E) unit :=
  let* s := active_strategy in
  call (on_wakeup (strategy_obj s)) i.

Definition sched_should_preempt (i : nat) : M (kst E) Z :=
  let* s := active_strategy in
  call (should_preempt (strategy_obj s)) i.

End Sched.

(** ** What the kernel relies on

    A selection, when it returns an entry, returns it RUNNABLE with its lock
    held by this hart and no other process lock held; the hooks change only
    the queue level, the time slice and the readiness timestamps of their
    entry and keep them in range. *)
Definition select_post {E} (k : kst E) (r : option nat) (k' : kst E) : Prop :=
  hartid k' = hartid k /\ kwf k' /\
  match r with
  | None => locks_free (procs k') /\ same_depth (mycpu k) (mycpu k')
  | Some j => exists p, procs k' !! j = Some p /\ state p = RUNNABLE /\
      lk_held (hartid k) (lock p) /\ noff (mycpu k') = noff (mycpu k) + 1 /\
      forall i q, i <> j -> procs k' !! i = Some q -> lk_free (lock q)
  end.

Definition hook_frame (p q : proc) : Prop :=
  q = p <| queue_level := queue_level q |> <| time_slice := time_slice q |>
        <| ready_ticks := ready_ticks q |> <| ready_since := ready_since q |> /\
  (mlfq_ok p -> mlfq_ok q).

Definition hook_ok {E} (h : nat -> M (kst E) unit) : Prop :=
  forall k i p, procs k !! i = Some p ->
    exists q, h i k = Ok (tt, k <| procs ::= <[i := q]> |>) /\ hook_frame p q.

Class StrategyLaws {E} (s : sched_strategy E) : Prop := {
  law_select : exists f, select_next s = Some f /\ forall fuel k,
    kwf k -> locks_free (procs k) ->
    f fuel k = NoFuel \/ exists r k', f fuel k = Ok (r, k') /\ select_post k r k';
  law_on_tick : exists h, on_tick s = Some h /\ hook_ok h;
  law_on_yield : exists h, on_yield s = Some h /\ hook_ok h;
  law_on_wakeup : exists h, on_wakeup s = Some h /\ hook_ok h;
  law_policy : 0 <= policy s < SCHED_POLICY_COUNT;
  law_named : s_name s <> None /\ should_preempt s <> None
}.

(** ** The three strategies satisfy the laws *)
Lemma select_post_klocked {E} {I : Interference} (k k1 : kst E) j p q f :
  kwf k1 -> locks_free (procs k1) -> hartid k1 = hartid k ->
  same_depth (mycpu k) (mycpu k1) ->
  interfere (kclock k1) (procs k1) !! j = Some q -> runnable p = true ->
  procs (f (klocked k1 j p)) = procs (klocked k1 j p) ->
  mycpu (f (klocked k1 j p)) = mycpu (klocked k1 j p) ->
  hartid (f (klocked k1 j p)) = hartid k1 ->
  cursor_ok (rr_cursor (f (klocked k1 j p))) -> cursor_ok (priority_cursor (f (klocked k1 j p))) ->
  cursor_ok (mlfq_cursor (f (klocked k1 j p))) ->
  select_post k (Some j) (f (klocked k1 j p)).
Proof.
  intros Hk1 Hl Hh Hn Hq Hr Hp Hc Hh' C1 C2 C3. unfold select_post. split; [congruence|]. split.
  { split; rewrite ?Hp, ?Hc, ?Hh'; try done; try apply Hk1.
    - simpl. rewrite length_insert, interfere_length. apply Hk1.
    - apply cpu_wf_push_off, Hk1. }
  rewrite Hp, Hc.
  exists (p <| lock := held_by (hartid k1) (lock p) |>). split; [by apply (lookup_klocked _ _ _ q)|].
  split; [by apply bool_decide_eq_true in Hr|]. split; [rewrite <- Hh; apply lk_held_held_by|].
  split; [change (mycpu (klocked k1 j p)) with (push_off (mycpu k1)); rewrite noff_push_off; destruct Hn; lia|].
  intros i p' Hne Hi. simpl in Hi. rewrite list_lookup_insert_ne in Hi by done.
  by eapply locks_free_interfere in Hi.
Qed.

Lemma hook_ok_id {E} : hook_ok (E := E) (fun _ => mret tt).
Proof.
  intros k i p Hp. exists p. split; [|split; [by destruct p|done]].
  unfold mret. do 2 f_equal. destruct k; simpl in *. by rewrite list_insert_id.
Qed.

Lemma hook_ok_modify {E} (f : Z -> proc -> proc) :
  (forall T p, hook_frame p (f T p)) ->
  hook_ok (E := E) (fun i => let* T := mreads ticks in modify_proc i (f T)).
Proof.
  intros Hf k i p Hp. exists (f (ticks k) p). split; [|apply Hf].
  unfold mreads, mbind, obind, modify_proc. cbn [fst snd]. by rewrite Hp.
Qed.

Lemma hook_ok_slice {E} :
  hook_ok (E := E) (fun i => modify_proc i (fun p => p <| time_slice := SCHED_RR_TIME_SLICE |>)).
Proof.
  intros k i p Hp. eexists. split; [unfold modify_proc; by rewrite Hp|].
  split; [reflexivity|]. unfold mlfq_ok. simpl. intros [H1 H2].
  pose proof (mlfq_time_slice_pos (queue_level p)). unfold SCHED_RR_TIME_SLICE. lia.
Qed.

Lemma mlfq_yield_frame T p : hook_frame p (mlfq_yield_proc T p).
Proof.
  split; [|apply mlfq_yield_ok]. unfold mlfq_yield_proc. simpl.
  destruct (time_slice p <=? 0); [|reflexivity]. by destruct (_ <? _).
Qed.

Lemma mlfq_wakeup_frame T p : hook_frame p (mlfq_wakeup_proc T p).
Proof.
  split; [|intros _; apply mlfq_wakeup_ok]. unfold mlfq_wakeup_proc. simpl. by destruct (_ <? _).
Qed.

#[global] Instance rr_laws {E} {I : Interference} : StrategyLaws (E := E) rr_sched_strategy.
Proof.
  split; try (eexists; split; [reflexivity|]); try apply hook_ok_id; try apply hook_ok_slice;
    try by (split; compute).
  intros fuel k Hk Hl. right.
  destruct (rr_scan_loop (hartid k) (rr_cursor k !!! hartid k) (seq 0 NPROC) k Hk Hl)
    as (r & k' & H1 & H2 & H3). exists r, k'. split; [exact H1|].
  destruct r as [j|].
  - destruct H3 as (k1 & p & Hk1 & Hl1 & Hn & Hp & Hr & ->).
    apply (select_post_klocked k k1 j p p
      (fun k0 => k0 <| rr_cursor ::= <[hartid k := ((j + 1) mod NPROC)%nat]> |>)); try done;
      try apply Hk1. apply cursor_ok_insert; [apply Hk1|apply index_lt].
  - destruct H3 as (Hk' & Hl' & Hn). split_and!; done.
Qed.

#[global] Instance priority_laws {E} {I : Interference} : StrategyLaws (E := E) priority_sched_strategy.
Proof.
  split; try (eexists; split; [reflexivity|]); try apply hook_ok_id; try apply hook_ok_slice;
    try by (split; compute).
  intros fuel k Hk Hl. destruct (priority_select_any I fuel k Hk Hl) as [?|(r & k' & H1 & H2 & H3)];
    [by left|]. right. exists r, k'. split; [exact H1|]. destruct r as [j|].
  - destruct H3 as (k1 & p & c & Hk1 & Hl1 & Hn & Hp & Hr & Hc & ->).
    apply (select_post_klocked k k1 j p p (fun k0 => k0 <| priority_cursor := c |>)); try done;
      apply Hk1.
  - destruct H3 as (Hk' & Hl' & Hn). split_and!; done.
Qed.

#[global] Instance mlfq_laws {E} {I : Interference} : StrategyLaws (E := E) mlfq_sched_strategy.
Proof.
  split; try (eexists; split; [reflexivity|]); try apply hook_ok_id;
    try apply (hook_ok_modify _ mlfq_yield_frame); try apply (hook_ok_modify _ mlfq_wakeup_frame);
    try by (split; compute).
  intros fuel k Hk Hl. destruct (mlfq_select_any I fuel k Hk Hl) as [?|(r & k' & H1 & H2 & H3)];
    [by left|]. right. exists r, k'. split; [exact H1|]. destruct r as [j|].
  - destruct H3 as (k1 & p & q & c & Hk1 & Hl1 & Hn & Hp & Hf & Hr & Hc & ->).
    apply (select_post_klocked k k1 j p q (fun k0 => k0 <| mlfq_cursor := c |>)); try done;
      apply Hk1.
  - destruct H3 as (Hk' & Hl' & Hn). split_and!; done.
Qed.

Lemma strategy_obj_laws {E} {I : Interference} ptr : StrategyLaws (strategy_obj (E := E) ptr).
Proof. destruct ptr as [|[|]]; apply _. Qed.

(** ** Dispatch *)
Section Dispatch.
Context {E : Type} {I : Interference}.
Implicit Types (k : kst E).

Lemma active_strategy_ok k : exists s, active_strategy k = Ok (s, k).
Proof.
  unfold active_strategy, sched_policy_current, mreads, mbind, obind. cbn [fst snd].
  destruct (_ || _); [by eexists|]. destruct (strategies k !!! _); by eexists.
Qed.

Lemma call_hook_ok (get : sched_strategy E -> option (nat -> M (kst E) unit)) k i p :
  (forall s, exists h, get (strategy_obj s) = Some h /\ hook_ok h) ->
  procs k !! i = Some p ->
  exists q, (let* s := active_strategy in call (get (strategy_obj s)) i) k =
      Ok (tt, k <| procs ::= <[i := q]> |>) /\ hook_frame p q.
Proof.
  intros Hget Hp. destruct (active_strategy_ok k) as (s & Hs). rewrite (mbind_Ok _ _ _ _ _ Hs).
  destruct (Hget s) as (h' & -> & Hh). by apply Hh.
Qed.

Lemma sched_on_yield_ok k i p :
  procs k !! i = Some p ->
  exists q, sched_on_yield i k = Ok (tt, k <| procs ::= <[i := q]> |>) /\ hook_frame p q.
Proof.
  intros Hp. apply (call_hook_ok on_yield); [|done].
  intros s. apply (@law_on_yield _ _ (strategy_obj_laws s)).
Qed.

Lemma sched_on_wakeup_ok k i p :
  procs k !! i = Some p ->
  exists q, sched_on_wakeup i k = Ok (tt, k <| procs ::= <[i := q]> |>) /\ hook_frame p q.
Proof.
  intros Hp. apply (call_hook_ok on_wakeup); [|done].
  intros s. apply (@law_on_wakeup _ _ (strategy_obj_laws s)).
Qed.

Lemma proc_after_tick_ok p : mlfq_ok p -> mlfq_ok (proc_after_tick p).
Proof.
  unfold mlfq_ok, proc_after_tick. simpl. intros [H1 H2].
  destruct (Z.ltb_spec 0 (time_slice p)); simpl; lia.
Qed.

Lemma update_proc_after_tick_ok k i p :
  procs k !! i = Some p ->
  exists q, update_proc_after_tick i k = Ok (tt, k <| procs ::= <[i := q]> |>) /\
    hook_frame (proc_after_tick p) q.
Proof.
  intros Hp. unfold update_proc_after_tick.
  rewrite (mbind_Ok _ _ k tt (k <| procs := <[i := proc_after_tick p]> (procs k) |>))
    by (unfold modify_proc; by rewrite Hp).
  destruct (call_hook_ok on_tick (k <| procs := <[i := proc_after_tick p]> (procs k) |>)
    i (proc_after_tick p)) as (q & Hq & Hf).
  - intros s. apply (@law_on_tick _ _ (strategy_obj_laws s)).
  - simpl. apply list_lookup_insert_eq. by eapply lookup_lt_Some.
  - exists q. split; [|done]. rewrite Hq. simpl. by rewrite list_insert_insert_eq.
Qed.
Lemma select_next_proc_ok fuel k :
  kwf k -> locks_free (procs k) ->
  select_next_proc fuel k = NoFuel \/
  exists r k', select_next_proc fuel k = Ok (r, k') /\ select_post k r k'.
Proof.
  intros Hk Hl. unfold select_next_proc. destruct (active_strategy_ok k) as (s & Hs).
  rewrite (mbind_Ok _ _ _ _ _ Hs).
  destruct (@law_select E _ (strategy_obj_laws s)) as (f & -> & Hf). by apply Hf.
Qed.
End Dispatch.

(** The strategy table after schedinit. *)
Definition strategies_ready {E} (k : kst E) : Prop :=
  strategies k = [Some rr_ptr; Some priority_ptr; Some mlfq_ptr].

(** ** Theorems *)


(** Another hart that takes entry 4 of [prio_demo] away at the 65th lock
    acquisition, between the scan and the second look at the candidate. *)
Definition steal : Interference.
Proof.
  refine {| interfere := fun n t =>
    if Nat.eqb n 64 then alter (fun p => if locked (lock p) =? 0 then p <| state := RUNNING |> else p) 4%nat t else t |}.
  - intros n t. destruct (Nat.eqb n 64); [apply length_alter|done].
  - intros n t i p Hp Hl. destruct (Nat.eqb n 64); [|done]. rewrite list_lookup_alter.
    destruct (decide _) as [<-|]; [|done]. rewrite Hp. simpl. by destruct (Z.eqb_spec (locked (lock p)) 0).
  - intros n t i p q Hp Hf Hq. destruct (Nat.eqb n 64); [|congruence]. rewrite list_lookup_alter in Hq.
    destruct (decide _) as [<-|]; [|congruence]. rewrite Hp in Hq. simpl in Hq.
    destruct (locked (lock p) =? 0); by simplify_eq.
Defined.


(** After schedinit all three strategies are registered under their own
    policies, and from then on sched_policy_switch accepts exactly the policies
    0, 1 and 2, making the next selection use that policy's strategy, and
    answers -1 without any effect for every other argument. *)
Theorem sched_policy_switch_correct {E} (I : Interference) (k0 : kst E) p :
  length (strategies k0) = Z.to_nat SCHED_POLICY_COUNT ->
  exists k, schedinit k0 = Ok (tt, k) /\ strategies_ready k /\ procs k = procs k0 /\
    if decide (0 <= p < SCHED_POLICY_COUNT)
    then exists k', sched_policy_switch p k = Ok (0, k') /\
           k' = k <| current_sched_policy := p |> /\
           exists s, active_strategy k' = Ok (s, k') /\ policy (strategy_obj (E := E) s) = p /\
             s_name (strategy_obj (E := E) s) = Some (sched_policy_name p)
    else sched_policy_switch p k = Ok (-1, k).
Proof.
  intros Hlen. set (k := k0 <| strategies := [Some rr_ptr; Some priority_ptr; Some mlfq_ptr] |>).
  exists k. split.
  { unfold schedinit, sched_register_strategy, sched_policy_available, mreads, mmodify, mret, mbind, obind.
    simpl. destruct k0 as [a1 a2 st ?]. simpl in *.
    destruct st as [|s0 [|s1 [|s2 [|]]]]; try discriminate. reflexivity. }
  split; [reflexivity|]. split; [reflexivity|].
  unfold sched_policy_switch, sched_policy_available, mreads, mmodify, mret, mbind, obind. cbn [fst snd].
  destruct (decide (0 <= p < SCHED_POLICY_COUNT)) as [Hr|Hr]; unfold SCHED_POLICY_COUNT in *.
  - assert (p = 0 \/ p = 1 \/ p = 2) as [->|[->| ->]] by lia;
      (eexists; split; [reflexivity|]; split; [reflexivity|]; eexists; split; [reflexivity|]; done).
  - destruct (Z.leb_spec 0 p); [|done]. destruct (Z.ltb_spec p 3); [lia|]. done.
Qed.

Lemma sched_policy_switch_correct_witness :
  exists k, schedinit (I := quiet) (boot_kst tt 0) = Ok (tt, k) /\ strategies_ready k /\
    procs k = procs (boot_kst tt 0) /\
    if decide (0 <= 2 < SCHED_POLICY_COUNT)
    then exists k', sched_policy_switch 2 k = Ok (0, k') /\
           k' = k <| current_sched_policy := 2 |> /\
           exists s, active_strategy k' = Ok (s, k') /\
             policy (strategy_obj (E := unit) (I := quiet) s) = 2 /\
             s_name (strategy_obj (E := unit) (I := quiet) s) = Some (sched_policy_name 2)
    else sched_policy_switch 2 k = Ok (-1, k).
Proof. exact (sched_policy_switch_correct quiet (boot_kst tt 0) 2 eq_refl). Defined.

(** under every policy, and so across policy switches, initialising a
    process, accounting a clock tick to it, yielding it and waking it keep its
    queue level within the MLFQ levels and its slice within the slice of its
    level, and touch no other entry of the table. *)
Theorem sched_hooks_invariant {E} (I : Interference) (k : kst E) i p :
  procs k !! i = Some p ->
  (forall T pol, mlfq_ok (proc_sched_init T pol p)) /\
  forall op, op ∈ [update_proc_after_tick i; sched_on_yield i; sched_on_wakeup i] ->
  exists q, op k = Ok (tt, k <| procs ::= <[i := q]> |>) /\ state q = state p /\
    lock q = lock p /\ chan q = chan p /\ pid q = pid p /\ (mlfq_ok p -> mlfq_ok q).
Proof.
  intros Hp. split; [intros T pol; by compute|]. intros op Hop.
  apply elem_of_cons in Hop as [->|Hop]; [|apply elem_of_cons in Hop as [->|Hop]].
  - destruct (update_proc_after_tick_ok k i p Hp) as (q & Hq & [Hf Hok]).
    exists q. split; [done|]. rewrite Hf. unfold proc_after_tick. simpl.
    destruct (0 <? time_slice p) eqn:Hts; simpl; split_and!; try done;
      intros Hpok; specialize (Hok (proc_after_tick_ok _ Hpok)); exact Hok.
  - destruct (sched_on_yield_ok k i p Hp) as (q & Hq & [Hf Hok]).
    exists q. split; [done|]. split_and!; try done; by rewrite Hf.
  - apply list_elem_of_singleton in Hop as ->.
    destruct (sched_on_wakeup_ok k i p Hp) as (q & Hq & [Hf Hok]).
    exists q. split; [done|]. split_and!; try done; by rewrite Hf.
Qed.

Lemma sched_hooks_invariant_witness :
  (forall T pol, mlfq_ok (proc_sched_init T pol zero_proc)) /\
  forall op, op ∈ [update_proc_after_tick (I := quiet) 0; sched_on_yield (I := quiet) 0;
                   sched_on_wakeup (I := quiet) 0] ->
  exists q, op (boot_kst tt 0) = Ok (tt, (boot_kst tt 0) <| procs ::= <[0%nat := q]> |>) /\
    state q = state zero_proc /\ lock q = lock zero_proc /\ chan q = chan zero_proc /\
    pid q = pid zero_proc /\ (mlfq_ok zero_proc -> mlfq_ok q).
Proof. exact (sched_hooks_invariant quiet (boot_kst tt 0) 0 zero_proc eq_refl). Defined.
