(* ===== verification/CString.v ===== *)
(** * Byte and string routines (kernel/string.c)

    Memory is a function from addresses to bytes.  The routines that write
    return the memory they leave; pointers are addresses, and address
    arithmetic does not wrap, as for C objects.  The facts proved: memmove
    copies correctly whatever the overlap, and the string routines compute the
    usual functions on the strings their arguments point at. *)
From stdpp Require Import base list.
From Stdlib Require Import ZArith Lia.
From S2P Require Import Prelude.

Definition mem : Type := Z -> Z.

Definition store (m : mem) (a v : Z) : mem := fun x => if x =? a then v else m x.

(** The [for] loop of memset: [n] iterations are left from index [i]. *)
Fixpoint memset_loop (m : mem) (dst c i : Z) (n : nat) : mem :=
  match n with
  | O => m
  | S n => memset_loop (store m (dst + i) c) dst c (i + 1) n
  end.
Definition memset (m : mem) (dst c n : Z) : mem :=
  memset_loop m dst (u8 c) 0 (Z.to_nat n).

Fixpoint memcmp_loop (m : mem) (s1 s2 : Z) (n : nat) : Z :=
  match n with
  | O => 0
  | S n => if m s1 =? m s2 then memcmp_loop m (s1 + 1) (s2 + 1) n else m s1 - m s2
  end.
Definition memcmp (m : mem) (v1 v2 n : Z) : Z := memcmp_loop m v1 v2 (Z.to_nat n).

(** while (n-- > 0) *--d = *--s; *)
Fixpoint copy_down (m : mem) (d s : Z) (n : nat) : mem :=
  match n with
  | O => m
  | S n => copy_down (store m (d - 1) (m (s - 1))) (d - 1) (s - 1) n
  end.
(** while (n-- > 0) *d++ = *s++; *)
Fixpoint copy_up (m : mem) (d s : Z) (n : nat) : mem :=
  match n with
  | O => m
  | S n => copy_up (store m d (m s)) (d + 1) (s + 1) n
  end.
Definition memmove (m : mem) (dst src n : Z) : mem :=
  if n =? 0 then m
  else if (src <? dst) && (dst <? src + n)
  then copy_down m (dst + n) (src + n) (Z.to_nat n)
  else copy_up m dst src (Z.to_nat n).
Definition memcpy (m : mem) (dst src n : Z) : mem := memmove m dst src n.

Fixpoint strncmp_loop (m : mem) (p q : Z) (n : nat) : Z :=
  match n with
  | O => 0
  | S n =>
      if negb (m p =? 0) && (m p =? m q) then strncmp_loop m (p + 1) (q + 1) n
      else m p - m q
  end.
Definition strncmp (m : mem) (p q n : Z) : Z := strncmp_loop m p q (Z.to_nat n).

(** The second loop of strncpy. *)
Fixpoint strncpy_pad (m : mem) (s : Z) (n : nat) : mem :=
  match n with
  | O => m
  | S n => strncpy_pad (store m s 0) (s + 1) n
  end.
Fixpoint strncpy_loop (m : mem) (s t : Z) (n : nat) : mem :=
  match n with
  | O => m
  | S n =>
      let c := m t in
      let m := store m s c in
      if c =? 0 then strncpy_pad m (s + 1) n else strncpy_loop m (s + 1) (t + 1) n
  end.
Definition strncpy (m : mem) (s t n : Z) : mem := strncpy_loop m s t (Z.to_nat n).

(** The loop of safestrcpy with [n] iterations allowed by [--n > 0], and the
    final store of the terminator. *)
Fixpoint safestrcpy_loop (m : mem) (s t : Z) (n : nat) : mem :=
  match n with
  | O => store m s 0
  | S n =>
      let c := m t in
      let m := store m s c in
      if c =? 0 then store m (s + 1) 0 else safestrcpy_loop m (s + 1) (t + 1) n
  end.
Definition safestrcpy (m : mem) (s t n : Z) : mem :=
  if n <=? 0 then m else safestrcpy_loop m s t (Z.to_nat (n - 1)).

(** [fuel] bounds the search for the terminator. *)
Fixpoint strlen_loop (fuel : nat) (m : mem) (s n : Z) : option Z :=
  match fuel with
  | O => None
  | S fuel => if m (s + n) =? 0 then Some n else strlen_loop fuel m s (n + 1)
  end.
Definition strlen (fuel : nat) (m : mem) (s : Z) : option Z := strlen_loop fuel m s 0.

(** ** Reading objects *)

(** The [n] bytes at [a]. *)
Definition bytes_at (m : mem) (a : Z) (n : nat) : list Z :=
  (fun i => m (a + Z.of_nat i)) <$> seq 0 n.

(** A C string: the bytes before the first NUL. *)
Fixpoint cstr (l : list Z) : list Z :=
  match l with
  | [] => []
  | c :: l => if c =? 0 then [] else c :: cstr l
  end.

(** Two disjoint objects laid out one after the other from address 0. *)
Definition two_objects (a b : list Z) : mem := fun x =>
  if x <? 0 then 0 else default 0 ((a ++ b) !! Z.to_nat x).

(** safestrcpy(dst, src, n) between two disjoint char arrays. *)
Definition safestrcpy_arr (dst src : list Z) (n : Z) : list Z :=
  bytes_at (safestrcpy (two_objects dst src) 0 (Z.of_nat (length dst)) n) 0 (length dst).

(** ** Lemmas *)
Lemma store_eq m a v : store m a v a = v.
Proof. unfold store. by rewrite Z.eqb_refl. Qed.
Lemma store_ne m a v x : x <> a -> store m a v x = m x.
Proof. unfold store. intros H. by destruct (Z.eqb_spec x a). Qed.

Lemma memset_loop_spec n m dst c i x :
  memset_loop m dst c i n x =
    if decide (dst + i <= x < dst + i + Z.of_nat n) then c else m x.
Proof.
  revert m i. induction n as [|n IH]; intros m i; cbn [memset_loop].
  { destruct (decide _); [lia|done]. }
  rewrite IH. destruct (decide (dst + (i + 1) <= x < dst + (i + 1) + Z.of_nat n)),
    (decide (dst + i <= x < dst + i + Z.of_nat (S n))); try lia; try done.
  - assert (x = dst + i) as -> by lia. apply store_eq.
  - apply store_ne. lia.
Qed.

Lemma copy_up_spec n m d s x :
  (d <= s \/ s + Z.of_nat n <= d) ->
  copy_up m d s n x = if decide (d <= x < d + Z.of_nat n) then m (s + (x - d)) else m x.
Proof.
  revert m d s. induction n as [|n IH]; intros m d s Hds; cbn [copy_up].
  { destruct (decide _); [lia|done]. }
  rewrite IH by lia. destruct (decide (d + 1 <= x < d + 1 + Z.of_nat n)),
    (decide (d <= x < d + Z.of_nat (S n))); try lia.
  - rewrite store_ne by lia. f_equal. lia.
  - assert (x = d) as -> by lia. rewrite store_eq. f_equal. lia.
  - rewrite store_ne by lia. done.
Qed.

Lemma copy_down_spec n m d s x :
  s <= d ->
  copy_down m d s n x =
    if decide (d - Z.of_nat n <= x < d) then m (s + (x - d)) else m x.
Proof.
  revert m d s. induction n as [|n IH]; intros m d s Hds; cbn [copy_down].
  { destruct (decide _); [lia|done]. }
  rewrite IH by lia. destruct (decide (d - 1 - Z.of_nat n <= x < d - 1)),
    (decide (d - Z.of_nat (S n) <= x < d)); try lia.
  - rewrite store_ne by lia. f_equal. lia.
  - assert (x = d - 1) as -> by lia. rewrite store_eq. f_equal. lia.
  - rewrite store_ne by lia. done.
Qed.

Lemma memmove_spec m dst src n x :
  0 <= n ->
  memmove m dst src n x = if decide (dst <= x < dst + n) then m (src + (x - dst)) else m x.
Proof.
  intros Hn. unfold memmove. destruct (Z.eqb_spec n 0) as [->|Hn0].
  { destruct (decide _); [lia|done]. }
  destruct (Z.ltb_spec src dst), (Z.ltb_spec dst (src + n)); cbn [andb].
  - rewrite copy_down_spec by lia. rewrite Z2Nat.id by lia.
    replace (dst + n - n) with dst by lia. destruct (decide _); [f_equal; lia|done].
  - rewrite copy_up_spec by lia. by rewrite Z2Nat.id by lia.
  - rewrite copy_up_spec by lia. by rewrite Z2Nat.id by lia.
  - rewrite copy_up_spec by lia. by rewrite Z2Nat.id by lia.
Qed.

Lemma memset_spec m dst c n x :
  0 <= n -> memset m dst c n x = if decide (dst <= x < dst + n) then u8 c else m x.
Proof.
  intros Hn. unfold memset. rewrite memset_loop_spec, Z2Nat.id by lia.
  by replace (dst + 0) with dst by lia.
Qed.

Lemma bytes_at_S m a n : bytes_at m a (S n) = m a :: bytes_at m (a + 1) n.
Proof.
  unfold bytes_at. cbn [seq fmap list_fmap]. f_equal; [f_equal; lia|].
  rewrite <- fmap_S_seq, <- list_fmap_compose. apply list_fmap_ext. intros i y _. simpl. f_equal. lia.
Qed.

Lemma length_bytes_at m a n : length (bytes_at m a n) = n.
Proof. unfold bytes_at. by rewrite length_fmap, length_seq. Qed.

Lemma bytes_at_ext m m' a n :
  (forall x, a <= x < a + Z.of_nat n -> m x = m' x) -> bytes_at m a n = bytes_at m' a n.
Proof.
  intros H. apply list_fmap_ext. intros i j Hj. apply lookup_seq in Hj as [-> Hj]. apply H. lia.
Qed.

Lemma strncpy_pad_spec n m s x :
  strncpy_pad m s n x = if decide (s <= x < s + Z.of_nat n) then 0 else m x.
Proof.
  revert m s. induction n as [|n IH]; intros m s; cbn [strncpy_pad].
  { destruct (decide _); [lia|done]. }
  rewrite IH. destruct (decide (s + 1 <= x < s + 1 + Z.of_nat n)),
    (decide (s <= x < s + Z.of_nat (S n))); try lia; try done.
  - assert (x = s) as -> by lia. apply store_eq.
  - apply store_ne. lia.
Qed.

(** Bytes before [s] survive the copy loops. *)
Lemma safestrcpy_loop_frame n m s t x :
  x < s \/ s + Z.of_nat n < x -> safestrcpy_loop m s t n x = m x.
Proof.
  revert m s t. induction n as [|n IH]; intros m s t Hx; cbn [safestrcpy_loop].
  { apply store_ne. lia. }
  destruct (m t =? 0).
  - rewrite !store_ne by lia. done.
  - rewrite IH by lia. apply store_ne. lia.
Qed.

(** The destination holds the source string, cut to [n] characters. *)
Lemma safestrcpy_loop_spec n m s t :
  (s + Z.of_nat n < t \/ t + Z.of_nat n <= s) ->
  cstr (bytes_at (safestrcpy_loop m s t n) s (S n)) = cstr (bytes_at m t n) /\
  exists i, (i <= n)%nat /\ safestrcpy_loop m s t n (s + Z.of_nat i) = 0.
Proof.
  revert m s t. induction n as [|n IH]; intros m s t Hd; cbn [safestrcpy_loop].
  { rewrite bytes_at_S, store_eq. cbn [cstr]. rewrite Z.eqb_refl. split; [done|].
    exists 0%nat. split; [lia|]. replace (s + Z.of_nat 0) with s by lia. apply store_eq. }
  rewrite (bytes_at_S _ s), (bytes_at_S _ t). cbn [cstr].
  destruct (Z.eqb_spec (m t) 0) as [H0|H0].
  - rewrite store_ne, store_eq, H0 by lia. rewrite Z.eqb_refl. split; [done|].
    exists 0%nat. split; [lia|]. rewrite store_ne by lia. replace (s + Z.of_nat 0) with s by lia.
    by rewrite store_eq.
  - rewrite safestrcpy_loop_frame by lia. rewrite store_eq. destruct (Z.eqb_spec (m t) 0); [done|].
    destruct (IH (store m s (m t)) (s + 1) (t + 1)) as [IH1 (i & Hi & IH2)]; [lia|].
    rewrite IH1. split.
    + do 2 f_equal. apply bytes_at_ext. intros x Hx. apply store_ne. lia.
    + exists (S i). split; [lia|]. rewrite <- IH2. f_equal. lia.
Qed.

Lemma strncmp_loop_zero n m p q :
  (forall x, 0 <= m x) ->
  strncmp_loop m p q n = 0 <-> cstr (bytes_at m p n) = cstr (bytes_at m q n).
Proof.
  intros Hm. revert p q. induction n as [|n IH]; intros p q; cbn [strncmp_loop]; [done|].
  rewrite (bytes_at_S _ p), (bytes_at_S _ q). cbn [cstr].
  destruct (Z.eqb_spec (m p) 0) as [Hp|Hp], (Z.eqb_spec (m q) 0) as [Hq|Hq]; cbn [negb andb].
  - split; [done|lia].
  - split; [lia|done].
  - destruct (Z.eqb_spec (m p) (m q)); [lia|]. split; [lia|done].
  - destruct (Z.eqb_spec (m p) (m q)) as [He|He].
    + rewrite IH, He. split; [by intros ->|by intros [= ->]].
    + split; [lia|by intros [= ? _]].
Qed.

Lemma strlen_loop_spec fuel m s n r :
  strlen_loop fuel m s n = Some r ->
  n <= r /\ m (s + r) = 0 /\ forall i, n <= i < r -> m (s + i) <> 0.
Proof.
  revert n. induction fuel as [|fuel IH]; intros n; cbn [strlen_loop]; [done|].
  destruct (Z.eqb_spec (m (s + n)) 0) as [H0|H0].
  - intros [= <-]. split; [lia|]. split; [done|]. intros; lia.
  - intros H. apply IH in H as (H1 & H2 & H3). split; [lia|]. split; [done|].
    intros i Hi. destruct (decide (i = n)) as [->|]; [done|]. apply H3. lia.
Qed.

Lemma strlen_loop_total fuel m s n r :
  n <= r < n + Z.of_nat fuel -> m (s + r) = 0 ->
  exists r', strlen_loop fuel m s n = Some r' /\ r' <= r.
Proof.
  revert n. induction fuel as [|fuel IH]; intros n Hr H0; cbn [strlen_loop]; [lia|].
  destruct (Z.eqb_spec (m (s + n)) 0) as [Hn|Hn]; [exists n; split; [done|lia]|].
  apply IH; [|done]. destruct (decide (n = r)) as [->|]; [done|lia].
Qed.

(** ** Theorems *)

(** memmove copies the n bytes at src, as they were before the call, to
    dst and changes nothing else, however the two ranges overlap. *)
Theorem memmove_correct m dst src n :
  0 <= n ->
  bytes_at (memmove m dst src n) dst (Z.to_nat n) = bytes_at m src (Z.to_nat n) /\
  forall x, x < dst \/ dst + n <= x -> memmove m dst src n x = m x.
Proof.
  intros Hn. split.
  - apply list_eq. intros i. unfold bytes_at. rewrite !list_lookup_fmap.
    destruct (seq 0 (Z.to_nat n) !! i) as [j|] eqn:Hj; [|done].
    apply lookup_seq in Hj as [-> Hj]. simpl. rewrite memmove_spec by done.
    rewrite decide_True by lia. do 2 f_equal. lia.
  - intros x Hx. rewrite memmove_spec by done. by rewrite decide_False by lia.
Qed.

Lemma memmove_correct_witness :
  bytes_at (memmove (two_objects [1; 2; 3; 4; 5] []) 1 0 4) 0 5 = [1; 1; 2; 3; 4] /\
  bytes_at (memmove (two_objects [1; 2; 3; 4; 5] []) 1 0 4) 1 4 =
    bytes_at (two_objects [1; 2; 3; 4; 5] []) 0 4.
Proof.
  split; [vm_compute; reflexivity|].
  exact (proj1 (memmove_correct (two_objects [1; 2; 3; 4; 5] []) 1 0 4 ltac:(lia))).
Defined.

(** Safestrcpy into a buffer of n > 0 bytes disjoint from its source leaves
    the buffer NUL-terminated and holding the source string cut to n - 1
    characters, and writes nothing outside the buffer. *)
Theorem safestrcpy_correct m s t n :
  0 < n -> s + n <= t \/ t + n <= s ->
  cstr (bytes_at (safestrcpy m s t n) s (Z.to_nat n)) = cstr (bytes_at m t (Z.to_nat (n - 1))) /\
  (exists i, 0 <= i < n /\ safestrcpy m s t n (s + i) = 0) /\
  forall x, x < s \/ s + n <= x -> safestrcpy m s t n x = m x.
Proof.
  intros Hn Hd. unfold safestrcpy. destruct (Z.leb_spec n 0); [lia|].
  destruct (safestrcpy_loop_spec (Z.to_nat (n - 1)) m s t) as [H1 (i & Hi & H2)]; [lia|].
  replace (Z.to_nat n) with (S (Z.to_nat (n - 1))) by lia. split; [done|]. split.
  - exists (Z.of_nat i). split; [lia|done].
  - intros x Hx. apply safestrcpy_loop_frame. lia.
Qed.

Lemma safestrcpy_correct_witness :
  safestrcpy_arr [9; 9; 9; 9] [104; 101; 108; 108; 111; 0] 4 = [104; 101; 108; 0] /\
  cstr (bytes_at (safestrcpy (two_objects [9; 9; 9; 9] [104; 101; 108; 108; 111; 0]) 0 4 4) 0 4) =
    cstr (bytes_at (two_objects [9; 9; 9; 9] [104; 101; 108; 108; 111; 0]) 4 3).
Proof.
  split; [vm_compute; reflexivity|].
  exact (proj1 (safestrcpy_correct (two_objects [9; 9; 9; 9] [104; 101; 108; 108; 111; 0]) 0 4 4
    ltac:(lia) ltac:(lia))).
Defined.

(** Strncmp is zero exactly when the two strings agree on their first n
    characters, as directory lookup relies on. *)
Theorem strncmp_correct m p q n :
  (forall x, 0 <= m x) ->
  strncmp m p q n = 0 <-> cstr (bytes_at m p (Z.to_nat n)) = cstr (bytes_at m q (Z.to_nat n)).
Proof. intros Hm. by apply strncmp_loop_zero. Qed.

Lemma strncmp_correct_witness :
  strncmp (two_objects [104; 105; 0; 7] [104; 105; 0; 9]) 0 4 4 = 0 <->
  cstr (bytes_at (two_objects [104; 105; 0; 7] [104; 105; 0; 9]) 0 4) =
  cstr (bytes_at (two_objects [104; 105; 0; 7] [104; 105; 0; 9]) 4 4).
Proof.
  apply (strncmp_correct (two_objects [104; 105; 0; 7] [104; 105; 0; 9]) 0 4 4).
  intros x. unfold two_objects. destruct (x <? 0); [lia|].
  destruct (([104; 105; 0; 7] ++ [104; 105; 0; 9]) !! Z.to_nat x) as [v|] eqn:E; simpl; [|lia].
  apply list_elem_of_lookup_2 in E. simpl in E.
  repeat (apply elem_of_cons in E as [->|E]; [lia|]). by apply elem_of_nil in E.
Defined.
