(* ===== verification/Proc.v ===== *)
(** * Processes (kernel/proc.c)

    The operations of kernel/proc.c on the state of [KState], composed with
    the strategy layer of [Sched].  The memory, file and log layers below are
    reached through [ProcEnv], whose operations act on the component [env] of
    the state; the context switch is [Switch]. *)
From stdpp Require Import base list strings gmap.
From Stdlib Require Import ZArith Lia.
From S2P Require Import Prelude Spinlock KState Sched CString Riscv.

(** The routines of kernel/kalloc.c, kernel/vm.c, kernel/file.c, kernel/fs.c
    and kernel/log.c that kernel/proc.c calls, with C's conventions for
    failure (a null pointer, a negative result), and the link-time addresses
    it uses.  Those of them that sleep or wake other processes meanwhile do so
    as interference on the process table. *)
Class ProcEnv (E : Type) : Type := {
  env_kalloc : M E Z;
  env_kfree : Z -> M E unit;
  env_uvmcreate : M E Z;
  env_mappages : Z -> Z -> Z -> Z -> Z -> M E Z;
  env_uvmunmap : Z -> Z -> Z -> Z -> M E unit;
  env_uvmfree : Z -> Z -> M E unit;
  env_uvmcopy : Z -> Z -> Z -> M E Z;
  env_uvmalloc : Z -> Z -> Z -> Z -> M E Z;
  env_uvmdealloc : Z -> Z -> Z -> M E Z;
  env_copyout : Z -> Z -> Z -> list Z -> M E Z;
  env_copyin : Z -> Z -> Z -> Z -> M E (Z * list Z);
  env_kwrite : Z -> list Z -> M E unit;
  env_kread : Z -> Z -> M E (list Z);
  env_filedup : Z -> M E Z;
  env_fileclose : Z -> M E unit;
  env_idup : Z -> M E Z;
  env_iput : Z -> M E unit;
  env_namei_root : M E Z;
  env_begin_op : M E unit;
  env_end_op : M E unit;
  forkret_addr : Z;
  trampoline_addr : Z
}.

(** swtch(): [swtch_out] is what happens from a process's switch to the
    scheduler until it is switched to again, [swtch_in] what happens from the
    scheduler's switch to the current process until that process switches
    back. *)
Class Switch (E : Type) : Type := {
  swtch_out : M (kst E) unit;
  swtch_in : M (kst E) unit
}.

(** struct psinfo and struct sched_stat (kernel/schedinfo.h) *)
Record psinfo : Type := mkPsinfo {
  ps_inuse : Z; ps_pid : Z; ps_state : Z; ps_priority : Z; ps_queue_level : Z;
  ps_time_slice : Z; ps_sched_policy : Z; ps_name : list Z; ps_run_time : Z;
  ps_ready_count : Z; ps_ready_ticks : Z; ps_total_ready_time : Z; ps_wait_count : Z;
  ps_schedule_count : Z; ps_create_tick : Z; ps_first_run_tick : Z; ps_exit_tick : Z;
  ps_state_stat : list Z
}.
#[global] Instance eta_psinfo : Eta psinfo := fun i =>
  mkPsinfo (ps_inuse i) (ps_pid i) (ps_state i) (ps_priority i) (ps_queue_level i)
    (ps_time_slice i) (ps_sched_policy i) (ps_name i) (ps_run_time i) (ps_ready_count i)
    (ps_ready_ticks i) (ps_total_ready_time i) (ps_wait_count i) (ps_schedule_count i)
    (ps_create_tick i) (ps_first_run_tick i) (ps_exit_tick i) (ps_state_stat i).

Record sched_stat : Type := mkSchedStat {
  current_policy : Z; process_count : Z; runnable_count : Z; running_count : Z;
  sleeping_count : Z; zombie_count : Z; total_run_time : Z; total_ready_count : Z;
  total_ready_ticks : Z; st_total_ready_time : Z; total_wait_count : Z;
  total_schedule_count : Z; total_state_stat : list Z
}.
#[global] Instance eta_sched_stat : Eta sched_stat := fun s =>
  mkSchedStat (current_policy s) (process_count s) (runnable_count s) (running_count s)
    (sleeping_count s) (zombie_count s) (total_run_time s) (total_ready_count s)
    (total_ready_ticks s) (st_total_ready_time s) (total_wait_count s)
    (total_schedule_count s) (total_state_stat s).

(** What kalloc leaves in the page of a new trapframe. *)
Definition junk_trapframe : trapframe :=
  let j := 361700864190383365 in (* 0x0505050505050505 *)
  mkTrapframe j j j j j j j j j j j j j j j j j j j j j j j j j j j j j j j j j j j j.

(** The bytes of an int, least significant first. *)
Definition int_bytes (v : Z) : list Z :=
  (fun i => u8 (Z.shiftr (u32 v) (8 * i))) <$> [0; 1; 2; 3].

Definition bool_int (b : bool) : Z := if b then 1 else 0.

Definition states : list string :=
  ["unused"; "used"; "sleep "; "runble"; "run   "; "zombie"]%string.

(** The entry as freeproc leaves it. *)
Definition freed_proc (p : proc) : proc :=
  p <| pagetable := 0 |> <| sz := 0 |> <| pid := 0 |> <| name ::= <[0%nat := 0]> |>
    <| chan := None |> <| killed := 0 |> <| xstate := 0 |> <| priority := 0 |>
    <| queue_level := 0 |> <| time_slice := 0 |> <| run_time := 0 |> <| ready_count := 0 |>
    <| ready_ticks := 0 |> <| ready_since := 0 |> <| total_ready_time := 0 |>
    <| wait_count := 0 |> <| schedule_count := 0 |> <| create_tick := 0 |>
    <| first_run_tick := 0 |> <| exit_tick := 0 |> <| sched_policy := SCHED_RR |>
    <| state_stat ::= fmap (fun _ => 0) |> <| state := UNUSED |>.

(** The bookkeeping of scheduler() on the chosen entry, at tick count [T]. *)
Definition dispatch_proc (T pol : Z) (p : proc) : proc :=
  let p := p <| ready_ticks := u64 (T - ready_since p) |> in
  let p := p <| total_ready_time ::= fun n => u64 (n + ready_ticks p) |> in
  let p := if schedule_count p =? 0 then p <| first_run_tick := T |> else p in
  let p := p <| schedule_count ::= fun n => u64 (n + 1) |> in
  let p := p <| sched_policy := pol |> in
  p <| state := RUNNING |>.

Definition fill_psinfo_locked (p : proc) (info : psinfo) : psinfo :=
  info
    <| ps_inuse := bool_int (negb (bool_decide (state p = UNUSED))) |>
    <| ps_pid := pid p |> <| ps_state := Z.of_nat (procstate_num (state p)) |>
    <| ps_priority := priority p |> <| ps_queue_level := queue_level p |>
    <| ps_time_slice := time_slice p |> <| ps_sched_policy := sched_policy p |>
    <| ps_run_time := run_time p |> <| ps_ready_count := ready_count p |>
    <| ps_ready_ticks := ready_ticks p |> <| ps_total_ready_time := total_ready_time p |>
    <| ps_wait_count := wait_count p |> <| ps_schedule_count := schedule_count p |>
    <| ps_create_tick := create_tick p |> <| ps_first_run_tick := first_run_tick p |>
    <| ps_exit_tick := exit_tick p |>
    <| ps_name ::= fun dst => safestrcpy_arr dst (name p) 16 |>
    <| ps_state_stat := state_stat p |>.

Definition zero_stat : sched_stat :=
  mkSchedStat 0 0 0 0 0 0 0 0 0 0 0 0 (replicate 6 0).

(** One entry added to the statistics. *)
Definition stat_add (p : proc) (st : sched_stat) : sched_stat :=
  if bool_decide (state p = UNUSED) then st
  else
    let inc n := i32 (n + 1) in
    let st := st <| process_count ::= inc |> in
    let st :=
      if bool_decide (state p = RUNNABLE) then st <| runnable_count ::= inc |>
      else if bool_decide (state p = RUNNING) then st <| running_count ::= inc |>
      else if bool_decide (state p = SLEEPING) then st <| sleeping_count ::= inc |>
      else if bool_decide (state p = ZOMBIE) then st <| zombie_count ::= inc |>
      else st in
    st <| total_run_time ::= fun n => u64 (n + run_time p) |>
       <| total_ready_count ::= fun n => u64 (n + ready_count p) |>
       <| total_ready_ticks ::= fun n => u64 (n + ready_ticks p) |>
       <| st_total_ready_time ::= fun n => u64 (n + total_ready_time p) |>
       <| total_wait_count ::= fun n => u64 (n + wait_count p) |>
       <| total_schedule_count ::= fun n => u64 (n + schedule_count p) |>
       <| total_state_stat ::= fun l => zip_with (fun a b => u64 (a + b)) l (state_stat p) |>.

Section Proc.
Context {E : Type} {I : Interference} {PE : ProcEnv E} {SW : Switch E}.

(** A call into the layers below. *)
Definition lift_env {A : Type} (op : M E A) : M (kst E) A := fun k =>
  obind (op (env k)) (fun r => Ok (fst r, k <| env := snd r |>)).

(** acquire and release of wait_lock and pid_lock; other CPUs run before the
    acquisition as they do for a process lock. *)
Definition acquire_wait : M (kst E) unit := fun k =>
  obind (acquire (hartid k) (mycpu k) (wait_lock k)) (fun r =>
    Ok (tt, (kenter k) <| mycpu := fst r |> <| wait_lock := snd r |>)).
Definition release_wait : M (kst E) unit := fun k =>
  obind (release (hartid k) (mycpu k) (wait_lock k)) (fun r =>
    Ok (tt, k <| mycpu := fst r |> <| wait_lock := snd r |>)).
Definition acquire_pid : M (kst E) unit := fun k =>
  obind (acquire (hartid k) (mycpu k) (pid_lock k)) (fun r =>
    Ok (tt, (kenter k) <| mycpu := fst r |> <| pid_lock := snd r |>)).
Definition release_pid : M (kst E) unit := fun k =>
  obind (release (hartid k) (mycpu k) (pid_lock k)) (fun r =>
    Ok (tt, k <| mycpu := fst r |> <| pid_lock := snd r |>)).

Definition procinit : M (kst E) unit :=
  mmodify (fun k => k <| pid_lock := initlock "nextpid" |>) ;;;
  mmodify (fun k => k <| wait_lock := initlock "wait_lock" |>) ;;;
  for_each (seq 0 NPROC) (fun i =>
    modify_proc i (fun p =>
      p <| lock := initlock "proc" |> <| state := UNUSED |>
        <| kstack := KSTACK (Z.of_nat i) |>)) ;;;
  schedinit.

Definition myproc : M (kst E) (option nat) :=
  mmodify (fun k => k <| mycpu ::= push_off |>) ;;;
  let* p := mreads (fun k => cpu_proc (mycpu k)) in
  let* c := mreads mycpu in
  let* c := mlift (pop_off c) in
  mmodify (fun k => k <| mycpu := c |>) ;;;
  mret p.

(** myproc() where the result is dereferenced. *)
Definition curproc : M (kst E) nat :=
  let* p := myproc in
  match p with Some i => mret i | None => mub end.

Definition allocpid : M (kst E) Z :=
  acquire_pid ;;;
  let* pid := mreads nextpid in
  mmodify (fun k => k <| nextpid ::= fun n => i32 (n + 1) |>) ;;;
  release_pid ;;;
  mret pid.

(** The page of a struct trapframe is recorded in [tframes] while it is
    allocated. *)
Definition kfree_trapframe (ptr : Z) : M (kst E) unit :=
  lift_env (env_kfree ptr) ;;;
  mmodify (fun k => k <| tframes ::= delete ptr |>).
Definition kalloc_trapframe : M (kst E) Z :=
  let* ptr := lift_env env_kalloc in
  (if ptr =? 0 then mret tt
   else mmodify (fun k => k <| tframes ::= <[ptr := junk_trapframe]> |>)) ;;;
  mret ptr.

Definition proc_pagetable (i : nat) : M (kst E) Z :=
  let* p := read_proc i in
  let* pt := lift_env env_uvmcreate in
  if pt =? 0 then mret 0
  else
    let* r := lift_env (env_mappages pt TRAMPOLINE PGSIZE trampoline_addr (Z.lor PTE_R PTE_X)) in
    if r <? 0 then
      lift_env (env_uvmfree pt 0) ;;;
      mret 0
    else
      let* r := lift_env (env_mappages pt TRAPFRAME PGSIZE (trapframe_ptr p) (Z.lor PTE_R PTE_W)) in
      if r <? 0 then
        lift_env (env_uvmunmap pt TRAMPOLINE 1 0) ;;;
        lift_env (env_uvmfree pt 0) ;;;
        mret 0
      else mret pt.

Definition proc_freepagetable (pt size : Z) : M (kst E) unit :=
  lift_env (env_uvmunmap pt TRAMPOLINE 1 0) ;;;
  lift_env (env_uvmunmap pt TRAPFRAME 1 0) ;;;
  lift_env (env_uvmfree pt size).

Definition freeproc (i : nat) : M (kst E) unit :=
  let* p := read_proc i in
  (if trapframe_ptr p =? 0 then mret tt else kfree_trapframe (trapframe_ptr p)) ;;;
  modify_proc i (fun p => p <| trapframe_ptr := 0 |>) ;;;
  (if pagetable p =? 0 then mret tt else proc_freepagetable (pagetable p) (sz p)) ;;;
  modify_proc i freed_proc.

(** The search loop of allocproc: an UNUSED entry, left locked. *)
Definition alloc_scan (i : nat) : M (kst E) (option nat) :=
  acquire_proc i ;;;
  let* p := read_proc i in
  if bool_decide (state p = UNUSED) then mret (Some i)
  else
    release_proc i ;;;
    mret None.

(** The code after the label [found]. *)
Definition alloc_found (i : nat) : M (kst E) (option nat) :=
  let* id := allocpid in
  modify_proc i (fun p => p <| pid := id |>) ;;;
  modify_proc i (fun p => p <| state := USED |>) ;;;
  sched_proc_init i ;;;
  let* tf := kalloc_trapframe in
  modify_proc i (fun p => p <| trapframe_ptr := tf |>) ;;;
  if tf =? 0 then
    freeproc i ;;;
    release_proc i ;;;
    mret None
  else
    let* pt := proc_pagetable i in
    modify_proc i (fun p => p <| pagetable := pt |>) ;;;
    if pt =? 0 then
      freeproc i ;;;
      release_proc i ;;;
      mret None
    else
      modify_proc i (fun p =>
        p <| p_context := mkContext forkret_addr (kstack p + PGSIZE) (replicate 12 0) |>) ;;;
      mret (Some i).

Definition allocproc : M (kst E) (option nat) :=
  let* found := for_until (seq 0 NPROC) alloc_scan in
  match found with
  | None => mret None
  | Some i => alloc_found i
  end.

Definition userinit : M (kst E) unit :=
  let* p := allocproc in
  mmodify (fun k => k <| initproc := p |>) ;;;
  match p with
  | None => mub
  | Some i =>
      let* root := lift_env env_namei_root in
      modify_proc i (fun p => p <| cwd := root |>) ;;;
      modify_proc i (fun p => p <| state := RUNNABLE |>) ;;;
      sched_proc_runnable i ;;;
      release_proc i
  end.

Definition growproc (n : Z) : M (kst E) Z :=
  let* me := curproc in
  let* p := read_proc me in
  if 0 <? n then
    if TRAPFRAME <? u64 (sz p + n) then mret (-1)
    else
      let* sz' := lift_env (env_uvmalloc (pagetable p) (sz p) (u64 (sz p + n)) PTE_W) in
      if sz' =? 0 then mret (-1)
      else
        modify_proc me (fun p => p <| sz := sz' |>) ;;;
        mret 0
  else if n <? 0 then
    let* sz' := lift_env (env_uvmdealloc (pagetable p) (sz p) (u64 (sz p + n))) in
    modify_proc me (fun p => p <| sz := sz' |>) ;;;
    mret 0
  else
    modify_proc me (fun q => q <| sz := sz p |>) ;;;
    mret 0.

(** The loops of kset_prio and kget_psinfo over the table. *)
Definition kset_prio_scan (id prio : Z) (i : nat) : M (kst E) (option Z) :=
  acquire_proc i ;;;
  let* p := read_proc i in
  if negb (bool_decide (state p = UNUSED)) && (pid p =? id) then
    modify_proc i (fun p => p <| priority := prio |>) ;;;
    release_proc i ;;;
    mret (Some 0)
  else
    release_proc i ;;;
    mret None.
Definition kset_prio (id prio : Z) : M (kst E) Z :=
  let* r := for_until (seq 0 NPROC) (kset_prio_scan id prio) in
  mret (default (-1) r).

Definition kget_psinfo_scan (id : Z) (info : psinfo) (i : nat) : M (kst E) (option (Z * psinfo)) :=
  acquire_proc i ;;;
  let* p := read_proc i in
  if negb (bool_decide (state p = UNUSED)) && (pid p =? id) then
    let info := fill_psinfo_locked p info in
    release_proc i ;;;
    mret (Some (0, info))
  else
    release_proc i ;;;
    mret None.
Definition kget_psinfo (id : Z) (info : psinfo) : M (kst E) (Z * psinfo) :=
  let* r := for_until (seq 0 NPROC) (kget_psinfo_scan id info) in
  mret (default (-1, info) r).

Definition ksys_stat_scan (i : nat) (st : sched_stat) : M (kst E) sched_stat :=
  acquire_proc i ;;;
  let* p := read_proc i in
  let st := stat_add p st in
  release_proc i ;;;
  mret st.
Definition ksys_stat : M (kst E) sched_stat :=
  let* pol := sched_policy_current in
  for_fold (seq 0 NPROC) ksys_stat_scan (zero_stat <| current_policy := pol |>).

(** ** Sleeping and waking *)
Definition wakeup_scan (c : option waitchan) (i : nat) : M (kst E) unit :=
  acquire_proc i ;;;
  let* p := read_proc i in
  (if bool_decide (chan p = c) then
     modify_proc i (fun p => p <| chan := None |>) ;;;
     if bool_decide (state p = SLEEPING) then
       modify_proc i (fun p => p <| state := RUNNABLE |>) ;;;
       sched_proc_runnable i ;;;
       sched_on_wakeup i
     else mret tt
   else mret tt) ;;;
  release_proc i.
Definition wakeup (c : option waitchan) : M (kst E) unit :=
  for_each (seq 0 NPROC) (wakeup_scan c).

Definition sched : M (kst E) unit :=
  let* me := curproc in
  let* p := read_proc me in
  let* h := mreads hartid in
  let* c := mreads mycpu in
  if negb (holding h (lock p)) then mpanic "sched p->lock"
  else if negb (noff c =? 1) then mpanic "sched locks"
  else if bool_decide (state p = RUNNING) then mpanic "sched RUNNING"
  else if intr_get c then mpanic "sched interruptible"
  else
    let saved := intena c in
    swtch_out ;;;
    mmodify (fun k => k <| mycpu ::= fun c => c <| intena := saved |> |>).

Definition yield : M (kst E) unit :=
  let* me := curproc in
  acquire_proc me ;;;
  modify_proc me (fun p => p <| state := RUNNABLE |>) ;;;
  sched_proc_runnable me ;;;
  sched_on_yield me ;;;
  sched ;;;
  release_proc me.

(** The first statements of forkret, up to the release of the lock handed over
    by the scheduler. *)
Definition forkret_entry : M (kst E) unit :=
  let* me := curproc in
  release_proc me.

Definition sleep_prepare (c : option waitchan) : M (kst E) unit :=
  let* me := curproc in
  acquire_proc me ;;;
  match c with
  | None => mpanic "sleep_prepare: zero chan"
  | Some _ =>
      modify_proc me (fun p => p <| chan := c |>) ;;;
      release_proc me
  end.

Definition sleep : M (kst E) unit :=
  let* me := curproc in
  acquire_proc me ;;;
  let* p := read_proc me in
  (if negb (bool_decide (chan p = None)) then
     modify_proc me (fun p => p <| wait_count ::= fun n => u64 (n + 1) |>) ;;;
     modify_proc me (fun p => p <| state := SLEEPING |>) ;;;
     sched
   else mret tt) ;;;
  release_proc me.

Definition kkill_scan (id : Z) (i : nat) : M (kst E) (option Z) :=
  acquire_proc i ;;;
  let* p := read_proc i in
  if pid p =? id then
    modify_proc i (fun p => p <| killed := 1 |>) ;;;
    (if bool_decide (state p = SLEEPING) then
       modify_proc i (fun p => p <| state := RUNNABLE |>) ;;;
       sched_proc_runnable i ;;;
       sched_on_wakeup i
     else mret tt) ;;;
    release_proc i ;;;
    mret (Some 0)
  else
    release_proc i ;;;
    mret None.
Definition kkill (id : Z) : M (kst E) Z :=
  let* r := for_until (seq 0 NPROC) (kkill_scan id) in
  mret (default (-1) r).

Definition setkilled (i : nat) : M (kst E) unit :=
  acquire_proc i ;;;
  modify_proc i (fun p => p <| killed := 1 |>) ;;;
  release_proc i.

Definition proc_killed (i : nat) : M (kst E) Z :=
  acquire_proc i ;;;
  let* p := read_proc i in
  release_proc i ;;;
  mret (killed p).

(** ** fork, exit, wait *)
Definition kfork_files (me np : nat) : M (kst E) unit :=
  for_each (seq 0 NOFILE) (fun fd =>
    let* p := read_proc me in
    let f := ofile p !!! fd in
    if f =? 0 then mret tt
    else
      let* f := lift_env (env_filedup f) in
      modify_proc np (fun q => q <| ofile ::= <[fd := f]> |>)).

(** The last part of kfork: release the child, record its parent, and make it
    RUNNABLE. *)
Definition kfork_start (me np : nat) : M (kst E) Z :=
  let* q := read_proc np in
  let id := pid q in
  release_proc np ;;;
  acquire_wait ;;;
  modify_proc np (fun q => q <| parent := Some me |>) ;;;
  release_wait ;;;
  acquire_proc np ;;;
  modify_proc np (fun q => q <| state := RUNNABLE |>) ;;;
  sched_proc_runnable np ;;;
  release_proc np ;;;
  mret id.

(** kfork once the memory of [p] has been copied to the child [q] in slot [np]. *)
Definition kfork_copied (me np : nat) (p q : proc) : M (kst E) Z :=
  modify_proc np (fun q => q <| sz := sz p |>) ;;;
  let* tf := mreads (fun k => tframes k !! trapframe_ptr p) in
  match tf with
  | None => mub
  | Some tf =>
      mmodify (fun k => k <| tframes ::= <[trapframe_ptr q := tf]> |>) ;;;
      mmodify (fun k => k <| tframes ::= alter (fun t => t <| tf_a0 := 0 |>) (trapframe_ptr q) |>) ;;;
      kfork_files me np ;;;
      let* dir := lift_env (env_idup (cwd p)) in
      modify_proc np (fun q => q <| cwd := dir |>) ;;;
      modify_proc np (fun q => q <| name ::= fun dst => safestrcpy_arr dst (name p) 16 |>) ;;;
      kfork_start me np
  end.

Definition kfork : M (kst E) Z :=
  let* me := curproc in
  let* np := allocproc in
  match np with
  | None => mret (-1)
  | Some np =>
      let* p := read_proc me in
      let* q := read_proc np in
      let* r := lift_env (env_uvmcopy (pagetable p) (pagetable q) (sz p)) in
      if r <? 0 then
        freeproc np ;;;
        release_proc np ;;;
        mret (-1)
      else
        kfork_copied me np p q
  end.

(** The body of reparent's loop. *)
Definition reparent_one (me i : nat) : M (kst E) unit :=
  let* pp := read_proc i in
  if bool_decide (parent pp = Some me) then
    let* ip := mreads initproc in
    modify_proc i (fun pp => pp <| parent := ip |>) ;;;
    wakeup (ChProc <$> ip)
  else mret tt.
Definition reparent (me : nat) : M (kst E) unit :=
  for_each (seq 0 NPROC) (reparent_one me).

Definition kexit_files (me : nat) : M (kst E) unit :=
  for_each (seq 0 NOFILE) (fun fd =>
    let* p := read_proc me in
    let f := ofile p !!! fd in
    if f =? 0 then mret tt
    else
      lift_env (env_fileclose f) ;;;
      modify_proc me (fun p => p <| ofile ::= <[fd := 0]> |>)).

(** kexit up to its last switch to the scheduler, which does not return. *)
Definition kexit_body (status : Z) : M (kst E) unit :=
  let* me := curproc in
  let* ip := mreads initproc in
  if bool_decide (Some me = ip) then mpanic "init exiting"
  else
    kexit_files me ;;;
    lift_env env_begin_op ;;;
    let* p := read_proc me in
    lift_env (env_iput (cwd p)) ;;;
    lift_env env_end_op ;;;
    modify_proc me (fun p => p <| cwd := 0 |>) ;;;
    acquire_wait ;;;
    reparent me ;;;
    let* p := read_proc me in
    wakeup (ChProc <$> parent p) ;;;
    acquire_proc me ;;;
    let* T := mreads ticks in
    modify_proc me (fun p => p <| xstate := status |>) ;;;
    modify_proc me (fun p => p <| exit_tick := T |>) ;;;
    modify_proc me (fun p => p <| state := ZOMBIE |>) ;;;
    release_wait.

Definition kexit (status : Z) : M (kst E) unit :=
  kexit_body status ;;;
  sched ;;;
  mpanic "zombie exit".

(** kwait's "Found one": entry [i], locked, is a zombie child with contents
    [pp]. *)
Definition kwait_reap (me : nat) (addr : Z) (i : nat) (pp : proc) : M (kst E) Z :=
  let* p := read_proc me in
  let* bad :=
    if addr =? 0 then mret false
    else
      let* r := lift_env (env_copyout (pagetable p) (sz p) addr (int_bytes (xstate pp))) in
      mret (r <? 0) in
  if bad then
    release_proc i ;;;
    release_wait ;;;
    mret (-1)
  else
    modify_proc i (fun p => p <| parent := None |>) ;;;
    freeproc i ;;;
    release_proc i ;;;
    release_wait ;;;
    mret (pid pp).

(** One pass of kwait over the table: [inl r] when kwait returns [r],
    [inr havekids] when the pass ends without finding a zombie child. *)
Fixpoint kwait_scan (l : list nat) (me : nat) (addr : Z) (havekids : bool)
    : M (kst E) (Z + bool) :=
  match l with
  | [] => mret (inr havekids)
  | i :: l =>
      let* pp := read_proc i in
      if bool_decide (parent pp = Some me) then
        acquire_proc i ;;;
        let* pp := read_proc i in
        if bool_decide (state pp = ZOMBIE) then
          let* r := kwait_reap me addr i pp in
          mret (inl r)
        else
          release_proc i ;;;
          kwait_scan l me addr true
      else kwait_scan l me addr havekids
  end.

(** The [for (;;)] loop of kwait; [fuel] bounds the number of passes. *)
Fixpoint kwait_loop (fuel : nat) (me : nat) (addr : Z) : M (kst E) Z :=
  match fuel with
  | O => mnofuel
  | S fuel =>
      let* r := kwait_scan (seq 0 NPROC) me addr false in
      match r with
      | inl v => mret v
      | inr havekids =>
          let* stop := if negb havekids then mret true
                       else let* kl := proc_killed me in mret (negb (kl =? 0)) in
          if stop then
            release_wait ;;;
            mret (-1)
          else
            sleep_prepare (Some (ChProc me)) ;;;
            release_wait ;;;
            sleep ;;;
            acquire_wait ;;;
            kwait_loop fuel me addr
      end
  end.

Definition kwait (fuel : nat) (addr : Z) : M (kst E) Z :=
  let* me := curproc in
  acquire_wait ;;;
  kwait_loop fuel me addr.

(** ** The scheduler loop: one iteration of its [for (;;)] *)
Definition scheduler_round (fuel : nat) : M (kst E) unit :=
  mmodify (fun k => k <| mycpu ::= intr_on |>) ;;;
  mmodify (fun k => k <| mycpu ::= intr_off |>) ;;;
  let* p := select_next_proc fuel in
  match p with
  | Some i =>
      let* T := mreads ticks in
      let* pol := sched_policy_current in
      modify_proc i (dispatch_proc T pol) ;;;
      mmodify (fun k => k <| mycpu ::= fun c => c <| cpu_proc := Some i |> |>) ;;;
      swtch_in ;;;
      mmodify (fun k => k <| mycpu ::= fun c => c <| intena := false |> |>) ;;;
      mmodify (fun k => k <| mycpu ::= fun c => c <| cpu_proc := None |> |>) ;;;
      release_proc i
  | None => mret tt
  end.

(** ** Copying to and from the current process *)
Definition either_copyout (user_dst dst : Z) (src : list Z) : M (kst E) Z :=
  let* me := curproc in
  if negb (user_dst =? 0) then
    let* p := read_proc me in
    lift_env (env_copyout (pagetable p) (sz p) dst src)
  else
    lift_env (env_kwrite dst src) ;;;
    mret 0.

Definition either_copyin (user_src src len : Z) : M (kst E) (Z * list Z) :=
  let* me := curproc in
  if negb (user_src =? 0) then
    let* p := read_proc me in
    lift_env (env_copyin (pagetable p) (sz p) src len)
  else
    let* b := lift_env (env_kread src len) in
    mret (0, b).

(** The lines procdump prints: pid, state and name of every used entry. *)
Definition procdump : M (kst E) (list (Z * string * list Z)) :=
  mreads (fun k =>
    omap (fun p =>
      if bool_decide (state p = UNUSED) then None
      else Some (pid p, default "???"%string (states !! procstate_num (state p)), cstr (name p)))
      (procs k)).

End Proc.
