(* ===== verification/ProcTable.v ===== *)
(** * Passes over the process table

    Lemmas shared by the theorems on kernel/proc.c: the strategy hooks as
    functions on an entry, the current process, and loops that visit every
    entry under its lock. *)
From stdpp Require Import base list strings gmap.
From Stdlib Require Import ZArith Lia.
From S2P Require Import Prelude Spinlock KState SchedMLFQ Sched Proc.

(** ** The hooks of the active strategy as functions on the entry *)
Definition active_ptr {E} (k : kst E) : nat :=
  let p := current_sched_policy k in
  if (p <? 0) || (SCHED_POLICY_COUNT <=? p) then rr_ptr
  else default rr_ptr (strategies k !!! Z.to_nat p).

Definition hook_wakeup (s : nat) (T : Z) (p : proc) : proc :=
  match s with 0%nat | 1%nat => p | _ => mlfq_wakeup_proc T p end.
Definition hook_yield (s : nat) (T : Z) (p : proc) : proc :=
  match s with
  | 0%nat | 1%nat => p <| time_slice := SCHED_RR_TIME_SLICE |>
  | _ => mlfq_yield_proc T p
  end.

Definition ready_proc (T : Z) (p : proc) : proc :=
  p <| ready_count ::= fun n => u64 (n + 1) |> <| ready_since := T |>.

(** What wakeup(c) and kkill do to an entry they match. *)
Definition make_runnable {E} (k : kst E) (p : proc) : proc :=
  if bool_decide (state p = SLEEPING)
  then hook_wakeup (active_ptr k) (ticks k) (ready_proc (ticks k) (p <| state := RUNNABLE |>))
  else p.
Definition wake_proc {E} (k : kst E) (c : option waitchan) (p : proc) : proc :=
  if bool_decide (chan p = c) then make_runnable k (p <| chan := None |>) else p.
Definition kill_proc {E} (k : kst E) (p : proc) : proc := make_runnable k (p <| killed := 1 |>).
(** What yield does to the entry before it switches away. *)
Definition yield_proc {E} (k : kst E) (p : proc) : proc :=
  hook_yield (active_ptr k) (ticks k) (ready_proc (ticks k) (p <| state := RUNNABLE |>)).

(** Two states that differ only in the table, the CPU's scratch and the
    acquisition count. *)
Definition glob_same {E} (k k' : kst E) : Prop :=
  k' = k <| procs := procs k' |> <| mycpu := mycpu k' |> <| kclock := kclock k' |>.

Lemma glob_same_refl {E} (k : kst E) : glob_same k k.
Proof. by destruct k. Qed.
Lemma glob_same_trans {E} (k1 k2 k3 : kst E) :
  glob_same k1 k2 -> glob_same k2 k3 -> glob_same k1 k3.
Proof. unfold glob_same. intros H1 H2. rewrite H2, H1. reflexivity. Qed.
Lemma glob_same_kpass {E} {I : Interference} (k : kst E) i p : glob_same k (kpass k i p).
Proof. reflexivity. Qed.
Lemma glob_same_ticks {E} (k k' : kst E) : glob_same k k' -> ticks k' = ticks k.
Proof. intros ->. reflexivity. Qed.
Lemma glob_same_active {E} (k k' : kst E) : glob_same k k' -> active_ptr k' = active_ptr k.
Proof. intros ->. reflexivity. Qed.
Lemma glob_same_hart {E} (k k' : kst E) : glob_same k k' -> hartid k' = hartid k.
Proof. intros ->. reflexivity. Qed.
#[export] Hint Resolve glob_same_refl glob_same_kpass : kernel.

(** ** Frames *)
Lemma hook_wakeup_lock_frame s T : lock_frame (hook_wakeup s T).
Proof.
  intros p l. destruct s as [|[|s]]; [done|done|]. cbn [hook_wakeup]. unfold mlfq_wakeup_proc. simpl.
  by destruct (0 <? mlfq_level (queue_level p)).
Qed.
Lemma hook_yield_lock_frame s T : lock_frame (hook_yield s T).
Proof.
  intros p l. destruct s as [|[|s]]; [done|done|]. cbn [hook_yield]. unfold mlfq_yield_proc. simpl.
  destruct (time_slice p <=? 0); [|done]. simpl. by destruct (_ <? _).
Qed.

Lemma hook_wakeup_frame s T p : hook_frame p (hook_wakeup s T p).
Proof.
  destruct s as [|[|s]]; [by split; [destruct p|]..|]. apply mlfq_wakeup_frame.
Qed.

Lemma hook_wakeup_fields s T p :
  let q := hook_wakeup s T p in
  lock q = lock p /\ state q = state p /\ chan q = chan p /\ pid q = pid p /\
  killed q = killed p /\ parent q = parent p /\ ready_count q = ready_count p.
Proof. cbv zeta. rewrite (proj1 (hook_wakeup_frame s T p)). split_and!; reflexivity. Qed.

Lemma make_runnable_fields {E} (k : kst E) p :
  let q := make_runnable k p in
  lock q = lock p /\ chan q = chan p /\ pid q = pid p /\ killed q = killed p /\
  parent q = parent p /\
  state q = (if bool_decide (state p = SLEEPING) then RUNNABLE else state p).
Proof.
  cbv zeta. unfold make_runnable. case_bool_decide; [|split_and!; done].
  destruct (hook_wakeup_fields (active_ptr k) (ticks k) (ready_proc (ticks k) (p <| state := RUNNABLE |>)))
    as (-> & -> & -> & -> & -> & -> & _). split_and!; reflexivity.
Qed.

Lemma wake_proc_lock {E} (k : kst E) c p : lock (wake_proc k c p) = lock p.
Proof.
  unfold wake_proc. case_bool_decide; [|done].
  by destruct (make_runnable_fields k (p <| chan := None |>)) as (-> & _).
Qed.

(** A field assignment to the locked entry, [Hq] saying that it exists. *)
Ltac kmod Hq :=
  erewrite mbind_Ok;
    [|apply (modify_proc_klocked _ _ _ _ _ Hq); [intros ? ?; reflexivity|reflexivity]].

(** ** The dispatch functions on a locked entry *)
Section Dispatch.
Context {E : Type} {I : Interference}.
Implicit Types (k : kst E).

Lemma active_strategy_eq k : active_strategy k = Ok (active_ptr k, k).
Proof.
  unfold active_strategy, active_ptr, sched_policy_current, mreads, mbind, obind. cbn [fst snd].
  destruct (_ || _); [done|]. by destruct (strategies k !!! _).
Qed.

Lemma sched_on_wakeup_klocked k i p q :
  interfere (kclock k) (procs k) !! i = Some q ->
  sched_on_wakeup i (klocked k i p) = Ok (tt, klocked k i (hook_wakeup (active_ptr k) (ticks k) p)).
Proof.
  intros Hq. unfold sched_on_wakeup. rewrite (mbind_Ok _ _ _ _ _ (active_strategy_eq _)).
  change (active_ptr (klocked k i p)) with (active_ptr k). destruct (active_ptr k) as [|[|s]]; [done|done|].
  cbn [strategy_obj on_wakeup mlfq_sched_strategy call hook_wakeup].
  unfold mlfq_on_wakeup, mreads, mbind, obind. cbn [fst snd].
  apply (modify_proc_klocked _ _ _ q); [done|apply (hook_wakeup_lock_frame 2)|].
  apply (hook_wakeup_fields 2).
Qed.

Lemma sched_on_yield_klocked k i p q :
  interfere (kclock k) (procs k) !! i = Some q ->
  sched_on_yield i (klocked k i p) = Ok (tt, klocked k i (hook_yield (active_ptr k) (ticks k) p)).
Proof.
  intros Hq. unfold sched_on_yield. rewrite (mbind_Ok _ _ _ _ _ (active_strategy_eq _)).
  change (active_ptr (klocked k i p)) with (active_ptr k).
  destruct (active_ptr k) as [|[|s]]; [apply (modify_proc_klocked _ _ _ q); [done|by intros ? ?|done]..|].
  cbn [strategy_obj on_yield mlfq_sched_strategy call hook_yield].
  unfold mlfq_on_yield, mreads, mbind, obind. cbn [fst snd].
  apply (modify_proc_klocked _ _ _ q); [done|apply (hook_yield_lock_frame 2)|].
  by rewrite (proj1 (mlfq_yield_frame (ticks k) p)).
Qed.

Lemma sched_proc_runnable_klocked k i p q :
  interfere (kclock k) (procs k) !! i = Some q ->
  sched_proc_runnable i (klocked k i p) = Ok (tt, klocked k i (ready_proc (ticks k) p)).
Proof.
  intros Hq. unfold sched_proc_runnable, mreads, mbind, obind. cbn [fst snd].
  apply (modify_proc_klocked _ _ _ q); [done|by intros ? ?|done].
Qed.

(** SLEEPING to RUNNABLE, as wakeup and kkill do it. *)
Lemma wake_locked k i p q :
  interfere (kclock k) (procs k) !! i = Some q ->
  (if bool_decide (state p = SLEEPING) then
     modify_proc i (fun p => p <| state := RUNNABLE |>) ;;;
     sched_proc_runnable i ;;;
     sched_on_wakeup i
   else mret tt) (klocked k i p) = Ok (tt, klocked k i (make_runnable k p)).
Proof.
  intros Hq. unfold make_runnable. case_bool_decide as Hs; [|done].
  kmod Hq.
  rewrite (mbind_Ok _ _ _ _ _ (sched_proc_runnable_klocked k i _ q Hq)).
  apply (sched_on_wakeup_klocked k i _ q Hq).
Qed.

(** ** Visits to one entry *)
Lemma wakeup_scan_eq k c i p :
  cpu_wf (mycpu k) -> interfere (kclock k) (procs k) !! i = Some p -> lk_free (lock p) ->
  wakeup_scan c i k = Ok (tt, kpass k i (wake_proc k c p)).
Proof.
  intros Hc Hp Hf. unfold wakeup_scan. rewrite (locked_read k i p) by done. cbn beta.
  unfold wake_proc. simpl. case_bool_decide as Hch.
  - assert ((modify_proc i (fun p => p <| chan := None |>) ;;;
       if bool_decide (state p = SLEEPING) then
         modify_proc i (fun p => p <| state := RUNNABLE |>) ;;;
         sched_proc_runnable i ;;; sched_on_wakeup i
       else mret tt) (klocked k i p) = Ok (tt, klocked k i (make_runnable k (p <| chan := None |>)))) as Hb.
    { kmod Hp.
      pose proof (wake_locked k i (p <| chan := None |>) p Hp) as Hw. exact Hw. }
    rewrite (mbind_Ok _ _ _ _ _ Hb). apply (release_proc_klocked _ _ _ p); [done| |done].
    by rewrite (proj1 (make_runnable_fields k (p <| chan := None |>))).
  - by apply (release_proc_klocked _ _ _ p).
Qed.

Lemma kkill_scan_eq k id i p :
  cpu_wf (mycpu k) -> interfere (kclock k) (procs k) !! i = Some p -> lk_free (lock p) ->
  kkill_scan id i k =
    if pid p =? id then Ok (Some 0, kpass k i (kill_proc k p)) else Ok (None, kpass k i p).
Proof.
  intros Hc Hp Hf. unfold kkill_scan. rewrite (locked_read k i p) by done. cbn beta. simpl.
  destruct (pid p =? id).
  - kmod Hp.
    pose proof (wake_locked k i (p <| killed := 1 |>) p Hp) as Hw.
    rewrite (mbind_Ok _ _ _ _ _ Hw).
    assert (lk_free (lock (make_runnable k (p <| killed := 1 |>)))) as Hf'
      by (by rewrite (proj1 (make_runnable_fields k (p <| killed := 1 |>)))).
    by rewrite (mbind_Ok _ _ _ _ _ (release_proc_klocked k i _ p Hp Hf' Hc)).
  - by rewrite (mbind_Ok _ _ _ _ _ (release_proc_klocked k i p p Hp Hf Hc)).
Qed.
End Dispatch.

(** ** Loops that visit the entries of a list under their locks *)
Section Pass.
Context {E : Type} (k0 : kst E) (f : proc -> proc).
Hypothesis f_lock : forall p, lock (f p) = lock p.

Definition visits {I : Interference} (body : nat -> M (kst E) unit) : Prop :=
  forall k i p, glob_same k0 k -> cpu_wf (mycpu k) ->
    interfere (kclock k) (procs k) !! i = Some p -> lk_free (lock p) ->
    body i k = Ok (tt, kpass k i (f p)).

(** Whatever the other CPUs do, the loop ends with no lock held. *)
Lemma pass_any {I : Interference} body l k :
  visits body -> Forall (fun i => (i < NPROC)%nat) l -> glob_same k0 k ->
  kwf k -> locks_free (procs k) ->
  exists k', for_each l body k = Ok (tt, k') /\ glob_same k k' /\ kwf k' /\
    locks_free (procs k') /\ (l = [] \/ mycpu k' = lockcycle (mycpu k)).
Proof.
  intros Hb HF. revert k. induction HF as [|i l Hi _ IH]; intros k Hg Hk Hl.
  { exists k. split_and!; auto using glob_same_refl. }
  destruct (entry_free k i Hk Hl Hi) as (p & Hp & Hf). simpl.
  rewrite (mbind_Ok _ _ _ _ _ (Hb k i p Hg (kwf_cpu _ Hk) Hp Hf)).
  destruct (IH (kpass k i (f p))) as (k' & H1 & H2 & H3 & H4 & H5).
  - by eapply glob_same_trans; [|apply glob_same_kpass].
  - auto with kernel.
  - apply locks_free_kpass; [done|by rewrite f_lock].
  - exists k'. split_and!; try done.
    right. destruct H5 as [->| ->].
    + simpl in H1. apply Ok_pair_inj in H1 as [_ <-]. reflexivity.
    + rewrite lockcycle_kpass. apply lockcycle_idemp.
Qed.

Lemma pass_quiet body l k :
  visits (I := quiet) body -> NoDup l -> Forall (fun i => (i < NPROC)%nat) l -> glob_same k0 k ->
  kwf k -> locks_free (procs k) ->
  exists k', for_each l body k = Ok (tt, k') /\ glob_same k k' /\ kwf k' /\
    locks_free (procs k') /\ (l = [] \/ mycpu k' = lockcycle (mycpu k)) /\
    forall i, procs k' !! i = if decide (i ∈ l) then f <$> procs k !! i else procs k !! i.
Proof.
  intros Hb Hnd HF. revert k. induction HF as [|i l Hi _ IH]; intros k Hg Hk Hl.
  { exists k. split_and!; auto using glob_same_refl. }
  apply NoDup_cons in Hnd as [Hni Hnd].
  destruct (entry_free (I := quiet) k i Hk Hl Hi) as (p & Hp & Hf). simpl.
  rewrite (mbind_Ok _ _ _ _ _ (Hb k i p Hg (kwf_cpu _ Hk) Hp Hf)).
  destruct (IH Hnd (kpass (I := quiet) k i (f p))) as (k' & H1 & H2 & H3 & H4 & H5 & H6).
  - by eapply glob_same_trans; [|apply (glob_same_kpass (I := quiet))].
  - auto with kernel.
  - apply locks_free_kpass; [done|by rewrite f_lock].
  - exists k'. split_and!; try done.
    + right. destruct H5 as [->| ->].
      * simpl in H1. apply Ok_pair_inj in H1 as [_ <-]. reflexivity.
      * rewrite lockcycle_kpass. apply lockcycle_idemp.
    + intros j. rewrite H6. simpl in Hp |- *. destruct (decide (i = j)) as [<-|Hne].
      * rewrite (decide_True (P := i ∈ i :: l)) by (by left). rewrite decide_False by done.
        rewrite list_lookup_insert_eq by (by eapply lookup_lt_Some). by rewrite Hp.
      * rewrite list_lookup_insert_ne by done.
        destruct (decide (j ∈ l)), (decide (j ∈ i :: l)) as [Hin|Hin]; try done.
        -- exfalso. apply Hin. by right.
        -- apply elem_of_cons in Hin as [->|]; done.
Qed.
End Pass.

Lemma seq_lt : Forall (fun i => (i < NPROC)%nat) (seq 0 NPROC).
Proof. apply Forall_seq. unfold NPROC. lia. Qed.
#[export] Hint Resolve seq_lt : kernel.

(** ** wakeup as a whole *)
Section Wakeup.
Context {E : Type}.
Implicit Types (k : kst E).

Lemma wakeup_visits {I : Interference} k c : visits k (wake_proc k c) (wakeup_scan c).
Proof.
  intros k1 i p Hg Hc Hp Hf. rewrite (wakeup_scan_eq k1 c i p Hc Hp Hf).
  do 3 f_equal. unfold wake_proc, make_runnable.
  by rewrite (glob_same_active _ _ Hg), (glob_same_ticks _ _ Hg).
Qed.

Lemma wakeup_any {I : Interference} k c :
  kwf k -> locks_free (procs k) ->
  exists k', wakeup c k = Ok (tt, k') /\ glob_same k k' /\ kwf k' /\
    locks_free (procs k') /\ mycpu k' = lockcycle (mycpu k).
Proof.
  intros Hk Hl. destruct (pass_any k (wake_proc k c) (wake_proc_lock k c) _ (seq 0 NPROC) k (wakeup_visits k c))
    as (k' & H1 & H2 & H3 & H4 & [H5|H5]); auto with kernel; [done|]. by exists k'.
Qed.

Lemma wakeup_quiet k c :
  kwf k -> locks_free (procs k) ->
  exists k', wakeup (I := quiet) c k = Ok (tt, k') /\ glob_same k k' /\ kwf k' /\
    locks_free (procs k') /\ mycpu k' = lockcycle (mycpu k) /\
    procs k' = wake_proc k c <$> procs k.
Proof.
  intros Hk Hl. destruct (pass_quiet k (wake_proc k c) (wake_proc_lock k c) _ (seq 0 NPROC) k
    (wakeup_visits (I := quiet) k c)) as (k' & H1 & H2 & H3 & H4 & [H5|H5] & H6);
    auto with kernel; [apply NoDup_seq|done|].
  exists k'. split_and!; try done. apply list_eq. intros i. rewrite H6, list_lookup_fmap.
  destruct (decide (i ∈ seq 0 NPROC)) as [|Hi]; [done|].
  destruct (procs k !! i) as [p|] eqn:Hp; [|done]. exfalso. apply Hi. apply elem_of_seq.
  apply lookup_lt_Some in Hp. rewrite (kwf_procs _ Hk) in Hp. lia.
Qed.
End Wakeup.

(** ** Loops that search the table for an entry *)
Definition entry_is (test : proc -> bool) (t : list proc) (i : nat) : bool :=
  match t !! i with Some p => test p | None => false end.

Section Search.
Context {E R : Type} (k0 : kst E) (test : proc -> bool).
Context (body : nat -> M (kst E) (option R)) (D : kst E -> nat -> proc -> outcome (option R * kst E)).
Hypothesis body_eq : forall k i p, glob_same k0 k -> cpu_wf (mycpu k) ->
  procs k !! i = Some p -> lk_free (lock p) ->
  body i k = if test p then D k i p else Ok (None, kpass (I := quiet) k i p).
Hypothesis D_Some : forall k i p r k', D k i p = Ok (r, k') -> r <> None.

(** The search stops at the first entry of [l] that passes the test, in a
    state where nothing of the table has changed. *)
Lemma search_quiet l k :
  Forall (fun i => (i < NPROC)%nat) l -> glob_same k0 k -> kwf k -> locks_free (procs k) ->
  exists k1, same_table k k1 /\ kwf k1 /\ (mycpu k1 = mycpu k \/ mycpu k1 = lockcycle (mycpu k)) /\
    for_until l body k =
      match List.find (entry_is test (procs k)) l with
      | None => Ok (None, k1)
      | Some i => match procs k !! i with Some p => D k1 i p | None => UB end
      end.
Proof.
  intros HF. revert k. induction HF as [|i l Hi _ IH]; intros k Hg Hk Hl.
  { exists k. split_and!; auto using same_table_refl. }
  destruct (entry_free (I := quiet) k i Hk Hl Hi) as (p & Hp & Hf). simpl in Hp.
  pose proof (body_eq k i p Hg (kwf_cpu _ Hk) Hp Hf) as Hb.
  cbn [List.find]. unfold entry_is at 1. rewrite Hp. destruct (test p) eqn:Ht.
  - exists k. split; [apply same_table_refl|]. split; [done|]. split; [by left|].
    rewrite Hp. cbn [for_until]. unfold mbind, obind. rewrite Hb.
    destruct (D k i p) as [[[r|] k']| | | |] eqn:HD; try done. by apply D_Some in HD.
  - rewrite (for_until_next _ _ _ _ _ Hb).
    pose proof (same_table_kpass k i p Hp) as Hs.
    destruct (IH (kpass (I := quiet) k i p)) as (k1 & H1 & H2 & H3 & H4).
    + by eapply glob_same_trans; [|apply (glob_same_kpass (I := quiet))].
    + auto with kernel.
    + by apply locks_free_kpass.
    + exists k1. split; [by eapply same_table_trans|]. split; [done|]. split.
      * right. rewrite lockcycle_kpass in H3. destruct H3 as [->| ->]; [done|apply lockcycle_idemp].
      * rewrite H4. simpl. by rewrite list_insert_id.
Qed.
End Search.
