(* ===== verification/ProcSleep.v ===== *)
(** * Switching, sleeping and waking (kernel/proc.c)

    The protocol by which a process's lock is handed from a process to the
    scheduler and back, and the sleep_prepare/sleep/wakeup protocol by which a
    process waits for a condition without losing a wakeup. *)
From stdpp Require Import base list strings gmap relations.
From Stdlib Require Import ZArith Lia.
From S2P Require Import Prelude Spinlock KState SchedMLFQ Sched Proc ProcTable.

(** ** The state on either side of a context switch *)

(** Process [me] runs on this hart and holds no lock. *)
Record running {E} (me : nat) (k : kst E) : Prop := {
  run_kwf : kwf k;
  run_free : locks_free (procs k);
  run_noff : noff (mycpu k) = 0;
  run_proc : cpu_proc (mycpu k) = Some me;
  run_lt : (me < NPROC)%nat
}.

Lemma running_env {E} me (k : kst E) e : running me k -> running me (k <| env := e |>).
Proof. intros [[] ? ? ? ?]. by split. Qed.

(** The lock of [me] is the only one this hart holds; [cur] is the hart's
    current process. *)
Record handed_over {E} (cur : option nat) (me : nat) (p : proc) (k : kst E) : Prop := {
  ho_kwf : kwf k;
  ho_entry : procs k !! me = Some p;
  ho_held : lk_held (hartid k) (lock p);
  ho_others : forall i q, i <> me -> procs k !! i = Some q -> lk_free (lock q);
  ho_noff : noff (mycpu k) = 1;
  ho_sie : sie (mycpu k) = false;
  ho_proc : cpu_proc (mycpu k) = cur
}.
Definition switched_out {E} (me : nat) (k : kst E) : Prop :=
  exists p, handed_over (Some me) me p k /\ state p <> RUNNING.
Definition switched_in {E} (me : nat) (k : kst E) : Prop :=
  exists p, handed_over (Some me) me p k /\ state p = RUNNING.

(** The scheduler thread of this hart, between two processes. *)
Record idle {E} (k : kst E) : Prop := {
  idle_kwf : kwf k;
  idle_free : locks_free (procs k);
  idle_noff : noff (mycpu k) = 0;
  idle_proc : cpu_proc (mycpu k) = None
}.

(** What the two sides of swtch() promise each other: a process that has
    switched out properly is eventually switched in, possibly on another hart;
    a process that is switched in properly eventually switches out, on the
    hart it was switched in on. *)
Class SwitchLaws {E} (SW : Switch E) : Prop := {
  switch_out_law : forall me k, switched_out me k ->
    exists k', swtch_out k = Ok (tt, k') /\ switched_in me k';
  switch_in_law : forall me k, switched_in me k ->
    exists k', swtch_in k = Ok (tt, k') /\ switched_out me k' /\ hartid k' = hartid k
}.

(** ** Lemmas *)
Section Current.
Context {E : Type} {I : Interference}.
Implicit Types (k : kst E).

Lemma curproc_eq k me :
  cpu_wf (mycpu k) -> cpu_proc (mycpu k) = Some me ->
  curproc k = Ok (me, k <| mycpu ::= lockcycle |>).
Proof.
  intros Hc Hp. unfold curproc, myproc, mmodify, mreads, mlift, mret, mbind, obind. cbn [fst snd].
  change (mycpu (k <| mycpu ::= push_off |>)) with (push_off (mycpu k)).
  rewrite (pop_push_off _ Hc), proc_push_off, Hp. reflexivity.
Qed.

Lemma kwf_cpu_set k c : kwf k -> cpu_wf c -> kwf (k <| mycpu := c |>).
Proof. intros [] Hc. by split. Qed.

Lemma running_lockcycle me k : running me k -> running me (k <| mycpu ::= lockcycle |>).
Proof.
  intros [H1 H2 H3 H4 H5]. split; try done; simpl.
  - apply (kwf_cpu_set k); [done|]. apply cpu_wf_lockcycle, H1.
  - by rewrite lockcycle_noff.
  - by rewrite lockcycle_proc.
Qed.

(** A process that has locked its own entry. *)
Lemma handed_over_klocked me k p q :
  running me k -> interfere (kclock k) (procs k) !! me = Some q -> lk_free (lock p) ->
  handed_over (Some me) me (p <| lock := held_by (hartid k) (lock p) |>) (klocked k me p).
Proof.
  intros [H1 H2 H3 H4 H5] Hq Hf. split.
  - destruct H1 as [A1 A2 A3 A4 A5 A6]. split; try done.
    + simpl. by rewrite length_insert, interfere_length.
    + by apply cpu_wf_push_off.
  - by apply (lookup_klocked _ _ _ q).
  - apply lk_held_held_by.
  - intros i r Hne Hi. simpl in Hi. rewrite list_lookup_insert_ne in Hi by done.
    by apply (locks_free_interfere (kclock k) (procs k) H2 i).
  - change (mycpu (klocked k me p)) with (push_off (mycpu k)). rewrite noff_push_off. lia.
  - change (mycpu (klocked k me p)) with (push_off (mycpu k)). apply sie_push_off.
  - change (mycpu (klocked k me p)) with (push_off (mycpu k)). by rewrite proc_push_off.
Qed.

Lemma handed_over_intena cur me p k b :
  handed_over cur me p k -> handed_over cur me p (k <| mycpu ::= fun c => c <| intena := b |> |>).
Proof.
  intros [[A1 A2 A3 A4 A5 A6] H2 H3 H4 H5 H6 H7]. by split.
Qed.

Lemma handed_over_cur cur cur' me p k :
  handed_over cur me p k -> handed_over cur' me p (k <| mycpu ::= fun c => c <| cpu_proc := cur' |> |>).
Proof. intros [[A1 A2 A3 A4 A5 A6] H2 H3 H4 H5 H6 H7]. by split. Qed.

(** Releasing the lock that was handed over. *)
Lemma release_handed_over cur me p k :
  handed_over cur me p k ->
  exists k', release_proc me k = Ok (tt, k') /\ kwf k' /\ locks_free (procs k') /\
    noff (mycpu k') = 0 /\ sie (mycpu k') = intena (mycpu k) /\
    cpu_proc (mycpu k') = cur /\ hartid k' = hartid k.
Proof.
  intros [H1 H2 H3 H4 H5 H6 H7].
  set (c := (mycpu k) <| noff := 0 |>).
  assert (pop_off (mycpu k) = Ok (if intena (mycpu k) then intr_on c else c)) as Hpop.
  { unfold pop_off, intr_get, c. rewrite H6, H5. simpl. change (1 <? 1) with false. cbv iota.
    change (1 - 1 =? 0) with true. simpl. by rewrite H5. }
  eexists. split; [apply (release_proc_ok _ _ _ _ H2 H3 Hpop)|].
  assert (kwf (k <| mycpu := if intena (mycpu k) then intr_on c else c |>)) as Hk.
  { apply kwf_cpu_set; [done|]. destruct (intena (mycpu k)); split; simpl; lia. }
  split_and!; simpl.
  - destruct Hk as [A1 A2 A3 A4 A5 A6]. split; try done. simpl. by rewrite length_insert.
  - intros i q Hi. destruct (decide (i = me)) as [->|Hne].
    + rewrite list_lookup_insert_eq in Hi by (by eapply lookup_lt_Some). simplify_eq. by split.
    + rewrite list_lookup_insert_ne in Hi by done. eauto.
  - by destruct (intena (mycpu k)).
  - destruct (intena (mycpu k)) eqn:Hi; simpl; [done|]. by rewrite H6.
  - by destruct (intena (mycpu k)).
  - done.
Qed.

(** sched() on a process that has locked its own entry and left RUNNING. *)
Lemma sched_handed_over {SW : Switch E} `{!SwitchLaws SW} me p k :
  handed_over (Some me) me p k -> state p <> RUNNING ->
  exists k' p', sched k = Ok (tt, k') /\ handed_over (Some me) me p' k' /\ state p' = RUNNING /\
    intena (mycpu k') = intena (mycpu k).
Proof.
  intros Hh Hs. pose proof (ho_noff _ _ _ _ Hh) as Hn. pose proof (ho_sie _ _ _ _ Hh) as Hsie.
  pose proof (ho_proc _ _ _ _ Hh) as Hpr. pose proof (kwf_cpu _ (ho_kwf _ _ _ _ Hh)) as Hc.
  assert (lockcycle (mycpu k) = mycpu k) as Hlc.
  { unfold lockcycle. by rewrite Hn. }
  unfold sched. rewrite (mbind_Ok _ _ _ _ _ (curproc_eq k me Hc Hpr)).
  assert (k <| mycpu ::= lockcycle |> = k) as Hk by (destruct k; simpl in *; by rewrite Hlc).
  rewrite Hk. rewrite (mbind_Ok _ _ k p k)
    by (unfold read_proc; by rewrite (ho_entry _ _ _ _ Hh)).
  unfold mreads at 1 2, mbind at 1 2, obind at 1 2. cbn [fst snd].
  destruct (ho_held _ _ _ _ Hh) as [Hl1 Hl2]. unfold holding. rewrite Hl1, Hl2.
  rewrite bool_decide_eq_true_2 by done. change (1 =? 0) with false. cbn [negb andb].
  rewrite Hn. change (1 =? 1) with true. cbn [negb].
  rewrite bool_decide_eq_false_2 by done. unfold intr_get. rewrite Hsie.
  destruct (switch_out_law me k) as (k1 & Hsw & p1 & Hh1 & Hr1); [by exists p|].
  rewrite (mbind_Ok _ _ _ _ _ Hsw).
  exists (k1 <| mycpu ::= fun c => c <| intena := intena (mycpu k) |> |>), p1.
  split; [reflexivity|]. split; [|done].
  by apply handed_over_intena.
Qed.

(** The common end of yield() and sleep(): sched(); release(&p->lock). *)
Lemma sched_release {SW : Switch E} `{!SwitchLaws SW} me k p q :
  running me k -> interfere (kclock k) (procs k) !! me = Some q -> lk_free (lock p) ->
  state p <> RUNNING ->
  exists k', (sched ;;; release_proc me) (klocked k me p) = Ok (tt, k') /\ running me k' /\
    sie (mycpu k') = sie (mycpu k).
Proof.
  intros Hr Hq Hf Hs. pose proof (handed_over_klocked me k p q Hr Hq Hf) as Hh.
  destruct (sched_handed_over _ _ _ Hh) as (k1 & p1 & Hk1 & Hh1 & _ & Hi1); [done|].
  rewrite (mbind_Ok _ _ _ _ _ Hk1).
  destruct (release_handed_over _ _ _ _ Hh1) as (k2 & H1 & H2 & H3 & H4 & H5 & H6 & H7).
  exists k2. split; [done|]. split.
  - split; try done; apply Hr.
  - rewrite H5, Hi1. change (mycpu (klocked k me p)) with (push_off (mycpu k)).
    unfold push_off. simpl. by rewrite (run_noff _ _ Hr).
Qed.
End Current.

(** ** Entry functions of sleep_prepare and sleep *)
Definition prepare_proc (c : waitchan) (p : proc) : proc := p <| chan := Some c |>.
Definition sleep_proc (p : proc) : proc :=
  if bool_decide (chan p = None) then p
  else p <| wait_count ::= fun n => u64 (n + 1) |> <| state := SLEEPING |>.

Section SleepOps.
Context {E : Type} {I : Interference} {SW : Switch E}.
Implicit Types (k : kst E).

Lemma sleep_prepare_eq k me c p :
  cpu_wf (mycpu k) -> cpu_proc (mycpu k) = Some me ->
  interfere (kclock k) (procs k) !! me = Some p -> lk_free (lock p) ->
  sleep_prepare (Some c) k = Ok (tt, kpass (k <| mycpu ::= lockcycle |>) me (prepare_proc c p)).
Proof.
  intros Hc Hm Hp Hf. unfold sleep_prepare. rewrite (mbind_Ok _ _ _ _ _ (curproc_eq k me Hc Hm)).
  set (k1 := k <| mycpu ::= lockcycle |>).
  assert (interfere (kclock k1) (procs k1) !! me = Some p) as Hp1 by done.
  rewrite (mbind_Ok _ _ _ _ _ (acquire_proc_ok k1 me p Hp1 Hf)). kmod Hp1.
  apply (release_proc_klocked k1 me _ p); [done|done|]. by apply cpu_wf_lockcycle.
Qed.

(** sleep() returns at once when the channel has been cleared, and otherwise
    leaves the entry as [sleep_proc] says and switches away. *)
Lemma sleep_eq k me p :
  cpu_wf (mycpu k) -> cpu_proc (mycpu k) = Some me ->
  interfere (kclock k) (procs k) !! me = Some p -> lk_free (lock p) ->
  let k1 := k <| mycpu ::= lockcycle |> in
  sleep k = if bool_decide (chan p = None) then Ok (tt, kpass k1 me p)
            else (sched ;;; release_proc me) (klocked k1 me (sleep_proc p)).
Proof.
  intros Hc Hm Hp Hf k1. unfold sleep. rewrite (mbind_Ok _ _ _ _ _ (curproc_eq k me Hc Hm)).
  fold k1. assert (interfere (kclock k1) (procs k1) !! me = Some p) as Hp1 by done.
  rewrite (locked_read k1 me p) by done. simpl. unfold sleep_proc.
  destruct (bool_decide (chan p = None)); cbn [negb].
  - apply (release_proc_klocked k1 me p p); [done|done|]. by apply cpu_wf_lockcycle.
  - unfold mbind at 1.
    erewrite (mbind_Ok (modify_proc me _)); [|apply (modify_proc_klocked _ _ _ _ _ Hp1); [by intros ? ?|done]].
    erewrite (mbind_Ok (modify_proc me _)); [|apply (modify_proc_klocked _ _ _ _ _ Hp1); [by intros ? ?|done]].
    reflexivity.
Qed.

Lemma yield_eq k me p :
  cpu_wf (mycpu k) -> cpu_proc (mycpu k) = Some me ->
  interfere (kclock k) (procs k) !! me = Some p -> lk_free (lock p) ->
  let k1 := k <| mycpu ::= lockcycle |> in
  yield k = (sched ;;; release_proc me) (klocked k1 me (yield_proc k p)).
Proof.
  intros Hc Hm Hp Hf k1. unfold yield. rewrite (mbind_Ok _ _ _ _ _ (curproc_eq k me Hc Hm)).
  fold k1. assert (interfere (kclock k1) (procs k1) !! me = Some p) as Hp1 by done.
  rewrite (mbind_Ok _ _ _ _ _ (acquire_proc_ok k1 me p Hp1 Hf)). kmod Hp1.
  rewrite (mbind_Ok _ _ _ _ _ (sched_proc_runnable_klocked k1 me _ p Hp1)).
  rewrite (mbind_Ok _ _ _ _ _ (sched_on_yield_klocked k1 me _ p Hp1)). reflexivity.
Qed.

Lemma hook_yield_fields s T p : lock (hook_yield s T p) = lock p /\ state (hook_yield s T p) = state p.
Proof.
  destruct s as [|[|s]]; [done|done|]. cbn [hook_yield].
  by rewrite (proj1 (mlfq_yield_frame T p)).
Qed.
End SleepOps.

(** ** The scheduler's side *)
Lemma idle_interrupts {E} (k : kst E) :
  idle k -> idle ((k <| mycpu ::= intr_on |>) <| mycpu ::= intr_off |>).
Proof.
  intros [[A1 [A2 A2'] A3 A4 A5 A6] H2 H3 H4]. by split.
Qed.

Lemma dispatch_proc_fields T pol p :
  lock (dispatch_proc T pol p) = lock p /\ state (dispatch_proc T pol p) = RUNNING.
Proof. unfold dispatch_proc. simpl. by destruct (schedule_count p =? 0). Qed.

(** From a successful selection to the switch into the chosen process. *)
Lemma dispatch_switched_in {E A} (k k1 : kst E) j T pol (K : M (kst E) A) :
  idle k -> select_post k (Some j) k1 ->
  exists k2, (modify_proc j (dispatch_proc T pol) ;;;
              mmodify (fun k => k <| mycpu ::= fun c => c <| cpu_proc := Some j |> |>) ;;; K) k1 = K k2 /\
    switched_in j k2 /\ hartid k2 = hartid k.
Proof.
  intros Hi (Hh & Hk1 & p & Hp & Hs & Hl & Hn & Hoth).
  destruct (dispatch_proc_fields T pol p) as [Hdl Hds].
  eexists. split.
  { unfold modify_proc, mmodify, mbind, obind. rewrite Hp. cbn [fst snd]. reflexivity. }
  split; [|done]. exists (dispatch_proc T pol p). split; [|done].
  remember (dispatch_proc T pol p) as d eqn:Hd. clear Hd.
  rewrite (idle_noff _ Hi) in Hn. destruct Hk1 as [A1 [Hc1 Hc2] A3 A4 A5 A6].
  split; try done; simpl.
  - split; try done; simpl. by rewrite length_insert.
  - apply list_lookup_insert_eq. by eapply lookup_lt_Some.
  - by rewrite Hdl, Hh.
  - intros i q Hne Hq. rewrite list_lookup_insert_ne in Hq by done. eauto.
  - apply Hc2. lia.
Qed.

(** A machine with a single process, which is switched in again as soon as it
    switches out, and yields as soon as it is switched in. *)
Definition solo_switch {E} : Switch E := {|
  swtch_out := fun k => match cpu_proc (mycpu k) with
    | Some me => modify_proc me (fun p => p <| state := RUNNING |>) k | None => UB end;
  swtch_in := fun k => match cpu_proc (mycpu k) with
    | Some me => modify_proc me (fun p => p <| state := RUNNABLE |>) k | None => UB end
|}.

Lemma handed_over_state {E} me p (k : kst E) s :
  handed_over (Some me) me p k ->
  handed_over (Some me) me (p <| state := s |>) (k <| procs := <[me := p <| state := s |>]> (procs k) |>).
Proof.
  intros [[A1 A2 A3 A4 A5 A6] H2 H3 H4 H5 H6 H7]. split; try done; simpl.
  - split; try done. simpl. by rewrite length_insert.
  - apply list_lookup_insert_eq. by eapply lookup_lt_Some.
  - intros i q Hne Hq. rewrite list_lookup_insert_ne in Hq by done. eauto.
Qed.

#[global] Instance solo_switch_laws {E} : SwitchLaws (E := E) solo_switch.
Proof.
  split; intros me k (p & Hh & Hs); simpl; rewrite (ho_proc _ _ _ _ Hh); unfold modify_proc;
    rewrite (ho_entry _ _ _ _ Hh); (eexists; split; [reflexivity|]).
  - exists (p <| state := RUNNING |>). split; [by apply handed_over_state|done].
  - split; [|done]. exists (p <| state := RUNNABLE |>). split; [by apply handed_over_state|done].
Qed.

(** ** The operations of a running process *)
Section Running.
Context {E : Type} {I : Interference} {SW : Switch E} {SL : SwitchLaws SW}.
Implicit Types (k : kst E).

Lemma kpass_running me k q : running me k -> lk_free (lock q) ->
  running me (kpass (k <| mycpu ::= lockcycle |>) me q) /\ sie (mycpu (kpass (k <| mycpu ::= lockcycle |>) me q)) = sie (mycpu k).
Proof.
  intros Hr%running_lockcycle Hq. destruct Hr as [B1 B2 B3 B4 B5]. split; [split|].
  - auto with kernel.
  - by apply locks_free_kpass.
  - rewrite lockcycle_kpass. by rewrite lockcycle_noff.
  - rewrite lockcycle_kpass. by rewrite lockcycle_proc.
  - done.
  - rewrite lockcycle_kpass. simpl. by rewrite !lockcycle_sie.
Qed.
Lemma sched_running me k p q :
  running me k -> interfere (kclock k) (procs k) !! me = Some q -> lk_free (lock p) -> state p <> RUNNING ->
  exists k', (sched ;;; release_proc me) (klocked (k <| mycpu ::= lockcycle |>) me p) = Ok (tt, k') /\ running me k' /\ sie (mycpu k') = sie (mycpu k).
Proof.
  intros Hr Hq Hf Hs. destruct (sched_release me _ p q (running_lockcycle me k Hr) Hq Hf Hs) as (k' & H1 & H2 & H3).
  exists k'. split; [done|]. split; [done|]. rewrite H3. apply lockcycle_sie.
Qed.

Lemma yield_running me k : running me k -> exists k', yield k = Ok (tt, k') /\ running me k' /\ sie (mycpu k') = sie (mycpu k).
Proof.
  intros Hr. destruct (entry_free k me (run_kwf _ _ Hr) (run_free _ _ Hr) (run_lt _ _ Hr)) as (p & He & Hf).
  rewrite (yield_eq k me p (kwf_cpu _ (run_kwf _ _ Hr)) (run_proc _ _ Hr) He Hf).
  destruct (hook_yield_fields (active_ptr k) (ticks k) (ready_proc (ticks k) (p <| state := RUNNABLE |>))) as [F1 F2].
  apply (sched_running me k (yield_proc k p) p Hr He); unfold yield_proc; [by rewrite F1|by rewrite F2].
Qed.
Lemma sleep_running me k : running me k -> exists k', sleep k = Ok (tt, k') /\ running me k' /\ sie (mycpu k') = sie (mycpu k).
Proof.
  intros Hr. destruct (entry_free k me (run_kwf _ _ Hr) (run_free _ _ Hr) (run_lt _ _ Hr)) as (p & He & Hf).
  rewrite (sleep_eq k me p (kwf_cpu _ (run_kwf _ _ Hr)) (run_proc _ _ Hr) He Hf). unfold sleep_proc. case_bool_decide as Hch.
  - eexists. split; [reflexivity|]. by apply kpass_running.
  - by apply (sched_running me k (p <| wait_count ::= fun n => u64 (n + 1) |> <| state := SLEEPING |>) p Hr He).
Qed.
Lemma sleep_prepare_running me k c : running me k ->
  exists k', sleep_prepare (Some c) k = Ok (tt, k') /\ running me k' /\ sie (mycpu k') = sie (mycpu k).
Proof.
  intros Hr. destruct (entry_free k me (run_kwf _ _ Hr) (run_free _ _ Hr) (run_lt _ _ Hr)) as (p & He & Hf).
  rewrite (sleep_prepare_eq k me c p (kwf_cpu _ (run_kwf _ _ Hr)) (run_proc _ _ Hr) He Hf). eexists. split; [reflexivity|]. by apply kpass_running.
Qed.
End Running.

(** ** Theorems *)

(** A process that runs with no lock held can call yield, sleep_prepare on
    a channel and sleep, whatever other CPUs do to the table meanwhile: none of
    the checks of sched() fails, nothing spins, and when the call returns the
    process runs with no lock held and interrupts enabled as before the call,
    although it may have moved to another hart. *)
Theorem yield_sleep_protocol {E} (I : Interference) (SW : Switch E) `{!SwitchLaws SW} me (k : kst E) :
  running me k ->
  forall op, op ∈ [yield; sleep] \/ (exists c, op = sleep_prepare (Some c)) ->
  exists k', op k = Ok (tt, k') /\ running me k' /\ sie (mycpu k') = sie (mycpu k).
Proof.
  intros Hr op [Hop|[c ->]]; [|by apply sleep_prepare_running].
  apply elem_of_cons in Hop as [->|Hop%list_elem_of_singleton]; [by apply yield_running|subst op; by apply sleep_running].
Qed.

(** Process 3 running on hart 0 with interrupts on. *)
Definition run_demo : kst unit :=
  (with_proc 3 (fun p => p <| state := RUNNING |> <| pid := 7 |>) (boot_kst tt 0))
    <| mycpu := mkCpu (Some 3%nat) 0 false true |>.
Lemma run_demo_running : running 3 run_demo.
Proof.
  assert (kwf (E := unit) (boot_kst tt 0)) as Hb by (apply kwf_boot; unfold NCPU; lia).
  split.
  - destruct (kwf_with_proc (boot_kst tt 0) 3 (fun p => p <| state := RUNNING |> <| pid := 7 |>) Hb).
    split; try done.
  - apply (locks_free_with_proc (boot_kst tt 0) 3); [|done]. apply locks_free_boot.
  - reflexivity.
  - reflexivity.
  - unfold NPROC. lia.
Qed.

Lemma yield_sleep_protocol_witness :
  exists k', yield (I := quiet) (SW := solo_switch) run_demo = Ok (tt, k') /\ running 3 k' /\
    sie (mycpu k') = sie (mycpu run_demo).
Proof.
  apply (yield_sleep_protocol quiet solo_switch 3 run_demo run_demo_running).
  left. left.
Defined.

(** An iteration of the scheduler loop that starts with no lock held never
    panics; it hands a RUNNABLE process over with its lock held and its state
    RUNNING, as forkret, yield and sleep expect, and whatever the process and
    the other CPUs did, the iteration ends with no lock held and no current
    process. *)
Theorem scheduler_round_protocol {E} (I : Interference) (SW : Switch E) `{!SwitchLaws SW}
    fuel (k : kst E) :
  idle k ->
  scheduler_round fuel k = NoFuel \/
  exists k', scheduler_round fuel k = Ok (tt, k') /\ idle k' /\ hartid k' = hartid k.
Proof.
  intros Hi. remember (scheduler_round fuel k) as o eqn:Ho.
  unfold scheduler_round in Ho. unfold mmodify at 1 2, mbind at 1 2, obind at 1 2 in Ho. cbn [fst snd] in Ho.
  pose proof (idle_interrupts k Hi) as Hi1.
  set (k1 := (k <| mycpu ::= intr_on |>) <| mycpu ::= intr_off |>) in *.
  assert (hartid k1 = hartid k) as Hh1 by done.
  destruct (select_next_proc_ok fuel k1 (idle_kwf _ Hi1) (idle_free _ Hi1)) as [Hs|([j|] & k2 & Hs & Hpost)].
  - left. subst o. unfold mbind, obind. by rewrite Hs.
  - right. rewrite (mbind_Ok _ _ _ _ _ Hs) in Ho. unfold mreads at 1, mbind at 1, obind at 1 in Ho.
    cbn [fst snd] in Ho. unfold sched_policy_current, mreads at 1, mbind at 1, obind at 1 in Ho. cbn [fst snd] in Ho.
    match type of Ho with o = (_ ;;; _ ;;; ?K) _ =>
      destruct (dispatch_switched_in k1 k2 j (ticks k2) (current_sched_policy k2) K Hi1 Hpost)
        as (k3 & Hk3 & Hin & Hh3) end.
    rewrite Hk3 in Ho. destruct (switch_in_law j k3 Hin) as (k4 & Hsw & (p & Hho & _) & Hh4).
    rewrite (mbind_Ok _ _ _ _ _ Hsw) in Ho.
    unfold mmodify at 1 2, mbind at 1 2, obind at 1 2 in Ho. cbn [fst snd] in Ho.
    apply (handed_over_intena _ _ _ _ false), (handed_over_cur _ None) in Hho.
    destruct (release_handed_over _ _ _ _ Hho) as (k5 & H1 & H2 & H3 & H4 & _ & H6 & H7).
    rewrite H1 in Ho. exists k5. split; [exact Ho|]. split; [by split|]. simpl in H7. congruence.
  - right. rewrite (mbind_Ok _ _ _ _ _ Hs) in Ho. exists k2. split; [exact Ho|].
    destruct Hpost as (Hh & Hk2 & Hl2 & Hn2). split; [|congruence].
    destruct Hn2 as [Hn2 Hp2]. split; try done; [by rewrite Hn2; apply Hi1|by rewrite Hp2; apply Hi1].
Qed.

Lemma scheduler_round_protocol_witness :
  scheduler_round (I := quiet) (SW := solo_switch) 1 (boot_kst tt 0) = NoFuel \/
  exists k', scheduler_round (I := quiet) (SW := solo_switch) 1 (boot_kst tt 0) = Ok (tt, k') /\
    idle k' /\ hartid k' = hartid (boot_kst tt 0).
Proof.
  apply (scheduler_round_protocol quiet solo_switch 1 (boot_kst tt 0)).
  split; [apply kwf_boot; unfold NCPU; lia|apply locks_free_boot|reflexivity|reflexivity].
Defined.

(** with no other CPU running, wakeup(chan) visits every entry once: the
    entries waiting on chan have their channel cleared, those of them that are
    SLEEPING become RUNNABLE with the strategy's wakeup hook applied and their
    readiness recorded at the current tick, and every other entry, and the rest
    of the state, is left as it was. *)
Theorem wakeup_correct {E} (k : kst E) c :
  kwf k -> locks_free (procs k) ->
  exists k', wakeup (I := quiet) c k = Ok (tt, k') /\ glob_same k k' /\ kwf k' /\
    locks_free (procs k') /\ length (procs k') = length (procs k) /\
    forall i p, procs k !! i = Some p -> exists q, procs k' !! i = Some q /\
      (chan p <> c -> q = p) /\
      (chan p = c -> chan q = None /\ pid q = pid p /\ killed q = killed p /\ parent q = parent p) /\
      (chan p = c -> state p <> SLEEPING -> q = p <| chan := None |>) /\
      (chan p = c -> state p = SLEEPING ->
         state q = RUNNABLE /\ ready_since q = ticks k /\
         ready_count q = u64 (ready_count p + 1) /\ (mlfq_ok p -> mlfq_ok q)).
Proof.
  intros Hk Hl. destruct (wakeup_quiet k c Hk Hl) as (k' & H1 & H2 & H3 & H4 & _ & H6).
  exists k'. split; [done|]. split; [done|]. split; [done|]. split; [done|].
  split; [by rewrite H6, length_fmap|]. intros i p Hp. exists (wake_proc k c p).
  split; [by rewrite H6, list_lookup_fmap, Hp|]. unfold wake_proc.
  case_bool_decide as Hc; [|split_and!; done].
  destruct (make_runnable_fields k (p <| chan := None |>)) as (F1 & F2 & F3 & F4 & F5 & F6).
  split; [done|]. split; [done|]. unfold make_runnable in *. simpl in *.
  case_bool_decide as Hs; [|split_and!; done]. split; [done|]. intros _ _. split; [done|].
  set (p1 := ready_proc (ticks k) _) in *. destruct (hook_wakeup_frame (active_ptr k) (ticks k) p1) as [G1 G2].
  split_and!.
  - destruct (active_ptr k) as [|[|]]; [done|done|]. cbn [hook_wakeup]. unfold mlfq_wakeup_proc. simpl.
    by destruct (0 <? mlfq_level (queue_level p)).
  - by rewrite G1.
  - intros Hok. apply G2. exact Hok.
Qed.

Lemma wakeup_correct_witness :
  exists k', wakeup (I := quiet) (Some ChTicks) run_demo = Ok (tt, k') /\ glob_same run_demo k' /\ kwf k' /\
    locks_free (procs k') /\ length (procs k') = length (procs run_demo) /\
    forall i p, procs run_demo !! i = Some p -> exists q, procs k' !! i = Some q /\
      (chan p <> Some ChTicks -> q = p) /\
      (chan p = Some ChTicks -> chan q = None /\ pid q = pid p /\ killed q = killed p /\ parent q = parent p) /\
      (chan p = Some ChTicks -> state p <> SLEEPING -> q = p <| chan := None |>) /\
      (chan p = Some ChTicks -> state p = SLEEPING ->
         state q = RUNNABLE /\ ready_since q = ticks run_demo /\
         ready_count q = u64 (ready_count p + 1) /\ (mlfq_ok p -> mlfq_ok q)).
Proof.
  exact (wakeup_correct run_demo (Some ChTicks) (run_kwf _ _ run_demo_running)
    (run_free _ _ run_demo_running)).
Defined.

(** ** Waiting for a condition

    The pattern of every waiter in the kernel: with a lock held, test the
    condition; if it is false call sleep_prepare(c), release the lock, call
    sleep(), and start over.  A waker takes the lock, makes the condition true,
    calls wakeup(c) and releases the lock.  Each step below is one critical
    section: the entry functions are those sleep_prepare, sleep, wakeup, kkill
    and the scheduler apply under the entry's lock ([sleep_prepare_eq],
    [sleep_eq], [wakeup_scan_eq], [kkill_scan_eq]); [k] fixes the policy and the
    tick count the hooks see. *)
Inductive spc : Type := SAcquire | SCheck | SRelease | SSleep | SAsleep | SDone.
Inductive wpc : Type := WAcquire | WSet | WWake | WRelease | WDone.
Inductive lkowner : Type := LFree | LSleeper | LWaker (j : nat).

Record waitm : Type := mkWaitm {
  w_cond : bool; w_lock : lkowner; w_entry : proc; w_spc : spc; w_wpcs : list wpc
}.

Section Wait.
Context {E : Type} (k : kst E) (c : waitchan).

Inductive wait_step : waitm -> waitm -> Prop :=
| ws_acquire b p ws :
    wait_step (mkWaitm b LFree p SAcquire ws) (mkWaitm b LSleeper p SCheck ws)
| ws_true p ws :
    wait_step (mkWaitm true LSleeper p SCheck ws) (mkWaitm true LFree p SDone ws)
| ws_prepare p ws :
    wait_step (mkWaitm false LSleeper p SCheck ws)
      (mkWaitm false LSleeper (prepare_proc c p) SRelease ws)
| ws_release b p ws :
    wait_step (mkWaitm b LSleeper p SRelease ws) (mkWaitm b LFree p SSleep ws)
| ws_sleep b l p ws :
    wait_step (mkWaitm b l p SSleep ws)
      (mkWaitm b l (sleep_proc p)
         (if bool_decide (state (sleep_proc p) = SLEEPING) then SAsleep else SAcquire) ws)
| ws_run b l p ws T pol :
    state p = RUNNABLE ->
    wait_step (mkWaitm b l p SAsleep ws) (mkWaitm b l (dispatch_proc T pol p) SAcquire ws)
| ww_acquire b p s ws (j : nat) :
    ws !! j = Some WAcquire ->
    wait_step (mkWaitm b LFree p s ws) (mkWaitm b (LWaker j) p s (<[j := WSet]> ws))
| ww_set b p s ws (j : nat) :
    ws !! j = Some WSet ->
    wait_step (mkWaitm b (LWaker j) p s ws) (mkWaitm true (LWaker j) p s (<[j := WWake]> ws))
| ww_wake b p s ws (j : nat) :
    ws !! j = Some WWake ->
    wait_step (mkWaitm b (LWaker j) p s ws)
      (mkWaitm b (LWaker j) (wake_proc k (Some c) p) s (<[j := WRelease]> ws))
| ww_release b p s ws (j : nat) :
    ws !! j = Some WRelease ->
    wait_step (mkWaitm b (LWaker j) p s ws) (mkWaitm b LFree p s (<[j := WDone]> ws))
| w_consume b p s ws :
    wait_step (mkWaitm b LFree p s ws) (mkWaitm false LFree p s ws)
| w_kill b l p s ws :
    wait_step (mkWaitm b l p s ws) (mkWaitm b l (kill_proc k p) s ws).

(** The process runs and nobody holds the lock. *)
Definition wait_init (b : bool) (p : proc) (n : nat) : waitm :=
  mkWaitm b LFree p SAcquire (replicate n WAcquire).

(** Somebody made the condition true and has not called wakeup yet. *)
Definition waking (l : lkowner) (ws : list wpc) : Prop :=
  exists j, l = LWaker j /\ ws !! j = Some WWake.

Definition wait_inv (m : waitm) : Prop :=
  let p := w_entry m in
  match w_spc m with
  | SAcquire | SDone => state p <> SLEEPING
  | SCheck => state p <> SLEEPING /\ w_lock m = LSleeper
  | SRelease => state p <> SLEEPING /\ w_lock m = LSleeper /\ w_cond m = false /\ chan p = Some c
  | SSleep => state p <> SLEEPING /\
      (chan p = None \/ chan p = Some c /\ (w_cond m = true -> waking (w_lock m) (w_wpcs m)))
  | SAsleep => (state p = SLEEPING -> chan p = Some c) /\
      (chan p = Some c -> w_cond m = true -> waking (w_lock m) (w_wpcs m))
  end.

Lemma kill_proc_fields p :
  chan (kill_proc k p) = chan p /\ (state (kill_proc k p) = SLEEPING -> False) /\
  (state p <> SLEEPING -> state (kill_proc k p) = state p).
Proof.
  unfold kill_proc. destruct (make_runnable_fields k (p <| killed := 1 |>)) as (_ & -> & _ & _ & _ & ->).
  simpl. case_bool_decide; done.
Qed.

Lemma wake_proc_fields p :
  (chan p = Some c /\ chan (wake_proc k (Some c) p) = None /\ state (wake_proc k (Some c) p) <> SLEEPING) \/
  (chan p <> Some c /\ wake_proc k (Some c) p = p).
Proof.
  unfold wake_proc. case_bool_decide as Hc; [left|right; done].
  destruct (make_runnable_fields k (p <| chan := None |>)) as (_ & -> & _ & _ & _ & ->).
  simpl. by case_bool_decide.
Qed.

Lemma sleep_proc_cases p :
  (chan p = None /\ sleep_proc p = p) \/
  (chan p <> None /\ state (sleep_proc p) = SLEEPING /\ chan (sleep_proc p) = chan p).
Proof. unfold sleep_proc. case_bool_decide; [by left|by right]. Qed.

(** The waiter's own steps. *)
Lemma wait_inv_sleep b l p ws :
  wait_inv (mkWaitm b l p SSleep ws) ->
  wait_inv (mkWaitm b l (sleep_proc p)
    (if bool_decide (state (sleep_proc p) = SLEEPING) then SAsleep else SAcquire) ws).
Proof.
  intros (H1 & H2). simpl in H1, H2. destruct (sleep_proc_cases p) as [(Hn & ->)|(Hn & Hst & Hch)].
  - by rewrite bool_decide_eq_false_2.
  - rewrite bool_decide_eq_true_2 by done. unfold wait_inv. simpl. rewrite Hch.
    destruct H2 as [?|[Hc Hw]]; [done|]. by split.
Qed.

(** A waker's wakeup keeps the invariant at every point the waiter can be at. *)
Lemma wait_inv_wake b p s ws (j : nat) :
  ws !! j = Some WWake -> wait_inv (mkWaitm b (LWaker j) p s ws) ->
  wait_inv (mkWaitm b (LWaker j) (wake_proc k (Some c) p) s (<[j := WRelease]> ws)).
Proof.
  intros Hj Hi. unfold wait_inv in *. simpl in *.
  destruct (wake_proc_fields p) as [(Hc & W1 & W2)|(Hc & ->)].
  - rewrite W1. destruct s; try done; naive_solver.
  - destruct s; try done; naive_solver.
Qed.

Lemma wait_inv_kill b l p s ws :
  wait_inv (mkWaitm b l p s ws) -> wait_inv (mkWaitm b l (kill_proc k p) s ws).
Proof.
  unfold wait_inv. simpl. destruct (kill_proc_fields p) as (-> & K2 & _). destruct s; naive_solver.
Qed.

(** Steps that change only the lock, the condition or a waker's counter keep
    the invariant when they keep a pending wakeup pending. *)
Lemma wait_inv_frame b b' l l' p s ws ws' :
  l <> LSleeper -> (b' = true -> b = true -> waking l ws -> waking l' ws') ->
  (b' = true -> b = false -> waking l' ws') ->
  wait_inv (mkWaitm b l p s ws) -> wait_inv (mkWaitm b' l' p s ws').
Proof.
  intros Hl H1 H2. unfold wait_inv. simpl. destruct s; try done.
  - by intros (_ & ?).
  - by intros (_ & ? & _).
  - intros (Hs & [Hc|[Hc Hw]]); split; auto. right. split; [done|]. destruct b, b'; auto.
  - intros (Hs & Hw). split; [done|]. intros Hc. specialize (Hw Hc). destruct b, b'; auto.
Qed.

Lemma wait_inv_step m m' : wait_inv m -> wait_step m m' -> wait_inv m'.
Proof.
  intros Hi Hs. destruct Hs.
  - by split.
  - by destruct Hi.
  - destruct Hi. by split.
  - destruct Hi as (H1 & H2 & H3 & H4). split; [done|]. right. split; [done|]. simpl in *. congruence.
  - by apply wait_inv_sleep.
  - unfold wait_inv. cbn [w_entry w_spc]. by destruct (dispatch_proc_fields T pol p) as [_ ->].
  - revert Hi. apply wait_inv_frame; try done; [by intros _ _ (? & ? & _)|].
    by intros ->.
  - revert Hi. assert (waking (LWaker j) (<[j := WWake]> ws)) as Hw.
    { exists j. split; [done|]. apply list_lookup_insert_eq. by eapply lookup_lt_Some. }
    by apply wait_inv_frame.
  - by apply wait_inv_wake.
  - revert Hi. apply wait_inv_frame; try done; [intros _ _ (j' & [= <-] & Hj); congruence|].
    by intros ->.
  - revert Hi. by apply wait_inv_frame.
  - by apply wait_inv_kill.
Qed.

Lemma wait_inv_init b p n : state p <> SLEEPING -> wait_inv (wait_init b p n).
Proof. done. Qed.

Lemma wait_inv_reachable b p n m :
  state p <> SLEEPING -> rtc wait_step (wait_init b p n) m -> wait_inv m.
Proof.
  intros Hp. apply (rtc_ind_r (fun m => wait_inv m)); [by apply wait_inv_init|].
  intros y z _ Hyz Hy. by eapply wait_inv_step.
Qed.
End Wait.

(** C6: no wakeup is lost: in every interleaving of one waiter with any number of
    wakers, consumers of the condition and killers, whenever the waiter is
    SLEEPING although the condition holds, some waker has made it true and is
    still going to call wakeup with the lock held; in particular once the lock
    is free again the waiter is not SLEEPING on a true condition. *)
Theorem no_lost_wakeup {E} (k : kst E) c b p n m :
  state p <> SLEEPING -> rtc (wait_step k c) (wait_init b p n) m ->
  state (w_entry m) = SLEEPING ->
  chan (w_entry m) = Some c /\
  (w_cond m = true -> exists j, w_lock m = LWaker j /\ w_wpcs m !! j = Some WWake) /\
  (w_lock m = LFree -> w_cond m = false).
Proof.
  intros Hp Hr Hs. pose proof (wait_inv_reachable k c b p n m Hp Hr) as Hi.
  unfold wait_inv in Hi. destruct (w_spc m); try (by destruct Hi).
  destruct Hi as [Hc Hw]. specialize (Hc Hs). specialize (Hw Hc). split; [done|]. split; [done|].
  intros Hl. destruct (w_cond m); [|done]. destruct Hw as (j & Hj & _); [done|congruence].
Qed.

Definition wait_demo_proc : proc := zero_proc <| state := RUNNING |>.

Lemma no_lost_wakeup_witness :
  chan (sleep_proc (prepare_proc ChTicks wait_demo_proc)) = Some ChTicks /\
  (true = true -> exists j, LWaker 0 = LWaker j /\ [WWake] !! j = Some WWake) /\
  (LWaker 0 = LFree -> true = false).
Proof.
  apply (no_lost_wakeup (boot_kst tt 0) ChTicks false wait_demo_proc 1
    (mkWaitm true (LWaker 0) (sleep_proc (prepare_proc ChTicks wait_demo_proc)) SAsleep [WWake])).
  - discriminate.
  - unfold wait_init. simpl.
    eapply rtc_l; [apply ws_acquire|]. eapply rtc_l; [apply ws_prepare|].
    eapply rtc_l; [apply ws_release|]. eapply rtc_l; [apply ws_sleep|].
    eapply rtc_l; [apply (ww_acquire _ _ _ _ _ _ 0); reflexivity|].
    eapply rtc_l; [apply (ww_set _ _ _ _ _ _ 0); reflexivity|]. apply rtc_refl.
  - reflexivity.
Defined.
