(* ===== verification/ProcLife.v ===== *)
(** * The life of a process (kernel/proc.c)

    allocproc, fork, exit, wait and kill: slots are handed out once, process
    ids are unique, children are inherited by init and reaped by wait.  The
    theorems are about one CPU running by itself; the layers below are used
    through [EnvLaws]. *)
From stdpp Require Import base list strings gmap.
From Stdlib Require Import ZArith Lia.
From S2P Require Import Prelude Spinlock KState SchedMLFQ Sched Riscv Proc ProcTable ProcSleep.

(** What kernel/proc.c relies on: its calls return, reporting failure by
    value; a page from kalloc is not one already in use; filedup and idup
    return their argument. *)
Definition total {S A} (op : M S A) : Prop := forall s, exists r s', op s = Ok (r, s').

Class EnvLaws {E} (PE : ProcEnv E) : Type := {
  owned : E -> Z -> Prop;
  env_kalloc_law e : exists r e', env_kalloc e = Ok (r, e') /\ (r <> 0 -> ~ owned e r);
  env_kfree_law pa : total (env_kfree pa);
  env_uvmcreate_law : total env_uvmcreate;
  env_mappages_law pt va size pa perm : total (env_mappages pt va size pa perm);
  env_uvmunmap_law pt va n f : total (env_uvmunmap pt va n f);
  env_uvmfree_law pt size : total (env_uvmfree pt size);
  env_uvmcopy_law old new size : total (env_uvmcopy old new size);
  env_copyout_law pt size dst b : total (env_copyout pt size dst b);
  env_filedup_law f e : exists e', env_filedup f e = Ok (f, e');
  env_idup_law d e : exists e', env_idup d e = Ok (d, e');
  env_fileclose_law f : total (env_fileclose f);
  env_iput_law d : total (env_iput d);
  env_begin_op_law : total env_begin_op;
  env_end_op_law : total env_end_op
}.

(** Two states that differ only below the process table: in the lower layers,
    the trapframe pages, the next process id and the acquisition count. *)
Definition low_same {E} (k k' : kst E) : Prop :=
  k' = k <| env := env k' |> <| tframes := tframes k' |> <| nextpid := nextpid k' |>
         <| kclock := kclock k' |>.

Lemma low_same_refl {E} (k : kst E) : low_same k k.
Proof. by destruct k. Qed.
Lemma low_same_trans {E} (k1 k2 k3 : kst E) : low_same k1 k2 -> low_same k2 k3 -> low_same k1 k3.
Proof. unfold low_same. intros H1 H2. rewrite H2, H1. reflexivity. Qed.
Lemma low_same_procs {E} (k k' : kst E) : low_same k k' -> procs k' = procs k.
Proof. intros ->. reflexivity. Qed.
Lemma low_same_cpu {E} (k k' : kst E) : low_same k k' -> mycpu k' = mycpu k /\ hartid k' = hartid k.
Proof. intros ->. done. Qed.
Lemma low_same_wait {E} (k k' : kst E) : low_same k k' -> wait_lock k' = wait_lock k.
Proof. intros ->. done. Qed.
Lemma low_same_ticks {E} (k k' : kst E) : low_same k k' -> ticks k' = ticks k.
Proof. intros ->. done. Qed.
Lemma low_same_kwf {E} (k k' : kst E) : low_same k k' -> kwf k -> kwf k'.
Proof. intros -> []. by split. Qed.
#[export] Hint Resolve low_same_refl : kernel.

#[local] Existing Instance quiet.

Section Locked.
Context {E : Type} {PE : ProcEnv E} {EL : EnvLaws PE}.
Implicit Types (k : kst E).

(** A call into the lower layers by a hart that holds the lock of entry [i]. *)
Lemma lift_env_klocked {A} (op : M E A) k i p :
  total op -> exists r k', lift_env op (klocked k i p) = Ok (r, klocked k' i p) /\ low_same k k' /\
    nextpid k' = nextpid k /\ tframes k' = tframes k /\
    (exists e', op (env k) = Ok (r, e')).
Proof.
  intros Ht. destruct (Ht (env k)) as (r & e' & He). exists r, (k <| env := e' |>).
  unfold lift_env. change (env (klocked k i p)) with (env k). rewrite He.
  split_and!; [done..|by exists e'].
Qed.

Lemma lift_env_step {A B} (op : M E A) (K : A -> M (kst E) B) k i p :
  total op -> exists r k', (let* x := lift_env op in K x) (klocked k i p) = K r (klocked k' i p) /\
    low_same k k' /\ nextpid k' = nextpid k /\ tframes k' = tframes k.
Proof.
  intros Ht. destruct (lift_env_klocked op k i p Ht) as (r & k' & H1 & H2 & H3 & H4 & _).
  exists r, k'. by rewrite (mbind_Ok _ _ _ _ _ H1).
Qed.

End Locked.

(** Steps over a call into the lower layers: the result [r], the state [k]
    after it, and what they keep. *)
Tactic Notation "env_step" uconstr(law) "as" simple_intropattern(r) ident(k1) ident(L) ident(N) ident(T) :=
  match goal with
  | |- context [mbind (lift_env ?op) ?K (klocked ?k ?i ?p)] =>
      destruct (lift_env_step op K k i p ltac:(apply law)) as (r & k1 & -> & L & N & T); cbv beta
  end.

(** A field assignment to the locked entry [i]. *)
Ltac kmodq Hq :=
  erewrite mbind_Ok;
    [|apply (modify_proc_klocked (I := quiet) _ _ _ _ _ Hq); [intros ? ?; reflexivity|reflexivity]].

Section Locked2.
Context {E : Type} {PE : ProcEnv E} {EL : EnvLaws PE}.
Implicit Types (k : kst E).

(** Page tables. *)
Lemma proc_pagetable_klocked k i p :
  (i < length (procs k))%nat ->
  exists r k', proc_pagetable i (klocked k i p) = Ok (r, klocked k' i p) /\ low_same k k' /\
    nextpid k' = nextpid k /\ tframes k' = tframes k.
Proof.
  intros Hi. destruct (lookup_lt_is_Some_2 _ _ Hi) as [q Hq]. unfold proc_pagetable.
  rewrite (mbind_Ok _ _ _ _ _ (read_proc_klocked (I := quiet) k i p q Hq)).
  env_step env_uvmcreate_law as pt k1 L1 N1 T1. destruct (pt =? 0); [by exists 0, k1|].
  env_step env_mappages_law as r k2 L2 N2 T2.
  pose proof (low_same_trans _ _ _ L1 L2) as L12. destruct (r <? 0).
  { env_step env_uvmfree_law as u k3 L3 N3 T3.
    exists 0, k3. split; [reflexivity|]. split; [by eapply low_same_trans|]. split; congruence. }
  env_step env_mappages_law as r' k3 L3 N3 T3.
  pose proof (low_same_trans _ _ _ L12 L3) as L13. destruct (r' <? 0).
  - env_step env_uvmunmap_law as u k4 L4 N4 T4.
    env_step env_uvmfree_law as u' k5 L5 N5 T5.
    exists 0, k5. split; [reflexivity|].
    split; [by eapply low_same_trans; [exact L13|]; eapply low_same_trans|]. split; congruence.
  - exists pt, k3. split; [reflexivity|]. split; [done|]. split; congruence.
Qed.

Lemma proc_freepagetable_klocked k i p pt size :
  exists k', proc_freepagetable pt size (klocked k i p) = Ok (tt, klocked k' i p) /\ low_same k k' /\
    nextpid k' = nextpid k /\ tframes k' = tframes k.
Proof.
  unfold proc_freepagetable.
  env_step env_uvmunmap_law as u k1 L1 N1 T1.
  env_step env_uvmunmap_law as u' k2 L2 N2 T2.
  destruct (lift_env_klocked (env_uvmfree pt size) k2 i p) as ([] & k3 & -> & L3 & N3 & T3 & _); [apply env_uvmfree_law|].
  exists k3. split; [done|]. split; [by eapply low_same_trans; [exact L1|]; eapply low_same_trans|].
  split; congruence.
Qed.

(** freeproc *)
Lemma freeproc_klocked k i p :
  (i < length (procs k))%nat ->
  exists k', freeproc i (klocked k i p) = Ok (tt, klocked k' i (freed_proc (p <| trapframe_ptr := 0 |>))) /\
    low_same k k' /\ nextpid k' = nextpid k /\
    tframes k' = (if trapframe_ptr p =? 0 then tframes k else delete (trapframe_ptr p) (tframes k)).
Proof.
  intros Hi. destruct (lookup_lt_is_Some_2 _ _ Hi) as [q Hq]. unfold freeproc.
  rewrite (mbind_Ok _ _ _ _ _ (read_proc_klocked (I := quiet) k i p q Hq)). simpl.
  assert (exists k1, (if trapframe_ptr p =? 0 then mret tt else kfree_trapframe (trapframe_ptr p)) (klocked k i p) =
    Ok (tt, klocked k1 i p) /\ low_same k k1 /\ nextpid k1 = nextpid k /\
    tframes k1 = (if trapframe_ptr p =? 0 then tframes k else delete (trapframe_ptr p) (tframes k)))
    as (k1 & H1 & L1 & N1 & T1).
  { destruct (trapframe_ptr p =? 0); [exists k; split_and!; auto with kernel|]. unfold kfree_trapframe.
    env_step env_kfree_law as u k1 L1 N1 T1.
    exists (k1 <| tframes ::= delete (trapframe_ptr p) |>). split; [done|].
    unfold low_same in L1. split; [rewrite L1; done|]. simpl. by rewrite N1, T1. }
  rewrite (mbind_Ok _ _ _ _ _ H1).
  assert (interfere (kclock k1) (procs k1) !! i = Some q) as Hq1.
  { simpl. by rewrite (low_same_procs _ _ L1). }
  erewrite (mbind_Ok (modify_proc i _)); [|apply (modify_proc_klocked (I := quiet) _ _ _ _ _ Hq1); [by intros ? ?|done]].
  assert (exists k2, (if pagetable p =? 0 then mret tt else proc_freepagetable (pagetable p) (sz p))
    (klocked k1 i (p <| trapframe_ptr := 0 |>)) = Ok (tt, klocked k2 i (p <| trapframe_ptr := 0 |>)) /\
    low_same k1 k2 /\ nextpid k2 = nextpid k1 /\ tframes k2 = tframes k1) as (k2 & H2 & L2 & N2 & T2).
  { destruct (pagetable p =? 0); [exists k1; split_and!; auto with kernel|].
    apply (proc_freepagetable_klocked k1 i). }
  rewrite (mbind_Ok _ _ _ _ _ H2). exists k2.
  assert (interfere (kclock k2) (procs k2) !! i = Some q) as Hq2.
  { simpl. by rewrite (low_same_procs _ _ L2). }
  split; [apply (modify_proc_klocked (I := quiet) _ _ _ _ _ Hq2); [by intros ? ?|done]|].
  split; [by eapply low_same_trans|]. split; congruence.
Qed.

Lemma kalloc_trapframe_klocked k i p :
  exists r k', kalloc_trapframe (klocked k i p) = Ok (r, klocked k' i p) /\ low_same k k' /\
    nextpid k' = nextpid k /\ (r <> 0 -> ~ owned (env k) r) /\
    tframes k' = (if r =? 0 then tframes k else <[r := junk_trapframe]> (tframes k)).
Proof.
  unfold kalloc_trapframe. destruct (env_kalloc_law (env k)) as (r & e' & He & Hf).
  assert (lift_env env_kalloc (klocked k i p) = Ok (r, klocked (k <| env := e' |>) i p)) as Hl.
  { unfold lift_env. change (env (klocked k i p)) with (env k). by rewrite He. }
  rewrite (mbind_Ok _ _ _ _ _ Hl). destruct (r =? 0) eqn:Hr.
  - exists r, (k <| env := e' |>). rewrite Hr. done.
  - exists r, (k <| env := e' |> <| tframes ::= <[r := junk_trapframe]> |>). rewrite Hr. done.
Qed.

Lemma allocpid_klocked k i p :
  lk_free (pid_lock k) -> cpu_wf (mycpu k) ->
  exists k', allocpid (klocked k i p) = Ok (nextpid k, klocked k' i p) /\ low_same k k' /\
    nextpid k' = i32 (nextpid k + 1) /\ tframes k' = tframes k /\ env k' = env k.
Proof.
  intros Hf [Hc1 Hc2]. exists (k <| nextpid := i32 (nextpid k + 1) |> <| kclock ::= S |>).
  split; [|done]. unfold allocpid.
  assert (acquire (hartid k) (push_off (mycpu k)) (pid_lock k) =
    Ok (push_off (push_off (mycpu k)), held_by (hartid k) (pid_lock k))) as Ha by (by apply acquire_free).
  erewrite (mbind_Ok acquire_pid).
  2:{ unfold acquire_pid. change (mycpu (klocked k i p)) with (push_off (mycpu k)).
      change (pid_lock (klocked k i p)) with (pid_lock k). change (hartid (klocked k i p)) with (hartid k).
      rewrite Ha. reflexivity. }
  unfold mreads at 1, mmodify at 1, mbind at 1 2, obind at 1 2. cbn [fst snd].
  assert (release (hartid k) (push_off (push_off (mycpu k))) (held_by (hartid k) (pid_lock k)) =
    Ok (push_off (mycpu k), pid_lock k)) as Hr.
  { rewrite release_held by apply lk_held_held_by. rewrite pop_push_off by (by apply cpu_wf_push_off).
    destruct Hf as [F1 F2]. unfold lockcycle. rewrite noff_push_off.
    destruct (Z.eqb_spec (noff (mycpu k) + 1) 0); [lia|]. simpl.
    destruct (pid_lock k); simpl in *; by subst. }
  erewrite (mbind_Ok release_pid); [reflexivity|]. unfold release_pid.
  match goal with |- obind ?R _ = _ =>
    change R with (release (hartid k) (push_off (push_off (mycpu k))) (held_by (hartid k) (pid_lock k))) end.
  rewrite Hr. reflexivity.
Qed.
End Locked2.

(** ** allocproc *)
Definition unused (p : proc) : bool := bool_decide (state p = UNUSED).

(** The invariant on process ids: those in use are positive, below the next
    one and pairwise different. *)
Definition pids_ok {E} (k : kst E) : Prop :=
  (forall i p, procs k !! i = Some p -> state p <> UNUSED -> 0 < pid p < nextpid k) /\
  (forall i j p q, i <> j -> procs k !! i = Some p -> procs k !! j = Some q ->
     state p <> UNUSED -> state q <> UNUSED -> pid p <> pid q).

(** Well-formed process entries: a file table of the right size, empty in a
    free slot. *)
Definition slots_ok {E} (k : kst E) : Prop :=
  forall i p, procs k !! i = Some p ->
    length (ofile p) = NOFILE /\ (state p = UNUSED -> ofile p = replicate NOFILE 0).

Section Alloc.
Context {E : Type} {PE : ProcEnv E} {EL : EnvLaws PE}.
Implicit Types (k : kst E).

Lemma alloc_scan_eq k i p :
  cpu_wf (mycpu k) -> procs k !! i = Some p -> lk_free (lock p) ->
  alloc_scan i k = if unused p then Ok (Some i, klocked k i p) else Ok (None, kpass k i p).
Proof.
  intros Hc Hp Hf. unfold alloc_scan. rewrite (locked_read k i p) by done. simpl.
  fold (unused p). destruct (unused p); [done|].
  by rewrite (mbind_Ok _ _ _ _ _ (release_proc_klocked (I := quiet) k i p p Hp Hf Hc)).
Qed.

(** The entry allocproc hands out, given what it was and what was allocated. *)
Definition fresh_proc k (p : proc) (tf pt : Z) : proc :=
  let q := proc_sched_init (ticks k) (current_sched_policy k)
             (p <| pid := nextpid k |> <| state := USED |>) in
  let q := q <| trapframe_ptr := tf |> <| pagetable := pt |> in
  q <| p_context := mkContext forkret_addr (kstack q + PGSIZE) (replicate 12 0) |>.

(** What freeproc leaves of an entry. *)
Lemma freed_proc_fields p :
  let q := freed_proc p in
  state q = UNUSED /\ pid q = 0 /\ lock q = lock p /\ ofile q = ofile p /\ parent q = parent p /\
  chan q = None /\ killed q = 0.
Proof. done. Qed.

(** freeproc; release; return 0 *)
Lemma alloc_fail k i p q :
  kwf k -> procs k !! i = Some q -> lk_free (lock p) ->
  exists k', (freeproc i ;;; release_proc i ;;; mret (@None nat)) (klocked k i p) =
      Ok (None, kpass k' i (freed_proc (p <| trapframe_ptr := 0 |>))) /\
    low_same k k' /\ nextpid k' = nextpid k.
Proof.
  intros Hk Hq Hf. pose proof (lookup_lt_Some _ _ _ Hq) as Hi.
  destruct (freeproc_klocked k i p Hi) as (k1 & H1 & L1 & N1 & _).
  rewrite (mbind_Ok _ _ _ _ _ H1). exists k1. split; [|done].
  assert (procs k1 !! i = Some q) as Hq1 by (by rewrite (low_same_procs _ _ L1)).
  erewrite mbind_Ok; [reflexivity|].
  apply (release_proc_klocked (I := quiet) k1 i _ q Hq1); [done|].
  rewrite (proj1 (low_same_cpu _ _ L1)). apply Hk.
Qed.

Lemma alloc_found_klocked k i p :
  kwf k -> procs k !! i = Some p -> lk_free (lock p) -> lk_free (pid_lock k) ->
  exists r k1 k', alloc_found i (klocked k i p) = Ok (r, k') /\ low_same k k1 /\
    nextpid k1 = i32 (nextpid k + 1) /\
    match r with
    | Some j => j = i /\ exists tf pt, tf <> 0 /\ pt <> 0 /\ ~ owned (env k) tf /\
        tframes k1 = <[tf := junk_trapframe]> (tframes k) /\ k' = klocked k1 i (fresh_proc k p tf pt)
    | None => exists q, k' = kpass k1 i (freed_proc q) /\ lock q = lock p /\ ofile q = ofile p /\
        parent q = parent p
    end.
Proof.
  intros Hk Hp Hf Hpl. unfold alloc_found.
  destruct (allocpid_klocked k i p Hpl (kwf_cpu _ Hk)) as (k1 & H1 & L1 & N1 & T1 & E1).
  rewrite (mbind_Ok _ _ _ _ _ H1). assert (procs k1 !! i = Some p) as Hp1 by (by rewrite (low_same_procs _ _ L1)).
  kmodq Hp1. kmodq Hp1.
  set (q0 := proc_sched_init (ticks k) (current_sched_policy k) (p <| pid := nextpid k |> <| state := USED |>)).
  erewrite (mbind_Ok (sched_proc_init i) _ _ tt (klocked k1 i q0)).
  2:{ unfold sched_proc_init, sched_policy_current, mreads, mbind, obind. cbn [fst snd].
      rewrite (modify_proc_klocked (I := quiet) _ _ _ _ _ Hp1); [|by intros ? ?|done].
      unfold q0. by rewrite L1. }
  destruct (kalloc_trapframe_klocked k1 i q0) as (tf & k2 & H2 & L2 & N2 & Fr2 & T2).
  rewrite (mbind_Ok _ _ _ _ _ H2). pose proof (low_same_trans _ _ _ L1 L2) as L12.
  assert (procs k2 !! i = Some p) as Hp2 by (by rewrite (low_same_procs _ _ L12)).
  pose proof (low_same_kwf _ _ L12 Hk) as Hk2. kmodq Hp2.
  destruct (Z.eqb_spec tf 0) as [Htf|Htf].
  { destruct (alloc_fail k2 i (q0 <| trapframe_ptr := tf |>) p Hk2 Hp2) as (k3 & H3 & L3 & N3); [exact Hf|].
    eexists None, k3, _. split; [exact H3|]. split; [by eapply low_same_trans|].
    split; [congruence|]. eexists. split; [reflexivity|]. done. }
  destruct (proc_pagetable_klocked k2 i (q0 <| trapframe_ptr := tf |>)) as (pt & k3 & H3 & L3 & N3 & T3).
  { by eapply lookup_lt_Some. }
  rewrite (mbind_Ok _ _ _ _ _ H3). pose proof (low_same_trans _ _ _ L12 L3) as L13.
  assert (procs k3 !! i = Some p) as Hp3 by (by rewrite (low_same_procs _ _ L13)).
  pose proof (low_same_kwf _ _ L13 Hk) as Hk3. kmodq Hp3.
  destruct (Z.eqb_spec pt 0) as [Hpt|Hpt].
  - destruct (alloc_fail k3 i (q0 <| trapframe_ptr := tf |> <| pagetable := pt |>) p Hk3 Hp3) as (k4 & H4 & L4 & N4);
      [exact Hf|].
    eexists None, k4, _. split; [exact H4|]. split; [by eapply low_same_trans|].
    split; [congruence|]. eexists. split; [reflexivity|]. done.
  - kmodq Hp3. eexists (Some i), k3, _. split; [reflexivity|]. split; [done|]. split; [congruence|].
    split; [done|]. exists tf, pt. split_and!; try done.
    + rewrite <- E1. by apply Fr2.
    + rewrite T3, T2. destruct (Z.eqb_spec tf 0); [done|]. by rewrite T1.
Qed.

(** The whole of allocproc: [k1] is the state the slot was found in. *)
Definition alloc_post k (r : option nat) (k' : kst E) : Prop :=
  exists ks k1, same_table k ks /\ kwf ks /\
    (mycpu ks = mycpu k \/ mycpu ks = lockcycle (mycpu k)) /\ low_same ks k1 /\
    match r with
    | Some i => exists p tf pt,
        List.find (entry_is unused (procs k)) (seq 0 NPROC) = Some i /\ procs k !! i = Some p /\
        tf <> 0 /\ pt <> 0 /\ ~ owned (env k) tf /\
        tframes k1 = <[tf := junk_trapframe]> (tframes k) /\
        nextpid k1 = i32 (nextpid k + 1) /\ k' = klocked k1 i (fresh_proc k p tf pt)
    | None =>
        (List.find (entry_is unused (procs k)) (seq 0 NPROC) = None /\ k' = ks) \/
        exists i p q, List.find (entry_is unused (procs k)) (seq 0 NPROC) = Some i /\
          procs k !! i = Some p /\ nextpid k1 = i32 (nextpid k + 1) /\
          k' = kpass k1 i (freed_proc q) /\ lock q = lock p /\ ofile q = ofile p /\ parent q = parent p
    end.

Lemma allocproc_quiet k :
  kwf k -> locks_free (procs k) -> lk_free (pid_lock k) ->
  exists r k', allocproc k = Ok (r, k') /\ alloc_post k r k'.
Proof.
  intros Hk Hl Hpl. unfold allocproc.
  assert (forall k i p r (k' : kst E), Ok (Some i, klocked k i p) = Ok (r, k') -> r <> None) as HD.
  { intros k2 i p r k' H. apply Ok_pair_inj in H as [<- _]. done. }
  destruct (search_quiet k unused alloc_scan (fun k i p => Ok (Some i, klocked k i p))
    (fun k i p _ => alloc_scan_eq k i p) HD (seq 0 NPROC) k
    seq_lt (glob_same_refl k) Hk Hl) as (ks & Hs & Hks & Hc & Hloop).
  destruct (List.find (entry_is unused (procs k)) (seq 0 NPROC)) as [i|] eqn:Hfind.
  - assert (exists p, procs k !! i = Some p) as (p & Hp).
    { apply find_some in Hfind as [_ H]. unfold entry_is in H.
      destruct (procs k !! i) as [p|]; [by exists p|done]. }
    rewrite Hp in Hloop. rewrite (mbind_Ok _ _ _ _ _ Hloop).
    assert (procs ks !! i = Some p) as Hps by (by rewrite Hs).
    assert (pid_lock ks = pid_lock k) as Hpls by (by rewrite Hs).
    destruct (alloc_found_klocked ks i p Hks Hps) as (r & k1 & k' & H1 & L1 & N1 & Hr);
      [eauto|by rewrite Hpls|]. exists r, k'. split; [done|]. exists ks, k1. split_and!; try done.
    unfold same_table in Hs.
    destruct r as [j|].
    + destruct Hr as (-> & tf & pt & H2 & H3 & H4 & H5 & ->). exists p, tf, pt.
      rewrite Hs in H4, H5, N1. split_and!; try done. unfold fresh_proc. by rewrite Hs.
    + destruct Hr as (q & -> & H2 & H3 & H4). right. exists i, p, q. rewrite Hs in N1. by split_and!.
  - rewrite (mbind_Ok _ _ _ _ _ Hloop). exists None, ks. split; [done|]. exists ks, ks.
    split_and!; auto with kernel.
Qed.
End Alloc.

(** A bump allocator below the process layer, for evaluating on examples. *)
#[export] Instance bump_env : ProcEnv Z := {|
  env_kalloc := fun e => Ok (e, e + PGSIZE);
  env_kfree := fun _ e => Ok (tt, e);
  env_uvmcreate := fun e => Ok (e, e + PGSIZE);
  env_mappages := fun _ _ _ _ _ e => Ok (0, e);
  env_uvmunmap := fun _ _ _ _ e => Ok (tt, e);
  env_uvmfree := fun _ _ e => Ok (tt, e);
  env_uvmcopy := fun _ _ _ e => Ok (0, e);
  env_uvmalloc := fun _ _ new _ e => Ok (new, e);
  env_uvmdealloc := fun _ old new e => Ok (if old <=? new then old else new, e);
  env_copyout := fun _ _ _ _ e => Ok (0, e);
  env_copyin := fun _ _ _ n e => Ok ((0, replicate (Z.to_nat n) 0), e);
  env_kwrite := fun _ _ e => Ok (tt, e);
  env_kread := fun _ n e => Ok (replicate (Z.to_nat n) 0, e);
  env_filedup := fun f e => Ok (f, e);
  env_fileclose := fun _ e => Ok (tt, e);
  env_idup := fun d e => Ok (d, e);
  env_iput := fun _ e => Ok (tt, e);
  env_namei_root := fun e => Ok (1, e);
  env_begin_op := fun e => Ok (tt, e);
  env_end_op := fun e => Ok (tt, e);
  forkret_addr := KERNBASE;
  trampoline_addr := KERNBASE + PGSIZE
|}.
#[export] Instance bump_env_laws : EnvLaws bump_env.
Proof.
  refine {| owned := fun e r => r < e |}; try (intros; eexists; reflexivity);
    try (unfold total; intros; eexists _, _; reflexivity).
  intros e. eexists _, _. split; [reflexivity|]. lia.
Defined.

Lemma pids_ok_update {E} (k k' : kst E) i q :
  procs k' = <[i := q]> (procs k) -> nextpid k <= nextpid k' -> pids_ok k ->
  state q = UNUSED \/ (0 < pid q /\ nextpid k <= pid q < nextpid k') -> pids_ok k'.
Proof.
  intros Hp Hn [H1 H2] Hq.
  assert (forall j p, procs k' !! j = Some p -> (j = i /\ p = q) \/ (j <> i /\ procs k !! j = Some p)) as Hl.
  { intros j p Hj. rewrite Hp in Hj. destruct (decide (i = j)) as [<-|Hne].
    - destruct (decide (i < length (procs k))%nat).
      + rewrite list_lookup_insert_eq in Hj by done. left. by simplify_eq.
      + rewrite list_insert_ge in Hj by lia. apply lookup_lt_Some in Hj. lia.
    - rewrite list_lookup_insert_ne in Hj by done. right. done. }
  split.
  - intros j p Hj Hs. destruct (Hl _ _ Hj) as [[-> ->]|[_ Hj']]; [destruct Hq; [done|lia]|].
    specialize (H1 _ _ Hj' Hs). lia.
  - intros j j' p p' Hne Hj Hj' Hs Hs'.
    destruct (Hl _ _ Hj) as [[-> ->]|[? Hj1]], (Hl _ _ Hj') as [[-> ->]|[? Hj2]]; try done.
    + specialize (H1 _ _ Hj2 Hs'). destruct Hq; [done|lia].
    + specialize (H1 _ _ Hj1 Hs). destruct Hq; [done|lia].
    + by apply (H2 j j' p p').
Qed.

(** A state that differs from [k] in the table only at entry [i]. *)
Lemma pids_ok_same {E} (k k' : kst E) :
  procs k' = procs k -> nextpid k <= nextpid k' -> pids_ok k -> pids_ok k'.
Proof.
  intros Hp Hn [H1 H2]. split; intros *; rewrite Hp; [|by apply H2].
  intros Hi Hs. specialize (H1 _ _ Hi Hs). lia.
Qed.

Section AllocFacts.
Context {E : Type} {PE : ProcEnv E} {EL : EnvLaws PE}.
Implicit Types (k : kst E).

Lemma find_unused_spec t i :
  List.find (entry_is unused t) (seq 0 NPROC) = Some i ->
  exists p, t !! i = Some p /\ state p = UNUSED.
Proof.
  intros H. apply find_some in H as [_ H]. unfold entry_is, unused in H.
  destruct (t !! i) as [p|] eqn:Hp; [|done]. apply bool_decide_eq_true in H. eauto.
Qed.

Lemma alloc_post_pids k r k' :
  pids_ok k -> 0 < nextpid k < 2 ^ 31 - 1 -> alloc_post k r k' ->
  pids_ok k' /\ nextpid k <= nextpid k' <= nextpid k + 1.
Proof.
  intros Hpids Hn (ks & k1 & Hs & Hks & Hc & L & Hr).
  assert (procs k1 = procs k) as Hp1 by (rewrite (low_same_procs _ _ L), Hs; done).
  assert (i32 (nextpid k + 1) = nextpid k + 1) as Hi by (apply i32_small; lia).
  destruct r as [i|].
  - destruct Hr as (p & tf & pt & Hfind & Hp & Htf & Hpt & Hown & Htfs & Hnp & ->).
    split; [|simpl; lia].
    apply (pids_ok_update k _ i ((fresh_proc k p tf pt) <| lock := held_by (hartid k1) (lock (fresh_proc k p tf pt)) |>));
      [simpl; by rewrite Hp1|simpl; lia|done|]. right. simpl. lia.
  - destruct Hr as [[_ ->]|(i & p & q & Hfind & Hp & Hnp & -> & _)].
    + unfold same_table in Hs. rewrite Hs. simpl. split; [|lia].
      by apply (pids_ok_same k).
    + split; [|simpl; lia].
      apply (pids_ok_update k _ i (freed_proc q)); [simpl; by rewrite Hp1|simpl; lia|done|by left].
Qed.
End AllocFacts.

(** ** Theorems *)

(** C37: allocproc returns a slot that was UNUSED, now USED, locked by this hart,
    with a fresh trapframe page and a page table, and a process id no live
    process has; or null, when the table is full or memory runs out, having
    left every used slot as it was.  Process ids stay unique, as long as the
    32-bit counter does not overflow. *)
Theorem allocproc_correct {E} {PE : ProcEnv E} {EL : EnvLaws PE} (k : kst E) :
  kwf k -> locks_free (procs k) -> lk_free (pid_lock k) ->
  pids_ok k -> 0 < nextpid k < 2 ^ 31 - 1 ->
  exists r k', allocproc k = Ok (r, k') /\ pids_ok k' /\ nextpid k <= nextpid k' <= nextpid k + 1 /\
    match r with
    | Some i => exists p q, procs k !! i = Some p /\ state p = UNUSED /\
        procs k' !! i = Some q /\ state q = USED /\ pid q = nextpid k /\ mlfq_ok q /\
        lk_held (hartid k) (lock q) /\ pagetable q <> 0 /\
        trapframe_ptr q <> 0 /\ ~ owned (env k) (trapframe_ptr q) /\
        forall j, j <> i -> procs k' !! j = procs k !! j
    | None => locks_free (procs k') /\
        forall j p, procs k !! j = Some p -> state p <> UNUSED -> procs k' !! j = Some p
    end.
Proof.
  intros Hk Hl Hpl Hpids Hn. destruct (allocproc_quiet k Hk Hl Hpl) as (r & k' & H & Hpost).
  exists r, k'. split; [done|]. destruct (alloc_post_pids k r k' Hpids Hn Hpost) as [H1 H2].
  split; [done|]. split; [done|]. destruct Hpost as (ks & k1 & Hs & Hks & Hc & L & Hr).
  assert (procs k1 = procs k) as Hp1 by (rewrite (low_same_procs _ _ L), Hs; done).
  assert (hartid k1 = hartid k) as Hh1 by (rewrite (proj2 (low_same_cpu _ _ L)), Hs; done).
  destruct r as [i|].
  - destruct Hr as (p & tf & pt & Hfind & Hp & Htf & Hpt & Hown & Htfs & Hnp & ->).
    destruct (find_unused_spec _ _ Hfind) as (p' & Hp' & Hu). rewrite Hp in Hp'. simplify_eq.
    exists p', ((fresh_proc k p' tf pt) <| lock := held_by (hartid k1) (lock (fresh_proc k p' tf pt)) |>).
    split_and!; try done.
    + apply (lookup_klocked (I := quiet) _ _ _ p'). simpl. by rewrite Hp1.
    + rewrite <- Hh1. apply lk_held_held_by.
    + intros j Hne. simpl. rewrite list_lookup_insert_ne by done. by rewrite Hp1.
  - destruct Hr as [[_ ->]|(i & p & q & Hfind & Hp & Hnp & -> & Hlq & _)].
    + unfold same_table in Hs. rewrite Hs. done.
    + destruct (find_unused_spec _ _ Hfind) as (p' & Hp' & Hu). rewrite Hp in Hp'. simplify_eq.
      change (procs (kpass k1 i (freed_proc q))) with (<[i := freed_proc q]> (procs k1)). rewrite Hp1. split.
      * apply locks_free_insert; [done|]. change (lock (freed_proc q)) with (lock q).
        rewrite Hlq. by eapply Hl.
      * intros j p0 Hj Hs0. rewrite list_lookup_insert_ne; [done|]. intros <-. congruence.
Qed.

(** The table at boot with one process, on hart 0. *)
Definition life_demo : kst Z :=
  ((with_proc 0 (fun p => p <| state := RUNNING |> <| pid := 1 |>) (boot_kst 2147483648 0))
    <| mycpu := mkCpu (Some 0%nat) 0 false true |>) <| nextpid := 2 |>.
Lemma life_demo_running : running 0 life_demo.
Proof.
  assert (kwf (E := Z) (boot_kst 2147483648 0)) as Hb by (apply kwf_boot; unfold NCPU; lia).
  split; [|by apply (locks_free_with_proc (boot_kst 2147483648 0) 0); [apply locks_free_boot|]| | |unfold NPROC; lia];
    try reflexivity.
  destruct (kwf_with_proc _ 0 (fun p => p <| state := RUNNING |> <| pid := 1 |>) Hb). by split.
Qed.
Lemma life_demo_pids : pids_ok life_demo.
Proof.
  assert (forall i p, procs life_demo !! i = Some p -> state p <> UNUSED -> i = 0%nat /\ pid p = 1) as H.
  { intros i p Hp Hs. unfold life_demo in Hp. cbn -[boot_kst] in Hp. rewrite list_lookup_alter in Hp.
    destruct (decide (0%nat = i)) as [<-|].
    - simpl in Hp. by simplify_eq.
    - apply lookup_replicate in Hp as [-> _]. done. }
  split.
  - intros i p Hp Hs. destruct (H i p Hp Hs) as [_ ->]. simpl. lia.
  - intros i j p q Hne Hp Hq Hs1 Hs2. destruct (H i p Hp Hs1) as [-> _], (H j q Hq Hs2) as [-> _]. done.
Qed.

Lemma allocproc_correct_witness :
  exists r k', allocproc life_demo = Ok (r, k') /\ pids_ok k' /\ 2 <= nextpid k' <= 2 + 1 /\
    match r with
    | Some i => exists p q, procs life_demo !! i = Some p /\ state p = UNUSED /\
        procs k' !! i = Some q /\ state q = USED /\ pid q = 2 /\ mlfq_ok q /\
        lk_held 0 (lock q) /\ pagetable q <> 0 /\
        trapframe_ptr q <> 0 /\ ~ owned (env life_demo) (trapframe_ptr q) /\
        forall j, j <> i -> procs k' !! j = procs life_demo !! j
    | None => locks_free (procs k') /\
        forall j p, procs life_demo !! j = Some p -> state p <> UNUSED -> procs k' !! j = Some p
    end.
Proof.
  apply (allocproc_correct life_demo).
  - exact (run_kwf _ _ life_demo_running).
  - exact (run_free _ _ life_demo_running).
  - split; reflexivity.
  - exact life_demo_pids.
  - simpl. lia.
Defined.
