(* ===== verification/ProcWait.v ===== *)
(** * Waiting for children, killing and observing processes (kernel/proc.c)

    kwait reaps a zombie child and nothing else; kkill marks and wakes its
    target; ksys_stat counts the table. *)
From stdpp Require Import base list strings gmap.
From Stdlib Require Import ZArith Lia.
From S2P Require Import Prelude Spinlock KState SchedMLFQ Sched Riscv Proc ProcTable ProcSleep ProcLife.

#[local] Existing Instance quiet.

(** Process [me] runs and holds wait_lock and no other lock. *)
Record in_wait {E} (me : nat) (k : kst E) : Prop := {
  iw_kwf : kwf k;
  iw_free : locks_free (procs k);
  iw_lock : lk_held (hartid k) (wait_lock k);
  iw_noff : noff (mycpu k) = 1;
  iw_sie : sie (mycpu k) = false;
  iw_proc : cpu_proc (mycpu k) = Some me;
  iw_lt : (me < NPROC)%nat
}.

Section WaitLock.
Context {E : Type}.
Implicit Types (k : kst E).

Lemma acquire_wait_ok me k :
  running me k -> lk_free (wait_lock k) ->
  exists k', acquire_wait k = Ok (tt, k') /\ in_wait me k' /\ intena (mycpu k') = sie (mycpu k) /\
    k' = k <| mycpu := mycpu k' |> <| kclock := kclock k' |> <| wait_lock := wait_lock k' |>.
Proof.
  intros [H1 H2 H3 H4 H5] Hf. unfold acquire_wait. rewrite acquire_free by done. cbn [obind fst snd].
  eexists. split; [reflexivity|]. split.
  - destruct H1 as [A1 A2 A3 A4 A5 A6]. split; try done.
    + split; try done. apply (cpu_wf_push_off (mycpu k)). done.
    + change (noff (push_off (mycpu k)) = 1). rewrite noff_push_off. lia.
    + apply (sie_push_off (mycpu k)).
    + change (cpu_proc (push_off (mycpu k)) = Some me). by rewrite proc_push_off.
  - split; [|done]. change (intena (push_off (mycpu k)) = sie (mycpu k)).
    unfold push_off. simpl. by rewrite H3.
Qed.

Lemma release_wait_ok me k :
  in_wait me k ->
  exists k', release_wait k = Ok (tt, k') /\ running me k' /\ lk_free (wait_lock k') /\
    sie (mycpu k') = intena (mycpu k) /\
    k' = k <| mycpu := mycpu k' |> <| wait_lock := wait_lock k' |>.
Proof.
  intros [H1 H2 H3 H4 H5 H6 H7]. unfold release_wait. rewrite release_held by done.
  set (c := (mycpu k) <| noff := 0 |>).
  assert (pop_off (mycpu k) = Ok (if intena (mycpu k) then intr_on c else c)) as ->.
  { unfold pop_off, intr_get, c. rewrite H5, H4. simpl. change (1 <? 1) with false. cbv iota.
    change (1 - 1 =? 0) with true. simpl. by rewrite H4. }
  cbn [obind fst snd]. eexists. split; [reflexivity|]. split; [|split; [done|split; [|done]]].
  - destruct H1 as [A1 A2 A3 A4 A5 A6]. split; try done; [|by destruct (intena _)..].
    split; try done. simpl. destruct (intena (mycpu k)); split; simpl; lia.
  - simpl. destruct (intena (mycpu k)) eqn:Hi; simpl; [done|]. by rewrite H5.
Qed.

(** A visit to another entry while wait_lock is held. *)
Lemma in_wait_kpass me k i p :
  in_wait me k -> lk_free (lock p) -> in_wait me (kpass k i p).
Proof.
  intros [H1 H2 H3 H4 H5 H6 H7] Hf. assert (lockcycle (mycpu k) = mycpu k) as Hlc.
  { unfold lockcycle. by rewrite H4. }
  split; try done; try (rewrite lockcycle_kpass, Hlc; done); auto with kernel.
Qed.

Lemma in_wait_low me k k' : low_same k k' -> in_wait me k -> in_wait me k'.
Proof.
  intros L [H1 H2 H3 H4 H5 H6 H7]. pose proof (low_same_kwf _ _ L H1) as Hk.
  split; try done; rewrite L; done.
Qed.
End WaitLock.

(** ** kwait *)
Definition is_child (me : nat) (p : proc) : bool := bool_decide (parent p = Some me).
Definition is_zombie_child (me : nat) (p : proc) : bool :=
  is_child me p && bool_decide (state p = ZOMBIE).

Section Kwait.
Context {E : Type} {PE : ProcEnv E} {EL : EnvLaws PE}.
Implicit Types (k : kst E).

(** A pass over the table stops at the first zombie child. *)
Lemma kwait_scan_quiet l me addr hk k :
  Forall (fun i => (i < NPROC)%nat) l -> in_wait me k ->
  exists k1, same_table k k1 /\ in_wait me k1 /\ mycpu k1 = mycpu k /\
    kwait_scan l me addr hk k =
      match List.find (entry_is (is_zombie_child me) (procs k)) l with
      | None => Ok (inr (hk || existsb (entry_is (is_child me) (procs k)) l), k1)
      | Some i =>
          match procs k !! i with
          | Some p => (let* r := kwait_reap me addr i (p <| lock := held_by (hartid k1) (lock p) |>) in mret (inl r))
                        (klocked k1 i p)
          | None => UB
          end
      end.
Proof.
  intros HF. revert k hk. induction HF as [|i l Hi _ IH]; intros k hk Hw.
  { exists k. split; [apply same_table_refl|]. split; [done|]. split; [done|].
    simpl. by rewrite orb_false_r. }
  destruct (entry_free k i (iw_kwf _ _ Hw) (iw_free _ _ Hw) Hi) as (p & Hp & Hf). simpl in Hp.
  cbn [kwait_scan]. rewrite (mbind_Ok _ _ k p k) by (unfold read_proc; by rewrite Hp).
  cbn [List.find existsb]. unfold entry_is at 1 3. rewrite Hp. unfold is_zombie_child, is_child at 1 3.
  destruct (bool_decide (parent p = Some me)) eqn:Hpar; cbn [andb].
  - rewrite (locked_read k i p) by done. simpl. destruct (bool_decide (state p = ZOMBIE)) eqn:Hz.
    + exists k. split; [apply same_table_refl|]. split; [done|]. split; [done|]. by rewrite Hp.
    + rewrite (mbind_Ok _ _ _ _ _ (release_proc_klocked (I := quiet) k i p p Hp Hf (kwf_cpu _ (iw_kwf _ _ Hw)))).
      destruct (IH (kpass k i p) true) as (k1 & H1 & H2 & H3 & H4); [by apply in_wait_kpass|].
      exists k1. split; [by eapply same_table_trans; [apply same_table_kpass|]|]. split; [done|].
      split; [rewrite H3, lockcycle_kpass; unfold lockcycle; by rewrite (iw_noff _ _ Hw)|].
      rewrite H4. simpl. rewrite list_insert_id by done. by rewrite orb_true_r.
  - destruct (IH k hk Hw) as (k1 & H1 & H2 & H3 & H4). exists k1. by rewrite H4.
Qed.

(** The end of a successful or failed reap: release(&pp->lock);
    release(&wait_lock). *)
Lemma release_both me k i p q :
  in_wait me k -> procs k !! i = Some q -> lk_free (lock p) ->
  exists k', (release_proc i ;;; release_wait) (klocked k i p) = Ok (tt, k') /\ running me k' /\
    lk_free (wait_lock k') /\ procs k' = <[i := p]> (procs k) /\ sie (mycpu k') = intena (mycpu k).
Proof.
  intros Hw Hq Hf.
  rewrite (mbind_Ok _ _ _ _ _ (release_proc_klocked (I := quiet) k i p q Hq Hf (kwf_cpu _ (iw_kwf _ _ Hw)))).
  destruct (release_wait_ok me (kpass k i p)) as (k' & H1 & H2 & H3 & H4 & H5); [by apply in_wait_kpass|].
  exists k'. split; [done|]. split; [done|]. split; [done|]. split; [by rewrite H5|].
  rewrite H4, lockcycle_kpass. unfold lockcycle. by rewrite (iw_noff _ _ Hw).
Qed.

(** Reaping entry [i]: either the exit status could not be copied out and the
    table is as before, or the entry is free. *)
Lemma kwait_reap_ok me addr k i p h :
  in_wait me k -> procs k !! i = Some p -> lk_free (lock p) ->
  exists r k', kwait_reap me addr i (p <| lock := h |>) (klocked k i p) = Ok (r, k') /\
    running me k' /\ lk_free (wait_lock k') /\ sie (mycpu k') = intena (mycpu k) /\
    ((r = pid p /\ exists q, procs k' = <[i := freed_proc q]> (procs k) /\ parent q = None /\
        lock q = lock p /\ ofile q = ofile p) \/
     (r = -1 /\ addr <> 0 /\ procs k' = procs k)).
Proof.
  intros Hw Hp Hf. pose proof (lookup_lt_Some _ _ _ Hp) as Hlt. unfold kwait_reap.
  assert (exists pm, read_proc me (klocked k i p) = Ok (pm, klocked k i p)) as (pm & Hpm).
  { unfold read_proc. destruct (lookup_lt_is_Some_2 (procs (klocked k i p)) me) as [pm Hpm].
    - simpl. rewrite length_insert, (kwf_procs _ (iw_kwf _ _ Hw)). apply Hw.
    - exists pm. by rewrite Hpm. }
  rewrite (mbind_Ok _ _ _ _ _ Hpm).
  assert (exists bad k1, (if addr =? 0 then mret false else
      let* r := lift_env (env_copyout (pagetable pm) (sz pm) addr (int_bytes (xstate p))) in
      mret (r <? 0)) (klocked k i p) = Ok (bad, klocked k1 i p) /\ low_same k k1 /\
      (bad = true -> addr <> 0)) as (bad & k1 & Hb & L & Hbad).
  { destruct (Z.eqb_spec addr 0); [exists false, k; split_and!; auto with kernel|].
    env_step env_copyout_law as r k1 L1 N1 T1. by exists (r <? 0), k1. }
  rewrite (mbind_Ok _ _ _ _ _ Hb). pose proof (in_wait_low _ _ _ L Hw) as Hw1.
  pose proof (low_same_procs _ _ L) as Hpr.
  assert (procs k1 !! i = Some p) as Hp1 by (by rewrite Hpr).
  assert (mycpu k1 = mycpu k) as Hcpu by apply (low_same_cpu _ _ L).
  destruct bad.
  - destruct (release_both me k1 i p p Hw1 Hp1 Hf) as (k' & H1 & H2 & H3 & H4 & H5).
    exists (-1), k'. rewrite Hcpu in H5. split.
    { unfold mbind, obind in *. destruct (release_proc i (klocked k1 i p)) as [[[] ?]| | | |]; try done.
      simpl in *. by rewrite H1. }
    split_and!; try done. right. split; [done|]. split; [auto|].
    by rewrite H4, Hpr, list_insert_id.
  - kmodq Hp1. rewrite <- Hpr in Hlt.
    destruct (freeproc_klocked k1 i (p <| parent := None |>) Hlt) as (k2 & H2 & L2 & _).
    rewrite (mbind_Ok _ _ _ _ _ H2). pose proof (in_wait_low _ _ _ L2 Hw1) as Hw2.
    assert (procs k2 !! i = Some p) as Hp2 by (by rewrite (low_same_procs _ _ L2)).
    set (q := p <| parent := None |> <| trapframe_ptr := 0 |>) in *.
    destruct (release_both me k2 i (freed_proc q) p Hw2 Hp2) as (k' & H3 & H4 & H5 & H6 & H7); [done|].
    exists (pid p), k'. assert (mycpu k2 = mycpu k1) as Hcpu2 by apply (low_same_cpu _ _ L2).
    rewrite Hcpu2, Hcpu in H7. split.
    { unfold mbind, obind in *. destruct (release_proc i (klocked k2 i (freed_proc q))) as [[[] ?]| | | |]; try done.
      simpl in *. by rewrite H3. }
    split_and!; try done. left. split; [done|]. exists q.
    by rewrite H6, (low_same_procs _ _ L2), Hpr.
Qed.
End Kwait.

(** Kwait, when one of the caller's children is a zombie, returns the pid of
    the first such child in the table, whose slot is then free, or -1 if its
    exit status could not be copied to the caller, the zombie being kept; when
    the caller has no children, or none has exited and the caller has been
    killed, it returns -1.  All locks are released and no other slot changes. *)
Theorem kwait_correct {E} {PE : ProcEnv E} {EL : EnvLaws PE} {SW : Switch E} fuel addr me pm (k : kst E) :
  running me k -> lk_free (wait_lock k) -> procs k !! me = Some pm ->
  let zombie := List.find (entry_is (is_zombie_child me) (procs k)) (seq 0 NPROC) in
  let kids := existsb (entry_is (is_child me) (procs k)) (seq 0 NPROC) in
  zombie <> None \/ kids = false \/ killed pm <> 0 ->
  exists r k', kwait (S fuel) addr k = Ok (r, k') /\ running me k' /\ lk_free (wait_lock k') /\
    sie (mycpu k') = sie (mycpu k) /\
    match zombie with
    | Some i => exists p, procs k !! i = Some p /\ parent p = Some me /\ state p = ZOMBIE /\
        ((r = pid p /\ exists q, procs k' = <[i := q]> (procs k) /\ state q = UNUSED /\ pid q = 0 /\
            parent q = None /\ killed q = 0) \/
         (r = -1 /\ addr <> 0 /\ procs k' = procs k))
    | None => r = -1 /\ procs k' = procs k
    end.
Proof.
  intros Hr Hwl Hpm zombie kids Hcase. unfold kwait.
  rewrite (mbind_Ok _ _ _ _ _ (curproc_eq k me (kwf_cpu _ (run_kwf _ _ Hr)) (run_proc _ _ Hr))).
  pose proof (running_lockcycle me k Hr) as Hr1.
  destruct (acquire_wait_ok me _ Hr1 Hwl) as (k1 & H1 & Hw & Hint & Hk1).
  rewrite (mbind_Ok _ _ _ _ _ H1). assert (procs k1 = procs k) as Hp1 by (by rewrite Hk1).
  assert (intena (mycpu k1) = sie (mycpu k)) as Hint' by (rewrite Hint; apply lockcycle_sie).
  cbn [kwait_loop].
  destruct (kwait_scan_quiet (seq 0 NPROC) me addr false k1 seq_lt Hw) as (k2 & Hs & Hw2 & Hc & Hscan).
  assert (procs k2 = procs k) as Hp2 by (rewrite Hs; simpl; by rewrite Hp1).
  rewrite Hp1 in Hscan. fold zombie in Hscan. fold kids in Hscan.
  destruct zombie as [i|] eqn:Hz.
  - apply find_some in Hz as [_ Hz]. unfold entry_is in Hz. destruct (procs k !! i) as [p|] eqn:Hp; [|done].
    apply andb_true_iff in Hz as [Hch Hst]. apply bool_decide_eq_true in Hch, Hst.
    rewrite <- Hp2 in Hp. destruct (kwait_reap_ok me addr k2 i p (held_by (hartid k2) (lock p)) Hw2 Hp)
      as (r & k' & H2 & H3 & H4 & H5 & H6); [by eapply (iw_free _ _ Hw2)|].
    assert (kwait_scan (seq 0 NPROC) me addr false k1 = Ok (inl r, k')) as Hscan'.
    { rewrite Hscan. by rewrite (mbind_Ok _ _ _ _ _ H2). }
    rewrite (mbind_Ok _ _ _ _ _ Hscan'). exists r, k'. split; [done|]. split; [done|]. split; [done|].
    split; [congruence|]. exists p. rewrite <- Hp2. split_and!; try done.
    destruct H6 as [(-> & q & Hq & Hpar & _)|H6]; [left|by right]. split; [done|].
    exists (freed_proc q). by split_and!.
  - rewrite (mbind_Ok _ _ _ _ _ Hscan). cbn [orb].
    assert (exists k3, (if negb kids then mret true else let* kl := proc_killed me in mret (negb (kl =? 0))) k2 =
      Ok (true, k3) /\ in_wait me k3 /\ procs k3 = procs k /\ intena (mycpu k3) = intena (mycpu k2))
      as (k3 & H3 & Hw3 & Hp3 & Hi3).
    { destruct kids eqn:Hkids; cbn [negb]; [|by exists k2].
      destruct Hcase as [?|[?|Hkl]]; [done|done|].
      rewrite <- Hp2 in Hpm. pose proof (iw_free _ _ Hw2 _ _ Hpm) as Hf. unfold proc_killed.
      exists (kpass k2 me pm). split; [|split; [by apply in_wait_kpass|split]].
      - unfold mbind at 1. rewrite (locked_read k2 me pm) by done.
        rewrite (mbind_Ok _ _ _ _ _ (release_proc_klocked (I := quiet) k2 me pm pm Hpm Hf (kwf_cpu _ (iw_kwf _ _ Hw2)))).
        simpl. by destruct (Z.eqb_spec (killed pm) 0).
      - simpl. by rewrite list_insert_id.
      - rewrite lockcycle_kpass. unfold lockcycle. by rewrite (iw_noff _ _ Hw2). }
    rewrite (mbind_Ok _ _ _ _ _ H3).
    destruct (release_wait_ok me k3 Hw3) as (k4 & H4 & H5 & H6 & H7 & H8).
    rewrite (mbind_Ok _ _ _ _ _ H4). exists (-1), k4. split_and!; try done; [congruence|].
    rewrite H8. simpl. congruence.
Qed.

(** The running process 0 of [life_demo] with a zombie child in slot 2. *)
Definition zombie_demo : kst Z :=
  with_proc 2 (fun p => p <| state := ZOMBIE |> <| pid := 9 |> <| parent := Some 0%nat |>) life_demo.
Lemma zombie_demo_running : running 0 zombie_demo.
Proof.
  destruct life_demo_running as [H1 H2 H3 H4 H5]. split; try done.
  - apply (kwf_with_proc life_demo). done.
  - apply (locks_free_with_proc life_demo); done.
Qed.

Lemma kwait_correct_witness :
  exists r k', kwait (SW := solo_switch) 1 0 zombie_demo = Ok (r, k') /\ running 0 k' /\
    lk_free (wait_lock k') /\ sie (mycpu k') = sie (mycpu zombie_demo) /\
    exists p, procs zombie_demo !! 2%nat = Some p /\ parent p = Some 0%nat /\ state p = ZOMBIE /\
      ((r = pid p /\ exists q, procs k' = <[2%nat := q]> (procs zombie_demo) /\ state q = UNUSED /\
          pid q = 0 /\ parent q = None /\ killed q = 0) \/
       (r = -1 /\ 0 <> 0 /\ procs k' = procs zombie_demo)).
Proof.
  apply (kwait_correct (SW := solo_switch) 0 0 0
    (zero_proc <| state := RUNNING |> <| pid := 1 |>) zombie_demo zombie_demo_running).
  - split; reflexivity.
  - reflexivity.
  - left. vm_compute. discriminate.
Defined.

(** ** kkill *)
Section Kkill.
Context {E : Type}.
Implicit Types (k : kst E).

Lemma kill_proc_lock k p : lock (kill_proc k p) = lock p.
Proof. unfold kill_proc. by destruct (make_runnable_fields k (p <| killed := 1 |>)) as (-> & _). Qed.

Lemma kkill_quiet k id :
  kwf k -> locks_free (procs k) ->
  exists k1, same_table k k1 /\ kwf k1 /\
    kkill id k =
      match List.find (entry_is (fun p => pid p =? id) (procs k)) (seq 0 NPROC) with
      | None => Ok (-1, k1)
      | Some i =>
          match procs k !! i with
          | Some p => Ok (0, kpass k1 i (kill_proc k p))
          | None => UB
          end
      end.
Proof.
  intros Hk Hl. unfold kkill.
  assert (forall k' i p, glob_same k k' -> cpu_wf (mycpu k') -> procs k' !! i = Some p ->
    lk_free (lock p) -> kkill_scan id i k' =
      if pid p =? id then Ok (Some 0, kpass k' i (kill_proc k p)) else Ok (None, kpass k' i p)) as Hb.
  { intros k' i p Hg Hc Hp Hf. rewrite (kkill_scan_eq (I := quiet) k' id i p Hc Hp Hf). destruct (pid p =? id); [|done].
    do 3 f_equal. unfold kill_proc, make_runnable.
    by rewrite (glob_same_active _ _ Hg), (glob_same_ticks _ _ Hg). }
  assert (forall k1 i p r (k' : kst E), Ok (Some 0, kpass k1 i (kill_proc k p)) = Ok (r, k') -> r <> None) as HD.
  { intros k1 i p r k' H. apply Ok_pair_inj in H as [<- _]. done. }
  destruct (search_quiet k (fun p => pid p =? id) (kkill_scan id)
    (fun k' i p => Ok (Some 0, kpass k' i (kill_proc k p))) Hb HD (seq 0 NPROC) k
    seq_lt (glob_same_refl k) Hk Hl) as (k1 & Hs & Hk1 & _ & Hloop).
  exists k1. split; [done|]. split; [done|].
  destruct (List.find _ _) as [i|].
  - destruct (procs k !! i) as [p|]; [by rewrite (mbind_Ok _ _ _ _ _ Hloop)|].
    unfold mbind. by rewrite Hloop.
  - by rewrite (mbind_Ok _ _ _ _ _ Hloop).
Qed.
End Kkill.

(** kkill(pid) marks the first entry with that pid as killed, makes it
    RUNNABLE if it was SLEEPING and leaves its state alone otherwise, touches no
    other entry, and returns 0; if no entry has that pid it returns -1 and
    changes nothing of the table. *)
Theorem kkill_correct {E} id (k : kst E) :
  kwf k -> locks_free (procs k) ->
  exists r k', kkill id k = Ok (r, k') /\ locks_free (procs k') /\ kwf k' /\
    match List.find (entry_is (fun p => pid p =? id) (procs k)) (seq 0 NPROC) with
    | Some i => r = 0 /\ exists p q, procs k !! i = Some p /\ procs k' = <[i := q]> (procs k) /\
        pid q = id /\ killed q = 1 /\ chan q = chan p /\ parent q = parent p /\
        state q = (if decide (state p = SLEEPING) then RUNNABLE else state p)
    | None => r = -1 /\ procs k' = procs k /\ forall i p, procs k !! i = Some p -> pid p <> id
    end.
Proof.
  intros Hk Hl. destruct (kkill_quiet k id Hk Hl) as (k1 & Hs & Hk1 & Hq).
  assert (procs k1 = procs k) as Hp1 by (by rewrite Hs).
  destruct (List.find _ _) as [i|] eqn:Hfind.
  - apply find_some in Hfind as [_ Hfind]. unfold entry_is in Hfind.
    destruct (procs k !! i) as [p|] eqn:Hp; [|done]. apply Z.eqb_eq in Hfind.
    exists 0, (kpass k1 i (kill_proc k p)). split; [done|].
    split; [apply locks_free_kpass; [by rewrite Hp1|rewrite kill_proc_lock; eauto]|].
    split; [auto with kernel|]. split; [done|]. exists p, (kill_proc k p). split; [done|].
    split; [simpl; by rewrite Hp1|]. unfold kill_proc.
    destruct (make_runnable_fields k (p <| killed := 1 |>)) as (_ & -> & -> & -> & -> & ->).
    simpl. rewrite bool_decide_decide. split_and!; try done. by destruct (decide _).
  - exists (-1), k1. split; [done|]. rewrite Hp1. split; [done|]. split; [done|]. split; [done|].
    split; [done|]. intros i p Hp <-.
    pose proof (find_none _ _ Hfind i) as Hn. unfold entry_is in Hn. rewrite Hp, Z.eqb_refl in Hn.
    assert (true = false); [|done]. apply Hn. apply in_seq. apply lookup_lt_Some in Hp.
    rewrite (kwf_procs _ Hk) in Hp. lia.
Qed.

Lemma kkill_correct_witness :
  exists r k', kkill 7 run_demo = Ok (r, k') /\ locks_free (procs k') /\ kwf k' /\
    match List.find (entry_is (fun p => pid p =? 7) (procs run_demo)) (seq 0 NPROC) with
    | Some i => r = 0 /\ exists p q, procs run_demo !! i = Some p /\ procs k' = <[i := q]> (procs run_demo) /\
        pid q = 7 /\ killed q = 1 /\ chan q = chan p /\ parent q = parent p /\
        state q = (if decide (state p = SLEEPING) then RUNNABLE else state p)
    | None => r = -1 /\ procs k' = procs run_demo /\ forall i p, procs run_demo !! i = Some p -> pid p <> 7
    end.
Proof.
  exact (kkill_correct 7 run_demo (run_kwf _ _ run_demo_running) (run_free _ _ run_demo_running)).
Defined.

(** Free slots have pid 0, and kkill does not look at the state: kill(0)
    succeeds and marks the first free slot as killed; allocproc then hands out
    that slot with the mark still set, so that the next process forked is born
    killed. *)
Theorem kkill_zero_poisons_slot {E} {PE : ProcEnv E} {EL : EnvLaws PE} i p (k : kst E) :
  kwf k -> locks_free (procs k) -> lk_free (pid_lock k) ->
  List.find (entry_is (fun p => pid p =? 0) (procs k)) (seq 0 NPROC) = Some i ->
  List.find (entry_is unused (procs k)) (seq 0 NPROC) = Some i -> procs k !! i = Some p ->
  exists k1, kkill 0 k = Ok (0, k1) /\
    exists r k2, allocproc k1 = Ok (r, k2) /\
      match r with
      | Some j => j = i /\ exists q, procs k2 !! i = Some q /\ state q = USED /\ killed q = 1
      | None => True
      end.
Proof.
  intros Hk Hl Hpl Hz Hu Hp. destruct (kkill_quiet k 0 Hk Hl) as (k0 & Hs & Hk0 & Hq).
  assert (procs k0 = procs k) as Hp0 by (by rewrite Hs).
  rewrite Hz, Hp in Hq. exists (kpass k0 i (kill_proc k p)). split; [done|].
  destruct (find_unused_spec _ _ Hu) as (p' & Hp' & Hst). assert (p' = p) as -> by congruence.
  assert (kill_proc k p = p <| killed := 1 |>) as Hkp.
  { unfold kill_proc, make_runnable. simpl. rewrite bool_decide_eq_false_2; [done|]. by rewrite Hst. }
  destruct (allocproc_quiet (kpass k0 i (kill_proc k p))) as (r & k2 & H1 & ks & k3 & Hs3 & _ & _ & L & Hr).
  - auto with kernel.
  - apply locks_free_kpass; [by rewrite Hp0|]. rewrite kill_proc_lock. eauto.
  - by rewrite Hs.
  - exists r, k2. split; [done|]. destruct r as [j|]; [|done].
    destruct Hr as (p2 & tf & pt & Hfind & Hp2 & _ & _ & _ & _ & _ & ->).
    assert (procs (kpass k0 i (kill_proc k p)) = <[i := p <| killed := 1 |>]> (procs k)) as Hpp.
    { simpl. rewrite Hp0. by rewrite Hkp. }
    rewrite Hpp in Hfind, Hp2.
    assert (forall n, entry_is unused (<[i := p <| killed := 1 |>]> (procs k)) n = entry_is unused (procs k) n) as Hun.
    { intros n. unfold entry_is. destruct (decide (i = n)) as [<-|Hne].
      - rewrite list_lookup_insert_eq by (by eapply lookup_lt_Some). by rewrite Hp.
      - by rewrite list_lookup_insert_ne. }
    assert (j = i) as ->.
    { rewrite (find_ext _ _ _ Hun) in Hfind. congruence. }
    rewrite list_lookup_insert_eq in Hp2 by (by eapply lookup_lt_Some).
    injection Hp2 as <-. split; [done|].
    eexists. split; [apply (lookup_klocked (I := quiet) _ _ _ (p <| killed := 1 |>))|done].
    simpl. rewrite (low_same_procs _ _ L), Hs3. simpl. rewrite Hkp.
    apply list_lookup_insert_eq. rewrite Hp0. by eapply lookup_lt_Some.
Qed.

Lemma kkill_zero_poisons_slot_witness :
  exists k1, kkill 0 life_demo = Ok (0, k1) /\
    exists r k2, allocproc k1 = Ok (r, k2) /\
      match r with
      | Some j => j = 1%nat /\ exists q, procs k2 !! 1%nat = Some q /\ state q = USED /\ killed q = 1
      | None => True
      end.
Proof.
  apply (kkill_zero_poisons_slot 1 zero_proc life_demo (run_kwf _ _ life_demo_running)
    (run_free _ _ life_demo_running)); [split; reflexivity|vm_compute; reflexivity..].
Defined.

(** ** ksys_stat *)
Definition in_state (s : procstate) (p : proc) : bool := bool_decide (state p = s).
Definition count (f : proc -> bool) (t : list proc) : Z := Z.of_nat (length (List.filter f t)).
Definition total_of (f : proc -> Z) (t : list proc) : Z :=
  fold_right (fun p n => (if unused p then 0 else f p) + n) 0 t.

Lemma count_cons f p t : count f (p :: t) = (if f p then 1 else 0) + count f t.
Proof. unfold count. simpl. destruct (f p); simpl; lia. Qed.

Lemma fold_indices {A} (g : proc -> A -> A) (t pre : list proc) a :
  fold_left (fun a i => match (pre ++ t) !! i with Some p => g p a | None => a end)
    (seq (length pre) (length t)) a = fold_left (fun a p => g p a) t a.
Proof.
  revert pre a. induction t as [|p t IH]; intros pre a; [done|]. cbn [length seq fold_left].
  rewrite list_lookup_middle by done.
  specialize (IH (pre ++ [p]) (g p a)). rewrite length_app, Nat.add_1_r, <- app_assoc in IH. exact IH.
Qed.

Definition stat_counts (st : sched_stat) : list Z :=
  [process_count st; runnable_count st; running_count st; sleeping_count st; zombie_count st].

Definition counted : list (proc -> bool) :=
  [fun p => negb (unused p); in_state RUNNABLE; in_state RUNNING; in_state SLEEPING; in_state ZOMBIE].

Lemma stat_add_counts p st :
  Forall (fun n => 0 <= n < 2 ^ 31 - 1) (stat_counts st) ->
  stat_counts (stat_add p st) = zip_with (fun n (f : proc -> bool) => n + (if f p then 1 else 0)) (stat_counts st) counted.
Proof.
  intros HF. unfold stat_counts in HF.
  apply Forall_cons in HF as [H1 HF]. apply Forall_cons in HF as [H2 HF]. apply Forall_cons in HF as [H3 HF].
  apply Forall_cons in HF as [H4 HF]. apply Forall_cons in HF as [H5 _].
  unfold stat_add, stat_counts, counted, in_state, unused. simpl.
  destruct (state p); simpl; rewrite ?Z.add_0_r, ?i32_small by lia; done.
Qed.

Lemma stat_fold_counts t st :
  Forall (fun n => 0 <= n /\ n + Z.of_nat (length t) < 2 ^ 31 - 1) (stat_counts st) ->
  stat_counts (fold_left (fun a p => stat_add p a) t st) =
    zip_with (fun n (f : proc -> bool) => n + count f t) (stat_counts st) counted.
Proof.
  revert st. induction t as [|p t IH]; intros st HF.
  - unfold stat_counts, counted, count. simpl. by rewrite !Z.add_0_r.
  - cbn [fold_left]. assert (Forall (fun n => 0 <= n < 2 ^ 31 - 1) (stat_counts st)) as HF1.
    { eapply Forall_impl; [exact HF|]. simpl. intros n. lia. }
    pose proof (stat_add_counts p st HF1) as Hadd. rewrite IH.
    + rewrite Hadd. unfold stat_counts, counted. simpl. rewrite !count_cons. by do 5 (apply (f_equal2 cons); [lia|]).
    + rewrite Hadd. unfold stat_counts in HF |- *. unfold counted. simpl in *.
      repeat match goal with H : Forall _ (_ :: _) |- _ => apply Forall_cons in H as [? H] end.
      repeat (apply Forall_cons; split); [..|constructor];
        match goal with |- 0 <= _ + (if ?b then 1 else 0) /\ _ => destruct b; lia end.
Qed.

Lemma stat_fold_sum t st (sel : sched_stat -> Z) (f : proc -> Z) :
  (forall p st, sel (stat_add p st) = if unused p then sel st else u64 (sel st + f p)) ->
  0 <= sel st < 2 ^ 64 ->
  sel (fold_left (fun a p => stat_add p a) t st) = u64 (sel st + total_of f t).
Proof.
  intros Hs. revert st. induction t as [|p t IH]; intros st Hr.
  - unfold total_of. simpl. rewrite Z.add_0_r. by rewrite u64_small.
  - cbn [fold_left]. unfold total_of. cbn [fold_right]. fold (total_of f t).
    rewrite IH; rewrite Hs; destruct (unused p); try done; [|apply u64_range].
    unfold u64. rewrite Z.add_mod_idemp_l by lia. f_equal. lia.
Qed.

Lemma stat_fold_policy t st :
  current_policy (fold_left (fun a p => stat_add p a) t st) = current_policy st.
Proof.
  revert st. induction t as [|p t IH]; intros st; [done|]. cbn [fold_left]. rewrite IH.
  unfold stat_add. by destruct (state p).
Qed.

Lemma ksys_stat_scan_quiet {E} (k : kst E) l st :
  Forall (fun i => (i < NPROC)%nat) l -> kwf k -> locks_free (procs k) ->
  exists k1, same_table k k1 /\
    for_fold l ksys_stat_scan st k =
      Ok (fold_left (fun a i => match procs k !! i with Some p => stat_add p a | None => a end) l st, k1).
Proof.
  intros HF. revert k st. induction HF as [|i l Hi _ IH]; intros k st Hk Hl.
  { exists k. split; [apply same_table_refl|done]. }
  destruct (entry_free k i Hk Hl Hi) as (p & Hp & Hf). simpl in Hp.
  assert (ksys_stat_scan i st k = Ok (stat_add p st, kpass k i p)) as Hb.
  { unfold ksys_stat_scan. rewrite (locked_read k i p) by done. cbv zeta.
    rewrite (mbind_Ok _ _ _ _ _ (release_proc_klocked (I := quiet) k i p p Hp Hf (kwf_cpu _ Hk))). done. }
  cbn [for_fold fold_left]. rewrite (mbind_Ok _ _ _ _ _ Hb), Hp.
  destruct (IH (kpass k i p) (stat_add p st)) as (k1 & H1 & H2); auto with kernel.
  exists k1. split; [by eapply same_table_trans; [apply same_table_kpass|]|].
  rewrite H2. simpl. by rewrite list_insert_id.
Qed.

(** Ksys_stat reports the current policy, the exact number of used,
    RUNNABLE, RUNNING, SLEEPING and ZOMBIE entries, and the totals of the
    per-process counters over the used entries, modulo 2^64; it leaves the table
    as it was. *)
Theorem ksys_stat_correct {E} (k : kst E) :
  kwf k -> locks_free (procs k) ->
  exists st k', ksys_stat k = Ok (st, k') /\ same_table k k' /\
    current_policy st = current_sched_policy k /\
    process_count st = count (fun p => negb (unused p)) (procs k) /\
    runnable_count st = count (in_state RUNNABLE) (procs k) /\
    running_count st = count (in_state RUNNING) (procs k) /\
    sleeping_count st = count (in_state SLEEPING) (procs k) /\
    zombie_count st = count (in_state ZOMBIE) (procs k) /\
    total_run_time st = u64 (total_of run_time (procs k)) /\
    st_total_ready_time st = u64 (total_of total_ready_time (procs k)) /\
    total_schedule_count st = u64 (total_of schedule_count (procs k)).
Proof.
  intros Hk Hl. unfold ksys_stat, sched_policy_current, mreads, mbind at 1, obind. cbn [fst snd].
  set (st0 := zero_stat <| current_policy := current_sched_policy k |>).
  destruct (ksys_stat_scan_quiet k (seq 0 NPROC) st0 seq_lt Hk Hl) as (k1 & Hs & ->).
  eexists _, k1. split; [reflexivity|]. split; [done|].
  pose proof (fold_indices stat_add (procs k) [] st0) as Hfold. simpl in Hfold.
  rewrite (kwf_procs _ Hk) in Hfold. rewrite Hfold.
  assert (Forall (fun n => 0 <= n /\ n + Z.of_nat (length (procs k)) < 2 ^ 31 - 1) (stat_counts st0)) as HF.
  { rewrite (kwf_procs _ Hk). unfold NPROC. repeat (apply Forall_cons; split); [simpl; lia..|constructor]. }
  pose proof (stat_fold_counts (procs k) st0 HF) as Hc. unfold stat_counts, counted in Hc. simpl in Hc.
  injection Hc as -> -> -> -> ->. rewrite !Z.add_0_l. split_and!; try done.
  - by rewrite stat_fold_policy.
  - rewrite (stat_fold_sum _ _ total_run_time run_time); [done| |simpl; lia].
    intros p st. unfold stat_add, unused. destruct (state p); done.
  - rewrite (stat_fold_sum _ _ st_total_ready_time total_ready_time); [done| |simpl; lia].
    intros p st. unfold stat_add, unused. destruct (state p); done.
  - rewrite (stat_fold_sum _ _ total_schedule_count schedule_count); [done| |simpl; lia].
    intros p st. unfold stat_add, unused. destruct (state p); done.
Qed.

Lemma ksys_stat_correct_witness :
  exists st k', ksys_stat zombie_demo = Ok (st, k') /\ same_table zombie_demo k' /\
    current_policy st = current_sched_policy zombie_demo /\
    process_count st = count (fun p => negb (unused p)) (procs zombie_demo) /\
    runnable_count st = count (in_state RUNNABLE) (procs zombie_demo) /\
    running_count st = count (in_state RUNNING) (procs zombie_demo) /\
    sleeping_count st = count (in_state SLEEPING) (procs zombie_demo) /\
    zombie_count st = count (in_state ZOMBIE) (procs zombie_demo) /\
    total_run_time st = u64 (total_of run_time (procs zombie_demo)) /\
    st_total_ready_time st = u64 (total_of total_ready_time (procs zombie_demo)) /\
    total_schedule_count st = u64 (total_of schedule_count (procs zombie_demo)).
Proof.
  exact (ksys_stat_correct zombie_demo (run_kwf _ _ zombie_demo_running) (run_free _ _ zombie_demo_running)).
Defined.
