(* ===== verification/ProcExit.v ===== *)
(** * Exit (kernel/proc.c)

    kexit closes the process's files, gives its children to init, wakes its
    parent and leaves a zombie, handed over to the scheduler with only its own
    lock held. *)
From stdpp Require Import base list strings gmap.
From Stdlib Require Import ZArith Lia.
From S2P Require Import Prelude Spinlock KState SchedMLFQ Sched Riscv Proc ProcTable ProcSleep ProcLife ProcWait.

#[local] Existing Instance quiet.

(** What a wakeup on one of the channels [cs] may do to an entry that is
    otherwise left alone. *)
Definition woken (c : option waitchan) (p q : proc) : Prop :=
  (chan q = chan p /\ state q = state p) \/
  (chan p = c /\ chan q = None /\ state q = (if decide (state p = SLEEPING) then RUNNABLE else state p)).
Record survives (c : option waitchan) (p q : proc) : Prop := {
  sv_pid : pid q = pid p;
  sv_lock : lock q = lock p;
  sv_killed : killed q = killed p;
  sv_ofile : ofile q = ofile p;
  sv_cwd : cwd q = cwd p;
  sv_woken : woken c p q
}.

Lemma survives_refl c p : survives c p p.
Proof. split; try done. by left. Qed.

Lemma survives_trans (c : waitchan) p q r :
  survives (Some c) p q -> survives (Some c) q r -> survives (Some c) p r.
Proof.
  intros [P1 L1 K1 O1 D1 W1] [P2 L2 K2 O2 D2 W2]. split; try congruence.
  destruct W1 as [[C1 S1]|(C1 & C1' & S1)], W2 as [[C2 S2]|(C2 & C2' & S2)].
  - left. split; congruence.
  - right. split_and!; try congruence. by rewrite S2, S1.
  - right. split_and!; congruence.
  - congruence.
Qed.

Lemma wake_survives {E} (k : kst E) c p :
  survives c p (wake_proc k c p) /\ parent (wake_proc k c p) = parent p /\
  (chan p = c -> c <> None -> chan (wake_proc k c p) = None /\ state (wake_proc k c p) <> SLEEPING).
Proof.
  unfold wake_proc. case_bool_decide as Hc.
  - destruct (make_runnable_fields k (p <| chan := None |>)) as (F1 & F2 & F3 & F4 & F5 & F6).
    assert (forall q, ofile (make_runnable k q) = ofile q /\ cwd (make_runnable k q) = cwd q) as HF.
    { intros q. unfold make_runnable. destruct (bool_decide (state q = SLEEPING)); [|done].
      set (q' := ready_proc _ _). pose proof (hook_wakeup_frame (active_ptr k) (ticks k) q') as [Hq _].
      rewrite Hq. done. }
    simpl in *. rewrite bool_decide_decide in F6. split; [|split; [done|]].
    + destruct (HF (p <| chan := None |>)) as [HF1 HF2]. split; try done. right. split_and!; try done. rewrite F6. by destruct (decide _).
    + intros _ _. split; [done|]. rewrite F6. by destruct (decide (state p = SLEEPING)).
  - split; [apply survives_refl|]. done.
Qed.

Section Exit.
Context {E : Type} {PE : ProcEnv E} {EL : EnvLaws PE}.
Implicit Types (k : kst E).

Lemma in_wait_wakeup me k c :
  in_wait me k ->
  exists k', wakeup c k = Ok (tt, k') /\ in_wait me k' /\ glob_same k k' /\ mycpu k' = mycpu k /\
    procs k' = wake_proc k c <$> procs k.
Proof.
  intros Hw. destruct (wakeup_quiet k c (iw_kwf _ _ Hw) (iw_free _ _ Hw)) as (k' & H1 & H2 & H3 & H4 & H5 & H6).
  assert (mycpu k' = mycpu k) as Hc. { rewrite H5. unfold lockcycle. by rewrite (iw_noff _ _ Hw). }
  exists k'. split; [done|]. split; [|done].
  destruct Hw as [A1 A2 A3 A4 A5 A6 A7]. split; try done; rewrite ?Hc; try done. by rewrite H2.
Qed.

Lemma in_wait_insert me k i p q :
  in_wait me k -> procs k !! i = Some p -> lock q = lock p ->
  in_wait me (k <| procs := <[i := q]> (procs k) |>).
Proof.
  intros [[B1 B2 B3 B4 B5 B6] A2 A3 A4 A5 A6 A7] Hp Hl. split; try done.
  - split; try done. simpl. by rewrite length_insert.
  - simpl. apply locks_free_insert; [done|]. rewrite Hl. by eapply A2.
Qed.

Lemma reparent_one_ok me ip i k :
  in_wait me k -> initproc k = Some ip -> (i < NPROC)%nat ->
  exists k', reparent_one me i k = Ok (tt, k') /\ in_wait me k' /\ glob_same k k' /\ mycpu k' = mycpu k /\
    forall j p, procs k !! j = Some p -> exists q, procs k' !! j = Some q /\
      survives (Some (ChProc ip)) p q /\
      parent q = if decide (j = i /\ parent p = Some me) then Some ip else parent p.
Proof.
  intros Hw Hi Hlt.
  destruct (entry_free k i (iw_kwf _ _ Hw) (iw_free _ _ Hw) Hlt) as (p0 & Hp0 & Hf). simpl in Hp0.
  unfold reparent_one. rewrite (mbind_Ok _ _ k p0 k) by (unfold read_proc; by rewrite Hp0).
  case_bool_decide as Hpar.
  - unfold mreads, mbind at 1, obind at 1. cbn [fst snd]. rewrite Hi.
    set (k1 := k <| procs := <[i := p0 <| parent := Some ip |>]> (procs k) |>).
    rewrite (mbind_Ok _ _ k tt k1) by (unfold modify_proc; by rewrite Hp0).
    destruct (in_wait_wakeup me k1 (Some (ChProc ip))) as (k' & H1 & H2 & H3 & H4 & H5).
    { by apply (in_wait_insert me k i p0). }
    exists k'. split; [done|]. split; [done|]. split; [rewrite H3; done|]. split; [done|].
    intros j p Hp. rewrite H5, list_lookup_fmap.
    assert (exists p1, procs k1 !! j = Some p1 /\ survives (Some (ChProc ip)) p p1 /\
      parent p1 = if decide (j = i /\ parent p = Some me) then Some ip else parent p) as (p1 & Hp1 & Hs1 & Hpar1).
    { simpl. destruct (decide (i = j)) as [<-|Hne].
      - rewrite list_lookup_insert_eq by (by eapply lookup_lt_Some). eexists. split; [reflexivity|].
        rewrite Hp in Hp0. injection Hp0 as ->. rewrite decide_True by done.
        split; [|done]. split; try done. by left.
      - rewrite list_lookup_insert_ne by done. exists p. split; [done|]. split; [apply survives_refl|].
        rewrite decide_False; [done|]. by intros [-> _]. }
    destruct (wake_survives k1 (Some (ChProc ip)) p1) as (Hs2 & Hpar2 & _).
    exists (wake_proc k1 (Some (ChProc ip)) p1). rewrite Hp1. split; [done|].
    split; [by eapply survives_trans|]. congruence.
  - exists k. split; [done|]. split; [done|]. split; [apply glob_same_refl|]. split; [done|].
    intros j p Hp. exists p. split; [done|]. split; [apply survives_refl|].
    rewrite decide_False; [done|]. intros [-> Hpp]. congruence.
Qed.

(** The loop of reparent over the entries [l]. *)
Lemma reparent_loop me ip l k :
  Forall (fun i => (i < NPROC)%nat) l -> in_wait me k -> initproc k = Some ip -> ip <> me ->
  exists k', for_each l (reparent_one me) k = Ok (tt, k') /\
    in_wait me k' /\ glob_same k k' /\ mycpu k' = mycpu k /\
    forall i p, procs k !! i = Some p -> exists q, procs k' !! i = Some q /\
      survives (Some (ChProc ip)) p q /\
      parent q = if decide (i ∈ l /\ parent p = Some me) then Some ip else parent p.
Proof.
  intros HF Hw Hi Hne. revert k Hw Hi. induction HF as [|i l Hlt _ IH]; intros k Hw Hi.
  { exists k. split; [done|]. split; [done|]. split; [apply glob_same_refl|]. split; [done|].
    intros i p Hp. exists p. split; [done|]. split; [apply survives_refl|].
    rewrite decide_False; [done|]. intros [H _]. by apply elem_of_nil in H. }
  destruct (reparent_one_ok me ip i k Hw Hi Hlt) as (k1 & H1 & H2 & H3 & H4 & H5).
  cbn [for_each]. rewrite (mbind_Ok _ _ _ _ _ H1).
  destruct (IH k1 H2) as (k' & G1 & G2 & G3 & G4 & G5); [by rewrite H3|].
  exists k'. split; [done|]. split; [done|]. split; [by eapply glob_same_trans|]. split; [congruence|].
  intros j p Hp. destruct (H5 j p Hp) as (q & Hq & Hs & Hpq). destruct (G5 j q Hq) as (r & Hr & Hs' & Hpr).
  exists r. split; [done|]. split; [by eapply survives_trans|]. rewrite Hpr, Hpq.
  destruct (decide (j = i /\ parent p = Some me)) as [[-> Hpm]|Hn].
  - rewrite decide_False by naive_solver. rewrite decide_True; [done|]. split; [by left|done].
  - destruct (decide (j ∈ l /\ parent p = Some me)) as [[Hjl Hpm]|Hn'].
    + rewrite decide_True; [done|]. split; [by right|done].
    + rewrite decide_False; [done|]. intros [[->|Hjl]%elem_of_cons Hpm]; naive_solver.
Qed.

(** Closing the files: every slot of the file table ends up empty. *)
Lemma kexit_files_loop me l k p :
  procs k !! me = Some p ->
  exists e', for_each l (fun fd =>
      let* p := read_proc me in
      let f := ofile p !!! fd in
      if f =? 0 then mret tt
      else
        lift_env (env_fileclose f) ;;;
        modify_proc me (fun p => p <| ofile ::= <[fd := 0]> |>)) k =
    Ok (tt, k <| env := e' |> <| procs := <[me := p <| ofile := fold_left (fun o fd => <[fd := 0]> o) l (ofile p) |>]> (procs k) |>).
Proof.
  revert k p. induction l as [|fd l IH]; intros k p Hp.
  { exists (env k). simpl. unfold mret. rewrite list_insert_id; [by destruct k|]. rewrite Hp. by destruct p. }
  cbn [for_each fold_left]. set (body := fun fd : nat => _) in *.
  assert (exists e1, body fd k = Ok (tt, k <| env := e1 |> <| procs := <[me := p <| ofile := <[fd := 0]> (ofile p) |>]> (procs k) |>))
    as (e1 & H1).
  { unfold body. rewrite (mbind_Ok _ _ k p k) by (unfold read_proc; by rewrite Hp).
    destruct (Z.eqb_spec (ofile p !!! fd) 0) as [Hz|Hz].
    - exists (env k). unfold mret. assert (<[fd := 0]> (ofile p) = ofile p) as ->.
      { destruct (decide (fd < length (ofile p))%nat) as [Hlt|Hge].
        - apply list_insert_id. destruct (lookup_lt_is_Some_2 _ _ Hlt) as [v Hv].
          rewrite (list_lookup_total_correct _ _ _ Hv) in Hz. congruence.
        - apply list_insert_ge. lia. }
      rewrite list_insert_id; [by destruct k|]. rewrite Hp. by destruct p.
    - destruct (env_fileclose_law (ofile p !!! fd) (env k)) as ([] & e1 & He). exists e1.
      unfold lift_env, mbind, obind. rewrite He. cbn [fst snd]. unfold modify_proc. simpl. by rewrite Hp. }
  rewrite (mbind_Ok _ _ _ _ _ H1).
  edestruct (IH (k <| env := e1 |> <| procs := <[me := p <| ofile := <[fd := 0]> (ofile p) |>]> (procs k) |>))
    as (e2 & H2).
  { simpl. apply list_lookup_insert_eq. by eapply lookup_lt_Some. }
  exists e2. rewrite H2. simpl. by rewrite list_insert_insert_eq.
Qed.

Lemma clear_files (o : list Z) : length o = NOFILE ->
  fold_left (fun o fd => <[fd := 0]> o) (seq 0 NOFILE) o = replicate NOFILE 0.
Proof.
  intros H. do 16 (destruct o as [|? o]; [discriminate|]). destruct o; [|discriminate]. reflexivity.
Qed.

Lemma running_insert me k i p q :
  running me k -> procs k !! i = Some p -> lock q = lock p ->
  running me (k <| procs := <[i := q]> (procs k) |>).
Proof.
  intros [[B1 B2 B3 B4 B5 B6] A2 A3 A4 A5] Hp Hl. split; try done.
  - split; try done. simpl. by rewrite length_insert.
  - simpl. apply locks_free_insert; [done|]. rewrite Hl. by eapply A2.
Qed.

(** The first part of kexit: files and directory are let go of. *)
Lemma kexit_close_ok {A} me k p (K : M (kst E) A) :
  running me k -> procs k !! me = Some p -> length (ofile p) = NOFILE ->
  exists e', (kexit_files me ;;;
     lift_env env_begin_op ;;;
     let* p := read_proc me in
     lift_env (env_iput (cwd p)) ;;;
     lift_env env_end_op ;;;
     modify_proc me (fun p => p <| cwd := 0 |>) ;;; K) k =
    K (k <| env := e' |> <| procs := <[me := p <| ofile := replicate NOFILE 0 |> <| cwd := 0 |>]> (procs k) |>).
Proof.
  intros Hr Hp Hlen. destruct (kexit_files_loop me (seq 0 NOFILE) k p Hp) as (e1 & H1).
  rewrite clear_files in H1 by done. fold (kexit_files me) in H1. rewrite (mbind_Ok _ _ _ _ _ H1).
  pose proof (lookup_lt_Some _ _ _ Hp) as Hlt.
  destruct (env_begin_op_law e1) as ([] & e2 & H2).
  erewrite (mbind_Ok (lift_env env_begin_op)); [|unfold lift_env; simpl; rewrite H2; reflexivity].
  erewrite (mbind_Ok (read_proc me));
    [|unfold read_proc; simpl; rewrite list_lookup_insert_eq by done; reflexivity].
  destruct (env_iput_law (cwd p) e2) as ([] & e3 & H3).
  erewrite (mbind_Ok (lift_env (env_iput _))); [|unfold lift_env; simpl; rewrite H3; reflexivity].
  destruct (env_end_op_law e3) as ([] & e4 & H4).
  erewrite (mbind_Ok (lift_env env_end_op)); [|unfold lift_env; simpl; rewrite H4; reflexivity].
  erewrite (mbind_Ok (modify_proc me _));
    [|unfold modify_proc; simpl; rewrite list_lookup_insert_eq by done; reflexivity].
  exists e4. simpl. by rewrite list_insert_insert_eq.
Qed.

(** release(&wait_lock) by a process that has locked its own entry too. *)
Lemma release_wait_klocked me k p q :
  in_wait me k -> procs k !! me = Some q -> lk_free (lock p) ->
  exists k', release_wait (klocked k me p) = Ok (tt, k') /\
    handed_over (Some me) me (p <| lock := held_by (hartid k) (lock p) |>) k' /\
    lk_free (wait_lock k') /\ mycpu k' = mycpu k /\
    procs k' = <[me := p <| lock := held_by (hartid k) (lock p) |>]> (procs k).
Proof.
  intros [[B1 B2 B3 B4 B5 B6] A2 A3 A4 A5 A6 A7] Hq Hf. unfold release_wait.
  change (wait_lock (klocked k me p)) with (wait_lock k).
  change (hartid (klocked k me p)) with (hartid k).
  change (mycpu (klocked k me p)) with (push_off (mycpu k)).
  rewrite release_held, pop_push_off by done. cbn [obind fst snd].
  assert (lockcycle (mycpu k) = mycpu k) as -> by (unfold lockcycle; by rewrite A4).
  eexists. split; [reflexivity|]. split_and!; try done. split; try done.
  - split; try done. simpl. by rewrite length_insert.
  - simpl. apply list_lookup_insert_eq. by eapply lookup_lt_Some.
  - intros i r Hne Hr. simpl in Hr. rewrite list_lookup_insert_ne in Hr by done. by eapply A2.
Qed.

(** The second part of kexit: children and parent. *)
Definition kexit_family (me : nat) : M (kst E) unit :=
  reparent me ;;;
  let* p := read_proc me in
  wakeup (ChProc <$> parent p).

Lemma kexit_family_ok me ip p k :
  in_wait me k -> initproc k = Some ip -> ip <> me -> procs k !! me = Some p -> parent p <> Some me ->
  exists k', kexit_family me k = Ok (tt, k') /\ in_wait me k' /\ glob_same k k' /\ mycpu k' = mycpu k /\
    forall i p0, procs k !! i = Some p0 -> exists q, procs k' !! i = Some q /\
      pid q = pid p0 /\ lock q = lock p0 /\ killed q = killed p0 /\ ofile q = ofile p0 /\ cwd q = cwd p0 /\
      parent q = (if decide (parent p0 = Some me) then Some ip else parent p0) /\
      (state q = state p0 \/ (state p0 = SLEEPING /\ state q = RUNNABLE)) /\
      (parent p = Some i -> chan p0 = Some (ChProc i) -> state q <> SLEEPING).
Proof.
  intros Hw Hi Hne Hp Hpm. unfold kexit_family, reparent.
  destruct (reparent_loop me ip (seq 0 NPROC) k seq_lt Hw Hi Hne) as (k1 & H1 & H2 & H3 & H4 & H5).
  rewrite (mbind_Ok _ _ _ _ _ H1). destruct (H5 me p Hp) as (p1 & Hp1 & S1 & Hpar1).
  rewrite (mbind_Ok _ _ k1 p1 k1) by (unfold read_proc; by rewrite Hp1).
  rewrite decide_False in Hpar1 by (by intros [_ ?]).
  destruct (in_wait_wakeup me k1 (ChProc <$> parent p1) H2) as (k2 & G1 & G2 & G3 & G4 & G5).
  exists k2. split; [done|]. split; [done|]. split; [by eapply glob_same_trans|]. split; [congruence|].
  intros i p0 Hp0. destruct (H5 i p0 Hp0) as (q & Hq & [P1 L1 K1 O1 D1 W1] & Hpar).
  destruct (wake_survives k1 (ChProc <$> parent p1) q) as ([P2 L2 K2 O2 D2 W2] & Hpar2 & Hwk).
  exists (wake_proc k1 (ChProc <$> parent p1) q).
  split; [by rewrite G5, list_lookup_fmap, Hq|].
  do 5 (split; [congruence|]). split; [|split].
  - rewrite Hpar2, Hpar.
    assert (i ∈ seq 0 NPROC) as Hin.
    { apply elem_of_seq. apply lookup_lt_Some in Hp0. rewrite (kwf_procs _ (iw_kwf _ _ Hw)) in Hp0. lia. }
    destruct (decide (parent p0 = Some me)) as [Hd|Hd]; [by rewrite decide_True|].
    rewrite decide_False; [done|]. by intros [_ ?].
  - destruct W1 as [[C1 S1']|(C1 & C1' & S1')], W2 as [[C2 S2']|(C2 & C2' & S2')];
      rewrite S2'; repeat case_decide; try (left; congruence); right; split; congruence.
  - intros Hpi Hch. destruct W1 as [[C1 S1']|(C1 & C1' & S1')].
    + apply Hwk; rewrite Hpar1, Hpi; simpl; congruence.
    + destruct W2 as [[C2 S2']|(C2 & C2' & S2')]; rewrite S2'; repeat case_decide; congruence.
Qed.
End Exit.


(** Process 2, a child of init in slot 0 with a child of its own in slot 5,
    exits while init sleeps in wait(). *)
Definition exit_demo : kst Z :=
  (with_proc 0 (fun p => p <| state := SLEEPING |> <| pid := 1 |> <| chan := Some (ChProc 0) |>)
    (with_proc 2 (fun p => p <| state := RUNNING |> <| pid := 2 |> <| parent := Some 0%nat |>)
      (with_proc 5 (fun p => p <| state := RUNNABLE |> <| pid := 3 |> <| parent := Some 2%nat |>)
        (boot_kst 2147483648 0)))) <| mycpu := mkCpu (Some 2%nat) 0 false true |> <| initproc := Some 0%nat |>.
Definition exit_demo_me : proc :=
  zero_proc <| state := RUNNING |> <| pid := 2 |> <| parent := Some 0%nat |>.
Lemma exit_demo_running : running 2 exit_demo.
Proof.
  assert (kwf (E := Z) (boot_kst 2147483648 0)) as [] by (apply kwf_boot; unfold NCPU; lia).
  split; [by split| |reflexivity|reflexivity|unfold NPROC; lia].
  intros i q Hq. unfold exit_demo in Hq. cbn -[boot_kst] in Hq. rewrite !list_lookup_alter in Hq.
  assert (forall q, procs (boot_kst (E := Z) 2147483648 0) !! i = Some q -> lk_free (lock q)) as Hb.
  { apply locks_free_boot. }
  destruct (procs (boot_kst (E := Z) 2147483648 0) !! i) as [p|] eqn:Hi.
  - specialize (Hb p eq_refl).
    repeat (destruct (decide _) in Hq; [subst i; rewrite ?list_lookup_alter in Hq; simpl in Hq; simplify_eq; done|]).
    by simplify_eq.
  - repeat (destruct (decide _) in Hq; [subst i; simpl in Hi; discriminate|]). done.
Qed.

