(* ===== verification/ProcFork.v ===== *)
(** * Fork (kernel/proc.c)

    kfork returns the id of a new RUNNABLE process that shares the parent's
    open files and directory and whose registers are the parent's except for
    a0, or fails without leaving anything behind. *)
From stdpp Require Import base list strings gmap.
From Stdlib Require Import ZArith Lia.
From S2P Require Import Prelude Spinlock KState SchedMLFQ Sched CString Riscv Proc ProcTable ProcSleep ProcLife ProcWait ProcExit.

#[local] Existing Instance quiet.

(** The file table after the loop over the descriptors [l]. *)
Definition dup_files (parent : list Z) (l : list nat) (o : list Z) : list Z :=
  fold_left (fun o fd => if parent !!! fd =? 0 then o else <[fd := parent !!! fd]> o) l o.

#[global] Arguments dup_files : simpl never.

Lemma dup_files_lookup f l (o : list Z) i :
  (forall j, o !! j = Some 0 \/ o !! j = f !! j \/ o !! j = None) -> length o = length f ->
  dup_files f l o !! i =
    if decide (i ∈ l) then (if f !!! i =? 0 then o !! i else f !! i) else o !! i.
Proof.
  revert o. induction l as [|fd l IH]; intros o Ho Hlen; [done|].
  unfold dup_files in *. cbn [fold_left].
  assert (forall j, (if f !!! fd =? 0 then o else <[fd := f !!! fd]> o) !! j =
    if decide (j = fd) then (if f !!! fd =? 0 then o !! j else f !! j) else o !! j) as Hone.
  { intros j. destruct (f !!! fd =? 0); [by destruct (decide (j = fd))|].
    destruct (decide (j = fd)) as [->|Hne]; [|by rewrite list_lookup_insert_ne].
    destruct (decide (fd < length o)%nat) as [Hlt|Hge].
    - rewrite list_lookup_insert_eq by done. rewrite Hlen in Hlt.
      destruct (lookup_lt_is_Some_2 _ _ Hlt) as [v Hv]. by rewrite Hv, (list_lookup_total_correct _ _ _ Hv).
    - rewrite list_insert_ge by lia. rewrite !lookup_ge_None_2 by lia. done. }
  rewrite IH.
  - rewrite !Hone. destruct (decide (i ∈ fd :: l)) as [Hin|Hin].
    + destruct (decide (i ∈ l)), (decide (i = fd)) as [->|]; try done.
      * by destruct (f !!! fd =? 0).
      * by apply elem_of_cons in Hin as [->|].
    + rewrite decide_False by (intros ?; apply Hin; by right).
      rewrite decide_False; [done|]. intros ->. apply Hin. by left.
  - intros j. rewrite Hone. destruct (decide (j = fd)); [|done]. destruct (f !!! fd =? 0); [done|]. tauto.
  - destruct (f !!! fd =? 0); [done|]. by rewrite length_insert.
Qed.

(** Over all descriptors, from an empty table, this copies the parent's. *)
Lemma dup_files_all f :
  length f = NOFILE -> dup_files f (seq 0 NOFILE) (replicate NOFILE 0) = f.
Proof.
  intros Hlen. apply list_eq. intros i. rewrite dup_files_lookup.
  - destruct (decide (i < NOFILE)%nat) as [Hlt|Hge].
    + rewrite decide_True by (apply elem_of_seq; lia).
      rewrite lookup_replicate_2 by done. rewrite <- Hlen in Hlt.
      destruct (lookup_lt_is_Some_2 _ _ Hlt) as [v Hv].
      rewrite (list_lookup_total_correct _ _ _ Hv). destruct (Z.eqb_spec v 0) as [->|]; congruence.
    + rewrite decide_False by (rewrite elem_of_seq; lia).
      rewrite !lookup_ge_None_2; [done|lia|rewrite length_replicate; lia].
  - intros j. destruct (decide (j < NOFILE)%nat).
    + left. by apply lookup_replicate_2.
    + right. right. apply lookup_ge_None_2. rewrite length_replicate. lia.
  - by rewrite length_replicate.
Qed.

(** Neither copy is ever compared by running it. *)
Strategy opaque [dup_files safestrcpy_arr].

Section Fork.
Context {E : Type} {PE : ProcEnv E} {EL : EnvLaws PE}.
Implicit Types (k : kst E).

Lemma read_other k np q me p :
  me <> np -> procs k !! me = Some p ->
  read_proc me (klocked k np q) = Ok (p, klocked k np q).
Proof.
  intros Hne Hp. unfold read_proc. simpl. rewrite list_lookup_insert_ne by done. by rewrite Hp.
Qed.

Lemma kfork_files_klocked me np l k q p p0 :
  me <> np -> procs k !! me = Some p -> procs k !! np = Some p0 ->
  exists k', for_each l (fun fd =>
      let* p := read_proc me in
      let f := ofile p !!! fd in
      if f =? 0 then mret tt
      else
        let* f := lift_env (env_filedup f) in
        modify_proc np (fun q => q <| ofile ::= <[fd := f]> |>)) (klocked k np q) =
      Ok (tt, klocked k' np (q <| ofile ::= dup_files (ofile p) l |>)) /\
    low_same k k' /\ nextpid k' = nextpid k /\ tframes k' = tframes k.
Proof.
  intros Hne Hp Hp0. revert k q Hp Hp0. induction l as [|fd l IH]; intros k q Hp Hp0.
  { exists k. split; [by destruct q|]. split_and!; auto with kernel. }
  cbn [for_each]. set (body := fun fd : nat => _) in *.
  assert (exists k1, body fd (klocked k np q) =
      Ok (tt, klocked k1 np (q <| ofile ::= fun o => if ofile p !!! fd =? 0 then o else <[fd := ofile p !!! fd]> o |>)) /\
    low_same k k1 /\ nextpid k1 = nextpid k /\ tframes k1 = tframes k) as (k1 & H1 & L1 & N1 & T1).
  { unfold body. rewrite (mbind_Ok _ _ _ _ _ (read_other k np q me p Hne Hp)). cbv zeta.
    destruct (ofile p !!! fd =? 0).
    - exists k. split; [by destruct q|]. split_and!; auto with kernel.
    - destruct (env_filedup_law (ofile p !!! fd) (env k)) as (e' & He).
      assert (lift_env (env_filedup (ofile p !!! fd)) (klocked k np q) =
        Ok (ofile p !!! fd, klocked (k <| env := e' |>) np q)) as Hl.
      { unfold lift_env. change (env (klocked k np q)) with (env k). by rewrite He. }
      rewrite (mbind_Ok _ _ _ _ _ Hl). exists (k <| env := e' |>). split; [|done].
      assert (procs (k <| env := e' |>) !! np = Some p0) as Hp1 by done.
      apply (modify_proc_klocked (I := quiet) _ _ _ _ _ Hp1); [by intros ? ?|done]. }
  rewrite (mbind_Ok _ _ _ _ _ H1).
  destruct (IH k1 (q <| ofile ::= fun o => if ofile p !!! fd =? 0 then o else <[fd := ofile p !!! fd]> o |>))
    as (k2 & H2 & L2 & N2 & T2); [by rewrite (low_same_procs _ _ L1)..|].
  exists k2. rewrite H2. split; [done|]. split; [by eapply low_same_trans|]. split; congruence.
Qed.

Lemma running_kpass me k i p : running me k -> lk_free (lock p) -> running me (kpass k i p).
Proof.
  intros [A1 A2 A3 A4 A5] Hf. split.
  - auto with kernel.
  - by apply locks_free_kpass.
  - rewrite lockcycle_kpass. by rewrite lockcycle_noff.
  - rewrite lockcycle_kpass. by rewrite lockcycle_proc.
  - done.
Qed.

Lemma kfork_start_ok me np k q p0 :
  running me k -> lk_free (wait_lock k) -> procs k !! np = Some p0 -> lk_free (lock q) ->
  exists k', kfork_start me np (klocked k np q) = Ok (pid q, k') /\ running me k' /\
    lk_free (wait_lock k') /\ nextpid k' = nextpid k /\ tframes k' = tframes k /\ pid_lock k' = pid_lock k /\
    procs k' = <[np := ready_proc (ticks k) (q <| parent := Some me |> <| state := RUNNABLE |>)]> (procs k).
Proof.
  intros Hr Hwl Hp0 Hf. unfold kfork_start. pose proof (lookup_lt_Some _ _ _ Hp0) as Hlt.
  rewrite (mbind_Ok _ _ _ _ _ (read_proc_klocked (I := quiet) k np q p0 Hp0)). cbv zeta.
  rewrite (mbind_Ok _ _ _ _ _ (release_proc_klocked (I := quiet) k np q p0 Hp0 Hf (kwf_cpu _ (run_kwf _ _ Hr)))).
  pose proof (running_kpass me k np q Hr Hf) as Hr1.
  destruct (acquire_wait_ok me (kpass k np q) Hr1 Hwl) as (k2 & H2 & Hw2 & _ & E2).
  rewrite (mbind_Ok _ _ _ _ _ H2). assert (procs k2 = <[np := q]> (procs k)) as P2 by (by rewrite E2).
  assert (procs k2 !! np = Some q) as Hq2 by (rewrite P2; by apply list_lookup_insert_eq).
  set (q1 := q <| parent := Some me |>).
  set (k3 := k2 <| procs := <[np := q1]> (procs k2) |>).
  erewrite (mbind_Ok (modify_proc np _) _ k2 tt k3) by (unfold modify_proc; by rewrite Hq2).
  assert (in_wait me k3) as Hw3 by (by apply (in_wait_insert me k2 np q q1)).
  destruct (release_wait_ok me k3 Hw3) as (k4 & H4 & Hr4 & Hl4 & _ & E4).
  rewrite (mbind_Ok _ _ _ _ _ H4).
  assert (procs k4 = <[np := q1]> (procs k)) as P4.
  { rewrite E4. simpl. by rewrite P2, list_insert_insert_eq. }
  assert (procs k4 !! np = Some q1) as Hq4 by (rewrite P4; by apply list_lookup_insert_eq).
  rewrite (mbind_Ok _ _ _ _ _ (acquire_proc_ok (I := quiet) k4 np q1 Hq4 Hf)). kmodq Hq4.
  rewrite (mbind_Ok _ _ _ _ _ (sched_proc_runnable_klocked (I := quiet) k4 np _ q1 Hq4)).
  set (q2 := ready_proc (ticks k4) (q1 <| state := RUNNABLE |>)).
  rewrite (mbind_Ok _ _ _ _ _ (release_proc_klocked (I := quiet) k4 np q2 q1 Hq4 Hf (kwf_cpu _ (run_kwf _ _ Hr4)))).
  assert (ticks k4 = ticks k /\ nextpid k4 = nextpid k /\ tframes k4 = tframes k /\ pid_lock k4 = pid_lock k)
    as (T4 & N4 & F4 & L4).
  { rewrite E4. simpl. rewrite E2. done. }
  exists (kpass k4 np q2). split; [done|]. split; [by apply running_kpass|]. split; [done|].
  split; [done|]. split; [done|]. split; [done|].
  simpl. rewrite P4, list_insert_insert_eq. unfold q2. by rewrite T4.
Qed.

(** The state allocproc was called in, seen from the one it leaves. *)
Lemma alloc_post_running me k ks k1 :
  running me k -> same_table k ks -> kwf ks ->
  (mycpu ks = mycpu k \/ mycpu ks = lockcycle (mycpu k)) -> low_same ks k1 -> running me k1.
Proof.
  intros [A1 A2 A3 A4 A5] Hs Hk Hc L. pose proof (low_same_kwf _ _ L Hk) as Hk1.
  destruct (low_same_cpu _ _ L) as [C1 _]. unfold same_table in Hs. split.
  - done.
  - by rewrite (low_same_procs _ _ L), Hs.
  - rewrite C1. destruct Hc as [->| ->]; [done|]. by rewrite lockcycle_noff.
  - rewrite C1. destruct Hc as [->| ->]; [done|]. by rewrite lockcycle_proc.
  - done.
Qed.

(** kfork after the new slot [np] has been allocated and the memory copied. *)
Definition child_of (k : kst E) (me : nat) (p q0 : proc) : proc :=
  ready_proc (ticks k)
    (q0 <| sz := sz p |> <| ofile ::= dup_files (ofile p) (seq 0 NOFILE) |> <| cwd := cwd p |>
        <| name ::= fun dst => safestrcpy_arr dst (name p) 16 |> <| parent := Some me |>
        <| state := RUNNABLE |>).

Lemma kfork_copied_ok me np k p p0 q q' tf :
  running me k -> lk_free (wait_lock k) -> me <> np ->
  procs k !! me = Some p -> procs k !! np = Some p0 -> lk_free (lock q) ->
  trapframe_ptr q' = trapframe_ptr q -> tframes k !! trapframe_ptr p = Some tf ->
  exists k', kfork_copied me np p q' (klocked k np q) = Ok (pid q, k') /\ running me k' /\
    lk_free (wait_lock k') /\ nextpid k' = nextpid k /\
    tframes k' = <[trapframe_ptr q := tf <| tf_a0 := 0 |>]> (tframes k) /\
    procs k' = <[np := child_of k me p q]> (procs k).
Proof.
  intros Hr Hwl Hne Hp Hp0 Hf Hq' Htf. unfold kfork_copied. kmodq Hp0.
  unfold mreads at 1, mbind at 1, obind at 1. cbn [fst snd].
  change (tframes (klocked k np _)) with (tframes k). rewrite Htf, Hq'.
  unfold mmodify at 1 2, mbind at 1 2, obind at 1 2. cbn [fst snd].
  set (tfs := <[trapframe_ptr q := tf <| tf_a0 := 0 |>]> (tframes k)).
  set (k1 := k <| tframes := tfs |>). set (q1 := q <| sz := sz p |>).
  match goal with |- context [(kfork_files me np ;;; ?K) ?s] =>
    assert (s = klocked k1 np q1) as -> by
      (unfold k1, tfs, klocked, kenter; simpl; do 2 f_equal; by rewrite alter_insert_eq) end.
  destruct (kfork_files_klocked me np (seq 0 NOFILE) k1 q1 p p0 Hne Hp Hp0) as (k2 & H2 & L2 & N2 & T2).
  fold (kfork_files me np) in H2. rewrite (mbind_Ok _ _ _ _ _ H2).
  set (q2 := q1 <| ofile ::= dup_files (ofile p) (seq 0 NOFILE) |>) in *.
  destruct (env_idup_law (cwd p) (env k2)) as (e3 & He3). set (k3 := k2 <| env := e3 |>).
  assert (lift_env (env_idup (cwd p)) (klocked k2 np q2) = Ok (cwd p, klocked k3 np q2)) as H3.
  { unfold lift_env. change (env (klocked k2 np q2)) with (env k2). by rewrite He3. }
  rewrite (mbind_Ok _ _ _ _ _ H3).
  assert (procs k3 = procs k) as P3 by (simpl; by rewrite (low_same_procs _ _ L2)).
  assert (procs k3 !! np = Some p0) as Hp3 by (by rewrite P3). kmodq Hp3. kmodq Hp3.
  assert (running me k3) as Hr3.
  { apply running_env. destruct Hr as [B1 B2 B3 B4 B5].
    assert (kwf k1) as Hk1 by (by destruct B1).
    split; [by apply (low_same_kwf _ _ L2)|by rewrite (low_same_procs _ _ L2)|
      by rewrite (proj1 (low_same_cpu _ _ L2))..|done]. }
  assert (lk_free (wait_lock k3)) as Hwl3.
  { change (wait_lock k3) with (wait_lock k2). by rewrite (low_same_wait _ _ L2). }
  set (q3 := q2 <| cwd := cwd p |> <| name ::= fun dst => safestrcpy_arr dst (name p) 16 |>).
  destruct (kfork_start_ok me np k3 q3 p0 Hr3 Hwl3 Hp3 Hf) as (k4 & H4 & Hr4 & Hl4 & N4 & T4 & _ & P4).
  exists k4. split; [exact H4|]. split; [done|]. split; [done|]. split; [rewrite N4; simpl; by rewrite N2|].
  split; [rewrite T4; simpl; by rewrite T2|].
  assert (ticks k3 = ticks k) as HT by (apply (low_same_ticks _ _ L2)).
  rewrite P4, P3, HT. reflexivity.
Qed.

Lemma child_ofile k me p q :
  ofile (child_of k me p q) = dup_files (ofile p) (seq 0 NOFILE) (ofile q).
Proof. reflexivity. Qed.
Lemma freed_lock p : lock (freed_proc (p <| trapframe_ptr := 0 |>)) = lock p.
Proof. reflexivity. Qed.
Lemma fresh_lock k p tf pt : lock (fresh_proc k p tf pt) = lock p.
Proof. reflexivity. Qed.

(** kfork when the memory cannot be copied: the slot is given back. *)
Lemma kfork_fail_ok me np k q p0 :
  running me k -> procs k !! np = Some p0 -> lk_free (lock q) ->
  exists k' qf, (freeproc np ;;; release_proc np ;;; mret (-1)) (klocked k np q) = Ok (-1, k') /\
    running me k' /\ wait_lock k' = wait_lock k /\ nextpid k' = nextpid k /\
    procs k' = <[np := qf]> (procs k) /\ state qf = UNUSED.
Proof.
  intros Hr Hp0 Hf. pose proof (lookup_lt_Some _ _ _ Hp0) as Hlt.
  destruct (freeproc_klocked k np q Hlt) as (k5 & H5 & L5 & N5 & _).
  rewrite (mbind_Ok _ _ _ _ _ H5). rewrite <- (freed_lock q) in Hf.
  assert (state (freed_proc (q <| trapframe_ptr := 0 |>)) = UNUSED) as Hfs by reflexivity.
  remember (freed_proc (q <| trapframe_ptr := 0 |>)) as qf eqn:Hqf. clear Hqf.
  pose proof (alloc_post_running me k k k5 Hr (same_table_refl _) (run_kwf _ _ Hr) ltac:(by left) L5) as Hr5.
  pose proof (low_same_procs _ _ L5) as P5.
  assert (procs k5 !! np = Some p0) as Hn5 by (by rewrite P5).
  rewrite (mbind_Ok _ _ _ _ _ (release_proc_klocked (I := quiet) k5 np qf p0 Hn5 Hf (kwf_cpu _ (run_kwf _ _ Hr5)))).
  exists (kpass k5 np qf), qf. split; [done|]. split; [by apply running_kpass|].
  split; [apply (low_same_wait _ _ L5)|]. split; [exact N5|]. split; [|done].
  change (procs (kpass k5 np qf)) with (<[np := qf]> (procs k5)). by rewrite P5.
Qed.

(** kfork when no slot could be allocated. *)
Lemma kfork_none_ok me k k2 :
  running me k -> alloc_post k None k2 ->
  running me k2 /\ wait_lock k2 = wait_lock k /\
  forall j p0, procs k !! j = Some p0 -> state p0 <> UNUSED -> procs k2 !! j = Some p0.
Proof.
  intros Hr (ks & k3 & Hs & Hks & Hc & L & Hcase).
  pose proof (alloc_post_running me k ks k3 Hr Hs Hks Hc L) as Hr3.
  destruct (same_table_fields _ _ Hs) as (Ps & Ws & _).
  pose proof (low_same_procs _ _ L) as P3. pose proof (low_same_wait _ _ L) as W3.
  destruct Hcase as [[_ ->]|(i & p0 & q & Hfind & Hp0 & Hnp & -> & Hlq & _)].
  - split; [apply (alloc_post_running me k ks ks); auto with kernel|]. rewrite Ws, Ps. done.
  - destruct (find_unused_spec _ _ Hfind) as (p0' & Hp0' & Hu). clear Hfind.
    assert (p0' = p0) as -> by congruence.
    assert (lk_free (lock (freed_proc q))) as Hf.
    { change (lock (freed_proc q)) with (lock q). rewrite Hlq. apply (run_free _ _ Hr _ _ Hp0). }
    remember (freed_proc q) as qf eqn:Hqf. clear Hqf.
    split; [by apply running_kpass|]. split; [change (wait_lock k3 = wait_lock k); congruence|].
    intros j pj Hj Hsj. change (procs (kpass k3 i qf)) with (<[i := qf]> (procs k3)).
    rewrite P3, Ps, list_lookup_insert_ne; congruence.
Qed.

Lemma fresh_fields k p tf pt :
  let q := fresh_proc k p tf pt in
  lock q = lock p /\ pid q = nextpid k /\ ofile q = ofile p /\ trapframe_ptr q = tf /\ mlfq_ok q.
Proof. done. Qed.

Lemma child_fields k me p q :
  let c := child_of k me p q in
  pid c = pid q /\ state c = RUNNABLE /\ parent c = Some me /\ sz c = sz p /\ cwd c = cwd p /\
  trapframe_ptr c = trapframe_ptr q /\ (mlfq_ok q -> mlfq_ok c).
Proof. done. Qed.

(** kfork once slot [np] holds the new process [q], in the state [k3] that
    differs from [k] only below the table. *)
Lemma kfork_slot_ok me np k k3 p p0 q tf :
  running me k3 -> lk_free (wait_lock k) -> slots_ok k -> pids_ok k -> 0 < nextpid k ->
  procs k !! me = Some p -> procs k !! np = Some p0 -> state p0 = UNUSED -> me <> np ->
  tframes k !! trapframe_ptr p = Some tf -> owned (env k) (trapframe_ptr p) ->
  lk_free (lock q) -> pid q = nextpid k -> ofile q = ofile p0 -> mlfq_ok q ->
  procs k3 = procs k -> wait_lock k3 = wait_lock k ->
  tframes k3 = <[trapframe_ptr q := junk_trapframe]> (tframes k) -> nextpid k3 = nextpid k + 1 ->
  ~ owned (env k) (trapframe_ptr q) ->
  exists r k',
    (let* p := read_proc me in
     let* q := read_proc np in
     let* r := lift_env (env_uvmcopy (pagetable p) (pagetable q) (sz p)) in
     if r <? 0 then freeproc np ;;; release_proc np ;;; mret (-1) else kfork_copied me np p q)
      (klocked k3 np q) = Ok (r, k') /\ running me k' /\ lk_free (wait_lock k') /\ pids_ok k' /\
    ((r = -1 /\ forall j p0, procs k !! j = Some p0 -> state p0 <> UNUSED -> procs k' !! j = Some p0) \/
     exists np p0 q, r = pid q /\ pid q = nextpid k /\ procs k !! np = Some p0 /\ state p0 = UNUSED /\
       procs k' = <[np := q]> (procs k) /\ state q = RUNNABLE /\ parent q = Some me /\
       sz q = sz p /\ ofile q = ofile p /\ cwd q = cwd p /\ mlfq_ok q /\
       trapframe_ptr q <> trapframe_ptr p /\
       tframes k' = <[trapframe_ptr q := tf <| tf_a0 := 0 |>]> (tframes k)).
Proof.
  intros Hr3 Hwl Hslots Hpids Hn Hp Hp0 Hu Hne Htf Hown Hf Hpid Hqo Hqm P3 W3 T3 N3 Hfresh.
  assert (procs k3 !! me = Some p) as Hp3 by (by rewrite P3).
  assert (procs k3 !! np = Some p0) as Hn3 by (by rewrite P3).
  rewrite (mbind_Ok _ _ _ _ _ (read_other k3 np q me p Hne Hp3)).
  rewrite (mbind_Ok _ _ _ _ _ (read_proc_klocked (I := quiet) k3 np q p0 Hn3)).
  env_step env_uvmcopy_law as r k4 L4 N4 T4.
  pose proof (alloc_post_running me k3 k3 k4 Hr3 (same_table_refl _) (run_kwf _ _ Hr3) ltac:(by left) L4) as Hr4.
  assert (procs k4 = procs k) as P4 by (by rewrite (low_same_procs _ _ L4)).
  assert (wait_lock k4 = wait_lock k) as W4 by (by rewrite (low_same_wait _ _ L4)).
  destruct (r <? 0).
  - destruct (kfork_fail_ok me np k4 q p0 Hr4) as (k5 & qf & H5 & Hr5 & W5 & N5 & P5 & Hqf); [by rewrite P4|done|].
    rewrite P4 in P5. exists (-1), k5. split; [done|]. split; [done|]. split; [by rewrite W5, W4|]. split.
    + apply (pids_ok_update k _ np qf); [done|lia|done|by left].
    + left. split; [done|]. intros j pj Hj Hsj. rewrite P5, list_lookup_insert_ne; congruence.
  - assert (trapframe_ptr q <> trapframe_ptr p) as Hqp by (intros Heq; apply Hfresh; by rewrite Heq).
    destruct (kfork_copied_ok me np k4 p p0 q (q <| lock := held_by (hartid k3) (lock q) |>) tf)
      as (k5 & H5 & Hr5 & Hl5 & N5 & T5 & P5); try done.
    { by rewrite W4. }
    { by rewrite P4. }
    { by rewrite P4. }
    { rewrite T4, T3. by rewrite lookup_insert_ne. }
    rewrite P4 in P5. destruct (Hslots np p0 Hp0) as [_ Hof]. destruct (Hslots me p Hp) as [Hlen _].
    assert (ofile (child_of k4 me p q) = ofile p) as Hofile.
    { rewrite child_ofile, Hqo, (Hof Hu). by apply dup_files_all. }
    destruct (child_fields k4 me p q) as (C1 & C2 & C3 & C4 & C5 & C6 & C7). specialize (C7 Hqm).
    remember (child_of k4 me p q) as c eqn:Hc. clear Hc.
    exists (pid q), k5. split; [exact H5|]. split; [done|]. split; [done|]. split.
    + apply (pids_ok_update k _ np c); [done|lia|done|]. right. lia.
    + right. exists np, p0, c. rewrite C1, C6. split_and!; try done.
      rewrite T5, T4, T3. by rewrite insert_insert_eq.
Qed.
End Fork.

(** C11: kfork either returns -1, with every used slot, the unique ids and the
    caller's locks as before, or returns the id of a new process, in a slot
    that was UNUSED: RUNNABLE, a child of the caller, with the caller's memory
    size, open files and directory, and with the caller's saved registers except
    that a0 is 0, in a trapframe page of its own; no other slot and no other
    trapframe changes. *)
Theorem kfork_correct {E} {PE : ProcEnv E} {EL : EnvLaws PE} me p tf (k : kst E) :
  running me k -> lk_free (wait_lock k) -> lk_free (pid_lock k) -> slots_ok k -> pids_ok k ->
  0 < nextpid k < 2 ^ 31 - 1 -> procs k !! me = Some p -> state p <> UNUSED ->
  tframes k !! trapframe_ptr p = Some tf -> owned (env k) (trapframe_ptr p) ->
  exists r k', kfork k = Ok (r, k') /\ running me k' /\ lk_free (wait_lock k') /\ pids_ok k' /\
    ((r = -1 /\ forall j p0, procs k !! j = Some p0 -> state p0 <> UNUSED -> procs k' !! j = Some p0) \/
     exists np p0 q, r = pid q /\ pid q = nextpid k /\ procs k !! np = Some p0 /\ state p0 = UNUSED /\
       procs k' = <[np := q]> (procs k) /\ state q = RUNNABLE /\ parent q = Some me /\
       sz q = sz p /\ ofile q = ofile p /\ cwd q = cwd p /\ mlfq_ok q /\
       trapframe_ptr q <> trapframe_ptr p /\
       tframes k' = <[trapframe_ptr q := tf <| tf_a0 := 0 |>]> (tframes k)).
Proof.
  intros Hr Hwl Hpl Hslots Hpids Hn Hp Hst Htf Hown. unfold kfork.
  rewrite (mbind_Ok _ _ _ _ _ (curproc_eq k me (kwf_cpu _ (run_kwf _ _ Hr)) (run_proc _ _ Hr))).
  pose proof (running_lockcycle me k Hr) as Hr1. set (k1 := k <| mycpu ::= lockcycle |>) in *.
  destruct (allocproc_quiet k1 (run_kwf _ _ Hr1) (run_free _ _ Hr1) Hpl) as (r & k2 & H2 & Hpost).
  rewrite (mbind_Ok _ _ _ _ _ H2).
  destruct (alloc_post_pids k1 r k2) as [Hpids2 _]; [done|done|done|].
  destruct r as [np|].
  2:{ destruct (kfork_none_ok me k1 k2 Hr1 Hpost) as (R2 & W2 & U2). exists (-1), k2.
      split; [done|]. split; [done|]. split; [by rewrite W2|]. split; [done|]. by left. }
  destruct Hpost as (ks & k3 & Hs & Hks & Hc & L & Hcase).
  pose proof (alloc_post_running me k1 ks k3 Hr1 Hs Hks Hc L) as Hr3.
  destruct (same_table_fields _ _ Hs) as (Ps & Ws & _).
  destruct Hcase as (p0 & tfp & pt & Hfind & Hp0 & Htfp & Hpt & Hfresh & T3 & N3 & ->).
  change (procs k1) with (procs k) in Ps, Hp0, Hfind. change (tframes k1) with (tframes k) in T3.
  change (nextpid k1) with (nextpid k) in N3. change (env k1) with (env k) in Hfresh.
  destruct (find_unused_spec _ _ Hfind) as (p0' & Hp0' & Hu). clear Hfind.
  assert (p0' = p0) as -> by congruence. assert (me <> np) as Hne by congruence.
  destruct (fresh_fields k1 p0 tfp pt) as (Hql & Hpid & Hqo & Hqt & Hqm).
  remember (fresh_proc k1 p0 tfp pt) as q eqn:Hqdef. clear Hqdef.
  assert (lk_free (lock q)) as Hf by (rewrite Hql; apply (run_free _ _ Hr _ _ Hp0)).
  assert (procs k3 = procs k) as P3 by (by rewrite (low_same_procs _ _ L), Ps).
  assert (wait_lock k3 = wait_lock k) as W3 by (by rewrite (low_same_wait _ _ L), Ws).
  assert (nextpid k3 = nextpid k + 1) as N3' by (rewrite N3; apply i32_small; lia).
  rewrite <- Hqt in T3, Hfresh.
  exact (kfork_slot_ok me np k k3 p p0 q tf Hr3 Hwl Hslots Hpids (proj1 Hn) Hp Hp0 Hu Hne Htf Hown Hf
    Hpid Hqo Hqm P3 W3 T3 N3' Hfresh).
Qed.

(** The process of [life_demo] with a trapframe page below the allocator's. *)
Definition fork_demo : kst Z :=
  (with_proc 0 (fun p => p <| trapframe_ptr := 4096 |>) life_demo)
    <| tframes := <[4096 := junk_trapframe]> ∅ |>.
Definition fork_demo_me : proc :=
  zero_proc <| state := RUNNING |> <| pid := 1 |> <| trapframe_ptr := 4096 |>.
Lemma fork_demo_running : running 0 fork_demo.
Proof.
  destruct life_demo_running as [[B1 B2 B3 B4 B5 B6] A2 A3 A4 A5]. split; try done.
  apply (locks_free_with_proc life_demo); done.
Qed.
Lemma fork_demo_entries i p :
  procs fork_demo !! i = Some p -> (i = 0%nat /\ p = fork_demo_me) \/ p = zero_proc.
Proof.
  intros Hp. unfold fork_demo in Hp. cbn -[boot_kst] in Hp. rewrite !list_lookup_alter in Hp.
  destruct (decide (0%nat = i)) as [<-|].
  - left. split; [done|]. simpl in Hp. injection Hp as <-. reflexivity.
  - right. apply lookup_replicate in Hp as [-> _]. done.
Qed.
Lemma fork_demo_pids : pids_ok fork_demo.
Proof.
  split.
  - intros i p Hp Hs. destruct (fork_demo_entries i p Hp) as [[_ ->]| ->]; [simpl; lia|done].
  - intros i j p q Hne Hp Hq H1 H2.
    destruct (fork_demo_entries i p Hp) as [[-> ->]| ->]; [|done].
    destruct (fork_demo_entries j q Hq) as [[-> ->]| ->]; done.
Qed.
Lemma fork_demo_slots : slots_ok fork_demo.
Proof.
  intros i p Hp. destruct (fork_demo_entries i p Hp) as [[-> ->]| ->]; done.
Qed.

Lemma kfork_correct_witness :
  exists r k', kfork fork_demo = Ok (r, k') /\ running 0 k' /\ lk_free (wait_lock k') /\ pids_ok k' /\
    ((r = -1 /\ forall j p0, procs fork_demo !! j = Some p0 -> state p0 <> UNUSED -> procs k' !! j = Some p0) \/
     exists np p0 q, r = pid q /\ pid q = 2 /\ procs fork_demo !! np = Some p0 /\ state p0 = UNUSED /\
       procs k' = <[np := q]> (procs fork_demo) /\ state q = RUNNABLE /\ parent q = Some 0%nat /\
       sz q = sz fork_demo_me /\ ofile q = ofile fork_demo_me /\ cwd q = cwd fork_demo_me /\ mlfq_ok q /\
       trapframe_ptr q <> trapframe_ptr fork_demo_me /\
       tframes k' = <[trapframe_ptr q := junk_trapframe <| tf_a0 := 0 |>]> (tframes fork_demo)).
Proof.
  apply (kfork_correct 0 fork_demo_me junk_trapframe fork_demo fork_demo_running).
  - split; reflexivity.
  - split; reflexivity.
  - exact fork_demo_slots.
  - exact fork_demo_pids.
  - simpl. lia.
  - reflexivity.
  - discriminate.
  - reflexivity.
  - simpl. lia.
Defined.
