(* ===== verification/Kalloc.v ===== *)
(** * Physical page allocator (kernel/kalloc.c)

    The free pages form a linked list threaded through their own first words.
    Memory is the byte memory of [CString]; a 64-bit word is its eight bytes in
    little-endian order. *)
From stdpp Require Import base list strings relations.
From Stdlib Require Import ZArith Lia.
From S2P Require Import Prelude Spinlock CString Riscv.

(** ** 64-bit words in memory *)
Fixpoint le_bytes (n : nat) (v : Z) : list Z :=
  match n with
  | O => []
  | S n => v mod 256 :: le_bytes n (v / 256)
  end.
Fixpoint le_val (l : list Z) : Z :=
  match l with
  | [] => 0
  | b :: l => b + 256 * le_val l
  end.
Fixpoint store_bytes (m : mem) (a : Z) (l : list Z) : mem :=
  match l with
  | [] => m
  | b :: l => store_bytes (store m a b) (a + 1) l
  end.
Definition load64 (m : mem) (a : Z) : Z := le_val (bytes_at m a 8).
Definition store64 (m : mem) (a v : Z) : mem := store_bytes m a (le_bytes 8 v).

Lemma le_val_bytes n v : le_val (le_bytes n v) = v mod 256 ^ Z.of_nat n.
Proof.
  revert v. induction n as [|n IH]; intros v; cbn [le_bytes le_val]; [by rewrite Z.mod_1_r|].
  rewrite IH, Nat2Z.inj_succ, Z.pow_succ_r by lia. symmetry. apply Z.rem_mul_r; lia.
Qed.
Lemma length_le_bytes n v : length (le_bytes n v) = n.
Proof. revert v. induction n as [|n IH]; intros v; simpl; [done|]. by rewrite IH. Qed.

Lemma store_bytes_out l m a x :
  ~ (a <= x < a + Z.of_nat (length l)) -> store_bytes m a l x = m x.
Proof.
  revert m a. induction l as [|b l IH]; intros m a Hx; cbn [store_bytes length] in *; [done|].
  rewrite IH by lia. apply store_ne. lia.
Qed.
Lemma store_bytes_at l m a : bytes_at (store_bytes m a l) a (length l) = l.
Proof.
  revert m a. induction l as [|b l IH]; intros m a; [done|].
  cbn [store_bytes length]. rewrite bytes_at_S, IH, store_bytes_out by lia. by rewrite store_eq.
Qed.

Lemma load64_store64 m a v : 0 <= v < 2 ^ 64 -> load64 (store64 m a v) a = v.
Proof.
  intros Hv. unfold load64, store64.
  pose proof (store_bytes_at (le_bytes 8 v) m a) as H. rewrite length_le_bytes in H.
  rewrite H, le_val_bytes. by apply Z.mod_small.
Qed.
Lemma store64_out m a v x : ~ (a <= x < a + 8) -> store64 m a v x = m x.
Proof. intros H. apply store_bytes_out. by rewrite length_le_bytes. Qed.
Lemma load64_ext m m' a : (forall x, a <= x < a + 8 -> m' x = m x) -> load64 m' a = load64 m a.
Proof. intros H. unfold load64. f_equal. apply bytes_at_ext. exact H. Qed.
Lemma load64_store64_ne m a b v : b + 8 <= a \/ a + 8 <= b -> load64 (store64 m b v) a = load64 m a.
Proof. intros H. apply load64_ext. intros x Hx. apply store64_out. lia. Qed.

(** ** The allocator *)

(** The part of the machine that memory management works on: memory, the
    [kmem] structure and the CPU that runs. *)
Record vmst : Type := mkVmst {
  ram : mem;
  kmem_lock : spinlock;
  freelist : Z;
  vm_cpu : cpu;
  vm_hart : nat
}.
#[global] Instance eta_vmst : Eta vmst :=
  fun s => mkVmst (ram s) (kmem_lock s) (freelist s) (vm_cpu s) (vm_hart s).

Definition acquire_kmem : M vmst unit := fun s =>
  obind (acquire (vm_hart s) (vm_cpu s) (kmem_lock s)) (fun r =>
    Ok (tt, s <| vm_cpu := fst r |> <| kmem_lock := snd r |>)).
Definition release_kmem : M vmst unit := fun s =>
  obind (release (vm_hart s) (vm_cpu s) (kmem_lock s)) (fun r =>
    Ok (tt, s <| vm_cpu := fst r |> <| kmem_lock := snd r |>)).

Section Kalloc.
(** [end], the first address after the kernel image, is set by the linker. *)
Variable kend : Z.

Definition kfree (pa : Z) : M vmst unit :=
  if negb (pa mod PGSIZE =? 0) || (pa <? kend) || (PHYSTOP <=? pa) then mpanic "kfree"
  else
    mmodify (fun s => s <| ram ::= fun m => memset m pa 1 PGSIZE |>) ;;;
    acquire_kmem ;;;
    mmodify (fun s => s <| ram ::= fun m => store64 m pa (freelist s) |>) ;;;
    mmodify (fun s => s <| freelist := pa |>) ;;;
    release_kmem.

Definition kalloc : M vmst Z :=
  acquire_kmem ;;;
  let* r := mreads freelist in
  (if r =? 0 then mret tt
   else mmodify (fun s => s <| freelist := load64 (ram s) r |>)) ;;;
  release_kmem ;;;
  (if r =? 0 then mret tt
   else mmodify (fun s => s <| ram ::= fun m => memset m r 5 PGSIZE |>)) ;;;
  mret r.

(** The loop frees one page per iteration, so the fuel is the number of whole
    pages of the range and one more for the last test. *)
Definition freerange (pa_start pa_end : Z) : M vmst unit :=
  mloop (S (Z.to_nat ((pa_end - PGROUNDUP pa_start) / PGSIZE)))
    (fun p =>
       if p + PGSIZE <=? pa_end then kfree p ;;; mret (inl (p + PGSIZE)) else mret (inr tt))
    (PGROUNDUP pa_start).

Definition kinit : M vmst unit :=
  mmodify (fun s => s <| kmem_lock := initlock "kmem" |>) ;;;
  freerange kend PHYSTOP.

(** Filling a page is never evaluated to compare two states. *)
#[local] Strategy opaque [memset].

(** ** The free list *)
Definition page (a : Z) : Prop := a mod PGSIZE = 0 /\ kend <= a < PHYSTOP.

Fixpoint chain (m : mem) (a : Z) (l : list Z) : Prop :=
  match l with
  | [] => a = 0
  | b :: l => a = b /\ chain m (load64 m b) l
  end.

(** The allocator at rest, with the pages [l] free. *)
Record kmem_ok (s : vmst) (l : list Z) : Prop := {
  km_lock : lk_free (kmem_lock s);
  km_cpu : cpu_wf (vm_cpu s);
  km_chain : chain (ram s) (freelist s) l;
  km_nodup : NoDup l;
  km_pages : Forall page l
}.

(** [m'] agrees with [m] outside the page at [a]. *)
Definition same_but (a : Z) (m m' : mem) : Prop := forall x, ~ (a <= x < a + PGSIZE) -> m' x = m x.
(** The page at [a] holds [c] in every byte. *)
Definition filled (a c : Z) (m : mem) : Prop := forall x, a <= x < a + PGSIZE -> m x = c.

Lemma pages_apart a b :
  a mod PGSIZE = 0 -> b mod PGSIZE = 0 -> a <> b -> a + PGSIZE <= b \/ b + PGSIZE <= a.
Proof.
  unfold PGSIZE. intros Ha Hb Hne. pose proof (Z.div_mod a 4096). pose proof (Z.div_mod b 4096). lia.
Qed.

Lemma same_but_load64 p m m' a :
  same_but p m m' -> a mod PGSIZE = 0 -> p mod PGSIZE = 0 -> a <> p -> load64 m' a = load64 m a.
Proof.
  intros H Ha Hp Hne. apply load64_ext. intros x Hx. apply H.
  pose proof (pages_apart a p Ha Hp Hne). unfold PGSIZE in *. lia.
Qed.

Lemma same_but_trans p m1 m2 m3 : same_but p m1 m2 -> same_but p m2 m3 -> same_but p m1 m3.
Proof. intros H1 H2 x Hx. by rewrite H2, H1. Qed.
Lemma memset_page m pa c :
  same_but pa m (memset m pa c PGSIZE) /\ filled pa (u8 c) (memset m pa c PGSIZE).
Proof.
  split; intros x Hx; rewrite memset_spec by (unfold PGSIZE; lia); destruct (decide _); done || lia.
Qed.
Lemma store64_page m pa a v :
  pa <= a -> a + 8 <= pa + PGSIZE -> same_but pa m (store64 m a v).
Proof. intros H1 H2 x Hx. apply store64_out. lia. Qed.

Lemma chain_frame m m' a l :
  (forall b, b ∈ l -> load64 m' b = load64 m b) -> chain m a l -> chain m' a l.
Proof.
  revert a. induction l as [|b l IH]; intros a H Hc; [done|]. destruct Hc as [-> Hc]. split; [done|].
  rewrite H by (by left). apply IH; [|done]. intros c Hc'. apply H. by right.
Qed.

(** The list survives writes to a page that is not on it. *)
Lemma chain_same_but p m m' a l :
  same_but p m m' -> p mod PGSIZE = 0 -> Forall page l -> p ∉ l -> chain m a l -> chain m' a l.
Proof.
  intros Hs Hp Hl Hn. apply chain_frame. intros b Hb. eapply same_but_load64; [done| |done|].
  - by apply (proj1 (Forall_forall _ _) Hl b).
  - by intros ->.
Qed.

Lemma kmem_cycle s :
  lk_free (kmem_lock s) -> cpu_wf (vm_cpu s) ->
  exists s1, acquire_kmem s = Ok (tt, s1) /\ ram s1 = ram s /\ freelist s1 = freelist s /\
    forall m f, release_kmem (s1 <| ram := m |> <| freelist := f |>) =
      Ok (tt, mkVmst m (kmem_lock s) f (lockcycle (vm_cpu s)) (vm_hart s)).
Proof.
  intros Hf Hc. unfold acquire_kmem. rewrite acquire_free by done. eexists. split; [reflexivity|].
  split; [done|]. split; [done|]. intros m f. unfold release_kmem. cbn [ram freelist kmem_lock vm_cpu vm_hart update].
  simpl. rewrite release_held by (split; reflexivity). rewrite pop_push_off by done.
  destruct Hf as [H1 H2]. destruct s as [? [] ? ? ?]; simpl in *. by subst.
Qed.

Section Specs.
Hypothesis kend_pos : 0 < kend.

Lemma page_nonzero a : page a -> a <> 0.
Proof. unfold page. lia. Qed.

Lemma kalloc_ok s l :
  kmem_ok s l ->
  exists m f, kalloc s = Ok (hd 0 l, mkVmst m (kmem_lock s) f (lockcycle (vm_cpu s)) (vm_hart s)) /\
    kmem_ok (mkVmst m (kmem_lock s) f (lockcycle (vm_cpu s)) (vm_hart s)) (tail l) /\
    match l with
    | [] => m = ram s
    | a :: _ => same_but a (ram s) m /\ filled a 5 m
    end.
Proof.
  intros [Hl Hc Hch Hnd Hpg]. unfold kalloc. destruct (kmem_cycle s Hl Hc) as (s1 & H1 & R1 & F1 & H2).
  rewrite (mbind_Ok _ _ _ _ _ H1). unfold mreads at 1, mbind at 1, obind at 1. cbn [fst snd].
  rewrite F1. destruct l as [|a l]; cbn [chain hd tail] in *.
  - rewrite Hch. cbn [Z.eqb]. exists (ram s), 0. specialize (H2 (ram s) 0).
    replace (s1 <| ram := ram s |> <| freelist := 0 |>) with s1 in H2
      by (rewrite <- Hch, <- R1, <- F1; by destruct s1).
    rewrite Z.eqb_refl. unfold mret at 1, mbind at 1, obind at 1. cbn [fst snd].
    rewrite (mbind_Ok _ _ _ _ _ H2). split; [done|]. split; [|done].
    split; simpl; auto with kernel; constructor.
  - destruct Hch as [-> Hch]. apply Forall_cons in Hpg as [Ha Hpg]. apply NoDup_cons in Hnd as [Hna Hnd].
    rewrite (proj2 (Z.eqb_neq _ _)) by (by apply page_nonzero).
    unfold mmodify at 1, mbind at 1, obind at 1. cbn [fst snd]. rewrite R1.
    specialize (H2 (ram s) (load64 (ram s) a)).
    replace (s1 <| ram := ram s |> <| freelist := load64 (ram s) a |>)
      with (s1 <| freelist := load64 (ram s) a |>) in H2 by (rewrite <- R1; by destruct s1).
    rewrite (mbind_Ok _ _ _ _ _ H2). exists (memset (ram s) a 5 PGSIZE), (load64 (ram s) a).
    split; [done|]. destruct (memset_page (ram s) a 5) as [Hm1 Hm2]. split; [|done].
    split; cbn [kmem_lock vm_cpu ram freelist]; auto with kernel.
    apply (chain_same_but a (ram s)); try done. apply Ha.
Qed.

Lemma kfree_ok s l pa :
  kmem_ok s l -> page pa -> pa ∉ l ->
  exists m, kfree pa s = Ok (tt, mkVmst m (kmem_lock s) pa (lockcycle (vm_cpu s)) (vm_hart s)) /\
    kmem_ok (mkVmst m (kmem_lock s) pa (lockcycle (vm_cpu s)) (vm_hart s)) (pa :: l) /\
    same_but pa (ram s) m.
Proof.
  intros [Hl Hc Hch Hnd Hpg] [Hal Hrg] Hni. unfold kfree. rewrite Hal. rewrite Z.eqb_refl.
  rewrite (proj2 (Z.ltb_ge _ _)), (proj2 (Z.leb_gt _ _)) by lia. cbn [negb orb].
  rewrite mbind_modify. set (s0 := s <| ram ::= _ |>). set (m1 := memset (ram s) pa 1 PGSIZE).
  assert (ram s0 = m1) as R0 by reflexivity.
  destruct (kmem_cycle s0 Hl Hc) as (s1 & H1 & R1 & F1 & H2). rewrite (mbind_Ok _ _ _ _ _ H1).
  unfold mmodify, mbind, obind. cbn [fst snd].
  set (m2 := store64 m1 pa (freelist s)).
  replace (s1 <| ram ::= fun m => store64 m pa (freelist s1) |>) with (s1 <| ram := m2 |>)
    by (unfold m2; rewrite <- R0, <- R1; change (freelist s) with (freelist s0); rewrite <- F1; by destruct s1).
  rewrite H2. exists m2. change (kmem_lock s0) with (kmem_lock s). change (vm_cpu s0) with (vm_cpu s).
  change (vm_hart s0) with (vm_hart s). split; [done|].
  assert (same_but pa (ram s) m2) as Hsb.
  { eapply same_but_trans; [apply (memset_page (ram s) pa 1)|]. apply store64_page; unfold PGSIZE; lia. }
  split; [|done]. split; cbn [kmem_lock vm_cpu ram freelist]; auto with kernel.
  - split; [done|]. unfold m2. rewrite load64_store64.
    + by apply (chain_same_but pa (ram s)).
    + destruct l as [|b l]; simpl in Hch; [rewrite Hch; lia|]. destruct Hch as [-> _].
      apply Forall_cons in Hpg as [[_ Hb] _]. unfold PHYSTOP, KERNBASE in Hb. lia.
  - apply NoDup_cons_2; assumption.
  - apply Forall_cons_2; [split|]; assumption.
Qed.

(** *** Boot: every page between the kernel image and PHYSTOP *)
Definition npages : nat := Z.to_nat ((PHYSTOP - PGROUNDUP kend) / PGSIZE).
Definition page_no (i : nat) : Z := PGROUNDUP kend + Z.of_nat i * PGSIZE.
Definition all_pages : list Z := page_no <$> seq 0 npages.

Hypothesis kend_top : kend <= PHYSTOP.

Lemma round_kend : kend <= PGROUNDUP kend /\ PGROUNDUP kend mod PGSIZE = 0.
Proof.
  destruct (PGROUNDUP_bounds kend) as [H1 H2]; [|lia]. revert kend_top. unfold PHYSTOP, KERNBASE, PGSIZE. lia.
Qed.
Lemma page_no_page i : (i < npages)%nat -> page (page_no i).
Proof.
  intros Hi. unfold page, page_no. destruct round_kend as [H1 H2].
  rewrite Z_mod_plus_full. split; [done|]. unfold npages, PGSIZE in *.
  pose proof (Z.mul_div_le (PHYSTOP - PGROUNDUP kend) 4096 ltac:(lia)). lia.
Qed.
Lemma page_no_inj i j : page_no i = page_no j -> i = j.
Proof. unfold page_no, PGSIZE. lia. Qed.
Lemma NoDup_all_pages : NoDup all_pages.
Proof. apply NoDup_fmap_2; [intros i j; apply page_no_inj|apply NoDup_seq]. Qed.

Lemma freerange_loop_ok n i s :
  (i + n = npages)%nat -> kmem_ok s (reverse (page_no <$> seq 0 i)) ->
  exists s', mloop (S n) (fun p => if p + PGSIZE <=? PHYSTOP then kfree p ;;; mret (inl (p + PGSIZE)) else mret (inr tt))
      (page_no i) s = Ok (tt, s') /\ kmem_ok s' (reverse all_pages).
Proof.
  revert i s. induction n as [|n IH]; intros i s Hi Hs.
  - exists s. split; [|by replace i with npages in Hs by lia].
    apply mloop_stop. rewrite (proj2 (Z.leb_gt _ _)); [done|].
    pose proof (Z.mod_pos_bound (PHYSTOP - PGROUNDUP kend) PGSIZE ltac:(unfold PGSIZE; lia)) as Hm.
    pose proof (Z.div_mod (PHYSTOP - PGROUNDUP kend) PGSIZE ltac:(unfold PGSIZE; lia)) as Hd.
    unfold page_no, npages, PGSIZE in *. lia.
  - assert (page (page_no i)) as Hpg by (apply page_no_page; lia).
    destruct (kfree_ok s _ (page_no i) Hs Hpg) as (m & H1 & H2 & _).
    { rewrite elem_of_reverse. intros (j & Heq & Hj)%list_elem_of_fmap.
      apply page_no_inj in Heq. apply elem_of_seq in Hj. lia. }
    rewrite <- reverse_snoc in H2. change [page_no i] with (page_no <$> [(0 + i)%nat]) in H2.
    rewrite <- fmap_app, <- (seq_S i 0) in H2.
    destruct (IH (S i) _ ltac:(lia) H2) as (s' & H3 & H4).
    exists s'. split; [|done]. erewrite mloop_next; [exact H3|].
    rewrite (proj2 (Z.leb_le _ _)).
    + rewrite (mbind_Ok _ _ _ _ _ H1). unfold mret. do 3 f_equal. unfold page_no. lia.
    + pose proof (page_no_page i ltac:(lia)) as [Hal Hrg].
      assert (PHYSTOP mod PGSIZE = 0) as Htop by reflexivity.
      pose proof (Z.div_mod (page_no i) PGSIZE ltac:(unfold PGSIZE; lia)).
      pose proof (Z.div_mod PHYSTOP PGSIZE ltac:(unfold PGSIZE; lia)). unfold PGSIZE in *. lia.
Qed.

Lemma kinit_ok s :
  cpu_wf (vm_cpu s) -> freelist s = 0 ->
  exists s', kinit s = Ok (tt, s') /\ kmem_ok s' (reverse all_pages).
Proof.
  intros Hc Hf. unfold kinit. rewrite mbind_modify. unfold freerange. fold npages.
  assert (PGROUNDUP kend = page_no 0) as -> by (unfold page_no; lia).
  apply (freerange_loop_ok npages 0); [done|].
  split; [by split|done|exact Hf|constructor|constructor].
Qed.

(** ** The allocator's contract over any run *)

(** A step of its clients: a call of kalloc, or a call of kfree on a page they
    own; [live] are the pages they own. *)
Inductive kstep : vmst * list Z -> vmst * list Z -> Prop :=
| ks_alloc s live r s' :
    kalloc s = Ok (r, s') -> kstep (s, live) (s', if decide (r = 0) then live else r :: live)
| ks_free s live pa s' :
    pa ∈ live -> kfree pa s = Ok (tt, s') -> kstep (s, live) (s', filter (.≠ pa) live).

Definition partition_ok (st : vmst * list Z) : Prop :=
  exists free, kmem_ok (fst st) free /\ free ++ snd st ≡ₚ all_pages.

Lemma all_pages_page a : a ∈ all_pages -> page a.
Proof. intros (i & -> & Hi)%list_elem_of_fmap. apply elem_of_seq in Hi. apply page_no_page. lia. Qed.

Lemma filter_remove (pa : Z) (l : list Z) : NoDup l -> pa ∈ l -> pa :: filter (.≠ pa) l ≡ₚ l.
Proof.
  induction l as [|b l IH]; intros Hnd Hin; [by apply not_elem_of_nil in Hin|].
  apply NoDup_cons in Hnd as [Hb Hnd]. rewrite filter_cons. destruct (decide (b ≠ pa)) as [Hne|Heq].
  - apply elem_of_cons in Hin as [->|Hin]; [done|]. by rewrite Permutation_swap, IH.
  - apply dec_stable in Heq as ->. f_equiv. clear IH Hin Hnd. induction l as [|c l IH]; [done|].
    apply not_elem_of_cons in Hb as [H1 H2]. rewrite filter_cons, decide_True by done. by rewrite IH.
Qed.

Lemma partition_free free live : free ++ live ≡ₚ all_pages -> NoDup (free ++ live).
Proof. intros ->. apply NoDup_all_pages. Qed.

Lemma partition_step st st' : partition_ok st -> kstep st st' -> partition_ok st'.
Proof.
  intros (free & Hk & Hp) Hs. destruct Hs as [s live r s' Ha|s live pa s' Hin Hf]; simpl in Hk, Hp.
  - destruct (kalloc_ok s free Hk) as (m & f & H1 & H2 & _). rewrite H1 in Ha.
    apply Ok_pair_inj in Ha as [<- <-]. exists (tail free). split; [exact H2|].
    destruct free as [|a free]; simpl in *.
    + exact Hp.
    + assert (page a) as Hpa by (apply all_pages_page; rewrite <- Hp; by left).
      rewrite decide_False by (by apply page_nonzero). by rewrite <- Permutation_middle.
  - pose proof (partition_free _ _ Hp) as Hnd. apply NoDup_app in Hnd as (_ & Hdisj & Hndl).
    assert (page pa) as Hpa by (apply all_pages_page; rewrite <- Hp; apply elem_of_app; by right).
    destruct (kfree_ok s free pa Hk Hpa) as (m & H1 & H2 & _); [intros H; by apply (Hdisj pa)|].
    rewrite H1 in Hf. apply Ok_pair_inj in Hf as [_ <-]. exists (pa :: free). split; [exact H2|].
    simpl. rewrite <- Hp, Permutation_middle. by rewrite filter_remove.
Qed.
End Specs.
End Kalloc.

(** ** Theorems *)

(** C14: from boot on, in any run in which clients free only pages they own, the
    free list and the owned pages are together exactly the pages between the
    kernel image and PHYSTOP, each once; both routines return without panic;
    kalloc returns 0 only when every page is owned and otherwise a page nobody
    owns, filled with junk, changing no byte outside it; and kfree changes no
    byte outside the page it is given. *)
Theorem kalloc_partition kend s0 s live :
  0 < kend <= PHYSTOP -> cpu_wf (vm_cpu s0) -> freelist s0 = 0 ->
  (exists s1, kinit kend s0 = Ok (tt, s1) /\ rtc (kstep kend) (s1, []) (s, live)) ->
  exists free, free ++ live ≡ₚ all_pages kend /\ NoDup (all_pages kend) /\
    (exists r s', kalloc s = Ok (r, s') /\
       if decide (r = 0) then live ≡ₚ all_pages kend /\ ram s' = ram s
       else r ∈ all_pages kend /\ r ∉ live /\ filled r 5 (ram s') /\ same_but r (ram s) (ram s')) /\
    (forall pa, pa ∈ live -> exists s', kfree kend pa s = Ok (tt, s') /\ freelist s' = pa /\
       same_but pa (ram s) (ram s')).
Proof.
  intros [Hk1 Hk2] Hc Hf (s1 & Hi & Hrun).
  assert (partition_ok kend (s, live)) as (free & Hk & Hp).
  { destruct (kinit_ok kend Hk1 Hk2 s0 Hc Hf) as (s' & Hi' & Hok). rewrite Hi in Hi'.
    apply Ok_pair_inj in Hi' as [_ <-].
    refine (rtc_ind_l (fun x => partition_ok kend x -> partition_ok kend (s, live)) (s, live) _ _ _ Hrun _).
    - done.
    - intros x y Hxy _ IH Hx. apply IH. by eapply partition_step.
    - exists (reverse (all_pages kend)). split; [exact Hok|]. simpl. by rewrite app_nil_r, reverse_Permutation. }
  simpl in Hk, Hp. exists free. split; [done|]. split; [apply NoDup_all_pages; lia|].
  pose proof (partition_free kend _ _ Hp) as (_ & Hdisj & Hndl)%NoDup_app. split.
  - destruct (kalloc_ok kend Hk1 s free Hk) as (m & f & H1 & H2 & H3). eexists _, _. split; [exact H1|].
    destruct free as [|a free]; cbn [hd ram]; [by rewrite decide_True|]. destruct H3 as [H3 H4].
    assert (page kend a) as Hpa by (apply all_pages_page; [done|done|]; rewrite <- Hp; by left).
    rewrite decide_False by (by apply (page_nonzero kend)). split; [rewrite <- Hp; by left|].
    split; [apply Hdisj; by left|done].
  - intros pa Hin. destruct (kfree_ok kend Hk1 s free pa Hk) as (m & H1 & H2 & H3).
    + apply all_pages_page; [done|done|]. rewrite <- Hp. apply elem_of_app. by right.
    + intros H. by apply (Hdisj pa).
    + eexists. split; [exact H1|]. done.
Qed.

(** Two free pages below PHYSTOP; one of them is handed out. *)
Definition kalloc_demo : vmst :=
  mkVmst (fun _ => 0) (initlock "") 0 (mkCpu None 0 false true) 0.

Lemma kalloc_partition_witness :
  exists s, exists free, free ++ [PHYSTOP - PGSIZE] ≡ₚ all_pages (PHYSTOP - 8000) /\
    NoDup (all_pages (PHYSTOP - 8000)) /\
    (exists r s', kalloc s = Ok (r, s') /\
       if decide (r = 0) then [PHYSTOP - PGSIZE] ≡ₚ all_pages (PHYSTOP - 8000) /\ ram s' = ram s
       else r ∈ all_pages (PHYSTOP - 8000) /\ r ∉ [PHYSTOP - PGSIZE] /\ filled r 5 (ram s') /\
         same_but r (ram s) (ram s')) /\
    (forall pa, pa ∈ [PHYSTOP - PGSIZE] -> exists s', kfree (PHYSTOP - 8000) pa s = Ok (tt, s') /\
       freelist s' = pa /\ same_but pa (ram s) (ram s')).
Proof.
  assert (cpu_wf (vm_cpu kalloc_demo)) as Hc by (split; simpl; [lia|done]).
  assert (0 < PHYSTOP - 8000 <= PHYSTOP) as Hk by (unfold PHYSTOP, KERNBASE; lia).
  destruct (kinit_ok (PHYSTOP - 8000) (proj1 Hk) (proj2 Hk) kalloc_demo Hc eq_refl) as (s1 & H1 & Hok).
  destruct (kalloc_ok (PHYSTOP - 8000) (proj1 Hk) s1 _ Hok) as (m & f & H2 & _).
  eexists. apply (kalloc_partition (PHYSTOP - 8000) kalloc_demo _ [PHYSTOP - PGSIZE] Hk Hc eq_refl).
  exists s1. split; [exact H1|]. eapply rtc_once. exact (ks_alloc _ s1 [] _ _ H2).
Defined.
