(* ===== verification/Vm.v ===== *)
(** * Virtual memory (kernel/vm.c)

    The routines of kernel/vm.c, and proc_mapstacks of kernel/proc.c, on the
    memory of [Kalloc]: a page table is a page of 512 words, found by its
    address.  Addresses are 64-bit and their arithmetic wraps.  A loop carries
    as fuel the number of pages of its range. *)
From stdpp Require Import base list strings.
From Stdlib Require Import ZArith Lia.
From S2P Require Import Prelude Spinlock KState CString Riscv Kalloc.

(** kernel/memlayout.h *)
Definition UART0 : Z := 268435456.
Definition VIRTIO0 : Z := 268439552.
Definition PLIC : Z := 201326592.

Definition load (a : Z) : M vmst Z := mreads (fun s => load64 (ram s) a).
Definition store_word (a v : Z) : M vmst unit :=
  mmodify (fun s => s <| ram ::= fun m => store64 m a v |>).
Definition fill (a c : Z) : M vmst unit :=
  mmodify (fun s => s <| ram ::= fun m => memset m a c PGSIZE |>).
Definition move (dst src n : Z) : M vmst unit :=
  mmodify (fun s => s <| ram ::= fun m => memmove m dst src n |>).
(** if (e & flag) *)
Definition has (e flag : Z) : bool := negb (Z.land e flag =? 0).
(** &pagetable[i] *)
Definition slot (pagetable i : Z) : Z := pagetable + 8 * i.

Section Vm.
(** Addresses set by the linker: end, etext and trampoline. *)
Variables (kend etext trampoline : Z).

Fixpoint walk_levels (levels : list Z) (pagetable va alloc : Z) : M vmst Z :=
  match levels with
  | [] => mret (slot pagetable (PX 0 va))
  | level :: levels =>
      let pte := slot pagetable (PX level va) in
      let* e := load pte in
      if has e PTE_V then walk_levels levels (PTE2PA e) va alloc
      else if alloc =? 0 then mret 0
      else
        let* pg := kalloc in
        if pg =? 0 then mret 0
        else
          fill pg 0 ;;;
          store_word pte (Z.lor (PA2PTE pg) PTE_V) ;;;
          walk_levels levels pg va alloc
  end.

Definition walk (pagetable va alloc : Z) : M vmst Z :=
  if MAXVA <=? va then mpanic "walk" else walk_levels [2; 1] pagetable va alloc.

Definition walkaddr (pagetable va : Z) : M vmst Z :=
  if MAXVA <=? va then mret 0
  else
    let* pte := walk pagetable va 0 in
    if pte =? 0 then mret 0
    else
      let* e := load pte in
      if negb (has e PTE_V) then mret 0
      else if negb (has e PTE_U) then mret 0
      else mret (PTE2PA e).

Definition mappages (pagetable va size pa perm : Z) : M vmst Z :=
  if negb (va mod PGSIZE =? 0) then mpanic "mappages: va not aligned"
  else if negb (size mod PGSIZE =? 0) then mpanic "mappages: size not aligned"
  else if size =? 0 then mpanic "mappages: size"
  else
    let last := u64 (va + size - PGSIZE) in
    mloop (Z.to_nat (size / PGSIZE)) (fun '(a, pa) =>
      let* pte := walk pagetable a 1 in
      if pte =? 0 then mret (inr (-1))
      else
        let* e := load pte in
        if has e PTE_V then mpanic "mappages: remap"
        else
          store_word pte (Z.lor (Z.lor (PA2PTE pa) perm) PTE_V) ;;;
          (if a =? last then mret (inr 0)
           else mret (inl (u64 (a + PGSIZE), u64 (pa + PGSIZE))))) (va, pa).

Definition uvmcreate : M vmst Z :=
  let* pagetable := kalloc in
  if pagetable =? 0 then mret 0
  else fill pagetable 0 ;;; mret pagetable.

Definition uvmunmap (pagetable va npages do_free : Z) : M vmst unit :=
  if negb (va mod PGSIZE =? 0) then mpanic "uvmunmap: not aligned"
  else
    let lim := u64 (va + u64 (npages * PGSIZE)) in
    mloop (S (Z.to_nat npages)) (fun a =>
      if a <? lim then
        let* pte := walk pagetable a 0 in
        if pte =? 0 then mret (inl (u64 (a + PGSIZE)))
        else
          let* e := load pte in
          if negb (has e PTE_V) then mret (inl (u64 (a + PGSIZE)))
          else
            (if do_free =? 0 then mret tt else kfree kend (PTE2PA e)) ;;;
            store_word pte 0 ;;;
            mret (inl (u64 (a + PGSIZE)))
      else mret (inr tt)) va.

Definition uvmdealloc (pagetable oldsz newsz : Z) : M vmst Z :=
  if oldsz <=? newsz then mret oldsz
  else
    (if PGROUNDUP newsz <? PGROUNDUP oldsz
     then
       let npages := i32 (u64 (PGROUNDUP oldsz - PGROUNDUP newsz) / PGSIZE) in
       uvmunmap pagetable (PGROUNDUP newsz) (u64 npages) 1
     else mret tt) ;;;
    mret newsz.

Definition uvmalloc (pagetable oldsz newsz xperm : Z) : M vmst Z :=
  if newsz <? oldsz then mret oldsz
  else
    let oldsz := PGROUNDUP oldsz in
    mloop (S (Z.to_nat ((newsz - oldsz + PGSIZE - 1) / PGSIZE))) (fun a =>
      if a <? newsz then
        let* pg := kalloc in
        if pg =? 0 then uvmdealloc pagetable a oldsz ;;; mret (inr 0)
        else
          fill pg 0 ;;;
          let* r := mappages pagetable a PGSIZE pg (Z.lor (Z.lor PTE_R PTE_U) xperm) in
          if negb (r =? 0)
          then kfree kend pg ;;; uvmdealloc pagetable a oldsz ;;; mret (inr 0)
          else mret (inl (u64 (a + PGSIZE)))
      else mret (inr newsz)) oldsz.

(** The recursion descends one level of the tree per call, [fuel] levels at
    most. *)
Fixpoint freewalk (fuel : nat) (pagetable : Z) : M vmst unit :=
  match fuel with
  | O => mnofuel
  | S fuel =>
      for_each (seq 0 512) (fun i =>
        let* pte := load (slot pagetable (Z.of_nat i)) in
        if has pte PTE_V && negb (has pte (Z.lor (Z.lor PTE_R PTE_W) PTE_X)) then
          let child := PTE2PA pte in
          freewalk fuel child ;;;
          store_word (slot pagetable (Z.of_nat i)) 0
        else if has pte PTE_V then mpanic "freewalk: leaf"
        else mret tt) ;;;
      kfree kend pagetable
  end.

Definition uvmfree (pagetable sz : Z) : M vmst unit :=
  (if 0 <? sz then uvmunmap pagetable 0 (PGROUNDUP sz / PGSIZE) 1 else mret tt) ;;;
  freewalk 3 pagetable.

Definition uvmcopy (old new sz : Z) : M vmst Z :=
  mloop (S (Z.to_nat ((sz + PGSIZE - 1) / PGSIZE))) (fun i =>
    if i <? sz then
      let* pte := walk old i 0 in
      if pte =? 0 then mret (inl (u64 (i + PGSIZE)))
      else
        let* e := load pte in
        if negb (has e PTE_V) then mret (inl (u64 (i + PGSIZE)))
        else
          let pa := PTE2PA e in
          let flags := PTE_FLAGS e in
          let* pg := kalloc in
          if pg =? 0 then uvmunmap new 0 (i / PGSIZE) 1 ;;; mret (inr (-1))
          else
            move pg pa PGSIZE ;;;
            let* r := mappages new i PGSIZE pg flags in
            if negb (r =? 0)
            then kfree kend pg ;;; uvmunmap new 0 (i / PGSIZE) 1 ;;; mret (inr (-1))
            else mret (inl (u64 (i + PGSIZE)))
    else mret (inr 0)) 0.

Definition uvmclear (pagetable va : Z) : M vmst unit :=
  let* pte := walk pagetable va 0 in
  if pte =? 0 then mpanic "uvmclear"
  else
    let* e := load pte in
    store_word pte (Z.land e (u64 (Z.lnot PTE_U))).

Definition ismapped (pagetable va : Z) : M vmst Z :=
  let* pte := walk pagetable va 0 in
  if pte =? 0 then mret 0
  else
    let* e := load pte in
    if has e PTE_V then mret 1 else mret 0.

Definition vmfault (pagetable psz va read : Z) : M vmst Z :=
  if psz <=? va then mret 0
  else
    let va := PGROUNDDOWN va in
    let* mapped := ismapped pagetable va in
    if negb (mapped =? 0) then mret 0
    else
      let* pg := kalloc in
      if pg =? 0 then mret 0
      else
        fill pg 0 ;;;
        let* r := mappages pagetable va PGSIZE pg (Z.lor (Z.lor PTE_W PTE_U) PTE_R) in
        if negb (r =? 0) then kfree kend pg ;;; mret 0
        else mret pg.

(** The page that walkaddr finds, or that vmfault allocates; 0 if neither. *)
Definition user_page (pagetable psz va0 read : Z) : M vmst Z :=
  let* pa0 := walkaddr pagetable va0 in
  if pa0 =? 0 then vmfault pagetable psz va0 read else mret pa0.

(** [src] and [dst] are kernel addresses.  Each iteration of the copying loops
    finishes a page, so [len / PGSIZE + 2] iterations suffice. *)
Definition copyout (pagetable psz dstva src len : Z) : M vmst Z :=
  mloop (Z.to_nat (len / PGSIZE) + 3) (fun '(dstva, src, len) =>
    if 0 <? len then
      let va0 := PGROUNDDOWN dstva in
      if MAXVA <=? va0 then mret (inr (-1))
      else
        let* pa0 := user_page pagetable psz va0 0 in
        if pa0 =? 0 then mret (inr (-1))
        else
          let* pte := walk pagetable va0 0 in
          if pte =? 0 then mub
          else
            let* e := load pte in
            if negb (has e PTE_W) then mret (inr (-1))
            else
              let n := u64 (PGSIZE - (dstva - va0)) in
              let n := if len <? n then len else n in
              move (pa0 + (dstva - va0)) src n ;;;
              mret (inl (u64 (va0 + PGSIZE), src + n, u64 (len - n)))
    else mret (inr 0)) (dstva, src, len).

Definition copyin (pagetable psz dst srcva len : Z) : M vmst Z :=
  mloop (Z.to_nat (len / PGSIZE) + 3) (fun '(dst, srcva, len) =>
    if 0 <? len then
      let va0 := PGROUNDDOWN srcva in
      let* pa0 := user_page pagetable psz va0 1 in
      if pa0 =? 0 then mret (inr (-1))
      else
        let n := u64 (PGSIZE - (srcva - va0)) in
        let n := if len <? n then len else n in
        move dst (pa0 + (srcva - va0)) n ;;;
        mret (inl (dst + n, u64 (va0 + PGSIZE), u64 (len - n)))
    else mret (inr 0)) (dst, srcva, len).

(** The inner loop of copyinstr: [n] bytes are left in the page; the result is
    got_null with the new [max] and [dst]. *)
Fixpoint copy_str (n : nat) (p dst max : Z) : M vmst (bool * Z * Z) :=
  match n with
  | O => mret (false, max, dst)
  | S n =>
      let* c := mreads (fun s => ram s p) in
      if c =? 0 then
        mmodify (fun s => s <| ram ::= fun m => store m dst 0 |>) ;;;
        mret (true, max, dst)
      else
        mmodify (fun s => s <| ram ::= fun m => store m dst c |>) ;;;
        copy_str n (p + 1) (dst + 1) (max - 1)
  end.

Definition copyinstr (pagetable psz dst srcva max : Z) : M vmst Z :=
  mloop (Z.to_nat (max / PGSIZE) + 3) (fun '(got_null, dst, srcva, max) =>
    if negb got_null && (0 <? max) then
      let va0 := PGROUNDDOWN srcva in
      let* pa0 := user_page pagetable psz va0 1 in
      if pa0 =? 0 then mret (inr (-1))
      else
        let n := u64 (PGSIZE - (srcva - va0)) in
        let n := if max <? n then max else n in
        let* r := copy_str (Z.to_nat n) (pa0 + (srcva - va0)) dst max in
        let '(got_null, max, dst) := r in
        mret (inl (got_null, dst, u64 (va0 + PGSIZE), max))
    else mret (inr (if (got_null : bool) then 0 else -1))) (false, dst, srcva, max).

(** ** The kernel's page table *)
Definition kvmmap (kpgtbl va pa sz perm : Z) : M vmst unit :=
  let* r := mappages kpgtbl va sz pa perm in
  if negb (r =? 0) then mpanic "kvmmap" else mret tt.

(** kernel/proc.c *)
Definition proc_mapstacks (kpgtbl : Z) : M vmst unit :=
  for_each (seq 0 NPROC) (fun i =>
    let* pa := kalloc in
    if pa =? 0 then mpanic "kalloc"
    else kvmmap kpgtbl (KSTACK (Z.of_nat i)) pa PGSIZE (Z.lor PTE_R PTE_W)).

Definition kvmmake : M vmst Z :=
  let* kpgtbl := kalloc in
  fill kpgtbl 0 ;;;
  kvmmap kpgtbl UART0 UART0 PGSIZE (Z.lor PTE_R PTE_W) ;;;
  kvmmap kpgtbl VIRTIO0 VIRTIO0 PGSIZE (Z.lor PTE_R PTE_W) ;;;
  kvmmap kpgtbl PLIC PLIC 67108864 (Z.lor PTE_R PTE_W) ;;;
  kvmmap kpgtbl KERNBASE KERNBASE (etext - KERNBASE) (Z.lor PTE_R PTE_X) ;;;
  kvmmap kpgtbl etext etext (PHYSTOP - etext) (Z.lor PTE_R PTE_W) ;;;
  kvmmap kpgtbl TRAMPOLINE trampoline PGSIZE (Z.lor PTE_R PTE_X) ;;;
  proc_mapstacks kpgtbl ;;;
  mret kpgtbl.
End Vm.
