(* ===== verification/VmTree.v ===== *)
(** * Page-table trees

    The abstract view of a page table in memory: the map [T] from the index
    paths of its table pages to their addresses (the root has the empty path)
    and the map [L] from full paths to the leaf entries.  [tree_ok] says that
    memory represents them; walk() is related to them here. *)
From stdpp Require Import base list strings gmap.
From Stdlib Require Import ZArith Lia.
From S2P Require Import Prelude Spinlock CString Riscv Kalloc Vm.

Definition idx (i : Z) : Prop := 0 <= i < 512.
Notation path := (list Z) (only parsing).
(** The interior entry for a child table, or for none. *)
Definition link (o : option Z) : Z :=
  match o with Some p => Z.lor (PA2PTE p) PTE_V | None => 0 end.
Definition vpath (va : Z) : list Z := [PX 2 va; PX 1 va; PX 0 va].
(** Where walk() ends: the address of the leaf entry, 0 without a table. *)
Definition vslot (T : gmap (list Z) Z) (va : Z) : Z :=
  match T !! [PX 2 va; PX 1 va] with Some q => slot q (PX 0 va) | None => 0 end.
(** The pages of a map of tables. *)
Definition tpages (T : gmap (list Z) Z) : list Z := (map_to_list T).*2.

(** [m'] agrees with [m] outside the pages of [l]. *)
Definition keeps (l : list Z) (m m' : mem) : Prop :=
  forall x, (forall p, p ∈ l -> ~ (p <= x < p + PGSIZE)) -> m' x = m x.

Record tree_ok (kend : Z) (m : mem) (T L : gmap (list Z) Z) : Prop := {
  to_page π p : T !! π = Some p -> page kend p /\ (length π <= 2)%nat /\ Forall idx π;
  to_inj π π' p : T !! π = Some p -> T !! π' = Some p -> π = π';
  to_link π p i : T !! π = Some p -> (length π < 2)%nat -> idx i ->
    load64 m (slot p i) = link (T !! (π ++ [i]));
  to_leaf π p i : T !! π = Some p -> length π = 2%nat -> idx i ->
    load64 m (slot p i) = default 0 (L !! (π ++ [i]));
  to_leaf_ok π e : L !! π = Some e -> exists π' i, π = π' ++ [i] /\ length π' = 2%nat /\
    is_Some (T !! π') /\ idx i /\ 0 <= e < 2 ^ 64 /\ has e PTE_V = true
}.

(** Every table other than the root hangs off a table. *)
Definition closed (T : gmap (list Z) Z) : Prop :=
  forall π i p, T !! (π ++ [i]) = Some p -> is_Some (T !! π).

(** An address space at rest, with the free pages [free]. *)
Record as_ok (kend : Z) (s : vmst) (root : Z) (T L : gmap (list Z) Z) (free : list Z) : Prop := {
  ao_kmem : kmem_ok kend s free;
  ao_tree : tree_ok kend (ram s) T L;
  ao_closed : closed T;
  ao_root : T !! [] = Some root;
  ao_disj π p : T !! π = Some p -> p ∉ free
}.

(** ** Index and entry arithmetic *)
Lemma PX_idx level va : idx (PX level va).
Proof.
  unfold PX, idx, PXMASK. change 511 with (Z.ones 9). rewrite Z.land_ones by lia.
  apply Z.mod_pos_bound. lia.
Qed.
#[export] Hint Resolve PX_idx : kernel.

Lemma PX_spec level va : 0 <= level -> PX level va = va / 2 ^ (12 + 9 * level) mod 512.
Proof.
  intros H. unfold PX, PXMASK, PXSHIFT, PGSHIFT. change 511 with (Z.ones 9).
  rewrite Z.land_ones, Z.shiftr_div_pow2 by lia. done.
Qed.

Lemma vpath_inj va va' :
  0 <= va < MAXVA -> 0 <= va' < MAXVA -> vpath va = vpath va' -> va / PGSIZE = va' / PGSIZE.
Proof.
  intros H H' Heq. change MAXVA with (2 ^ 38) in *. injection Heq as H2 H1 H0.
  rewrite !PX_spec in * by lia. change (2 ^ (12 + 9 * 0)) with 4096 in *.
  change (2 ^ (12 + 9 * 1)) with (4096 * 512) in *. change (2 ^ (12 + 9 * 2)) with (4096 * (512 * 512)) in *.
  rewrite <- (Z.div_div va 4096 512), <- (Z.div_div va' 4096 512) in H1 by lia.
  rewrite <- (Z.div_div va 4096 (512 * 512)), <- (Z.div_div va' 4096 (512 * 512)) in H2 by lia.
  rewrite <- (Z.div_div (va / 4096) 512 512), <- (Z.div_div (va' / 4096) 512 512) in H2 by lia. unfold PGSIZE.
  assert (0 <= va / 4096 < 2 ^ 26) by (split; [apply Z.div_pos; lia|apply Z.div_lt_upper_bound; lia]).
  assert (0 <= va' / 4096 < 2 ^ 26) by (split; [apply Z.div_pos; lia|apply Z.div_lt_upper_bound; lia]).
  revert H0 H1 H2. generalize dependent (va / 4096). generalize dependent (va' / 4096). clear.
  intros b Hb a Ha H0 H1 H2.
  pose proof (Z.div_mod a 512). pose proof (Z.div_mod b 512).
  pose proof (Z.div_mod (a / 512) 512). pose proof (Z.div_mod (b / 512) 512).
  assert (0 <= a / 512 / 512 < 512 /\ 0 <= b / 512 / 512 < 512) as [Hqa Hqb].
  { rewrite !Z.div_div by lia. split; (split; [apply Z.div_pos; lia|apply Z.div_lt_upper_bound; lia]). }
  rewrite (Z.mod_small (a / 512 / 512)), (Z.mod_small (b / 512 / 512)) in H2 by done. lia.
Qed.

Lemma page_addr kend p : 0 < kend -> page kend p -> 0 <= p < 2 ^ 56 /\ p mod PGSIZE = 0.
Proof. intros Hk [H1 H2]. unfold PHYSTOP, KERNBASE in H2. split; [lia|done]. Qed.

Lemma PA2PTE_low pa : Z.land (PA2PTE pa) 1023 = 0.
Proof.
  unfold PA2PTE. change 1023 with (Z.ones 10). rewrite Z.land_ones by lia. unfold u64.
  rewrite Z.shiftl_mul_pow2 by lia. change (2 ^ 64) with (2 ^ 54 * 2 ^ 10).
  rewrite Z.mul_mod_distr_r, Z.mod_mul by lia. done.
Qed.
Lemma PA2PTE_range pa : 0 <= PA2PTE pa < 2 ^ 64.
Proof. apply u64_range. Qed.

(** The low flag bits of an entry built from an address are its flags. *)
Lemma has_entry pa flags f :
  0 <= flags < 1024 -> 0 <= f < 1024 -> has (Z.lor (PA2PTE pa) flags) f = has flags f.
Proof.
  intros Hfl Hf. unfold has. f_equal. f_equal. rewrite Z.land_lor_distr_l.
  assert (Z.land (PA2PTE pa) f = 0) as ->; [|apply Z.lor_0_l].
  assert (f = Z.land 1023 f) as ->.
  { change 1023 with (Z.ones 10). rewrite Z.land_comm, Z.land_ones by lia. symmetry. by apply Z.mod_small. }
  rewrite Z.land_assoc, PA2PTE_low. apply Z.land_0_l.
Qed.

Lemma link_decode kend p :
  0 < kend -> page kend p ->
  has (link (Some p)) PTE_V = true /\ PTE2PA (link (Some p)) = p /\
  has (link (Some p)) (Z.lor (Z.lor PTE_R PTE_W) PTE_X) = false.
Proof.
  intros Hk Hp. destruct (page_addr _ _ Hk Hp) as [H1 H2]. cbn [link]. unfold PTE_V, PTE_R, PTE_W, PTE_X in *.
  rewrite !has_entry by (cbv; done || (split; [discriminate|reflexivity])).
  split; [done|]. split; [|done]. apply PTE2PA_PA2PTE; [done|done|]. cbv. done || (split; [discriminate|reflexivity]).
Qed.
Lemma link_range o : 0 <= link o < 2 ^ 64.
Proof.
  destruct o as [p|]; cbn [link]; [|lia]. split.
  - apply Z.lor_nonneg. split; [apply PA2PTE_range|done].
  - assert (0 <= Z.lor (PA2PTE p) PTE_V) as H0 by (apply Z.lor_nonneg; split; [apply PA2PTE_range|done]).
    destruct (decide (Z.lor (PA2PTE p) PTE_V = 0)) as [->|]; [lia|].
    apply Z.log2_lt_pow2; [lia|]. rewrite Z.log2_lor by (apply PA2PTE_range || done).
    pose proof (PA2PTE_range p). destruct (decide (PA2PTE p = 0)) as [->|]; [done|].
    assert (Z.log2 (PA2PTE p) < 64) by (apply Z.log2_lt_pow2; lia). change (Z.log2 PTE_V) with 0. lia.
Qed.

(** ** Pages of a tree *)
Section Tree.
Context (kend : Z) (kend_pos : 0 < kend).

Lemma slot_in_page p i : idx i -> p <= slot p i /\ slot p i + 8 <= p + PGSIZE.
Proof. unfold idx, slot, PGSIZE. lia. Qed.

Lemma elem_tpages T p : p ∈ tpages T <-> exists π, T !! π = Some p.
Proof.
  unfold tpages. rewrite list_elem_of_fmap. split.
  - intros ([π q] & -> & H). apply elem_of_map_to_list in H. eauto.
  - intros (π & H). exists (π, p). split; [done|]. by apply elem_of_map_to_list.
Qed.
Lemma tpages_insert T π p : T !! π = None -> tpages (<[π := p]> T) ≡ₚ p :: tpages T.
Proof. intros H. unfold tpages. by rewrite map_to_list_insert. Qed.

Lemma keeps_refl l m : keeps l m m.
Proof. by intros x _. Qed.
Lemma keeps_mono l l' m m' : l ⊆ l' -> keeps l m m' -> keeps l' m m'.
Proof. intros Hl H x Hx. apply H. intros p Hp. apply Hx. by apply Hl. Qed.
Lemma keeps_trans l m1 m2 m3 : keeps l m1 m2 -> keeps l m2 m3 -> keeps l m1 m3.
Proof. intros H1 H2 x Hx. by rewrite H2, H1. Qed.
Lemma keeps_same_but p l m m' : same_but p m m' -> p ∈ l -> keeps l m m'.
Proof. intros H Hp x Hx. apply H. by apply Hx. Qed.

(** A page outside [l] is unchanged. *)
Lemma keeps_page l m m' q x :
  keeps l m m' -> (forall p, p ∈ l -> p mod PGSIZE = 0) -> q mod PGSIZE = 0 -> q ∉ l ->
  q <= x < q + PGSIZE -> m' x = m x.
Proof.
  intros H Hl Hq Hn Hx. apply H. intros p Hp Hpx.
  assert (p <> q) as Hne by (by intros ->).
  pose proof (pages_apart p q (Hl p Hp) Hq Hne). lia.
Qed.

Lemma tree_frame m m' T L :
  (forall π p x, T !! π = Some p -> p <= x < p + PGSIZE -> m' x = m x) ->
  tree_ok kend m T L -> tree_ok kend m' T L.
Proof.
  intros Hm [H1 H2 H3 H4 H5]. split; try done.
  - intros π p i Hp Hl Hi. rewrite <- (H3 π p i Hp Hl Hi). apply load64_ext. intros x Hx.
    apply (Hm π p x Hp). pose proof (slot_in_page p i Hi). lia.
  - intros π p i Hp Hl Hi. rewrite <- (H4 π p i Hp Hl Hi). apply load64_ext. intros x Hx.
    apply (Hm π p x Hp). pose proof (slot_in_page p i Hi). lia.
Qed.

(** The tree does not depend on pages outside it. *)
Lemma tree_keeps l m m' T L :
  keeps l m m' -> (forall p, p ∈ l -> p mod PGSIZE = 0) -> (forall π p, T !! π = Some p -> p ∉ l) ->
  tree_ok kend m T L -> tree_ok kend m' T L.
Proof.
  intros Hk Hl Hd Ht. apply (tree_frame m); [|done]. intros π p x Hp Hx.
  apply (keeps_page l m m' p x Hk Hl); [|by eapply Hd|done]. apply (to_page _ _ _ _ Ht _ _ Hp).
Qed.

Lemma slots_apart p q i j :
  p mod PGSIZE = 0 -> q mod PGSIZE = 0 -> idx i -> idx j -> p <> q \/ i <> j ->
  slot q j + 8 <= slot p i \/ slot p i + 8 <= slot q j.
Proof.
  intros Hp Hq Hi Hj H. destruct (decide (p = q)) as [->|Hne].
  - destruct H as [|H]; [done|]. unfold slot. lia.
  - pose proof (pages_apart p q Hp Hq Hne). unfold slot, idx, PGSIZE in *. lia.
Qed.

Lemma slot_out m T L π q i e π' p j :
  tree_ok kend m T L -> T !! π = Some q -> idx i -> T !! π' = Some p -> idx j -> π' <> π \/ j <> i ->
  load64 (store64 m (slot q i) e) (slot p j) = load64 m (slot p j).
Proof.
  intros [H1 H2 _ _ _] Hq Hi Hp Hj Hne. apply load64_store64_ne. apply slots_apart; try done.
  - apply (H1 _ _ Hp).
  - apply (H1 _ _ Hq).
  - destruct Hne as [Hne|]; [left|by right]. intros ->. apply Hne. by eapply H2.
Qed.

(** Writing one leaf entry changes that entry. *)
Lemma tree_set_leaf m T L π q i e :
  tree_ok kend m T L -> T !! π = Some q -> length π = 2%nat -> idx i ->
  0 <= e < 2 ^ 64 -> has e PTE_V = true ->
  tree_ok kend (store64 m (slot q i) e) T (<[π ++ [i] := e]> L).
Proof.
  intros Ht Hq Hl Hi He Hv. assert (Hout := fun π' p j => slot_out m T L π q i e π' p j Ht Hq Hi).
  destruct Ht as [H1 H2 H3 H4 H5].
  split; [done|done| | |].
  - intros π' p j Hp Hl' Hj. rewrite (Hout π' p j Hp Hj); [by apply H3|]. left. intros ->. lia.
  - intros π' p j Hp Hl' Hj. destruct (decide (π' = π /\ j = i)) as [[-> ->]|Hne].
    + assert (p = q) as -> by congruence. rewrite lookup_insert_eq, load64_store64 by done. done.
    + rewrite lookup_insert_ne.
      * rewrite (Hout π' p j Hp Hj); [by apply H4|]. destruct (decide (π' = π)); [right|by left]. naive_solver.
      * intros Heq. apply Hne. apply app_inj_tail in Heq as [? ?]. done.
  - intros π' e' He'. destruct (decide (π' = π ++ [i])) as [->|Hne].
    + rewrite lookup_insert_eq in He'. injection He' as <-. exists π, i. split; [done|]. split; [done|]. split; [by eexists|]. done.
    + rewrite lookup_insert_ne in He' by done. by apply H5.
Qed.

(** Clearing one. *)
Lemma tree_clear_leaf m T L π q i :
  tree_ok kend m T L -> T !! π = Some q -> length π = 2%nat -> idx i ->
  tree_ok kend (store64 m (slot q i) 0) T (delete (π ++ [i]) L).
Proof.
  intros Ht Hq Hl Hi. assert (Hout := fun π' p j => slot_out m T L π q i 0 π' p j Ht Hq Hi).
  destruct Ht as [H1 H2 H3 H4 H5].
  split; [done|done| | |].
  - intros π' p j Hp Hl' Hj. rewrite (Hout π' p j Hp Hj); [by apply H3|]. left. intros ->. lia.
  - intros π' p j Hp Hl' Hj. destruct (decide (π' = π /\ j = i)) as [[-> ->]|Hne].
    + assert (p = q) as -> by congruence. rewrite lookup_delete_eq, load64_store64 by lia. done.
    + rewrite lookup_delete_ne.
      * rewrite (Hout π' p j Hp Hj); [by apply H4|]. destruct (decide (π' = π)); [right|by left]. naive_solver.
      * intros Heq. apply Hne. apply app_inj_tail in Heq as [? ?]. done.
  - intros π' e' He'. apply lookup_delete_Some in He' as [_ He']. by apply H5.
Qed.

(** Hanging the zeroed page [a] below the table [π]. *)
Lemma filled_load64 a m i : filled a 0 m -> idx i -> load64 m (slot a i) = 0.
Proof.
  intros Hf Hi. unfold load64. pose proof (slot_in_page a i Hi) as Hs.
  assert (bytes_at m (slot a i) 8 = bytes_at (fun _ => 0) 0 8) as ->; [|done].
  apply list_fmap_ext. intros n y Hy. apply lookup_seq in Hy as [-> Hy]. apply Hf. lia.
Qed.

Lemma tree_grow m m1 T L π p i a :
  tree_ok kend m T L -> T !! π = Some p -> (length π < 2)%nat -> idx i -> T !! (π ++ [i]) = None ->
  page kend a -> (forall π' q, T !! π' = Some q -> q <> a) ->
  same_but a m m1 -> filled a 0 m1 -> closed T ->
  tree_ok kend (store64 m1 (slot p i) (link (Some a))) (<[π ++ [i] := a]> T) L.
Proof.
  intros Ht Hp Hl Hi Hnone Ha Hfresh Hsb Hfill Hcl.
  assert (p <> a) as Hpa by (by eapply Hfresh).
  assert (p mod PGSIZE = 0 /\ a mod PGSIZE = 0) as [Hpal Haal] by (split; [apply (to_page _ _ _ _ Ht _ _ Hp)|apply Ha]).
  assert (tree_ok kend m1 T L) as Ht1.
  { apply (tree_frame m m1); [|done]. intros π' q x Hq Hx. apply Hsb.
    pose proof (pages_apart q a (proj1 (proj1 (to_page _ _ _ _ Ht _ _ Hq))) Haal (Hfresh _ _ Hq)). lia. }
  clear Ht Hsb m. destruct Ht1 as [H1 H2 H3 H4 H5] eqn:E. clear E.
  assert (Hout := fun π' q j => slot_out m1 T L π p i (link (Some a)) π' q j Ht1 Hp Hi).
  assert (forall j, idx j -> load64 (store64 m1 (slot p i) (link (Some a))) (slot a j) = 0) as Hza.
  { intros j Hj. rewrite load64_store64_ne; [by apply filled_load64|].
    apply slots_apart; try done. left. congruence. }
  assert (forall j, T !! ((π ++ [i]) ++ [j]) = None) as Hsub.
  { intros j. destruct (T !! ((π ++ [i]) ++ [j])) eqn:E; [|done].
    apply Hcl in E as [? E]. congruence. }
  assert (length (π ++ [i]) = S (length π)) as Hlen by (rewrite length_app; simpl; lia).
  split.
  - intros π' q Hq. destruct (decide (π' = π ++ [i])) as [->|Hne].
    + rewrite lookup_insert_eq in Hq. injection Hq as <-. split; [done|]. split; [lia|].
      apply Forall_app. split; [apply (H1 _ _ Hp)|by apply Forall_singleton].
    + rewrite lookup_insert_ne in Hq by done. by apply H1.
  - intros π1 π2 q Hq1 Hq2. apply lookup_insert_Some in Hq1 as [[<- <-]|[Hn1 Hq1]];
      apply lookup_insert_Some in Hq2 as [[<- ?]|[Hn2 Hq2]]; subst; try done.
    + by destruct (Hfresh _ _ Hq2).
    + by destruct (Hfresh _ _ Hq1).
    + by eapply H2.
  - intros π' q j Hq Hl' Hj. apply lookup_insert_Some in Hq as [[<- <-]|[Hne Hq]].
    + rewrite Hza by done. rewrite lookup_insert_ne by (intros Heq; apply (f_equal length) in Heq; rewrite !length_app in Heq; simpl in Heq; lia).
      by rewrite Hsub.
    + destruct (decide (π' = π /\ j = i)) as [[-> ->]|Hne'].
      * assert (q = p) as -> by congruence. rewrite load64_store64 by apply link_range. by rewrite lookup_insert_eq.
      * rewrite lookup_insert_ne by (intros Heq; apply Hne'; by apply app_inj_tail in Heq as [-> ->]).
        rewrite (Hout π' q j Hq Hj); [by apply H3|]. destruct (decide (π' = π)); [right|by left]. naive_solver.
  - intros π' q j Hq Hl' Hj. apply lookup_insert_Some in Hq as [[<- <-]|[Hne Hq]].
    + rewrite Hza by done. destruct (L !! ((π ++ [i]) ++ [j])) as [e|] eqn:E; [|done].
      apply H5 in E as (π2 & j2 & Heq & _ & [? HT] & _). apply app_inj_tail in Heq as [<- _]. congruence.
    + rewrite (Hout π' q j Hq Hj); [by apply H4|]. left. intros ->. lia.
  - intros π' e He. destruct (H5 π' e He) as (π2 & j & -> & Hl2 & [q HT] & Hrest).
    exists π2, j. split; [done|]. split; [done|]. split; [|done].
    destruct (decide (π2 = π ++ [i])) as [->|]; [by rewrite lookup_insert_eq|by rewrite lookup_insert_ne].
Qed.

Lemma closed_grow T π p i a :
  closed T -> T !! π = Some p -> closed (<[π ++ [i] := a]> T).
Proof.
  intros Hcl Hp π' j q Hq.
  assert (is_Some (T !! π')) as [r Hr].
  { apply lookup_insert_Some in Hq as [[Heq _]|[_ Hq]]; [|by eapply Hcl].
    apply app_inj_tail in Heq as [<- _]. by eexists. }
  destruct (decide (π' = π ++ [i])) as [->|]; [by rewrite lookup_insert_eq|by rewrite lookup_insert_ne].
Qed.

(** ** walk() *)
Lemma mbind_load {A} a (k : Z -> M vmst A) s : mbind (load a) k s = k (load64 (ram s) a) s.
Proof. reflexivity. Qed.

Lemma walk_level levels level va alloc s T L π p q :
  tree_ok kend (ram s) T L -> T !! π = Some p -> (length π < 2)%nat ->
  T !! (π ++ [PX level va]) = Some q ->
  walk_levels (level :: levels) p va alloc s = walk_levels levels q va alloc s.
Proof.
  intros Ht Hp Hl Hq. cbn [walk_levels]. rewrite mbind_load.
  rewrite (to_link _ _ _ _ Ht π p) by auto with kernel. rewrite Hq.
  destruct (link_decode kend q kend_pos) as (H1 & H2 & _); [apply (to_page _ _ _ _ Ht _ _ Hq)|].
  rewrite H1. by rewrite H2.
Qed.

Lemma walk_stop levels level va s T L π p :
  tree_ok kend (ram s) T L -> T !! π = Some p -> (length π < 2)%nat ->
  T !! (π ++ [PX level va]) = None ->
  walk_levels (level :: levels) p va 0 s = Ok (0, s).
Proof.
  intros Ht Hp Hl Hq. cbn [walk_levels]. rewrite mbind_load.
  rewrite (to_link _ _ _ _ Ht π p) by auto with kernel. by rewrite Hq.
Qed.

Lemma walk_below va pt alloc s : va < MAXVA -> walk pt va alloc s = walk_levels [2; 1] pt va alloc s.
Proof. intros H. unfold walk. by rewrite (proj2 (Z.leb_gt _ _)). Qed.

(** Without allocation walk() finds the leaf entry of the tree and changes
    nothing. *)
Lemma walk_find s T L root va :
  tree_ok kend (ram s) T L -> closed T -> T !! [] = Some root -> va < MAXVA ->
  walk root va 0 s = Ok (vslot T va, s).
Proof.
  intros Ht Hcl Hr Hva. rewrite walk_below by done. unfold vslot.
  destruct (T !! [PX 2 va]) as [p|] eqn:Hp.
  - rewrite (walk_level _ _ _ _ _ T L [] root p) by (done || simpl; lia).
    destruct (T !! [PX 2 va; PX 1 va]) as [q|] eqn:Hq.
    + by rewrite (walk_level _ _ _ _ _ T L [PX 2 va] p q) by (done || simpl; lia).
    + by rewrite (walk_stop _ _ _ _ T L [PX 2 va] p) by (done || simpl; lia).
  - rewrite (walk_stop _ _ _ _ T L [] root) by (done || simpl; lia).
    destruct (T !! [PX 2 va; PX 1 va]) as [q|] eqn:Hq; [|done].
    change [PX 2 va; PX 1 va] with ([PX 2 va] ++ [PX 1 va]) in Hq. apply Hcl in Hq as [? Hq]. congruence.
Qed.

(** The entry found is the leaf of the abstract map. *)
Lemma load_vslot s T L va q :
  tree_ok kend (ram s) T L -> T !! [PX 2 va; PX 1 va] = Some q ->
  vslot T va = slot q (PX 0 va) /\ vslot T va <> 0 /\
  load64 (ram s) (vslot T va) = default 0 (L !! vpath va).
Proof.
  intros Ht Hq. unfold vslot. rewrite Hq. split; [done|]. split.
  - destruct (to_page _ _ _ _ Ht _ _ Hq) as [[_ Hp] _]. pose proof (PX_idx 0 va) as Hi.
    unfold slot, idx in *. lia.
  - apply (to_leaf _ _ _ _ Ht [PX 2 va; PX 1 va]); auto with kernel.
Qed.

Lemma free_pages_aligned s free : kmem_ok kend s free -> forall p, p ∈ free -> p mod PGSIZE = 0.
Proof. intros Hk p Hp. by apply (proj1 (Forall_forall _ _) (km_pages _ _ _ Hk) p Hp). Qed.

Lemma tpages_aligned m T L : tree_ok kend m T L -> forall p, p ∈ tpages T -> p mod PGSIZE = 0.
Proof. intros Ht p (π & Hp)%elem_tpages. apply (to_page _ _ _ _ Ht _ _ Hp). Qed.

(** A page taken from kalloc, in one step. *)
Lemma kalloc_as s root T L free :
  as_ok kend s root T L free ->
  exists s1, kalloc s = Ok (hd 0 free, s1) /\ as_ok kend s1 root T L (tail free) /\
    vm_cpu s1 = lockcycle (vm_cpu s) /\
    match free with
    | [] => ram s1 = ram s
    | a :: _ => same_but a (ram s) (ram s1) /\ page kend a /\ a <> 0 /\ (a ∉ tpages T) /\ (a ∉ tail free)
    end.
Proof.
  intros [Hk Ht Hcl Hr Hd]. destruct (kalloc_ok kend kend_pos s free Hk) as (m & f & H1 & H2 & H3).
  eexists. split; [exact H1|]. pose proof (km_pages _ _ _ Hk) as Hpg. pose proof (km_nodup _ _ _ Hk) as Hnd.
  destruct free as [|a free]; cbn [tail hd] in *.
  { split; [|done]. split; try done. cbn [ram]. by rewrite H3. }
  destruct H3 as [H3 _]. apply Forall_cons in Hpg as [Ha Hpg]. apply NoDup_cons in Hnd as [Hna Hnd].
  assert (a ∉ tpages T) as Hnt.
  { intros (π & Hp)%elem_tpages. apply (Hd _ _ Hp). by left. }
  split.
  - split; try done.
    + cbn [ram]. apply (tree_keeps [a] (ram s)); [by apply (keeps_same_but a); [|left]| | |done].
      * intros p Hp. apply list_elem_of_singleton in Hp as ->. apply Ha.
      * intros π p Hp Hin. apply list_elem_of_singleton in Hin as ->. apply Hnt, elem_tpages. eauto.
    + intros π p Hp Hin. apply (Hd _ _ Hp). by right.
  - split; [done|]. split; [done|]. split; [done|]. split; [|done]. by apply (page_nonzero kend).
Qed.

Lemma kmem_keeps l s m free :
  kmem_ok kend s free -> keeps l (ram s) m -> (forall p, p ∈ l -> p mod PGSIZE = 0) ->
  (forall p, p ∈ l -> p ∉ free) -> kmem_ok kend (s <| ram := m |>) free.
Proof.
  intros [H1 H2 H3 H4 H5] Hk Hal Hd. split; try done. cbn [ram freelist update]. simpl.
  apply (chain_frame (ram s)); [|done]. intros b Hb. apply load64_ext. intros x Hx.
  apply (keeps_page l (ram s) m b); try done.
  - by apply (proj1 (Forall_forall _ _) H5 b).
  - intros Hin. by apply (Hd b).
  - unfold PGSIZE. lia.
Qed.

(** Writes outside the tables and the free pages. *)
Lemma as_keeps l s m root T L free :
  as_ok kend s root T L free -> keeps l (ram s) m -> (forall p, p ∈ l -> p mod PGSIZE = 0) ->
  (forall p, p ∈ l -> p ∉ tpages T ++ free) -> as_ok kend (s <| ram := m |>) root T L free.
Proof.
  intros [H1 H2 H3 H4 H5] Hk Hal Hd. split; try done.
  - apply (kmem_keeps l); try done. intros p Hp Hin. apply (Hd p Hp), elem_of_app. by right.
  - simpl. apply (tree_keeps l (ram s)); try done. intros π p Hp Hin.
    apply (Hd p Hin), elem_of_app. left. apply elem_tpages. eauto.
Qed.

(** The tables grow by pages of the free list, to a tree with the leaves [L]. *)
Record grows (s s' : vmst) (root : Z) (T T' L : gmap (list Z) Z) (free free' : list Z) : Prop := {
  gr_as : as_ok kend s' root T' L free';
  gr_sub : T ⊆ T';
  gr_pages : tpages T' ++ free' ≡ₚ tpages T ++ free;
  gr_keeps : keeps (tpages T ++ free) (ram s) (ram s')
}.
Lemma keeps_perm l l' m m' : l ≡ₚ l' -> keeps l m m' -> keeps l' m m'.
Proof. intros Hl H x Hx. apply H. intros p Hp. apply Hx. by rewrite <- Hl. Qed.
Lemma grows_refl s root T L free : as_ok kend s root T L free -> grows s s root T T L free free.
Proof. intros H. by split. Qed.
Lemma grows_trans s1 s2 s3 root T1 T2 T3 L2 L3 f1 f2 f3 :
  grows s1 s2 root T1 T2 L2 f1 f2 -> grows s2 s3 root T2 T3 L3 f2 f3 -> grows s1 s3 root T1 T3 L3 f1 f3.
Proof.
  intros [A1 A2 A3 A4] [B1 B2 B3 B4]. split; [done|by etrans|by rewrite B3|].
  eapply keeps_trans; [done|]. by apply (keeps_perm (tpages T2 ++ f2)).
Qed.

Lemma walk_grow levels level va s root T L free π p :
  as_ok kend s root T L free -> T !! π = Some p -> (length π < 2)%nat ->
  T !! (π ++ [PX level va]) = None ->
  (free = [] /\ exists s1, walk_levels (level :: levels) p va 1 s = Ok (0, s1) /\
     grows s s1 root T T L [] []) \/
  exists a free' s1, free = a :: free' /\
    walk_levels (level :: levels) p va 1 s = walk_levels levels a va 1 s1 /\
    grows s s1 root T (<[π ++ [PX level va] := a]> T) L free free'.
Proof.
  intros Has Hp Hl Hq. cbn [walk_levels]. rewrite mbind_load.
  pose proof (ao_tree _ _ _ _ _ _ Has) as Ht.
  rewrite (to_link _ _ _ _ Ht π p) by auto with kernel. rewrite Hq. cbn [link]. change (has 0 PTE_V) with false.
  change (1 =? 0) with false. cbv iota.
  destruct (kalloc_as s root T L free Has) as (s1 & H1 & Has1 & _ & H3). rewrite (mbind_Ok _ _ _ _ _ H1).
  destruct free as [|a free]; cbn [hd tail] in *.
  { left. split; [done|]. exists s1. split; [done|]. split; try done. rewrite H3. apply keeps_refl. }
  right. destruct H3 as (H3 & Ha & Hz & Hnt & Hnf). exists a, free.
  rewrite (proj2 (Z.eqb_neq _ _)) by done.
  set (m2 := memset (ram s1) a 0 PGSIZE). set (m3 := store64 m2 (slot p (PX level va)) (link (Some a))).
  exists (s1 <| ram := m3 |>). split; [done|]. split; [reflexivity|].
  destruct (memset_page (ram s1) a 0) as [Hm1 Hm2]. fold m2 in Hm1, Hm2. change (u8 0) with 0 in Hm2.
  assert (p ∈ tpages T) as HpT by (apply elem_tpages; eauto).
  assert (p mod PGSIZE = 0) as Hpal by (by apply (tpages_aligned (ram s) T L)).
  assert (keeps [a; p] (ram s1) m3) as Hk3.
  { eapply keeps_trans; [apply (keeps_same_but a); [exact Hm1|by left]|].
    apply (keeps_same_but p); [|by right; left]. destruct (slot_in_page p (PX level va)); auto with kernel.
    by apply store64_page. }
  destruct Has1 as [Hkm Ht1 Hcl Hr Hd]. split.
  - split.
    + apply (kmem_keeps [a; p]); try done.
      * intros q Hin. rewrite !elem_of_cons, elem_of_nil in Hin. destruct Hin as [->|[->|[]]]; [apply Ha|done].
      * intros q Hin. rewrite !elem_of_cons, elem_of_nil in Hin. destruct Hin as [->|[->|[]]]; [done|]. by eapply Hd.
    + simpl. apply (tree_grow (ram s1)); auto with kernel. intros π' q' Hq' ->. apply Hnt, elem_tpages. eauto.
    + by eapply closed_grow.
    + destruct π; simpl; by rewrite lookup_insert_ne.
    + intros π' q Hin. apply lookup_insert_Some in Hin as [[_ <-]|[_ Hin]]; [done|by eapply Hd].
  - by apply insert_subseteq.
  - rewrite tpages_insert by done. simpl. by rewrite Permutation_middle.
  - simpl. apply (keeps_trans _ _ (ram s1)).
    + apply (keeps_same_but a); [done|]. apply elem_of_app. right. by left.
    + apply (keeps_mono [a; p]); [|done]. intros q Hin. rewrite !elem_of_cons, elem_of_nil in Hin.
      apply elem_of_app. destruct Hin as [->|[->|[]]]; [right; by left|by left].
Qed.

(** [T'] has no tables but those of [T] and those on the paths of addresses
    that satisfy [I]. *)
Definition new_tables (I : Z -> Prop) (T T' : gmap (list Z) Z) : Prop :=
  forall π, is_Some (T' !! π) ->
    is_Some (T !! π) \/ exists va, I va /\ (π = [PX 2 va] \/ π = [PX 2 va; PX 1 va]).
Lemma new_tables_refl I T : new_tables I T T.
Proof. intros π H. by left. Qed.
Lemma new_tables_trans I T1 T2 T3 : new_tables I T1 T2 -> new_tables I T2 T3 -> new_tables I T1 T3.
Proof. intros H1 H2 π [H|H]%H2; [by apply H1|by right]. Qed.
Lemma new_tables_mono (I J : Z -> Prop) T T' :
  (forall va, I va -> J va) -> new_tables I T T' -> new_tables J T T'.
Proof. intros HI H π [Hl|(va & Hva & Hr)]%H; [by left|]. right. exists va. auto. Qed.
Lemma new_tables_insert (I : Z -> Prop) T T' va π a :
  I va -> π = [PX 2 va] \/ π = [PX 2 va; PX 1 va] -> new_tables I T T' -> new_tables I T (<[π := a]> T').
Proof.
  intros Hva Hπ H π' [b Hb]. apply lookup_insert_Some in Hb as [[<- _]|[_ Hb]]; [right; by exists va|].
  apply H. by exists b.
Qed.

Lemma walk_alloc s root T L free va :
  as_ok kend s root T L free -> va < MAXVA ->
  exists r s' T' free', walk root va 1 s = Ok (r, s') /\ grows s s' root T T' L free free' /\
    ((r = 0 /\ free' = []) \/
     exists q, T' !! [PX 2 va; PX 1 va] = Some q /\ r = slot q (PX 0 va) /\ r <> 0) /\
    new_tables (eq va) T T'.
Proof.
  intros Has Hva. rewrite walk_below by done.
  assert (forall s1 T1 f1 p, grows s s1 root T T1 L free f1 -> T1 !! [PX 2 va] = Some p -> new_tables (eq va) T T1 ->
    exists r s' T' free', walk_levels [1] p va 1 s1 = Ok (r, s') /\ grows s s' root T T' L free free' /\
      ((r = 0 /\ free' = []) \/ exists q, T' !! [PX 2 va; PX 1 va] = Some q /\ r = slot q (PX 0 va) /\ r <> 0) /\
      new_tables (eq va) T T') as Hstep.
  { intros s1 T1 f1 p G1 Hp N1. pose proof (ao_tree _ _ _ _ _ _ (gr_as _ _ _ _ _ _ _ _ G1)) as Ht1.
    assert (forall s2 T2 f2 q, grows s s2 root T T2 L free f2 -> T2 !! [PX 2 va; PX 1 va] = Some q ->
      slot q (PX 0 va) <> 0) as Hnz.
    { intros s2 T2 f2 q G2 Hq. destruct (load_vslot s2 T2 L va q) as (E1 & E2 & _); [apply G2|done|congruence]. }
    destruct (T1 !! [PX 2 va; PX 1 va]) as [q|] eqn:Hq.
    - rewrite (walk_level _ _ _ _ _ T1 L [PX 2 va] p q) by (done || simpl; lia).
      eexists _, s1, T1, f1. split; [done|]. split; [done|]. split; [|done]. right. exists q. split; [done|].
      split; [done|]. by eapply Hnz.
    - destruct (walk_grow [] 1 va s1 root T1 L f1 [PX 2 va] p) as [(-> & s2 & H2 & G2)|(a & f2 & s2 & -> & H2 & G2)];
        try (done || simpl; lia); [apply G1| |].
      + exists 0, s2, T1, []. split; [done|]. split; [by eapply grows_trans|]. split; [by left|done].
      + assert (grows s s2 root T (<[[PX 2 va] ++ [PX 1 va]:=a]> T1) L free f2) as G by (by eapply grows_trans).
        eexists _, s2, _, f2. split; [exact H2|]. split; [exact G|]. split.
        * right. exists a. split; [apply lookup_insert_eq|]. split; [done|]. eapply Hnz; [exact G|]. apply lookup_insert_eq.
        * apply (new_tables_insert _ _ _ va); auto. }
  pose proof (ao_root _ _ _ _ _ _ Has) as Hr. destruct (T !! [PX 2 va]) as [p|] eqn:Hp.
  - rewrite (walk_level _ _ _ _ _ T L [] root p) by (apply Has || done || simpl; lia).
    apply (Hstep s T free p); [by apply grows_refl|done|apply new_tables_refl].
  - destruct (walk_grow [1] 2 va s root T L free [] root) as [(-> & s1 & H1 & G1)|(a & f1 & s1 & -> & H1 & G1)];
      try (done || simpl; lia).
    + exists 0, s1, T, []. split; [done|]. split; [done|]. split; [by left|apply new_tables_refl].
    + rewrite H1. eapply Hstep; [exact G1|apply lookup_insert_eq|].
      apply (new_tables_insert _ _ _ va); auto using new_tables_refl.
Qed.
End Tree.
