(* ===== verification/VmMap.v ===== *)
(** * Adding and removing mappings

    mappages() and uvmunmap() on the abstract view of [VmTree]; freeing a
    whole address space. *)
From stdpp Require Import base list strings gmap.
From Stdlib Require Import ZArith Lia.
From S2P Require Import Prelude Spinlock CString Riscv Kalloc Vm VmTree.

(** The leaf entry that mappages() installs. *)
Definition entry (pa perm : Z) : Z := Z.lor (Z.lor (PA2PTE pa) perm) PTE_V.

(** The leaves after mapping [n] pages at [va] to [pa]. *)
Fixpoint map_run (n : nat) (va pa perm : Z) (L : gmap (list Z) Z) : gmap (list Z) Z :=
  match n with
  | O => L
  | S n => map_run n (va + PGSIZE) (pa + PGSIZE) perm (<[vpath va := entry pa perm]> L)
  end.

(** The frames mapped at the [n] pages from [va], and the leaves without them. *)
Fixpoint uframes (n : nat) (va : Z) (L : gmap (list Z) Z) : list Z :=
  match n with
  | O => []
  | S n =>
      match L !! vpath va with Some e => [PTE2PA e] | None => [] end ++ uframes n (va + PGSIZE) L
  end.
Fixpoint unmap_run (n : nat) (va : Z) (L : gmap (list Z) Z) : gmap (list Z) Z :=
  match n with
  | O => L
  | S n => unmap_run n (va + PGSIZE) (delete (vpath va) L)
  end.

Lemma lor_range a b n : 0 <= a < 2 ^ n -> 0 <= b < 2 ^ n -> 0 <= n -> 0 <= Z.lor a b < 2 ^ n.
Proof.
  intros Ha Hb Hn. assert (0 <= Z.lor a b) as H0 by (apply Z.lor_nonneg; lia). split; [done|].
  destruct (decide (Z.lor a b = 0)) as [->|]; [lia|]. apply Z.log2_lt_pow2; [lia|].
  rewrite Z.log2_lor by lia.
  assert (forall c, 0 <= c < 2 ^ n -> c = 0 \/ Z.log2 c < n) as Hl.
  { intros c Hc. destruct (decide (c = 0)); [by left|right]. apply Z.log2_lt_pow2; lia. }
  pose proof (Z.log2_nonneg a). pose proof (Z.log2_nonneg b).
  destruct (Hl a Ha) as [->|], (Hl b Hb) as [->|]; change (Z.log2 0) with 0 in *; try lia. done.
Qed.

Lemma entry_flags pa perm : entry pa perm = Z.lor (PA2PTE pa) (Z.lor perm PTE_V).
Proof. unfold entry. by rewrite Z.lor_assoc. Qed.

Lemma flags_range perm : 0 <= perm < 1024 -> 0 <= Z.lor perm PTE_V < 1024.
Proof. intros H. apply (lor_range _ _ 10); [done|cbv; split; [discriminate|reflexivity]|lia]. Qed.

Lemma entry_ok pa perm :
  0 <= perm < 1024 -> 0 <= entry pa perm < 2 ^ 64 /\ has (entry pa perm) PTE_V = true.
Proof.
  intros Hp. pose proof (flags_range perm Hp). rewrite entry_flags. split.
  - apply lor_range; [apply PA2PTE_range|lia|lia].
  - rewrite has_entry by (done || (cbv; split; [discriminate|reflexivity])).
    unfold has. rewrite Z.land_lor_distr_l. change (Z.land PTE_V PTE_V) with 1.
    destruct (Z.eqb_spec (Z.lor (Z.land perm PTE_V) 1) 0) as [H0|]; [|done].
    apply Z.lor_eq_0_iff in H0. lia.
Qed.

Lemma entry_decode kend pa perm :
  0 < kend -> page kend pa -> 0 <= perm < 1024 ->
  PTE2PA (entry pa perm) = pa /\ PTE_FLAGS (entry pa perm) = Z.lor perm PTE_V.
Proof.
  intros Hk Hp Hf. destruct (page_addr _ _ Hk Hp) as [H1 H2]. rewrite entry_flags.
  apply PTE2PA_PA2PTE; [done|done|]. by apply flags_range.
Qed.

Section Map.
Context (kend : Z) (kend_pos : 0 < kend).

(** A store through the pointer walk() returned for [va]. *)
Lemma map_store s root T L free va q e :
  as_ok kend s root T L free -> T !! [PX 2 va; PX 1 va] = Some q -> 0 <= e < 2 ^ 64 -> has e PTE_V = true ->
  grows kend s (s <| ram ::= fun m => store64 m (slot q (PX 0 va)) e |>) root T T (<[vpath va := e]> L) free free.
Proof.
  intros Has Hq He Hv. pose proof (slot_in_page q (PX 0 va) ltac:(auto with kernel)) as [Hs1 Hs2].
  assert (q ∈ tpages T) as HqT by (apply elem_tpages; eauto).
  assert (keeps [q] (ram s) (store64 (ram s) (slot q (PX 0 va)) e)) as Hk.
  { apply (keeps_same_but q); [by apply store64_page|by left]. }
  destruct Has as [H1 H2 H3 H4 H5]. split; [|done|done|].
  - split; try done.
    + apply (kmem_keeps kend [q]); try done.
      * intros p ->%list_elem_of_singleton. by apply (tpages_aligned kend (ram s) T L).
      * intros p ->%list_elem_of_singleton. by eapply H5.
    + simpl. change (vpath va) with ([PX 2 va; PX 1 va] ++ [PX 0 va]).
      by apply tree_set_leaf; auto with kernel.
  - simpl. apply (keeps_mono [q]); [|done]. intros p ->%list_elem_of_singleton. apply elem_of_app. by left.
Qed.

Lemma vpath_same va va' : va mod PGSIZE = 0 -> va <= va' < va + PGSIZE -> vpath va' = vpath va.
Proof.
  intros Hal Hin. pose proof (Z.div_mod va PGSIZE ltac:(unfold PGSIZE; lia)) as Hd.
  pose proof (Z.div_mod va' PGSIZE ltac:(unfold PGSIZE; lia)). pose proof (Z.mod_pos_bound va' PGSIZE ltac:(unfold PGSIZE; lia)).
  assert (va / PGSIZE = va' / PGSIZE) as Heq by (unfold PGSIZE in *; lia).
  unfold vpath. rewrite !PX_spec by lia.
  change (2 ^ (12 + 9 * 0)) with PGSIZE. change (2 ^ (12 + 9 * 1)) with (PGSIZE * 512).
  change (2 ^ (12 + 9 * 2)) with (PGSIZE * (512 * 512)).
  rewrite <- !(Z.div_div va), <- !(Z.div_div va') by (unfold PGSIZE; lia). by rewrite Heq.
Qed.

Lemma map_run_lookup n va pa perm L va' :
  0 <= va -> va mod PGSIZE = 0 -> va + Z.of_nat n * PGSIZE <= MAXVA -> 0 <= va' < MAXVA ->
  map_run n va pa perm L !! vpath va' =
    if decide (va <= va' < va + Z.of_nat n * PGSIZE)
    then Some (entry (pa + (va' / PGSIZE * PGSIZE - va)) perm) else L !! vpath va'.
Proof.
  revert va pa L. induction n as [|n IH]; intros va pa L Hva Hal Htop Hva'; cbn [map_run].
  { rewrite decide_False by lia. done. }
  rewrite IH; [|unfold PGSIZE; lia|unfold PGSIZE in *; by rewrite <- Z.add_mod_idemp_r, Z.mod_same, Z.add_0_r|unfold PGSIZE in *; lia|done].
  pose proof (Z.div_mod va PGSIZE ltac:(unfold PGSIZE; lia)) as Hd. rewrite Hal in Hd.
  pose proof (Z.div_mod va' PGSIZE ltac:(unfold PGSIZE; lia)) as Hd'.
  pose proof (Z.mod_pos_bound va' PGSIZE ltac:(unfold PGSIZE; lia)) as Hm'.
  destruct (decide (va + PGSIZE <= va' < va + PGSIZE + Z.of_nat n * PGSIZE)) as [Hin|Hout].
  - rewrite decide_True by (unfold PGSIZE in *; lia). do 2 f_equal. lia.
  - destruct (decide (va <= va' < va + PGSIZE)) as [Hhere|Hnot].
    + rewrite decide_True by (unfold PGSIZE in *; lia).
      rewrite (vpath_same va va') by done.
      rewrite lookup_insert_eq. do 2 f_equal. unfold PGSIZE in *. lia.
    + rewrite decide_False by (unfold PGSIZE in *; lia). apply lookup_insert_ne. intros Heq.
      apply vpath_inj in Heq; [|unfold PGSIZE in *; lia|done]. unfold PGSIZE in *. lia.
Qed.

(** One iteration of mappages(). *)
Lemma map_page s root T L free va pa perm {A} (kfail : M vmst A) (kok : M vmst A) :
  as_ok kend s root T L free -> 0 <= va < MAXVA -> 0 <= perm < 1024 -> L !! vpath va = None ->
  exists s' T' free' (ok : bool),
    (let* pte := walk root va 1 in
     if pte =? 0 then kfail
     else
       let* e := load pte in
       if has e PTE_V then mpanic "mappages: remap"
       else store_word pte (Z.lor (Z.lor (PA2PTE pa) perm) PTE_V) ;;; kok) s =
      (if ok then kok s' else kfail s') /\ (ok = false -> free' = []) /\
    grows kend s s' root T T' (if ok then <[vpath va := entry pa perm]> L else L) free free' /\
    new_tables (eq va) T T'.
Proof.
  intros Has Hva Hperm Hnone.
  destruct (walk_alloc kend kend_pos s root T L free va Has (proj2 Hva)) as (r & s1 & T1 & f1 & H1 & G1 & Hr & N1).
  rewrite (mbind_Ok _ _ _ _ _ H1). destruct Hr as [[-> ->]|(q & Hq & -> & Hnz)].
  { by exists s1, T1, [], false. }
  rewrite (proj2 (Z.eqb_neq _ _)) by done. rewrite mbind_load.
  pose proof (gr_as _ _ _ _ _ _ _ _ _ G1) as Has1.
  destruct (load_vslot kend kend_pos s1 T1 L va q (ao_tree _ _ _ _ _ _ Has1) Hq) as (E1 & _ & E2).
  rewrite <- E1, E2, Hnone, E1. change (has (default 0 None) PTE_V) with false. cbv iota.
  unfold store_word. rewrite mbind_modify. destruct (entry_ok pa perm Hperm) as [He Hv].
  eexists _, T1, f1, true. split; [reflexivity|]. split; [done|]. split; [|done].
  eapply grows_trans; [exact G1|]. by apply map_store.
Qed.

Lemma mappages_loop n va last pa perm s root T L free :
  let body := fun '(a, pa) =>
    let* pte := walk root a 1 in
    if pte =? 0 then mret (inr (-1))
    else
      let* e := load pte in
      if has e PTE_V then mpanic "mappages: remap"
      else
        store_word pte (Z.lor (Z.lor (PA2PTE pa) perm) PTE_V) ;;;
        (if a =? last then mret (inr 0) else mret (inl (u64 (a + PGSIZE), u64 (pa + PGSIZE)))) in
  as_ok kend s root T L free -> 0 <= va -> va mod PGSIZE = 0 -> va + Z.of_nat n * PGSIZE = last ->
  last + PGSIZE <= MAXVA -> 0 <= pa -> pa + Z.of_nat (S n) * PGSIZE <= 2 ^ 64 -> 0 <= perm < 1024 ->
  (forall va', va <= va' < last + PGSIZE -> L !! vpath va' = None) ->
  exists r s' T' k free', mloop (S n) body (va, pa) s = Ok (r, s') /\
    grows kend s s' root T T' (map_run k va pa perm L) free free' /\
    ((r = 0 /\ k = S n) \/ (r = -1 /\ (k <= n)%nat /\ free' = [])) /\
    new_tables (fun a => va <= a < last + PGSIZE) T T'.
Proof.
  intros body. revert va pa s T L free.
  induction n as [|n IH]; intros va pa s T L free Has Hva Hal Hlast Htop Hpa Hpa2 Hperm Hnone;
    cbn [mloop]; unfold body at 1.
  all: assert (0 <= va < MAXVA) as Hva' by (unfold PGSIZE in *; lia).
  all: assert (L !! vpath va = None) as Hn0 by (apply Hnone; unfold PGSIZE in *; lia).
  all: edestruct (map_page s root T L free va pa perm (A := Z * Z + Z)) as (s1 & T1 & f1 & ok & H1 & Hf1 & G1 & N1); try done.
  all: apply (new_tables_mono _ (fun a => va <= a < last + PGSIZE)) in N1; [|intros ? <-; unfold PGSIZE in *; lia].
  all: unfold mbind at 1; rewrite H1; clear H1; destruct ok.
  - rewrite (proj2 (Z.eqb_eq _ _)) by lia. exists 0, s1, T1, 1%nat, f1. split; [done|]. split; [done|]. split; [by left|done].
  - rewrite (Hf1 eq_refl) in *. exists (-1), s1, T1, 0%nat, []. split; [done|]. split; [done|].
    split; [|done]. right. split; [done|]. split; [lia|done].
  - assert (va <> last) as Hne by (unfold PGSIZE in *; lia). rewrite (proj2 (Z.eqb_neq _ _)) by done.
    cbn [mret obind fst snd]. rewrite (u64_small (va + PGSIZE)), (u64_small (pa + PGSIZE))
      by (change MAXVA with (2 ^ 38) in *; unfold PGSIZE in *; lia).
    destruct (IH (va + PGSIZE) (pa + PGSIZE) s1 T1 (<[vpath va := entry pa perm]> L) f1)
      as (r & s2 & T2 & k & f2 & H2 & G2 & Hr & N2); try done; try (unfold PGSIZE in *; lia).
    + apply G1.
    + unfold PGSIZE in *. rewrite <- Z.add_mod_idemp_r, Z.mod_same, Z.add_0_r; [done|lia|lia].
    + intros va' Hin. rewrite lookup_insert_ne; [apply Hnone; unfold PGSIZE in *; lia|].
      intros Heq. apply vpath_inj in Heq; [|done|unfold PGSIZE in *; lia].
      pose proof (Z.div_mod va PGSIZE ltac:(unfold PGSIZE; lia)). pose proof (Z.div_mod va' PGSIZE ltac:(unfold PGSIZE; lia)).
      pose proof (Z.mod_pos_bound va' PGSIZE ltac:(unfold PGSIZE; lia)). unfold PGSIZE in *. lia.
    + exists r, s2, T2, (S k), f2. split; [exact H2|]. split; [by eapply grows_trans|].
      split; [|eapply new_tables_trans; [done|]; eapply new_tables_mono; [|exact N2]; simpl; unfold PGSIZE in *; lia].
      destruct Hr as [[-> ->]|(-> & Hk & ->)]; [by left|right]. split; [done|]. split; [lia|done].
  - rewrite (Hf1 eq_refl) in *. exists (-1), s1, T1, 0%nat, []. split; [done|]. split; [done|].
    split; [|done]. right. split; [done|]. split; [lia|done].
Qed.

(** mappages() on unmapped pages: the first [k] pages are mapped, all of them
    when it returns 0, and it fails only when memory has run out; tables are
    added only for the pages of the range. *)
Lemma mappages_tables va size pa perm s root T L free n :
  as_ok kend s root T L free -> 0 <= va -> va mod PGSIZE = 0 -> size = Z.of_nat (S n) * PGSIZE ->
  va + size <= MAXVA -> 0 <= pa -> pa + size <= 2 ^ 64 -> 0 <= perm < 1024 ->
  (forall va', va <= va' < va + size -> L !! vpath va' = None) ->
  exists r s' T' k free', mappages root va size pa perm s = Ok (r, s') /\
    grows kend s s' root T T' (map_run k va pa perm L) free free' /\
    ((r = 0 /\ k = S n) \/ (r = -1 /\ (k <= n)%nat /\ free' = [])) /\
    new_tables (fun a => va <= a < va + size) T T'.
Proof.
  intros Has Hva Hal -> Htop Hpa Hpa2 Hperm Hnone. unfold mappages.
  rewrite Hal, Z.mod_mul by (unfold PGSIZE; lia). rewrite !Z.eqb_refl. cbn [negb].
  rewrite (proj2 (Z.eqb_neq _ _)) by (unfold PGSIZE; lia).
  rewrite Z.div_mul, Nat2Z.id by (unfold PGSIZE; lia).
  rewrite u64_small by (change MAXVA with (2 ^ 38) in *; unfold PGSIZE in *; lia).
  pose proof (mappages_loop n va (va + Z.of_nat (S n) * PGSIZE - PGSIZE) pa perm s root T L free) as H.
  rewrite Z.sub_add in H. apply H; try done; try (unfold PGSIZE in *; lia).
Qed.

Lemma mappages_ok va size pa perm s root T L free n :
  as_ok kend s root T L free -> 0 <= va -> va mod PGSIZE = 0 -> size = Z.of_nat (S n) * PGSIZE ->
  va + size <= MAXVA -> 0 <= pa -> pa + size <= 2 ^ 64 -> 0 <= perm < 1024 ->
  (forall va', va <= va' < va + size -> L !! vpath va' = None) ->
  exists r s' T' k free', mappages root va size pa perm s = Ok (r, s') /\
    grows kend s s' root T T' (map_run k va pa perm L) free free' /\
    ((r = 0 /\ k = S n) \/ (r = -1 /\ (k <= n)%nat /\ free' = [])).
Proof.
  intros Has Hva Hal Hs Htop Hpa Hpa2 Hperm Hnone.
  destruct (mappages_tables va size pa perm s root T L free n) as (r & s' & T' & k & f' & H1 & H2 & H3 & _); try done.
  by exists r, s', T', k, f'.
Qed.

(** ** Unmapping *)
Lemma next_page va : va mod PGSIZE = 0 -> (va + PGSIZE) mod PGSIZE = 0.
Proof. unfold PGSIZE. intros H. by rewrite <- Z.add_mod_idemp_r, Z.mod_same, Z.add_0_r. Qed.

Lemma vpath_ne va va' :
  0 <= va -> va mod PGSIZE = 0 -> va + PGSIZE <= va' -> va' < MAXVA -> vpath va <> vpath va'.
Proof.
  intros Hva Hal Hle Hlt Heq. apply vpath_inj in Heq; [|unfold PGSIZE in *; lia..].
  pose proof (Z.div_mod va PGSIZE ltac:(unfold PGSIZE; lia)). pose proof (Z.div_mod va' PGSIZE ltac:(unfold PGSIZE; lia)).
  pose proof (Z.mod_pos_bound va' PGSIZE ltac:(unfold PGSIZE; lia)). unfold PGSIZE in *. lia.
Qed.

Lemma uframes_delete n va va' L :
  0 <= va -> va mod PGSIZE = 0 -> va + PGSIZE <= va' -> va' + Z.of_nat n * PGSIZE <= MAXVA ->
  uframes n va' (delete (vpath va) L) = uframes n va' L.
Proof.
  revert va'. induction n as [|n IH]; intros va' Hva Hal Hle Htop; cbn [uframes]; [done|].
  rewrite lookup_delete_ne by (apply vpath_ne; unfold PGSIZE in *; lia).
  f_equal. apply IH; unfold PGSIZE in *; lia.
Qed.

Lemma unmap_run_lookup n va L va' :
  0 <= va -> va mod PGSIZE = 0 -> va + Z.of_nat n * PGSIZE <= MAXVA -> 0 <= va' < MAXVA ->
  unmap_run n va L !! vpath va' =
    if decide (va <= va' < va + Z.of_nat n * PGSIZE) then None else L !! vpath va'.
Proof.
  revert va L. induction n as [|n IH]; intros va L Hva Hal Htop Hva'; cbn [unmap_run].
  { rewrite decide_False by lia. done. }
  rewrite IH; [|unfold PGSIZE in *; lia|by apply next_page|unfold PGSIZE in *; lia|done].
  destruct (decide (va + PGSIZE <= va' < va + PGSIZE + Z.of_nat n * PGSIZE)) as [Hin|Hout].
  { rewrite decide_True by (unfold PGSIZE in *; lia). done. }
  destruct (decide (va <= va' < va + PGSIZE)) as [Hhere|Hnot].
  - rewrite decide_True by (unfold PGSIZE in *; lia).
    rewrite (vpath_same va va') by done. apply lookup_delete_eq.
  - rewrite decide_False by (unfold PGSIZE in *; lia). apply lookup_delete_ne.
    destruct (decide (va' < va)).
    + intros Heq. apply vpath_inj in Heq; [|unfold PGSIZE in *; lia..].
      pose proof (Z.div_mod va PGSIZE ltac:(unfold PGSIZE; lia)). pose proof (Z.div_mod va' PGSIZE ltac:(unfold PGSIZE; lia)).
      pose proof (Z.mod_pos_bound va' PGSIZE ltac:(unfold PGSIZE; lia)). unfold PGSIZE in *. lia.
    + apply vpath_ne; unfold PGSIZE in *; lia.
Qed.

Lemma kfree_as s root T L free pa :
  as_ok kend s root T L free -> page kend pa -> pa ∉ tpages T ++ free ->
  exists s1, kfree kend pa s = Ok (tt, s1) /\ as_ok kend s1 root T L (pa :: free) /\
    same_but pa (ram s) (ram s1).
Proof.
  intros [H1 H2 H3 H4 H5] Hp Hn. rewrite elem_of_app in Hn.
  destruct (kfree_ok kend kend_pos s free pa H1 Hp) as (m & E1 & E2 & E3); [tauto|].
  eexists. split; [exact E1|]. split; [|done]. split; try done.
  - apply (tree_keeps kend [pa] (ram s)); try done.
    + apply (keeps_same_but pa); [done|by left].
    + intros p ->%list_elem_of_singleton. apply Hp.
    + intros π p Hq ->%list_elem_of_singleton. apply Hn. left. apply elem_tpages. eauto.
  - intros π p Hq. rewrite not_elem_of_cons. split; [|by eapply H5]. intros ->. apply Hn. left.
    apply elem_tpages. eauto.
Qed.

(** Filling a page that is neither a table nor free. *)
Lemma fill_as s root T L free a c :
  as_ok kend s root T L free -> a mod PGSIZE = 0 -> a ∉ tpages T ++ free ->
  exists s1, fill a c s = Ok (tt, s1) /\ as_ok kend s1 root T L free /\
    same_but a (ram s) (ram s1) /\ filled a (u8 c) (ram s1).
Proof.
  intros Has Ha Hn. destruct (memset_page (ram s) a c) as [H1 H2].
  exists (s <| ram ::= fun m => memset m a c PGSIZE |>). split; [reflexivity|].
  assert (forall f, s <| ram ::= f |> = s <| ram := f (ram s) |>) as Hupd by (intros f; reflexivity).
  rewrite Hupd. split; [|by split].
  apply (as_keeps kend [a]); [done|by apply (keeps_same_but a); [|left]|..];
    by intros p ->%list_elem_of_singleton.
Qed.

(** Clearing the entry walk() returned for [va]. *)
Lemma clear_store s root T L free va q :
  as_ok kend s root T L free -> T !! [PX 2 va; PX 1 va] = Some q ->
  as_ok kend (s <| ram ::= fun m => store64 m (slot q (PX 0 va)) 0 |>) root T (delete (vpath va) L) free /\
  keeps (tpages T) (ram s) (store64 (ram s) (slot q (PX 0 va)) 0).
Proof.
  intros Has Hq. pose proof (slot_in_page q (PX 0 va) ltac:(auto with kernel)) as [Hs1 Hs2].
  assert (q ∈ tpages T) as HqT by (apply elem_tpages; eauto).
  assert (keeps [q] (ram s) (store64 (ram s) (slot q (PX 0 va)) 0)) as Hk.
  { apply (keeps_same_but q); [by apply store64_page|by left]. }
  destruct Has as [H1 H2 H3 H4 H5]. split.
  - split; try done.
    + apply (kmem_keeps kend [q]); try done.
      * intros p ->%list_elem_of_singleton. by apply (tpages_aligned kend (ram s) T L).
      * intros p ->%list_elem_of_singleton. by eapply H5.
    + simpl. change (vpath va) with ([PX 2 va; PX 1 va] ++ [PX 0 va]).
      by apply tree_clear_leaf; auto with kernel.
  - apply (keeps_mono [q]); [|done]. by intros p ->%list_elem_of_singleton.
Qed.

(** The frames uvmunmap() gives back. *)
Definition released (do_free : Z) (n : nat) (va : Z) (L : gmap (list Z) Z) : list Z :=
  if do_free =? 0 then [] else uframes n va L.

(** One page of uvmunmap(): the frame [fr] mapped there, if any, is freed. *)
Lemma unmap_page s root T L free va do_free :
  as_ok kend s root T L free -> 0 <= va < MAXVA ->
  Forall (page kend) (released do_free 1 va L) -> NoDup (released do_free 1 va L ++ tpages T ++ free) ->
  exists s',
    (let* pte := walk root va 0 in
     if pte =? 0 then mret (inl (u64 (va + PGSIZE)))
     else
       let* e := load pte in
       if negb (has e PTE_V) then mret (inl (u64 (va + PGSIZE)))
       else
         (if do_free =? 0 then mret tt else kfree kend (PTE2PA e)) ;;;
         store_word pte 0 ;;;
         mret (inl (u64 (va + PGSIZE)))) s = Ok (@inl Z unit (u64 (va + PGSIZE)), s') /\
    as_ok kend s' root T (delete (vpath va) L) (released do_free 1 va L ++ free) /\
    keeps (released do_free 1 va L ++ tpages T ++ free) (ram s) (ram s').
Proof.
  intros Has Hva Hpg Hnd. pose proof (ao_tree _ _ _ _ _ _ Has) as Ht.
  rewrite (mbind_Ok _ _ _ _ _ (walk_find kend kend_pos s T L root va Ht (ao_closed _ _ _ _ _ _ Has)
    (ao_root _ _ _ _ _ _ Has) (proj2 Hva))).
  destruct (L !! vpath va) as [e|] eqn:He.
  - destruct (to_leaf_ok _ _ _ _ Ht _ _ He) as (π & i & Hπ & Hl & [q Hq] & _ & Her & Hev).
    change (vpath va) with ([PX 2 va; PX 1 va] ++ [PX 0 va]) in Hπ. apply app_inj_tail in Hπ as [<- _].
    destruct (load_vslot kend kend_pos s T L va q Ht Hq) as (E1 & E2 & E3).
    rewrite (proj2 (Z.eqb_neq _ _)) by done. rewrite mbind_load, E3, He. change (default 0 (Some e)) with e. rewrite Hev. cbn [negb].
    rewrite E1. unfold released in *. cbn [uframes] in *. rewrite He in *. rewrite ?app_nil_r in *.
    destruct (do_free =? 0).
    + rewrite mbind_ret. unfold store_word. rewrite mbind_modify.
      destruct (clear_store s root T L free va q Has Hq) as [A1 A2]. eexists. split; [reflexivity|].
      split; [exact A1|]. simpl. apply (keeps_mono (tpages T)); [|done]. intros p Hp. apply elem_of_app. by left.
    + apply Forall_cons in Hpg as [Hpg _]. cbn [app] in Hnd. apply NoDup_cons in Hnd as [Hni _].
      destruct (kfree_as s root T L free (PTE2PA e) Has Hpg Hni) as (s1 & H1 & Has1 & Hsb).
      rewrite (mbind_Ok _ _ _ _ _ H1). unfold store_word. rewrite mbind_modify.
      destruct (clear_store s1 root T L _ va q Has1 Hq) as [A1 A2]. eexists. split; [reflexivity|].
      split; [exact A1|]. apply (keeps_trans _ _ (ram s1)).
      * apply (keeps_same_but (PTE2PA e)); [done|by left].
      * apply (keeps_mono (tpages T)); [|done]. intros p Hp. right. apply elem_of_app. by left.
  - assert (released do_free 1 va L = []) as ->.
    { unfold released. cbn [uframes]. rewrite He. by destruct (do_free =? 0). }
    rewrite delete_id by done. exists s. cbn [app]. split; [|split; [done|apply keeps_refl]].
    unfold vslot. destruct (T !! [PX 2 va; PX 1 va]) as [q|] eqn:Hq; [|done].
    destruct (load_vslot kend kend_pos s T L va q Ht Hq) as (E1 & E2 & E3).
    rewrite E1 in *. rewrite (proj2 (Z.eqb_neq _ _)) by done. rewrite mbind_load, E3, He. done.
Qed.

Lemma released_S do_free n va L :
  released do_free (S n) va L = released do_free 1 va L ++ released do_free n (va + PGSIZE) L.
Proof. unfold released. destruct (do_free =? 0); [done|]. cbn [uframes]. by rewrite app_nil_r. Qed.

Lemma unmap_loop n va lim do_free s root T L free :
  as_ok kend s root T L free -> 0 <= va -> va mod PGSIZE = 0 -> va + Z.of_nat n * PGSIZE = lim ->
  lim <= MAXVA -> Forall (page kend) (released do_free n va L) ->
  NoDup (released do_free n va L ++ tpages T ++ free) ->
  exists s' free', mloop (S n) (fun a =>
      if a <? lim then
        let* pte := walk root a 0 in
        if pte =? 0 then mret (inl (u64 (a + PGSIZE)))
        else
          let* e := load pte in
          if negb (has e PTE_V) then mret (inl (u64 (a + PGSIZE)))
          else
            (if do_free =? 0 then mret tt else kfree kend (PTE2PA e)) ;;;
            store_word pte 0 ;;;
            mret (inl (u64 (a + PGSIZE)))
      else mret (inr tt)) va s = Ok (tt, s') /\
    as_ok kend s' root T (unmap_run n va L) free' /\ free' ≡ₚ released do_free n va L ++ free /\
    keeps (released do_free n va L ++ tpages T ++ free) (ram s) (ram s').
Proof.
  revert va s L free. induction n as [|n IH]; intros va s L free Has Hva Hal Hlim Htop Hpg Hnd.
  - exists s, free. split; [|split; [done|]].
    + apply mloop_stop. rewrite (proj2 (Z.ltb_ge _ _)) by lia. done.
    + unfold released. cbn [uframes]. destruct (do_free =? 0); split; done || apply keeps_refl.
  - rewrite released_S in *. apply Forall_app in Hpg as [Hpg1 Hpg2].
    set (r1 := released do_free 1 va L) in *. set (r2 := released do_free n (va + PGSIZE) L) in *.
    assert (released do_free n (va + PGSIZE) (delete (vpath va) L) = r2) as Hr2.
    { unfold r2, released. destruct (do_free =? 0); [done|]. apply uframes_delete; unfold PGSIZE in *; lia. }
    assert (r2 ++ tpages T ++ r1 ++ free ≡ₚ (r1 ++ r2) ++ tpages T ++ free) as Hperm by solve_Permutation.
    destruct (unmap_page s root T L free va do_free Has) as (s1 & H1 & Has1 & K1); [unfold PGSIZE in *; lia|done| |].
    { fold r1. rewrite <- app_assoc in Hnd. apply NoDup_app in Hnd as (N1 & N2 & N3).
      apply NoDup_app in N3 as (_ & _ & N3). apply NoDup_app. split; [done|]. split; [|done].
      intros p Hp Hin. apply (N2 p Hp). apply elem_of_app. by right. }
    fold r1 in Has1, K1.
    destruct (IH (va + PGSIZE) s1 (delete (vpath va) L) (r1 ++ free)) as (s2 & f2 & H2 & Has2 & P2 & K2);
      try done; try (unfold PGSIZE in *; lia).
    + by apply next_page.
    + by rewrite Hr2.
    + rewrite Hr2. by rewrite Hperm.
    + rewrite Hr2 in *. exists s2, f2. split; [|split; [done|split]].
      * erewrite mloop_next; [exact H2|]. rewrite (proj2 (Z.ltb_lt _ _)) by (unfold PGSIZE in *; lia).
        rewrite H1. rewrite u64_small by (change MAXVA with (2 ^ 38) in *; unfold PGSIZE in *; lia). done.
      * rewrite P2. solve_Permutation.
      * apply (keeps_trans _ _ (ram s1)); [|by eapply keeps_perm].
        apply (keeps_mono (r1 ++ tpages T ++ free)); [|done]. intros p. rewrite !elem_of_app. tauto.
Qed.

(** uvmunmap() removes exactly the mappings of its range, and with do_free
    returns their frames to the free list. *)
Lemma uvmunmap_ok n va do_free s root T L free :
  as_ok kend s root T L free -> 0 <= va -> va mod PGSIZE = 0 -> va + Z.of_nat n * PGSIZE <= MAXVA ->
  Forall (page kend) (released do_free n va L) -> NoDup (released do_free n va L ++ tpages T ++ free) ->
  exists s' free', uvmunmap kend root va (Z.of_nat n) do_free s = Ok (tt, s') /\
    as_ok kend s' root T (unmap_run n va L) free' /\ free' ≡ₚ released do_free n va L ++ free /\
    keeps (released do_free n va L ++ tpages T ++ free) (ram s) (ram s').
Proof.
  intros Has Hva Hal Htop Hpg Hnd. unfold uvmunmap. rewrite Hal. cbn [negb Z.eqb].
  change MAXVA with (2 ^ 38) in *.
  rewrite (u64_small (Z.of_nat n * PGSIZE)), u64_small by (unfold PGSIZE in *; lia).
  rewrite Nat2Z.id. by apply unmap_loop.
Qed.
End Map.

(** ** A small address space

    Three tables, one user page at address 0 and one free page. *)
Definition demo_kend : Z := PHYSTOP - 8 * PGSIZE.
Definition demo_page (i : Z) : Z := demo_kend + i * PGSIZE.
Definition demo_T0 : gmap (list Z) Z := {[ [] := demo_page 0 ]}.
Definition demo_T : gmap (list Z) Z := <[[0; 0] := demo_page 2]> (<[[0] := demo_page 1]> demo_T0).
Definition demo_entry : Z := entry (demo_page 3) (Z.lor (Z.lor PTE_R PTE_W) PTE_U).
Definition demo_L : gmap (list Z) Z := {[ vpath 0 := demo_entry ]}.
Definition demo_ram : mem :=
  store64 (store64 (store64 (fun _ => 0)
    (slot (demo_page 0) 0) (link (Some (demo_page 1))))
    (slot (demo_page 1) 0) (link (Some (demo_page 2))))
    (slot (demo_page 2) 0) demo_entry.
Definition vm_demo : vmst :=
  mkVmst demo_ram (initlock "kmem") (demo_page 4) (mkCpu None 0 false true) 0.

Lemma demo_pages i : 0 <= i < 8 -> page demo_kend (demo_page i).
Proof.
  intros Hi. unfold page, demo_page. rewrite Z_mod_plus_full. split; [reflexivity|].
  unfold demo_kend, PGSIZE. lia.
Qed.

Lemma demo_tree0 : tree_ok demo_kend (fun _ => 0) demo_T0 ∅.
Proof.
  assert (forall π p, demo_T0 !! π = Some p -> π = [] /\ p = demo_page 0) as H.
  { intros π p Hp. unfold demo_T0 in Hp. by apply lookup_singleton_Some in Hp as [<- <-]. }
  split.
  - intros π p [-> ->]%H. split; [apply demo_pages; lia|]. split; [simpl; lia|constructor].
  - intros π π' p [-> _]%H [-> _]%H. done.
  - intros π p i [-> ->]%H _ Hi. unfold demo_T0. rewrite lookup_singleton_ne by done. reflexivity.
  - intros π p i [-> ->]%H Hl. done.
  - intros π e He. by rewrite lookup_empty in He.
Qed.

Lemma demo_tree : tree_ok demo_kend demo_ram demo_T demo_L /\ closed demo_T.
Proof.
  assert (0 < demo_kend) as Hk by reflexivity.
  assert (closed demo_T0) as Hc0.
  { intros π i p Hp. unfold demo_T0 in Hp. apply lookup_singleton_Some in Hp as [Hp _]. by destruct π. }
  pose proof (closed_grow demo_T0 [] (demo_page 0) 0 (demo_page 1) Hc0 eq_refl) as Hc1.
  pose proof (closed_grow _ [0] (demo_page 1) 0 (demo_page 2) Hc1 eq_refl) as Hc2. split; [|exact Hc2].
  assert (idx 0) as Hi by (unfold idx; lia).
  assert (H1 : tree_ok demo_kend (store64 (fun _ => 0) (slot (demo_page 0) 0) (link (Some (demo_page 1))))
    (<[[] ++ [0] := demo_page 1]> demo_T0) ∅).
  { apply (tree_grow demo_kend (fun _ => 0)); [exact demo_tree0|reflexivity|simpl; lia|done|reflexivity|apply demo_pages; lia| |done|done|done].
    intros π q Hq. unfold demo_T0 in Hq. by apply lookup_singleton_Some in Hq as [_ <-]. }
  assert (H2 : tree_ok demo_kend (store64 (store64 (fun _ => 0) (slot (demo_page 0) 0) (link (Some (demo_page 1))))
    (slot (demo_page 1) 0) (link (Some (demo_page 2)))) (<[[0] ++ [0] := demo_page 2]> (<[[] ++ [0] := demo_page 1]> demo_T0)) ∅).
  { eapply (tree_grow demo_kend); [exact H1|reflexivity|simpl; lia|done|reflexivity|apply demo_pages; lia| |done| |done].
    - intros π q Hq. apply lookup_insert_Some in Hq as [[_ <-]|[_ Hq]]; [done|].
      unfold demo_T0 in Hq. by apply lookup_singleton_Some in Hq as [_ <-].
    - intros x Hx. rewrite store64_out; [done|]. revert Hx. unfold demo_page, slot, PGSIZE. lia. }
  exact (tree_set_leaf demo_kend _ _ _ [0; 0] (demo_page 2) 0 demo_entry H2 eq_refl eq_refl Hi
    ltac:(vm_compute; split; [discriminate|reflexivity]) eq_refl).
Qed.

Lemma vm_demo_ok : as_ok demo_kend vm_demo (demo_page 0) demo_T demo_L [demo_page 4].
Proof.
  destruct demo_tree as [Ht Hc]. split; try done.
  - split; [by split|split; simpl; [lia|done]| |apply NoDup_singleton|constructor; [apply demo_pages; lia|constructor]].
    split; [done|]. vm_compute. reflexivity.
  - intros π p Hp ->%list_elem_of_singleton. unfold demo_T in Hp.
    apply lookup_insert_Some in Hp as [[_ Hp]|[_ Hp]]; [discriminate Hp|].
    apply lookup_insert_Some in Hp as [[_ Hp]|[_ Hp]]; [discriminate Hp|].
    unfold demo_T0 in Hp. apply lookup_singleton_Some in Hp as [_ Hp]. discriminate Hp.
Qed.
