(* ===== verification/VmFree.v ===== *)
(** * Freeing an address space

    freewalk() returns every page of a page table to the free list, and
    uvmfree() every page of an address space, each exactly once. *)
From stdpp Require Import base list strings gmap.
From Stdlib Require Import ZArith Lia.
From S2P Require Import Prelude Spinlock CString Riscv Kalloc Vm VmTree VmMap.

(** The tables below [ρ], and the others. *)
Definition below (ρ : list Z) (T : gmap (list Z) Z) : gmap (list Z) Z :=
  filter (fun kv => ρ `prefix_of` kv.1) T.
Definition aside (ρ : list Z) (T : gmap (list Z) Z) : gmap (list Z) Z :=
  filter (fun kv => ~ ρ `prefix_of` kv.1) T.

(** A tree whose root is the table [ρ]. *)
Definition rooted (ρ : list Z) (T : gmap (list Z) Z) : Prop :=
  forall π p, T !! π = Some p ->
    π = ρ \/ exists π' i, π = π' ++ [i] /\ ρ `prefix_of` π' /\ is_Some (T !! π').

Lemma below_Some ρ T π p : below ρ T !! π = Some p <-> T !! π = Some p /\ ρ `prefix_of` π.
Proof. unfold below. by rewrite map_lookup_filter_Some. Qed.
Lemma aside_Some ρ T π p : aside ρ T !! π = Some p <-> T !! π = Some p /\ ~ ρ `prefix_of` π.
Proof. unfold aside. by rewrite map_lookup_filter_Some. Qed.

Lemma tpages_union T1 T2 : T1 ##ₘ T2 -> tpages (T1 ∪ T2) ≡ₚ tpages T1 ++ tpages T2.
Proof.
  revert T2. induction T1 as [|π p T1 Hp IH] using map_ind; intros T2 Hd.
  { rewrite (left_id_L ∅ (∪)). done. }
  apply map_disjoint_insert_l in Hd as [Hp2 Hd]. rewrite <- insert_union_l.
  rewrite !tpages_insert; [|done|by apply lookup_union_None]. by rewrite IH.
Qed.
Lemma tpages_split ρ T : tpages T ≡ₚ tpages (below ρ T) ++ tpages (aside ρ T).
Proof.
  rewrite <- tpages_union by apply map_disjoint_filter_complement.
  unfold below, aside. by rewrite map_filter_union_complement.
Qed.

Lemma prefix_snoc (ρ π : list Z) i j : ρ ++ [i] `prefix_of` π ++ [j] -> ρ ++ [i] = π ++ [j] \/ ρ ++ [i] `prefix_of` π.
Proof.
  intros [l Hl]. destruct l as [|x l _] using rev_ind; [left; by rewrite app_nil_r in Hl|].
  right. rewrite app_assoc in Hl. apply app_inj_tail in Hl as [-> _]. by eexists.
Qed.

Lemma rooted_prefix ρ T π p : rooted ρ T -> T !! π = Some p -> ρ `prefix_of` π.
Proof. intros Hr Hp. destruct (Hr _ _ Hp) as [->|(π' & i & -> & Hpre & _)]; [done|by apply prefix_app_r]. Qed.

Lemma rooted_below ρ T i : rooted ρ T -> rooted (ρ ++ [i]) (below (ρ ++ [i]) T).
Proof.
  intros Hr π p [Hp Hpre]%below_Some. destruct (Hr _ _ Hp) as [->|(π' & j & -> & Hpre' & [q Hq])].
  - by apply prefix_snoc_not in Hpre.
  - apply prefix_snoc in Hpre as [<-|Hpre]; [by left|]. right. exists π', j. split; [done|]. split; [done|].
    exists q. by apply below_Some.
Qed.
Lemma rooted_aside ρ T i : rooted ρ T -> rooted ρ (aside (ρ ++ [i]) T).
Proof.
  intros Hr π p [Hp Hpre]%aside_Some. destruct (Hr _ _ Hp) as [->|(π' & j & -> & Hpre' & [q Hq])]; [by left|].
  right. exists π', j. split; [done|]. split; [done|]. exists q. apply aside_Some. split; [done|].
  intros H. apply Hpre. by apply prefix_app_r.
Qed.

(** Without children, only the root is left. *)
Lemma rooted_alone ρ T p :
  rooted ρ T -> T !! ρ = Some p -> (forall i, T !! (ρ ++ [i]) = None) -> T = {[ρ := p]}.
Proof.
  intros Hr Hp Hno. assert (forall l, l <> [] -> T !! (ρ ++ l) = None) as Hall.
  { induction l as [|x l IH] using rev_ind; [done|]. intros _. destruct l as [|y l]; [apply Hno|].
    destruct (T !! (ρ ++ (y :: l) ++ [x])) as [q|] eqn:E; [|done].
    destruct (Hr _ _ E) as [Heq|(π' & i & Heq & _ & [r Hr'])].
    - apply (f_equal length) in Heq. rewrite !length_app in Heq. simpl in Heq. lia.
    - rewrite app_assoc in Heq. apply app_inj_tail in Heq as [<- _]. rewrite IH in Hr' by done. done. }
  apply map_eq. intros π. destruct (decide (π = ρ)) as [->|Hne]; [by rewrite lookup_singleton_eq|].
  rewrite lookup_singleton_ne by done. destruct (T !! π) as [q|] eqn:E; [|done].
  destruct (rooted_prefix _ _ _ _ Hr E) as [l ->]. rewrite Hall in E; [done|]. intros ->. by rewrite app_nil_r in Hne.
Qed.

Section Free.
Context (kend : Z) (kend_pos : 0 < kend).

Lemma tree_below m T ρ : tree_ok kend m T ∅ -> tree_ok kend m (below ρ T) ∅.
Proof.
  intros [H1 H2 H3 H4 H5]. split.
  - intros π p [Hp _]%below_Some. by apply H1.
  - intros π π' p [Hp _]%below_Some [Hp' _]%below_Some. by eapply H2.
  - intros π p i [Hp Hpre]%below_Some Hl Hi. rewrite (H3 π p i Hp Hl Hi). f_equal.
    destruct (T !! (π ++ [i])) as [q|] eqn:E.
    + symmetry. apply below_Some. split; [done|]. by apply prefix_app_r.
    + symmetry. unfold below. apply map_lookup_filter_None. by left.
  - intros π p i [Hp _]%below_Some. by apply H4.
  - intros π e He. by rewrite lookup_empty in He.
Qed.

(** After the tables below [ρ ++ [i]] are gone, clearing the entry [i] of [ρ]
    leaves a tree again. *)
Lemma tree_prune m m' T ρ p i :
  tree_ok kend m T ∅ -> T !! ρ = Some p -> idx i ->
  (forall π q x, aside (ρ ++ [i]) T !! π = Some q -> q <= x < q + PGSIZE -> m' x = m x) ->
  tree_ok kend (store64 m' (slot p i) 0) (aside (ρ ++ [i]) T) ∅.
Proof.
  intros Ht Hp Hi Hm. assert (aside (ρ ++ [i]) T !! ρ = Some p) as Hpa.
  { apply aside_Some. split; [done|]. apply prefix_snoc_not. }
  assert (Hout : forall π q j, aside (ρ ++ [i]) T !! π = Some q -> idx j -> π <> ρ \/ j <> i ->
    load64 (store64 m' (slot p i) 0) (slot q j) = load64 m (slot q j)).
  { intros π q j Hq Hj Hne. rewrite load64_store64_ne.
    - apply load64_ext. intros x Hx. apply (Hm π q); [done|]. pose proof (slot_in_page q j Hj). lia.
    - apply aside_Some in Hq as [Hq _]. apply slots_apart; try done.
      + apply (to_page _ _ _ _ Ht _ _ Hq).
      + apply (to_page _ _ _ _ Ht _ _ Hp).
      + destruct Hne as [Hne|]; [left|by right]. intros ->. apply Hne. by eapply (to_inj _ _ _ _ Ht). }
  assert (load64 (store64 m' (slot p i) 0) (slot p i) = 0) as Hz by (apply load64_store64; lia).
  destruct Ht as [H1 H2 H3 H4 H5]. split.
  - intros π q [Hq _]%aside_Some. by apply H1.
  - intros π π' q [Hq _]%aside_Some [Hq' _]%aside_Some. by eapply H2.
  - intros π q j Hq Hl Hj. pose proof Hq as [HqT Hpre]%aside_Some.
    destruct (decide (π = ρ /\ j = i)) as [[-> ->]|Hne].
    + assert (q = p) as -> by congruence. rewrite Hz. unfold aside. rewrite (proj2 (map_lookup_filter_None _ _ _)); [done|].
      right. intros x _ Hn. by apply Hn.
    + rewrite (Hout π q j Hq Hj) by (destruct (decide (π = ρ)); [right|by left]; naive_solver).
      rewrite (H3 π q j HqT Hl Hj). f_equal. destruct (T !! (π ++ [j])) as [r|] eqn:E; symmetry.
      * apply aside_Some. split; [done|]. intros [Heq|Hpre']%prefix_snoc; [|done].
        apply app_inj_tail in Heq as [-> ->]. naive_solver.
      * unfold aside. apply map_lookup_filter_None. by left.
  - intros π q j Hq Hl Hj. pose proof Hq as [HqT Hpre]%aside_Some. rewrite lookup_empty.
    destruct (decide (π = ρ /\ j = i)) as [[-> ->]|Hne].
    + assert (q = p) as -> by congruence. by rewrite Hz.
    + rewrite (Hout π q j Hq Hj) by (destruct (decide (π = ρ)); [right|by left]; naive_solver).
      rewrite (H4 π q j HqT Hl Hj). by rewrite lookup_empty.
  - intros π e He. by rewrite lookup_empty in He.
Qed.

Definition fw_ok (fuel : nat) : Prop := forall ρ p s T free,
  kmem_ok kend s free -> tree_ok kend (ram s) T ∅ -> rooted ρ T -> T !! ρ = Some p ->
  NoDup (tpages T ++ free) -> (3 <= length ρ + fuel)%nat ->
  exists s' free', freewalk kend fuel p s = Ok (tt, s') /\ kmem_ok kend s' free' /\
    free' ≡ₚ tpages T ++ free /\ keeps (tpages T ++ free) (ram s) (ram s').

(** One iteration of the loop of freewalk(). *)
Lemma freewalk_entry fuel ρ p s T free i :
  fw_ok fuel -> kmem_ok kend s free -> tree_ok kend (ram s) T ∅ -> rooted ρ T -> T !! ρ = Some p ->
  NoDup (tpages T ++ free) -> (3 <= length ρ + S fuel)%nat -> idx i ->
  exists s' T' free',
    (let* pte := load (slot p i) in
     if has pte PTE_V && negb (has pte (Z.lor (Z.lor PTE_R PTE_W) PTE_X)) then
       freewalk kend fuel (PTE2PA pte) ;;; store_word (slot p i) 0
     else if has pte PTE_V then mpanic "freewalk: leaf"
     else mret tt) s = Ok (tt, s') /\
    kmem_ok kend s' free' /\ tree_ok kend (ram s') T' ∅ /\ rooted ρ T' /\ T' !! ρ = Some p /\
    T' !! (ρ ++ [i]) = None /\ (forall π, T !! π = None -> T' !! π = None) /\
    tpages T' ++ free' ≡ₚ tpages T ++ free /\ keeps (tpages T ++ free) (ram s) (ram s').
Proof.
  intros IH Hk Ht Hr Hp Hnd Hf Hi. rewrite mbind_load.
  assert (load64 (ram s) (slot p i) = link (T !! (ρ ++ [i]))) as Hl.
  { destruct (to_page _ _ _ _ Ht _ _ Hp) as (_ & Hl & _).
    destruct (decide (length ρ = 2)%nat) as [H2|H2].
    - rewrite (to_leaf _ _ _ _ Ht ρ p i Hp H2 Hi), lookup_empty.
      destruct (T !! (ρ ++ [i])) as [q|] eqn:E; [|done]. apply (to_page _ _ _ _ Ht) in E as (_ & E & _).
      rewrite length_app in E. simpl in E. lia.
    - apply (to_link _ _ _ _ Ht ρ p i); [done|lia|done]. }
  rewrite Hl. destruct (T !! (ρ ++ [i])) as [c|] eqn:Hc.
  2:{ exists s, T, free. split; [done|]. split_and!; try done. }
  destruct (link_decode kend c kend_pos) as (D1 & D2 & D3); [apply (to_page _ _ _ _ Ht _ _ Hc)|].
  rewrite D1, D2, D3. cbn [negb andb].
  pose proof (tpages_split (ρ ++ [i]) T) as Hsplit.
  set (B := below (ρ ++ [i]) T) in *. set (A := aside (ρ ++ [i]) T) in *.
  assert (NoDup (tpages B ++ tpages A ++ free)) as Hnd3.
  { rewrite app_assoc. by rewrite <- Hsplit. }
  apply NoDup_app in Hnd3 as (N1 & N2 & N3).
  destruct (IH (ρ ++ [i]) c s B free) as (s1 & f1 & H1 & Hk1 & P1 & K1).
  { done. } { by apply tree_below. } { by apply rooted_below. } { by apply below_Some. }
  { apply NoDup_app. split; [done|]. split; [|by apply NoDup_app in N3 as (_ & _ & ?)].
    intros q Hq Hin. apply (N2 q Hq), elem_of_app. by right. }
  { rewrite length_app. simpl. lia. }
  rewrite (mbind_Ok _ _ _ _ _ H1). unfold store_word, mmodify. eexists _, A, f1. split; [reflexivity|].
  assert (forall π q, A !! π = Some q -> q ∉ tpages B ++ free) as Hdisj.
  { intros π q Hq Hin. apply elem_of_app in Hin as [Hin|Hin].
    - apply (N2 q Hin), elem_of_app. left. apply elem_tpages. eauto.
    - apply NoDup_app in N3 as (_ & N3 & _). apply (N3 q); [apply elem_tpages; eauto|done]. }
  assert (A !! ρ = Some p) as HpA by (apply aside_Some; split; [done|apply prefix_snoc_not]).
  assert (forall q, q ∈ tpages B ++ free -> q mod PGSIZE = 0) as Hal.
  { intros q [Hq|Hq]%elem_of_app; [|by apply (free_pages_aligned kend s free)].
    apply elem_tpages in Hq as (π & Hq). apply below_Some in Hq as [Hq _]. apply (to_page _ _ _ _ Ht _ _ Hq). }
  pose proof (slot_in_page p i Hi) as [Hs1 Hs2]. pose proof (to_page _ _ _ _ Ht _ _ Hp) as [[Hpal _] _].
  assert (keeps [p] (ram s1) (store64 (ram s1) (slot p i) 0)) as Kp.
  { apply (keeps_same_but p); [by apply store64_page|by left]. }
  split_and!.
  - apply (kmem_keeps kend [p]); try done; intros q ->%list_elem_of_singleton; [done|].
    rewrite P1. by eapply Hdisj.
  - simpl. apply (tree_prune (ram s)); try done. intros π q x Hq Hx.
    apply (keeps_page (tpages B ++ free) (ram s) (ram s1) q x K1 Hal); [|by eapply Hdisj|done].
    apply aside_Some in Hq as [Hq _]. apply (to_page _ _ _ _ Ht _ _ Hq).
  - by apply rooted_aside.
  - done.
  - unfold A, aside. apply map_lookup_filter_None. right. intros x _ Hn. by apply Hn.
  - intros π Hπ. unfold A, aside. apply map_lookup_filter_None. by left.
  - rewrite P1, Hsplit. solve_Permutation.
  - simpl. apply (keeps_trans _ _ (ram s1)).
    + apply (keeps_mono (tpages B ++ free)); [|done]. intros q. rewrite Hsplit, !elem_of_app. tauto.
    + apply (keeps_mono [p]); [|done]. intros q ->%list_elem_of_singleton. apply elem_of_app. left. apply elem_tpages. eauto.
Qed.

Lemma freewalk_loop fuel ρ p n k s T free :
  fw_ok fuel -> kmem_ok kend s free -> tree_ok kend (ram s) T ∅ -> rooted ρ T -> T !! ρ = Some p ->
  NoDup (tpages T ++ free) -> (3 <= length ρ + S fuel)%nat -> (k + n = 512)%nat ->
  (forall j, (j < k)%nat -> T !! (ρ ++ [Z.of_nat j]) = None) ->
  exists s' free',
    for_each (seq k n) (fun i =>
      let* pte := load (slot p (Z.of_nat i)) in
      if has pte PTE_V && negb (has pte (Z.lor (Z.lor PTE_R PTE_W) PTE_X)) then
        freewalk kend fuel (PTE2PA pte) ;;; store_word (slot p (Z.of_nat i)) 0
      else if has pte PTE_V then mpanic "freewalk: leaf"
      else mret tt) s = Ok (tt, s') /\
    kmem_ok kend s' free' /\ p :: free' ≡ₚ tpages T ++ free /\ keeps (tpages T ++ free) (ram s) (ram s').
Proof.
  intros IHf. revert k s T free. induction n as [|n IH]; intros k s T free Hk Ht Hr Hp Hnd Hf Hkn Hdone.
  - exists s, free. split; [done|]. split; [done|].
    assert (T = {[ρ := p]}) as ->.
    { apply rooted_alone; [done|done|]. intros i. destruct (T !! (ρ ++ [i])) as [q|] eqn:E; [|done].
      pose proof (to_page _ _ _ _ Ht _ _ E) as (_ & _ & Hall). apply Forall_app in Hall as [_ Hall].
      apply Forall_cons in Hall as [Hall _]. unfold idx in Hall.
      rewrite <- (Z2Nat.id i) in E by lia. rewrite Hdone in E; [done|]. lia. }
    split; [|apply keeps_refl]. unfold tpages. by rewrite map_to_list_singleton.
  - cbn [seq for_each].
    destruct (freewalk_entry fuel ρ p s T free (Z.of_nat k)) as (s1 & T1 & f1 & H1 & Hk1 & Ht1 & Hr1 & Hp1 & Hn1 & Hs1 & P1 & K1);
      try done; [unfold idx; lia|].
    rewrite (mbind_Ok _ _ _ _ _ H1).
    destruct (IH (S k) s1 T1 f1) as (s2 & f2 & H2 & Hk2 & P2 & K2); try done; [by rewrite P1|lia| |].
    { intros j Hj. destruct (decide (j = k)) as [->|]; [done|]. apply Hs1, Hdone. lia. }
    exists s2, f2. split; [done|]. split; [done|]. split; [by rewrite P2|].
    eapply keeps_trans; [done|]. by eapply keeps_perm.
Qed.

(** freewalk() on a tree without leaves frees exactly its tables. *)
Lemma freewalk_ok fuel : fw_ok fuel.
Proof.
  induction fuel as [|fuel IH]; intros ρ p s T free Hk Ht Hr Hp Hnd Hf.
  { destruct (to_page _ _ _ _ Ht _ _ Hp) as (_ & Hl & _). lia. }
  cbn [freewalk].
  destruct (freewalk_loop fuel ρ p 512 0 s T free) as (s1 & f1 & H1 & Hk1 & P1 & K1); try done; [lia|].
  rewrite (mbind_Ok _ _ _ _ _ H1). assert (p ∉ f1) as Hn by (rewrite <- P1 in Hnd; by apply NoDup_cons in Hnd as [? _]).
  destruct (kfree_ok kend kend_pos s1 f1 p Hk1) as (m & H2 & Hk2 & Hsb); [apply (to_page _ _ _ _ Ht _ _ Hp)|done|].
  eexists _, (p :: f1). split; [exact H2|]. split; [exact Hk2|]. split; [done|].
  apply (keeps_trans _ _ (ram s1)); [done|]. apply (keeps_same_but p); [done|]. rewrite <- P1. by left.
Qed.

(** The user pages of an address space are mapped below [n * PGSIZE]. *)
Definition user_leaves (n : nat) (L : gmap (list Z) Z) : Prop :=
  forall π e, L !! π = Some e -> exists va, 0 <= va < Z.of_nat n * PGSIZE /\ π = vpath va.

Lemma user_leaves_none n L :
  Z.of_nat n * PGSIZE <= MAXVA -> user_leaves n L -> unmap_run n 0 L = ∅.
Proof.
  intros Htop Hu. apply map_eq. intros π. rewrite lookup_empty.
  assert (forall k va L' π' e, unmap_run k va L' !! π' = Some e -> L' !! π' = Some e) as Hmono.
  { induction k as [|k IH]; intros va L' π' e He; [done|]. cbn [unmap_run] in He. apply IH in He.
    by apply lookup_delete_Some in He as [_ He]. }
  destruct (unmap_run n 0 L !! π) as [e|] eqn:E; [|done]. pose proof (Hmono _ _ _ _ _ E) as E0.
  destruct (Hu _ _ E0) as (va & Hva & ->). rewrite unmap_run_lookup, decide_True in E; [done|lia..|done|lia|lia].
Qed.
End Free.

(** ** Theorems *)

(** C18: uvmfree, given an address space whose mapped pages lie below its size and
    are distinct from each other, from the tables and from the free pages,
    never panics, terminates within the three levels of the tree, and puts
    exactly the user pages and the page-table pages of the address space on
    the free list: nothing leaks and nothing is freed twice.  Memory outside
    those pages and the free pages is unchanged. *)
Theorem uvmfree_correct kend s root T L free n sz :
  0 < kend -> as_ok kend s root T L free -> 0 <= sz -> Z.of_nat n = PGROUNDUP sz / PGSIZE ->
  sz <= MAXVA - PGSIZE -> user_leaves n L ->
  Forall (page kend) (uframes n 0 L) -> NoDup (uframes n 0 L ++ tpages T ++ free) ->
  exists s' free', uvmfree kend root sz s = Ok (tt, s') /\ kmem_ok kend s' free' /\
    free' ≡ₚ uframes n 0 L ++ tpages T ++ free /\
    keeps (uframes n 0 L ++ tpages T ++ free) (ram s) (ram s').
Proof.
  intros Hkend Has Hsz Hn Htop Hu Hpg Hnd. unfold uvmfree. change MAXVA with (2 ^ 38) in *.
  destruct (PGROUNDUP_bounds sz) as [Hr Hm]; [unfold PGSIZE in *; lia|].
  pose proof (Z.div_mod (PGROUNDUP sz) PGSIZE ltac:(unfold PGSIZE; lia)) as Hd. rewrite Hm, <- Hn in Hd.
  assert (Z.of_nat n * PGSIZE <= 2 ^ 38) as Htop' by (unfold PGSIZE in *; lia).
  assert (exists s1 f1, (if 0 <? sz then uvmunmap kend root 0 (PGROUNDUP sz / PGSIZE) 1 else mret tt) s = Ok (tt, s1) /\
    as_ok kend s1 root T ∅ f1 /\ f1 ≡ₚ uframes n 0 L ++ free /\
    keeps (uframes n 0 L ++ tpages T ++ free) (ram s) (ram s1)) as (s1 & f1 & H1 & Has1 & P1 & K1).
  { destruct (Z.ltb_spec 0 sz) as [Hpos|Hzero].
    - rewrite <- Hn. destruct (uvmunmap_ok kend Hkend n 0 1 s root T L free) as (s1 & f1 & H1 & Has1 & P1 & K1); try done.
      rewrite user_leaves_none in Has1 by done. by exists s1, f1.
    - assert (n = 0%nat) as -> by (unfold PGSIZE in *; lia). exists s, free. split; [done|].
      assert (L = ∅) as -> by (by rewrite <- (user_leaves_none 0 L)). split; [done|]. split; [done|]. apply keeps_refl. }
  rewrite (mbind_Ok _ _ _ _ _ H1). destruct Has1 as [B1 B2 B3 B4 B5].
  destruct (freewalk_ok kend Hkend 3 [] root s1 T f1) as (s2 & f2 & H2 & Hk2 & P2 & K2); try done.
  - intros π p Hp. destruct π as [|x π _] using rev_ind; [by left|right]. exists π, x.
    split; [done|]. split; [apply prefix_nil|]. by eapply B3.
  - rewrite P1. rewrite app_assoc, (Permutation_app_comm (tpages T)), <- app_assoc. done.
  - exists s2, f2. split; [done|]. split; [done|]. split; [rewrite P2, P1; solve_Permutation|].
    eapply keeps_trans; [done|]. eapply keeps_perm; [|done]. rewrite P1. solve_Permutation.
Qed.

Lemma uvmfree_correct_witness :
  exists s' free', uvmfree demo_kend (demo_page 0) 1 vm_demo = Ok (tt, s') /\ kmem_ok demo_kend s' free' /\
    free' ≡ₚ uframes 1 0 demo_L ++ tpages demo_T ++ [demo_page 4] /\
    keeps (uframes 1 0 demo_L ++ tpages demo_T ++ [demo_page 4]) (ram vm_demo) (ram s').
Proof.
  apply (uvmfree_correct demo_kend vm_demo (demo_page 0) demo_T demo_L [demo_page 4] 1 1).
  - reflexivity.
  - exact vm_demo_ok.
  - lia.
  - reflexivity.
  - vm_compute. discriminate.
  - intros π e He. unfold demo_L in He. apply lookup_singleton_Some in He as [<- _]. exists 0. split; [|done].
    unfold PGSIZE. lia.
  - constructor; [|constructor]. split; [reflexivity|]. vm_compute. split; [discriminate|reflexivity].
  - apply (bool_decide_unpack _). vm_compute. exact I.
Defined.
