(* ===== verification/VmCopy.v ===== *)
(** * Translation, lazy allocation and copying to user memory

    walkaddr() and vmfault() on the abstract view of an address space, and
    copyout(): what the kernel writes through a page table reaches exactly the
    user bytes it names. *)
From stdpp Require Import base list strings gmap.
From Stdlib Require Import ZArith Lia.
From S2P Require Import Prelude Spinlock CString Riscv Kalloc Vm VmTree VmMap.

(** The page walkaddr() finds for [va], 0 if there is none for the user. *)
Definition trans (L : gmap (list Z) Z) (va : Z) : Z :=
  if MAXVA <=? va then 0
  else
    match L !! vpath va with
    | Some e => if has e PTE_U then PTE2PA e else 0
    | None => 0
    end.
(** The physical address of the user byte [va]. *)
Definition uaddr (L : gmap (list Z) Z) (va : Z) : Z := trans L va + va mod PGSIZE.

(** User frames are pages of their own: not tables, not free, not shared. *)
Record frames_ok (kend : Z) (T L : gmap (list Z) Z) (free : list Z) : Prop := {
  fo_page π e : L !! π = Some e -> has e PTE_U = true ->
    page kend (PTE2PA e) /\ PTE2PA e ∉ tpages T ++ free;
  fo_inj π π' e e' : L !! π = Some e -> L !! π' = Some e' -> has e PTE_U = true -> has e' PTE_U = true ->
    PTE2PA e = PTE2PA e' -> π = π'
}.

(** An address space that took pages from the free list, the pages [fr] as
    user frames. *)
Record extends (kend : Z) (s s' : vmst) (root : Z) (T T' L L' : gmap (list Z) Z) (free free' fr : list Z) : Prop := {
  ex_as : as_ok kend s' root T' L' free';
  ex_tables : T ⊆ T';
  ex_leaves : L ⊆ L';
  ex_pages : tpages T' ++ fr ++ free' ≡ₚ tpages T ++ free;
  ex_keeps : keeps (tpages T ++ free) (ram s) (ram s')
}.

Section Copy.
Context (kend : Z) (kend_pos : 0 < kend).

Lemma as_nodup s root T L free : as_ok kend s root T L free -> NoDup (tpages T ++ free).
Proof.
  intros [H1 H2 _ _ H5]. apply NoDup_app. split.
  - unfold tpages. apply NoDup_fmap_2_strong; [|apply NoDup_map_to_list].
    intros [π p] [π' p'] Hx Hy Heq. simpl in Heq. subst p'.
    apply elem_of_map_to_list in Hx, Hy. f_equal. by eapply (to_inj _ _ _ _ H2).
  - split; [|apply H1]. intros p (π & Hp)%elem_tpages. by eapply H5.
Qed.

Lemma walkaddr_ok s root T L free va :
  as_ok kend s root T L free -> 0 <= va -> walkaddr root va s = Ok (trans L va, s).
Proof.
  intros Has Hva. unfold walkaddr, trans. destruct (Z.leb_spec MAXVA va) as [|Hlt]; [done|].
  pose proof (ao_tree _ _ _ _ _ _ Has) as Ht.
  rewrite (mbind_Ok _ _ _ _ _ (walk_find kend kend_pos s T L root va Ht (ao_closed _ _ _ _ _ _ Has)
    (ao_root _ _ _ _ _ _ Has) Hlt)).
  destruct (T !! [PX 2 va; PX 1 va]) as [q|] eqn:Hq.
  - destruct (load_vslot kend kend_pos s T L va q Ht Hq) as (E1 & E2 & E3).
    rewrite (proj2 (Z.eqb_neq _ _)) by done. rewrite mbind_load, E3.
    destruct (L !! vpath va) as [e|] eqn:He; [|done]. change (default 0 (Some e)) with e.
    destruct (to_leaf_ok _ _ _ _ Ht _ _ He) as (? & ? & _ & _ & _ & _ & _ & ->). by destruct (has e PTE_U).
  - unfold vslot. rewrite Hq. destruct (L !! vpath va) as [e|] eqn:He; [|done].
    destruct (to_leaf_ok _ _ _ _ Ht _ _ He) as (π & i & Hπ & _ & [? Hx] & _).
    change (vpath va) with ([PX 2 va; PX 1 va] ++ [PX 0 va]) in Hπ. apply app_inj_tail in Hπ as [<- _]. congruence.
Qed.

Lemma ismapped_ok s root T L free va :
  as_ok kend s root T L free -> va < MAXVA ->
  ismapped root va s = Ok (match L !! vpath va with Some _ => 1 | None => 0 end, s).
Proof.
  intros Has Hlt. unfold ismapped. pose proof (ao_tree _ _ _ _ _ _ Has) as Ht.
  rewrite (mbind_Ok _ _ _ _ _ (walk_find kend kend_pos s T L root va Ht (ao_closed _ _ _ _ _ _ Has)
    (ao_root _ _ _ _ _ _ Has) Hlt)).
  destruct (T !! [PX 2 va; PX 1 va]) as [q|] eqn:Hq.
  - destruct (load_vslot kend kend_pos s T L va q Ht Hq) as (E1 & E2 & E3).
    rewrite (proj2 (Z.eqb_neq _ _)) by done. rewrite mbind_load, E3.
    destruct (L !! vpath va) as [e|] eqn:He; [|done]. change (default 0 (Some e)) with e.
    destruct (to_leaf_ok _ _ _ _ Ht _ _ He) as (? & ? & _ & _ & _ & _ & _ & ->). done.
  - unfold vslot. rewrite Hq. destruct (L !! vpath va) as [e|] eqn:He; [|done].
    destruct (to_leaf_ok _ _ _ _ Ht _ _ He) as (π & i & Hπ & _ & [? Hx] & _).
    change (vpath va) with ([PX 2 va; PX 1 va] ++ [PX 0 va]) in Hπ. apply app_inj_tail in Hπ as [<- _]. congruence.
Qed.

Lemma extends_refl s root T L free :
  as_ok kend s root T L free -> extends kend s s root T T L L free free [].
Proof. intros H. by split. Qed.

Definition WUR : Z := Z.lor (Z.lor PTE_W PTE_U) PTE_R.

(** vmfault() maps a zeroed page, or leaves the leaves alone. *)
Lemma vmfault_ok s root T L free psz va rd :
  as_ok kend s root T L free -> 0 <= va -> va mod PGSIZE = 0 -> psz <= MAXVA ->
  exists r s' T' L' free' fr, vmfault kend root psz va rd s = Ok (r, s') /\
    extends kend s s' root T T' L L' free free' fr /\
    ((r = 0 /\ L' = L /\ fr = []) \/
     (r <> 0 /\ va < psz /\ L !! vpath va = None /\ fr = [r] /\ page kend r /\
      L' = <[vpath va := entry r WUR]> L /\ filled r 0 (ram s'))).
Proof.
  intros Has Hva Hal Hpsz. unfold vmfault. destruct (Z.leb_spec psz va) as [Hge|Hlt].
  { exists 0, s, T, L, free, []. split; [done|]. split; [by apply extends_refl|]. by left. }
  assert (PGROUNDDOWN va = va) as ->.
  { rewrite PGROUNDDOWN_spec by (change MAXVA with (2 ^ 38) in *; lia).
    pose proof (Z.div_mod va PGSIZE ltac:(unfold PGSIZE; lia)). unfold PGSIZE in *. lia. }
  rewrite (mbind_Ok _ _ _ _ _ (ismapped_ok s root T L free va Has ltac:(lia))).
  destruct (L !! vpath va) as [e|] eqn:He.
  { exists 0, s, T, L, free, []. split; [done|]. split; [by apply extends_refl|]. by left. }
  change (negb (0 =? 0)) with false. cbv iota.
  pose proof (as_nodup s root T L free Has) as Hnd0.
  destruct (kalloc_as kend kend_pos s root T L free Has) as (s1 & H1 & Has1 & _ & H3).
  rewrite (mbind_Ok _ _ _ _ _ H1). destruct free as [|a free]; cbn [hd tail] in *.
  { exists 0, s1, T, L, [], []. split; [done|]. split; [|by left]. split; try done. rewrite H3. apply keeps_refl. }
  destruct H3 as (H3 & Ha & Hz & Hnt & Hnf). rewrite (proj2 (Z.eqb_neq _ _)) by done.
  destruct (fill_as kend s1 root T L free a 0 Has1) as (s2 & H2 & Has2 & Hm1 & Hm2); [apply Ha|rewrite elem_of_app; tauto|].
  change (u8 0) with 0 in Hm2. rewrite (mbind_Ok _ _ _ _ _ H2).
  assert (keeps (tpages T ++ a :: free) (ram s) (ram s2)) as K2.
  { apply (keeps_trans _ _ (ram s1)); (apply (keeps_same_but a); [done|]; apply elem_of_app; right; by left). }
  destruct (mappages_ok kend kend_pos va PGSIZE a WUR s2 root T L free 0) as (r & s3 & T3 & k & f3 & H4 & G & Hr); try done.
  { change MAXVA with (2 ^ 38) in *. pose proof (Z.div_mod va PGSIZE ltac:(unfold PGSIZE; lia)).
    unfold PGSIZE in *. lia. }
  { destruct (page_addr _ _ kend_pos Ha). lia. }
  { destruct (page_addr _ _ kend_pos Ha). unfold PGSIZE. lia. }
  { intros va' Hin. by rewrite (vpath_same va va'). }
  rewrite (mbind_Ok _ _ _ _ _ H4). destruct G as [G1 G2 G3 G4].
  assert (keeps (tpages T ++ a :: free) (ram s2) (ram s3)) as K3.
  { apply (keeps_mono (tpages T ++ free)); [|done]. intros p. rewrite !elem_of_app, elem_of_cons. tauto. }
  assert (tpages T3 ++ a :: f3 ≡ₚ tpages T ++ a :: free) as P3.
  { rewrite <- !Permutation_middle. by rewrite G3. }
  destruct Hr as [[-> ->]|(-> & Hk & ->)].
  - change (negb (0 =? 0)) with false. cbv iota.
    exists a, s3, T3, (<[vpath va := entry a WUR]> L), f3, [a]. split; [done|]. split.
    + split; [exact G1|done|by apply insert_subseteq|done|by eapply keeps_trans].
    + right. split_and!; try done; [apply Ha..|]. intros x Hx. rewrite <- (Hm2 x Hx).
      apply (keeps_page (tpages T ++ free) (ram s2) (ram s3) a); try done.
      * intros p [Hp|Hp]%elem_of_app; [by apply (tpages_aligned kend (ram s2) T L); [apply Has2|]|].
        by apply (free_pages_aligned kend s2 free); [apply Has2|].
      * apply Ha.
      * rewrite elem_of_app. tauto.
  - change (negb (-1 =? 0)) with true. cbv iota. assert (k = 0)%nat as -> by lia. cbn [map_run] in G1.
    destruct (kfree_as kend kend_pos s3 root T3 L [] a G1 Ha) as (s4 & H5 & Has4 & Hsb).
    { rewrite <- P3 in Hnd0. rewrite <- Permutation_middle in Hnd0. by apply NoDup_cons in Hnd0 as [? _]. }
    rewrite (mbind_Ok _ _ _ _ _ H5). exists 0, s4, T3, L, [a], []. split; [done|]. split; [|by left].
    split; try done. eapply keeps_trans; [exact K2|]. eapply keeps_trans; [exact K3|].
    apply (keeps_same_but a); [done|]. apply elem_of_app. right. by left.
Qed.

Lemma trans_frame T L free va :
  frames_ok kend T L free -> trans L va <> 0 ->
  exists e, L !! vpath va = Some e /\ has e PTE_U = true /\ trans L va = PTE2PA e /\ va < MAXVA /\
    page kend (PTE2PA e) /\ PTE2PA e ∉ tpages T ++ free.
Proof.
  intros Hf Hn. unfold trans in *. destruct (Z.leb_spec MAXVA va) as [|Hlt]; [done|].
  destruct (L !! vpath va) as [e|] eqn:He; [|done].
  destruct (has e PTE_U) eqn:Hu; [|done]. exists e. destruct (fo_page _ _ _ _ Hf _ _ He Hu). done.
Qed.

Lemma trans_sub T L L' free va :
  frames_ok kend T L free -> L ⊆ L' -> trans L va <> 0 -> trans L' va = trans L va.
Proof.
  intros Hf Hs Hn. destruct (trans_frame T L free va Hf Hn) as (e & He & Hu & -> & Hlt & _).
  unfold trans. rewrite (proj2 (Z.leb_gt _ _)) by done. by rewrite (lookup_weaken _ _ _ _ He Hs), Hu.
Qed.

Lemma frames_extends s s' root T T' L L' free free' fr :
  extends kend s s' root T T' L L' free free' fr -> as_ok kend s root T L free -> frames_ok kend T L free ->
  (L' = L \/ exists va r, fr = [r] /\ page kend r /\ L' = <[vpath va := entry r WUR]> L) ->
  frames_ok kend T' L' free'.
Proof.
  intros Hex Has [F1 F2] HL. pose proof (ex_pages _ _ _ _ _ _ _ _ _ _ _ Hex) as Hp.
  assert (forall p, p ∉ tpages T ++ free -> p ∉ tpages T' ++ free') as Hsub.
  { intros p Hn Hin. apply Hn. rewrite <- Hp. rewrite !elem_of_app in *. tauto. }
  destruct HL as [->|(va & r & -> & Hr & ->)].
  { split; [|done]. intros π e He Hu. destruct (F1 π e He Hu). auto. }
  assert (0 <= WUR < 1024) as Hw by (vm_compute; split; [discriminate|reflexivity]).
  destruct (entry_decode kend r WUR kend_pos Hr Hw) as [Hd _].
  pose proof (as_nodup _ _ _ _ _ Has) as Hnd. rewrite <- Hp in Hnd. cbn [app] in Hnd.
  rewrite <- Permutation_middle in Hnd. apply NoDup_cons in Hnd as [Hnr _].
  assert (r ∈ tpages T ++ free) as Hin.
  { rewrite <- Hp. rewrite !elem_of_app, elem_of_cons. tauto. }
  split.
  - intros π e [[<- <-]|[Hne He]]%lookup_insert_Some Hu; [by rewrite Hd|]. destruct (F1 π e He Hu). auto.
  - intros π π' e e' [[<- <-]|[Hne He]]%lookup_insert_Some [[<- <-]|[Hne' He']]%lookup_insert_Some Hu Hu' Heq; try done.
    + rewrite Hd in Heq. destruct (F1 _ _ He' Hu') as [_ Hn]. by rewrite <- Heq in Hn.
    + rewrite Hd in Heq. destruct (F1 _ _ He Hu) as [_ Hn]. by rewrite Heq in Hn.
    + by eapply F2.
Qed.

(** Finding or allocating the page of a user address. *)
Lemma user_page_ok s root T L free psz va0 rd :
  as_ok kend s root T L free -> frames_ok kend T L free -> 0 <= va0 -> va0 mod PGSIZE = 0 -> psz <= MAXVA ->
  exists pa s' T' L' free' fr, user_page kend root psz va0 rd s = Ok (pa, s') /\
    extends kend s s' root T T' L L' free free' fr /\ frames_ok kend T' L' free' /\
    (forall p, (exists π e, L' !! π = Some e /\ has e PTE_U = true /\ PTE2PA e = p) ->
       p ∈ tpages T ++ free \/ exists π e, L !! π = Some e /\ has e PTE_U = true /\ PTE2PA e = p) /\
    (pa <> 0 -> trans L' va0 = pa).
Proof.
  intros Has Hf Hva Hal Hpsz. unfold user_page.
  rewrite (mbind_Ok _ _ _ _ _ (walkaddr_ok s root T L free va0 Has Hva)).
  destruct (Z.eqb_spec (trans L va0) 0) as [Hz|Hnz].
  2:{ exists (trans L va0), s, T, L, free, []. split; [done|]. split; [by apply extends_refl|]. split; [done|].
      split; [|done]. intros p Hp. by right. }
  destruct (vmfault_ok s root T L free psz va0 rd Has Hva Hal Hpsz) as (r & s' & T' & L' & free' & fr & H1 & Hex & Hr).
  exists r, s', T', L', free', fr. split; [done|]. split; [done|].
  assert (0 <= WUR < 1024) as Hw by (vm_compute; split; [discriminate|reflexivity]).
  destruct Hr as [(-> & -> & ->)|(Hrz & Hlt & Hnone & -> & Hpr & -> & _)].
  - split; [eapply frames_extends; [done..|by left]|]. split; [|done]. intros p Hp. by right.
  - destruct (entry_decode kend r WUR kend_pos Hpr Hw) as [Hd _].
    split; [eapply frames_extends; [done..|right; by exists va0, r]|]. split.
    + intros p (π & e & [[<- <-]|[Hne He]]%lookup_insert_Some & Hu & <-).
      * left. rewrite Hd, <- (ex_pages _ _ _ _ _ _ _ _ _ _ _ Hex), !elem_of_app, elem_of_cons. tauto.
      * right. eauto.
    + intros _. unfold trans. rewrite (proj2 (Z.leb_gt _ _)) by lia. rewrite lookup_insert_eq, Hd.
      assert (has (entry r WUR) PTE_U = true) as ->; [|done].
      rewrite entry_flags. apply has_entry; vm_compute; (split; [discriminate|reflexivity]).
Qed.

(** The bytes at [src] are the kernel's: outside tables, free pages and user
    frames. *)
Definition kernel_bytes (T L : gmap (list Z) Z) (free : list Z) (src len : Z) : Prop :=
  forall j, 0 <= j < len ->
    (forall p, p ∈ tpages T ++ free -> ~ (p <= src + j < p + PGSIZE)) /\
    (forall π e, L !! π = Some e -> has e PTE_U = true -> ~ (PTE2PA e <= src + j < PTE2PA e + PGSIZE)).

(** What copyout() leaves: only bytes of the destination are written, and on
    success all of them, through writable user mappings. *)
Record copied (s s' : vmst) (root : Z) (T T' L L' : gmap (list Z) Z) (free free' : list Z)
    (dstva src len r : Z) : Prop := {
  cp_as : as_ok kend s' root T' L' free';
  cp_frames : frames_ok kend T' L' free';
  cp_tables : T ⊆ T';
  cp_leaves : L ⊆ L';
  cp_pages : exists fr, tpages T' ++ fr ++ free' ≡ₚ tpages T ++ free;
  cp_only x : (forall p, p ∈ tpages T ++ free -> ~ (p <= x < p + PGSIZE)) ->
    (forall i, 0 <= i < len -> x <> uaddr L' (dstva + i)) -> ram s' x = ram s x;
  cp_result : r = 0 \/ r = -1;
  cp_data i : r = 0 -> 0 <= i < len ->
    (exists e, L' !! vpath (dstva + i) = Some e /\ has e PTE_U = true /\ has e PTE_W = true) /\
    trans L' (dstva + i) <> 0 /\ ram s' (uaddr L' (dstva + i)) = ram s (src + i)
}.

Lemma uaddr_off L va i :
  va mod PGSIZE + i < PGSIZE -> 0 <= i -> 0 <= va -> uaddr L (va + i) = trans L va + va mod PGSIZE + i.
Proof.
  intros Hi H0 Hva. unfold uaddr.
  pose proof (Z.mod_pos_bound va PGSIZE ltac:(unfold PGSIZE; lia)) as Hm.
  pose proof (Z.div_mod va PGSIZE ltac:(unfold PGSIZE; lia)) as Hd.
  assert ((va + i) mod PGSIZE = va mod PGSIZE + i) as ->.
  { symmetry. apply (Z.mod_unique _ _ (va / PGSIZE)); unfold PGSIZE in *; lia. }
  set (va0 := PGSIZE * (va / PGSIZE)) in *.
  assert (va0 mod PGSIZE = 0) as Hal by (unfold va0; rewrite Z.mul_comm; apply Z.mod_mul; unfold PGSIZE; lia).
  assert (vpath (va + i) = vpath va) as Hv.
  { rewrite (vpath_same va0 (va + i)) by (done || lia). symmetry. apply vpath_same; [done|lia]. }
  assert ((MAXVA <=? va + i) = (MAXVA <=? va)) as Hx.
  { assert (MAXVA = PGSIZE * 2 ^ 26) as HM by reflexivity. unfold PGSIZE in *.
    destruct (Z.leb_spec MAXVA (va + i)), (Z.leb_spec MAXVA va); lia. }
  unfold trans. rewrite Hv, Hx. lia.
Qed.

(** Distinct user bytes have distinct addresses. *)
Lemma uaddr_ne T L free va va' :
  frames_ok kend T L free -> trans L va <> 0 -> 0 <= va -> va / PGSIZE * PGSIZE + PGSIZE <= va' ->
  uaddr L va <> uaddr L va'.
Proof.
  intros Hf Hn Hva Hle Heq. destruct (trans_frame T L free va Hf Hn) as (e & He & Hu & Ht & Hlt & [Hp1 Hp2] & _).
  pose proof (Z.mod_pos_bound va PGSIZE ltac:(unfold PGSIZE; lia)). pose proof (Z.mod_pos_bound va' PGSIZE ltac:(unfold PGSIZE; lia)).
  pose proof (Z.div_mod (PTE2PA e) PGSIZE ltac:(unfold PGSIZE; lia)).
  pose proof (Z.div_mod va PGSIZE ltac:(unfold PGSIZE; lia)) as Hd.
  unfold uaddr in Heq. rewrite Ht in Heq. destruct (decide (trans L va' = 0)) as [Hz|Hn'].
  { rewrite Hz in Heq. unfold PGSIZE in *. lia. }
  destruct (trans_frame T L free va' Hf Hn') as (e' & He' & Hu' & Ht' & Hlt' & [Hp1' _] & _). rewrite Ht' in Heq.
  destruct (decide (PTE2PA e = PTE2PA e')) as [Hsame|Hdiff].
  - pose proof (fo_inj _ _ _ _ Hf _ _ _ _ He He' Hu Hu' Hsame) as Hv.
    apply vpath_inj in Hv; [|lia|unfold PGSIZE in *; lia].
    pose proof (Z.div_mod va' PGSIZE ltac:(unfold PGSIZE; lia)). unfold PGSIZE in *. lia.
  - pose proof (pages_apart _ _ Hp1 Hp1' Hdiff). lia.
Qed.

(** The stop cases of the loop. *)
Lemma copied_stop s s' root T T' L L' free free' fr dstva src len r :
  extends kend s s' root T T' L L' free free' fr -> frames_ok kend T' L' free' ->
  r = -1 \/ (r = 0 /\ len <= 0) -> copied s s' root T T' L L' free free' dstva src len r.
Proof.
  intros [E1 E2 E3 E4 E5] Hf Hr. split; try done.
  - by exists fr.
  - intros x Hx _. by apply E5.
  - intuition lia.
  - intros i -> Hi. lia.
Qed.

(** A page of copyout(): what is left after moving [n] bytes. *)
Lemma copied_page s s1 s2 s' root T T1 T' L L1 L' free free1 free' fr dstva src len n r :
  extends kend s s1 root T T1 L L1 free free1 fr -> frames_ok kend T L free -> frames_ok kend T1 L1 free1 ->
  0 <= dstva -> trans L1 dstva <> 0 ->
  (exists e, L1 !! vpath dstva = Some e /\ has e PTE_W = true) ->
  0 < n <= len -> (n = len \/ dstva mod PGSIZE + n = PGSIZE) -> dstva mod PGSIZE + n <= PGSIZE ->
  kernel_bytes T L free src len -> kernel_bytes T1 L1 free1 src len ->
  (forall x, ram s2 x = memmove (ram s1) (uaddr L1 dstva) src n x) ->
  copied s2 s' root T1 T' L1 L' free1 free' (dstva + n) (src + n) (len - n) r ->
  copied s s' root T T' L L' free free' dstva src len r.
Proof.
  intros [E1 E2 E3 E4 E5] Hf0 Hf1 Hva Hnz (e & He & Hw) Hn Hfull Hoff Hsrc Hsrc1 Hmv [C1 C2 C3 C4 C5 C6 C7 C8].
  pose proof (Z.mod_pos_bound dstva PGSIZE ltac:(unfold PGSIZE; lia)) as Hm.
  pose proof (Z.div_mod dstva PGSIZE ltac:(unfold PGSIZE; lia)) as Hd.
  destruct (trans_frame T1 L1 free1 dstva Hf1 Hnz) as (e1 & He1 & Hu1 & Ht1 & Hlt1 & [Hp1 Hp2] & Hnt1).
  assert (e1 = e) as -> by congruence.
  assert (trans L' dstva = trans L1 dstva) as Htr by (by eapply trans_sub).
  assert (forall i, 0 <= i < n -> uaddr L' (dstva + i) = uaddr L1 dstva + i) as Hua.
  { intros i Hi. rewrite uaddr_off by lia. unfold uaddr. rewrite Htr. lia. }
  assert (forall q, q ∈ tpages T1 ++ free1 -> q mod PGSIZE = 0) as Hal1.
  { intros q [Hq|Hq]%elem_of_app; [by apply (tpages_aligned kend (ram s1) T1 L1); [apply E1|]|].
    by apply (free_pages_aligned kend s1 free1); [apply E1|]. }
  assert (forall p, p ∈ tpages T1 ++ free1 -> p ∈ tpages T ++ free) as Hsub.
  { intros p. rewrite <- E4, !elem_of_app. tauto. }
  split; try done.
  - by etrans.
  - by etrans.
  - destruct C5 as (fr' & C5). exists (fr' ++ fr). rewrite <- E4.
    trans (fr ++ (tpages T1 ++ free1)); [rewrite <- C5|]; solve_Permutation.
  - intros x Hx Hi. rewrite C6.
    + rewrite Hmv, memmove_spec by lia. rewrite decide_False; [by apply E5|]. intros Hin.
      apply (Hi (x - uaddr L1 dstva)); [lia|]. rewrite Hua; lia.
    + intros p Hp. apply Hx. by apply Hsub.
    + intros i Hi'. specialize (Hi (n + i) ltac:(lia)). by rewrite Z.add_assoc in Hi.
  - intros i -> Hi. destruct (decide (i < n)) as [Hlt|Hge].
    + assert (vpath (dstva + i) = vpath dstva) as Hvp.
      { set (va0 := PGSIZE * (dstva / PGSIZE)) in *.
        assert (va0 mod PGSIZE = 0) as Hal by (unfold va0; rewrite Z.mul_comm; apply Z.mod_mul; unfold PGSIZE; lia).
        rewrite (vpath_same va0 (dstva + i)) by (done || lia). symmetry. apply vpath_same; [done|lia]. }
      assert (trans L' (dstva + i) = trans L' dstva) as Hti.
      { pose proof (uaddr_off L' dstva i ltac:(lia) ltac:(lia) Hva) as Hx. unfold uaddr in Hx.
        assert ((dstva + i) mod PGSIZE = dstva mod PGSIZE + i); [|lia].
        symmetry. apply (Z.mod_unique _ _ (dstva / PGSIZE)); unfold PGSIZE in *; lia. }
      split; [rewrite Hvp; exists e; split; [by eapply lookup_weaken|done]|]. split; [by rewrite Hti, Htr|].
      rewrite Hua by lia. rewrite C6.
      * rewrite Hmv, memmove_spec by lia. rewrite decide_True by lia.
        replace (src + (uaddr L1 dstva + i - uaddr L1 dstva)) with (src + i) by lia. apply E5.
        by apply (Hsrc i).
      * intros p Hp Hin. unfold uaddr in Hin. rewrite Ht1 in Hin.
        assert (p <> PTE2PA e) as Hne by (intros ->; done).
        pose proof (pages_apart p (PTE2PA e) (Hal1 p Hp) Hp1 Hne). unfold PGSIZE in *. lia.
      * intros j Hj Heq. rewrite <- Hua in Heq by lia.
        eapply (uaddr_ne T' L' free' (dstva + i) (dstva + n + j)); [done|by rewrite Hti, Htr|lia| |done].
        assert ((dstva + i) / PGSIZE = dstva / PGSIZE) as ->.
        { symmetry. apply (Z.div_unique _ _ _ (dstva mod PGSIZE + i)); unfold PGSIZE in *; lia. }
        unfold PGSIZE in *. lia.
    + destruct (C8 (i - n) eq_refl ltac:(lia)) as (D1 & D2 & D3).
      replace (dstva + n + (i - n)) with (dstva + i) in * by lia. replace (src + n + (i - n)) with (src + i) in D3 by lia.
      split; [done|]. split; [done|]. rewrite D3, Hmv, memmove_spec by lia. destruct (Hsrc i Hi) as [K1 K2].
      destruct (Hsrc1 i Hi) as [_ K3]. rewrite decide_False; [by apply E5|]. intros Hin.
      apply (K3 _ _ He Hu1). unfold uaddr in Hin. rewrite Ht1 in Hin. lia.
Qed.

Lemma kernel_bytes_extends s s1 root T T1 L L1 free free1 fr src len :
  extends kend s s1 root T T1 L L1 free free1 fr -> kernel_bytes T L free src len ->
  (forall p, (exists π e, L1 !! π = Some e /\ has e PTE_U = true /\ PTE2PA e = p) ->
     p ∈ tpages T ++ free \/ exists π e, L !! π = Some e /\ has e PTE_U = true /\ PTE2PA e = p) ->
  kernel_bytes T1 L1 free1 src len.
Proof.
  intros Hex Hk Hfr j Hj. destruct (Hk j Hj) as [K1 K2]. split.
  - intros p Hp. apply K1. rewrite <- (ex_pages _ _ _ _ _ _ _ _ _ _ _ Hex). rewrite !elem_of_app in *. tauto.
  - intros π e He Hu. destruct (Hfr (PTE2PA e)) as [Hin|(π' & e' & He' & Hu' & <-)]; [eauto|by apply K1|by eapply K2].
Qed.

Lemma kernel_bytes_shift T L free src len n :
  0 <= n -> kernel_bytes T L free src len -> kernel_bytes T L free (src + n) (len - n).
Proof.
  intros Hn Hk j Hj. specialize (Hk (n + j) ltac:(lia)). by rewrite Z.add_assoc in Hk.
Qed.

Definition copyout_body (root psz : Z) : Z * Z * Z -> M vmst (Z * Z * Z + Z) := fun '(dstva, src, len) =>
  if 0 <? len then
    let va0 := PGROUNDDOWN dstva in
    if MAXVA <=? va0 then mret (inr (-1))
    else
      let* pa0 := user_page kend root psz va0 0 in
      if pa0 =? 0 then mret (inr (-1))
      else
        let* pte := walk root va0 0 in
        if pte =? 0 then mub
        else
          let* e := load pte in
          if negb (has e PTE_W) then mret (inr (-1))
          else
            let n := u64 (PGSIZE - (dstva - va0)) in
            let n := if len <? n then len else n in
            move (pa0 + (dstva - va0)) src n ;;;
            mret (inl (u64 (va0 + PGSIZE), src + n, u64 (len - n)))
  else mret (inr 0).

Lemma trans_down L va : 0 <= va -> trans L (va / PGSIZE * PGSIZE) = trans L va.
Proof.
  intros Hva. pose proof (Z.mod_pos_bound va PGSIZE ltac:(unfold PGSIZE; lia)) as Hm.
  pose proof (Z.div_mod va PGSIZE ltac:(unfold PGSIZE; lia)) as Hd.
  assert ((va / PGSIZE * PGSIZE) mod PGSIZE = 0) as Hal by (apply Z.mod_mul; unfold PGSIZE; lia).
  pose proof (uaddr_off L (va / PGSIZE * PGSIZE) (va mod PGSIZE)) as H. unfold uaddr in H. rewrite Hal in H.
  replace (va / PGSIZE * PGSIZE + va mod PGSIZE) with va in H by lia.
  specialize (H ltac:(lia) ltac:(lia) ltac:(unfold PGSIZE in *; lia)). lia.
Qed.

Lemma copyout_loop f : forall dstva src len s root T L free psz,
  as_ok kend s root T L free -> frames_ok kend T L free -> psz <= MAXVA -> 0 <= dstva < 2 ^ 64 ->
  0 <= len < 2 ^ 64 -> kernel_bytes T L free src len -> dstva mod PGSIZE + len <= Z.of_nat f * PGSIZE ->
  exists r s' T' L' free', mloop (S f) (copyout_body root psz) (dstva, src, len) s = Ok (r, s') /\
    copied s s' root T T' L L' free free' dstva src len r.
Proof.
  induction f as [|f IH]; intros dstva src len s root T L free psz Has Hfr Hpsz Hd Hlen Hker Hfuel.
  all: pose proof (Z.mod_pos_bound dstva PGSIZE ltac:(unfold PGSIZE; lia)) as Hm.
  all: destruct (Z.ltb_spec 0 len) as [Hpos|Hz]; [|exists 0, s, T, L, free; split;
    [apply mloop_stop; unfold copyout_body; by rewrite (proj2 (Z.ltb_ge _ _)) by lia|
     apply (copied_stop s s root T T L L free free []); [by apply extends_refl|done|right; split; [done|lia]]]].
  { lia. }
  pose proof (Z.div_mod dstva PGSIZE ltac:(unfold PGSIZE; lia)) as Hdm.
  set (va0 := dstva / PGSIZE * PGSIZE) in *.
  assert (PGROUNDDOWN dstva = va0) as Hdown by (by apply PGROUNDDOWN_spec).
  assert (0 <= va0 /\ va0 mod PGSIZE = 0) as [Hv0 Hval].
  { split; [unfold va0, PGSIZE in *; lia|apply Z.mod_mul; unfold PGSIZE; lia]. }
  cbn [mloop]. unfold copyout_body at 1. rewrite (proj2 (Z.ltb_lt _ _)) by done. rewrite Hdown. cbv zeta.
  destruct (Z.leb_spec MAXVA va0) as [Hbig|Hlt].
  { exists (-1), s, T, L, free. split; [done|].
    apply (copied_stop s s root T T L L free free []); [by apply extends_refl|done|by left]. }
  destruct (user_page_ok s root T L free psz va0 0 Has Hfr Hv0 Hval Hpsz)
    as (pa & s1 & T1 & L1 & f1 & fr & H1 & Hex & Hfr1 & Hnew & Htr).
  unfold mbind at 1. rewrite (mbind_Ok _ _ _ _ _ H1). destruct (Z.eqb_spec pa 0) as [->|Hpa].
  { exists (-1), s1, T1, L1, f1. split; [done|]. eapply copied_stop; [done|done|by left]. }
  specialize (Htr Hpa). pose proof (ex_as _ _ _ _ _ _ _ _ _ _ _ Hex) as Has1.
  assert (trans L1 va0 <> 0) as Htnz by congruence.
  destruct (trans_frame T1 L1 f1 va0 Hfr1 Htnz) as (e & He & Hu & Hte & _ & Hpg & _).
  pose proof (ao_tree _ _ _ _ _ _ Has1) as Ht1.
  rewrite (mbind_Ok _ _ _ _ _ (walk_find kend kend_pos s1 T1 L1 root va0 Ht1 (ao_closed _ _ _ _ _ _ Has1)
    (ao_root _ _ _ _ _ _ Has1) Hlt)).
  destruct (to_leaf_ok _ _ _ _ Ht1 _ _ He) as (π & i & Hπ & _ & [q Hq] & _).
  change (vpath va0) with ([PX 2 va0; PX 1 va0] ++ [PX 0 va0]) in Hπ. apply app_inj_tail in Hπ as [<- _].
  destruct (load_vslot kend kend_pos s1 T1 L1 va0 q Ht1 Hq) as (_ & Q2 & Q3).
  rewrite (proj2 (Z.eqb_neq _ _)) by done. rewrite mbind_load, Q3, He. change (default 0 (Some e)) with e.
  destruct (has e PTE_W) eqn:Hw; cbn [negb].
  2:{ exists (-1), s1, T1, L1, f1. split; [done|]. eapply copied_stop; [done|done|by left]. }
  assert (dstva - va0 = dstva mod PGSIZE) as -> by lia.
  rewrite (u64_small (PGSIZE - dstva mod PGSIZE)) by (unfold PGSIZE in *; lia).
  set (n := if len <? PGSIZE - dstva mod PGSIZE then len else PGSIZE - dstva mod PGSIZE).
  assert (0 < n <= len /\ (n = len \/ dstva mod PGSIZE + n = PGSIZE) /\ dstva mod PGSIZE + n <= PGSIZE) as (N1 & N2 & N3).
  { unfold n. destruct (Z.ltb_spec len (PGSIZE - dstva mod PGSIZE)); lia. }
  clearbody n. unfold move. rewrite mbind_modify. cbn [mret obind fst snd].
  change MAXVA with (2 ^ 38) in *. rewrite (u64_small (va0 + PGSIZE)) by (unfold PGSIZE in *; lia).
  rewrite (u64_small (len - n)) by lia.
  assert (trans L1 dstva = pa) as Hpd by (rewrite <- (trans_down L1 dstva) by lia; exact Htr).
  assert (pa + dstva mod PGSIZE = uaddr L1 dstva) as Hua by (unfold uaddr; lia). rewrite Hua.
  pose proof (kernel_bytes_extends _ _ _ _ _ _ _ _ _ _ _ _ Hex Hker Hnew) as Hker1.
  set (s2 := s1 <| ram ::= _ |>).
  assert (forall x, ram s2 x = memmove (ram s1) (uaddr L1 dstva) src n x) as Hmv by reflexivity.
  assert (as_ok kend s2 root T1 L1 f1) as Has2.
  { assert (s2 = s1 <| ram := memmove (ram s1) (uaddr L1 dstva) src n |>) as -> by reflexivity.
    apply (as_keeps kend [pa]); [done| |intros p ->%list_elem_of_singleton|intros p ->%list_elem_of_singleton].
    - intros x Hx. rewrite memmove_spec by lia. rewrite decide_False; [done|]. specialize (Hx pa ltac:(by left)). lia.
    - rewrite <- Htr, Hte. apply Hpg.
    - rewrite <- Htr, Hte. apply (fo_page _ _ _ _ Hfr1 _ _ He Hu). }
  clearbody s2.
  assert (exists r s' T' L' free', mloop (S f) (copyout_body root psz) (va0 + PGSIZE, src + n, len - n) s2 = Ok (r, s') /\
    copied s2 s' root T1 T' L1 L' f1 free' (dstva + n) (src + n) (len - n) r) as (r & s' & T' & L' & free' & H2 & C).
  { destruct N2 as [->|N2].
    - exists 0, s2, T1, L1, f1. split.
      + apply mloop_stop. unfold copyout_body. by rewrite (proj2 (Z.ltb_ge _ _)) by lia.
      + apply (copied_stop s2 s2 root T1 T1 L1 L1 f1 f1 []); [by apply extends_refl|done|right; split; [done|lia]].
    - replace (dstva + n) with (va0 + PGSIZE) by lia. apply IH; try done.
      + unfold PGSIZE in *. lia.
      + lia.
      + apply kernel_bytes_shift; [lia|done].
      + rewrite next_page by done. unfold PGSIZE in *. lia. }
  exists r, s', T', L', free'. split; [exact H2|].
  eapply (copied_page s s1 s2); try done; [lia|congruence|].
  exists e. split; [|done]. rewrite <- He. f_equal. apply vpath_same; [done|]. unfold PGSIZE in *. lia.
Qed.
End Copy.

(** ** Theorems *)


Lemma demo_frames : frames_ok demo_kend demo_T demo_L [demo_page 4].
Proof.
  assert (forall π e, demo_L !! π = Some e -> π = vpath 0 /\ e = demo_entry) as H.
  { intros π e He. unfold demo_L in He. by apply lookup_singleton_Some in He as [<- <-]. }
  assert (PTE2PA demo_entry = demo_page 3) as Hd by reflexivity.
  split.
  - intros π e [-> ->]%H _. rewrite Hd. split; [apply demo_pages; lia|]. apply (bool_decide_unpack _). vm_compute. exact I.
  - intros π π' e e' [-> ->]%H [-> ->]%H. done.
Qed.

Lemma demo_kernel_bytes : kernel_bytes demo_T demo_L [demo_page 4] 4096 300.
Proof.
  intros j Hj. split.
  - intros p Hp. assert (p ∈ demo_page <$> [0; 1; 2; 4]) as Hin.
    { revert p Hp. apply Forall_forall. apply (bool_decide_unpack _). vm_compute. exact I. }
    apply list_elem_of_fmap in Hin as (i & -> & Hi).
    assert (0 <= i) by (clear Hp; revert i Hi; apply Forall_forall; repeat constructor; done).
    unfold demo_page, demo_kend, PHYSTOP, KERNBASE, PGSIZE in *. lia.
  - intros π e He _. unfold demo_L in He. apply lookup_singleton_Some in He as [_ <-].
    change (PTE2PA demo_entry) with (demo_page 3). unfold demo_page, demo_kend, PHYSTOP, KERNBASE, PGSIZE in *. lia.
Qed.


(** mappages followed by walkaddr is a round trip: if mappages(va, size, pa)
    with user permission returns 0, walkaddr translates every address of the
    range to its page of [pa], and every address outside the range as before;
    mappages returns -1 only when the free list is used up. *)
Theorem mappages_walkaddr kend s root T L free va n pa perm :
  0 < kend -> as_ok kend s root T L free -> 0 <= va -> va mod PGSIZE = 0 ->
  va + Z.of_nat (S n) * PGSIZE <= MAXVA -> 0 <= pa -> pa mod PGSIZE = 0 -> pa + Z.of_nat (S n) * PGSIZE <= 2 ^ 56 ->
  0 <= perm < 1024 -> has perm PTE_U = true ->
  (forall va', va <= va' < va + Z.of_nat (S n) * PGSIZE -> L !! vpath va' = None) ->
  exists r s' T' L' free', mappages root va (Z.of_nat (S n) * PGSIZE) pa perm s = Ok (r, s') /\
    as_ok kend s' root T' L' free' /\ tpages T' ++ free' ≡ₚ tpages T ++ free /\
    ((r = 0 /\ forall va', 0 <= va' < MAXVA ->
        if decide (va <= va' < va + Z.of_nat (S n) * PGSIZE)
        then walkaddr root va' s' = Ok (pa + (va' / PGSIZE * PGSIZE - va), s')
        else exists t, walkaddr root va' s = Ok (t, s) /\ walkaddr root va' s' = Ok (t, s')) \/
     (r = -1 /\ free' = [])).
Proof.
  intros Hk Has Hva Hal Htop Hpa Hpal Hpt Hperm Hu Hnone.
  destruct (mappages_ok kend Hk va _ pa perm s root T L free n Has Hva Hal eq_refl Htop Hpa ltac:(lia) Hperm Hnone)
    as (r & s' & T' & k & free' & H1 & G & Hr).
  pose proof (gr_as _ _ _ _ _ _ _ _ _ G) as Has'. exists r, s', T', (map_run k va pa perm L), free'.
  split; [exact H1|]. split; [exact Has'|]. split; [apply G|].
  destruct Hr as [[-> ->]|(-> & _ & ->)]; [left|by right]. split; [done|]. intros va' Hva'.
  rewrite (walkaddr_ok kend Hk s' root T' _ free' va' Has') by lia.
  rewrite (walkaddr_ok kend Hk s root T L free va' Has) by lia.
  unfold trans. rewrite (proj2 (Z.leb_gt _ _)) by lia. rewrite map_run_lookup by done.
  destruct (decide (va <= va' < va + Z.of_nat (S n) * PGSIZE)) as [Hin|Hout]; [|by eexists].
  pose proof (Z.div_mod va PGSIZE ltac:(unfold PGSIZE; lia)). pose proof (Z.div_mod pa PGSIZE ltac:(unfold PGSIZE; lia)).
  pose proof (Z.div_mod va' PGSIZE ltac:(unfold PGSIZE; lia)). pose proof (Z.mod_pos_bound va' PGSIZE ltac:(unfold PGSIZE; lia)).
  set (pg := pa + (va' / PGSIZE * PGSIZE - va)).
  assert (0 <= pg < 2 ^ 56 /\ pg mod PGSIZE = 0) as [Hpg1 Hpg2].
  { unfold pg. split; [unfold PGSIZE in *; lia|]. replace (pa + (va' / PGSIZE * PGSIZE - va))
      with ((pa / PGSIZE + va' / PGSIZE - va / PGSIZE) * PGSIZE) by (unfold PGSIZE in *; lia).
    apply Z.mod_mul. unfold PGSIZE. lia. }
  pose proof (flags_range perm Hperm) as Hfl. rewrite entry_flags.
  destruct (PTE2PA_PA2PTE pg (Z.lor perm PTE_V) Hpg1 Hpg2 Hfl) as [-> _].
  rewrite has_entry by (done || (vm_compute; split; [discriminate|reflexivity])).
  assert (has (Z.lor perm PTE_V) PTE_U = true) as ->; [|done].
  unfold has in *. rewrite Z.land_lor_distr_l. change (Z.land PTE_V PTE_U) with 0. by rewrite Z.lor_0_r.
Qed.

Lemma mappages_walkaddr_witness :
  exists r s' T' L' free', mappages (demo_page 0) 4096 4096 8192 22 vm_demo = Ok (r, s') /\
    as_ok demo_kend s' (demo_page 0) T' L' free' /\ tpages T' ++ free' ≡ₚ tpages demo_T ++ [demo_page 4] /\
    ((r = 0 /\ forall va', 0 <= va' < MAXVA ->
        if decide (4096 <= va' < 4096 + 1 * PGSIZE)
        then walkaddr (demo_page 0) va' s' = Ok (8192 + (va' / PGSIZE * PGSIZE - 4096), s')
        else exists t, walkaddr (demo_page 0) va' vm_demo = Ok (t, vm_demo) /\ walkaddr (demo_page 0) va' s' = Ok (t, s')) \/
     (r = -1 /\ free' = [])).
Proof.
  apply (mappages_walkaddr demo_kend vm_demo (demo_page 0) demo_T demo_L [demo_page 4] 4096 0 8192 22).
  - reflexivity.
  - exact vm_demo_ok.
  - lia.
  - reflexivity.
  - vm_compute. discriminate.
  - lia.
  - reflexivity.
  - vm_compute. discriminate.
  - lia.
  - reflexivity.
  - intros va' Hin. unfold demo_L. apply lookup_singleton_ne. apply vpath_ne; unfold PGSIZE in *; [lia|done|lia|].
    change MAXVA with (2 ^ 38). lia.
Defined.
