(* ===== verification/KvmSpec.v ===== *)
(** * The kernel's page table

    kvmmake() on the abstract view of [VmTree]: the translations of the page
    table it returns are those of a list of regions, and 167 free pages are
    enough for its tables and the stacks of the processes. *)
From stdpp Require Import base list strings gmap.
From Stdlib Require Import ZArith Lia.
From S2P Require Import Prelude Spinlock KState CString Riscv Kalloc Vm VmTree VmMap.

(** ** Regions *)
Record region : Type := mkRegion { r_va : Z; r_pa : Z; r_size : Z; r_perm : Z }.
Definition inside (r : region) (va : Z) : bool := (r_va r <=? va) && (va <? r_va r + r_size r).
Definition RW : Z := Z.lor PTE_R PTE_W.
Definition RX : Z := Z.lor PTE_R PTE_X.

Fixpoint region_at (rs : list region) (va : Z) : option region :=
  match rs with
  | [] => None
  | r :: rs => if inside r va then Some r else region_at rs va
  end.
(** The physical address and the flags that the regions give [va]. *)
Definition maps (rs : list region) (va : Z) : option (Z * Z) :=
  match region_at rs va with
  | Some r => Some (r_pa r + (va - r_va r), Z.lor (r_perm r) PTE_V)
  | None => None
  end.
(** The leaf entry of the page of [va]. *)
Definition leaf (rs : list region) (va : Z) : option Z :=
  match region_at rs va with
  | Some r => Some (VmMap.entry (r_pa r + (va / PGSIZE * PGSIZE - r_va r)) (r_perm r))
  | None => None
  end.

(** What the hardware makes of an address: the leaf entry's page and flags. *)
Definition translate (root va : Z) : M vmst (option (Z * Z)) :=
  let* pte := walk root va 0 in
  if pte =? 0 then mret None
  else
    let* e := load pte in
    if has e PTE_V then mret (Some (PTE2PA e + va mod PGSIZE, PTE_FLAGS e)) else mret None.

(** The kernel's address space: devices, text, data and free memory at their
    own addresses, the trampoline page at the top and below it the stacks.
    The stack pages are listed from the last process's to the first's. *)
Fixpoint stack_regions (stacks : list Z) : list region :=
  match stacks with
  | [] => []
  | pa :: stacks => mkRegion (KSTACK (Z.of_nat (length stacks))) pa PGSIZE RW :: stack_regions stacks
  end.
Definition kernel_regions (etext trampoline : Z) : list region :=
  [ mkRegion TRAMPOLINE trampoline PGSIZE RX; mkRegion etext etext (PHYSTOP - etext) RW;
    mkRegion KERNBASE KERNBASE (etext - KERNBASE) RX; mkRegion PLIC PLIC 67108864 RW;
    mkRegion VIRTIO0 VIRTIO0 PGSIZE RW; mkRegion UART0 UART0 PGSIZE RW ].
Definition kernel_map (etext trampoline : Z) (stacks : list Z) : list region :=
  stack_regions stacks ++ kernel_regions etext trampoline.

(** The index paths of the page-table pages it takes. *)
Definition kpaths : list (list Z) :=
  [] :: [0] :: [2] :: [255] :: [255; 511] ::
  ((fun i => [0; 96 + Z.of_nat i]) <$> seq 0 33) ++ ((fun i => [2; Z.of_nat i]) <$> seq 0 64).

(** [va] lies under tables that [paths] lists. *)
Definition under (paths : list (list Z)) (va : Z) : Prop := [PX 2 va] ∈ paths /\ [PX 2 va; PX 1 va] ∈ paths.
Notation kpath := (under kpaths).

Lemma under_intro paths (i j va : Z) :
  0 <= i < 512 -> 0 <= j < 512 -> 1073741824 * i + 2097152 * j <= va < 1073741824 * i + 2097152 * (j + 1) ->
  [i] ∈ paths -> [i; j] ∈ paths -> under paths va.
Proof.
  intros Hi Hj Hva H1 H2. unfold under. rewrite !PX_spec by lia.
  change (2 ^ (12 + 9 * 2)) with 1073741824. change (2 ^ (12 + 9 * 1)) with 2097152.
  assert (va / 1073741824 = i) as -> by (symmetry; apply (Z.div_unique _ _ _ (va - 1073741824 * i)); lia).
  assert (va / 2097152 = 512 * i + j) as -> by (symmetry; apply (Z.div_unique _ _ _ (va - 1073741824 * i - 2097152 * j)); lia).
  rewrite Z.mod_small by lia. rewrite Z.add_comm, Z.mul_comm, Z_mod_plus_full, Z.mod_small by lia. done.
Qed.

Lemma kpath_low va : PLIC <= va < UART0 + 2097152 -> kpath va.
Proof.
  intros H. set (j := va / 2097152). pose proof (Z.div_mod va 2097152 ltac:(lia)) as Hd.
  pose proof (Z.mod_pos_bound va 2097152 ltac:(lia)). fold j in Hd. unfold PLIC, UART0 in H.
  apply (under_intro _ 0 j); [lia|lia|lia|set_solver|]. unfold kpaths. do 5 (apply list_elem_of_further).
  apply elem_of_app. left. apply list_elem_of_fmap. exists (Z.to_nat (j - 96)).
  split; [repeat f_equal; lia|]. apply elem_of_seq. lia.
Qed.
Lemma kpath_ram va : KERNBASE <= va < PHYSTOP -> kpath va.
Proof.
  intros H. set (j := va / 2097152 - 1024). pose proof (Z.div_mod va 2097152 ltac:(lia)) as Hd.
  pose proof (Z.mod_pos_bound va 2097152 ltac:(lia)). unfold KERNBASE, PHYSTOP, KERNBASE in H.
  apply (under_intro _ 2 j); [lia|lia|lia|set_solver|]. unfold kpaths. do 5 (apply list_elem_of_further).
  apply elem_of_app. right. apply list_elem_of_fmap. exists (Z.to_nat j).
  split; [repeat f_equal; lia|]. apply elem_of_seq. lia.
Qed.
Lemma kpath_top va : MAXVA - 2097152 <= va < MAXVA -> kpath va.
Proof.
  intros H. change MAXVA with 274877906944 in H. apply (under_intro _ 255 511); [lia|lia|lia|set_solver..].
Qed.

(** ** Translations *)
Lemma translate_leaf kend s root T L free va :
  0 < kend -> as_ok kend s root T L free -> va < MAXVA ->
  translate root va s =
    Ok (match L !! vpath va with Some e => Some (PTE2PA e + va mod PGSIZE, PTE_FLAGS e) | None => None end, s).
Proof.
  intros Hk [_ Ht Hc Hr _] Hva. unfold translate.
  rewrite (mbind_Ok _ _ _ _ _ (walk_find kend Hk s T L root va Ht Hc Hr Hva)).
  assert (forall e, L !! vpath va = Some e -> is_Some (T !! [PX 2 va; PX 1 va]) /\ has e PTE_V = true) as HL.
  { intros e (π & i & Hπ & Hlen & HT & _ & _ & Hv)%(to_leaf_ok _ _ _ _ Ht).
    change (vpath va) with ([PX 2 va; PX 1 va] ++ [PX 0 va]) in Hπ. by apply app_inj_tail in Hπ as [<- _]. }
  destruct (T !! [PX 2 va; PX 1 va]) as [q|] eqn:Hq.
  - destruct (load_vslot kend Hk s T L va q Ht Hq) as (E1 & E2 & E3). rewrite (proj2 (Z.eqb_neq _ _)) by done.
    rewrite mbind_load, E3. destruct (L !! vpath va) as [e|] eqn:HLv; simpl; [|done].
    by rewrite (proj2 (HL e eq_refl)).
  - unfold vslot. rewrite Hq. destruct (L !! vpath va) as [e|] eqn:HLv; [|done].
    destruct (HL e eq_refl) as [[? Hx] _]. congruence.
Qed.

Lemma entry_translate pa perm :
  0 <= pa < 2 ^ 56 -> pa mod PGSIZE = 0 -> 0 <= perm < 1024 ->
  PTE2PA (VmMap.entry pa perm) = pa /\ PTE_FLAGS (VmMap.entry pa perm) = Z.lor perm PTE_V.
Proof. intros H1 H2 H3. rewrite entry_flags. apply PTE2PA_PA2PTE; [done|done|]. by apply flags_range. Qed.

Record region_ok (r : region) : Prop := {
  ro_va : 0 <= r_va r /\ r_va r mod PGSIZE = 0 /\ r_va r + r_size r <= MAXVA;
  ro_size : exists n, r_size r = Z.of_nat (S n) * PGSIZE;
  ro_pa : 0 <= r_pa r /\ r_pa r mod PGSIZE = 0 /\ r_pa r + r_size r <= 2 ^ 56;
  ro_perm : 0 <= r_perm r < 1024
}.

Lemma region_at_Some rs va r : region_at rs va = Some r -> r ∈ rs /\ inside r va = true.
Proof.
  induction rs as [|r' rs IH]; simpl; [done|]. destruct (inside r' va) eqn:E.
  - intros [= ->]. split; [by left|done].
  - intros [H1 H2]%IH. split; [by right|done].
Qed.

Lemma leaf_maps rs va :
  Forall region_ok rs -> 0 <= va ->
  match leaf rs va with Some e => Some (PTE2PA e + va mod PGSIZE, PTE_FLAGS e) | None => None end = maps rs va.
Proof.
  intros Hrs Hva. unfold leaf, maps. destruct (region_at rs va) as [r|] eqn:E; [|done].
  apply region_at_Some in E as [Hin Hi]. apply (proj1 (Forall_forall _ _) Hrs) in Hin as [H1 [n H2] H3 H4].
  unfold inside in Hi. apply andb_prop in Hi as [I1 I2]. apply Z.leb_le in I1. apply Z.ltb_lt in I2.
  pose proof (Z.div_mod va PGSIZE ltac:(unfold PGSIZE; lia)) as D1.
  pose proof (Z.div_mod (r_va r) PGSIZE ltac:(unfold PGSIZE; lia)) as D2.
  pose proof (Z.div_mod (r_pa r) PGSIZE ltac:(unfold PGSIZE; lia)) as D3.
  pose proof (Z.mod_pos_bound va PGSIZE ltac:(unfold PGSIZE; lia)) as D4.
  destruct (entry_translate (r_pa r + (va / PGSIZE * PGSIZE - r_va r)) (r_perm r)) as [E1 E2]; [..|done|].
  - unfold PGSIZE in *. lia.
  - replace (r_pa r + (va / PGSIZE * PGSIZE - r_va r)) with ((r_pa r / PGSIZE + va / PGSIZE - r_va r / PGSIZE) * PGSIZE) by lia.
    apply Z.mod_mul. unfold PGSIZE. lia.
  - rewrite E1, E2. do 2 f_equal. lia.
Qed.

(** ** Construction *)
Section Kvm.
Context (kend etext trampoline : Z) (kend_pos : 0 < kend).

(** The table at [root] while it is built out of the free pages [free0]. *)
Record building (paths : list (list Z)) (free0 : list Z) (s : vmst) (root : Z) (rs : list region) (stacks : list Z)
    (T : gmap (list Z) Z) (free : list Z) : Prop := {
  bd_leaves : exists L, as_ok kend s root T L free /\ forall va, 0 <= va < MAXVA -> L !! vpath va = leaf rs va;
  bd_paths π : is_Some (T !! π) -> π ∈ paths;
  bd_pages : tpages T ++ stacks ++ free ≡ₚ free0
}.

Lemma few_tables paths T : (forall π, is_Some (T !! π) -> π ∈ paths) -> (length (tpages T) <= length paths)%nat.
Proof.
  intros H. unfold tpages. rewrite length_fmap, <- (length_fmap fst).
  apply submseteq_length, NoDup_submseteq; [apply NoDup_fst_map_to_list|].
  intros π ([π' p] & -> & Hp%elem_of_map_to_list)%list_elem_of_fmap. apply H. by exists p.
Qed.

Lemma map_region_ok paths free0 s root rs stacks T free r :
  building paths free0 s root rs stacks T free -> region_ok r ->
  (forall va, inside r va = true -> under paths va /\ region_at rs va = None) ->
  (length paths + length stacks < length free0)%nat ->
  exists s' T' free', mappages root (r_va r) (r_size r) (r_pa r) (r_perm r) s = Ok (0, s') /\
    building paths free0 s' root (r :: rs) stacks T' free' /\ keeps (tpages T ++ free) (ram s) (ram s') /\
    tpages T' ++ free' ≡ₚ tpages T ++ free.
Proof.
  intros [(L & Has & HL) Hp Hpg] [(V1 & V2 & V3) [n Hn] (P1 & P2 & P3) Hperm] Hin Hroom.
  assert (forall va, r_va r <= va < r_va r + r_size r -> inside r va = true /\ 0 <= va < MAXVA) as Hr.
  { intros va Hva. unfold inside. rewrite (proj2 (Z.leb_le _ _)), (proj2 (Z.ltb_lt _ _)) by lia. split; [done|lia]. }
  destruct (mappages_tables kend kend_pos (r_va r) (r_size r) (r_pa r) (r_perm r) s root T L free n)
    as (x & s1 & T1 & k & f1 & H1 & [G1 G2 G3 G4] & Hx & N1); try done; [lia| |].
  { intros va Hva. destruct (Hr va Hva) as [Hi Hb]. rewrite HL by done. unfold leaf. by rewrite (proj2 (Hin va Hi)). }
  assert (forall π, is_Some (T1 !! π) -> π ∈ paths) as Hp1.
  { intros π [Hold|(va & Hva & Hor)]%N1; [by apply Hp|]. destruct (Hr va Hva) as [Hi _].
    destruct (Hin va Hi) as [[K1 K2] _]. by destruct Hor as [->| ->]. }
  assert (tpages T1 ++ stacks ++ f1 ≡ₚ free0) as Hpg1.
  { rewrite <- Hpg. rewrite (Permutation_app_comm stacks f1), (Permutation_app_comm stacks free), !app_assoc. by rewrite G3. }
  destruct Hx as [[-> ->]|(_ & _ & ->)].
  - exists s1, T1, f1. split; [done|]. split; [|done]. split; [|done|done]. eexists. split; [exact G1|].
    intros va Hva. rewrite map_run_lookup by (done || lia). unfold leaf. cbn [region_at]. unfold inside at 1.
    destruct (decide _) as [Hd|Hd].
    + rewrite (proj2 (Z.leb_le _ _)), (proj2 (Z.ltb_lt _ _)) by lia. done.
    + rewrite HL by done. unfold leaf.
      destruct (Z.leb_spec (r_va r) va); [|done]. destruct (Z.ltb_spec va (r_va r + r_size r)); [lia|done].
  - pose proof (few_tables paths T1 Hp1) as Hfew. apply Permutation_length in Hpg1.
    rewrite !length_app in Hpg1. simpl in Hpg1. lia.
Qed.

Lemma kvmmap_ok free0 s root rs stacks T free r :
  building kpaths free0 s root rs stacks T free -> region_ok r ->
  (forall va, inside r va = true -> kpath va /\ region_at rs va = None) ->
  (length stacks <= 64)%nat -> (167 <= length free0)%nat ->
  exists s' T' free', kvmmap root (r_va r) (r_pa r) (r_size r) (r_perm r) s = Ok (tt, s') /\
    building kpaths free0 s' root (r :: rs) stacks T' free'.
Proof.
  intros B Hr Hin Hst Hroom. destruct (map_region_ok kpaths free0 s root rs stacks T free r B Hr Hin) as (s' & T' & f' & H & B' & _).
  { change (length kpaths) with 102%nat. lia. }
  exists s', T', f'. split; [|done]. unfold kvmmap. by rewrite (mbind_Ok _ _ _ _ _ H).
Qed.

(** The empty table. *)
Lemma first_table s a free :
  kmem_ok kend s (a :: free) ->
  exists s0 s1, kalloc s = Ok (a, s0) /\ fill a 0 s0 = Ok (tt, s1) /\ same_but a (ram s) (ram s1) /\
    forall paths, [] ∈ paths -> building paths (a :: free) s1 a [] [] {[ [] := a ]} free.
Proof.
  intros Hk. destruct (kalloc_ok kend kend_pos s _ Hk) as (m & f & H1 & H2 & Hsb & _). cbn [hd tail] in *.
  eexists _, _. split; [exact H1|]. split; [reflexivity|].
  destruct (memset_page m a 0) as [M1 M2]. split; [by eapply same_but_trans|]. change (u8 0) with 0 in M2.
  pose proof (km_nodup _ _ _ Hk) as [Hna _]%NoDup_cons. pose proof (km_pages _ _ _ Hk) as [Ha _]%Forall_cons.
  assert (forall (π : list Z) p, ({[ [] := a ]} : gmap (list Z) Z) !! π = Some p -> π = [] /\ p = a) as HT.
  { intros π p Hp. by apply lookup_singleton_Some in Hp as [<- <-]. }
  intros paths Hpaths. set (s2 := mkVmst m (kmem_lock s) f (lockcycle (vm_cpu s)) (vm_hart s)) in *.
  split; [exists ∅; split| |].
  - split.
    + assert (forall f, s2 <| ram ::= f |> = s2 <| ram := f (ram s2) |>) as Hupd by (intros ?; reflexivity).
      rewrite Hupd. apply (kmem_keeps kend [a]); [done|by apply (keeps_same_but a); [|left]|..].
      * intros p ->%list_elem_of_singleton. apply Ha.
      * by intros p ->%list_elem_of_singleton.
    + split.
      * intros π p [-> ->]%HT. split; [done|]. split; [simpl; lia|constructor].
      * intros π π' p [-> _]%HT [-> _]%HT. done.
      * intros π p i [-> ->]%HT _ Hi. rewrite lookup_singleton_ne by done. simpl. by apply filled_load64.
      * intros π p i [-> ->]%HT Hl. done.
      * intros π e He. by rewrite lookup_empty in He.
    + intros π i p [Hp _]%HT. by destruct π.
    + apply lookup_singleton_eq.
    + intros π p [-> ->]%HT. done.
  - intros va _. by rewrite lookup_empty.
  - by intros π [p [-> _]%HT].
  - unfold tpages. by rewrite map_to_list_singleton.
Qed.

(** Where the linker puts the kernel. *)
Record image_ok : Prop := {
  io_etext : KERNBASE < etext /\ etext mod PGSIZE = 0 /\ etext <= kend /\ kend < PHYSTOP;
  io_tramp : KERNBASE <= trampoline /\ trampoline mod PGSIZE = 0 /\ trampoline + PGSIZE <= etext
}.
Context (Himg : image_ok).

Lemma region_page (va pa perm : Z) n :
  0 <= va -> va mod PGSIZE = 0 -> va + Z.of_nat (S n) * PGSIZE <= MAXVA ->
  0 <= pa -> pa mod PGSIZE = 0 -> pa + Z.of_nat (S n) * PGSIZE <= 2 ^ 56 -> 0 <= perm < 1024 ->
  region_ok (mkRegion va pa (Z.of_nat (S n) * PGSIZE) perm).
Proof. intros. split; simpl; [done|by exists n|done|done]. Qed.

(** A range of whole pages that is not empty. *)
Lemma pages_between a b : a mod PGSIZE = 0 -> b mod PGSIZE = 0 -> a < b -> exists n, b - a = Z.of_nat (S n) * PGSIZE.
Proof.
  intros Ha Hb Hab. pose proof (Z.div_mod a PGSIZE ltac:(unfold PGSIZE; lia)).
  pose proof (Z.div_mod b PGSIZE ltac:(unfold PGSIZE; lia)). exists (Z.to_nat (b / PGSIZE - a / PGSIZE - 1)).
  unfold PGSIZE in *. lia.
Qed.

Lemma kernel_regions_ok : Forall region_ok (kernel_regions etext trampoline).
Proof.
  destruct Himg as [(I1 & I2 & I3 & I4) (J1 & J2 & J3)]. unfold KERNBASE, PHYSTOP, KERNBASE in *.
  destruct (pages_between etext PHYSTOP I2 eq_refl) as [n Hn]; [unfold PHYSTOP, KERNBASE; lia|].
  destruct (pages_between KERNBASE etext eq_refl I2 I1) as [n' Hn']. unfold kernel_regions.
  unfold PHYSTOP, KERNBASE in Hn, Hn'.
  repeat (apply Forall_cons; split); [..|by apply Forall_nil].
  - apply (region_page _ _ _ 0); try done; unfold PGSIZE in *; lia.
  - unfold PHYSTOP, KERNBASE. rewrite Hn. apply region_page; try done; unfold MAXVA, PGSIZE in *; try lia.
    change (Z.shiftl 1 _) with 274877906944. lia.
  - unfold KERNBASE. rewrite Hn'. apply region_page; try done; unfold MAXVA, PGSIZE in *; try lia.
    change (Z.shiftl 1 _) with 274877906944. lia.
  - destruct (pages_between 0 67108864 eq_refl eq_refl eq_refl) as [m Hm]. rewrite Z.sub_0_r in Hm.
    rewrite Hm. apply region_page; rewrite <- ?Hm; try done.
  - by apply (region_page _ _ _ 0).
  - by apply (region_page _ _ _ 0).
Qed.

Lemma inside_spec r va : inside r va = true <-> r_va r <= va < r_va r + r_size r.
Proof. unfold inside. rewrite andb_true_iff, Z.leb_le, Z.ltb_lt. done. Qed.
Lemma region_at_cons_None r rs va :
  ~ (r_va r <= va < r_va r + r_size r) -> region_at rs va = None -> region_at (r :: rs) va = None.
Proof. intros H1 H2. simpl. destruct (inside r va) eqn:E; [|done]. by apply inside_spec in E. Qed.

Lemma region_at_app rs1 rs2 va :
  region_at (rs1 ++ rs2) va = match region_at rs1 va with Some r => Some r | None => region_at rs2 va end.
Proof. induction rs1 as [|r rs1 IH]; simpl; [done|]. by destruct (inside r va). Qed.

Lemma stack_none stacks va :
  (forall j, (j < length stacks)%nat -> ~ (KSTACK (Z.of_nat j) <= va < KSTACK (Z.of_nat j) + PGSIZE)) ->
  region_at (stack_regions stacks) va = None.
Proof.
  induction stacks as [|a stacks IH]; intros Hst; [done|].
  apply region_at_cons_None; cbn [r_va r_size]; [apply Hst; simpl; lia|].
  apply IH. intros j Hj. apply Hst. simpl. lia.
Qed.
Lemma between_maps stacks va :
  PHYSTOP <= va < TRAMPOLINE ->
  (forall j, (j < length stacks)%nat -> ~ (KSTACK (Z.of_nat j) <= va < KSTACK (Z.of_nat j) + PGSIZE)) ->
  region_at (kernel_map etext trampoline stacks) va = None.
Proof.
  intros Hva Hst. unfold kernel_map. rewrite region_at_app, stack_none by done.
  destruct Himg as [(I1 & I2 & I3 & I4) (J1 & J2 & J3)]. unfold PHYSTOP, KERNBASE in *.
  unfold kernel_regions. repeat (apply region_at_cons_None; [cbn [r_va r_size]|]); try done.
  all: unfold PHYSTOP, KERNBASE, PLIC, VIRTIO0, UART0, PGSIZE in *; lia.
Qed.

(** A page for a stack. *)
Lemma stack_page free0 s root rs stacks T free :
  building kpaths free0 s root rs stacks T free -> (length stacks < 64)%nat -> (167 <= length free0)%nat ->
  exists a s' free', kalloc s = Ok (a, s') /\ page kend a /\ a <> 0 /\
    building kpaths free0 s' root rs (a :: stacks) T free'.
Proof.
  intros [(L & Has & HL) Hp Hpg] Hst Hroom.
  pose proof (few_tables kpaths T Hp) as Hfew. change (length kpaths) with 102%nat in Hfew. pose proof (Permutation_length Hpg) as Hlen. rewrite !length_app in Hlen.
  destruct (kalloc_as kend kend_pos s root T L free Has) as (s1 & H1 & Has1 & _ & H2).
  destruct free as [|a free]; [simpl in Hlen; lia|]. destruct H2 as (_ & Ha & Hz & _). cbn [hd tail] in *.
  exists a, s1, free. split; [done|]. split; [done|]. split; [done|]. split; [by exists L|done|].
  rewrite <- Hpg. simpl. by rewrite (Permutation_middle stacks free a).
Qed.

Lemma mapstacks_loop n i free0 s root stacks T free :
  (i + n = NPROC)%nat -> length stacks = i -> (167 <= length free0)%nat ->
  building kpaths free0 s root (kernel_map etext trampoline stacks) stacks T free ->
  exists s' stacks' T' free',
    for_each (seq i n) (fun i =>
      let* pa := kalloc in
      if pa =? 0 then mpanic "kalloc"
      else kvmmap root (KSTACK (Z.of_nat i)) pa PGSIZE (Z.lor PTE_R PTE_W)) s = Ok (tt, s') /\
    length stacks' = NPROC /\ Forall (page kend) (take n stacks') /\ drop n stacks' = stacks /\
    building kpaths free0 s' root (kernel_map etext trampoline stacks') stacks' T' free'.
Proof.
  revert i s stacks T free. induction n as [|n IH]; intros i s stacks T free Hi Hlen Hroom HB.
  { exists s, stacks, T, free. split; [done|]. split; [lia|]. split; [constructor|]. split; [done|done]. }
  unfold NPROC in *. cbn [seq for_each].
  destruct (stack_page _ _ _ _ _ _ _ HB) as (a & s1 & f1 & H1 & [Hal Hrg] & Hz & B1); [lia|done|].
  set (r := mkRegion (KSTACK (Z.of_nat i)) a PGSIZE RW).
  assert (region_ok r) as Hr.
  { apply (region_page _ _ _ 0); try done; unfold KSTACK, TRAMPOLINE, PHYSTOP, KERNBASE in *; change MAXVA with 274877906944;
      unfold PGSIZE in *; try lia.
    replace (274877906944 - 4096 - (Z.of_nat i + 1) * 2 * 4096) with ((67108863 - (Z.of_nat i + 1) * 2) * 4096) by lia.
    by apply Z.mod_mul. }
  destruct (kvmmap_ok free0 s1 root (kernel_map etext trampoline stacks) (a :: stacks) T f1 r)
    as (s2 & T2 & f2 & H2 & B2); [|done| |simpl; lia|done|].
  { destruct B1 as [B11 B12 B13]. by split. }
  { intros va Hva%inside_spec. cbn [r_va r_size r] in Hva.
    unfold KSTACK, TRAMPOLINE, PHYSTOP, KERNBASE, PGSIZE in *. change MAXVA with 274877906944 in *. split.
    - apply kpath_top. change MAXVA with 274877906944. lia.
    - apply between_maps; unfold KSTACK, TRAMPOLINE, PHYSTOP, KERNBASE, PGSIZE; change MAXVA with 274877906944; [lia|].
      intros j Hj. lia. }
  edestruct (IH (S i) s2 (a :: stacks) T2 f2) as (s3 & st & T3 & f3 & H3 & L3 & P3 & D3 & B3); [lia|simpl; lia|done| |].
  { unfold kernel_map in *. simpl. rewrite Hlen. exact B2. }
  exists s3, st, T3, f3. split; [|split; [done|split; [|split; [|done]]]].
  - rewrite (mbind_Ok _ _ _ tt s2); [exact H3|]. rewrite (mbind_Ok _ _ _ _ _ H1).
    rewrite (proj2 (Z.eqb_neq _ _)) by done. exact H2.
  - rewrite (take_S_r _ _ a); [|by rewrite <- (Nat.add_0_r n), <- lookup_drop, D3].
    apply Forall_app. split; [done|]. apply Forall_singleton. by split.
  - rewrite <- Nat.add_1_r, <- drop_drop, D3. done.
Qed.

(** The next region of kvmmake(): it lies under the tables of [kpaths] and
    apart from the regions before it. *)
Ltac kvm_region_as B G tac_s tac_T tac_f tac_B :=
  let H := fresh "H" in
  edestruct (kvmmap_ok _ _ _ _ _ _ _ _ B G) as (tac_s & tac_T & tac_f & H & tac_B);
  [ let va := fresh "va" in let Hva := fresh "Hva" in
    intros va Hva%inside_spec; cbn [r_va r_size] in Hva;
    unfold UART0, VIRTIO0, PLIC, TRAMPOLINE, PHYSTOP, KERNBASE, PGSIZE in *; change MAXVA with 274877906944 in *;
    split;
    [ first [apply kpath_low; unfold PLIC, UART0; lia | apply kpath_ram; unfold PHYSTOP, KERNBASE; lia
            |apply kpath_top; change MAXVA with 274877906944; lia]
    | repeat (apply region_at_cons_None;
        [cbn [r_va r_size]; unfold UART0, VIRTIO0, PLIC, PHYSTOP, KERNBASE, PGSIZE in *; lia|]); reflexivity ]
  | simpl; lia | assumption | rewrite (mbind_Ok _ _ _ _ _ H); clear H ].
Tactic Notation "kvm_region" hyp(B) hyp(G) "as" ident(s) ident(T) ident(f) ident(B2) := kvm_region_as B G s T f B2.

Lemma kvmmake_ok s free :
  kmem_ok kend s free -> (167 <= length free)%nat ->
  exists root s' stacks T free', kvmmake etext trampoline s = Ok (root, s') /\
    length stacks = NPROC /\ Forall (page kend) stacks /\
    building kpaths free s' root (kernel_map etext trampoline stacks) stacks T free'.
Proof.
  intros Hk Hroom. destruct free as [|a free]; [simpl in Hroom; lia|].
  destruct (first_table s a free Hk) as (s0 & s1 & H0 & H1 & _ & B1). specialize (B1 kpaths ltac:(by left)).
  pose proof kernel_regions_ok as G. unfold kernel_regions in G. rewrite !Forall_cons in G.
  destruct G as (G6 & G5 & G4 & G3 & G2 & G1 & _).
  destruct Himg as [(I1 & I2 & I3 & I4) (J1 & J2 & J3)].
  unfold kvmmake. rewrite (mbind_Ok _ _ _ _ _ H0), (mbind_Ok _ _ _ _ _ H1).
  kvm_region B1 G1 as s2 T2 f2 B2. kvm_region B2 G2 as s3 T3 f3 B3. kvm_region B3 G3 as s4 T4 f4 B4.
  kvm_region B4 G4 as s5 T5 f5 B5. kvm_region B5 G5 as s6 T6 f6 B6. kvm_region B6 G6 as s7 T7 f7 B7.
  destruct (mapstacks_loop NPROC 0 (a :: free) s7 a [] T7 f7) as (s8 & st & T8 & f8 & H8 & L8 & P8 & _ & B8); try done.
  exists a, s8, st, T8, f8. unfold proc_mapstacks. rewrite (mbind_Ok _ _ _ _ _ H8). split; [done|]. split; [done|].
  split; [by rewrite <- L8, firstn_all in P8|done].
Qed.

(** ** Reading the map *)
Lemma stack_regions_ok stacks :
  (length stacks <= NPROC)%nat -> Forall (page kend) stacks -> Forall region_ok (stack_regions stacks).
Proof.
  intros Hlen Hp. induction Hp as [|a stacks [Ha1 Ha2] Hp IH]; simpl in *; [constructor|].
  constructor; [|apply IH; lia]. unfold NPROC in Hlen.
  apply (region_page _ _ _ 0); try done; unfold KSTACK, TRAMPOLINE, PHYSTOP, KERNBASE in *; change MAXVA with 274877906944;
    unfold PGSIZE in *; try lia.
  replace (274877906944 - 4096 - (Z.of_nat (length stacks) + 1) * 2 * 4096)
    with ((67108863 - (Z.of_nat (length stacks) + 1) * 2) * 4096) by lia.
  by apply Z.mod_mul.
Qed.

Lemma stack_at stacks i pa va :
  (length stacks <= NPROC)%nat -> reverse stacks !! i = Some pa ->
  KSTACK (Z.of_nat i) <= va < KSTACK (Z.of_nat i) + PGSIZE ->
  region_at (kernel_map etext trampoline stacks) va = Some (mkRegion (KSTACK (Z.of_nat i)) pa PGSIZE RW).
Proof.
  unfold kernel_map. induction stacks as [|a stacks IH]; intros Hlen Hpa Hva; [done|].
  rewrite reverse_cons in Hpa. simpl in Hlen. cbn [stack_regions app region_at].
  destruct (decide (i = length stacks)) as [->|Hne].
  - rewrite (proj2 (inside_spec _ _)) by done.
    rewrite lookup_app_r in Hpa by (rewrite length_reverse; lia).
    rewrite length_reverse, Nat.sub_diag in Hpa. by injection Hpa as ->.
  - pose proof (lookup_lt_Some _ _ _ Hpa) as Hi. rewrite length_app, length_reverse in Hi. simpl in Hi.
    rewrite lookup_app_l in Hpa by (rewrite length_reverse; lia).
    destruct (inside _ va) eqn:E; [|apply IH; [unfold NPROC in *; lia|done|done]].
    apply inside_spec in E. cbn [r_va r_size] in E. unfold KSTACK, PGSIZE in *. lia.
Qed.

Lemma ram_at stacks va :
  (length stacks <= NPROC)%nat -> KERNBASE <= va < PHYSTOP ->
  maps (kernel_map etext trampoline stacks) va = Some (va, Z.lor (if va <? etext then RX else RW) PTE_V).
Proof.
  intros Hlen Hva. unfold maps, kernel_map. rewrite region_at_app, stack_none.
  2:{ intros j Hj. unfold NPROC in Hlen. unfold KSTACK, TRAMPOLINE, PHYSTOP, KERNBASE, PGSIZE in *.
      change MAXVA with 274877906944. lia. }
  destruct Himg as [(I1 & I2 & I3 & I4) (J1 & J2 & J3)]. unfold kernel_regions. cbn [region_at]. unfold inside.
  cbn [r_va r_size]. rewrite (proj2 (Z.leb_gt TRAMPOLINE va)) by (unfold TRAMPOLINE, PHYSTOP, KERNBASE, PGSIZE in *; change MAXVA with 274877906944; lia).
  cbn [andb]. destruct (Z.leb_spec etext va); cbn [andb].
  - rewrite (proj2 (Z.ltb_lt va (etext + (PHYSTOP - etext)))), (proj2 (Z.ltb_ge va etext)) by lia.
    cbn [r_pa r_perm r_va]. do 2 f_equal. lia.
  - rewrite (proj2 (Z.leb_le KERNBASE va)), (proj2 (Z.ltb_lt va (KERNBASE + (etext - KERNBASE)))),
      (proj2 (Z.ltb_lt va etext)) by lia.
    cbn [andb r_pa r_perm r_va]. do 2 f_equal. lia.
Qed.
End Kvm.

(** ** Theorem *)

(** C9: on the free memory kinit() leaves, 167 pages suffice for kvmmake() to
    return without panic.  The pages of the table and of the stacks are then
    distinct free pages, and the page table translates exactly the addresses
    of [kernel_map], with its flags: devices, text (never writable), data and
    free memory at their own addresses, the trampoline at the top of the
    address space; the stack of each process is a page of its own with an
    unmapped page below it; and no page is accessible from user mode. *)
Theorem kvmmake_correct kend etext trampoline s free :
  image_ok kend etext trampoline -> kmem_ok kend s free -> (167 <= length free)%nat ->
  exists root stacks tables free' s', kvmmake etext trampoline s = Ok (root, s') /\
    kmem_ok kend s' free' /\ length stacks = NPROC /\ root ∈ tables /\ tables ++ stacks ++ free' ≡ₚ free /\
    (forall va, 0 <= va < MAXVA ->
      translate root va s' = Ok (maps (kernel_map etext trampoline stacks) va, s')) /\
    (forall va, KERNBASE <= va < PHYSTOP ->
      translate root va s' = Ok (Some (va, Z.lor (if va <? etext then RX else RW) PTE_V), s')) /\
    (forall i pa off, reverse stacks !! i = Some pa -> 0 <= off < PGSIZE ->
      translate root (KSTACK (Z.of_nat i) + off) s' = Ok (Some (pa + off, Z.lor RW PTE_V), s') /\
      translate root (KSTACK (Z.of_nat i) - PGSIZE + off) s' = Ok (None, s')) /\
    (forall va q fl, translate root va s' = Ok (Some (q, fl), s') -> 0 <= va < MAXVA -> has fl PTE_U = false).
Proof.
  intros Himg Hk Hroom.
  assert (0 < kend) as Hpos by (destruct Himg as [(? & _ & ? & _) _]; unfold KERNBASE in *; lia).
  destruct (kvmmake_ok kend etext trampoline Hpos Himg s free Hk Hroom) as (root & s' & st & T & f' & H1 & Hst & Hpg & [(L & Has & HL) _ Hperm]).
  assert (Forall region_ok (kernel_map etext trampoline st)) as Hok.
  { apply Forall_app. split; [|by apply (kernel_regions_ok kend)]. apply (stack_regions_ok kend); eauto; lia. }
  assert (forall va, 0 <= va < MAXVA -> translate root va s' = Ok (maps (kernel_map etext trampoline st) va, s')) as Htr.
  { intros va Hva. rewrite (translate_leaf kend s' root T L f' va Hpos Has (proj2 Hva)), HL by done.
    rewrite leaf_maps; [done|done|lia]. }
  exists root, st, (tpages T), f', s'. split; [done|]. split; [apply Has|]. split; [done|].
  split; [apply elem_tpages; exists []; apply Has|]. split; [done|]. split; [done|].
  assert (length st <= NPROC)%nat as Hle by lia. split; [|split].
  - intros va Hva. rewrite Htr by (unfold PHYSTOP, KERNBASE in *; change MAXVA with 274877906944; lia).
    by rewrite (ram_at kend).
  - intros i pa off Hi Hoff. pose proof (lookup_lt_Some _ _ _ Hi) as Hlt. rewrite length_reverse, Hst in Hlt. unfold NPROC in Hlt.
    split; rewrite Htr by (unfold KSTACK, TRAMPOLINE, PGSIZE in *; change MAXVA with 274877906944; lia); unfold maps.
    + rewrite (stack_at etext trampoline st i pa) by (done || lia). cbn [r_pa r_va r_perm]. repeat f_equal. lia.
    + rewrite (between_maps kend); [done|done|..]; unfold KSTACK, TRAMPOLINE, PHYSTOP, KERNBASE, PGSIZE in *; change MAXVA with 274877906944.
      * lia.
      * intros j Hj. lia.
  - intros va q fl H Hva. rewrite Htr in H by done. apply Ok_pair_inj in H as [H _]. unfold maps in H.
    destruct (region_at _ va) as [r|] eqn:E; [|done]. injection H as _ <-. apply region_at_Some in E as [E _].
    apply elem_of_app in E as [E|E].
    + assert (r_perm r = RW) as ->; [|done]. clear -E. induction st as [|a st IH]; simpl in E; [by apply not_elem_of_nil in E|].
      apply elem_of_cons in E as [->|E]; [done|by apply IH].
    + unfold kernel_regions in E. rewrite !elem_of_cons, elem_of_nil in E.
      by destruct E as [->|[->|[->|[->|[->|[->|[]]]]]]].
Qed.

(** A kernel image that leaves 200 pages, with its text up to [end]. *)
Definition kvm_demo_kend : Z := PHYSTOP - 200 * PGSIZE.

Lemma kvmmake_correct_witness :
  exists s root (stacks : list Z) s', kvmmake kvm_demo_kend KERNBASE s = Ok (root, s') /\ length stacks = NPROC /\
    translate root KERNBASE s' = Ok (Some (KERNBASE, 11), s') /\
    translate root (KSTACK 3 - 1) s' = Ok (None, s').
Proof.
  assert (image_ok kvm_demo_kend kvm_demo_kend KERNBASE) as Himg.
  { split; unfold kvm_demo_kend, PHYSTOP, KERNBASE, PGSIZE; split_and!; (lia || done). }
  assert (cpu_wf (vm_cpu kalloc_demo)) as Hc by (split; simpl; [lia|done]).
  destruct (kinit_ok kvm_demo_kend ltac:(reflexivity) ltac:(unfold kvm_demo_kend, PGSIZE; lia) kalloc_demo Hc eq_refl)
    as (s & _ & Hok).
  assert (length (reverse (all_pages kvm_demo_kend)) = 200%nat) as Hlen.
  { rewrite length_reverse. unfold all_pages. rewrite length_fmap, length_seq. vm_compute. reflexivity. }
  destruct (kvmmake_correct kvm_demo_kend kvm_demo_kend KERNBASE s _ Himg Hok) as
    (root & st & _ & _ & s' & H1 & _ & H2 & _ & _ & _ & H3 & H4 & _); [rewrite Hlen; lia|].
  exists s, root, st, s'. split; [exact H1|]. split; [exact H2|]. split.
  - apply (H3 KERNBASE). unfold PHYSTOP, KERNBASE. lia.
  - destruct (lookup_lt_is_Some_2 (reverse st) 3) as [pa Hpa]; [rewrite length_reverse, H2; unfold NPROC; lia|].
    apply (H4 3%nat pa (PGSIZE - 1) Hpa). unfold PGSIZE. lia.
Defined.
