(* ===== verification/FsState.v ===== *)
(** * State of the file system

    The data of kernel/sleeplock.h, kernel/buf.h, kernel/log.c, kernel/fs.h,
    kernel/file.h and the tables of kernel/bio.c, kernel/fs.c and
    kernel/file.c, with the sleep locks of kernel/sleeplock.c.

    The model runs one process: a process that finds a sleep lock taken or the
    log full waits for another one, which is the outcome [Spin].  wakeup()
    changes nothing here. *)
From stdpp Require Import base list strings gmap.
From Stdlib Require Import ZArith Lia.
From S2P Require Import Prelude Spinlock Kalloc.

(** ** Constants (kernel/fs.h, kernel/param.h, kernel/stat.h, kernel/file.h) *)
Definition BSIZE : Z := 1024.
Definition ROOTINO : Z := 1.
Definition ROOTDEV : Z := 1.
Definition FSMAGIC : Z := 270544960.
Definition NDIRECT : Z := 12.
Definition NINDIRECT : Z := BSIZE / 4.
Definition MAXFILE : Z := NDIRECT + NINDIRECT.
Definition NLINK_MAX : Z := 32767.
Definition DINODE_SIZE : Z := 64.
Definition IPB : Z := BSIZE / DINODE_SIZE.
Definition BPB : Z := BSIZE * 8.
Definition DIRSIZ : Z := 14.
Definition DIRENT_SIZE : Z := 16.
Definition MAXOPBLOCKS : Z := 10.
Definition LOGBLOCKS : Z := MAXOPBLOCKS * 3.
Definition NBUF : nat := 30.
Definition NINODE : nat := 50.
Definition NFILE : nat := 100.
Definition MAXPATH : Z := 128.
Definition NDEV : Z := 10.
Definition T_DIR : Z := 1.
Definition T_FILE : Z := 2.
Definition T_DEVICE : Z := 3.

(** ** Sleep locks (kernel/sleeplock.h, kernel/sleeplock.c) *)
Record sleeplock : Type := mkSleeplock {
  sl_locked : Z;
  sl_lk : spinlock;
  sl_name : string;
  sl_pid : Z
}.
#[global] Instance eta_sleeplock : Eta sleeplock :=
  fun l => mkSleeplock (sl_locked l) (sl_lk l) (sl_name l) (sl_pid l).

Definition initsleeplock (name : string) : sleeplock :=
  {| sl_locked := 0; sl_lk := initlock "sleep lock"; sl_name := name; sl_pid := 0 |}.

(** [me] is the hart and [pid] the running process. *)
Definition acquiresleep (me : nat) (pid : Z) (c : cpu) (lk : sleeplock) : outcome (cpu * sleeplock) :=
  obind (acquire me c (sl_lk lk)) (fun r =>
    if negb (sl_locked lk =? 0) then Spin
    else
      let lk := lk <| sl_lk := snd r |> <| sl_locked := 1 |> <| sl_pid := pid |> in
      obind (release me (fst r) (sl_lk lk)) (fun r => Ok (fst r, lk <| sl_lk := snd r |>))).

Definition releasesleep (me : nat) (c : cpu) (lk : sleeplock) : outcome (cpu * sleeplock) :=
  obind (acquire me c (sl_lk lk)) (fun r =>
    let lk := lk <| sl_lk := snd r |> <| sl_locked := 0 |> <| sl_pid := 0 |> in
    obind (release me (fst r) (sl_lk lk)) (fun r => Ok (fst r, lk <| sl_lk := snd r |>))).

Definition holdingsleep (me : nat) (pid : Z) (c : cpu) (lk : sleeplock) : outcome (bool * cpu * sleeplock) :=
  obind (acquire me c (sl_lk lk)) (fun r =>
    let b := negb (sl_locked lk =? 0) && (sl_pid lk =? pid) in
    obind (release me (fst r) (snd r)) (fun r => Ok (b, fst r, lk <| sl_lk := snd r |>))).

(** ** Data *)

(** struct buf; [b_prev] and [b_next] are positions in [bufs], whose last entry
    is bcache.head. *)
Record buf : Type := mkBuf {
  b_valid : Z; b_dev : Z; b_blockno : Z; b_lock : sleeplock; b_refcnt : Z;
  b_prev : nat; b_next : nat; b_data : list Z
}.
#[global] Instance eta_buf : Eta buf := fun b =>
  mkBuf (b_valid b) (b_dev b) (b_blockno b) (b_lock b) (b_refcnt b) (b_prev b) (b_next b) (b_data b).

Record logheader : Type := mkLogheader { lh_n : Z; lh_block : list Z }.
#[global] Instance eta_logheader : Eta logheader := fun l => mkLogheader (lh_n l) (lh_block l).

Record log_t : Type := mkLog {
  log_lock : spinlock; log_start : Z; log_outstanding : Z; log_committing : Z;
  log_dev : Z; log_ncommit : Z; log_lh : logheader
}.
#[global] Instance eta_log : Eta log_t := fun l =>
  mkLog (log_lock l) (log_start l) (log_outstanding l) (log_committing l) (log_dev l) (log_ncommit l) (log_lh l).

Record superblock : Type := mkSuperblock {
  sb_magic : Z; sb_size : Z; sb_nblocks : Z; sb_ninodes : Z;
  sb_nlog : Z; sb_logstart : Z; sb_inodestart : Z; sb_bmapstart : Z
}.
#[global] Instance eta_superblock : Eta superblock := fun s =>
  mkSuperblock (sb_magic s) (sb_size s) (sb_nblocks s) (sb_ninodes s) (sb_nlog s) (sb_logstart s)
    (sb_inodestart s) (sb_bmapstart s).

(** struct dinode, the on-disk inode. *)
Record dinode : Type := mkDinode {
  d_type : Z; d_major : Z; d_minor : Z; d_nlink : Z; d_size : Z; d_addrs : list Z
}.
#[global] Instance eta_dinode : Eta dinode := fun d =>
  mkDinode (d_type d) (d_major d) (d_minor d) (d_nlink d) (d_size d) (d_addrs d).

(** struct inode, the in-memory inode; [i_dip] is the copy of the disk inode. *)
Record inode : Type := mkInode {
  i_dev : Z; i_inum : Z; i_ref : Z; i_lock : sleeplock; i_valid : Z; i_dip : dinode
}.
#[global] Instance eta_inode : Eta inode := fun i =>
  mkInode (i_dev i) (i_inum i) (i_ref i) (i_lock i) (i_valid i) (i_dip i).

Inductive fdtype : Type := FD_NONE | FD_PIPE | FD_INODE | FD_DEVICE.
#[global] Instance fdtype_eq_dec : EqDecision fdtype.
Proof. solve_decision. Defined.

(** struct file; [f_ip] is a position in the inode table. *)
Record file : Type := mkFile {
  f_type : fdtype; f_ref : Z; f_readable : Z; f_writable : Z; f_pipe : Z; f_ip : nat;
  f_off : Z; f_major : Z
}.
#[global] Instance eta_file : Eta file := fun f =>
  mkFile (f_type f) (f_ref f) (f_readable f) (f_writable f) (f_pipe f) (f_ip f) (f_off f) (f_major f).

(** The file system, the disk with the writes it has been sent so far, and the
    running process: its pid, current directory and open files (positions in
    the file table plus one, 0 for none).  [fs_env] is the rest of the machine. *)
Record fsst (E : Type) : Type := mkFsst {
  fs_cpu : cpu; fs_hart : nat; fs_pid : Z; fs_cwd : nat; fs_ofile : list nat;
  bcache_lock : spinlock; bufs : list buf;
  disk : Z * Z -> list Z; dwrites : list (Z * Z * list Z);
  slog : log_t; sb : superblock;
  itable_lock : spinlock; inodes : list inode;
  ftable_lock : spinlock; files : list file;
  fs_env : E
}.
Arguments mkFsst {E}. Arguments fs_cpu {E}. Arguments fs_hart {E}. Arguments fs_pid {E}. Arguments fs_cwd {E}.
Arguments fs_ofile {E}. Arguments bcache_lock {E}. Arguments bufs {E}. Arguments disk {E}. Arguments dwrites {E}.
Arguments slog {E}. Arguments sb {E}. Arguments itable_lock {E}. Arguments inodes {E}. Arguments ftable_lock {E}.
Arguments files {E}. Arguments fs_env {E}.
#[global] Instance eta_fsst {E} : Eta (fsst E) := fun s =>
  mkFsst (fs_cpu s) (fs_hart s) (fs_pid s) (fs_cwd s) (fs_ofile s) (bcache_lock s) (bufs s) (disk s) (dwrites s)
    (slog s) (sb s) (itable_lock s) (inodes s) (ftable_lock s) (files s) (fs_env s).

(** ** Bytes of a block *)
Definition splice (off : Z) (b data : list Z) : list Z :=
  take (Z.to_nat off) data ++ b ++ drop (Z.to_nat off + length b) data.
Definition slice (off n : Z) (data : list Z) : list Z := take (Z.to_nat n) (drop (Z.to_nat off) data).
Definition get32 (data : list Z) (off : Z) : Z := le_val (slice off 4 data).
Definition set32 (off v : Z) (data : list Z) : list Z := splice off (le_bytes 4 v) data.
(** A [short]. *)
Definition get16 (data : list Z) (off : Z) : Z := i16 (le_val (slice off 2 data)).

(** ** Spin locks of the file system *)
Section Locks.
Context {E : Type}.

Definition with_lock (get : fsst E -> spinlock) (set : spinlock -> fsst E -> fsst E)
    (op : nat -> cpu -> spinlock -> outcome (cpu * spinlock)) : M (fsst E) unit := fun s =>
  obind (op (fs_hart s) (fs_cpu s) (get s)) (fun r => Ok (tt, set (snd r) (s <| fs_cpu := fst r |>))).

Definition acquire_bcache : M (fsst E) unit := with_lock bcache_lock (fun l s => s <| bcache_lock := l |>) acquire.
Definition release_bcache : M (fsst E) unit := with_lock bcache_lock (fun l s => s <| bcache_lock := l |>) release.
Definition acquire_log : M (fsst E) unit :=
  with_lock (fun s => log_lock (slog s)) (fun l s => s <| slog ::= fun g => g <| log_lock := l |> |>) acquire.
Definition release_log : M (fsst E) unit :=
  with_lock (fun s => log_lock (slog s)) (fun l s => s <| slog ::= fun g => g <| log_lock := l |> |>) release.
Definition acquire_itable : M (fsst E) unit := with_lock itable_lock (fun l s => s <| itable_lock := l |>) acquire.
Definition release_itable : M (fsst E) unit := with_lock itable_lock (fun l s => s <| itable_lock := l |>) release.
Definition acquire_ftable : M (fsst E) unit := with_lock ftable_lock (fun l s => s <| ftable_lock := l |>) acquire.
Definition release_ftable : M (fsst E) unit := with_lock ftable_lock (fun l s => s <| ftable_lock := l |>) release.
End Locks.
