(* ===== verification/Bytes.v ===== *)
(** * Bytes of a block

    Reading and writing parts of a block: [slice], [splice], [get32] and
    [set32] of [FsState]. *)
From stdpp Require Import base list strings gmap.
From Stdlib Require Import ZArith Lia.
From S2P Require Import Prelude Spinlock Kalloc FsState.

Section Bytes.
Implicit Types (b d : list Z) (off n : Z).

Lemma splice_lookup off b d i :
  0 <= off -> off + Z.of_nat (length b) <= Z.of_nat (length d) ->
  splice off b d !! i =
    if decide (off <= Z.of_nat i < off + Z.of_nat (length b)) then b !! (i - Z.to_nat off)%nat else d !! i.
Proof.
  intros H0 Hlen. unfold splice. case_decide as Hi.
  - rewrite lookup_app_r by (rewrite length_take; lia). rewrite length_take, Nat.min_l by lia.
    by rewrite lookup_app_l by lia.
  - destruct (decide (Z.of_nat i < off)).
    + rewrite lookup_app_l by (rewrite length_take; lia). rewrite lookup_take_lt by lia. done.
    + rewrite lookup_app_r by (rewrite length_take; lia). rewrite length_take, Nat.min_l by lia.
      rewrite lookup_app_r by lia. rewrite lookup_drop. f_equal. lia.
Qed.

Lemma length_splice off b d :
  0 <= off -> off + Z.of_nat (length b) <= Z.of_nat (length d) -> length (splice off b d) = length d.
Proof. intros. unfold splice. rewrite !length_app, length_take, length_drop. lia. Qed.

Lemma slice_lookup off n d i : slice off n d !! i = if decide (Z.of_nat i < n) then d !! (Z.to_nat off + i)%nat else None.
Proof.
  unfold slice. case_decide.
  - rewrite lookup_take_lt by lia. apply lookup_drop.
  - apply lookup_take_ge. lia.
Qed.
Lemma length_slice off n d :
  0 <= off -> 0 <= n -> off + n <= Z.of_nat (length d) -> Z.of_nat (length (slice off n d)) = n.
Proof. intros. unfold slice. rewrite length_take, length_drop. lia. Qed.

Lemma slice_splice_same off b d :
  0 <= off -> off + Z.of_nat (length b) <= Z.of_nat (length d) ->
  slice off (Z.of_nat (length b)) (splice off b d) = b.
Proof.
  intros H0 Hlen. apply list_eq. intros i. rewrite slice_lookup. case_decide.
  - rewrite splice_lookup, decide_True by lia. f_equal. lia.
  - symmetry. apply lookup_ge_None_2. lia.
Qed.
Lemma slice_splice_other off off' n b d :
  0 <= off -> 0 <= off' -> off + Z.of_nat (length b) <= Z.of_nat (length d) ->
  off' + n <= off \/ off + Z.of_nat (length b) <= off' ->
  slice off' n (splice off b d) = slice off' n d.
Proof.
  intros H0 H0' Hlen Hdis. apply list_eq. intros i. rewrite !slice_lookup. case_decide; [|done].
  rewrite splice_lookup, decide_False by lia. done.
Qed.
(** Part of what was written. *)
Lemma slice_splice_sub off o n b d :
  0 <= off -> 0 <= o -> o + n <= Z.of_nat (length b) -> off + Z.of_nat (length b) <= Z.of_nat (length d) ->
  slice (off + o) n (splice off b d) = slice o n b.
Proof.
  intros. apply list_eq. intros i. rewrite !slice_lookup. case_decide; [|done].
  rewrite splice_lookup, decide_True by lia. f_equal. lia.
Qed.
Lemma splice_slice off n d : 0 <= off -> 0 <= n -> off + n <= Z.of_nat (length d) -> splice off (slice off n d) d = d.
Proof.
  intros. pose proof (length_slice off n d) as Hl. apply list_eq. intros i. rewrite splice_lookup by lia.
  case_decide; [|done]. rewrite slice_lookup, decide_True by lia. f_equal. lia.
Qed.

Lemma length_set32 off v d : 0 <= off -> off + 4 <= Z.of_nat (length d) -> length (set32 off v d) = length d.
Proof. intros. unfold set32. apply length_splice; [done|]. rewrite length_le_bytes. lia. Qed.
Lemma get32_set32 off v d :
  0 <= off -> off + 4 <= Z.of_nat (length d) -> get32 (set32 off v d) off = u32 v.
Proof.
  intros. unfold get32, set32. pose proof (slice_splice_same off (le_bytes 4 v) d) as Hs.
  rewrite length_le_bytes in Hs. change (Z.of_nat 4) with 4 in Hs. rewrite Hs by lia. rewrite le_val_bytes. done.
Qed.
Lemma get32_set32_other off off' v d :
  0 <= off -> 0 <= off' -> off + 4 <= Z.of_nat (length d) -> off' + 4 <= off \/ off + 4 <= off' ->
  get32 (set32 off v d) off' = get32 d off'.
Proof.
  intros. unfold get32, set32. rewrite slice_splice_other; try done; rewrite length_le_bytes; lia.
Qed.
Lemma i32_u32 v : - 2 ^ 31 <= v < 2 ^ 31 -> i32 (u32 v) = v.
Proof.
  intros Hv. unfold i32, u32. rewrite Zmod_mod. destruct (Z.ltb_spec (v mod 2 ^ 32) (2 ^ 31)) as [H|H];
    assert (v mod 2 ^ 32 = v \/ v mod 2 ^ 32 = v + 2 ^ 32) as [Hm|Hm]; try lia;
    (destruct (Z.leb_spec 0 v); [left; apply Z.mod_small; lia|right; rewrite <- (Z_mod_plus_full v 1); apply Z.mod_small; lia]).
Qed.
End Bytes.
