(* ===== verification/Bio.v ===== *)
(** * Buffer cache (kernel/bio.c)

    The routines of kernel/bio.c on the doubly linked list of buffers. *)
From stdpp Require Import base list strings gmap.
From Stdlib Require Import ZArith Lia.
From S2P Require Import Prelude Spinlock Kalloc FsState.

Section Bio.
Context {E : Type}.
Implicit Types (s : fsst E).

Definition get_buf (i : nat) : M (fsst E) buf := fun s =>
  match bufs s !! i with Some b => Ok (b, s) | None => UB end.
Definition upd_buf (i : nat) (f : buf -> buf) : M (fsst E) unit := fun s =>
  match bufs s !! i with Some b => Ok (tt, s <| bufs := <[i := f b]> (bufs s) |>) | None => UB end.
(** The sleep lock of a buffer. *)
Definition buf_acquiresleep (i : nat) : M (fsst E) unit :=
  let* b := get_buf i in
  let* r := (fun s => obind (acquiresleep (fs_hart s) (fs_pid s) (fs_cpu s) (b_lock b)) (fun r => Ok (r, s))) in
  mmodify (fun s => s <| fs_cpu := fst r |>) ;;;
  upd_buf i (fun b => b <| b_lock := snd r |>).
Definition buf_releasesleep (i : nat) : M (fsst E) unit :=
  let* b := get_buf i in
  let* r := (fun s => obind (releasesleep (fs_hart s) (fs_cpu s) (b_lock b)) (fun r => Ok (r, s))) in
  mmodify (fun s => s <| fs_cpu := fst r |>) ;;;
  upd_buf i (fun b => b <| b_lock := snd r |>).
Definition buf_holdingsleep (i : nat) : M (fsst E) bool :=
  let* b := get_buf i in
  let* r := (fun s => obind (holdingsleep (fs_hart s) (fs_pid s) (fs_cpu s) (b_lock b)) (fun r => Ok (r, s))) in
  mmodify (fun s => s <| fs_cpu := snd (fst r) |>) ;;;
  upd_buf i (fun b => b <| b_lock := snd r |>) ;;;
  mret (fst (fst r)).

(** virtio_disk_rw(): one block moves between the buffer and the disk. *)
Definition virtio_disk_rw (i : nat) (write : Z) : M (fsst E) unit :=
  let* b := get_buf i in
  let k := (b_dev b, b_blockno b) in
  if write =? 0 then
    let* d := mreads (fun s => disk s k) in
    upd_buf i (fun b => b <| b_data := d |>)
  else
    mmodify (fun s => s <| disk ::= fun d k' => if decide (k' = k) then b_data b else d k' |>
                        <| dwrites ::= fun w => w ++ [(k, b_data b)] |>).

Definition binit : M (fsst E) unit :=
  mmodify (fun s => s <| bcache_lock := initlock "bcache" |>) ;;;
  upd_buf NBUF (fun h => h <| b_prev := NBUF |>) ;;;
  upd_buf NBUF (fun h => h <| b_next := NBUF |>) ;;;
  for_each (seq 0 NBUF) (fun i =>
    let* h := get_buf NBUF in
    upd_buf i (fun b => b <| b_next := b_next h |>) ;;;
    upd_buf i (fun b => b <| b_prev := NBUF |>) ;;;
    upd_buf i (fun b => b <| b_lock := initsleeplock "buffer" |>) ;;;
    let* h := get_buf NBUF in
    upd_buf (b_next h) (fun b => b <| b_prev := i |>) ;;;
    upd_buf NBUF (fun h => h <| b_next := i |>)).

(** The two loops of bget(): forward over b->next from the most recently used
    buffer, backward over b->prev from the least recently used one.  The list
    has NBUF buffers, so NBUF + 1 steps reach the head again. *)
Definition bget_find (dev blockno : Z) : M (fsst E) (option nat) :=
  let* h := get_buf NBUF in
  mloop (S NBUF) (fun i =>
    if (i =? NBUF)%nat then mret (inr None)
    else
      let* b := get_buf i in
      if (b_dev b =? dev) && (b_blockno b =? blockno) then mret (inr (Some i))
      else mret (inl (b_next b))) (b_next h).
Definition bget_lru : M (fsst E) (option nat) :=
  let* h := get_buf NBUF in
  mloop (S NBUF) (fun i =>
    if (i =? NBUF)%nat then mret (inr None)
    else
      let* b := get_buf i in
      if b_refcnt b =? 0 then mret (inr (Some i)) else mret (inl (b_prev b))) (b_prev h).

Definition bget (dev blockno : Z) : M (fsst E) nat :=
  acquire_bcache ;;;
  let* r := bget_find dev blockno in
  match r with
  | Some i =>
      upd_buf i (fun b => b <| b_refcnt ::= fun c => u32 (c + 1) |>) ;;;
      release_bcache ;;;
      buf_acquiresleep i ;;;
      mret i
  | None =>
      let* r := bget_lru in
      match r with
      | Some i =>
          upd_buf i (fun b => b <| b_dev := dev |> <| b_blockno := blockno |> <| b_valid := 0 |> <| b_refcnt := 1 |>) ;;;
          release_bcache ;;;
          buf_acquiresleep i ;;;
          mret i
      | None => mpanic "bget: no buffers"
      end
  end.

Definition bread (dev blockno : Z) : M (fsst E) nat :=
  let* i := bget dev blockno in
  let* b := get_buf i in
  (if b_valid b =? 0 then
     virtio_disk_rw i 0 ;;;
     upd_buf i (fun b => b <| b_valid := 1 |>)
   else mret tt) ;;;
  mret i.

Definition bwrite (i : nat) : M (fsst E) unit :=
  let* h := buf_holdingsleep i in
  if negb h then mpanic "bwrite" else virtio_disk_rw i 1.

Definition brelse (i : nat) : M (fsst E) unit :=
  let* h := buf_holdingsleep i in
  if negb h then mpanic "brelse"
  else
    buf_releasesleep i ;;;
    acquire_bcache ;;;
    upd_buf i (fun b => b <| b_refcnt ::= fun c => u32 (c - 1) |>) ;;;
    let* b := get_buf i in
    (if b_refcnt b =? 0 then
       upd_buf (b_next b) (fun n => n <| b_prev := b_prev b |>) ;;;
       let* b := get_buf i in
       upd_buf (b_prev b) (fun p => p <| b_next := b_next b |>) ;;;
       let* h := get_buf NBUF in
       upd_buf i (fun b => b <| b_next := b_next h |>) ;;;
       upd_buf i (fun b => b <| b_prev := NBUF |>) ;;;
       let* h := get_buf NBUF in
       upd_buf (b_next h) (fun n => n <| b_prev := i |>) ;;;
       upd_buf NBUF (fun h => h <| b_next := i |>)
     else mret tt) ;;;
    release_bcache.

Definition bpin (i : nat) : M (fsst E) unit :=
  acquire_bcache ;;;
  upd_buf i (fun b => b <| b_refcnt ::= fun c => u32 (c + 1) |>) ;;;
  release_bcache.
Definition bunpin (i : nat) : M (fsst E) unit :=
  acquire_bcache ;;;
  upd_buf i (fun b => b <| b_refcnt ::= fun c => u32 (c - 1) |>) ;;;
  release_bcache.
End Bio.
