(* ===== verification/BioList.v ===== *)
(** * The list of buffers

    The prev/next pointers of kernel/bio.c represent a list of buffers in
    order of use; brelse() moves a buffer to its front. *)
From stdpp Require Import base list strings gmap.
From Stdlib Require Import ZArith Lia.
From S2P Require Import Prelude Spinlock Kalloc FsState Bio.

Section Dll.
Implicit Types (bs : list buf) (l : list nat).

Definition nxt bs i : option nat := b_next <$> bs !! i.
Definition prv bs i : option nat := b_prev <$> bs !! i.

(** From [x] the next pointers lead through [l] to [y], and the prev pointers
    back. *)
Fixpoint dseg bs (x : nat) (l : list nat) (y : nat) : Prop :=
  match l with
  | [] => nxt bs x = Some y /\ prv bs y = Some x
  | a :: l => nxt bs x = Some a /\ prv bs a = Some x /\ dseg bs a l y
  end.

Lemma dseg_app bs x l1 a l2 y : dseg bs x (l1 ++ a :: l2) y <-> dseg bs x l1 a /\ dseg bs a l2 y.
Proof.
  revert x. induction l1 as [|b l1 IH]; intros x; simpl; [tauto|]. rewrite IH. tauto.
Qed.

(** Only the next pointers of [x] and [l] and the prev pointers of [l] and [y]
    matter. *)
Lemma dseg_frame bs bs' x l y :
  (forall i, i ∈ x :: l -> nxt bs' i = nxt bs i) -> (forall i, i ∈ l ++ [y] -> prv bs' i = prv bs i) ->
  dseg bs x l y -> dseg bs' x l y.
Proof.
  revert x. induction l as [|a l IH]; intros x Hn Hp; cbn [dseg app] in *.
  - rewrite Hn, Hp by (by left). done.
  - rewrite Hn, (Hp a) by (by left). intros (H1 & H2 & H3). split; [done|]. split; [done|]. apply IH; [| |done].
    + intros i Hi. apply Hn. by right.
    + intros i Hi. apply Hp. by right.
Qed.

Lemma last_cons_default (l : list nat) a x : List.last (a :: l) x = List.last l a.
Proof.
  revert a x. induction l as [|b l IH]; intros a x; [done|].
  change (List.last (a :: b :: l) x) with (List.last (b :: l) x). by rewrite !IH.
Qed.

(** The neighbours of the segment's ends. *)
Lemma dseg_last bs x l y : dseg bs x l y -> prv bs y = Some (List.last l x) /\ nxt bs (List.last l x) = Some y.
Proof.
  revert x. induction l as [|a l IH]; intros x Hs; [cbn [dseg List.last] in *; tauto|].
  destruct Hs as (_ & _ & Hs). apply IH in Hs. by rewrite last_cons_default.
Qed.
Lemma dseg_first bs x l y : dseg bs x l y -> nxt bs x = Some (hd y l) /\ prv bs (hd y l) = Some x.
Proof. destruct l; simpl; tauto. Qed.

Lemma nxt_set bs i f j :
  (i < length bs)%nat ->
  (nxt (alter f i bs) j = if decide (j = i) then b_next ∘ f <$> bs !! i else nxt bs j).
Proof.
  intros Hi. unfold nxt. destruct (decide (j = i)) as [->|Hne].
  - rewrite list_lookup_alter_eq. by destruct (bs !! i).
  - by rewrite list_lookup_alter_ne by done.
Qed.
Lemma prv_set bs i f j :
  (i < length bs)%nat ->
  (prv (alter f i bs) j = if decide (j = i) then b_prev ∘ f <$> bs !! i else prv bs j).
Proof.
  intros Hi. unfold prv. destruct (decide (j = i)) as [->|Hne].
  - rewrite list_lookup_alter_eq. by destruct (bs !! i).
  - by rewrite list_lookup_alter_ne by done.
Qed.

(** Setting one pointer. *)
Definition set_next (i v : nat) bs : list buf := alter (fun b => b <| b_next := v |>) i bs.
Definition set_prev (i v : nat) bs : list buf := alter (fun b => b <| b_prev := v |>) i bs.

Lemma nxt_set_next bs i v j : (i < length bs)%nat -> nxt (set_next i v bs) j = if decide (j = i) then Some v else nxt bs j.
Proof. intros Hi. unfold set_next. rewrite nxt_set by done. destruct (lookup_lt_is_Some_2 bs i Hi) as [b ->]. done. Qed.
Lemma prv_set_next bs i v j : (i < length bs)%nat -> prv (set_next i v bs) j = prv bs j.
Proof.
  intros Hi. unfold set_next. rewrite prv_set by done. destruct (decide (j = i)) as [->|]; [|done].
  unfold prv. by destruct (bs !! i).
Qed.
Lemma prv_set_prev bs i v j : (i < length bs)%nat -> prv (set_prev i v bs) j = if decide (j = i) then Some v else prv bs j.
Proof. intros Hi. unfold set_prev. rewrite prv_set by done. destruct (lookup_lt_is_Some_2 bs i Hi) as [b ->]. done. Qed.
Lemma nxt_set_prev bs i v j : (i < length bs)%nat -> nxt (set_prev i v bs) j = nxt bs j.
Proof.
  intros Hi. unfold set_prev. rewrite nxt_set by done. destruct (decide (j = i)) as [->|]; [|done].
  unfold nxt. by destruct (bs !! i).
Qed.
Lemma length_set_next bs i v : length (set_next i v bs) = length bs.
Proof. apply length_alter. Qed.
Lemma length_set_prev bs i v : length (set_prev i v bs) = length bs.
Proof. apply length_alter. Qed.

(** Unlinking [b] between its neighbours. *)
Lemma dseg_unlink bs x l1 b l2 y :
  dseg bs x (l1 ++ b :: l2) y -> NoDup (x :: l1 ++ b :: l2) -> NoDup (l1 ++ b :: l2 ++ [y]) ->
  (forall i, i ∈ x :: l1 ++ b :: l2 ++ [y] -> (i < length bs)%nat) ->
  let p := List.last l1 x in let n := hd y l2 in
  dseg (set_next p n (set_prev n p bs)) x (l1 ++ l2) y.
Proof.
  intros Hs Hnd1 Hnd2 Hlen p n. apply dseg_app in Hs as [H1 H2].
  assert (p ∈ x :: l1) as Hp.
  { unfold p. destruct l1 as [|a l1 _] using rev_ind; [by left|]. rewrite List.last_last.
    right. apply elem_of_app. right. by left. }
  assert (n ∈ l2 ++ [y]) as Hn by (unfold n; destruct l2; by left).
  assert (p < length bs /\ n < length bs)%nat as [Lp Ln].
  { split; apply Hlen.
    - apply elem_of_cons in Hp as [->|Hp]; [by left|]. right. apply elem_of_app. by left.
    - right. apply elem_of_app. right. by right. }
  set (bs' := set_next p n (set_prev n p bs)).
  assert (forall j, nxt bs' j = if decide (j = p) then Some n else nxt bs j) as Nx.
  { intros j. unfold bs'. rewrite nxt_set_next by (by rewrite length_set_prev). by rewrite nxt_set_prev. }
  assert (forall j, prv bs' j = if decide (j = n) then Some p else prv bs j) as Px.
  { intros j. unfold bs'. rewrite prv_set_next by (by rewrite length_set_prev). by apply prv_set_prev. }
  apply NoDup_cons in Hnd1 as [Nx0 Hnd1]. rewrite app_comm_cons, app_assoc in Hnd2.
  destruct l1 as [|a l1 _] using rev_ind; cbn [List.last app] in *.
  - (* b was first *)
    subst p. destruct l2 as [|c l2]; cbn [hd] in *; subst n.
    + split; [by rewrite Nx, decide_True|by rewrite Px, decide_True].
    + split; [by rewrite Nx, decide_True|]. split; [by rewrite Px, decide_True|].
      destruct H2 as (_ & _ & H2). revert H2. apply dseg_frame.
      * intros i Hi. rewrite Nx, decide_False; [done|]. intros ->. apply Nx0. by right.
      * intros i Hi. rewrite Px, decide_False; [done|]. intros ->.
        apply NoDup_cons in Hnd2 as [_ Hnd2]. simpl in Hnd2. apply NoDup_cons in Hnd2 as [Hc _]. done.
  - unfold p in *. rewrite List.last_last in *. clear p. rename a into p. rewrite <- app_assoc. cbn [app]. apply dseg_app.
    apply dseg_app in H1 as [H1 _]. rewrite <- !app_assoc in *. cbn [app] in *.
    apply NoDup_app in Hnd1 as (_ & D1 & D2). apply NoDup_cons in D2 as [Hpb D2].
    assert (p ∉ b :: l2) as Hpb2 by done.
    split.
    + revert H1. apply dseg_frame.
      * intros i Hi. rewrite Nx, decide_False; [done|]. intros ->. apply elem_of_cons in Hi as [->|Hi].
        -- apply Nx0. apply elem_of_app. right. by left.
        -- apply (D1 _ Hi). by left.
      * intros i Hi. rewrite Px, decide_False; [done|]. intros ->.
        apply NoDup_app in Hnd2 as (_ & E1 & E2). apply elem_of_app in Hi as [Hi|Hi].
        -- apply (E1 _ Hi). right. right. done.
        -- apply list_elem_of_singleton in Hi as ->. apply NoDup_cons in E2 as [E2 _]. apply E2. by right.
    + destruct l2 as [|c l2]; cbn [hd] in *; subst n.
      * split; [by rewrite Nx, decide_True|by rewrite Px, decide_True].
      * split; [by rewrite Nx, decide_True|]. split; [by rewrite Px, decide_True|].
        destruct H2 as (_ & _ & H2). revert H2. apply dseg_frame.
        -- intros i Hi. rewrite Nx, decide_False; [done|]. intros ->. apply Hpb2. by right.
        -- intros i Hi. rewrite Px, decide_False; [done|]. intros ->.
           apply NoDup_app in Hnd2 as (_ & _ & E2). apply NoDup_cons in E2 as [_ E2].
           apply NoDup_cons in E2 as [_ E2]. apply NoDup_cons in E2 as [E2 _]. done.
Qed.

(** Linking [b] in at the front. *)
Lemma dseg_push bs h b l y :
  dseg bs h l y -> NoDup (h :: l) -> NoDup (l ++ [y]) -> b ∉ h :: l -> b ∉ l ++ [y] ->
  (forall i, i ∈ h :: l ++ [y] -> (i < length bs)%nat) -> (b < length bs)%nat ->
  let f := hd y l in
  dseg (set_next h b (set_prev f b (set_prev b h (set_next b f bs)))) h (b :: l) y.
Proof.
  intros Hs Hnd1 Hnd2 Hb1 Hb2 Hlen Lb f.
  assert (f ∈ l ++ [y]) as Hf by (unfold f; destruct l; by left).
  assert (h < length bs)%nat as Lh by (apply Hlen; by left).
  assert (f < length bs)%nat as Lf by (apply Hlen; by right).
  set (bs' := set_next h b _).
  assert (forall j, nxt bs' j = if decide (j = h) then Some b else if decide (j = b) then Some f else nxt bs j) as Nx.
  { intros j. unfold bs'. rewrite nxt_set_next by (by rewrite !length_set_prev, length_set_next).
    rewrite !nxt_set_prev by (by rewrite ?length_set_prev, length_set_next). by rewrite nxt_set_next. }
  assert (forall j, prv bs' j = if decide (j = f) then Some b else if decide (j = b) then Some h else prv bs j) as Px.
  { intros j. unfold bs'. rewrite prv_set_next by (by rewrite !length_set_prev, length_set_next).
    rewrite !prv_set_prev by (by rewrite ?length_set_prev, length_set_next). by rewrite prv_set_next. }
  assert (b <> h /\ b <> f) as [Nbh Nbf].
  { split; intros ->; [apply Hb1; by left|done]. }
  cbn [dseg]. split; [by rewrite Nx, decide_True|].
  split; [by rewrite Px, decide_False, decide_True|].
  destruct l as [|c l]; cbn [hd] in *; subst f; cbn [dseg].
  - split; [by rewrite Nx, decide_False, decide_True|by rewrite Px, decide_True].
  - destruct Hs as (_ & _ & Hs). split; [by rewrite Nx, decide_False, decide_True|].
    split; [by rewrite Px, decide_True|]. revert Hs. apply NoDup_cons in Hnd1 as [Hh _].
    simpl in Hnd2. apply NoDup_cons in Hnd2 as [Hc _]. apply dseg_frame.
    + intros i Hi. rewrite Nx, !decide_False; [done|intros ->; apply Hb1; by right|intros ->; done].
    + intros i Hi. rewrite Px, !decide_False; [done|intros ->; apply Hb2; by right|intros ->; done].
Qed.
End Dll.
