(* ===== verification/BioSpec.v ===== *)
(** * The buffer cache as a cache of the disk

    [bio s V R K] is the contract of kernel/bio.c with its clients: [V] gives
    the current contents of every block (cached or not), [R] the reference
    counts of the blocks in use, [K] the blocks the running process has
    locked.  The routines of [Bio] are specified on it. *)
From stdpp Require Import base list strings gmap.
From Stdlib Require Import ZArith Lia.
From S2P Require Import Prelude Spinlock Kalloc FsState Bio BioList.

Definition key (b : buf) : Z * Z := (b_dev b, b_blockno b).

(** ** Sleep locks *)
Definition sl_free (lk : sleeplock) : Prop := lk_free (sl_lk lk) /\ sl_locked lk = 0.
Definition sl_mine (pid : Z) (lk : sleeplock) : Prop :=
  lk_free (sl_lk lk) /\ sl_locked lk = 1 /\ sl_pid lk = pid.

Lemma spin_cycle me c lk :
  lk_free lk -> cpu_wf c ->
  exists c1 l1, acquire me c lk = Ok (c1, l1) /\ release me c1 l1 = Ok (lockcycle c, lk).
Proof.
  intros Hl Hc. pose proof (acquire_release me c lk Hl Hc) as H. rewrite acquire_free in H by done.
  eexists _, _. split; [by apply acquire_free|]. exact H.
Qed.

Lemma acquiresleep_ok me pid c lk :
  sl_free lk -> cpu_wf c ->
  acquiresleep me pid c lk = Ok (lockcycle c, lk <| sl_locked := 1 |> <| sl_pid := pid |>).
Proof.
  intros [Hl H0] Hc. destruct (spin_cycle me c (sl_lk lk) Hl Hc) as (c1 & l1 & H1 & H2).
  unfold acquiresleep. rewrite H1. cbn [obind fst snd]. rewrite H0. change (negb (0 =? 0)) with false.
  cbv iota zeta. simpl. rewrite H2. done.
Qed.
Lemma releasesleep_ok me pid c lk :
  sl_mine pid lk -> cpu_wf c ->
  releasesleep me c lk = Ok (lockcycle c, lk <| sl_locked := 0 |> <| sl_pid := 0 |>).
Proof.
  intros (Hl & _ & _) Hc. destruct (spin_cycle me c (sl_lk lk) Hl Hc) as (c1 & l1 & H1 & H2).
  unfold releasesleep. rewrite H1. cbn [obind fst snd]. simpl. rewrite H2. done.
Qed.
Lemma holdingsleep_ok me pid c lk :
  lk_free (sl_lk lk) -> cpu_wf c ->
  holdingsleep me pid c lk = Ok (negb (sl_locked lk =? 0) && (sl_pid lk =? pid), lockcycle c, lk).
Proof.
  intros Hl Hc. destruct (spin_cycle me c (sl_lk lk) Hl Hc) as (c1 & l1 & H1 & H2).
  unfold holdingsleep. rewrite H1. cbn [obind fst snd]. rewrite H2. cbn [obind fst snd]. by destruct lk.
Qed.

Section BioSpec.
Context {E : Type}.
Implicit Types (s : fsst E) (V : Z * Z -> list Z) (R : gmap (Z * Z) Z) (K : gset (Z * Z)).

Record bio s V R K : Prop := {
  bi_lock : lk_free (bcache_lock s);
  bi_cpu : cpu_wf (fs_cpu s);
  bi_len : length (bufs s) = S NBUF;
  bi_list : exists l, l ≡ₚ seq 0 NBUF /\ dseg (bufs s) NBUF l NBUF;
  bi_uniq i j b c : (i < NBUF)%nat -> (j < NBUF)%nat -> bufs s !! i = Some b -> bufs s !! j = Some c ->
    key b = key c -> b_dev b <> 0 -> i = j;
  bi_ref i b : (i < NBUF)%nat -> bufs s !! i = Some b -> b_refcnt b <> 0 ->
    R !! key b = Some (b_refcnt b) /\ 0 < b_refcnt b < 2 ^ 32 /\ b_dev b <> 0;
  bi_refs k c : R !! k = Some c -> exists i b, (i < NBUF)%nat /\ bufs s !! i = Some b /\ key b = k /\ b_refcnt b = c /\ c <> 0;
  bi_data i b : (i < NBUF)%nat -> bufs s !! i = Some b -> b_dev b <> 0 -> b_valid b <> 0 /\ b_data b = V (key b);
  bi_uncached k : k.1 <> 0 -> (forall i b, (i < NBUF)%nat -> bufs s !! i = Some b -> key b <> k) -> V k = disk s k;
  bi_idle i b : (i < NBUF)%nat -> bufs s !! i = Some b -> b_refcnt b = 0 -> b_dev b <> 0 -> V (key b) = disk s (key b);
  bi_locks i b : (i < NBUF)%nat -> bufs s !! i = Some b ->
    if decide (key b ∈ K) then sl_mine (fs_pid s) (b_lock b) else sl_free (b_lock b);
  bi_K k : k ∈ K -> is_Some (R !! k) /\ k.1 <> 0
}.

(** Buffer [i] caches block [k]. *)
Definition held s (i : nat) (k : Z * Z) : Prop :=
  (i < NBUF)%nat /\ exists b, bufs s !! i = Some b /\ key b = k.

(** [s'] differs from [s] in its buffers and the scratch interrupt flag. *)
Definition only_bufs s s' : Prop :=
  s' = s <| fs_cpu := lockcycle (fs_cpu s) |> <| bufs := bufs s' |>.

Lemma only_bufs_trans s1 s2 s3 : only_bufs s1 s2 -> only_bufs s2 s3 -> only_bufs s1 s3.
Proof. unfold only_bufs. intros H1 H2. rewrite H2, H1. simpl. by rewrite lockcycle_idemp. Qed.

(** ** Steps of the code *)
Lemma bcache_cycle s :
  lk_free (bcache_lock s) -> cpu_wf (fs_cpu s) ->
  exists s1, acquire_bcache s = Ok (tt, s1) /\ bufs s1 = bufs s /\
    forall bs, release_bcache (s1 <| bufs := bs |>) =
      Ok (tt, s <| fs_cpu := lockcycle (fs_cpu s) |> <| bufs := bs |>).
Proof.
  intros Hl Hc. destruct (spin_cycle (fs_hart s) (fs_cpu s) (bcache_lock s) Hl Hc) as (c1 & l1 & H1 & H2).
  unfold acquire_bcache, with_lock. rewrite H1. eexists. split; [reflexivity|]. split; [done|].
  intros bs. unfold release_bcache, with_lock. simpl. rewrite H2. simpl. by destruct s.
Qed.

Lemma upd_buf_ok i f s b :
  bufs s !! i = Some b -> upd_buf i f s = Ok (tt, s <| bufs := alter f i (bufs s) |>).
Proof. intros Hb. unfold upd_buf. rewrite Hb. by rewrite (insert_as_alter f _ _ _ Hb). Qed.
Lemma get_buf_ok i s b : bufs s !! i = Some b -> get_buf i s = Ok (b, s).
Proof. intros Hb. unfold get_buf. by rewrite Hb. Qed.

(** The forward loop of bget(). *)
Lemma find_loop s dev bno l : forall x n, dseg (bufs s) x l NBUF -> NBUF ∉ l -> (length l < n)%nat ->
  mloop n (fun i =>
    if (i =? NBUF)%nat then mret (inr None)
    else
      let* b := get_buf i in
      if (b_dev b =? dev) && (b_blockno b =? bno) then mret (inr (Some i))
      else mret (inl (b_next b))) (hd NBUF l) s =
  Ok (List.find (fun i => match bufs s !! i with
    | Some b => (b_dev b =? dev) && (b_blockno b =? bno) | None => false end) l, s).
Proof.
  induction l as [|a l IH]; intros x n Hs Hn Hlen; (destruct n as [|n]; [simpl in Hlen; lia|]).
  - apply mloop_stop. by rewrite Nat.eqb_refl.
  - apply not_elem_of_cons in Hn as [Hna Hn]. destruct Hs as (_ & _ & Hs). cbn [hd List.find].
    pose proof (dseg_first _ _ _ _ Hs) as [Hf _]. unfold nxt in Hf.
    destruct (bufs s !! a) as [b|] eqn:Hb; [|done]. simpl in Hf. injection Hf as Hf.
    assert ((a =? NBUF)%nat = false) as Ea by (apply Nat.eqb_neq; congruence).
    destruct ((b_dev b =? dev) && (b_blockno b =? bno)) eqn:Em.
    + apply mloop_stop. rewrite Ea, (mbind_Ok _ _ _ _ _ (get_buf_ok _ _ _ Hb)), Em. done.
    + erewrite mloop_next by (rewrite Ea, (mbind_Ok _ _ _ _ _ (get_buf_ok _ _ _ Hb)), Em; done).
      rewrite Hf. apply (IH a); [done|done|simpl in Hlen; lia].
Qed.

(** The backward loop. *)
Lemma lru_loop s l : forall y n, dseg (bufs s) NBUF l y -> NBUF ∉ l -> (length l < n)%nat ->
  mloop n (fun i =>
    if (i =? NBUF)%nat then mret (inr None)
    else
      let* b := get_buf i in
      if b_refcnt b =? 0 then mret (inr (Some i)) else mret (inl (b_prev b))) (List.last l NBUF) s =
  Ok (List.find (fun i => match bufs s !! i with Some b => b_refcnt b =? 0 | None => false end) (reverse l), s).
Proof.
  induction l as [|a l IH] using rev_ind; intros y n Hs Hn Hlen; (destruct n as [|n]; [rewrite ?length_app in Hlen; simpl in Hlen; lia|]).
  - apply mloop_stop. by rewrite Nat.eqb_refl.
  - apply not_elem_of_app in Hn as [Hn Hna]. apply not_elem_of_cons in Hna as [Hna _].
    apply dseg_app in Hs as [Hs _]. rewrite List.last_last, reverse_snoc. cbn [List.find].
    pose proof (dseg_last _ _ _ _ Hs) as [Hf _]. unfold prv in Hf.
    destruct (bufs s !! a) as [b|] eqn:Hb; [|done]. simpl in Hf. injection Hf as Hf.
    assert ((a =? NBUF)%nat = false) as Ea by (apply Nat.eqb_neq; congruence).
    destruct (b_refcnt b =? 0) eqn:Em.
    + apply mloop_stop. rewrite Ea, (mbind_Ok _ _ _ _ _ (get_buf_ok _ _ _ Hb)), Em. done.
    + erewrite mloop_next by (rewrite Ea, (mbind_Ok _ _ _ _ _ (get_buf_ok _ _ _ Hb)), Em; done).
      rewrite Hf. apply (IH a); [done|done|]. rewrite length_app in Hlen. simpl in Hlen. lia.
Qed.

(** ** Changing one buffer *)
Lemma dseg_insert (bs : list buf) i b b' x l y :
  bs !! i = Some b -> b_next b' = b_next b -> b_prev b' = b_prev b -> dseg bs x l y -> dseg (<[i := b']> bs) x l y.
Proof.
  intros Hb Hn Hp. pose proof (lookup_lt_Some _ _ _ Hb) as Hlt.
  assert (forall j, nxt (<[i := b']> bs) j = nxt bs j /\ prv (<[i := b']> bs) j = prv bs j) as H.
  { intros j. unfold nxt, prv. destruct (decide (j = i)) as [->|Hne].
    - rewrite list_lookup_insert_eq, Hb by done. simpl. by rewrite Hn, Hp.
    - by rewrite list_lookup_insert_ne by done. }
  apply dseg_frame; intros j _; apply H.
Qed.

Lemma alter_insert_eq {A} (f : A -> A) i x (l : list A) :
  (i < length l)%nat -> alter f i (<[i := x]> l) = <[i := f x]> l.
Proof.
  intros Hi. rewrite <- (insert_as_alter f _ _ x) by (by apply list_lookup_insert_eq). apply list_insert_insert_eq.
Qed.

(** Buffer [i] becomes [b'], which caches the block [k']; the other blocks keep
    their contents, counts and locks. *)
Lemma bio_replace s s' V V' R R' K K' i b b' :
  bio s V R K -> (i < NBUF)%nat -> bufs s !! i = Some b -> bufs s' = <[i := b']> (bufs s) ->
  b_next b' = b_next b -> b_prev b' = b_prev b -> b_dev b' <> 0 -> b_valid b' <> 0 ->
  (key b' = key b \/ (b_refcnt b = 0 /\ forall j c, (j < NBUF)%nat -> bufs s !! j = Some c -> key c <> key b')) ->
  (forall k, k <> key b' -> R' !! k = R !! k /\ V' k = V k /\ (k ∈ K' <-> k ∈ K) /\ disk s' k = disk s k) ->
  b_data b' = V' (key b') -> 0 <= b_refcnt b' < 2 ^ 32 ->
  R' !! key b' = (if b_refcnt b' =? 0 then None else Some (b_refcnt b')) ->
  (b_refcnt b' = 0 -> V' (key b') = disk s' (key b')) ->
  (if decide (key b' ∈ K') then sl_mine (fs_pid s) (b_lock b') else sl_free (b_lock b')) ->
  (key b' ∈ K' -> b_refcnt b' <> 0) ->
  lk_free (bcache_lock s') -> cpu_wf (fs_cpu s') -> fs_pid s' = fs_pid s ->
  bio s' V' R' K'.
Proof.
  intros [A1 A2 A3 A4 A5 A6 A7 A8 A9 A10 A11 A12] Hi Hb Hbs Hn Hp Hd Hv Hkey Hoth Hdat Hrc HR Hidle Hlk HK Hl Hc Hpid.
  pose proof (lookup_lt_Some _ _ _ Hb) as Hlt.
  assert (bufs s' !! i = Some b') as Hb' by (rewrite Hbs; by apply list_lookup_insert_eq).
  assert (forall j, j <> i -> bufs s' !! j = bufs s !! j) as Hne by (intros j Hj; rewrite Hbs; by apply list_lookup_insert_ne).
  assert (forall j c, (j < NBUF)%nat -> j <> i -> bufs s !! j = Some c -> key c <> key b') as Huniq.
  { intros j c Hj Hji Hcj Heq. destruct Hkey as [Hkey|[_ Hkey]]; [|by eapply Hkey].
    apply Hji. eapply A5; [done|done|done|done|congruence|].
    unfold key in Heq. injection Heq as Heq _. by rewrite Heq. }
  split; try done.
  - by rewrite Hbs, length_insert.
  - destruct A4 as (l & Hl1 & Hl2). exists l. split; [done|]. rewrite Hbs. by eapply dseg_insert.
  - intros j1 j2 c1 c2 Hj1 Hj2 Hc1 Hc2 Heq Hnz. destruct (decide (j1 = i)) as [->|N1], (decide (j2 = i)) as [->|N2]; try done.
    + exfalso. rewrite Hb' in Hc1. injection Hc1 as <-. rewrite Hne in Hc2 by done. by eapply (Huniq j2 c2).
    + exfalso. rewrite Hb' in Hc2. injection Hc2 as <-. rewrite Hne in Hc1 by done. by eapply (Huniq j1 c1).
    + rewrite Hne in Hc1, Hc2 by done. by eapply A5.
  - intros j c Hj Hcj Hr. destruct (decide (j = i)) as [->|N].
    + rewrite Hb' in Hcj. injection Hcj as <-. rewrite HR, (proj2 (Z.eqb_neq _ _)) by done. split; [done|]. split; [lia|done].
    + rewrite Hne in Hcj by done. rewrite (proj1 (Hoth (key c) (Huniq j c Hj N Hcj))). by eapply A6.
  - intros k c Hk. destruct (decide (k = key b')) as [->|N].
    + rewrite HR in Hk. destruct (Z.eqb_spec (b_refcnt b') 0); [done|]. injection Hk as <-. by exists i, b'.
    + rewrite (proj1 (Hoth k N)) in Hk. destruct (A7 k c Hk) as (j & c' & Hj & Hcj & Hkj & Hrj & Hnz).
      assert (j <> i) as Nj.
      { intros ->. rewrite Hb in Hcj. injection Hcj as <-. destruct Hkey as [Hkey|[Hkey _]]; congruence. }
      exists j, c'. rewrite Hne by done. done.
  - intros j c Hj Hcj Hnz. destruct (decide (j = i)) as [->|N].
    + rewrite Hb' in Hcj. injection Hcj as <-. done.
    + rewrite Hne in Hcj by done. rewrite (proj1 (proj2 (Hoth (key c) (Huniq j c Hj N Hcj)))). by eapply A8.
  - intros k Hk1 Hk. assert (k <> key b') as N by (intros ->; by apply (Hk i b')).
    destruct (Hoth k N) as (_ & -> & _ & ->). destruct (decide (k = key b)) as [->|N2].
    + destruct Hkey as [Hkey|[Hkey _]]; [congruence|]. apply (A10 i b); try done.
    + apply A9; [done|]. intros j c Hj Hcj Heq. destruct (decide (j = i)) as [->|Nj]; [congruence|].
      apply (Hk j c); [done|by rewrite Hne|done].
  - intros j c Hj Hcj Hr Hnz. destruct (decide (j = i)) as [->|N].
    + rewrite Hb' in Hcj. injection Hcj as <-. auto.
    + rewrite Hne in Hcj by done. destruct (Hoth (key c) (Huniq j c Hj N Hcj)) as (_ & -> & _ & ->). by eapply A10.
  - intros j c Hj Hcj. rewrite Hpid. destruct (decide (j = i)) as [->|N].
    + rewrite Hb' in Hcj. injection Hcj as <-. done.
    + rewrite Hne in Hcj by done. destruct (Hoth (key c) (Huniq j c Hj N Hcj)) as (_ & _ & HKc & _).
      pose proof (A11 j c Hj Hcj) as HL. destruct (decide (key c ∈ K)), (decide (key c ∈ K')); tauto.
  - intros k Hk. destruct (decide (k = key b')) as [->|N].
    + rewrite HR. specialize (HK Hk). rewrite (proj2 (Z.eqb_neq _ _)) by done. split; [by eexists|]. simpl. done.
    + destruct (Hoth k N) as (-> & _ & HKk & _). apply A12. tauto.
Qed.

Lemma buf_exists s V R K i : bio s V R K -> (i < NBUF)%nat -> exists b, bufs s !! i = Some b.
Proof. intros Hb Hi. apply lookup_lt_is_Some_2. rewrite (bi_len _ _ _ _ Hb). lia. Qed.

(** With fewer than NBUF blocks in use some buffer is unused. *)
Lemma unused_exists s V R K :
  bio s V R K -> (size R < NBUF)%nat -> exists i b, (i < NBUF)%nat /\ bufs s !! i = Some b /\ b_refcnt b = 0.
Proof.
  intros Hb Hs. pose (f i := match bufs s !! i with Some b => key b | None => (0, 0) end).
  destruct (List.find (fun i => match bufs s !! i with Some b => b_refcnt b =? 0 | None => false end) (seq 0 NBUF)) as [i|] eqn:Ef.
  - destruct (find_first _ _ _ Ef) as (n & Hn & Hr & _). apply lookup_seq in Hn as [-> Hn].
    destruct (bufs s !! (0 + n)%nat) as [b|] eqn:Eb; [|done]. exists (0 + n)%nat, b. split; [lia|]. split; [done|]. by apply Z.eqb_eq.
  - exfalso. assert (forall i, (i < NBUF)%nat -> exists b, bufs s !! i = Some b /\ b_refcnt b <> 0) as Hall.
    { intros i Hi. destruct (buf_exists s V R K i Hb Hi) as [b Hbi]. exists b. split; [done|].
      pose proof (find_none_elem _ _ i Ef) as Hno. cbv beta in Hno. rewrite Hbi in Hno. apply Z.eqb_neq, Hno, elem_of_seq. lia. }
    assert (NoDup (f <$> seq 0 NBUF)) as Hnd.
    { apply NoDup_fmap_2_strong; [|apply NoDup_seq]. intros i j Hi Hj Heq. apply elem_of_seq in Hi, Hj.
      destruct (Hall i ltac:(lia)) as (b & Hbi & Hri), (Hall j ltac:(lia)) as (c & Hcj & Hrj). unfold f in Heq.
      rewrite Hbi, Hcj in Heq. eapply (bi_uniq _ _ _ _ Hb i j b c); try done; try lia.
      by apply (bi_ref _ _ _ _ Hb i b ltac:(lia) Hbi). }
    apply (size_list_to_set (C := gset (Z * Z))) in Hnd.
    rewrite length_fmap, length_seq in Hnd.
    assert (list_to_set (C := gset (Z * Z)) (f <$> seq 0 NBUF) ⊆ dom R) as Hsub.
    { intros k Hk. apply elem_of_list_to_set, list_elem_of_fmap in Hk as (i & -> & Hi). apply elem_of_seq in Hi.
      destruct (Hall i ltac:(lia)) as (b & Hbi & Hri). unfold f. rewrite Hbi. apply elem_of_dom.
      rewrite (proj1 (bi_ref _ _ _ _ Hb i b ltac:(lia) Hbi Hri)). by eexists. }
    apply subseteq_size in Hsub. rewrite Hnd, size_dom in Hsub. lia.
Qed.

(** With NBUF blocks in use every buffer is used. *)
Lemma all_used s V R K :
  bio s V R K -> (NBUF <= size R)%nat -> forall i b, (i < NBUF)%nat -> bufs s !! i = Some b -> b_refcnt b <> 0.
Proof.
  intros Hb Hs i b Hi Hbi Hr.
  pose (where_ k := List.find (fun j => match bufs s !! j with Some c => bool_decide (key c = k) && negb (b_refcnt c =? 0) | None => false end) (seq 0 NBUF)).
  assert (forall k, k ∈ dom R -> exists j c, where_ k = Some j /\ (j < NBUF)%nat /\ bufs s !! j = Some c /\ key c = k /\ b_refcnt c <> 0) as Hw.
  { intros k Hk. apply elem_of_dom in Hk as [c Hk]. destruct (bi_refs _ _ _ _ Hb k c Hk) as (j & b' & Hj & Hbj & Hkj & Hrj & Hc).
    destruct (where_ k) as [j'|] eqn:Ew.
    - destruct (find_first _ _ _ Ew) as (n & Hn & Hm & _). apply lookup_seq in Hn as [-> Hn]. simpl in *.
      destruct (bufs s !! n) as [c'|] eqn:Ec; [|done]. apply andb_prop in Hm as [M1 M2]. apply bool_decide_eq_true in M1.
      apply negb_true_iff, Z.eqb_neq in M2. exists n, c'. done.
    - exfalso. pose proof (find_none_elem _ _ j Ew ltac:(apply elem_of_seq; lia)) as Hm. cbv beta in Hm. rewrite Hbj in Hm.
      rewrite bool_decide_true, (proj2 (Z.eqb_neq _ _)) in Hm by congruence. done. }
  pose (ds := elements (dom R)).
  assert (NoDup (where_ <$> ds)) as Hnd.
  { apply NoDup_fmap_2_strong; [|apply NoDup_elements]. intros k1 k2 H1 H2 Heq. apply elem_of_elements in H1, H2.
    destruct (Hw k1 H1) as (j1 & c1 & W1 & _ & B1 & <- & _), (Hw k2 H2) as (j2 & c2 & W2 & _ & B2 & <- & _). congruence. }
  assert (NBUF <= length (where_ <$> ds))%nat as Hlen.
  { rewrite length_fmap. unfold ds. change (length (elements (dom R))) with (size (dom R)). by rewrite size_dom. }
  assert (where_ <$> ds ⊆+ Some <$> (filter (fun j => j <> i) (seq 0 NBUF))) as Hsub.
  { apply NoDup_submseteq; [done|]. intros x Hx. apply list_elem_of_fmap in Hx as (k & -> & Hk). apply elem_of_elements in Hk.
    destruct (Hw k Hk) as (j & c & -> & Hj & Hbj & Hkj & Hrj). apply list_elem_of_fmap. exists j. split; [done|].
    apply list_elem_of_filter. split; [intros ->; congruence|]. apply elem_of_seq. lia. }
  apply submseteq_length in Hsub. rewrite (length_fmap Some) in Hsub.
  assert (i :: filter (fun j => j <> i) (seq 0 NBUF) ⊆+ seq 0 NBUF) as H2.
  { apply NoDup_submseteq.
    - apply NoDup_cons. split; [intros Hx; apply list_elem_of_filter in Hx; tauto|]. apply NoDup_filter, NoDup_seq.
    - intros x Hx. apply elem_of_cons in Hx as [->|Hx]; [apply elem_of_seq; lia|]. by apply list_elem_of_filter in Hx as [_ ?]. }
  apply submseteq_length in H2. rewrite length_seq in H2. cbn [length] in H2. lia.
Qed.

Definition matches (bs : list buf) (dev bno : Z) (i : nat) : bool :=
  match bs !! i with Some b => (b_dev b =? dev) && (b_blockno b =? bno) | None => false end.
Definition unref (bs : list buf) (i : nat) : bool :=
  match bs !! i with Some b => b_refcnt b =? 0 | None => false end.

Lemma bget_find_eq s l dev bno :
  dseg (bufs s) NBUF l NBUF -> l ≡ₚ seq 0 NBUF ->
  bget_find dev bno s = Ok (List.find (matches (bufs s) dev bno) l, s).
Proof.
  intros Hs Hl. assert (NBUF ∉ l) as Hnl by (rewrite Hl, elem_of_seq; lia).
  assert (length l = NBUF) as Hll by (rewrite Hl; apply length_seq).
  pose proof (dseg_first _ _ _ _ Hs) as [Hf _]. unfold nxt in Hf.
  destruct (bufs s !! NBUF) as [h|] eqn:Eh; [|done]. simpl in Hf. injection Hf as Hf.
  unfold bget_find. rewrite (mbind_Ok _ _ _ _ _ (get_buf_ok _ _ _ Eh)), Hf.
  apply (find_loop s dev bno l NBUF (S NBUF) Hs Hnl). lia.
Qed.
Lemma bget_lru_eq s l :
  dseg (bufs s) NBUF l NBUF -> l ≡ₚ seq 0 NBUF ->
  bget_lru s = Ok (List.find (unref (bufs s)) (reverse l), s).
Proof.
  intros Hs Hl. assert (NBUF ∉ l) as Hnl by (rewrite Hl, elem_of_seq; lia).
  assert (length l = NBUF) as Hll by (rewrite Hl; apply length_seq).
  pose proof (dseg_last _ _ _ _ Hs) as [Hf _]. unfold prv in Hf.
  destruct (bufs s !! NBUF) as [h|] eqn:Eh; [|done]. simpl in Hf. injection Hf as Hf.
  unfold bget_lru. rewrite (mbind_Ok _ _ _ _ _ (get_buf_ok _ _ _ Eh)), Hf.
  apply (lru_loop s l NBUF (S NBUF) Hs Hnl). lia.
Qed.

Definition hit_buf (pid : Z) (b : buf) : buf :=
  b <| b_refcnt := b_refcnt b + 1 |> <| b_lock ::= fun l => l <| sl_locked := 1 |> <| sl_pid := pid |> |>.
Definition miss_buf (pid dev bno : Z) (d : list Z) (b : buf) : buf :=
  b <| b_dev := dev |> <| b_blockno := bno |> <| b_valid := 1 |> <| b_refcnt := 1 |>
    <| b_lock ::= fun l => l <| sl_locked := 1 |> <| sl_pid := pid |> |> <| b_data := d |>.

Lemma buf_acquiresleep_ok s i b :
  bufs s !! i = Some b -> sl_free (b_lock b) -> cpu_wf (fs_cpu s) ->
  buf_acquiresleep i s = Ok (tt, s <| fs_cpu := lockcycle (fs_cpu s) |>
    <| bufs := <[i := b <| b_lock ::= fun l => l <| sl_locked := 1 |> <| sl_pid := fs_pid s |> |>]> (bufs s) |>).
Proof.
  intros Hb Hl Hc. unfold buf_acquiresleep. rewrite (mbind_Ok _ _ _ _ _ (get_buf_ok _ _ _ Hb)).
  unfold mbind at 1. rewrite acquiresleep_ok by done. cbn [obind fst snd]. rewrite mbind_modify.
  unfold upd_buf. simpl. rewrite Hb. done.
Qed.

(** bread() on a block that is cached, and on one that is not. *)
Lemma bread_hit s V R K dev bno i b :
  bio s V R K -> (i < NBUF)%nat -> bufs s !! i = Some b -> key b = (dev, bno) -> dev <> 0 -> key b ∉ K ->
  0 <= b_refcnt b < 2 ^ 32 - 1 ->
  bread dev bno s = Ok (i, s <| fs_cpu := lockcycle (fs_cpu s) |> <| bufs := <[i := hit_buf (fs_pid s) b]> (bufs s) |>).
Proof.
  intros Hbio Hi Hb Hk Hd HK Hrc. destruct (bi_list _ _ _ _ Hbio) as (l & Hl & Hs).
  unfold bread, bget.
  destruct (bcache_cycle s (bi_lock _ _ _ _ Hbio) (bi_cpu _ _ _ _ Hbio)) as (s1 & H1 & B1 & H2).
  unfold mbind at 1. unfold mbind at 1. rewrite H1. cbn [obind fst snd].
  assert (bget_find dev bno s1 = Ok (Some i, s1)) as Hfind.
  { rewrite (bget_find_eq s1 l dev bno) by (by rewrite ?B1). rewrite B1. do 2 f_equal.
    assert (List.find (matches (bufs s) dev bno) l = Some i) as ->; [|done].
    assert (i ∈ l) as Hil by (rewrite Hl; apply elem_of_seq; lia).
    destruct (List.find _ l) as [j|] eqn:Ef.
    - destruct (find_first _ _ _ Ef) as (n & Hn & Hm & _). unfold matches in Hm.
      assert (j ∈ l) as Hjl by (by eapply list_elem_of_lookup_2). rewrite Hl, elem_of_seq in Hjl.
      destruct (bufs s !! j) as [c|] eqn:Ec; [|done]. apply andb_prop in Hm as [M1 M2].
      apply Z.eqb_eq in M1, M2. f_equal. eapply (bi_uniq _ _ _ _ Hbio j i c b); try done; [lia|unfold key in *; congruence|congruence].
    - pose proof (find_none_elem _ _ _ Ef Hil) as Hm. unfold matches in Hm. rewrite Hb in Hm.
      unfold key in Hk. injection Hk as E1 E2. rewrite E1, E2, !Z.eqb_refl in Hm. done. }
  rewrite (mbind_Ok _ _ _ _ _ Hfind).
  assert (bufs s1 !! i = Some b) as Hb1 by (by rewrite B1).
  rewrite (mbind_Ok _ _ _ _ _ (upd_buf_ok _ _ _ _ Hb1)).
  rewrite (mbind_Ok _ _ _ _ _ (H2 _)). rewrite B1. rewrite <- (insert_as_alter _ _ _ _ Hb).
  pose proof (lookup_lt_Some _ _ _ Hb) as Hlt.
  assert (sl_free (b_lock b)) as Hsl.
  { pose proof (bi_locks _ _ _ _ Hbio i b Hi Hb) as HL. by rewrite decide_False in HL. }
  set (b1 := b <| b_refcnt ::= _ |>). set (s2 := s <| fs_cpu := _ |> <| bufs := _ |>).
  assert (bufs s2 !! i = Some b1) as Hb2 by (by apply list_lookup_insert_eq).
  rewrite (mbind_Ok _ _ _ _ _ (buf_acquiresleep_ok s2 i b1 Hb2 Hsl (cpu_wf_lockcycle _ (bi_cpu _ _ _ _ Hbio)))).
  unfold mret at 1. cbn [obind fst snd].
  set (b2 := b1 <| b_lock ::= _ |>). set (s3 := s2 <| fs_cpu := _ |> <| bufs := _ |>).
  assert (bufs s3 !! i = Some b2) as Hb3 by (unfold s3, s2; simpl; apply list_lookup_insert_eq; by rewrite length_insert).
  rewrite (mbind_Ok _ _ _ _ _ (get_buf_ok _ _ _ Hb3)).
  destruct (bi_data _ _ _ _ Hbio i b Hi Hb) as [Hv _]; [unfold key in Hk; congruence|].
  change (b_valid b2) with (b_valid b). rewrite (proj2 (Z.eqb_neq _ _)) by done. rewrite mbind_ret. unfold mret.
  do 2 f_equal. unfold s3, s2. simpl. rewrite lockcycle_idemp, list_insert_insert_eq.
  unfold b2, b1, hit_buf. simpl. rewrite u32_small by lia. done.
Qed.

Lemma bread_miss s V R K dev bno :
  bio s V R K -> dev <> 0 -> (forall j c, (j < NBUF)%nat -> bufs s !! j = Some c -> key c <> (dev, bno)) ->
  (size R < NBUF)%nat ->
  exists l i b, l ≡ₚ seq 0 NBUF /\ dseg (bufs s) NBUF l NBUF /\ List.find (unref (bufs s)) (reverse l) = Some i /\
    (i < NBUF)%nat /\ bufs s !! i = Some b /\ b_refcnt b = 0 /\
    bread dev bno s = Ok (i, s <| fs_cpu := lockcycle (fs_cpu s) |>
      <| bufs := <[i := miss_buf (fs_pid s) dev bno (disk s (dev, bno)) b]> (bufs s) |>).
Proof.
  intros Hbio Hd Hno Hroom. destruct (bi_list _ _ _ _ Hbio) as (l & Hl & Hs).
  destruct (unused_exists s V R K Hbio Hroom) as (i0 & b0 & Hi0 & Hb0 & Hr0).
  destruct (List.find (unref (bufs s)) (reverse l)) as [i|] eqn:Ef.
  2:{ pose proof (find_none_elem _ _ i0 Ef) as Hx. unfold unref in Hx. rewrite Hb0, Hr0 in Hx.
      exfalso. discriminate Hx. rewrite elem_of_reverse, Hl. apply elem_of_seq. lia. }
  destruct (find_first _ _ _ Ef) as (n & Hn & Hm & _).
  assert (i ∈ l) as Hil by (apply elem_of_reverse; by eapply list_elem_of_lookup_2). rewrite Hl, elem_of_seq in Hil.
  unfold unref in Hm. destruct (bufs s !! i) as [b|] eqn:Hb; [|done]. apply Z.eqb_eq in Hm.
  exists l, i, b. split; [done|]. split; [done|]. split; [done|]. split; [lia|]. split; [done|]. split; [done|].
  unfold bread, bget.
  destruct (bcache_cycle s (bi_lock _ _ _ _ Hbio) (bi_cpu _ _ _ _ Hbio)) as (s1 & H1 & B1 & H2).
  unfold mbind at 1. unfold mbind at 1. rewrite H1. cbn [obind fst snd].
  assert (bget_find dev bno s1 = Ok (None, s1)) as Hfind.
  { rewrite (bget_find_eq s1 l dev bno) by (by rewrite ?B1). rewrite B1. do 2 f_equal.
    destruct (List.find (matches (bufs s) dev bno) l) as [j|] eqn:Ej; [|done].
    destruct (find_first _ _ _ Ej) as (n' & Hn' & Hm' & _). unfold matches in Hm'.
    assert (j ∈ l) as Hjl by (by eapply list_elem_of_lookup_2). rewrite Hl, elem_of_seq in Hjl.
    destruct (bufs s !! j) as [c|] eqn:Ec; [|done]. apply andb_prop in Hm' as [M1 M2]. apply Z.eqb_eq in M1, M2.
    exfalso. apply (Hno j c); [lia|done|unfold key; congruence]. }
  rewrite (mbind_Ok _ _ _ _ _ Hfind).
  rewrite (mbind_Ok _ _ _ _ _ (bget_lru_eq s1 l ltac:(by rewrite B1) Hl)). rewrite B1, Ef.
  assert (bufs s1 !! i = Some b) as Hb1 by (by rewrite B1).
  rewrite (mbind_Ok _ _ _ _ _ (upd_buf_ok _ _ _ _ Hb1)).
  rewrite (mbind_Ok _ _ _ _ _ (H2 _)). rewrite B1. rewrite <- (insert_as_alter _ _ _ _ Hb).
  pose proof (lookup_lt_Some _ _ _ Hb) as Hlt.
  assert (sl_free (b_lock b)) as Hsl.
  { pose proof (bi_locks _ _ _ _ Hbio i b ltac:(lia) Hb) as HL. destruct (decide (key b ∈ K)) as [HK|]; [|done].
    destruct (bi_K _ _ _ _ Hbio _ HK) as [[c Hc] Hd']. destruct (bi_refs _ _ _ _ Hbio _ _ Hc) as (j & b' & Hj & Hbj & Hkj & Hrj & Hnz).
    assert (j = i) as -> by (eapply (bi_uniq _ _ _ _ Hbio j i b' b); try done; [lia|unfold key in Hkj; injection Hkj as -> _; done]).
    congruence. }
  set (b1 := b <| b_dev := dev |> <| b_blockno := bno |> <| b_valid := 0 |> <| b_refcnt := 1 |>).
  set (s2 := s <| fs_cpu := _ |> <| bufs := _ |>).
  assert (bufs s2 !! i = Some b1) as Hb2 by (by apply list_lookup_insert_eq).
  rewrite (mbind_Ok _ _ _ _ _ (buf_acquiresleep_ok s2 i b1 Hb2 Hsl (cpu_wf_lockcycle _ (bi_cpu _ _ _ _ Hbio)))).
  unfold mret at 1. cbn [obind fst snd].
  set (b2 := b1 <| b_lock ::= _ |>). set (s3 := s2 <| fs_cpu := _ |> <| bufs := _ |>).
  assert (bufs s3 !! i = Some b2) as Hb3 by (unfold s3, s2; simpl; apply list_lookup_insert_eq; by rewrite length_insert).
  rewrite (mbind_Ok _ _ _ _ _ (get_buf_ok _ _ _ Hb3)).
  change (b_valid b2) with 0. rewrite Z.eqb_refl. unfold virtio_disk_rw.
  unfold mbind at 1. unfold mbind at 1.
  rewrite (mbind_Ok _ _ _ _ _ (get_buf_ok _ _ _ Hb3)). cbv zeta. rewrite Z.eqb_refl, mbind_reads.
  rewrite (upd_buf_ok _ _ _ _ Hb3). cbn [obind fst snd].
  set (s4 := s3 <| bufs := _ |>). set (b4 := b2 <| b_data := disk s (dev, bno) |>).
  assert (bufs s4 !! i = Some b4) as Hb4.
  { change (bufs s4) with (alter (fun b => b <| b_data := disk s3 (b_dev b2, b_blockno b2) |>) i (bufs s3)). rewrite list_lookup_alter_eq, Hb3. done. }
  rewrite (upd_buf_ok _ _ _ _ Hb4). cbn [obind fst snd]. unfold mret. do 2 f_equal.
  unfold s4, s3, s2. simpl. rewrite lockcycle_idemp. f_equal.
  rewrite list_insert_insert_eq, !alter_insert_eq by (by rewrite ?length_insert). done.
Qed.
(** ** The contract of each routine *)

(** The reference count of a block. *)
Definition rc R (k : Z * Z) : Z := default 0 (R !! k).
Definition set_rc R (k : Z * Z) (c : Z) : gmap (Z * Z) Z := if c =? 0 then delete k R else <[k := c]> R.

Lemma set_rc_eq R k c : set_rc R k c !! k = if c =? 0 then None else Some c.
Proof. unfold set_rc. destruct (c =? 0); [apply lookup_delete_eq|apply lookup_insert_eq]. Qed.
Lemma set_rc_ne R k c k' : k' <> k -> set_rc R k c !! k' = R !! k'.
Proof. intros Hne. unfold set_rc. destruct (c =? 0); [by rewrite lookup_delete_ne|by rewrite lookup_insert_ne]. Qed.

(** A block that is held by a reference stays in its buffer. *)
Definition keeps s s' (R : gmap (Z * Z) Z) : Prop :=
  forall j k, is_Some (R !! k) -> held s j k -> held s' j k.

Lemma held_inj s V R K i j k : bio s V R K -> held s i k -> held s j k -> k.1 <> 0 -> i = j.
Proof.
  intros Hb (Hi & b & Hbi & Hkb) (Hj & c & Hcj & Hkc) Hd.
  eapply (bi_uniq _ _ _ _ Hb i j b c); try done; [congruence|]. by rewrite <- Hkb in Hd.
Qed.

(** The count of the buffer that caches a block. *)
Lemma held_rc s V R K i k b :
  bio s V R K -> held s i k -> bufs s !! i = Some b -> k.1 <> 0 -> b_refcnt b = rc R k.
Proof.
  intros Hb (Hi & b' & Hbi & Hk) Hbb Hd. rewrite Hbi in Hbb. injection Hbb as <-. unfold rc.
  destruct (Z.eq_dec (b_refcnt b') 0) as [E0|N0].
  - destruct (R !! k) as [c|] eqn:Er; [|done]. destruct (bi_refs _ _ _ _ Hb k c Er) as (j & b2 & Hj & Hbj & Hk2 & Hr2 & Hc).
    assert (i = j) as <- by (apply (bi_uniq _ _ _ _ Hb i j b' b2); try done; [congruence|by rewrite <- Hk in Hd]). congruence.
  - rewrite <- Hk. by rewrite (proj1 (bi_ref _ _ _ _ Hb i b' Hi Hbi N0)).
Qed.

Lemma rc_pos_inv R k : 0 < rc R k -> R !! k = Some (rc R k).
Proof. unfold rc. destruct (R !! k); simpl; [done|lia]. Qed.

(** bread() returns, locked and with one reference more, the buffer of the
    block, whose contents are the block's. *)
Lemma bio_bread s V R K dev bno :
  bio s V R K -> dev <> 0 -> (dev, bno) ∉ K -> rc R (dev, bno) < 2 ^ 32 - 1 ->
  (size R < NBUF)%nat \/ is_Some (R !! (dev, bno)) ->
  exists i s', bread dev bno s = Ok (i, s') /\ only_bufs s s' /\ held s' i (dev, bno) /\ keeps s s' R /\
    bio s' V (set_rc R (dev, bno) (rc R (dev, bno) + 1)) ({[(dev, bno)]} ∪ K).
Proof.
  intros Hb Hd HK Hrc Hroom. set (k := (dev, bno)) in *.
  assert (forall k', k' <> k -> (k' ∈ {[k]} ∪ K <-> k' ∈ K)) as HKo by (intros; set_solver).
  destruct (List.find (matches (bufs s) dev bno) (seq 0 NBUF)) as [i|] eqn:Ef.
  - destruct (find_first _ _ _ Ef) as (n & Hn & Hm & _). apply lookup_seq in Hn as [Ein Hn].
    assert (i < NBUF)%nat as Hi by lia. clear n Ein Hn. unfold matches in Hm.
    destruct (bufs s !! i) as [b|] eqn:Hbi; [|done]. apply andb_prop in Hm as [M1 M2]. apply Z.eqb_eq in M1, M2.
    assert (key b = k) as Hk by (unfold key, k; congruence).
    assert (held s i k) as Hh by (split; [done|by exists b]).
    pose proof (held_rc _ _ _ _ _ _ _ Hb Hh Hbi Hd) as Hrb.
    assert (0 <= b_refcnt b) as H0.
    { destruct (Z.eq_dec (b_refcnt b) 0) as [->|N]; [done|]. pose proof (bi_ref _ _ _ _ Hb i b Hi Hbi N). lia. }
    pose proof (lookup_lt_Some _ _ _ Hbi) as Hlt.
    eexists i, _. split; [eapply (bread_hit s V R K); try done; [by rewrite Hk|lia]|].
    split; [done|]. split; [split; [done|]; eexists; split; [by apply list_lookup_insert_eq|done]|]. split.
    { intros j k' _ (Hj & c & Hcj & Hkc). split; [done|]. simpl. destruct (decide (j = i)) as [->|N].
      - eexists. split; [by apply list_lookup_insert_eq|]. rewrite <- Hkc. rewrite Hbi in Hcj. by injection Hcj as <-.
      - exists c. by rewrite list_lookup_insert_ne by done. }
    eapply (bio_replace s _ V V R _ K _ i b (hit_buf (fs_pid s) b)); try done; try (simpl; lia).
    + simpl. by apply (bi_data _ _ _ _ Hb i b Hi Hbi); rewrite M1.
    + by left.
    + intros k' Hne. change (key (hit_buf (fs_pid s) b)) with (key b) in Hne. rewrite Hk in Hne.
      rewrite set_rc_ne by done. split; [done|]. split; [done|]. split; [by apply HKo|done].
    + simpl. by apply (bi_data _ _ _ _ Hb i b Hi Hbi); rewrite M1.
    + change (key (hit_buf (fs_pid s) b)) with (key b). rewrite Hk, set_rc_eq. simpl. by rewrite Hrb.
    + change (key (hit_buf (fs_pid s) b)) with (key b). rewrite Hk, decide_True by set_solver.
      pose proof (bi_locks _ _ _ _ Hb i b Hi Hbi) as HL. rewrite decide_False in HL by (by rewrite Hk). by destruct HL.
    + apply (bi_lock _ _ _ _ Hb).
    + apply cpu_wf_lockcycle, (bi_cpu _ _ _ _ Hb).
  - assert (forall j c, (j < NBUF)%nat -> bufs s !! j = Some c -> key c <> (dev, bno)) as Hno.
    { intros j c Hj Hcj Hk. pose proof (find_none_elem _ _ j Ef ltac:(apply elem_of_seq; lia)) as Hm.
      unfold matches in Hm. rewrite Hcj in Hm. unfold key in Hk. injection Hk as E1 E2. by rewrite E1, E2, !Z.eqb_refl in Hm. }
    assert (R !! k = None) as HR.
    { destruct (R !! k) as [c|] eqn:Er; [|done]. destruct (bi_refs _ _ _ _ Hb k c Er) as (j & b & Hj & Hbj & Hkj & _).
      exfalso. by apply (Hno j b). }
    assert (size R < NBUF)%nat as Hroom' by (destruct Hroom as [?|[? Hx]]; [done|by rewrite HR in Hx]).
    destruct (bread_miss s V R K dev bno Hb Hd Hno Hroom') as (l & i & b & _ & _ & _ & Hi & Hbi & Hr0 & Hrun).
    pose proof (lookup_lt_Some _ _ _ Hbi) as Hlt.
    assert (rc R k = 0) as Hrc0 by (unfold rc; by rewrite HR).
    eexists i, _. split; [exact Hrun|]. split; [done|].
    split; [split; [done|]; eexists; split; [by apply list_lookup_insert_eq|done]|]. split.
    { intros j k' [c' Hc'] (Hj & c & Hcj & Hkc). split; [done|]. simpl. destruct (decide (j = i)) as [->|N].
      - exfalso. rewrite Hbi in Hcj. injection Hcj as <-. destruct (bi_refs _ _ _ _ Hb k' c' Hc') as (j & b2 & Hj2 & Hbj & Hkj & Hrj & Hnz).
        assert (R !! key b <> None) as Hx by congruence.
        assert (b_refcnt b2 <> 0) as Hn2 by congruence. pose proof (bi_ref _ _ _ _ Hb j b2 Hj2 Hbj Hn2) as (_ & _ & Hd2).
        assert (j = i) as -> by (apply (bi_uniq _ _ _ _ Hb j i b2 b); try done; congruence). congruence.
      - exists c. by rewrite list_lookup_insert_ne by done. }
    eapply (bio_replace s _ V V R _ K _ i b (miss_buf (fs_pid s) dev bno (disk s (dev, bno)) b)); try done; try (simpl; lia).
    + right. split; [done|]. exact Hno.
    + intros k' Hne. change (key (miss_buf _ _ _ _ _)) with k in Hne.
      rewrite set_rc_ne by done. split; [done|]. split; [done|]. split; [by apply HKo|done].
    + simpl. symmetry. apply (bi_uncached _ _ _ _ Hb); [done|]. exact Hno.
    + change (key (miss_buf _ _ _ _ _)) with k. rewrite set_rc_eq, Hrc0. done.
    + change (key (miss_buf _ _ _ _ _)) with k. rewrite decide_True by set_solver.
      pose proof (bi_locks _ _ _ _ Hb i b Hi Hbi) as HL. destruct (decide (key b ∈ K)) as [HKb|]; [|by destruct HL].
      by destruct HL.
    + apply (bi_lock _ _ _ _ Hb).
    + apply cpu_wf_lockcycle, (bi_cpu _ _ _ _ Hb).
Qed.
End BioSpec.

