(* ===== verification/BioOps.v ===== *)
(** * The routines of the buffer cache on its contract

    bwrite(), brelse(), bpin(), bunpin() and changes of a buffer's contents,
    specified on [bio]. *)
From stdpp Require Import base list strings gmap.
From Stdlib Require Import ZArith Lia.
From S2P Require Import Prelude Spinlock Kalloc FsState Bio BioList BioSpec.

Definition vset (V : Z * Z -> list Z) (k : Z * Z) (d : list Z) : Z * Z -> list Z :=
  fun k' => if decide (k' = k) then d else V k'.
Lemma vset_eq V k d : vset V k d k = d.
Proof. unfold vset. by rewrite decide_True. Qed.
Lemma vset_ne V k d k' : k' <> k -> vset V k d k' = V k'.
Proof. intros. unfold vset. by rewrite decide_False. Qed.

Section BioOps.
Context {E : Type}.
Implicit Types (s : fsst E) (V : Z * Z -> list Z) (R : gmap (Z * Z) Z) (K : gset (Z * Z)).

(** [s'] differs from [s] in the buffers, the disk and the saved interrupt
    flag at most. *)
Record bframe s s' : Prop := {
  bf_rest : s' = s <| fs_cpu := fs_cpu s' |> <| bufs := bufs s' |> <| disk := disk s' |> <| dwrites := dwrites s' |>;
  bf_cpu : fs_cpu s' = fs_cpu s \/ fs_cpu s' = lockcycle (fs_cpu s)
}.
#[global] Instance bframe_preorder : PreOrder bframe.
Proof.
  split.
  - intros s. split; [by destruct s|by left].
  - intros s1 s2 s3 [H1 C1] [H2 C2]. split; [rewrite H2, H1; done|].
    destruct C1 as [C1|C1]; rewrite C1 in C2; rewrite ?lockcycle_idemp in C2; tauto.
Qed.
Lemma only_bufs_bframe s s' : only_bufs s s' -> bframe s s' /\ disk s' = disk s /\ dwrites s' = dwrites s.
Proof. intros H. rewrite H. split; [split; [by destruct s|by right]|done]. Qed.

Lemma bframe_slog s s' : bframe s s' -> slog s' = slog s.
Proof. intros [-> _]. done. Qed.
Lemma bframe_pid s s' : bframe s s' -> fs_pid s' = fs_pid s.
Proof. intros [-> _]. done. Qed.

(** The same buffers cache the same blocks. *)
Definition same_held s s' : Prop := forall j k, held s' j k <-> held s j k.

Lemma same_held_insert s s' i b b' :
  bufs s !! i = Some b -> bufs s' = <[i := b']> (bufs s) -> key b' = key b -> same_held s s'.
Proof.
  intros Hb Hs Hk j k. pose proof (lookup_lt_Some _ _ _ Hb) as Hlt. unfold held. rewrite Hs.
  destruct (decide (j = i)) as [->|N]; [|by rewrite list_lookup_insert_ne].
  rewrite list_lookup_insert_eq, Hb by done. split; intros (Hj & c & Hc & Hkc); (split; [done|]);
    injection Hc as <-; eexists; (split; [done|congruence]).
Qed.

Lemma held_locked s V R K i k :
  bio s V R K -> held s i k -> k ∈ K ->
  exists b, bufs s !! i = Some b /\ key b = k /\ (i < NBUF)%nat /\ b_refcnt b = rc R k /\ 0 < b_refcnt b < 2 ^ 32 /\
    b_dev b <> 0 /\ b_valid b <> 0 /\ b_data b = V k /\ sl_mine (fs_pid s) (b_lock b) /\ k.1 <> 0.
Proof.
  intros Hb Hh HK. destruct (bi_K _ _ _ _ Hb k HK) as [[c Hc] Hd]. pose proof Hh as (Hi & b & Hbi & Hk). exists b.
  pose proof (held_rc _ _ _ _ _ _ _ Hb Hh Hbi Hd) as Hrc.
  assert (b_refcnt b <> 0) as Hn.
  { destruct (bi_refs _ _ _ _ Hb k c Hc) as (j & b2 & Hj & Hbj & Hkj & Hr & Hnz).
    assert (j = i) as -> by (eapply (held_inj s V R K j i k); try done; split; [done|by exists b2]). congruence. }
  destruct (bi_ref _ _ _ _ Hb i b Hi Hbi Hn) as (_ & Hrange & Hdev).
  destruct (bi_data _ _ _ _ Hb i b Hi Hbi Hdev) as [Hv Hdat].
  pose proof (bi_locks _ _ _ _ Hb i b Hi Hbi) as HL. rewrite decide_True in HL by (by rewrite Hk).
  rewrite Hk in Hdat. done.
Qed.

Lemma get_held s V R K i k :
  bio s V R K -> held s i k -> k ∈ K ->
  exists b, get_buf i s = Ok (b, s) /\ b_data b = V k /\ b_blockno b = k.2 /\ b_dev b = k.1.
Proof.
  intros Hb Hh HK. destruct (held_locked _ _ _ _ _ _ Hb Hh HK) as (b & Hbi & Hk & _ & _ & _ & _ & _ & Hd & _).
  exists b. split; [by apply get_buf_ok|]. split; [done|]. by rewrite <- Hk.
Qed.

(** The process changes the contents of a buffer it has locked. *)
Lemma bio_upd_data s V R K i k (g : buf -> buf) f :
  bio s V R K -> held s i k -> k ∈ K -> (forall b, g b = b <| b_data := f (b_data b) |>) ->
  exists s', upd_buf i g s = Ok (tt, s') /\ s' = s <| bufs := bufs s' |> /\
    same_held s s' /\ bio s' (vset V k (f (V k))) R K.
Proof.
  intros Hb Hh HK Hg. destruct (held_locked _ _ _ _ _ _ Hb Hh HK) as (b & Hbi & Hk & Hi & Hrc & Hr0 & Hd & Hv & Hdat & HL & Hd1).
  pose proof (lookup_lt_Some _ _ _ Hbi) as Hlt.
  assert (bufs s !! i = Some b) as Hbi' by done.
  unfold upd_buf. rewrite Hbi. eexists. split; [reflexivity|]. split; [done|].
  split; [eapply same_held_insert; [done|reflexivity|]; by rewrite Hg|]. rewrite Hg.
  assert (key (b <| b_data := f (b_data b) |>) = k) as Hk' by done.
  eapply (bio_replace s _ V _ R R K K i b); try done; rewrite ?Hk'.
  - by left.
  - intros k' Hne. by rewrite vset_ne.
  - rewrite vset_eq. by rewrite <- Hdat.
  - simpl. lia.
  - simpl. rewrite Hrc, (proj2 (Z.eqb_neq _ _)) by lia. apply rc_pos_inv. lia.
  - simpl. lia.
  - by rewrite decide_True.
  - intros _. simpl. lia.
  - apply (bi_lock _ _ _ _ Hb).
  - apply (bi_cpu _ _ _ _ Hb).
Qed.

(** A cache state with another value of the saved interrupt flag. *)
Lemma bio_cpu s V R K : bio s V R K -> bio (s <| fs_cpu := lockcycle (fs_cpu s) |>) V R K.
Proof.
  intros [A1 A2 A3 A4 A5 A6 A7 A8 A9 A10 A11 A12]. split; try done. by apply cpu_wf_lockcycle.
Qed.

Lemma holdingsleep_held s V R K i k :
  bio s V R K -> held s i k -> k ∈ K ->
  buf_holdingsleep i s = Ok (true, s <| fs_cpu := lockcycle (fs_cpu s) |>).
Proof.
  intros Hb Hh HK. destruct (held_locked _ _ _ _ _ _ Hb Hh HK) as (b & Hbi & Hk & Hi & Hrc & Hr0 & Hd & Hv & Hdat & HL & Hd1).
  unfold buf_holdingsleep. rewrite (mbind_Ok _ _ _ _ _ (get_buf_ok _ _ _ Hbi)). unfold mbind at 1.
  destruct HL as (HL1 & HL2 & HL3). rewrite holdingsleep_ok by (try done; apply (bi_cpu _ _ _ _ Hb)).
  cbn [obind fst snd]. rewrite mbind_modify, HL2, HL3, Z.eqb_refl.
  unfold mbind at 1. unfold upd_buf. simpl. rewrite Hbi. simpl. unfold mret. do 2 f_equal.
  rewrite list_insert_id by (rewrite Hbi; by destruct b). by destruct s.
Qed.

(** bwrite() sends the buffer to the disk. *)
Lemma bio_bwrite s V R K i k :
  bio s V R K -> held s i k -> k ∈ K ->
  exists s', bwrite i s = Ok (tt, s') /\ bframe s s' /\ same_held s s' /\
    disk s' = vset (disk s) k (V k) /\ dwrites s' = dwrites s ++ [(k, V k)] /\ bio s' V R K.
Proof.
  intros Hb Hh HK. destruct (held_locked _ _ _ _ _ _ Hb Hh HK) as (b & Hbi & Hk & Hi & Hrc & Hr0 & Hd & Hv & Hdat & HL & Hd1).
  unfold bwrite. rewrite (mbind_Ok _ _ _ _ _ (holdingsleep_held _ _ _ _ _ _ Hb Hh HK)). cbn [negb].
  unfold virtio_disk_rw. set (s1 := s <| fs_cpu := _ |>).
  assert (get_buf i s1 = Ok (b, s1)) as Hg by (apply get_buf_ok; done).
  rewrite (mbind_Ok _ _ _ _ _ Hg). change (1 =? 0) with false. cbv iota zeta.
  change (b_dev b, b_blockno b) with (key b). rewrite Hk, Hdat.
  eexists. split; [reflexivity|]. split; [split; [by destruct s|by right]|]. split; [done|].
  split; [done|]. split; [done|].
  pose proof (lookup_lt_Some _ _ _ Hbi) as Hlt.
  eapply (bio_replace s _ V V R R K K i b b); try done.
  - simpl. by rewrite list_insert_id.
  - by left.
  - intros k' Hne. rewrite Hk in Hne. split; [done|]. split; [done|]. split; [done|]. simpl. by rewrite decide_False.
  - by rewrite Hk.
  - lia.
  - rewrite Hk, Hrc, (proj2 (Z.eqb_neq _ _)) by lia. apply rc_pos_inv. lia.
  - intros _. simpl. rewrite Hk. by rewrite decide_True.
  - rewrite Hk. by rewrite decide_True.
  - lia.
  - apply (bi_lock _ _ _ _ Hb).
  - apply cpu_wf_lockcycle, (bi_cpu _ _ _ _ Hb).
Qed.
(** The reference count of a locked block becomes [c]. *)
Lemma bio_set_count s V R K i k c :
  bio s V R K -> held s i k -> k ∈ K -> 0 < c < 2 ^ 32 ->
  let s' := s <| fs_cpu := lockcycle (fs_cpu s) |> <| bufs := alter (fun b => b <| b_refcnt := c |>) i (bufs s) |> in
  same_held s s' /\ bio s' V (set_rc R k c) K.
Proof.
  intros Hb Hh HK Hc s'. destruct (held_locked _ _ _ _ _ _ Hb Hh HK) as (b & Hbi & Hk & Hi & Hrc & Hr0 & Hd & Hv & Hdat & HL & Hd1).
  pose proof (lookup_lt_Some _ _ _ Hbi) as Hlt.
  assert (bufs s' = <[i := b <| b_refcnt := c |>]> (bufs s)) as Hs by (unfold s'; simpl; by rewrite <- (insert_as_alter _ _ _ _ Hbi)).
  assert (key (b <| b_refcnt := c |>) = k) as Hk' by done.
  split; [eapply same_held_insert; [exact Hbi|exact Hs|congruence]|].
  eapply (bio_replace s _ V V R _ K K i b); try exact Hs; try done; rewrite ?Hk'.
  - by left.
  - intros k' Hne. by rewrite set_rc_ne.
  - done.
  - simpl. lia.
  - apply set_rc_eq.
  - simpl. lia.
  - by rewrite decide_True.
  - intros _. simpl. lia.
  - apply (bi_lock _ _ _ _ Hb).
  - apply cpu_wf_lockcycle, (bi_cpu _ _ _ _ Hb).
Qed.

(** bpin() and bunpin() on a block that is locked. *)
Lemma bio_count s V R K i k d :
  bio s V R K -> held s i k -> k ∈ K -> 0 < rc R k + d < 2 ^ 32 ->
  exists s', (acquire_bcache ;;; upd_buf i (fun b => b <| b_refcnt ::= fun c => u32 (c + d) |>) ;;; release_bcache) s = Ok (tt, s') /\
    bframe s s' /\ disk s' = disk s /\ dwrites s' = dwrites s /\ same_held s s' /\
    bio s' V (set_rc R k (rc R k + d)) K.
Proof.
  intros Hb Hh HK Hc. destruct (held_locked _ _ _ _ _ _ Hb Hh HK) as (b & Hbi & Hk & Hi & Hrc & Hr0 & Hd & Hv & Hdat & HL & Hd1).
  destruct (bcache_cycle s (bi_lock _ _ _ _ Hb) (bi_cpu _ _ _ _ Hb)) as (s1 & H1 & B1 & H2).
  rewrite (mbind_Ok _ _ _ _ _ H1). assert (bufs s1 !! i = Some b) as Hb1 by (by rewrite B1).
  rewrite (mbind_Ok _ _ _ _ _ (upd_buf_ok _ _ _ _ Hb1)), H2, B1.
  eexists. split; [reflexivity|]. split; [split; [by destruct s|by right]|]. split; [done|]. split; [done|].
  rewrite <- (insert_as_alter _ _ _ _ Hbi).
  replace (b <| b_refcnt ::= fun c => u32 (c + d) |>) with (b <| b_refcnt := rc R k + d |>)
    by (unfold update; simpl; rewrite Hrc, u32_small by lia; done).
  rewrite (insert_as_alter (fun b => b <| b_refcnt := rc R k + d |>) _ _ _ Hbi).
  by apply (bio_set_count s V R K i k).
Qed.

Lemma bio_bpin s V R K i k :
  bio s V R K -> held s i k -> k ∈ K -> rc R k < 2 ^ 32 - 1 ->
  exists s', bpin i s = Ok (tt, s') /\ bframe s s' /\ disk s' = disk s /\ dwrites s' = dwrites s /\ same_held s s' /\
    bio s' V (set_rc R k (rc R k + 1)) K.
Proof.
  intros Hb Hh HK Hc. destruct (held_locked _ _ _ _ _ _ Hb Hh HK) as (b & _ & _ & _ & Hrc & Hr0 & _).
  apply (bio_count s V R K i k 1); try done. lia.
Qed.
Lemma bio_bunpin s V R K i k :
  bio s V R K -> held s i k -> k ∈ K -> 1 < rc R k ->
  exists s', bunpin i s = Ok (tt, s') /\ bframe s s' /\ disk s' = disk s /\ dwrites s' = dwrites s /\ same_held s s' /\
    bio s' V (set_rc R k (rc R k - 1)) K.
Proof.
  intros Hb Hh HK Hc. destruct (held_locked _ _ _ _ _ _ Hb Hh HK) as (b & _ & _ & _ & Hrc & Hr0 & _).
  apply (bio_count s V R K i k (-1)); try done. lia.
Qed.

(** ** brelse() *)

(** Two lists of buffers that differ in their pointers at most. *)
Definition relinked (bs bs' : list buf) : Prop :=
  length bs' = length bs /\
  forall i b', bs' !! i = Some b' ->
    exists b, bs !! i = Some b /\ b' = b <| b_prev := b_prev b' |> <| b_next := b_next b' |>.

Lemma relinked_refl bs : relinked bs bs.
Proof. split; [done|]. intros i b Hb. exists b. split; [done|]. by destruct b. Qed.
Lemma relinked_trans bs1 bs2 bs3 : relinked bs1 bs2 -> relinked bs2 bs3 -> relinked bs1 bs3.
Proof.
  intros [L1 H1] [L2 H2]. split; [congruence|]. intros i b3 Hb3. destruct (H2 i b3 Hb3) as (b2 & Hb2 & E2).
  destruct (H1 i b2 Hb2) as (b1 & Hb1 & E1). exists b1. split; [done|]. rewrite E2, E1. done.
Qed.
Lemma relinked_alter bs i f :
  (forall b, f b = b <| b_prev := b_prev (f b) |> <| b_next := b_next (f b) |>) -> relinked bs (alter f i bs).
Proof.
  intros Hf. split; [apply length_alter|]. intros j b' Hb'. destruct (decide (j = i)) as [->|N].
  - rewrite list_lookup_alter_eq in Hb'. destruct (bs !! i) as [b|]; [|done]. injection Hb' as <-. by exists b.
  - rewrite list_lookup_alter_ne in Hb' by done. exists b'. split; [done|]. by destruct b'.
Qed.

Lemma bio_relink s s' V R K :
  bio s V R K -> s' = s <| bufs := bufs s' |> -> relinked (bufs s) (bufs s') ->
  (exists l, l ≡ₚ seq 0 NBUF /\ dseg (bufs s') NBUF l NBUF) -> bio s' V R K.
Proof.
  intros [A1 A2 A3 A4 A5 A6 A7 A8 A9 A10 A11 A12] Hs [Hlen Hrel] Hl.
  assert (disk s' = disk s /\ fs_pid s' = fs_pid s /\ bcache_lock s' = bcache_lock s /\ fs_cpu s' = fs_cpu s) as (D & P & L & C)
    by (rewrite Hs; done).
  assert (forall i b', bufs s' !! i = Some b' -> exists b, bufs s !! i = Some b /\ key b' = key b /\ b_dev b' = b_dev b /\
    b_refcnt b' = b_refcnt b /\ b_valid b' = b_valid b /\ b_data b' = b_data b /\ b_lock b' = b_lock b) as Hx.
  { intros i b' Hb'. destruct (Hrel i b' Hb') as (b & Hb & Heq). exists b. split; [done|]. rewrite Heq. done. }
  assert (forall i b, bufs s !! i = Some b -> exists b', bufs s' !! i = Some b' /\ key b' = key b /\ b_refcnt b' = b_refcnt b) as Hy.
  { intros i b Hb. destruct (lookup_lt_is_Some_2 (bufs s') i) as [b' Hb']; [rewrite Hlen; by eapply lookup_lt_Some|].
    exists b'. split; [done|]. destruct (Hx i b' Hb') as (b2 & Hb2 & Hk & _ & Hr & _). rewrite Hb in Hb2. by injection Hb2 as <-. }
  split; rewrite ?D, ?P, ?L, ?C; try done.
  - congruence.
  - intros i j b c Hi Hj Hb Hc Hk Hd. destruct (Hx i b Hb) as (b0 & Hb0 & Kb & Db & _), (Hx j c Hc) as (c0 & Hc0 & Kc & _).
    apply (A5 i j b0 c0); try done; congruence.
  - intros i b Hi Hb Hr. destruct (Hx i b Hb) as (b0 & Hb0 & -> & -> & Hr0 & _). rewrite Hr0 in *. by apply (A6 i b0).
  - intros k c Hk. destruct (A7 k c Hk) as (i & b & Hi & Hb & Kb & Hr & Hc). destruct (Hy i b Hb) as (b' & Hb' & K' & R').
    exists i, b'. rewrite K', R'. done.
  - intros i b Hi Hb Hd. destruct (Hx i b Hb) as (b0 & Hb0 & -> & Db & _ & -> & -> & _). apply (A8 i b0); congruence.
  - intros k Hk1 Hk. apply A9; [done|]. intros i b Hi Hb Heq. destruct (Hy i b Hb) as (b' & Hb' & K' & _).
    apply (Hk i b'); congruence.
  - intros i b Hi Hb Hr Hd. destruct (Hx i b Hb) as (b0 & Hb0 & -> & Db & Rb & _). apply (A10 i b0); congruence.
  - intros i b Hi Hb. destruct (Hx i b Hb) as (b0 & Hb0 & -> & _ & _ & _ & _ & ->). by apply (A11 i b0).
Qed.
Lemma relinked_held s s' : relinked (bufs s) (bufs s') -> same_held s s'.
Proof.
  intros [Hlen Hrel] j k. unfold held. split; intros (Hj & b & Hb & Hk); (split; [done|]).
  - destruct (Hrel j b Hb) as (b0 & Hb0 & Heq). exists b0. split; [done|]. rewrite <- Hk, Heq. done.
  - destruct (lookup_lt_is_Some_2 (bufs s') j) as [b' Hb']; [rewrite Hlen; by eapply lookup_lt_Some|].
    exists b'. split; [done|]. destruct (Hrel j b' Hb') as (b0 & Hb0 & Heq). rewrite Heq, Hb in *.
    injection Hb0 as ->. done.
Qed.
(** The reference count is 0: the buffer moves to the front of the list. *)
Definition brelse_link (i : nat) : M (fsst E) unit :=
  let* b := get_buf i in
  upd_buf (b_next b) (fun n => n <| b_prev := b_prev b |>) ;;;
  let* b := get_buf i in
  upd_buf (b_prev b) (fun p => p <| b_next := b_next b |>) ;;;
  let* h := get_buf NBUF in
  upd_buf i (fun b => b <| b_next := b_next h |>) ;;;
  upd_buf i (fun b => b <| b_prev := NBUF |>) ;;;
  let* h := get_buf NBUF in
  upd_buf (b_next h) (fun n => n <| b_prev := i |>) ;;;
  upd_buf NBUF (fun h => h <| b_next := i |>).

Lemma get_ptrs s bs i p n :
  nxt bs i = Some n -> prv bs i = Some p ->
  exists b, get_buf i (s <| bufs := bs |>) = Ok (b, s <| bufs := bs |>) /\ b_next b = n /\ b_prev b = p.
Proof.
  unfold nxt, prv. destruct (bs !! i) as [b|] eqn:Eb; [|done]. intros Hn Hp. exists b.
  split; [by apply get_buf_ok|]. by injection Hn as ->; injection Hp as ->.
Qed.
Lemma get_next s bs i n :
  nxt bs i = Some n -> exists b, get_buf i (s <| bufs := bs |>) = Ok (b, s <| bufs := bs |>) /\ b_next b = n.
Proof.
  unfold nxt. destruct (bs !! i) as [b|] eqn:Eb; [|done]. intros Hn. exists b.
  split; [by apply get_buf_ok|]. by injection Hn as ->.
Qed.
Lemma upd_next {B} (k : unit -> M (fsst E) B) s bs i v :
  (i < length bs)%nat ->
  (mbind (upd_buf i (fun b => b <| b_next := v |>)) k) (s <| bufs := bs |>) = k tt (s <| bufs := set_next i v bs |>).
Proof.
  intros Hi. destruct (lookup_lt_is_Some_2 _ _ Hi) as [b Hb].
  assert (bufs (s <| bufs := bs |>) !! i = Some b) as Hb' by done. by rewrite (mbind_Ok _ _ _ _ _ (upd_buf_ok _ _ _ _ Hb')).
Qed.
Lemma upd_prev {B} (k : unit -> M (fsst E) B) s bs i v :
  (i < length bs)%nat ->
  (mbind (upd_buf i (fun b => b <| b_prev := v |>)) k) (s <| bufs := bs |>) = k tt (s <| bufs := set_prev i v bs |>).
Proof.
  intros Hi. destruct (lookup_lt_is_Some_2 _ _ Hi) as [b Hb].
  assert (bufs (s <| bufs := bs |>) !! i = Some b) as Hb' by done. by rewrite (mbind_Ok _ _ _ _ _ (upd_buf_ok _ _ _ _ Hb')).
Qed.

Lemma brelse_link_ok s l i :
  l ≡ₚ seq 0 NBUF -> dseg (bufs s) NBUF l NBUF -> length (bufs s) = S NBUF -> (i < NBUF)%nat ->
  exists bs, brelse_link i s = Ok (tt, s <| bufs := bs |>) /\ relinked (bufs s) bs /\
    exists l1 l2, l = l1 ++ i :: l2 /\ dseg bs NBUF (i :: l1 ++ l2) NBUF.
Proof.
  intros Hl Hs Hlen Hi.
  assert (i ∈ l) as Hil by (rewrite Hl, elem_of_seq; lia).
  apply list_elem_of_split in Hil as (l1 & l2 & ->).
  assert (NoDup (l1 ++ i :: l2)) as Hnd by (rewrite Hl; apply NoDup_seq).
  assert (forall j, j ∈ l1 ++ i :: l2 -> (j < NBUF)%nat) as Hlt by (intros j Hj; rewrite Hl, elem_of_seq in Hj; lia).
  assert (NBUF ∉ l1 ++ i :: l2) as Hnb by (intros Hx; apply Hlt in Hx; lia).
  set (p := List.last l1 NBUF). set (n := hd NBUF l2).
  assert (p < S NBUF)%nat as Hp.
  { destruct l1 as [|x l1 _] using rev_ind; [unfold p; simpl; lia|]. unfold p. rewrite List.last_last.
    assert (x < NBUF)%nat; [|lia]. apply Hlt. set_solver. }
  assert (n < S NBUF)%nat as Hn.
  { destruct l2 as [|x l2]; [unfold n; simpl; lia|]. unfold n. simpl. assert (x < NBUF)%nat; [|lia]. apply Hlt. set_solver. }
  assert (i <> NBUF) as Hin by lia.
  apply NoDup_app in Hnd as (Hnd1 & Hdis & Hnd2). apply NoDup_cons in Hnd2 as [Hi2 Hnd2].
  assert (i <> p) as Nip.
  { destruct l1 as [|x l1 _] using rev_ind; [done|]. unfold p. rewrite List.last_last. intros ->. apply (Hdis x); set_solver. }
  assert (i <> n) as Nin by (unfold n; destruct l2; [done|]; simpl; set_solver).
  pose proof Hs as Hs0. apply dseg_app in Hs0 as [D1 D2].
  pose proof (dseg_last _ _ _ _ D1) as [P1 _]. pose proof (dseg_first _ _ _ _ D2) as [N1 _]. fold p in P1. fold n in N1.
  set (bs1 := set_prev n p (bufs s)). set (bs2 := set_next p n bs1).
  assert (length bs1 = S NBUF) as L1 by (unfold bs1; by rewrite length_set_prev).
  assert (length bs2 = S NBUF) as L2 by (unfold bs2; by rewrite length_set_next).
  assert (dseg bs2 NBUF (l1 ++ l2) NBUF) as Hs2.
  { apply (dseg_unlink (bufs s) NBUF l1 i l2 NBUF); [done| | |].
    - apply NoDup_cons. split; [done|]. rewrite Hl. apply NoDup_seq.
    - assert (NoDup ((l1 ++ i :: l2) ++ [NBUF])) as Hx.
      { apply NoDup_app. split; [rewrite Hl; apply NoDup_seq|]. split; [|apply NoDup_singleton].
        intros x Hx1 Hx2. apply list_elem_of_singleton in Hx2 as ->. done. }
      by rewrite <- app_assoc in Hx.
    - intros j Hj. rewrite Hlen. assert (j = NBUF \/ j ∈ l1 ++ i :: l2) as [->|Hj'] by set_solver; [lia|].
      apply Hlt in Hj'. lia. }
  set (q := hd NBUF (l1 ++ l2)). pose proof (dseg_first _ _ _ _ Hs2) as [F1 _]. fold q in F1.
  assert (q < S NBUF)%nat as Hf.
  { unfold q. destruct (l1 ++ l2) as [|x l] eqn:El; [simpl; lia|]. simpl. assert (x < NBUF)%nat; [|lia].
    apply Hlt. assert (x ∈ l1 ++ l2) by (rewrite El; by left). set_solver. }
  set (bs3 := set_next i q bs2). set (bs4 := set_prev i NBUF bs3). set (bs5 := set_prev q i bs4).
  exists (set_next NBUF i bs5). split; [|split].
  - transitivity (brelse_link i (s <| bufs := bufs s |>)); [by destruct s|]. unfold brelse_link.
    destruct (get_ptrs s (bufs s) i p n N1 P1) as (b & Hg & En & Ep).
    rewrite (mbind_Ok _ _ _ _ _ Hg), En, Ep, upd_prev by (by rewrite Hlen).
    change (set_prev n p (bufs s)) with bs1.
    assert (nxt bs1 i = Some n) as N1' by (unfold bs1; by rewrite nxt_set_prev by (by rewrite Hlen)).
    assert (prv bs1 i = Some p) as P1'.
    { unfold bs1. rewrite prv_set_prev by (by rewrite Hlen). by rewrite decide_False. }
    destruct (get_ptrs s bs1 i p n N1' P1') as (b' & Hg' & En' & Ep').
    rewrite (mbind_Ok _ _ _ _ _ Hg'), En', Ep', upd_next by (by rewrite L1).
    change (set_next p n bs1) with bs2.
    destruct (get_next s bs2 NBUF q F1) as (h & Hh & Eh).
    rewrite (mbind_Ok _ _ _ _ _ Hh), Eh, upd_next by (rewrite L2; lia). change (set_next i q bs2) with bs3.
    assert (length bs3 = S NBUF) as L3 by (unfold bs3; by rewrite length_set_next).
    rewrite upd_prev by (rewrite L3; lia). change (set_prev i NBUF bs3) with bs4.
    assert (length bs4 = S NBUF) as L4 by (unfold bs4; by rewrite length_set_prev).
    assert (nxt bs4 NBUF = Some q) as N4.
    { unfold bs4. rewrite nxt_set_prev by (rewrite L3; lia). unfold bs3.
      rewrite nxt_set_next by (rewrite L2; lia). by rewrite decide_False. }
    destruct (get_next s bs4 NBUF q N4) as (h' & Hh' & Eh').
    rewrite (mbind_Ok _ _ _ _ _ Hh'), Eh', upd_prev by (rewrite L4; lia). change (set_prev q i bs4) with bs5.
    assert (length bs5 = S NBUF) as L5 by (unfold bs5; by rewrite length_set_prev).
    destruct (lookup_lt_is_Some_2 bs5 NBUF) as [h5 Hh5]; [rewrite L5; lia|].
    assert (bufs (s <| bufs := bs5 |>) !! NBUF = Some h5) as Hb5 by done. by rewrite (upd_buf_ok _ _ _ _ Hb5).
  - unfold bs5, bs4, bs3, bs2, bs1, set_next, set_prev.
    repeat (eapply relinked_trans; [|apply relinked_alter; by intros []]). apply relinked_refl.
  - exists l1, l2. split; [done|].
    assert (NoDup (l1 ++ l2)) as Hnd by (apply NoDup_app; set_solver).
    assert (forall j, j ∈ l1 ++ l2 -> (j < NBUF)%nat /\ j <> i) as Hjl.
    { intros j Hj. split; [apply Hlt; set_solver|]. intros ->. apply elem_of_app in Hj as [Hj|Hj]; [|done].
      apply (Hdis i Hj). by left. }
    assert (NBUF ∉ l1 ++ l2) as Hnb2 by (intros Hx; apply Hjl in Hx; lia).
    unfold bs5, bs4, bs3. apply (dseg_push bs2 NBUF i (l1 ++ l2) NBUF Hs2).
    + by apply NoDup_cons.
    + apply NoDup_app. split; [done|]. split; [|apply NoDup_singleton].
      intros x Hx1 Hx2. apply list_elem_of_singleton in Hx2 as ->. done.
    + apply not_elem_of_cons. split; [done|]. intros Hx. apply Hjl in Hx; tauto.
    + apply not_elem_of_app. split; [intros Hx; apply Hjl in Hx; tauto|]. by apply not_elem_of_cons; split; [|apply not_elem_of_nil].
    + intros j Hj. rewrite L2. rewrite app_comm_cons in Hj. apply elem_of_app in Hj as [Hj|Hj].
      * apply elem_of_cons in Hj as [->|Hj]; [lia|]. apply Hjl in Hj. lia.
      * apply list_elem_of_singleton in Hj. lia.
    + rewrite L2. lia.
Qed.
Definition release_buf (b : buf) : buf :=
  b <| b_refcnt := b_refcnt b - 1 |> <| b_lock ::= fun l => l <| sl_locked := 0 |> <| sl_pid := 0 |> |>.

Lemma bio_released s V R K i k b :
  bio s V R K -> held s i k -> k ∈ K -> bufs s !! i = Some b -> (rc R k = 1 -> V k = disk s k) ->
  let s' := s <| fs_cpu := lockcycle (fs_cpu s) |> <| bufs := <[i := release_buf b]> (bufs s) |> in
  same_held s s' /\ bio s' V (set_rc R k (rc R k - 1)) (K ∖ {[k]}).
Proof.
  intros Hb Hh HK Hbi0 Hclean s'. destruct (held_locked _ _ _ _ _ _ Hb Hh HK) as (b' & Hbi & Hk & Hi & Hrc & Hr0 & Hd & Hv & Hdat & HL & Hd1).
  rewrite Hbi0 in Hbi. injection Hbi as <-.
  assert (key (release_buf b) = k) as Hk' by done.
  split; [eapply same_held_insert; [exact Hbi0|reflexivity|congruence]|].
  eapply (bio_replace s _ V V R _ K _ i b (release_buf b)); try done; rewrite ?Hk'.
  - by left.
  - intros k' Hne. rewrite set_rc_ne by done. split; [done|]. split; [done|]. split; [set_solver|done].
  - done.
  - simpl. lia.
  - simpl. rewrite Hrc. apply set_rc_eq.
  - simpl. intros. apply Hclean. lia.
  - rewrite decide_False by set_solver. by destruct HL.
  - set_solver.
  - apply (bi_lock _ _ _ _ Hb).
  - apply cpu_wf_lockcycle, (bi_cpu _ _ _ _ Hb).
Qed.

Lemma releasesleep_held s V R K i k b :
  bio s V R K -> held s i k -> k ∈ K -> bufs s !! i = Some b ->
  buf_releasesleep i s = Ok (tt, s <| fs_cpu := lockcycle (fs_cpu s) |>
    <| bufs := <[i := b <| b_lock ::= fun l => l <| sl_locked := 0 |> <| sl_pid := 0 |> |>]> (bufs s) |>).
Proof.
  intros Hb Hh HK Hbi0. destruct (held_locked _ _ _ _ _ _ Hb Hh HK) as (b' & Hbi & Hk & Hi & Hrc & Hr0 & Hd & Hv & Hdat & HL & Hd1).
  rewrite Hbi0 in Hbi. injection Hbi as <-. unfold buf_releasesleep. rewrite (mbind_Ok _ _ _ _ _ (get_buf_ok _ _ _ Hbi0)).
  unfold mbind at 1. rewrite (releasesleep_ok _ (fs_pid s)) by (try done; apply (bi_cpu _ _ _ _ Hb)).
  cbn [obind fst snd]. rewrite mbind_modify. unfold upd_buf. simpl. rewrite Hbi0. done.
Qed.

(** brelse() gives up the lock and a reference; a buffer without references
    has the contents of the disk, and is the next in line for reuse last. *)
Lemma bio_brelse s V R K i k :
  bio s V R K -> held s i k -> k ∈ K -> (rc R k = 1 -> V k = disk s k) ->
  exists s', brelse i s = Ok (tt, s') /\ bframe s s' /\ disk s' = disk s /\ dwrites s' = dwrites s /\ same_held s s' /\
    bio s' V (set_rc R k (rc R k - 1)) (K ∖ {[k]}).
Proof.
  intros Hb Hh HK Hclean. destruct (held_locked _ _ _ _ _ _ Hb Hh HK) as (b & Hbi & Hk & Hi & Hrc & Hr0 & Hd & Hv & Hdat & HL & Hd1).
  pose proof (lookup_lt_Some _ _ _ Hbi) as Hlt.
  destruct (bio_released _ _ _ _ _ _ _ Hb Hh HK Hbi Hclean) as [HsameM HbioM]. set (sM := s <| fs_cpu := _ |> <| bufs := _ |>) in *.
  set (b1 := b <| b_lock ::= fun l => l <| sl_locked := 0 |> <| sl_pid := 0 |> |>).
  set (sR := s <| fs_cpu := lockcycle (fs_cpu s) |> <| bufs := <[i := b1]> (bufs s) |>).
  assert (buf_releasesleep i (s <| fs_cpu := lockcycle (fs_cpu s) |>) = Ok (tt, sR)) as Hrel.
  { rewrite (releasesleep_held _ V R K i k b (bio_cpu _ _ _ _ Hb) Hh HK Hbi). unfold sR. simpl. by rewrite lockcycle_idemp. }
  destruct (bcache_cycle sR (bi_lock _ _ _ _ Hb) (cpu_wf_lockcycle _ (bi_cpu _ _ _ _ Hb))) as (s1 & H1 & B1 & H2).
  assert (bufs s1 !! i = Some b1) as Hb1 by (rewrite B1; by apply list_lookup_insert_eq).
  set (b2 := release_buf b). set (s2 := s1 <| bufs := <[i := b2]> (bufs s) |>).
  assert (upd_buf i (fun b => b <| b_refcnt ::= fun c => u32 (c - 1) |>) s1 = Ok (tt, s2)) as Hupd.
  { rewrite (upd_buf_ok _ _ _ _ Hb1). unfold s2. do 4 f_equal. rewrite B1. simpl. rewrite alter_insert_eq by done.
    unfold b2, b1, release_buf, update. simpl. rewrite u32_small by lia. done. }
  assert (bufs s2 !! i = Some b2) as Hb2 by (by apply list_lookup_insert_eq).
  unfold brelse. rewrite (mbind_Ok _ _ _ _ _ (holdingsleep_held _ _ _ _ _ _ Hb Hh HK)). cbn [negb].
  rewrite (mbind_Ok _ _ _ _ _ Hrel), (mbind_Ok _ _ _ _ _ H1), (mbind_Ok _ _ _ _ _ Hupd).
  rewrite (mbind_Ok _ _ _ _ _ (get_buf_ok _ _ _ Hb2)). change (b_refcnt b2) with (b_refcnt b - 1).
  assert (forall bs, s <| fs_cpu := lockcycle (fs_cpu s) |> <| bufs := bs |> = sR <| fs_cpu := lockcycle (fs_cpu sR) |> <| bufs := bs |>) as Hfin
    by (intros; unfold sR; simpl; by rewrite lockcycle_idemp).
  destruct (b_refcnt b - 1 =? 0) eqn:Ez.
  - destruct (bi_list _ _ _ _ HbioM) as (l & Hl & Hs). assert (bufs sM = bufs s2) as Ebs by done. rewrite Ebs in Hs.
    destruct (brelse_link_ok s2 l i Hl Hs) as (bs & Hlink & Hrl & l1 & l2 & -> & Hs'); [|done|].
    { rewrite <- Ebs. apply (bi_len _ _ _ _ HbioM). }
    unfold brelse_link in Hlink. rewrite (mbind_Ok _ _ _ _ _ (get_buf_ok _ _ _ Hb2)) in Hlink.
    rewrite (mbind_Ok _ _ _ _ _ Hlink). unfold s2. change (s1 <| bufs := _ |> <| bufs := bs |>) with (s1 <| bufs := bs |>).
    rewrite H2, <- Hfin. eexists. split; [reflexivity|]. split; [split; [by destruct s|by right]|]. split; [done|]. split; [done|].
    split.
    + intros j k'. rewrite <- (HsameM j k'). by apply relinked_held.
    + eapply (bio_relink sM); [done|done|done|]. exists (i :: l1 ++ l2). split; [|done]. by rewrite <- Hl, Permutation_middle.
  - rewrite mbind_ret. unfold s2. rewrite H2, <- Hfin. eexists. split; [reflexivity|].
    split; [split; [by destruct s|by right]|]. done.
Qed.
End BioOps.

(** ** The cache after boot *)

(** The buffers of the .bss segment. *)
Definition zero_buf : buf :=
  {| b_valid := 0; b_dev := 0; b_blockno := 0; b_lock := initsleeplock ""; b_refcnt := 0;
     b_prev := 0; b_next := 0; b_data := repeat 0 (Z.to_nat BSIZE) |}.
Definition boot_buf (i : nat) : buf :=
  zero_buf <| b_lock := initsleeplock "buffer" |> <| b_prev := if (i =? 29)%nat then NBUF else S i |>
    <| b_next := if (i =? 0)%nat then NBUF else (i - 1)%nat |>.
Definition boot_bufs : list buf :=
  map boot_buf (seq 0 NBUF) ++ [zero_buf <| b_prev := O |> <| b_next := 29%nat |>].

Section Boot.
Context {E : Type}.
Implicit Types s : fsst E.

Lemma upd_buf_bs s bs i f b :
  bs !! i = Some b -> upd_buf i f (s <| bufs := bs |>) = Ok (tt, s <| bufs := <[i := f b]> bs |>).
Proof. intros Hb. unfold upd_buf. simpl. rewrite Hb. done. Qed.

(** binit() links the buffers. *)
Lemma binit_run s :
  binit (s <| bufs := repeat zero_buf (S NBUF) |>) =
  Ok (tt, s <| bcache_lock := initlock "bcache" |> <| bufs := boot_bufs |>).
Proof. destruct s. vm_compute. reflexivity. Qed.

Lemma boot_bufs_lookup i b :
  (i < NBUF)%nat -> boot_bufs !! i = Some b -> b = boot_buf i.
Proof.
  intros Hi. unfold boot_bufs. rewrite lookup_app_l by (by rewrite length_map, length_seq).
  change (map boot_buf (seq 0 NBUF)) with (boot_buf <$> seq 0 NBUF). rewrite list_lookup_fmap.
  rewrite lookup_seq_lt by done. simpl. by intros [= <-].
Qed.

Lemma bio_boot s :
  bufs s = boot_bufs -> lk_free (bcache_lock s) -> cpu_wf (fs_cpu s) -> bio s (disk s) ∅ ∅.
Proof.
  intros Hbs Hl Hc. split; rewrite ?Hbs; try done.
  - exists (reverse (seq 0 NBUF)). split; [apply reverse_Permutation|]. vm_compute. repeat split.
  - intros i j b c Hi Hj Hb Hcj _ Hd. apply boot_bufs_lookup in Hb as ->; [|done]. by destruct Hd.
  - intros i b Hi Hb Hr. apply boot_bufs_lookup in Hb as ->; [|done]. by destruct Hr.
  - intros i b Hi Hb Hd. apply boot_bufs_lookup in Hb as ->; [|done]. by destruct Hd.
  - intros i b Hi Hb. apply boot_bufs_lookup in Hb as ->; [|done].
    rewrite decide_False by apply not_elem_of_empty. split; [split|]; done.
Qed.
End Boot.

(** ** Properties of the cache *)
Section Claims.
Context {E : Type}.
Implicit Types (s : fsst E) (V : Z * Z -> list Z) (R : gmap (Z * Z) Z) (K : gset (Z * Z)).

(** C13: bread() returns the only buffer of the block, locked by the caller, valid,
    and with the block's current contents, whatever the cache has done so far:
    a block that was recycled is read again, a block with unwritten changes is
    found.  No block changes its contents and nothing is written to the disk. *)
Theorem bread_correct s V R K dev bno :
  bio s V R K -> dev <> 0 -> (dev, bno) ∉ K -> rc R (dev, bno) < 2 ^ 32 - 1 ->
  (size R < NBUF)%nat \/ is_Some (R !! (dev, bno)) ->
  exists i s' b, bread dev bno s = Ok (i, s') /\ bufs s' !! i = Some b /\ key b = (dev, bno) /\ b_valid b <> 0 /\
    b_data b = V (dev, bno) /\ sl_mine (fs_pid s) (b_lock b) /\
    (forall j c, (j < NBUF)%nat -> bufs s' !! j = Some c -> key c = (dev, bno) -> j = i) /\
    disk s' = disk s /\ dwrites s' = dwrites s /\
    bio s' V (set_rc R (dev, bno) (rc R (dev, bno) + 1)) ({[(dev, bno)]} ∪ K).
Proof.
  intros Hb Hd HK Hrc Hroom. destruct (bio_bread s V R K dev bno Hb Hd HK Hrc Hroom) as (i & s' & Hrun & Hof & Hh & _ & Hb').
  destruct (only_bufs_bframe _ _ Hof) as (Hf & Hdisk & Hdw).
  destruct (held_locked _ _ _ _ i (dev, bno) Hb' Hh ltac:(set_solver)) as (b & Hbi & Hk & Hi & _ & _ & Hdv & Hv & Hdat & HL & _).
  exists i, s', b. rewrite <- (bframe_pid _ _ Hf). repeat (split; [done|]). split; [|done].
  intros j c Hj Hc Hkc. apply (bi_uniq _ _ _ _ Hb' j i c b); try done; [congruence|]. unfold key in Hkc. by injection Hkc as -> _.
Qed.

(** When every buffer is in use, a block that is not cached cannot be read:
    bget() panics. *)
Lemma bread_exhausted s V R K dev bno :
  bio s V R K -> (NBUF <= size R)%nat -> R !! (dev, bno) = None -> dev <> 0 -> bread dev bno s = Panic "bget: no buffers".
Proof.
  intros Hb Hsz HR Hd. destruct (bi_list _ _ _ _ Hb) as (l & Hl & Hs).
  assert (forall i b, (i < NBUF)%nat -> bufs s !! i = Some b -> b_refcnt b <> 0) as Hall by (by apply (all_used s V R K)).
  unfold bread, bget. destruct (bcache_cycle s (bi_lock _ _ _ _ Hb) (bi_cpu _ _ _ _ Hb)) as (s1 & H1 & B1 & _).
  unfold mbind at 1. unfold mbind at 1. rewrite H1. cbn [obind fst snd].
  assert (forall p, (forall i b, (i < NBUF)%nat -> bufs s !! i = Some b -> p i = false) ->
    forall l', l' ≡ₚ seq 0 NBUF -> List.find p l' = None) as Hnone.
  { intros p Hp l' Hl'. destruct (List.find p l') as [i|] eqn:Ef; [|done]. apply List.find_some in Ef as [Hin Hpi].
    apply list_elem_of_In in Hin. rewrite Hl', elem_of_seq in Hin.
    destruct (buf_exists s V R K i Hb) as [b Hbi]; [lia|]. rewrite (Hp i b) in Hpi; [done|lia|done]. }
  assert (bget_find dev bno s1 = Ok (None, s1)) as Hfind.
  { rewrite (bget_find_eq s1 l dev bno) by (by rewrite ?B1). rewrite B1. do 2 f_equal. apply Hnone; [|done].
    intros i b Hi Hbi. unfold matches. rewrite Hbi. destruct ((b_dev b =? dev) && (b_blockno b =? bno)) eqn:Em; [|done].
    exfalso. apply andb_prop in Em as [M1 M2]. apply Z.eqb_eq in M1, M2.
    destruct (bi_ref _ _ _ _ Hb i b Hi Hbi (Hall i b Hi Hbi)) as [Hx _]. unfold key in Hx. rewrite M1, M2, HR in Hx. done. }
  rewrite (mbind_Ok _ _ _ _ _ Hfind).
  rewrite (mbind_Ok _ _ _ _ _ (bget_lru_eq s1 l ltac:(by rewrite B1) Hl)). rewrite B1.
  rewrite Hnone; [done| |by rewrite reverse_Permutation].
  intros i b Hi Hbi. unfold unref. rewrite Hbi. apply Z.eqb_neq. by apply (Hall i b).
Qed.
End Claims.

(** A machine with the given disk and an empty cache. *)
Definition boot_fs (d : Z * Z -> list Z) : fsst unit :=
  {| fs_cpu := mkCpu None 0 false true; fs_hart := 0; fs_pid := 1; fs_cwd := 0; fs_ofile := [];
     bcache_lock := initlock "bcache"; bufs := boot_bufs; disk := d; dwrites := [];
     slog := {| log_lock := initlock "log"; log_start := 2; log_outstanding := 0; log_committing := 0;
                log_dev := 1; log_ncommit := 0; log_lh := {| lh_n := 0; lh_block := repeat 0 (Z.to_nat LOGBLOCKS) |} |};
     sb := {| sb_magic := FSMAGIC; sb_size := 2000; sb_nblocks := 1954; sb_ninodes := 200; sb_nlog := 31;
              sb_logstart := 2; sb_inodestart := 33; sb_bmapstart := 46 |};
     itable_lock := initlock "itable"; inodes := []; ftable_lock := initlock "ftable"; files := []; fs_env := tt |}.

Lemma boot_fs_bio d : bio (boot_fs d) d ∅ ∅.
Proof. apply (bio_boot (boot_fs d)); [done|done|]. by split. Qed.

Lemma bread_correct_witness :
  exists i s' b, bread 1 46 (boot_fs (fun k => [k.2])) = Ok (i, s') /\ bufs s' !! i = Some b /\ b_data b = [46].
Proof.
  destruct (bread_correct (boot_fs (fun k => [k.2])) (fun k => [k.2]) ∅ ∅ 1 46) as (i & s' & b & H1 & H2 & _ & _ & H3 & _).
  - apply boot_fs_bio.
  - done.
  - apply not_elem_of_empty.
  - done.
  - left. rewrite map_size_empty. unfold NBUF. lia.
  - exists i, s', b. exact (conj H1 (conj H2 H3)).
Defined.

(** Every buffer holds a block of device 1 with one reference. *)
Definition busy_buf (i : nat) (b : buf) : buf :=
  if (i <? NBUF)%nat
  then b <| b_valid := 1 |> <| b_dev := 1 |> <| b_blockno := 100 + Z.of_nat i |> <| b_refcnt := 1 |> <| b_data := [] |>
  else b.
Definition busy_fs : fsst unit := (boot_fs (fun _ => [])) <| bufs ::= imap busy_buf |>.
Definition busy_refs : gmap (Z * Z) Z := list_to_map ((fun i => ((1, 100 + Z.of_nat i), 1)) <$> seq 0 NBUF).

Lemma busy_refs_lookup k c :
  busy_refs !! k = Some c <-> exists i, (i < NBUF)%nat /\ k = (1, 100 + Z.of_nat i) /\ c = 1.
Proof.
  unfold busy_refs. rewrite <- elem_of_list_to_map.
  - rewrite list_elem_of_fmap. setoid_rewrite elem_of_seq. split.
    + intros (i & [= -> ->] & Hi). exists i. split; [lia|done].
    + intros (i & Hi & -> & ->). exists i. split; [done|lia].
  - rewrite <- list_fmap_compose. apply NoDup_fmap_2; [|apply NoDup_seq]. intros i j. simpl. intros [=]. lia.
Qed.
Lemma busy_bufs_lookup i b :
  (i < NBUF)%nat -> bufs busy_fs !! i = Some b -> b = busy_buf i (boot_buf i).
Proof.
  intros Hi. change (bufs busy_fs) with (imap busy_buf boot_bufs). rewrite list_lookup_imap. destruct (boot_bufs !! i) as [c|] eqn:Ec; [|done].
  simpl. intros [= <-]. by rewrite (boot_bufs_lookup i c Hi Ec).
Qed.
Lemma busy_bio {E} (s : fsst E) :
  bufs s = bufs busy_fs -> lk_free (bcache_lock s) -> cpu_wf (fs_cpu s) ->
  (forall i, (i < NBUF)%nat -> disk s (1, 100 + Z.of_nat i) = []) -> bio s (disk s) busy_refs ∅.
Proof.
  intros Hbs Hlk Hcpu Hdisk.
  assert (forall i, (i < NBUF)%nat -> busy_buf i (boot_buf i) = (boot_buf i) <| b_valid := 1 |> <| b_dev := 1 |>
    <| b_blockno := 100 + Z.of_nat i |> <| b_refcnt := 1 |> <| b_data := [] |>) as Hbb.
  { intros i Hi. unfold busy_buf. by rewrite (proj2 (Nat.ltb_lt _ _)). }
  split; rewrite ?Hbs; try done.
  - exists (reverse (seq 0 NBUF)). split; [apply reverse_Permutation|]. vm_compute. repeat split.
  - intros i j b c Hi Hj Hb Hc Hk _. apply busy_bufs_lookup in Hb as ->, Hc as ->; try done.
    rewrite !Hbb in Hk by done. unfold key in Hk. simpl in Hk. injection Hk as Hk. lia.
  - intros i b Hi Hb _. apply busy_bufs_lookup in Hb as ->; [|done]. rewrite !Hbb by done. split; [|simpl; lia].
    apply busy_refs_lookup. by exists i.
  - intros k c Hk. apply busy_refs_lookup in Hk as (i & Hi & -> & ->).
    destruct (lookup_lt_is_Some_2 (bufs busy_fs) i) as [b Hb]; [change (length (bufs busy_fs)) with (S NBUF); lia|].
    exists i, b. split; [done|]. split; [done|]. apply busy_bufs_lookup in Hb as ->; [|done]. by rewrite !Hbb.
  - intros i b Hi Hb _. apply busy_bufs_lookup in Hb as ->; [|done]. rewrite !Hbb by done. split; [done|]. symmetry. by apply Hdisk.
  - intros i b Hi Hb. apply busy_bufs_lookup in Hb as ->; [|done]. rewrite !Hbb by done.
    rewrite decide_False by apply not_elem_of_empty. split; [split|]; done.
Qed.
