(* ===== verification/Log.v ===== *)
(** * The log (kernel/log.c)

    The routines of kernel/log.c on the buffer cache. *)
From stdpp Require Import base list strings gmap.
From Stdlib Require Import ZArith Lia.
From S2P Require Import Prelude Spinlock Kalloc FsState Bio.

Section Log.
Context {E : Type}.

Definition upd_log (f : log_t -> log_t) : M (fsst E) unit := mmodify (fun s => s <| slog ::= f |>).
Definition upd_lh (f : logheader -> logheader) : M (fsst E) unit := upd_log (fun g => g <| log_lh ::= f |>).
Definition set_data (i : nat) (d : list Z) : M (fsst E) unit := upd_buf i (fun b => b <| b_data := d |>).

(** for (tail = 0; tail < log.lh.n; tail++) *)
Definition for_tail (body : nat -> Z -> M (fsst E) unit) : M (fsst E) unit :=
  let* g := mreads slog in
  for_each (seq 0 (Z.to_nat (lh_n (log_lh g)))) (fun tail =>
    let* g := mreads slog in
    match lh_block (log_lh g) !! tail with
    | Some b => body tail b
    | None => mub
    end).

Definition install_trans (recovering : Z) : M (fsst E) unit :=
  for_tail (fun tail bno =>
    let* g := mreads slog in
    let* lbuf := bread (log_dev g) (log_start g + Z.of_nat tail + 1) in
    let* dbuf := bread (log_dev g) bno in
    let* l := get_buf lbuf in
    set_data dbuf (b_data l) ;;;
    bwrite dbuf ;;;
    (if recovering =? 0 then bunpin dbuf else mret tt) ;;;
    brelse lbuf ;;;
    brelse dbuf).

(** The log header in a block: n, then the block numbers. *)
Definition read_head : M (fsst E) unit :=
  let* g := mreads slog in
  let* i := bread (log_dev g) (log_start g) in
  let* b := get_buf i in
  upd_lh (fun lh => lh <| lh_n := i32 (get32 (b_data b) 0) |>) ;;;
  let* g := mreads slog in
  for_each (seq 0 (Z.to_nat (lh_n (log_lh g)))) (fun k =>
    let* g := mreads slog in
    if (k <? length (lh_block (log_lh g)))%nat
    then upd_lh (fun lh => lh <| lh_block ::= <[k := i32 (get32 (b_data b) (4 + 4 * Z.of_nat k))]> |>)
    else mub) ;;;
  brelse i.

Definition write_head : M (fsst E) unit :=
  let* g := mreads slog in
  let* i := bread (log_dev g) (log_start g) in
  upd_buf i (fun b => b <| b_data ::= set32 0 (lh_n (log_lh g)) |>) ;;;
  for_tail (fun k bno => upd_buf i (fun b => b <| b_data ::= set32 (4 + 4 * Z.of_nat k) bno |>)) ;;;
  bwrite i ;;;
  brelse i.

Definition recover_from_log : M (fsst E) unit :=
  read_head ;;;
  install_trans 1 ;;;
  upd_lh (fun lh => lh <| lh_n := 0 |>) ;;;
  write_head.

(** sizeof(struct logheader) < BSIZE holds, so the panic is not reached. *)
Definition initlog (dev : Z) : M (fsst E) unit :=
  if BSIZE <=? 4 + 4 * LOGBLOCKS then mpanic "initlog: too big logheader"
  else
    upd_log (fun g => g <| log_lock := initlock "log" |>) ;;;
    mmodify (fun s => s <| slog ::= fun g => g <| log_start := sb_logstart (sb s) |> |>) ;;;
    upd_log (fun g => g <| log_dev := dev |>) ;;;
    recover_from_log.

(** The loop waits while a commit runs or the log is short of space. *)
Definition begin_op : M (fsst E) unit :=
  acquire_log ;;;
  let* g := mreads slog in
  if negb (log_committing g =? 0) then mspin
  else if LOGBLOCKS <? lh_n (log_lh g) + (log_outstanding g + 1) * MAXOPBLOCKS then mspin
  else
    upd_log (fun g => g <| log_outstanding ::= fun n => n + 1 |>) ;;;
    release_log.

Definition write_log : M (fsst E) unit :=
  for_tail (fun tail bno =>
    let* g := mreads slog in
    let* to := bread (log_dev g) (log_start g + Z.of_nat tail + 1) in
    let* from := bread (log_dev g) bno in
    let* f := get_buf from in
    set_data to (b_data f) ;;;
    bwrite to ;;;
    brelse from ;;;
    brelse to).

Definition commit : M (fsst E) unit :=
  let* g := mreads slog in
  if 0 <? lh_n (log_lh g) then
    write_log ;;;
    write_head ;;;
    install_trans 0 ;;;
    upd_lh (fun lh => lh <| lh_n := 0 |>) ;;;
    write_head
  else mret tt.

Definition end_op : M (fsst E) unit :=
  acquire_log ;;;
  upd_log (fun g => g <| log_outstanding ::= fun n => n - 1 |>) ;;;
  let* g := mreads slog in
  if negb (log_committing g =? 0) then mpanic "log.committing"
  else
    let do_commit := log_outstanding g =? 0 in
    (if do_commit then upd_log (fun g => g <| log_committing := 1 |>) else mret tt) ;;;
    release_log ;;;
    (if do_commit then
       commit ;;;
       acquire_log ;;;
       upd_log (fun g => g <| log_committing := 0 |>) ;;;
       upd_log (fun g => g <| log_ncommit ::= fun n => i32 (n + 1) |>) ;;;
       release_log
     else mret tt).

(** The position of [bno] among the first [n] logged blocks, or [n]. *)
Fixpoint absorb (bno : Z) (l : list Z) (n : nat) : nat :=
  match n, l with
  | S n, x :: l => if x =? bno then O else S (absorb bno l n)
  | _, _ => O
  end.

Definition log_write (i : nat) : M (fsst E) unit :=
  acquire_log ;;;
  let* g := mreads slog in
  if LOGBLOCKS <=? lh_n (log_lh g) then mpanic "too big a transaction"
  else if log_outstanding g <? 1 then mpanic "log_write outside of trans"
  else
    let* b := get_buf i in
    let k := absorb (b_blockno b) (lh_block (log_lh g)) (Z.to_nat (lh_n (log_lh g))) in
    upd_lh (fun lh => lh <| lh_block ::= <[k := b_blockno b]> |>) ;;;
    (if Z.of_nat k =? lh_n (log_lh g) then
       bpin i ;;;
       upd_lh (fun lh => lh <| lh_n ::= fun n => n + 1 |>)
     else mret tt) ;;;
    release_log.

(** sys_sync() waits when a transaction is under way. *)
Definition sys_sync : M (fsst E) Z :=
  acquire_log ;;;
  let* g := mreads slog in
  if negb (log_committing g =? 0) || (0 <? log_outstanding g) then mspin
  else release_log ;;; mret 0.
End Log.
