(* ===== verification/LogSpec.v ===== *)
(** * What the log's routines do to the disk

    write_log(), write_head(), install_trans(), read_head(), commit() and
    recover_from_log() of kernel/log.c on the contract of the buffer cache:
    the blocks they write, in order. *)
From stdpp Require Import base list strings gmap.
From Stdlib Require Import ZArith Lia.
From S2P Require Import Prelude Spinlock Kalloc FsState Bio BioList BioSpec BioOps Bytes Log.

Notation dwrite := (Z * Z * list Z)%type.

(** ** Sequences of writes *)
Definition wapply (ws : list dwrite) (d : Z * Z -> list Z) : Z * Z -> list Z :=
  foldl (fun d w => vset d w.1 w.2) d ws.

Lemma wapply_app ws1 ws2 d : wapply (ws1 ++ ws2) d = wapply ws2 (wapply ws1 d).
Proof. apply foldl_app. Qed.
Lemma wapply_notin ws d k : k ∉ ws.*1 -> wapply ws d k = d k.
Proof.
  revert d. induction ws as [|[k' v] ws IH]; intros d Hk; [done|]. rewrite fmap_cons, not_elem_of_cons in Hk.
  change (wapply ws (vset d k' v) k = d k). rewrite IH by tauto. apply vset_ne. tauto.
Qed.
Lemma wapply_in ws d k v : NoDup ws.*1 -> (k, v) ∈ ws -> wapply ws d k = v.
Proof.
  revert d. induction ws as [|[k' v'] ws IH]; intros d Hnd Hin; [by apply elem_of_nil in Hin|].
  rewrite fmap_cons, NoDup_cons in Hnd. destruct Hnd as [Hni Hnd].
  change (wapply ws (vset d k' v') k = v). apply elem_of_cons in Hin as [[= -> ->]|Hin]; [|by apply IH].
  rewrite wapply_notin by done. apply vset_eq.
Qed.

(** ** Reference counts *)
Section Counts.
Implicit Types (R : gmap (Z * Z) Z) (k : Z * Z).

Lemma set_rc_set R k a b : set_rc (set_rc R k a) k b = set_rc R k b.
Proof.
  apply map_eq. intros k'. destruct (decide (k' = k)) as [->|N]; [by rewrite !set_rc_eq|by rewrite !set_rc_ne].
Qed.
Lemma set_rc_comm R k k' a b : k <> k' -> set_rc (set_rc R k a) k' b = set_rc (set_rc R k' b) k a.
Proof.
  intros Hne. apply map_eq. intros j. destruct (decide (j = k)) as [->|N1].
  - by rewrite (set_rc_ne _ k'), !set_rc_eq.
  - rewrite (set_rc_ne _ k) by done. destruct (decide (j = k')) as [->|N2]; [by rewrite !set_rc_eq|by rewrite !set_rc_ne].
Qed.
Lemma rc_set_eq R k c : rc (set_rc R k c) k = c.
Proof. unfold rc. rewrite set_rc_eq. destruct (Z.eqb_spec c 0); [by subst|done]. Qed.
Lemma rc_set_ne R k k' c : k' <> k -> rc (set_rc R k c) k' = rc R k'.
Proof. intros. unfold rc. by rewrite set_rc_ne. Qed.

(** No block is recorded with count 0. *)
Definition counted R : Prop := forall k c, R !! k = Some c -> c <> 0.
Lemma set_rc_id R k : counted R -> set_rc R k (rc R k) = R.
Proof.
  intros Hc. apply map_eq. intros j. destruct (decide (j = k)) as [->|N]; [|by rewrite set_rc_ne].
  rewrite set_rc_eq. unfold rc. destruct (R !! k) as [c|] eqn:Er; simpl; [|done].
  by rewrite (proj2 (Z.eqb_neq _ _)) by (by eapply Hc).
Qed.
Lemma rc_None R k : R !! k = None -> rc R k = 0.
Proof. intros H. unfold rc. by rewrite H. Qed.
Lemma size_set_rc R k c : (size (set_rc R k c) <= S (size R))%nat.
Proof.
  unfold set_rc. destruct (c =? 0).
  - pose proof (map_size_delete k R) as Hd. rewrite Hd. unfold id. destruct (R !! k); lia.
  - pose proof (map_size_insert k c R) as Hd. rewrite Hd. unfold id. destruct (R !! k); lia.
Qed.
Lemma set_rc_back R a b x :
  counted R -> R !! a = None -> a <> b -> set_rc (set_rc (set_rc R a 1) b x) a (1 - 1) = set_rc R b x.
Proof.
  intros Hc Ha Hab. rewrite (set_rc_comm R a b) by done. rewrite set_rc_set. change (1 - 1) with 0.
  rewrite set_rc_comm by (by apply not_eq_sym). f_equal. rewrite <- (rc_None R a Ha). by apply set_rc_id.
Qed.
End Counts.

Section LogSpec.
Context {E : Type}.
Implicit Types (s : fsst E) (V : Z * Z -> list Z) (R : gmap (Z * Z) Z).

Lemma bio_counted s V R K : bio s V R K -> counted R.
Proof. intros Hb k c Hk. by destruct (bi_refs _ _ _ _ Hb k c Hk) as (_ & _ & _ & _ & _ & _ & ?). Qed.

(** A block without references has the contents of the disk. *)
Lemma bio_clean s V R K k : bio s V R K -> k.1 <> 0 -> R !! k = None -> V k = disk s k.
Proof.
  intros Hb Hd HR.
  destruct (List.find (fun i => match bufs s !! i with Some b => bool_decide (key b = k) | None => false end) (seq 0 NBUF)) as [i|] eqn:Ef.
  - destruct (find_first _ _ _ Ef) as (n & Hn & Hm & _). apply lookup_seq in Hn as [-> Hn]. simpl in Hm.
    destruct (bufs s !! n) as [b|] eqn:Hbi; [|done]. apply bool_decide_eq_true in Hm. subst k.
    apply (bi_idle _ _ _ _ Hb n b); try done.
    destruct (Z.eq_dec (b_refcnt b) 0) as [|N]; [done|]. pose proof (bi_ref _ _ _ _ Hb n b Hn Hbi N) as [Hx _]. congruence.
  - apply (bi_uncached _ _ _ _ Hb); [done|]. intros i b Hi Hbi Hk.
    pose proof (find_none_elem _ _ i Ef ltac:(apply elem_of_seq; lia)) as Hm. cbv beta in Hm. rewrite Hbi in Hm.
    by rewrite bool_decide_true in Hm.
Qed.

(** ** The loop over the logged blocks *)
Lemma for_tail_ok (g : log_t) (bs : list Z) (P : nat -> fsst E -> Prop) body s :
  0 <= lh_n (log_lh g) -> take (Z.to_nat (lh_n (log_lh g))) (lh_block (log_lh g)) = bs -> Z.of_nat (length bs) = lh_n (log_lh g) ->
  slog s = g -> P O s ->
  (forall j b s1, bs !! j = Some b -> slog s1 = g -> P j s1 ->
    exists s2, body j b s1 = Ok (tt, s2) /\ slog s2 = g /\ P (S j) s2) ->
  exists s', for_tail body s = Ok (tt, s') /\ slog s' = g /\ P (length bs) s'.
Proof.
  intros Hn Hbs Hlen Hg HP Hstep. unfold for_tail. rewrite mbind_reads, Hg.
  replace (Z.to_nat (lh_n (log_lh g))) with (length bs) by lia.
  assert (forall m j s1, (j + m = length bs)%nat -> slog s1 = g -> P j s1 ->
    exists s', for_each (seq j m) (fun tail => let* g := mreads slog in
      match lh_block (log_lh g) !! tail with Some b => body tail b | None => mub end) s1 = Ok (tt, s') /\
      slog s' = g /\ P (length bs) s') as Hloop.
  { induction m as [|m IH]; intros j s1 Hj Hg1 HP1; simpl.
    - replace (length bs) with j by lia. by exists s1.
    - destruct (lookup_lt_is_Some_2 bs j) as [b Hb]; [lia|].
      assert (lh_block (log_lh g) !! j = Some b) as Hb'.
      { rewrite <- Hbs in Hb. rewrite lookup_take_Some in Hb. tauto. }
      destruct (Hstep j b s1 Hb Hg1 HP1) as (s2 & Hrun & Hg2 & HP2).
      unfold mbind at 1. rewrite mbind_reads, Hg1, Hb', Hrun. cbn [obind fst snd].
      apply (IH (S j)); [lia|done|done]. }
  apply (Hloop (length bs) O s); [lia|done|done].
Qed.

(** ** One block of the loops *)

(** A cache state with what it stands for, and how it differs from [s0]. *)
Record at_ s0 s V R K (D : Z * Z -> list Z) (W : list dwrite) : Prop := {
  at_bio : bio s V R K; at_frame : bframe s0 s; at_disk : disk s = D; at_w : dwrites s = W
}.

Lemma at_bread s0 s V R K D W k :
  at_ s0 s V R K D W -> k.1 <> 0 -> k ∉ K -> rc R k < 2 ^ 32 - 1 -> (size R < NBUF)%nat \/ is_Some (R !! k) ->
  exists i s', bread k.1 k.2 s = Ok (i, s') /\ held s' i k /\ keeps s s' R /\
    at_ s0 s' V (set_rc R k (rc R k + 1)) ({[k]} ∪ K) D W.
Proof.
  intros [Hb Hf Hd Hw] Hk HK Hrc Hroom. destruct k as [dev bno].
  destruct (bio_bread s V R K dev bno Hb Hk HK Hrc Hroom) as (i & s' & Hrun & Hof & Hh & Hkp & Hb').
  destruct (only_bufs_bframe _ _ Hof) as (Hf' & Hdisk & Hdw). exists i, s'. split; [done|]. split; [done|]. split; [done|].
  split; [done|by etrans|congruence|congruence].
Qed.
Lemma at_set_data s0 s V R K D W i k d :
  at_ s0 s V R K D W -> held s i k -> k ∈ K ->
  exists s', set_data i d s = Ok (tt, s') /\ same_held s s' /\ at_ s0 s' (vset V k d) R K D W.
Proof.
  intros [Hb Hf Hd Hw] Hh HK.
  destruct (bio_upd_data s V R K i k (fun b => b <| b_data := d |>) (fun _ => d) Hb Hh HK ltac:(done)) as (s' & Hrun & Hs & Hsh & Hb').
  exists s'. split; [done|]. split; [done|]. rewrite Hs in *.
  split; [done| |done|done]. etrans; [done|]. split; [by destruct s|by left].
Qed.
Lemma at_bwrite s0 s V R K D W i k :
  at_ s0 s V R K D W -> held s i k -> k ∈ K ->
  exists s', bwrite i s = Ok (tt, s') /\ same_held s s' /\ at_ s0 s' V R K (vset D k (V k)) (W ++ [(k, V k)]).
Proof.
  intros [Hb Hf Hd Hw] Hh HK. destruct (bio_bwrite s V R K i k Hb Hh HK) as (s' & Hrun & Hf' & Hsh & Hd' & Hw' & Hb').
  exists s'. split; [done|]. split; [done|]. split; [done|by etrans|congruence|congruence].
Qed.
Lemma at_brelse s0 s V R K D W i k :
  at_ s0 s V R K D W -> held s i k -> k ∈ K -> (rc R k = 1 -> V k = D k) ->
  exists s', brelse i s = Ok (tt, s') /\ same_held s s' /\ at_ s0 s' V (set_rc R k (rc R k - 1)) (K ∖ {[k]}) D W.
Proof.
  intros [Hb Hf Hd Hw] Hh HK Hc. rewrite <- Hd in Hc.
  destruct (bio_brelse s V R K i k Hb Hh HK Hc) as (s' & Hrun & Hf' & Hd' & Hw' & Hsh & Hb').
  exists s'. split; [done|]. split; [done|]. split; [done|by etrans|congruence|congruence].
Qed.
Lemma at_bunpin s0 s V R K D W i k :
  at_ s0 s V R K D W -> held s i k -> k ∈ K -> 1 < rc R k ->
  exists s', bunpin i s = Ok (tt, s') /\ same_held s s' /\ at_ s0 s' V (set_rc R k (rc R k - 1)) K D W.
Proof.
  intros [Hb Hf Hd Hw] Hh HK Hc. destruct (bio_bunpin s V R K i k Hb Hh HK Hc) as (s' & Hrun & Hf' & Hd' & Hw' & Hsh & Hb').
  exists s'. split; [done|]. split; [done|]. split; [done|by etrans|congruence|congruence].
Qed.

(** bread() of a log block, then of a home block. *)
Lemma at_bread2 s0 s V R D W a b :
  at_ s0 s V R ∅ D W -> a.1 <> 0 -> b.1 <> 0 -> a <> b -> R !! a = None -> rc R b < 2 ^ 32 - 1 ->
  (size R < NBUF)%nat -> is_Some (R !! b) \/ (S (size R) < NBUF)%nat ->
  exists ia ib s1 s2, bread a.1 a.2 s = Ok (ia, s1) /\ bread b.1 b.2 s1 = Ok (ib, s2) /\ held s2 ia a /\ held s2 ib b /\
    slog s1 = slog s /\ at_ s0 s2 V (set_rc (set_rc R a 1) b (rc R b + 1)) ({[b]} ∪ ({[a]} ∪ ∅)) D W.
Proof.
  intros Hat Ha Hb Hab HRa HRb Hsz Hroom.
  destruct (at_bread s0 s V R ∅ D W a Hat Ha) as (ia & s1 & Hr1 & Hh1 & _ & Hat1);
    [apply not_elem_of_empty|rewrite rc_None by done; lia|by left|].
  rewrite (rc_None _ _ HRa) in Hat1. change (0 + 1) with 1 in Hat1.
  destruct (at_bread s0 s1 _ _ _ D W b Hat1 Hb) as (ib & s2 & Hr2 & Hh2 & Hk2 & Hat2).
  - set_solver.
  - by rewrite rc_set_ne.
  - destruct Hroom as [Hr|Hr]; [right; by rewrite set_rc_ne|left]. pose proof (size_set_rc R a 1). lia.
  - exists ia, ib, s1, s2. split; [done|]. split; [done|]. split; [apply Hk2; [rewrite set_rc_eq; by eexists|done]|].
    split; [done|]. split; [|by rewrite rc_set_ne in Hat2].
    rewrite (bframe_slog _ _ (at_frame _ _ _ _ _ _ _ Hat1)), (bframe_slog _ _ (at_frame _ _ _ _ _ _ _ Hat)). done.
Qed.
(** ** write_log() *)
Definition lkey (g : log_t) (j : nat) : Z * Z := (log_dev g, log_start g + Z.of_nat j + 1).
Definition hkey (g : log_t) (b : Z) : Z * Z := (log_dev g, b).
Definition headkey (g : log_t) : Z * Z := (log_dev g, log_start g).

(** The header [g] names the blocks [bs], outside of the log itself. *)
Record loggable (g : log_t) (bs : list Z) : Prop := {
  lw_dev : log_dev g <> 0;
  lw_n : Z.of_nat (length bs) = lh_n (log_lh g);
  lw_take : take (Z.to_nat (lh_n (log_lh g))) (lh_block (log_lh g)) = bs;
  lw_max : Z.of_nat (length bs) <= LOGBLOCKS;
  lw_nodup : NoDup bs;
  lw_home b : b ∈ bs -> b < log_start g \/ log_start g + LOGBLOCKS < b
}.

Lemma loggable_ne g bs j b : loggable g bs -> b ∈ bs -> (j < length bs)%nat -> lkey g j <> hkey g b.
Proof.
  intros Hg Hb Hj Heq. unfold lkey, hkey in Heq. injection Heq as Heq. destruct (lw_home _ _ Hg b Hb) as [H|H]; [lia|].
  pose proof (lw_max _ _ Hg). lia.
Qed.

Definition log_writes (g : log_t) (bs : list Z) (V : Z * Z -> list Z) : list dwrite :=
  imap (fun j b => (lkey g j, V (hkey g b))) bs.
Definition home_writes (g : log_t) (bs : list Z) (V : Z * Z -> list Z) : list dwrite :=
  imap (fun j b => (hkey g b, V (lkey g j))) bs.

Lemma log_writes_keys g bs V j k : k ∈ (take j (log_writes g bs V)).*1 -> exists i, (i < length bs)%nat /\ (i < j)%nat /\ k = lkey g i.
Proof.
  intros Hk. apply list_elem_of_fmap in Hk as (w & -> & Hw). apply list_elem_of_lookup in Hw as (i & Hi).
  apply lookup_take_Some in Hi as [Hi Hij]. unfold log_writes in Hi. rewrite list_lookup_imap in Hi.
  destruct (bs !! i) as [b|] eqn:Eb; [|done]. injection Hi as <-. exists i. split; [by eapply lookup_lt_Some|]. done.
Qed.
Lemma home_writes_keys g bs V j k : k ∈ (take j (home_writes g bs V)).*1 -> exists b, b ∈ bs /\ b ∈ take j bs /\ k = hkey g b.
Proof.
  intros Hk. apply list_elem_of_fmap in Hk as (w & -> & Hw). apply list_elem_of_lookup in Hw as (i & Hi).
  apply lookup_take_Some in Hi as [Hi Hij]. unfold home_writes in Hi. rewrite list_lookup_imap in Hi.
  destruct (bs !! i) as [b|] eqn:Eb; [|done]. injection Hi as <-. exists b. split; [by eapply list_elem_of_lookup_2|].
  split; [|done]. eapply list_elem_of_lookup_2. apply lookup_take_Some. done.
Qed.

Lemma write_log_ok s V R bs :
  let g := slog s in
  loggable g bs -> bio s V R ∅ -> (size R < NBUF)%nat ->
  (forall b, b ∈ bs -> 0 < rc R (hkey g b) < 2 ^ 32 - 1) -> (forall j, (j < length bs)%nat -> R !! lkey g j = None) ->
  exists s', write_log s = Ok (tt, s') /\
    at_ s s' (wapply (log_writes g bs V) V) R ∅ (wapply (log_writes g bs V) (disk s)) (dwrites s ++ log_writes g bs V).
Proof.
  intros g Hg Hb Hsz HRh HRl. set (ws := log_writes g bs V).
  pose (P := fun j s1 => at_ s s1 (wapply (take j ws) V) R ∅ (wapply (take j ws) (disk s)) (dwrites s ++ take j ws)).
  assert (length ws = length bs) as Hlw by (unfold ws, log_writes; by rewrite length_imap).
  unfold write_log. match goal with |- context [for_tail ?bd] => destruct (for_tail_ok g bs P bd s) as (s' & Hrun & _ & HP) end.
  - rewrite <- (lw_n _ _ Hg). lia.
  - apply (lw_take _ _ Hg).
  - apply (lw_n _ _ Hg).
  - done.
  - unfold P. rewrite take_0, app_nil_r. split; [done|done|done|done].
  - intros j b s1 Hbj Hg1 HP1. pose proof (lookup_lt_Some _ _ _ Hbj) as Hj. pose proof (list_elem_of_lookup_2 _ _ _ Hbj) as Hbin.
    set (V1 := wapply (take j ws) V) in *. pose proof (loggable_ne g bs j b Hg Hbin Hj) as Hne.
    pose proof (HRh b Hbin) as Hrc. unfold P in HP1. fold V1 in HP1.
    destruct (at_bread2 s s1 V1 R _ _ (lkey g j) (hkey g b) HP1) as (ia & ib & s2 & s3 & Hr1 & Hr2 & Hha & Hhb & Hg2 & Hat);
      [apply (lw_dev _ _ Hg)|apply (lw_dev _ _ Hg)|done|by apply HRl|lia|done|left; rewrite rc_pos_inv by lia; by eexists|].
    rewrite mbind_reads, Hg1. change (log_dev g) with (lkey g j).1 at 1. change (log_start g + Z.of_nat j + 1) with (lkey g j).2.
    rewrite (mbind_Ok _ _ _ _ _ Hr1). change (log_dev g) with (hkey g b).1. change b with (hkey g b).2 at 2.
    rewrite (mbind_Ok _ _ _ _ _ Hr2).
    destruct (get_held _ _ _ _ ib (hkey g b) (at_bio _ _ _ _ _ _ _ Hat) Hhb ltac:(set_solver)) as (fb & Hget & Hdat & _).
    rewrite (mbind_Ok _ _ _ _ _ Hget), Hdat.
    assert (V1 (hkey g b) = V (hkey g b)) as HV1.
    { apply wapply_notin. intros Hin. apply log_writes_keys in Hin as (i & Hi & _ & Heq). by apply (loggable_ne g bs i b). }
    rewrite HV1.
    destruct (at_set_data s s3 _ _ _ _ _ ia (lkey g j) (V (hkey g b)) Hat Hha ltac:(set_solver)) as (s4 & Hr4 & Hs4 & Hat4).
    rewrite (mbind_Ok _ _ _ _ _ Hr4). apply Hs4 in Hha, Hhb.
    destruct (at_bwrite s s4 _ _ _ _ _ ia (lkey g j) Hat4 Hha ltac:(set_solver)) as (s5 & Hr5 & Hs5 & Hat5).
    rewrite (mbind_Ok _ _ _ _ _ Hr5). apply Hs5 in Hha, Hhb. rewrite vset_eq in Hat5.
    destruct (at_brelse s s5 _ _ _ _ _ ib (hkey g b) Hat5 Hhb ltac:(set_solver)) as (s6 & Hr6 & Hs6 & Hat6).
    { rewrite rc_set_eq. lia. }
    rewrite (mbind_Ok _ _ _ _ _ Hr6). apply Hs6 in Hha. rewrite rc_set_eq, set_rc_set in Hat6.
    replace (rc R (hkey g b) + 1 - 1) with (rc R (hkey g b)) in Hat6 by lia.
    destruct (at_brelse s s6 _ _ _ _ _ ia (lkey g j) Hat6 Hha ltac:(set_solver)) as (s7 & Hr7 & Hs7 & Hat7).
    { intros _. by rewrite !vset_eq. }
    exists s7. split; [exact Hr7|]. split; [by rewrite (bframe_slog _ _ (at_frame _ _ _ _ _ _ _ Hat7))|].
    unfold P. assert (ws !! j = Some (lkey g j, V (hkey g b))) as Hwj.
    { unfold ws, log_writes. by rewrite list_lookup_imap, Hbj. }
    rewrite (take_S_r _ _ _ Hwj), !wapply_app, app_assoc.
    rewrite rc_set_ne, rc_set_eq, set_rc_back, set_rc_id in Hat7 by (try done; try apply HRl; try apply (bio_counted _ _ _ _ Hb); try lia).
    replace (({[hkey g b]} ∪ ({[lkey g j]} ∪ ∅)) ∖ {[hkey g b]} ∖ {[lkey g j]}) with (∅ : gset (Z * Z)) in Hat7 by set_solver.
    exact Hat7.
  - exists s'. split; [exact Hrun|]. unfold P in HP. rewrite take_ge in HP by lia. exact HP.
Qed.
(** ** write_head() *)
Lemma bio_ext s V V' R K : (forall k, V k = V' k) -> bio s V R K -> bio s V' R K.
Proof.
  intros HV [A1 A2 A3 A4 A5 A6 A7 A8 A9 A10 A11 A12]. split; try done.
  - intros i b. rewrite <- HV. apply A8.
  - intros k. rewrite <- HV. apply A9.
  - intros i b. rewrite <- HV. apply A10.
Qed.
Lemma at_ext s0 s V V' R K D W : (forall k, V k = V' k) -> at_ s0 s V R K D W -> at_ s0 s V' R K D W.
Proof. intros HV [Hb Hf Hd Hw]. split; try done. by eapply bio_ext. Qed.

(** The header block with the count and the block numbers stored in it. *)
Definition put_blocks (bs : list Z) (d : list Z) : list Z :=
  foldl (fun d w => set32 w.1 w.2 d) d (imap (fun k b => (4 + 4 * Z.of_nat k, b)) bs).
Definition head_data (bs : list Z) (d : list Z) : list Z := put_blocks bs (set32 0 (Z.of_nat (length bs)) d).

Lemma put_blocks_snoc bs b d : put_blocks (bs ++ [b]) d = set32 (4 + 4 * Z.of_nat (length bs)) b (put_blocks bs d).
Proof. unfold put_blocks. rewrite imap_app, foldl_app. simpl. by rewrite Nat.add_0_r. Qed.

Lemma at_upd_data s0 s V R K D W i k (g : buf -> buf) f :
  at_ s0 s V R K D W -> held s i k -> k ∈ K -> (forall b, g b = b <| b_data := f (b_data b) |>) ->
  exists s', upd_buf i g s = Ok (tt, s') /\ same_held s s' /\ slog s' = slog s /\ at_ s0 s' (vset V k (f (V k))) R K D W.
Proof.
  intros [Hb Hf Hd Hw] Hh HK Hg.
  destruct (bio_upd_data s V R K i k g f Hb Hh HK Hg) as (s' & Hrun & Hs & Hsh & Hb').
  exists s'. split; [done|]. split; [done|]. rewrite Hs in *. split; [done|].
  split; [done| |done|done]. etrans; [done|]. split; [by destruct s|by left].
Qed.

Lemma write_head_ok s0 s V R D W bs :
  let g := slog s in
  loggable g bs -> at_ s0 s V R ∅ D W -> (size R < NBUF)%nat -> R !! headkey g = None ->
  let h := head_data bs (V (headkey g)) in
  exists s', write_head s = Ok (tt, s') /\
    at_ s0 s' (vset V (headkey g) h) R ∅ (vset D (headkey g) h) (W ++ [(headkey g, h)]).
Proof.
  intros g Hg Hat Hsz HR h. set (hk := headkey g) in *.
  assert (hk.1 <> 0) as Hd by apply (lw_dev _ _ Hg).
  unfold write_head. rewrite mbind_reads. fold g. change (log_dev g) with hk.1. change (log_start g) with hk.2.
  destruct (at_bread s0 s V R ∅ D W hk Hat Hd) as (i & s1 & Hr1 & Hh1 & _ & Hat1);
    [apply not_elem_of_empty|rewrite rc_None by done; lia|by left|].
  rewrite (rc_None _ _ HR) in Hat1. change (0 + 1) with 1 in Hat1.
  assert (slog s1 = g) as Hg1.
  { rewrite (bframe_slog _ _ (at_frame _ _ _ _ _ _ _ Hat1)), <- (bframe_slog _ _ (at_frame _ _ _ _ _ _ _ Hat)). done. }
  rewrite (mbind_Ok _ _ _ _ _ Hr1).
  match goal with |- context [upd_buf i ?f] =>
    destruct (at_upd_data s0 s1 _ _ _ _ _ i hk f (set32 0 (lh_n (log_lh g))) Hat1 Hh1 ltac:(set_solver) ltac:(done))
      as (s2 & Hr2 & Hs2 & Hg2 & Hat2) end.
  rewrite (mbind_Ok _ _ _ _ _ Hr2). rewrite Hg1 in Hg2. apply Hs2 in Hh1.
  pose (P := fun (j : nat) s' => held s' i hk /\ exists V', at_ s0 s' V' (set_rc R hk 1) ({[hk]} ∪ ∅) D W /\
    forall k, V' k = vset V hk (put_blocks (take j bs) (set32 0 (lh_n (log_lh g)) (V hk))) k).
  match goal with |- context [for_tail ?bd] => destruct (for_tail_ok g bs P bd s2) as (s3 & Hr3 & Hg3 & Hh3 & V3 & Hat3 & HV3) end.
  - rewrite <- (lw_n _ _ Hg). lia.
  - apply (lw_take _ _ Hg).
  - apply (lw_n _ _ Hg).
  - done.
  - split; [done|]. rewrite take_0. eexists. split; [exact Hat2|]. done.
  - intros j b s' Hbj Hg' (Hh' & V' & Hat' & HV').
    match goal with |- context [upd_buf i ?f] =>
      destruct (at_upd_data s0 s' _ _ _ _ _ i hk f (set32 (4 + 4 * Z.of_nat j) b) Hat' Hh' ltac:(set_solver) ltac:(done))
        as (s'' & Hr'' & Hs'' & Hg'' & Hat'') end.
    exists s''. split; [exact Hr''|]. split; [congruence|]. split; [by apply Hs''|]. eexists. split; [exact Hat''|].
    intros k. rewrite (take_S_r _ _ _ Hbj), put_blocks_snoc, length_take, Nat.min_l by (apply lookup_lt_Some in Hbj; lia).
    unfold vset at 1 2. destruct (decide (k = hk)) as [->|N]; [|by rewrite HV', vset_ne]. by rewrite HV', vset_eq.
  - rewrite (mbind_Ok _ _ _ _ _ Hr3).
    destruct (at_bwrite s0 s3 _ _ _ _ _ i hk Hat3 Hh3 ltac:(set_solver)) as (s4 & Hr4 & Hs4 & Hat4).
    rewrite (mbind_Ok _ _ _ _ _ Hr4). apply Hs4 in Hh3.
    destruct (at_brelse s0 s4 _ _ _ _ _ i hk Hat4 Hh3 ltac:(set_solver)) as (s5 & Hr5 & _ & Hat5); [by rewrite vset_eq|].
    exists s5. split; [exact Hr5|]. rewrite rc_set_eq, set_rc_set in Hat5. change (1 - 1) with 0 in Hat5.
    assert (set_rc R hk 0 = R) as HRid by (rewrite <- (rc_None R hk HR); apply set_rc_id, (bio_counted _ _ _ _ (at_bio _ _ _ _ _ _ _ Hat))).
    rewrite HRid in Hat5. replace (({[hk]} ∪ ∅) ∖ {[hk]}) with (∅ : gset (Z * Z)) in Hat5 by set_solver.
    assert (V3 hk = h) as HVh.
    { rewrite HV3, vset_eq, take_ge by done. unfold h, head_data. by rewrite (lw_n _ _ Hg). }
    rewrite HVh in Hat5. eapply at_ext; [|exact Hat5]. intros k. rewrite HV3.
    unfold vset. destruct (decide (k = hk)) as [->|]; [|done]. rewrite <- HVh, HV3, vset_eq. done.
Qed.
(** ** install_trans() *)
Definition unpin (g : log_t) (bs : list Z) R : gmap (Z * Z) Z :=
  foldl (fun R b => set_rc R (hkey g b) (rc R (hkey g b) - 1)) R bs.

Lemma unpin_snoc g bs b R :
  unpin g (bs ++ [b]) R = set_rc (unpin g bs R) (hkey g b) (rc (unpin g bs R) (hkey g b) - 1).
Proof. unfold unpin. by rewrite foldl_app. Qed.
Lemma unpin_lookup g bs R k : (forall b, b ∈ bs -> k <> hkey g b) -> unpin g bs R !! k = R !! k.
Proof.
  induction bs as [|b bs IH] using rev_ind; [done|]. intros Hk. rewrite unpin_snoc, set_rc_ne by (apply Hk; set_solver).
  apply IH. intros. apply Hk. set_solver.
Qed.
Lemma size_unpin g bs R :
  NoDup bs -> (forall b, b ∈ bs -> 0 < rc R (hkey g b)) -> (size (unpin g bs R) <= size R)%nat.
Proof.
  induction bs as [|b bs IH] using rev_ind; [done|]. intros Hnd Hrc. apply NoDup_app in Hnd as (Hnd & Hd & _).
  rewrite unpin_snoc. assert (size (unpin g bs R) <= size R)%nat as IH' by (apply IH; [done|]; intros; apply Hrc; set_solver).
  assert (unpin g bs R !! hkey g b = R !! hkey g b) as Hl.
  { apply unpin_lookup. intros b' Hb'. unfold hkey. intros [= ->]. apply (Hd b' Hb'). set_solver. }
  pose proof (rc_pos_inv R (hkey g b) (Hrc b ltac:(set_solver))) as HRb. unfold set_rc. destruct (_ =? 0).
  - pose proof (map_size_delete (hkey g b) (unpin g bs R)) as Hs. rewrite Hl, HRb in Hs. rewrite Hs. lia.
  - pose proof (map_size_insert (hkey g b) (rc (unpin g bs R) (hkey g b) - 1) (unpin g bs R)) as Hs.
    rewrite Hl, HRb in Hs. rewrite Hs. unfold id. lia.
Qed.

(** One block: read the log block and the home block, copy, write. *)
Lemma install_step s0 s V R D W a b (recovering : Z) :
  at_ s0 s V R ∅ D W -> a.1 <> 0 -> b.1 = a.1 -> a <> b -> R !! a = None -> (size R < NBUF)%nat ->
  (if recovering =? 0 then 0 < rc R b < 2 ^ 32 - 1 else R !! b = None /\ (S (size R) < NBUF)%nat) ->
  exists s', (let* lbuf := bread a.1 a.2 in let* dbuf := bread a.1 b.2 in let* l := get_buf lbuf in
      set_data dbuf (b_data l) ;;; bwrite dbuf ;;; (if recovering =? 0 then bunpin dbuf else mret tt) ;;;
      brelse lbuf ;;; brelse dbuf) s = Ok (tt, s') /\
    at_ s0 s' (vset V b (V a)) (if recovering =? 0 then set_rc R b (rc R b - 1) else R) ∅ (vset D b (V a)) (W ++ [(b, V a)]).
Proof.
  intros Hat Ha Hb1 Hab HRa Hsz Hrec. assert (b.1 <> 0) as Hb by congruence.
  pose proof (bio_counted _ _ _ _ (at_bio _ _ _ _ _ _ _ Hat)) as Hcnt.
  assert (rc R b < 2 ^ 32 - 1 /\ (is_Some (R !! b) \/ (S (size R) < NBUF)%nat)) as [Hrc Hroom].
  { destruct (recovering =? 0); [split; [lia|left; rewrite rc_pos_inv by lia; by eexists]|].
    destruct Hrec as [Hn Hs]. rewrite rc_None by done. split; [lia|by right]. }
  assert (V a = D a) as Hclean.
  { rewrite (bio_clean _ _ _ _ a (at_bio _ _ _ _ _ _ _ Hat)) by done. by rewrite (at_disk _ _ _ _ _ _ _ Hat). }
  destruct (at_bread2 s0 s V R D W a b Hat) as (ia & ib & s2 & s3 & Hr1 & Hr2 & Hha & Hhb & Hg2 & Hat3); try done.
  rewrite (mbind_Ok _ _ _ _ _ Hr1). rewrite Hb1 in Hr2. rewrite (mbind_Ok _ _ _ _ _ Hr2).
  destruct (get_held _ _ _ _ ia a (at_bio _ _ _ _ _ _ _ Hat3) Hha ltac:(set_solver)) as (fb & Hget & Hdat & _).
  rewrite (mbind_Ok _ _ _ _ _ Hget), Hdat.
  destruct (at_set_data s0 s3 _ _ _ _ _ ib b (V a) Hat3 Hhb ltac:(set_solver)) as (s4 & Hr4 & Hs4 & Hat4).
  rewrite (mbind_Ok _ _ _ _ _ Hr4). apply Hs4 in Hha, Hhb.
  destruct (at_bwrite s0 s4 _ _ _ _ _ ib b Hat4 Hhb ltac:(set_solver)) as (s5 & Hr5 & Hs5 & Hat5).
  rewrite (mbind_Ok _ _ _ _ _ Hr5). apply Hs5 in Hha, Hhb. rewrite vset_eq in Hat5.
  set (c := if recovering =? 0 then rc R b else rc R b + 1).
  assert (exists s6, (if recovering =? 0 then bunpin ib else mret tt) s5 = Ok (tt, s6) /\ same_held s5 s6 /\
    at_ s0 s6 (vset V b (V a)) (set_rc (set_rc R a 1) b c) ({[b]} ∪ ({[a]} ∪ ∅)) (vset D b (V a)) (W ++ [(b, V a)])) as (s6 & Hr6 & Hs6 & Hat6).
  { unfold c. destruct (recovering =? 0); [|exists s5; by split].
    destruct (at_bunpin s0 s5 _ _ _ _ _ ib b Hat5 Hhb ltac:(set_solver)) as (s6 & Hr6 & Hs6 & Hat6); [rewrite rc_set_eq; lia|].
    exists s6. split; [done|]. split; [done|]. rewrite rc_set_eq, set_rc_set in Hat6. by replace (rc R b + 1 - 1) with (rc R b) in Hat6 by lia. }
  rewrite (mbind_Ok _ _ _ _ _ Hr6). apply Hs6 in Hha, Hhb.
  destruct (at_brelse s0 s6 _ _ _ _ _ ia a Hat6 Hha ltac:(set_solver)) as (s7 & Hr7 & Hs7 & Hat7).
  { intros _. rewrite !vset_ne by done. done. }
  rewrite (mbind_Ok _ _ _ _ _ Hr7). apply Hs7 in Hhb.
  rewrite rc_set_ne, rc_set_eq, set_rc_back in Hat7 by done.
  destruct (at_brelse s0 s7 _ _ _ _ _ ib b Hat7 Hhb ltac:(set_solver)) as (s8 & Hr8 & _ & Hat8); [by rewrite !vset_eq|].
  exists s8. split; [exact Hr8|]. rewrite rc_set_eq, set_rc_set in Hat8.
  replace (({[b]} ∪ ({[a]} ∪ ∅)) ∖ {[a]} ∖ {[b]}) with (∅ : gset (Z * Z)) in Hat8 by set_solver.
  unfold c in Hat8. destruct (recovering =? 0); [done|]. replace (rc R b + 1 - 1) with (rc R b) in Hat8 by lia.
  by rewrite set_rc_id in Hat8.
Qed.

Lemma install_trans_ok s0 s V R D W bs (recovering : Z) :
  let g := slog s in
  loggable g bs -> at_ s0 s V R ∅ D W -> (size R < NBUF)%nat -> (forall j, (j < length bs)%nat -> R !! lkey g j = None) ->
  (forall b, b ∈ bs -> if recovering =? 0 then 0 < rc R (hkey g b) < 2 ^ 32 - 1 else R !! hkey g b = None /\ (S (size R) < NBUF)%nat) ->
  let ws := home_writes g bs V in
  exists s', install_trans recovering s = Ok (tt, s') /\
    at_ s0 s' (wapply ws V) (if recovering =? 0 then unpin g bs R else R) ∅ (wapply ws D) (W ++ ws).
Proof.
  intros g Hg Hat Hsz HRl HRh ws.
  assert (length ws = length bs) as Hlw by (unfold ws, home_writes; by rewrite length_imap).
  pose (RR := fun j => if recovering =? 0 then unpin g (take j bs) R else R).
  pose (P := fun j s1 => at_ s0 s1 (wapply (take j ws) V) (RR j) ∅ (wapply (take j ws) D) (W ++ take j ws)).
  unfold install_trans. match goal with |- context [for_tail ?bd] => destruct (for_tail_ok g bs P bd s) as (s' & Hrun & _ & HP) end.
  - rewrite <- (lw_n _ _ Hg). lia.
  - apply (lw_take _ _ Hg).
  - apply (lw_n _ _ Hg).
  - done.
  - unfold P, RR. rewrite !take_0, app_nil_r. by destruct (recovering =? 0).
  - intros j b s1 Hbj Hg1 HP1. pose proof (lookup_lt_Some _ _ _ Hbj) as Hj. pose proof (list_elem_of_lookup_2 _ _ _ Hbj) as Hbin.
    unfold P in HP1. set (V1 := wapply (take j ws) V) in *. pose proof (loggable_ne g bs j b Hg Hbin Hj) as Hne.
    assert (forall k, k ∉ (take j ws).*1 -> RR j !! k = R !! k) as HRR.
    { intros k Hk. unfold RR. destruct (recovering =? 0); [|done]. apply unpin_lookup. intros b' Hb' ->. apply Hk.
      apply list_elem_of_lookup in Hb' as (i & Hi). apply lookup_take_Some in Hi as [Hi Hij].
      apply list_elem_of_fmap. exists (hkey g b', V (lkey g i)). split; [done|]. apply (list_elem_of_lookup_2 _ i).
      apply lookup_take_Some. split; [|done]. unfold ws, home_writes. by rewrite list_lookup_imap, Hi. }
    assert (lkey g j ∉ (take j ws).*1) as Hlk.
    { intros Hin. apply home_writes_keys in Hin as (b' & Hb' & _ & Heq). by apply (loggable_ne g bs j b'). }
    assert (hkey g b ∉ (take j ws).*1) as Hhk.
    { intros Hin. apply home_writes_keys in Hin as (b' & _ & Hb' & Heq). unfold hkey in Heq. injection Heq as <-.
      apply list_elem_of_lookup in Hb' as (i & Hi). apply lookup_take_Some in Hi as [Hi Hij].
      pose proof (NoDup_lookup _ _ _ _ (lw_nodup _ _ Hg) Hi Hbj). lia. }
    assert (size (RR j) <= size R)%nat as HszR.
    { unfold RR. destruct (recovering =? 0) eqn:Er; [|done]. apply size_unpin.
      - eapply sublist_NoDup; [apply (lw_nodup _ _ Hg)|apply sublist_take].
      - intros b' Hb'. apply HRh. apply list_elem_of_lookup in Hb' as (i & Hi). apply lookup_take_Some in Hi as [Hi _].
        by eapply list_elem_of_lookup_2. }
    destruct (install_step s0 s1 V1 (RR j) _ _ (lkey g j) (hkey g b) recovering HP1) as (s2 & Hr2 & Hat2); try done.
    + apply (lw_dev _ _ Hg).
    + rewrite HRR by done. by apply HRl.
    + lia.
    + pose proof (HRh b Hbin) as Hh. unfold rc. rewrite HRR by done. destruct (recovering =? 0); [done|].
      destruct Hh as [Hh1 Hh2]. split; [done|lia].
    + exists s2. split; [rewrite mbind_reads, Hg1; exact Hr2|]. split; [|].
      { rewrite (bframe_slog _ _ (at_frame _ _ _ _ _ _ _ Hat2)), <- (bframe_slog _ _ (at_frame _ _ _ _ _ _ _ Hat)). done. }
      assert (V1 (lkey g j) = V (lkey g j)) as HV1 by (by apply wapply_notin). rewrite HV1 in Hat2.
      assert (ws !! j = Some (hkey g b, V (lkey g j))) as Hwj.
      { unfold ws, home_writes. by rewrite list_lookup_imap, Hbj. }
      unfold P. rewrite (take_S_r _ _ _ Hwj), !wapply_app, app_assoc.
      replace (RR (S j)) with (if recovering =? 0 then set_rc (RR j) (hkey g b) (rc (RR j) (hkey g b) - 1) else RR j); [exact Hat2|].
      unfold RR. destruct (recovering =? 0); [|done]. by rewrite (take_S_r _ _ _ Hbj), unpin_snoc.
  - exists s'. split; [exact Hrun|]. unfold P, RR in HP. rewrite !take_ge in HP by lia. exact HP.
Qed.
End LogSpec.
