(* ===== verification/LogCrash.v ===== *)
(** * Crash safety of the log

    A crash during commit() leaves the disk with a prefix of the writes of
    commit(); recover_from_log() at the next boot leaves either none or all of
    the transaction, also when it is itself interrupted. *)
From stdpp Require Import base list strings gmap.
From Stdlib Require Import ZArith Lia.
From S2P Require Import Prelude Spinlock Kalloc FsState Bio BioList BioSpec BioOps Bytes Log LogSpec.

(** ** The header block *)
Definition dec_n (d : list Z) : Z := i32 (get32 d 0).
Definition dec_block (d : list Z) (k : nat) : Z := i32 (get32 d (4 + 4 * Z.of_nat k)).
Definition dec (d : list Z) : list Z := map (dec_block d) (seq 0 (Z.to_nat (dec_n d))).

Definition is_int (z : Z) : Prop := - 2 ^ 31 <= z < 2 ^ 31.

Lemma put_blocks_length bs d :
  4 + 4 * Z.of_nat (length bs) <= Z.of_nat (length d) -> length (put_blocks bs d) = length d.
Proof.
  induction bs as [|b bs IH] using rev_ind; [done|]. rewrite length_app. simpl. intros Hl.
  rewrite put_blocks_snoc, length_set32 by (rewrite ?IH; lia). apply IH. lia.
Qed.
Lemma put_blocks_n bs d :
  4 + 4 * Z.of_nat (length bs) <= Z.of_nat (length d) -> get32 (put_blocks bs d) 0 = get32 d 0.
Proof.
  induction bs as [|b bs IH] using rev_ind; [done|]. rewrite length_app. simpl. intros Hl.
  rewrite put_blocks_snoc, get32_set32_other by (rewrite ?put_blocks_length; lia). apply IH. lia.
Qed.
Lemma put_blocks_block bs d j b :
  4 + 4 * Z.of_nat (length bs) <= Z.of_nat (length d) -> bs !! j = Some b ->
  get32 (put_blocks bs d) (4 + 4 * Z.of_nat j) = u32 b.
Proof.
  induction bs as [|c bs IH] using rev_ind; [done|]. rewrite length_app. simpl. intros Hl Hj. rewrite put_blocks_snoc.
  apply lookup_snoc_Some in Hj as [[Hj Hb]|[-> <-]].
  - rewrite get32_set32_other by (rewrite ?put_blocks_length; lia). apply IH; [lia|done].
  - apply get32_set32; [|rewrite put_blocks_length]; lia.
Qed.

(** Reading the header back. *)
Lemma dec_head_data bs d :
  Z.of_nat (length d) = BSIZE -> Z.of_nat (length bs) <= LOGBLOCKS -> Forall is_int bs ->
  dec_n (head_data bs d) = Z.of_nat (length bs) /\ dec (head_data bs d) = bs /\ Z.of_nat (length (head_data bs d)) = BSIZE.
Proof.
  intros Hd Hb Hint. change BSIZE with 1024 in *. change LOGBLOCKS with 30 in *. unfold head_data.
  set (d1 := set32 0 (Z.of_nat (length bs)) d).
  assert (length d1 = length d) as Hd1 by (apply length_set32; lia).
  assert (dec_n (put_blocks bs d1) = Z.of_nat (length bs)) as Hn.
  { unfold dec_n. rewrite put_blocks_n by lia. unfold d1. rewrite get32_set32 by lia. apply i32_u32. lia. }
  split; [done|]. split; [|rewrite put_blocks_length; lia]. unfold dec. rewrite Hn, Nat2Z.id. apply list_eq. intros j.
  change (map (dec_block (put_blocks bs d1)) (seq 0 (length bs))) with (dec_block (put_blocks bs d1) <$> seq 0 (length bs)).
  rewrite list_lookup_fmap. destruct (bs !! j) as [b|] eqn:Hj.
  - rewrite lookup_seq_lt by (by eapply lookup_lt_Some). simpl. f_equal. unfold dec_block.
    rewrite (put_blocks_block bs d1 j b) by (done || lia). apply i32_u32. rewrite Forall_lookup in Hint. by apply (Hint j b).
  - apply lookup_ge_None in Hj. rewrite lookup_seq_ge by done. done.
Qed.

Section Crash.
Context {E : Type}.
Implicit Types (s : fsst E) (V D T : Z * Z -> list Z) (R : gmap (Z * Z) Z).

(** The blocks of the log: the header and the LOGBLOCKS blocks after it. *)
Definition in_log (g : log_t) (k : Z * Z) : Prop :=
  k.1 = log_dev g /\ log_start g <= k.2 <= log_start g + LOGBLOCKS.

(** ** recover_from_log() *)

(** The machine after a reset: an empty cache, and a log that knows where it is. *)
Record booted (g : log_t) D s : Prop := {
  bt_bufs : bufs s = boot_bufs;
  bt_lock : lk_free (bcache_lock s);
  bt_cpu : cpu_wf (fs_cpu s);
  bt_disk : disk s = D;
  bt_start : log_start (slog s) = log_start g;
  bt_dev : log_dev (slog s) = log_dev g;
  bt_len : Z.of_nat (length (lh_block (log_lh (slog s)))) = LOGBLOCKS
}.

(** The disk [D] recovers to [T]: its header is valid, and installing the
    logged blocks gives [T] outside of the log. *)
Record recovers (g : log_t) D T : Prop := {
  rv_dev : log_dev g <> 0;
  rv_size : Z.of_nat (length (D (headkey g))) = BSIZE;
  rv_n : 0 <= dec_n (D (headkey g)) <= LOGBLOCKS;
  rv_nodup : NoDup (dec (D (headkey g)));
  rv_home b : b ∈ dec (D (headkey g)) -> b < log_start g \/ log_start g + LOGBLOCKS < b;
  rv_int : Forall is_int (dec (D (headkey g)));
  rv_T k : ~ in_log g k -> wapply (home_writes g (dec (D (headkey g))) D) D k = T k
}.

Lemma length_dec d : 0 <= dec_n d -> Z.of_nat (length (dec d)) = dec_n d.
Proof. intros H. unfold dec. rewrite length_map, length_seq. lia. Qed.

(** read_head() *)
Lemma read_head_ok s D :
  let g := slog s in
  bio s D ∅ ∅ -> log_dev g <> 0 -> 0 <= dec_n (D (headkey g)) <= Z.of_nat (length (lh_block (log_lh g))) ->
  exists s' lh, read_head s = Ok (tt, s') /\ lh_n lh = dec_n (D (headkey g)) /\
    take (Z.to_nat (lh_n lh)) (lh_block lh) = dec (D (headkey g)) /\ length (lh_block lh) = length (lh_block (log_lh g)) /\
    at_ (s <| slog := g <| log_lh := lh |> |>) s' D ∅ ∅ (disk s) (dwrites s).
Proof.
  intros g Hb Hd Hn. set (hk := headkey g) in *.
  assert (at_ s s D ∅ ∅ (disk s) (dwrites s)) as Hat by (split; done).
  destruct (at_bread s s D ∅ ∅ _ _ hk Hat Hd) as (i & s1 & Hr1 & Hh1 & _ & Hat1);
    [apply not_elem_of_empty|done|left; rewrite map_size_empty; unfold NBUF; lia|].
  change (rc ∅ hk + 1) with 1 in Hat1.
  destruct (get_held _ _ _ _ i hk (at_bio _ _ _ _ _ _ _ Hat1) Hh1 ltac:(set_solver)) as (b & Hget & Hdat & _).
  unfold read_head. rewrite mbind_reads. fold g. change (log_dev g) with hk.1. change (log_start g) with hk.2.
  rewrite (mbind_Ok _ _ _ _ _ Hr1), (mbind_Ok _ _ _ _ _ Hget). unfold upd_lh, upd_log. rewrite mbind_modify, mbind_reads, Hdat.
  change (i32 (get32 (D hk) 0)) with (dec_n (D hk)).
  set (s2 := s1 <| slog ::= _ |>).
  assert (slog s1 = g) as Hg1 by (by rewrite (bframe_slog _ _ (at_frame _ _ _ _ _ _ _ Hat1))).
  change (lh_n (log_lh (slog s2))) with (dec_n (D hk)).
  assert (forall m j blk, (j + m <= length blk)%nat ->
    for_each (seq j m) (fun k => let* g0 := mreads slog in
      if (k <? length (lh_block (log_lh g0)))%nat
      then mmodify (fun s => s <| slog ::= fun g => g <| log_lh ::= fun lh => lh <| lh_block ::= <[k := i32 (get32 (D hk) (4 + 4 * Z.of_nat k))]> |> |> |>)
      else mub) (s1 <| slog := g <| log_lh := mkLogheader (dec_n (D hk)) blk |> |>) =
    Ok (tt, s1 <| slog := g <| log_lh := mkLogheader (dec_n (D hk)) (take j blk ++ map (dec_block (D hk)) (seq j m) ++ drop (j + m) blk) |> |>)) as Hloop.
  { induction m as [|m IH]; intros j blk Hj.
    - simpl. unfold mret. rewrite Nat.add_0_r, take_drop. done.
    - cbn [seq for_each]. unfold mbind at 1. rewrite mbind_reads. simpl. rewrite (proj2 (Nat.ltb_lt _ _)) by lia.
      unfold mmodify. cbn [obind fst snd]. simpl. specialize (IH (S j) (<[j := dec_block (D hk) j]> blk)).
      rewrite length_insert in IH. specialize (IH ltac:(lia)). etransitivity; [exact IH|]. do 4 f_equal.
      rewrite (take_S_r _ _ (dec_block (D hk) j)) by (apply list_lookup_insert_eq; lia).
      rewrite take_insert_ge by lia. rewrite <- app_assoc. cbn [app]. rewrite drop_insert_lt by lia.
      by replace (j + S m)%nat with (S (j + m)) by lia. }
  set (blk := lh_block (log_lh g)).
  assert (s2 = s1 <| slog := g <| log_lh := mkLogheader (dec_n (D hk)) blk |> |>) as -> by (unfold s2; simpl; rewrite Hg1; by destruct s1).
  rewrite (mbind_Ok _ _ _ _ _ (Hloop (Z.to_nat (dec_n (D hk))) O blk ltac:(unfold blk; lia))).
  set (lh := mkLogheader _ _). set (s3 := s1 <| slog := _ |>).
  assert (at_ (s <| slog := g <| log_lh := lh |> |>) s3 D (set_rc ∅ hk 1) ({[hk]} ∪ ∅) (disk s) (dwrites s)) as Hat3.
  { destruct Hat1 as [[B1 B2 B3 B4 B5 B6 B7 B8 B9 B10 B11 B12] [F1 F2] D1 W1]. split; [by split| |done|done]. split; [|done]. unfold s3. simpl. by rewrite F1. }
  assert (held s3 i hk) as Hh3 by done.
  destruct (at_brelse _ s3 _ _ _ _ _ i hk Hat3 Hh3 ltac:(set_solver)) as (s4 & Hr4 & _ & Hat4).
  { intros _. apply (bio_clean _ _ _ _ hk Hb Hd). apply lookup_empty. }
  exists s4, lh. split; [exact Hr4|]. split; [done|]. split; [|split].
  - change (take (Z.to_nat (dec_n (D hk))) (dec (D hk) ++ drop (0 + Z.to_nat (dec_n (D hk))) blk) = dec (D hk)).
    pose proof (length_dec (D hk) ltac:(lia)) as Hl. rewrite take_app_le by lia. apply take_ge. lia.
  - change (length (dec (D hk) ++ drop (0 + Z.to_nat (dec_n (D hk))) blk) = length blk).
    pose proof (length_dec (D hk) ltac:(lia)) as Hl. rewrite length_app, length_drop. unfold blk. lia.
  - rewrite rc_set_eq, set_rc_set in Hat4. change (set_rc ∅ hk (1 - 1)) with (delete hk (∅ : gmap (Z * Z) Z)) in Hat4.
    rewrite delete_empty in Hat4. by replace (({[hk]} ∪ ∅) ∖ {[hk]}) with (∅ : gset (Z * Z)) in Hat4 by set_solver.
Qed.
Lemma at_move s0 s1 s V R K D W : at_ s0 s V R K D W -> bframe s1 s -> at_ s1 s V R K D W.
Proof. intros [Hb Hf Hd Hw] H. by split. Qed.
Lemma at_set_log s0 s V R K D W f :
  at_ s0 s V R K D W -> at_ (s <| slog ::= f |>) (s <| slog ::= f |>) V R K D W.
Proof. intros [[A1 A2 A3 A4 A5 A6 A7 A8 A9 A10 A11 A12] _ Hd Hw]. split; [by split|done|done|done]. Qed.

Lemma bframe_log s s' f : bframe s s' -> bframe (s <| slog ::= f |>) (s' <| slog ::= f |>).
Proof. intros [F1 F2]. split; [rewrite F1; done|done]. Qed.

(** Only the place of the log matters for the keys. *)
Definition same_place (g g' : log_t) : Prop := log_start g' = log_start g /\ log_dev g' = log_dev g.
Lemma same_place_keys g g' :
  same_place g g' -> headkey g' = headkey g /\ (forall j, lkey g' j = lkey g j) /\ (forall b, hkey g' b = hkey g b) /\
  (forall bs V, home_writes g' bs V = home_writes g bs V) /\ (forall bs V, log_writes g' bs V = log_writes g bs V).
Proof. intros [E1 E2]. unfold home_writes, log_writes, headkey, lkey, hkey. rewrite E1, E2. done. Qed.

Lemma loggable_head g bs j b : loggable g bs -> b ∈ bs -> headkey g <> hkey g b /\ headkey g <> lkey g j.
Proof.
  intros Hg Hb. unfold headkey, hkey, lkey. split; intros [= Heq]; [|lia].
  destruct (lw_home _ _ Hg b Hb); [lia|]. change LOGBLOCKS with 30 in *. lia.
Qed.

Definition recovery_trace (g : log_t) D : list dwrite :=
  home_writes g (dec (D (headkey g))) D ++ [(headkey g, head_data [] (D (headkey g)))].

(** recover_from_log() installs what the header names and clears the header. *)
Lemma recover_ok g D T s :
  booted g D s -> recovers g D T ->
  exists s', recover_from_log s = Ok (tt, s') /\ dwrites s' = dwrites s ++ recovery_trace g D /\
    disk s' = wapply (recovery_trace g D) D /\ lh_n (log_lh (slog s')) = 0 /\ same_place g (slog s') /\
    bio s' (wapply (recovery_trace g D) D) ∅ ∅.
Proof.
  intros [Bb Bl Bc Bd Bs Bv Bn] [Vd Vs Vn Vnd Vh Vi VT]. assert (same_place g (slog s)) as Hpl by done.
  destruct (same_place_keys _ _ Hpl) as (Ehk & _). set (hk := headkey g) in *. set (bs := dec (D hk)) in *.
  assert (bio s D ∅ ∅) as Hb by (rewrite <- Bd; by apply bio_boot).
  pose proof (length_dec (D hk) ltac:(lia)) as Hlen. fold bs in Hlen.
  destruct (read_head_ok s D Hb) as (s1 & lh & Hr1 & Hn1 & Ht1 & Hl1 & Hat1); [by rewrite Bv|rewrite Ehk; lia|].
  rewrite Ehk in Hn1, Ht1. fold bs in Ht1.
  unfold recover_from_log. rewrite (mbind_Ok _ _ _ _ _ Hr1).
  assert (slog s1 = (slog s) <| log_lh := lh |>) as Hg1 by (by rewrite (bframe_slog _ _ (at_frame _ _ _ _ _ _ _ Hat1))).
  assert (same_place g (slog s1)) as Hpl1 by (by rewrite Hg1).
  destruct (same_place_keys _ _ Hpl1) as (Ehk1 & El1 & Eh1 & Ehw1 & _). fold hk in Ehk1.
  assert (loggable (slog s1) bs) as Hlog1.
  { split; rewrite ?Hg1; simpl; rewrite ?Bv, ?Bs; try done; [congruence|lia]. }
  destruct (install_trans_ok _ s1 D ∅ _ _ bs 1 Hlog1 Hat1) as (s2 & Hr2 & Hat2);
    [rewrite map_size_empty; unfold NBUF; lia|done|intros; split; [done|rewrite map_size_empty; unfold NBUF; lia]|].
  rewrite (mbind_Ok _ _ _ _ _ Hr2). rewrite Ehw1 in Hat2. change (1 =? 0) with false in Hat2. cbv iota in Hat2.
  unfold upd_lh, upd_log. rewrite mbind_modify. apply at_set_log with (f := fun g => g <| log_lh ::= fun lh => lh <| lh_n := 0 |> |>) in Hat2 as Hat3.
  set (s3 := s2 <| slog ::= _ |>) in *.
  assert (slog s2 = slog s1) as Hg2.
  { rewrite (bframe_slog _ _ (at_frame _ _ _ _ _ _ _ Hat2)), Hg1. done. }
  assert (slog s3 = (slog s1) <| log_lh ::= fun lh => lh <| lh_n := 0 |> |>) as Hg3 by (unfold s3; simpl; by rewrite Hg2).
  assert (same_place g (slog s3)) as Hpl3 by (by rewrite Hg3).
  destruct (same_place_keys _ _ Hpl3) as (Ehk3 & _). fold hk in Ehk3.
  assert (loggable (slog s3) []) as Hlog3.
  { split; rewrite ?Hg3, ?Hg1; simpl; rewrite ?Bv; try done; [apply NoDup_nil_2|set_solver]. }
  destruct (write_head_ok _ s3 _ ∅ _ _ [] Hlog3 Hat3) as (s4 & Hr4 & Hat4); [rewrite map_size_empty; unfold NBUF; lia|done|].
  rewrite Ehk3 in Hat4. rewrite (wapply_notin _ _ hk) in Hat4.
  2:{ rewrite <- (take_ge (home_writes g bs D) (length bs)) by (unfold home_writes; by rewrite length_imap).
      intros Hin. apply home_writes_keys in Hin as (b & Hbin & _ & Heq).
      destruct (loggable_head _ _ O b Hlog1 Hbin) as [Hne _]. apply Hne. by rewrite Ehk1, Eh1. }
  exists s4. split; [exact Hr4|]. destruct Hat4 as [B4 F4 D4 W4]. unfold recovery_trace. fold hk bs.
  rewrite wapply_app, app_assoc, W4, D4, Bd. split; [done|]. split; [done|].
  rewrite (bframe_slog _ _ F4), Hg3. done.
Qed.

(** Interrupting the recovery leaves a disk that recovers to the same. *)
Lemma recovers_prefix g D T q : recovers g D T -> recovers g (wapply (take q (recovery_trace g D)) D) T.
Proof.
  intros Hrv. pose proof Hrv as [Vd Vs Vn Vnd Vh Vi VT]. set (hk := headkey g) in *. set (bs := dec (D hk)) in *.
  set (hw := home_writes g bs D) in *. pose proof (length_dec (D hk) ltac:(lia)) as Hlen. fold bs in Hlen.
  assert (length hw = length bs) as Hlhw by (unfold hw, home_writes; by rewrite length_imap).
  assert (forall b, b ∈ bs -> hk <> hkey g b) as Hhk.
  { intros b Hb. unfold hk, headkey, hkey. intros [= Heq]. destruct (Vh b Hb); change LOGBLOCKS with 30 in *; lia. }
  assert (forall j k, k ∈ (take j hw).*1 -> exists b, b ∈ bs /\ k = hkey g b) as Hkeys.
  { intros j k Hk. apply home_writes_keys in Hk as (b & Hb & _ & ->). by exists b. }
  assert (forall k, in_log g k -> forall j, wapply (take j hw) D k = D k) as Hlogk.
  { intros k Hk j. apply wapply_notin. intros Hin. apply Hkeys in Hin as (b & Hb & ->). destruct Hk as [_ Hk].
    unfold hkey in Hk. simpl in Hk. destruct (Vh b Hb); lia. }
  assert (in_log g hk) as Hinhk by (split; [done|]; unfold hk, headkey; simpl; change LOGBLOCKS with 30; lia).
  assert (NoDup hw.*1) as Hnd.
  { assert (hw.*1 = hkey g <$> bs) as ->.
    { apply list_eq. intros j. unfold hw, home_writes. rewrite !list_lookup_fmap, list_lookup_imap. by destruct (bs !! j). }
    apply NoDup_fmap_2; [|done]. intros x y. unfold hkey. by intros [=]. }
  unfold recovery_trace. fold hk bs hw. destruct (decide (q <= length hw)%nat) as [Hq|Hq].
  - rewrite take_app_le by done. set (D' := wapply (take q hw) D).
    assert (D' hk = D hk) as HDhk by (by apply Hlogk).
    assert (home_writes g bs D' = hw) as Hhw'.
    { apply list_eq. intros j. unfold hw, home_writes. rewrite !list_lookup_imap. destruct (bs !! j) as [b|] eqn:Hj; [|done].
      simpl. do 2 f_equal. apply Hlogk. split; [done|]. unfold lkey. simpl. apply lookup_lt_Some in Hj. change LOGBLOCKS with 30 in *. lia. }
    split; fold hk; rewrite ?HDhk; try done. intros k Hk. fold bs. rewrite Hhw', <- (VT k Hk).
    destruct (decide (k ∈ hw.*1)) as [Hin|Hni].
    + apply list_elem_of_fmap in Hin as ([k' v] & -> & Hw). by rewrite !(wapply_in hw _ _ v).
    + rewrite !(wapply_notin hw) by done. apply wapply_notin. intros Hin. apply Hni.
      apply list_elem_of_fmap in Hin as (w & -> & Hw). apply list_elem_of_fmap. exists w. split; [done|].
      apply list_elem_of_lookup in Hw as (i & Hi). apply lookup_take_Some in Hi as [Hi _]. by eapply list_elem_of_lookup_2.
  - rewrite take_ge by (rewrite length_app; simpl; lia). rewrite wapply_app. set (D1 := wapply hw D).
    change (wapply [(hk, head_data [] (D hk))] D1) with (vset D1 hk (head_data [] (D hk))).
    destruct (dec_head_data [] (D hk) Vs ltac:(done) ltac:(constructor)) as (H1 & H2 & H3).
    split; fold hk; rewrite ?vset_eq, ?H1, ?H2; try done; [apply NoDup_nil_2|set_solver|].
    intros k Hk. change (home_writes g [] _) with ([] : list dwrite). simpl. rewrite vset_ne by (by intros ->). by apply VT.
Qed.
(** ** commit() *)

(** A transaction that changed the blocks [bs]: they are pinned in the cache,
    the blocks of the log are not in use, the header on the disk is clear. *)
Record committable s V R (bs : list Z) : Prop := {
  cm_log : loggable (slog s) bs;
  cm_bio : bio s V R ∅;
  cm_room : (size R < NBUF)%nat;
  cm_pinned b : b ∈ bs -> 0 < rc R (hkey (slog s) b) < 2 ^ 32 - 1;
  cm_free j : (j < length bs)%nat -> R !! lkey (slog s) j = None;
  cm_head : R !! headkey (slog s) = None;
  cm_size : Z.of_nat (length (disk s (headkey (slog s)))) = BSIZE;
  cm_clear : dec_n (disk s (headkey (slog s))) = 0;
  cm_int : Forall is_int bs
}.

(** The writes of commit(), in order. *)
Definition commit_trace (g : log_t) (bs : list Z) V : list dwrite :=
  let hk := headkey g in let h := head_data bs (V hk) in
  log_writes g bs V ++ (hk, h) :: map (fun b => (hkey g b, V (hkey g b))) bs ++ [(hk, head_data [] h)].

(** The disk when the transaction is committed. *)
Definition committed (g : log_t) (bs : list Z) V D : Z * Z -> list Z :=
  fun k => if decide (k.1 = log_dev g /\ k.2 ∈ bs) then V k else D k.

Lemma home_writes_committed g bs V V2 :
  (forall j b, bs !! j = Some b -> V2 (lkey g j) = V (hkey g b)) ->
  home_writes g bs V2 = map (fun b => (hkey g b, V (hkey g b))) bs.
Proof.
  intros H. apply list_eq. intros j. change (map ?f bs) with (f <$> bs). unfold home_writes.
  rewrite list_lookup_imap, list_lookup_fmap. destruct (bs !! j) as [b|] eqn:Hj; [|done]. simpl. by rewrite (H j b Hj).
Qed.

(** The disk once the header is written: the commit point. *)
Definition logged (g : log_t) (bs : list Z) V D : Z * Z -> list Z :=
  vset (wapply (log_writes g bs V) D) (headkey g) (head_data bs (V (headkey g))).

Lemma logged_log g bs V D j b : loggable g bs -> bs !! j = Some b -> logged g bs V D (lkey g j) = V (hkey g b).
Proof.
  intros Hg Hj. pose proof (list_elem_of_lookup_2 _ _ _ Hj) as Hb. unfold logged.
  rewrite vset_ne by (apply not_eq_sym; by eapply loggable_head). apply wapply_in.
  - assert ((log_writes g bs V).*1 = lkey g <$> seq 0 (length bs)) as ->.
    { apply list_eq. intros i. unfold log_writes. rewrite !list_lookup_fmap, list_lookup_imap.
      destruct (bs !! i) as [c|] eqn:Hi; simpl.
      - rewrite lookup_seq_lt by (by eapply lookup_lt_Some). done.
      - by rewrite lookup_seq_ge by (by apply lookup_ge_None). }
    apply NoDup_fmap_2; [|apply NoDup_seq]. intros x y. unfold lkey. intros [=]. lia.
  - apply (list_elem_of_lookup_2 _ j). unfold log_writes. by rewrite list_lookup_imap, Hj.
Qed.

Lemma commit_ok s V R bs :
  let g := slog s in
  committable s V R bs -> bs <> [] ->
  exists s', commit s = Ok (tt, s') /\ dwrites s' = dwrites s ++ commit_trace g bs V /\
    disk s' = wapply (commit_trace g bs V) (disk s) /\ slog s' = g <| log_lh ::= fun lh => lh <| lh_n := 0 |> |> /\
    bio s' (wapply (commit_trace g bs V) V) (unpin g bs R) ∅ /\
    bframe (s <| slog ::= fun g => g <| log_lh ::= fun lh => lh <| lh_n := 0 |> |> |>) s'.
Proof.
  intros g [Clog Cbio Croom Cpin Cfree Chead Csize Cclear Cint] Hne. fold g in Clog, Cpin, Cfree, Chead, Csize, Cclear. set (hk := headkey g) in *.
  assert (0 < Z.of_nat (length bs)) as Hpos by (destruct bs; [done|simpl; lia]).
  unfold commit. rewrite mbind_reads. fold g. rewrite <- (lw_n _ _ Clog), (proj2 (Z.ltb_lt _ _)) by done.
  destruct (write_log_ok s V R bs Clog Cbio Croom Cpin Cfree) as (s1 & Hr1 & Hat1). fold g in Hat1.
  rewrite (mbind_Ok _ _ _ _ _ Hr1).
  pose proof (bframe_slog _ _ (at_frame _ _ _ _ _ _ _ Hat1)) as Hg1. fold g in Hg1.
  assert (wapply (log_writes g bs V) V hk = V hk) as HVhk.
  { apply wapply_notin. rewrite <- (take_ge (log_writes g bs V) (length bs)) by (unfold log_writes; by rewrite length_imap).
    intros Hin. apply log_writes_keys in Hin as (j & _ & _ & Heq). unfold hk, headkey, lkey in Heq. injection Heq. lia. }
  destruct (write_head_ok s s1 _ R _ _ bs ltac:(by rewrite Hg1) Hat1 Croom ltac:(by rewrite Hg1)) as (s2 & Hr2 & Hat2).
  rewrite Hg1 in Hat2. fold hk in Hat2. rewrite HVhk in Hat2. rewrite (mbind_Ok _ _ _ _ _ Hr2).
  change (vset (wapply (log_writes g bs V) V) hk (head_data bs (V hk))) with (logged g bs V V) in Hat2.
  pose proof (bframe_slog _ _ (at_frame _ _ _ _ _ _ _ Hat2)) as Hg2. fold g in Hg2.
  destruct (install_trans_ok s s2 _ R _ _ bs 0 ltac:(by rewrite Hg2) Hat2 Croom ltac:(by rewrite Hg2) ltac:(by rewrite Hg2)) as (s3 & Hr3 & Hat3).
  rewrite Hg2 in Hat3. rewrite (home_writes_committed g bs V) in Hat3 by (intros; by apply logged_log).
  set (hw := map (fun b => (hkey g b, V (hkey g b))) bs) in *. change (0 =? 0) with true in Hat3. cbv iota in Hat3.
  rewrite (mbind_Ok _ _ _ _ _ Hr3). pose proof (bframe_slog _ _ (at_frame _ _ _ _ _ _ _ Hat3)) as Hg3. fold g in Hg3.
  unfold upd_lh, upd_log. rewrite mbind_modify. apply at_set_log with (f := fun g => g <| log_lh ::= fun lh => lh <| lh_n := 0 |> |>) in Hat3 as Hat4.
  set (s4 := s3 <| slog ::= _ |>) in *.
  assert (slog s4 = g <| log_lh ::= fun lh => lh <| lh_n := 0 |> |>) as Hg4 by (unfold s4; simpl; by rewrite Hg3).
  assert (loggable (slog s4) []) as Hlog4.
  { split; rewrite ?Hg4; simpl; try done; [apply (lw_dev _ _ Clog)|apply NoDup_nil_2|set_solver]. }
  assert (headkey (slog s4) = hk) as Ehk by (by rewrite Hg4).
  destruct (write_head_ok _ s4 _ _ _ _ [] Hlog4 Hat4) as (s5 & Hr5 & Hat5).
  { eapply Nat.le_lt_trans; [|exact Croom]. apply size_unpin; [apply (lw_nodup _ _ Clog)|]. intros b Hb. apply Cpin in Hb. lia. }
  { rewrite Ehk, unpin_lookup; [done|]. intros b Hb. by apply (loggable_head _ _ O b Clog). }
  rewrite Ehk in Hat5. rewrite (wapply_notin hw _ hk) in Hat5.
  2:{ unfold hw. change (map ?f bs) with (f <$> bs). rewrite <- list_fmap_compose. intros Hin.
      apply list_elem_of_fmap in Hin as (b & Heq & Hb). by apply (loggable_head _ _ O b Clog) in Hb as [Hx _]. }
  assert (logged g bs V V hk = head_data bs (V hk)) as Hlh by apply vset_eq. rewrite Hlh in Hat5.
  exists s5. split; [exact Hr5|]. destruct Hat5 as [B5 F5 D5 W5]. unfold commit_trace. fold hk hw.
  rewrite (bframe_slog _ _ F5), Hg4. split; [|split; [|split; [done|split]]].
  - rewrite W5. by rewrite <- !app_assoc.
  - rewrite D5, wapply_app. change ((hk, head_data bs (V hk)) :: ?l) with ([(hk, head_data bs (V hk))] ++ l). by rewrite !wapply_app.
  - rewrite wapply_app. change ((hk, head_data bs (V hk)) :: ?l) with ([(hk, head_data bs (V hk))] ++ l). by rewrite !wapply_app.
  - etrans; [|exact F5]. by apply bframe_log, (at_frame _ _ _ _ _ _ _ Hat3).
Qed.

(** The disk at the commit point recovers to the new contents, a disk before
    it to the old ones. *)
Lemma logged_recovers s V R bs :
  committable s V R bs -> recovers (slog s) (logged (slog s) bs V (disk s)) (committed (slog s) bs V (disk s)).
Proof.
  intros [Clog Cbio Croom Cpin Cfree Chead Csize Cclear Cint]. set (g := slog s) in *. set (hk := headkey g) in *.
  assert (V hk = disk s hk) as HVhk by (apply (bio_clean _ _ _ _ hk Cbio); [apply (lw_dev _ _ Clog)|done]).
  assert (logged g bs V (disk s) hk = head_data bs (disk s hk)) as Hlh by (unfold logged; fold hk; by rewrite vset_eq, HVhk).
  destruct (dec_head_data bs (disk s hk) Csize (lw_max _ _ Clog) Cint) as (H1 & H2 & H3).
  split; fold hk; rewrite ?Hlh, ?H1, ?H2, ?H3; try done.
  - apply (lw_dev _ _ Clog).
  - pose proof (lw_max _ _ Clog). lia.
  - apply (lw_nodup _ _ Clog).
  - apply (lw_home _ _ Clog).
  - intros k Hk. rewrite (home_writes_committed g bs V) by (intros; by apply logged_log).
    unfold committed. case_decide as Hd.
    + apply wapply_in.
      * change (map ?f bs) with (f <$> bs). rewrite <- list_fmap_compose. apply NoDup_fmap_2; [|apply (lw_nodup _ _ Clog)].
        intros x y. simpl. unfold hkey. by intros [=].
      * change (map ?f bs) with (f <$> bs). apply list_elem_of_fmap. exists k.2. destruct Hd as [E1 E2]. split; [|done].
        unfold hkey. rewrite <- E1. by destruct k.
    + rewrite wapply_notin.
      * unfold logged. fold hk. rewrite vset_ne.
        -- apply wapply_notin. rewrite <- (take_ge (log_writes g bs V) (length bs)) by (unfold log_writes; by rewrite length_imap).
           intros Hin. apply log_writes_keys in Hin as (j & Hj & _ & ->). apply Hk. split; [done|]. unfold lkey. simpl.
           pose proof (lw_max _ _ Clog). lia.
        -- intros ->. apply Hk. split; [done|]. unfold hk, headkey. simpl. change LOGBLOCKS with 30. lia.
      * change (map ?f bs) with (f <$> bs). rewrite <- list_fmap_compose. intros Hin.
        apply list_elem_of_fmap in Hin as (b & -> & Hb). apply Hd. done.
Qed.

Lemma unlogged_recovers s V R bs p :
  committable s V R bs -> recovers (slog s) (wapply (take p (log_writes (slog s) bs V)) (disk s)) (disk s).
Proof.
  intros [Clog Cbio Croom Cpin Cfree Chead Csize Cclear Cint]. set (g := slog s) in *. set (hk := headkey g) in *.
  set (D := wapply _ _).
  assert (forall k, (forall j, (j < length bs)%nat -> k <> lkey g j) -> D k = disk s k) as HD.
  { intros k Hk. apply wapply_notin. intros Hin. apply log_writes_keys in Hin as (j & Hj & _ & ->). by apply (Hk j). }
  assert (D hk = disk s hk) as Hhk by (apply HD; intros j _; unfold hk, headkey, lkey; intros [=]; lia).
  assert (dec (disk s hk) = []) as Hdec by (unfold dec; by rewrite Cclear).
  split; fold hk; rewrite ?Hhk, ?Hdec, ?Cclear; try done.
  - apply (lw_dev _ _ Clog).
  - apply NoDup_nil_2.
  - set_solver.
  - intros k Hk. apply HD. intros j Hj ->. apply Hk. split; [done|]. unfold lkey. simpl. pose proof (lw_max _ _ Clog). lia.
Qed.

(** Every prefix of the writes of commit() recovers to all or nothing. *)
Lemma commit_prefix_recovers s V R bs p :
  let g := slog s in
  committable s V R bs ->
  recovers g (wapply (take p (commit_trace g bs V)) (disk s))
    (if (p <=? length bs)%nat then disk s else committed g bs V (disk s)).
Proof.
  intros g Hc. pose proof (cm_log _ _ _ _ Hc) as Hg. fold g in Hg. unfold commit_trace.
  assert (length (log_writes g bs V) = length bs) as Hlw by (unfold log_writes; by rewrite length_imap).
  destruct (Nat.leb_spec p (length bs)) as [Hp|Hp].
  - rewrite take_app_le by lia. by apply (unlogged_recovers s V R).
  - rewrite take_app_ge by lia. rewrite Hlw. replace (p - length bs)%nat with (S (p - length bs - 1)) by lia.
    cbn [take]. change (?x :: ?l) with ([x] ++ l). rewrite !wapply_app.
    set (hk := headkey g). change (wapply [(hk, ?h)] ?d) with (logged g bs V (disk s)).
    assert (logged g bs V (disk s) hk = head_data bs (V hk)) as Hlh by apply vset_eq. rewrite <- Hlh.
    rewrite <- (home_writes_committed g bs V (logged g bs V (disk s))) by (intros; by apply logged_log).
    pose proof (recovers_prefix g _ _ (p - length bs - 1) (logged_recovers s V R bs Hc)) as Hr.
    unfold recovery_trace in Hr. fold hk g in Hr. rewrite Hlh in Hr |- *.
    assert (dec (head_data bs (V hk)) = bs) as Hdec; [|by rewrite Hdec in Hr].
    assert (V hk = disk s hk) as -> by (apply (bio_clean _ _ _ _ hk (cm_bio _ _ _ _ Hc)); [apply (lw_dev _ _ Hg)|apply (cm_head _ _ _ _ Hc)]).
    by apply (dec_head_data bs (disk s hk) (cm_size _ _ _ _ Hc) (lw_max _ _ Hg) (cm_int _ _ _ _ Hc)).
Qed.

(** Crashes during recovery: [crashes g D D'] when the machine boots on the
    disk [D], is stopped at some write of recover_from_log(), boots again, and
    so on, and is finally left with the disk [D']. *)
Inductive crashes (g : log_t) : (Z * Z -> list Z) -> (Z * Z -> list Z) -> Prop :=
  | crashes_none D : crashes g D D
  | crashes_again D D' s s' w q :
      booted g D s -> recover_from_log s = Ok (tt, s') -> dwrites s' = dwrites s ++ w ->
      crashes g (wapply (take q w) D) D' -> crashes g D D'.

Lemma crashes_recovers g D D' T : crashes g D D' -> recovers g D T -> recovers g D' T.
Proof.
  induction 1 as [D|D D' s s' w q Hb Hrun Hw _ IH]; [done|]. intros Hrv. apply IH.
  destruct (recover_ok g D T s Hb Hrv) as (s2 & Hrun2 & Hw2 & _). rewrite Hrun in Hrun2. injection Hrun2 as <-.
  rewrite Hw in Hw2. apply app_inv_head in Hw2 as ->. by apply recovers_prefix.
Qed.

(** C1: commit() succeeds and writes the transaction to its place; and if the
    machine stops after any number [p] of its disk writes, boots, and is again
    stopped during recovery any number of times, then the first recovery that
    runs to its end leaves outside of the log either the disk as it was before
    the transaction (the header was not written) or all of its blocks. *)
Theorem commit_crash_atomic s V R bs :
  let g := slog s in let old := disk s in let new := committed g bs V (disk s) in
  committable s V R bs -> bs <> [] ->
  exists s' w, commit s = Ok (tt, s') /\ dwrites s' = dwrites s ++ w /\ disk s' = wapply w old /\
    (forall k, ~ in_log g k -> disk s' k = new k) /\
    forall p D s1, crashes g (wapply (take p w) old) D -> booted g D s1 ->
      exists s2, recover_from_log s1 = Ok (tt, s2) /\
        forall k, ~ in_log g k -> disk s2 k = if (p <=? length bs)%nat then old k else new k.
Proof.
  intros g old new Hc Hne. destruct (commit_ok s V R bs Hc Hne) as (s' & Hrun & Hw & Hd & _ & _). fold g in Hw, Hd.
  exists s', (commit_trace g bs V). split; [done|]. split; [done|]. split; [done|].
  assert (forall p D s1, crashes g (wapply (take p (commit_trace g bs V)) old) D -> booted g D s1 ->
      exists s2, recover_from_log s1 = Ok (tt, s2) /\
        forall k, ~ in_log g k -> disk s2 k = if (p <=? length bs)%nat then old k else new k) as Hcrash.
  { intros p D s1 Hcr Hbt. pose proof (crashes_recovers g _ D _ Hcr (commit_prefix_recovers s V R bs p Hc)) as Hrv.
    destruct (recover_ok g D _ s1 Hbt Hrv) as (s2 & Hr2 & _ & Hd2 & _). exists s2. split; [done|]. intros k Hk. rewrite Hd2.
    unfold recovery_trace. rewrite wapply_app. change (wapply [(headkey g, ?h)] ?d) with (vset d (headkey g) h).
    rewrite vset_ne.
    - rewrite (rv_T _ _ _ Hrv k Hk). by destruct (p <=? length bs)%nat.
    - intros ->. apply Hk. split; [done|]. unfold headkey. simpl. change LOGBLOCKS with 30. lia. }
  split; [|done]. intros k Hk. rewrite Hd.
  pose proof (commit_prefix_recovers s V R bs (length (commit_trace g bs V)) Hc) as Hrv. fold g in Hrv. rewrite firstn_all in Hrv.
  assert ((length (commit_trace g bs V) <=? length bs)%nat = false) as Hlen.
  { apply Nat.leb_gt. unfold commit_trace, log_writes. rewrite !length_app, length_imap. simpl. lia. }
  rewrite Hlen in Hrv. pose proof (rv_T _ _ _ Hrv k Hk) as Hk'. etransitivity; [|exact Hk'].
  change (disk s) with old.
  assert (dec (wapply (commit_trace g bs V) old (headkey g)) = []) as ->; [|done].
  unfold commit_trace. rewrite wapply_app, (app_comm_cons _ _ (headkey g, _)), wapply_app.
  change (wapply [(headkey g, ?h)] ?d) with (vset d (headkey g) h). rewrite vset_eq.
  assert (V (headkey g) = disk s (headkey g)) as -> by (apply (bio_clean _ _ _ _ _ (cm_bio _ _ _ _ Hc)); [apply (lw_dev _ _ (cm_log _ _ _ _ Hc))|apply (cm_head _ _ _ _ Hc)]).
  destruct (dec_head_data bs (disk s (headkey g)) (cm_size _ _ _ _ Hc) (lw_max _ _ (cm_log _ _ _ _ Hc)) (cm_int _ _ _ _ Hc)) as (_ & _ & H3).
  by apply (dec_head_data [] (head_data bs (disk s (headkey g))) H3).
Qed.
End Crash.
