(* ===== verification/LogOps.v ===== *)
(** * Transactions

    begin_op(), log_write() and end_op() of kernel/log.c: a file-system
    operation that changes blocks between begin_op() and end_op() changes them
    on the disk all at once. *)
From stdpp Require Import base list strings gmap.
From Stdlib Require Import ZArith Lia.
From S2P Require Import Prelude Spinlock Kalloc FsState Bio BioList BioSpec BioOps Bytes Log LogSpec LogCrash.

Section LogOps.
Context {E : Type}.
Implicit Types (s : fsst E) (V : Z * Z -> list Z) (R : gmap (Z * Z) Z) (K : gset (Z * Z)).

(** ** The log lock *)
Lemma log_cycle s :
  lk_free (log_lock (slog s)) -> cpu_wf (fs_cpu s) ->
  exists c1 l1, acquire_log s = Ok (tt, s <| fs_cpu := c1 |> <| slog ::= fun g => g <| log_lock := l1 |> |>) /\
    cpu_wf c1 /\ lockcycle c1 = c1 /\
    forall s2, fs_cpu s2 = c1 -> log_lock (slog s2) = l1 -> fs_hart s2 = fs_hart s ->
      release_log s2 = Ok (tt, s2 <| fs_cpu := lockcycle (fs_cpu s) |> <| slog ::= fun g => g <| log_lock := log_lock (slog s) |> |>).
Proof.
  intros Hl Hc. pose proof (acquire_release (fs_hart s) (fs_cpu s) (log_lock (slog s)) Hl Hc) as H.
  rewrite acquire_free in H by done. cbn [obind fst snd] in H.
  exists (push_off (fs_cpu s)), ((log_lock (slog s)) <| locked := 1 |> <| lk_cpu := Some (fs_hart s) |>).
  split; [unfold acquire_log, with_lock; by rewrite acquire_free|].
  split; [by apply cpu_wf_push_off|]. split.
  - unfold lockcycle. rewrite noff_push_off, (proj2 (Z.eqb_neq _ _)); [done|]. destruct Hc. lia.
  - intros s2 E1 E2 E3. unfold release_log, with_lock. rewrite E1, E2, E3. rewrite H. done.
Qed.

(** ** The state between operations and within one *)

(** The transaction under way has changed the blocks [bs]. *)
Record logging s V R K (bs : list Z) : Prop := {
  lg_bio : bio s V R K;
  lg_lock : lk_free (log_lock (slog s));
  lg_len : Z.of_nat (length (lh_block (log_lh (slog s)))) = LOGBLOCKS;
  lg_log : loggable (slog s) bs;
  lg_pin b : b ∈ bs -> 0 < rc R (hkey (slog s) b) < 2 ^ 32 - 1;
  lg_free k : in_log (slog s) k -> R !! k = None;
  lg_size : Z.of_nat (length (disk s (headkey (slog s)))) = BSIZE;
  lg_clear : dec_n (disk s (headkey (slog s))) = 0;
  lg_int : Forall is_int bs;
  lg_idle : log_committing (slog s) = 0
}.

Lemma in_log_head g : in_log g (headkey g).
Proof. split; [done|]. unfold headkey. simpl. change LOGBLOCKS with 30. lia. Qed.
Lemma in_log_lkey g j : Z.of_nat j < LOGBLOCKS -> in_log g (lkey g j).
Proof. intros Hj. split; [done|]. unfold lkey. simpl. lia. Qed.

Lemma logging_committable s V R bs : logging s V R ∅ bs -> (size R < NBUF)%nat -> committable s V R bs.
Proof.
  intros [L1 L2 L3 L4 L5 L6 L7 L8 L9 L10] Hr. split; try done.
  - intros j Hj. apply L6, in_log_lkey. pose proof (lw_max _ _ L4). lia.
  - apply L6, in_log_head.
Qed.

(** ** absorb: the loop of log_write() *)
Lemma absorb_le b l n : (n <= length l)%nat -> (absorb b l n <= n)%nat.
Proof.
  revert l. induction n as [|n IH]; intros [|x l] Hn; simpl in *; try lia. destruct (x =? b); [lia|].
  specialize (IH l ltac:(lia)). lia.
Qed.
Lemma absorb_spec b l n :
  (n <= length l)%nat ->
  if decide (b ∈ take n l) then (absorb b l n < n)%nat /\ l !! absorb b l n = Some b else absorb b l n = n.
Proof.
  revert l. induction n as [|n IH]; intros [|x l] Hn; simpl in *; try lia; try (rewrite decide_False by apply not_elem_of_nil; done).
  destruct (Z.eqb_spec x b) as [->|Hne].
  - rewrite decide_True by (by left). split; [lia|done].
  - specialize (IH l ltac:(lia)). destruct (decide (b ∈ take n l)) as [Hin|Hin].
    + rewrite decide_True by (by right). destruct IH. split; [lia|done].
    + rewrite decide_False; [lia|]. rewrite not_elem_of_cons. split; [congruence|done].
Qed.

(** ** log_write() *)
Definition log_add (bs : list Z) (b : Z) : list Z := if decide (b ∈ bs) then bs else bs ++ [b].

Lemma logged_blocks g bs b :
  loggable g bs -> Z.of_nat (length (lh_block (log_lh g))) = LOGBLOCKS -> Z.of_nat (length bs) < LOGBLOCKS ->
  b < log_start g \/ log_start g + LOGBLOCKS < b ->
  let k := absorb b (lh_block (log_lh g)) (Z.to_nat (lh_n (log_lh g))) in
  if decide (b ∈ bs) then (Z.of_nat k =? lh_n (log_lh g)) = false /\ <[k := b]> (lh_block (log_lh g)) = lh_block (log_lh g)
  else (Z.of_nat k =? lh_n (log_lh g)) = true /\
    loggable (g <| log_lh := mkLogheader (lh_n (log_lh g) + 1) (<[k := b]> (lh_block (log_lh g))) |>) (bs ++ [b]).
Proof.
  intros [L1 L2 L3 L4 L5 L6] Hlen Hroom Hb k. set (n := Z.to_nat (lh_n (log_lh g))) in *.
  assert (n = length bs) as En by lia.
  pose proof (absorb_spec b (lh_block (log_lh g)) n ltac:(lia)) as Ha. fold k in Ha. rewrite L3 in Ha.
  destruct (decide (b ∈ bs)) as [Hin|Hni].
  - destruct Ha as [Hk Hl]. split; [apply Z.eqb_neq; lia|]. by apply list_insert_id.
  - split; [apply Z.eqb_eq; lia|]. rewrite Ha. split; simpl; try done.
    + rewrite length_app. simpl. lia.
    + replace (Z.to_nat (lh_n (log_lh g) + 1)) with (S n) by lia.
      rewrite (take_S_r _ _ b) by (apply list_lookup_insert_eq; lia). by rewrite take_insert_ge, L3 by lia.
    + rewrite length_app. simpl. lia.
    + apply NoDup_app. split; [done|]. split; [|apply NoDup_singleton]. intros x Hx Hx'.
      apply list_elem_of_singleton in Hx'. congruence.
    + intros x Hx. apply elem_of_app in Hx as [Hx|Hx]; [by apply L6|]. apply list_elem_of_singleton in Hx as ->. done.
Qed.

Lemma bframe_set_log s1 s2 c h :
  s2 = s1 <| fs_cpu := fs_cpu s2 |> <| bufs := bufs s2 |> <| disk := disk s1 |> <| dwrites := dwrites s1 |> ->
  s2 <| slog := h |> <| fs_cpu := c |> = s1 <| fs_cpu := c |> <| bufs := bufs s2 |> <| slog := h |>.
Proof. destruct s1, s2. simpl. intros [=]. subst. reflexivity. Qed.

(** log_write() adds the block to the transaction and pins it; a block that is
    already part of the transaction is absorbed. *)
Lemma log_write_ok s V R K bs i b :
  let k := hkey (slog s) b in
  logging s V R K bs -> held s i k -> k ∈ K -> 1 <= log_outstanding (slog s) -> Z.of_nat (length bs) < LOGBLOCKS ->
  b < log_start (slog s) \/ log_start (slog s) + LOGBLOCKS < b -> is_int b -> rc R k < 2 ^ 32 - 2 ->
  exists s', log_write i s = Ok (tt, s') /\ same_held s s' /\ disk s' = disk s /\ dwrites s' = dwrites s /\
    slog s' = (slog s) <| log_lh := log_lh (slog s') |> /\
    s' = s <| fs_cpu := lockcycle (fs_cpu s) |> <| bufs := bufs s' |> <| slog := slog s' |> /\
    logging s' V (if decide (b ∈ bs) then R else set_rc R k (rc R k + 1)) K (log_add bs b).
Proof.
  intros k [L1 L2 L3 L4 L5 L6 L7 L8 L9 L10] Hh HK Hout Hroom Hb Hint Hrc.
  destruct (log_cycle s L2 (bi_cpu _ _ _ _ L1)) as (c1 & l1 & Hacq & Hc1 & Hlc & Hrel).
  unfold log_write. rewrite (mbind_Ok _ _ _ _ _ Hacq). set (s1 := s <| fs_cpu := c1 |> <| slog ::= _ |>).
  rewrite mbind_reads. change (log_lh (slog s1)) with (log_lh (slog s)). change (log_outstanding (slog s1)) with (log_outstanding (slog s)).
  rewrite <- (lw_n _ _ L4). rewrite (proj2 (Z.leb_gt _ _)) by lia. rewrite (proj2 (Z.ltb_ge _ _)) by lia.
  assert (bio s1 V R K) as Hb1.
  { destruct L1 as [A1 A2 A3 A4 A5 A6 A7 A8 A9 A10 A11 A12]. by split. }
  destruct (get_held s1 V R K i k Hb1 Hh HK) as (bb & Hget & _ & Hbno & _). rewrite (mbind_Ok _ _ _ _ _ Hget), Hbno.
  change k.2 with b. unfold upd_lh, upd_log. rewrite (lw_n _ _ L4).
  pose proof (logged_blocks (slog s) bs b L4 L3 Hroom Hb) as Hlog. cbv zeta in Hlog.
  set (kk := absorb b _ _) in *. rewrite mbind_modify. unfold log_add. destruct (decide (b ∈ bs)) as [Hin|Hni].
  - destruct Hlog as [-> Hins]. rewrite mbind_ret. set (s2 := s1 <| slog ::= _ |>).
    rewrite Hrel by done. eexists. split; [reflexivity|].
    assert (slog s2 = (slog s) <| log_lock := l1 |>) as Hg2.
    { unfold s2. simpl. rewrite Hins. by destruct (slog s) as [? ? ? ? ? ? []]. }
    set (s' := s2 <| fs_cpu := _ |> <| slog ::= _ |>).
    assert (slog s' = slog s) as Hg'.
    { change (slog s') with ((slog s2) <| log_lock := log_lock (slog s) |>). rewrite Hg2. by destruct (slog s). }
    split; [done|]. split; [done|]. split; [done|]. split; [rewrite Hg'; by destruct (slog s)|]. split; [done|].
    split; rewrite ?Hg'; try done. destruct L1 as [A1 A2 A3 A4 A5 A6 A7 A8 A9 A10 A11 A12]. split; try done. by apply cpu_wf_lockcycle.
  - destruct Hlog as [-> Hlog].
    set (s2 := s1 <| slog ::= _ |>).
    assert (bio s2 V R K) as Hb2.
    { destruct Hb1 as [A1 A2 A3 A4 A5 A6 A7 A8 A9 A10 A11 A12]. by split. }
    destruct (bio_bpin s2 V R K i k Hb2 Hh HK ltac:(lia)) as (s3 & Hpin & Hf3 & Hd3 & Hw3 & Hsh3 & Hb3).
    unfold mbind at 1. rewrite (mbind_Ok _ _ _ _ _ Hpin). unfold mmodify. cbn [obind fst snd].
    set (s4 := s3 <| slog ::= _ |>). pose proof (bframe_slog _ _ Hf3) as Hg3.
    assert (fs_cpu s4 = c1) as Hc4.
    { change (fs_cpu s4) with (fs_cpu s3). destruct (bf_cpu _ _ Hf3) as [-> | ->]; [done|]. exact Hlc. }
    assert (fs_hart s4 = fs_hart s) as Hh4 by (change (fs_hart s4) with (fs_hart s3); rewrite (bf_rest _ _ Hf3); done).
    rewrite Hrel; [|done|unfold s4; simpl; by rewrite Hg3|done].
    set (s' := s4 <| fs_cpu := _ |> <| slog ::= _ |>). exists s'. split; [done|].
    set (lh' := mkLogheader (lh_n (log_lh (slog s)) + 1) (<[kk:=b]> (lh_block (log_lh (slog s))))) in *.
    assert (slog s' = (slog s) <| log_lh := lh' |>) as Hg'.
    { unfold s', s4. simpl. rewrite Hg3. simpl. by destruct (slog s) as [? ? ? ? ? ? []]. }
    split; [done|]. split; [exact Hd3|]. split; [exact Hw3|]. split; [rewrite Hg'; by destruct (slog s)|].
    split.
    { pose proof (bf_rest _ _ Hf3) as F3. rewrite Hd3, Hw3 in F3. exact (bframe_set_log s2 s3 _ (slog s') F3). }
    assert (0 < rc R k) as Hpos.
    { destruct (held_locked _ _ _ _ _ _ Hb1 Hh HK) as (? & _ & _ & _ & Hx & Hy & _). lia. }
    split; rewrite ?Hg'; try done.
    + destruct Hb3 as [A1 A2 A3 A4 A5 A6 A7 A8 A9 A10 A11 A12]. split; try done. apply cpu_wf_lockcycle, (bi_cpu _ _ _ _ L1).
    + simpl. rewrite length_insert. done.
    + intros x Hx. change (hkey ((slog s) <| log_lh := lh' |>) x) with (hkey (slog s) x).
      destruct (decide (hkey (slog s) x = k)) as [Heq|Hne]; [rewrite Heq, rc_set_eq; lia|]. rewrite rc_set_ne by done.
      apply L5. apply elem_of_app in Hx as [Hx|Hx]; [done|]. apply list_elem_of_singleton in Hx as ->. done.
    + intros k' Hk'. rewrite set_rc_ne; [by apply L6|]. intros ->. destruct Hk' as [_ Hk']. simpl in Hk'. lia.
    + change (disk s') with (disk s3). rewrite Hd3. done.
    + change (disk s') with (disk s3). rewrite Hd3. done.
    + apply Forall_app. split; [done|]. by apply Forall_singleton.
Qed.
(** ** begin_op() and end_op() *)
Lemma begin_op_ok s :
  lk_free (log_lock (slog s)) -> cpu_wf (fs_cpu s) -> log_committing (slog s) = 0 ->
  lh_n (log_lh (slog s)) + (log_outstanding (slog s) + 1) * MAXOPBLOCKS <= LOGBLOCKS ->
  begin_op s = Ok (tt, s <| fs_cpu := lockcycle (fs_cpu s) |> <| slog ::= fun g => g <| log_outstanding ::= fun n => n + 1 |> |>).
Proof.
  intros Hl Hc Hi Hroom. destruct (log_cycle s Hl Hc) as (c1 & l1 & Hacq & _ & _ & Hrel).
  unfold begin_op. rewrite (mbind_Ok _ _ _ _ _ Hacq), mbind_reads. set (s1 := s <| fs_cpu := c1 |> <| slog ::= _ |>).
  change (log_committing (slog s1)) with (log_committing (slog s)). rewrite Hi. change (negb (0 =? 0)) with false. cbv iota.
  change (log_lh (slog s1)) with (log_lh (slog s)). change (log_outstanding (slog s1)) with (log_outstanding (slog s)).
  rewrite (proj2 (Z.ltb_ge _ _)) by lia. unfold upd_log. rewrite mbind_modify, Hrel by done. done.
Qed.

(** The blocks of the view and of the disk when a transaction is over. *)
Lemma wapply_commit g bs V D k :
  loggable g bs -> ~ in_log g k -> wapply (commit_trace g bs V) D k = committed g bs V D k.
Proof.
  intros Hg Hk. unfold commit_trace. assert (headkey g <> k) as Hhk by (intros <-; apply Hk, in_log_head).
  rewrite wapply_app. change (?x :: ?l) with ([x] ++ l). rewrite !wapply_app.
  change (wapply [(headkey g, ?h)] ?d) with (vset d (headkey g) h). rewrite vset_ne by congruence.
  unfold committed. case_decide as Hd.
  - apply wapply_in.
    + change (map ?f bs) with (f <$> bs). rewrite <- list_fmap_compose. apply NoDup_fmap_2; [|apply (lw_nodup _ _ Hg)].
      intros x y. simpl. unfold hkey. by intros [=].
    + change (map ?f bs) with (f <$> bs). apply list_elem_of_fmap. exists k.2. destruct Hd as [E1 E2]. split; [|done].
      unfold hkey. rewrite <- E1. by destruct k.
  - rewrite wapply_notin.
    + change (wapply [(headkey g, ?h)] ?d) with (vset d (headkey g) h). rewrite vset_ne by congruence. apply wapply_notin.
      rewrite <- (take_ge (log_writes g bs V) (length bs)) by (unfold log_writes; by rewrite length_imap).
      intros Hin. apply log_writes_keys in Hin as (j & Hj & _ & ->). apply Hk, in_log_lkey. pose proof (lw_max _ _ Hg). lia.
    + change (map ?f bs) with (f <$> bs). rewrite <- list_fmap_compose. intros Hin.
      apply list_elem_of_fmap in Hin as (b & -> & Hb). by apply Hd.
Qed.
Lemma wapply_commit_head g bs V D :
  wapply (commit_trace g bs V) D (headkey g) = head_data [] (head_data bs (V (headkey g))).
Proof.
  unfold commit_trace. rewrite wapply_app, (app_comm_cons _ _ (headkey g, _)), wapply_app.
  change (wapply [(headkey g, ?h)] ?d) with (vset d (headkey g) h). by rewrite vset_eq.
Qed.

(** commit(), also of a transaction that changed nothing. *)
Lemma commit_any s V R bs :
  let g := slog s in
  committable s V R bs ->
  exists s' V', commit s = Ok (tt, s') /\ slog s' = g <| log_lh ::= fun lh => lh <| lh_n := 0 |> |> /\
    fs_hart s' = fs_hart s /\
    (fs_cpu s' = fs_cpu s \/ fs_cpu s' = lockcycle (fs_cpu s)) /\ bio s' V' (unpin g bs R) ∅ /\
    (forall k, ~ in_log g k -> V' k = V k /\ disk s' k = committed g bs V (disk s) k) /\
    Z.of_nat (length (disk s' (headkey g))) = BSIZE /\ dec_n (disk s' (headkey g)) = 0.
Proof.
  intros g Hc. destruct bs as [|b0 bs0].
  - exists s, V. assert (lh_n (log_lh g) = 0) as Hn by (pose proof (lw_n _ _ (cm_log _ _ _ _ Hc)) as Hn; simpl in Hn; fold g in Hn; lia).
    unfold commit. rewrite mbind_reads. fold g. rewrite Hn. split; [done|]. split; [|split; [done|]].
    + unfold g in *. destruct (slog s) as [? ? ? ? ? ? []]. simpl in Hn. by subst.
    + split; [by left|]. split; [apply (cm_bio _ _ _ _ Hc)|]. split; [|split; [apply (cm_size _ _ _ _ Hc)|apply (cm_clear _ _ _ _ Hc)]].
      intros k _. split; [done|]. unfold committed. rewrite decide_False; [done|]. intros [_ Hx]. by apply elem_of_nil in Hx.
  - set (bs := b0 :: bs0) in *. destruct (commit_ok s V R bs Hc ltac:(done)) as (s' & Hrun & Hw & Hd & Hg & Hb & Hf).
    fold g in Hw, Hd, Hg, Hb. exists s', (wapply (commit_trace g bs V) V). split; [done|]. split; [done|].
    pose proof (cm_log _ _ _ _ Hc) as Hlog. fold g in Hlog. 
    split; [by rewrite (bf_rest _ _ Hf)|]. split; [apply (bf_cpu _ _ Hf)|]. split; [done|]. split.
    + intros k Hk. rewrite Hd, !wapply_commit by done. split; [|done]. unfold committed. by case_decide.
    + rewrite Hd, wapply_commit_head.
      assert (V (headkey g) = disk s (headkey g)) as -> by (apply (bio_clean _ _ _ _ _ (cm_bio _ _ _ _ Hc)); [apply (lw_dev _ _ Hlog)|apply (cm_head _ _ _ _ Hc)]).
      destruct (dec_head_data bs (disk s (headkey g)) (cm_size _ _ _ _ Hc) (lw_max _ _ Hlog) (cm_int _ _ _ _ Hc)) as (_ & _ & H3).
      destruct (dec_head_data [] (head_data bs (disk s (headkey g))) H3) as (H4 & _ & H5); [done|constructor|]. done.
Qed.
Lemma bio_outside s s' V R K :
  bio s V R K -> bufs s' = bufs s -> disk s' = disk s -> bcache_lock s' = bcache_lock s -> fs_pid s' = fs_pid s ->
  cpu_wf (fs_cpu s') -> bio s' V R K.
Proof.
  intros [A1 A2 A3 A4 A5 A6 A7 A8 A9 A10 A11 A12] E1 E2 E3 E4 E5. split; rewrite ?E1, ?E2, ?E3, ?E4; done.
Qed.

(** The last operation of a transaction commits it. *)
Lemma end_op_ok s V R bs :
  let g := slog s in
  logging s V R ∅ bs -> (size R < NBUF)%nat -> log_outstanding g = 1 ->
  exists s' V', end_op s = Ok (tt, s') /\ logging s' V' (unpin g bs R) ∅ [] /\ log_outstanding (slog s') = 0 /\
    same_place g (slog s') /\
    (forall k, ~ in_log g k -> V' k = V k /\ disk s' k = committed g bs V (disk s) k).
Proof.
  intros g HL Hsz Hout. pose proof HL as [L1 L2 L3 L4 L5 L6 L7 L8 L9 L10].
  destruct (log_cycle s L2 (bi_cpu _ _ _ _ L1)) as (c1 & l1 & Hacq & Hc1 & Hlc & Hrel).
  unfold end_op. rewrite (mbind_Ok _ _ _ _ _ Hacq). unfold upd_log. rewrite mbind_modify, mbind_reads.
  set (s1 := s <| fs_cpu := c1 |> <| slog ::= _ |> <| slog ::= _ |>).
  change (log_committing (slog s1)) with (log_committing (slog s)). rewrite L10. change (negb (0 =? 0)) with false. cbv iota zeta.
  change (log_outstanding (slog s1)) with (log_outstanding (slog s) - 1). fold g. rewrite Hout. change (1 - 1 =? 0) with true. cbv iota.
  rewrite mbind_modify. set (s2 := s1 <| slog ::= _ |>).
  assert (release_log s2 = Ok (tt, s <| fs_cpu := lockcycle (fs_cpu s) |> <| slog := g <| log_outstanding := 0 |> <| log_committing := 1 |> |>)) as Hr2.
  { rewrite Hrel by done. unfold s2, s1. simpl. fold g. rewrite Hout. unfold g. by destruct (slog s). }
  rewrite (mbind_Ok _ _ _ _ _ Hr2). set (s3 := s <| fs_cpu := _ |> <| slog := _ |>).
  assert (committable s3 V R bs) as Hcm.
  { destruct (logging_committable s V R bs HL Hsz) as [[C1a C1b C1c C1d C1e C1f] C2 C3 C4 C5 C6 C7 C8 C9].
    split; try done. apply (bio_outside s); try done. apply cpu_wf_lockcycle, (bi_cpu _ _ _ _ L1). }
  destruct (commit_any s3 V R bs Hcm) as (s4 & V' & Hr4 & Hg4 & _ & _ & Hb4 & HV4 & Hsz4 & Hcl4).
  rewrite (mbind_Ok _ _ _ _ _ Hr4).
  destruct (log_cycle s4) as (c4 & l4 & Hacq4 & _ & _ & Hrel4); [by rewrite Hg4|apply (bi_cpu _ _ _ _ Hb4)|].
  rewrite (mbind_Ok _ _ _ _ _ Hacq4), !mbind_modify, Hrel4 by done.
  set (s5 := _ <| fs_cpu := _ |> <| slog ::= _ |>).
  assert (slog s5 = (slog s4) <| log_committing := 0 |> <| log_ncommit ::= fun n => i32 (n + 1) |>) as Hg5.
  { unfold s5. simpl. by destruct (slog s4). }
  rewrite Hg4 in Hg5. exists s5, V'. split; [done|].
  assert (same_place g (slog s5)) as Hpl by (by rewrite Hg5).
  assert (headkey (slog s5) = headkey g) as Ehk by (by rewrite Hg5).
  split; [|split; [by rewrite Hg5|split; [done|exact HV4]]]. split; rewrite ?Ehk.
  - apply (bio_outside s4); try done. apply cpu_wf_lockcycle, (bi_cpu _ _ _ _ Hb4).
  - by rewrite Hg5.
  - by rewrite Hg5.
  - rewrite Hg5. split; simpl; try done; [apply (lw_dev _ _ L4)|apply NoDup_nil_2|set_solver].
  - set_solver.
  - intros k Hk. rewrite Hg5 in Hk. rewrite unpin_lookup; [by apply L6|]. intros b Hb ->. destruct Hk as [_ Hk]. simpl in Hk.
    unfold g in Hk. destruct (lw_home _ _ L4 b Hb); lia.
  - exact Hsz4.
  - exact Hcl4.
  - constructor.
  - by rewrite Hg5.
Qed.
(** ** A whole operation *)

(** What a file-system operation does with a block it changes. *)
Definition txn_write (w : Z * list Z) : M (fsst E) unit :=
  let* g := mreads slog in
  let* i := bread (log_dev g) w.1 in
  set_data i w.2 ;;;
  log_write i ;;;
  brelse i.

(** [R] counts one reference more than [R0] for the blocks of the transaction. *)
Definition pins (g : log_t) (bs : list Z) (R0 R : gmap (Z * Z) Z) : Prop :=
  forall k, rc R k = rc R0 k + (if decide (k.1 = log_dev g /\ k.2 ∈ bs) then 1 else 0).

Lemma rc_unpin g bs R k :
  NoDup bs -> rc (unpin g bs R) k = rc R k - (if decide (k.1 = log_dev g /\ k.2 ∈ bs) then 1 else 0).
Proof.
  induction bs as [|b bs IH] using rev_ind.
  - intros _. rewrite decide_False by (intros [_ Hx]; by apply elem_of_nil in Hx). simpl. lia.
  - intros Hnd. apply NoDup_app in Hnd as (Hnd & Hdis & _). specialize (IH Hnd). rewrite unpin_snoc.
    destruct (decide (k = hkey g b)) as [->|Hne].
    + rewrite rc_set_eq, IH. rewrite decide_False, decide_True; [lia| |].
      * split; [done|]. apply elem_of_app. right. by left.
      * intros [_ Hx]. simpl in Hx. apply (Hdis b Hx). by left.
    + rewrite rc_set_ne, IH by done. f_equal. destruct (decide (k.1 = log_dev g /\ k.2 ∈ bs)) as [[H1 H2]|Hn].
      * rewrite decide_True; [done|]. split; [done|]. apply elem_of_app. by left.
      * rewrite decide_False; [done|]. intros [H1 H2]. apply elem_of_app in H2 as [H2|H2]; [by apply Hn|].
        apply list_elem_of_singleton in H2. apply Hne. unfold hkey. rewrite <- H1, <- H2. by destruct k.
Qed.
Lemma rc_inj R R' : counted R -> counted R' -> (forall k, rc R k = rc R' k) -> R = R'.
Proof.
  intros H1 H2 H. apply map_eq. intros k. specialize (H k). unfold rc in H.
  destruct (R !! k) as [c|] eqn:Ec, (R' !! k) as [c'|] eqn:Ec'; simpl in H; try congruence.
  - subst. exfalso. by apply (H1 k 0).
  - subst. exfalso. by apply (H2 k 0).
Qed.

Lemma txn_write_ok s V R0 R bs b d :
  let g := slog s in let k := hkey g b in
  logging s V R ∅ bs -> pins g bs R0 R -> log_outstanding g = 1 -> Z.of_nat (length bs) < LOGBLOCKS ->
  (size R < NBUF)%nat -> (forall k, rc R0 k < 2 ^ 32 - 4) -> is_int b -> ~ in_log g k ->
  exists s' R', txn_write (b, d) s = Ok (tt, s') /\ logging s' (vset V k d) R' ∅ (log_add bs b) /\
    pins g (log_add bs b) R0 R' /\ (size R' <= S (size R))%nat /\
    disk s' = disk s /\ slog s' = g <| log_lh := log_lh (slog s') |>.
Proof.
  intros g k HL Hp Hout Hroom Hsz HR0 Hint Hk. pose proof HL as [L1 L2 L3 L4 L5 L6 L7 L8 L9 L10].
  assert (k.1 <> 0) as Hd by apply (lw_dev _ _ L4).
  pose proof (Hp k) as Hpk. pose proof (HR0 k) as HR0k.
  assert (rc R k < 2 ^ 32 - 2) as Hrc by (destruct (decide _); lia).
  assert (at_ s s V R ∅ (disk s) (dwrites s)) as Hat by (split; done).
  destruct (at_bread s s V R ∅ _ _ k Hat Hd) as (i & s1 & Hr1 & Hh1 & _ & Hat1); [apply not_elem_of_empty|lia|by left|].
  unfold txn_write. rewrite mbind_reads. cbn [fst snd]. fold g. change (log_dev g) with k.1. change b with k.2 at 1.
  rewrite (mbind_Ok _ _ _ _ _ Hr1).
  destruct (at_set_data s s1 _ _ _ _ _ i k d Hat1 Hh1 ltac:(set_solver)) as (s2 & Hr2 & Hs2 & Hat2).
  rewrite (mbind_Ok _ _ _ _ _ Hr2). apply Hs2 in Hh1.
  pose proof (bframe_slog _ _ (at_frame _ _ _ _ _ _ _ Hat2)) as Hg2. fold g in Hg2.
  assert (forall k', rc R k' <= rc (set_rc R k (rc R k + 1)) k') as Hmono.
  { intros k'. destruct (decide (k' = k)) as [->|N]; [rewrite rc_set_eq; lia|rewrite rc_set_ne by done; lia]. }
  assert (logging s2 (vset V k d) (set_rc R k (rc R k + 1)) ({[k]} ∪ ∅) bs) as HL2.
  { split; rewrite ?Hg2; try done.
    - apply (at_bio _ _ _ _ _ _ _ Hat2).
    - intros x Hx. pose proof (L5 x Hx) as Hx'. fold g in Hx'. split; [specialize (Hmono (hkey g x)); lia|].
      destruct (decide (hkey g x = k)) as [Heq|N]; [rewrite Heq, rc_set_eq; lia|rewrite rc_set_ne by done; lia].
    - intros k' Hk'. rewrite set_rc_ne; [by apply L6|]. by intros ->.
    - by rewrite (at_disk _ _ _ _ _ _ _ Hat2).
    - by rewrite (at_disk _ _ _ _ _ _ _ Hat2). }
  destruct (log_write_ok s2 _ _ _ bs i b HL2) as (s3 & Hr3 & Hs3 & Hd3 & Hw3 & Hg3 & _ & HL3); rewrite ?Hg2; try done.
  { set_solver. }
  { lia. }
  { destruct (Z.lt_ge_cases b (log_start g)) as [|H1]; [by left|]. right.
    destruct (Z.lt_ge_cases (log_start g + LOGBLOCKS) b) as [|H2]; [done|]. exfalso. apply Hk. split; [done|]. unfold k. simpl. lia. }
  { fold k. rewrite rc_set_eq. destruct (decide _); lia. }
  rewrite (mbind_Ok _ _ _ _ _ Hr3). apply Hs3 in Hh1. rewrite Hg2 in HL3, Hg3. fold k in HL3.
  set (R3 := if decide (b ∈ bs) then _ else _) in *.
  assert (rc R3 k = rc R k + (if decide (b ∈ bs) then 1 else 2)) as Hrc3.
  { unfold R3. destruct (decide (b ∈ bs)); rewrite ?rc_set_eq; [lia|]. lia. }
  assert (1 < rc R3 k) as Hrc3'.
  { rewrite Hrc3. destruct (decide (b ∈ bs)) as [Hin|]; [apply L5 in Hin; fold g in Hin; fold k in Hin; lia|].
    destruct (held_locked _ _ _ _ _ _ (at_bio _ _ _ _ _ _ _ Hat1) (proj1 (Hs2 i k) ltac:(apply Hs3; done)) ltac:(set_solver)) as (? & _ & _ & _ & Hx & Hy & _).
    rewrite rc_set_eq in Hx. lia. }
  assert (at_ s3 s3 (vset V k d) R3 ({[k]} ∪ ∅) (disk s3) (dwrites s3)) as Hat3 by (split; [apply (lg_bio _ _ _ _ _ HL3)|done|done|done]).
  destruct (at_brelse s3 s3 _ _ _ _ _ i k Hat3 Hh1 ltac:(set_solver) ltac:(lia)) as (s4 & Hr4 & _ & Hat4).
  exists s4, (set_rc R k (rc R3 k - 1)). split; [exact Hr4|].
  assert (set_rc R3 k (rc R3 k - 1) = set_rc R k (rc R3 k - 1)) as HR3 by (unfold R3; destruct (decide (b ∈ bs)); by rewrite ?set_rc_set).
  rewrite HR3 in Hat4. replace (({[k]} ∪ ∅) ∖ {[k]}) with (∅ : gset (Z * Z)) in Hat4 by set_solver.
  pose proof (bframe_slog _ _ (at_frame _ _ _ _ _ _ _ Hat4)) as Hg4. pose proof (at_disk _ _ _ _ _ _ _ Hat4) as Hd4.
  destruct HL3 as [M1 M2 M3 M4 M5 M6 M7 M8 M9 M10].
  split; [|split; [|split; [apply size_set_rc|split; [|by rewrite Hg4]]]].
  - split; rewrite ?Hg4, ?Hd4; try done; [apply (at_bio _ _ _ _ _ _ _ Hat4)| |].
    + intros x Hx. pose proof (M5 x Hx) as Hx'. rewrite <- HR3. destruct (decide (hkey (slog s3) x = k)) as [Heq|N].
      * rewrite Heq, rc_set_eq in *. lia.
      * by rewrite rc_set_ne.
    + intros k' Hk'. rewrite <- HR3. rewrite set_rc_ne; [by apply M6|]. intros ->. rewrite Hg3 in Hk'. by apply Hk.
  - intros k'. unfold log_add. destruct (decide (k' = k)) as [->|N].
    + rewrite rc_set_eq, Hrc3, Hpk. change (k.1 = log_dev g) with (log_dev g = log_dev g). change k.2 with b.
      destruct (decide (b ∈ bs)) as [Hin|Hni]; [rewrite decide_True by done; lia|].
      rewrite decide_False by tauto. rewrite decide_True; [lia|]. split; [done|]. apply elem_of_app. right. by left.
    + rewrite rc_set_ne, Hp by done. f_equal. destruct (decide (b ∈ bs)); [done|].
      destruct (decide (k'.1 = log_dev g /\ k'.2 ∈ bs)) as [[H1 H2]|Hn].
      * rewrite decide_True; [done|]. split; [done|]. apply elem_of_app. by left.
      * rewrite decide_False; [done|]. intros [H1 H2]. apply elem_of_app in H2 as [H2|H2]; [by apply Hn|].
        apply list_elem_of_singleton in H2. apply N. unfold k, hkey. rewrite <- H1, <- H2. by destruct k'.
  - rewrite Hd4, Hd3. apply (at_disk _ _ _ _ _ _ _ Hat2).
Qed.
Definition upd_writes (g : log_t) (ups : list (Z * list Z)) : list dwrite := map (fun w => (hkey g w.1, w.2)) ups.

Lemma elem_of_log_add bs b x : x ∈ log_add bs b <-> x ∈ bs \/ x = b.
Proof.
  unfold log_add. destruct (decide (b ∈ bs)); [split; [by left|intros [?| ->]; done]|].
  rewrite elem_of_app, list_elem_of_singleton. done.
Qed.

Lemma txn_writes_ok R0 ups : forall s V R bs,
  let g := slog s in
  logging s V R ∅ bs -> pins g bs R0 R -> log_outstanding g = 1 -> Z.of_nat (length bs + length ups) <= LOGBLOCKS ->
  (size R + length ups <= NBUF)%nat -> (forall k, rc R0 k < 2 ^ 32 - 4) ->
  Forall (fun w => is_int w.1 /\ ~ in_log g (hkey g w.1)) ups ->
  exists s' R' bs', for_each ups txn_write s = Ok (tt, s') /\ logging s' (wapply (upd_writes g ups) V) R' ∅ bs' /\
    pins g bs' R0 R' /\ (size R' <= size R + length ups)%nat /\ disk s' = disk s /\ slog s' = g <| log_lh := log_lh (slog s') |> /\
    (forall x, x ∈ bs' <-> x ∈ bs \/ x ∈ ups.*1).
Proof.
  induction ups as [|[b d] ups IH]; intros s V R bs g HL Hp Hout Hroom Hsz HR0 Hups.
  - exists s, R, bs. split; [done|]. split; [done|]. split; [done|]. split; [lia|]. split; [done|].
    split; [unfold g; by destruct (slog s)|]. intros x. simpl. rewrite elem_of_nil. tauto.
  - apply Forall_cons in Hups as [[Hint Hk] Hups]. simpl in Hroom, Hsz.
    destruct (txn_write_ok s V R0 R bs b d HL Hp Hout ltac:(lia) ltac:(lia) HR0 Hint Hk) as (s1 & R1 & Hr1 & HL1 & Hp1 & Hsz1 & Hd1 & Hg1).
    fold g in Hp1, Hg1, HL1. cbn [for_each]. rewrite (mbind_Ok _ _ _ _ _ Hr1).
    assert (length (log_add bs b) <= S (length bs))%nat as Hla.
    { unfold log_add. destruct (decide (b ∈ bs)); [lia|]. rewrite length_app. simpl. lia. }
    destruct (IH s1 _ R1 _ HL1) as (s2 & R2 & bs2 & Hr2 & HL2 & Hp2 & Hsz2 & Hd2 & Hg2 & Hbs2).
    + rewrite Hg1. exact Hp1.
    + rewrite Hg1. exact Hout.
    + lia.
    + lia.
    + done.
    + rewrite Hg1. exact Hups.
    + exists s2, R2, bs2. split; [exact Hr2|]. rewrite Hg1 in HL2, Hp2, Hg2. split; [exact HL2|]. split; [exact Hp2|].
      split; [simpl; lia|]. split; [congruence|]. split; [exact Hg2|].
      intros x. rewrite Hbs2, elem_of_log_add. simpl. rewrite elem_of_cons. tauto.
Qed.

(** C3: An operation that changes up to MAXOPBLOCKS blocks between begin_op() and
    end_op() runs without waiting or panicking when no other operation is under
    way; afterwards the blocks it wrote have their new contents, on the disk
    too, every other block outside of the log is as before, the reference
    counts are as before and the log is empty again. *)
Theorem transaction_installs s V R ups :
  let g := slog s in
  logging s V R ∅ [] -> log_outstanding g = 0 -> Z.of_nat (length ups) <= MAXOPBLOCKS ->
  (size R + length ups < NBUF)%nat -> (forall k, rc R k < 2 ^ 32 - 4) ->
  Forall (fun w => is_int w.1 /\ ~ in_log g (hkey g w.1)) ups ->
  exists s' V', (begin_op ;;; for_each ups txn_write ;;; end_op) s = Ok (tt, s') /\
    logging s' V' R ∅ [] /\ log_outstanding (slog s') = 0 /\
    forall k, ~ in_log g k ->
      V' k = wapply (upd_writes g ups) V k /\
      disk s' k = if decide (k ∈ (upd_writes g ups).*1) then V' k else disk s k.
Proof.
  intros g HL Hout Hlen Hsz HR Hups. pose proof HL as [L1 L2 L3 L4 L5 L6 L7 L8 L9 L10].
  change MAXOPBLOCKS with 10 in *.
  assert (lh_n (log_lh (slog s)) = 0) as Hn by (rewrite <- (lw_n _ _ L4); done).
  assert (begin_op s = Ok (tt, s <| fs_cpu := lockcycle (fs_cpu s) |> <| slog ::= fun g => g <| log_outstanding ::= fun n => n + 1 |> |>)) as Hb.
  { apply begin_op_ok; [done|apply (bi_cpu _ _ _ _ L1)|done|]. fold g. unfold g in *. rewrite Hn, Hout. done. }
  rewrite (mbind_Ok _ _ _ _ _ Hb). set (s1 := s <| fs_cpu := _ |> <| slog ::= _ |>).
  assert (logging s1 V R ∅ []) as HL1.
  { destruct L4 as [Q1 Q2 Q3 Q4 Q5 Q6]. split; try done. apply (bio_outside s); try done. apply cpu_wf_lockcycle, (bi_cpu _ _ _ _ L1). }
  assert (log_outstanding (slog s1) = 1) as Hout1.
  { change (log_outstanding (slog s1)) with (log_outstanding g + 1). by rewrite Hout. }
  destruct (txn_writes_ok R ups s1 V R [] HL1) as (s2 & R2 & bs & Hr2 & HL2 & Hp2 & Hsz2 & Hd2 & Hg2 & Hbs).
  { intros k. rewrite decide_False by (intros [_ Hx]; by apply elem_of_nil in Hx). lia. }
  { exact Hout1. } { simpl. change LOGBLOCKS with 30. lia. } { lia. } { done. } { exact Hups. }
  rewrite (mbind_Ok _ _ _ _ _ Hr2).
  destruct (end_op_ok s2 _ R2 bs HL2 ltac:(lia)) as (s3 & V3 & Hr3 & HL3 & Hout3 & Hpl3 & HV3); [rewrite Hg2; exact Hout1|].
  exists s3, V3. split; [exact Hr3|].
  assert (unpin (slog s2) bs R2 = R) as HRe.
  { apply rc_inj; [apply (bio_counted _ _ _ _ (lg_bio _ _ _ _ _ HL3))|apply (bio_counted _ _ _ _ L1)|].
    intros k. rewrite rc_unpin by apply (lw_nodup _ _ (lg_log _ _ _ _ _ HL2)). rewrite (Hp2 k), Hg2. simpl. lia. }
  rewrite HRe in HL3. split; [done|]. split; [done|]. intros k Hk.
  destruct (HV3 k) as [HVk Hdk]; [rewrite Hg2; exact Hk|]. split; [exact HVk|]. rewrite Hdk, HVk. unfold committed. rewrite Hg2, Hd2.
  change (log_dev ((slog s1) <| log_lh := log_lh (slog s2) |>)) with (log_dev g).
  assert (k.1 = log_dev g /\ k.2 ∈ bs <-> k ∈ (upd_writes g ups).*1) as Hiff.
  { unfold upd_writes. change (map ?f ups) with (f <$> ups). rewrite <- list_fmap_compose, list_elem_of_fmap, Hbs. split.
    - intros [H1 [H2|H2]]; [by apply elem_of_nil in H2|]. apply list_elem_of_fmap in H2 as (w & H2 & Hw). exists w. split; [|done].
      simpl. unfold hkey. rewrite <- H1, <- H2. by destruct k.
    - intros (w & -> & Hw). split; [done|]. right. apply list_elem_of_fmap. by exists w. }
  destruct (decide (k ∈ (upd_writes g ups).*1)) as [Hin|Hin].
  - rewrite decide_True by tauto. done.
  - rewrite decide_False by tauto. done.
Qed.
End LogOps.

(** ** The limit of the cache *)
Section Limit.
Context {E : Type}.
Implicit Types (s : fsst E) (V : Z * Z -> list Z) (R : gmap (Z * Z) Z).

(** A transaction that has filled the log with LOGBLOCKS blocks has pinned all
    of the NBUF = LOGBLOCKS buffers, so commit() finds no buffer for the log
    block it wants to write: it panics. *)
Theorem full_log_commit_panics s V R bs :
  logging s V R ∅ bs -> Z.of_nat (length bs) = LOGBLOCKS -> commit s = Panic "bget: no buffers".
Proof.
  intros HL Hlen. pose proof HL as [L1 L2 L3 L4 L5 L6 L7 L8 L9 L10]. set (g := slog s) in *.
  change LOGBLOCKS with 30 in Hlen.
  assert (NBUF <= size R)%nat as Hsz.
  { assert (NoDup (hkey g <$> bs)) as Hnd.
    { apply NoDup_fmap_2; [|apply (lw_nodup _ _ L4)]. intros x y. unfold hkey. by intros [=]. }
    apply (size_list_to_set (C := gset (Z * Z))) in Hnd. rewrite length_fmap in Hnd.
    assert (list_to_set (C := gset (Z * Z)) (hkey g <$> bs) ⊆ dom R) as Hsub.
    { intros k Hk. apply elem_of_list_to_set, list_elem_of_fmap in Hk as (b & -> & Hb). apply elem_of_dom.
      rewrite rc_pos_inv by (apply L5 in Hb; lia). by eexists. }
    apply subseteq_size in Hsub. rewrite Hnd, size_dom in Hsub. unfold NBUF. lia. }
  destruct bs as [|b bs]; [done|].
  assert (lh_block (log_lh g) !! O = Some b) as Hb0.
  { pose proof (lw_take _ _ L4) as Ht. rewrite <- (lw_n _ _ L4) in Ht. rewrite Nat2Z.id in Ht. simpl in Ht.
    destruct (lh_block (log_lh g)); [done|]. by injection Ht as ->. }
  assert (R !! lkey g 0 = None) as HR0 by (apply L6, in_log_lkey; done).
  pose proof (bread_exhausted s V R ∅ (lkey g 0).1 (lkey g 0).2 L1 Hsz HR0 (lw_dev _ _ L4)) as Hpanic.
  unfold commit. rewrite mbind_reads. fold g. rewrite <- (lw_n _ _ L4), Hlen. change (0 <? 30) with true. cbv iota.
  unfold write_log, for_tail. unfold mbind at 1. rewrite mbind_reads. fold g. rewrite <- (lw_n _ _ L4), Hlen.
  change (seq 0 (Z.to_nat 30)) with (O :: seq 1 29). cbn [for_each]. unfold mbind at 1. rewrite mbind_reads. fold g. rewrite Hb0, mbind_reads.
  fold g. unfold mbind at 1. unfold lkey in Hpanic. cbn [fst snd] in Hpanic. rewrite Hpanic. done.
Qed.
End Limit.

(** ** Witnesses *)
Definition zero_disk : Z * Z -> list Z := fun _ => repeat 0 (Z.to_nat BSIZE).

Lemma boot_logging_disk d : d (1, 2) = repeat 0 (Z.to_nat BSIZE) -> logging (boot_fs d) d ∅ ∅ [].
Proof.
  intros Hd. split; try done; try (constructor; done).
  - apply boot_fs_bio.
  - split; try done; [apply NoDup_nil_2|]. intros b Hb. by apply elem_of_nil in Hb.
  - intros b Hb. by apply elem_of_nil in Hb.
  - simpl. unfold headkey. simpl. by rewrite Hd.
  - simpl. unfold headkey. simpl. by rewrite Hd.
Qed.
Lemma boot_logging : logging (boot_fs zero_disk) zero_disk ∅ ∅ [].
Proof. by apply boot_logging_disk. Qed.
Lemma far_block b : 100 <= b < 1000 -> is_int b /\ ~ in_log (slog (boot_fs zero_disk)) (1, b).
Proof.
  intros Hb. split; [split; lia|]. intros [_ Hx]. simpl in Hx. change LOGBLOCKS with 30 in Hx. lia.
Qed.

Lemma transaction_installs_witness :
  exists s' : fsst unit, (begin_op ;;; for_each [(100, [7]); (200, [8])] txn_write ;;; end_op) (boot_fs zero_disk) = Ok (tt, s') /\
    disk s' (1, 200) = [8].
Proof.
  destruct (transaction_installs (boot_fs zero_disk) zero_disk ∅ [(100, [7]); (200, [8])]) as (s' & V' & Hrun & _ & _ & Hd).
  - exact boot_logging.
  - reflexivity.
  - change MAXOPBLOCKS with 10. simpl. lia.
  - rewrite map_size_empty. simpl. unfold NBUF. lia.
  - intros k. unfold rc. rewrite lookup_empty. simpl. lia.
  - constructor; [apply (far_block 100); lia|]. constructor; [apply (far_block 200); lia|constructor].
  - exists s'. split; [exact Hrun|]. destruct (Hd (1, 200)) as [HV Hdk]; [apply (far_block 200); lia|].
    rewrite Hdk, decide_True by (right; left). rewrite HV. reflexivity.
Defined.

Lemma commit_crash_atomic_witness :
  exists (s s' : fsst unit) w, disk s = zero_disk /\ commit s = Ok (tt, s') /\ disk s' = wapply w zero_disk.
Proof.
  set (s0 := (boot_fs zero_disk) <| slog ::= fun g => g <| log_outstanding := 1 |> |>).
  assert (logging s0 zero_disk ∅ ∅ []) as HL.
  { destruct boot_logging as [L1 L2 L3 [Q1 Q2 Q3 Q4 Q5 Q6] L5 L6 L7 L8 L9 L10]. split; try done.
    by apply (bio_outside (boot_fs zero_disk)); try done. }
  destruct (txn_writes_ok ∅ [(100, [7])] s0 zero_disk ∅ [] HL) as (s & R & bs & _ & HLs & _ & Hsz & Hd & Hg & Hbs).
  - intros k. rewrite decide_False; [unfold rc; rewrite lookup_empty; simpl; lia|]. intros [_ Hx]. by apply elem_of_nil in Hx.
  - reflexivity.
  - change LOGBLOCKS with 30. simpl. lia.
  - rewrite map_size_empty. simpl. unfold NBUF. lia.
  - intros k. unfold rc. rewrite lookup_empty. simpl. lia.
  - constructor; [apply (far_block 100); lia|constructor].
  - destruct (commit_crash_atomic s _ R bs (logging_committable _ _ _ _ HLs ltac:(rewrite map_size_empty in Hsz; simpl in Hsz; unfold NBUF; lia)))
      as (s' & w & Hc & _ & Hd' & _).
    + intros ->. assert (100 ∈ @nil Z) as Hx by (apply Hbs; right; by left). by apply elem_of_nil in Hx.
    + exists s, s', w. rewrite Hd in Hd'. split; [exact Hd|]. split; [exact Hc|exact Hd'].
Defined.

(** The log holds the blocks of all the buffers. *)
Definition full_fs : fsst unit :=
  (boot_fs zero_disk) <| bufs ::= imap busy_buf |> <| disk := fun k => if decide (k = (1, 2)) then repeat 0 (Z.to_nat BSIZE) else [] |>
    <| slog ::= fun g => g <| log_outstanding := 1 |> <| log_lh := mkLogheader 30 (map (fun i => 100 + Z.of_nat i) (seq 0 30)) |> |>.
Definition full_blocks : list Z := map (fun i => 100 + Z.of_nat i) (seq 0 30).

Lemma full_blocks_elem b : b ∈ full_blocks <-> 100 <= b < 130.
Proof.
  unfold full_blocks. change (map ?f (seq 0 30)) with (f <$> seq 0 30). rewrite list_elem_of_fmap. setoid_rewrite elem_of_seq. split.
  - intros (i & -> & Hi). lia.
  - intros Hb. exists (Z.to_nat (b - 100)). lia.
Qed.
Lemma full_logging : logging full_fs (disk full_fs) busy_refs ∅ full_blocks.
Proof.
  assert (forall b, 100 <= b < 130 -> busy_refs !! (1, b) = Some 1) as HR.
  { intros b Hb. apply busy_refs_lookup. exists (Z.to_nat (b - 100)). unfold NBUF. split; [lia|]. split; [f_equal; lia|done]. }
  split; try done.
  - apply busy_bio; try done. intros i Hi. change (disk full_fs) with (fun k : Z * Z => if decide (k = (1, 2)) then repeat 0 (Z.to_nat BSIZE) else []).
    cbv beta. rewrite decide_False; [done|]. intros [=]. lia.
  - split; try done.
    + unfold full_blocks. change (map ?f (seq 0 30)) with (f <$> seq 0 30). apply NoDup_fmap_2; [|apply NoDup_seq]. intros x y Hxy. lia.
    + intros b Hb. apply full_blocks_elem in Hb. right. change (log_start (slog full_fs)) with 2. change LOGBLOCKS with 30. lia.
  - intros b Hb. apply full_blocks_elem in Hb. unfold hkey. change (log_dev (slog full_fs)) with 1. unfold rc. rewrite HR by done. simpl. lia.
  - intros k Hk. destruct (busy_refs !! k) as [c|] eqn:Ek; [|done]. apply busy_refs_lookup in Ek as (i & Hi & -> & ->).
    destruct Hk as [_ Hk]. simpl in Hk. change LOGBLOCKS with 30 in Hk. lia.
  - apply Forall_forall. intros b Hb. apply full_blocks_elem in Hb. split; lia.
Qed.

Lemma full_log_commit_panics_witness : commit full_fs = Panic "bget: no buffers".
Proof. apply (full_log_commit_panics full_fs (disk full_fs) busy_refs full_blocks); [exact full_logging|reflexivity]. Defined.
