(* ===== verification/Fs.v ===== *)
(** * Inodes, directories and path names (kernel/fs.c)

    The routines of kernel/fs.c on the buffer cache and the log.  A pointer to
    an inode is a position in the table [inodes]; NULL is [None].  A name or
    path is the list of its bytes before the terminating NUL.  Output of
    printk() is not part of the state. *)
From stdpp Require Import base list strings gmap.
From Stdlib Require Import ZArith Lia.
From S2P Require Import Prelude Spinlock CString Kalloc FsState Bio Log.

(** ** What fs.c uses of the rest of the kernel *)

(** copyout() and copyin() with the page table and size of the running
    process: a result, 0 or -1, and the bytes copyin() has delivered. *)
Class FsEnv (E : Type) := {
  env_copyout : Z -> list Z -> E -> Z * E;
  env_copyin : Z -> Z -> E -> Z * list Z * E
}.

(** The two kinds of copies of either_copyout() and either_copyin(). *)
Inductive dest : Type := ToKernel | ToUser (dst : Z).
Inductive source : Type := FromKernel (src : list Z) | FromUser (src : Z).

(** ** The on-disk inode *)
Definition dinode_bytes (d : dinode) : list Z :=
  le_bytes 2 (d_type d) ++ le_bytes 2 (d_major d) ++ le_bytes 2 (d_minor d) ++ le_bytes 2 (d_nlink d) ++
  le_bytes 4 (d_size d) ++ concat (map (le_bytes 4) (d_addrs d)).
(** The inode at byte [off] of a block. *)
Definition get_dinode (data : list Z) (off : Z) : dinode :=
  {| d_type := get16 data off; d_major := get16 data (off + 2); d_minor := get16 data (off + 4);
     d_nlink := get16 data (off + 6); d_size := get32 data (off + 8);
     d_addrs := map (fun k => get32 data (off + 12 + 4 * Z.of_nat k)) (seq 0 13) |}.
Definition put_dinode (off : Z) (d : dinode) (data : list Z) : list Z := splice off (dinode_bytes d) data.
(** (struct dinode * )bp->data + inum % IPB *)
Definition dinode_off (inum : Z) : Z := DINODE_SIZE * (inum mod IPB).

(** ** Bits of the free map *)
Definition bit_free (data : list Z) (bi : Z) : bool :=
  Z.land (nth (Z.to_nat (bi / 8)) data 0) (Z.shiftl 1 (bi mod 8)) =? 0.
Definition bit_set (bi : Z) (data : list Z) : list Z :=
  alter (fun x => Z.lor x (Z.shiftl 1 (bi mod 8))) (Z.to_nat (bi / 8)) data.
Definition bit_clear (bi : Z) (data : list Z) : list Z :=
  alter (fun x => Z.land x (Z.lnot (Z.shiftl 1 (bi mod 8)))) (Z.to_nat (bi / 8)) data.

(** ** Names *)
Definition SLASH : Z := 47.

(** namecmp(): [name] is a string, [t] the DIRSIZ bytes of an entry. *)
Definition namecmp (name t : list Z) : Z :=
  strncmp (two_objects (name ++ [0]) (t ++ [0])) 0 (Z.of_nat (length name) + 1) DIRSIZ.
(** strncpy(de.name, name, DIRSIZ) *)
Definition strncpy_name (name : list Z) : list Z :=
  bytes_at (strncpy (two_objects (repeat 0 14) (name ++ [0])) 0 14 DIRSIZ) 0 14.

(** struct dirent: the inode number, then the name. *)
Definition de_inum (de : list Z) : Z := le_val (take 2 de).
Definition de_name (de : list Z) : list Z := drop 2 de.
Definition dirent_bytes (inum : Z) (name : list Z) : list Z := le_bytes 2 inum ++ name.

Fixpoint skip_slashes (path : list Z) : list Z :=
  match path with
  | c :: rest => if c =? SLASH then skip_slashes rest else path
  | [] => []
  end.
(** The loop up to the next slash or the end: the element and the rest. *)
Fixpoint span_elem (path : list Z) : list Z * list Z :=
  match path with
  | c :: rest => if c =? SLASH then ([], path) else let r := span_elem rest in (c :: fst r, snd r)
  | [] => ([], [])
  end.
(** skipelem(): the path that follows and the name that was copied. *)
Definition skipelem (path : list Z) : option (list Z * list Z) :=
  let path := skip_slashes path in
  match path with
  | [] => None
  | _ :: _ =>
      let r := span_elem path in
      let name := if DIRSIZ <=? Z.of_nat (length (fst r)) then take 14 (fst r) else fst r in
      Some (skip_slashes (snd r), name)
  end.

Section Fs.
Context {E : Type} `{FsEnv E}.

Definition copy_to (d : dest) (bytes : list Z) : M (fsst E) Z := fun s =>
  match d with
  | ToKernel => Ok (0, s)
  | ToUser a => let r := env_copyout a bytes (fs_env s) in Ok (fst r, s <| fs_env := snd r |>)
  end.
(** The bytes delivered and the result; [pos] bytes of the source have been
    taken before. *)
Definition copy_from (src : source) (pos len : Z) : M (fsst E) (Z * list Z) := fun s =>
  match src with
  | FromKernel l => Ok ((0, slice pos len l), s)
  | FromUser a =>
      let r := env_copyin (u64 (a + pos)) len (fs_env s) in
      Ok ((fst (fst r), snd (fst r)), s <| fs_env := snd r |>)
  end.

(** ** Super block *)
Definition get_superblock (d : list Z) : superblock :=
  {| sb_magic := get32 d 0; sb_size := get32 d 4; sb_nblocks := get32 d 8; sb_ninodes := get32 d 12;
     sb_nlog := get32 d 16; sb_logstart := get32 d 20; sb_inodestart := get32 d 24; sb_bmapstart := get32 d 28 |}.
Definition readsb (dev : Z) : M (fsst E) unit :=
  let* i := bread dev 1 in
  let* b := get_buf i in
  mmodify (fun s => s <| sb := get_superblock (b_data b) |>) ;;;
  brelse i.

Definition IBLOCK (i : Z) (s : superblock) : Z := i / IPB + sb_inodestart s.
Definition BBLOCK (b : Z) (s : superblock) : Z := b / BPB + sb_bmapstart s.

(** ** Blocks *)
Definition bzero (dev bno : Z) : M (fsst E) unit :=
  let* i := bread dev bno in
  set_data i (repeat 0 (Z.to_nat BSIZE)) ;;;
  log_write i ;;;
  brelse i.

(** The inner loop of balloc(): the first free bit of the map block for the
    blocks from [b] on. *)
Definition find_free (data : list Z) (b size : Z) : option Z :=
  List.find (bit_free data) (map Z.of_nat (seq 0 (Z.to_nat (Z.min BPB (size - b))))).

(** One pass of the outer loop per BPB blocks of the disk. *)
Definition balloc (dev : Z) : M (fsst E) Z :=
  let* sb0 := mreads sb in
  mloop (Z.to_nat (sb_size sb0 / BPB) + 2) (fun b =>
    if b <? sb_size sb0 then
      let* i := bread dev (BBLOCK b sb0) in
      let* bp := get_buf i in
      match find_free (b_data bp) b (sb_size sb0) with
      | Some bi =>
          upd_buf i (fun bp => bp <| b_data ::= bit_set bi |>) ;;;
          log_write i ;;;
          brelse i ;;;
          bzero dev (b + bi) ;;;
          mret (inr (b + bi))
      | None =>
          brelse i ;;;
          mret (inl (b + BPB))
      end
    else mret (inr 0)) 0.

Definition bfree (dev b : Z) : M (fsst E) unit :=
  let* sb0 := mreads sb in
  let* i := bread dev (BBLOCK b sb0) in
  let bi := b mod BPB in
  let* bp := get_buf i in
  if bit_free (b_data bp) bi then mpanic "freeing free block"
  else
    upd_buf i (fun bp => bp <| b_data ::= bit_clear bi |>) ;;;
    log_write i ;;;
    brelse i.

(** ** Inodes *)
Definition get_ip (i : nat) : M (fsst E) inode := fun s =>
  match inodes s !! i with Some ip => Ok (ip, s) | None => UB end.
Definition upd_ip (i : nat) (f : inode -> inode) : M (fsst E) unit := fun s =>
  match inodes s !! i with Some ip => Ok (tt, s <| inodes := <[i := f ip]> (inodes s) |>) | None => UB end.
Definition upd_dip (i : nat) (f : dinode -> dinode) : M (fsst E) unit := upd_ip i (fun ip => ip <| i_dip ::= f |>).

(** The sleep lock of an inode. *)
Definition ip_acquiresleep (i : nat) : M (fsst E) unit :=
  let* ip := get_ip i in
  let* r := (fun s => obind (acquiresleep (fs_hart s) (fs_pid s) (fs_cpu s) (i_lock ip)) (fun r => Ok (r, s))) in
  mmodify (fun s => s <| fs_cpu := fst r |>) ;;;
  upd_ip i (fun ip => ip <| i_lock := snd r |>).
Definition ip_releasesleep (i : nat) : M (fsst E) unit :=
  let* ip := get_ip i in
  let* r := (fun s => obind (releasesleep (fs_hart s) (fs_cpu s) (i_lock ip)) (fun r => Ok (r, s))) in
  mmodify (fun s => s <| fs_cpu := fst r |>) ;;;
  upd_ip i (fun ip => ip <| i_lock := snd r |>).
Definition ip_holdingsleep (i : nat) : M (fsst E) bool :=
  let* ip := get_ip i in
  let* r := (fun s => obind (holdingsleep (fs_hart s) (fs_pid s) (fs_cpu s) (i_lock ip)) (fun r => Ok (r, s))) in
  mmodify (fun s => s <| fs_cpu := snd (fst r) |>) ;;;
  upd_ip i (fun ip => ip <| i_lock := snd r |>) ;;;
  mret (fst (fst r)).

Definition iinit : M (fsst E) unit :=
  mmodify (fun s => s <| itable_lock := initlock "itable" |>) ;;;
  for_each (seq 0 NINODE) (fun i => upd_ip i (fun ip => ip <| i_lock := initsleeplock "inode" |>)).

(** iget(): the entry in use for the inode, else the first unused entry. *)
Definition iget (dev inum : Z) : M (fsst E) nat :=
  acquire_itable ;;;
  let* tab := mreads inodes in
  match List.find (fun i => match tab !! i with
      | Some ip => (0 <? i_ref ip) && (i_dev ip =? dev) && (i_inum ip =? inum) | None => false end) (seq 0 NINODE) with
  | Some i =>
      upd_ip i (fun ip => ip <| i_ref ::= fun n => n + 1 |>) ;;;
      release_itable ;;;
      mret i
  | None =>
      match List.find (fun i => match tab !! i with Some ip => i_ref ip =? 0 | None => false end) (seq 0 NINODE) with
      | None => mpanic "iget: no inodes"
      | Some i =>
          upd_ip i (fun ip => ip <| i_dev := dev |> <| i_inum := inum |> <| i_ref := 1 |> <| i_valid := 0 |>) ;;;
          release_itable ;;;
          mret i
      end
  end.

Definition idup (i : nat) : M (fsst E) nat :=
  acquire_itable ;;;
  upd_ip i (fun ip => ip <| i_ref ::= fun n => n + 1 |>) ;;;
  release_itable ;;;
  mret i.

(** memset(dip, 0, sizeof( *dip)); dip->type = type; *)
Definition fresh_dinode (type : Z) : dinode :=
  {| d_type := type; d_major := 0; d_minor := 0; d_nlink := 0; d_size := 0; d_addrs := repeat 0 13 |}.

Definition ialloc (dev type : Z) : M (fsst E) (option nat) :=
  let* sb0 := mreads sb in
  mloop (Z.to_nat (sb_ninodes sb0) + 1) (fun inum =>
    if inum <? sb_ninodes sb0 then
      let* i := bread dev (IBLOCK inum sb0) in
      let* bp := get_buf i in
      if d_type (get_dinode (b_data bp) (dinode_off inum)) =? 0 then
        upd_buf i (fun bp => bp <| b_data ::= put_dinode (dinode_off inum) (fresh_dinode type) |>) ;;;
        log_write i ;;;
        brelse i ;;;
        let* ip := iget dev inum in
        mret (inr (Some ip))
      else
        brelse i ;;;
        mret (inl (inum + 1))
    else mret (inr None)) 1.

Definition iupdate (ip : nat) : M (fsst E) unit :=
  let* sb0 := mreads sb in
  let* p := get_ip ip in
  let* i := bread (i_dev p) (IBLOCK (i_inum p) sb0) in
  let* p := get_ip ip in
  upd_buf i (fun bp => bp <| b_data ::= put_dinode (dinode_off (i_inum p)) (i_dip p) |>) ;;;
  log_write i ;;;
  brelse i.

Definition ilock (ip : nat) : M (fsst E) unit :=
  let* p := get_ip ip in
  if i_ref p <? 1 then mpanic "ilock"
  else
    ip_acquiresleep ip ;;;
    let* p := get_ip ip in
    if i_valid p =? 0 then
      let* sb0 := mreads sb in
      let* i := bread (i_dev p) (IBLOCK (i_inum p) sb0) in
      let* bp := get_buf i in
      upd_ip ip (fun p => p <| i_dip := get_dinode (b_data bp) (dinode_off (i_inum p)) |>) ;;;
      brelse i ;;;
      upd_ip ip (fun p => p <| i_valid := 1 |>) ;;;
      let* p := get_ip ip in
      if d_type (i_dip p) =? 0 then mpanic "ilock: no type" else mret tt
    else mret tt.

Definition iunlock (ip : nat) : M (fsst E) unit :=
  let* h := ip_holdingsleep ip in
  let* p := get_ip ip in
  if negb h || (i_ref p <? 1) then mpanic "iunlock" else ip_releasesleep ip.

Definition ifree (dev inum : Z) : M (fsst E) unit :=
  let* sb0 := mreads sb in
  let* i := bread dev (IBLOCK inum sb0) in
  upd_buf i (fun bp => bp <| b_data ::= splice (dinode_off inum) (le_bytes 2 0) |>) ;;;
  log_write i ;;;
  brelse i.

(** ** Inode contents *)
Definition addr_of (p : inode) (n : Z) : Z := nth (Z.to_nat n) (d_addrs (i_dip p)) 0.
Definition set_addr (ip : nat) (n a : Z) : M (fsst E) unit := upd_dip ip (fun d => d <| d_addrs ::= <[Z.to_nat n := a]> |>).

Definition bmap (ip : nat) (bn : Z) : M (fsst E) Z :=
  let* p := get_ip ip in
  if bn <? NDIRECT then
    let addr := addr_of p bn in
    if addr =? 0 then
      let* addr := balloc (i_dev p) in
      if addr =? 0 then mret 0
      else
        set_addr ip bn addr ;;;
        mret addr
    else mret addr
  else
    let bn := bn - NDIRECT in
    if bn <? NINDIRECT then
      let addr := addr_of p NDIRECT in
      let* addr := (if addr =? 0 then
          let* addr := balloc (i_dev p) in
          if addr =? 0 then mret 0
          else
            set_addr ip NDIRECT addr ;;;
            mret addr
        else mret addr) in
      if addr =? 0 then mret 0
      else
        let* i := bread (i_dev p) addr in
        let* bp := get_buf i in
        let addr := get32 (b_data bp) (4 * bn) in
        let* addr := (if addr =? 0 then
            let* addr := balloc (i_dev p) in
            (if negb (addr =? 0) then
               upd_buf i (fun bp => bp <| b_data ::= set32 (4 * bn) addr |>) ;;;
               log_write i
             else mret tt) ;;;
            mret addr
          else mret addr) in
        brelse i ;;;
        mret addr
    else mpanic "bmap: out of range".

Definition itrunc (ip : nat) : M (fsst E) unit :=
  for_each (seq 0 (Z.to_nat NDIRECT)) (fun i =>
    let* p := get_ip ip in
    let a := addr_of p (Z.of_nat i) in
    if a =? 0 then mret tt
    else
      bfree (i_dev p) a ;;;
      set_addr ip (Z.of_nat i) 0) ;;;
  let* p := get_ip ip in
  (if addr_of p NDIRECT =? 0 then mret tt
   else
     let* i := bread (i_dev p) (addr_of p NDIRECT) in
     for_each (seq 0 (Z.to_nat NINDIRECT)) (fun j =>
       let* bp := get_buf i in
       let a := get32 (b_data bp) (4 * Z.of_nat j) in
       if a =? 0 then mret tt else bfree (i_dev p) a) ;;;
     brelse i ;;;
     bfree (i_dev p) (addr_of p NDIRECT) ;;;
     set_addr ip NDIRECT 0) ;;;
  upd_dip ip (fun d => d <| d_size := 0 |>) ;;;
  iupdate ip.

Definition iput (ip : nat) : M (fsst E) unit :=
  acquire_itable ;;;
  let* p := get_ip ip in
  let last := (i_ref p =? 1) && negb (i_valid p =? 0) && (d_nlink (i_dip p) =? 0) in
  let dev := i_dev p in let inum := i_inum p in
  (if last then
     ip_acquiresleep ip ;;;
     release_itable ;;;
     itrunc ip ;;;
     upd_ip ip (fun p => p <| i_valid := 0 |>) ;;;
     ip_releasesleep ip ;;;
     acquire_itable
   else mret tt) ;;;
  upd_ip ip (fun p => p <| i_ref ::= fun n => n - 1 |>) ;;;
  release_itable ;;;
  (if last then ifree dev inum else mret tt).

Definition iunlockput (ip : nat) : M (fsst E) unit :=
  iunlock ip ;;;
  iput ip.

Definition ireclaim (dev : Z) : M (fsst E) unit :=
  let* sb0 := mreads sb in
  for_each (map Z.of_nat (seq 1 (Z.to_nat (sb_ninodes sb0 - 1)))) (fun inum =>
    let* i := bread dev (IBLOCK inum sb0) in
    let* bp := get_buf i in
    let d := get_dinode (b_data bp) (dinode_off inum) in
    let* ip := (if negb (d_type d =? 0) && (d_nlink d =? 0) then let* ip := iget dev inum in mret (Some ip) else mret None) in
    brelse i ;;;
    match ip with
    | Some ip =>
        begin_op ;;;
        ilock ip ;;;
        iunlock ip ;;;
        iput ip ;;;
        end_op
    | None => mret tt
    end).

Definition fsinit (dev : Z) : M (fsst E) unit :=
  readsb dev ;;;
  let* sb0 := mreads sb in
  if negb (sb_magic sb0 =? FSMAGIC) then mpanic "invalid file system"
  else
    initlog dev ;;;
    ireclaim dev.

(** struct stat of kernel/stat.h. *)
Record stat : Type := mkStat { st_dev : Z; st_ino : Z; st_type : Z; st_nlink : Z; st_size : Z }.
Definition stati (ip : nat) : M (fsst E) stat :=
  let* p := get_ip ip in
  mret {| st_dev := i_dev p; st_ino := i_inum p; st_type := d_type (i_dip p);
          st_nlink := d_nlink (i_dip p); st_size := d_size (i_dip p) |}.

(** readi(): the result, and the bytes moved to a kernel destination.  Every
    pass of the loop but the first and last one handles a whole block. *)
Definition readi (ip : nat) (d : dest) (off n : Z) : M (fsst E) (Z * list Z) :=
  let* p := get_ip ip in
  let size := d_size (i_dip p) in
  if (size <? off) || (u32 (off + n) <? off) then mret (0, [])
  else
    let n := if size <? off + n then size - off else n in
    mloop (Z.to_nat (n / BSIZE) + 3) (fun st =>
      let '(tot, off, acc) := st in
      if tot <? n then
        let* addr := bmap ip (off / BSIZE) in
        if addr =? 0 then mret (inr (i32 tot, acc))
        else
          let* i := bread (i_dev p) addr in
          let m := Z.min (n - tot) (BSIZE - off mod BSIZE) in
          let* bp := get_buf i in
          let bytes := slice (off mod BSIZE) m (b_data bp) in
          let* r := copy_to (match d with ToKernel => ToKernel | ToUser a => ToUser (u64 (a + tot)) end) bytes in
          if r =? -1 then
            brelse i ;;;
            mret (inr (-1, acc))
          else
            brelse i ;;;
            mret (inl (tot + m, off + m, acc ++ bytes))
      else mret (inr (i32 tot, acc))) (0, off, []).

Definition writei (ip : nat) (src : source) (off n : Z) : M (fsst E) Z :=
  let* p := get_ip ip in
  if (d_size (i_dip p) <? off) || (u32 (off + n) <? off) then mret (-1)
  else if MAXFILE * BSIZE <? u32 (off + n) then mret (-1)
  else
    let* r := mloop (Z.to_nat (n / BSIZE) + 3) (fun st =>
      let '(tot, off) := st in
      if tot <? n then
        let* addr := bmap ip (off / BSIZE) in
        if addr =? 0 then mret (inr st)
        else
          let* i := bread (i_dev p) addr in
          let m := Z.min (n - tot) (BSIZE - off mod BSIZE) in
          let* r := copy_from src tot m in
          upd_buf i (fun bp => bp <| b_data ::= splice (off mod BSIZE) (snd r) |>) ;;;
          log_write i ;;;
          brelse i ;;;
          if fst r =? -1 then mret (inr st) else mret (inl (tot + m, off + m))
      else mret (inr st)) (0, off) in
    let '(tot, off) := r in
    let* p := get_ip ip in
    (if d_size (i_dip p) <? off then upd_dip ip (fun d => d <| d_size := off |>) else mret tt) ;;;
    iupdate ip ;;;
    mret (i32 tot).

(** ** Directories *)

(** The entry found and its offset; the caller of dirlookup() may ignore the
    offset. *)
Definition dirlookup (dp : nat) (name : list Z) : M (fsst E) (option (nat * Z)) :=
  let* p := get_ip dp in
  if negb (d_type (i_dip p) =? T_DIR) then mpanic "dirlookup not DIR"
  else
    mloop (Z.to_nat (d_size (i_dip p) / DIRENT_SIZE) + 2) (fun off =>
      let* p := get_ip dp in
      if off <? d_size (i_dip p) then
        let* r := readi dp ToKernel off DIRENT_SIZE in
        if negb (fst r =? DIRENT_SIZE) then mpanic "dirlookup read"
        else if de_inum (snd r) =? 0 then mret (inl (off + DIRENT_SIZE))
        else if namecmp name (de_name (snd r)) =? 0 then
          let* i := iget (i_dev p) (de_inum (snd r)) in
          mret (inr (Some (i, off)))
        else mret (inl (off + DIRENT_SIZE))
      else mret (inr None)) 0.

Definition dirlink (dp : nat) (name : list Z) (inum : Z) : M (fsst E) Z :=
  let* r := dirlookup dp name in
  match r with
  | Some (ip, _) =>
      iput ip ;;;
      mret (-1)
  | None =>
      let* p := get_ip dp in
      let* off := mloop (Z.to_nat (d_size (i_dip p) / DIRENT_SIZE) + 2) (fun off =>
        let* p := get_ip dp in
        if off <? d_size (i_dip p) then
          let* r := readi dp ToKernel off DIRENT_SIZE in
          if negb (fst r =? DIRENT_SIZE) then mpanic "dirlink read"
          else if de_inum (snd r) =? 0 then mret (inr off)
          else mret (inl (off + DIRENT_SIZE))
        else mret (inr off)) 0 in
      let* r := writei dp (FromKernel (dirent_bytes inum (strncpy_name name))) off DIRENT_SIZE in
      if negb (r =? DIRENT_SIZE) then mret (-1) else mret 0
  end.

(** ** Path names *)

(** The inode, and the name copied by skipelem() last. *)
Definition namex (path : list Z) (nameiparent : bool) : M (fsst E) (option nat * list Z) :=
  let* cwd := mreads fs_cwd in
  let* ip := (if (nth 0 path 0 =? SLASH) then iget ROOTDEV ROOTINO else idup cwd) in
  mloop (S (length path)) (fun st =>
    let '(ip, path, name) := st in
    match skipelem path with
    | Some (path, name) =>
        ilock ip ;;;
        let* p := get_ip ip in
        if negb (d_type (i_dip p) =? T_DIR) then
          iunlockput ip ;;;
          mret (inr (None, name))
        else if d_nlink (i_dip p) =? 0 then
          iunlockput ip ;;;
          mret (inr (None, name))
        else if nameiparent && bool_decide (path = []) then
          iunlock ip ;;;
          mret (inr (Some ip, name))
        else
          let* next := dirlookup ip name in
          match next with
          | None =>
              iunlockput ip ;;;
              mret (inr (None, name))
          | Some (next, _) =>
              iunlockput ip ;;;
              mret (inl (next, path, name))
          end
    | None =>
        if nameiparent then
          iput ip ;;;
          mret (inr (None, name))
        else mret (inr (Some ip, name))
    end) (ip, path, []).

Definition namei (path : list Z) : M (fsst E) (option nat) :=
  let* r := namex path false in mret (fst r).
Definition nameiparent (path : list Z) : M (fsst E) (option nat * list Z) := namex path true.
End Fs.
