(* ===== verification/FsNames.v ===== *)
(** * Path names, directory entries and on-disk inodes

    skipelem() against a definition by splitting at slashes; the names of
    directory entries as strncpy() stores and namecmp() compares them; the bytes
    of an inode. *)
From stdpp Require Import base list strings gmap.
From Stdlib Require Import ZArith Lia.
From S2P Require Import Prelude Spinlock CString Kalloc FsState Bytes Bio Log Fs.

(** ** Path names *)

(** The pieces of a path between its slashes. *)
Fixpoint split_slash (path : list Z) : list (list Z) :=
  match path with
  | [] => [[]]
  | c :: rest =>
      if c =? SLASH then [] :: split_slash rest
      else match split_slash rest with
           | x :: xs => (c :: x) :: xs
           | [] => [[c]]
           end
  end.
(** The elements of a path: the pieces that are not empty, cut to DIRSIZ. *)
Definition path_elems (path : list Z) : list (list Z) :=
  map (take 14) (filter (fun x => x <> []) (split_slash path)).

(** The names namex() gets from its calls of skipelem(), in order. *)
Fixpoint skip_all (fuel : nat) (path : list Z) : option (list (list Z)) :=
  match fuel with
  | O => None
  | S fuel =>
      match skipelem path with
      | None => Some []
      | Some (rest, name) => cons name <$> skip_all fuel rest
      end
  end.

Lemma split_slash_ne path : split_slash path <> [].
Proof. destruct path as [|c path]; simpl; [done|]. destruct (c =? SLASH); [done|]. by destruct (split_slash path). Qed.

Lemma skip_slashes_elems path :
  filter (fun x => x <> []) (split_slash (skip_slashes path)) = filter (fun x => x <> []) (split_slash path).
Proof.
  induction path as [|c path IH]; [done|]. cbn [skip_slashes]. destruct (c =? SLASH) eqn:Ec; [|done].
  rewrite IH. cbn [split_slash]. rewrite Ec. by rewrite filter_cons_False by (intros Hx; by apply Hx).
Qed.
Lemma skip_slashes_length path : (length (skip_slashes path) <= length path)%nat.
Proof. induction path as [|c path IH]; simpl; [done|]. destruct (c =? SLASH); simpl; lia. Qed.
Lemma skip_slashes_head path c rest : skip_slashes path = c :: rest -> c <> SLASH.
Proof.
  induction path as [|d path IH]; simpl; [done|]. destruct (Z.eqb_spec d SLASH); [done|]. by intros [= -> ->].
Qed.

(** The piece up to the next slash. *)
Lemma span_elem_split path :
  split_slash path = match snd (span_elem path) with [] => [fst (span_elem path)] | _ :: rest => fst (span_elem path) :: split_slash rest end /\
  (length (snd (span_elem path)) <= length path)%nat.
Proof.
  induction path as [|c path [IH1 IH2]]; [done|]. cbn [span_elem split_slash]. destruct (Z.eqb_spec c SLASH) as [->|Hc]; simpl; [done|].
  rewrite IH1. split; [|lia]. by destruct (snd (span_elem path)).
Qed.

Lemma span_elem_rest path d r : snd (span_elem path) = d :: r -> d = SLASH.
Proof.
  induction path as [|c path IH]; simpl; [done|]. destruct (Z.eqb_spec c SLASH) as [->|Hc]; simpl; [by intros [= <- _]|done].
Qed.

Lemma skipelem_spec path :
  match skipelem path with
  | None => path_elems path = []
  | Some (rest, name) => path_elems path = name :: path_elems rest /\ (length rest < length path)%nat
  end.
Proof.
  unfold skipelem, path_elems. rewrite <- (skip_slashes_elems path). pose proof (skip_slashes_length path) as Hl.
  destruct (skip_slashes path) as [|c p] eqn:Ep; [done|]. pose proof (skip_slashes_head _ _ _ Ep) as Hc.
  destruct (span_elem_split (c :: p)) as [Hs _]. destruct (span_elem_split p) as [_ Hlp].
  assert (span_elem (c :: p) = (c :: fst (span_elem p), snd (span_elem p))) as Esp.
  { simpl. by rewrite (proj2 (Z.eqb_neq _ _)). }
  rewrite Esp in Hs |- *. cbn [fst snd] in Hs |- *. set (e := c :: fst (span_elem p)) in *. set (r := snd (span_elem p)) in *.
  assert ((if DIRSIZ <=? Z.of_nat (length e) then take 14 e else e) = take 14 e) as Hname.
  { destruct (Z.leb_spec DIRSIZ (Z.of_nat (length e))) as [|Hlt]; [done|]. rewrite take_ge; [done|]. change DIRSIZ with 14 in Hlt. lia. }
  rewrite Hname. split.
  - rewrite Hs, skip_slashes_elems. destruct r as [|d r'] eqn:Er; [by rewrite filter_cons_True|].
    assert (d = SLASH) as -> by (by apply (span_elem_rest p d r')).
    rewrite filter_cons_True by done. cbn [split_slash map]. rewrite Z.eqb_refl, filter_cons_False; [done|]. intros Hx. by apply Hx.
  - pose proof (skip_slashes_length r) as Hr. simpl in Hl. lia.
Qed.

(** The names skipelem() takes off a path one by one are its elements, and it
    comes to the end of the path: the loop of namex() terminates. *)
Theorem path_walk path : skip_all (S (length path)) path = Some (path_elems path).
Proof.
  assert (forall n p, (length p < n)%nat -> skip_all n p = Some (path_elems p)) as H; [|apply H; lia].
  induction n as [|n IH]; intros p Hp; [lia|]. cbn [skip_all]. pose proof (skipelem_spec p) as Hs.
  destruct (skipelem p) as [[rest name]|]; [|by rewrite Hs]. destruct Hs as [-> Hr]. rewrite IH by lia. done.
Qed.

(** ** Names of directory entries *)
Lemma cstr_nonzero l : Forall (fun c => c <> 0) l -> cstr (l ++ [0]) = l.
Proof.
  induction 1 as [|c l Hc _ IH]; [done|]. simpl. rewrite (proj2 (Z.eqb_neq _ _)) by done. by rewrite IH.
Qed.
Lemma cstr_take l n : cstr (take n (l ++ [0])) = take n (cstr (l ++ [0])).
Proof.
  revert n. induction l as [|c l IH]; intros [|n]; try done.
  simpl. destruct (c =? 0); [by rewrite ?take_nil|]. simpl. by rewrite IH.
Qed.

(** Objects one after the other. *)
Lemma two_objects_lookup a b i : two_objects a b (Z.of_nat i) = default 0 ((a ++ b) !! i).
Proof. unfold two_objects. rewrite (proj2 (Z.ltb_ge _ _)) by lia. by rewrite Nat2Z.id. Qed.
Lemma bytes_at_objects a b s n :
  (s + n <= length (a ++ b))%nat -> bytes_at (two_objects a b) (Z.of_nat s) n = take n (drop s (a ++ b)).
Proof.
  intros Hn. apply list_eq. intros i. unfold bytes_at. rewrite list_lookup_fmap. destruct (decide (i < n)%nat) as [Hi|Hi].
  - rewrite lookup_seq_lt, lookup_take_lt, lookup_drop by done. simpl. rewrite <- Nat2Z.inj_add, two_objects_lookup.
    destruct (lookup_lt_is_Some_2 (a ++ b) (s + i)) as [x Hx]; [lia|]. by rewrite Hx.
  - rewrite lookup_seq_ge, lookup_take_ge by lia. done.
Qed.

Lemma cstr_app_zero l r n : Forall (fun c => 0 < c) l -> cstr (take n (l ++ 0 :: r)) = take n l.
Proof.
  intros Hl. revert n. induction Hl as [|c l Hc _ IH]; intros [|n]; try done.
  simpl. rewrite (proj2 (Z.eqb_neq _ _)) by lia. by rewrite IH.
Qed.

Lemma strncpy_loop_frame n m s t x : x < s \/ s + Z.of_nat n <= x -> strncpy_loop m s t n x = m x.
Proof.
  revert m s t. induction n as [|n IH]; intros m s t Hx; cbn [strncpy_loop]; [done|]. destruct (m t =? 0).
  - rewrite strncpy_pad_spec, decide_False by lia. apply store_ne. lia.
  - rewrite IH by lia. apply store_ne. lia.
Qed.
Lemma strncpy_loop_spec n m s t :
  s + Z.of_nat n <= t -> (forall x, 0 <= m x) ->
  cstr (bytes_at (strncpy_loop m s t n) s n) = cstr (bytes_at m t n) /\ forall x, 0 <= strncpy_loop m s t n x.
Proof.
  revert m s t. induction n as [|n IH]; intros m s t Hd Hm; cbn [strncpy_loop]; [done|].
  assert (forall x, 0 <= store m s (m t) x) as Hm' by (intros x; unfold store; by destruct (x =? s)).
  rewrite !bytes_at_S. cbn [cstr]. destruct (Z.eqb_spec (m t) 0) as [H0|H0].
  - rewrite strncpy_pad_spec, decide_False, store_eq, H0 by lia. split; [done|]. intros x. rewrite strncpy_pad_spec.
    case_decide; [lia|]. rewrite H0 in Hm'. apply Hm'.
  - rewrite strncpy_loop_frame, store_eq by lia. rewrite (proj2 (Z.eqb_neq _ _)) by done.
    destruct (IH (store m s (m t)) (s + 1) (t + 1) ltac:(lia) Hm') as [IH1 IH2]. rewrite IH1. split; [|done].
    do 2 f_equal. apply bytes_at_ext. intros x Hx. apply store_ne. lia.
Qed.

(** A name that can be the element of a path: its bytes are not NUL. *)
Definition is_name (l : list Z) : Prop := Forall (fun c => 0 < c < 256) l.
Lemma is_name_pos l : is_name l -> Forall (fun c => 0 < c) l.
Proof. intros H. eapply Forall_impl; [exact H|]. simpl. lia. Qed.
Lemma two_objects_nonneg a b : Forall (fun c => 0 <= c) a -> Forall (fun c => 0 <= c) b -> forall x, 0 <= two_objects a b x.
Proof.
  intros Ha Hb x. unfold two_objects. destruct (x <? 0); [lia|]. destruct ((a ++ b) !! Z.to_nat x) as [y|] eqn:Ey; [|simpl; lia].
  simpl. assert (Forall (fun c => 0 <= c) (a ++ b)) as Hab by (by apply Forall_app). rewrite Forall_lookup in Hab. by eapply Hab.
Qed.

(** namecmp() compares the first DIRSIZ bytes of a name with an entry's. *)
Lemma namecmp_spec name t :
  is_name name -> Forall (fun c => 0 <= c) t -> length t = 14%nat -> namecmp name t = 0 <-> take 14 name = cstr t.
Proof.
  intros Hn Ht Hlen. unfold namecmp, strncmp. change (Z.to_nat DIRSIZ) with 14%nat.
  rewrite strncmp_loop_zero.
  2:{ apply two_objects_nonneg; apply Forall_app; (split; [|by repeat constructor]); [|done]. eapply Forall_impl; [exact Hn|]. simpl. lia. }
  change (bytes_at ?m 0 14) with (bytes_at m (Z.of_nat 0) 14). replace (Z.of_nat (length name) + 1) with (Z.of_nat (length name + 1)) by lia.
  rewrite !bytes_at_objects by (rewrite !length_app, Hlen; simpl; lia).
  rewrite drop_0, <- app_assoc. cbn [app]. rewrite cstr_app_zero by (by apply is_name_pos).
  replace (name ++ 0 :: t ++ [0]) with ((name ++ [0]) ++ (t ++ [0])) by (by rewrite <- app_assoc).
  rewrite drop_app_length' by (rewrite length_app; simpl; lia).
  rewrite take_app_length' by done. done.
Qed.

(** strncpy() stores the first DIRSIZ bytes. *)
Lemma strncpy_name_spec name :
  is_name name -> cstr (strncpy_name name) = take 14 name /\ length (strncpy_name name) = 14%nat /\ Forall (fun c => 0 <= c) (strncpy_name name).
Proof.
  intros Hn. unfold strncpy_name, strncpy. change (Z.to_nat DIRSIZ) with 14%nat. set (m := two_objects _ _).
  assert (forall x, 0 <= m x) as Hm.
  { apply two_objects_nonneg; [by repeat constructor|]. apply Forall_app. split; [|by repeat constructor].
    eapply Forall_impl; [exact Hn|]. simpl. lia. }
  destruct (strncpy_loop_spec 14 m 0 14 ltac:(lia) Hm) as [H1 H2]. split; [|split; [apply length_bytes_at|]].
  - rewrite H1. clear H1 H2.
    assert (bytes_at m 14 14 = take 14 (name ++ 0 :: repeat 0 14)) as ->; [|by apply cstr_app_zero, is_name_pos].
    apply list_eq. intros i. unfold bytes_at. rewrite list_lookup_fmap. destruct (decide (i < 14)%nat) as [Hi|Hi].
    2:{ rewrite lookup_seq_ge, lookup_take_ge by lia. done. }
    rewrite lookup_seq_lt, lookup_take_lt by done. transitivity (Some (m (14 + Z.of_nat i))); [done|].
    unfold m. replace (14 + Z.of_nat i) with (Z.of_nat (14 + i)) by lia.
    rewrite two_objects_lookup, lookup_app_r by (rewrite repeat_length; lia). rewrite repeat_length.
    replace (14 + i - 14)%nat with i by lia. destruct (decide (i < length name)%nat) as [Hl|Hl].
    + rewrite !lookup_app_l by done. by destruct (lookup_lt_is_Some_2 name i Hl) as [x ->].
    + rewrite !lookup_app_r by lia. change (0 :: repeat 0 14) with (repeat 0 15).
      assert (forall k j, (j < k)%nat -> repeat 0 k !! j = Some 0) as Hrep.
      { intros k. induction k as [|k IH]; intros [|j] Hj; simpl; try lia; [done|]. apply IH. lia. }
      rewrite Hrep by lia. by destruct (i - length name)%nat.
  - apply Forall_forall. intros x Hx. unfold bytes_at in Hx. apply list_elem_of_fmap in Hx as (i & -> & _). apply H2.
Qed.

(** An entry written by dirlink() has the inode number and the name it was
    given: dirlookup() finds it under every name with the same first DIRSIZ
    bytes, and under no other. *)
Theorem dirent_roundtrip inum name name' :
  is_name name -> is_name name' -> 0 <= inum < 2 ^ 16 ->
  let de := dirent_bytes inum (strncpy_name name) in
  Z.of_nat (length de) = DIRENT_SIZE /\ de_inum de = inum /\ (namecmp name' (de_name de) = 0 <-> take 14 name' = take 14 name).
Proof.
  intros Hn Hn' Hi de. destruct (strncpy_name_spec name Hn) as (H1 & H2 & H3).
  assert (length (le_bytes 2 inum) = 2%nat) as Hl by apply length_le_bytes. split; [|split].
  - unfold de, dirent_bytes. rewrite length_app, Hl, H2. done.
  - unfold de, dirent_bytes, de_inum. rewrite take_app_length' by done. rewrite le_val_bytes. by apply Z.mod_small.
  - unfold de, dirent_bytes, de_name. rewrite drop_app_length' by done. by rewrite namecmp_spec, H1.
Qed.

Lemma dirent_roundtrip_witness :
  let de := dirent_bytes 300 (strncpy_name [97; 98]) in
  de_inum de = 300 /\ (namecmp [97; 98] (de_name de) = 0 <-> take 14 [97; 98] = take 14 [97; 98]).
Proof.
  apply (dirent_roundtrip 300 [97; 98] [97; 98]); [by repeat constructor|by repeat constructor|lia].
Defined.

(** ** On-disk inodes *)
Record dinode_ok (d : dinode) : Prop := {
  do_type : - 2 ^ 15 <= d_type d < 2 ^ 15;
  do_major : - 2 ^ 15 <= d_major d < 2 ^ 15;
  do_minor : - 2 ^ 15 <= d_minor d < 2 ^ 15;
  do_nlink : - 2 ^ 15 <= d_nlink d < 2 ^ 15;
  do_size : 0 <= d_size d < 2 ^ 32;
  do_len : length (d_addrs d) = 13%nat;
  do_addrs : Forall (fun a => 0 <= a < 2 ^ 32) (d_addrs d)
}.

Lemma i16_le v : - 2 ^ 15 <= v < 2 ^ 15 -> i16 (le_val (le_bytes 2 v)) = v.
Proof.
  intros Hv. rewrite le_val_bytes. change (256 ^ Z.of_nat 2) with (2 ^ 16). unfold i16. rewrite Zmod_mod.
  change (2 ^ 15) with 32768 in *. change (2 ^ 16) with 65536. destruct (Z.ltb_spec (v mod 65536) 32768); Z.div_mod_to_equations; lia.
Qed.
Lemma u32_le v : 0 <= v < 2 ^ 32 -> le_val (le_bytes 4 v) = v.
Proof. intros Hv. rewrite le_val_bytes. by apply Z.mod_small. Qed.

Lemma length_dinode_bytes d : length (d_addrs d) = 13%nat -> length (dinode_bytes d) = 64%nat.
Proof.
  intros Hl. unfold dinode_bytes.
  assert (forall ad, length (concat (map (le_bytes 4) ad)) = (4 * length ad)%nat) as Hc.
  { clear. intros ad. induction ad as [|a ad IH]; [done|]. cbn [map concat]. rewrite length_app, length_le_bytes, IH. cbn [length]. lia. }
  rewrite !length_app, !length_le_bytes, Hc, Hl. done.
Qed.
(** Reading the bytes of an inode. *)
Lemma get_dinode_bytes d : dinode_ok d -> get_dinode (dinode_bytes d) 0 = d.
Proof.
  intros [H1 H2 H3 H4 H5 H6 H7]. destruct d as [ty ma mi nl sz ad].
  cbn [d_type d_major d_minor d_nlink d_size d_addrs] in *.
  destruct ad as [|a0 [|a1 [|a2 [|a3 [|a4 [|a5 [|a6 [|a7 [|a8 [|a9 [|a10 [|a11 [|a12 [|? ?]]]]]]]]]]]]]]; try discriminate H6. clear H6.
  assert (forall v, v ∈ [a0; a1; a2; a3; a4; a5; a6; a7; a8; a9; a10; a11; a12] -> le_val (le_bytes 4 v) = v) as Hv.
  { intros v Hv. rewrite Forall_forall in H7. by apply u32_le, H7. }
  unfold get_dinode, get16, get32. f_equal.
  - by apply i16_le.
  - by apply i16_le.
  - by apply i16_le.
  - by apply i16_le.
  - by apply u32_le.
  - transitivity (map (fun v => le_val (le_bytes 4 v)) [a0; a1; a2; a3; a4; a5; a6; a7; a8; a9; a10; a11; a12]); [reflexivity|].
    rewrite <- (map_id [a0; a1; a2; a3; a4; a5; a6; a7; a8; a9; a10; a11; a12]) at 2. apply map_ext_in. intros v Hin.
    by apply Hv, list_elem_of_In.
Qed.

(** Only the 64 bytes at the offset matter. *)
Lemma get_dinode_ext data data' off off' :
  (forall o n, 0 <= o -> 0 <= n -> o + n <= 64 -> slice (off + o) n data = slice (off' + o) n data') ->
  get_dinode data off = get_dinode data' off'.
Proof.
  intros H. unfold get_dinode, get16, get32.
  assert (forall o, 0 <= o <= 62 -> slice (off + o) 2 data = slice (off' + o) 2 data') as H2 by (intros; apply H; lia).
  assert (forall o, 0 <= o <= 60 -> slice (off + o) 4 data = slice (off' + o) 4 data') as H4 by (intros; apply H; lia).
  assert (slice off 2 data = slice off' 2 data') as H0 by (specialize (H2 0 ltac:(lia)); by rewrite !Z.add_0_r in H2).
  rewrite H0, !H2, H4 by lia. f_equal. apply map_ext_in. intros k Hk. apply in_seq in Hk. rewrite <- !Z.add_assoc, H4 by lia. done.
Qed.

(** iupdate() and ilock(): an inode written into its slot of a block is read
    back unchanged, and the other inodes of the block stay as they are. *)
Theorem dinode_roundtrip off d data :
  dinode_ok d -> 0 <= off -> off + DINODE_SIZE <= Z.of_nat (length data) ->
  get_dinode (put_dinode off d data) off = d /\ length (put_dinode off d data) = length data /\
  forall off', 0 <= off' -> off' + DINODE_SIZE <= off \/ off + DINODE_SIZE <= off' ->
    get_dinode (put_dinode off d data) off' = get_dinode data off'.
Proof.
  intros Hd Hoff Hlen. pose proof (length_dinode_bytes d (do_len _ Hd)) as Hl. change DINODE_SIZE with 64 in *.
  unfold put_dinode. split; [|split].
  - rewrite <- (get_dinode_bytes d Hd) at 2. apply get_dinode_ext. intros o n Ho Hn Hon.
    rewrite slice_splice_sub by lia. done.
  - apply length_splice; lia.
  - intros off' Hoff' Hdis. apply get_dinode_ext. intros o n Ho Hn Hon. apply slice_splice_other; lia.
Qed.

Definition demo_dinode : dinode :=
  {| d_type := T_FILE; d_major := 0; d_minor := 0; d_nlink := 1; d_size := 1500; d_addrs := 50 :: 51 :: repeat 0 11 |}.
Lemma dinode_roundtrip_witness :
  get_dinode (put_dinode 128 demo_dinode (repeat 0 1024)) 128 = demo_dinode.
Proof.
  apply (dinode_roundtrip 128 demo_dinode (repeat 0 1024)).
  - split; try (unfold demo_dinode, T_FILE; cbn -[Z.pow]; lia); try done. apply Forall_forall. intros a Ha. repeat (apply elem_of_cons in Ha as [->|Ha]; [lia|]). by apply elem_of_nil in Ha.
  - lia.
  - rewrite repeat_length. unfold DINODE_SIZE. lia.
Defined.
