(* ===== verification/FsTxn.v ===== *)
(** * The blocks inside a transaction

    [txn s V K L]: a transaction is under way; [V] gives the contents of every
    block as the process sees it, [K] the blocks whose buffers it has locked,
    [L] the blocks it has changed.  The routines of kernel/fs.c read and change
    blocks with the steps specified here. *)
From stdpp Require Import base list strings gmap.
From Stdlib Require Import ZArith Lia.
From S2P Require Import Prelude Spinlock Kalloc FsState Bio BioList BioSpec BioOps Bytes Log LogSpec LogCrash LogOps.

Section FsTxn.
Context {E : Type}.
Implicit Types (s : fsst E) (V : Z * Z -> list Z) (K : gset (Z * Z)) (L : gset Z).

Record txn_at s V K L (R : gmap (Z * Z) Z) (bs : list Z) : Prop := {
  ta_log : logging s V R K bs;
  ta_rc k : rc R k = (if decide (k ∈ K) then 1 else 0) + (if decide (k.1 = log_dev (slog s) /\ k.2 ∈ L) then 1 else 0);
  ta_L : list_to_set bs = L;
  ta_clean k : k.1 <> 0 -> ~ (k.1 = log_dev (slog s) /\ k.2 ∈ L) -> V k = disk s k
}.
Definition txn s V K L : Prop := exists R bs, txn_at s V K L R bs.

(** A block that may be changed: not part of the log. *)
Definition data_block (g : log_t) (b : Z) : Prop := (b < log_start g \/ log_start g + LOGBLOCKS < b) /\ is_int b.

(** The start of a transaction on an idle file system. *)
Lemma txn_start s V : logging s V ∅ ∅ [] -> (forall k, V k = disk s k) -> txn s V ∅ ∅.
Proof.
  intros HL HV. exists ∅, []. split; try done.
  intros k. unfold rc. rewrite lookup_empty. simpl. rewrite decide_False, decide_False by set_solver. done.
Qed.

(** What the steps may change of the state. *)
Record tframe s s' : Prop := {
  tf_rest : s' = s <| fs_cpu := fs_cpu s' |> <| bufs := bufs s' |> <| slog := slog s' |>;
  tf_log : slog s' = (slog s) <| log_lh := log_lh (slog s') |>;
  tf_cpu : lockcycle (fs_cpu s') = lockcycle (fs_cpu s)
}.
#[global] Instance tframe_preorder : PreOrder tframe.
Proof.
  split.
  - intros s. split; [by destruct s|by destruct (slog s)|done].
  - intros s1 s2 s3 [A1 A2 A3] [B1 B2 B3]. split; [rewrite B1, A1; done|rewrite B2, A2; done|congruence].
Qed.

Lemma bframe_tframe s s' : bframe s s' -> disk s' = disk s -> dwrites s' = dwrites s -> tframe s s'.
Proof.
  intros Hf Hd Hw. pose proof (bframe_slog _ _ Hf) as Hg. split.
  - destruct Hf as [F _]. rewrite Hd, Hw in F. rewrite Hg. rewrite F. by destruct s.
  - rewrite Hg. by destruct (slog s).
  - destruct (bf_cpu _ _ Hf) as [-> | ->]; [done|apply lockcycle_idemp].
Qed.

Lemma txn_size_list s V K L R bs : txn_at s V K L R bs -> length bs = size L.
Proof.
  intros H. rewrite <- (ta_L _ _ _ _ _ _ H). symmetry. apply (size_list_to_set (C := gset Z)).
  apply (lw_nodup _ _ (lg_log _ _ _ _ _ (ta_log _ _ _ _ _ _ H))).
Qed.
Lemma txn_size s V K L R bs : txn_at s V K L R bs -> (size R <= size K + size L)%nat.
Proof.
  intros H. set (g := slog s). set (LK := list_to_set (C := gset (Z * Z)) (hkey g <$> bs)).
  assert (size LK = size L) as <-.
  { unfold LK. rewrite size_list_to_set; [rewrite length_fmap; by eapply txn_size_list|].
    apply NoDup_fmap_2; [|apply (lw_nodup _ _ (lg_log _ _ _ _ _ (ta_log _ _ _ _ _ _ H)))]. intros x y. unfold hkey. by intros [=]. }
  rewrite <- size_dom. transitivity (size (K ∪ LK)).
  2:{ rewrite size_union_alt. apply Nat.add_le_mono_l, subseteq_size. set_solver. }
  apply subseteq_size. intros k Hk. apply elem_of_dom in Hk as [c Hc]. apply elem_of_union.
  assert (rc R k <> 0) as Hrc.
  { unfold rc. rewrite Hc. simpl. by eapply (bio_counted _ _ _ _ (lg_bio _ _ _ _ _ (ta_log _ _ _ _ _ _ H))). }
  rewrite (ta_rc _ _ _ _ _ _ H) in Hrc. destruct (decide (k ∈ K)); [by left|].
  destruct (decide _) as [[H1 H2]|]; [|done]. right. unfold LK.
  apply elem_of_list_to_set, list_elem_of_fmap. exists k.2. split; [unfold hkey, g; rewrite <- H1; by destruct k|].
  rewrite <- (ta_L _ _ _ _ _ _ H) in H2. by apply elem_of_list_to_set in H2.
Qed.
(** Buffers locked before stay locked. *)
Definition holds K s s' : Prop := forall j k, k ∈ K -> held s j k -> held s' j k.
Lemma holds_trans K K' s1 s2 s3 : K ⊆ K' -> holds K s1 s2 -> holds K' s2 s3 -> holds K s1 s3.
Proof. intros Hs H1 H2 j k Hk Hh. apply H2; [by apply Hs|]. by apply H1. Qed.
Lemma same_held_holds K s s' : same_held s s' -> holds K s s'.
Proof. intros H j k _ Hh. by apply H. Qed.

(** Reading a block into a locked buffer. *)
Lemma txn_bread s V K L k :
  txn s V K L -> k.1 <> 0 -> k ∉ K -> ~ in_log (slog s) k -> (size K + size L < NBUF)%nat ->
  exists i s', bread k.1 k.2 s = Ok (i, s') /\ held s' i k /\ tframe s s' /\ txn s' V ({[k]} ∪ K) L /\ holds K s s'.
Proof.
  intros (R & bs & H) Hd HK Hlog Hroom. pose proof (txn_size _ _ _ _ _ _ H) as Hsz.
  pose proof (ta_rc _ _ _ _ _ _ H k) as Hrc. rewrite decide_False in Hrc by done.
  destruct H as [[L1 L2 L3 L4 L5 L6 L7 L8 L9 L10] Hrcs HL Hclean].
  destruct k as [dev bno]. destruct (bio_bread s V R K dev bno L1 Hd HK) as (i & s' & Hrun & Hof & Hh & Hkp & Hb').
  { rewrite Hrc. destruct (decide _); lia. }
  { left. lia. }
  destruct (only_bufs_bframe _ _ Hof) as (Hf & Hdisk & Hdw). pose proof (bframe_slog _ _ Hf) as Hg.
  set (k := (dev, bno)) in *.
  exists i, s'. split; [done|]. split; [done|]. split; [|split].
  - by apply bframe_tframe.
  - exists (set_rc R k (rc R k + 1)), bs. split; rewrite ?Hg; try done.
    + split; rewrite ?Hg, ?Hdisk; try done.
      * intros b Hb. destruct (decide (hkey (slog s) b = k)) as [Heq|N].
        -- rewrite Heq, rc_set_eq. rewrite Hrc. destruct (decide _); lia.
        -- rewrite rc_set_ne by done. by apply L5.
      * intros k' Hk'. rewrite set_rc_ne; [by apply L6|]. by intros ->.
    + intros k'. destruct (decide (k' = k)) as [->|N].
      * rewrite rc_set_eq, Hrc, (decide_True (P := k ∈ {[k]} ∪ K)) by set_solver. lia.
      * rewrite rc_set_ne, Hrcs by done. f_equal. destruct (decide (k' ∈ K)), (decide (k' ∈ {[k]} ∪ K)); set_solver.
    + intros k'. rewrite Hdisk. apply Hclean.
  - intros j k' Hk' Hheld. apply Hkp; [|done]. by apply (bi_K _ _ _ _ L1).
Qed.

Lemma txn_get s V K L i k :
  txn s V K L -> held s i k -> k ∈ K ->
  exists b, get_buf i s = Ok (b, s) /\ b_data b = V k /\ b_blockno b = k.2 /\ b_dev b = k.1.
Proof. intros (R & bs & H). apply (get_held s V R K), (lg_bio _ _ _ _ _ (ta_log _ _ _ _ _ _ H)). Qed.

(** Giving the buffer back. *)
Lemma txn_brelse s V K L i k :
  txn s V K L -> held s i k -> k ∈ K ->
  exists s', brelse i s = Ok (tt, s') /\ same_held s s' /\ tframe s s' /\ txn s' V (K ∖ {[k]}) L.
Proof.
  intros (R & bs & H) Hh HK. pose proof H as [[L1 L2 L3 L4 L5 L6 L7 L8 L9 L10] Hrcs HL Hclean].
  pose proof (Hrcs k) as Hrc. rewrite decide_True in Hrc by done.
  assert (k.1 <> 0) as Hd by (by apply (bi_K _ _ _ _ L1)).
  destruct (bio_brelse s V R K i k L1 Hh HK) as (s' & Hrun & Hf & Hdisk & Hdw & Hsh & Hb').
  { intros H1. apply Hclean; [done|]. intros Hin. rewrite decide_True in Hrc by done. lia. }
  pose proof (bframe_slog _ _ Hf) as Hg. exists s'. split; [done|]. split; [done|]. split; [by apply bframe_tframe|].
  exists (set_rc R k (rc R k - 1)), bs. split; rewrite ?Hg; try done.
  - split; rewrite ?Hg, ?Hdisk; try done.
    + intros b Hb. destruct (decide (hkey (slog s) b = k)) as [Heq|N].
      * rewrite Heq, rc_set_eq, Hrc. rewrite decide_True; [lia|]. rewrite <- Heq. split; [done|]. simpl. rewrite <- HL. by apply elem_of_list_to_set.
      * rewrite rc_set_ne by done. by apply L5.
    + intros k' Hk'. rewrite set_rc_ne; [by apply L6|]. intros ->.
      unfold rc in Hrc. rewrite (L6 k Hk') in Hrc. simpl in Hrc. destruct (decide _); lia.
  - intros k'. destruct (decide (k' = k)) as [->|N].
    + rewrite rc_set_eq, Hrc, (decide_False (P := k ∈ K ∖ {[k]})) by set_solver. lia.
    + rewrite rc_set_ne, Hrcs by done. f_equal. destruct (decide (k' ∈ K)), (decide (k' ∈ K ∖ {[k]})); set_solver.
  - intros k'. rewrite Hdisk. apply Hclean.
Qed.
(** Changing a locked buffer and logging it. *)
Lemma txn_modify s V K L i b g f :
  let k := hkey (slog s) b in
  txn s V K L -> held s i k -> k ∈ K -> data_block (slog s) b -> log_outstanding (slog s) = 1 -> Z.of_nat (size L) < LOGBLOCKS ->
  (forall x, g x = x <| b_data := f (b_data x) |>) ->
  exists s', (forall B (rest : M (fsst E) B), (upd_buf i g ;;; log_write i ;;; rest) s = rest s') /\
    (upd_buf i g ;;; log_write i) s = Ok (tt, s') /\ same_held s s' /\ tframe s s' /\
    txn s' (vset V k (f (V k))) K ({[b]} ∪ L).
Proof.
  intros k (R & bs & H) Hh HK [Hb Hint] Hout Hroom Hg. pose proof (txn_size_list _ _ _ _ _ _ H) as Hlen.
  destruct H as [[L1 L2 L3 L4 L5 L6 L7 L8 L9 L10] Hrcs HL Hclean].
  destruct (bio_upd_data s V R K i k g f L1 Hh HK Hg) as (s1 & Hr1 & Hs1 & Hsh1 & Hb1).
  assert (slog s1 = slog s /\ disk s1 = disk s /\ fs_cpu s1 = fs_cpu s) as (Eg & Ed & Ec) by (rewrite Hs1; done).
  assert (logging s1 (vset V k (f (V k))) R K bs) as HL1 by (split; rewrite ?Eg, ?Ed; done).
  pose proof (Hrcs k) as Hrc. rewrite (decide_True (P := k ∈ K)) in Hrc by done.
  destruct (log_write_ok s1 _ R K bs i b HL1) as (s2 & Hr2 & Hsh2 & Hd2 & _ & Hg2 & Hrest & HL2); rewrite ?Eg; try done.
  { by apply Hsh1. } { lia. } { lia. } { fold k. rewrite Hrc. destruct (decide _); lia. }
  rewrite Eg in Hg2, HL2. fold k in HL2. exists s2.
  split; [intros B rest; by rewrite (mbind_Ok _ _ _ _ _ Hr1), (mbind_Ok _ _ _ _ _ Hr2)|].
  split; [by rewrite (mbind_Ok _ _ _ _ _ Hr1)|].
  split; [intros j k'; rewrite (Hsh2 j k'); apply Hsh1|]. split.
  { split; [rewrite Hrest, Hs1; done|done|]. rewrite Hrest. simpl. by rewrite lockcycle_idemp, Ec. }
  assert (log_dev (slog s2) = log_dev (slog s)) as Edev by (by rewrite Hg2).
  assert (forall x, x ∈ bs <-> x ∈ L) as HbL by (intros x; rewrite <- HL; by rewrite elem_of_list_to_set).
  eexists _, _. split; [exact HL2| | |].
  - intros k'. rewrite Edev. destruct (decide (b ∈ bs)) as [Hin|Hni].
    + rewrite Hrcs. f_equal. apply HbL in Hin. destruct (decide (k'.1 = log_dev (slog s) /\ k'.2 ∈ L)), (decide (k'.1 = log_dev (slog s) /\ k'.2 ∈ {[b]} ∪ L)); set_solver.
    + destruct (decide (k' = k)) as [->|N].
      * rewrite rc_set_eq, Hrc, (decide_True (P := k ∈ K)) by done. rewrite decide_False, decide_True; [lia| |].
        -- split; [done|]. simpl. set_solver.
        -- intros [_ Hx]. simpl in Hx. by apply Hni, HbL.
      * rewrite rc_set_ne, Hrcs by done. f_equal.
        destruct (decide (k'.1 = log_dev (slog s) /\ k'.2 ∈ L)) as [[A1 A2]|A], (decide (k'.1 = log_dev (slog s) /\ k'.2 ∈ {[b]} ∪ L)) as [[B1 B2]|B]; try done.
        -- exfalso. apply B. split; [done|]. set_solver.
        -- exfalso. apply A. split; [done|]. apply elem_of_union in B2 as [B2|B2]; [|done]. apply elem_of_singleton in B2.
           exfalso. apply N. unfold k, hkey. rewrite <- B1, <- B2. by destruct k'.
  - unfold log_add. destruct (decide (b ∈ bs)) as [Hin|Hni].
    + rewrite HL. apply HbL in Hin. set_solver.
    + rewrite list_to_set_app_L, HL. set_solver.
  - intros k' Hd Hk'. rewrite Edev in Hk'. rewrite Hd2, Ed. rewrite vset_ne.
    + apply Hclean; [done|]. intros [A1 A2]. apply Hk'. split; [done|]. set_solver.
    + intros ->. apply Hk'. split; [done|]. simpl. set_solver.
Qed.

(** Changing a locked buffer, logging it and giving it back. *)
Lemma txn_put s V K L i b g f :
  let k := hkey (slog s) b in
  txn s V ({[k]} ∪ K) L -> k ∉ K -> held s i k -> data_block (slog s) b -> log_outstanding (slog s) = 1 ->
  Z.of_nat (size L) < LOGBLOCKS -> (forall x, g x = x <| b_data := f (b_data x) |>) ->
  exists s', (forall B (rest : M (fsst E) B), (upd_buf i g ;;; log_write i ;;; brelse i ;;; rest) s = rest s') /\
    (upd_buf i g ;;; log_write i ;;; brelse i) s = Ok (tt, s') /\
    holds K s s' /\ tframe s s' /\ txn s' (vset V k (f (V k))) K ({[b]} ∪ L).
Proof.
  intros k Ht HK Hh Hb Hout Hroom Hg.
  destruct (txn_modify s V ({[k]} ∪ K) L i b g f Ht Hh ltac:(set_solver) Hb Hout Hroom Hg) as (s1 & Hr1 & _ & Hh1 & Hf1 & Ht1).
  fold k in Ht1. assert (held s1 i k) as Hhk by (by apply Hh1).
  destruct (txn_brelse s1 _ _ _ i k Ht1 Hhk ltac:(set_solver)) as (s2 & Hr2 & Hh2 & Hf2 & Ht2).
  exists s2. split; [intros B rest; by rewrite Hr1, (mbind_Ok _ _ _ _ _ Hr2)|]. split; [by rewrite Hr1|].
  split; [apply same_held_holds; intros j k'; by rewrite (Hh2 j k'), (Hh1 j k')|]. split; [by etransitivity|].
  replace (({[k]} ∪ K) ∖ {[k]}) with K in Ht2 by set_solver. done.
Qed.
End FsTxn.
