(* ===== verification/FsAlloc.v ===== *)
(** * The free map of the disk

    bzero(), balloc() and bfree() of kernel/fs.c inside a transaction: what
    they do to the blocks and to the set of blocks in use. *)
From stdpp Require Import base list strings gmap.
From Stdlib Require Import ZArith Lia.
From S2P Require Import Prelude Spinlock Kalloc FsState Bio BioList BioSpec BioOps Bytes Log LogSpec LogCrash LogOps FsTxn Fs.

(** ** Bits of a block *)
Lemma land_bit x n : 0 <= n -> (Z.land x (Z.shiftl 1 n) =? 0) = negb (Z.testbit x n).
Proof.
  intros Hn. rewrite Z.shiftl_1_l. destruct (Z.testbit x n) eqn:Hb; simpl.
  - apply Z.eqb_neq. intros Hz. assert (Z.testbit (Z.land x (2 ^ n)) n = true) as Hc.
    { by rewrite Z.land_spec, Hb, Z.pow2_bits_true. }
    by rewrite Hz, Z.bits_0 in Hc.
  - apply Z.eqb_eq, Z.bits_inj'. intros m Hm. rewrite Z.land_spec, Z.bits_0, Z.pow2_bits_eqb by done.
    destruct (Z.eqb_spec n m) as [<-|]; [by rewrite Hb|apply andb_false_r].
Qed.

Lemma bit_free_alter f d bi bj v :
  0 <= bi < 8 * Z.of_nat (length d) -> 0 <= bj ->
  (forall x m, 0 <= m -> Z.testbit (f x) m = if m =? bi mod 8 then v else Z.testbit x m) ->
  bit_free (alter f (Z.to_nat (bi / 8)) d) bj = if bj =? bi then negb v else bit_free d bj.
Proof.
  intros Hbi Hbj Hf. unfold bit_free. rewrite !land_bit by (apply Z.mod_pos_bound; lia).
  rewrite !(nth_lookup _ _ 0).
  pose proof (Z.div_mod bi 8 ltac:(lia)) as Ei. pose proof (Z.div_mod bj 8 ltac:(lia)) as Ej.
  pose proof (Z.mod_pos_bound bi 8 ltac:(lia)). pose proof (Z.mod_pos_bound bj 8 ltac:(lia)).
  destruct (decide (Z.to_nat (bi / 8) = Z.to_nat (bj / 8))) as [Heq|Hne].
  - rewrite <- Heq, list_lookup_alter_eq.
    destruct (lookup_lt_is_Some_2 d (Z.to_nat (bi / 8))) as [x Hx].
    { apply Nat2Z.inj_lt. rewrite Z2Nat.id by (apply Z.div_pos; lia). apply Z.div_lt_upper_bound; lia. }
    rewrite Hx. simpl. rewrite Hf by lia.
    apply Z2Nat.inj in Heq; [|apply Z.div_pos; lia..].
    destruct (Z.eqb_spec (bj mod 8) (bi mod 8)), (Z.eqb_spec bj bi); try done; lia.
  - rewrite list_lookup_alter_ne by done. destruct (Z.eqb_spec bj bi) as [->|]; [done|]. done.
Qed.

Lemma bit_free_set d bi bj :
  0 <= bi < 8 * Z.of_nat (length d) -> 0 <= bj ->
  bit_free (bit_set bi d) bj = if bj =? bi then false else bit_free d bj.
Proof.
  intros H1 H2. unfold bit_set. rewrite (bit_free_alter _ d bi bj true); try done.
  intros x m Hm. rewrite Z.lor_spec, Z.shiftl_1_l, Z.pow2_bits_eqb by (apply Z.mod_pos_bound; lia).
  rewrite Z.eqb_sym. destruct (m =? bi mod 8); [apply orb_true_r|apply orb_false_r].
Qed.
Lemma bit_free_clear d bi bj :
  0 <= bi < 8 * Z.of_nat (length d) -> 0 <= bj ->
  bit_free (bit_clear bi d) bj = if bj =? bi then true else bit_free d bj.
Proof.
  intros H1 H2. unfold bit_clear. rewrite (bit_free_alter _ d bi bj false); try done.
  intros x m Hm. rewrite Z.land_spec, Z.lnot_spec, Z.shiftl_1_l, Z.pow2_bits_eqb by (try apply Z.mod_pos_bound; lia).
  rewrite Z.eqb_sym. destruct (m =? bi mod 8); simpl; [apply andb_false_r|apply andb_true_r].
Qed.
Lemma length_bit_set bi d : length (bit_set bi d) = length d.
Proof. apply length_alter. Qed.
Lemma length_bit_clear bi d : length (bit_clear bi d) = length d.
Proof. apply length_alter. Qed.

(** The inner loop of balloc(). *)
Lemma find_free_some d b size bi :
  find_free d b size = Some bi -> 0 <= bi < BPB /\ bi < size - b /\ bit_free d bi = true.
Proof.
  unfold find_free. intros Hf. apply find_some in Hf as [Hin Hb]. apply in_map_iff in Hin as (n & <- & Hn).
  apply in_seq in Hn. split; [|split; [|done]]; lia.
Qed.
Lemma find_free_none d b size bi :
  find_free d b size = None -> 0 <= bi < BPB -> bi < size - b -> bit_free d bi = false.
Proof.
  unfold find_free. intros Hf H1 H2. apply (find_none _ _ Hf). apply in_map_iff. exists (Z.to_nat bi). split; [lia|].
  apply in_seq. lia.
Qed.

(** ** The blocks in use *)
Section FsAlloc.
Context {E : Type}.
Implicit Types (s : fsst E) (V : Z * Z -> list Z) (K : gset (Z * Z)) (L : gset Z) (g : log_t) (sup : superblock).

Definition zero_block : list Z := repeat 0 (Z.to_nat BSIZE).
Definition used sup (dev : Z) V (b : Z) : bool := negb (bit_free (V (dev, BBLOCK b sup)) (b mod BPB)).
(** Blocks of the free map. *)
Definition is_map sup (x : Z) : Prop := exists b, 0 <= b < sb_size sup /\ x = BBLOCK b sup.

(** The free map is not in the log, and marks the boot block, itself and the
    log as used. *)
Record freemap sup g V : Prop := {
  fm_dev : log_dev g <> 0;
  fm_size : 0 <= sb_size sup < 2 ^ 31;
  fm_len x : is_map sup x -> Z.of_nat (length (V (log_dev g, x))) = BSIZE;
  fm_map x : is_map sup x -> data_block g x;
  fm_free b : 0 <= b < sb_size sup -> used sup (log_dev g) V b = false -> b <> 0 /\ data_block g b /\ ~ is_map sup b
}.

Lemma is_map_block sup b : 0 <= b < sb_size sup -> is_map sup (BBLOCK b sup).
Proof. intros H. by exists b. Qed.
Lemma BBLOCK_step b bi sup : b mod BPB = 0 -> 0 <= bi < BPB -> BBLOCK (b + bi) sup = BBLOCK b sup /\ (b + bi) mod BPB = bi.
Proof.
  intros Hb Hbi. change BPB with 8192 in *. unfold BBLOCK. change BPB with 8192.
  pose proof (Z.div_mod b 8192 ltac:(lia)) as Hd. rewrite Hb in Hd.
  split; [f_equal|]; rewrite Hd; replace (8192 * (b / 8192) + 0 + bi) with (bi + (b / 8192) * 8192) by lia.
  - rewrite Z.div_add, (Z.div_small bi) by lia. replace (8192 * (b / 8192) + 0) with ((b / 8192) * 8192) by lia. rewrite Z.div_mul by lia. lia.
  - by rewrite Z.mod_add, Z.mod_small by lia.
Qed.
Lemma BBLOCK_inj b c sup : BBLOCK b sup = BBLOCK c sup -> b mod BPB = c mod BPB -> b = c.
Proof. unfold BBLOCK. intros H1 H2. rewrite (Z.div_mod b BPB), (Z.div_mod c BPB) by done. assert (b / BPB = c / BPB) as -> by lia. lia. Qed.

Lemma bit_range g sup V b : freemap sup g V -> 0 <= b < sb_size sup ->
  0 <= b mod BPB < 8 * Z.of_nat (length (V (log_dev g, BBLOCK b sup))).
Proof.
  intros H Hb. rewrite (fm_len _ _ _ H) by by apply is_map_block. change (8 * BSIZE) with BPB. by apply Z.mod_pos_bound.
Qed.

(** Setting and clearing the bit of a block. *)
Lemma used_set sup g V b c : freemap sup g V -> 0 <= b < sb_size sup ->
  used sup (log_dev g) (vset V (log_dev g, BBLOCK b sup) (bit_set (b mod BPB) (V (log_dev g, BBLOCK b sup)))) c =
    if decide (c = b) then true else used sup (log_dev g) V c.
Proof.
  intros H Hb. unfold used. destruct (decide (BBLOCK c sup = BBLOCK b sup)) as [Heq|Hne].
  - rewrite Heq, vset_eq, bit_free_set by (try apply bit_range; try apply Z.mod_pos_bound; done).
    destruct (Z.eqb_spec (c mod BPB) (b mod BPB)); destruct (decide (c = b)) as [->|]; try done.
    exfalso. by apply (BBLOCK_inj c b sup) in Heq.
  - rewrite vset_ne by (intros [=]; done). destruct (decide (c = b)) as [->|]; done.
Qed.
Lemma used_clear sup g V b c : freemap sup g V -> 0 <= b < sb_size sup ->
  used sup (log_dev g) (vset V (log_dev g, BBLOCK b sup) (bit_clear (b mod BPB) (V (log_dev g, BBLOCK b sup)))) c =
    if decide (c = b) then false else used sup (log_dev g) V c.
Proof.
  intros H Hb. unfold used. destruct (decide (BBLOCK c sup = BBLOCK b sup)) as [Heq|Hne].
  - rewrite Heq, vset_eq, bit_free_clear by (try apply bit_range; try apply Z.mod_pos_bound; done).
    destruct (Z.eqb_spec (c mod BPB) (b mod BPB)); destruct (decide (c = b)) as [->|]; try done.
    exfalso. by apply (BBLOCK_inj c b sup) in Heq.
  - rewrite vset_ne by (intros [=]; done). destruct (decide (c = b)) as [->|]; done.
Qed.
(** A block outside of the map does not matter to it. *)
Lemma used_other sup dev V k d c : (forall x, is_map sup x -> k <> (dev, x)) -> 0 <= c < sb_size sup ->
  used sup dev (vset V k d) c = used sup dev V c.
Proof. intros Hk Hc. unfold used. rewrite vset_ne; [done|]. intros Heq. by apply (Hk (BBLOCK c sup)); [apply is_map_block|]. Qed.

(** ** bzero(), balloc() and bfree() *)
Definition alloc_view sup dev V b : Z * Z -> list Z :=
  vset (vset V (dev, BBLOCK b sup) (bit_set (b mod BPB) (V (dev, BBLOCK b sup)))) (dev, b) zero_block.
Definition free_view sup dev V b : Z * Z -> list Z :=
  vset V (dev, BBLOCK b sup) (bit_clear (b mod BPB) (V (dev, BBLOCK b sup))).

Lemma data_not_in_log g b : data_block g b -> ~ in_log g (log_dev g, b).
Proof. intros [Hb _] [_ Hx]. simpl in Hx. lia. Qed.

Lemma tframe_same s s' : tframe s s' -> log_dev (slog s') = log_dev (slog s) /\ log_outstanding (slog s') = log_outstanding (slog s) /\
  log_start (slog s') = log_start (slog s) /\ sb s' = sb s /\ inodes s' = inodes s /\ fs_env s' = fs_env s.
Proof. intros [H1 H2 _]. rewrite H1, H2. done. Qed.
Lemma data_block_same s s' b : tframe s s' -> data_block (slog s') b <-> data_block (slog s) b.
Proof. intros H. destruct (tframe_same _ _ H) as (_ & _ & Hs & _). unfold data_block. by rewrite Hs. Qed.

Lemma freemap_same s s' V : tframe s s' -> freemap (sb s) (slog s) V <-> freemap (sb s) (slog s') V.
Proof.
  intros Hf. destruct (tframe_same _ _ Hf) as (Ed & _ & _ & _). assert (forall b, data_block (slog s') b <-> data_block (slog s) b) as Hb by (intros b; by apply data_block_same).
  split; intros [F1 F2 F3 F4 F5]; split; rewrite ?Ed in *; try done; try (intros x Hx; by apply Hb, F4).
  - intros b H1 H2. destruct (F5 b H1 H2) as (? & ? & ?). split_and!; try done. by apply Hb.
  - intros b H1 H2. destruct (F5 b H1 H2) as (? & ? & ?). split_and!; try done. by apply Hb.
Qed.
Lemma BPB_next b : (b + BPB) / BPB = b / BPB + 1.
Proof. replace (b + BPB) with (b + 1 * BPB) by lia. by rewrite Z.div_add by done. Qed.
Lemma BPB_mod b : (b + BPB) mod BPB = b mod BPB.
Proof. replace (b + BPB) with (b + 1 * BPB) by lia. by rewrite Z.mod_add by done. Qed.

Lemma size_add L b : (size ({[b]} ∪ L) <= S (size L))%nat.
Proof. rewrite size_union_alt, size_singleton. pose proof (subseteq_size (L ∖ {[b]}) L ltac:(set_solver)). lia. Qed.

Lemma bzero_ok s V K L b :
  let dev := log_dev (slog s) in
  txn s V K L -> log_outstanding (slog s) = 1 -> dev <> 0 -> data_block (slog s) b -> (dev, b) ∉ K ->
  (size K + size L < NBUF)%nat -> Z.of_nat (size L) < LOGBLOCKS ->
  exists s', bzero dev b s = Ok (tt, s') /\ holds K s s' /\ tframe s s' /\ txn s' (vset V (dev, b) zero_block) K ({[b]} ∪ L).
Proof.
  intros dev Ht Hout Hd Hb HK Hroom Hl.
  destruct (txn_bread s V K L (dev, b) Ht Hd HK (data_not_in_log _ _ Hb) Hroom) as (i & s1 & Hr1 & Hh1 & Hf1 & Ht1 & Hk1).
  destruct (tframe_same _ _ Hf1) as (Ed & Eo & _). simpl in Hr1.
  assert (hkey (slog s1) b = (dev, b)) as Ek by (unfold hkey; by rewrite Ed).
  destruct (txn_put s1 V K L i b (fun x => x <| b_data := zero_block |>) (fun _ => zero_block)) as (s2 & _ & Hr2 & Hk2 & Hf2 & Ht2);
    rewrite ?Ek, ?Eo; try done.
  { by apply (data_block_same s). }
  rewrite Ek in Ht2. exists s2. unfold bzero. rewrite (mbind_Ok _ _ _ _ _ Hr1). split; [exact Hr2|].
  split; [by eapply holds_trans|]. split; [by etransitivity|done].
Qed.

(** What balloc() returns, and what is known before each pass of its loop. *)
Definition balloc_post s V K L (r : Z) s' : Prop :=
  let dev := log_dev (slog s) in let sup := sb s in
  holds K s s' /\ tframe s s' /\
    (r = 0 /\ (forall b, 0 <= b < sb_size sup -> used sup dev V b = true) /\ txn s' V K L \/
     0 < r < sb_size sup /\ used sup dev V r = false /\ txn s' (alloc_view sup dev V r) K ({[r]} ∪ ({[BBLOCK r sup]} ∪ L))).
Definition balloc_inv s V K L (b : Z) s' : Prop :=
  let dev := log_dev (slog s) in let sup := sb s in
  0 <= b /\ b mod BPB = 0 /\ holds K s s' /\ tframe s s' /\ txn s' V K L /\
    forall c, 0 <= c < b -> c < sb_size sup -> used sup dev V c = true.

(** A free bit was found in the map block [m]. *)
Lemma balloc_take s V K L i b bi :
  let dev := log_dev (slog s) in let sup := sb s in let m := BBLOCK b sup in
  txn s V ({[(dev, m)]} ∪ K) L -> held s i (dev, m) -> log_outstanding (slog s) = 1 -> freemap sup (slog s) V ->
  (dev, m) ∉ K -> (forall b, 0 <= b < sb_size sup -> used sup dev V b = false -> (dev, b) ∉ K) ->
  (size K + S (size L) < NBUF)%nat -> Z.of_nat (size L) + 1 < LOGBLOCKS ->
  0 <= b < sb_size sup -> b mod BPB = 0 -> find_free (V (dev, m)) b (sb_size sup) = Some bi ->
  exists s', (upd_buf i (fun bp => bp <| b_data ::= bit_set bi |>) ;;; log_write i ;;; brelse i ;;; bzero dev (b + bi) ;;;
      mret (inr (b + bi))) s = Ok (@inr Z Z (b + bi), s') /\ balloc_post s V K L (b + bi) s'.
Proof.
  intros dev sup m Ht Hh Hout Hm HKm HKf Hroom Hl Hb Hmod Hff.
  apply find_free_some in Hff as (Hbi & Hlt & Hbf). destruct (BBLOCK_step b bi sup Hmod Hbi) as [EB Em].
  destruct (txn_put s V K L i m (fun bp => bp <| b_data ::= bit_set bi |>) (bit_set bi)) as (s3 & Hr3 & _ & Hk3 & Hf3 & Ht3); try done;
    [by apply (fm_map _ _ _ Hm), is_map_block|lia|].
  rewrite Hr3. destruct (tframe_same _ _ Hf3) as (Ed3 & Eo3 & _).
  assert (used sup dev V (b + bi) = false) as Hu by (unfold used; rewrite EB, Em; fold m; by rewrite Hbf).
  destruct (fm_free _ _ _ Hm (b + bi) ltac:(lia) Hu) as (Hn0 & Hdb & Hnm). pose proof (size_add L m) as Hsa.
  destruct (bzero_ok s3 _ K _ (b + bi) Ht3) as (s4 & Hr4 & Hk4 & Hf4 & Ht4); rewrite ?Ed3, ?Eo3; try done.
  { apply (fm_dev _ _ _ Hm). } { by apply (data_block_same s). } { apply HKf; [lia|done]. } { lia. } { lia. }
  rewrite Ed3 in Hr4, Ht4. fold dev in Hr4, Ht4. rewrite (mbind_Ok _ _ _ _ _ Hr4). eexists s4. split; [reflexivity|].
  split; [by eapply holds_trans|]. split; [by etransitivity|]. right. fold dev sup.
  split; [lia|]. split; [done|]. unfold alloc_view. rewrite EB, Em. exact Ht4.
Qed.

(** balloc() hands out a free block, zeroed and marked as used, or finds that
    every block is used. *)
Lemma balloc_ok s V K L :
  let dev := log_dev (slog s) in let sup := sb s in
  txn s V K L -> log_outstanding (slog s) = 1 -> freemap sup (slog s) V ->
  (forall x, is_map sup x -> (dev, x) ∉ K) ->
  (forall b, 0 <= b < sb_size sup -> used sup dev V b = false -> (dev, b) ∉ K) ->
  (size K + S (size L) < NBUF)%nat -> Z.of_nat (size L) + 1 < LOGBLOCKS ->
  exists r s', balloc dev s = Ok (r, s') /\ balloc_post s V K L r s'.
Proof.
  intros dev sup Ht Hout Hm HKm HKf Hroom Hl. unfold balloc. rewrite mbind_reads. fold sup.
  assert (0 <= sb_size sup) as Hsz by apply (fm_size _ _ _ Hm).
  apply mloop_ok with (Inv := balloc_inv s V K L) (mu := fun b => Z.to_nat (sb_size sup / BPB + 1 - b / BPB)).
  2:{ split; [lia|]. split; [done|]. split; [by intros j k|]. split; [done|]. split; [done|]. intros; lia. }
  2:{ rewrite Z.div_0_l by done. pose proof (Z.div_pos (sb_size sup) BPB ltac:(lia) ltac:(done)). lia. }
  intros b s1 (Hb0 & Hmod & Hh1 & Hf1 & Ht1 & Hall). destruct (Z.ltb_spec b (sb_size sup)) as [Hb|Hb].
  2:{ exists (inr 0), s1. split; [done|]. split; [done|]. split; [done|]. left. split; [done|]. split; [|done].
      intros c Hc. subst sup. apply Hall; lia. }
  set (m := BBLOCK b sup). assert (is_map sup m) as Hism by (by apply is_map_block).
  destruct (tframe_same _ _ Hf1) as (Ed1 & _). destruct (txn_bread s1 V K L (dev, m) Ht1 (fm_dev _ _ _ Hm) (HKm m Hism)) as (i & s2 & Hr2 & Hh2 & Hf2 & Ht2 & Hk2).
  { unfold dev. rewrite <- Ed1. apply data_not_in_log, (data_block_same s); [done|]. by apply (fm_map _ _ _ Hm). } { lia. }
  simpl in Hr2. rewrite (mbind_Ok _ _ _ _ _ Hr2).
  assert (tframe s s2) as Hf by (by etransitivity). assert (holds K s s2) as Hk by (by eapply holds_trans).
  destruct (tframe_same _ _ Hf) as (Ed & Eo & Est & Es & _).
  destruct (txn_get s2 V _ L i (dev, m) Ht2 Hh2 ltac:(set_solver)) as (bp & Hg & Hdat & _).
  rewrite (mbind_Ok _ _ _ _ _ Hg), Hdat. destruct (find_free _ b (sb_size sup)) as [bi|] eqn:Hff.
  - destruct (balloc_take s2 V K L i b bi) as (s3 & Hr3 & Hk3 & Hf3 & HP); rewrite ?Ed, ?Es; try done.
    { by rewrite Eo. } { by apply (freemap_same s). } { by apply HKm. }
    rewrite Ed in Hr3. fold dev in Hr3. rewrite Hr3. eexists _, s3. split; [reflexivity|]. rewrite Ed, Es in HP.
    split; [by eapply holds_trans|]. split; [by etransitivity|exact HP].
  - destruct (txn_brelse s2 V _ L i (dev, m) Ht2 Hh2 ltac:(set_solver)) as (s3 & Hr3 & Hk3 & Hf3 & Ht3).
    rewrite (mbind_Ok _ _ _ _ _ Hr3). eexists _, s3. split; [reflexivity|].
    replace (({[(dev, m)]} ∪ K) ∖ {[(dev, m)]}) with K in Ht3 by (pose proof (HKm m Hism); set_solver).
    split; [|rewrite BPB_next; pose proof (Z.div_le_mono b (sb_size sup) BPB ltac:(done) ltac:(lia)); lia].
    split; [change BPB with 8192; lia|]. split; [by rewrite BPB_mod|].
    split; [eapply holds_trans; [reflexivity|exact Hk|]; by apply same_held_holds|]. split; [by etransitivity|]. split; [done|].
    intros c Hc Hcs. destruct (decide (c < b)); [apply Hall; lia|]. destruct (BBLOCK_step b (c - b) sup Hmod ltac:(lia)) as [EB Em].
    replace (b + (c - b)) with c in EB, Em by lia. fold dev sup. unfold used. rewrite EB, Em. fold m.
    rewrite (find_free_none _ _ _ (c - b) Hff); [done|lia|unfold sup; lia].
Qed.

(** *** The map after the operations *)
Lemma not_map_key sup (dev b : Z) : ~ is_map sup b -> forall x, is_map sup x -> (dev, b) <> (dev, x).
Proof. intros Hb x Hx [=]. by subst. Qed.

Lemma used_alloc sup g V b c : freemap sup g V -> 0 <= b < sb_size sup -> used sup (log_dev g) V b = false -> 0 <= c < sb_size sup ->
  used sup (log_dev g) (alloc_view sup (log_dev g) V b) c = if decide (c = b) then true else used sup (log_dev g) V c.
Proof.
  intros H Hb Hu Hc. unfold alloc_view. rewrite used_other; [by apply used_set| |done].
  by apply not_map_key, (fm_free _ _ _ H).
Qed.
Lemma freemap_alloc sup g V b : freemap sup g V -> 0 <= b < sb_size sup -> used sup (log_dev g) V b = false ->
  freemap sup g (alloc_view sup (log_dev g) V b).
Proof.
  intros H Hb Hu. pose proof (fm_free _ _ _ H b Hb Hu) as (_ & _ & Hn). pose proof H as [F1 F2 F3 F4 F5]. split; try done.
  - intros x Hx. unfold alloc_view. rewrite vset_ne by (intros [=]; by subst).
    destruct (decide (x = BBLOCK b sup)) as [->|]; [rewrite vset_eq, length_bit_set|rewrite vset_ne by (intros [=]; done)]; by apply F3.
  - intros c Hc. rewrite used_alloc by done. destruct (decide _); [done|]. by apply F5.
Qed.
Lemma alloc_view_other sup dev V b k : k <> (dev, b) -> k <> (dev, BBLOCK b sup) -> alloc_view sup dev V b k = V k.
Proof. intros H1 H2. unfold alloc_view. by rewrite !vset_ne. Qed.
Lemma alloc_view_new sup dev V b : alloc_view sup dev V b (dev, b) = zero_block.
Proof. apply vset_eq. Qed.

Lemma freemap_free sup g V b : freemap sup g V -> 0 < b < sb_size sup -> data_block g b -> ~ is_map sup b ->
  freemap sup g (free_view sup (log_dev g) V b).
Proof.
  intros H Hb Hd Hn. pose proof H as [F1 F2 F3 F4 F5]. split; try done.
  - intros x Hx. unfold free_view.
    destruct (decide (x = BBLOCK b sup)) as [->|]; [rewrite vset_eq, length_bit_clear|rewrite vset_ne by (intros [=]; done)]; by apply F3.
  - intros c Hc. unfold free_view. rewrite used_clear by (done || lia). destruct (decide (c = b)) as [->|]; [|by apply F5].
    intros _. split; [lia|]. done.
Qed.

(** bfree() clears the bit of a used block. *)
Lemma bfree_ok s V K L b :
  let dev := log_dev (slog s) in let sup := sb s in
  txn s V K L -> log_outstanding (slog s) = 1 -> freemap sup (slog s) V -> 0 <= b < sb_size sup ->
  (dev, BBLOCK b sup) ∉ K -> (size K + size L < NBUF)%nat -> Z.of_nat (size L) < LOGBLOCKS ->
  if used sup dev V b then
    exists s', bfree dev b s = Ok (tt, s') /\ holds K s s' /\ tframe s s' /\
      txn s' (free_view sup dev V b) K ({[BBLOCK b sup]} ∪ L)
  else bfree dev b s = Panic "freeing free block".
Proof.
  intros dev sup Ht Hout Hm Hb HK Hroom Hl. set (m := BBLOCK b sup) in *.
  assert (data_block (slog s) m) as Hdm by (by apply (fm_map _ _ _ Hm), is_map_block).
  destruct (txn_bread s V K L (dev, m) Ht (fm_dev _ _ _ Hm) HK (data_not_in_log _ _ Hdm) Hroom) as (i & s1 & Hr1 & Hh1 & Hf1 & Ht1 & Hk1).
  simpl in Hr1. destruct (tframe_same _ _ Hf1) as (Ed & Eo & _).
  destruct (txn_get s1 V _ L i (dev, m) Ht1 Hh1 ltac:(set_solver)) as (bp & Hg & Hdat & _).
  unfold bfree. rewrite mbind_reads. fold sup m. rewrite (mbind_Ok _ _ _ _ _ Hr1). cbv zeta. rewrite (mbind_Ok _ _ _ _ _ Hg), Hdat.
  unfold used. fold m. destruct (bit_free (V (dev, m)) (b mod BPB)) eqn:Hbf; simpl; [done|].
  assert (hkey (slog s1) m = (dev, m)) as Ek by (unfold hkey; by rewrite Ed).
  destruct (txn_put s1 V K L i m (fun bp => bp <| b_data ::= bit_clear (b mod BPB) |>) (bit_clear (b mod BPB))) as (s2 & _ & Hr2 & Hk2 & Hf2 & Ht2);
    rewrite ?Ek, ?Eo; try done; [by apply (data_block_same s)|].
  rewrite Ek in Ht2. exists s2. split; [exact Hr2|]. split; [by eapply holds_trans|]. split; [by etransitivity|exact Ht2].
Qed.

(** ** Properties *)

(** C16: balloc() in a transaction never panics.  It returns 0 only when every
    block of the disk is in use; otherwise it returns a block that was free,
    fills it with zeros and marks it, and only it, as used.  No other block
    changes apart from the block of the map, and both are in the transaction. *)
Theorem balloc_correct s V K L :
  let dev := log_dev (slog s) in let sup := sb s in
  txn s V K L -> log_outstanding (slog s) = 1 -> freemap sup (slog s) V ->
  (forall x, is_map sup x -> (dev, x) ∉ K) ->
  (forall b, 0 <= b < sb_size sup -> used sup dev V b = false -> (dev, b) ∉ K) ->
  (size K + S (size L) < NBUF)%nat -> Z.of_nat (size L) + 1 < LOGBLOCKS ->
  exists r s', balloc dev s = Ok (r, s') /\ tframe s s' /\
    (r = 0 /\ (forall b, 0 <= b < sb_size sup -> used sup dev V b = true) /\ txn s' V K L \/
     exists V', 0 < r < sb_size sup /\ used sup dev V r = false /\ V' (dev, r) = zero_block /\
       (forall b, 0 <= b < sb_size sup -> used sup dev V' b = if decide (b = r) then true else used sup dev V b) /\
       (forall k, k <> (dev, r) -> k <> (dev, BBLOCK r sup) -> V' k = V k) /\
       freemap sup (slog s') V' /\ txn s' V' K ({[r; BBLOCK r sup]} ∪ L)).
Proof.
  intros dev sup Ht Hout Hm HKm HKf Hroom Hl.
  destruct (balloc_ok s V K L Ht Hout Hm HKm HKf Hroom Hl) as (r & s' & Hr & _ & Hf & HP).
  exists r, s'. split; [done|]. split; [done|]. destruct HP as [HP|(Hrr & Hu & Ht')]; [by left|right].
  assert (0 <= r < sb_size sup) as Hr0 by (unfold sup; lia).
  exists (alloc_view sup dev V r). split; [done|]. split; [done|]. split; [apply alloc_view_new|].
  split; [intros b Hb; by apply used_alloc|]. split; [intros k; apply alloc_view_other|].
  split; [apply (freemap_same s); [done|]; by apply freemap_alloc|]. by rewrite <- union_assoc_L.
Qed.

(** bfree() in a transaction marks a used block, and only it, as free again,
    changing no block but the one of the map; freeing a free block panics. *)
Theorem bfree_correct s V K L b :
  let dev := log_dev (slog s) in let sup := sb s in
  txn s V K L -> log_outstanding (slog s) = 1 -> freemap sup (slog s) V -> 0 < b < sb_size sup ->
  data_block (slog s) b -> ~ is_map sup b ->
  (dev, BBLOCK b sup) ∉ K -> (size K + size L < NBUF)%nat -> Z.of_nat (size L) < LOGBLOCKS ->
  if used sup dev V b then
    exists s' V', bfree dev b s = Ok (tt, s') /\ tframe s s' /\
      (forall c, used sup dev V' c = if decide (c = b) then false else used sup dev V c) /\
      (forall k, k <> (dev, BBLOCK b sup) -> V' k = V k) /\
      freemap sup (slog s') V' /\ txn s' V' K ({[BBLOCK b sup]} ∪ L)
  else bfree dev b s = Panic "freeing free block".
Proof.
  intros dev sup Ht Hout Hm Hb Hd Hn HK Hroom Hl.
  assert (0 <= b < sb_size (sb s)) as Hb' by (fold sup; lia).
  pose proof (bfree_ok s V K L b Ht Hout Hm Hb' HK Hroom Hl) as H. cbv zeta in H. fold dev sup in H.
  destruct (used sup dev V b) eqn:Hu; [|done].
  destruct H as (s' & Hr & _ & Hf & Ht'). exists s', (free_view sup dev V b). split; [done|]. split; [done|].
  split; [intros c; by apply used_clear|]. split; [intros k Hk; by apply vset_ne|]. split; [|done].
  apply (freemap_same s); [done|]. by apply freemap_free.
Qed.
End FsAlloc.

(** ** Witnesses: a disk of 2000 blocks laid out by mkfs, of which the first 48
    are in use *)
Definition demo_map : list Z := repeat 255 6 ++ repeat 0 1018.
Definition demo_disk (k : Z * Z) : list Z := if bool_decide (k = (1, 46)) then demo_map else zero_block.
Definition demo_fs : fsst unit := (boot_fs demo_disk) <| slog ::= fun g => g <| log_outstanding := 1 |> |>.

Lemma txn_demo (d : Z * Z -> list Z) (n : Z) l :
  d (1, 2) = zero_block ->
  txn ((boot_fs d) <| slog ::= fun g => g <| log_outstanding := n |> |> <| inodes := l |>) d ∅ ∅.
Proof.
  intros Hd. apply txn_start; [|done]. destruct (boot_logging_disk d Hd) as [L1 L2 L3 [Q1 Q2 Q3 Q4 Q5 Q6] L5 L6 L7 L8 L9 L10].
  split; try done. by apply (bio_outside (boot_fs d)).
Qed.
Lemma demo_is_map x : is_map (sb demo_fs) x -> x = 46.
Proof. intros (b & Hb & ->). unfold BBLOCK. simpl in *. change BPB with 8192. rewrite Z.div_small by lia. done. Qed.
Lemma demo_free (d : Z * Z -> list Z) b : forallb (used (sb demo_fs) 1 d) (map Z.of_nat (seq 0 47)) = true ->
  0 <= b -> used (sb demo_fs) 1 d b = false -> 47 <= b.
Proof.
  intros Hall Hb Hu. destruct (Z.lt_ge_cases b 47) as [Hlt|]; [|done]. rewrite forallb_forall in Hall.
  rewrite Hall in Hu; [done|]. apply in_map_iff. exists (Z.to_nat b). split; [lia|]. apply in_seq. lia.
Qed.
Lemma demo_freemap d g :
  log_dev g = 1 -> log_start g = 2 -> Z.of_nat (length (d (1, 46))) = BSIZE ->
  forallb (used (sb demo_fs) 1 d) (map Z.of_nat (seq 0 47)) = true -> freemap (sb demo_fs) g d.
Proof.
  intros Hg Hs Hlen Hall. split; rewrite ?Hg; try done.
  - intros x Hx. by rewrite (demo_is_map x Hx).
  - intros x Hx. rewrite (demo_is_map x Hx). unfold data_block. rewrite Hs. split; [right; done|split; done].
  - intros b Hb Hu. apply (demo_free d b Hall) in Hu as H47; [|lia]. simpl in Hb. split; [lia|]. split.
    + unfold data_block. rewrite Hs. change LOGBLOCKS with 30. split; [lia|split; lia].
    + intros Hm. apply demo_is_map in Hm. lia.
Qed.

Lemma balloc_correct_witness : exists r s', balloc 1 demo_fs = Ok (r, s') /\ 0 < r < 2000.
Proof.
  destruct (balloc_correct demo_fs demo_disk ∅ ∅) as (r & s' & Hr & _ & HP).
  - exact (txn_demo demo_disk 1 [] eq_refl).
  - reflexivity.
  - apply demo_freemap; reflexivity.
  - intros x _. apply not_elem_of_empty.
  - intros b _ _. apply not_elem_of_empty.
  - rewrite !size_empty. unfold NBUF. lia.
  - rewrite size_empty. reflexivity.
  - exists r, s'. split; [exact Hr|]. destruct HP as [(-> & Hall & _)|(V' & Hrr & _)]; [|exact Hrr].
    assert (used (sb demo_fs) (log_dev (slog demo_fs)) demo_disk 60 = true) as H60 by (apply Hall; simpl; lia). discriminate H60.
Defined.

Lemma bfree_correct_witness :
  (exists s', bfree 1 47 demo_fs = Ok (tt, s')) /\ bfree 1 60 demo_fs = Panic "freeing free block".
Proof.
  assert (forall b, 47 <= b < 2000 -> data_block (slog demo_fs) b /\ ~ is_map (sb demo_fs) b) as Hb.
  { intros b Hb. split; [|intros Hm; apply demo_is_map in Hm; lia].
    unfold data_block. simpl. change LOGBLOCKS with 30. split; [lia|split; lia]. }
  assert (freemap (sb demo_fs) (slog demo_fs) demo_disk) as Hm by (apply demo_freemap; reflexivity).
  assert (size (∅ : gset (Z * Z)) + size (∅ : gset Z) < NBUF)%nat as Hr by (rewrite !size_empty; unfold NBUF; lia).
  assert (Z.of_nat (size (∅ : gset Z)) < LOGBLOCKS) as Hl by (rewrite size_empty; reflexivity).
  split.
  - destruct (bfree_correct demo_fs demo_disk ∅ ∅ 47 (txn_demo demo_disk 1 [] eq_refl) eq_refl Hm) as (s' & V' & Hf & _);
      [simpl; lia|apply Hb; lia|apply Hb; lia|apply not_elem_of_empty|exact Hr|exact Hl|exists s'; exact Hf].
  - refine (bfree_correct demo_fs demo_disk ∅ ∅ 60 (txn_demo demo_disk 1 [] eq_refl) eq_refl Hm _ _ _ _ Hr Hl);
      [simpl; lia|apply Hb; lia|apply Hb; lia|apply not_elem_of_empty].
Defined.
