(* ===== verification/FsFile.v ===== *)
(** * The blocks of a file

    The map from the blocks of a file to the blocks of the disk that bmap() of
    kernel/fs.c maintains, what makes it well formed, and what it means to
    extend it by one block. *)
From stdpp Require Import base list strings gmap.
From Stdlib Require Import ZArith Lia.
From S2P Require Import Prelude Spinlock Kalloc FsState Bio BioList BioSpec BioOps Bytes Log LogSpec LogCrash LogOps FsTxn Fs FsAlloc.

Implicit Types (V : Z * Z -> list Z) (g : log_t) (sup : superblock) (A : list Z).

(** The disk block of block [bn] of the file with the addresses [A], 0 for none. *)
Definition blk_addr (dev : Z) V A (bn : Z) : Z :=
  if bn <? NDIRECT then nth (Z.to_nat bn) A 0
  else if nth (Z.to_nat NDIRECT) A 0 =? 0 then 0
  else get32 (V (dev, nth (Z.to_nat NDIRECT) A 0)) (4 * (bn - NDIRECT)).
Definition fbyte (dev : Z) V A (x : Z) : Z := nth (Z.to_nat (x mod BSIZE)) (V (dev, blk_addr dev V A (x / BSIZE))) 0.

(** Every block a file occupies has a slot: its blocks of data, its block of
    indirect addresses ([IND]), and the block its inode is in ([HOME]). *)
Definition IND : Z := -2.
Definition HOME : Z := -1.
Definition ind_of A : Z := nth (Z.to_nat NDIRECT) A 0.
Definition slot (dev h : Z) V A (i : Z) : Z :=
  if i =? HOME then h else if i =? IND then ind_of A else blk_addr dev V A i.
Definition is_slot (i : Z) : Prop := IND <= i < MAXFILE.

(** A block that holds data of the file system. *)
Record in_use sup g V (a : Z) : Prop := {
  iu_range : 0 < a < sb_size sup;
  iu_used : used sup (log_dev g) V a = true;
  iu_data : data_block g a;
  iu_map : ~ is_map sup a;
  iu_len : Z.of_nat (length (V (log_dev g, a))) = BSIZE
}.
Record file_wf sup g V (h : Z) A : Prop := {
  fw_len : length A = 13%nat;
  fw_home : h <> 0;
  fw_use i : is_slot i -> slot (log_dev g) h V A i <> 0 -> in_use sup g V (slot (log_dev g) h V A i);
  fw_inj i j : is_slot i -> is_slot j -> slot (log_dev g) h V A i <> 0 ->
    slot (log_dev g) h V A i = slot (log_dev g) h V A j -> i = j
}.

Lemma slot_data dev h V A bn : 0 <= bn -> slot dev h V A bn = blk_addr dev V A bn.
Proof. intros H. unfold slot. rewrite !(proj2 (Z.eqb_neq _ _)) by (unfold HOME, IND; lia). done. Qed.
Lemma is_slot_data bn : 0 <= bn < MAXFILE -> is_slot bn.
Proof. unfold is_slot, IND. lia. Qed.

(** [file_ext]: from [V], [A] to [V'], [A'] blocks were added to the file; its
    data stays, new blocks are zero, and nothing else in use changes but the
    free map and the file's block of indirect addresses. *)
Record file_ext sup g h V A V' A' : Prop := {
  fe_wf : file_wf sup g V' h A';
  fe_map : freemap sup g V';
  fe_addr i : is_slot i -> slot (log_dev g) h V A i <> 0 -> slot (log_dev g) h V' A' i = slot (log_dev g) h V A i;
  fe_data bn : 0 <= bn < MAXFILE -> blk_addr (log_dev g) V A bn <> 0 ->
    V' (log_dev g, blk_addr (log_dev g) V A bn) = V (log_dev g, blk_addr (log_dev g) V A bn);
  fe_new bn : 0 <= bn < MAXFILE -> blk_addr (log_dev g) V A bn = 0 -> blk_addr (log_dev g) V' A' bn <> 0 ->
    V' (log_dev g, blk_addr (log_dev g) V' A' bn) = zero_block;
  fe_used b : 0 <= b < sb_size sup -> used sup (log_dev g) V b = true -> used sup (log_dev g) V' b = true;
  fe_frame k : k.1 <> log_dev g \/ 0 < k.2 < sb_size sup /\ used sup (log_dev g) V k.2 = true /\ ~ is_map sup k.2 /\ k.2 <> ind_of A' ->
    V' k = V k
}.

Lemma file_ext_refl sup g h V A : file_wf sup g V h A -> freemap sup g V -> file_ext sup g h V A V A.
Proof. intros H1 H2. by split. Qed.

Lemma file_ext_trans sup g h V1 A1 V2 A2 V3 A3 :
  file_ext sup g h V1 A1 V2 A2 -> file_ext sup g h V2 A2 V3 A3 -> file_ext sup g h V1 A1 V3 A3.
Proof.
  intros [W1 M1 a1 d1 n1 u1 f1] [W2 M2 a2 d2 n2 u2 f2].
  assert (forall bn, 0 <= bn < MAXFILE -> blk_addr (log_dev g) V1 A1 bn <> 0 ->
    blk_addr (log_dev g) V2 A2 bn = blk_addr (log_dev g) V1 A1 bn) as Ha.
  { intros bn Hbn H. specialize (a1 bn (is_slot_data _ Hbn)). rewrite !slot_data in a1 by lia. by apply a1. }
  split; try done.
  - intros i Hi H. rewrite a2; [by apply a1|done|]. by rewrite a1.
  - intros bn Hbn H. rewrite <- (d1 bn Hbn H), <- (Ha bn Hbn H). apply d2; [done|]. by rewrite Ha.
  - intros bn Hbn H H3. destruct (decide (blk_addr (log_dev g) V2 A2 bn = 0)) as [H0|H0]; [by apply n2|].
    specialize (a2 bn (is_slot_data _ Hbn)). rewrite !slot_data in a2 by lia. rewrite a2 by done.
    rewrite d2 by done. by apply n1.
  - intros b Hb H. by apply u2, u1.
  - intros k Hk. assert (k.1 <> log_dev g \/ 0 < k.2 < sb_size sup /\ used sup (log_dev g) V1 k.2 = true /\ ~ is_map sup k.2 /\ k.2 <> ind_of A2) as Hk2.
    { destruct Hk as [|(R & U & Mk & I)]; [by left|right]. do 3 (split; [done|]). intros Heq. apply I. rewrite Heq.
      specialize (a2 IND). unfold slot in a2. simpl in a2. symmetry. apply a2; [done|]. lia. }
    rewrite <- f1 by done. apply f2. destruct Hk as [|(R & U & Mk & I)]; [by left|right]. split; [done|]. split; [apply u1; [lia|done]|done].
Qed.

(** A free block [r] goes into the empty slot [i0]. *)
Lemma file_ext_alloc sup g h V A V' A' i0 r :
  let dev := log_dev g in
  file_wf sup g V h A -> freemap sup g V' -> is_slot i0 -> i0 <> HOME -> slot dev h V A i0 = 0 ->
  0 < r < sb_size sup -> used sup dev V r = false -> data_block g r -> ~ is_map sup r ->
  length A' = 13%nat -> (forall i, is_slot i -> slot dev h V' A' i = if decide (i = i0) then r else slot dev h V A i) ->
  V' (dev, r) = zero_block ->
  (forall k, k <> (dev, r) -> ~ (k.1 = dev /\ is_map sup k.2) -> k <> (dev, ind_of A') -> V' k = V k) ->
  (ind_of A' <> 0 -> Z.of_nat (length (V' (dev, ind_of A'))) = BSIZE) ->
  (forall b, 0 <= b < sb_size sup -> used sup dev V' b = if decide (b = r) then true else used sup dev V b) ->
  file_ext sup g h V A V' A'.
Proof.
  intros dev Hw Hm' Hi0 Hnh H0 Hr Hu Hd Hnm HA Hs Hz Hfr Hind Hus.
  assert (forall i, is_slot i -> slot dev h V A i <> r) as Hne.
  { intros i Hi Heq. pose proof (fw_use _ _ _ _ _ Hw i Hi). fold dev in H. rewrite Heq in H. specialize (H ltac:(lia)).
    pose proof (iu_used _ _ _ _ H). unfold dev in *. congruence. }
  assert (ind_of A' = slot dev h V' A' IND) as HI' by done.
  assert (is_slot IND) as HsI by done.
  (* the blocks of the file keep their contents *)
  assert (forall i, is_slot i -> i <> IND -> slot dev h V A i <> 0 -> V' (dev, slot dev h V A i) = V (dev, slot dev h V A i)) as Hdata.
  { intros i Hi HiI Hn. pose proof (fw_use _ _ _ _ _ Hw i Hi Hn) as Hiu. apply Hfr.
    - intros [=]. by apply (Hne i).
    - intros [_ Hx]. simpl in Hx. by apply (iu_map _ _ _ _ Hiu).
    - rewrite HI', (Hs IND HsI). intros [= Heq]. destruct (decide (IND = i0)); [by apply (Hne i)|].
      by apply HiI, (fw_inj _ _ _ _ _ Hw i IND Hi HsI Hn). }
  split; try done.
  - split; [done|apply (fw_home _ _ _ _ _ Hw)| |]; fold dev.
    + intros i Hi. rewrite (Hs i Hi). intros Hn. destruct (decide (i = i0)) as [->|Hii].
      { split; try done; [fold dev; rewrite Hus, decide_True by (done || lia); done|]. fold dev. rewrite Hz. done. }
      pose proof (fw_use _ _ _ _ _ Hw i Hi Hn) as [U1 U2 U3 U4 U5]. fold dev in U1, U2, U3, U4, U5. split; try done; fold dev.
      * rewrite Hus by lia. destruct (decide _); done.
      * destruct (decide (i = IND)) as [->|HiI]; [|by rewrite Hdata].
        assert (ind_of A' = ind_of A) as HII by (rewrite HI', (Hs IND HsI), decide_False by done; done).
        change (slot dev h V A IND) with (ind_of A) in *. rewrite <- HII. apply Hind. congruence.
    + intros i j Hi Hj. rewrite (Hs i Hi), (Hs j Hj). intros Hn Heq.
      destruct (decide (i = i0)) as [->|], (decide (j = i0)) as [->|]; try done.
      * exfalso. by apply (Hne j).
      * exfalso. by apply (Hne i).
      * by apply (fw_inj _ _ _ _ _ Hw).
  - fold dev. intros i Hi Hn. rewrite (Hs i Hi). rewrite decide_False; [done|]. intros ->. done.
  - fold dev. intros bn Hbn Hn. specialize (Hdata bn (is_slot_data _ Hbn) ltac:(unfold IND; lia)). rewrite slot_data in Hdata by lia. by apply Hdata.
  - fold dev. intros bn Hbn Hn Hn'. specialize (Hs bn (is_slot_data _ Hbn)). rewrite !slot_data in Hs by lia.
    rewrite Hs in *. destruct (decide (bn = i0)); [done|]. congruence.
  - fold dev. intros b Hb Hub. rewrite Hus by done. destruct (decide _); done.
  - fold dev. intros k Hk. apply Hfr.
    + intros ->. simpl in Hk. destruct Hk as [|(_ & Hx & _)]; congruence.
    + intros [H1 H2]. destruct Hk as [|(_ & _ & Hx & _)]; done.
    + intros ->. simpl in Hk. destruct Hk as [|(_ & _ & _ & Hx)]; congruence.
Qed.

(** ** The three ways bmap() adds a block *)
Lemma freemap_other sup g V k d :
  freemap sup g V -> (forall x, is_map sup x -> k <> (log_dev g, x)) -> freemap sup g (vset V k d).
Proof.
  intros H Hk. pose proof H as [F1 F2 F3 F4 F5]. split; try done.
  - intros x Hx. rewrite vset_ne; [by apply F3|]. intros Heq. by apply (Hk x).
  - intros b Hb. rewrite used_other by done. by apply F5.
Qed.
Lemma nth_insert (A : list Z) i j x : (i < length A)%nat -> nth j (<[i := x]> A) 0 = if decide (j = i) then x else nth j A 0.
Proof.
  intros Hi. rewrite !(nth_lookup _ _ 0). destruct (decide (j = i)) as [->|].
  - by rewrite list_lookup_insert_eq.
  - by rewrite list_lookup_insert_ne.
Qed.
Lemma le_val_zero l : Forall (fun x => x = 0) l -> le_val l = 0.
Proof. induction 1 as [|x l -> _ IH]; [done|]. simpl. rewrite IH. done. Qed.
Lemma get32_zero o : get32 zero_block o = 0.
Proof. apply le_val_zero, Forall_take, Forall_drop, Forall_forall. intros x Hx. by apply list_elem_of_In, repeat_spec in Hx. Qed.

Section Extend.
Context (sup : superblock) (g : log_t) (h : Z) (V : Z * Z -> list Z) (A : list Z).
Notation dev := (log_dev g).
Hypothesis Hw : file_wf sup g V h A.
Hypothesis Hm : freemap sup g V.
Context (r : Z).
Hypothesis Hr : 0 < r < sb_size sup.
Hypothesis Hu : used sup dev V r = false.

Lemma fresh_slot i : is_slot i -> slot dev h V A i <> r.
Proof.
  intros Hi Heq. pose proof (fw_use _ _ _ _ _ Hw i Hi) as H. rewrite Heq in H. pose proof (iu_used _ _ _ _ (H ltac:(lia))). congruence.
Qed.
Lemma alloc_keeps a : in_use sup g V a -> alloc_view sup dev V r (dev, a) = V (dev, a).
Proof.
  intros H. apply alloc_view_other; intros [= ->].
  - pose proof (iu_used _ _ _ _ H). congruence.
  - apply (iu_map _ _ _ _ H). apply is_map_block. lia.
Qed.
Lemma alloc_free_facts : data_block g r /\ ~ is_map sup r.
Proof. by apply (fm_free _ _ _ Hm r ltac:(lia)). Qed.

Lemma ind_use : ind_of A <> 0 -> in_use sup g V (ind_of A).
Proof. intros H. by apply (fw_use _ _ _ _ _ Hw IND). Qed.

(** A direct block. *)
Lemma file_ext_direct bn :
  0 <= bn < NDIRECT -> nth (Z.to_nat bn) A 0 = 0 ->
  (forall i, is_slot i -> slot dev h (alloc_view sup dev V r) (<[Z.to_nat bn := r]> A) i = if decide (i = bn) then r else slot dev h V A i) /\
  file_ext sup g h V A (alloc_view sup dev V r) (<[Z.to_nat bn := r]> A).
Proof.
  intros Hbn H0. pose proof (fw_len _ _ _ _ _ Hw) as HA. change NDIRECT with 12 in Hbn.
  destruct alloc_free_facts as [Hd Hnm].
  assert (ind_of (<[Z.to_nat bn := r]> A) = ind_of A) as HI.
  { unfold ind_of. rewrite nth_insert, decide_False by (change NDIRECT with 12; lia). done. }
  assert (forall i, is_slot i -> slot dev h (alloc_view sup dev V r) (<[Z.to_nat bn := r]> A) i = if decide (i = bn) then r else slot dev h V A i) as Hs.
  { intros i Hi. unfold slot. destruct (Z.eqb_spec i HOME) as [->|N1]; [rewrite decide_False by (unfold HOME; lia); done|].
    destruct (Z.eqb_spec i IND) as [->|N2]; [rewrite decide_False by (unfold IND; lia); done|].
    unfold is_slot, IND, HOME in *. unfold blk_addr. fold (ind_of (<[Z.to_nat bn:=r]> A)). fold (ind_of A). rewrite HI.
    change NDIRECT with 12. destruct (Z.ltb_spec i 12) as [Hlt|Hge].
    - rewrite nth_insert by lia. destruct (decide (i = bn)), (decide (Z.to_nat i = Z.to_nat bn)); try done; lia.
    - rewrite (decide_False (P := i = bn)) by lia. destruct (Z.eqb_spec (ind_of A) 0) as [|Hn]; [done|].
      by rewrite alloc_keeps by (by apply ind_use). }
  split; [exact Hs|].
  apply (file_ext_alloc _ _ _ _ _ _ _ bn r); try done.
  - apply freemap_alloc; (done || lia).
  - split; [unfold IND|change MAXFILE with 268]; lia.
  - unfold HOME. lia.
  - rewrite slot_data by lia. unfold blk_addr. change NDIRECT with 12. rewrite (proj2 (Z.ltb_lt _ _)) by lia. done.
  - by rewrite length_insert.
  - apply alloc_view_new.
  - intros k Hk Hk2 _. apply alloc_view_other; [done|]. intros ->. apply Hk2. split; [done|]. apply is_map_block. lia.
  - rewrite HI. intros H. pose proof (ind_use H) as Hiu. rewrite alloc_keeps by done. apply (iu_len _ _ _ _ Hiu).
  - intros b Hb. apply used_alloc; (done || lia).
Qed.

(** The block of indirect addresses. *)
Lemma file_ext_ind :
  ind_of A = 0 -> (forall i, is_slot i -> slot dev h (alloc_view sup dev V r) (<[Z.to_nat NDIRECT := r]> A) i = if decide (i = IND) then r else slot dev h V A i) /\
  file_ext sup g h V A (alloc_view sup dev V r) (<[Z.to_nat NDIRECT := r]> A).
Proof.
  intros H0. pose proof (fw_len _ _ _ _ _ Hw) as HA. destruct alloc_free_facts as [Hd Hnm].
  assert (ind_of (<[Z.to_nat NDIRECT := r]> A) = r) as HI.
  { unfold ind_of. rewrite nth_insert, decide_True by (change NDIRECT with 12; lia). done. }
  assert (forall i, is_slot i -> slot dev h (alloc_view sup dev V r) (<[Z.to_nat NDIRECT := r]> A) i = if decide (i = IND) then r else slot dev h V A i) as Hs.
  { intros i Hi. unfold slot. destruct (Z.eqb_spec i HOME) as [->|N1]; [done|].
    destruct (Z.eqb_spec i IND) as [->|N2]; [by rewrite HI|]. rewrite (decide_False (P := i = IND)) by done.
    unfold is_slot, IND, HOME in *. unfold blk_addr. fold (ind_of (<[Z.to_nat NDIRECT:=r]> A)). fold (ind_of A). rewrite HI, H0.
    change NDIRECT with 12. destruct (Z.ltb_spec i 12) as [Hlt|Hge].
    - rewrite nth_insert, decide_False by lia. done.
    - rewrite (proj2 (Z.eqb_neq r 0)) by lia. rewrite alloc_view_new, get32_zero. done. }
  split; [exact Hs|].
  apply (file_ext_alloc _ _ _ _ _ _ _ IND r); try done.
  - apply freemap_alloc; (done || lia).
  - by rewrite length_insert.
  - apply alloc_view_new.
  - intros k Hk Hk2 _. apply alloc_view_other; [done|]. intros ->. apply Hk2. split; [done|]. apply is_map_block. lia.
  - intros _. rewrite HI, alloc_view_new. done.
  - intros b Hb. apply used_alloc; (done || lia).
Qed.

(** A block whose address goes into the block of indirect addresses. *)
Lemma file_ext_indirect bn :
  NDIRECT <= bn < MAXFILE -> ind_of A <> 0 -> blk_addr dev V A bn = 0 ->
  (forall i, is_slot i -> slot dev h (vset (alloc_view sup dev V r) (dev, ind_of A) (set32 (4 * (bn - NDIRECT)) r (V (dev, ind_of A)))) A i = if decide (i = bn) then r else slot dev h V A i) /\
  file_ext sup g h V A
    (vset (alloc_view sup dev V r) (dev, ind_of A) (set32 (4 * (bn - NDIRECT)) r (V (dev, ind_of A)))) A.
Proof.
  intros Hbn HI H0. pose proof (fw_len _ _ _ _ _ Hw) as HA. destruct alloc_free_facts as [Hd Hnm].
  pose proof (ind_use HI) as [I1 I2 I3 I4 I5].
  assert (forall x, is_map sup x -> (dev, ind_of A) <> (dev, x)) as HIm by (by apply not_map_key).
  change MAXFILE with 268 in Hbn. change NDIRECT with 12 in *.
  assert (forall i, is_slot i -> slot dev h (vset (alloc_view sup dev V r) (dev, ind_of A) (set32 (4 * (bn - 12)) r (V (dev, ind_of A)))) A i = if decide (i = bn) then r else slot dev h V A i) as Hs.
  { intros i Hi. unfold slot. destruct (Z.eqb_spec i HOME) as [->|N1]; [rewrite decide_False by (unfold HOME; lia); done|].
    destruct (Z.eqb_spec i IND) as [->|N2]; [rewrite decide_False by (unfold IND; lia); done|].
    unfold is_slot, IND, HOME in *. change MAXFILE with 268 in Hi. unfold blk_addr. fold (ind_of A). change NDIRECT with 12.
    destruct (Z.ltb_spec i 12) as [Hlt|Hge]; [rewrite decide_False by lia; done|].
    rewrite (proj2 (Z.eqb_neq _ _) HI), vset_eq. change BSIZE with 1024 in I5. destruct (decide (i = bn)) as [->|].
    - rewrite get32_set32 by lia. apply u32_small. pose proof (fm_size _ _ _ Hm). lia.
    - apply get32_set32_other; lia. }
  split; [exact Hs|].
  apply (file_ext_alloc _ _ _ _ _ _ _ bn r); try done.
  - apply freemap_other; [apply freemap_alloc; (done || lia)|done].
  - split; [unfold IND|change MAXFILE with 268]; lia.
  - unfold HOME. lia.
  - by rewrite slot_data by lia.
  - rewrite vset_ne; [apply alloc_view_new|]. intros [=]. apply (fresh_slot IND); done.
  - intros k Hk Hk2 HkI. rewrite vset_ne by done. apply alloc_view_other; [done|]. intros ->. apply Hk2. split; [done|]. apply is_map_block. lia.
  - intros _. rewrite vset_eq, length_set32; change BSIZE with 1024 in *; lia.
  - intros b Hb. rewrite used_other by done. apply used_alloc; (done || lia).
Qed.
End Extend.
