(* ===== verification/FsBmap.v ===== *)
(** * bmap() of kernel/fs.c

    bmap() finds the disk block of a block of a file and allocates it when the
    file does not have it yet. *)
From stdpp Require Import base list strings gmap.
From Stdlib Require Import ZArith Lia.
From S2P Require Import Prelude Spinlock Kalloc FsState Bio BioList BioSpec BioOps Bytes Log LogSpec LogCrash LogOps FsTxn Fs FsAlloc FsFile.

Section FsBmap.
Context {E : Type}.
Implicit Types (s : fsst E) (V : Z * Z -> list Z) (K : gset (Z * Z)) (L : gset Z) (g : log_t) (sup : superblock) (ip : nat) (p : inode) (A : list Z).

Definition set_addrs p A : inode := p <| i_dip ::= fun d => d <| d_addrs := A |> |>.
Definition addrs p : list Z := d_addrs (i_dip p).
(** The block of the inode. *)
Definition home sup p : Z := IBLOCK (i_inum p) sup.

(** The file system [g], [sup] with the inode [p] at [ip] of the table. *)
Record fbase g sup s ip p : Prop := {
  fb_geo : slog s = g <| log_lh := log_lh (slog s) |>;
  fb_sb : sb s = sup;
  fb_ip : inodes s !! ip = Some p;
  fb_dev : i_dev p = log_dev g
}.
(** What the routines on the inode at [ip] may change of the state. *)
Record fframe ip s s' : Prop := {
  ff_rest : tframe (s <| inodes := inodes s' |>) s';
  ff_other j : j <> ip -> inodes s' !! j = inodes s !! j
}.

Lemma tframe_inodes s s' l : tframe s s' -> tframe (s <| inodes := l |>) (s' <| inodes := l |>).
Proof. intros [H1 H2 H3]. split; [|exact H2|exact H3]. rewrite H1. done. Qed.
#[global] Instance fframe_preorder ip : PreOrder (fframe ip).
Proof.
  split.
  - intros s. split; [|done]. destruct s. reflexivity.
  - intros s1 s2 s3 [A1 A2] [B1 B2]. split; [|intros j Hj; by rewrite B2, A2].
    etransitivity; [|exact B1]. exact (tframe_inodes _ _ (inodes s3) A1).
Qed.
Lemma tframe_fframe ip s s' : tframe s s' -> fframe ip s s'.
Proof.
  intros H. destruct (tframe_same _ _ H) as (_ & _ & _ & _ & Hi & _). split; [|intros j _; by rewrite Hi].
  rewrite Hi. etransitivity; [|exact H]. destruct s. reflexivity.
Qed.
Lemma fbase_tframe g sup s s' ip p : fbase g sup s ip p -> tframe s s' -> fbase g sup s' ip p.
Proof.
  intros [B1 B2 B3 B4] H. destruct (tframe_same _ _ H) as (_ & _ & _ & Hs & Hi & _). split; try done.
  - rewrite (tf_log _ _ H), B1. done.
  - by rewrite Hs.
  - by rewrite Hi.
Qed.

Lemma held_inodes s l j k : held s j k -> held (s <| inodes := l |>) j k.
Proof. done. Qed.
Lemma txn_inodes s V K L l : txn s V K L -> txn (s <| inodes := l |>) V K L.
Proof.
  intros (R & bs & [[L1 L2 L3 L4 L5 L6 L7 L8 L9 L10] T1 T2 T3]). exists R, bs. split; try done. split; try done.
  by apply (bio_outside s); try apply L1.
Qed.

(** set_addr(): the address goes into the inode. *)
Lemma set_addr_ok g sup s ip p V K L n a :
  fbase g sup s ip p -> txn s V K L ->
  exists s', set_addr ip n a s = Ok (tt, s') /\ fframe ip s s' /\ holds K s s' /\
    fbase g sup s' ip (set_addrs p (<[Z.to_nat n := a]> (addrs p))) /\ txn s' V K L.
Proof.
  intros [B1 B2 B3 B4] Ht. eexists. split; [unfold set_addr, upd_dip, upd_ip; rewrite B3; reflexivity|].
  split; [|split; [|split]].
  - split; [reflexivity|]. intros j Hj. apply list_lookup_insert_ne. done.
  - intros j k _ Hh. by apply held_inodes.
  - split; try done. simpl. apply list_lookup_insert_eq. by eapply lookup_lt_Some.
  - by apply txn_inodes.
Qed.

(** The free map and the file as the state has them. *)
Lemma freemap_geo sup g g' V : g' = g <| log_lh := log_lh g' |> -> freemap sup g V -> freemap sup g' V.
Proof. intros -> [F1 F2 F3 F4 F5]. by split. Qed.

(** balloc() as bmap() calls it; the blocks that are locked are in use. *)
Lemma balloc_file g sup s ip p V K L :
  fbase g sup s ip p -> log_outstanding g = 1 -> freemap sup g V -> txn s V K L ->
  (forall x, (log_dev g, x) ∈ K -> in_use sup g V x) -> (size K + S (size L) < NBUF)%nat -> Z.of_nat (size L) + 1 < LOGBLOCKS ->
  exists r s', balloc (i_dev p) s = Ok (r, s') /\ holds K s s' /\ tframe s s' /\ fbase g sup s' ip p /\
    (r = 0 /\ (forall b, 0 <= b < sb_size sup -> used sup (log_dev g) V b = true) /\ txn s' V K L \/
     0 < r < sb_size sup /\ used sup (log_dev g) V r = false /\
     txn s' (alloc_view sup (log_dev g) V r) K ({[r]} ∪ ({[BBLOCK r sup]} ∪ L))).
Proof.
  intros HB Hout Hm Ht HK Hroom Hl. pose proof HB as [B1 B2 B3 B4].
  destruct (balloc_ok s V K L Ht) as (r & s' & Hr & Hh & Hf & HP).
  - by rewrite B1.
  - rewrite B2. by apply (freemap_geo sup g).
  - rewrite B2, B1. intros x Hx Hin. by apply (iu_map _ _ _ _ (HK x Hin)).
  - rewrite B2, B1. intros b _ Hu Hin. pose proof (iu_used _ _ _ _ (HK b Hin)) as Hu'. simpl in Hu. congruence.
  - done.
  - done.
  - rewrite B2, B1 in HP. rewrite B1 in Hr. simpl in HP, Hr. rewrite B4. exists r, s'. split; [done|]. split; [done|]. split; [done|].
    split; [by eapply fbase_tframe|done].
Qed.

(** ** What bmap() does *)
Definition full sup dev V : Prop := forall b, 0 <= b < sb_size sup -> used sup dev V b = true.
(** The blocks in the transaction afterwards. *)
Definition logged sup L L' (new : Z -> Prop) : Prop := forall x, x ∈ L' -> x ∈ L \/ is_map sup x \/ x <> 0 /\ new x.

(** The file of the inode [p] may have grown. *)
Record grown g sup ip s p V s' V' A' L' : Prop := {
  gr_frame : fframe ip s s';
  gr_base : fbase g sup s' ip (set_addrs p A');
  gr_txn : txn s' V' ∅ L';
  gr_ext : file_ext sup g (home sup p) V (addrs p) V' A'
}.

Lemma set_addrs_id p : set_addrs p (addrs p) = p.
Proof. unfold set_addrs, addrs. destruct p as [? ? ? ? ? []]. done. Qed.
Lemma set_addrs_set p A A' : set_addrs (set_addrs p A) A' = set_addrs p A'.
Proof. done. Qed.
Lemma grown_refl g sup ip s p V L :
  fbase g sup s ip p -> txn s V ∅ L -> freemap sup g V -> file_wf sup g V (home sup p) (addrs p) ->
  grown g sup ip s p V s V (addrs p) L.
Proof. intros H1 H2 H3 H4. split; [done|by rewrite set_addrs_id|done|by apply file_ext_refl]. Qed.
Lemma grown_tframe g sup ip s p V s' V' A' L' s'' : grown g sup ip s p V s' V' A' L' -> tframe s' s'' -> txn s'' V' ∅ L' ->
  grown g sup ip s p V s'' V' A' L'.
Proof. intros [G1 G2 G3 G4] Hf Ht. split; [|by eapply fbase_tframe|done|done]. etransitivity; [done|]. by apply tframe_fframe. Qed.

Lemma logged_refl sup L new : logged sup L L new.
Proof. intros x Hx. by left. Qed.
Lemma logged_alloc sup L r (new : Z -> Prop) : 0 < r < sb_size sup -> new r -> logged sup L ({[r]} ∪ ({[BBLOCK r sup]} ∪ L)) new.
Proof.
  intros Hr Hn x Hx. rewrite !elem_of_union, !elem_of_singleton in Hx. destruct Hx as [->|[->|Hx]].
  - right; right. split; [lia|done].
  - right; left. apply is_map_block. lia.
  - by left.
Qed.
Lemma size_alloc L r m : (size ({[r]} ∪ ({[m]} ∪ L)) <= S (S (size L)))%nat.
Proof. pose proof (size_add ({[m]} ∪ L) r). pose proof (size_add L m). lia. Qed.

(** An empty entry of [addrs] is filled by balloc(). *)
Lemma bmap_fill g sup s ip p V L n :
  fbase g sup s ip p -> log_outstanding g = 1 -> txn s V ∅ L -> freemap sup g V -> file_wf sup g V (home sup p) (addrs p) ->
  0 <= n <= NDIRECT -> nth (Z.to_nat n) (addrs p) 0 = 0 -> (size L + 3 < NBUF)%nat ->
  exists a s' V' A' L',
    (let* addr := balloc (i_dev p) in if addr =? 0 then mret 0 else set_addr ip n addr ;;; mret addr) s = Ok (a, s') /\
    grown g sup ip s p V s' V' A' L' /\ a = nth (Z.to_nat n) A' 0 /\ (a = 0 -> full sup (log_dev g) V') /\
    (forall j, j <> Z.to_nat n -> nth j A' 0 = nth j (addrs p) 0) /\
    (forall bn, 0 <= bn < MAXFILE -> bn <> n \/ n = NDIRECT -> blk_addr (log_dev g) V' A' bn = blk_addr (log_dev g) V (addrs p) bn) /\
    logged sup L L' (fun x => x = a) /\ (size L' <= size L + 2)%nat.
Proof.
  intros HB Hout Ht Hm Hw Hn H0 Hroom.
  destruct (balloc_file g sup s ip p V ∅ L HB Hout Hm Ht) as (r & s1 & Hr & _ & Hf1 & HB1 & HP).
  { intros x Hx. by apply not_elem_of_empty in Hx. } { rewrite size_empty. lia. } { change LOGBLOCKS with 30. unfold NBUF in Hroom. lia. }
  rewrite (mbind_Ok _ _ _ _ _ Hr). destruct HP as [(-> & Hfull & Ht1)|(Hrr & Hu & Ht1)].
  - exists 0, s1, V, (addrs p), L. split; [done|]. split; [eapply grown_tframe; [by apply grown_refl|done|done]|].
    do 4 (split; [done|]). split; [apply logged_refl|lia].
  - rewrite (proj2 (Z.eqb_neq r 0)) by lia.
    destruct (set_addr_ok g sup s1 ip p _ ∅ _ n r HB1 Ht1) as (s2 & Hr2 & Hf2 & _ & HB2 & Ht2). rewrite (mbind_Ok _ _ _ _ _ Hr2).
    pose proof (fw_len _ _ _ _ _ Hw) as HA.
    set (A' := <[Z.to_nat n := r]> (addrs p)). set (V' := alloc_view sup (log_dev g) V r).
    assert ((forall bn, 0 <= bn < MAXFILE -> bn <> n \/ n = NDIRECT -> blk_addr (log_dev g) V' A' bn = blk_addr (log_dev g) V (addrs p) bn) /\
      file_ext sup g (home sup p) V (addrs p) V' A') as [Hoth Hext].
    { destruct (decide (n = NDIRECT)) as [->|].
      - destruct (file_ext_ind sup g (home sup p) V (addrs p) Hw Hm r Hrr Hu H0) as [Hs Hx]. split; [|done].
        intros bn Hbn _. specialize (Hs bn (is_slot_data _ Hbn)). by rewrite !slot_data, decide_False in Hs by (unfold IND; lia).
      - destruct (file_ext_direct sup g (home sup p) V (addrs p) Hw Hm r Hrr Hu n ltac:(lia) H0) as [Hs Hx]. split; [|done].
        intros bn Hbn Hne. specialize (Hs bn (is_slot_data _ Hbn)). by rewrite !slot_data, decide_False in Hs by lia. }
    exists r, s2, V', A', ({[r]} ∪ ({[BBLOCK r sup]} ∪ L)). split; [done|].
    assert (forall j, nth j A' 0 = if decide (j = Z.to_nat n) then r else nth j (addrs p) 0) as HA'.
    { intros j. apply nth_insert. change NDIRECT with 12 in Hn. lia. }
    split; [split; try done; etransitivity; [by apply tframe_fframe|done]|]. split; [by rewrite HA', decide_True|].
    split; [lia|]. split; [intros j Hj; by rewrite HA', decide_False|]. split; [done|]. split; [by apply logged_alloc|].
    pose proof (size_alloc L r (BBLOCK r sup)). lia.
Qed.

(** The buffer of the block of indirect addresses is locked and the entry empty. *)
Lemma bmap_entry_fill g sup s ip p V L bn i :
  let ind := ind_of (addrs p) in let dev := log_dev g in
  fbase g sup s ip p -> log_outstanding g = 1 -> txn s V {[(dev, ind)]} L -> held s i (dev, ind) ->
  freemap sup g V -> file_wf sup g V (home sup p) (addrs p) ->
  NDIRECT <= bn < MAXFILE -> ind <> 0 -> blk_addr dev V (addrs p) bn = 0 -> (size L + 3 < NBUF)%nat ->
  exists a s' V' L',
    (let* addr := balloc (i_dev p) in
     (if negb (addr =? 0) then upd_buf i (fun bp => bp <| b_data ::= set32 (4 * (bn - NDIRECT)) addr |>) ;;; log_write i else mret tt) ;;;
     mret addr) s = Ok (a, s') /\
    tframe s s' /\ held s' i (dev, ind) /\ txn s' V' {[(dev, ind)]} L' /\ file_ext sup g (home sup p) V (addrs p) V' (addrs p) /\
    a = blk_addr dev V' (addrs p) bn /\ (a = 0 -> full sup dev V') /\
    (forall n, 0 <= n < MAXFILE -> n <> bn -> blk_addr dev V' (addrs p) n = blk_addr dev V (addrs p) n) /\
    logged sup L L' (fun x => x = ind \/ x = a).
Proof.
  intros ind dev HB Hout Ht Hh Hm Hw Hbn Hind H0 Hroom.
  pose proof (ind_use sup g (home sup p) V (addrs p) Hw Hind) as Hiu. fold ind in Hiu.
  destruct (balloc_file g sup s ip p V {[(dev, ind)]} L HB Hout Hm Ht) as (r & s2 & Hr2 & Hk2 & Hf2 & HB2 & HP).
  { intros x Hx. apply elem_of_singleton in Hx as [= ->]. done. } { rewrite size_singleton. lia. }
  { change LOGBLOCKS with 30. unfold NBUF in Hroom. lia. }
  rewrite (mbind_Ok _ _ _ _ _ Hr2). assert (held s2 i (dev, ind)) as Hh2 by (apply Hk2; [set_solver|done]).
  destruct HP as [(-> & Hfull & Ht2)|(Hrr & Hu & Ht2)].
  { exists 0, s2, V, L. split; [done|]. do 3 (split; [done|]). split; [by apply file_ext_refl|]. do 3 (split; [done|]). apply logged_refl. }
  rewrite (proj2 (Z.eqb_neq r 0)) by lia. simpl. fold dev in Hu, Ht2.
  assert (hkey (slog s2) ind = (dev, ind)) as Ek by (unfold hkey; by rewrite (fb_geo _ _ _ _ _ HB2)).
  pose proof (size_alloc L r (BBLOCK r sup)) as Hsz.
  destruct (txn_modify s2 _ _ _ i ind (fun bp => bp <| b_data ::= set32 (4 * (bn - NDIRECT)) r |>) (set32 (4 * (bn - NDIRECT)) r) Ht2)
    as (s3 & _ & Hr3 & Hh3 & Hf3 & Ht3); rewrite ?Ek; try done; [set_solver| | | |].
  { pose proof (iu_data _ _ _ _ Hiu) as Hd. unfold data_block in *. by rewrite (fb_geo _ _ _ _ _ HB2). }
  { by rewrite (fb_geo _ _ _ _ _ HB2). } { change LOGBLOCKS with 30. unfold NBUF in Hroom. lia. }
  rewrite (mbind_Ok _ _ _ _ _ Hr3). rewrite Ek in Ht3.
  pose proof (alloc_keeps sup g V r Hrr Hu ind Hiu) as Hak. fold dev in Hak. rewrite Hak in Ht3.
  destruct (file_ext_indirect sup g (home sup p) V (addrs p) Hw Hm r Hrr Hu bn Hbn Hind H0) as [Hs Hext]. fold ind dev in Hs, Hext.
  assert (forall n, 0 <= n < MAXFILE -> blk_addr dev (vset (alloc_view sup dev V r) (dev, ind) (set32 (4 * (bn - NDIRECT)) r (V (dev, ind)))) (addrs p) n =
    if decide (n = bn) then r else blk_addr dev V (addrs p) n) as Hb.
  { intros n Hn. specialize (Hs n (is_slot_data _ Hn)). by rewrite !slot_data in Hs by lia. }
  eexists r, s3, _, _. split; [reflexivity|]. split; [by etransitivity|]. split; [by apply Hh3|]. split; [exact Ht3|]. split; [exact Hext|].
  split; [rewrite Hb, decide_True by (change NDIRECT with 12 in Hbn; (done || lia)); done|]. split; [lia|].
  split; [intros n Hn Hne; by rewrite Hb, decide_False|].
  intros x Hx. apply elem_of_union in Hx as [Hx|Hx].
  - apply elem_of_singleton in Hx as ->. right; right. split; [done|by left].
  - destruct (logged_alloc sup L r (fun x => x = ind \/ x = r) Hrr ltac:(by right) x Hx) as [|[|]]; auto.
Qed.

(** The entry of the block of indirect addresses, which is filled when empty. *)
Lemma bmap_entry g sup s ip p V L bn :
  let ind := ind_of (addrs p) in let dev := log_dev g in
  fbase g sup s ip p -> log_outstanding g = 1 \/ blk_addr dev V (addrs p) bn <> 0 ->
  txn s V ∅ L -> freemap sup g V -> file_wf sup g V (home sup p) (addrs p) ->
  NDIRECT <= bn < MAXFILE -> ind <> 0 -> (size L + 3 < NBUF)%nat ->
  exists a s' V' L',
    (let* i := bread (i_dev p) ind in
     let* bp := get_buf i in
     let addr := get32 (b_data bp) (4 * (bn - NDIRECT)) in
     let* addr := (if addr =? 0 then
         let* addr := balloc (i_dev p) in
         (if negb (addr =? 0) then upd_buf i (fun bp => bp <| b_data ::= set32 (4 * (bn - NDIRECT)) addr |>) ;;; log_write i else mret tt) ;;;
         mret addr
       else mret addr) in
     brelse i ;;;
     mret addr) s = Ok (a, s') /\
    grown g sup ip s p V s' V' (addrs p) L' /\ a = blk_addr dev V' (addrs p) bn /\ (a = 0 -> full sup dev V') /\
    (forall n, 0 <= n < MAXFILE -> n <> bn -> blk_addr dev V' (addrs p) n = blk_addr dev V (addrs p) n) /\
    (blk_addr dev V (addrs p) bn <> 0 -> V' = V /\ L' = L /\ tframe s s') /\
    logged sup L L' (fun x => x = ind \/ x = a).
Proof.
  intros ind dev HB Hout Ht Hm Hw Hbn Hind Hroom. pose proof HB as [B1 B2 B3 B4].
  pose proof (ind_use sup g (home sup p) V (addrs p) Hw Hind) as Hiu. fold ind in Hiu.
  assert (data_block (slog s) ind) as Hdb by (pose proof (iu_data _ _ _ _ Hiu) as Hd; unfold data_block in *; rewrite B1; exact Hd).
  destruct (txn_bread s V ∅ L (dev, ind) Ht (fm_dev _ _ _ Hm) (not_elem_of_empty _)) as (i & s1 & Hr1 & Hh1 & Hf1 & Ht1 & _).
  { pose proof (data_not_in_log _ _ Hdb) as Hnl. by rewrite B1 in Hnl |- *. } { rewrite size_empty. lia. }
  rewrite B4. simpl in Hr1. fold dev. rewrite (mbind_Ok _ _ _ _ _ Hr1).
  destruct (txn_get s1 V _ L i (dev, ind) Ht1 Hh1 ltac:(set_solver)) as (bp & Hg & Hdat & _).
  rewrite (mbind_Ok _ _ _ _ _ Hg), Hdat. cbv zeta.
  assert (get32 (V (dev, ind)) (4 * (bn - NDIRECT)) = blk_addr dev V (addrs p) bn) as ->.
  { unfold blk_addr. rewrite (proj2 (Z.ltb_ge _ _)) by lia. fold (ind_of (addrs p)). fold ind. by rewrite (proj2 (Z.eqb_neq _ _) Hind). }
  pose proof (fbase_tframe _ _ _ _ _ _ HB Hf1) as HB1. replace ({[(dev, ind)]} ∪ ∅ : gset (Z * Z)) with ({[(dev, ind)]} : gset (Z * Z)) in Ht1 by set_solver.
  assert (exists a s2 V' L',
    (if blk_addr dev V (addrs p) bn =? 0 then
       let* addr := balloc dev in
       (if negb (addr =? 0) then upd_buf i (fun bp => bp <| b_data ::= set32 (4 * (bn - NDIRECT)) addr |>) ;;; log_write i else mret tt) ;;;
       mret addr
     else mret (blk_addr dev V (addrs p) bn)) s1 = Ok (a, s2) /\
    tframe s1 s2 /\ held s2 i (dev, ind) /\ txn s2 V' {[(dev, ind)]} L' /\ file_ext sup g (home sup p) V (addrs p) V' (addrs p) /\
    a = blk_addr dev V' (addrs p) bn /\ (a = 0 -> full sup dev V') /\
    (forall n, 0 <= n < MAXFILE -> n <> bn -> blk_addr dev V' (addrs p) n = blk_addr dev V (addrs p) n) /\
    logged sup L L' (fun x => x = ind \/ x = a) /\ (blk_addr dev V (addrs p) bn <> 0 -> V' = V /\ L' = L)) as
    (a & s2 & V' & L' & Hr2 & Hf2 & Hh2 & Ht2 & Hext & Ha & Hfull & Hoth & Hlog & Hsame).
  { destruct (Z.eqb_spec (blk_addr dev V (addrs p) bn) 0) as [H0|Hn0].
    - destruct Hout as [Hout|]; [|done].
      destruct (bmap_entry_fill g sup s1 ip p V L bn i HB1 Hout Ht1 Hh1 Hm Hw Hbn Hind H0 Hroom) as (a & s2 & V' & L' & Hr & H).
      rewrite B4 in Hr. fold dev in Hr, H. exists a, s2, V', L'. split; [exact Hr|]. destruct H as (? & ? & ? & ? & ? & ? & ? & ?).
      do 8 (split; [done|]). done.
    - exists (blk_addr dev V (addrs p) bn), s1, V, L. split; [done|]. do 3 (split; [done|]). split; [by apply file_ext_refl|].
      do 3 (split; [done|]). split; [apply logged_refl|done]. }
  rewrite (mbind_Ok _ _ _ _ _ Hr2).
  destruct (txn_brelse s2 V' _ L' i (dev, ind) Ht2 Hh2 ltac:(set_solver)) as (s3 & Hr3 & _ & Hf3 & Ht3).
  rewrite (mbind_Ok _ _ _ _ _ Hr3). replace ({[(dev, ind)]} ∖ {[(dev, ind)]} : gset (Z * Z)) with (∅ : gset (Z * Z)) in Ht3 by set_solver.
  assert (tframe s s3) as Hf by (etransitivity; [exact Hf1|]; by etransitivity).
  exists a, s3, V', L'. split; [done|]. split.
  { split; [by apply tframe_fframe|rewrite set_addrs_id; exact (fbase_tframe _ _ _ _ _ _ HB Hf)|done|done]. }
  do 3 (split; [done|]). split; [|done]. intros Hn. destruct (Hsame Hn). done.
Qed.

Record bmap_post g sup ip s p V L bn (a : Z) s' V' A' L' : Prop := {
  bp_grown : grown g sup ip s p V s' V' A' L';
  bp_addr : a = blk_addr (log_dev g) V' A' bn;
  bp_full : a = 0 -> full sup (log_dev g) V';
  bp_other n : 0 <= n < MAXFILE -> n <> bn -> blk_addr (log_dev g) V' A' n = blk_addr (log_dev g) V (addrs p) n;
  bp_same : blk_addr (log_dev g) V (addrs p) bn <> 0 -> V' = V /\ A' = addrs p /\ L' = L /\ tframe s s';
  bp_log : logged sup L L' (fun x => x = ind_of A' \/ x = a)
}.

Lemma logged_mono sup L L' (P Q : Z -> Prop) : logged sup L L' P -> (forall x, x <> 0 -> P x -> Q x) -> logged sup L L' Q.
Proof. intros H HPQ x Hx. destruct (H x Hx) as [|[|[]]]; auto. Qed.
Lemma logged_trans sup L1 L2 L3 P : logged sup L1 L2 P -> logged sup L2 L3 P -> logged sup L1 L3 P.
Proof. intros H1 H2 x Hx. destruct (H2 x Hx) as [H|[|]]; auto. Qed.
Lemma grown_trans g sup ip s1 p V1 s2 V2 A2 L2 s3 V3 A3 L3 :
  grown g sup ip s1 p V1 s2 V2 A2 L2 -> grown g sup ip s2 (set_addrs p A2) V2 s3 V3 A3 L3 -> grown g sup ip s1 p V1 s3 V3 A3 L3.
Proof. intros [G1 G2 G3 G4] [H1 H2 H3 H4]. split; [by etransitivity|done|done|by eapply file_ext_trans]. Qed.

Lemma bmap_direct g sup s ip p V L bn :
  fbase g sup s ip p -> log_outstanding g = 1 \/ blk_addr (log_dev g) V (addrs p) bn <> 0 ->
  txn s V ∅ L -> freemap sup g V -> file_wf sup g V (home sup p) (addrs p) -> 0 <= bn < NDIRECT -> (size L + 3 < NBUF)%nat ->
  exists a s' V' A' L', bmap ip bn s = Ok (a, s') /\ bmap_post g sup ip s p V L bn a s' V' A' L'.
Proof.
  intros HB Hout Ht Hm Hw Hbn Hroom. unfold bmap, get_ip. unfold mbind at 1. rewrite (fb_ip _ _ _ _ _ HB). cbn [obind fst snd].
  rewrite (proj2 (Z.ltb_lt _ _)) by lia. fold (addrs p).
  assert (forall V A, blk_addr (log_dev g) V A bn = nth (Z.to_nat bn) A 0) as Hb.
  { intros V0 A0. unfold blk_addr. by rewrite (proj2 (Z.ltb_lt _ _)) by lia. }
  unfold addr_of. fold (addrs p). rewrite Hb in Hout. destruct (Z.eqb_spec (nth (Z.to_nat bn) (addrs p) 0) 0) as [H0|H0].
  - destruct Hout as [Hout|]; [|done].
    destruct (bmap_fill g sup s ip p V L bn HB Hout Ht Hm Hw ltac:(lia) H0 Hroom) as (a & s' & V' & A' & L' & Hr & HG & Ha & Hfull & HA & Hoth & Hlog & _).
    exists a, s', V', A', L'. split; [exact Hr|]. split; [done|by rewrite Hb|done|intros n Hn Hne; apply Hoth; by auto|by rewrite Hb|].
    eapply logged_mono; [exact Hlog|]. intros x _ ->. by right.
  - exists (nth (Z.to_nat bn) (addrs p) 0), s, V, (addrs p), L. split; [done|]. split; [by apply grown_refl|by rewrite Hb|done|done|done|apply logged_refl].
Qed.

Lemma bmap_indirect g sup s ip p V L bn :
  fbase g sup s ip p -> log_outstanding g = 1 \/ blk_addr (log_dev g) V (addrs p) bn <> 0 ->
  txn s V ∅ L -> freemap sup g V -> file_wf sup g V (home sup p) (addrs p) -> NDIRECT <= bn < MAXFILE -> (size L + 5 < NBUF)%nat ->
  exists a s' V' A' L', bmap ip bn s = Ok (a, s') /\ bmap_post g sup ip s p V L bn a s' V' A' L'.
Proof.
  intros HB Hout Ht Hm Hw Hbn Hroom. unfold bmap, get_ip. unfold mbind at 1. rewrite (fb_ip _ _ _ _ _ HB). cbn [obind fst snd].
  rewrite (proj2 (Z.ltb_ge _ _)) by lia. rewrite (proj2 (Z.ltb_lt _ _)) by (change MAXFILE with (NDIRECT + NINDIRECT) in Hbn; lia).
  assert (forall V A, ind_of A = 0 -> blk_addr (log_dev g) V A bn = 0) as Hb0.
  { intros V0 A0 H0. unfold blk_addr. rewrite (proj2 (Z.ltb_ge _ _)) by lia. fold (ind_of A0). by rewrite H0. }
  unfold addr_of. fold (addrs p). fold (ind_of (addrs p)). destruct (Z.eqb_spec (ind_of (addrs p)) 0) as [H0|H0].
  - destruct Hout as [Hout|Hx]; [|by rewrite Hb0 in Hx].
    destruct (bmap_fill g sup s ip p V L NDIRECT HB Hout Ht Hm Hw ltac:(by split) H0 ltac:(lia)) as (a & s1 & V1 & A1 & L1 & Hr1 & HG1 & Ha & Hfull & HA & Hoth & Hlog & Hsz).
    rewrite (mbind_Ok _ _ _ _ _ Hr1). fold (ind_of A1) in Ha.
    assert (forall n, 0 <= n < MAXFILE -> blk_addr (log_dev g) V1 A1 n = blk_addr (log_dev g) V (addrs p) n) as Hsame.
    { intros n Hn. apply Hoth; auto. }
    destruct (Z.eqb_spec a 0) as [Hz|Hnz].
    + exists 0, s1, V1, A1, L1. split; [done|]. split; [done|rewrite Hb0; congruence|by auto| | |].
      * intros n Hn _. by apply Hsame.
      * intros Hx. by rewrite Hb0 in Hx.
      * eapply logged_mono; [exact Hlog|]. intros x _ ->. right. congruence.
    + destruct HG1 as [G1 G2 G3 G4]. rewrite Ha in Hnz |- *.
      destruct (bmap_entry g sup s1 ip (set_addrs p A1) V1 L1 bn G2 (or_introl Hout) G3 (fe_map _ _ _ _ _ _ _ G4) (fe_wf _ _ _ _ _ _ _ G4) Hbn Hnz ltac:(lia))
        as (a2 & s2 & V2 & L2 & Hr2 & HG2 & Ha2 & Hfull2 & Hoth2 & Hs2 & Hlog2).
      exists a2, s2, V2, A1, L2. split; [exact Hr2|]. split; [by eapply grown_trans|done|done|intros n Hn Hne; etransitivity; [exact (Hoth2 n Hn Hne)|by apply Hsame]| |].
      * intros Hx. by rewrite Hb0 in Hx.
      * eapply logged_trans; [|exact Hlog2]. eapply logged_mono; [exact Hlog|]. intros x _ ->. by left.
  - rewrite mbind_ret. rewrite (proj2 (Z.eqb_neq _ _) H0).
    destruct (bmap_entry g sup s ip p V L bn HB Hout Ht Hm Hw Hbn H0 ltac:(lia)) as (a2 & s2 & V2 & L2 & Hr2 & HG2 & Ha2 & Hfull2 & Hoth2 & Hs2 & Hlog2).
    exists a2, s2, V2, (addrs p), L2. split; [exact Hr2|]. split; try done. intros Hn. by destruct (Hs2 Hn) as (-> & -> & ?).
Qed.

Lemma bmap_ok g sup s ip p V L bn :
  fbase g sup s ip p -> log_outstanding g = 1 \/ blk_addr (log_dev g) V (addrs p) bn <> 0 ->
  txn s V ∅ L -> freemap sup g V -> file_wf sup g V (home sup p) (addrs p) -> 0 <= bn < MAXFILE -> (size L + 5 < NBUF)%nat ->
  exists a s' V' A' L', bmap ip bn s = Ok (a, s') /\ bmap_post g sup ip s p V L bn a s' V' A' L'.
Proof.
  intros. destruct (decide (bn < NDIRECT)); [apply bmap_direct|apply bmap_indirect]; (done || lia).
Qed.
End FsBmap.
