(* ===== verification/FsRead.v ===== *)
(** * readi() of kernel/fs.c

    Reading from an inode whose file has no holes returns the bytes of the
    file and changes nothing. *)
From stdpp Require Import base list strings gmap numbers list_numbers.
From Stdlib Require Import ZArith Lia.
From S2P Require Import Prelude Spinlock Kalloc FsState Bio BioList BioSpec BioOps Bytes Log LogSpec LogCrash LogOps FsTxn Fs FsAlloc FsFile FsBmap.

(** ** Ranges of bytes and blocks *)
(** Blocks of the range of [n] bytes at [off] from its byte [tot] on: the
    iterations the loops of readi() and writei() have left. *)
Definition blocks_left (off n tot : Z) : Z :=
  if tot <? n then (off + n - 1) / BSIZE - (off + tot) / BSIZE + 1 else 0.
(** Bytes the next iteration moves. *)
Definition chunk (off n tot : Z) : Z := Z.min (n - tot) (BSIZE - (off + tot) mod BSIZE).

Lemma chunk_range off n tot : tot < n -> 0 < chunk off n tot /\ tot + chunk off n tot <= n /\ (off + tot) mod BSIZE + chunk off n tot <= BSIZE.
Proof. intros H. unfold chunk. pose proof (Z.mod_pos_bound (off + tot) BSIZE ltac:(done)). lia. Qed.
Lemma chunk_block off n tot x : tot < n -> off + tot <= x < off + tot + chunk off n tot ->
  x / BSIZE = (off + tot) / BSIZE /\ x mod BSIZE = (off + tot) mod BSIZE + (x - (off + tot)).
Proof.
  intros Ht Hx. pose proof (chunk_range off n tot Ht) as (_ & _ & Hc). pose proof (Z.mod_pos_bound (off + tot) BSIZE ltac:(done)).
  pose proof (Z.div_mod (off + tot) BSIZE ltac:(done)) as Hd.
  assert (x = BSIZE * ((off + tot) / BSIZE) + ((off + tot) mod BSIZE + (x - (off + tot)))) as Hq by lia.
  split; [symmetry; eapply Z.div_unique; [|exact Hq]|symmetry; eapply Z.mod_unique; [|exact Hq]]; lia.
Qed.
Lemma blocks_left_next off n tot : tot < n -> 0 <= blocks_left off n (tot + chunk off n tot) < blocks_left off n tot.
Proof.
  intros Ht. pose proof (chunk_range off n tot Ht) as (Hc1 & Hc2 & Hc3). unfold blocks_left. rewrite (proj2 (Z.ltb_lt _ _) Ht).
  assert ((off + tot) / BSIZE <= (off + n - 1) / BSIZE) by (apply Z.div_le_mono; [done|lia]).
  destruct (Z.ltb_spec (tot + chunk off n tot) n); [|lia].
  assert (chunk off n tot = BSIZE - (off + tot) mod BSIZE) as Hc by (unfold chunk in *; lia).
  assert ((off + (tot + chunk off n tot)) / BSIZE = (off + tot) / BSIZE + 1) as ->.
  { rewrite Hc. pose proof (Z.div_mod (off + tot) BSIZE ltac:(done)). symmetry. apply Z.div_unique with 0; [by left|]. lia. }
  split; [|lia]. enough ((off + tot) / BSIZE + 1 <= (off + n - 1) / BSIZE) by lia.
  apply Z.div_le_lower_bound; [done|]. pose proof (Z.div_mod (off + tot) BSIZE ltac:(done)). lia.
Qed.
Lemma blocks_left_start off n : 0 <= off -> 0 <= n -> 0 <= blocks_left off n 0 <= n / BSIZE + 2.
Proof.
  intros Ho Hn. unfold blocks_left. pose proof (Z.div_pos n BSIZE Hn ltac:(done)). destruct (Z.ltb_spec 0 n); [|lia].
  assert ((off + 0) / BSIZE <= (off + n - 1) / BSIZE) by (apply Z.div_le_mono; [done|lia]). split; [lia|].
  enough ((off + n - 1) / BSIZE <= off / BSIZE + n / BSIZE + 1) by (rewrite Z.add_0_r; lia).
  enough ((off + n - 1) / BSIZE < off / BSIZE + n / BSIZE + 2) by lia.
  apply Z.div_lt_upper_bound; [done|]. pose proof (Z.div_mod off BSIZE ltac:(done)). pose proof (Z.div_mod n BSIZE ltac:(done)).
  pose proof (Z.mod_pos_bound off BSIZE ltac:(done)). pose proof (Z.mod_pos_bound n BSIZE ltac:(done)). lia.
Qed.

Definition file_bytes (dev : Z) V A (off n : Z) : list Z := map (fbyte dev V A) (seqZ off n).
Lemma file_bytes_app dev V A off n m : 0 <= n -> 0 <= m ->
  file_bytes dev V A off (n + m) = file_bytes dev V A off n ++ file_bytes dev V A (off + n) m.
Proof. intros. unfold file_bytes. by rewrite seqZ_app, map_app. Qed.
(** The bytes of one block. *)
Lemma slice_file dev V A off n tot : tot < n ->
  Z.of_nat (length (V (dev, blk_addr dev V A ((off + tot) / BSIZE)))) = BSIZE ->
  slice ((off + tot) mod BSIZE) (chunk off n tot) (V (dev, blk_addr dev V A ((off + tot) / BSIZE))) =
    file_bytes dev V A (off + tot) (chunk off n tot).
Proof.
  intros Ht Hlen. pose proof (chunk_range off n tot Ht) as (Hc1 & Hc2 & Hc3). pose proof (Z.mod_pos_bound (off + tot) BSIZE ltac:(done)).
  apply list_eq. intros i. rewrite slice_lookup. unfold file_bytes. rewrite list_lookup_fmap. case_decide as Hi.
  - rewrite lookup_seqZ_lt by lia. simpl. unfold fbyte.
    destruct (chunk_block off n tot (off + tot + Z.of_nat i) Ht ltac:(lia)) as [-> ->].
    replace (Z.to_nat ((off + tot) mod BSIZE + (off + tot + Z.of_nat i - (off + tot)))) with (Z.to_nat ((off + tot) mod BSIZE) + i)%nat by lia.
    rewrite (nth_lookup _ _ 0). destruct (lookup_lt_is_Some_2 (V (dev, blk_addr dev V A ((off + tot) / BSIZE))) (Z.to_nat ((off + tot) mod BSIZE) + i)) as [x ->]; [lia|done].
  - by rewrite lookup_seqZ_ge by lia.
Qed.

(** ** readi() *)
Section FsRead.
Context {E : Type} {EF : FsEnv E}.
Implicit Types (s : fsst E) (V : Z * Z -> list Z) (L : gset Z) (g : log_t) (sup : superblock) (ip : nat) (p : inode).

(** The blocks up to the size of the file are there. *)
Definition no_holes dev V A size : Prop := forall bn, 0 <= bn -> bn * BSIZE < size -> blk_addr dev V A bn <> 0.
(** An inode in memory with the file it stands for. *)
Record file_ok g sup s ip p V L : Prop := {
  fo_base : fbase g sup s ip p;
  fo_txn : txn s V ∅ L;
  fo_map : freemap sup g V;
  fo_wf : file_wf sup g V (home sup p) (addrs p);
  fo_size : 0 <= d_size (i_dip p) <= MAXFILE * BSIZE;
  fo_holes : no_holes (log_dev g) V (addrs p) (d_size (i_dip p))
}.

(** A data block of the file is read into a buffer. *)
Lemma file_bread g sup s ip p V L bn :
  let dev := log_dev g in let a := blk_addr dev V (addrs p) bn in
  fbase g sup s ip p -> txn s V ∅ L -> freemap sup g V -> file_wf sup g V (home sup p) (addrs p) ->
  0 <= bn < MAXFILE -> a <> 0 -> (size L < NBUF)%nat ->
  exists i s' bp, bread (i_dev p) a s = Ok (i, s') /\ tframe s s' /\ txn s' V {[(dev, a)]} L /\ held s' i (dev, a) /\
    get_buf i s' = Ok (bp, s') /\ b_data bp = V (dev, a) /\ in_use sup g V a.
Proof.
  intros dev a [B1 B2 B3 B4] Ht Hm Hw Hbn Ha Hroom. pose proof (fw_use _ _ _ _ _ Hw bn (is_slot_data _ Hbn)) as Hiu.
  rewrite slot_data in Hiu by lia. specialize (Hiu Ha). fold dev a in Hiu.
  destruct (txn_bread s V ∅ L (dev, a) Ht (fm_dev _ _ _ Hm) (not_elem_of_empty _)) as (i & s1 & Hr1 & Hh1 & Hf1 & Ht1 & _).
  { pose proof (iu_data _ _ _ _ Hiu) as [Hd _]. intros [_ Hx]. rewrite B1 in Hx. simpl in Hx. lia. } { rewrite size_empty. lia. }
  simpl in Hr1. rewrite B4. fold dev. destruct (txn_get s1 V _ L i (dev, a) Ht1 Hh1 ltac:(set_solver)) as (bp & Hg & Hdat & _).
  replace ({[(dev, a)]} ∪ ∅ : gset (Z * Z)) with ({[(dev, a)]} : gset (Z * Z)) in Ht1 by set_solver.
  by exists i, s1, bp.
Qed.
Lemma file_brelse s V L i k : txn s V {[k]} L -> held s i k -> exists s', brelse i s = Ok (tt, s') /\ tframe s s' /\ txn s' V ∅ L.
Proof.
  intros Ht Hh. destruct (txn_brelse s V _ L i k Ht Hh ltac:(set_solver)) as (s' & Hr & _ & Hf & Ht').
  exists s'. split; [done|]. split; [done|]. by replace ({[k]} ∖ {[k]} : gset (Z * Z)) with (∅ : gset (Z * Z)) in Ht' by set_solver.
Qed.

Lemma readi_ok g sup s ip p V L off n :
  let len := if d_size (i_dip p) <? off then 0 else Z.min n (d_size (i_dip p) - off) in
  file_ok g sup s ip p V L -> 0 <= off -> 0 <= n -> off + n < 2 ^ 32 -> (size L + 5 < NBUF)%nat ->
  exists s', readi ip ToKernel off n s = Ok ((len, file_bytes (log_dev g) V (addrs p) off len), s') /\ tframe s s' /\ txn s' V ∅ L.
Proof.
  intros len [HB Ht Hm Hw Hsz Hh] Hoff Hn Hlt Hroom. unfold readi, get_ip. unfold mbind at 1. rewrite (fb_ip _ _ _ _ _ HB). cbn [obind fst snd].
  change MAXFILE with 268 in Hsz. change BSIZE with 1024 in Hsz.
  rewrite (u32_small (off + n)) by lia. rewrite (proj2 (Z.ltb_ge (off + n) off)) by lia. rewrite orb_false_r.
  destruct (Z.ltb_spec (d_size (i_dip p)) off) as [Hgt|Hle]; [exists s; done|].
  assert ((if d_size (i_dip p) <? off + n then d_size (i_dip p) - off else n) = len) as ->.
  { subst len. destruct (Z.ltb_spec (d_size (i_dip p)) (off + n)); lia. }
  assert (0 <= len <= n /\ off + len <= d_size (i_dip p)) as Hlen by (subst len; lia). clearbody len.
  match goal with |- context [mloop ?f ?b ?a s] => edestruct (mloop_ok b
    (fun '(tot, off1, acc) s1 => 0 <= tot <= len /\ off1 = off + tot /\ acc = file_bytes (log_dev g) V (addrs p) off tot /\ tframe s s1 /\ txn s1 V ∅ L)
    (fun r s1 => r = (len, file_bytes (log_dev g) V (addrs p) off len) /\ tframe s s1 /\ txn s1 V ∅ L)
    (fun '(tot, _, _) => Z.to_nat (blocks_left off len tot)) f a s) as (r & s' & Hr & -> & Hf & Ht') end; [| | |by exists s'].
  - intros [[tot off1] acc] s1 (Htot & -> & -> & Hf & Ht1). destruct (Z.ltb_spec tot len) as [Hl|Hl].
    2:{ eexists (inr _), s1. split; [reflexivity|]. simpl. replace tot with len by lia. rewrite i32_small by lia. done. }
    pose proof (chunk_range off len tot Hl) as (Hc1 & Hc2 & Hc3). set (bn := (off + tot) / BSIZE).
    assert (0 <= bn /\ bn * BSIZE <= off + tot) as [Hbn0 Hbn1].
    { split; [apply Z.div_pos; [lia|done]|]. rewrite Z.mul_comm. by apply Z.mul_div_le. }
    assert (blk_addr (log_dev g) V (addrs p) bn <> 0) as Ha by (apply Hh; lia).
    assert (0 <= bn < MAXFILE) as Hbn by (change MAXFILE with 268; change BSIZE with 1024 in Hbn1; lia).
    pose proof (fbase_tframe _ _ _ _ _ _ HB Hf) as HB1.
    destruct (bmap_ok g sup s1 ip p V L bn HB1 (or_intror Ha) Ht1 Hm Hw Hbn Hroom) as (a & s2 & V' & A' & L' & Hr2 & [[_ _ Ht2 _] Hadr _ _ Hsame _]).
    destruct (Hsame Ha) as (-> & -> & -> & Hf2). rewrite (mbind_Ok _ _ _ _ _ Hr2). subst a. rewrite (proj2 (Z.eqb_neq _ _) Ha).
    destruct (file_bread g sup s2 ip p V L bn (fbase_tframe _ _ _ _ _ _ HB1 Hf2) Ht2 Hm Hw Hbn Ha ltac:(lia))
      as (i & s3 & bp & Hr3 & Hf3 & Ht3 & Hh3 & Hg & Hdat & Hiu).
    rewrite (mbind_Ok _ _ _ _ _ Hr3), (mbind_Ok _ _ _ _ _ Hg), Hdat. fold (chunk off len tot).
    unfold bn. rewrite slice_file by (done || apply (iu_len _ _ _ _ Hiu)). unfold copy_to. unfold mbind at 1. cbn [obind fst snd].
    change (0 =? -1) with false. cbv iota.
    destruct (file_brelse s3 V L i _ Ht3 Hh3) as (s4 & Hr4 & Hf4 & Ht4). rewrite (mbind_Ok _ _ _ _ _ Hr4).
    eexists (inl _), s4. split; [reflexivity|]. pose proof (blocks_left_next off len tot Hl). split; [|lia].
    split; [lia|]. split; [lia|]. split; [by rewrite file_bytes_app by lia|]. split; [|done].
    etransitivity; [exact Hf|]. etransitivity; [exact Hf2|]. by etransitivity.
  - split; [lia|]. split; [lia|]. split; [done|]. done.
  - pose proof (blocks_left_start off len Hoff ltac:(lia)). lia.
Qed.
End FsRead.
