(* ===== verification/FsWrite.v ===== *)
(** * writei() of kernel/fs.c

    Writing to an inode: the bytes of the file afterwards, the blocks that
    change, and the blocks the transaction needs. *)
From stdpp Require Import base list strings gmap numbers list_numbers.
From Stdlib Require Import ZArith Lia.
From S2P Require Import Prelude Spinlock Kalloc FsState Bio BioList BioSpec BioOps Bytes Log LogSpec LogCrash LogOps FsTxn Fs FsNames FsAlloc FsFile FsBmap FsRead.

Implicit Types (V : Z * Z -> list Z) (L : gset Z) (g : log_t) (sup : superblock) (A : list Z).

(** ** The file after part of a write

    [written g sup h off l V A tot V' A']: the first [tot] bytes of [l] were
    written at [off] of the file [V], [A]. *)
Record written g sup h off (l : list Z) V A tot V' A' : Prop := {
  wr_wf : file_wf sup g V' h A';
  wr_map : freemap sup g V';
  wr_addr i : is_slot i -> slot (log_dev g) h V A i <> 0 -> slot (log_dev g) h V' A' i = slot (log_dev g) h V A i;
  wr_mapped x : off <= x < off + tot -> blk_addr (log_dev g) V' A' (x / BSIZE) <> 0;
  wr_new x : off <= x < off + tot -> fbyte (log_dev g) V' A' x = nth (Z.to_nat (x - off)) l 0;
  wr_old x : 0 <= x < MAXFILE * BSIZE -> ~ off <= x < off + tot -> blk_addr (log_dev g) V A (x / BSIZE) <> 0 ->
    fbyte (log_dev g) V' A' x = fbyte (log_dev g) V A x;
  wr_used b : 0 <= b < sb_size sup -> used sup (log_dev g) V b = true -> used sup (log_dev g) V' b = true;
  wr_frame k : k.1 <> log_dev g \/ 0 < k.2 < sb_size sup /\ used sup (log_dev g) V k.2 = true /\ ~ is_map sup k.2 /\
      (forall i, is_slot i -> i <> HOME -> k.2 <> slot (log_dev g) h V' A' i) -> V' k = V k
}.

Lemma written_start g sup h off l V A : file_wf sup g V h A -> freemap sup g V -> written g sup h off l V A 0 V A.
Proof. intros Hw Hm. split; try done; intros x Hx; lia. Qed.

Lemma block_of_byte x : 0 <= x < MAXFILE * BSIZE -> 0 <= x / BSIZE < MAXFILE.
Proof. intros H. split; [apply Z.div_pos; [lia|done]|]. apply Z.div_lt_upper_bound; [done|lia]. Qed.

(** The bytes of a file keep their values when it grows. *)
Lemma fbyte_ext g sup h V A V' A' x : file_ext sup g h V A V' A' -> 0 <= x < MAXFILE * BSIZE ->
  blk_addr (log_dev g) V A (x / BSIZE) <> 0 ->
  blk_addr (log_dev g) V' A' (x / BSIZE) = blk_addr (log_dev g) V A (x / BSIZE) /\ fbyte (log_dev g) V' A' x = fbyte (log_dev g) V A x.
Proof.
  intros Hx Hr Hn. pose proof (block_of_byte x Hr) as Hb. pose proof (fe_addr _ _ _ _ _ _ _ Hx _ (is_slot_data _ Hb)) as Ha.
  rewrite !slot_data in Ha by lia. split; [by apply Ha|]. unfold fbyte. rewrite Ha by done. by rewrite (fe_data _ _ _ _ _ _ _ Hx).
Qed.

Lemma written_ext g sup h off l V A tot V1 A1 V2 A2 :
  0 <= off -> off + tot <= MAXFILE * BSIZE ->
  written g sup h off l V A tot V1 A1 -> file_ext sup g h V1 A1 V2 A2 -> written g sup h off l V A tot V2 A2.
Proof.
  intros Hoff Hmax [W1 W2 W3 W4 W5 W6 W7 W8] Hx. pose proof Hx as [X1 X2 X3 X4 X5 X6 X7]. split; try done.
  - intros i Hi Hn. rewrite X3; [by apply W3|done|]. by rewrite W3.
  - intros x Hr. destruct (fbyte_ext _ _ _ _ _ _ _ x Hx ltac:(lia) (W4 x Hr)) as [-> _]. by apply W4.
  - intros x Hr. destruct (fbyte_ext _ _ _ _ _ _ _ x Hx ltac:(lia) (W4 x Hr)) as [_ ->]. by apply W5.
  - intros x Hr Hnr Hn. pose proof (block_of_byte x Hr) as Hb. rewrite <- (W6 x Hr Hnr Hn). apply (fbyte_ext g sup h V1 A1 V2 A2); try done.
    specialize (W3 _ (is_slot_data _ Hb)). rewrite !slot_data in W3 by lia. by rewrite W3.
  - intros b Hb Hu. by apply X6, W7.
  - intros k Hk. transitivity (V1 k).
    + apply X7. destruct Hk as [|(H1 & H2 & H3 & H4)]; [by left|right]. split; [done|]. split; [apply W7; [lia|done]|]. split; [done|].
      by apply (H4 IND).
    + apply W8. destruct Hk as [|(H1 & H2 & H3 & H4)]; [by left|right]. split; [done|]. split; [done|]. split; [done|].
      intros i Hi Hih Heq. apply (H4 i Hi Hih). rewrite X3; [done|done|]. lia.
Qed.

(** A block of the file, other than its block of indirect addresses, is overwritten. *)
Lemma slot_put g sup h V A i0 d : file_wf sup g V h A -> is_slot i0 -> i0 <> IND -> slot (log_dev g) h V A i0 <> 0 ->
  forall i, slot (log_dev g) h (vset V (log_dev g, slot (log_dev g) h V A i0) d) A i = slot (log_dev g) h V A i.
Proof.
  intros Hw Hi0 HI Hn i. unfold slot at 1 3. destruct (i =? HOME); [done|]. destruct (i =? IND); [done|]. unfold blk_addr. destruct (i <? NDIRECT); [done|].
  fold (ind_of A). destruct (Z.eqb_spec (ind_of A) 0); [done|]. rewrite vset_ne; [done|]. intros [= Heq].
  apply HI. by apply (fw_inj _ _ _ _ _ Hw i0 IND).
Qed.
Lemma file_wf_put g sup h V A i0 d : file_wf sup g V h A -> is_slot i0 -> i0 <> IND -> slot (log_dev g) h V A i0 <> 0 ->
  Z.of_nat (length d) = BSIZE -> file_wf sup g (vset V (log_dev g, slot (log_dev g) h V A i0) d) h A.
Proof.
  intros Hw Hi0 HI Hn Hd. pose proof (slot_put g sup h V A i0 d Hw Hi0 HI Hn) as Hs. pose proof Hw as [W1 W2 W3 W4].
  split; try done.
  - intros i Hi. rewrite Hs. intros Hni. destruct (W3 i Hi Hni) as [U1 U2 U3 U4 U5]. split; try done.
    + rewrite used_other; [done| |lia]. apply not_map_key, (iu_map _ _ _ _ (W3 i0 Hi0 Hn)).
    + destruct (decide (slot (log_dev g) h V A i = slot (log_dev g) h V A i0)) as [->|Hne]; [by rewrite vset_eq|].
      rewrite vset_ne; [done|]. intros [=]. done.
  - intros i j. rewrite !Hs. apply W4.
Qed.
Lemma blk_addr_data g sup h V A bn d : file_wf sup g V h A -> 0 <= bn < MAXFILE -> blk_addr (log_dev g) V A bn <> 0 ->
  forall i, slot (log_dev g) h (vset V (log_dev g, blk_addr (log_dev g) V A bn) d) A i = slot (log_dev g) h V A i.
Proof.
  intros Hw Hbn Hn. rewrite <- (slot_data _ h) in Hn |- * by lia. apply (slot_put g sup); try done; [by apply is_slot_data|unfold IND; lia].
Qed.
Lemma file_wf_data g sup h V A bn d : file_wf sup g V h A -> 0 <= bn < MAXFILE -> blk_addr (log_dev g) V A bn <> 0 ->
  Z.of_nat (length d) = BSIZE -> file_wf sup g (vset V (log_dev g, blk_addr (log_dev g) V A bn) d) h A.
Proof.
  intros Hw Hbn Hn. rewrite <- (slot_data _ h) in Hn |- * by lia. apply file_wf_put; try done; [by apply is_slot_data|unfold IND; lia].
Qed.

Lemma fbyte_put g sup h V A bn d x : file_wf sup g V h A -> 0 <= bn < MAXFILE -> blk_addr (log_dev g) V A bn <> 0 ->
  0 <= x < MAXFILE * BSIZE ->
  fbyte (log_dev g) (vset V (log_dev g, blk_addr (log_dev g) V A bn) d) A x =
    if decide (x / BSIZE = bn) then nth (Z.to_nat (x mod BSIZE)) d 0 else fbyte (log_dev g) V A x.
Proof.
  intros Hw Hbn Hn Hx. pose proof (block_of_byte x Hx) as Hb. unfold fbyte.
  pose proof (blk_addr_data g sup h V A bn d Hw Hbn Hn (x / BSIZE)) as Hs. rewrite !slot_data in Hs by lia. rewrite Hs.
  destruct (decide (x / BSIZE = bn)) as [->|Hne]; [by rewrite vset_eq|]. rewrite vset_ne; [done|]. intros [= Heq]. apply Hne. symmetry.
  pose proof (fw_inj _ _ _ _ _ Hw bn (x / BSIZE) (is_slot_data _ Hbn) (is_slot_data _ Hb)) as Hi. rewrite !slot_data in Hi by lia. by apply Hi.
Qed.

Lemma written_put g sup h off n l V A tot V' A' :
  let bn := (off + tot) / BSIZE in let a := blk_addr (log_dev g) V' A' bn in let m := chunk off n tot in
  written g sup h off l V A tot V' A' -> 0 <= off -> 0 <= tot < n -> off + n <= MAXFILE * BSIZE -> Z.of_nat (length l) = n ->
  a <> 0 ->
  written g sup h off l V A (tot + m) (vset V' (log_dev g, a) (splice ((off + tot) mod BSIZE) (slice tot m l) (V' (log_dev g, a)))) A'.
Proof.
  intros bn a m Hwr Hoff Htot Hmax Hl Ha. pose proof Hwr as [W1 W2 W3 W4 W5 W6 W7 W8].
  pose proof (chunk_range off n tot ltac:(lia)) as (Hc1 & Hc2 & Hc3). fold m in Hc1, Hc2, Hc3.
  pose proof (Z.mod_pos_bound (off + tot) BSIZE ltac:(done)) as Hmod.
  assert (0 <= bn < MAXFILE) as Hbn by (apply block_of_byte; lia).
  assert (in_use sup g V' a) as Hiu.
  { pose proof (fw_use _ _ _ _ _ W1 bn (is_slot_data _ Hbn)) as H. rewrite slot_data in H by lia. by apply H. }
  pose proof (iu_len _ _ _ _ Hiu) as Hlen. pose proof (length_slice tot m l ltac:(lia) ltac:(lia) ltac:(lia)) as Hsl.
  set (d := splice _ _ _). assert (Z.of_nat (length d) = BSIZE) as Hd by (unfold d; rewrite length_splice by lia; done).
  pose proof (blk_addr_data g sup h V' A' bn d W1 Hbn Ha) as Hs. fold a in Hs.
  assert (forall x, 0 <= x < MAXFILE * BSIZE -> fbyte (log_dev g) (vset V' (log_dev g, a) d) A' x =
    if decide (off + tot <= x < off + tot + m) then nth (Z.to_nat (x - off)) l 0 else fbyte (log_dev g) V' A' x) as Hb.
  { intros x Hx. unfold a. rewrite (fbyte_put g sup h) by done. fold a.
    destruct (decide (off + tot <= x < off + tot + m)) as [Hin|Hout].
    - destruct (chunk_block off n tot x ltac:(lia) Hin) as [Hq Hr]. rewrite decide_True by done. rewrite Hr. rewrite !(nth_lookup _ _ 0). f_equal.
      unfold d. rewrite splice_lookup, decide_True by lia. rewrite slice_lookup, decide_True by lia. f_equal. lia.
    - destruct (decide (x / BSIZE = bn)) as [Hq|]; [|done]. unfold fbyte. rewrite Hq. fold a. rewrite !(nth_lookup _ _ 0). f_equal.
      unfold d. rewrite splice_lookup by lia. rewrite decide_False; [done|]. intros Hr.
      pose proof (Z.mod_pos_bound x BSIZE ltac:(done)). pose proof (Z.div_mod x BSIZE ltac:(done)). pose proof (Z.div_mod (off + tot) BSIZE ltac:(done)).
      fold bn in H1. apply Hout. rewrite Hq in H0. rewrite Z2Nat.id in Hr by lia. lia. }
  assert (forall x, 0 <= x < MAXFILE * BSIZE -> blk_addr (log_dev g) (vset V' (log_dev g, a) d) A' (x / BSIZE) = blk_addr (log_dev g) V' A' (x / BSIZE)) as Hba.
  { intros x Hx. pose proof (block_of_byte x Hx). specialize (Hs (x / BSIZE)). by rewrite !slot_data in Hs by lia. }
  split.
  - by apply (file_wf_data g sup h V' A' bn).
  - apply freemap_other; [done|]. apply not_map_key, (iu_map _ _ _ _ Hiu).
  - intros i Hi Hn. rewrite Hs. by apply W3.
  - intros x Hx. rewrite Hba by lia. destruct (decide (x < off + tot)); [apply W4; lia|].
    destruct (chunk_block off n tot x ltac:(lia) ltac:(lia)) as [-> _]. done.
  - intros x Hx. rewrite Hb by lia. destruct (decide _); [done|]. apply W5. lia.
  - intros x Hx Hnr Hn. rewrite Hb by lia. rewrite decide_False by lia. apply W6; [done|lia|done].
  - intros b Hbr Hu. rewrite used_other; [by apply W7| |done]. apply not_map_key, (iu_map _ _ _ _ Hiu).
  - intros k Hk. rewrite vset_ne.
    + apply W8. destruct Hk as [|(H1 & H2 & H3 & H4)]; [by left|right]. do 3 (split; [done|]). intros i Hi Hih. rewrite <- Hs. by apply H4.
    + intros ->. destruct Hk as [|(H1 & H2 & H3 & H4)]; [done|]. apply (H4 bn (is_slot_data _ Hbn)); [unfold HOME; lia|].
      rewrite Hs, slot_data by lia. done.
Qed.

(** ** The blocks in the transaction *)
Definition map_blocks sup : gset Z := list_to_set (map (fun i => Z.of_nat i + sb_bmapstart sup) (seq 0 (S (Z.to_nat (sb_size sup / BPB))))).
Lemma is_map_elem sup x : is_map sup x -> x ∈ map_blocks sup.
Proof.
  intros (b & Hb & ->). apply elem_of_list_to_set, list_elem_of_In, in_map_iff. exists (Z.to_nat (b / BPB)).
  pose proof (Z.div_pos b BPB ltac:(lia) ltac:(done)). pose proof (Z.div_le_mono b (sb_size sup) BPB ltac:(done) ltac:(lia)).
  split; [unfold BBLOCK; lia|]. apply in_seq. lia.
Qed.
Lemma size_list_le (l : list Z) : (size (list_to_set l : gset Z) <= length l)%nat.
Proof.
  induction l as [|x l IH]; [rewrite list_to_set_nil, size_empty; simpl; lia|].
  rewrite list_to_set_cons. pose proof (size_add (list_to_set l) x). simpl. lia.
Qed.

(** The blocks of a file that a write of [n] bytes at [off] changes. *)
Definition touched (dev : Z) V A off n (x : Z) : Prop :=
  x = ind_of A \/ exists bn, off / BSIZE <= bn < off / BSIZE + blocks_left off n 0 /\ x = blk_addr dev V A bn.
Lemma logged_size dev V A sup L L' off n :
  logged sup L L' (touched dev V A off n) ->
  (size L' <= size L + size (map_blocks sup) + 1 + Z.to_nat (blocks_left off n 0))%nat.
Proof.
  intros H. set (T := ind_of A :: map (blk_addr dev V A) (seqZ (off / BSIZE) (blocks_left off n 0))).
  assert (L' ⊆ (L ∪ map_blocks sup) ∪ list_to_set T) as Hsub.
  { intros x Hx. rewrite !elem_of_union. destruct (H x Hx) as [|[Hm|[_ [->|(bn & Hbn & ->)]]]]; [by auto|left; right; by apply is_map_elem|right..].
    - apply elem_of_list_to_set. by left.
    - apply elem_of_list_to_set. right. apply list_elem_of_fmap. exists bn. split; [done|]. apply elem_of_seqZ. lia. }
  apply subseteq_size in Hsub. pose proof (size_list_le T) as HT.
  assert (length T = S (Z.to_nat (blocks_left off n 0))) as HlT by (unfold T; simpl; by rewrite length_map, length_seqZ).
  rewrite size_union_alt in Hsub. rewrite (size_union_alt L (map_blocks sup)) in Hsub.
  pose proof (subseteq_size (map_blocks sup ∖ L) (map_blocks sup) ltac:(set_solver)).
  pose proof (subseteq_size (list_to_set T ∖ (L ∪ map_blocks sup)) (list_to_set T) ltac:(set_solver)). lia.
Qed.
Lemma touched_ext g sup h V A V' A' off n x : 0 <= off -> off + n <= MAXFILE * BSIZE ->
  file_ext sup g h V A V' A' -> x <> 0 -> touched (log_dev g) V A off n x -> touched (log_dev g) V' A' off n x.
Proof.
  intros Hoff Hmax Hx Hn [->|(bn & Hbn & ->)].
  - left. symmetry. by apply (fe_addr _ _ _ _ _ _ _ Hx IND).
  - right. exists bn. split; [done|]. assert (0 <= bn < MAXFILE) as Hr.
    { unfold blocks_left in Hbn. destruct (Z.ltb_spec 0 n); [|lia]. rewrite Z.add_0_r in Hbn.
      pose proof (block_of_byte (off + n - 1) ltac:(lia)). pose proof (Z.div_pos off BSIZE Hoff ltac:(done)). lia. }
    pose proof (fe_addr _ _ _ _ _ _ _ Hx bn (is_slot_data _ Hr)) as H. rewrite !slot_data in H by lia. symmetry. by apply H.
Qed.

(** ** writei() *)
Section FsWrite.
Context {E : Type} {EF : FsEnv E}.
Implicit Types (s : fsst E) (ip : nat) (p : inode).

(** Between two iterations of the loop. *)
Record winv g sup s ip p V L off n l tot s' V' A' L' : Prop := {
  wi_tot : 0 <= tot <= n;
  wi_frame : fframe ip s s';
  wi_base : fbase g sup s' ip (set_addrs p A');
  wi_txn : txn s' V' ∅ L';
  wi_file : written g sup (home sup p) off l V (addrs p) tot V' A';
  wi_log : logged sup L L' (touched (log_dev g) V' A' off n)
}.
(** There is room for the blocks of the write in the log and the cache. *)
Definition room sup L off n : Prop := (size L + size (map_blocks sup) + Z.to_nat (blocks_left off n 0) + 7 < NBUF)%nat.

Definition writei_body ip p (l : list Z) n (st : Z * Z) : M (fsst E) (Z * Z + Z * Z) :=
  let '(tot, off) := st in
  if tot <? n then
    let* addr := bmap ip (off / BSIZE) in
    if addr =? 0 then mret (inr st)
    else
      let* i := bread (i_dev p) addr in
      let m := Z.min (n - tot) (BSIZE - off mod BSIZE) in
      let* r := copy_from (FromKernel l) tot m in
      upd_buf i (fun bp => bp <| b_data ::= splice (off mod BSIZE) (snd r) |>) ;;;
      log_write i ;;;
      brelse i ;;;
      if fst r =? -1 then mret (inr st) else mret (inl (tot + m, off + m))
  else mret (inr st).

Lemma touched_put g sup h V A bn d off n x : file_wf sup g V h A -> 0 <= bn < MAXFILE -> blk_addr (log_dev g) V A bn <> 0 ->
  0 <= off -> touched (log_dev g) V A off n x -> touched (log_dev g) (vset V (log_dev g, blk_addr (log_dev g) V A bn) d) A off n x.
Proof.
  intros Hw Hbn Hn Hoff [->|(b & Hb & ->)]; [by left|right]. exists b. split; [done|].
  pose proof (blk_addr_data g sup h V A bn d Hw Hbn Hn b) as H. pose proof (Z.div_pos off BSIZE Hoff ltac:(done)).
  by rewrite !slot_data in H by lia.
Qed.

(** One iteration. *)
Lemma writei_step g sup s ip p V L off n l tot s1 V1 A1 L1 :
  log_outstanding g = 1 -> 0 <= off -> off + n <= MAXFILE * BSIZE -> Z.of_nat (length l) = n -> room sup L off n ->
  winv g sup s ip p V L off n l tot s1 V1 A1 L1 -> tot < n ->
  exists r s2 V2 A2 L2, writei_body ip p l n (tot, off + tot) s1 = Ok (r, s2) /\
    (r = inl (tot + chunk off n tot, off + (tot + chunk off n tot)) /\ winv g sup s ip p V L off n l (tot + chunk off n tot) s2 V2 A2 L2 \/
     r = inr (tot, off + tot) /\ winv g sup s ip p V L off n l tot s2 V2 A2 L2 /\ full sup (log_dev g) V2).
Proof.
  intros Hout Hoff Hmax Hl Hroom [I1 I2 I3 I4 I5 I6] Htot. unfold writei_body. rewrite (proj2 (Z.ltb_lt _ _) Htot).
  set (bn := (off + tot) / BSIZE). assert (0 <= bn < MAXFILE) as Hbn by (apply block_of_byte; lia).
  assert (off / BSIZE <= bn < off / BSIZE + blocks_left off n 0) as Hbr.
  { unfold blocks_left, bn. rewrite (proj2 (Z.ltb_lt 0 n)) by lia. rewrite Z.add_0_r.
    pose proof (Z.div_le_mono off (off + tot) BSIZE ltac:(done) ltac:(lia)). pose proof (Z.div_le_mono (off + tot) (off + n - 1) BSIZE ltac:(done) ltac:(lia)). lia. }
  pose proof (logged_size _ _ _ _ _ _ _ _ I6) as Hsz. unfold room in Hroom.
  destruct (bmap_ok g sup s1 ip (set_addrs p A1) V1 L1 bn I3 (or_introl Hout) I4 (wr_map _ _ _ _ _ _ _ _ _ _ I5) (wr_wf _ _ _ _ _ _ _ _ _ _ I5) Hbn ltac:(lia))
    as (a & s2 & V2 & A2 & L2 & Hr2 & [[G1 G2 G3 G4] Ha Hfull _ _ Hlog]).
  rewrite (mbind_Ok _ _ _ _ _ Hr2).
  assert (written g sup (home sup p) off l V (addrs p) tot V2 A2) as Hw2 by (eapply written_ext; [done| |exact I5|exact G4]; lia).
  assert (logged sup L L2 (touched (log_dev g) V2 A2 off n)) as Hlog2.
  { eapply logged_trans.
    - eapply logged_mono; [exact I6|]. intros x Hx. apply (touched_ext _ _ _ _ _ _ _ _ _ _ Hoff Hmax G4 Hx).
    - eapply logged_mono; [exact Hlog|]. intros x _ [->| ->]; [by left|right]. by exists bn. }
  destruct (Z.eqb_spec a 0) as [Hz|Hnz].
  { exists (inr (tot, off + tot)), s2, V2, A2, L2. split; [done|]. right. split; [done|]. split; [|by apply Hfull].
    split; try done. by etransitivity. }
  pose proof (logged_size _ _ _ _ _ _ _ _ Hlog2) as Hsz2. rewrite Ha in Hnz |- *.
  destruct (file_bread g sup s2 ip (set_addrs p A2) V2 L2 bn G2 G3 (wr_map _ _ _ _ _ _ _ _ _ _ Hw2) (wr_wf _ _ _ _ _ _ _ _ _ _ Hw2) Hbn Hnz ltac:(lia))
    as (i & s3 & bp & Hr3 & Hf3 & Ht3 & Hh3 & _ & _ & Hiu).
  change (addrs (set_addrs p A2)) with A2 in *. change (i_dev (set_addrs p A2)) with (i_dev p) in Hr3. rewrite (mbind_Ok _ _ _ _ _ Hr3). cbv zeta. fold (chunk off n tot).
  unfold copy_from. unfold mbind at 1. cbn [obind fst snd].
  pose proof (fbase_tframe _ _ _ _ _ _ G2 Hf3) as HB3. set (b := blk_addr (log_dev g) V2 A2 bn) in *.
  assert (hkey (slog s3) b = (log_dev g, b)) as Ek by (unfold hkey; by rewrite (fb_geo _ _ _ _ _ HB3)).
  set (f := splice ((off + tot) mod BSIZE) (slice tot (chunk off n tot) l)).
  destruct (txn_put s3 V2 ∅ L2 i b (fun bp => bp <| b_data ::= f |>) f) as (s4 & Hr4 & _ & _ & Hf4 & Ht4); rewrite ?Ek; try done.
  { by rewrite union_empty_r_L. } { pose proof (iu_data _ _ _ _ Hiu) as Hd. unfold data_block in *. by rewrite (fb_geo _ _ _ _ _ HB3). }
  { by rewrite (fb_geo _ _ _ _ _ HB3). } { change LOGBLOCKS with 30. unfold NBUF in Hroom. lia. }
  rewrite Hr4, Ek in *. change (0 =? -1) with false. cbv iota.
  eexists _, s4, _, A2, _. split; [reflexivity|]. left. split; [do 2 f_equal; lia|].
  pose proof (chunk_range off n tot Htot) as (Hc1 & Hc2 & Hc3).
  split; [lia| | |exact Ht4| |].
  - etransitivity; [exact I2|]. etransitivity; [exact G1|]. apply tframe_fframe. by etransitivity.
  - exact (fbase_tframe _ _ _ _ _ _ HB3 Hf4).
  - apply (written_put g sup (home sup p) off n l V (addrs p) tot V2 A2); (done || lia).
  - intros x Hx. apply elem_of_union in Hx as [Hx|Hx].
    + apply elem_of_singleton in Hx as ->. right; right. split; [done|]. apply (touched_put g sup (home sup p)); try done; [apply (wr_wf _ _ _ _ _ _ _ _ _ _ Hw2)|].
      right. by exists bn.
    + destruct (Hlog2 x Hx) as [|[|[H1 H2]]]; [by auto|by auto|right; right]. split; [done|].
      apply (touched_put g sup (home sup p)); try done. apply (wr_wf _ _ _ _ _ _ _ _ _ _ Hw2).
Qed.

(** iupdate() writes the inode into its block. *)
Lemma iupdate_ok g sup s ip p V L :
  let dev := log_dev g in let h := home sup p in
  fbase g sup s ip p -> log_outstanding g = 1 -> freemap sup g V -> txn s V ∅ L -> in_use sup g V h ->
  (size L < NBUF)%nat -> Z.of_nat (size L) < LOGBLOCKS ->
  exists s', iupdate ip s = Ok (tt, s') /\ tframe s s' /\
    txn s' (vset V (dev, h) (put_dinode (dinode_off (i_inum p)) (i_dip p) (V (dev, h)))) ∅ ({[h]} ∪ L).
Proof.
  intros dev h HB Hout Hm Ht Hiu Hroom Hl. pose proof HB as [B1 B2 B3 B4]. unfold iupdate. rewrite mbind_reads, B2.
  unfold get_ip. unfold mbind at 1. rewrite B3. cbn [obind fst snd]. fold (home sup p). fold h. rewrite B4. fold dev.
  destruct (txn_bread s V ∅ L (dev, h) Ht (fm_dev _ _ _ Hm) (not_elem_of_empty _)) as (i & s1 & Hr1 & Hh1 & Hf1 & Ht1 & _).
  { pose proof (iu_data _ _ _ _ Hiu) as [Hd _]. intros [_ Hx]. rewrite B1 in Hx. simpl in Hx. lia. } { rewrite size_empty. lia. }
  simpl in Hr1. rewrite (mbind_Ok _ _ _ _ _ Hr1). pose proof (fbase_tframe _ _ _ _ _ _ HB Hf1) as HB1.
  unfold mbind at 1. rewrite (fb_ip _ _ _ _ _ HB1). cbn [obind fst snd].
  assert (hkey (slog s1) h = (dev, h)) as Ek by (unfold hkey; by rewrite (fb_geo _ _ _ _ _ HB1)).
  set (f := put_dinode (dinode_off (i_inum p)) (i_dip p)).
  destruct (txn_put s1 V ∅ L i h (fun bp => bp <| b_data ::= f |>) f) as (s2 & _ & Hr2 & _ & Hf2 & Ht2); rewrite ?Ek; try done.
  { pose proof (iu_data _ _ _ _ Hiu) as Hd. unfold data_block in *. by rewrite (fb_geo _ _ _ _ _ HB1). }
  { by rewrite (fb_geo _ _ _ _ _ HB1). }
  rewrite Ek in Ht2. exists s2. split; [exact Hr2|]. split; [by etransitivity|exact Ht2].
Qed.

(** The loop. *)
Lemma writei_loop g sup s ip p V L off l :
  let n := Z.of_nat (length l) in
  file_ok g sup s ip p V L -> log_outstanding g = 1 -> 0 <= off -> off + n <= MAXFILE * BSIZE -> room sup L off n ->
  exists tot s' V' A' L', mloop (Z.to_nat (n / BSIZE) + 3) (writei_body ip p l n) (0, off) s = Ok ((tot, off + tot), s') /\
    winv g sup s ip p V L off n l tot s' V' A' L' /\ (tot < n -> full sup (log_dev g) V').
Proof.
  intros n [HB Ht Hm Hw Hsz Hh] Hout Hoff Hmax Hroom.
  destruct (mloop_ok (writei_body ip p l n)
    (fun '(tot, off1) s1 => off1 = off + tot /\ exists V1 A1 L1, winv g sup s ip p V L off n l tot s1 V1 A1 L1)
    (fun '(tot, off1) s1 => off1 = off + tot /\ exists V1 A1 L1, winv g sup s ip p V L off n l tot s1 V1 A1 L1 /\ (tot < n -> full sup (log_dev g) V1))
    (fun '(tot, _) => Z.to_nat (blocks_left off n tot)) (Z.to_nat (n / BSIZE) + 3) (0, off) s) as ([tot off1] & s' & Hr & -> & V' & A' & L' & HI & Hf).
  - intros [tot off1] s1 (-> & V1 & A1 & L1 & HI). destruct (Z.lt_ge_cases tot n) as [Hlt|Hge].
    + destruct (writei_step g sup s ip p V L off n l tot s1 V1 A1 L1 Hout Hoff Hmax eq_refl Hroom HI Hlt) as (r & s2 & V2 & A2 & L2 & Hr & HP).
      exists r, s2. split; [exact Hr|]. destruct HP as [[-> HI2]|(-> & HI2 & Hf)].
      * split; [split; [done|by exists V2, A2, L2]|]. pose proof (blocks_left_next off n tot Hlt). lia.
      * split; [done|]. by exists V2, A2, L2.
    + exists (inr (tot, off + tot)), s1. unfold writei_body. rewrite (proj2 (Z.ltb_ge _ _) Hge). split; [done|]. split; [done|].
      exists V1, A1, L1. split; [done|lia].
  - split; [lia|]. exists V, (addrs p), L. split; try done; [lia|by rewrite set_addrs_id|by apply written_start|apply logged_refl].
  - pose proof (blocks_left_start off n Hoff ltac:(lia)). lia.
  - by exists tot, s', V', A', L'.
Qed.

(** The inode after a write up to [size]. *)
Definition resized p A size : inode := p <| i_dip ::= fun d => d <| d_addrs := A |> <| d_size := size |> |>.

Lemma set_size_ok g sup s ip p A V L sz :
  fbase g sup s ip (set_addrs p A) -> txn s V ∅ L ->
  exists s', (let* p := get_ip ip in if d_size (i_dip p) <? sz then upd_dip ip (fun d => d <| d_size := sz |>) else mret tt) s = Ok (tt, s') /\
    fframe ip s s' /\ fbase g sup s' ip (resized p A (Z.max (d_size (i_dip p)) sz)) /\ txn s' V ∅ L.
Proof.
  intros HB Ht. pose proof HB as [B1 B2 B3 B4]. unfold get_ip. unfold mbind at 1. rewrite B3. cbn [obind fst snd].
  change (d_size (i_dip (set_addrs p A))) with (d_size (i_dip p)). destruct (Z.ltb_spec (d_size (i_dip p)) sz) as [Hlt|Hge].
  - eexists. split; [unfold upd_dip, upd_ip; rewrite B3; reflexivity|]. rewrite Z.max_r by lia. split; [|split].
    + split; [reflexivity|]. intros j Hj. by apply list_lookup_insert_ne.
    + split; try done. simpl. apply list_lookup_insert_eq. by eapply lookup_lt_Some.
    + by apply txn_inodes.
  - exists s. split; [done|]. split; [done|]. split; [|done]. rewrite Z.max_l by lia. 
    replace (resized p A (d_size (i_dip p))) with (set_addrs p A); [done|]. by destruct p as [? ? ? ? ? []].
Qed.

Lemma length_put_dinode inum d data : length (d_addrs d) = 13%nat -> Z.of_nat (length data) = BSIZE ->
  Z.of_nat (length (put_dinode (dinode_off inum) d data)) = BSIZE.
Proof.
  intros Ha Hd. unfold put_dinode, dinode_off. change DINODE_SIZE with 64. pose proof (Z.mod_pos_bound inum IPB ltac:(done)) as Hm.
  change IPB with 16 in *. change BSIZE with 1024 in *. rewrite length_splice; rewrite ?length_dinode_bytes by done; lia.
Qed.

(** The view after writei(): the data, and the inode in its block. *)
Definition inode_view (dev h inum : Z) (d : dinode) V : Z * Z -> list Z :=
  vset V (dev, h) (put_dinode (dinode_off inum) d (V (dev, h))).

Lemma written_mapped g sup h off l V A tot V' A' size :
  written g sup h off l V A tot V' A' -> no_holes (log_dev g) V A size -> 0 <= off <= size -> 0 <= tot -> size <= MAXFILE * BSIZE ->
  off + tot <= MAXFILE * BSIZE -> no_holes (log_dev g) V' A' (Z.max size (off + tot)).
Proof.
  intros Hw Hh Hoff Htot Hs Hmax bn Hbn Hlt. destruct (decide (bn * BSIZE < size)) as [Hin|Hout].
  - assert (0 <= bn < MAXFILE) as Hb by (change MAXFILE with 268 in *; change BSIZE with 1024 in *; lia).
    pose proof (wr_addr _ _ _ _ _ _ _ _ _ _ Hw bn (is_slot_data _ Hb)) as Ha. rewrite !slot_data in Ha by lia.
    rewrite Ha; by apply Hh.
  - assert (off <= bn * BSIZE < off + tot) as Hr by lia. pose proof (wr_mapped _ _ _ _ _ _ _ _ _ _ Hw _ Hr) as H. by rewrite Z.div_mul in H.
Qed.

(** writei() writes a prefix of the bytes, all of them unless the disk is full. *)
Lemma writei_ok g sup s ip p V L off l :
  let n := Z.of_nat (length l) in let dev := log_dev g in let h := home sup p in
  file_ok g sup s ip p V L -> log_outstanding g = 1 -> 0 <= off <= d_size (i_dip p) -> off + n <= MAXFILE * BSIZE -> room sup L off n ->
  exists tot s' V1 A' L',
    let p' := resized p A' (Z.max (d_size (i_dip p)) (off + tot)) in
    writei ip (FromKernel l) off n s = Ok (tot, s') /\ 0 <= tot <= n /\ (tot < n -> full sup dev V1) /\ fframe ip s s' /\
    written g sup h off l V (addrs p) tot V1 A' /\ file_ok g sup s' ip p' (inode_view dev h (i_inum p) (i_dip p') V1) L' /\
    (size L' <= size L + size (map_blocks sup) + Z.to_nat (blocks_left off n 0) + 2)%nat.
Proof.
  intros n dev h HF Hout Hoff Hmax Hroom. pose proof HF as [HB Ht Hm Hw Hsz Hh].
  assert (off + n < 2 ^ 31) as H31 by (change MAXFILE with 268 in Hmax; change BSIZE with 1024 in Hmax; lia).
  destruct (writei_loop g sup s ip p V L off l HF Hout ltac:(lia) Hmax Hroom) as (tot & s1 & V1 & A' & L1 & Hr1 & [I1 I2 I3 I4 I5 I6] & Hfull).
  fold n in Hr1, I1, I6, Hfull. pose proof (logged_size _ _ _ _ _ _ _ _ I6) as Hs1. unfold room in Hroom.
  destruct (set_size_ok g sup s1 ip p A' V1 L1 (off + tot) I3 I4) as (s2 & Hr2 & Hf2 & HB2 & Ht2).
  set (p' := resized p A' (Z.max (d_size (i_dip p)) (off + tot))) in *. pose proof (wr_wf _ _ _ _ _ _ _ _ _ _ I5) as Hw1. pose proof (wr_map _ _ _ _ _ _ _ _ _ _ I5) as Hm1.
  assert (in_use sup g V1 (home sup p')) as Hiu by (apply (fw_use _ _ _ _ _ Hw1 HOME); [done|apply (fw_home _ _ _ _ _ Hw1)]).
  destruct (iupdate_ok g sup s2 ip p' V1 L1 HB2 Hout Hm1 Ht2 Hiu ltac:(lia)) as (s3 & Hr3 & Hf3 & Ht3).
  { change LOGBLOCKS with 30. unfold NBUF in Hroom. lia. }
  exists tot, s3, V1, A', ({[home sup p']} ∪ L1). split; [|split; [done|split; [done|split; [|split; [done|split]]]]].
  - unfold writei. unfold get_ip at 1. unfold mbind at 1. rewrite (fb_ip _ _ _ _ _ HB). cbn [obind fst snd].
    rewrite (u32_small (off + n)) by lia. rewrite (proj2 (Z.ltb_ge (d_size (i_dip p)) off)) by lia. rewrite (proj2 (Z.ltb_ge (off + n) off)) by lia.
    rewrite (proj2 (Z.ltb_ge (MAXFILE * BSIZE) (off + n))) by lia. cbn [orb].
    rewrite (mbind_Ok _ _ _ _ _ Hr1). apply mbind_Ok_inv in Hr2 as (q & sq & Hq & Hr2). rewrite (mbind_Ok _ _ _ _ _ Hq), (mbind_Ok _ _ _ _ _ Hr2), (mbind_Ok _ _ _ _ _ Hr3).
    rewrite i32_small by lia. done.
  - etransitivity; [exact I2|]. etransitivity; [exact Hf2|]. by apply tframe_fframe.
  - pose proof (iu_len _ _ _ _ Hiu) as Hlen. unfold inode_view. change (i_inum p) with (i_inum p'). change h with (home sup p').
    change (home sup p') with (slot (log_dev g) (home sup p') V1 A' HOME) at 1 2. split.
    + exact (fbase_tframe _ _ _ _ _ _ HB2 Hf3).
    + exact Ht3.
    + apply freemap_other; [done|]. apply not_map_key, (iu_map _ _ _ _ Hiu).
    + apply (file_wf_put g sup (home sup p) V1 A' HOME); try done; [apply (fw_home _ _ _ _ _ Hw1)|].
      apply length_put_dinode; [apply (fw_len _ _ _ _ _ Hw1)|exact Hlen].
    + simpl. lia.
    + intros bn Hbn Hlt. pose proof (written_mapped _ _ _ _ _ _ _ _ _ _ _ I5 Hh Hoff ltac:(lia) ltac:(lia) ltac:(lia) bn Hbn Hlt) as Hn.
      pose proof (slot_put g sup (home sup p) V1 A' HOME (put_dinode (dinode_off (i_inum p')) (i_dip p') (V1 (dev, home sup p'))) Hw1 ltac:(done) ltac:(done) (fw_home _ _ _ _ _ Hw1) bn) as Hs.
      rewrite !(slot_data _ _ _ _ bn) in Hs by lia. intros Hz. apply Hn. rewrite <- Hs. exact Hz.
  - pose proof (size_add L1 (home sup p')). lia.
Qed.

(** The bytes of the file are not in the block of the inode. *)
Lemma fbyte_inode g sup h inum d V A x : file_wf sup g V h A -> 0 <= x < MAXFILE * BSIZE -> blk_addr (log_dev g) V A (x / BSIZE) <> 0 ->
  fbyte (log_dev g) (inode_view (log_dev g) h inum d V) A x = fbyte (log_dev g) V A x.
Proof.
  intros Hw Hx Hn. pose proof (block_of_byte x Hx) as Hb. unfold fbyte, inode_view.
  pose proof (slot_put g sup h V A HOME (put_dinode (dinode_off inum) d (V (log_dev g, h))) Hw ltac:(done) ltac:(done) (fw_home _ _ _ _ _ Hw) (x / BSIZE)) as Hs.
  change (slot (log_dev g) h V A HOME) with h in Hs. rewrite !slot_data in Hs by lia. rewrite Hs, vset_ne; [done|]. intros [= Heq].
  pose proof (fw_inj _ _ _ _ _ Hw (x / BSIZE) HOME (is_slot_data _ Hb) ltac:(done)) as Hi. rewrite slot_data in Hi by lia.
  specialize (Hi Hn Heq). unfold HOME in Hi. lia.
Qed.

(** The bytes of the file after writei(). *)
Lemma written_bytes g sup h off l V A tot V1 A' size inum d x :
  written g sup h off l V A tot V1 A' -> no_holes (log_dev g) V A size -> 0 <= off <= size -> 0 <= tot -> size <= MAXFILE * BSIZE ->
  off + tot <= MAXFILE * BSIZE -> 0 <= x < Z.max size (off + tot) ->
  fbyte (log_dev g) (inode_view (log_dev g) h inum d V1) A' x =
    if decide (off <= x < off + tot) then nth (Z.to_nat (x - off)) l 0 else fbyte (log_dev g) V A x.
Proof.
  intros Hw Hh Hoff Htot Hs Hmax Hx.
  assert (x / BSIZE * BSIZE <= x) as Hq by (rewrite Z.mul_comm; by apply Z.mul_div_le). pose proof (Z.div_pos x BSIZE ltac:(lia) ltac:(done)) as Hp.
  rewrite (fbyte_inode g sup); [|apply (wr_wf _ _ _ _ _ _ _ _ _ _ Hw)|lia|eapply written_mapped; try done; lia].
  destruct (decide _) as [Hin|Hout]; [by apply (wr_new _ _ _ _ _ _ _ _ _ _ Hw)|]. apply (wr_old _ _ _ _ _ _ _ _ _ _ Hw); [lia|done|]. apply Hh; lia.
Qed.

(** C2: writei() in a transaction with room for its blocks, at an offset within
    the file, never panics.  It writes the first [tot] of the given bytes, all
    of them unless no block of the disk is free: the file then has these bytes
    at [off], its old bytes elsewhere, the size to match, no hole and no block
    twice; its inode is in its block; every other block in use is as before
    except for the free map; and at most two blocks more than the blocks of the
    range and of the free map have been added to the transaction. *)
Theorem writei_correct g sup s ip p V L off l :
  let n := Z.of_nat (length l) in let dev := log_dev g in
  file_ok g sup s ip p V L -> log_outstanding g = 1 -> 0 <= off <= d_size (i_dip p) -> off + n <= MAXFILE * BSIZE -> room sup L off n ->
  exists tot s' V' p' L', writei ip (FromKernel l) off n s = Ok (tot, s') /\ 0 <= tot <= n /\ (tot < n -> full sup dev V') /\
    fframe ip s s' /\ file_ok g sup s' ip p' V' L' /\
    d_size (i_dip p') = Z.max (d_size (i_dip p)) (off + tot) /\
    (forall x, 0 <= x < d_size (i_dip p') -> fbyte dev V' (addrs p') x =
      if decide (off <= x < off + tot) then nth (Z.to_nat (x - off)) l 0 else fbyte dev V (addrs p) x) /\
    V' (dev, home sup p) = put_dinode (dinode_off (i_inum p)) (i_dip p') (V (dev, home sup p)) /\
    (forall b, 0 < b < sb_size sup -> used sup dev V b = true -> ~ is_map sup b ->
      (forall i, is_slot i -> b <> slot dev (home sup p) V' (addrs p') i) -> V' (dev, b) = V (dev, b)) /\
    (size L' <= size L + size (map_blocks sup) + Z.to_nat (blocks_left off n 0) + 2)%nat.
Proof.
  intros n dev HF Hout Hoff Hmax Hroom. pose proof HF as [HB Ht Hm Hw Hsz Hh].
  destruct (writei_ok g sup s ip p V L off l HF Hout Hoff Hmax Hroom) as (tot & s' & V1 & A' & L' & Hr & Htot & Hfull & Hf & Hwr & HF' & Hsize).
  fold n in Hr, Htot, Hfull, Hsize. fold dev in Hfull, HF'. set (p' := resized p A' _) in *. set (V' := inode_view dev _ _ _ V1) in *.
  pose proof (wr_wf _ _ _ _ _ _ _ _ _ _ Hwr) as Hw1.
  assert (in_use sup g V1 (home sup p)) as Hiu by (apply (fw_use _ _ _ _ _ Hw1 HOME); [done|apply (fw_home _ _ _ _ _ Hw1)]).
  exists tot, s', V', p', L'. split; [done|]. split; [done|]. split; [|split; [done|split; [done|split; [done|split; [|split; [|split; [|done]]]]]]].
  - intros Hlt b Hb. unfold V', inode_view. rewrite used_other; [by apply Hfull| |done]. apply not_map_key, (iu_map _ _ _ _ Hiu).
  - intros x Hx. eapply written_bytes; try done; lia.
  - unfold V', inode_view. rewrite vset_eq. f_equal. apply (wr_frame _ _ _ _ _ _ _ _ _ _ Hwr). right. pose proof (fw_use _ _ _ _ _ Hw HOME ltac:(done) (fw_home _ _ _ _ _ Hw)) as Hu0.
    split; [apply (iu_range _ _ _ _ Hu0)|]. split; [apply (iu_used _ _ _ _ Hu0)|]. split; [apply (iu_map _ _ _ _ Hu0)|].
    intros i Hi Hih Heq. apply Hih. symmetry. apply (fw_inj _ _ _ _ _ Hw1 HOME i ltac:(done) Hi); [apply (fw_home _ _ _ _ _ Hw1)|exact Heq].
  - intros b Hb Hu Hnm Hsl. unfold V', inode_view. rewrite vset_ne; [|intros [=]; by apply (Hsl HOME)].
    apply (wr_frame _ _ _ _ _ _ _ _ _ _ Hwr). right. do 3 (split; [done|]). intros i Hi Hih. simpl.
    pose proof (slot_put g sup (home sup p) V1 A' HOME (put_dinode (dinode_off (i_inum p)) (i_dip p') (V1 (dev, home sup p))) Hw1 ltac:(done) ltac:(done) (fw_home _ _ _ _ _ Hw1) i) as Hs.
    intros Heq. apply (Hsl i Hi). rewrite Heq. symmetry. exact Hs.
Qed.

(** C5: What writei() has written is what readi() returns afterwards, to the last
    byte, also when the disk filled up on the way. *)
Theorem write_read_roundtrip g sup s ip p V L off l :
  let n := Z.of_nat (length l) in
  file_ok g sup s ip p V L -> log_outstanding g = 1 -> 0 <= off <= d_size (i_dip p) -> off + n <= MAXFILE * BSIZE -> room sup L off n ->
  exists tot s', (let* tot := writei ip (FromKernel l) off n in let* r := readi ip ToKernel off tot in mret (tot, r)) s =
      Ok ((tot, (tot, take (Z.to_nat tot) l)), s') /\ 0 <= tot <= n.
Proof.
  intros n HF Hout Hoff Hmax Hroom. pose proof HF as [HB Ht Hm Hw Hsz Hh].
  destruct (writei_ok g sup s ip p V L off l HF Hout Hoff Hmax Hroom) as (tot & s' & V1 & A' & L' & Hr & Htot & _ & _ & Hwr & HF' & Hsize).
  fold n in Hr, Htot, Hsize. set (p' := resized p A' _) in *. set (V' := inode_view _ _ _ _ V1) in *.
  destruct (readi_ok g sup s' ip p' V' L' off tot HF') as (s2 & Hr2 & _); [lia|lia| | |].
  { change MAXFILE with 268 in Hmax. change BSIZE with 1024 in Hmax. lia. } { unfold room in Hroom. lia. }
  change (d_size (i_dip p')) with (Z.max (d_size (i_dip p)) (off + tot)) in Hr2.
  rewrite (proj2 (Z.ltb_ge _ _)) in Hr2 by lia. rewrite Z.min_l in Hr2 by lia.
  exists tot, s2. split; [|done]. rewrite (mbind_Ok _ _ _ _ _ Hr), (mbind_Ok _ _ _ _ _ Hr2). unfold mret. do 4 f_equal.
  apply list_eq. intros i. unfold file_bytes. rewrite list_lookup_fmap. destruct (decide (Z.of_nat i < tot)) as [Hi|Hi].
  - rewrite lookup_seqZ_lt, lookup_take_lt by lia. simpl. unfold V'. change (addrs p') with A'.
    rewrite (written_bytes _ _ _ off l V (addrs p) tot V1 A' (d_size (i_dip p))) by (done || lia). rewrite decide_True by lia.
    rewrite (nth_lookup _ _ 0). replace (Z.to_nat (off + Z.of_nat i - off)) with i by lia.
    destruct (lookup_lt_is_Some_2 l i) as [x ->]; [lia|done].
  - by rewrite lookup_seqZ_ge, lookup_take_ge by lia.
Qed.
End FsWrite.

(** ** Witnesses: a file of ten bytes in block 47, whose inode is in block 33 *)
Definition demo_dip : dinode :=
  {| d_type := T_FILE; d_major := 0; d_minor := 0; d_nlink := 1; d_size := 10; d_addrs := 47 :: repeat 0 12 |}.
Definition demo_ip : inode :=
  {| i_dev := 1; i_inum := 5; i_ref := 1; i_lock := initsleeplock "inode"; i_valid := 1; i_dip := demo_dip |}.
Definition demo_file_fs : fsst unit := demo_fs <| inodes := [demo_ip] |>.
(** A user space without memory. *)
#[local] Instance no_user : FsEnv unit := {| env_copyout _ _ e := (-1, e); env_copyin _ _ e := (-1, [], e) |}.

Lemma demo_slot i : slot 1 33 demo_disk (addrs demo_ip) i = if i =? HOME then 33 else if i <=? 0 then (if i =? 0 then 47 else slot 1 33 demo_disk (addrs demo_ip) i) else 0.
Proof.
  unfold slot. destruct (Z.eqb_spec i HOME); [done|]. destruct (Z.leb_spec i 0).
  - destruct (Z.eqb_spec i 0) as [->|]; [done|]. done.
  - rewrite (proj2 (Z.eqb_neq i IND)) by (unfold IND; lia). unfold blk_addr. destruct (i <? NDIRECT); [|done].
    change (addrs demo_ip) with (47 :: repeat 0 12). destruct (Z.to_nat i) as [|k] eqn:Hk; [lia|]. apply nth_repeat.
Qed.
Lemma demo_slot_used i : is_slot i -> slot 1 33 demo_disk (addrs demo_ip) i <> 0 ->
  i = HOME /\ slot 1 33 demo_disk (addrs demo_ip) i = 33 \/ i = 0 /\ slot 1 33 demo_disk (addrs demo_ip) i = 47.
Proof.
  intros [Hi _] Hn. rewrite demo_slot in Hn |- *. destruct (Z.eqb_spec i HOME); [by left|]. destruct (Z.leb_spec i 0); [|done].
  destruct (Z.eqb_spec i 0); [by right|]. assert (i = IND) as -> by (unfold IND, HOME in *; lia). done.
Qed.
Lemma demo_in_use a : a = 33 \/ a = 47 -> in_use (sb demo_file_fs) (slog demo_file_fs) demo_disk a.
Proof.
  intros [-> | ->]; (split; [split; reflexivity|reflexivity|split; [right; reflexivity|split; [intros H; discriminate H|reflexivity]]
    |intros Hm; apply demo_is_map in Hm; discriminate Hm|reflexivity]).
Qed.
Lemma demo_file_ok : file_ok (slog demo_file_fs) (sb demo_file_fs) demo_file_fs 0 demo_ip demo_disk ∅.
Proof.
  split.
  - by split.
  - exact (txn_demo demo_disk 1 [demo_ip] eq_refl).
  - apply demo_freemap; reflexivity.
  - split; try done.
    + intros i Hi Hn. destruct (demo_slot_used i Hi Hn) as [[_ Hs]|[_ Hs]];
        [exact (eq_ind_r _ (demo_in_use 33 (or_introl eq_refl)) Hs)|exact (eq_ind_r _ (demo_in_use 47 (or_intror eq_refl)) Hs)].
    + intros i j Hi Hj Hn Heq. assert (slot 1 33 demo_disk (addrs demo_ip) i <> 0) as Hn1 by exact Hn.
      assert (slot 1 33 demo_disk (addrs demo_ip) i = slot 1 33 demo_disk (addrs demo_ip) j) as Heq1 by exact Heq. clear Hn Heq.
      assert (slot 1 33 demo_disk (addrs demo_ip) j <> 0) as Hn2 by (by rewrite <- Heq1).
      destruct (demo_slot_used i Hi Hn1) as [[-> H1]|[-> H1]], (demo_slot_used j Hj Hn2) as [[-> H2]|[-> H2]]; congruence.
  - split; [done|]. simpl. change MAXFILE with 268. change BSIZE with 1024. lia.
  - intros bn Hbn Hlt. simpl in Hlt. change BSIZE with 1024 in Hlt. assert (bn = 0) as -> by lia. done.
Qed.
Lemma demo_room : room (sb demo_file_fs) ∅ 8 3.
Proof.
  unfold room. assert (size (map_blocks (sb demo_file_fs)) <= 1)%nat by apply size_list_le.
  rewrite size_empty. change (Z.to_nat (blocks_left 8 3 0)) with 1%nat. unfold NBUF. lia.
Qed.

Lemma writei_correct_witness : exists tot s', writei 0 (FromKernel [1; 2; 3]) 8 3 demo_file_fs = Ok (tot, s') /\ 0 <= tot <= 3.
Proof.
  destruct (writei_correct (slog demo_file_fs) (sb demo_file_fs) demo_file_fs 0 demo_ip demo_disk ∅ 8 [1; 2; 3] demo_file_ok eq_refl) as (tot & s' & _ & _ & _ & Hr & Ht & _).
  - simpl. lia.
  - simpl. change MAXFILE with 268. change BSIZE with 1024. lia.
  - exact demo_room.
  - exists tot, s'. exact (conj Hr Ht).
Defined.
Lemma write_read_roundtrip_witness : exists tot s',
  (let* tot := writei 0 (FromKernel [1; 2; 3]) 8 3 in let* r := readi 0 ToKernel 8 tot in mret (tot, r)) demo_file_fs =
    Ok ((tot, (tot, take (Z.to_nat tot) [1; 2; 3])), s').
Proof.
  destruct (write_read_roundtrip (slog demo_file_fs) (sb demo_file_fs) demo_file_fs 0 demo_ip demo_disk ∅ 8 [1; 2; 3] demo_file_ok eq_refl) as (tot & s' & Hr & _).
  - simpl. lia.
  - simpl. change MAXFILE with 268. change BSIZE with 1024. lia.
  - exact demo_room.
  - exists tot, s'. exact Hr.
Defined.
