(* ===== verification/Pipe.v ===== *)
(** * Pipes (kernel/pipe.c)

    struct pipe with pipeclose(), pipewrite() and piperead(); pipealloc() is in
    [File], with the file table.  The pipe lives in a page of the allocator, at
    an address.  A process that would sleep ends in [Spin]. *)
From stdpp Require Import base list strings gmap.
From Stdlib Require Import ZArith Lia.
From S2P Require Import Prelude Spinlock Kalloc FsState Fs.

Definition PIPESIZE : Z := 512.

Record pipe : Type := mkPipe {
  p_lock : spinlock; p_data : list Z; p_nread : Z; p_nwrite : Z; p_readopen : Z; p_writeopen : Z
}.
#[global] Instance eta_pipe : Eta pipe := fun p =>
  mkPipe (p_lock p) (p_data p) (p_nread p) (p_nwrite p) (p_readopen p) (p_writeopen p).

(** The memory of pipes, the page allocator, and killed(myproc()). *)
Class PipeEnv (E : Type) := {
  env_pipe : Z -> E -> option pipe;
  env_set_pipe : Z -> pipe -> E -> E;
  env_kalloc : E -> Z * E;
  env_kfree : Z -> E -> outcome E;
  env_killed : E -> bool
}.

(** ** The ring of bytes *)

(** pi->data[pi->nwrite++ % PIPESIZE] = ch *)
Definition pipe_put (ch : Z) (p : pipe) : pipe :=
  p <| p_data ::= <[Z.to_nat (p_nwrite p mod PIPESIZE) := ch]> |> <| p_nwrite ::= fun n => u32 (n + 1) |>.
(** pi->data[pi->nread % PIPESIZE] *)
Definition pipe_peek (p : pipe) : Z := nth (Z.to_nat (p_nread p mod PIPESIZE)) (p_data p) 0.
Definition pipe_take (p : pipe) : pipe := p <| p_nread ::= fun n => u32 (n + 1) |>.
Definition pipe_empty (p : pipe) : bool := p_nread p =? p_nwrite p.
Definition pipe_full (p : pipe) : bool := p_nwrite p =? u32 (p_nread p + PIPESIZE).

Section Pipe.
Context {E : Type} `{FsEnv E} `{PipeEnv E}.

Definition get_pipe (pi : Z) : M (fsst E) pipe := fun s =>
  match env_pipe pi (fs_env s) with Some p => Ok (p, s) | None => UB end.
Definition upd_pipe (pi : Z) (f : pipe -> pipe) : M (fsst E) unit := fun s =>
  match env_pipe pi (fs_env s) with
  | Some p => Ok (tt, s <| fs_env ::= env_set_pipe pi (f p) |>)
  | None => UB
  end.
Definition lock_pipe (pi : Z) (op : nat -> cpu -> spinlock -> outcome (cpu * spinlock)) : M (fsst E) unit :=
  let* p := get_pipe pi in
  let* r := (fun s => obind (op (fs_hart s) (fs_cpu s) (p_lock p)) (fun r => Ok (r, s))) in
  mmodify (fun s => s <| fs_cpu := fst r |>) ;;;
  upd_pipe pi (fun p => p <| p_lock := snd r |>).

Definition cur_killed : M (fsst E) bool := mreads (fun s => env_killed (fs_env s)).
Definition page_alloc : M (fsst E) Z := fun s =>
  let r := env_kalloc (fs_env s) in Ok (fst r, s <| fs_env := snd r |>).
Definition page_free (pa : Z) : M (fsst E) unit := fun s =>
  obind (env_kfree pa (fs_env s)) (fun e => Ok (tt, s <| fs_env := e |>)).

(** wakeup() changes nothing here. *)
Definition pipeclose (pi : Z) (writable : Z) : M (fsst E) unit :=
  lock_pipe pi acquire ;;;
  (if negb (writable =? 0) then upd_pipe pi (fun p => p <| p_writeopen := 0 |>)
   else upd_pipe pi (fun p => p <| p_readopen := 0 |>)) ;;;
  let* p := get_pipe pi in
  if (p_readopen p =? 0) && (p_writeopen p =? 0) then
    lock_pipe pi release ;;;
    page_free pi
  else lock_pipe pi release.

Definition pipewrite (pi addr n : Z) : M (fsst E) Z :=
  lock_pipe pi acquire ;;;
  let* r := mloop (Z.to_nat n + 1) (fun i =>
    if i <? n then
      let* p := get_pipe pi in
      let* k := cur_killed in
      if (p_readopen p =? 0) || k then
        lock_pipe pi release ;;;
        mret (inr (inr (-1)))
      else if pipe_full p then mspin
      else
        let* r := copy_from (FromUser addr) i 1 in
        if fst r =? -1 then mret (inr (inl (if i =? 0 then -1 else i)))
        else
          upd_pipe pi (pipe_put (nth 0 (snd r) 0)) ;;;
          mret (inl (i + 1))
    else mret (inr (inl i))) 0 in
  match r with
  | inr r => mret r
  | inl i =>
      lock_pipe pi release ;;;
      mret i
  end.

Definition piperead (pi addr n : Z) : M (fsst E) Z :=
  lock_pipe pi acquire ;;;
  let* p := get_pipe pi in
  if pipe_empty p && negb (p_writeopen p =? 0) then
    let* k := cur_killed in
    if k then
      lock_pipe pi release ;;;
      mret (-1)
    else mspin
  else
    let* i := mloop (Z.to_nat n + 1) (fun i =>
      if i <? n then
        let* p := get_pipe pi in
        if pipe_empty p then mret (inr i)
        else
          let* r := copy_to (ToUser (u64 (addr + i))) [pipe_peek p] in
          if r =? -1 then mret (inr (if i =? 0 then -1 else i))
          else
            upd_pipe pi pipe_take ;;;
            mret (inl (i + 1))
      else mret (inr i)) 0 in
    lock_pipe pi release ;;;
    mret i.
End Pipe.
