(* ===== verification/PipeSpec.v ===== *)
(** * A pipe is a bounded queue

    The ring of kernel/pipe.c with its 32-bit counters implements a queue of at
    most PIPESIZE bytes; pipewrite() and piperead() move bytes between the user
    memory and the queue, and what readers get is what writers put, in order. *)
From stdpp Require Import base list strings gmap.
From Stdlib Require Import ZArith Lia.
From S2P Require Import Prelude Spinlock Kalloc FsState Fs Pipe.

(** ** The queue a pipe holds *)
Definition pipe_count (p : pipe) : Z := u32 (p_nwrite p - p_nread p).
Definition pipe_at (p : pipe) (j : nat) : Z := nth (Z.to_nat ((p_nread p + Z.of_nat j) mod PIPESIZE)) (p_data p) 0.
Definition queue (p : pipe) : list Z := map (pipe_at p) (seq 0 (Z.to_nat (pipe_count p))).

Record pipe_ok (p : pipe) : Prop := {
  po_data : Z.of_nat (length (p_data p)) = PIPESIZE;
  po_nread : 0 <= p_nread p < 2 ^ 32;
  po_nwrite : 0 <= p_nwrite p < 2 ^ 32;
  po_count : pipe_count p <= PIPESIZE
}.

Lemma u32_mod_pipe x : u32 x mod PIPESIZE = x mod PIPESIZE.
Proof.
  unfold u32, PIPESIZE. change (2 ^ 32) with (512 * 8388608). rewrite Z.rem_mul_r by lia.
  rewrite Z.mul_comm, Z_mod_plus_full, Zmod_mod. done.
Qed.
Lemma u32_sub_l x y : u32 (u32 x - y) = u32 (x - y).
Proof. unfold u32. by rewrite Zminus_mod_idemp_l. Qed.
Lemma u32_sub_r x y : u32 (x - u32 y) = u32 (x - y).
Proof. unfold u32. by rewrite Zminus_mod_idemp_r. Qed.

Lemma length_queue p : pipe_ok p -> Z.of_nat (length (queue p)) = pipe_count p.
Proof. intros Hp. unfold queue. rewrite length_map, length_seq. pose proof (u32_range (p_nwrite p - p_nread p)). unfold pipe_count. lia. Qed.

Lemma pipe_empty_spec p : pipe_ok p -> pipe_empty p = true <-> queue p = [].
Proof.
  intros [_ Hr Hw _]. unfold pipe_empty. rewrite Z.eqb_eq. unfold queue, pipe_count. split.
  - intros ->. rewrite Z.sub_diag. done.
  - intros Hq. apply (f_equal length) in Hq. rewrite length_map, length_seq in Hq. simpl in Hq.
    pose proof (u32_range (p_nwrite p - p_nread p)). assert (u32 (p_nwrite p - p_nread p) = 0) as H0 by lia.
    unfold u32 in H0. apply Z.mod_divide in H0 as [q H0]; [|lia]. nia.
Qed.
Lemma pipe_full_spec p : pipe_ok p -> pipe_full p = true <-> pipe_count p = PIPESIZE.
Proof.
  intros [_ Hr Hw _]. unfold pipe_full, pipe_count. rewrite Z.eqb_eq. split.
  - intros ->. rewrite u32_sub_l. replace (p_nread p + PIPESIZE - p_nread p) with PIPESIZE by lia. done.
  - intros H. rewrite <- H, Z.add_comm, u32_add_l. replace (p_nwrite p - p_nread p + p_nread p) with (p_nwrite p) by lia.
    unfold u32. by rewrite Z.mod_small.
Qed.

(** Writing a byte appends it. *)
Lemma pipe_put_ok p ch :
  pipe_ok p -> pipe_count p < PIPESIZE -> pipe_ok (pipe_put ch p) /\ queue (pipe_put ch p) = queue p ++ [ch].
Proof.
  intros [Hd Hr Hw Hc] Hroom. pose proof (u32_range (p_nwrite p - p_nread p)) as H0. fold (pipe_count p) in H0.
  change PIPESIZE with 512 in *.
  assert (pipe_count (pipe_put ch p) = pipe_count p + 1) as Hcnt.
  { unfold pipe_count, pipe_put. simpl. rewrite u32_sub_l.
    replace (p_nwrite p + 1 - p_nread p) with (p_nwrite p - p_nread p + 1) by lia. rewrite <- u32_add_l.
    unfold u32 at 1. apply Z.mod_small. fold (pipe_count p). lia. }
  assert (forall j, (p_nread p + j) mod 512 = p_nwrite p mod 512 -> 0 <= j <= 511 -> j = pipe_count p) as Hslot.
  { intros j Hj Hjr. assert ((p_nread p + pipe_count p) mod 512 = p_nwrite p mod 512) as Hn.
    { unfold pipe_count. rewrite <- (u32_mod_pipe (p_nread p + _)), Z.add_comm, u32_add_l.
      replace (p_nwrite p - p_nread p + p_nread p) with (p_nwrite p) by lia. apply u32_mod_pipe. }
    rewrite <- Hn in Hj. clear Hn Hcnt Hd. Z.div_mod_to_equations. lia. }
  split.
  - split; [|done|apply u32_range|rewrite Hcnt; change PIPESIZE with 512; lia].
    unfold pipe_put. simpl. by rewrite length_insert.
  - unfold queue. rewrite Hcnt. replace (Z.to_nat (pipe_count p + 1)) with (S (Z.to_nat (pipe_count p))) by lia.
    rewrite seq_S, map_app. simpl. f_equal.
    + apply map_ext_in. intros j Hj. apply in_seq in Hj. unfold pipe_at, pipe_put. simpl. change PIPESIZE with 512.
      pose proof (Z.mod_pos_bound (p_nwrite p) 512 ltac:(lia)). pose proof (Z.mod_pos_bound (p_nread p + Z.of_nat j) 512 ltac:(lia)).
      rewrite !nth_lookup, list_lookup_insert_ne; [done|]. intros Heq. apply Z2Nat.inj in Heq; [|lia..].
      symmetry in Heq. apply Hslot in Heq; lia.
    + f_equal. unfold pipe_at, pipe_put. simpl. change PIPESIZE with 512. rewrite Z2Nat.id by lia.
      assert ((p_nread p + pipe_count p) mod 512 = p_nwrite p mod 512) as ->.
      { unfold pipe_count. rewrite <- (u32_mod_pipe (p_nread p + _)), Z.add_comm, u32_add_l.
        replace (p_nwrite p - p_nread p + p_nread p) with (p_nwrite p) by lia. apply u32_mod_pipe. }
      rewrite nth_lookup, list_lookup_insert_eq; [done|]. pose proof (Z.mod_pos_bound (p_nwrite p) 512). lia.
Qed.

(** Reading takes the oldest byte. *)
Lemma pipe_take_ok p :
  pipe_ok p -> pipe_empty p = false -> pipe_ok (pipe_take p) /\ queue p = pipe_peek p :: queue (pipe_take p).
Proof.
  intros Hp He. assert (0 < pipe_count p) as Hpos.
  { pose proof (length_queue p Hp) as Hl. destruct (queue p) as [|x q] eqn:Eq; [|simpl in Hl; lia].
    apply pipe_empty_spec in Eq; [congruence|done]. }
  destruct Hp as [Hd Hr Hw Hc]. pose proof (u32_range (p_nwrite p - p_nread p)) as H0. fold (pipe_count p) in H0.
  change PIPESIZE with 512 in *.
  assert (pipe_count (pipe_take p) = pipe_count p - 1) as Hcnt.
  { unfold pipe_count at 1, pipe_take. simpl. rewrite u32_sub_r.
    replace (p_nwrite p - (p_nread p + 1)) with (p_nwrite p - p_nread p - 1) by lia. rewrite <- u32_sub_l.
    unfold u32 at 1. apply Z.mod_small. fold (pipe_count p). lia. }
  split.
  - split; [done|apply u32_range|done|rewrite Hcnt; change PIPESIZE with 512; lia].
  - unfold queue. rewrite Hcnt. replace (Z.to_nat (pipe_count p)) with (S (Z.to_nat (pipe_count p - 1))) by lia.
    cbn [seq map]. f_equal; [unfold pipe_at, pipe_peek; by rewrite Z.add_0_r|].
    rewrite <- seq_shift, map_map. apply map_ext. intros j. unfold pipe_at, pipe_take. simpl.
    rewrite <- (u32_mod_pipe (u32 (p_nread p + 1) + _)), u32_add_l, u32_mod_pipe. do 3 f_equal. lia.
Qed.

(** ** The rest of the kernel as pipes see it *)

(** [umem] is what the process can read at a user address, [uwr] whether it can
    write there; copies and pipes do not disturb each other. *)
Class PipeLaws (E : Type) `{FsEnv E} `{PipeEnv E} := {
  umem : E -> Z -> option Z;
  uwr : E -> Z -> bool;
  law_get_set e pi p : env_pipe pi (env_set_pipe pi p e) = Some p;
  law_set e pi p : (forall a, umem (env_set_pipe pi p e) a = umem e a) /\ (forall a, uwr (env_set_pipe pi p e) a = uwr e a) /\
    env_killed (env_set_pipe pi p e) = env_killed e;
  law_copyin e a b : umem e a = Some b ->
    exists e', env_copyin a 1 e = (0, [b], e') /\ (forall x, umem e' x = umem e x) /\ (forall x, uwr e' x = uwr e x) /\
      (forall pi, env_pipe pi e' = env_pipe pi e) /\ env_killed e' = env_killed e;
  law_copyout e a b : uwr e a = true ->
    exists e', env_copyout a [b] e = (0, e') /\ (forall x, umem e' x = if x =? a then Some b else umem e x) /\
      (forall x, uwr e' x = uwr e x) /\ (forall pi, env_pipe pi e' = env_pipe pi e) /\ env_killed e' = env_killed e
}.

Section PipeSpec.
Context {E : Type} {EF : FsEnv E} {EP : PipeEnv E} {EL : PipeLaws E}.
Implicit Types (s : fsst E) (p : pipe).

(** [s'] is [s] with another environment: the pipe [pi] is [p']. *)
Record pipe_frame s s' (pi : Z) p' : Prop := {
  pf_rest : s' = s <| fs_env := fs_env s' |>;
  pf_pipe : env_pipe pi (fs_env s') = Some p';
  pf_umem a : umem (fs_env s') a = umem (fs_env s) a;
  pf_uwr a : uwr (fs_env s') a = uwr (fs_env s) a;
  pf_killed : env_killed (fs_env s') = env_killed (fs_env s)
}.

Lemma pf_refl s pi p : env_pipe pi (fs_env s) = Some p -> pipe_frame s s pi p.
Proof. intros Hp. split; try done. by destruct s. Qed.
Lemma get_pipe_ok s pi p : env_pipe pi (fs_env s) = Some p -> get_pipe pi s = Ok (p, s).
Proof. intros Hp. unfold get_pipe. by rewrite Hp. Qed.
Lemma upd_pipe_ok s0 s pi p f :
  pipe_frame s0 s pi p -> exists s', upd_pipe pi f s = Ok (tt, s') /\ pipe_frame s0 s' pi (f p).
Proof.
  intros [F1 F2 F3 F4 F5]. unfold upd_pipe. rewrite F2. eexists. split; [reflexivity|].
  destruct (law_set (fs_env s) pi (f p)) as (L1 & L2 & L3). split; simpl.
  - rewrite F1. done.
  - apply law_get_set.
  - intros a. by rewrite L1.
  - intros a. by rewrite L2.
  - by rewrite L3.
Qed.

Lemma lock_pipe_ok s pi p op c l :
  env_pipe pi (fs_env s) = Some p -> op (fs_hart s) (fs_cpu s) (p_lock p) = Ok (c, l) ->
  exists s', lock_pipe pi op s = Ok (tt, s') /\ pipe_frame (s <| fs_cpu := c |>) s' pi (p <| p_lock := l |>).
Proof.
  intros Hp Hop. unfold lock_pipe. rewrite (mbind_Ok _ _ _ _ _ (get_pipe_ok _ _ _ Hp)).
  unfold mbind at 1. rewrite Hop. cbn [obind fst snd]. rewrite mbind_modify.
  apply (upd_pipe_ok (s <| fs_cpu := c |>) (s <| fs_cpu := c |>) pi p). by apply pf_refl.
Qed.

(** acquire() ... release() around the body of an operation on the pipe. *)
Lemma pipe_cycle s pi p :
  env_pipe pi (fs_env s) = Some p -> lk_free (p_lock p) -> cpu_wf (fs_cpu s) ->
  exists s1 c1 l1, lock_pipe pi acquire s = Ok (tt, s1) /\ pipe_frame (s <| fs_cpu := c1 |>) s1 pi (p <| p_lock := l1 |>) /\
    forall s2 p2, s2 = s <| fs_cpu := c1 |> <| fs_env := fs_env s2 |> -> env_pipe pi (fs_env s2) = Some p2 -> p_lock p2 = l1 ->
      exists s3, lock_pipe pi release s2 = Ok (tt, s3) /\
        pipe_frame (s2 <| fs_cpu := lockcycle (fs_cpu s) |>) s3 pi (p2 <| p_lock := p_lock p |>).
Proof.
  intros Hp Hl Hc. pose proof (acquire_release (fs_hart s) (fs_cpu s) (p_lock p) Hl Hc) as Har.
  rewrite acquire_free in Har by done. cbn [obind fst snd] in Har.
  destruct (lock_pipe_ok s pi p acquire _ _ Hp (acquire_free (fs_hart s) (fs_cpu s) (p_lock p) Hl)) as (s1 & H1 & F1).
  eexists s1, _, _. split; [done|]. split; [exact F1|]. intros s2 p2 E2 Hp2 Hl2.
  apply (lock_pipe_ok s2 pi p2 release); [done|]. rewrite Hl2, E2. exact Har.
Qed.

(** One byte of pipewrite(). *)
Lemma copyin_byte s0 s pi p addr i b :
  pipe_frame s0 s pi p -> umem (fs_env s) (u64 (addr + i)) = Some b ->
  exists s', copy_from (FromUser addr) i 1 s = Ok ((0, [b]), s') /\ pipe_frame s0 s' pi p.
Proof.
  intros [F1 F2 F3 F4 F5] Hb. unfold copy_from.
  destruct (law_copyin (fs_env s) _ b Hb) as (e' & -> & L1 & L2 & L3 & L4). eexists. split; [reflexivity|].
  split; simpl.
  - rewrite F1. done.
  - by rewrite L3.
  - intros a. by rewrite L1.
  - intros a. by rewrite L2.
  - by rewrite L4.
Qed.

Lemma pipewrite_loop pi addr n s0 : forall bs i m s p,
  pipe_frame s0 s pi p -> pipe_ok p -> p_readopen p <> 0 -> env_killed (fs_env s0) = false ->
  n = i + Z.of_nat (length bs) -> pipe_count p + Z.of_nat (length bs) <= PIPESIZE -> (length bs < m)%nat ->
  (forall j b, bs !! j = Some b -> umem (fs_env s0) (u64 (addr + (i + Z.of_nat j))) = Some b) ->
  exists s' p', mloop m (fun i : Z =>
    if i <? n then
      let* p := get_pipe pi in
      let* k := cur_killed in
      if (p_readopen p =? 0) || k then
        lock_pipe pi release ;;;
        mret (inr (inr (-1)))
      else if pipe_full p then mspin
      else
        let* r := copy_from (FromUser addr) i 1 in
        if fst r =? -1 then mret (inr (inl (if i =? 0 then -1 else i)))
        else
          upd_pipe pi (pipe_put (nth 0 (snd r) 0)) ;;;
          mret (inl (i + 1))
    else mret (inr (inl i))) i s = Ok (inl n, s') /\
    pipe_frame s0 s' pi p' /\ pipe_ok p' /\ queue p' = queue p ++ bs /\ p_lock p' = p_lock p /\
    p_readopen p' = p_readopen p /\ p_writeopen p' = p_writeopen p.
Proof.
  induction bs as [|b bs IH]; intros i m s p Hf Hp Hro Hkill Hn Hroom Hm Hmem; (destruct m as [|m]; [simpl in Hm; lia|]).
  - exists s, p. split; [|by rewrite app_nil_r]. apply mloop_stop. simpl in Hn. rewrite Z.add_0_r in Hn. subst n.
    by rewrite Z.ltb_irrefl.
  - simpl in Hn, Hroom, Hm. assert ((i <? n) = true) as Hi by (apply Z.ltb_lt; lia).
    destruct (copyin_byte s0 s pi p addr i b Hf) as (s1 & Hc1 & F1).
    { rewrite (pf_umem _ _ _ _ Hf). specialize (Hmem O b eq_refl). by rewrite Z.add_0_r in Hmem. }
    destruct (upd_pipe_ok s0 s1 pi p (pipe_put b) F1) as (s2 & Hu2 & F2).
    destruct (pipe_put_ok p b Hp ltac:(lia)) as [Hp2 Hq2].
    assert (pipe_full p = false) as Hfull.
    { destruct (pipe_full p) eqn:Ef; [|done]. apply pipe_full_spec in Ef; [lia|done]. }
    destruct (IH (i + 1) m s2 (pipe_put b p) F2 Hp2 Hro Hkill) as (s' & p' & Hrun & Hf' & Hp' & Hq' & Hrest).
    + lia.
    + rewrite <- (length_queue _ Hp2), Hq2, length_app. simpl. pose proof (length_queue p Hp). lia.
    + lia.
    + intros j c Hj. specialize (Hmem (S j) c Hj). rewrite <- Hmem. do 2 f_equal. lia.
    + exists s', p'. split; [|rewrite Hq', Hq2, <- app_assoc; done].
      erewrite mloop_next; [exact Hrun|]. rewrite Hi, (mbind_Ok _ _ _ _ _ (get_pipe_ok _ _ _ (pf_pipe _ _ _ _ Hf))).
      unfold cur_killed. rewrite mbind_reads, (pf_killed _ _ _ _ Hf), Hkill, (proj2 (Z.eqb_neq _ _)) by done. cbn [orb].
      rewrite Hfull, (mbind_Ok _ _ _ _ _ Hc1). cbn [fst snd nth]. change (0 =? -1) with false. cbv iota.
      by rewrite (mbind_Ok _ _ _ _ _ Hu2).
Qed.

(** pipewrite() of bytes that fit appends them to the queue. *)
Theorem pipewrite_correct s pi p addr bs :
  let n := Z.of_nat (length bs) in
  env_pipe pi (fs_env s) = Some p -> pipe_ok p -> lk_free (p_lock p) -> cpu_wf (fs_cpu s) ->
  p_readopen p <> 0 -> env_killed (fs_env s) = false -> pipe_count p + n <= PIPESIZE ->
  (forall j b, bs !! j = Some b -> umem (fs_env s) (u64 (addr + Z.of_nat j)) = Some b) ->
  exists s' p', pipewrite pi addr n s = Ok (n, s') /\ env_pipe pi (fs_env s') = Some p' /\ pipe_ok p' /\
    queue p' = queue p ++ bs /\ p_lock p' = p_lock p /\ p_readopen p' = p_readopen p /\ p_writeopen p' = p_writeopen p /\
    s' = s <| fs_cpu := lockcycle (fs_cpu s) |> <| fs_env := fs_env s' |> /\
    (forall a, umem (fs_env s') a = umem (fs_env s) a).
Proof.
  intros n Hpipe Hp Hl Hc Hro Hkill Hroom Hmem.
  destruct (pipe_cycle s pi p Hpipe Hl Hc) as (s1 & c1 & l1 & Hacq & F1 & Hrel).
  destruct (pipewrite_loop pi addr n (s <| fs_cpu := c1 |>) bs 0 (Z.to_nat n + 1) s1 (p <| p_lock := l1 |>) F1)
    as (s2 & p2 & Hrun & F2 & Hp2 & Hq2 & Hl2 & Hr2 & Hw2); try done.
  - by destruct Hp.
  - unfold n. lia.
  - destruct (Hrel s2 p2) as (s3 & Hr3 & F3); [apply (pf_rest _ _ _ _ F2)|apply (pf_pipe _ _ _ _ F2)|done|].
    unfold pipewrite. rewrite (mbind_Ok _ _ _ _ _ Hacq), (mbind_Ok _ _ _ _ _ Hrun), (mbind_Ok _ _ _ _ _ Hr3).
    exists s3, (p2 <| p_lock := p_lock p |>). split; [done|]. split; [apply (pf_pipe _ _ _ _ F3)|].
    split; [by destruct Hp2|]. split; [exact Hq2|]. split; [done|]. split; [done|]. split; [done|]. split.
    + rewrite (pf_rest _ _ _ _ F3), (pf_rest _ _ _ _ F2). done.
    + intros a. rewrite (pf_umem _ _ _ _ F3). simpl. by rewrite (pf_umem _ _ _ _ F2).
Qed.

(** ** piperead() *)
Lemma u64_inj_small a i j : 0 <= i < 2 ^ 64 -> 0 <= j < 2 ^ 64 -> u64 (a + i) = u64 (a + j) -> i = j.
Proof.
  intros Hi Hj Heq. unfold u64 in Heq. change (2 ^ 64) with 18446744073709551616 in *. Z.div_mod_to_equations. lia.
Qed.

Record read_frame s s' (pi : Z) p' (mm : Z -> option Z) : Prop := {
  rf_rest : s' = s <| fs_env := fs_env s' |>;
  rf_pipe : env_pipe pi (fs_env s') = Some p';
  rf_umem a : umem (fs_env s') a = mm a;
  rf_uwr a : uwr (fs_env s') a = uwr (fs_env s) a
}.

Lemma copyout_byte s0 s pi p mm a b :
  read_frame s0 s pi p mm -> uwr (fs_env s0) a = true ->
  exists s', copy_to (ToUser a) [b] s = Ok (0, s') /\ read_frame s0 s' pi p (fun x => if x =? a then Some b else mm x).
Proof.
  intros [F1 F2 F3 F4] Hw. rewrite <- F4 in Hw. unfold copy_to.
  destruct (law_copyout (fs_env s) a b Hw) as (e' & -> & L1 & L2 & L3 & L4). eexists. split; [reflexivity|]. split; simpl.
  - rewrite F1. done.
  - by rewrite L3.
  - intros x. by rewrite L1, F3.
  - intros x. by rewrite L2.
Qed.
Lemma upd_pipe_read s0 s pi p mm f :
  read_frame s0 s pi p mm -> exists s', upd_pipe pi f s = Ok (tt, s') /\ read_frame s0 s' pi (f p) mm.
Proof.
  intros [F1 F2 F3 F4]. unfold upd_pipe. rewrite F2. eexists. split; [reflexivity|].
  destruct (law_set (fs_env s) pi (f p)) as (L1 & L2 & L3). split; simpl.
  - rewrite F1. done.
  - apply law_get_set.
  - intros a. by rewrite L1.
  - intros a. by rewrite L2.
Qed.

(** The memory after [bs] was stored from position [i] of the buffer on. *)
Fixpoint stored (addr i : Z) (bs : list Z) (mm : Z -> option Z) : Z -> option Z :=
  match bs with
  | [] => mm
  | b :: bs => stored addr (i + 1) bs (fun x => if x =? u64 (addr + i) then Some b else mm x)
  end.

Lemma stored_other addr bs : forall i mm x,
  (forall j, (j < length bs)%nat -> x <> u64 (addr + (i + Z.of_nat j))) -> stored addr i bs mm x = mm x.
Proof.
  induction bs as [|b bs IH]; intros i mm x Hx; [done|]. cbn [stored]. rewrite IH.
  - specialize (Hx O ltac:(simpl; lia)). rewrite Z.add_0_r in Hx. by rewrite (proj2 (Z.eqb_neq _ _)).
  - intros j Hj. replace (i + 1 + Z.of_nat j) with (i + Z.of_nat (S j)) by lia. apply Hx. simpl. lia.
Qed.
Lemma stored_at addr bs : forall i mm j b,
  0 <= i -> i + Z.of_nat (length bs) < 2 ^ 64 -> bs !! j = Some b -> stored addr i bs mm (u64 (addr + (i + Z.of_nat j))) = Some b.
Proof.
  induction bs as [|c bs IH]; intros i mm j b Hi Hlen Hj; [done|]. cbn [stored]. simpl in Hlen. destruct j as [|j].
  - injection Hj as ->. rewrite stored_other.
    + by rewrite Z.add_0_r, Z.eqb_refl.
    + intros j Hj Heq. apply u64_inj_small in Heq; lia.
  - replace (i + Z.of_nat (S j)) with (i + 1 + Z.of_nat j) by lia. apply IH; [lia|lia|done].
Qed.

Lemma piperead_loop pi addr n s0 : forall bs i m s p mm,
  read_frame s0 s pi p mm -> pipe_ok p -> bs = take (Z.to_nat (n - i)) (queue p) -> i <= n -> (length bs < m)%nat ->
  (forall j, (j < length bs)%nat -> uwr (fs_env s0) (u64 (addr + (i + Z.of_nat j))) = true) ->
  exists s' p', mloop m (fun i : Z =>
      if i <? n then
        let* p := get_pipe pi in
        if pipe_empty p then mret (inr i)
        else
          let* r := copy_to (ToUser (u64 (addr + i))) [pipe_peek p] in
          if r =? -1 then mret (inr (if i =? 0 then -1 else i))
          else
            upd_pipe pi pipe_take ;;;
            mret (inl (i + 1))
      else mret (inr i)) i s = Ok (i + Z.of_nat (length bs), s') /\
    read_frame s0 s' pi p' (stored addr i bs mm) /\ pipe_ok p' /\ queue p = bs ++ queue p' /\ p_lock p' = p_lock p /\
    p_readopen p' = p_readopen p /\ p_writeopen p' = p_writeopen p.
Proof.
  induction bs as [|b bs IH]; intros i m s p mm Hf Hp Hbs Hin Hm Hw; (destruct m as [|m]; [simpl in Hm; lia|]).
  - exists s, p. split; [|done]. apply mloop_stop. simpl. rewrite Z.add_0_r. destruct (Z.ltb_spec i n) as [Hlt|]; [|done].
    rewrite (mbind_Ok _ _ _ _ _ (get_pipe_ok _ _ _ (rf_pipe _ _ _ _ _ Hf))).
    assert (pipe_empty p = true) as ->; [|done]. apply pipe_empty_spec; [done|].
    destruct (queue p) as [|x q]; [done|]. replace (Z.to_nat (n - i)) with (S (Z.to_nat (n - i - 1))) in Hbs by lia. done.
  - assert (i < n) as Hlt by (destruct (Z.eq_dec i n) as [->|]; [rewrite Z.sub_diag in Hbs; done|lia]).
    assert (pipe_empty p = false) as He.
    { destruct (pipe_empty p) eqn:He; [|done]. apply pipe_empty_spec in He; [|done]. by rewrite He, take_nil in Hbs. }
    destruct (pipe_take_ok p Hp He) as [Hp2 Hq2]. rewrite Hq2 in Hbs.
    replace (Z.to_nat (n - i)) with (S (Z.to_nat (n - (i + 1)))) in Hbs by lia. cbn [take] in Hbs. injection Hbs as -> Hbs.
    destruct (copyout_byte s0 s pi p mm (u64 (addr + i)) (pipe_peek p) Hf) as (s1 & Hc1 & F1).
    { specialize (Hw O ltac:(simpl; lia)). by rewrite Z.add_0_r in Hw. }
    destruct (upd_pipe_read s0 s1 pi p _ pipe_take F1) as (s2 & Hu2 & F2).
    destruct (IH (i + 1) m s2 (pipe_take p) _ F2 Hp2 Hbs ltac:(lia) ltac:(simpl in Hm; lia)) as (s' & p' & Hrun & Hf' & Hp' & Hq' & Hrest).
    { intros j Hj. replace (i + 1 + Z.of_nat j) with (i + Z.of_nat (S j)) by lia. apply Hw. simpl. lia. }
    exists s', p'. split; [|split; [exact Hf'|split; [done|split; [by rewrite Hq2, Hq'|done]]]].
    replace (i + Z.of_nat (length (pipe_peek p :: bs))) with (i + 1 + Z.of_nat (length bs)) by (simpl; lia).
    erewrite mloop_next; [exact Hrun|]. rewrite (proj2 (Z.ltb_lt _ _)) by done.
    rewrite (mbind_Ok _ _ _ _ _ (get_pipe_ok _ _ _ (rf_pipe _ _ _ _ _ Hf))), He, (mbind_Ok _ _ _ _ _ Hc1).
    change (0 =? -1) with false. cbv iota. by rewrite (mbind_Ok _ _ _ _ _ Hu2).
Qed.

(** piperead() of a pipe that has bytes, or no writer, takes up to [n] of the
    oldest bytes and stores them at [addr] in order. *)
Theorem piperead_correct s pi p addr n :
  let bs := take (Z.to_nat n) (queue p) in
  env_pipe pi (fs_env s) = Some p -> pipe_ok p -> lk_free (p_lock p) -> cpu_wf (fs_cpu s) -> 0 <= n ->
  queue p <> [] \/ p_writeopen p = 0 ->
  (forall j, (j < length bs)%nat -> uwr (fs_env s) (u64 (addr + Z.of_nat j)) = true) ->
  exists s' p', piperead pi addr n s = Ok (Z.of_nat (length bs), s') /\ env_pipe pi (fs_env s') = Some p' /\ pipe_ok p' /\
    queue p' = drop (Z.to_nat n) (queue p) /\ p_lock p' = p_lock p /\
    p_readopen p' = p_readopen p /\ p_writeopen p' = p_writeopen p /\
    s' = s <| fs_cpu := lockcycle (fs_cpu s) |> <| fs_env := fs_env s' |> /\
    (forall j b, bs !! j = Some b -> umem (fs_env s') (u64 (addr + Z.of_nat j)) = Some b) /\
    (forall x, (forall j, (j < length bs)%nat -> x <> u64 (addr + Z.of_nat j)) -> umem (fs_env s') x = umem (fs_env s) x).
Proof.
  intros bs Hpipe Hp Hl Hc Hn Hready Hw.
  assert (Z.of_nat (length bs) <= 512) as Hbs512.
  { unfold bs. rewrite length_take. pose proof (length_queue p Hp). pose proof (po_count p Hp). change PIPESIZE with 512 in *. lia. }
  destruct (pipe_cycle s pi p Hpipe Hl Hc) as (s1 & c1 & l1 & Hacq & F1 & Hrel).
  assert (read_frame (s <| fs_cpu := c1 |>) s1 pi (p <| p_lock := l1 |>) (umem (fs_env s))) as R1.
  { destruct F1. by split. }
  destruct (piperead_loop pi addr n (s <| fs_cpu := c1 |>) bs 0 (Z.to_nat n + 1) s1 _ _ R1)
    as (s2 & p2 & Hrun & F2 & Hp2 & Hq2 & Hl2 & Hr2 & Hw2); try done.
  - by destruct Hp.
  - by rewrite Z.sub_0_r.
  - unfold bs. rewrite length_take. lia.
  - destruct (Hrel s2 p2) as (s3 & Hr3 & F3); [apply (rf_rest _ _ _ _ _ F2)|apply (rf_pipe _ _ _ _ _ F2)|done|].
    assert (pipe_empty p && negb (p_writeopen p =? 0) = false) as Hne.
    { destruct Hready as [Hq|Hq]; [|rewrite Hq; by rewrite andb_false_r].
      destruct (pipe_empty p) eqn:He; [|done]. apply pipe_empty_spec in He; [done|done]. }
    unfold piperead. rewrite (mbind_Ok _ _ _ _ _ Hacq), (mbind_Ok _ _ _ _ _ (get_pipe_ok _ _ _ (pf_pipe _ _ _ _ F1))).
    change (pipe_empty (p <| p_lock := l1 |>)) with (pipe_empty p). change (p_writeopen (p <| p_lock := l1 |>)) with (p_writeopen p).
    rewrite Hne, (mbind_Ok _ _ _ _ _ Hrun), (mbind_Ok _ _ _ _ _ Hr3).
    exists s3, (p2 <| p_lock := p_lock p |>). split; [done|]. split; [apply (pf_pipe _ _ _ _ F3)|].
    split; [by destruct Hp2|]. split.
    { change (queue (p2 <| p_lock := p_lock p |>)) with (queue p2). change (queue (p <| p_lock := l1 |>)) with (queue p) in Hq2.
      rewrite <- (take_drop (Z.to_nat n) (queue p)) in Hq2 at 1. by apply app_inv_head in Hq2. }
    split; [done|]. split; [done|]. split; [done|]. split; [rewrite (pf_rest _ _ _ _ F3), (rf_rest _ _ _ _ _ F2); done|].
    split.
    + intros j b Hj. rewrite (pf_umem _ _ _ _ F3). simpl. rewrite (rf_umem _ _ _ _ _ F2). apply (stored_at addr bs 0); [lia|lia|done].
    + intros x Hx. rewrite (pf_umem _ _ _ _ F3). simpl. rewrite (rf_umem _ _ _ _ _ F2). by apply stored_other.
Qed.
End PipeSpec.

(** ** Any interleaving of readers and writers *)

(** The passes of the loops of pipewrite() and piperead() that move a byte,
    under pi->lock, in whatever order the processes take the lock. *)
Inductive pipe_event : Type := Wrote (b : Z) | Took (b : Z).
Inductive pipe_step : pipe -> pipe_event -> pipe -> Prop :=
  | step_put p b : p_readopen p <> 0 -> pipe_full p = false -> pipe_step p (Wrote b) (pipe_put b p)
  | step_take p : pipe_empty p = false -> pipe_step p (Took (pipe_peek p)) (pipe_take p).
Inductive pipe_run : pipe -> list pipe_event -> pipe -> Prop :=
  | run_nil p : pipe_run p [] p
  | run_snoc p tr p1 ev p2 : pipe_run p tr p1 -> pipe_step p1 ev p2 -> pipe_run p (tr ++ [ev]) p2.

Definition wrote (tr : list pipe_event) : list Z := omap (fun ev => match ev with Wrote b => Some b | Took _ => None end) tr.
Definition took (tr : list pipe_event) : list Z := omap (fun ev => match ev with Took b => Some b | Wrote _ => None end) tr.

(** C15: What the readers have taken is what the writers have written, in order,
    but for the at most PIPESIZE bytes the pipe still holds; this holds across
    the wrap-around of the 32-bit counters. *)
Theorem pipe_fifo p tr p' :
  pipe_ok p -> queue p = [] -> pipe_run p tr p' ->
  wrote tr = took tr ++ queue p' /\ pipe_ok p' /\ Z.of_nat (length (queue p')) <= PIPESIZE.
Proof.
  intros Hp Hq Hrun. assert (wrote tr = took tr ++ queue p' /\ pipe_ok p') as [H1 H2].
  { induction Hrun as [p|p tr p1 ev p2 Hrun IH Hstep]; [by rewrite Hq|]. destruct (IH Hp Hq) as [Hw Hp1].
    unfold wrote, took in *. rewrite !omap_app, Hw. destruct Hstep as [p1 b Ho Hf|p1 He].
    - assert (pipe_count p1 < PIPESIZE) as Hc.
      { pose proof (po_count _ Hp1). destruct (Z.eq_dec (pipe_count p1) PIPESIZE) as [Heq|]; [|lia].
        apply pipe_full_spec in Heq; [congruence|done]. }
      destruct (pipe_put_ok p1 b Hp1 Hc) as [Hp2 ->]. split; [|done]. simpl. by rewrite app_nil_r, <- app_assoc.
    - destruct (pipe_take_ok p1 Hp1 He) as [Hp2 ->]. split; [|done]. simpl. by rewrite app_nil_r, <- app_assoc. }
  split; [done|]. split; [done|]. rewrite length_queue by done. apply (po_count _ H2).
Qed.

(** ** Witnesses *)

(** An environment with pipes at addresses and a user memory. *)
Record penv : Type := mkPenv { pe_pipes : gmap Z pipe; pe_mem : Z -> option Z }.
#[global] Instance penv_fs : FsEnv penv := {
  env_copyout a bs e :=
    match bs with
    | [b] => match pe_mem e a with
             | Some _ => (0, mkPenv (pe_pipes e) (fun x => if x =? a then Some b else pe_mem e x))
             | None => (-1, e)
             end
    | _ => (-1, e)
    end;
  env_copyin a n e := match pe_mem e a with Some b => (0, [b], e) | None => (-1, [], e) end
}.
#[global] Instance penv_pipe : PipeEnv penv := {
  env_pipe pi e := pe_pipes e !! pi;
  env_set_pipe pi p e := mkPenv (<[pi := p]> (pe_pipes e)) (pe_mem e);
  env_kalloc e := (0, e);
  env_kfree _ e := Ok e;
  env_killed _ := false
}.
#[global] Instance penv_laws : PipeLaws penv.
Proof.
  refine {| umem e a := pe_mem e a; uwr e a := match pe_mem e a with Some _ => true | None => false end |}.
  - intros e pi p. simpl. apply lookup_insert_eq.
  - intros e pi p. done.
  - intros e a b Hb. exists e. simpl. by rewrite Hb.
  - intros e a b Hb. destruct (pe_mem e a) as [c|] eqn:Ec; [|done]. eexists. simpl. rewrite Ec. split; [reflexivity|]. simpl.
    split; [done|]. split; [|done]. intros x. destruct (Z.eqb_spec x a) as [->|]; [by rewrite Ec|done].
Defined.

Definition demo_pipe : pipe :=
  {| p_lock := initlock "pipe"; p_data := repeat 5 512; p_nread := 4294967295; p_nwrite := 4294967295; p_readopen := 1; p_writeopen := 1 |}.
Definition demo_fs (p : pipe) : fsst penv :=
  {| fs_cpu := mkCpu None 0 false true; fs_hart := 0; fs_pid := 1; fs_cwd := 0; fs_ofile := [];
     bcache_lock := initlock ""; bufs := []; disk := fun _ => []; dwrites := [];
     slog := {| log_lock := initlock ""; log_start := 0; log_outstanding := 0; log_committing := 0;
                log_dev := 0; log_ncommit := 0; log_lh := {| lh_n := 0; lh_block := [] |} |};
     sb := {| sb_magic := 0; sb_size := 0; sb_nblocks := 0; sb_ninodes := 0; sb_nlog := 0; sb_logstart := 0; sb_inodestart := 0; sb_bmapstart := 0 |};
     itable_lock := initlock ""; inodes := []; ftable_lock := initlock ""; files := [];
     fs_env := mkPenv {[ 4096 := p ]} (fun a => Some (a mod 256)) |}.
Definition demo_pipe2 : pipe := pipe_put 8 (pipe_put 7 demo_pipe).

Lemma demo_pipe_ok : pipe_ok demo_pipe /\ pipe_ok demo_pipe2 /\ queue demo_pipe2 = [7; 8].
Proof.
  assert (pipe_ok demo_pipe) as H0 by (split; vm_compute; intuition congruence).
  destruct (pipe_put_ok demo_pipe 7 H0) as [H1 Q1]; [done|].
  destruct (pipe_put_ok (pipe_put 7 demo_pipe) 8 H1) as [H2 Q2]; [done|]. done.
Qed.

Lemma pipewrite_correct_witness :
  exists s' p', pipewrite 4096 10 2 (demo_fs demo_pipe) = Ok (2, s') /\ env_pipe 4096 (fs_env s') = Some p' /\ queue p' = [10; 11].
Proof.
  destruct (pipewrite_correct (demo_fs demo_pipe) 4096 demo_pipe 10 [10; 11]) as (s' & p' & H1 & H2 & _ & H3 & _).
  - reflexivity.
  - apply demo_pipe_ok.
  - split; reflexivity.
  - split; simpl; [lia|discriminate].
  - discriminate.
  - reflexivity.
  - vm_compute. discriminate.
  - intros [|[|j]] b Hb; simpl in Hb; try discriminate; injection Hb as <-; reflexivity.
  - exists s', p'. split; [exact H1|]. split; [exact H2|exact H3].
Defined.

Lemma piperead_correct_witness :
  exists s' p', piperead 4096 10 5 (demo_fs demo_pipe2) = Ok (2, s') /\ env_pipe 4096 (fs_env s') = Some p' /\ queue p' = [].
Proof.
  destruct demo_pipe_ok as (_ & Hok & Hq).
  destruct (piperead_correct (demo_fs demo_pipe2) 4096 demo_pipe2 10 5) as (s' & p' & H1 & H2 & _ & H3 & _).
  - reflexivity.
  - exact Hok.
  - split; reflexivity.
  - split; simpl; [lia|discriminate].
  - lia.
  - left. rewrite Hq. discriminate.
  - intros j _. reflexivity.
  - exists s', p'. rewrite Hq in H1, H3. split; [exact H1|]. split; [exact H2|exact H3].
Defined.

Lemma pipe_fifo_witness :
  exists p', pipe_run demo_pipe [Wrote 7; Took 7; Wrote 8] p' /\ wrote [Wrote 7; Took 7; Wrote 8] = took [Wrote 7; Took 7; Wrote 8] ++ queue p'.
Proof.
  assert (pipe_run demo_pipe [Wrote 7; Took 7; Wrote 8] (pipe_put 8 (pipe_take (pipe_put 7 demo_pipe)))) as Hrun.
  { change [Wrote 7; Took 7; Wrote 8] with ((([] ++ [Wrote 7]) ++ [Took (pipe_peek (pipe_put 7 demo_pipe))]) ++ [Wrote 8]).
    eapply run_snoc; [eapply run_snoc; [eapply run_snoc; [apply run_nil|]|]|]; [apply step_put|apply step_take|apply step_put]; done. }
  eexists. split; [exact Hrun|]. apply (pipe_fifo demo_pipe _ _ (proj1 demo_pipe_ok) eq_refl Hrun).
Defined.
