(* ===== verification/File.v ===== *)
(** * Open files (kernel/file.c, pipealloc() of kernel/pipe.c)

    The file table and the operations on open files.  A pointer to a struct
    file is a position in the table [files]. *)
From stdpp Require Import base list strings gmap.
From Stdlib Require Import ZArith Lia.
From S2P Require Import Prelude Spinlock Kalloc FsState Bio BioOps Log LogSpec LogCrash LogOps FsTxn Fs FsAlloc FsFile FsBmap FsRead FsWrite Pipe.

(** devsw[major].read and devsw[major].write, where the driver has them. *)
Class DevEnv (E : Type) := {
  env_devread : Z -> option (Z -> Z -> E -> outcome (Z * E));
  env_devwrite : Z -> option (Z -> Z -> E -> outcome (Z * E))
}.

Section File.
Context {E : Type} `{FsEnv E} `{PipeEnv E} `{DevEnv E}.

Definition get_file (f : nat) : M (fsst E) file := fun s =>
  match files s !! f with Some x => Ok (x, s) | None => UB end.
Definition upd_file (f : nat) (g : file -> file) : M (fsst E) unit := fun s =>
  match files s !! f with Some x => Ok (tt, s <| files := <[f := g x]> (files s) |>) | None => UB end.
Definition lift_env {A} (op : E -> outcome (A * E)) : M (fsst E) A := fun s =>
  obind (op (fs_env s)) (fun r => Ok (fst r, s <| fs_env := snd r |>)).

Definition fileinit : M (fsst E) unit := mmodify (fun s => s <| ftable_lock := initlock "ftable" |>).

Definition filealloc : M (fsst E) (option nat) :=
  acquire_ftable ;;;
  let* tab := mreads files in
  match List.find (fun f => match tab !! f with Some x => f_ref x =? 0 | None => false end) (seq 0 NFILE) with
  | Some f =>
      upd_file f (fun x => x <| f_ref := 1 |>) ;;;
      release_ftable ;;;
      mret (Some f)
  | None =>
      release_ftable ;;;
      mret None
  end.

Definition filedup (f : nat) : M (fsst E) nat :=
  acquire_ftable ;;;
  let* x := get_file f in
  if f_ref x <? 1 then mpanic "filedup"
  else
    upd_file f (fun x => x <| f_ref ::= fun n => n + 1 |>) ;;;
    release_ftable ;;;
    mret f.

Definition fileclose (f : nat) : M (fsst E) unit :=
  acquire_ftable ;;;
  let* x := get_file f in
  if f_ref x <? 1 then mpanic "fileclose"
  else
    upd_file f (fun x => x <| f_ref ::= fun n => n - 1 |>) ;;;
    let* ff := get_file f in
    if 0 <? f_ref ff then release_ftable
    else
      upd_file f (fun x => x <| f_ref := 0 |> <| f_type := FD_NONE |>) ;;;
      release_ftable ;;;
      match f_type ff with
      | FD_PIPE => pipeclose (f_pipe ff) (f_writable ff)
      | FD_INODE | FD_DEVICE =>
          begin_op ;;;
          iput (f_ip ff) ;;;
          end_op
      | FD_NONE => mret tt
      end.

(** struct stat as copied to the user: 4 bytes of padding, which the code does
    not set, precede st_size. *)
Definition stat_bytes (pad : list Z) (st : stat) : list Z :=
  le_bytes 4 (st_dev st) ++ le_bytes 4 (st_ino st) ++ le_bytes 2 (st_type st) ++ le_bytes 2 (st_nlink st) ++
  pad ++ le_bytes 8 (st_size st).

Definition filestat (pad : list Z) (f : nat) (addr : Z) : M (fsst E) Z :=
  let* x := get_file f in
  match f_type x with
  | FD_INODE | FD_DEVICE =>
      ilock (f_ip x) ;;;
      let* st := stati (f_ip x) in
      iunlock (f_ip x) ;;;
      let* r := copy_to (ToUser addr) (stat_bytes pad st) in
      if r <? 0 then mret (-1) else mret 0
  | _ => mret (-1)
  end.

Definition fileread (f : nat) (addr n : Z) : M (fsst E) Z :=
  let* x := get_file f in
  if (f_readable x =? 0) || (n <? 0) then mret (-1)
  else
    match f_type x with
    | FD_PIPE => piperead (f_pipe x) addr n
    | FD_DEVICE =>
        if (f_major x <? 0) || (NDEV <=? f_major x) then mret (-1)
        else match env_devread (f_major x) with
             | None => mret (-1)
             | Some read => lift_env (read addr n)
             end
    | FD_INODE =>
        ilock (f_ip x) ;;;
        let* r := readi (f_ip x) (ToUser addr) (f_off x) n in
        (if 0 <? fst r then upd_file f (fun x => x <| f_off ::= fun o => u32 (o + fst r) |>) else mret tt) ;;;
        iunlock (f_ip x) ;;;
        mret (fst r)
    | FD_NONE => mpanic "fileread"
    end.

(** The most bytes of one transaction of filewrite(). *)
Definition write_max : Z := ((MAXOPBLOCKS - 1 - 1 - 2) / 2) * BSIZE.

Definition filewrite (f : nat) (addr n : Z) : M (fsst E) Z :=
  let* x := get_file f in
  if (f_writable x =? 0) || (n <? 0) then mret (-1)
  else
    match f_type x with
    | FD_PIPE => pipewrite (f_pipe x) addr n
    | FD_DEVICE =>
        if (f_major x <? 0) || (NDEV <=? f_major x) then mret (-1)
        else match env_devwrite (f_major x) with
             | None => mret (-1)
             | Some write => lift_env (write addr n)
             end
    | FD_INODE =>
        let* i := mloop (Z.to_nat (n / write_max) + 2) (fun i =>
          if i <? n then
            let n1 := if write_max <? n - i then write_max else n - i in
            begin_op ;;;
            ilock (f_ip x) ;;;
            let* y := get_file f in
            let* r := writei (f_ip x) (FromUser (u64 (addr + i))) (f_off y) n1 in
            (if 0 <? r then upd_file f (fun x => x <| f_off ::= fun o => u32 (o + r) |>) else mret tt) ;;;
            iunlock (f_ip x) ;;;
            end_op ;;;
            if negb (r =? n1) then mret (inr i) else mret (inl (i + r))
          else mret (inr i)) 0 in
        if i =? n then mret n else mret (-1)
    | FD_NONE => mpanic "filewrite"
    end.

(** pipealloc(): two files and the pipe between them.  kalloc() has filled the
    page with 5. *)
Definition pipealloc : M (fsst E) (option (nat * nat)) :=
  let bad (f0 f1 : option nat) : M (fsst E) (option (nat * nat)) :=
    (match f0 with Some f => fileclose f | None => mret tt end) ;;;
    (match f1 with Some f => fileclose f | None => mret tt end) ;;;
    mret None in
  let* f0 := filealloc in
  match f0 with
  | None => bad None None
  | Some r =>
      let* f1 := filealloc in
      match f1 with
      | None => bad (Some r) None
      | Some w =>
          let* pi := page_alloc in
          if pi =? 0 then bad (Some r) (Some w)
          else
            mmodify (fun s => s <| fs_env ::= env_set_pipe pi
              {| p_lock := initlock "pipe"; p_data := repeat 5 (Z.to_nat PIPESIZE);
                 p_nread := 0; p_nwrite := 0; p_readopen := 1; p_writeopen := 1 |} |>) ;;;
            upd_file r (fun x => x <| f_type := FD_PIPE |> <| f_readable := 1 |> <| f_writable := 0 |> <| f_pipe := pi |>) ;;;
            upd_file w (fun x => x <| f_type := FD_PIPE |> <| f_readable := 0 |> <| f_writable := 1 |> <| f_pipe := pi |>) ;;;
            mret (Some (r, w))
      end
  end.
End File.

(** ** Writing in chunks

    filewrite() splits a write into chunks of [write_max] bytes, one
    transaction each; a chunk stays within the blocks begin_op() reserves. *)
Section FileSpec.
Context {E : Type} {EF : FsEnv E}.
Implicit Types (s : fsst E) (V : Z * Z -> list Z) (g : log_t) (sup : superblock) (ip : nat) (p : inode).

Lemma map_blocks_size sup : 0 <= sb_size sup -> sb_size sup < 3 * BPB -> (size (map_blocks sup) <= 3)%nat.
Proof.
  intros H0 H. unfold map_blocks. etransitivity; [apply size_list_le|]. rewrite length_map, length_seq.
  assert (sb_size sup / BPB < 3) by (apply Z.div_lt_upper_bound; [done|lia]). lia.
Qed.

(** One chunk of filewrite(), at most [write_max] bytes at any offset of the
    file, changes at most MAXOPBLOCKS blocks on a disk with up to three blocks
    of free map: the blocks begin_op() sets aside for an operation are enough,
    counting the inode, the indirect block, the free map and an unaligned
    range. *)
Theorem filewrite_chunk_fits g sup s ip p V off l :
  let n := Z.of_nat (length l) in
  file_ok g sup s ip p V ∅ -> log_outstanding g = 1 -> 0 <= off <= d_size (i_dip p) -> off + n <= MAXFILE * BSIZE ->
  n <= write_max -> sb_size sup < 3 * BPB ->
  exists tot s' V' p' L', writei ip (FromKernel l) off n s = Ok (tot, s') /\ file_ok g sup s' ip p' V' L' /\
    Z.of_nat (size L') <= MAXOPBLOCKS.
Proof.
  intros n HF Hout Hoff Hmax Hn Hs. pose proof (map_blocks_size sup (proj1 (fm_size _ _ _ (fo_map _ _ _ _ _ _ _ HF))) Hs) as Hm.
  pose proof (blocks_left_start off n ltac:(lia) ltac:(lia)) as Hb.
  assert (n / BSIZE <= 3) as Hd by (apply (Z.div_le_mono n 3072 BSIZE ltac:(done) Hn)).
  destruct (writei_ok g sup s ip p V ∅ off l HF Hout Hoff Hmax) as (tot & s' & V1 & A' & L' & Hr & _ & _ & _ & _ & HF' & Hsz).
  { unfold room. fold n. rewrite size_empty. unfold NBUF. lia. }
  fold n in Hr, Hsz. eexists tot, s', _, _, L'. split; [exact Hr|]. split; [exact HF'|]. rewrite size_empty in Hsz. change MAXOPBLOCKS with 10. lia.
Qed.
End FileSpec.

Lemma filewrite_chunk_fits_witness :
  exists tot s', writei (H := FsWrite.no_user) 0 (FromKernel [1; 2; 3]) 8 3 demo_file_fs = Ok (tot, s').
Proof.
  destruct (filewrite_chunk_fits (EF := FsWrite.no_user) (slog demo_file_fs) (sb demo_file_fs) demo_file_fs 0 demo_ip demo_disk 8 [1; 2; 3]
    demo_file_ok eq_refl) as (tot & s' & _ & _ & _ & Hr & _).
  - simpl. lia.
  - simpl. change MAXFILE with 268. change BSIZE with 1024. lia.
  - done.
  - done.
  - exists tot, s'. exact Hr.
Defined.
