(* ===== verification/Sysfile.v ===== *)
(** * System calls on files (kernel/sysfile.c, argument fetching of kernel/syscall.c)

    The handlers of kernel/sysfile.c, sys_exec() excepted.  The arguments come
    from the trap frame through argraw(). *)
From stdpp Require Import base list strings gmap.
From Stdlib Require Import ZArith Lia.
From S2P Require Import Prelude Spinlock Kalloc FsState Bio Log Fs Pipe File.

Definition O_RDONLY : Z := 0.
Definition O_WRONLY : Z := 1.
Definition O_RDWR : Z := 2.
Definition O_CREATE : Z := 512.
Definition O_TRUNC : Z := 1024.
Definition NOFILES : nat := 16.
Definition DOT : list Z := [46].
Definition DOTDOT : list Z := [46; 46].

(** The registers a0 to a5 of the trap frame, copyinstr() of the running
    process (its result and the string it stored, the NUL excluded), and p->sz. *)
Class ArgEnv (E : Type) := {
  env_arg : Z -> E -> Z;
  env_copyinstr : Z -> Z -> E -> Z * list Z * E;
  env_sz : E -> Z
}.

Section Sysfile.
Context {E : Type} `{FsEnv E} `{PipeEnv E} `{DevEnv E} `{ArgEnv E}.

(** ** Arguments *)
Definition argraw (n : Z) : M (fsst E) Z :=
  if (0 <=? n) && (n <=? 5) then mreads (fun s => env_arg n (fs_env s)) else mpanic "argraw".
Definition argint (n : Z) : M (fsst E) Z := let* a := argraw n in mret (i32 a).
Definition argaddr (n : Z) : M (fsst E) Z := argraw n.
(** The string, or [None] for the result -1. *)
Definition fetchstr (addr max : Z) : M (fsst E) (option (list Z)) := fun s =>
  let r := env_copyinstr addr max (fs_env s) in
  let s := s <| fs_env := snd r |> in
  if fst (fst r) <? 0 then Ok (None, s) else Ok (Some (snd (fst r)), s).
Definition argstr (n max : Z) : M (fsst E) (option (list Z)) :=
  let* a := argaddr n in fetchstr a max.
Definition fetchaddr (addr : Z) : M (fsst E) (option Z) := fun s =>
  let sz := env_sz (fs_env s) in
  if (sz <=? addr) || (sz <? u64 (addr + 8)) then Ok (None, s)
  else
    let r := env_copyin addr 8 (fs_env s) in
    let s := s <| fs_env := snd r |> in
    if negb (fst (fst r) =? 0) then Ok (None, s) else Ok (Some (le_val (snd (fst r))), s).

(** argfd(): the descriptor and the file, [None] for -1. *)
Definition argfd (n : Z) : M (fsst E) (option (Z * nat)) :=
  let* fd := argint n in
  let* tab := mreads fs_ofile in
  if (fd <? 0) || (Z.of_nat NOFILES <=? fd) then mret None
  else match nth (Z.to_nat fd) tab O with
       | O => mret None
       | S f => mret (Some (fd, f))
       end.

(** ** Descriptors *)
Definition set_ofile (fd : nat) (v : nat) : M (fsst E) unit := mmodify (fun s => s <| fs_ofile ::= <[fd := v]> |>).

Definition fdalloc (f : nat) : M (fsst E) Z :=
  let* tab := mreads fs_ofile in
  match List.find (fun fd => nth fd tab O =? O)%nat (seq 0 NOFILES) with
  | Some fd =>
      set_ofile fd (S f) ;;;
      mret (Z.of_nat fd)
  | None => mret (-1)
  end.

Definition sys_dup : M (fsst E) Z :=
  let* r := argfd 0 in
  match r with
  | None => mret (-1)
  | Some (_, f) =>
      let* fd := fdalloc f in
      if fd <? 0 then mret (-1)
      else
        filedup f ;;;
        mret fd
  end.

Definition sys_read : M (fsst E) Z :=
  let* p := argaddr 1 in
  let* n := argint 2 in
  let* r := argfd 0 in
  match r with
  | None => mret (-1)
  | Some (_, f) => fileread f p n
  end.

Definition sys_write : M (fsst E) Z :=
  let* p := argaddr 1 in
  let* n := argint 2 in
  let* r := argfd 0 in
  match r with
  | None => mret (-1)
  | Some (_, f) => filewrite f p n
  end.

Definition sys_close : M (fsst E) Z :=
  let* r := argfd 0 in
  match r with
  | None => mret (-1)
  | Some (fd, f) =>
      set_ofile (Z.to_nat fd) O ;;;
      fileclose f ;;;
      mret 0
  end.

Definition sys_fstat (pad : list Z) : M (fsst E) Z :=
  let* st := argaddr 1 in
  let* r := argfd 0 in
  match r with
  | None => mret (-1)
  | Some (_, f) => filestat pad f st
  end.

(** ** Links *)
Definition upd_nlink (ip : nat) (d : Z) : M (fsst E) unit :=
  upd_dip ip (fun p => p <| d_nlink ::= fun n => i16 (n + d) |>).

Definition sys_link : M (fsst E) Z :=
  let* old := argstr 0 MAXPATH in
  match old with
  | None => mret (-1)
  | Some old =>
  let* new := argstr 1 MAXPATH in
  match new with
  | None => mret (-1)
  | Some new =>
  begin_op ;;;
  let* ip := namei old in
  match ip with
  | None =>
      end_op ;;;
      mret (-1)
  | Some ip =>
  ilock ip ;;;
  let* p := get_ip ip in
  if (d_type (i_dip p) =? T_DIR) || (NLINK_MAX <=? d_nlink (i_dip p)) then
    iunlockput ip ;;;
    end_op ;;;
    mret (-1)
  else
    upd_nlink ip 1 ;;;
    iupdate ip ;;;
    iunlock ip ;;;
    let bad : M (fsst E) Z :=
      ilock ip ;;;
      upd_nlink ip (-1) ;;;
      iupdate ip ;;;
      iunlockput ip ;;;
      end_op ;;;
      mret (-1) in
    let* r := nameiparent new in
    match fst r with
    | None => bad
    | Some dp =>
        ilock dp ;;;
        let* q := get_ip dp in
        if d_nlink (i_dip q) =? 0 then
          iunlockput dp ;;;
          bad
        else
          let* p := get_ip ip in
          let* failed := (if negb (i_dev q =? i_dev p) then mret true
            else let* l := dirlink dp (snd r) (i_inum p) in mret (l <? 0)) in
          if failed then
            iunlockput dp ;;;
            bad
          else
            iunlockput dp ;;;
            iput ip ;;;
            end_op ;;;
            mret 0
    end
  end
  end
  end.

Definition isdirempty (dp : nat) : M (fsst E) bool :=
  let* p := get_ip dp in
  mloop (Z.to_nat (d_size (i_dip p) / DIRENT_SIZE) + 2) (fun off =>
    let* p := get_ip dp in
    if off <? d_size (i_dip p) then
      let* r := readi dp ToKernel off DIRENT_SIZE in
      if negb (fst r =? DIRENT_SIZE) then mpanic "isdirempty: readi"
      else if negb (de_inum (snd r) =? 0) then mret (inr false)
      else mret (inl (off + DIRENT_SIZE))
    else mret (inr true)) (2 * DIRENT_SIZE).

Definition sys_unlink : M (fsst E) Z :=
  let* path := argstr 0 MAXPATH in
  match path with
  | None => mret (-1)
  | Some path =>
  begin_op ;;;
  let* r := nameiparent path in
  match fst r with
  | None =>
      end_op ;;;
      mret (-1)
  | Some dp =>
  let name := snd r in
  let bad : M (fsst E) Z :=
    iunlockput dp ;;;
    end_op ;;;
    mret (-1) in
  ilock dp ;;;
  if (namecmp name DOT =? 0) || (namecmp name DOTDOT =? 0) then bad
  else
    let* l := dirlookup dp name in
    match l with
    | None => bad
    | Some (ip, off) =>
        ilock ip ;;;
        let* p := get_ip ip in
        if d_nlink (i_dip p) <? 1 then mpanic "unlink: nlink < 1"
        else
          let* empty := (if d_type (i_dip p) =? T_DIR then isdirempty ip else mret true) in
          if negb empty then
            iunlockput ip ;;;
            bad
          else
            let* w := writei dp (FromKernel (repeat 0 16)) off DIRENT_SIZE in
            if negb (w =? DIRENT_SIZE) then mpanic "unlink: writei"
            else
              let* p := get_ip ip in
              (if d_type (i_dip p) =? T_DIR then
                 upd_nlink dp (-1) ;;;
                 iupdate dp
               else mret tt) ;;;
              iunlockput dp ;;;
              upd_nlink ip (-1) ;;;
              iupdate ip ;;;
              iunlockput ip ;;;
              end_op ;;;
              mret 0
    end
  end
  end.

(** ** Creating files *)
Definition create (path : list Z) (type major minor : Z) : M (fsst E) (option nat) :=
  let* r := nameiparent path in
  match fst r with
  | None => mret None
  | Some dp =>
  let name := snd r in
  ilock dp ;;;
  let* q := get_ip dp in
  if (d_nlink (i_dip q) =? 0) || ((type =? T_DIR) && (NLINK_MAX <=? d_nlink (i_dip q))) then
    iunlockput dp ;;;
    mret None
  else
    let* l := dirlookup dp name in
    match l with
    | Some (ip, _) =>
        iunlockput dp ;;;
        ilock ip ;;;
        let* p := get_ip ip in
        if (type =? T_FILE) && ((d_type (i_dip p) =? T_FILE) || (d_type (i_dip p) =? T_DEVICE)) then mret (Some ip)
        else
          iunlockput ip ;;;
          mret None
    | None =>
        let* ip := ialloc (i_dev q) type in
        match ip with
        | None =>
            iunlockput dp ;;;
            mret None
        | Some ip =>
            ilock ip ;;;
            upd_dip ip (fun d => d <| d_major := i16 major |> <| d_minor := i16 minor |> <| d_nlink := 1 |>) ;;;
            iupdate ip ;;;
            let* p := get_ip ip in
            let* failed := (if type =? T_DIR then
                let* a := dirlink ip DOT (i_inum p) in
                if a <? 0 then mret true
                else let* b := dirlink ip DOTDOT (i_inum q) in mret (b <? 0)
              else mret false) in
            let* failed := (if failed then mret true
              else let* c := dirlink dp name (i_inum p) in mret (c <? 0)) in
            if failed then
              upd_dip ip (fun d => d <| d_nlink := 0 |>) ;;;
              iupdate ip ;;;
              iunlockput ip ;;;
              iunlockput dp ;;;
              mret None
            else
              (if type =? T_DIR then
                 upd_nlink dp 1 ;;;
                 iupdate dp
               else mret tt) ;;;
              iunlockput dp ;;;
              mret (Some ip)
        end
    end
  end.

Definition sys_open : M (fsst E) Z :=
  let* omode := argint 1 in
  let* path := argstr 0 MAXPATH in
  match path with
  | None => mret (-1)
  | Some path =>
  begin_op ;;;
  let* ip := (if negb (Z.land omode O_CREATE =? 0) then create path T_FILE 0 0
    else
      let* ip := namei path in
      match ip with
      | None => mret None
      | Some ip =>
          ilock ip ;;;
          let* p := get_ip ip in
          if (d_type (i_dip p) =? T_DIR) && negb (omode =? O_RDONLY) then
            iunlockput ip ;;;
            mret None
          else mret (Some ip)
      end) in
  match ip with
  | None =>
      end_op ;;;
      mret (-1)
  | Some ip =>
  let* p := get_ip ip in
  if (d_type (i_dip p) =? T_DEVICE) && ((d_major (i_dip p) <? 0) || (NDEV <=? d_major (i_dip p))) then
    iunlockput ip ;;;
    end_op ;;;
    mret (-1)
  else
    let* f := filealloc in
    let* fd := match f with None => mret (-1) | Some f => fdalloc f end in
    match f with
    | None =>
        iunlockput ip ;;;
        end_op ;;;
        mret (-1)
    | Some f =>
    if fd <? 0 then
      fileclose f ;;;
      iunlockput ip ;;;
      end_op ;;;
      mret (-1)
    else
      let* p := get_ip ip in
      (if d_type (i_dip p) =? T_DEVICE
       then upd_file f (fun x => x <| f_type := FD_DEVICE |> <| f_major := d_major (i_dip p) |>)
       else upd_file f (fun x => x <| f_type := FD_INODE |> <| f_off := 0 |>)) ;;;
      upd_file f (fun x => x <| f_ip := ip |>
        <| f_readable := if Z.land omode O_WRONLY =? 0 then 1 else 0 |>
        <| f_writable := if negb (Z.land omode O_WRONLY =? 0) || negb (Z.land omode O_RDWR =? 0) then 1 else 0 |>) ;;;
      (if negb (Z.land omode O_TRUNC =? 0) && (d_type (i_dip p) =? T_FILE) then itrunc ip else mret tt) ;;;
      iunlock ip ;;;
      end_op ;;;
      mret fd
    end
  end
  end.

(** The common part of sys_mkdir() and sys_mknod(). *)
Definition create_node (path : option (list Z)) (type major minor : Z) : M (fsst E) Z :=
  let* ip := match path with None => mret None | Some path => create path type major minor end in
  match ip with
  | None =>
      end_op ;;;
      mret (-1)
  | Some ip =>
      iunlockput ip ;;;
      end_op ;;;
      mret 0
  end.
Definition sys_mkdir : M (fsst E) Z :=
  begin_op ;;;
  let* path := argstr 0 MAXPATH in
  create_node path T_DIR 0 0.
Definition sys_mknod : M (fsst E) Z :=
  begin_op ;;;
  let* major := argint 1 in
  let* minor := argint 2 in
  let* path := argstr 0 MAXPATH in
  create_node path T_DEVICE (i16 major) (i16 minor).

Definition sys_chdir : M (fsst E) Z :=
  begin_op ;;;
  let* path := argstr 0 MAXPATH in
  let* ip := match path with None => mret None | Some path => namei path end in
  match ip with
  | None =>
      end_op ;;;
      mret (-1)
  | Some ip =>
      ilock ip ;;;
      let* p := get_ip ip in
      if negb (d_type (i_dip p) =? T_DIR) then
        iunlockput ip ;;;
        end_op ;;;
        mret (-1)
      else
        iunlock ip ;;;
        let* cwd := mreads fs_cwd in
        iput cwd ;;;
        end_op ;;;
        mmodify (fun s => s <| fs_cwd := ip |>) ;;;
        mret 0
  end.

Definition sys_pipe : M (fsst E) Z :=
  let* fdarray := argaddr 0 in
  let* r := pipealloc in
  match r with
  | None => mret (-1)
  | Some (rf, wf) =>
      let close : M (fsst E) Z :=
        fileclose rf ;;;
        fileclose wf ;;;
        mret (-1) in
      let* fd0 := fdalloc rf in
      if fd0 <? 0 then close
      else
        let* fd1 := fdalloc wf in
        if fd1 <? 0 then
          set_ofile (Z.to_nat fd0) O ;;;
          close
        else
          let bad : M (fsst E) Z :=
            set_ofile (Z.to_nat fd0) O ;;;
            set_ofile (Z.to_nat fd1) O ;;;
            close in
          let* a := copy_to (ToUser fdarray) (le_bytes 4 fd0) in
          if a <? 0 then bad
          else
            let* b := copy_to (ToUser (u64 (fdarray + 4))) (le_bytes 4 fd1) in
            if b <? 0 then bad else mret 0
  end.
End Sysfile.
