(* ===== verification/Grep.v ===== *)
(** * The pattern matcher and the line loop of user/grep.c

    A string is the list of its bytes before the terminating NUL, except for
    the input buffer of grep(), which may contain NUL bytes. *)
From stdpp Require Import base list.
From Stdlib Require Import ZArith Lia.
From S2P Require Import Prelude.

Definition STAR : Z := 42.
Definition DOT : Z := 46.
Definition CARET : Z := 94.
Definition DOLLAR : Z := 36.
Definition NL : Z := 10.

(** ** The code *)

(** matchstar(); [here] is matchhere() with the pattern after the star. *)
Fixpoint matchstar (here : list Z -> bool) (c : Z) (text : list Z) : bool :=
  if here text then true
  else
    match text with
    | x :: text => if (x =? c) || (c =? DOT) then matchstar here c text else false
    | [] => false
    end.

Fixpoint matchhere (re text : list Z) : bool :=
  match re with
  | [] => true
  | c :: re1 =>
      match re1 with
      | d :: re2 =>
          if d =? STAR then matchstar (matchhere re2) c text
          else
            match text with
            | x :: text => if (c =? DOT) || (c =? x) then matchhere re1 text else false
            | [] => false
            end
      | [] =>
          if c =? DOLLAR then match text with [] => true | _ :: _ => false end
          else
            match text with
            | x :: text => if (c =? DOT) || (c =? x) then matchhere re1 text else false
            | [] => false
            end
      end
  end.

(** The loop of match(). *)
Fixpoint match_at (re text : list Z) : bool :=
  if matchhere re text then true
  else match text with _ :: text => match_at re text | [] => false end.
Definition match_re (re text : list Z) : bool :=
  match re with
  | c :: re1 => if c =? CARET then matchhere re1 text else match_at re text
  | [] => match_at re text
  end.

(** strchr(p, '\n') on the bytes up to the NUL: the line and what follows it. *)
Fixpoint strchr_nl (p : list Z) : option (list Z * list Z) :=
  match p with
  | [] => None
  | c :: p =>
      if c =? 0 then None
      else if c =? NL then Some ([], p)
      else match strchr_nl p with Some (line, rest) => Some (c :: line, rest) | None => None end
  end.

(** The inner loop of grep(): the bytes written to the output and what is left
    of the buffer; at most one line per byte. *)
Fixpoint grep_lines (fuel : nat) (pattern p : list Z) : list Z * list Z :=
  match fuel with
  | O => ([], p)
  | S fuel =>
      match strchr_nl p with
      | Some (line, rest) =>
          let r := grep_lines fuel pattern rest in
          ((if match_re pattern line then line ++ [NL] else []) ++ fst r, snd r)
      | None => ([], p)
      end
  end.

(** sizeof(buf) *)
Definition BUFSZ : nat := 1024.

(** read(fd, addr, n) delivers at least one byte of what is left of the file
    when [n] is not 0, and at most [n]; how many is up to the file: [sizes]. *)
Definition read (n : nat) (sizes : list nat) (input : list Z) : list Z * list Z :=
  let k := Nat.min (S (hd 0%nat sizes)) (Nat.min n (length input)) in
  (take k input, drop k input).

(** grep(): the output; [buf] are the [m] bytes kept in the buffer. *)
Fixpoint grep (fuel : nat) (pattern : list Z) (sizes : list nat) (buf input : list Z) : outcome (list Z) :=
  match fuel with
  | O => NoFuel
  | S fuel =>
      let r := read (BUFSZ - length buf - 1) sizes input in
      match fst r with
      | [] => Ok []
      | _ :: _ =>
          let buf := buf ++ fst r in
          let l := grep_lines (length buf) pattern buf in
          obind (grep fuel pattern (tail sizes) (snd l) (snd r)) (fun out => Ok (fst l ++ out))
      end
  end.

(** ** What a pattern means *)
Inductive atom : Type := Chr (c : Z) | Star (c : Z) | AtEnd.
Fixpoint parse (re : list Z) : list atom :=
  match re with
  | [] => []
  | c :: re1 =>
      match re1 with
      | d :: re2 => if d =? STAR then Star c :: parse re2 else Chr c :: parse re1
      | [] => if c =? DOLLAR then [AtEnd] else [Chr c]
      end
  end.

Definition one_of (c x : Z) : Prop := c = DOT \/ c = x.
(** The atoms match a prefix of the text. *)
Inductive pmatch : list atom -> list Z -> Prop :=
| pm_nil t : pmatch [] t
| pm_chr c p x t : one_of c x -> pmatch p t -> pmatch (Chr c :: p) (x :: t)
| pm_star c p t1 t2 : Forall (one_of c) t1 -> pmatch p t2 -> pmatch (Star c :: p) (t1 ++ t2)
| pm_end : pmatch [AtEnd] [].

Lemma matchstar_spec here c text :
  matchstar here c text = true <-> exists t1 t2, text = t1 ++ t2 /\ Forall (one_of c) t1 /\ here t2 = true.
Proof.
  induction text as [|x text IH]; simpl.
  - destruct (here []) eqn:Hh.
    + split; [|done]. intros _. by exists [], [].
    + split; [done|]. intros (t1 & t2 & Ht & _ & H). symmetry in Ht. apply app_eq_nil in Ht as [-> ->]. congruence.
  - destruct (here (x :: text)) eqn:Hh.
    { split; [|done]. intros _. by exists [], (x :: text). }
    split.
    + destruct ((x =? c) || (c =? DOT)) eqn:Ho; [|done]. intros Hm. apply IH in Hm as (t1 & t2 & -> & Hf & H).
      exists (x :: t1), t2. split; [done|]. split; [|done]. constructor; [|done]. unfold one_of.
      apply orb_true_iff in Ho as [Ho|Ho]; apply Z.eqb_eq in Ho; auto.
    + intros (t1 & t2 & Ht & Hf & H). destruct t1 as [|y t1]; simpl in Ht; [subst t2; congruence|].
      injection Ht as <- Ht. apply Forall_cons in Hf as [Ho Hf]. assert ((x =? c) || (c =? DOT) = true) as ->.
      { apply orb_true_iff. destruct Ho as [-> | ->]; [right|left]; apply Z.eqb_refl. }
      apply IH. eauto.
Qed.

Lemma chr_spec c x : ((c =? DOT) || (c =? x) = true) <-> one_of c x.
Proof. unfold one_of. rewrite orb_true_iff, !Z.eqb_eq. done. Qed.

Lemma matchhere_spec re : forall text, matchhere re text = true <-> pmatch (parse re) text.
Proof.
  assert (forall n re, (length re <= n)%nat -> forall text, matchhere re text = true <-> pmatch (parse re) text) as H; [|intros text; by apply (H (length re))].
  clear re. induction n as [|n IH]; intros re Hn text.
  { destruct re; [|simpl in Hn; lia]. simpl. split; [constructor|done]. }
  destruct re as [|c re1]; [simpl; split; [constructor|done]|]. simpl in Hn.
  assert (forall re1, (length re1 <= n)%nat -> (match text with x :: text => if (c =? DOT) || (c =? x) then matchhere re1 text else false | [] => false end = true <->
    pmatch (Chr c :: parse re1) text)) as Hchr.
  { intros re' Hl. destruct text as [|x text]; [split; [done|inversion 1]|].
    destruct ((c =? DOT) || (c =? x)) eqn:Ho.
    - rewrite IH by lia. split; [intros; constructor; [by apply chr_spec|done]|inversion 1; by subst].
    - split; [done|]. inversion 1 as [|? ? ? ? Hone| |]; subst. apply chr_spec in Hone. congruence. }
  destruct re1 as [|d re2]; cbn [matchhere parse].
  - destruct (Z.eqb_spec c DOLLAR) as [->|Hc].
    + destruct text; split; try done; [constructor|inversion 1].
    + exact (Hchr [] ltac:(simpl; lia)).
  - destruct (Z.eqb_spec d STAR) as [->|Hd]; [|exact (Hchr (d :: re2) ltac:(simpl in *; lia))].
    rewrite matchstar_spec. simpl in Hn. split.
    + intros (t1 & t2 & -> & Hf & H). constructor; [done|]. apply IH; [lia|done].
    + inversion 1; subst. eexists _, _. split; [done|]. split; [done|]. apply IH; [lia|done].
Qed.

(** C40: match() decides what the pattern means: after [^] the rest of the pattern
    matches a prefix of the text, otherwise it matches a prefix of some suffix;
    [.] stands for any byte, [c*] for any number of bytes [c] stands for, and a
    final [$] for the end of the text. *)
Theorem grep_match_correct re text :
  match_re re text = true <->
    match re with
    | c :: re1 => if c =? CARET then pmatch (parse re1) text else exists t1 t2, text = t1 ++ t2 /\ pmatch (parse re) t2
    | [] => True
    end.
Proof.
  assert (forall re text, match_at re text = true <-> exists t1 t2, text = t1 ++ t2 /\ pmatch (parse re) t2) as Hat.
  { clear. intros re text. induction text as [|x text IH]; simpl.
    - destruct (matchhere re []) eqn:Hm.
      + split; [|done]. intros _. exists [], []. split; [done|]. by apply matchhere_spec.
      + split; [done|]. intros (t1 & t2 & Ht & H). symmetry in Ht. apply app_eq_nil in Ht as [-> ->]. apply matchhere_spec in H. congruence.
    - destruct (matchhere re (x :: text)) eqn:Hm.
      + split; [|done]. intros _. exists [], (x :: text). split; [done|]. by apply matchhere_spec.
      + rewrite IH. split.
        * intros (t1 & t2 & -> & H). by exists (x :: t1), t2.
        * intros ([|y t1] & t2 & Ht & H); simpl in Ht; [subst t2; apply matchhere_spec in H; congruence|]. injection Ht as _ ->. eauto. }
  destruct re as [|c re1]; simpl.
  - by destruct text.
  - destruct (c =? CARET); [apply matchhere_spec|apply Hat].
Qed.

(** ** The lines of a file *)

(** The complete lines and what follows the last of them. *)
Fixpoint nl_split (t : list Z) : list (list Z) * list Z :=
  match t with
  | [] => ([], [])
  | c :: t =>
      let r := nl_split t in
      if c =? NL then ([] :: fst r, snd r)
      else match fst r with [] => ([], c :: snd r) | l :: ls => ((c :: l) :: ls, snd r) end
  end.
(** The matching lines. *)
Definition selected (pattern : list Z) (ls : list (list Z)) : list Z :=
  concat (map (fun l => if match_re pattern l then l ++ [NL] else []) ls).

Lemma strchr_nl_spec p : Forall (fun c => c <> 0) p ->
  match strchr_nl p with
  | Some (line, rest) => nl_split p = (line :: fst (nl_split rest), snd (nl_split rest)) /\ (length rest < length p)%nat /\ Forall (fun c => c <> 0) rest
  | None => nl_split p = ([], p)
  end.
Proof.
  induction 1 as [|c p Hc Hp IH]; simpl; [done|]. rewrite (proj2 (Z.eqb_neq c 0)) by done.
  destruct (c =? NL); [split; [done|]; split; [lia|done]|].
  destruct (strchr_nl p) as [[line rest]|].
  - destruct IH as (-> & Hl & Hr). simpl. split; [done|]. split; [lia|done].
  - by rewrite IH.
Qed.
Lemma grep_lines_spec pattern : forall fuel p, Forall (fun c => c <> 0) p -> (length p <= fuel)%nat ->
  grep_lines fuel pattern p = (selected pattern (fst (nl_split p)), snd (nl_split p)).
Proof.
  induction fuel as [|fuel IH]; intros p Hp Hl; [destruct p; [done|simpl in Hl; lia]|].
  simpl. pose proof (strchr_nl_spec p Hp) as Hs. destruct (strchr_nl p) as [[line rest]|]; [|by rewrite Hs].
  destruct Hs as (-> & Hr & Hn). rewrite IH by (done || lia). done.
Qed.

Lemma nl_split_cons c t : nl_split (c :: t) = 
  if c =? NL then ([] :: fst (nl_split t), snd (nl_split t))
  else match fst (nl_split t) with [] => ([], c :: snd (nl_split t)) | l :: ls => ((c :: l) :: ls, snd (nl_split t)) end.
Proof. done. Qed.
(** The lines of a text do not depend on where it is cut. *)
Lemma nl_split_app a b :
  nl_split (a ++ b) = (fst (nl_split a) ++ fst (nl_split (snd (nl_split a) ++ b)), snd (nl_split (snd (nl_split a) ++ b))).
Proof.
  induction a as [|c a IH]; [simpl; by destruct (nl_split b)|]. rewrite <- app_comm_cons, nl_split_cons, (nl_split_cons c a), IH.
  destruct (c =? NL) eqn:Hc; [done|]. cbn [fst snd]. destruct (fst (nl_split a)) as [|l ls]; [|done].
  cbn [fst snd]. rewrite <- app_comm_cons, nl_split_cons, Hc. by destruct (fst (nl_split (snd (nl_split a) ++ b))).
Qed.
Lemma nl_split_rest a : nl_split (snd (nl_split a)) = ([], snd (nl_split a)).
Proof.
  induction a as [|c a IH]; [done|]. rewrite nl_split_cons. destruct (c =? NL) eqn:Hc; [done|].
  destruct (fst (nl_split a)); [|done]. cbn [snd]. by rewrite nl_split_cons, Hc, IH.
Qed.
Lemma nl_split_forall (P : Z -> Prop) a : Forall P a -> Forall P (snd (nl_split a)).
Proof.
  induction 1 as [|c a Hc Ha IH]; [constructor|]. rewrite nl_split_cons. destruct (c =? NL); [done|]. destruct (fst (nl_split a)); [by constructor|done].
Qed.

(** Every line, the last included, fits into the buffer. *)
Definition short_lines (t : list Z) : Prop := Forall (fun l => (length l < BUFSZ - 1)%nat) (fst (nl_split t) ++ [snd (nl_split t)]).
Lemma short_lines_start a b : nl_split a = ([], a) -> short_lines (a ++ b) -> (length a < BUFSZ - 1)%nat.
Proof.
  intros Ha Hs. enough (exists l ls, fst (nl_split (a ++ b)) ++ [snd (nl_split (a ++ b))] = (a ++ l) :: ls) as (l & ls & He).
  { unfold short_lines in Hs. rewrite He in Hs. apply Forall_cons in Hs as [Hs _]. rewrite length_app in Hs. lia. }
  clear Hs. induction a as [|c a IH]; [destruct (nl_split b) as [[|l ls] r] eqn:Hb; simpl; rewrite Hb; simpl; eauto|].
  rewrite nl_split_cons in Ha. rewrite <- app_comm_cons, nl_split_cons. destruct (c =? NL); [done|].
  destruct (nl_split a) as [[|x xs] y] eqn:Hy; cbn [fst snd] in Ha; [|done]. injection Ha as ->.
  destruct IH as (l & ls & He); [done|]. destruct (nl_split (a ++ b)) as [[|z zs] w]; cbn [fst snd] in *.
  - injection He as -> <-. exists l, []. done.
  - injection He as -> <-. exists l, (zs ++ [w]). done.
Qed.
Lemma short_lines_app a b : short_lines (a ++ b) -> short_lines (snd (nl_split a) ++ b).
Proof. unfold short_lines. rewrite (nl_split_app a b). cbn [fst snd]. rewrite <- app_assoc. intros H. by apply Forall_app in H as [_ H]. Qed.

Lemma grep_ok pattern : forall fuel sizes buf input, (length input < fuel)%nat -> Forall (fun c => c <> 0) (buf ++ input) ->
  nl_split buf = ([], buf) -> short_lines (buf ++ input) ->
  grep fuel pattern sizes buf input = Ok (selected pattern (fst (nl_split (buf ++ input)))).
Proof.
  induction fuel as [|fuel IH]; intros sizes buf input Hf Hnz Hb Hs; [lia|].
  pose proof (short_lines_start buf input Hb Hs) as Hlen. cbn [grep]. unfold read.
  set (k := Nat.min (S (hd 0%nat sizes)) _). cbv zeta. cbn [fst snd].
  destruct (take k input) as [|c t] eqn:Ht.
  { destruct input as [|x input]; [rewrite app_nil_r, Hb; reflexivity|].
    assert (1 <= k)%nat by (unfold k; simpl length; lia). destruct k; [lia|done]. }
  rewrite <- Ht. assert (length (drop k input) < fuel)%nat as Hd.
  { rewrite length_drop. apply (f_equal length) in Ht. rewrite length_take in Ht. simpl in Ht. lia. }
  assert (buf ++ input = (buf ++ take k input) ++ drop k input) as Happ by (by rewrite <- app_assoc, take_drop).
  rewrite Happ in Hnz, Hs |- *. pose proof Hnz as Hnz1. apply Forall_app in Hnz1 as [Hn1 Hn2].
  rewrite grep_lines_spec by done. cbn [fst snd].
  rewrite IH; [|done| |by apply nl_split_rest|by apply short_lines_app].
  - simpl. rewrite (nl_split_app (buf ++ take k input)). cbn [fst]. unfold selected. by rewrite map_app, concat_app.
  - apply Forall_app. split; [by apply nl_split_forall|done].
Qed.

(** Grep() of a file without NUL bytes whose lines fit into its buffer writes
    exactly the complete lines that match the pattern, in order, however the
    input is cut into pieces by read(); it needs at most one call of read() per
    byte.  What follows the last newline is never looked at. *)
Theorem grep_correct pattern sizes input :
  Forall (fun c => c <> 0) input -> short_lines input ->
  grep (S (length input)) pattern sizes [] input = Ok (selected pattern (fst (nl_split input))).
Proof. intros Hn Hs. apply (grep_ok pattern); [lia|done|done|done]. Qed.

(** "a.c" in "abc\nxyz\naac\n" *)
Lemma grep_correct_witness :
  grep 13 [97; 46; 99] [2%nat; 0%nat; 3%nat] [] [97; 98; 99; 10; 120; 121; 122; 10; 97; 97; 99; 10] = Ok [97; 98; 99; 10; 97; 97; 99; 10].
Proof.
  refine (grep_correct [97; 46; 99] [2%nat; 0%nat; 3%nat] [97; 98; 99; 10; 120; 121; 122; 10; 97; 97; 99; 10] _ _).
  - repeat constructor; discriminate.
  - unfold short_lines, BUFSZ. simpl. repeat constructor; simpl; lia.
Defined.
