(* ===== verification/Printf.v ===== *)
(** * Formatted output (user/printf.c, kernel/printk.c)

    The routines return the bytes they write.  A byte stored behind the end of
    printint()'s buffer, a missing argument or one of the wrong type is
    undefined behaviour. *)
From Stdlib Require Import ZArith Lia Ascii String.
From stdpp Require Import base list.
From S2P Require Import Prelude.

(** The bytes of a string literal. *)
Definition bytes (s : string) : list Z := map (fun c => Z.of_nat (nat_of_ascii c)) (list_ascii_of_string s).

Definition udigits : list Z := bytes "0123456789ABCDEF".
Definition kdigits : list Z := bytes "0123456789abcdef".

(** ** Numbers *)

(** do { buf[i++] = digits[x % base]; } while ((x /= base) != 0); a 64-bit
    number has at most 64 digits. *)
Fixpoint printint_loop (fuel : nat) (digits : list Z) (base x : Z) (buf : list Z) : outcome (list Z) :=
  match fuel with
  | O => NoFuel
  | S fuel =>
      if (20 <=? Z.of_nat (length buf)) then UB
      else
        let buf := buf ++ [nth (Z.to_nat (x mod base)) digits 0] in
        let x := x / base in
        if x =? 0 then Ok buf else printint_loop fuel digits base x buf
  end.

(** printint(); [-xx] overflows for the smallest long long. *)
Definition printint (digits : list Z) (xx base : Z) (sgn : bool) : outcome (list Z) :=
  let neg := sgn && (xx <? 0) in
  if neg && (xx =? - 2 ^ 63) then UB
  else
    let x := if neg then u64 (- xx) else u64 xx in
    obind (printint_loop 64 digits base x []) (fun buf =>
      if neg && (20 <=? Z.of_nat (length buf)) then UB
      else Ok (rev (if neg then buf ++ [45] else buf))).

(** The loop of printptr(): [n] digits are left. *)
Fixpoint printptr_loop (n : nat) (digits : list Z) (x : Z) : list Z :=
  match n with
  | O => []
  | S n => nth (Z.to_nat (Z.shiftr x 60)) digits 0 :: printptr_loop n digits (u64 (Z.shiftl x 4))
  end.
Definition printptr (digits : list Z) (x : Z) : list Z := 48 :: 120 :: printptr_loop 16 digits x.

(** ** Formats *)

(** A variable argument: an integer register or a string, maybe NULL. *)
Inductive va : Type := VInt (x : Z) | VStr (s : option (list Z)).
Definition i64 (x : Z) : Z := let y := u64 x in if y <? 2 ^ 63 then y else y - 2 ^ 64.

(** The conversion a directive asks for, and how many more characters than the
    first one it has. *)
Inductive conv : Type := CInt | CLong | CUint | CUlong | CHex | CLhex | CPtr | CChar | CStr | CPercent | CUnknown.
Definition chr_is (c : Z) (s : string) : bool := c =? nth 0 (bytes s) 0.
Definition directive (c0 c1 c2 : Z) : conv * nat :=
  if chr_is c0 "d" then (CInt, 0%nat)
  else if chr_is c0 "l" && chr_is c1 "d" then (CLong, 1%nat)
  else if chr_is c0 "l" && chr_is c1 "l" && chr_is c2 "d" then (CLong, 2%nat)
  else if chr_is c0 "u" then (CUint, 0%nat)
  else if chr_is c0 "l" && chr_is c1 "u" then (CUlong, 1%nat)
  else if chr_is c0 "l" && chr_is c1 "l" && chr_is c2 "u" then (CUlong, 2%nat)
  else if chr_is c0 "x" then (CHex, 0%nat)
  else if chr_is c0 "l" && chr_is c1 "x" then (CLhex, 1%nat)
  else if chr_is c0 "l" && chr_is c1 "l" && chr_is c2 "x" then (CLhex, 2%nat)
  else if chr_is c0 "p" then (CPtr, 0%nat)
  else if chr_is c0 "c" then (CChar, 0%nat)
  else if chr_is c0 "s" then (CStr, 0%nat)
  else if chr_is c0 "%" then (CPercent, 0%nat)
  else (CUnknown, 0%nat).

(** The output of a directive and the arguments left; [putc] is putc() or
    consputc(). *)
Definition convert (digits : list Z) (putc : Z -> list Z) (k : conv) (c0 : Z) (ap : list va) : outcome (list Z * list va) :=
  let int (f : Z -> outcome (list Z)) :=
    match ap with
    | VInt x :: ap => obind (f x) (fun o => Ok (o, ap))
    | _ => UB
    end in
  match k with
  | CInt => int (fun x => printint digits (i32 x) 10 true)
  | CLong => int (fun x => printint digits (i64 x) 10 true)
  | CUint => int (fun x => printint digits (u32 x) 10 false)
  | CUlong => int (fun x => printint digits (i64 x) 10 false)
  | CHex => int (fun x => printint digits (u32 x) 16 false)
  | CLhex => int (fun x => printint digits (i64 x) 16 false)
  | CPtr => int (fun x => Ok (printptr digits (u64 x)))
  | CChar => int (fun x => Ok (putc (u32 x)))
  | CStr =>
      match ap with
      | VStr s :: ap => Ok (concat (map putc (default (bytes "(null)") s)), ap)
      | _ => UB
      end
  | CPercent => Ok (putc 37, ap)
  | CUnknown => Ok (putc 37 ++ putc c0, ap)
  end.

(** putc() of user/printf.c writes one char. *)
Definition putc (c : Z) : list Z := [u8 c].
(** consputc() of kernel/console.c. *)
Definition BACKSPACE : Z := 256.
Definition consputc (c : Z) : list Z := if c =? BACKSPACE then [8; 32; 8] else [u8 c].

(** vprintf(): [state] is whether the last character was a percent sign. *)
Fixpoint vprintf (fmt : list Z) (state : bool) (ap : list va) : outcome (list Z) :=
  match fmt with
  | [] => Ok []
  | c0 :: f1 =>
      if negb state then
        if c0 =? 37 then vprintf f1 true ap
        else obind (vprintf f1 false ap) (fun o => Ok (putc c0 ++ o))
      else
        let c1 := hd 0 f1 in
        let c2 := if c1 =? 0 then 0 else hd 0 (tail f1) in
        let d := directive c0 c1 c2 in
        obind (convert udigits putc (fst d) c0 ap) (fun r =>
          obind (match snd d, f1 with
                 | O, _ => vprintf f1 false (snd r)
                 | 1%nat, _ :: f2 => vprintf f2 false (snd r)
                 | 2%nat, _ :: _ :: f3 => vprintf f3 false (snd r)
                 | _, _ => UB
                 end) (fun o => Ok (fst r ++ o)))
  end.

(** printk() of kernel/printk.c, less its lock; [digits] as in its file. *)
Fixpoint printk (digits : list Z) (fmt : list Z) (ap : list va) : outcome (list Z) :=
  match fmt with
  | [] => Ok []
  | cx :: f0 =>
      if negb (cx =? 37) then obind (printk digits f0 ap) (fun o => Ok (consputc cx ++ o))
      else
        match f0 with
        | [] => Ok []
        | c0 :: f1 =>
            let c1 := hd 0 f1 in
            let c2 := if c1 =? 0 then 0 else hd 0 (tail f1) in
            let d := directive c0 c1 c2 in
            obind (convert digits consputc (fst d) c0 ap) (fun r =>
              obind (match snd d, f1 with
                     | O, _ => printk digits f1 (snd r)
                     | 1%nat, _ :: f2 => printk digits f2 (snd r)
                     | 2%nat, _ :: _ :: f3 => printk digits f3 (snd r)
                     | _, _ => UB
                     end) (fun o => Ok (fst r ++ o)))
        end
  end.

Example vprintf_ex : vprintf (bytes "pid %d: %s 0x%x%%") false [VInt (-7); VStr (Some (bytes "sh")); VInt 48879] = Ok (bytes "pid -7: sh 0xBEEF%").
Proof. reflexivity. Qed.

(** ** Reading a number back *)
Definition digit_val (digits : list Z) (c : Z) : Z :=
  match list_find (fun d => d = c) digits with Some (n, _) => Z.of_nat n | None => -1 end.
Definition number (digits : list Z) (base : Z) (l : list Z) : Z := fold_left (fun a c => a * base + digit_val digits c) l 0.
Definition decode (digits : list Z) (base : Z) (l : list Z) : Z :=
  match l with
  | c :: r => if c =? 45 then - number digits base r else number digits base l
  | [] => 0
  end.

Definition is_digits (digits : list Z) : Prop := digits = udigits \/ digits = kdigits.

Lemma digit_val_nth digits d : is_digits digits -> 0 <= d < 16 -> digit_val digits (nth (Z.to_nat d) digits 0) = d /\ nth (Z.to_nat d) digits 0 <> 45.
Proof.
  intros Hd Hr. assert (In d (map Z.of_nat (seq 0 16))) as Hin.
  { apply in_map_iff. exists (Z.to_nat d). split; [lia|]. apply in_seq. lia. }
  destruct Hd as [-> | ->]; simpl in Hin; repeat (destruct Hin as [<-|Hin]; [split; [reflexivity|vm_compute; discriminate]|]); done.
Qed.

(** The digits of [x], the last one first. *)
Lemma printint_loop_ok digits base : is_digits digits -> 2 <= base <= 16 -> forall n fuel x buf,
  0 <= x < base ^ Z.of_nat n -> (n <= fuel)%nat -> (0 < n)%nat -> (length buf + n <= 20)%nat ->
  exists ds, printint_loop fuel digits base x buf = Ok (buf ++ ds) /\ number digits base (rev ds) = x /\ (0 < length ds <= n)%nat /\
    (forall c, c ∈ ds -> c <> 45) /\ (x <> 0 -> hd 0 (rev ds) <> nth 0 digits 0).
Proof.
  intros Hd Hb. induction n as [|n IH]; intros fuel x buf Hx Hf Hn Hl; [lia|]. destruct fuel as [|fuel]; [lia|]. cbn [printint_loop].
  rewrite (proj2 (Z.leb_gt _ _)) by lia. pose proof (Z.mod_pos_bound x base ltac:(lia)) as Hm.
  destruct (digit_val_nth digits (x mod base) Hd ltac:(lia)) as [Hdv Hne].
  pose proof (Z.div_mod x base ltac:(lia)) as Hdm. destruct (Z.eqb_spec (x / base) 0) as [H0|H0].
  - exists [nth (Z.to_nat (x mod base)) digits 0]. split; [done|]. split.
    { unfold number. simpl. rewrite Hdv. lia. }
    split; [simpl; lia|]. split; [intros c Hc; apply list_elem_of_singleton in Hc as ->; done|].
    intros Hnz. simpl. intros Heq. apply Hnz. assert (x mod base = 0) as Hz; [|lia].
    destruct (digit_val_nth digits 0 Hd ltac:(lia)) as [Hd0 _]. change (Z.to_nat 0) with 0%nat in Hd0. rewrite <- Hdv, Heq. exact Hd0.
  - assert (0 <= x / base < base ^ Z.of_nat n) as Hq.
    { split; [apply Z.div_pos; lia|]. apply Z.div_lt_upper_bound; [lia|]. rewrite <- Z.pow_succ_r by lia. rewrite <- Nat2Z.inj_succ. lia. }
    destruct (decide (n = 0%nat)) as [->|Hn0]; [simpl in Hq; lia|].
    destruct (IH fuel (x / base) (buf ++ [nth (Z.to_nat (x mod base)) digits 0]) Hq ltac:(lia) ltac:(lia)) as (ds & Hr & Hv & Hlen & Hmin & Hlead).
    { rewrite length_app. simpl. lia. }
    exists (nth (Z.to_nat (x mod base)) digits 0 :: ds). rewrite Hr, <- app_assoc. split; [done|].
    cbn [rev]. split; [|split; [simpl; lia|split]].
    + unfold number in *. rewrite fold_left_app, Hv. simpl. rewrite Hdv. lia.
    + intros c Hc. apply elem_of_cons in Hc as [->|Hc]; [done|by apply Hmin].
    + intros _. destruct (rev ds) as [|y r] eqn:Hrev; [apply (f_equal (@length Z)) in Hrev; rewrite length_rev in Hrev; simpl in Hrev; lia|].
      simpl in *. by apply Hlead.
Qed.

Lemma rev_first (ds : list Z) : (0 < length ds)%nat -> (forall c, c ∈ ds -> c <> 45) -> exists c r, rev ds = c :: r /\ c <> 45.
Proof.
  intros Hl Hc. destruct (rev ds) as [|c r] eqn:Hr; [apply (f_equal (@length Z)) in Hr; rewrite length_rev in Hr; simpl in Hr; lia|].
  exists c, r. split; [done|]. apply Hc, list_elem_of_In, in_rev. rewrite Hr. by left.
Qed.

(** printint() never leaves its 20 byte buffer, for any 64-bit number but the
    smallest signed one, in both bases in use; reading its output back gives
    the number, and the first digit is not 0 unless the number is. *)
Theorem printint_roundtrip digits base xx sgn :
  is_digits digits -> base = 10 \/ base = 16 -> - 2 ^ 63 < xx < 2 ^ 63 ->
  exists out, printint digits xx base sgn = Ok out /\ (length out <= 20)%nat /\
    decode digits base out = (if sgn then xx else u64 xx) /\
    (xx <> 0 -> hd 0 out <> nth 0 digits 0).
Proof.
  intros Hd Hb Hx. unfold printint. set (neg := sgn && (xx <? 0)).
  rewrite (proj2 (Z.eqb_neq xx (- 2 ^ 63))) by lia. rewrite andb_false_r.
  set (x := if neg then u64 (- xx) else u64 xx). set (n := if neg then 19%nat else 20%nat).
  assert (0 <= x < base ^ Z.of_nat n) as Hxr.
  { assert (10 ^ Z.of_nat n <= base ^ Z.of_nat n) as Hp by (apply Z.pow_le_mono_l; destruct Hb; lia).
    unfold x, n, neg in *. destruct sgn, (Z.ltb_spec xx 0); cbn [andb] in *; pose proof (u64_range xx);
      rewrite ?(u64_small (- xx)) by lia; change (Z.of_nat 19) with 19 in *; change (Z.of_nat 20) with 20 in *; lia. }
  destruct (printint_loop_ok digits base Hd ltac:(destruct Hb; lia) n 64 x [] Hxr) as (ds & Hr & Hv & Hlen & Hmin & Hlead);
    [unfold n; destruct neg; lia|unfold n; destruct neg; lia|unfold n; destruct neg; simpl; lia|].
  rewrite Hr. cbn [obind]. rewrite app_nil_l. destruct (rev_first ds ltac:(lia) Hmin) as (c & r & Hrev & Hc).
  assert (neg = true -> x = - xx /\ sgn = true) as Hneg.
  { intros H. unfold x. rewrite H. unfold neg in H. apply andb_true_iff in H as [-> Hlt]. apply Z.ltb_lt in Hlt. rewrite u64_small by lia. done. }
  destruct neg eqn:Hng; cbn [andb].
  - rewrite (proj2 (Z.leb_gt _ _)) by (unfold n in Hlen; lia). destruct (Hneg eq_refl) as [Hxx ->].
    eexists. split; [reflexivity|]. rewrite rev_unit. split; [simpl; rewrite length_rev; unfold n in Hlen; lia|]. split.
    + unfold decode. rewrite Z.eqb_refl, Hv, Hxx. lia.
    + intros _. simpl. destruct Hd as [-> | ->]; vm_compute; discriminate.
  - eexists. split; [reflexivity|]. split; [rewrite length_rev; unfold n in Hlen; lia|]. split.
    + rewrite Hrev. unfold decode. rewrite (proj2 (Z.eqb_neq c 45)) by done. rewrite <- Hrev, Hv. unfold x.
      destruct sgn; [|done]. unfold neg in Hng. apply andb_false_iff in Hng as [|Hge]; [done|]. apply Z.ltb_ge in Hge. apply u64_small. lia.
    + intros Hnz. apply Hlead. unfold x, u64. intros Hz. apply Z.mod_divide in Hz as [q Hq]; lia.
Qed.

Lemma printint_roundtrip_witness : exists out, printint udigits (-42) 10 true = Ok out /\ decode udigits 10 out = -42.
Proof.
  destruct (printint_roundtrip udigits 10 (-42) true) as (out & Hr & _ & Hd & _); [by left|by left|lia|].
  exists out. exact (conj Hr Hd).
Defined.

(** ** The two formatters *)

(** Arguments and strings of characters that putc() and consputc() write alike. *)
Definition byte (c : Z) : Prop := 0 < c < 256.
Definition va_ok (a : va) : Prop :=
  match a with VInt x => u32 x <> BACKSPACE | VStr s => Forall byte (default [] s) end.

Lemma consputc_putc c : c <> BACKSPACE -> consputc c = putc c.
Proof. intros H. unfold consputc. by rewrite (proj2 (Z.eqb_neq _ _)) by done. Qed.
Lemma concat_putc l : Forall byte l -> concat (map consputc l) = concat (map putc l).
Proof.
  induction 1 as [|c l Hc _ IH]; [done|]. simpl. rewrite IH, consputc_putc; [done|]. unfold byte, BACKSPACE in *. lia.
Qed.
Lemma convert_putc digits k c0 ap : byte c0 -> Forall va_ok ap -> convert digits consputc k c0 ap = convert digits putc k c0 ap.
Proof.
  intros Hc Hap. unfold convert. destruct k; try done.
  - destruct ap as [|[x|s] ap]; try done. apply Forall_cons in Hap as [Hx _]. simpl in Hx. by rewrite consputc_putc.
  - destruct ap as [|[x|s] ap]; try done. apply Forall_cons in Hap as [Hs _]. destruct s as [s|]; [|done]. simpl in *. by rewrite concat_putc.
  - rewrite (consputc_putc c0); [done|]. unfold byte, BACKSPACE in *. lia.
Qed.
Lemma convert_rest digits p k c0 ap o ap' : convert digits p k c0 ap = Ok (o, ap') -> Forall va_ok ap -> Forall va_ok ap'.
Proof.
  intros H Hap. unfold convert in H.
  destruct k; try (destruct ap as [|[x|s] ap]; [done| |]; try done; apply Forall_cons in Hap as [_ Hap];
    try (apply (f_equal (fun r => match r with Ok r => snd r | _ => ap end)) in H; simpl in H; subst; done));
    try (destruct (printint _ _ _ _); simpl in H; try done; injection H as _ <-; done); injection H as _ <-; done.
Qed.

(** printk() and the printf() of user programs write the same bytes for the
    same format and arguments (up to the case of hexadecimal digits), and the
    same calls have undefined behaviour: although one keeps a state between
    characters and the other looks ahead, they agree on every directive, on
    unknown ones and on a percent sign at the end. *)
Theorem printk_vprintf fmt ap :
  Forall byte fmt -> Forall va_ok ap -> printk udigits fmt ap = vprintf fmt false ap.
Proof.
  remember (length fmt) as n eqn:Hn. assert (length fmt <= n)%nat as Hl by lia. clear Hn. revert fmt ap Hl.
  induction n as [|n IH]; intros fmt ap Hl Hf Ha; [destruct fmt; [done|simpl in Hl; lia]|].
  destruct fmt as [|cx f0]; [done|]. simpl in Hl. apply Forall_cons in Hf as [Hcx Hf]. cbn [printk vprintf negb].
  destruct (Z.eqb_spec cx 37) as [->|Hp]; cbn [negb].
  - destruct f0 as [|c0 f1]; [done|]. apply Forall_cons in Hf as [Hc0 Hf]. simpl in Hl. cbn [vprintf negb].
    set (d := directive _ _ _). rewrite convert_putc by done. destruct (convert udigits putc (fst d) c0 ap) as [[o ap']| | | |] eqn:Hc; try done.
    pose proof (convert_rest _ _ _ _ _ _ _ Hc Ha) as Ha'. cbn [obind fst snd].
    destruct (snd d) as [|[|[|k]]]; [|destruct f1 as [|c1 f2]|destruct f1 as [|c1 [|c2 f3]]|]; try done; simpl in Hl.
    + by rewrite IH by (done || lia).
    + apply Forall_cons in Hf as [_ Hf]. by rewrite IH by (done || lia).
    + apply Forall_cons in Hf as [_ Hf]. apply Forall_cons in Hf as [_ Hf]. by rewrite IH by (done || lia).
  - rewrite IH by (done || lia). rewrite consputc_putc; [done|]. unfold byte, BACKSPACE in *. lia.
Qed.
Lemma printk_vprintf_witness : printk udigits (bytes "%d %s%") [VInt 5; VStr None] = Ok (bytes "5 (null)").
Proof.
  rewrite (printk_vprintf (bytes "%d %s%") [VInt 5; VStr None]).
  - reflexivity.
  - repeat constructor.
  - constructor; [discriminate|]. constructor; constructor.
Defined.
