(* ===== verification/Ulib.v ===== *)
(** * The C library of user programs (user/ulib.c)

    String and memory routines over a byte memory, as in [CString]; the
    routines that are the same loops as in kernel/string.c are used from there.
    Strings that are only read are lists of bytes. *)
From stdpp Require Import base list.
From Stdlib Require Import ZArith Lia.
From S2P Require Import Prelude CString Printf.

(** while ( *s++ = *t++) != 0); [fuel] bounds the search for the terminator. *)
Fixpoint strcpy (fuel : nat) (m : mem) (s t : Z) : outcome mem :=
  match fuel with
  | O => NoFuel
  | S fuel =>
      let c := m t in
      let m := store m s c in
      if c =? 0 then Ok m else strcpy fuel m (s + 1) (t + 1)
  end.
Fixpoint strcmp (fuel : nat) (m : mem) (p q : Z) : outcome Z :=
  match fuel with
  | O => NoFuel
  | S fuel => if negb (m p =? 0) && (m p =? m q) then strcmp fuel m (p + 1) (q + 1) else Ok (m p - m q)
  end.
(** strchr(): the address of the character, or NULL. *)
Fixpoint strchr (fuel : nat) (m : mem) (s c : Z) : outcome (option Z) :=
  match fuel with
  | O => NoFuel
  | S fuel => if m s =? 0 then Ok None else if m s =? c then Ok (Some s) else strchr fuel m (s + 1) c
  end.
Definition umemmove (m : mem) (vdst vsrc n : Z) : mem :=
  if vdst <? vsrc then copy_up m vdst vsrc (Z.to_nat n) else copy_down m (vdst + n) (vsrc + n) (Z.to_nat n).
Definition umemset (m : mem) (dst c n : Z) : mem := memset_loop m dst (u8 c) 0 (Z.to_nat n).

(** atoi(); the additions of int can overflow. *)
Fixpoint atoi_loop (n : Z) (s : list Z) : outcome Z :=
  match s with
  | c :: s => if (48 <=? c) && (c <=? 57) then if 2 ^ 31 <=? n * 10 + c then UB else atoi_loop (n * 10 + c - 48) s else Ok n
  | [] => Ok n
  end.
Definition atoi (s : list Z) : outcome Z := atoi_loop 0 s.

(** gets(): the bytes in the buffer before the NUL, and the input left; the
    loop reads one byte at a time. *)
Fixpoint gets_loop (n : nat) (input : list Z) : list Z * list Z :=
  match n, input with
  | S n, c :: input =>
      if (c =? 10) || (c =? 13) then ([c], input)
      else let r := gets_loop n input in (c :: fst r, snd r)
  | _, _ => ([], input)
  end.
Definition gets (max : Z) (input : list Z) : list Z * list Z := gets_loop (Z.to_nat (max - 1)) input.

(** strlen() and memcmp() are the loops of kernel/string.c: char is unsigned on
    RISC-V. *)
Definition ustrlen (fuel : nat) (m : mem) (s : Z) : option Z := strlen fuel m s.
Definition umemcmp (m : mem) (s1 s2 n : Z) : Z := memcmp m s1 s2 n.
Definition umemcpy (m : mem) (dst src n : Z) : mem := umemmove m dst src n.

(** sbrk() and sbrklazy(), with SBRK_EAGER and SBRK_LAZY of kernel/vm.h *)
Section Sbrk.
Context {W : Type} (sys_sbrk : Z -> Z -> M W Z).
Definition sbrk (n : Z) : M W Z := sys_sbrk n 1.
Definition sbrklazy (n : Z) : M W Z := sys_sbrk n 2.
End Sbrk.

(** ** Lemmas *)
Lemma umemmove_spec m dst src n x :
  umemmove m dst src n x = if decide (dst <= x < dst + n) then m (src + (x - dst)) else m x.
Proof.
  unfold umemmove. destruct (Z.ltb_spec dst src).
  - rewrite copy_up_spec by lia. destruct (decide (dst <= x < dst + Z.of_nat (Z.to_nat n))), (decide (dst <= x < dst + n)); try done; lia.
  - rewrite copy_down_spec by lia.
    destruct (decide (dst + n - Z.of_nat (Z.to_nat n) <= x < dst + n)), (decide (dst <= x < dst + n)); try done; try lia. f_equal. lia.
Qed.

(** The copy has the terminator at the same place; [n] bytes of [t] are not NUL. *)
Lemma strcpy_ok n : forall m s t, (forall i, 0 <= i < Z.of_nat n -> m (t + i) <> 0) -> m (t + Z.of_nat n) = 0 ->
  s + Z.of_nat n < t \/ t + Z.of_nat n < s ->
  exists m', strcpy (S n) m s t = Ok m' /\ forall x, m' x = if decide (s <= x <= s + Z.of_nat n) then m (t + (x - s)) else m x.
Proof.
  induction n as [|n IH]; intros m s t Hn H0 Hd; cbn [strcpy].
  - rewrite Z.add_0_r in H0. rewrite H0. simpl. eexists. split; [reflexivity|]. intros x. destruct (decide _).
    + assert (x = s) as -> by lia. rewrite store_eq. rewrite <- H0. f_equal. lia.
    + rewrite store_ne by lia. done.
  - assert (m t <> 0) as Ht by (rewrite <- (Z.add_0_r t); apply Hn; lia). rewrite (proj2 (Z.eqb_neq _ _) Ht).
    destruct (IH (store m s (m t)) (s + 1) (t + 1)) as (m' & Hr & Hm').
    + intros i Hi. rewrite store_ne by lia. rewrite <- Z.add_assoc. apply Hn. lia.
    + rewrite store_ne by lia. rewrite <- H0. f_equal. lia.
    + lia.
    + exists m'. split; [exact Hr|]. intros x. rewrite Hm'.
      destruct (decide (s + 1 <= x <= s + 1 + Z.of_nat n)), (decide (s <= x <= s + Z.of_nat (S n))); try lia.
      * rewrite store_ne by lia. f_equal. lia.
      * assert (x = s) as -> by lia. rewrite store_eq. f_equal. lia.
      * rewrite store_ne by lia. done.
Qed.

Lemma digit_char d : 0 <= d < 10 -> nth (Z.to_nat d) udigits 0 = 48 + d.
Proof.
  intros Hd. assert (In d (map Z.of_nat (seq 0 10))) as Hin.
  { apply in_map_iff. exists (Z.to_nat d). split; [lia|]. apply in_seq. lia. }
  simpl in Hin; repeat (destruct Hin as [<-|Hin]; [reflexivity|]); done.
Qed.
(** The decimal digits printint() writes. *)
Lemma printint_dec_digits fuel : forall x buf out, 0 <= x -> printint_loop fuel udigits 10 x buf = Ok out ->
  exists ds, out = buf ++ map (fun d => 48 + d) ds /\ Forall (fun d => 0 <= d < 10) ds /\ foldr (fun d a => d + 10 * a) 0 ds = x.
Proof.
  induction fuel as [|fuel IH]; intros x buf out Hx; cbn [printint_loop]; [done|]. destruct (20 <=? _); [done|].
  pose proof (Z.mod_pos_bound x 10 ltac:(lia)) as Hm. pose proof (Z.div_mod x 10 ltac:(lia)) as Hdm. rewrite digit_char by done.
  destruct (Z.eqb_spec (x / 10) 0) as [H0|H0].
  - intros [= <-]. exists [x mod 10]. split; [done|]. split; [by constructor|]. simpl. lia.
  - intros H. apply IH in H as (ds & -> & Hf & Hv); [|apply Z.div_pos; lia]. exists (x mod 10 :: ds).
    split; [by rewrite <- app_assoc|]. split; [by constructor|]. simpl. lia.
Qed.
(** atoi() on digits, the last one first in [ds]. *)
Lemma atoi_loop_digits ds : Forall (fun d => 0 <= d < 10) ds -> foldr (fun d a => d + 10 * a) 0 ds + 48 < 2 ^ 31 ->
  forall rest, atoi_loop 0 (rev (map (fun d => 48 + d) ds) ++ rest) = atoi_loop (foldr (fun d a => d + 10 * a) 0 ds) rest.
Proof.
  induction 1 as [|d ds Hd Hf IH]; intros Hb rest; [done|]. simpl in Hb. cbn [map rev foldr].
  assert (0 <= foldr (fun d a => d + 10 * a) 0 ds) as Hpos by (clear -Hf; induction Hf; simpl; lia).
  rewrite <- app_assoc. rewrite IH by lia. cbn [app atoi_loop].
  rewrite (proj2 (Z.leb_le 48 (48 + d))), (proj2 (Z.leb_le (48 + d) 57)) by lia. cbn [andb]. rewrite (proj2 (Z.leb_gt _ _)) by lia. f_equal. lia.
Qed.

(** atoi() reads back what printf("%d") has written, for every number up to
    the last one whose digits do not overflow an int on the way. *)
Theorem atoi_printint x :
  0 <= x < 2 ^ 31 - 48 -> exists out, printint udigits x 10 true = Ok out /\ atoi out = Ok x.
Proof.
  intros Hx. destruct (printint_loop_ok udigits 10 ltac:(by left) ltac:(done) 20 64 x []) as (ds & Hr & _);
    [assert (2 ^ 31 < 10 ^ Z.of_nat 20) by done; lia|lia|lia|simpl; lia|].
  unfold printint. rewrite (proj2 (Z.ltb_ge x 0)) by lia. cbn [andb]. rewrite u64_small by lia. rewrite Hr. cbn [obind app].
  eexists. split; [reflexivity|]. destruct (printint_dec_digits 64 x [] _ (proj1 Hx) Hr) as (l & Hl & Hf & Hv). simpl in Hl. subst ds.
  unfold atoi. rewrite <- (app_nil_r (rev _)), atoi_loop_digits by (done || lia). by rewrite Hv.
Qed.
Lemma atoi_printint_witness : exists out, printint udigits 1234 10 true = Ok out /\ atoi out = Ok 1234.
Proof. apply (atoi_printint 1234). lia. Defined.

(** The memmove() of user programs and the one of the kernel do the same to
    memory, whatever the overlap, though they choose the direction differently. *)
Theorem umemmove_memmove m dst src n : 0 <= n -> forall x, umemmove m dst src n x = memmove m dst src n x.
Proof. intros Hn x. by rewrite umemmove_spec, memmove_spec. Qed.
Lemma umemmove_memmove_witness : umemmove (two_objects [1; 2; 3] []) 1 0 2 2 = memmove (two_objects [1; 2; 3] []) 1 0 2 2.
Proof. apply (umemmove_memmove (two_objects [1; 2; 3] []) 1 0 2). lia. Defined.
