(* ===== verification/Tools.v ===== *)
(** * The small tools (user/cat.c, echo.c, wc.c, ls.c, rm.c, mkdir.c, ln.c,
      kill.c, sync.c, init.c, schedinfo.c, main() of grep.c, stat() of ulib.c)

    A program runs over the system calls of the class [Sys].  A string is the
    list of its bytes; argv[0] is the first of [argv].  The loops that read
    until the end of a file, and those of init, have a bound [fuel]. *)
From stdpp Require Import base list strings gmap.
From Stdlib Require Import ZArith Lia.
From S2P Require Import Prelude KState Proc FsState Fs Sysfile Grep Printf Ulib.

(** ** Programs *)

(** How a program ends. *)
Inductive fin : Type := Exited (status : Z) | Execed (path : list Z) (argv : list (list Z)).
(** A routine of a program returns, or ends the program. *)
Definition U (W A : Type) : Type := M W (A + fin).

Section Monad.
Context {W : Type}.
Definition uret {A} (a : A) : U W A := mret (inl a).
Definition ubind {A B} (m : U W A) (k : A -> U W B) : U W B :=
  let* r := m in match r with inl a => k a | inr f => mret (inr f) end.
Definition exit {A} (status : Z) : U W A := mret (inr (Exited status)).
Definition sys {A} (op : M W A) : U W A := let* a := op in uret a.
(** for (i = 1; i < argc; i++), until the body answers [false] *)
Fixpoint ufor {A} (l : list A) (body : A -> U W bool) : U W unit :=
  match l with
  | [] => uret tt
  | a :: l => ubind (body a) (fun go => if go then ufor l body else uret tt)
  end.
Fixpoint uloop {A B} (fuel : nat) (body : A -> U W (A + B)) (a : A) : U W B :=
  match fuel with
  | O => mnofuel
  | S fuel => ubind (body a) (fun r => match r with inl a => uloop fuel body a | inr b => uret b end)
  end.
End Monad.
Notation "'do*' x := m 'in' k" := (ubind m (fun x => k)) (at level 10, x pattern, m at level 100, k at level 200) : kernel_scope.
Notation "m ';;!' k" := (ubind m (fun _ => k)) (at level 199, right associativity) : kernel_scope.

(** The system calls of user.h: [read] answers with the bytes it has put into
    the buffer, [exec] whether it has succeeded. *)
Class Sys (W : Type) : Type := {
  sys_open : list Z -> Z -> M W Z;
  sys_read : Z -> Z -> M W (Z * list Z);
  sys_write : Z -> list Z -> M W Z;
  sys_close : Z -> M W Z;
  sys_fstat : Z -> M W (Z * stat);
  sys_unlink : list Z -> M W Z;
  sys_mkdir : list Z -> M W Z;
  sys_mknod : list Z -> Z -> Z -> M W Z;
  sys_link : list Z -> list Z -> M W Z;
  sys_dup : Z -> M W Z;
  sys_kill : Z -> M W Z;
  sys_sync : M W Z;
  sys_fork : M W Z;
  sys_exec : list Z -> list (list Z) -> M W bool;
  sys_wait : M W Z;
  sys_getpid : M W Z;
  sys_set_prio : Z -> Z -> M W Z;
  sys_get_psinfo : Z -> M W (Z * psinfo);
  sys_sys_stat : M W (Z * sched_stat)
}.

(** strchr(" \r\t\n\v", c), which does not find the NUL *)
Definition blanks : list Z := [32; 13; 9; 10; 11].
Definition blank (c : Z) : bool := bool_decide (c ∈ blanks).

(** The end of the path behind the last slash, padded to the length of a name. *)
Fixpoint before_slash (l : list Z) : list Z :=
  match l with
  | c :: l => if c =? 47 then [] else c :: before_slash l
  | [] => []
  end.
Definition fmtname (path : list Z) : list Z :=
  let p := reverse (before_slash (reverse path)) in
  if DIRSIZ <=? Z.of_nat (length p) then p
  else p ++ repeat 32 (Z.to_nat DIRSIZ - length p).

Definition state_name (state : Z) : list Z :=
  if (state <? 0) || (6 <=? state) then bytes "UNKNOWN"
  else nth (Z.to_nat state) (map bytes ["UNUSED"; "USED"; "SLEEPING"; "RUNNABLE"; "RUNNING"; "ZOMBIE"]%string) [].

Definition psinfo_format : string := "PSINFO pid=%d name=%s state=%s priority=%d queue=%d slice=%d policy=%d run=%d ready=%d ready_ticks=%d total_ready=%d wait=%d schedules=%d create=%d first_run=%d
".
Definition schedstat_format : string := "SCHEDSTAT policy=%d processes=%d runnable=%d running=%d sleeping=%d zombie=%d run=%d ready=%d total_ready=%d wait=%d schedules=%d
".

(** The counters of wc(): a char at a time, with the additions of int. *)
Record wcs : Type := mkWcs { wc_l : Z; wc_w : Z; wc_c : Z; wc_inword : bool }.
#[global] Instance eta_wcs : Eta wcs := fun s => mkWcs (wc_l s) (wc_w s) (wc_c s) (wc_inword s).
Definition inc (x : Z) : outcome Z := if x + 1 <? 2 ^ 31 then Ok (x + 1) else UB.
Definition wc_char (s : wcs) (ch : Z) : outcome wcs :=
  obind (inc (wc_c s)) (fun c =>
  obind (if ch =? 10 then inc (wc_l s) else Ok (wc_l s)) (fun l =>
  if blank ch then Ok (mkWcs l (wc_w s) c false)
  else if wc_inword s then Ok (mkWcs l (wc_w s) c true)
  else obind (inc (wc_w s)) (fun w => Ok (mkWcs l w c true)))).
Fixpoint wc_chars (s : wcs) (buf : list Z) : outcome wcs :=
  match buf with
  | [] => Ok s
  | ch :: buf => obind (wc_char s ch) (fun s => wc_chars s buf)
  end.

Section Tools.
Context {W : Type} `{Sys W}.
Variable fuel : nat.

(** putc() writes one char at a time. *)
Definition fprintf (fd : Z) (fmt : string) (ap : list va) : U W unit :=
  let* o := mlift (vprintf (bytes fmt) false ap) in
  for_each o (fun c => let* _ := sys_write fd [c] in mret tt) ;;; uret tt.
Definition printf : string -> list va -> U W unit := fprintf 1.
Definition str (s : list Z) : va := VStr (Some s).

(** stat() of ulib.c *)
Definition ulib_stat (n : list Z) : M W (Z * stat) :=
  let* fd := sys_open n O_RDONLY in
  if fd <? 0 then mret (-1, mkStat 0 0 0 0 0)
  else
    let* r := sys_fstat fd in
    let* _ := sys_close fd in
    mret r.

(** start() of ulib.c calls main() and exits with what it returns. *)
Definition start (main : U W Z) : U W unit := do* r := main in exit r.

(** *** cat *)
Definition cat (fd : Z) : U W unit :=
  do* n := uloop fuel (fun _ : unit =>
    do* r := sys (sys_read fd 512) in
    if 0 <? fst r then
      do* w := sys (sys_write 1 (snd r)) in
      if negb (w =? fst r) then fprintf 2 "cat: write error
" [] ;;! exit 1 else uret (inl tt)
    else uret (inr (fst r))) tt in
  if n <? 0 then fprintf 2 "cat: read error
" [] ;;! exit 1 else uret tt.
Definition cat_main (argv : list (list Z)) : U W unit :=
  if Z.of_nat (length argv) <=? 1 then cat 0 ;;! exit 0
  else
    ufor (tail argv) (fun path =>
      do* fd := sys (sys_open path O_RDONLY) in
      if fd <? 0 then fprintf 2 "cat: cannot open %s
" [str path] ;;! exit 1
      else cat fd ;;! sys (sys_close fd) ;;! uret true) ;;!
    exit 0.

(** *** echo *)
Definition echo_main (argv : list (list Z)) : U W unit :=
  let fix go l :=
    match l with
    | [] => uret tt
    | arg :: l =>
        sys (sys_write 1 arg) ;;!
        sys (sys_write 1 (match l with _ :: _ => [32] | [] => [10] end)) ;;!
        go l
    end in
  go (tail argv) ;;! exit 0.

(** *** wc *)
Definition wc (fd : Z) (name : list Z) : U W unit :=
  do* r := uloop fuel (fun s =>
    do* r := sys (sys_read fd 512) in
    if 0 <? fst r then
      do* s := sys (mlift (wc_chars s (snd r))) in uret (inl s)
    else uret (inr (fst r, s))) (mkWcs 0 0 0 false) in
  if fst r <? 0 then printf "wc: read error
" [] ;;! exit 1
  else printf "%d %d %d %s
" [VInt (wc_l (snd r)); VInt (wc_w (snd r)); VInt (wc_c (snd r)); str name].
Definition wc_main (argv : list (list Z)) : U W unit :=
  if Z.of_nat (length argv) <=? 1 then wc 0 [] ;;! exit 0
  else
    ufor (tail argv) (fun path =>
      do* fd := sys (sys_open path O_RDONLY) in
      if fd <? 0 then printf "wc: cannot open %s
" [str path] ;;! exit 1
      else wc fd path ;;! sys (sys_close fd) ;;! uret true) ;;!
    exit 0.

(** *** ls *)
Definition stat_line (name : list Z) (st : stat) : U W unit :=
  printf "%s %d %d %d
" [str (fmtname name); VInt (st_type st); VInt (st_ino st); VInt (i32 (st_size st))].
(** The C string in the bytes of a name *)
Fixpoint cstring (l : list Z) : list Z :=
  match l with
  | c :: l => if c =? 0 then [] else c :: cstring l
  | [] => []
  end.
Definition ls_entry (path : list Z) (de : list Z) : U W unit :=
  if de_inum de =? 0 then uret tt
  else
    let name := path ++ 47 :: cstring (de_name de) in
    do* r := sys (ulib_stat name) in
    if fst r <? 0 then printf "ls: cannot stat %s
" [str name] else stat_line name (snd r).
Definition ls (path : list Z) : U W unit :=
  do* fd := sys (sys_open path O_RDONLY) in
  if fd <? 0 then fprintf 2 "ls: cannot open %s
" [str path]
  else
    do* r := sys (sys_fstat fd) in
    if fst r <? 0 then
      fprintf 2 "ls: cannot stat %s
" [str path] ;;! sys (sys_close fd) ;;! uret tt
    else
      let st := snd r in
      (if (st_type st =? T_DEVICE) || (st_type st =? T_FILE) then stat_line path st
       else if st_type st =? T_DIR then
         if 512 <? Z.of_nat (length path) + 1 + DIRSIZ + 1 then printf "ls: path too long
" []
         else
           uloop fuel (fun _ : unit =>
             do* r := sys (sys_read fd DIRENT_SIZE) in
             if fst r =? DIRENT_SIZE then ls_entry path (snd r) ;;! uret (inl tt) else uret (inr tt)) tt
       else uret tt) ;;!
      sys (sys_close fd) ;;! uret tt.
Definition ls_main (argv : list (list Z)) : U W unit :=
  if Z.of_nat (length argv) <? 2 then ls [46] ;;! exit 0
  else ufor (tail argv) (fun path => ls path ;;! uret true) ;;! exit 0.

(** *** rm, mkdir, ln, kill, sync *)
Definition rm_main (argv : list (list Z)) : U W unit :=
  if Z.of_nat (length argv) <? 2 then fprintf 2 "Usage: rm files...
" [] ;;! exit 1
  else
    ufor (tail argv) (fun path =>
      do* r := sys (sys_unlink path) in
      if r <? 0 then fprintf 2 "rm: %s failed to delete
" [str path] ;;! uret false else uret true) ;;!
    exit 0.
Definition mkdir_main (argv : list (list Z)) : U W unit :=
  if Z.of_nat (length argv) <? 2 then fprintf 2 "Usage: mkdir files...
" [] ;;! exit 1
  else
    ufor (tail argv) (fun path =>
      do* r := sys (sys_mkdir path) in
      if r <? 0 then fprintf 2 "mkdir: %s failed to create
" [str path] ;;! uret false else uret true) ;;!
    exit 0.
Definition ln_main (argv : list (list Z)) : U W unit :=
  match argv with
  | [_; old; new] =>
      do* r := sys (sys_link old new) in
      (if r <? 0 then fprintf 2 "link %s %s: failed
" [str old; str new] else uret tt) ;;!
      exit 0
  | _ => fprintf 2 "Usage: ln old new
" [] ;;! exit 1
  end.
Definition kill_main (argv : list (list Z)) : U W unit :=
  if Z.of_nat (length argv) <? 2 then fprintf 2 "usage: kill pid...
" [] ;;! exit 1
  else
    ufor (tail argv) (fun arg =>
      do* pid := sys (mlift (atoi arg)) in
      sys (sys_kill pid) ;;! uret true) ;;!
    exit 0.
Definition sync_main : U W unit := sys sys_sync ;;! exit 0.

(** *** init *)
Definition sh_path : list Z := bytes "sh".
Definition CONSOLE_MAJOR : Z := 1.
Definition init_wait (pid : Z) : U W unit :=
  uloop fuel (fun _ : unit =>
    do* wpid := sys sys_wait in
    if wpid =? pid then uret (inr tt)
    else if wpid <? 0 then printf "init: wait returned an error
" [] ;;! exit 1
    else uret (inl tt)) tt.
(** One turn of the outer loop *)
Definition init_turn : U W unit :=
  printf "init: starting sh
" [] ;;!
  do* pid := sys sys_fork in
  if pid <? 0 then printf "init: fork failed
" [] ;;! exit 1
  else if pid =? 0 then
    do* ok := sys (sys_exec sh_path [sh_path]) in
    if ok : bool then mret (inr (Execed sh_path [sh_path]))
    else printf "init: exec sh failed
" [] ;;! exit 1
  else init_wait pid.
Definition init_open : U W unit :=
  do* fd := sys (sys_open (bytes "console") O_RDWR) in
  (if fd <? 0 then
     sys (sys_mknod (bytes "console") CONSOLE_MAJOR 0) ;;!
     sys (sys_open (bytes "console") O_RDWR) ;;! uret tt
   else uret tt) ;;!
  sys (sys_dup 0) ;;! sys (sys_dup 0) ;;! uret tt.
Definition init_main (turns : nat) : U W unit :=
  init_open ;;! uloop turns (fun _ : unit => init_turn ;;! uret (inl tt)) tt.

(** *** schedinfo *)
Definition schedinfo_main (argv : list (list Z)) : U W unit :=
  do* pid := sys sys_getpid in
  do* priority := (match argv with _ :: arg :: _ => sys (mlift (atoi arg)) | _ => uret 5 end) in
  do* r := sys (sys_set_prio pid priority) in
  if r <? 0 then printf "schedinfo: set_prio failed
" [] ;;! exit 1
  else
    do* r := sys (sys_get_psinfo pid) in
    if fst r <? 0 then printf "schedinfo: get_psinfo failed
" [] ;;! exit 1
    else
      let info := snd r in
      do* r := sys sys_sys_stat in
      if fst r <? 0 then printf "schedinfo: sys_stat failed
" [] ;;! exit 1
      else
        let st := snd r in
        printf psinfo_format
          [VInt (ps_pid info); str (cstring (ps_name info)); str (state_name (ps_state info)); VInt (ps_priority info);
           VInt (ps_queue_level info); VInt (ps_time_slice info); VInt (ps_sched_policy info); VInt (i32 (ps_run_time info));
           VInt (i32 (ps_ready_count info)); VInt (i32 (ps_ready_ticks info)); VInt (i32 (ps_total_ready_time info));
           VInt (i32 (ps_wait_count info)); VInt (i32 (ps_schedule_count info)); VInt (i32 (ps_create_tick info));
           VInt (i32 (ps_first_run_tick info))] ;;!
        printf schedstat_format
          [VInt (current_policy st); VInt (process_count st); VInt (runnable_count st); VInt (running_count st);
           VInt (sleeping_count st); VInt (zombie_count st); VInt (i32 (total_run_time st)); VInt (i32 (total_ready_count st));
           VInt (i32 (st_total_ready_time st)); VInt (i32 (total_wait_count st)); VInt (i32 (total_schedule_count st))] ;;!
        exit 0.

(** *** grep *)
Definition ugrep (pattern : list Z) (fd : Z) : U W unit :=
  do* _ := uloop fuel (fun buf : list Z =>
    do* r := sys (sys_read fd (Z.of_nat (BUFSZ - length buf - 1))) in
    if 0 <? fst r then
      let buf := buf ++ snd r in
      do* p := uloop (S (length buf)) (fun p =>
        match strchr_nl p with
        | Some (line, rest) =>
            (if match_re pattern line then sys (sys_write 1 (line ++ [NL])) ;;! uret tt else uret tt) ;;! uret (inl rest)
        | None => uret (inr p)
        end) buf in
      uret (inl p)
    else uret (inr tt)) [] in
  uret tt.
Definition grep_main (argv : list (list Z)) : U W unit :=
  match argv with
  | _ :: pattern :: [] => ugrep pattern 0 ;;! exit 0
  | _ :: pattern :: files =>
      ufor files (fun path =>
        do* fd := sys (sys_open path O_RDONLY) in
        if fd <? 0 then printf "grep: cannot open %s
" [str path] ;;! exit 1
        else ugrep pattern fd ;;! sys (sys_close fd) ;;! uret true) ;;!
      exit 0
  | _ => fprintf 2 "usage: grep pattern [file ...]
" [] ;;! exit 1
  end.
End Tools.

(** ** What the system calls promise

    A file has a stat and its bytes; an open descriptor is a file and an offset
    in it.  [v_out] and [v_err] are what descriptors 1 and 2 have been given. *)
Record node : Type := mkNode { n_stat : stat; n_data : list Z }.
Record sysview : Type := mkView {
  v_files : gmap (list Z) node; v_fds : gmap Z (node * nat); v_out : list Z; v_err : list Z
}.
#[global] Instance eta_view : Eta sysview := fun v => mkView (v_files v) (v_fds v) (v_out v) (v_err v).

Class SysLaws (W : Type) `{Sys W} : Type := {
  view_of : W -> sysview;
  law_open p w : (size (v_fds (view_of w)) < 16)%nat -> exists fd w', sys_open p O_RDONLY w = Ok (fd, w') /\
    match v_files (view_of w) !! p with
    | Some nd => 0 <= fd /\ v_fds (view_of w) !! fd = None /\ view_of w' = (view_of w) <| v_fds ::= <[fd := (nd, 0%nat)]> |>
    | None => fd < 0 /\ view_of w' = view_of w
    end;
  (* at least a byte unless the file is at its end, and all that there is but for devices *)
  law_read fd n nd off w : v_fds (view_of w) !! fd = Some (nd, off) -> 0 < n ->
    exists k w', let l := drop off (n_data nd) in
      sys_read fd n w = Ok ((Z.of_nat k, take k l), w') /\ Z.of_nat k <= n /\ (k <= length l)%nat /\ (k = 0%nat -> l = []) /\
      (st_type (n_stat nd) = T_DIR -> k = Nat.min (Z.to_nat n) (length l)) /\
      view_of w' = (view_of w) <| v_fds ::= <[fd := (nd, (off + k)%nat)]> |>;
  law_write fd l w : fd = 1 \/ fd = 2 -> exists w', sys_write fd l w = Ok (Z.of_nat (length l), w') /\
    view_of w' = if fd =? 1 then (view_of w) <| v_out ::= fun o => o ++ l |> else (view_of w) <| v_err ::= fun o => o ++ l |>;
  law_close fd w : exists r w', sys_close fd w = Ok (r, w') /\ view_of w' = (view_of w) <| v_fds ::= delete fd |>;
  law_fstat fd nd off w : v_fds (view_of w) !! fd = Some (nd, off) ->
    exists w', sys_fstat fd w = Ok ((0, n_stat nd), w') /\ view_of w' = view_of w
}.

(** ** What is printed *)
Definition dec (x : Z) : list Z := match printint udigits x 10 true with Ok o => o | _ => [] end.
Lemma printint_dec x : - 2 ^ 63 < x < 2 ^ 63 -> printint udigits x 10 true = Ok (dec x).
Proof.
  intros Hx. destruct (printint_roundtrip udigits 10 x true ltac:(by left) ltac:(by left) Hx) as (o & Ho & _).
  unfold dec. by rewrite Ho.
Qed.
Lemma vprintf_char c f ap : c <> 37 -> vprintf (c :: f) false ap = obind (vprintf f false ap) (fun o => Ok (putc c ++ o)).
Proof. intros Hc. cbn [vprintf negb]. by rewrite (proj2 (Z.eqb_neq _ _)). Qed.
Lemma vprintf_d f x ap o : vprintf f false ap = Ok o -> vprintf (37 :: 100 :: f) false (VInt x :: ap) = Ok (dec (i32 x) ++ o).
Proof.
  intros Hf. cbn [vprintf negb]. change (37 =? 37) with true. cbv iota. cbn [vprintf negb].
  change (directive 100 (hd 0 f) (if hd 0 f =? 0 then 0 else hd 0 (tail f))) with (CInt, 0%nat). cbn [fst snd convert].
  rewrite printint_dec by (pose proof (i32_range x); lia). cbn [obind fst snd]. by rewrite Hf.
Qed.
Lemma concat_putc_bytes l : Forall byte l -> concat (map putc l) = l.
Proof.
  induction 1 as [|c l Hc _ IH]; [done|]. simpl. rewrite IH. unfold u8. unfold byte in Hc. by rewrite Z.mod_small by (simpl; lia).
Qed.
Lemma vprintf_s f l ap o : Forall byte l -> vprintf f false ap = Ok o -> vprintf (37 :: 115 :: f) false (str l :: ap) = Ok (l ++ o).
Proof.
  intros Hl Hf. cbn [vprintf negb]. change (37 =? 37) with true. cbv iota. cbn [vprintf negb].
  change (directive 115 (hd 0 f) (if hd 0 f =? 0 then 0 else hd 0 (tail f))) with (CStr, 0%nat). cbn [fst snd convert str obind default].
  rewrite Hf. cbn [obind]. unfold default. by rewrite concat_putc_bytes.
Qed.
Lemma vprintf_int f x ap o : - 2 ^ 31 <= x < 2 ^ 31 -> vprintf f false ap = Ok o ->
  vprintf (37 :: 100 :: f) false (VInt x :: ap) = Ok (dec x ++ o).
Proof. intros Hx Hf. rewrite <- (i32_small x Hx) at 2. by apply vprintf_d. Qed.
Lemma vprintf_lit c f ap o : c <> 37 -> 0 <= c < 256 -> vprintf f false ap = Ok o -> vprintf (c :: f) false ap = Ok (c :: o).
Proof. intros Hc Hr Hf. rewrite vprintf_char, Hf by done. unfold putc, u8. by rewrite Z.mod_small by (simpl; lia). Qed.
(** A format, directive by directive *)
Ltac vprint :=
  repeat (first [ apply vprintf_lit; [discriminate|lia|] | apply vprintf_int; [try lia|] | apply vprintf_s; [try done|] ]); try reflexivity.

(** The lines of wc and ls *)
Definition wc_line (l w c : Z) (name : list Z) : list Z := dec l ++ [32] ++ dec w ++ [32] ++ dec c ++ [32] ++ name ++ [10].
Lemma wc_line_ok l w c name : Forall byte name -> 0 <= l < 2 ^ 31 -> 0 <= w < 2 ^ 31 -> 0 <= c < 2 ^ 31 ->
  vprintf (bytes "%d %d %d %s
") false [VInt l; VInt w; VInt c; str name] = Ok (wc_line l w c name).
Proof.
  intros Hn Hl Hw Hc. unfold wc_line.
  change (bytes "%d %d %d %s
") with [37; 100; 32; 37; 100; 32; 37; 100; 32; 37; 115; 10]. cbn [app]. vprint.
Qed.
Definition cannot_open (what path : list Z) : list Z := what ++ [58; 32; 99; 97; 110; 110; 111; 116; 32; 111; 112; 101; 110; 32] ++ path ++ [10].
Lemma wc_cannot_open path : Forall byte path ->
  vprintf (bytes "wc: cannot open %s
") false [str path] = Ok (cannot_open [119; 99] path).
Proof.
  intros Hp. unfold cannot_open. match goal with |- vprintf ?f _ _ = _ => let v := eval vm_compute in f in change f with v end.
  cbn [app]. vprint.
Qed.

(** ** Counting, defined without the loop *)
Fixpoint pieces (l : list Z) : list (list Z) :=
  match l with
  | [] => [[]]
  | c :: l => if blank c then [] :: pieces l else match pieces l with p :: ps => (c :: p) :: ps | [] => [[c]] end
  end.
(** The words are the pieces between blanks that are not empty. *)
Definition words (l : list Z) : Z := Z.of_nat (length (filter (fun p => p <> []) (pieces l))).
Definition lines (l : list Z) : Z := Z.of_nat (length (filter (fun c => c = 10) l)).

Fixpoint word_starts (inword : bool) (l : list Z) : Z :=
  match l with
  | [] => 0
  | c :: l => if blank c then word_starts false l else (if inword then 0 else 1) + word_starts true l
  end.
Lemma pieces_cons l : exists p ps, pieces l = p :: ps.
Proof. destruct l as [|c l]; simpl; [by eexists _, _|]. destruct (blank c); [by eexists _, _|]. destruct (pieces l); by eexists _, _. Qed.
Lemma word_starts_pieces l : word_starts false l = words l /\
  word_starts true l = Z.of_nat (length (filter (fun p => p <> []) (tail (pieces l)))).
Proof.
  unfold words. induction l as [|c l [IH1 IH2]]; [done|]. cbn [word_starts pieces]. destruct (blank c); [by rewrite IH1|].
  destruct (pieces_cons l) as (p & ps & E). rewrite E in *. cbn [tail] in *. rewrite IH2. split; [|done].
  rewrite filter_cons_True by done. cbn [length]. lia.
Qed.
Lemma word_starts_bound b l : 0 <= word_starts b l <= Z.of_nat (length l).
Proof. revert b. induction l as [|c l IH]; intros b; cbn [word_starts length]; [lia|]. pose proof (IH false). pose proof (IH true). destruct (blank c), b; lia. Qed.
Lemma lines_cons c l : lines (c :: l) = (if c =? 10 then 1 else 0) + lines l.
Proof. unfold lines. rewrite filter_cons. destruct (decide (c = 10)) as [->|Hn]; [cbn [length]; rewrite Nat2Z.inj_succ, Z.eqb_refl; cbv iota; lia|]. rewrite (proj2 (Z.eqb_neq _ _)) by done. cbv iota. lia. Qed.
Lemma lines_bound l : 0 <= lines l <= Z.of_nat (length l).
Proof. unfold lines. pose proof (length_filter (fun c => c = 10) l). lia. Qed.

Definition in_word (b : bool) (l : list Z) : bool := foldl (fun _ c => negb (blank c)) b l.
Lemma wc_chars_spec l : forall L w c b, 0 <= L <= c -> 0 <= w <= c -> c + Z.of_nat (length l) < 2 ^ 31 ->
  wc_chars (mkWcs L w c b) l = Ok (mkWcs (L + lines l) (w + word_starts b l) (c + Z.of_nat (length l)) (in_word b l)).
Proof.
  induction l as [|ch l IH]; intros L w c b HL Hw Hc; cbn [wc_chars word_starts length in_word].
  { unfold lines. simpl. by rewrite !Z.add_0_r. }
  cbn [length] in Hc. unfold wc_char, inc. cbn [wc_c wc_l wc_w wc_inword]. rewrite (proj2 (Z.ltb_lt _ _)) by lia. cbn [obind].
  rewrite lines_cons. unfold in_word. cbn [foldl].
  rewrite (proj2 (Z.ltb_lt (L + 1) _)), (proj2 (Z.ltb_lt (w + 1) _)) by lia.
  destruct (ch =? 10), (blank ch), b; cbn [obind negb]; rewrite IH by lia; unfold in_word; f_equal; f_equal; (lia || reflexivity).
Qed.
Lemma wc_chars_app l1 l2 s : wc_chars s (l1 ++ l2) = obind (wc_chars s l1) (fun s => wc_chars s l2).
Proof. revert s. induction l1 as [|c l1 IH]; intros s; [done|]. cbn [app wc_chars]. destruct (wc_char s c); [cbn [obind]; apply IH|done..]. Qed.

(** ** Steps of a program *)
Section Steps.
Context {W : Type}.
Lemma ubind_ok {A B} (m : U W A) (k : A -> U W B) w a w' : m w = Ok (inl a, w') -> ubind m k w = k a w'.
Proof. intros H. unfold ubind. by rewrite (mbind_Ok _ _ _ _ _ H). Qed.
Lemma ubind_fin {A B} (m : U W A) (k : A -> U W B) w f w' : m w = Ok (inr f, w') -> ubind m k w = Ok (inr f, w').
Proof. intros H. unfold ubind. by rewrite (mbind_Ok _ _ _ _ _ H). Qed.
Lemma ubind_sys {A B} (op : M W A) (k : A -> U W B) w a w' : op w = Ok (a, w') -> ubind (sys op) k w = k a w'.
Proof. intros H. apply ubind_ok. unfold sys. by rewrite (mbind_Ok _ _ _ _ _ H). Qed.
Lemma ubind_ret {A B} (a : A) (k : A -> U W B) w : ubind (uret a) k w = k a w.
Proof. reflexivity. Qed.
Lemma ubind_assoc {A B C} (m : U W A) (k : A -> U W B) (k' : B -> U W C) w :
  ubind (ubind m k) k' w = ubind m (fun a => ubind (k a) k') w.
Proof. unfold ubind, mbind. destruct (m w) as [[[a|f] w']| | | |]; reflexivity. Qed.
End Steps.

Section Spec.
Context {W : Type} {HS : Sys W} {HL : SysLaws W}.
Implicit Types (w : W) (v : sysview).

Definition say (fd : Z) (l : list Z) v : sysview :=
  if fd =? 1 then v <| v_out ::= fun o => o ++ l |> else v <| v_err ::= fun o => o ++ l |>.
Lemma say_app fd l1 l2 v : say fd l2 (say fd l1 v) = say fd (l1 ++ l2) v.
Proof. unfold say. destruct (fd =? 1), v; cbn; by rewrite app_assoc. Qed.
Lemma say_nil fd v : say fd [] v = v.
Proof. unfold say. destruct (fd =? 1), v; cbn; by rewrite app_nil_r. Qed.
Lemma say_fds fd l v : v_fds (say fd l v) = v_fds v.
Proof. unfold say. by destruct (fd =? 1). Qed.
Lemma say_files fd l v : v_files (say fd l v) = v_files v.
Proof. unfold say. by destruct (fd =? 1). Qed.

Lemma fprintf_ok fd fmt ap o w : fd = 1 \/ fd = 2 -> vprintf (bytes fmt) false ap = Ok o ->
  exists w', fprintf fd fmt ap w = Ok (inl tt, w') /\ view_of w' = say fd o (view_of w).
Proof.
  intros Hfd Ho. unfold fprintf, mlift. unfold mbind at 1. rewrite Ho. cbn [obind fst snd].
  assert (forall l w, exists w', for_each l (fun c => let* _ := sys_write fd [c] in mret tt) w = Ok (tt, w') /\ view_of w' = say fd l (view_of w)) as Hl.
  { induction l as [|c l IH]; intros w0; [exists w0; by rewrite say_nil|]. cbn [for_each].
    destruct (law_write fd [c] w0 Hfd) as (w1 & H1 & V1). destruct (IH w1) as (w2 & H2 & V2). exists w2. split.
    - erewrite mbind_Ok; [exact H2|]. by rewrite (mbind_Ok _ _ _ _ _ H1).
    - rewrite V2, V1. fold (say fd [c] (view_of w0)). by rewrite say_app. }
  destruct (Hl o w) as (w' & H1 & H2). exists w'. split; [|done]. by rewrite (mbind_Ok _ _ _ _ _ H1).
Qed.
Lemma printf_ok fmt ap o w : vprintf (bytes fmt) false ap = Ok o ->
  exists w', printf fmt ap w = Ok (inl tt, w') /\ view_of w' = say 1 o (view_of w).
Proof. apply fprintf_ok. by left. Qed.

(** A descriptor at an offset of a file *)
Definition at_off (fd : Z) (nd : node) (off : nat) v : sysview := v <| v_fds ::= <[fd := (nd, off)]> |>.
Lemma at_off_twice fd nd o1 o2 v : at_off fd nd o2 (at_off fd nd o1 v) = at_off fd nd o2 v.
Proof. unfold at_off. destruct v. cbn. by rewrite insert_insert_eq. Qed.
Lemma at_off_same fd nd off v : v_fds v !! fd = Some (nd, off) -> at_off fd nd off v = v.
Proof. intros H. unfold at_off. destruct v. cbn in *. by rewrite insert_id. Qed.
Lemma at_off_close fd nd off v : v_fds v !! fd = None -> (at_off fd nd off v) <| v_fds ::= delete fd |> = v.
Proof. intros H. unfold at_off. destruct v. cbn in *. by rewrite delete_insert_id. Qed.
Lemma say_at_off fd' l fd nd off v : say fd' l (at_off fd nd off v) = at_off fd nd off (say fd' l v).
Proof. unfold say. by destruct (fd' =? 1). Qed.

(** *** wc *)
Definition wc_body (fd : Z) (s : wcs) : U W (wcs + Z * wcs) :=
  do* r := sys (sys_read fd 512) in
  if 0 <? fst r then do* s := sys (mlift (wc_chars s (snd r))) in uret (inl s) else uret (inr (fst r, s)).

(** However the bytes come, they are counted once and in order. *)
Lemma wc_loop fd nd s' : forall fuel off s w,
  v_fds (view_of w) !! fd = Some (nd, off) -> wc_chars s (drop off (n_data nd)) = Ok s' ->
  (length (drop off (n_data nd)) < fuel)%nat ->
  exists off' w', uloop fuel (wc_body fd) s w = Ok (inl (0, s'), w') /\ view_of w' = at_off fd nd off' (view_of w).
Proof.
  induction fuel as [|fuel IH]; intros off s w Hfd Hs Hf; [lia|]. cbn [uloop].
  destruct (law_read fd 512 nd off w Hfd ltac:(done)) as (k & w1 & H1 & Hk & Hkl & Hk0 & _ & V1).
  fold (at_off fd nd (off + k)%nat (view_of w)) in V1. set (l := drop off (n_data nd)) in *.
  unfold wc_body at 1. rewrite ubind_assoc, (ubind_sys _ _ _ _ _ H1). cbn [fst snd].
  destruct (decide (k = 0%nat)) as [->|Hkn].
  - rewrite (Hk0 eq_refl) in Hs. injection Hs as <-. change (0 <? Z.of_nat 0) with false. cbv iota. rewrite ubind_ret.
    exists (off + 0)%nat, w1. split; [done|exact V1].
  - rewrite (proj2 (Z.ltb_lt _ _)) by lia. rewrite <- (take_drop k l), wc_chars_app in Hs.
    destruct (wc_chars s (take k l)) as [s1| | | |] eqn:E1; try done. cbn [obind] in Hs.
    rewrite ubind_assoc. erewrite ubind_sys; [|unfold mlift; reflexivity]. rewrite ubind_ret.
    unfold l in Hs. rewrite drop_drop in Hs.
    destruct (IH (off + k)%nat s1 w1) as (off' & w2 & H2 & V2); [|done| |].
    + rewrite V1. unfold at_off. cbn. apply lookup_insert_eq.
    + subst l. rewrite length_drop in *. lia.
    + exists off', w2. split; [done|]. rewrite V2, V1. apply at_off_twice.
Qed.

Definition wc_answer (nd : node) (off : nat) (name : list Z) : list Z :=
  let l := drop off (n_data nd) in wc_line (lines l) (words l) (Z.of_nat (length l)) name.
Lemma wc_ok fuel fd nd off name w :
  v_fds (view_of w) !! fd = Some (nd, off) -> Forall byte name ->
  Z.of_nat (length (drop off (n_data nd))) < 2 ^ 31 -> (length (drop off (n_data nd)) < fuel)%nat ->
  exists off' w', wc fuel fd name w = Ok (inl tt, w') /\
    view_of w' = at_off fd nd off' (say 1 (wc_answer nd off name) (view_of w)).
Proof.
  intros Hfd Hn Hb Hf. set (l := drop off (n_data nd)) in *.
  pose proof (wc_chars_spec l 0 0 0 false ltac:(lia) ltac:(lia) ltac:(lia)) as Hc.
  destruct (wc_loop fd nd _ fuel off (mkWcs 0 0 0 false) w Hfd Hc Hf) as (off' & w1 & H1 & V1).
  unfold wc. fold (wc_body fd). rewrite (ubind_ok _ _ _ _ _ H1). cbn [fst snd wc_l wc_w wc_c]. change (0 <? 0) with false. cbv iota.
  rewrite !Z.add_0_l, (proj1 (word_starts_pieces l)).
  pose proof (lines_bound l). pose proof (word_starts_bound false l) as Hw. rewrite (proj1 (word_starts_pieces l)) in Hw.
  destruct (printf_ok _ _ _ w1 (wc_line_ok (lines l) (words l) (Z.of_nat (length l)) name Hn ltac:(lia) ltac:(lia) ltac:(lia))) as (w2 & H2 & V2).
  exists off', w2. split; [exact H2|]. rewrite V2, V1. apply say_at_off.
Qed.

(** *** A program that handles one file after the other *)

(** The files that can be opened up to the first that cannot. *)
Fixpoint upto (files : gmap (list Z) node) (ps : list (list Z)) : list (list Z * node) * option (list Z) :=
  match ps with
  | [] => ([], None)
  | p :: ps =>
      match files !! p with
      | Some nd => ((p, nd) :: fst (upto files ps), snd (upto files ps))
      | None => ([], Some p)
      end
  end.
Definition outputs (answer : list Z -> node -> list Z) (files : gmap (list Z) node) (ps : list (list Z)) : list Z :=
  concat (map (fun x => answer (fst x) (snd x)) (fst (upto files ps))).
Definition missing (files : gmap (list Z) node) (ps : list (list Z)) : option (list Z) := snd (upto files ps).

(** [f] prints the answer for a file, or [what] with the path to [fd]. *)
Definition handles (f : list Z -> U W bool) (answer : list Z -> node -> list Z) (what : list Z -> list Z) (fd : Z)
    (p : list Z) (w : W) : Prop :=
  exists w', match v_files (view_of w) !! p with
    | Some nd => f p w = Ok (inl true, w') /\ view_of w' = say 1 (answer p nd) (view_of w)
    | None => f p w = Ok (inr (Exited 1), w') /\ view_of w' = say fd (what p) (view_of w)
    end.
Lemma files_ok f answer what fd files ps : forall w,
  (forall p w, p ∈ ps -> v_files (view_of w) = files -> (size (v_fds (view_of w)) < 16)%nat -> handles f answer what fd p w) ->
  v_files (view_of w) = files -> (size (v_fds (view_of w)) < 16)%nat ->
  exists w', (ufor ps f ;;! exit 0) w =
      Ok (inr (Exited (match missing files ps with None => 0 | Some _ => 1 end)) : unit + fin, w') /\
    view_of w' = match missing files ps with
                 | None => say 1 (outputs answer files ps) (view_of w)
                 | Some p => say fd (what p) (say 1 (outputs answer files ps) (view_of w))
                 end.
Proof.
  unfold outputs, missing. induction ps as [|p ps IH]; intros w Hf Hfi Hsz.
  - exists w. split; [reflexivity|]. by rewrite say_nil.
  - destruct (Hf p w ltac:(by left) Hfi Hsz) as (w1 & H1). rewrite Hfi in H1. cbn [ufor upto]. rewrite ubind_assoc.
    destruct (files !! p) as [nd|]; destruct H1 as [H1 V1].
    + rewrite (ubind_ok _ _ _ _ _ H1). destruct (IH w1) as (w2 & H2 & V2).
      * intros q w0 Hq. apply Hf. by right.
      * by rewrite V1, say_files.
      * by rewrite V1, say_fds.
      * exists w2. cbn [fst snd map concat]. split; [exact H2|]. rewrite V2, V1. destruct (snd (upto files ps)); by rewrite say_app.
    + rewrite (ubind_fin _ _ _ _ _ H1). exists w1. cbn [fst snd map concat]. by rewrite say_nil.
Qed.

(** The files are not too large for an int, and [fuel] is enough for them. *)
Definition readable (fuel : nat) (files : gmap (list Z) node) (ps : list (list Z)) : Prop :=
  Forall (Forall byte) ps /\
  forall p nd, p ∈ ps -> files !! p = Some nd -> Z.of_nat (length (n_data nd)) < 2 ^ 31 /\ (length (n_data nd) < fuel)%nat.

Definition wc_file (fuel : nat) (path : list Z) : U W bool :=
  do* fd := sys (sys_open path O_RDONLY) in
  if fd <? 0 then printf "wc: cannot open %s
" [str path] ;;! exit 1
  else wc fuel fd path ;;! sys (sys_close fd) ;;! uret true.
Lemma wc_file_ok fuel p w : (size (v_fds (view_of w)) < 16)%nat -> readable fuel (v_files (view_of w)) [p] ->
  handles (wc_file fuel) (fun p nd => wc_answer nd 0 p) (cannot_open [119; 99]) 1 p w.
Proof.
  intros Hsz [[Hp _]%Forall_cons Hr]. unfold handles, wc_file. destruct (law_open p w Hsz) as (fd & w1 & H1 & H2).
  destruct (v_files (view_of w) !! p) as [nd|] eqn:E.
  - destruct H2 as (Hfd & Hnone & V1). destruct (Hr p nd ltac:(by left) E) as [Hb Hf].
    destruct (wc_ok fuel fd nd 0 p w1) as (off' & w2 & H2 & V2); [rewrite V1; cbn; apply lookup_insert_eq|exact Hp|exact Hb|exact Hf|].
    destruct (law_close fd w2) as (r & w3 & H3 & V3). exists w3. split.
    + rewrite (ubind_sys _ _ _ _ _ H1), (proj2 (Z.ltb_ge _ _)) by lia. rewrite (ubind_ok _ _ _ _ _ H2).
      by rewrite (ubind_sys _ _ _ _ _ H3).
    + rewrite V3, V2, V1. fold (at_off fd nd 0%nat (view_of w)). rewrite say_at_off, at_off_twice. apply at_off_close. by rewrite say_fds.
  - destruct H2 as (Hfd & V1). destruct (printf_ok _ _ _ w1 (wc_cannot_open p Hp)) as (w2 & H2 & V2). exists w2. split.
    + rewrite (ubind_sys _ _ _ _ _ H1), (proj2 (Z.ltb_lt _ _)) by lia. by rewrite (ubind_ok _ _ _ _ _ H2).
    + by rewrite V2, V1.
Qed.


(** *** cat *)
Definition cat_body (fd : Z) (_ : unit) : U W (unit + Z) :=
  do* r := sys (sys_read fd 512) in
  if 0 <? fst r then
    do* n := sys (sys_write 1 (snd r)) in
    if negb (n =? fst r) then fprintf 2 "cat: write error
" [] ;;! exit 1 else uret (inl tt)
  else uret (inr (fst r)).
Lemma cat_loop fd nd : forall fuel off w,
  v_fds (view_of w) !! fd = Some (nd, off) -> (length (drop off (n_data nd)) < fuel)%nat ->
  exists off' w', uloop fuel (cat_body fd) tt w = Ok (inl 0, w') /\
    view_of w' = at_off fd nd off' (say 1 (drop off (n_data nd)) (view_of w)).
Proof.
  induction fuel as [|fuel IH]; intros off w Hfd Hf; [lia|]. cbn [uloop].
  destruct (law_read fd 512 nd off w Hfd ltac:(done)) as (k & w1 & H1 & Hk & Hkl & Hk0 & _ & V1).
  fold (at_off fd nd (off + k)%nat (view_of w)) in V1. set (l := drop off (n_data nd)) in *.
  unfold cat_body at 1. rewrite ubind_assoc, (ubind_sys _ _ _ _ _ H1). cbn [fst snd].
  destruct (decide (k = 0%nat)) as [->|Hkn].
  - rewrite (Hk0 eq_refl). change (0 <? Z.of_nat 0) with false. cbv iota. rewrite ubind_ret.
    exists (off + 0)%nat, w1. split; [done|]. by rewrite say_nil.
  - rewrite (proj2 (Z.ltb_lt _ _)) by lia. destruct (law_write 1 (take k l) w1 ltac:(by left)) as (w2 & H2 & V2).
    change (view_of w2 = say 1 (take k l) (view_of w1)) in V2.
    rewrite ubind_assoc, (ubind_sys _ _ _ _ _ H2), length_take, Nat.min_l, Z.eqb_refl by done. cbn [negb]. rewrite ubind_ret.
    destruct (IH (off + k)%nat w2) as (off' & w3 & H3 & V3).
    + rewrite V2, say_fds, V1. unfold at_off. cbn. apply lookup_insert_eq.
    + subst l. rewrite length_drop in *. lia.
    + exists off', w3. split; [done|]. rewrite V3, V2, V1, !say_at_off, at_off_twice, say_app.
      by rewrite <- drop_drop, take_drop.
Qed.
Lemma cat_ok fuel fd nd off w :
  v_fds (view_of w) !! fd = Some (nd, off) -> (length (drop off (n_data nd)) < fuel)%nat ->
  exists off' w', cat fuel fd w = Ok (inl tt, w') /\ view_of w' = at_off fd nd off' (say 1 (drop off (n_data nd)) (view_of w)).
Proof.
  intros Hfd Hf. destruct (cat_loop fd nd fuel off w Hfd Hf) as (off' & w' & H1 & V1). exists off', w'. split; [|done].
  unfold cat. fold (cat_body fd). by rewrite (ubind_ok _ _ _ _ _ H1).
Qed.
Lemma cat_cannot_open path : Forall byte path ->
  vprintf (bytes "cat: cannot open %s
") false [str path] = Ok (cannot_open [99; 97; 116] path).
Proof.
  intros Hp. unfold cannot_open. match goal with |- vprintf ?f _ _ = _ => let v := eval vm_compute in f in change f with v end.
  cbn [app]. vprint.
Qed.
Definition cat_file (fuel : nat) (path : list Z) : U W bool :=
  do* fd := sys (sys_open path O_RDONLY) in
  if fd <? 0 then fprintf 2 "cat: cannot open %s
" [str path] ;;! exit 1
  else cat fuel fd ;;! sys (sys_close fd) ;;! uret true.
Lemma cat_file_ok fuel p w : (size (v_fds (view_of w)) < 16)%nat -> readable fuel (v_files (view_of w)) [p] ->
  handles (cat_file fuel) (fun _ nd => n_data nd) (cannot_open [99; 97; 116]) 2 p w.
Proof.
  intros Hsz [[Hp _]%Forall_cons Hr]. unfold handles, cat_file. destruct (law_open p w Hsz) as (fd & w1 & H1 & H2).
  destruct (v_files (view_of w) !! p) as [nd|] eqn:E.
  - destruct H2 as (Hfd & Hnone & V1). destruct (Hr p nd ltac:(by left) E) as [_ Hf].
    destruct (cat_ok fuel fd nd 0 w1) as (off' & w2 & H2 & V2); [rewrite V1; cbn; apply lookup_insert_eq|exact Hf|].
    destruct (law_close fd w2) as (r & w3 & H3 & V3). exists w3. split.
    + rewrite (ubind_sys _ _ _ _ _ H1), (proj2 (Z.ltb_ge _ _)) by lia. rewrite (ubind_ok _ _ _ _ _ H2).
      by rewrite (ubind_sys _ _ _ _ _ H3).
    + rewrite V3, V2, V1. fold (at_off fd nd 0%nat (view_of w)). rewrite say_at_off, at_off_twice. apply at_off_close. by rewrite say_fds.
  - destruct H2 as (Hfd & V1). destruct (fprintf_ok 2 _ _ _ w1 ltac:(by right) (cat_cannot_open p Hp)) as (w2 & H2 & V2). exists w2. split.
    + rewrite (ubind_sys _ _ _ _ _ H1), (proj2 (Z.ltb_lt _ _)) by lia. by rewrite (ubind_ok _ _ _ _ _ H2).
    + by rewrite V2, V1.
Qed.
Lemma readable_in fuel files ps p : readable fuel files ps -> p ∈ ps -> readable fuel files [p].
Proof.
  intros [H1 H2] Hp. split.
  - rewrite Forall_forall in *. intros q ->%list_elem_of_singleton. by apply H1.
  - intros q nd ->%list_elem_of_singleton. by apply H2.
Qed.
End Spec.

(** C39: wc prints for each file its lines (the newlines), words (the pieces
    between blanks that are not empty) and characters, however read() cuts the
    file into pieces, up to the first file it cannot open, which it names.  It
    ends, and leaves nothing open. *)
Theorem wc_correct {W} {HS : Sys W} {HL : SysLaws W} fuel prog ps w :
  let files := v_files (view_of w) in
  (size (v_fds (view_of w)) < 16)%nat -> readable fuel files ps -> ps <> [] ->
  exists w', wc_main fuel (prog :: ps) w = Ok (inr (Exited (match missing files ps with None => 0 | Some _ => 1 end)), w') /\
    view_of w' = (view_of w) <| v_out ::= fun o => o ++ outputs (fun p nd => wc_answer nd 0 p) files ps ++
      match missing files ps with None => [] | Some p => cannot_open [119; 99] p end |>.
Proof.
  intros files Hsz Hr Hne. destruct (files_ok (wc_file fuel) (fun p nd => wc_answer nd 0 p) (cannot_open [119; 99]) 1 files ps w) as (w' & H1 & V1); [|done|done|].
  { intros p w0 Hp Hf Hs. apply wc_file_ok; [done|]. rewrite Hf. by eapply readable_in. }
  exists w'. split; [unfold wc_main; rewrite (proj2 (Z.leb_gt _ _)) by (destruct ps; [done|cbn [length]; lia]); exact H1|].
  rewrite V1. destruct (missing files ps) as [p|]; [by rewrite say_app|]. by rewrite app_nil_r.
Qed.

(** cat writes the files, one after the other, to descriptor 1, whatever the
    pieces read() delivers; it names the first file it cannot open on
    descriptor 2 and stops there. *)
Theorem cat_correct {W} {HS : Sys W} {HL : SysLaws W} fuel prog ps w :
  let files := v_files (view_of w) in
  (size (v_fds (view_of w)) < 16)%nat -> readable fuel files ps -> ps <> [] ->
  exists w', cat_main fuel (prog :: ps) w = Ok (inr (Exited (match missing files ps with None => 0 | Some _ => 1 end)), w') /\
    view_of w' = (view_of w) <| v_out ::= fun o => o ++ outputs (fun _ nd => n_data nd) files ps |>
      <| v_err ::= fun e => e ++ match missing files ps with None => [] | Some p => cannot_open [99; 97; 116] p end |>.
Proof.
  intros files Hsz Hr Hne. destruct (files_ok (cat_file fuel) (fun _ nd => n_data nd) (cannot_open [99; 97; 116]) 2 files ps w) as (w' & H1 & V1); [|done|done|].
  { intros p w0 Hp Hf Hs. apply cat_file_ok; [done|]. rewrite Hf. by eapply readable_in. }
  exists w'. split; [unfold cat_main; rewrite (proj2 (Z.leb_gt _ _)) by (destruct ps; [done|cbn [length]; lia]); exact H1|].
  rewrite V1. destruct (missing files ps) as [p|]; [done|]. unfold say. cbn. by rewrite app_nil_r.
Qed.

(** *** ls *)
Section Ls.
Context {W : Type} {HS : Sys W} {HL : SysLaws W}.
Implicit Types (w : W).

Definition stat_out (path : list Z) (st : stat) : list Z :=
  fmtname path ++ [32] ++ dec (i32 (st_type st)) ++ [32] ++ dec (i32 (st_ino st)) ++ [32] ++ dec (i32 (st_size st)) ++ [10].
Lemma before_slash_bytes l : Forall byte l -> Forall byte (before_slash l).
Proof. induction 1 as [|c l Hc Hl IH]; [done|]. simpl. destruct (c =? 47); [done|]. by constructor. Qed.
Lemma fmtname_bytes path : Forall byte path -> Forall byte (fmtname path).
Proof.
  intros Hp. unfold fmtname. set (p := reverse _). assert (Forall byte p) as H by (subst p; by apply Forall_reverse, before_slash_bytes, Forall_reverse).
  destruct (DIRSIZ <=? _); [done|]. apply Forall_app. split; [done|]. apply Forall_forall. intros c Hc. apply list_elem_of_In, repeat_spec in Hc as ->. done.
Qed.
Lemma before_slash_app l l' : 47 ∉ l -> before_slash (l ++ 47 :: l') = l.
Proof.
  induction l as [|c l IH]; intros Hn; [done|]. apply not_elem_of_cons in Hn as [H1 H2]. cbn [app before_slash].
  by rewrite (proj2 (Z.eqb_neq _ _)), IH by done.
Qed.
(** A name in a directory is shown as it is, with blanks up to DIRSIZ. *)
Lemma fmtname_entry path name : 47 ∉ name ->
  fmtname (path ++ 47 :: name) = name ++ repeat 32 (14 - length name).
Proof.
  intros Hn. unfold fmtname. rewrite reverse_app, reverse_cons, <- app_assoc. cbn [app].
  rewrite before_slash_app by (by rewrite elem_of_reverse). rewrite reverse_involutive.
  change (Z.to_nat DIRSIZ) with 14%nat. destruct (Z.leb_spec DIRSIZ (Z.of_nat (length name))) as [Hl|Hl]; [|done].
  change DIRSIZ with 14 in Hl. replace (14 - length name)%nat with 0%nat by lia. by rewrite app_nil_r.
Qed.

Lemma stat_line_ok path st w : Forall byte path ->
  exists w', stat_line path st w = Ok (inl tt, w') /\ view_of w' = say 1 (stat_out path st) (view_of w).
Proof.
  intros Hp. apply fmtname_bytes in Hp. apply printf_ok. unfold stat_out.
  match goal with |- vprintf ?f _ _ = _ => let v := eval vm_compute in f in change f with v end. cbn [app].
  apply vprintf_s; [done|]. apply vprintf_lit; [discriminate|lia|]. apply vprintf_d. apply vprintf_lit; [discriminate|lia|].
  apply vprintf_d. apply vprintf_lit; [discriminate|lia|].
  apply vprintf_int; [pose proof (i32_range (st_size st)); lia|done].
Qed.

Lemma ulib_stat_ok p w : (size (v_fds (view_of w)) < 16)%nat ->
  exists r w', ulib_stat p w = Ok (r, w') /\ view_of w' = view_of w /\
    match v_files (view_of w) !! p with Some nd => r = (0, n_stat nd) | None => fst r = -1 end.
Proof.
  intros Hsz. unfold ulib_stat. destruct (law_open p w Hsz) as (fd & w1 & H1 & H2). rewrite (mbind_Ok _ _ _ _ _ H1).
  destruct (v_files (view_of w) !! p) as [nd|].
  - destruct H2 as (Hfd & Hn & V1). rewrite (proj2 (Z.ltb_ge _ _)) by lia.
    destruct (law_fstat fd nd 0 w1) as (w2 & H2 & V2); [rewrite V1; cbn; apply lookup_insert_eq|].
    rewrite (mbind_Ok _ _ _ _ _ H2). destruct (law_close fd w2) as (r & w3 & H3 & V3). rewrite (mbind_Ok _ _ _ _ _ H3).
    exists (0, n_stat nd), w3. split; [done|]. split; [|done]. rewrite V3, V2, V1. by apply (at_off_close fd nd 0).
  - destruct H2 as (Hfd & V1). rewrite (proj2 (Z.ltb_lt _ _)) by lia. by eexists _, w1.
Qed.

Definition entry_name (path de : list Z) : list Z := path ++ 47 :: cstring (de_name de).
Definition cannot_stat (name : list Z) : list Z :=
  [108; 115; 58; 32; 99; 97; 110; 110; 111; 116; 32; 115; 116; 97; 116; 32] ++ name ++ [10].
(** What ls prints for an entry of a directory *)
Definition entry_out (files : gmap (list Z) node) (path de : list Z) : list Z :=
  if de_inum de =? 0 then []
  else match files !! entry_name path de with
       | Some nd => stat_out (entry_name path de) (n_stat nd)
       | None => cannot_stat (entry_name path de)
       end.
Lemma cstring_bytes l : Forall (fun c => 0 <= c < 256) l -> Forall byte (cstring l).
Proof.
  induction 1 as [|c l Hc Hl IH]; [done|]. simpl. destruct (Z.eqb_spec c 0); [done|]. constructor; [unfold byte; lia|done].
Qed.
Lemma ls_entry_ok path de w : Forall byte path -> Forall (fun c => 0 <= c < 256) de -> (size (v_fds (view_of w)) < 16)%nat ->
  exists w', ls_entry path de w = Ok (inl tt, w') /\
    view_of w' = say 1 (entry_out (v_files (view_of w)) path de) (view_of w).
Proof.
  intros Hp Hd Hsz. unfold ls_entry, entry_out. destruct (de_inum de =? 0); [exists w; by rewrite say_nil|]. cbv zeta.
  assert (Forall byte (entry_name path de)) as Hn.
  { apply Forall_app. split; [done|]. constructor; [unfold byte; lia|]. apply cstring_bytes. unfold de_name. by apply Forall_drop. }
  fold (entry_name path de). destruct (ulib_stat_ok (entry_name path de) w Hsz) as (r & w1 & H1 & V1 & Hr).
  rewrite (ubind_sys _ _ _ _ _ H1). destruct (v_files (view_of w) !! entry_name path de) as [nd|].
  - subst r. cbn [fst snd]. change (0 <? 0) with false. cbv iota. rewrite <- V1. by apply stat_line_ok.
  - rewrite Hr. change (-1 <? 0) with true. cbv iota. rewrite <- V1. apply printf_ok. unfold cannot_stat.
    match goal with |- vprintf ?f _ _ = _ => let v := eval vm_compute in f in change f with v end. cbn [app]. vprint.
Qed.

Definition ls_body (fd : Z) (path : list Z) (_ : unit) : U W (unit + unit) :=
  do* r := sys (sys_read fd DIRENT_SIZE) in
  if fst r =? DIRENT_SIZE then ls_entry path (snd r) ;;! uret (inl tt) else uret (inr tt).
Lemma ls_loop fd nd path ents : st_type (n_stat nd) = T_DIR -> Forall byte path ->
  forall fuel off w, v_fds (view_of w) !! fd = Some (nd, off) -> drop off (n_data nd) = concat ents ->
  Forall (fun de => length de = 16%nat /\ Forall (fun c => 0 <= c < 256) de) ents ->
  (size (v_fds (view_of w)) < 16)%nat -> (length ents < fuel)%nat ->
  exists off' w', uloop fuel (ls_body fd path) tt w = Ok (inl tt, w') /\
    view_of w' = at_off fd nd off' (say 1 (concat (map (entry_out (v_files (view_of w)) path) ents)) (view_of w)).
Proof.
  intros Hty Hp fuel. revert ents. induction fuel as [|fuel IH]; intros ents off w Hfd Hdata He Hsz Hf; [lia|]. cbn [uloop].
  destruct (law_read fd DIRENT_SIZE nd off w Hfd ltac:(done)) as (k & w1 & H1 & Hk & Hkl & Hk0 & Hfull & V1).
  specialize (Hfull Hty). rewrite Hdata in *. fold (at_off fd nd (off + k)%nat (view_of w)) in V1.
  unfold ls_body at 1. rewrite ubind_assoc, (ubind_sys _ _ _ _ _ H1). cbn [fst snd].
  destruct ents as [|de ents].
  - subst k. change (Z.of_nat _ =? DIRENT_SIZE) with false. cbv iota. rewrite ubind_ret. exists (off + 0)%nat, w1.
    split; [done|]. by rewrite say_nil.
  - apply Forall_cons in He as [[Hl Hb] He]. cbn [concat] in *. rewrite length_app, Hl in Hfull. change (Z.to_nat DIRENT_SIZE) with 16%nat in Hfull.
    assert (k = 16%nat) as -> by lia. change (Z.of_nat 16 =? DIRENT_SIZE) with true. cbv iota.
    rewrite take_app_length' by done.
    assert (v_fds (view_of w1) = <[fd := (nd, (off + 16)%nat)]> (v_fds (view_of w))) as F1 by (by rewrite V1).
    destruct (ls_entry_ok path de w1 Hp Hb) as (w2 & H2 & V2); [rewrite F1, map_size_insert, Hfd; done|].
    rewrite ubind_assoc, (ubind_ok _ _ _ _ _ H2), ubind_ret.
    assert (v_files (view_of w1) = v_files (view_of w)) as G1 by (by rewrite V1).
    destruct (IH ents (off + 16)%nat w2) as (off' & w3 & H3 & V3); [| |done| |cbn [length] in Hf; lia|].
    + rewrite V2, say_fds, F1. apply lookup_insert_eq.
    + rewrite <- drop_drop, Hdata. by apply drop_app_length'.
    + rewrite V2, say_fds, F1, map_size_insert, Hfd. done.
    + exists off', w3. split; [done|]. rewrite V3, V2, say_files, G1, V1, !say_at_off, at_off_twice, say_app. done.
Qed.
End Ls.

(** ls on a directory prints, in the order of the directory, a line for every
    entry in use: the name cut out of the path and padded with blanks, the
    type, the inode number and the size of the file the path leads to, or that
    it cannot be examined.  Entries with inode number 0 are passed over, and
    nothing stays open. *)
Theorem ls_correct {W} {HS : Sys W} {HL : SysLaws W} fuel path nd ents w :
  v_files (view_of w) !! path = Some nd -> st_type (n_stat nd) = T_DIR -> n_data nd = concat ents ->
  Forall (fun de => length de = 16%nat /\ Forall (fun c => 0 <= c < 256) de) ents ->
  Forall byte path -> (length path <= 496)%nat -> (length ents < fuel)%nat -> (size (v_fds (view_of w)) < 15)%nat ->
  exists w', ls fuel path w = Ok (inl tt, w') /\
    view_of w' = (view_of w) <| v_out ::= fun o => o ++ concat (map (entry_out (v_files (view_of w)) path) ents) |>.
Proof.
  intros Hnd Hty Hdata He Hp Hlen Hf Hsz. destruct (law_open path w ltac:(lia)) as (fd & w1 & H1 & H2). rewrite Hnd in H2.
  destruct H2 as (Hfd & Hnone & V1). assert (v_fds (view_of w1) !! fd = Some (nd, 0%nat)) as F1 by (rewrite V1; cbn; apply lookup_insert_eq).
  destruct (law_fstat fd nd 0 w1 F1) as (w2 & H2 & V2).
  destruct (ls_loop fd nd path ents Hty Hp fuel 0 w2) as (off' & w3 & H3 & V3).
  { by rewrite V2. } { by rewrite drop_0. } { done. }
  { rewrite V2, V1. cbn. rewrite map_size_insert, Hnone. lia. } { done. }
  destruct (law_close fd w3) as (r & w4 & H4 & V4). exists w4. split.
  - unfold ls. rewrite (ubind_sys _ _ _ _ _ H1), (proj2 (Z.ltb_ge _ _)), (ubind_sys _ _ _ _ _ H2) by lia. cbn [fst snd].
    change (0 <? 0) with false. cbv iota. rewrite Hty. change ((T_DIR =? T_DEVICE) || (T_DIR =? T_FILE)) with false.
    change (T_DIR =? T_DIR) with true. cbv iota. rewrite (proj2 (Z.ltb_ge _ _)) by (change DIRSIZ with 14; lia).
    fold (ls_body fd path). rewrite (ubind_ok _ _ _ _ _ H3), (ubind_sys _ _ _ _ _ H4). done.
  - rewrite V4, V3, V2, V1. fold (at_off fd nd 0%nat (view_of w)). rewrite say_at_off, at_off_twice.
    by apply at_off_close.
Qed.

(** *** init *)
(** Whatever orphans exit before the shell does, init waits for them and, when
    the shell exits, starts it again. *)
Theorem init_reaps {W} {HS : Sys W} {HL : SysLaws W} (exits : W -> list Z) fuel pid orphans others w :
  (forall w x l, exits w = x :: l -> exists w', sys_wait w = Ok (x, w') /\ exits w' = l) ->
  exits w = orphans ++ pid :: others -> pid ∉ orphans -> Forall (fun x => 0 < x) orphans -> (length orphans < fuel)%nat ->
  exists w', init_wait fuel pid w = Ok (inl tt, w') /\ exits w' = others.
Proof.
  intros Hwait. revert orphans w. unfold init_wait. induction fuel as [|fuel IH]; intros orphans w Hw Hn Hpos Hf; [lia|].
  cbn [uloop]. rewrite ubind_assoc. destruct orphans as [|x orphans].
  - destruct (Hwait w pid others Hw) as (w1 & H1 & E1). rewrite (ubind_sys _ _ _ _ _ H1), Z.eqb_refl, ubind_ret. by exists w1.
  - apply not_elem_of_cons in Hn as [Hn1 Hn]. apply Forall_cons in Hpos as [Hx Hpos].
    destruct (Hwait w x (orphans ++ pid :: others) Hw) as (w1 & H1 & E1).
    rewrite (ubind_sys _ _ _ _ _ H1), (proj2 (Z.eqb_neq _ _)), (proj2 (Z.ltb_ge _ _)), ubind_ret by (done || lia).
    apply (IH orphans w1); [done|done|done|cbn [length] in Hf; lia].
Qed.

(** ** A system
    Descriptors are numbered upwards; a read from a file delivers at most three
    bytes. *)
Section Demo.
Definition next_fd (m : gmap Z (node * nat)) : Z := map_fold (fun k _ a => Z.max a (k + 1)) 0 m.
Lemma next_fd_spec m : 0 <= next_fd m /\ forall k x, m !! k = Some x -> k < next_fd m.
Proof.
  unfold next_fd. apply (map_fold_weak_ind (fun r m => 0 <= r /\ forall k x, m !! k = Some x -> k < r)); [done|].
  intros i y m' r _ [H1 H2]. split; [lia|]. intros k x [[-> _]|[_ Hk]]%lookup_insert_Some; [lia|]. apply H2 in Hk. lia.
Qed.
Definition demo_read (fd n : Z) : M sysview (Z * list Z) := fun v =>
  match v_fds v !! fd with
  | Some (nd, off) =>
      let l := drop off (n_data nd) in
      let k := Nat.min (Z.to_nat (if st_type (n_stat nd) =? T_DIR then n else Z.min 3 n)) (length l) in
      Ok ((Z.of_nat k, take k l), v <| v_fds ::= <[fd := (nd, (off + k)%nat)]> |>)
  | None => Ok ((-1, []), v)
  end.
#[local] Instance demo_sys : Sys sysview := {|
  sys_open p _ := fun v =>
    match v_files v !! p with
    | Some nd => Ok (next_fd (v_fds v), v <| v_fds ::= <[next_fd (v_fds v) := (nd, 0%nat)]> |>)
    | None => Ok (-1, v)
    end;
  sys_read := demo_read;
  sys_write fd l := fun v =>
    Ok (Z.of_nat (length l), if fd =? 1 then v <| v_out ::= fun o => o ++ l |> else v <| v_err ::= fun o => o ++ l |>);
  sys_close fd := fun v => Ok (0, v <| v_fds ::= delete fd |>);
  sys_fstat fd := fun v => Ok (match v_fds v !! fd with Some (nd, _) => (0, n_stat nd) | None => (-1, mkStat 0 0 0 0 0) end, v);
  sys_unlink _ := mret (-1); sys_mkdir _ := mret (-1); sys_mknod _ _ _ := mret (-1); sys_link _ _ := mret (-1);
  sys_dup _ := mret (-1); sys_kill _ := mret (-1); sys_sync := mret 0; sys_fork := mret (-1); sys_exec _ _ := mret false;
  sys_wait := mret (-1); sys_getpid := mret 1; sys_set_prio _ _ := mret (-1);
  sys_get_psinfo _ := mret (-1, mkPsinfo 0 0 0 0 0 0 0 [] 0 0 0 0 0 0 0 0 0 []);
  sys_sys_stat := mret (-1, mkSchedStat 0 0 0 0 0 0 0 0 0 0 0 0 [])
|}.
#[local] Program Instance demo_laws : SysLaws sysview := {| view_of v := v |}.
Next Obligation.
  intros p v _. cbn. destruct (v_files v !! p) as [nd|]; [|by exists (-1), v].
  exists (next_fd (v_fds v)). eexists. split; [reflexivity|]. destruct (next_fd_spec (v_fds v)) as [H1 H2]. split; [done|].
  split; [|done]. destruct (v_fds v !! next_fd (v_fds v)) as [x|] eqn:E; [|done]. apply H2 in E. lia.
Qed.
Next Obligation.
  intros fd n nd off v Hfd Hn. cbn. unfold demo_read. rewrite Hfd. eexists _, _. split; [reflexivity|].
  set (l := drop off (n_data nd)). split; [destruct (_ =? T_DIR); lia|]. split; [lia|]. split; [|split; [|done]].
  - intros H0. apply length_zero_iff_nil. destruct (_ =? T_DIR); lia.
  - intros Hty. by rewrite Hty, Z.eqb_refl.
Qed.
Next Obligation. intros fd l v Hfd. eexists. split; reflexivity. Qed.
Next Obligation. intros fd v. eexists _, _. split; reflexivity. Qed.
Next Obligation. intros fd nd off v Hfd. cbn. rewrite Hfd. eexists. split; reflexivity. Qed.

(** A file a with "ab c\n d\n", and a directory d with an unused entry and a. *)
Definition demo_file : node := mkNode (mkStat 1 7 T_FILE 1 8) [97; 98; 32; 99; 10; 32; 100; 10].
Definition demo_entry (i : Z) : list Z := [i; 0; 97] ++ repeat 0 13.
Definition demo_dir : node := mkNode (mkStat 1 5 T_DIR 1 32) (concat [demo_entry 0; demo_entry 7]).
Definition demo_view : sysview :=
  mkView (<[[100] := demo_dir]> (<[[100; 47; 97] := demo_file]> {[ [97] := demo_file ]})) ∅ [] [].

Lemma wc_correct_witness :
  exists v, wc_main 20 [[119; 99]; [97]; [98]] demo_view = Ok (inr (Exited 1), v) /\
    v_out v = bytes "2 3 8 a
wc: cannot open b
".
Proof.
  destruct (wc_correct 20 [119; 99] [[97]; [98]] demo_view) as (v & H1 & V1).
  - vm_compute. lia.
  - split; [by repeat constructor|]. intros p nd [->|[->|[]%not_elem_of_nil]%elem_of_cons]%elem_of_cons Hp; [|by vm_compute in Hp].
    vm_compute in Hp. injection Hp as <-. split; [done|vm_compute; lia].
  - done.
  - exists v. split; [exact H1|]. apply (f_equal v_out) in V1. etransitivity; [exact V1|vm_compute; reflexivity].
Defined.
Lemma ls_correct_witness :
  exists v, ls 20 [100] demo_view = Ok (inl tt, v) /\ v_out v = bytes "a              2 7 8
".
Proof.
  assert (Forall (fun de => length de = 16%nat /\ Forall (fun c => 0 <= c < 256) de) [demo_entry 0; demo_entry 7]) as He.
  { repeat constructor; done. }
  assert (Forall byte [100]) as Hp by (by repeat constructor).
  assert (v_files (view_of demo_view) !! [100] = Some demo_dir) as Hd by (cbn [view_of demo_laws demo_view v_files]; apply lookup_insert_eq).
  destruct (ls_correct 20 [100] demo_dir [demo_entry 0; demo_entry 7] demo_view Hd eq_refl eq_refl He Hp) as (v & H1 & V1).
  - simpl. lia.
  - simpl. lia.
  - vm_compute. lia.
  - exists v. split; [exact H1|]. apply (f_equal v_out) in V1. etransitivity; [exact V1|vm_compute; reflexivity].
Defined.
End Demo.
