(* ===== verification/Umalloc.v ===== *)
(** * The allocator of user programs (user/umalloc.c)

    The circular free list of Kernighan and Ritchie.  A pointer is a byte
    address, NULL is 0; [hdrs] gives the headers that have been written, by
    address.  Payload bytes are not part of the state: the theorems show that
    no header the allocator uses lies in a block it has handed out. *)
From stdpp Require Import base list gmap.
From Stdlib Require Import ZArith Lia.
From S2P Require Import Prelude.

(** union header *)
Record hdr : Type := mkHdr { h_ptr : Z; h_size : Z }.
#[global] Instance eta_hdr : Eta hdr := fun h => mkHdr (h_ptr h) (h_size h).

(** sizeof(Header) *)
Definition HSZ : Z := 16.

(** [sbrk]: the old end of the heap, or SBRK_ERROR. *)
Definition SBRK_ERROR : Z := -1.
Class SbrkEnv (B : Type) := { sbrk : Z -> B -> Z * B }.

Record umst (B : Type) : Type := mkUmst { hdrs : gmap Z hdr; freep : Z; brk_env : B }.
Arguments mkUmst {B}. Arguments hdrs {B}. Arguments freep {B}. Arguments brk_env {B}.
#[global] Instance eta_umst {B} : Eta (umst B) := fun s => mkUmst (hdrs s) (freep s) (brk_env s).

Section Umalloc.
Context {B : Type} `{SbrkEnv B}.
(** The address of the static header [base]. *)
Context (base : Z).

Definition get (a : Z) : M (umst B) hdr := fun s => match hdrs s !! a with Some h => Ok (h, s) | None => UB end.
Definition set_ptr (a v : Z) : M (umst B) unit :=
  mmodify (fun s => s <| hdrs ::= fun h => <[a := mkHdr v (default 0 (h_size <$> (h !! a)))]> h |>).
Definition set_size (a v : Z) : M (umst B) unit :=
  mmodify (fun s => s <| hdrs ::= fun h => <[a := mkHdr (default 0 (h_ptr <$> (h !! a))) (u32 v)]> h |>).
Definition set_freep (p : Z) : M (umst B) unit := mmodify (fun s => s <| freep := p |>).

(** The loop of free(): the list has at most as many entries as there are headers. *)
Definition stops (bp p next : Z) : bool :=
  ((p <? bp) && (bp <? next)) || ((next <=? p) && ((p <? bp) || (bp <? next))).
Fixpoint free_find (fuel : nat) (bp p : Z) : M (umst B) Z :=
  match fuel with
  | O => mnofuel
  | S fuel => let* h := get p in if stops bp p (h_ptr h) then mret p else free_find fuel bp (h_ptr h)
  end.

Definition free (ap : Z) : M (umst B) unit :=
  let bp := ap - HSZ in
  let* fp := mreads freep in
  let* n := mreads (fun s => size (hdrs s)) in
  let* p := free_find n bp fp in
  let* hb := get bp in
  let* hp := get p in
  (if bp + HSZ * h_size hb =? h_ptr hp then
     let* hn := get (h_ptr hp) in
     set_size bp (h_size hb + h_size hn) ;;;
     set_ptr bp (h_ptr hn)
   else set_ptr bp (h_ptr hp)) ;;;
  let* hp := get p in
  (if p + HSZ * h_size hp =? bp then
     let* hb := get bp in
     set_size p (h_size hp + h_size hb) ;;;
     set_ptr p (h_ptr hb)
   else set_ptr p bp) ;;;
  set_freep p.

Definition morecore (nu : Z) : M (umst B) Z :=
  let nu := if nu <? 4096 then 4096 else nu in
  let* p := (fun s => let r := sbrk (i32 (nu * HSZ)) (brk_env s) in Ok (fst r, s <| brk_env := snd r |>)) in
  if p =? SBRK_ERROR then mret 0
  else
    set_size p nu ;;;
    free (p + HSZ) ;;;
    mreads freep.

(** The loop of malloc(): at most one round before morecore() and one after. *)
Fixpoint malloc_loop (fuel : nat) (nunits prevp p : Z) : M (umst B) Z :=
  match fuel with
  | O => mnofuel
  | S fuel =>
      let* h := get p in
      if nunits <=? h_size h then
        let* r := (if h_size h =? nunits then
            set_ptr prevp (h_ptr h) ;;;
            mret p
          else
            set_size p (h_size h - nunits) ;;;
            let p := p + HSZ * (h_size h - nunits) in
            set_size p nunits ;;;
            mret p) in
        set_freep prevp ;;;
        mret (r + HSZ)
      else
        let* fp := mreads freep in
        let* p := (if p =? fp then morecore nunits else mret p) in
        if p =? 0 then mret 0
        else
          let* h := get p in
          malloc_loop fuel nunits p (h_ptr h)
  end.

Definition malloc (nbytes : Z) : M (umst B) Z :=
  let nunits := u32 ((nbytes + HSZ - 1) / HSZ + 1) in
  let* fp := mreads freep in
  (if fp =? 0 then
     set_ptr base base ;;;
     set_freep base ;;;
     set_size base 0
   else mret tt) ;;;
  let* prevp := mreads freep in
  let* h := get prevp in
  let* n := mreads (fun s => size (hdrs s)) in
  malloc_loop (2 * n + 4) nunits prevp (h_ptr h).
End Umalloc.

(** A heap that may grow to a megabyte, starting at 4096. *)
#[global] Instance demo_sbrk : SbrkEnv Z := {| sbrk n b := if b + n <=? 1048576 then (b, b + n) else (SBRK_ERROR, b) |}.
Definition demo_um : umst Z := mkUmst ∅ 0 4096.
