(* ===== verification/UmallocSpec.v ===== *)
(** * The allocator never hands out memory twice

    The free list and the blocks in use are disjoint pieces of the heap; every
    operation of [Umalloc] keeps them so. *)
From stdpp Require Import base list gmap.
From Stdlib Require Import ZArith Lia.
From S2P Require Import Prelude Umalloc.

Implicit Types (h : gmap Z hdr) (ns free A C : list (Z * Z)) (live : gmap Z Z).

(** ** Chains of headers *)

(** The address a chain starts with, [e] for the empty one. *)
Definition hd_addr ns (e : Z) : Z := match ns with (a, _) :: _ => a | [] => e end.
(** The headers at the addresses of [ns] have the sizes of [ns], and each points
    to the next, the last one to [e]. *)
Fixpoint seg h ns (e : Z) : Prop :=
  match ns with
  | [] => True
  | (a, s) :: r => h !! a = Some (mkHdr (hd_addr r e) s) /\ seg h r e
  end.

Lemma hd_addr_app A C e : hd_addr (A ++ C) e = hd_addr A (hd_addr C e).
Proof. by destruct A as [|[]]. Qed.
Lemma seg_app h A C e : seg h (A ++ C) e <-> seg h A (hd_addr C e) /\ seg h C e.
Proof.
  induction A as [|[a s] A IH]; simpl; [tauto|]. rewrite hd_addr_app, IH. tauto.
Qed.
Lemma seg_insert h ns e a c : a ∉ ns.*1 -> seg h ns e -> seg (<[a := c]> h) ns e.
Proof.
  induction ns as [|[b s] ns IH]; simpl; [done|]. intros Ha [Hb Hs]. apply not_elem_of_cons in Ha as [Hab Ha].
  split; [by rewrite lookup_insert_ne|by apply IH].
Qed.
Lemma seg_lookup h ns e a s : seg h ns e -> (a, s) ∈ ns -> exists p, h !! a = Some (mkHdr p s).
Proof.
  induction ns as [|[b t] ns IH]; simpl; intros Hs Hin; [by apply elem_of_nil in Hin|]. destruct Hs as [Hb Hs].
  apply elem_of_cons in Hin as [[= -> ->]|Hin]; eauto.
Qed.
(** A ring can be entered anywhere. *)
Lemma seg_rotate h A C : C <> [] -> seg h (A ++ C) (hd_addr A (hd_addr C 0)) -> seg h (C ++ A) (hd_addr C 0).
Proof.
  intros HC Hs. apply seg_app in Hs as [H1 H2]. apply seg_app. destruct C as [|[c t] C]; [done|]. simpl in *. split; [|done].
  destruct A; done.
Qed.
Lemma seg_length h ns e : seg h ns e -> NoDup ns.*1 -> (length ns <= size h)%nat.
Proof.
  intros Hs Hnd. rewrite <- size_dom. rewrite <- (length_fmap fst ns), <- (size_list_to_set (C := gset Z)) by done.
  apply subseteq_size. intros a Ha. apply elem_of_list_to_set, list_elem_of_fmap in Ha as ([b s] & -> & Hin).
  destruct (seg_lookup _ _ _ _ _ Hs Hin) as [p Hp]. apply elem_of_dom. eauto.
Qed.

(** ** The invariant *)

(** End of a block. *)
Definition fin (x : Z * Z) : Z := fst x + HSZ * snd x.
Definition apart (x y : Z * Z) : Prop := fin x <= fst y \/ fin y <= fst x.
(** Blocks one after the other from [lo] to [hi]. *)
Fixpoint ascending (lo : Z) ns (hi : Z) : Prop :=
  match ns with
  | [] => lo <= hi
  | x :: r => lo <= fst x /\ 1 <= snd x /\ ascending (fin x) r hi
  end.

(** [hi] is the end of the heap. *)
Record heap_ok (base hi : Z) h (fp : Z) free live : Prop := {
  hk_base : 0 < base;
  hk_hi : hi <= 2 ^ 36;
  hk_ring : seg h ((base, 0) :: free) base;
  hk_fp : fp ∈ base :: free.*1;
  hk_free : ascending (base + HSZ) free hi;
  hk_live a s : live !! a = Some s -> 1 <= s /\ base + HSZ <= a /\ a + HSZ * s <= hi /\ exists p, h !! a = Some (mkHdr p s);
  hk_apart a s x : live !! a = Some s -> x ∈ free -> apart (a, s) x;
  hk_disj a s b t : live !! a = Some s -> live !! b = Some t -> a <> b -> apart (a, s) (b, t)
}.

Lemma ascending_app lo A C hi : ascending lo (A ++ C) hi <-> exists m, ascending lo A m /\ ascending m C hi.
Proof.
  revert lo. induction A as [|x A IH]; intros lo; simpl.
  - split; [intros H; exists lo; split; [lia|done]|]. intros (m & H1 & H2). revert H2. destruct C as [|y C]; simpl; [lia|]. intros (? & ? & ?). split; [lia|done].
  - rewrite IH. split; [intros (H1 & H2 & m & H3 & H4); eauto 6|intros (m & (H1 & H2 & H3) & H4); eauto 6].
Qed.
Lemma ascending_le lo ns hi : ascending lo ns hi -> lo <= hi.
Proof. revert lo. induction ns as [|z ns IH]; intros lo H; simpl in H; [done|]. destruct H as (H1 & H2 & H3). apply IH in H3. unfold fin, HSZ in *. lia. Qed.
Lemma ascending_elem lo ns hi x : ascending lo ns hi -> x ∈ ns -> lo <= fst x /\ 1 <= snd x /\ fin x <= hi.
Proof.
  revert lo. induction ns as [|y ns IH]; intros lo Ha Hx; [by apply elem_of_nil in Hx|]. destruct Ha as (H1 & H2 & H3).
  apply elem_of_cons in Hx as [->|Hx]; [by apply ascending_le in H3|]. apply (IH _ H3) in Hx. unfold fin, HSZ in *. lia.
Qed.
Lemma ascending_NoDup lo ns hi : ascending lo ns hi -> NoDup ns.*1 /\ forall a, a < lo -> a ∉ ns.*1.
Proof.
  revert lo. induction ns as [|y ns IH]; intros lo Ha; [split; [constructor|intros a _ Hx; by apply elem_of_nil in Hx]|].
  assert (forall a, a < lo -> a ∉ (y :: ns).*1) as Hlo.
  { intros a Hlt Hx. apply list_elem_of_fmap in Hx as (z & -> & Hz). pose proof (ascending_elem _ _ _ _ Ha Hz). lia. }
  split; [|done]. destruct Ha as (H1 & H2 & H3). destruct (IH _ H3) as [N1 N2]. simpl. constructor; [|done]. apply N2. unfold fin, HSZ. lia.
Qed.
Lemma heap_NoDup base hi h fp free live : heap_ok base hi h fp free live -> NoDup (base :: free.*1).
Proof.
  intros Hk. destruct (ascending_NoDup _ _ _ (hk_free _ _ _ _ _ _ Hk)) as [N1 N2]. constructor; [|done]. apply N2. unfold HSZ. lia.
Qed.

(** ** Lists of blocks beside the blocks in use *)
Record fits lo ns hi live : Prop := {
  ft_asc : ascending lo ns hi;
  ft_apart a s x : live !! a = Some s -> x ∈ ns -> 1 <= s /\ apart (a, s) x
}.
Definition units ns : Z := foldr (fun x n => snd x + n) 0 ns.
Lemma units_app A C : units (A ++ C) = units A + units C.
Proof. induction A as [|x A IH]; simpl; [done|]. rewrite IH. lia. Qed.

Lemma fits_app_inv lo A x C hi live : fits lo (A ++ x :: C) hi live ->
  exists m, ascending lo A m /\ fits m (x :: C) hi live.
Proof.
  intros [H1 H2]. apply ascending_app in H1 as (m & HA & HC). exists m. split; [done|]. split; [done|].
  intros a s y Ha Hy. apply (H2 a s y Ha). apply elem_of_app. by right.
Qed.
Lemma fits_app lo A m ns x C hi live : fits lo (A ++ x :: C) hi live -> ascending lo A m -> fits m ns hi live -> fits lo (A ++ ns) hi live.
Proof.
  intros [H1 H2] HA [F1 F2]. split; [apply ascending_app; eauto|]. intros a s y Ha Hy. apply elem_of_app in Hy as [Hy|Hy]; [|by apply F2].
  apply (H2 a s y Ha). apply elem_of_app. by left.
Qed.
(** Two adjacent blocks become one. *)
Lemma fits_merge lo a s t C hi live : fits lo ((a, s) :: (a + HSZ * s, t) :: C) hi live -> fits lo ((a, s + t) :: C) hi live.
Proof.
  intros [(H1 & H2 & H3 & H4 & H5) F]. unfold fin in *. simpl in *. split.
  - simpl. split; [done|]. split; [lia|]. unfold fin. simpl. by replace (a + HSZ * (s + t)) with (a + HSZ * s + HSZ * t) by lia.
  - intros b u x Hb Hx. apply elem_of_cons in Hx as [->|Hx].
    + destruct (F b u (a, s) Hb ltac:(by left)) as [? A1]. destruct (F b u (a + HSZ * s, t) Hb ltac:(right; by left)) as [_ A2].
      split; [done|]. unfold apart, fin, HSZ in *. simpl in *. lia.
    + apply (F b u x Hb). by do 2 right.
Qed.
(** A block that was in use goes between two others. *)
Lemma fits_insert lo x C hi live b t :
  fits lo (x :: C) hi live -> live !! b = Some t -> fst x < b -> (forall y, y ∈ C -> b < fst y) -> b + HSZ * t <= hi ->
  (forall a s, live !! a = Some s -> a <> b -> apart (a, s) (b, t)) ->
  fits lo (x :: (b, t) :: C) hi (delete b live).
Proof.
  intros [(H1 & H2 & H3) F] Hb Hlt HC Hhi Hd. destruct (F b t x Hb ltac:(by left)) as [Ht Ax].
  split.
  - split; [done|]. split; [done|]. split; [unfold apart, fin, HSZ in *; simpl in *; lia|]. split; [done|]. unfold fin at 1. simpl.
    destruct C as [|y C]; [simpl; lia|]. destruct H3 as (H3 & H4 & H5). split; [|done].
    destruct (F b t y Hb ltac:(right; by left)) as [_ Ay]. specialize (HC y ltac:(by left)). unfold apart, fin, HSZ in *. simpl in *. lia.
  - intros a s y Ha Hy. apply lookup_delete_Some in Ha as [Hab Ha]. rewrite !elem_of_cons in Hy. destruct Hy as [->|[->|Hy]].
    + apply (F a s x Ha). by left.
    + split; [apply (F a s x Ha); by left|]. apply Hd; done.
    + apply (F a s y Ha). by right.
Qed.

(** ** free() *)
Section Free.
Context {B : Type} {SE : SbrkEnv B}.
Implicit Types (s : umst B).

Lemma get_ok a c s : hdrs s !! a = Some c -> get a s = Ok (c, s).
Proof. intros Hc. unfold get. by rewrite Hc. Qed.

Definition stop_at h bp a : Prop := exists c, h !! a = Some c /\ stops bp a (h_ptr c) = true.
Lemma free_find_ok bp : forall ns e fuel s, seg (hdrs s) ns e -> (exists a, a ∈ ns.*1 /\ stop_at (hdrs s) bp a) -> (length ns <= fuel)%nat ->
  exists a, a ∈ ns.*1 /\ stop_at (hdrs s) bp a /\ free_find fuel bp (hd_addr ns e) s = Ok (a, s).
Proof.
  induction ns as [|[a t] ns IH]; intros e fuel s Hs (b & Hb & Hst) Hf; [by apply elem_of_nil in Hb|].
  destruct fuel as [|fuel]; [simpl in Hf; lia|]. destruct Hs as [Ha Hs]. cbn [free_find hd_addr]. rewrite (mbind_Ok _ _ _ _ _ (get_ok a _ s Ha)).
  cbn [h_ptr]. destruct (stops bp a (hd_addr ns e)) eqn:Hst'.
  - exists a. split; [by left|]. split; [by exists (mkHdr (hd_addr ns e) t)|done].
  - destruct (IH e fuel s Hs) as (a' & Ha' & Hst2 & Hr); [|simpl in Hf; lia|exists a'; split; [by right|done]].
    exists b. split; [|done]. simpl in Hb. apply elem_of_cons in Hb as [->|]; [|done]. destruct Hst as (c & Hc & Hst). rewrite Ha in Hc. injection Hc as <-. simpl in Hst. congruence.
Qed.

(** The place of [bp] in the list. *)
Lemma ring_split lo ns hi bp : ascending lo ns hi -> bp ∉ ns.*1 ->
  exists A C, ns = A ++ C /\ (forall x, x ∈ A -> fst x < bp) /\ (forall x, x ∈ C -> bp < fst x).
Proof.
  revert lo. induction ns as [|x ns IH]; intros lo Ha Hn; [exists [], []; split; [done|]; split; intros y Hy; by apply elem_of_nil in Hy|].
  simpl in Hn. apply not_elem_of_cons in Hn as [Hne Hn]. destruct (decide (fst x < bp)) as [Hlt|Hge].
  - destruct Ha as (_ & _ & Ha). destruct (IH _ Ha Hn) as (A & C & -> & HA & HC). exists (x :: A), C. split; [done|]. split; [|done].
    intros y Hy. apply elem_of_cons in Hy as [->|Hy]; [done|by apply HA].
  - exists [], (x :: ns). split; [done|]. split; [intros y Hy; by apply elem_of_nil in Hy|]. intros y Hy.
    destruct Ha as (_ & H2 & Ha). apply elem_of_cons in Hy as [->|Hy]; [lia|]. pose proof (ascending_elem _ _ _ _ Ha Hy). unfold fin, HSZ in *. lia.
Qed.

Lemma set_ptr_ok a v c s : hdrs s !! a = Some c -> set_ptr a v s = Ok (tt, s <| hdrs := <[a := mkHdr v (h_size c)]> (hdrs s) |>).
Proof. intros Hc. unfold set_ptr, mmodify. simpl. by rewrite Hc. Qed.
Lemma uset_size_ok a v c s : hdrs s !! a = Some c -> set_size a v s = Ok (tt, s <| hdrs := <[a := mkHdr (h_ptr c) (u32 v)]> (hdrs s) |>).
Proof. intros Hc. unfold set_size, mmodify. simpl. by rewrite Hc. Qed.
(** Both fields of a header one after the other. *)
Lemma set_both_ok a n v c s : hdrs s !! a = Some c ->
  (set_size a n ;;; set_ptr a v) s = Ok (tt, s <| hdrs := <[a := mkHdr v (u32 n)]> (hdrs s) |>).
Proof.
  intros Hc. rewrite (mbind_Ok _ _ _ _ _ (uset_size_ok _ _ _ _ Hc)). erewrite set_ptr_ok by (simpl; apply lookup_insert_eq).
  simpl. by rewrite insert_insert_eq.
Qed.

(** The two updates of the header of [bp] and of the one before it. *)
Definition free_right (bp p : Z) : M (umst B) unit :=
  let* hb := get bp in
  let* hp := get p in
  (if bp + HSZ * h_size hb =? h_ptr hp then
     let* hn := get (h_ptr hp) in
     set_size bp (h_size hb + h_size hn) ;;;
     set_ptr bp (h_ptr hn)
   else set_ptr bp (h_ptr hp)).
Definition free_left (bp p : Z) : M (umst B) unit :=
  let* hp := get p in
  (if p + HSZ * h_size hp =? bp then
     let* hb := get bp in
     set_size p (h_size hp + h_size hb) ;;;
     set_ptr p (h_ptr hb)
   else set_ptr p bp).

(** [b] with the block behind it when they are adjacent, and what follows. *)
Definition join_right (b : Z * Z) C : (Z * Z) * list (Z * Z) :=
  match C with
  | c :: C' => if fin b =? fst c then ((fst b, snd b + snd c), C') else (b, C)
  | [] => (b, [])
  end.
Definition join_left (x b : Z * Z) : list (Z * Z) :=
  if fin x =? fst b then [(fst x, snd x + snd b)] else [x; b].

Lemma free_right_ok s base hi p sp bp sz ptr C :
  hdrs s !! bp = Some (mkHdr ptr sz) -> hdrs s !! p = Some (mkHdr (hd_addr C base) sp) -> seg (hdrs s) C base ->
  base < bp -> 1 <= sz -> bp + HSZ * sz <= hi -> ascending bp C hi -> hi <= 2 ^ 36 -> 0 < base ->
  let r := join_right (bp, sz) C in
  free_right bp p s = Ok (tt, s <| hdrs := <[bp := mkHdr (hd_addr (snd r) base) (snd (fst r))]> (hdrs s) |>).
Proof.
  intros Hb Hp HC Hbb Hsz Hhi Has Hmax Hb0. unfold free_right. rewrite (mbind_Ok _ _ _ _ _ (get_ok _ _ _ Hb)), (mbind_Ok _ _ _ _ _ (get_ok _ _ _ Hp)).
  cbn [h_size h_ptr]. change (bp + HSZ * sz) with (fin (bp, sz)) in *. unfold join_right. destruct C as [|[q sq] C]; cbn [hd_addr fst snd].
  - rewrite (proj2 (Z.eqb_neq _ _)) by (unfold fin, HSZ; simpl; lia). by rewrite (set_ptr_ok _ _ _ _ Hb).
  - destruct HC as [Hq HC]. destruct Has as (H1 & H2 & H3). simpl in H1, H2. destruct (Z.eqb_spec (fin (bp, sz)) q) as [Heq|Hne].
    + rewrite (mbind_Ok _ _ _ _ _ (get_ok _ _ _ Hq)), (set_both_ok _ _ _ _ _ Hb). cbn [h_size h_ptr]. apply ascending_le in H3. unfold fin, HSZ in *. simpl in *.
      rewrite u32_small by lia. done.
    + by rewrite (set_ptr_ok _ _ _ _ Hb).
Qed.
Lemma free_left_ok s p sp bp sz nx nb :
  hdrs s !! bp = Some (mkHdr nb sz) -> hdrs s !! p = Some (mkHdr nx sp) -> bp <> p -> 0 <= sp -> 0 <= sz -> sp + sz < 2 ^ 32 ->
  free_left bp p s = Ok (tt, s <| hdrs := <[p := if fin (p, sp) =? bp then mkHdr nb (sp + sz) else mkHdr bp sp]> (hdrs s) |>).
Proof.
  intros Hb Hp Hne H0 H1 H2. unfold free_left. rewrite (mbind_Ok _ _ _ _ _ (get_ok _ _ _ Hp)). cbn [h_size]. change (p + HSZ * sp) with (fin (p, sp)).
  destruct (fin (p, sp) =? bp).
  - rewrite (mbind_Ok _ _ _ _ _ (get_ok _ _ _ Hb)). cbn [h_size h_ptr]. rewrite (set_both_ok _ _ _ _ _ Hp), u32_small by lia. done.
  - by rewrite (set_ptr_ok _ _ _ _ Hp).
Qed.

(** The list after free(). *)
Lemma fits_cons lo C hi live b t :
  fits lo C hi live -> live !! b = Some t -> 1 <= t -> lo <= b -> (forall y, y ∈ C -> b < fst y) -> b + HSZ * t <= hi ->
  (forall a u, live !! a = Some u -> a <> b -> 1 <= u /\ apart (a, u) (b, t)) ->
  fits lo ((b, t) :: C) hi (delete b live).
Proof.
  intros [H1 F] Hb Ht Hlo HC Hhi Hd. split.
  - split; [done|]. split; [done|]. unfold fin. simpl. destruct C as [|y C]; [simpl; lia|]. destruct H1 as (H3 & H4 & H5). split; [|done].
    destruct (F b t y Hb ltac:(by left)) as [_ Ay]. specialize (HC y ltac:(by left)). unfold apart, fin, HSZ in *. simpl in *. lia.
  - intros a u y Ha Hy. apply lookup_delete_Some in Ha as [Hab Ha]. apply elem_of_cons in Hy as [->|Hy]; [by apply Hd|by apply (F a u y Ha)].
Qed.
Lemma fits_join_right lo b C hi live : fits lo (b :: C) hi live -> fits lo (fst (join_right b C) :: snd (join_right b C)) hi live.
Proof.
  intros H. unfold join_right. destruct C as [|[c t] C]; [done|]. simpl fst. destruct (Z.eqb_spec (fin b) c) as [<-|]; [|done].
  destruct b as [b s]. by apply fits_merge.
Qed.
Lemma fits_join_left lo x b C hi live : fits lo (x :: b :: C) hi live -> fits lo (join_left x b ++ C) hi live.
Proof.
  intros H. unfold join_left. destruct b as [b t], x as [x s]. simpl fst. destruct (Z.eqb_spec (fin (x, s)) b) as [<-|]; [|done]. by apply fits_merge.
Qed.
Lemma units_join_right b C : (forall c, c ∈ C -> 1 <= snd c) ->
  snd (fst (join_right b C)) + units (snd (join_right b C)) = snd b + units C /\ snd b <= snd (fst (join_right b C)).
Proof.
  intros HC. unfold join_right. destruct C as [|c C]; [done|]. specialize (HC c ltac:(by left)). destruct (fin b =? fst c); simpl; lia.
Qed.
Lemma units_join_left x b : 1 <= snd x -> 0 <= snd b -> units (join_left x b) = snd x + snd b /\ exists y, y ∈ join_left x b /\ snd b <= snd y.
Proof.
  intros Hx Hb. unfold join_left. destruct (fin x =? fst b); simpl.
  - split; [lia|]. eexists. split; [by left|]. simpl. lia.
  - split; [lia|]. exists b. split; [right; by left|lia].
Qed.

(** The headers after free(). *)
Lemma seg_joined h A x C base b t c1 : NoDup ((A ++ x :: C).*1) -> b ∉ (A ++ x :: C).*1 -> seg h (A ++ x :: C) base ->
  let r := join_right (b, t) C in
  c1 = mkHdr (hd_addr (snd r) base) (snd (fst r)) ->
  seg (<[fst x := if fin x =? b then mkHdr (h_ptr c1) (snd x + h_size c1) else mkHdr b (snd x)]> (<[b := c1]> h))
    (A ++ join_left x (fst r) ++ snd r) base.
Proof.
  intros Hnd Hb Hs r ->. rewrite fmap_app in Hnd, Hb. apply NoDup_app in Hnd as (NA & NAC & Nx). apply not_elem_of_app in Hb as [HbA Hb].
  simpl in Hb, Nx. apply not_elem_of_cons in Hb as [Hbx HbC]. apply NoDup_cons in Nx as [HxC NC].
  assert (fst x ∉ A.*1) as HxA by (intros Hx; apply (NAC _ Hx); by left).
  apply seg_app in Hs as [SA SC]. destruct x as [p sp]. cbn [fst snd] in *. destruct SC as [_ SC].
  assert (fst (fst r) = b /\ (forall y, y ∈ (snd r).*1 -> y ∈ C.*1) /\ seg h (snd r) base) as (Er & HrC & Sr).
  { unfold r, join_right. destruct C as [|[q sq] C]; [done|]. destruct (fin (b, t) =? fst (q, sq)); [|done]. split; [done|].
    split; [intros y Hy; by right|]. by destruct SC. }
  set (c1 := mkHdr (hd_addr (snd r) base) (snd (fst r))). set (c2 := if fin (p, sp) =? b then mkHdr (h_ptr c1) (sp + h_size c1) else mkHdr b sp).
  assert (seg (<[p := c2]> (<[b := c1]> h)) A p) as SA' by (apply seg_insert; [done|]; by apply seg_insert).
  assert (seg (<[p := c2]> (<[b := c1]> h)) (snd r) base) as Sr' by (apply seg_insert; [intros Hy; by apply HxC, HrC|]; apply seg_insert; [intros Hy; by apply HbC, HrC|done]).
  apply seg_app. unfold join_left, c2 in *. rewrite Er. destruct (fst r) as [rb rs] eqn:Hfr. cbn [fst snd] in *. subst rb. destruct (fin (p, sp) =? b).
  - split; [exact SA'|]. simpl. split; [|done]. by rewrite lookup_insert_eq.
  - split; [exact SA'|]. simpl. split; [by rewrite lookup_insert_eq|]. split; [|done]. rewrite lookup_insert_ne by done. apply lookup_insert_eq.
Qed.

Lemma ascending_weaken lo lo' ns hi : ascending lo ns hi -> lo' <= lo -> ascending lo' ns hi.
Proof. destruct ns as [|x ns]; simpl; [lia|]. intros (H1 & H2 & H3) H. split; [lia|done]. Qed.
Lemma ring_order base free hi A p sp C : ascending (base + HSZ) free hi -> (base, 0) :: free = A ++ (p, sp) :: C ->
  base <= p /\ ascending (p + 1) C hi.
Proof.
  intros Ha Heq. destruct A as [|x A]; simpl in Heq; injection Heq.
  - intros -> <- <-. split; [lia|]. apply (ascending_weaken _ _ _ _ Ha). unfold HSZ. lia.
  - intros -> <-. apply ascending_app in Ha as (m & H1 & H2). apply ascending_le in H1. destruct H2 as (H2 & H3 & H4). unfold fin, HSZ in *. simpl in *.
    split; [lia|]. apply (ascending_weaken _ _ _ _ H4). lia.
Qed.

(** The search of free() finds the entry behind which [b] belongs. *)
Lemma free_find_place base hi s free live b t :
  heap_ok base hi (hdrs s) (freep s) free live -> live !! b = Some t ->
  exists A x C, (base, 0) :: free = A ++ x :: C /\ fst x < b /\ (forall y, y ∈ C -> b < fst y) /\
    b ∉ ((base, 0) :: free).*1 /\ free_find (size (hdrs s)) b (freep s) s = Ok (fst x, s).
Proof.
  intros Hk Hb. pose proof Hk as [K1 K2 K3 K4 K5 K6 K7 K8]. pose proof (heap_NoDup _ _ _ _ _ _ Hk) as Hnd.
  destruct (K6 b t Hb) as (Ht & Hlo & Hhi & _). assert (b ∉ free.*1) as Hbf.
  { intros Hx. apply list_elem_of_fmap in Hx as (y & -> & Hy). pose proof (K7 _ _ _ Hb Hy) as Ha. pose proof (ascending_elem _ _ _ _ K5 Hy).
    unfold apart, fin, HSZ in *. simpl in *. lia. }
  assert (b ∉ ((base, 0) :: free).*1) as Hbn by (apply not_elem_of_cons; split; [simpl; unfold HSZ in *; lia|done]).
  (* some entry ends the search *)
  assert (exists a, a ∈ ((base, 0) :: free).*1 /\ stop_at (hdrs s) b a) as (a0 & Ha0 & Hst0).
  { destruct (ring_split _ _ _ b K5 Hbf) as (A0 & C & HAC & HA & HC). destruct (exists_last (l := (base, 0) :: A0)) as (A & x & HAx); [done|].
    assert ((base, 0) :: free = A ++ x :: C) as Hns by (rewrite HAC, app_comm_cons, HAx, <- app_assoc; done).
    exists (fst x). rewrite Hns. split; [rewrite fmap_app; apply elem_of_app; right; by left|].
    rewrite Hns in K3. apply seg_app in K3 as [_ K3]. destruct x as [p sp]. destruct K3 as [Hp _]. exists (mkHdr (hd_addr C base) sp). split; [done|]. simpl.
    assert (base <= p < b) as Hpb.
    { assert ((p, sp) ∈ (base, 0) :: A0) as Hin by (rewrite HAx; apply elem_of_app; right; by left).
      apply elem_of_cons in Hin as [[= -> ->]|Hin]; [unfold HSZ in *; lia|]. split; [|by apply (HA (p, sp))].
      pose proof (ascending_elem _ _ _ (p, sp) K5 ltac:(rewrite HAC; apply elem_of_app; by left)). unfold HSZ in *. simpl in *. lia. }
    unfold stops. destruct C as [|[q sq] C]; cbn [hd_addr].
    - rewrite (proj2 (Z.leb_le base p)), (proj2 (Z.ltb_lt p b)) by lia. apply orb_true_r.
    - specialize (HC (q, sq) ltac:(by left)). simpl in HC. by rewrite (proj2 (Z.ltb_lt p b)), (proj2 (Z.ltb_lt b q)) by lia. }
  (* the walk from freep *)
  assert (freep s ∈ ((base, 0) :: free).*1) as Hfp by exact K4.
  apply list_elem_of_fmap in Hfp as ([fp fs] & Hfp & Hin). apply list_elem_of_split in Hin as (P & Q & HPQ). simpl in Hfp. subst fp.
  assert (seg (hdrs s) (((freep s, fs) :: Q) ++ P) (freep s)) as Hrot.
  { apply (seg_rotate _ P ((freep s, fs) :: Q)); [done|]. rewrite <- HPQ. destruct P as [|[]]; simpl in HPQ |- *; injection HPQ as <- _; done. }
  assert (forall z, z ∈ (((freep s, fs) :: Q) ++ P).*1 <-> z ∈ ((base, 0) :: free).*1) as Hmem.
  { intros z. rewrite HPQ, !fmap_app, !elem_of_app. tauto. }
  destruct (free_find_ok b _ _ (size (hdrs s)) s Hrot) as (a & Ha & (c & Hc & Hst) & Hr).
  { exists a0. by rewrite Hmem. }
  { rewrite length_app, Nat.add_comm, <- length_app, <- HPQ. by apply (seg_length _ _ base). }
  apply Hmem, list_elem_of_fmap in Ha as ([p sp] & -> & Hin). apply list_elem_of_split in Hin as (A & C & HAC). exists A, (p, sp), C.
  split; [done|]. simpl in Hr. rewrite HAC in K3. apply seg_app in K3 as [_ [Hp _]]. cbn [fst] in Hc. rewrite Hp in Hc. injection Hc as <-. cbn [fst h_ptr] in Hst.
  destruct (ring_order _ _ _ _ _ _ _ K5 HAC) as [Hbp HC]. enough (p < b /\ forall y, y ∈ C -> b < fst y) as [] by (split; [done|]; split; [done|]; split; done).
  unfold stops in Hst. apply orb_true_iff in Hst. rewrite !andb_true_iff, orb_true_iff, !Z.ltb_lt, Z.leb_le in Hst. unfold HSZ in Hlo.
  destruct C as [|[q sq] C]; cbn [hd_addr] in Hst.
  - split; [lia|]. intros y Hy. by apply elem_of_nil in Hy.
  - destruct HC as (H1 & H2 & H3). simpl in H1, H2. split; [lia|]. intros y Hy. apply elem_of_cons in Hy as [->|Hy]; [simpl; lia|].
    pose proof (ascending_elem _ _ _ _ H3 Hy). unfold fin, HSZ in *. simpl in *. lia.
Qed.

Lemma fits_delete lo ns hi live b : fits lo ns hi live -> fits lo ns hi (delete b live).
Proof. intros [H1 H2]. split; [done|]. intros a u x Ha. apply lookup_delete_Some in Ha as [_ Ha]. by apply H2. Qed.
Lemma fits_tail lo x ns hi live : fits lo (x :: ns) hi live -> fits (fin x) ns hi live.
Proof. intros [(_ & _ & H1) H2]. split; [done|]. intros a u y Ha Hy. apply (H2 a u y Ha). by right. Qed.
Lemma fits_replace lo x ns ns' hi live : fits lo (x :: ns) hi live -> fits (fin x) ns' hi live -> fits lo (x :: ns') hi live.
Proof.
  intros [(H1 & H2 & _) H3] [H4 H5]. split; [done|]. intros a u y Ha Hy. apply elem_of_cons in Hy as [->|Hy]; [apply (H3 a u x Ha); by left|by apply (H5 a u y)].
Qed.

(** The free list with the block [b] put behind [x]. *)
Lemma joined_list base hi free live A x C b t :
  fits (base + HSZ) free hi live -> (base, 0) :: free = A ++ x :: C -> live !! b = Some t -> 1 <= t -> base + HSZ <= b -> b + HSZ * t <= hi ->
  fst x < b -> (forall y, y ∈ C -> b < fst y) -> (forall a u, live !! a = Some u -> a <> b -> 1 <= u /\ apart (a, u) (b, t)) ->
  let r := join_right (b, t) C in
  exists free', (base, 0) :: free' = A ++ join_left x (fst r) ++ snd r /\ fits (base + HSZ) free' hi (delete b live) /\
    units free' = units free + t /\ (exists y, y ∈ free' /\ t <= snd y) /\ 0 <= snd x /\ t <= snd (fst r) /\ fst x + HSZ * (snd x + snd (fst r)) <= hi.
Proof.
  intros Hf Hns Hb Ht Hlo Hhi Hxb HC Hd r.
  assert (forall c, c ∈ C -> 1 <= snd c) as HC1.
  { intros c Hc. destruct A as [|y A]; simpl in Hns; injection Hns; intros Hfree Hy; apply (ascending_elem (base + HSZ) free hi c (ft_asc _ _ _ _ Hf));
      rewrite Hfree; [done|]. apply elem_of_app. right. by right. }
  destruct (units_join_right (b, t) C HC1) as [Hu Hge]. fold r in Hu, Hge. simpl in Hge, Hu.
  assert (fst (fst r) = b) as Hrb by (unfold r, join_right; destruct C as [|c C']; [done|]; by destruct (fin (b, t) =? fst c)).
  destruct A as [|y A]; simpl in Hns; injection Hns.
  - intros <- <-. exists (fst r :: snd r). unfold join_left. rewrite Hrb. rewrite (proj2 (Z.eqb_neq _ _)) by (unfold fin, HSZ in *; simpl; lia).
    assert (fits (base + HSZ) (fst r :: snd r) hi (delete b live)) as Hfit by (apply fits_join_right; by apply fits_cons).
    split; [done|]. split; [done|]. split; [simpl; lia|]. split; [exists (fst r); split; [by left|done]|]. split; [done|]. split; [done|].
    pose proof (ascending_elem _ _ _ (fst r) (ft_asc _ _ _ _ Hfit) ltac:(by left)) as (E1 & E2 & E3). unfold fin, HSZ in *. simpl. lia.
  - intros Hfree <-. rewrite Hfree in Hf. apply fits_app_inv in Hf as Hf2. destruct Hf2 as (m & HA & Hxf).
    assert (fits m (x :: (b, t) :: C) hi (delete b live)) as H1.
    { apply fits_insert; try done. intros a u Ha Hab. by apply Hd. }
    assert (fits m (x :: fst r :: snd r) hi (delete b live)) as H2 by (eapply fits_replace; [exact H1|]; apply fits_join_right; by eapply fits_tail).
    pose proof (fits_join_left _ _ _ _ _ _ H2) as H3. exists (A ++ join_left x (fst r) ++ snd r). split; [done|].
    pose proof (ft_asc _ _ _ _ H2) as (X1 & X2 & X3 & X4 & X5). apply ascending_le in X5.
    destruct (units_join_left x (fst r) X2 ltac:(lia)) as (Hul & y & Hy & Hty).
    split; [eapply fits_app; [apply fits_delete; exact Hf|exact HA|exact H3]|]. split; [rewrite Hfree, !units_app, Hul; simpl; lia|].
    split; [exists y; split; [apply elem_of_app; right; apply elem_of_app; by left|lia]|]. split; [lia|]. split; [done|].
    unfold fin, HSZ in *. lia.
Qed.

(** No header in or just before a block in use changes. *)
Definition keeps h h' live : Prop := forall q u a, live !! q = Some u -> q - HSZ < a < q + HSZ * u -> h' !! a = h !! a.
Lemma keeps_insert h live p c sp :
  (forall q u, live !! q = Some u -> 1 <= sp /\ apart (q, u) (p, sp)) -> keeps h (<[p := c]> h) live.
Proof.
  intros Hp q u a Hq Ha. destruct (Hp q u Hq) as [Hs Hap]. apply lookup_insert_ne. unfold apart, fin, HSZ in *. simpl in *. lia.
Qed.
Lemma ukeeps_trans h1 h2 h3 live : keeps h1 h2 live -> keeps h2 h3 live -> keeps h1 h3 live.
Proof. intros H1 H2 q u a Hq Ha. rewrite (H2 q u a Hq Ha). by apply (H1 q u). Qed.
(** The entries of the ring are apart from the blocks in use. *)
Lemma heap_ring_apart base hi h fp free live p sp q u :
  heap_ok base hi h fp free live -> (p, sp) ∈ (base, 0) :: free -> live !! q = Some u -> apart (q, u) (p, Z.max 1 sp).
Proof.
  intros Hk Hin Hq. pose proof Hk as [K1 K2 K3 K4 K5 K6 K7 K8]. apply elem_of_cons in Hin as [[= -> ->]|Hin].
  - destruct (K6 q u Hq) as (_ & H & _). right. unfold fin. simpl. unfold HSZ in *. lia.
  - pose proof (ascending_elem _ _ _ _ K5 Hin) as (_ & H & _). simpl in H. rewrite Z.max_r by lia. by apply K7.
Qed.

(** free() of a block in use puts it back on the list. *)
Lemma free_ok base hi s free live b t :
  heap_ok base hi (hdrs s) (freep s) free live -> live !! b = Some t ->
  exists s' free', Umalloc.free (b + HSZ) s = Ok (tt, s') /\ brk_env s' = brk_env s /\
    heap_ok base hi (hdrs s') (freep s') free' (delete b live) /\ units free' = units free + t /\ (exists x, x ∈ free' /\ t <= snd x) /\
    (length free' <= S (length free))%nat /\ keeps (hdrs s) (hdrs s') (delete b live).
Proof.
  intros Hk Hb. pose proof Hk as [K1 K2 K3 K4 K5 K6 K7 K8]. destruct (free_find_place _ _ _ _ _ _ _ Hk Hb) as (A & x & C & Hns & Hxb & HC & Hbn & Hfind).
  destruct (K6 b t Hb) as (Ht & Hlo & Hhi & ptr & Hbh). pose proof (heap_NoDup _ _ _ _ _ _ Hk) as Hnd.
  change (base :: free.*1) with (((base, 0) :: free).*1) in Hnd. rewrite Hns in Hnd, Hbn. rewrite Hns in K3. pose proof K3 as Hseg. apply seg_app in K3 as [SA SC].
  destruct x as [p sp]. destruct SC as [Hp SC]. cbn [fst] in Hxb, Hfind. destruct (ring_order _ _ _ _ _ _ _ K5 Hns) as [Hbp HaC].
  assert (ascending b C hi) as HbC.
  { destruct C as [|y C]; [simpl; unfold HSZ in *; lia|]. destruct HaC as (H1 & H2 & H3). specialize (HC y ltac:(by left)). split; [lia|done]. }
  pose proof (free_right_ok s base hi p sp b t ptr C Hbh Hp SC ltac:(unfold HSZ in *; lia) Ht Hhi HbC K2 K1) as Hright. cbv zeta in Hright.
  set (r := join_right (b, t) C) in *. set (c1 := mkHdr (hd_addr (snd r) base) (snd (fst r))) in *. set (s1 := s <| hdrs := <[b := c1]> (hdrs s) |>) in *.
  assert (fits (base + HSZ) free hi live) as Hfits by (split; [done|]; intros a u y Ha Hy; split; [apply (K6 a u Ha)|by apply (K7 a u y)]).
  destruct (joined_list base hi free live A (p, sp) C b t Hfits Hns Hb Ht Hlo Hhi Hxb HC) as (free' & Hns' & Hfit' & Hun & Hbig & Hsp & Hge & Hend).
  { intros a u Ha Hab. split; [apply (K6 a u Ha)|by apply K8]. }
  fold r in Hns', Hge, Hend. cbn [fst snd] in Hsp, Hend.
  assert (hdrs s1 !! p = Some (mkHdr (hd_addr C base) sp)) as Hp1 by (simpl; by rewrite lookup_insert_ne by lia).
  pose proof (free_left_ok s1 p sp b (snd (fst r)) (hd_addr C base) (hd_addr (snd r) base) (lookup_insert_eq _ _ _) Hp1 ltac:(lia) Hsp ltac:(lia) ltac:(unfold HSZ in *; lia)) as Hleft.
  exists (s1 <| hdrs := <[p := if fin (p, sp) =? b then mkHdr (hd_addr (snd r) base) (sp + snd (fst r)) else mkHdr b sp]> (hdrs s1) |> <| freep := p |>), free'.
  split; [|split; [done|split; [|split; [done|split; [done|split]]]]].
  - unfold Umalloc.free. rewrite !mbind_reads. replace (b + HSZ - HSZ) with b by lia. rewrite (mbind_Ok _ _ _ _ _ Hfind).
    unfold free_right in Hright. apply mbind_Ok_inv in Hright as (hb & s2 & Hg1 & Hright). rewrite (mbind_Ok _ _ _ _ _ Hg1).
    apply mbind_Ok_inv in Hright as (hp & s3 & Hg2 & Hright). rewrite (mbind_Ok _ _ _ _ _ Hg2), (mbind_Ok _ _ _ _ _ Hright).
    unfold free_left in Hleft. apply mbind_Ok_inv in Hleft as (hp' & s4 & Hg3 & Hleft). rewrite (mbind_Ok _ _ _ _ _ Hg3), (mbind_Ok _ _ _ _ _ Hleft). done.
  - pose proof (seg_joined (hdrs s) A (p, sp) C base b t c1 Hnd Hbn Hseg eq_refl) as Hseg'. fold r in Hseg'. rewrite <- Hns' in Hseg'.
    split; [done|done| | |apply (ft_asc _ _ _ _ Hfit')| | |].
    + exact Hseg'.
    + change (p ∈ ((base, 0) :: free').*1). rewrite Hns', !fmap_app. apply elem_of_app. right. apply elem_of_app. left. unfold join_left.
      destruct (fin (p, sp) =? fst (fst r)); by left.
    + intros a u Ha. apply lookup_delete_Some in Ha as [Hab Ha]. destruct (K6 a u Ha) as (Q1 & Q2 & Q3 & q & Hq). do 3 (split; [done|]). exists q.
      assert (a <> p) as Hap.
      { intros ->. assert ((p, sp) ∈ (base, 0) :: free) as Hin by (rewrite Hns; apply elem_of_app; right; by left).
        apply elem_of_cons in Hin as [[= -> ->]|Hin]; [unfold HSZ in *; lia|]. pose proof (K7 _ _ _ Ha Hin). pose proof (ascending_elem _ _ _ _ K5 Hin).
        unfold apart, fin, HSZ in *. simpl in *. lia. }
      simpl. by rewrite !lookup_insert_ne.
    + intros a u y Ha Hy. by apply (ft_apart _ _ _ _ Hfit' a u y Ha).
    + intros a u c w Ha Hc. apply lookup_delete_Some in Ha as [_ Ha]. apply lookup_delete_Some in Hc as [_ Hc]. by apply K8.
  - apply (f_equal length) in Hns, Hns'. rewrite !length_app in Hns'. rewrite length_app in Hns. simpl in Hns, Hns'.
    assert (length (snd r) <= length C)%nat by (unfold r, join_right; destruct C as [|c C']; [done|]; destruct (fin (b, t) =? fst c); simpl; lia).
    assert (length (join_left (p, sp) (fst r)) <= 2)%nat by (unfold join_left; destruct (fin (p, sp) =? fst (fst r)); simpl; lia). lia.
  - apply (ukeeps_trans _ (hdrs s1)).
    + apply (keeps_insert _ _ _ _ t). intros q u Hq. apply lookup_delete_Some in Hq as [Hqb Hq]. split; [done|]. by apply K8.
    + apply (keeps_insert _ _ _ _ (Z.max 1 sp)). intros q u Hq. apply lookup_delete_Some in Hq as [Hqb Hq]. split; [lia|].
      apply (heap_ring_apart _ _ _ _ _ _ _ _ _ _ Hk); [|done]. rewrite Hns. apply elem_of_app. right. by left.
Qed.

(** ** malloc() *)
Lemma seg_next h ns e i a t : seg h ns e -> ns !! i = Some (a, t) -> h !! a = Some (mkHdr (default e (fst <$> ns !! S i)) t).
Proof.
  revert i. induction ns as [|[b u] ns IH]; intros i Hs Hi; [done|]. destruct Hs as [Hb Hs]. destruct i as [|i]; simpl in Hi.
  - injection Hi as -> ->. rewrite Hb. by destruct ns as [|[]].
  - by apply IH.
Qed.
(** Only one entry points to a given one. *)
Lemma ring_pred h ns (z v0 a : Z) A x y C :
  NoDup ns.*1 -> seg h ns (hd_addr ns 0) -> ns = A ++ x :: y :: C -> z ∈ ns.*1 -> h !! z = Some (mkHdr a v0) -> a = fst y -> z = fst x.
Proof.
  intros Hnd Hs Hns Hz Hh Ha. apply list_elem_of_fmap in Hz as ([w u] & -> & Hw). apply list_elem_of_lookup in Hw as [i Hi].
  simpl in Hh. rewrite (seg_next _ _ _ _ _ _ Hs Hi) in Hh. injection Hh as Hn _.
  assert (ns.*1 !! S (length A) = Some (fst y)) as Hy.
  { rewrite Hns, list_lookup_fmap, lookup_app_r by lia. replace (S (length A) - length A)%nat with 1%nat by lia. done. }
  destruct (ns !! S i) as [v|] eqn:Hv; simpl in Hn.
  - assert (ns.*1 !! S i = Some (fst y)) as Hv' by (rewrite list_lookup_fmap, Hv; simpl; congruence).
    pose proof (NoDup_lookup _ _ _ _ Hnd Hv' Hy) as Heq. injection Heq as ->. rewrite Hns, lookup_app_r, Nat.sub_diag in Hi by lia. simpl in Hi. by injection Hi as ->.
  - assert (ns.*1 !! 0%nat = Some (fst y)) as Hv'. { destruct ns as [|[b t] ns']; [done|]. simpl in *. congruence. }
    pose proof (NoDup_lookup _ _ _ _ Hnd Hv' Hy). done.
Qed.

(** Entries that are too small and are not [freep] are passed over. *)
Definition last_addr (p : Z) ns : Z := default p (last ns.*1).
Lemma malloc_skip nunits : forall N1 N2 e fuel s prevp,
  seg (hdrs s) (N1 ++ N2) e -> Forall (fun x => snd x < nunits /\ fst x <> freep s /\ 0 < fst x) N1 ->
  malloc_loop (length N1 + fuel) nunits prevp (hd_addr (N1 ++ N2) e) s = malloc_loop fuel nunits (last_addr prevp N1) (hd_addr N2 e) s.
Proof.
  induction N1 as [|[a t] N1 IH]; intros N2 e fuel s prevp Hs HF; [done|]. apply Forall_cons in HF as [(H1 & H2 & H3) HF]. simpl in H1, H2, H3.
  destruct Hs as [Ha Hs]. cbn [length Nat.add malloc_loop app hd_addr]. rewrite (mbind_Ok _ _ _ _ _ (get_ok _ _ _ Ha)). cbn [h_size h_ptr].
  rewrite (proj2 (Z.leb_gt _ _)) by lia. rewrite mbind_reads. rewrite (proj2 (Z.eqb_neq _ _) H2), mbind_ret. rewrite (proj2 (Z.eqb_neq a 0)) by lia.
  rewrite (mbind_Ok _ _ _ _ _ (get_ok _ _ _ Ha)). cbn [h_ptr]. etransitivity; [exact (IH N2 e fuel s a Hs HF)|]. f_equal.
  unfold last_addr. rewrite fmap_cons, last_cons. by destruct (last N1.*1).
Qed.

(** A block [y] of the free list is handed out, or its upper end. *)
Definition malloc_take (nunits prevp p : Z) (c : hdr) : M (umst B) Z :=
  let* r := (if h_size c =? nunits then
      set_ptr prevp (h_ptr c) ;;;
      mret p
    else
      set_size p (h_size c - nunits) ;;;
      let p := p + HSZ * (h_size c - nunits) in
      set_size p nunits ;;;
      mret p) in
  set_freep prevp ;;;
  mret (r + HSZ).

Lemma fits_drop lo A y C hi live : fits lo (A ++ y :: C) hi live -> fits lo (A ++ C) hi live.
Proof.
  intros H. pose proof H as H0. apply fits_app_inv in H0 as (m & HA & Hy). eapply fits_app; [exact H|exact HA|].
  pose proof (ft_asc _ _ _ _ Hy) as (H1 & H2 & _). apply fits_tail in Hy as [F1 F2]. split; [|done]. apply (ascending_weaken _ _ _ _ F1). unfold fin, HSZ. lia.
Qed.

Lemma fits_shrink lo A a sz n C hi live : fits lo (A ++ (a, sz) :: C) hi live -> 0 < n < sz -> fits lo (A ++ (a, sz - n) :: C) hi live.
Proof.
  intros H Hn. pose proof H as H0. apply fits_app_inv in H0 as (m & HA & Hy). eapply fits_app; [exact H|exact HA|].
  pose proof (ft_asc _ _ _ _ Hy) as (H1 & H2 & H3). simpl in H1, H2. split.
  - split; [done|]. split; [simpl; lia|]. apply (ascending_weaken _ _ _ _ H3). unfold fin, HSZ. simpl. lia.
  - intros b u x Hb Hx. apply elem_of_cons in Hx as [->|Hx]; [|apply (ft_apart _ _ _ _ Hy b u x Hb); by right].
    destruct (ft_apart _ _ _ _ Hy b u (a, sz) Hb ltac:(by left)) as [Hu Hap]. split; [done|]. unfold apart, fin, HSZ in *. simpl in *. lia.
Qed.
(** In an ascending list every other block is apart from [y]. *)
Lemma asc_apart lo A y C hi x : ascending lo (A ++ y :: C) hi -> x ∈ A ++ C -> apart y x.
Proof.
  intros Ha Hx. apply ascending_app in Ha as (m & HA & (H1 & H2 & H3)). apply elem_of_app in Hx as [Hx|Hx].
  - right. pose proof (ascending_elem _ _ _ _ HA Hx). lia.
  - left. pose proof (ascending_elem _ _ _ _ H3 Hx). lia.
Qed.

Lemma apart_sub a sz a' n x : apart (a, sz) x -> a <= a' -> a' + HSZ * n <= a + HSZ * sz -> apart (a', n) x.
Proof. unfold apart, fin. simpl. lia. Qed.
Lemma apart_sym x y : apart x y -> apart y x.
Proof. unfold apart. tauto. Qed.

Lemma last_addr_snoc base F1 G pp sp : (base, 0) :: F1 = G ++ [(pp, sp)] -> last_addr base F1 = pp.
Proof.
  intros HG. assert (base :: F1.*1 = G.*1 ++ [pp]) as H by (apply (f_equal (fmap fst)) in HG; rewrite fmap_app in HG; exact HG).
  apply (f_equal last) in H. rewrite last_snoc, last_cons in H. unfold last_addr. destruct (last F1.*1); simpl; congruence.
Qed.

(** The invariant with one block more in use, taken out of the entry [a] of the list. *)
Lemma heap_take base hi h h' fp' free live F1 a sz F2 a' n free' :
  heap_ok base hi h fp' free live -> free = F1 ++ (a, sz) :: F2 -> 1 <= n -> a <= a' -> a' + HSZ * n <= a + HSZ * sz ->
  seg h' ((base, 0) :: free') base -> fp' ∈ base :: free'.*1 -> fits (base + HSZ) free' hi live ->
  (forall x, x ∈ free' -> apart (a', n) x) -> (exists p, h' !! a' = Some (mkHdr p n)) ->
  (forall b u p, live !! b = Some u -> h !! b = Some (mkHdr p u) -> h' !! b = Some (mkHdr p u)) ->
  live !! a' = None /\ base + HSZ <= a' /\ heap_ok base hi h' fp' free' (<[a' := n]> live).
Proof.
  intros Hk Hfree Hn Ha Hend Hseg Hfp Hfits Hap Hh' Hsame. pose proof Hk as [K1 K2 K3 K4 K5 K6 K7 K8].
  assert ((a, sz) ∈ free) as Hin by (rewrite Hfree; apply elem_of_app; right; by left).
  pose proof (ascending_elem _ _ _ _ K5 Hin) as (Y1 & Y2 & Y3). unfold fin in Y3. simpl in Y1, Y2, Y3.
  assert (forall b u, live !! b = Some u -> 1 <= u /\ apart (a', n) (b, u)) as Hl.
  { intros b u Hb. split; [apply (K6 b u Hb)|]. apply (apart_sub a sz); [apply apart_sym; by apply (K7 b u)|done|done]. }
  split.
  { destruct (live !! a') as [u|] eqn:Hu; [|done]. destruct (Hl a' u Hu) as [H1 H2]. unfold apart, fin, HSZ in H2. simpl in H2. lia. }
  split; [lia|]. split; try done.
  - apply (ft_asc _ _ _ _ Hfits).
  - intros b u Hb. apply lookup_insert_Some in Hb as [[<- <-]|[Hne Hb]].
    + split; [done|]. split; [lia|]. split; [lia|done].
    + destruct (K6 b u Hb) as (Q1 & Q2 & Q3 & p & Hp). do 3 (split; [done|]). exists p. by apply Hsame.
  - intros b u x Hb Hx. apply lookup_insert_Some in Hb as [[<- <-]|[Hne Hb]]; [by apply Hap|]. by apply (ft_apart _ _ _ _ Hfits b u x).
  - intros b u c w Hb Hc Hbc. apply lookup_insert_Some in Hb as [[<- <-]|[Hne Hb]]; apply lookup_insert_Some in Hc as [[<- <-]|[Hne' Hc]].
    + done.
    + by apply Hl.
    + apply apart_sym. by apply Hl.
    + by apply K8.
Qed.
End Free.
