(* ===== verification/UmallocSafe.v ===== *)
(** * malloc() and the life of the blocks it hands out

    The scan of malloc() over the ring, morecore(), and the theorem that a
    program that only frees what it was given never sees a block twice. *)
From stdpp Require Import base list gmap.
From Stdlib Require Import ZArith Lia.
From S2P Require Import Prelude Umalloc UmallocSpec.

Implicit Types (h : gmap Z hdr) (ns free A C : list (Z * Z)) (live : gmap Z Z).

Section Take.
Context {B : Type} {SE : SbrkEnv B}.
Implicit Types (s : umst B).

Lemma heap_fp base hi h fp fp' free live : heap_ok base hi h fp free live -> fp' ∈ base :: free.*1 -> heap_ok base hi h fp' free live.
Proof. intros [] ?. by split. Qed.
Lemma heap_fits base hi h fp free live : heap_ok base hi h fp free live -> fits (base + HSZ) free hi live.
Proof. intros [K1 K2 K3 K4 K5 K6 K7 K8]. split; [done|]. intros a u y Ha Hy. split; [apply (K6 a u Ha)|by apply (K7 a u y)]. Qed.
Lemma last_addr_ring base F1 C : last_addr base F1 ∈ base :: (F1 ++ C).*1.
Proof.
  unfold last_addr. destruct (last F1.*1) as [x|] eqn:Hl; [|by left]. right. rewrite fmap_app. apply elem_of_app. left.
  by apply last_Some_elem_of.
Qed.

(** The header of a free block is not the header of a block in use. *)
Lemma ring_not_live base hi h fp free live p sp q u :
  heap_ok base hi h fp free live -> (p, sp) ∈ (base, 0) :: free -> live !! q = Some u -> q <> p.
Proof.
  intros Hk Hin Hq ->. pose proof (heap_ring_apart _ _ _ _ _ _ _ _ _ _ Hk Hin Hq) as Ha.
  destruct (hk_live _ _ _ _ _ _ Hk p u Hq) as (Hu & _). unfold apart, fin, HSZ in Ha. simpl in Ha. lia.
Qed.

(** A block of exactly the right size leaves the list. *)
Lemma take_exact_ok base hi s free live F1 a n F2 :
  heap_ok base hi (hdrs s) (freep s) free live -> free = F1 ++ (a, n) :: F2 -> 1 <= n ->
  exists s', malloc_take n (last_addr base F1) a (mkHdr (hd_addr F2 base) n) s = Ok (a + HSZ, s') /\ brk_env s' = brk_env s /\
    live !! a = None /\ base + HSZ <= a /\ heap_ok base hi (hdrs s') (freep s') (F1 ++ F2) (<[a := n]> live) /\ keeps (hdrs s) (hdrs s') live.
Proof.
  intros Hk Hfree Hn. pose proof Hk as [K1 K2 K3 K4 K5 K6 K7 K8]. pose proof (heap_NoDup _ _ _ _ _ _ Hk) as Hnd.
  change (base :: free.*1) with (((base, 0) :: free).*1) in Hnd.
  destruct (exists_last (l := (base, 0) :: F1)) as (G & [pp sp] & HG); [done|]. pose proof (last_addr_snoc _ _ _ _ _ HG) as Hpp.
  assert ((base, 0) :: free = G ++ (pp, sp) :: (a, n) :: F2) as Hring by (rewrite Hfree, app_comm_cons, HG, <- app_assoc; done).
  assert ((base, 0) :: (F1 ++ F2) = G ++ (pp, sp) :: F2) as Hring' by (rewrite app_comm_cons, HG, <- app_assoc; done).
  assert ((pp, sp) ∈ (base, 0) :: free) as Hppin by (rewrite Hring; apply elem_of_app; right; by left).
  rewrite Hring in Hnd, K3. apply seg_app in K3 as [SG (Hph & Hah & SF)]. rewrite fmap_app in Hnd. apply NoDup_app in Hnd as (_ & NG & Np).
  simpl in NG, Np. apply NoDup_cons in Np as [Npa Np]. apply NoDup_cons in Np as [NaF _]. apply not_elem_of_cons in Npa as [Hpa NpF].
  set (h' := <[pp := mkHdr (hd_addr F2 base) sp]> (hdrs s)). rewrite Hpp. exists (s <| hdrs := h' |> <| freep := pp |>).
  split; [|split; [done|]].
  { unfold malloc_take. cbn [h_size h_ptr]. rewrite Z.eqb_refl. rewrite mbind_assoc, (mbind_Ok _ _ _ _ _ (set_ptr_ok _ _ _ _ Hph)). done. }
  destruct (heap_take base hi (hdrs s) h' pp free live F1 a n F2 a n (F1 ++ F2)) as (H1 & H2 & H3); try done; try lia.
  - apply (heap_fp _ _ _ _ _ _ _ Hk). rewrite <- Hpp, Hfree. apply last_addr_ring.
  - rewrite Hring'. apply seg_app. simpl. split; [|split].
    + apply seg_insert; [|done]. intros HpG. apply (NG _ HpG). by left.
    + apply lookup_insert_eq.
    + by apply seg_insert.
  - rewrite <- Hpp. apply last_addr_ring.
  - eapply fits_drop. rewrite <- Hfree. by eapply heap_fits.
  - intros x Hx. eapply asc_apart; [|done]. rewrite <- Hfree. exact K5.
  - exists (hd_addr F2 base). unfold h'. by rewrite lookup_insert_ne.
  - intros q u p Hq Hh. unfold h'. rewrite lookup_insert_ne; [done|]. symmetry. by eapply ring_not_live.
  - split; [done|]. split; [done|]. split; [done|]. apply (keeps_insert _ _ _ _ (Z.max 1 sp)). intros q u Hq. split; [lia|].
    by apply (heap_ring_apart _ _ _ _ _ _ _ _ _ _ Hk).
Qed.

(** The upper end of a larger block is cut off. *)
Lemma take_split_ok base hi s free live F1 a sz F2 n prevp :
  heap_ok base hi (hdrs s) (freep s) free live -> free = F1 ++ (a, sz) :: F2 -> 1 <= n < sz -> prevp = last_addr base F1 ->
  let a' := a + HSZ * (sz - n) in
  exists s', malloc_take n prevp a (mkHdr (hd_addr F2 base) sz) s = Ok (a' + HSZ, s') /\ brk_env s' = brk_env s /\
    live !! a' = None /\ base + HSZ <= a' /\ heap_ok base hi (hdrs s') (freep s') (F1 ++ (a, sz - n) :: F2) (<[a' := n]> live) /\
    keeps (hdrs s) (hdrs s') live.
Proof.
  intros Hk Hfree Hn -> a'. pose proof Hk as [K1 K2 K3 K4 K5 K6 K7 K8]. pose proof (heap_NoDup _ _ _ _ _ _ Hk) as Hnd.
  change (base :: free.*1) with (((base, 0) :: free).*1) in Hnd.
  assert ((a, sz) ∈ free) as Hin by (rewrite Hfree; apply elem_of_app; right; by left).
  pose proof (ascending_elem _ _ _ _ K5 Hin) as (Y1 & Y2 & Y3). unfold fin in Y3. cbn [fst snd] in Y1, Y2, Y3.
  assert ((base, 0) :: free = ((base, 0) :: F1) ++ (a, sz) :: F2) as Hring by (by rewrite Hfree).
  rewrite Hring in Hnd, K3. apply seg_app in K3 as [SG (Hah & SF)]. rewrite fmap_app in Hnd. apply NoDup_app in Hnd as (_ & NG & Np).
  rewrite fmap_cons in Np. apply NoDup_cons in Np as [NaF _]. assert (a ∉ ((base, 0) :: F1).*1) as NaG by (intros Hx; apply (NG _ Hx); by left).
  assert (forall x, x ∈ F1 ++ F2 -> apart (a', n) x) as Hap.
  { intros x Hx. apply (apart_sub a sz); [|unfold a', HSZ; lia|unfold a', HSZ; lia]. eapply asc_apart; [|done]. rewrite <- Hfree. exact K5. }
  assert (forall y, y ∈ ((base, 0) :: F1).*1 \/ y ∈ F2.*1 -> a' <> y) as Ha'.
  { intros y Hy Heq. assert (y = base \/ y ∈ (F1 ++ F2).*1) as [Hb|Hm].
    { rewrite fmap_app, elem_of_app. destruct Hy as [Hy|Hy]; [|by right; right]. rewrite fmap_cons in Hy. apply elem_of_cons in Hy as [Hy|Hy]; [by left|by right; left]. }
    - unfold a', HSZ in *. lia.
    - apply list_elem_of_fmap in Hm as (z & -> & Hz). specialize (Hap z Hz).
      assert (z ∈ free) as Hzf by (rewrite Hfree; apply elem_of_app in Hz as [?|?]; apply elem_of_app; [by left|right; by right]).
      pose proof (ascending_elem _ _ _ _ K5 Hzf). unfold apart, fin, HSZ in *. simpl in *. lia. }
  set (c1 := mkHdr (hd_addr F2 base) (sz - n)). set (h1 := <[a := c1]> (hdrs s)). set (c2 := mkHdr (default 0 (h_ptr <$> (h1 !! a'))) n).
  set (h' := <[a' := c2]> h1). exists (s <| hdrs := h' |> <| freep := last_addr base F1 |>).
  assert (a <> a') as Haa by (unfold a', HSZ; lia).
  split; [|split; [done|]].
  { unfold malloc_take. cbn [h_size h_ptr]. rewrite (proj2 (Z.eqb_neq _ _)) by lia. rewrite mbind_assoc, (mbind_Ok _ _ _ _ _ (uset_size_ok _ _ _ _ Hah)).
    rewrite mbind_assoc. unfold set_size, mmodify. cbn. unfold mbind. cbn. rewrite !u32_small by (unfold HSZ in *; lia). done. }
  destruct (heap_take base hi (hdrs s) h' (last_addr base F1) free live F1 a sz F2 a' n (F1 ++ (a, sz - n) :: F2)) as (H1 & H2 & H3); try done; try (unfold a', HSZ; lia).
  - apply (heap_fp _ _ _ _ _ _ _ Hk). rewrite Hfree. apply last_addr_ring.
  - change ((base, 0) :: F1 ++ (a, sz - n) :: F2) with (((base, 0) :: F1) ++ (a, sz - n) :: F2). apply seg_app. split; [|split].
    + apply seg_insert; [intros Hx; by apply (Ha' a'); [left|]|]. by apply seg_insert.
    + unfold h', h1. rewrite lookup_insert_ne by done. apply lookup_insert_eq.
    + apply seg_insert; [intros Hx; by apply (Ha' a'); [right|]|]. by apply seg_insert.
  - apply last_addr_ring.
  - eapply fits_shrink; [|lia]. rewrite <- Hfree. by eapply heap_fits.
  - intros x Hx. apply elem_of_app in Hx as [Hx|Hx]; [apply Hap, elem_of_app; by left|]. apply elem_of_cons in Hx as [->|Hx]; [|apply Hap, elem_of_app; by right].
    right. unfold fin, a'. simpl. lia.
  - exists (default 0 (h_ptr <$> (h1 !! a'))). unfold h'. apply lookup_insert_eq.
  - intros q u p Hq Hh. assert (apart (q, u) (a, sz)) as Hqa by (by apply K7). destruct (K6 q u Hq) as (Hu & _).
    unfold h', h1. rewrite !lookup_insert_ne; [done| |]; unfold apart, fin, a', HSZ in *; simpl in *; lia.
  - split; [done|]. split; [done|]. split; [done|]. apply (ukeeps_trans _ h1).
    + apply (keeps_insert _ _ _ _ sz). intros q u Hq. split; [lia|]. by apply K7.
    + apply (keeps_insert _ _ _ _ n). intros q u Hq. split; [lia|]. apply apart_sym, (apart_sub a sz); [apply apart_sym; by apply K7|unfold a', HSZ; lia|unfold a', HSZ; lia].
Qed.
End Take.

(** ** The scan *)
Section Scan.
Context {B : Type} {SE : SbrkEnv B}.
Implicit Types (s : umst B).

Lemma heap_entry base hi h fp free live a sz : heap_ok base hi h fp free live -> (a, sz) ∈ (base, 0) :: free -> 0 < a.
Proof.
  intros [K1 K2 K3 K4 K5 K6 K7 K8] Hin. apply elem_of_cons in Hin as [[= -> ->]|Hin]; [done|].
  pose proof (ascending_elem _ _ _ _ K5 Hin). unfold HSZ in *. simpl in *. lia.
Qed.

(** The ring in the order in which malloc() visits it: [freep] last. *)
Lemma ring_from_freep base hi h fp free live : heap_ok base hi h fp free live ->
  exists P fs Q, (base, 0) :: free = P ++ (fp, fs) :: Q /\ seg h (Q ++ P ++ [(fp, fs)]) (hd_addr (Q ++ P ++ [(fp, fs)]) 0) /\
    Forall (fun z => fst z <> fp /\ 0 < fst z) (Q ++ P).
Proof.
  intros Hk. pose proof Hk as [K1 K2 K3 K4 K5 K6 K7 K8]. pose proof (heap_NoDup _ _ _ _ _ _ Hk) as Hnd. change (base :: free.*1) with (((base, 0) :: free).*1) in K4.
  apply list_elem_of_fmap in K4 as ([p fs] & Hp & Hin). simpl in Hp. subst p. apply list_elem_of_split in Hin as (P & Q & HPQ).
  exists P, fs, Q. split; [done|]. change (base :: free.*1) with (((base, 0) :: free).*1) in Hnd. split; cycle 1.
  { apply Forall_forall. intros [za zs] Hz. assert ((za, zs) ∈ P \/ (za, zs) ∈ Q) as Hz' by (apply elem_of_app in Hz; tauto). split.
    - intros Heq. simpl in Heq. subst za. rewrite HPQ, fmap_app in Hnd. apply NoDup_app in Hnd as (_ & N1 & N2). simpl in N2. apply NoDup_cons in N2 as [N2 _].
      destruct Hz' as [Hz'|Hz']; apply (list_elem_of_fmap_2 fst) in Hz'; [|done]. apply (N1 _ Hz'). by left.
    - apply (heap_entry _ _ _ _ _ _ za zs Hk). rewrite HPQ. apply elem_of_app. destruct Hz'; [by left|right; by right]. }
  rewrite !hd_addr_app. simpl. rewrite HPQ in K3. assert (base = hd_addr P fp) as Hb by (by destruct P as [|[]]; injection HPQ as <- _).
  rewrite Hb in K3. apply seg_app in K3 as [SP (Hfp & SQ)]. cbn [hd_addr] in SP. apply seg_app. split; [rewrite hd_addr_app; exact SQ|].
  apply seg_app. split; [exact SP|]. split; [|done]. exact Hfp.
Qed.

(** What malloc() does with the block it has found. *)
Definition malloc_post base hi s live n (r : Z) s' : Prop :=
  exists a free', r = a + HSZ /\ brk_env s' = brk_env s /\ live !! a = None /\ base + HSZ <= a /\
    heap_ok base hi (hdrs s') (freep s') free' (<[a := n]> live) /\ keeps (hdrs s) (hdrs s') live.

Lemma malloc_loop_take nunits prevp p c fuel s : hdrs s !! p = Some c -> nunits <= h_size c ->
  malloc_loop (S fuel) nunits prevp p s = malloc_take nunits prevp p c s.
Proof. intros Hc Hn. cbn [malloc_loop]. rewrite (mbind_Ok _ _ _ _ _ (get_ok _ _ _ Hc)). by rewrite (proj2 (Z.leb_le _ _) Hn). Qed.

Lemma take_ok base hi s free live F1 a sz F2 n :
  heap_ok base hi (hdrs s) (freep s) free live -> free = F1 ++ (a, sz) :: F2 -> 1 <= n <= sz ->
  exists r s', malloc_take n (last_addr base F1) a (mkHdr (hd_addr F2 base) sz) s = Ok (r, s') /\ malloc_post base hi s live n r s'.
Proof.
  intros Hk Hfree Hn. destruct (decide (sz = n)) as [->|Hne].
  - destruct (take_exact_ok _ _ _ _ _ _ _ _ _ Hk Hfree ltac:(lia)) as (s' & Hr & H). exists (a + HSZ), s'. split; [done|]. exists a, (F1 ++ F2). split; [done|exact H].
  - destruct (take_split_ok _ _ _ _ _ _ _ _ _ n _ Hk Hfree ltac:(lia) eq_refl) as (s' & Hr & H). do 2 eexists. split; [exact Hr|].
    do 2 eexists. split; [reflexivity|exact H].
Qed.

(** The entry before [x] in the order of the scan is the one before it in the list. *)
Lemma scan_pred base hi h fp free live P fs Q N1 x N2 F1 F2 :
  heap_ok base hi h fp free live -> (base, 0) :: free = P ++ (fp, fs) :: Q ->
  Q ++ P ++ [(fp, fs)] = N1 ++ x :: N2 -> seg h (Q ++ P ++ [(fp, fs)]) (hd_addr (Q ++ P ++ [(fp, fs)]) 0) ->
  free = F1 ++ x :: F2 -> last_addr fp N1 = last_addr base F1.
Proof.
  intros Hk HPQ HN Hseg Hfree. pose proof (heap_NoDup _ _ _ _ _ _ Hk) as Hnd. change (base :: free.*1) with (((base, 0) :: free).*1) in Hnd.
  destruct (exists_last (l := (base, 0) :: F1)) as (G & [pp sp] & HG); [done|]. rewrite (last_addr_snoc _ _ _ _ _ HG).
  assert (forall z, z ∈ Q ++ P ++ [(fp, fs)] <-> z ∈ (base, 0) :: free) as Hmem.
  { intros z. rewrite HPQ, !elem_of_app, list_elem_of_singleton, elem_of_cons. tauto. }
  assert (last_addr fp N1 ∈ ((base, 0) :: free).*1 /\ exists v, h !! last_addr fp N1 = Some (mkHdr (fst x) v)) as [Hin [v Hv]].
  { destruct (decide (N1 = [])) as [->|Hne].
    - change (last_addr fp []) with fp. split; [rewrite HPQ, fmap_app; apply elem_of_app; right; by left|]. simpl in HN. rewrite !app_assoc in Hseg. apply seg_app in Hseg as [_ (Hfp & _)].
      exists fs. rewrite Hfp. rewrite app_assoc in HN. rewrite HN. by destruct x.
    - destruct (exists_last Hne) as (N0 & [w u] & ->). assert (last_addr fp (N0 ++ [(w, u)]) = w) as -> by (unfold last_addr; rewrite fmap_app; simpl; by rewrite last_snoc). split.
      + apply list_elem_of_fmap. exists (w, u). split; [done|]. apply Hmem. rewrite HN. apply elem_of_app. left. apply elem_of_app. right. by left.
      + rewrite HN in Hseg. rewrite <- app_assoc in Hseg. apply seg_app in Hseg as [_ (Hw & _)]. exists u. rewrite Hw. by destruct x. }
  pose proof Hk as [K1 K2 K3 K4 K5 K6 K7 K8].
  apply (ring_pred h ((base, 0) :: free) (last_addr fp N1) v (fst x) G (pp, sp) x F2); try done.
  by rewrite Hfree, app_comm_cons, HG, <- app_assoc.
Qed.

(** A fitting block is found in one round. *)
Lemma malloc_found base hi s free live n fuel x :
  heap_ok base hi (hdrs s) (freep s) free live -> 1 <= n -> x ∈ free -> n <= snd x -> (length free < fuel)%nat ->
  exists r s', (let* hf := get (freep s) in malloc_loop fuel n (freep s) (h_ptr hf)) s = Ok (r, s') /\ malloc_post base hi s live n r s'.
Proof.
  intros Hk Hn Hx Hnx Hfuel. destruct (ring_from_freep _ _ _ _ _ _ Hk) as (P & fs & Q & HPQ & Hseg & Hoth).
  set (N := Q ++ P ++ [(freep s, fs)]) in *.
  assert (forall z, z ∈ N <-> z ∈ (base, 0) :: free) as Hmem.
  { intros z. unfold N. rewrite HPQ, !elem_of_app, list_elem_of_singleton, elem_of_cons. tauto. }
  assert (hdrs s !! freep s = Some (mkHdr (hd_addr N 0) fs)) as Hfp.
  { unfold N in Hseg |- *. rewrite !app_assoc in Hseg |- *. by apply seg_app in Hseg as [_ (H & _)]. }
  rewrite (mbind_Ok _ _ _ _ _ (get_ok _ _ _ Hfp)). cbn [h_ptr].
  (* the first entry that fits *)
  destruct (list_find (fun y => n <= snd y) N) as [[i y]|] eqn:Hfind.
  2: { apply list_find_None in Hfind. rewrite Forall_forall in Hfind. exfalso. apply (Hfind x); [|done]. apply Hmem. by right. }
  apply list_find_Some in Hfind as (Hi & Hy & Hbefore). pose proof (take_drop_middle _ _ _ Hi) as HN. symmetry in HN.
  set (N1 := take i N) in *. set (N2 := drop (S i) N) in *. destruct y as [a sz]. simpl in Hy.
  assert ((a, sz) ∈ free) as Hin.
  { assert ((a, sz) ∈ N) as H by (rewrite HN; apply elem_of_app; right; by left). apply Hmem, elem_of_cons in H as [[= -> ->]|H]; [lia|done]. }
  apply list_elem_of_split in Hin as (F1 & F2 & Hfree). rewrite HN in Hseg.
  assert (Forall (fun z => snd z < n /\ fst z <> freep s /\ 0 < fst z) N1) as HF.
  { apply Forall_forall. intros z Hz. pose proof Hz as Hz'. apply list_elem_of_lookup in Hz' as [j Hj]. unfold N1 in Hj. apply lookup_take_Some in Hj as [Hj Hji].
    pose proof (Hbefore j z Hj Hji) as Hlt. simpl in Hlt. split; [lia|]. revert z Hj Hz Hlt.
    intros z Hj _ _. rewrite Forall_forall in Hoth. apply Hoth. apply (list_elem_of_lookup_2 _ j). apply lookup_lt_Some in Hi. unfold N in Hi, Hj.
    rewrite app_assoc in Hi, Hj. rewrite length_app in Hi. simpl in Hi. by rewrite lookup_app_l in Hj by lia. }
  assert (length N1 < fuel)%nat as HlN.
  { assert (length N = S (length free)) as HlN by (change (S (length free)) with (length ((base, 0) :: free)); rewrite HPQ; unfold N; rewrite !length_app; simpl; lia).
    apply lookup_lt_Some in Hi. unfold N1. rewrite length_take. lia. }
  replace fuel with (length N1 + S (fuel - length N1 - 1))%nat by lia. 
  assert (hd_addr N 0 = hd_addr (N1 ++ (a, sz) :: N2) (hd_addr (N1 ++ (a, sz) :: N2) 0)) as -> by (transitivity (hd_addr (N1 ++ (a, sz) :: N2) 0); [by f_equal|by rewrite !hd_addr_app]).
  rewrite (malloc_skip n N1 ((a, sz) :: N2) _ _ s (freep s) Hseg HF).
  rewrite (scan_pred _ _ _ _ _ _ P fs Q N1 (a, sz) N2 F1 F2 Hk HPQ HN ltac:(fold N; by rewrite HN) Hfree). cbn [hd_addr].
  assert (hdrs s !! a = Some (mkHdr (hd_addr F2 base) sz)) as Ha.
  { pose proof (hk_ring _ _ _ _ _ _ Hk) as Hr. rewrite Hfree, app_comm_cons in Hr. by apply seg_app in Hr as [_ (H & _)]. }
  rewrite (malloc_loop_take _ _ _ _ _ _ Ha) by done. by eapply take_ok.
Qed.
End Scan.

(** ** What sbrk() promises

    Memory is handed out upwards from the end of the heap; a request fails or
    grows the heap.  The pages are physical ones, far fewer than 2^36 bytes. *)
Class SbrkLaws (B : Type) {SE : SbrkEnv B} := {
  brk : B -> Z;
  sbrk_grow n b : 0 < n < 2 ^ 31 ->
    sbrk n b = (SBRK_ERROR, b) \/ exists b', sbrk n b = (brk b, b') /\ brk b' = brk b + n /\ brk b' <= 2 ^ 36
}.

Section Malloc.
Context {B : Type} {SE : SbrkEnv B} {SL : SbrkLaws B}.
Implicit Types (s : umst B).

Lemma ascending_grow lo ns hi hi' : ascending lo ns hi -> hi <= hi' -> ascending lo ns hi'.
Proof. revert lo. induction ns as [|x ns IH]; intros lo Ha Hle; simpl in *; [lia|]. destruct Ha as (? & ? & ?). auto. Qed.

(** The heap with a new block at its end. *)
Lemma heap_extend base hi h fp free live nu c : heap_ok base hi h fp free live -> 1 <= nu -> hi + HSZ * nu <= 2 ^ 36 ->
  live !! hi = None /\ keeps h (<[hi := mkHdr c nu]> h) live /\
  heap_ok base (hi + HSZ * nu) (<[hi := mkHdr c nu]> h) fp free (<[hi := nu]> live).
Proof.
  intros Hk Hnu Hmax. pose proof Hk as [K1 K2 K3 K4 K5 K6 K7 K8]. pose proof (ascending_le _ _ _ K5) as Hb.
  assert (forall q u, live !! q = Some u -> 1 <= u /\ q + HSZ * u <= hi) as Hl by (intros q u Hq; destruct (K6 q u Hq) as (? & ? & ? & _); done).
  split.
  { destruct (live !! hi) as [u|] eqn:Hu; [|done]. apply Hl in Hu. unfold HSZ in *. lia. }
  split.
  { apply (keeps_insert _ _ _ _ nu). intros q u Hq. split; [done|]. left. unfold fin. simpl. by apply Hl. }
  split; [done|done| |done|by apply (ascending_grow _ _ _ _ K5); unfold HSZ; lia| | |].
  - apply seg_insert; [|done]. intros Hx. apply list_elem_of_fmap in Hx as (z & Hz & Hin). apply elem_of_cons in Hin as [->|Hin]; [simpl in Hz; unfold HSZ in *; lia|].
    pose proof (ascending_elem _ _ _ _ K5 Hin). unfold fin, HSZ in *. lia.
  - intros a u Ha. apply lookup_insert_Some in Ha as [[<- <-]|[Hne Ha]].
    + split; [done|]. split; [done|]. split; [lia|]. exists c. apply lookup_insert_eq.
    + destruct (K6 a u Ha) as (Q1 & Q2 & Q3 & p & Hp). split; [done|]. split; [done|]. split; [unfold HSZ in *; lia|]. exists p. by rewrite lookup_insert_ne.
  - intros a u x Ha Hx. apply lookup_insert_Some in Ha as [[<- <-]|[Hne Ha]]; [|by apply K7]. right. simpl. apply (ascending_elem _ _ _ _ K5 Hx).
  - intros a u b w Ha Hb' Hab. apply lookup_insert_Some in Ha as [[<- <-]|[Hne Ha]]; apply lookup_insert_Some in Hb' as [[<- <-]|[Hne' Hb']]; [done| | |by apply K8].
    + right. unfold fin. simpl. by apply Hl.
    + left. unfold fin. simpl. by apply Hl.
Qed.

(** The state between two calls; [live] has the blocks in use in units. *)
Definition heap_st base s free live : Prop := heap_ok base (brk (brk_env s)) (hdrs s) (freep s) free live.

Lemma morecore_ok base s free live n : heap_st base s free live -> 1 <= n -> HSZ * n < 2 ^ 31 ->
  morecore n s = Ok (0, s) \/
  exists s' free' x, morecore n s = Ok (freep s', s') /\ heap_st base s' free' live /\ x ∈ free' /\ n <= snd x /\
    (length free' <= S (length free))%nat /\ keeps (hdrs s) (hdrs s') live.
Proof.
  intros Hk Hn Hmax. unfold morecore. set (nu := if n <? 4096 then 4096 else n).
  assert (n <= nu /\ 4096 <= nu /\ HSZ * nu < 2 ^ 31) as (H1 & H2 & H3) by (unfold nu, HSZ in *; destruct (Z.ltb_spec n 4096); lia).
  rewrite i32_small by (unfold HSZ in *; lia). pose proof (ascending_le _ _ _ (hk_free _ _ _ _ _ _ Hk)) as Hb. pose proof (hk_base _ _ _ _ _ _ Hk) as Hb0.
  destruct (sbrk_grow (nu * HSZ) (brk_env s)) as [Hs|(b' & Hs & Hbrk & Hlim)]; [unfold HSZ in *; lia| |].
  { left. unfold mbind. simpl. rewrite Hs. simpl. by destruct s. }
  right. destruct (heap_extend base (brk (brk_env s)) (hdrs s) (freep s) free live nu (default 0 (h_ptr <$> (hdrs s !! brk (brk_env s))))) as (L1 & L2 & L3);
    [exact Hk|lia|unfold HSZ in *; lia|]. set (p := brk (brk_env s)) in *. set (h1 := <[p := _]> (hdrs s)) in *.
  set (s1 := s <| brk_env := b' |> <| hdrs := h1 |>). replace (p + HSZ * nu) with (brk b') in L3 by (unfold p; lia).
  destruct (free_ok base (brk b') s1 free (<[p := nu]> live) p nu L3 (lookup_insert_eq _ _ _)) as (s' & free' & Hr & Hbe & Hk' & _ & (x & Hx & Hnx) & Hlen & Hkeep).
  rewrite delete_insert_id in Hk', Hkeep by done. exists s', free', x. split; [|split; [unfold heap_st; rewrite Hbe; exact Hk'|]].
  - unfold mbind at 1. cbn [obind fst snd]. rewrite Hs. cbn [fst snd]. rewrite (proj2 (Z.eqb_neq _ _)) by (unfold p, SBRK_ERROR, HSZ in *; lia).
    unfold set_size, mmodify. rewrite (mbind_Ok _ _ _ tt s1); [|unfold s1, h1; cbn; by rewrite u32_small by (unfold HSZ in *; lia)].
    rewrite (mbind_Ok _ _ _ _ _ Hr). done.
  - split; [done|]. split; [lia|]. split; [done|]. by apply (ukeeps_trans _ h1).
Qed.

(** A call that returned the block at [r]. *)
Definition malloc_done base s live n (r : Z) s' : Prop :=
  exists a free', r = a + HSZ /\ live !! a = None /\ base + HSZ <= a /\ heap_st base s' free' (<[a := n]> live) /\ keeps (hdrs s) (hdrs s') live.
Lemma malloc_post_done base s live n r s' : malloc_post base (brk (brk_env s)) s live n r s' -> malloc_done base s live n r s'.
Proof. intros (a & free' & -> & Hb & H1 & H2 & H3 & H4). exists a, free'. split; [done|]. split; [done|]. split; [done|]. split; [|done]. unfold heap_st. by rewrite Hb. Qed.

(** The whole loop. *)
Lemma malloc_scan_ok base s free live n fuel :
  heap_st base s free live -> 1 <= n -> HSZ * n < 2 ^ 31 -> (2 * length free + 4 <= fuel)%nat ->
  exists r s', (let* hf := get (freep s) in malloc_loop fuel n (freep s) (h_ptr hf)) s = Ok (r, s') /\
    ((r = 0 /\ s' = s) \/ malloc_done base s live n r s').
Proof.
  intros Hk Hn Hmax Hfuel. destruct (list_find (fun y => n <= snd y) free) as [[i y]|] eqn:Hfind.
  { apply list_find_Some in Hfind as (Hi & Hy & _). apply list_elem_of_lookup_2 in Hi.
    destruct (malloc_found _ _ _ _ _ n fuel y Hk Hn Hi Hy ltac:(lia)) as (r & s' & Hr & Hp). exists r, s'. split; [done|]. right. by apply malloc_post_done. }
  apply list_find_None in Hfind. rewrite Forall_forall in Hfind.
  destruct (ring_from_freep _ _ _ _ _ _ Hk) as (P & fs & Q & HPQ & Hseg & Hoth).
  assert (forall z, z ∈ (base, 0) :: free -> snd z < n) as Hsmall.
  { intros z Hz. apply elem_of_cons in Hz as [->|Hz]; [simpl; lia|]. pose proof (Hfind z Hz). simpl in *. lia. }
  pose proof Hseg as Hs0. rewrite !app_assoc in Hs0. apply seg_app in Hs0 as [_ (Hfp & _)]. set (e := hd_addr (Q ++ P ++ [(freep s, fs)]) 0) in *.
  rewrite <- app_assoc in Hfp. change (hdrs s !! freep s = Some (mkHdr e fs)) in Hfp.
  rewrite (mbind_Ok _ _ _ _ _ (get_ok _ _ _ Hfp)). cbn [h_ptr]. rewrite app_assoc in Hseg.
  assert (length (Q ++ P) = length free) as Hlen by (apply (f_equal length) in HPQ; rewrite length_app in HPQ |- *; simpl in HPQ; lia).
  replace fuel with (length (Q ++ P) + S (fuel - length free - 1))%nat by lia.
  assert (e = hd_addr ((Q ++ P) ++ [(freep s, fs)]) e) as He by (unfold e; rewrite <- app_assoc, !hd_addr_app; done).
  assert (forall k, malloc_loop k n (freep s) e s = malloc_loop k n (freep s) (hd_addr ((Q ++ P) ++ [(freep s, fs)]) e) s) as Hstart by (intros k; by rewrite <- He).
  rewrite Hstart.
  rewrite (malloc_skip n (Q ++ P) [(freep s, fs)] e _ s (freep s) Hseg).
  2: { apply Forall_forall. intros z Hz. rewrite Forall_forall in Hoth. destruct (Hoth z Hz). split; [|done]. apply Hsmall. rewrite HPQ.
       apply elem_of_app. apply elem_of_app in Hz as [Hz|Hz]; [right; by right|by left]. }
  cbn [hd_addr malloc_loop]. rewrite (mbind_Ok _ _ _ _ _ (get_ok _ _ _ Hfp)). cbn [h_size].
  assert (fs < n) as Hfs by (apply (Hsmall (freep s, fs)); rewrite HPQ; apply elem_of_app; right; by left).
  rewrite (proj2 (Z.leb_gt _ _) Hfs), mbind_reads, Z.eqb_refl.
  destruct (morecore_ok _ _ _ _ n Hk Hn Hmax) as [Hm|(s1 & free1 & x & Hm & Hk1 & Hx & Hnx & Hl1 & Hkeep)]; rewrite (mbind_Ok _ _ _ _ _ Hm).
  { exists 0, s. split; [done|by left]. }
  assert (0 < freep s1) as Hpos.
  { pose proof (hk_fp _ _ _ _ _ _ Hk1) as Hf. change (base :: free1.*1) with (((base, 0) :: free1).*1) in Hf.
    apply list_elem_of_fmap in Hf as ([a sz] & -> & Hf). by eapply heap_entry. }
  rewrite (proj2 (Z.eqb_neq _ _)) by lia.
  destruct (malloc_found _ _ _ _ _ n (fuel - length free - 1) x Hk1 Hn Hx Hnx ltac:(lia)) as (r & s' & Hr & Hp). exists r, s'. split; [exact Hr|].
  right. apply malloc_post_done in Hp as (a & free' & -> & G1 & G2 & G3 & G4). exists a, free'. split; [done|]. split; [done|]. split; [done|]. split; [done|].
  by apply (ukeeps_trans _ (hdrs s1)).
Qed.

(** malloc() between two calls: the first call makes the ring. *)
Definition um_ok base s live : Prop :=
  (freep s = 0 /\ live = ∅ /\ 0 < base /\ base + HSZ <= brk (brk_env s) <= 2 ^ 36) \/ exists free, heap_st base s free live.

Lemma malloc_ok base s live nbytes : um_ok base s live -> 0 <= nbytes < 2 ^ 31 - 31 ->
  exists r s', malloc base nbytes s = Ok (r, s') /\
    ((r = 0 /\ um_ok base s' live /\ keeps (hdrs s) (hdrs s') live) \/ malloc_done base s live ((nbytes + 15) / 16 + 1) r s').
Proof.
  intros Hok Hnb. unfold malloc. replace (nbytes + HSZ - 1) with (nbytes + 15) by (unfold HSZ; lia). change HSZ with 16.
  set (n := (nbytes + 15) / 16 + 1). pose proof (Z.div_mod (nbytes + 15) 16 ltac:(lia)) as Hd. pose proof (Z.mod_pos_bound (nbytes + 15) 16 ltac:(lia)) as Hm.
  assert (1 <= n /\ HSZ * n < 2 ^ 31) as [Hn Hmax] by (unfold n, HSZ; lia). rewrite u32_small by (unfold HSZ in *; lia). rewrite mbind_reads.
  (* the state the scan starts in *)
  assert (exists s0 free, (if freep s =? 0 then set_ptr base base ;;; set_freep base ;;; set_size base 0 else mret tt) s = Ok (tt, s0) /\
    heap_st base s0 free live /\ keeps (hdrs s) (hdrs s0) live) as (s0 & free & Hinit & Hk & Hkeep).
  { destruct Hok as [(Hf & -> & Hb & Hbrk)|[free Hk]].
    - rewrite Hf, Z.eqb_refl. exists (s <| hdrs := <[base := mkHdr base 0]> (hdrs s) |> <| freep := base |>), []. split; [|split].
      + unfold mbind, set_ptr, set_freep, set_size, mmodify. cbn. by rewrite lookup_insert_eq, insert_insert_eq.
      + split; simpl; try done; try lia; [|by left]. split; [apply lookup_insert_eq|done].
      + intros q u a Hq. done.
    - pose proof (hk_fp _ _ _ _ _ _ Hk) as Hf. change (base :: free.*1) with (((base, 0) :: free).*1) in Hf.
      apply list_elem_of_fmap in Hf as ([a sz] & Heq & Hf). pose proof (heap_entry _ _ _ _ _ _ _ _ Hk Hf) as Hpos. simpl in Heq.
      rewrite (proj2 (Z.eqb_neq _ _)) by lia. exists s, free. split; [done|]. split; [done|]. by intros q u b. }
  rewrite (mbind_Ok _ _ _ _ _ Hinit), mbind_reads.
  pose proof (seg_length _ _ _ (hk_ring _ _ _ _ _ _ Hk) (heap_NoDup _ _ _ _ _ _ Hk)) as Hlen. simpl in Hlen.
  destruct (malloc_scan_ok base s0 free live n (2 * size (hdrs s0) + 4) Hk Hn Hmax ltac:(lia)) as (r & s' & Hr & Hcase). exists r, s'. split.
  - apply mbind_Ok_inv in Hr as (c & s1 & Hg & Hr). rewrite (mbind_Ok _ _ _ _ _ Hg). assert (s1 = s0) as -> by (unfold get in Hg; destruct (hdrs s0 !! freep s0); congruence).
    rewrite mbind_reads. exact Hr.
  - destruct Hcase as [[-> ->]|(a & free' & -> & G1 & G2 & G3 & G4)].
    + left. split; [done|]. split; [by right; exists free|done].
    + right. exists a, free'. split; [done|]. split; [done|]. split; [done|]. split; [done|]. by apply (ukeeps_trans _ (hdrs s0)).
Qed.

(** A program that calls malloc() and free(); [blocks] has the blocks it was
    given and has not freed, with the number of bytes it asked for. *)
Inductive um_reach (base : Z) : umst B -> gmap Z Z -> Prop :=
| ur_init b : 0 < base -> base + HSZ <= brk b <= 2 ^ 36 -> um_reach base (mkUmst ∅ 0 b) ∅
| ur_malloc s blocks n p s' : um_reach base s blocks -> 0 <= n < 2 ^ 31 - 31 -> malloc base n s = Ok (p, s') ->
    um_reach base s' (if p =? 0 then blocks else <[p := n]> blocks)
| ur_free s blocks p n s' : um_reach base s blocks -> blocks !! p = Some n -> Umalloc.free p s = Ok (tt, s') -> um_reach base s' (delete p blocks).

(** The blocks of the program lie in the blocks of the allocator. *)
Definition um_inv base s (blocks : gmap Z Z) : Prop :=
  exists live, um_ok base s live /\ forall p m, blocks !! p = Some m -> exists u, live !! (p - HSZ) = Some u /\ 0 <= m <= HSZ * (u - 1).
(** No header is written into the blocks of the program. *)
Definition untouched s s' (blocks : gmap Z Z) : Prop :=
  forall q m a, blocks !! q = Some m -> q - HSZ < a < q + m -> hdrs s' !! a = hdrs s !! a.
Lemma keeps_untouched s s' live (blocks : gmap Z Z) : keeps (hdrs s) (hdrs s') live ->
  (forall p m, blocks !! p = Some m -> exists u, live !! (p - HSZ) = Some u /\ 0 <= m <= HSZ * (u - 1)) -> untouched s s' blocks.
Proof. intros Hk Hb q m a Hq Ha. destruct (Hb q m Hq) as (u & Hu & Hm). apply (Hk _ _ _ Hu). unfold HSZ in *. lia. Qed.

Lemma um_malloc base s (blocks : gmap Z Z) n : um_inv base s blocks -> 0 <= n < 2 ^ 31 - 31 ->
  exists p s', malloc base n s = Ok (p, s') /\ um_inv base s' (if p =? 0 then blocks else <[p := n]> blocks) /\ untouched s s' blocks /\
    (p = 0 \/ (blocks !! p = None /\ base + 2 * HSZ <= p /\ p + n <= brk (brk_env s') /\ forall q m, blocks !! q = Some m -> p + n <= q \/ q + m <= p)).
Proof.
  intros (live & Hok & Hb) Hn. destruct (malloc_ok _ _ _ _ Hok Hn) as (p & s' & Hr & [(-> & Hok' & Hkeep)|(a & free' & -> & G1 & G2 & G3 & G4)]); eexists _, s'; (split; [exact Hr|]).
  - split; [by exists live|]. split; [by apply (keeps_untouched _ _ live)|by left].
  - pose proof (hk_base _ _ _ _ _ _ G3). set (u := (n + 15) / 16 + 1) in *. assert (n <= HSZ * (u - 1)) as Hnu.
    { pose proof (Z.div_mod (n + 15) 16 ltac:(lia)). pose proof (Z.mod_pos_bound (n + 15) 16 ltac:(lia)). unfold u, HSZ. lia. }
    rewrite (proj2 (Z.eqb_neq _ _)) by (unfold HSZ in *; lia). split; [|split; [by apply (keeps_untouched _ _ live)|right]].
    + exists (<[a := u]> live). split; [by right; exists free'|]. intros p m Hp. apply lookup_insert_Some in Hp as [[<- <-]|[Hne Hp]].
      * replace (a + HSZ - HSZ) with a by lia. exists u. split; [apply lookup_insert_eq|lia].
      * destruct (Hb p m Hp) as (w & Hw & Hm). exists w. split; [|done]. rewrite lookup_insert_ne; [done|]. intros ->. congruence.
    + destruct (hk_live _ _ _ _ _ _ G3 a u (lookup_insert_eq _ _ _)) as (E1 & E2 & E3 & _). split; [|split; [unfold HSZ in *; lia|split; [unfold HSZ in *; lia|]]].
      * destruct (blocks !! (a + HSZ)) as [m|] eqn:Hm; [|done]. destruct (Hb _ _ Hm) as (w & Hw & _). replace (a + HSZ - HSZ) with a in Hw by lia. congruence.
      * intros q m Hq. destruct (Hb q m Hq) as (w & Hw & Hm). assert (a <> q - HSZ) as Hne by (intros ->; congruence).
        pose proof (hk_disj _ _ _ _ _ _ G3 a u (q - HSZ) w (lookup_insert_eq _ _ _) ltac:(by rewrite lookup_insert_ne) Hne) as Hap.
        unfold apart, fin, HSZ in *. simpl in Hap. lia.
Qed.
Lemma um_free base s (blocks : gmap Z Z) p n : um_inv base s blocks -> blocks !! p = Some n ->
  exists s', Umalloc.free p s = Ok (tt, s') /\ um_inv base s' (delete p blocks) /\ untouched s s' (delete p blocks).
Proof.
  intros (live & Hok & Hb) Hp. destruct (Hb p n Hp) as (u & Hu & _). destruct Hok as [(_ & -> & _)|[free Hk]]; [done|].
  destruct (free_ok _ _ _ _ _ _ _ Hk Hu) as (s' & free' & Hr & Hbe & Hk' & _ & _ & _ & Hkeep). replace (p - HSZ + HSZ) with p in Hr by lia.
  assert (forall q m, delete p blocks !! q = Some m -> exists w, delete (p - HSZ) live !! (q - HSZ) = Some w /\ 0 <= m <= HSZ * (w - 1)) as Hb'.
  { intros q m Hq. apply lookup_delete_Some in Hq as [Hne Hq]. destruct (Hb q m Hq) as (w & Hw & Hm). exists w. split; [|done]. rewrite lookup_delete_ne by lia. done. }
  exists s'. split; [done|]. split; [|by apply (keeps_untouched _ _ (delete (p - HSZ) live))]. exists (delete (p - HSZ) live). split; [|done].
  right. exists free'. unfold heap_st. by rewrite Hbe.
Qed.
Lemma um_reach_inv base s (blocks : gmap Z Z) : um_reach base s blocks -> um_inv base s blocks.
Proof.
  induction 1 as [b Hb Hbrk|s blocks n p s' _ IH Hn Hr|s blocks p n s' _ IH Hp Hr].
  - exists ∅. split; [by left|done].
  - destruct (um_malloc _ _ _ _ IH Hn) as (p' & s'' & Hr' & Hi & _). rewrite Hr in Hr'. by injection Hr' as <- <-.
  - destruct (um_free _ _ _ _ _ IH Hp) as (s'' & Hr' & Hi & _). rewrite Hr in Hr'. by injection Hr' as <-.
Qed.

End Malloc.

#[global] Instance demo_laws : SbrkLaws Z.
Proof.
  refine {| brk := fun b => b |}. intros n b Hn. unfold sbrk. simpl. destruct (Z.leb_spec (b + n) 1048576); [right|by left].
  exists (b + n). split; [done|]. lia.
Defined.
(** Two blocks, the first one freed again, and a third one that reuses part of it. *)
Definition demo_run : outcome (Z * umst Z) :=
  (let* p := malloc 1024 100 in let* q := malloc 1024 5000 in Umalloc.free p ;;; malloc 1024 20) demo_um.
Definition out_val {S : Type} (d : Z) (r : outcome (Z * S)) : Z := match r with Ok (a, _) => a | _ => d end.
(** The third block is the upper end of the first one. *)
Example demo_run_ok : out_val 0 demo_run = 69600.
Proof. vm_compute. reflexivity. Qed.

