(* ===== verification/Console.v ===== *)
(** * The console (kernel/console.c)

    The input ring with its line editing, consoleread(), consolewrite() and
    consoleintr().  The output is the list of the bytes sent to the uart.  What
    the console needs of the rest of the kernel is the class [ConsEnv]; the
    characters that arrive while consoleread() sleeps come from [cons_wait],
    and are handled by consoleintr() before the process goes on. *)
From stdpp Require Import base list strings.
From Stdlib Require Import ZArith Lia.
From S2P Require Import Prelude Spinlock Printf.

Definition INPUT_BUF_SIZE : Z := 128.
(** C(x) *)
Definition Ctl (x : Z) : Z := x - 64.
Definition NL : Z := 10.
Definition CR : Z := 13.
Definition DEL : Z := 127.

Record cons_t : Type := mkCons { c_lock : spinlock; c_buf : list Z; c_r : Z; c_w : Z; c_e : Z }.
#[global] Instance eta_cons : Eta cons_t := fun c => mkCons (c_lock c) (c_buf c) (c_r c) (c_w c) (c_e c).

(** [cons_wait]: the characters typed while the process sleeps, none for a
    process that nothing wakes. *)
Class ConsEnv (E : Type) := {
  cons_killed : E -> bool;
  cons_wait : E -> option (list Z * E);
  cons_copyout : bool -> Z -> Z -> E -> Z * E;
  cons_copyin : bool -> Z -> Z -> E -> Z * list Z * E;
  cons_wakeup : E -> E;
  cons_procdump : E -> list Z
}.

Record cst (E : Type) : Type := mkCst { cons : cons_t; c_hart : nat; c_cpu : cpu; c_out : list Z; c_env : E }.
Arguments mkCst {E}. Arguments cons {E}. Arguments c_hart {E}. Arguments c_cpu {E}. Arguments c_out {E}. Arguments c_env {E}.
#[global] Instance eta_cst {E} : Eta (cst E) := fun s => mkCst (cons s) (c_hart s) (c_cpu s) (c_out s) (c_env s).

(** cons.buf[i % INPUT_BUF_SIZE] *)
Definition cons_at (c : cons_t) (i : Z) : Z := nth (Z.to_nat (i mod INPUT_BUF_SIZE)) (c_buf c) 0.

Section Console.
Context {E : Type} `{ConsEnv E}.

Definition emit (l : list Z) : M (cst E) unit := mmodify (fun s => s <| c_out ::= fun o => o ++ l |>).
Definition upd_cons (f : cons_t -> cons_t) : M (cst E) unit := mmodify (fun s => s <| cons ::= f |>).
Definition lock_cons (op : nat -> cpu -> spinlock -> outcome (cpu * spinlock)) : M (cst E) unit := fun s =>
  obind (op (c_hart s) (c_cpu s) (c_lock (cons s))) (fun r =>
    Ok (tt, s <| c_cpu := fst r |> <| cons ::= fun c => c <| c_lock := snd r |> |>)).

(** One turn of the loop of control-u. *)
Definition kill_line (_ : unit) : M (cst E) (unit + unit) :=
  let* c := mreads cons in
  if negb (c_e c =? c_w c) && negb (cons_at c (u32 (c_e c - 1)) =? NL) then
    upd_cons (fun c => c <| c_e ::= fun e => u32 (e - 1) |>) ;;;
    emit (consputc BACKSPACE) ;;;
    mret (inl tt)
  else mret (inr tt).

Definition consoleintr (ch : Z) : M (cst E) unit :=
  lock_cons acquire ;;;
  (if ch =? Ctl 80 then
     let* l := mreads (fun s => cons_procdump (c_env s)) in
     emit l
   else if ch =? Ctl 85 then mloop (Z.to_nat INPUT_BUF_SIZE + 1) kill_line tt
   else if (ch =? Ctl 72) || (ch =? DEL) then
     let* c := mreads cons in
     if negb (c_e c =? c_w c) then
       upd_cons (fun c => c <| c_e ::= fun e => u32 (e - 1) |>) ;;;
       emit (consputc BACKSPACE)
     else mret tt
   else
     let* c := mreads cons in
     if negb (ch =? 0) && (u32 (c_e c - c_r c) <? INPUT_BUF_SIZE) then
       let ch := if ch =? CR then NL else ch in
       emit (consputc ch) ;;;
       upd_cons (fun c => c <| c_buf ::= <[Z.to_nat (c_e c mod INPUT_BUF_SIZE) := u8 ch]> |> <| c_e ::= fun e => u32 (e + 1) |>) ;;;
       let* c := mreads cons in
       if (ch =? NL) || (ch =? Ctl 68) || (u32 (c_e c - c_r c) =? INPUT_BUF_SIZE) then
         upd_cons (fun c => c <| c_w := c_e c |>) ;;;
         mmodify (fun s => s <| c_env ::= cons_wakeup |>)
       else mret tt
     else mret tt) ;;;
  lock_cons release.

(** while (cons.r == cons.w): the process sleeps until there is input; the
    answer is whether it was killed. *)
Definition wait_input (_ : unit) : M (cst E) (unit + bool) :=
  let* c := mreads cons in
  if c_r c =? c_w c then
    let* k := mreads (fun s => cons_killed (c_env s)) in
    if k then
      lock_cons release ;;;
      mret (inr true)
    else
      lock_cons release ;;;
      let* w := mreads (fun s => cons_wait (c_env s)) in
      match w with
      | None => mspin
      | Some (l, e) =>
          mmodify (fun s => s <| c_env := e |>) ;;;
          for_each l consoleintr ;;;
          lock_cons acquire ;;;
          mret (inl tt)
      end
  else mret (inr false).

(** A turn of the outer loop: [inr (inr r)] returns at once, [inr (inl n)] ends
    the loop.  [fuel] bounds the number of sleeps. *)
Definition read_turn (fuel : nat) (user_dst : bool) (target : Z) (a : Z * Z) : M (cst E) (Z * Z + (Z + Z)) :=
  let '(dst, n) := a in
  if 0 <? n then
    let* killed := mloop fuel wait_input tt in
    if killed : bool then mret (inr (inr (-1)))
    else
      let* c := mreads cons in
      let ch := cons_at c (c_r c) in
      upd_cons (fun c => c <| c_r ::= fun r => u32 (r + 1) |>) ;;;
      if ch =? Ctl 68 then
        (if n <? target then upd_cons (fun c => c <| c_r ::= fun r => u32 (r - 1) |>) else mret tt) ;;;
        mret (inr (inl n))
      else
        let* r := (fun s => let r := cons_copyout user_dst dst ch (c_env s) in Ok (fst r, s <| c_env := snd r |>)) in
        if r =? -1 then mret (inr (inl n))
        else if ch =? NL then mret (inr (inl (n - 1)))
        else mret (inl (u64 (dst + 1), n - 1))
  else mret (inr (inl n)).

Definition consoleread (fuel : nat) (user_dst : bool) (dst n : Z) : M (cst E) Z :=
  lock_cons acquire ;;;
  let* r := mloop (Z.to_nat n + 1) (read_turn fuel user_dst (u32 n)) (dst, n) in
  match r with
  | inr r => mret r
  | inl m =>
      lock_cons release ;;;
      mret (i32 (u32 n - m))
  end.

(** uartwrite() sends the bytes in order. *)
Definition consolewrite (user_src : bool) (src n : Z) : M (cst E) Z :=
  mloop (Z.to_nat n + 1) (fun i =>
    if i <? n then
      let nn := if 32 >? n - i then n - i else 32 in
      let* r := (fun s => let r := cons_copyin user_src (u64 (src + i)) nn (c_env s) in Ok (fst r, s <| c_env := snd r |>)) in
      if fst r =? -1 then mret (inr i)
      else
        emit (snd r) ;;;
        mret (inl (i + nn))
    else mret (inr i)) 0.

Definition consoleinit : M (cst E) unit := upd_cons (fun c => c <| c_lock := initlock "cons" |>).
End Console.
