(* ===== verification/ConsoleSpec.v ===== *)
(** * The console is a line editor in front of a queue

    An abstract console has the committed input, the line being edited, the
    output and the environment.  Every routine of [Console] simulates its
    abstract counterpart, whatever is typed while a reader sleeps. *)
From stdpp Require Import base list strings sets.
From Stdlib Require Import ZArith Lia.
From S2P Require Import Prelude Spinlock Printf Console.

(** ** The abstract console *)
Record acons (E : Type) : Type := mkAcons { a_queue : list Z; a_line : list Z; a_out : list Z; a_env : E }.
Arguments mkAcons {E}. Arguments a_queue {E}. Arguments a_line {E}. Arguments a_out {E}. Arguments a_env {E}.
#[global] Instance eta_acons {E} : Eta (acons E) := fun a => mkAcons (a_queue a) (a_line a) (a_out a) (a_env a).

Definition rubout : list Z := [8; 32; 8].

Section Abstract.
Context {E : Type} `{ConsEnv E}.
Implicit Types (a : acons E).

Definition aemit (l : list Z) : M (acons E) unit := mmodify (fun a => a <| a_out ::= fun o => o ++ l |>).

(** A character is typed. *)
Definition atype (ch : Z) : M (acons E) unit :=
  if ch =? Ctl 80 then
    let* l := mreads (fun a => cons_procdump (a_env a)) in
    aemit l
  else if ch =? Ctl 85 then
    let* l := mreads a_line in
    aemit (concat (map (fun _ => rubout) l)) ;;;
    mmodify (fun a => a <| a_line := [] |>)
  else if (ch =? Ctl 72) || (ch =? DEL) then
    let* l := mreads a_line in
    match l with
    | [] => mret tt
    | _ :: _ => aemit rubout ;;; mmodify (fun a => a <| a_line := removelast l |>)
    end
  else
    let* a := mget in
    let len := Z.of_nat (length (a_queue a ++ a_line a)) in
    if negb (ch =? 0) && (len <? INPUT_BUF_SIZE) then
      let ch := if ch =? CR then NL else ch in
      aemit [ch] ;;;
      if (ch =? NL) || (ch =? Ctl 68) || (len + 1 =? INPUT_BUF_SIZE) then
        mmodify (fun a => a <| a_queue ::= fun q => q ++ a_line a ++ [ch] |> <| a_line := [] |> <| a_env ::= cons_wakeup |>)
      else mmodify (fun a => a <| a_line ::= fun l => l ++ [ch] |>)
    else mret tt.

Definition await (_ : unit) : M (acons E) (unit + bool) :=
  let* a := mget in
  match a_queue a with
  | [] =>
      if cons_killed (a_env a) then mret (inr true)
      else
        match cons_wait (a_env a) with
        | None => mspin
        | Some (l, e) =>
            mmodify (fun a => a <| a_env := e |>) ;;;
            for_each l atype ;;;
            mret (inl tt)
        end
  | _ :: _ => mret (inr false)
  end.

(** A byte is read; control-d ends the input and stays for the next read()
    unless it is the first byte of this one. *)
Definition aturn (fuel : nat) (user_dst : bool) (target : Z) (x : Z * Z) : M (acons E) (Z * Z + (Z + Z)) :=
  let '(dst, n) := x in
  if 0 <? n then
    let* killed := mloop fuel await tt in
    if killed : bool then mret (inr (inr (-1)))
    else
      let* a := mget in
      match a_queue a with
      | [] => mub
      | ch :: q =>
          if ch =? Ctl 68 then
            (if n <? target then mret tt else mmodify (fun a => a <| a_queue := q |>)) ;;;
            mret (inr (inl n))
          else
            mmodify (fun a => a <| a_queue := q |>) ;;;
            let* r := (fun a => let r := cons_copyout user_dst dst ch (a_env a) in Ok (fst r, a <| a_env := snd r |>)) in
            if r =? -1 then mret (inr (inl n))
            else if ch =? NL then mret (inr (inl (n - 1)))
            else mret (inl (u64 (dst + 1), n - 1))
      end
  else mret (inr (inl n)).

Definition aread (fuel : nat) (user_dst : bool) (dst n : Z) : M (acons E) Z :=
  let* r := mloop (Z.to_nat n + 1) (aturn fuel user_dst (u32 n)) (dst, n) in
  match r with
  | inr r => mret r
  | inl m => mret (i32 (u32 n - m))
  end.
End Abstract.

(** ** The ring *)
Definition ring_from (buf : list Z) (i : Z) (n : nat) : list Z :=
  map (fun j => nth (Z.to_nat ((i + Z.of_nat j) mod INPUT_BUF_SIZE)) buf 0) (seq 0 n).
Definition queue_len (c : cons_t) : Z := u32 (c_w c - c_r c).
Definition line_len (c : cons_t) : Z := u32 (c_e c - c_w c).

(** The ring holds the queue [q] and behind it the line [l]. *)
Record ring_ok (c : cons_t) (q l : list Z) : Prop := {
  rg_buf : Z.of_nat (length (c_buf c)) = INPUT_BUF_SIZE;
  rg_r : 0 <= c_r c < 2 ^ 32;
  rg_w : c_w c = u32 (c_r c + Z.of_nat (length q));
  rg_e : c_e c = u32 (c_r c + Z.of_nat (length (q ++ l)));
  rg_len : Z.of_nat (length (q ++ l)) <= INPUT_BUF_SIZE;
  rg_bytes : ring_from (c_buf c) (c_r c) (length (q ++ l)) = q ++ l
}.

Lemma u32_mod_ring x : u32 x mod INPUT_BUF_SIZE = x mod INPUT_BUF_SIZE.
Proof.
  unfold u32, INPUT_BUF_SIZE. change (2 ^ 32) with (128 * 33554432). rewrite Z.rem_mul_r by lia.
  rewrite Z.mul_comm, Z_mod_plus_full, Zmod_mod. done.
Qed.
Lemma u32_cancel r n m : 0 <= n < 2 ^ 32 -> 0 <= m < 2 ^ 32 -> u32 (r + n) = u32 (r + m) -> n = m.
Proof. unfold u32. intros Hn Hm Heq. change (2 ^ 32) with 4294967296 in *. Z.div_mod_to_equations. lia. Qed.
Lemma u32_diff r n : 0 <= n < 2 ^ 32 -> u32 (u32 (r + n) - r) = n.
Proof. unfold u32. intros Hn. rewrite Zminus_mod_idemp_l. replace (r + n - r) with n by lia. by apply Z.mod_small. Qed.
Lemma ring_mod_inj r n m : 0 <= n < INPUT_BUF_SIZE -> 0 <= m < INPUT_BUF_SIZE ->
  (r + n) mod INPUT_BUF_SIZE = (r + m) mod INPUT_BUF_SIZE -> n = m.
Proof. unfold INPUT_BUF_SIZE. intros Hn Hm Heq. Z.div_mod_to_equations. lia. Qed.

Lemma ring_from_lookup buf r k j : (j < k)%nat ->
  ring_from buf r k !! j = Some (nth (Z.to_nat ((r + Z.of_nat j) mod INPUT_BUF_SIZE)) buf 0).
Proof. intros Hj. unfold ring_from. rewrite list_lookup_fmap, lookup_seq_lt by done. done. Qed.
Lemma ring_from_S buf r k : ring_from buf r (S k) = ring_from buf r k ++ [nth (Z.to_nat ((r + Z.of_nat k) mod INPUT_BUF_SIZE)) buf 0].
Proof. unfold ring_from. by rewrite seq_S, map_app. Qed.
Lemma ring_from_tail buf r k : ring_from buf r (S k) = nth (Z.to_nat (r mod INPUT_BUF_SIZE)) buf 0 :: ring_from buf (u32 (r + 1)) k.
Proof.
  unfold ring_from. cbn [seq map]. f_equal; [by rewrite Z.add_0_r|]. rewrite <- seq_shift, map_map. apply map_ext. intros j.
  rewrite <- (u32_mod_ring (u32 (r + 1) + _)), u32_add_l, u32_mod_ring. do 3 f_equal. lia.
Qed.
Lemma ring_from_insert buf r k ch : Z.of_nat (length buf) = INPUT_BUF_SIZE -> Z.of_nat k < INPUT_BUF_SIZE ->
  ring_from (<[Z.to_nat ((r + Z.of_nat k) mod INPUT_BUF_SIZE) := ch]> buf) r (S k) = ring_from buf r k ++ [ch].
Proof.
  intros Hb Hk. pose proof (Z.mod_pos_bound (r + Z.of_nat k) INPUT_BUF_SIZE ltac:(done)) as Hm. rewrite ring_from_S. f_equal.
  - apply map_ext_in. intros j Hj. apply in_seq in Hj. rewrite !nth_lookup, list_lookup_insert_ne; [done|].
    intros Heq. pose proof (Z.mod_pos_bound (r + Z.of_nat j) INPUT_BUF_SIZE ltac:(done)) as Hm'. apply Z2Nat.inj in Heq; [|lia|lia].
    apply ring_mod_inj in Heq; lia.
  - f_equal. rewrite nth_lookup, list_lookup_insert_eq; [done|]. lia.
Qed.

Lemma ring_empty_queue c q l : ring_ok c q l -> (c_r c =? c_w c) = match q with [] => true | _ => false end.
Proof.
  intros [R1 R2 R3 R4 R5 R6]. rewrite length_app in R5. unfold INPUT_BUF_SIZE in *. rewrite R3. destruct q as [|x q]; simpl.
  - rewrite Z.add_0_r. unfold u32. rewrite Z.mod_small by lia. apply Z.eqb_refl.
  - apply Z.eqb_neq. intros Heq. rewrite <- (u32_small (c_r c)) in Heq at 1 by lia. rewrite <- (Z.add_0_r (c_r c)) in Heq at 1.
    apply u32_cancel in Heq; simpl in *; lia.
Qed.
Lemma ring_empty_line c q l : ring_ok c q l -> (c_e c =? c_w c) = match l with [] => true | _ => false end.
Proof.
  intros [R1 R2 R3 R4 R5 R6]. rewrite length_app in R4, R5. unfold INPUT_BUF_SIZE in *. rewrite R3, R4. destruct l as [|x l]; simpl.
  - rewrite Nat.add_0_r. apply Z.eqb_refl.
  - apply Z.eqb_neq. intros Heq. apply u32_cancel in Heq; simpl in *; lia.
Qed.
Lemma ring_used c q l : ring_ok c q l -> u32 (c_e c - c_r c) = Z.of_nat (length (q ++ l)).
Proof. intros [R1 R2 R3 R4 R5 R6]. rewrite R4. apply u32_diff. unfold INPUT_BUF_SIZE in *. lia. Qed.

Lemma ring_put c q l ch : ring_ok c q l -> Z.of_nat (length (q ++ l)) < INPUT_BUF_SIZE ->
  ring_ok (c <| c_buf ::= <[Z.to_nat (c_e c mod INPUT_BUF_SIZE) := ch]> |> <| c_e ::= fun e => u32 (e + 1) |>) q (l ++ [ch]).
Proof.
  intros [R1 R2 R3 R4 R5 R6] Hlt. assert (length (q ++ l ++ [ch]) = S (length (q ++ l))) as Hlen by (rewrite !length_app; simpl; lia).
  split; simpl; try done.
  - by rewrite length_insert.
  - rewrite Hlen, R4, u32_add_l. f_equal. lia.
  - rewrite Hlen. lia.
  - rewrite Hlen, R4, u32_mod_ring, ring_from_insert by done. rewrite R6. by rewrite app_assoc.
Qed.
Lemma ring_commit c q l : ring_ok c q l -> ring_ok (c <| c_w := c_e c |>) (q ++ l) [].
Proof. intros [R1 R2 R3 R4 R5 R6]. split; simpl; rewrite ?app_nil_r; done. Qed.
Lemma ring_rubout c q l x : ring_ok c q (l ++ [x]) ->
  ring_ok (c <| c_e ::= fun e => u32 (e - 1) |>) q l /\ cons_at c (u32 (c_e c - 1)) = x.
Proof.
  intros [R1 R2 R3 R4 R5 R6]. assert (length (q ++ l ++ [x]) = S (length (q ++ l))) as Hlen by (rewrite !length_app; simpl; lia).
  rewrite Hlen in R4, R5, R6. rewrite ring_from_S, app_assoc in R6. apply app_inj_tail in R6 as [R6 R7]. split.
  - split; simpl; try done; [|lia]. rewrite R4. unfold u32. rewrite Zminus_mod_idemp_l. f_equal. lia.
  - rewrite <- R7. unfold cons_at. rewrite u32_mod_ring, R4. do 2 f_equal. unfold u32. change (2 ^ 32) with (128 * 33554432). unfold INPUT_BUF_SIZE.
    rewrite Z.rem_mul_r by lia. replace ((c_r c + Z.of_nat (S (length (q ++ l)))) mod 128 + 128 * (((c_r c + Z.of_nat (S (length (q ++ l)))) / 128) mod 33554432) - 1)
      with (((c_r c + Z.of_nat (S (length (q ++ l)))) mod 128 - 1) + ((c_r c + Z.of_nat (S (length (q ++ l)))) / 128) mod 33554432 * 128) by lia.
    rewrite Z_mod_plus_full, Zminus_mod_idemp_l. do 2 f_equal. lia.
Qed.
Lemma ring_take c x q l : ring_ok c (x :: q) l ->
  ring_ok (c <| c_r ::= fun r => u32 (r + 1) |>) q l /\ cons_at c (c_r c) = x.
Proof.
  intros [R1 R2 R3 R4 R5 R6]. simpl in R3, R4, R5, R6. rewrite ring_from_tail in R6. injection R6 as R6 R7. split; [|exact R6].
  split; simpl; try done; try lia.
  - apply u32_range.
  - rewrite R3, u32_add_l. f_equal. lia.
  - rewrite R4, u32_add_l. f_equal. lia.
Qed.

(** ** Simulation *)
Section Sim.
Context {E : Type} {CE : ConsEnv E}.
Implicit Types (s : cst E) (a : acons E).
Definition srel : Type := cst E -> acons E -> Prop.

(** The two computations end the same way, and related. *)
Definition osim {A} (R : A -> srel) (m : outcome (A * cst E)) (n : outcome (A * acons E)) : Prop :=
  match m, n with
  | Ok (x, s), Ok (y, a) => x = y /\ R x s a
  | Panic p, Panic p' => p = p'
  | Spin, Spin => True
  | UB, UB => True
  | NoFuel, NoFuel => True
  | _, _ => False
  end.
Definition sim {A} (R : srel) (m : M (cst E) A) (n : M (acons E) A) (R' : A -> srel) : Prop :=
  forall s a, R s a -> osim R' (m s) (n a).

Lemma sim_ret {A} (R : A -> srel) (x : A) : sim (R x) (mret x) (mret x) R.
Proof. intros s a Hr. by split. Qed.
Lemma sim_bind {A B} (R : srel) (Q : A -> srel) (R' : B -> srel) m n k k' :
  sim R m n Q -> (forall x, sim (Q x) (k x) (k' x) R') -> sim R (mbind m k) (mbind n k') R'.
Proof.
  intros Hm Hk s a Hr. specialize (Hm s a Hr). unfold mbind. destruct (m s) as [[x s']| | | |], (n a) as [[y a']| | | |]; simpl in *; try done.
  destruct Hm as [-> Hq]. by apply Hk.
Qed.
Lemma sim_modify R (R' : unit -> srel) f g : (forall s a, R s a -> R' tt (f s) (g a)) -> sim R (mmodify f) (mmodify g) R'.
Proof. intros Hfg s a Hr. split; [done|]. by apply Hfg. Qed.
Lemma sim_mloop {A B} (R : srel) (R' : B -> srel) (body : A -> M (cst E) (A + B)) body' fuel :
  (forall x, sim R (body x) (body' x) (fun r => match r with inl _ => R | inr y => R' y end)) ->
  forall x, sim R (mloop fuel body x) (mloop fuel body' x) R'.
Proof.
  intros Hb. induction fuel as [|fuel IH]; intros x; [done|]. cbn [mloop]. eapply sim_bind; [apply Hb|].
  intros [y|y]; [apply IH|apply sim_ret].
Qed.
Lemma sim_for_each {A} (R : srel) (l : list A) body body' :
  (forall x, x ∈ l -> sim R (body x) (body' x) (fun _ => R)) -> sim R (for_each l body) (for_each l body') (fun _ => R).
Proof.
  intros Hb. induction l as [|x l IH]; [intros s a Hr; by split|]. cbn [for_each]. eapply sim_bind; [apply Hb; by left|].
  intros []. apply IH. intros y Hy. apply Hb. by right.
Qed.

(** The concrete console [s] shows the abstract one [a]. *)
Record shows s a : Prop := {
  sh_ring : ring_ok (cons s) (a_queue a) (a_line a);
  sh_line : NL ∉ a_line a;
  sh_out : c_out s = a_out a;
  sh_env : c_env s = a_env a
}.
(** The lock is free; [h] and [c0] stay the same, up to the saved interrupt flag. *)
Definition idle (h : nat) (c0 : cpu) (l0 : spinlock) : srel := fun s a =>
  shows s a /\ c_hart s = h /\ c_lock (cons s) = l0 /\ (c_cpu s = c0 \/ c_cpu s = lockcycle c0).
(** The lock is held, and release() will give it back. *)
Definition busy (h : nat) (c0 : cpu) (l0 : spinlock) : srel := fun s a =>
  shows s a /\ c_hart s = h /\ release h (c_cpu s) (c_lock (cons s)) = Ok (lockcycle c0, l0).

Section Locked.
Context (h : nat) (c0 : cpu) (l0 : spinlock) (Hfree : lk_free l0) (Hcpu : cpu_wf c0).

Lemma shows_lock s a c l : shows s a -> shows (s <| c_cpu := c |> <| cons ::= fun k => k <| c_lock := l |> |>) a.
Proof. intros [[R1 R2 R3 R4 R5 R6] H2 H3 H4]. split; [by split|done..]. Qed.

Lemma take_lock s a : idle h c0 l0 s a -> exists s', lock_cons acquire s = Ok (tt, s') /\ busy h c0 l0 s' a.
Proof.
  intros (Hs & Hh & Hl & Hc). assert (exists c, c_cpu s = c /\ cpu_wf c /\ lockcycle c = lockcycle c0) as (c & E1 & Hw & Hcyc).
  { destruct Hc as [Hc|Hc]; rewrite Hc; eexists; (split; [reflexivity|]); [done|]. split; [by apply cpu_wf_lockcycle|apply lockcycle_idemp]. }
  pose proof (acquire_release h c l0 Hfree Hw) as Har. rewrite acquire_free in Har by done. cbn [obind fst snd] in Har. rewrite Hcyc in Har.
  unfold lock_cons. rewrite Hh, Hl, E1, acquire_free by done. eexists. split; [reflexivity|]. split; [by apply shows_lock|done].
Qed.
Lemma drop_lock s a : busy h c0 l0 s a -> exists s', lock_cons release s = Ok (tt, s') /\ idle h c0 l0 s' a.
Proof.
  intros (Hs & Hh & Hr). unfold lock_cons. rewrite Hh, Hr. eexists. split; [reflexivity|]. split; [by apply shows_lock|]. split; [done|]. split; [done|by right].
Qed.
(** Code between acquire() and release(). *)
Lemma sim_locked {A} (m : M (cst E) A) n (Q : A -> srel) :
  sim (busy h c0 l0) m n Q -> sim (idle h c0 l0) (lock_cons acquire ;;; m) n Q.
Proof. intros Hm s a Hi. destruct (take_lock s a Hi) as (s1 & H1 & Hb). rewrite (mbind_Ok _ _ _ _ _ H1). by apply Hm. Qed.
Lemma sim_unlock {A} (k : M (cst E) A) k' (Q : A -> srel) :
  sim (idle h c0 l0) k k' Q -> sim (busy h c0 l0) (lock_cons release ;;; k) k' Q.
Proof. intros Hk s a Hb. destruct (drop_lock s a Hb) as (s1 & H1 & Hi). rewrite (mbind_Ok _ _ _ _ _ H1). by apply Hk. Qed.
Lemma sim_unlock_end (m : M (cst E) unit) n : sim (busy h c0 l0) m n (fun _ => busy h c0 l0) ->
  sim (busy h c0 l0) (m ;;; lock_cons release) n (fun _ => idle h c0 l0).
Proof.
  intros Hm s a Hb. specialize (Hm s a Hb). unfold mbind. destruct (m s) as [[[] s']| | | |], (n a) as [[[] a']| | | |]; simpl in *; try done.
  destruct Hm as [_ Hb']. destruct (drop_lock s' a' Hb') as (s2 & H2 & Hi). by rewrite H2.
Qed.

Lemma busy_next s a s' a' : busy h c0 l0 s a -> shows s' a' -> c_hart s' = c_hart s -> c_cpu s' = c_cpu s ->
  c_lock (cons s') = c_lock (cons s) -> busy h c0 l0 s' a'.
Proof. intros (Hs & Hh & Hr) Hs' E1 E2 E3. split; [done|]. split; [congruence|]. by rewrite E2, E3. Qed.

Lemma rubouts_comm (l : list Z) : rubout ++ concat (map (fun _ => rubout) l) = concat (map (fun _ => rubout) l) ++ rubout.
Proof. induction l as [|y l IH]; [done|]. cbn [map concat]. rewrite IH at 1. by rewrite <- app_assoc. Qed.
(** Control-u: every character of the line goes, since none is a newline. *)
Lemma kill_line_ok q : forall l s out fuel, (length l < fuel)%nat -> ring_ok (cons s) q l -> NL ∉ l -> c_out s = out ->
  exists c', mloop fuel kill_line tt s = Ok (tt, s <| cons := c' |> <| c_out := out ++ concat (map (fun _ => rubout) l) |>) /\
    ring_ok c' q [] /\ c_lock c' = c_lock (cons s).
Proof.
  induction l as [|x l IH] using rev_ind; intros s out fuel Hf Hr Hn Ho; (destruct fuel as [|fuel]; [lia|]).
  - exists (cons s). split; [|done]. erewrite mloop_stop; [|unfold kill_line; rewrite mbind_reads, (ring_empty_line _ _ _ Hr); reflexivity].
    simpl. rewrite app_nil_r, <- Ho. by destruct s.
  - rewrite length_app in Hf. simpl in Hf. destruct (ring_rubout _ _ _ _ Hr) as [Hr' Hx]. apply not_elem_of_app in Hn as [Hn Hnx].
    destruct (IH (s <| cons ::= fun c => c <| c_e ::= fun e => u32 (e - 1) |> |> <| c_out := out ++ rubout |>) (out ++ rubout) fuel ltac:(lia) Hr' Hn eq_refl) as (c' & Hrun & Hok & Hl).
    exists c'. split; [|done]. erewrite mloop_next; [rewrite Hrun|].
    + rewrite <- app_assoc, rubouts_comm, map_app, concat_app. done.
    + unfold kill_line. rewrite mbind_reads, (ring_empty_line _ _ _ Hr), Hx. rewrite (proj2 (Z.eqb_neq x NL)) by set_solver.
      assert ((match l ++ [x] with [] => true | _ :: _ => false end) = false) as -> by (by destruct l). cbn [negb andb].
      unfold upd_cons, emit. rewrite !mbind_modify. cbn. by rewrite Ho.
Qed.

(** consoleintr() is the abstract editor. *)
Lemma consoleintr_sim ch : 0 <= ch < 256 -> sim (idle h c0 l0) (consoleintr ch) (atype ch) (fun _ => idle h c0 l0).
Proof.
  intros Hch. unfold consoleintr. apply sim_locked. apply sim_unlock_end. intros s a Hb. pose proof Hb as ([Hr Hn Ho He] & _). unfold atype.
  destruct (ch =? Ctl 80).
  { rewrite !mbind_reads, He. split; [done|]. apply (busy_next s a); try done. split; simpl; try done. by rewrite Ho. }
  destruct (ch =? Ctl 85).
  { rewrite mbind_reads. destruct (kill_line_ok (a_queue a) (a_line a) s (a_out a) (Z.to_nat INPUT_BUF_SIZE + 1)) as (c' & Hrun & Hok & Hl); try done.
    { pose proof (rg_len _ _ _ Hr) as Hlen. rewrite length_app in Hlen. lia. }
    rewrite Hrun. split; [done|]. apply (busy_next s a); try done. split; simpl; try done. set_solver. }
  destruct ((ch =? Ctl 72) || (ch =? DEL)).
  { rewrite !mbind_reads, (ring_empty_line _ _ _ Hr). destruct (a_line a) as [|y l] eqn:El; cbn [negb]; [by split|].
    destruct (exists_last (l := y :: l)) as (l' & x & Hl'); [done|]. rewrite Hl', removelast_last in *. destruct (ring_rubout _ _ _ _ Hr) as [Hr' _].
    split; [done|]. apply (busy_next s a); try done. split; simpl; try done; [set_solver|by rewrite Ho]. }
  rewrite mbind_reads, (ring_used _ _ _ Hr). rewrite mbind_get.
  destruct (negb (ch =? 0) && (_ <? INPUT_BUF_SIZE)) eqn:Hroom; [|by split].
  apply andb_true_iff in Hroom as [_ Hroom%Z.ltb_lt]. set (k := if ch =? CR then NL else ch).
  assert (0 <= k < 256) as Hk by (unfold k, NL; destruct (ch =? CR); lia).
  assert (u8 k = k) as Hu by (unfold u8; apply Z.mod_small; lia).
  assert (consputc k = [k]) as -> by (unfold consputc, BACKSPACE; rewrite (proj2 (Z.eqb_neq _ _)) by lia; by rewrite Hu).
  unfold emit, upd_cons, aemit. rewrite !mbind_modify, mbind_reads. rewrite Hu.
  pose proof (ring_put _ _ _ k Hr Hroom) as Hput. match type of Hput with ring_ok ?c _ _ => set (c1 := c) in * end.
  change (u32 (c_e _ - c_r _)) with (u32 (c_e c1 - c_r c1)). rewrite (ring_used _ _ _ Hput).
  assert (Z.of_nat (length (a_queue a ++ a_line a ++ [k])) = Z.of_nat (length (a_queue a ++ a_line a)) + 1) as -> by (rewrite !length_app; simpl; lia).
  destruct ((k =? NL) || (k =? Ctl 68) || _) eqn:Hcommit.
  - split; [done|]. apply (busy_next s a); try done. split; simpl; try done; [exact (ring_commit _ _ _ Hput)|set_solver|by rewrite Ho|by rewrite He].
  - split; [done|]. apply (busy_next s a); try done. split; simpl; try done; [|by rewrite Ho].
    apply orb_false_iff in Hcommit as [[Hcommit _]%orb_false_iff _]. apply Z.eqb_neq in Hcommit. set_solver.
Qed.

(** What is typed are bytes. *)
Context (Hbytes : forall e l e', cons_wait e = Some (l, e') -> Forall (fun c => 0 <= c < 256) l).

Lemma wait_input_sim : sim (busy h c0 l0) (wait_input tt) (await tt)
  (fun r => match r with inl _ => busy h c0 l0 | inr true => idle h c0 l0 | inr false => fun s a => busy h c0 l0 s a /\ a_queue a <> [] end).
Proof.
  intros s a Hb. pose proof Hb as ([Hr Hn Ho He] & _). unfold wait_input, await. rewrite mbind_reads, mbind_get, (ring_empty_queue _ _ _ Hr).
  destruct (a_queue a) as [|x q] eqn:Eq; [|split; [done|]; by rewrite Eq]. rewrite mbind_reads, He. destruct (cons_killed (a_env a)).
  - refine (sim_unlock _ _ _ _ s a Hb). apply (sim_ret (fun r : unit + bool => match r with inl _ => busy h c0 l0 | inr true => idle h c0 l0 | inr false => _ end) (inr true)).
  - destruct (drop_lock s a Hb) as (s1 & H1 & Hi). rewrite (mbind_Ok _ _ _ _ _ H1), mbind_reads. pose proof Hi as ([_ _ _ He1] & _). rewrite He1.
    destruct (cons_wait (a_env a)) as [[l e]|] eqn:Hw; [|done].
    assert (sim (idle h c0 l0) (for_each l consoleintr) (for_each l atype) (fun _ => idle h c0 l0)) as Hl.
    { apply sim_for_each. intros x Hx. apply consoleintr_sim. apply Hbytes in Hw. rewrite Forall_forall in Hw. by apply Hw. }
    rewrite !mbind_modify. refine (sim_bind _ _ _ _ _ _ _ Hl _ _ _ _).
    + intros []. apply sim_locked. apply (sim_ret (fun r : unit + bool => match r with inl _ => busy h c0 l0 | inr true => idle h c0 l0 | inr false => _ end) (inl tt)).
    + destruct Hi as ([R1 R2 R3 R4] & R5). by split.
Qed.

Lemma read_turn_sim fuel user target x : sim (busy h c0 l0) (read_turn fuel user target x) (aturn fuel user target x)
  (fun r => match r with inl _ => busy h c0 l0 | inr (inl _) => busy h c0 l0 | inr (inr _) => idle h c0 l0 end).
Proof.
  destruct x as [dst n]. unfold read_turn, aturn. destruct (0 <? n); [|intros s a Hb; by split].
  eapply sim_bind; [apply (sim_mloop (busy h c0 l0) (fun y : bool => if y then idle h c0 l0 else fun s a => busy h c0 l0 s a /\ a_queue a <> []))|].
  { intros []. intros s a Hb. pose proof (wait_input_sim s a Hb) as Hw. unfold osim in *. destruct (wait_input tt s) as [[r s']| | | |], (await tt a) as [[r' a']| | | |]; done. }
  intros [|]; [intros s a Hi; by split|]. intros s a [Hb Hq]. pose proof Hb as ([Hr Hn Ho He] & _). rewrite mbind_reads, mbind_get.
  destruct (a_queue a) as [|ch q] eqn:Eq; [done|]. destruct (ring_take _ _ _ _ Hr) as [Hr' Hat]. rewrite Hat. unfold upd_cons. rewrite mbind_modify.
  destruct (ch =? Ctl 68).
  - destruct (n <? target).
    + rewrite mbind_modify, mbind_ret. split; [done|]. apply (busy_next s a); try done. split; simpl; try done. rewrite Eq.
      assert (u32 (u32 (c_r (cons s) + 1) - 1) = c_r (cons s)) as ->; [|destruct Hr; by split].
      unfold u32. rewrite Zminus_mod_idemp_l. replace (c_r (cons s) + 1 - 1) with (c_r (cons s)) by lia. apply Z.mod_small, (rg_r _ _ _ Hr).
    + rewrite mbind_ret, mbind_modify. split; [done|]. by apply (busy_next s a).
  - rewrite mbind_modify. unfold mbind. cbn. rewrite He. destruct (cons_copyout user dst ch (a_env a)) as [r e]. cbn [fst snd].
    destruct (r =? -1); [|destruct (ch =? NL)]; (split; [done|]; by apply (busy_next s a)).
Qed.

(** consoleread() is the abstract read. *)
Lemma consoleread_sim fuel user dst n : sim (idle h c0 l0) (consoleread fuel user dst n) (aread fuel user dst n) (fun _ => idle h c0 l0).
Proof.
  unfold consoleread, aread. apply sim_locked. eapply sim_bind.
  - apply (sim_mloop (busy h c0 l0) (fun y : Z + Z => match y with inl _ => busy h c0 l0 | inr _ => idle h c0 l0 end)). apply read_turn_sim.
  - intros [m|r]; [|intros s a Hi; by split]. apply sim_unlock. intros s a Hi. by split.
Qed.
End Locked.
End Sim.

(** ** What a read delivers *)

(** The bytes a read() of at most [n] delivers from the queue, the queue after
    it, and whether it ends without more input. *)
Fixpoint deliver (first : bool) (n : nat) (q : list Z) : list Z * list Z * bool :=
  match n, q with
  | O, _ => ([], q, true)
  | S _, [] => ([], [], false)
  | S n, c :: q' =>
      if c =? Ctl 68 then ([], if first then q' else q, true)
      else if c =? NL then ([c], q', true)
      else let '(bs, rest, ok) := deliver false n q' in (c :: bs, rest, ok)
  end.
(** The copies to the reader's memory, if none fails. *)
Fixpoint copies {E} `{ConsEnv E} (user : bool) (dst : Z) (bs : list Z) (e : E) : option E :=
  match bs with
  | [] => Some e
  | b :: bs => let r := cons_copyout user dst b e in if fst r =? -1 then None else copies user (u64 (dst + 1)) bs (snd r)
  end.

Section Deliver.
Context {E : Type} {CE : ConsEnv E}.
Implicit Types (s : cst E) (a : acons E).

Lemma await_ready fuel a : a_queue a <> [] -> mloop (S fuel) await tt a = Ok (false, a).
Proof. intros Hq. apply mloop_stop. unfold await. rewrite mbind_get. by destruct (a_queue a). Qed.

Lemma aread_loop fuel user target : forall n first q m dst a bs rest e',
  a_queue a = q -> deliver first n q = (bs, rest, true) -> copies user dst bs (a_env a) = Some e' ->
  Z.of_nat n <= target -> (Z.of_nat n <? target) = negb first -> (n < m)%nat ->
  mloop m (aturn (S fuel) user target) (dst, Z.of_nat n) a =
    Ok (inl (Z.of_nat n - Z.of_nat (length bs)), a <| a_queue := rest |> <| a_env := e' |>).
Proof.
  induction n as [|n IH]; intros first q m dst a bs rest e' Hq Hd Hc Ht Hf Hm; (destruct m as [|m]; [lia|]); simpl in Hd.
  - injection Hd as <- <-. simpl in Hc. injection Hc as <-. apply mloop_stop. simpl. subst q. by destruct a.
  - destruct q as [|c q]; [done|]. assert (a_queue a <> []) as Hne by (by rewrite Hq).
    cbn [mloop]. unfold aturn at 1. rewrite (proj2 (Z.ltb_lt 0 _)) by lia. rewrite !mbind_assoc, (mbind_Ok _ _ _ _ _ (await_ready fuel a Hne)).
    rewrite mbind_assoc, mbind_get, Hq. destruct (c =? Ctl 68).
    + injection Hd as <- <-. simpl in Hc. injection Hc as <-. rewrite Hf. destruct first; simpl.
      * by rewrite mbind_assoc, mbind_modify, mbind_ret.
      * rewrite mbind_assoc, !mbind_ret. simpl. rewrite Z.sub_0_r, <- Hq. by destruct a.
    + destruct (c =? NL).
      * injection Hd as <- <-. cbn [copies] in Hc. rewrite !mbind_assoc, mbind_modify. unfold mbind. cbn. destruct (cons_copyout user dst c (a_env a)) as [r e] eqn:Ec.
        cbn [fst snd] in Hc |- *. destruct (r =? -1); [done|]. injection Hc as <-. cbn. by do 2 f_equal.
      * destruct (deliver false n q) as [[bs' rest'] ok] eqn:Ed. injection Hd as <- <- ->. cbn [copies] in Hc.
        rewrite !mbind_assoc, mbind_modify. unfold mbind. cbn [obind]. cbn [a_env]. destruct (cons_copyout user dst c (a_env a)) as [r e] eqn:Ec.
        cbn [fst snd] in Hc. cbn. rewrite Ec. cbn [fst snd]. destruct (r =? -1); [done|]. cbn [obind].
        pose proof (IH false q m (u64 (dst + 1)) (a <| a_queue := q |> <| a_env := e |>) bs' rest' e' eq_refl Ed Hc ltac:(lia) ltac:(apply Z.ltb_lt; lia) ltac:(lia)) as H.
        replace (Z.of_nat (S n) - 1) with (Z.of_nat n) by lia. etransitivity; [exact H|]. do 2 f_equal. cbn [length]. f_equal. lia.
Qed.

(** consoleread() returns what the line discipline promises: the bytes up to
    and including the first newline, at most [n], with control-d ending the
    input before it (and consumed only by a read it is the first byte of); the
    rest of the queue and the line being typed stay. *)
Theorem consoleread_correct h c0 l0 s a fuel user dst n bs rest e' :
  lk_free l0 -> cpu_wf c0 -> (forall e l e'', cons_wait e = Some (l, e'') -> Forall (fun c => 0 <= c < 256) l) -> idle h c0 l0 s a ->
  0 <= n < 2 ^ 31 -> (0 < fuel)%nat -> deliver true (Z.to_nat n) (a_queue a) = (bs, rest, true) -> copies user dst bs (a_env a) = Some e' ->
  exists s', consoleread fuel user dst n s = Ok (Z.of_nat (length bs), s') /\ idle h c0 l0 s' (a <| a_queue := rest |> <| a_env := e' |>).
Proof.
  intros Hl Hc Hw Hi Hn Hf Hd Hcp. destruct fuel as [|fuel]; [lia|]. pose proof (consoleread_sim h c0 l0 Hl Hc Hw (S fuel) user dst n s a Hi) as Hs.
  assert (aread (S fuel) user dst n a = Ok (Z.of_nat (length bs), a <| a_queue := rest |> <| a_env := e' |>)) as Ha.
  { unfold aread. rewrite (u32_small n) by lia. replace n with (Z.of_nat (Z.to_nat n)) at 3 by lia.
    rewrite (mbind_Ok _ _ _ _ _ (aread_loop fuel user n (Z.to_nat n) true (a_queue a) (Z.to_nat n + 1) dst a bs rest e' eq_refl Hd Hcp ltac:(lia)
      ltac:(rewrite Z2Nat.id by lia; apply Z.ltb_irrefl) ltac:(lia))).
    rewrite Z2Nat.id by lia. replace (n - (n - Z.of_nat (length bs))) with (Z.of_nat (length bs)) by lia. rewrite i32_small; [done|].
    assert (forall m b q, (length (fst (fst (deliver b m q))) <= m)%nat) as Hlen.
    { clear. induction m as [|m IH]; intros b q; [done|]. destruct q as [|c q]; [simpl; lia|]. cbn [deliver]. destruct (c =? Ctl 68); [simpl; lia|].
      destruct (c =? NL); [simpl; lia|]. specialize (IH false q). destruct (deliver false m q) as [[? ?] ?]. simpl in *. lia. }
    specialize (Hlen (Z.to_nat n) true (a_queue a)). rewrite Hd in Hlen. simpl in Hlen. lia. }
  rewrite Ha in Hs. unfold osim in Hs. destruct (consoleread (S fuel) user dst n s) as [[r s']| | | |]; try done. destruct Hs as [-> Hs]. eauto.
Qed.
End Deliver.

Lemma osim_Ok {E A} (R : A -> srel (E := E)) m n x s : osim R m n -> m = Ok (x, s) -> exists a, n = Ok (x, a) /\ R x s a.
Proof. intros H ->. simpl in H. destruct n as [[y a]| | | |]; try done. destruct H as [<- H]. eauto. Qed.

(** ** Any sequence of interrupts and reads *)
Inductive cevent : Type := Typed (ch : Z) | Read (fuel : nat) (user : bool) (dst n : Z).
Definition event_ok (ev : cevent) : Prop := match ev with Typed ch => 0 <= ch < 256 | Read _ _ _ _ => True end.

Section Events.
Context {E : Type} {CE : ConsEnv E}.

Definition cons_event (ev : cevent) : M (cst E) Z :=
  match ev with Typed ch => consoleintr ch ;;; mret 0 | Read fuel user dst n => consoleread fuel user dst n end.
Definition acons_event (ev : cevent) : M (acons E) Z :=
  match ev with Typed ch => atype ch ;;; mret 0 | Read fuel user dst n => aread fuel user dst n end.
Fixpoint events {S} (run : cevent -> M S Z) (evs : list cevent) : M S (list Z) :=
  match evs with
  | [] => mret []
  | ev :: evs => let* x := run ev in let* l := events run evs in mret (x :: l)
  end.

Definition cons_boot (h : nat) (c : cpu) (e : E) : cst E := mkCst (mkCons (initlock "cons") (repeat 0 128) 0 0 0) h c [] e.
Definition acons_boot (e : E) : acons E := mkAcons [] [] [] e.

End Events.

(** A reader whose memory is the list of the bytes it got, and to whom nobody types. *)
#[global] Instance demo_cons : ConsEnv (list Z) :=
  {| cons_killed _ := false; cons_wait _ := None; cons_copyout _ _ b e := (0, e ++ [b]); cons_copyin _ _ _ e := (-1, [], e);
     cons_wakeup e := e; cons_procdump _ := [] |}.
Definition demo_cpu : cpu := mkCpu (Some O) 0 true true.
(** h, x, rubout, i, newline, control-d *)
Definition demo_typed : list cevent := map Typed [104; 120; 127; 105; 13; 4].


(** Two lines are in the queue; a read gets the first one. *)
Definition demo_cst : cst (list Z) := (cons_boot 0 demo_cpu []) <| cons ::= fun c => c <| c_buf ::= fun b => [104; 105; 10; 120; 10] ++ drop 5 b |> <| c_w := 5 |> <| c_e := 5 |> |>.
Definition demo_acons : acons (list Z) := mkAcons [104; 105; 10; 120; 10] [] [] [].
Lemma consoleread_correct_witness :
  exists s', consoleread 1 true 0 100 demo_cst = Ok (3, s') /\ c_env s' = [104; 105; 10].
Proof.
  assert (idle 0 demo_cpu (initlock "cons") demo_cst demo_acons) as Hi.
  { split; [|by repeat split; try left]. split; [by split|apply not_elem_of_nil|done|done]. }
  destruct (consoleread_correct 0 demo_cpu (initlock "cons") demo_cst demo_acons 1 true 0 100 [104; 105; 10] [120; 10] [104; 105; 10]) as (s' & H1 & [H2 _ _ H3] & _);
    [done|split; simpl; lia|done|exact Hi|lia|lia|reflexivity|reflexivity|]. exists s'. split; [exact H1|exact H3].
Defined.
