(* ===== verification/Trap.v ===== *)
(** * Traps and the system calls of kernel/sysproc.c (kernel/trap.c,
    kernel/sysproc.c, kernel/syscall.c)

    The state adds the trap registers of the hart and tickslock to the kernel
    state.  Devices, the interrupt controller, vmfault() and the handlers of
    kernel/sysfile.c are the class [TrapEnv].  While a handler has interrupts
    on, or has yielded, other traps overwrite the trap registers: [csr_other]
    is what is then found in them. *)
From stdpp Require Import base list strings gmap.
From Stdlib Require Import ZArith Lia.
From S2P Require Import Prelude Spinlock KState Sched Riscv Proc.

(** The registers a trap uses: sstatus.SPP and sstatus.SPIE, and whole
    registers; sstatus.SIE is in [cpu]. *)
Record csrs : Type := mkCsrs {
  scause : Z; sepc : Z; stval : Z; spp : bool; spie : bool; stvec : Z; satp : Z; stimecmp : Z
}.
#[global] Instance eta_csrs : Eta csrs := fun c =>
  mkCsrs (scause c) (sepc c) (stval c) (spp c) (spie c) (stvec c) (satp c) (stimecmp c).

Record tst (E : Type) : Type := mkTst { tk : kst E; csr : csrs; tickslock : spinlock }.
Arguments mkTst {E}. Arguments tk {E}. Arguments csr {E}. Arguments tickslock {E}.
#[global] Instance eta_tst {E} : Eta (tst E) := fun s => mkTst (tk s) (csr s) (tickslock s).

Class TrapEnv (E : Type) : Type := {
  plic_claim : M E Z;
  plic_complete : Z -> M E unit;
  uartintr : M (kst E) unit;
  virtio_disk_intr : M (kst E) unit;
  r_time : E -> Z;
  env_vmfault : Z -> Z -> Z -> Z -> M E Z;
  sysfile_handler : Z -> M (kst E) Z;
  csr_other : E -> csrs -> csrs;
  kernelvec_addr : Z;
  usertrap_addr : Z;
  uservec_off : Z
}.

Definition UART0_IRQ : Z := 10.
Definition VIRTIO0_IRQ : Z := 1.
Definition SCAUSE_EXTERNAL : Z := 9223372036854775817.
Definition SCAUSE_TIMER : Z := 9223372036854775813.
Definition SBRK_EAGER : Z := 1.
Definition SATP_SV39 : Z := Z.shiftl 8 60.
Definition MAKE_SATP (pagetable : Z) : Z := Z.lor SATP_SV39 (Z.shiftr pagetable 12).

(** The bytes of the structures copied to user space; [pad] stands for the
    padding behind the name. *)
Definition u64_bytes (v : Z) : list Z := (fun i => u8 (Z.shiftr (u64 v) (8 * i))) <$> [0; 1; 2; 3; 4; 5; 6; 7].
Definition psinfo_bytes (pad : list Z) (i : psinfo) : list Z :=
  concat (map int_bytes [ps_inuse i; ps_pid i; ps_state i; ps_priority i; ps_queue_level i; ps_time_slice i; ps_sched_policy i]) ++
  ps_name i ++ pad ++
  concat (map u64_bytes ([ps_run_time i; ps_ready_count i; ps_ready_ticks i; ps_total_ready_time i; ps_wait_count i;
    ps_schedule_count i; ps_create_tick i; ps_first_run_tick i; ps_exit_tick i] ++ ps_state_stat i)).
Definition sched_stat_bytes (s : sched_stat) : list Z :=
  concat (map int_bytes [current_policy s; process_count s; runnable_count s; running_count s; sleeping_count s; zombie_count s]) ++
  concat (map u64_bytes ([total_run_time s; total_ready_count s; total_ready_ticks s; st_total_ready_time s; total_wait_count s;
    total_schedule_count s] ++ total_state_stat s)).

Section Trap.
Context {E : Type} {I : Interference} {PE : ProcEnv E} {SW : Switch E} {TE : TrapEnv E}.

Definition lift_k {A} (m : M (kst E) A) : M (tst E) A := fun s =>
  obind (m (tk s)) (fun r => Ok (fst r, s <| tk := snd r |>)).
(** Traps taken meanwhile leave other values in the registers. *)
Definition clobber : M (tst E) unit := mmodify (fun s => s <| csr ::= csr_other (env (tk s)) |>).

Definition acquire_ticks : M (tst E) unit := fun s =>
  obind (acquire (hartid (tk s)) (mycpu (tk s)) (tickslock s)) (fun r =>
    Ok (tt, s <| tk ::= fun k => (kenter k) <| mycpu := fst r |> |> <| tickslock := snd r |>)).
Definition release_ticks : M (tst E) unit := fun s =>
  obind (release (hartid (tk s)) (mycpu (tk s)) (tickslock s)) (fun r =>
    Ok (tt, s <| tk ::= fun k => k <| mycpu := fst r |> |> <| tickslock := snd r |>)).

Definition trapinit : M (tst E) unit := mmodify (fun s => s <| tickslock := initlock "time" |>).
Definition trapinithart : M (tst E) unit := mmodify (fun s => s <| csr ::= fun c => c <| stvec := kernelvec_addr |> |>).

(** p->trapframe *)
Definition read_tf (i : nat) : M (tst E) trapframe := fun s =>
  match procs (tk s) !! i with
  | Some p => match tframes (tk s) !! trapframe_ptr p with Some t => Ok (t, s) | None => UB end
  | None => UB
  end.
Definition upd_tf (i : nat) (f : trapframe -> trapframe) : M (tst E) unit := fun s =>
  match procs (tk s) !! i with
  | Some p =>
      match tframes (tk s) !! trapframe_ptr p with
      | Some t => Ok (tt, s <| tk ::= fun k => k <| tframes ::= <[trapframe_ptr p := f t]> |> |>)
      | None => UB
      end
  | None => UB
  end.

(** ** The handlers of kernel/sysproc.c *)
Definition karg (n : nat) : M (tst E) Z :=
  let* me := lift_k curproc in
  let* t := read_tf me in
  match n with
  | 0%nat => mret (tf_a0 t) | 1%nat => mret (tf_a1 t) | 2%nat => mret (tf_a2 t)
  | 3%nat => mret (tf_a3 t) | 4%nat => mret (tf_a4 t) | 5%nat => mret (tf_a5 t)
  | _ => mpanic "argraw"
  end.
Definition kargint (n : nat) : M (tst E) Z := let* a := karg n in mret (i32 a).

Definition sys_exit : M (tst E) Z :=
  let* n := kargint 0 in
  lift_k (kexit n) ;;;
  mret 0.
Definition sys_getpid : M (tst E) Z :=
  let* me := lift_k curproc in
  let* p := lift_k (read_proc me) in
  mret (u64 (pid p)).
Definition sys_fork : M (tst E) Z := let* r := lift_k kfork in mret (u64 r).
Definition sys_wait (fuel : nat) : M (tst E) Z :=
  let* p := karg 0 in
  let* r := lift_k (kwait fuel p) in
  mret (u64 r).

Definition sys_sbrk : M (tst E) Z :=
  let* n := kargint 0 in
  let* t := kargint 1 in
  let* me := lift_k curproc in
  let* p := lift_k (read_proc me) in
  let addr := sz p in
  if (t =? SBRK_EAGER) || (n <? 0) then
    let* r := lift_k (growproc n) in
    mret (if r <? 0 then u64 (-1) else addr)
  else if u64 (addr + n) <? addr then mret (u64 (-1))
  else if TRAPFRAME <? u64 (addr + n) then mret (u64 (-1))
  else
    let* me := lift_k curproc in
    lift_k (modify_proc me (fun p => p <| sz ::= fun s => u64 (s + n) |>)) ;;;
    mret addr.

(** The body of the loop of sys_pause: the result, or another turn. *)
Definition pause_turn (n ticks0 : Z) (_ : unit) : M (tst E) (unit + Z) :=
  let* now := mreads (fun s => ticks (tk s)) in
  if u32 (now - ticks0) <? u32 n then
    let* me := lift_k curproc in
    let* k := lift_k (proc_killed me) in
    if negb (k =? 0) then
      release_ticks ;;;
      mret (inr (u64 (-1)))
    else
      lift_k (sleep_prepare (Some ChTicks)) ;;;
      release_ticks ;;;
      lift_k sleep ;;;
      clobber ;;;
      acquire_ticks ;;;
      mret (inl tt)
  else
    release_ticks ;;;
    mret (inr 0).
Definition sys_pause (fuel : nat) : M (tst E) Z :=
  let* n := kargint 0 in
  let n := if n <? 0 then 0 else n in
  acquire_ticks ;;;
  let* ticks0 := mreads (fun s => ticks (tk s)) in
  mloop fuel (pause_turn n ticks0) tt.

Definition sys_kill : M (tst E) Z :=
  let* pid := kargint 0 in
  let* r := lift_k (kkill pid) in
  mret (u64 r).
Definition sys_uptime : M (tst E) Z :=
  acquire_ticks ;;;
  let* x := mreads (fun s => ticks (tk s)) in
  release_ticks ;;;
  mret x.
Definition sys_set_prio : M (tst E) Z :=
  let* pid := kargint 0 in
  let* prio := kargint 1 in
  let* r := lift_k (kset_prio pid prio) in
  mret (u64 r).
(** [info] and [pad] are what the kernel stack holds where the structure is put. *)
Definition sys_get_psinfo (info : psinfo) (pad : list Z) : M (tst E) Z :=
  let* pid := kargint 0 in
  let* addr := karg 1 in
  let* r := lift_k (kget_psinfo pid info) in
  if fst r <? 0 then mret (u64 (-1))
  else
    let* me := lift_k curproc in
    let* p := lift_k (read_proc me) in
    let* r := lift_k (lift_env (env_copyout (pagetable p) (sz p) addr (psinfo_bytes pad (snd r)))) in
    mret (u64 r).
Definition sys_sys_stat : M (tst E) Z :=
  let* addr := karg 0 in
  let* st := lift_k ksys_stat in
  let* me := lift_k curproc in
  let* p := lift_k (read_proc me) in
  let* r := lift_k (lift_env (env_copyout (pagetable p) (sz p) addr (sched_stat_bytes st))) in
  mret (u64 r).

(** The table of system calls; the numbers not listed are the handlers of
    kernel/sysfile.c and kernel/log.c.  [fuel] bounds the waiting loops. *)
Definition syscalls (fuel : nat) (info : psinfo) (pad : list Z) (num : Z) : option (M (tst E) Z) :=
  if num =? 1 then Some sys_fork
  else if num =? 2 then Some sys_exit
  else if num =? 3 then Some (sys_wait fuel)
  else if num =? 6 then Some sys_kill
  else if num =? 11 then Some sys_getpid
  else if num =? 12 then Some sys_sbrk
  else if num =? 13 then Some (sys_pause fuel)
  else if num =? 14 then Some sys_uptime
  else if num =? 23 then Some sys_set_prio
  else if num =? 24 then Some (sys_get_psinfo info pad)
  else if num =? 25 then Some sys_sys_stat
  else if (4 <=? num) && (num <=? 22) then Some (lift_k (sysfile_handler num))
  else None.

Definition syscall (fuel : nat) (info : psinfo) (pad : list Z) : M (tst E) unit :=
  let* me := lift_k curproc in
  let* t := read_tf me in
  let num := i32 (tf_a7 t) in
  match (if (0 <? num) && (num <? 26) then syscalls fuel info pad num else None) with
  | Some handler =>
      let* r := handler in
      upd_tf me (fun t => t <| tf_a0 := r |>)
  | None => upd_tf me (fun t => t <| tf_a0 := u64 (-1) |>)
  end.

(** ** kernel/trap.c *)
Definition clockintr : M (tst E) unit :=
  let* h := mreads (fun s => hartid (tk s)) in
  (if Nat.eqb h 0 then
     acquire_ticks ;;;
     mmodify (fun s => s <| tk ::= fun k => k <| ticks ::= fun t => u32 (t + 1) |> |>) ;;;
     lift_k (wakeup (Some ChTicks)) ;;;
     release_ticks
   else mret tt) ;;;
  mmodify (fun s => s <| csr ::= fun c => c <| stimecmp := u64 (r_time (env (tk s)) + 1000000) |> |>).

Definition devintr : M (tst E) Z :=
  let* cause := mreads (fun s => scause (csr s)) in
  if cause =? SCAUSE_EXTERNAL then
    let* irq := lift_k (lift_env plic_claim) in
    (if irq =? UART0_IRQ then lift_k uartintr
     else if irq =? VIRTIO0_IRQ then lift_k virtio_disk_intr
     else mret tt) ;;;
    (if negb (irq =? 0) then lift_k (lift_env (plic_complete irq)) else mret tt) ;;;
    mret 1
  else if cause =? SCAUSE_TIMER then
    clockintr ;;;
    mret 2
  else mret 0.

(** What a timer interrupt does to the current process. *)
Definition trap_tick (me : nat) : M (tst E) unit :=
  lift_k (update_proc_after_tick me) ;;;
  let* b := lift_k (sched_should_preempt me) in
  if negb (b =? 0) then
    lift_k yield ;;;
    clobber
  else mret tt.

Definition kerneltrap : M (tst E) unit :=
  let* c0 := mreads csr in
  let* i0 := mreads (fun s => sie (mycpu (tk s))) in
  if negb (spp c0) then mpanic "kerneltrap: not from supervisor mode"
  else if i0 then mpanic "kerneltrap: interrupts enabled"
  else
    let* which_dev := devintr in
    if which_dev =? 0 then mpanic "kerneltrap"
    else
      (if which_dev =? 2 then
         let* p := lift_k myproc in
         match p with
         | Some _ =>
             let* me := lift_k curproc in
             trap_tick me
         | None => mret tt
         end
       else mret tt) ;;;
      mmodify (fun s => s <| csr ::= fun c => c <| sepc := sepc c0 |> <| spp := spp c0 |> <| spie := spie c0 |> |>
                          <| tk ::= fun k => k <| mycpu ::= fun c => c <| sie := i0 |> |> |>).

Definition prepare_return : M (tst E) unit :=
  let* me := lift_k curproc in
  mmodify (fun s => s <| tk ::= fun k => k <| mycpu ::= intr_off |> |>) ;;;
  mmodify (fun s => s <| csr ::= fun c => c <| stvec := u64 (TRAMPOLINE + uservec_off) |> |>) ;;;
  let* s := mget in
  let* p := lift_k (read_proc me) in
  upd_tf me (fun t => t <| kernel_satp := satp (csr s) |> <| kernel_sp := u64 (kstack p + PGSIZE) |>
    <| kernel_trap := usertrap_addr |> <| kernel_hartid := Z.of_nat (hartid (tk s)) |>) ;;;
  mmodify (fun s => s <| csr ::= fun c => c <| spp := false |> <| spie := true |> |>) ;;;
  let* t := read_tf me in
  mmodify (fun s => s <| csr ::= fun c => c <| sepc := epc t |> |>).

(** The branch on the cause of the trap; the result is which_dev. *)
Definition usertrap_cause (fuel : nat) (info : psinfo) (pad : list Z) (me : nat) : M (tst E) Z :=
  let* cause := mreads (fun s => scause (csr s)) in
  if cause =? 8 then
    let* k := lift_k (proc_killed me) in
    (if negb (k =? 0) then lift_k (kexit (-1)) else mret tt) ;;;
    upd_tf me (fun t => t <| epc ::= fun e => u64 (e + 4) |>) ;;;
    mmodify (fun s => s <| tk ::= fun k => k <| mycpu ::= intr_on |> |>) ;;;
    syscall fuel info pad ;;;
    clobber ;;;
    mret 0
  else
    let* which_dev := devintr in
    if negb (which_dev =? 0) then mret which_dev
    else
      let* p := lift_k (read_proc me) in
      let* va := mreads (fun s => stval (csr s)) in
      let* r := (if (cause =? 15) || (cause =? 13) then
                   lift_k (lift_env (env_vmfault (pagetable p) (sz p) va (if cause =? 13 then 1 else 0)))
                 else mret 0) in
      (if negb (r =? 0) then mret tt else lift_k (setkilled me)) ;;;
      mret 0.

Definition usertrap (fuel : nat) (info : psinfo) (pad : list Z) : M (tst E) Z :=
  let* c := mreads csr in
  if spp c then mpanic "usertrap: not from user mode"
  else
    mmodify (fun s => s <| csr ::= fun c => c <| stvec := kernelvec_addr |> |>) ;;;
    let* me := lift_k curproc in
    upd_tf me (fun t => t <| epc := sepc c |>) ;;;
    let* which_dev := usertrap_cause fuel info pad me in
    let* k := lift_k (proc_killed me) in
    (if negb (k =? 0) then lift_k (kexit (-1)) else mret tt) ;;;
    (if which_dev =? 2 then trap_tick me else mret tt) ;;;
    prepare_return ;;;
    let* p := lift_k (read_proc me) in
    mret (MAKE_SATP (pagetable p)).
End Trap.
