(* ===== verification/TrapSpec.v ===== *)
(** * Traps leave the interrupted code alone

    A trap taken in the kernel returns with the registers of the interrupted
    code, and a trap from user space returns to user mode with the registers
    the trampoline needs, whatever happens to the registers while the handler
    runs other code. *)
From stdpp Require Import base list strings gmap.
From Stdlib Require Import ZArith Lia.
From S2P Require Import Prelude Spinlock KState SchedMLFQ Sched Riscv Proc ProcTable ProcSleep ProcLife Trap.

(** A step that ends with no lock held and the hart as it was. *)
Record calm {E} (k k' : kst E) : Prop := {
  cm_hart : hartid k' = hartid k;
  cm_kwf : kwf k';
  cm_free : locks_free (procs k');
  cm_depth : same_depth (mycpu k) (mycpu k');
  cm_sie : sie (mycpu k') = sie (mycpu k)
}.
Lemma calm_trans {E} (k1 k2 k3 : kst E) : calm k1 k2 -> calm k2 k3 -> calm k1 k3.
Proof. intros [A1 A2 A3 A4 A5] [B1 B2 B3 B4 B5]. split; try done; [congruence|by eapply same_depth_trans|congruence]. Qed.
Lemma calm_refl {E} (k : kst E) : kwf k -> locks_free (procs k) -> calm k k.
Proof. intros Hk Hl. by split. Qed.
Lemma calm_running {E} me (k k' : kst E) : running me k -> calm k k' -> running me k'.
Proof. intros [A1 A2 A3 A4 A5] [B1 B2 B3 [B4 B4'] B5]. split; try done; congruence. Qed.
Lemma calm_lockcycle {E} (k k' : kst E) : glob_same k k' -> kwf k' -> locks_free (procs k') -> mycpu k' = lockcycle (mycpu k) -> calm k k'.
Proof.
  intros Hg Hk Hl Hc. split; try done; [by apply glob_same_hart|rewrite Hc; apply same_depth_lockcycle; by split|rewrite Hc; apply lockcycle_sie].
Qed.

(** What the devices promise. *)
Class TrapLaws {E} (TE : TrapEnv E) : Prop := {
  law_claim e : exists irq e', plic_claim e = Ok (irq, e');
  law_complete irq e : exists e', plic_complete irq e = Ok (tt, e');
  law_uart (k : kst E) : kwf k -> locks_free (procs k) -> exists k', uartintr k = Ok (tt, k') /\ calm k k';
  law_virtio (k : kst E) : kwf k -> locks_free (procs k) -> exists k', virtio_disk_intr k = Ok (tt, k') /\ calm k k'
}.

Section Calm.
Context {E : Type} {I : Interference}.
Implicit Types (k : kst E).

Lemma kpass_calm k i q : kwf k -> locks_free (procs k) -> lk_free (lock q) -> calm k (kpass k i q).
Proof. intros Hk Hl Hq. apply calm_lockcycle; [apply glob_same_kpass|by auto with kernel|by apply locks_free_kpass|reflexivity]. Qed.

Lemma curproc_running me k : running me k -> curproc k = Ok (me, k <| mycpu ::= lockcycle |>).
Proof. intros Hr. apply curproc_eq; [apply (kwf_cpu _ (run_kwf _ _ Hr))|apply (run_proc _ _ Hr)]. Qed.
Lemma lockcycle_calm k : kwf k -> locks_free (procs k) -> calm k (k <| mycpu ::= lockcycle |>).
Proof.
  intros Hk Hl. split; try done.
  - destruct Hk. split; try done. by apply cpu_wf_lockcycle.
  - simpl. apply same_depth_lockcycle. by split.
  - simpl. apply lockcycle_sie.
Qed.
Lemma myproc_calm k : kwf k -> locks_free (procs k) -> exists k', myproc k = Ok (cpu_proc (mycpu k), k') /\ calm k k' /\ procs k' = procs k /\ tframes k' = tframes k.
Proof.
  intros Hk Hl. exists (k <| mycpu ::= lockcycle |>). split; [|split; [by apply lockcycle_calm|done]].
  unfold myproc, mmodify, mreads, mlift, mret, mbind, obind. cbn [fst snd].
  change (mycpu (k <| mycpu ::= push_off |>)) with (push_off (mycpu k)). rewrite (pop_push_off _ (kwf_cpu _ Hk)), proc_push_off. reflexivity.
Qed.

Lemma update_tick_calm k i p : kwf k -> locks_free (procs k) -> procs k !! i = Some p ->
  exists k', update_proc_after_tick i k = Ok (tt, k') /\ calm k k'.
Proof.
  intros Hk Hl Hp. destruct (update_proc_after_tick_ok k i p Hp) as (q & Hq & [Hf _]). eexists. split; [exact Hq|].
  assert (lock q = lock p) as Hlq by (rewrite Hf; unfold proc_after_tick; simpl; by destruct (0 <? time_slice p)).
  split; simpl; try done; [|].
  - apply kwf_procs_set; [done|]. rewrite length_insert. apply Hk.
  - apply locks_free_insert; [done|]. rewrite Hlq. by apply (Hl i).
Qed.

Lemma preempt_scan_calm k i c : kwf k -> locks_free (procs k) -> (i < NPROC)%nat -> (c < NPROC)%nat ->
  exists r k', mlfq_preempt_scan i c k = Ok (r, k') /\ calm k k'.
Proof.
  intros Hk Hl Hi Hc. destruct (entry_free k c Hk Hl Hc) as (q & Hq & Hf). unfold mlfq_preempt_scan. rewrite (locked_read k c q) by done.
  assert (exists p, read_proc i (klocked k c q) = Ok (p, klocked k c q)) as (p & Hr).
  { unfold read_proc. destruct (lookup_lt_is_Some_2 (procs (klocked k c q)) i) as [p Hp]; [|exists p; by rewrite Hp].
    simpl. rewrite length_insert, interfere_length, (kwf_procs _ Hk). done. }
  rewrite (mbind_Ok _ _ _ _ _ Hr). destruct (_ && _);
    rewrite (mbind_Ok _ _ _ _ _ (release_proc_klocked _ _ _ _ Hq Hf (kwf_cpu _ Hk))); (do 2 eexists; split; [reflexivity|by apply kpass_calm]).
Qed.
Lemma should_preempt_calm k i : kwf k -> locks_free (procs k) -> (i < NPROC)%nat ->
  exists b k', sched_should_preempt i k = Ok (b, k') /\ calm k k'.
Proof.
  intros Hk Hl Hi. unfold sched_should_preempt. rewrite (mbind_Ok _ _ _ _ _ (active_strategy_eq k)).
  destruct (active_ptr k) as [|[|s]]; simpl; [exists 1, k; split; [done|by apply calm_refl]..|]. unfold mlfq_should_preempt.
  destruct (lookup_lt_is_Some_2 (procs k) i) as [p Hp]; [by rewrite (kwf_procs _ Hk)|].
  unfold read_proc. unfold mbind at 1. rewrite Hp. simpl. destruct (time_slice p <=? 0); [exists 1, k; split; [done|by apply calm_refl]|].
  assert (forall l k, Forall (fun c => (c < NPROC)%nat) l -> kwf k -> locks_free (procs k) ->
    exists r k', for_until l (mlfq_preempt_scan i) k = Ok (r, k') /\ calm k k') as Hloop.
  { clear k Hk Hl Hp p. intros l k HF. revert k. induction HF as [|c l Hc _ IH]; intros k Hk Hl; [exists None, k; split; [done|by apply calm_refl]|].
    destruct (preempt_scan_calm k i c Hk Hl Hi Hc) as (r & k1 & H1 & C1). destruct r as [v|].
    - exists (Some v), k1. split; [by rewrite (for_until_found _ _ _ _ _ _ H1)|done].
    - destruct (IH k1 (cm_kwf _ _ C1) (cm_free _ _ C1)) as (r & k2 & H2 & C2). exists r, k2. split; [by rewrite (for_until_next _ _ _ _ _ H1)|by eapply calm_trans]. }
  destruct (Hloop (seq 0 NPROC) k seq_lt Hk Hl) as (r & k' & H1 & H2). rewrite (mbind_Ok _ _ _ _ _ H1). exists (default 0 r), k'. by split.
Qed.
End Calm.

(** ** The handlers *)
Section Handlers.
Context {E : Type} {I : Interference} {PE : ProcEnv E} {SW : Switch E} {SL : SwitchLaws SW} {TE : TrapEnv E} {TL : TrapLaws TE}.
Implicit Types (s : tst E) (k : kst E).

Lemma lift_k_ok {A} (m : M (kst E) A) s a k' : m (tk s) = Ok (a, k') -> lift_k m s = Ok (a, s <| tk := k' |>).
Proof. intros H. unfold lift_k. by rewrite H. Qed.

Lemma lockcycle_push c : cpu_wf c -> lockcycle (push_off c) = push_off c.
Proof. intros [Hc _]. unfold lockcycle. rewrite noff_push_off. destruct (Z.eqb_spec (noff c + 1) 0); [lia|done]. Qed.

(** No lock is held. *)
Definition still s : Prop := kwf (tk s) /\ locks_free (procs (tk s)) /\ lk_free (tickslock s).

Lemma acquire_ticks_ok s : still s -> exists l,
  acquire_ticks s = Ok (tt, s <| tk := (kenter (tk s)) <| mycpu := push_off (mycpu (tk s)) |> |> <| tickslock := l |>) /\
  forall k', hartid k' = hartid (tk s) -> mycpu k' = push_off (mycpu (tk s)) -> forall c,
    release_ticks (s <| csr := c |> <| tk := k' |> <| tickslock := l |>) = Ok (tt, s <| csr := c |> <| tk := (k') <| mycpu := lockcycle (mycpu (tk s)) |> |>).
Proof.
  intros (Hk & _ & Hf). pose proof (acquire_release (hartid (tk s)) (mycpu (tk s)) (tickslock s) Hf (kwf_cpu _ Hk)) as Har.
  unfold acquire_ticks. rewrite acquire_free in Har |- * by done. cbn [obind fst snd] in Har. eexists. split; [reflexivity|].
  intros k' Hh Hc c. unfold release_ticks. cbn [tk tickslock]. simpl. simpl in Har. rewrite Hh, Hc. simpl in Har |- *. rewrite Har. simpl. by destruct s.
Qed.

Lemma clockintr_ok s : still s -> exists s', clockintr s = Ok (tt, s') /\ calm (tk s) (tk s') /\ still s' /\
  (exists v, csr s' = (csr s) <| stimecmp := v |>) /\ ticks (tk s') = (if Nat.eqb (hartid (tk s)) 0 then u32 (ticks (tk s) + 1) else ticks (tk s)).
Proof.
  intros Hs. pose proof Hs as (Hk & Hl & Hf). unfold clockintr. rewrite mbind_reads. destruct (Nat.eqb (hartid (tk s)) 0) eqn:Eh.
  - destruct (acquire_ticks_ok s Hs) as (l & Ha & Hrel). rewrite !mbind_assoc, (mbind_Ok _ _ _ _ _ Ha), !mbind_assoc, mbind_modify.
    set (k1 := (kenter (tk s)) <| mycpu := push_off (mycpu (tk s)) |> <| ticks ::= fun t => u32 (t + 1) |>).
    assert (kwf k1) as Hk1 by (destruct (kwf_kenter _ Hk); split; try done; by apply cpu_wf_push_off, Hk).
    destruct (wakeup_any k1 (Some ChTicks) Hk1) as (k2 & Hw & Hg & Hk2 & Hl2 & Hc2); [simpl; by apply locks_free_interfere|].
    rewrite ?mbind_assoc. rewrite (mbind_Ok _ _ _ tt (s <| tk := k2 |> <| tickslock := l |>)) by exact (lift_k_ok _ (s <| tk := k1 |> <| tickslock := l |>) _ _ Hw).
    assert (mycpu k2 = push_off (mycpu (tk s))) as Hc by (rewrite Hc2; apply lockcycle_push, Hk).
    pose proof (Hrel k2 (glob_same_hart _ _ Hg) Hc (csr s)) as Hr. rewrite ?mbind_assoc.
    assert (s <| csr := csr s |> = s) as Hself by (by destruct s). rewrite Hself in Hr.
    rewrite (mbind_Ok _ _ _ tt (s <| tk := (k2) <| mycpu := lockcycle (mycpu (tk s)) |> |>)) by exact Hr. eexists. split; [reflexivity|]. simpl.
    assert (calm (tk s) (k2 <| mycpu := lockcycle (mycpu (tk s)) |>)) as Hcalm.
    { split; simpl; [by rewrite (glob_same_hart _ _ Hg)| |done|apply same_depth_lockcycle; by split|apply lockcycle_sie].
      destruct Hk2. split; try done. by apply cpu_wf_lockcycle, Hk. }
    split; [done|]. split; [split; [apply Hcalm|split; [apply Hcalm|done]]|]. split; [by eexists|]. by rewrite (glob_same_ticks _ _ Hg).
  - rewrite mbind_ret. eexists. split; [reflexivity|]. simpl. split; [by apply calm_refl|]. split; [done|]. split; [by eexists|done].
Qed.

Lemma lift_env_calm {A} (op : M E A) k : kwf k -> locks_free (procs k) -> (exists a e, op (env k) = Ok (a, e)) ->
  exists a k', lift_env op k = Ok (a, k') /\ calm k k' /\ procs k' = procs k.
Proof.
  intros Hk Hl (a & e & Ho). exists a, (k <| env := e |>). unfold lift_env. rewrite Ho. split; [done|]. split; [|done]. split; try done. by destruct Hk; split.
Qed.

(** devintr() recognises the two interrupts and nothing else. *)
Lemma devintr_ok s : still s -> exists s',
  devintr s = Ok (if scause (csr s) =? SCAUSE_EXTERNAL then 1 else if scause (csr s) =? SCAUSE_TIMER then 2 else 0, s') /\
  calm (tk s) (tk s') /\ still s' /\ (exists v, csr s' = (csr s) <| stimecmp := v |>).
Proof.
  intros Hs. pose proof Hs as (Hk & Hl & Hf). unfold devintr. rewrite mbind_reads. destruct (scause (csr s) =? SCAUSE_EXTERNAL).
  2: { destruct (scause (csr s) =? SCAUSE_TIMER).
       - destruct (clockintr_ok s Hs) as (s' & H1 & H2 & H3 & H4 & _). exists s'. by rewrite (mbind_Ok _ _ _ _ _ H1).
       - exists s. split; [done|]. split; [by apply calm_refl|]. split; [done|]. exists (stimecmp (csr s)). by destruct (csr s). }
  destruct (lift_env_calm plic_claim (tk s) Hk Hl) as (irq & k1 & H1 & C1 & _).
  { destruct (law_claim (env (tk s))) as (irq & e & He). eauto. }
  rewrite (mbind_Ok _ _ _ _ _ (lift_k_ok _ _ _ _ H1)).
  assert (exists k2, (if irq =? UART0_IRQ then lift_k uartintr else if irq =? VIRTIO0_IRQ then lift_k virtio_disk_intr else mret tt)
    (s <| tk := k1 |>) = Ok (tt, s <| tk := k2 |>) /\ calm k1 k2) as (k2 & H2 & C2).
  { destruct C1 as [A1 A2 A3 A4 A5]. destruct (irq =? UART0_IRQ); [|destruct (irq =? VIRTIO0_IRQ)].
    - destruct (law_uart k1 A2 A3) as (k2 & H2 & C2). exists k2. split; [exact (lift_k_ok _ (s <| tk := k1 |>) _ _ H2)|done].
    - destruct (law_virtio k1 A2 A3) as (k2 & H2 & C2). exists k2. split; [exact (lift_k_ok _ (s <| tk := k1 |>) _ _ H2)|done].
    - exists k1. split; [done|by apply calm_refl]. }
  rewrite (mbind_Ok _ _ _ _ _ H2). pose proof (calm_trans _ _ _ C1 C2) as C.
  assert (exists k3, (if negb (irq =? 0) then lift_k (lift_env (plic_complete irq)) else mret tt) (s <| tk := k2 |>) = Ok (tt, s <| tk := k3 |>) /\ calm k2 k3) as (k3 & H3 & C3).
  { destruct (negb (irq =? 0)); [|exists k2; split; [done|by apply calm_refl; apply C]].
    destruct (lift_env_calm (plic_complete irq) k2 (cm_kwf _ _ C) (cm_free _ _ C)) as ([] & k3 & H3 & C3 & _).
    { destruct (law_complete irq (env k2)) as (e & He). eauto. }
    exists k3. split; [exact (lift_k_ok _ (s <| tk := k2 |>) _ _ H3)|done]. }
  rewrite (mbind_Ok _ _ _ _ _ H3). eexists. split; [reflexivity|]. simpl. pose proof (calm_trans _ _ _ C C3) as C'.
  split; [done|]. split; [split; [apply C'|split; [apply C'|done]]|]. exists (stimecmp (csr s)). by destruct (csr s).
Qed.

(** A tick charged to the running process, which may be preempted. *)
Lemma trap_tick_ok me s : running me (tk s) -> lk_free (tickslock s) -> exists s',
  trap_tick me s = Ok (tt, s') /\ running me (tk s') /\ sie (mycpu (tk s')) = sie (mycpu (tk s)) /\ tickslock s' = tickslock s.
Proof.
  intros Hr Hf. unfold trap_tick. destruct (lookup_lt_is_Some_2 (procs (tk s)) me) as [p Hp].
  { rewrite (kwf_procs _ (run_kwf _ _ Hr)). apply (run_lt _ _ Hr). }
  destruct (update_tick_calm (tk s) me p (run_kwf _ _ Hr) (run_free _ _ Hr) Hp) as (k1 & H1 & C1).
  rewrite (mbind_Ok _ _ _ _ _ (lift_k_ok _ _ _ _ H1)).
  destruct (should_preempt_calm k1 me (cm_kwf _ _ C1) (cm_free _ _ C1) (run_lt _ _ Hr)) as (b & k2 & H2 & C2).
  rewrite (mbind_Ok _ _ _ b (s <| tk := k2 |>)) by (unfold lift_k; simpl; by rewrite H2). pose proof (calm_trans _ _ _ C1 C2) as C. pose proof (calm_running _ _ _ Hr C) as Hr2.
  destruct (negb (b =? 0)).
  - destruct (yield_running me k2 Hr2) as (k3 & H3 & Hr3 & Hs3). rewrite (mbind_Ok _ _ _ tt (s <| tk := k3 |>)) by (unfold lift_k; simpl; by rewrite H3).
    eexists. split; [reflexivity|]. simpl. split; [done|]. split; [by rewrite Hs3, (cm_sie _ _ C)|done].
  - eexists. split; [reflexivity|]. simpl. split; [done|]. split; [apply C|done].
Qed.
End Handlers.

(** ** Traps taken in the kernel *)

(** C36: An interrupt taken while the kernel runs with no lock held (its scheduler
    or a process) is handled without a panic and returns with the interrupted
    code's program counter, previous mode and interrupt flags, the same current
    process, no lock held and interrupts off, although the handler may have
    yielded and other traps have overwritten the registers; any other cause of
    a trap panics. *)
Theorem kerneltrap_transparent {E} (I : Interference) (SW : Switch E) (SL : SwitchLaws SW) (TE : TrapEnv E) (TL : TrapLaws TE) (s : tst E) :
  kwf (tk s) -> locks_free (procs (tk s)) -> lk_free (tickslock s) -> noff (mycpu (tk s)) = 0 -> sie (mycpu (tk s)) = false ->
  spp (csr s) = true -> (forall me, cpu_proc (mycpu (tk s)) = Some me -> (me < NPROC)%nat) ->
  if (scause (csr s) =? SCAUSE_EXTERNAL) || (scause (csr s) =? SCAUSE_TIMER) then
    exists s', kerneltrap s = Ok (tt, s') /\ sepc (csr s') = sepc (csr s) /\ spp (csr s') = true /\ spie (csr s') = spie (csr s) /\
      sie (mycpu (tk s')) = false /\ noff (mycpu (tk s')) = 0 /\ cpu_proc (mycpu (tk s')) = cpu_proc (mycpu (tk s)) /\
      kwf (tk s') /\ locks_free (procs (tk s')) /\ lk_free (tickslock s')
  else kerneltrap s = Panic "kerneltrap".
Proof.
  intros Hk Hl Hf Hn Hi Hp Hme. destruct (devintr_ok s) as (s1 & H1 & C1 & (Hk1 & Hl1 & Hf1) & (v & Hv)); [split; [done|split; done]|].
  unfold kerneltrap. rewrite !mbind_reads, Hp, Hi. cbn [negb]. rewrite (mbind_Ok _ _ _ _ _ H1).
  destruct C1 as [A1 A2 A3 [A4 A4'] A5].
  assert (exists s2, (if (if scause (csr s) =? SCAUSE_EXTERNAL then 1 else if scause (csr s) =? SCAUSE_TIMER then 2 else 0) =? 2 then
      let* p := lift_k myproc in match p with Some _ => let* me := lift_k curproc in trap_tick me | None => mret tt end else mret tt) s1 = Ok (tt, s2) /\
    noff (mycpu (tk s2)) = 0 /\ cpu_proc (mycpu (tk s2)) = cpu_proc (mycpu (tk s)) /\ kwf (tk s2) /\ locks_free (procs (tk s2)) /\ lk_free (tickslock s2)) as (s2 & H2 & B1 & B2 & B3 & B4 & B5).
  { destruct (_ =? 2); [|exists s1; split; [done|]; split; [congruence|done]].
    destruct (myproc_calm (tk s1) Hk1 Hl1) as (k2 & Hm & C2 & _). rewrite (mbind_Ok _ _ _ _ _ (lift_k_ok _ _ _ _ Hm)). destruct C2 as [D1 D2 D3 [D4 D4'] D5].
    destruct (cpu_proc (mycpu (tk s1))) as [me|] eqn:Ep; [|eexists; split; [reflexivity|]; simpl; split; [congruence|]; split; [congruence|done]].
    assert (running me k2) as Hr by (split; [done|done|congruence|congruence|apply Hme; congruence]).
    rewrite (mbind_Ok _ _ _ me (s1 <| tk := k2 <| mycpu ::= lockcycle |> |>)) by (unfold lift_k; simpl; by rewrite (curproc_running me k2 Hr)).
    destruct (trap_tick_ok me (s1 <| tk := k2 <| mycpu ::= lockcycle |> |>)) as (s2 & Ht & [R1 R2 R3 R4 R5] & _ & Htl); [by apply running_lockcycle|done|].
    exists s2. split; [exact Ht|]. split; [done|]. split; [congruence|]. split; [done|]. split; [done|]. by rewrite Htl. }
  destruct (scause (csr s) =? SCAUSE_EXTERNAL); [|destruct (scause (csr s) =? SCAUSE_TIMER); [|reflexivity]]; cbn [orb];
    match goal with |- context [if ?x =? 0 then _ else _] => change (x =? 0) with false end; cbv iota; rewrite (mbind_Ok _ _ _ tt s2) by exact H2;
    (eexists; split; [reflexivity|]); simpl; do 6 (split; [done|]); (split; [|done]); destruct B3 as [? [] ? ? ? ?]; by split.
Qed.

(** ** What the handlers leave alone

    The fields of an entry that only its own process and its creator change,
    the trap frames, and the current process. *)
Definition view (p : proc) : Z * Z * Z * Z := (trapframe_ptr p, pagetable p, kstack p, killed p).
Definition core {E} (k : kst E) : gmap Z trapframe * list (Z * Z * Z * Z) * option nat := (tframes k, view <$> procs k, cpu_proc (mycpu k)).
Lemma acquire_cur me c l c' l' : acquire me c l = Ok (c', l') -> cpu_proc c' = cpu_proc c.
Proof.
  unfold acquire. destruct (holding me l); [done|]. destruct (locked l =? 0); [|done]. intros [= <- _]. apply proc_push_off.
Qed.
Lemma pop_off_cur c c' : pop_off c = Ok c' -> cpu_proc c' = cpu_proc c.
Proof. unfold pop_off. destruct (intr_get c); [done|]. destruct (noff c <? 1); [done|]. intros [= <-]. simpl. by destruct (_ && _). Qed.
Lemma release_cur me c l c' l' : release me c l = Ok (c', l') -> cpu_proc c' = cpu_proc c.
Proof.
  unfold release. destruct (negb (holding me l)); [done|]. destruct (pop_off c) as [c1| | | |] eqn:Hp; try done. intros [= <- _]. by apply pop_off_cur.
Qed.

Section Core.
Context {E : Type}.
Local Existing Instance quiet.
Implicit Types (k : kst E).

(** [m] keeps the core. *)
Definition cp {A} (m : M (kst E) A) : Prop := forall k a k', m k = Ok (a, k') -> core k' = core k.

Lemma cp_ret {A} (x : A) : cp (mret x).
Proof. intros k a k' [= <- <-]. done. Qed.
Lemma cp_bind {A B} (m : M (kst E) A) (f : A -> M (kst E) B) : cp m -> (forall x, cp (f x)) -> cp (mbind m f).
Proof. intros Hm Hf k b k' H. apply mbind_Ok_inv in H as (a & k1 & H1 & H2). rewrite (Hf _ _ _ _ H2). by eapply Hm. Qed.
Lemma cp_reads {A} (f : kst E -> A) : cp (mreads f).
Proof. intros k a k' [= <- <-]. done. Qed.
Lemma cp_panic {A} msg : cp (A := A) (mpanic msg).
Proof. intros k a k' H. done. Qed.
Lemma cp_mmodify f : (forall k, core (f k) = core k) -> cp (mmodify f).
Proof. intros Hf k [] k' [= <-]. apply Hf. Qed.
Lemma cp_lift {A} (o : outcome A) : cp (mlift o).
Proof. intros k a k' H. unfold mlift in H. destruct o; simpl in H; try discriminate. by injection H as _ <-. Qed.
Lemma core_insert k i p q : procs k !! i = Some p -> view q = view p -> (tframes k, view <$> (<[i := q]> (procs k)), cpu_proc (mycpu k)) = core k.
Proof.
  intros Hp Hq. unfold core. f_equal. f_equal. rewrite list_fmap_insert, Hq. apply list_insert_id. by rewrite list_lookup_fmap, Hp.
Qed.
Lemma cp_modify_proc i f : (forall p, view (f p) = view p) -> cp (modify_proc i f).
Proof.
  intros Hf k [] k' H. unfold modify_proc in H. destruct (procs k !! i) as [p|] eqn:Hp; [|done]. injection H as <-.
  by apply (core_insert k i p).
Qed.
Lemma cp_read_proc i : cp (read_proc i).
Proof. intros k a k' H. unfold read_proc in H. destruct (procs k !! i); [|done]. by injection H as _ <-. Qed.
Lemma cp_acquire i : cp (acquire_proc i).
Proof.
  intros k [] k' H. unfold acquire_proc in H. simpl in H. destruct (procs k !! i) as [p|] eqn:Hp; [|done].
  destruct (acquire _ _ _) as [[c l]| | | |] eqn:Ha; try done. injection H as <-. apply acquire_cur in Ha.
  rewrite <- (core_insert k i p (p <| lock := l |>)) by done. unfold core. simpl. by rewrite Ha.
Qed.
Lemma cp_release i : cp (release_proc i).
Proof.
  intros k [] k' H. unfold release_proc in H. destruct (procs k !! i) as [p|] eqn:Hp; [|done].
  destruct (release _ _ _) as [[c l]| | | |] eqn:Ha; try done. injection H as <-. apply release_cur in Ha.
  rewrite <- (core_insert k i p (p <| lock := l |>)) by done. unfold core. simpl. by rewrite Ha.
Qed.
Lemma cp_for_each {A} (l : list A) body : (forall x, cp (body x)) -> cp (for_each l body).
Proof. intros Hb. induction l as [|x l IH]; [apply cp_ret|]. apply cp_bind; [apply Hb|intros _; apply IH]. Qed.
Lemma cp_for_until {A R} (l : list A) (body : A -> M (kst E) (option R)) : (forall x, cp (body x)) -> cp (for_until l body).
Proof. intros Hb. induction l as [|x l IH]; [apply cp_ret|]. apply cp_bind; [apply Hb|intros [v|]; [apply cp_ret|apply IH]]. Qed.
Lemma cp_lift_env {A} (op : M E A) : cp (lift_env op).
Proof. intros k a k' H. unfold lift_env in H. destruct (op (env k)) as [[b e]| | | |]; try done. by injection H as _ <-. Qed.
Lemma cp_if {A} (b : bool) (m n : M (kst E) A) : cp m -> cp n -> cp (if b then m else n).
Proof. by destruct b. Qed.
End Core.

(** Splits a computation into its steps. *)
Ltac cp_steps :=
  repeat lazymatch goal with
  | |- cp (for_each _ _) => apply cp_for_each; intros ?
  | |- cp (for_until _ _) => apply cp_for_until; intros ?
  | |- cp (mbind _ _) => apply cp_bind; [|intros ?]
  | |- cp (if _ then _ else _) => apply cp_if
  | |- cp (mret _) => apply cp_ret
  | |- cp (mreads _) => apply cp_reads
  | |- cp (mlift _) => apply cp_lift
  | |- cp (read_proc _) => apply cp_read_proc
  | |- cp (acquire_proc _) => apply cp_acquire
  | |- cp (release_proc _) => apply cp_release
  | |- cp (modify_proc _ _) => apply cp_modify_proc; intros ?
  | |- cp (mmodify _) => apply cp_mmodify; intros ?
  end.

Section CoreOps.
Context {E : Type} {PE : ProcEnv E} {SW : Switch E}.
Local Existing Instance quiet.

Lemma cp_myproc : cp (E := E) myproc.
Proof.
  intros k a k' H. unfold myproc in H. rewrite mbind_modify, !mbind_reads in H. bind_inv H as c k1 Hc. unfold mlift in Hc.
  destruct (pop_off _) as [c1| | | |] eqn:Hp; try done. apply Ok_pair_inj in Hc as [<- <-]. apply Ok_pair_inj in H as [_ <-]. apply pop_off_cur in Hp.
  unfold core. simpl. rewrite Hp. change (mycpu (k <| mycpu ::= push_off |>)) with (push_off (mycpu k)). by rewrite proc_push_off.
Qed.
Lemma cp_curproc : cp (E := E) curproc.
Proof. unfold curproc. apply cp_bind; [apply cp_myproc|]. intros [i|]; [apply cp_ret|]. intros k a k' H. done. Qed.
Lemma cp_hook (get : sched_strategy E -> option (nat -> M (kst E) unit)) i :
  (forall s, exists h, get (strategy_obj s) = Some h /\ cp (h i)) -> cp (let* s := active_strategy in call (get (strategy_obj s)) i).
Proof.
  intros Hg k a k' H. rewrite (mbind_Ok _ _ _ _ _ (active_strategy_eq k)) in H. destruct (Hg (active_ptr k)) as (h & Hh & Hc).
  rewrite Hh in H. simpl in H. by eapply Hc.
Qed.
Lemma cp_on_wakeup i : cp (E := E) (sched_on_wakeup i).
Proof.
  apply (cp_hook on_wakeup). intros [|[|s]]; eexists; (split; [reflexivity|]); [apply cp_ret|apply cp_ret|].
  unfold mlfq_on_wakeup. cp_steps. by rewrite (proj1 (mlfq_wakeup_frame _ _)).
Qed.
Lemma cp_on_yield i : cp (E := E) (sched_on_yield i).
Proof.
  apply (cp_hook on_yield). intros [|[|s]]; eexists; (split; [reflexivity|]); [by apply cp_modify_proc|by apply cp_modify_proc|].
  unfold mlfq_on_yield. cp_steps. by rewrite (proj1 (mlfq_yield_frame _ _)).
Qed.
Lemma cp_on_tick i : cp (E := E) (update_proc_after_tick i).
Proof.
  unfold update_proc_after_tick. apply cp_bind; [|intros _].
  - apply cp_modify_proc. intros p. unfold proc_after_tick. simpl. by destruct (0 <? time_slice p).
  - apply (cp_hook on_tick). intros [|[|s]]; eexists; (split; [reflexivity|apply cp_ret]).
Qed.
Lemma cp_should_preempt i : cp (E := E) (sched_should_preempt i).
Proof.
  intros k a k' H. unfold sched_should_preempt in H. rewrite (mbind_Ok _ _ _ _ _ (active_strategy_eq k)) in H.
  destruct (active_ptr k) as [|[|s]]; simpl in H; [by injection H as _ <-..|]. revert H. apply (cp_bind (E := E)); [apply cp_read_proc|].
  intros p. apply cp_if; [apply cp_ret|]. unfold mlfq_preempt_scan. cp_steps.
Qed.
Lemma cp_runnable i : cp (E := E) (sched_proc_runnable i).
Proof. unfold sched_proc_runnable. cp_steps. done. Qed.
Lemma cp_wakeup c : cp (E := E) (wakeup c).
Proof. unfold wakeup, wakeup_scan. cp_steps; [done|done|apply cp_runnable|apply cp_on_wakeup]. Qed.
Lemma cp_killed i : cp (E := E) (proc_killed i).
Proof. unfold proc_killed. cp_steps. Qed.

(** What happens to the core between the start of yield() and its end is what
    the switch does. *)
Lemma yield_core (k k' : kst E) : yield k = Ok (tt, k') -> exists k1 k2, swtch_out k1 = Ok (tt, k2) /\ core k1 = core k /\ core k' = core k2.
Proof.
  intros H. unfold yield in H. bind_inv H as me ka Ha. apply cp_curproc in Ha.
  bind_inv H as u1 kb Hb. apply cp_acquire in Hb. bind_inv H as u2 kc Hc. apply cp_modify_proc in Hc; [|done].
  bind_inv H as u3 kd Hd. apply cp_runnable in Hd. bind_inv H as u4 ke He. apply cp_on_yield in He.
  bind_inv H as u5 kf Hs. apply cp_release in H. unfold sched in Hs. bind_inv Hs as m2 kg Hg. apply cp_curproc in Hg.
  bind_inv Hs as p kh Hh. apply cp_read_proc in Hh. rewrite !mbind_reads in Hs.
  destruct (negb (holding _ _)); [done|]. destruct (negb (noff _ =? 1)); [done|]. destruct (bool_decide _); [done|]. destruct (intr_get _); [done|].
  bind_inv Hs as u6 ki Hi. destruct u6. apply Ok_pair_inj in Hs as [_ Hs]. exists kh, ki. split; [done|]. split; [congruence|]. rewrite H, <- Hs. done.
Qed.
End CoreOps.

(** ** Traps from user space *)

(** Devices do not touch what belongs to a process, a switch leaves the
    process that switches its trap frame, page table and kernel stack. *)
Definition held {E} (me : nat) (w : Z * Z * Z) (t : trapframe) (k : kst E) : Prop :=
  exists q, procs k !! me = Some q /\ (trapframe_ptr q, pagetable q, kstack q) = w /\ tframes k !! trapframe_ptr q = Some t.
Class UserLaws {E} (SW : Switch E) (TE : TrapEnv E) : Prop := {
  law_uart_core (k k' : kst E) : uartintr k = Ok (tt, k') -> core k' = core k;
  law_virtio_core (k k' : kst E) : virtio_disk_intr k = Ok (tt, k') -> core k' = core k;
  law_switch_held me w t (k k' : kst E) : swtch_out k = Ok (tt, k') -> cpu_proc (mycpu k) = Some me -> held me w t k -> held me w t k'
}.

Section User.
Context {E : Type} {PE : ProcEnv E} {SW : Switch E} {SL : SwitchLaws SW} {TE : TrapEnv E} {TL : TrapLaws TE} {UL : UserLaws SW TE}.
Local Existing Instance quiet.
Implicit Types (s : tst E) (k : kst E).

Definition ct {A} (m : M (tst E) A) : Prop := forall s a s', m s = Ok (a, s') -> core (tk s') = core (tk s).
Lemma ct_ret {A} (x : A) : ct (mret x).
Proof. intros s a s' [= <- <-]. done. Qed.
Lemma ct_bind {A B} (m : M (tst E) A) (f : A -> M (tst E) B) : ct m -> (forall x, ct (f x)) -> ct (mbind m f).
Proof. intros Hm Hf s b s' H. apply mbind_Ok_inv in H as (a & s1 & H1 & H2). rewrite (Hf _ _ _ _ H2). by eapply Hm. Qed.
Lemma ct_reads {A} (f : tst E -> A) : ct (mreads f).
Proof. intros s a s' [= <- <-]. done. Qed.
Lemma ct_modify f : (forall s, core (tk (f s)) = core (tk s)) -> ct (mmodify f).
Proof. intros Hf s [] s' [= <-]. apply Hf. Qed.
Lemma ct_lift {A} (m : M (kst E) A) : cp m -> ct (lift_k m).
Proof. intros Hm s a s' H. unfold lift_k in H. destruct (m (tk s)) as [[b k]| | | |] eqn:Hk; try done. injection H as _ <-. by eapply Hm. Qed.
Lemma ct_if {A} (b : bool) (m n : M (tst E) A) : ct m -> ct n -> ct (if b then m else n).
Proof. by destruct b. Qed.
Lemma ct_acquire_ticks : ct acquire_ticks.
Proof.
  intros s [] s' H. unfold acquire_ticks in H. destruct (acquire _ _ _) as [[c l]| | | |] eqn:Ha; try done. injection H as <-. apply acquire_cur in Ha.
  unfold core. simpl. by rewrite Ha.
Qed.
Lemma ct_release_ticks : ct release_ticks.
Proof.
  intros s [] s' H. unfold release_ticks in H. destruct (release _ _ _) as [[c l]| | | |] eqn:Ha; try done. injection H as <-. apply release_cur in Ha.
  unfold core. simpl. by rewrite Ha.
Qed.
Lemma ct_devintr : ct devintr.
Proof.
  unfold devintr, clockintr. apply ct_bind; [apply ct_reads|intros c]. apply ct_if; [|apply ct_if; [|apply ct_ret]].
  - apply ct_bind; [apply ct_lift, cp_lift_env|intros irq]. apply ct_bind; [|intros _].
    + apply ct_if; [apply ct_lift; intros k [] k'; apply law_uart_core|]. apply ct_if; [apply ct_lift; intros k [] k'; apply law_virtio_core|apply ct_ret].
    + apply ct_bind; [|intros _; apply ct_ret]. apply ct_if; [apply ct_lift, cp_lift_env|apply ct_ret].
  - apply ct_bind; [|intros _; apply ct_ret]. apply ct_bind; [apply ct_reads|intros h]. apply ct_bind; [|intros _; by apply ct_modify].
    apply ct_if; [|apply ct_ret]. apply ct_bind; [apply ct_acquire_ticks|intros _]. apply ct_bind; [by apply ct_modify|intros _].
    apply ct_bind; [apply ct_lift, cp_wakeup|intros _; apply ct_release_ticks].
Qed.

Lemma core_held me w t k k' : core k' = core k -> held me w t k -> held me w t k'.
Proof.
  intros Hc (q & Hq & Hw & Ht). injection Hc as H1 H2 H3. assert ((view <$> procs k') !! me = Some (view q)) as Hv by (by rewrite H2, list_lookup_fmap, Hq).
  rewrite list_lookup_fmap in Hv. destruct (procs k' !! me) as [q'|] eqn:Hq'; [|done]. simpl in Hv. injection Hv as E1 E2 E3 E4.
  exists q'. split; [done|]. split; [congruence|]. rewrite H1. congruence.
Qed.
Lemma core_killed me k k' q : core k' = core k -> procs k !! me = Some q -> exists q', procs k' !! me = Some q' /\ killed q' = killed q.
Proof.
  intros Hc Hq. injection Hc as H1 H2 H3. assert ((view <$> procs k') !! me = Some (view q)) as Hv by (by rewrite H2, list_lookup_fmap, Hq).
  rewrite list_lookup_fmap in Hv. destruct (procs k' !! me) as [q'|] eqn:Hq'; [|done]. simpl in Hv. injection Hv as E1 E2 E3 E4. eauto.
Qed.

Lemma trap_tick_held me w t s s' : trap_tick me s = Ok (tt, s') -> cpu_proc (mycpu (tk s)) = Some me -> held me w t (tk s) -> held me w t (tk s').
Proof.
  intros H Hc Hh. unfold trap_tick in H. bind_inv H as u s1 H1. apply (ct_lift _ (cp_on_tick me)) in H1.
  bind_inv H as b s2 H2. apply (ct_lift _ (cp_should_preempt me)) in H2. pose proof (core_held _ _ _ _ _ (eq_trans H2 H1) Hh) as Hh2.
  destruct (negb (b =? 0)); [|apply Ok_pair_inj in H as [_ <-]; done]. bind_inv H as u3 s3 H3. apply Ok_pair_inj in H as [_ <-].
  unfold lift_k in H3. destruct (yield (tk s2)) as [[[] k3]| | | |] eqn:Hy; try done. apply Ok_pair_inj in H3 as [_ <-]. simpl.
  apply yield_core in Hy as (ka & kb & Hsw & Ea & Eb). apply (core_held _ _ _ kb); [done|]. apply (law_switch_held me w t ka kb Hsw).
  - rewrite H1 in H2. rewrite H2 in Ea. injection Ea as _ _ Ea. by rewrite Ea.
  - apply (core_held _ _ _ (tk s2)); [done|exact Hh2].
Qed.

Lemma killed_quiet me k q : running me k -> procs k !! me = Some q -> exists k', proc_killed me k = Ok (killed q, k') /\ calm k k'.
Proof.
  intros Hr Hq. pose proof (run_free _ _ Hr me q Hq) as Hf. unfold proc_killed. rewrite (locked_read (I := quiet) k me q) by done.
  rewrite (mbind_Ok _ _ _ _ _ (release_proc_klocked (I := quiet) k me q q Hq Hf (kwf_cpu _ (run_kwf _ _ Hr)))). eexists. split; [reflexivity|].
  apply kpass_calm; [apply Hr|apply Hr|done].
Qed.

Lemma upd_tf_ok me f s w t : held me w t (tk s) ->
  exists k', upd_tf me f s = Ok (tt, s <| tk := k' |>) /\ held me w (f t) k' /\ procs k' = procs (tk s) /\ mycpu k' = mycpu (tk s) /\
    (forall me', running me' (tk s) -> running me' k').
Proof.
  intros (q & Hq & Hw & Ht). unfold upd_tf. rewrite Hq, Ht. exists ((tk s) <| tframes ::= <[trapframe_ptr q := f t]> |>). split; [done|].
  split; [exists q; split; [done|]; split; [done|]; simpl; apply lookup_insert_eq|]. split; [done|]. split; [done|].
  intros me0 [[A1 A2 A3 A4 A5 A6] B C D F]. split; [by split|done..].
Qed.

(** The registers for the return to user mode. *)
Lemma prepare_return_ok me s ptr pt kst0 t : running me (tk s) -> held me (ptr, pt, kst0) t (tk s) ->
  exists s', prepare_return s = Ok (tt, s') /\ spp (csr s') = false /\ spie (csr s') = true /\ stvec (csr s') = u64 (TRAMPOLINE + uservec_off) /\
    sepc (csr s') = epc t /\ sie (mycpu (tk s')) = false /\ running me (tk s') /\
    held me (ptr, pt, kst0) (t <| kernel_satp := satp (csr s) |> <| kernel_sp := u64 (kst0 + PGSIZE) |> <| kernel_trap := usertrap_addr |>
      <| kernel_hartid := Z.of_nat (hartid (tk s)) |>) (tk s') /\ tickslock s' = tickslock s.
Proof.
  intros Hr Hh. unfold prepare_return. rewrite (mbind_Ok _ _ _ _ _ (lift_k_ok _ _ _ _ (curproc_running me (tk s) Hr))). rewrite !mbind_modify.
  rewrite mbind_get. match goal with |- context [mbind (lift_k (read_proc me)) _ ?x] => set (s1 := x) end.
  assert (held me (ptr, pt, kst0) t (tk s1)) as Hh1 by exact Hh. destruct Hh as (q & Hq & Hw & Ht). injection Hw as W1 W2 W3.
  assert (running me (tk s1)) as Hr1.
  { destruct (running_lockcycle me _ Hr) as [[A1 [A2 A2'] A3 A4 A5 A6] B C D F]. split; [by split|done..]. }
  rewrite (mbind_Ok _ _ _ q s1) by (unfold lift_k, read_proc; simpl; rewrite Hq; by destruct s). cbn [fst snd].
  destruct (upd_tf_ok me (fun t => t <| kernel_satp := satp (csr s1) |> <| kernel_sp := u64 (kstack q + PGSIZE) |>
    <| kernel_trap := usertrap_addr |> <| kernel_hartid := Z.of_nat (hartid (tk s1)) |>) s1 _ _ Hh1) as (k2 & H2 & Hh2 & Hp2 & Hc2 & Hr2).
  rewrite (mbind_Ok _ _ _ _ _ H2), mbind_modify. pose proof Hh2 as (q2 & Hq2 & Hw2 & Ht2).
  erewrite mbind_Ok; [|unfold read_tf; simpl; rewrite Hq2, Ht2; reflexivity]. eexists. split; [reflexivity|]. simpl.
  split; [done|]. split; [done|]. split; [done|]. split; [done|]. split; [by rewrite Hc2|]. split; [exact (Hr2 me Hr1)|]. split; [|done]. rewrite W3 in Hh2. exact Hh2.
Qed.
End User.

Section UserTrap.
Context {E : Type} {PE : ProcEnv E} {SW : Switch E} {SL : SwitchLaws SW} {TE : TrapEnv E} {TL : TrapLaws TE} {UL : UserLaws SW TE}.
Local Existing Instance quiet.
Implicit Types (s : tst E) (k : kst E).

(** Process [me] runs, is not killed, and owns the trap frame [t]. *)
Record alive me w t s : Prop := {
  al_run : running me (tk s);
  al_tick : lk_free (tickslock s);
  al_held : held me w t (tk s);
  al_kill : forall q, procs (tk s) !! me = Some q -> killed q = 0
}.
Lemma alive_step me w t s s' : alive me w t s -> calm (tk s) (tk s') -> core (tk s') = core (tk s) -> lk_free (tickslock s') -> alive me w t s'.
Proof.
  intros [A1 A2 A3 A4] Hc Hco Hl. split; [by eapply calm_running|done|by eapply core_held|]. intros q Hq.
  destruct A3 as (q0 & Hq0 & _). destruct (core_killed me (tk s) (tk s') q0 Hco Hq0) as (q' & Hq' & Hk). rewrite Hq in Hq'. injection Hq' as <-.
  rewrite Hk. by apply A4.
Qed.

(** What a system call handler that returns to its caller promises. *)
Definition syscall_returns fuel info pad me w t s : Prop :=
  exists s' t', syscall fuel info pad s = Ok (tt, s') /\ alive me w t' s' /\ epc t' = epc t.
(** vmfault() has mapped the page. *)
Definition fault_served s (p : proc) : Prop :=
  scause (csr s) = 13 \/ scause (csr s) = 15 ->
  forall e, exists pa e', env_vmfault (pagetable p) (sz p) (stval (csr s)) (if scause (csr s) =? 13 then 1 else 0) e = Ok (pa, e') /\ pa <> 0.

Lemma cause_ok fuel info pad me w t p s :
  alive me w t s -> procs (tk s) !! me = Some p ->
  scause (csr s) ∈ [8; 13; 15; SCAUSE_EXTERNAL; SCAUSE_TIMER] -> fault_served s p ->
  (scause (csr s) = 8 -> forall s1, alive me w (t <| epc ::= fun e => u64 (e + 4) |>) s1 ->
     syscall_returns fuel info pad me w (t <| epc ::= fun e => u64 (e + 4) |>) s1) ->
  exists d s' t', usertrap_cause fuel info pad me s = Ok (d, s') /\ alive me w t' s' /\ epc t' = (if scause (csr s) =? 8 then u64 (epc t + 4) else epc t).
Proof.
  intros Ha Hp Hc Hvm Hsys. pose proof Ha as [A1 A2 A3 A4]. unfold usertrap_cause. rewrite mbind_reads.
  destruct (Z.eqb_spec (scause (csr s)) 8) as [H8|H8].
  - destruct (killed_quiet me (tk s) p A1 Hp) as (k1 & Hk & C1). rewrite (mbind_Ok _ _ _ _ _ (lift_k_ok _ _ _ _ Hk)), (A4 p Hp). change (negb (0 =? 0)) with false. cbv iota. rewrite mbind_ret.
    assert (alive me w t (s <| tk := k1 |>)) as Ha1 by (apply (alive_step me w t s); [done|done| |done]; by eapply (cp_killed me)).
    destruct (upd_tf_ok me (fun t => t <| epc ::= fun e => u64 (e + 4) |>) (s <| tk := k1 |>) w t (al_held _ _ _ _ Ha1)) as (k2 & H2 & Hh2 & Hp2 & Hc2 & Hr2).
    rewrite (mbind_Ok _ _ _ _ _ H2), mbind_modify. match goal with |- context [mbind (syscall _ _ _) _ ?x] => set (s2 := x) end.
    assert (alive me w (t <| epc ::= fun e => u64 (e + 4) |>) s2) as Ha2.
    { split; [|done|exact Hh2|].
      - destruct (Hr2 me (al_run _ _ _ _ Ha1)) as [[B1 [B2 B2'] B3 B4 B5 B6] C D F G]. split; [|done..]. split; try done. split; [done|]. simpl. simpl in D. rewrite D. lia.
      - intros q Hq. simpl in Hq. rewrite Hp2 in Hq. by apply (al_kill _ _ _ _ Ha1). }
    destruct (Hsys H8 s2 Ha2) as (s3 & t3 & H3 & Ha3 & He3). rewrite (mbind_Ok _ _ _ _ _ H3). exists 0. eexists. exists t3. split; [reflexivity|].
    split; [|exact He3]. destruct Ha3 as [Q1 Q2 Q3 Q4]. by split.
  - destruct (devintr_ok s) as (s1 & H1 & C1 & (Hk1 & Hl1 & Hf1) & _); [split; [apply A1|split; [apply A1|done]]|].
    assert (alive me w t s1) as Ha1 by (apply (alive_step me w t s); [done|done|by eapply ct_devintr|done]). rewrite (mbind_Ok _ _ _ _ _ H1).
    destruct (Z.eqb_spec (scause (csr s)) SCAUSE_EXTERNAL) as [Hx|Hx]; [exists 1, s1, t; by split|].
    destruct (Z.eqb_spec (scause (csr s)) SCAUSE_TIMER) as [Ht|Ht]; [exists 2, s1, t; by split|].
    assert (s1 = s) as ->.
    { unfold devintr in H1. rewrite mbind_reads, (proj2 (Z.eqb_neq _ _) Hx), (proj2 (Z.eqb_neq _ _) Ht) in H1. by apply Ok_pair_inj in H1 as [_ <-]. }
    change (negb (0 =? 0)) with false. cbv iota. rewrite (mbind_Ok _ _ _ p s) by (unfold lift_k, read_proc; rewrite Hp; by destruct s). rewrite mbind_reads.
    assert (scause (csr s) = 13 \/ scause (csr s) = 15) as H135 by (rewrite !elem_of_cons, elem_of_nil in Hc; tauto).
    destruct (Hvm H135 (env (tk s))) as (pa & e' & Hv & Hpa).
    assert ((scause (csr s) =? 15) || (scause (csr s) =? 13) = true) as -> by (destruct H135 as [-> | ->]; done).
    rewrite (mbind_Ok _ _ _ pa (s <| tk := (tk s) <| env := e' |> |>)) by (unfold lift_k, lift_env; rewrite Hv; done).
    rewrite (proj2 (Z.eqb_neq _ _) Hpa). cbn [negb]. rewrite mbind_ret. exists 0. eexists. exists t. split; [reflexivity|]. split; [|done].
    apply (alive_step me w t s); try done. destruct A1 as [[B1 B2 B3 B4 B5 B6] C D F G]. split; [done|by split|done..].
Qed.
End UserTrap.


(** ** A machine with one process *)

(** The uart interrupts; traps taken meanwhile leave zeroes in the registers. *)
#[export] Instance demo_trap {E} : TrapEnv E := {|
  plic_claim := mret UART0_IRQ; plic_complete := fun _ => mret tt; uartintr := mret tt; virtio_disk_intr := mret tt; r_time := fun _ => 0;
  env_vmfault := fun _ _ _ _ => mret 4096; sysfile_handler := fun _ => mret 0;
  csr_other := fun _ c => mkCsrs 0 0 0 true false (stvec c) (satp c) (stimecmp c);
  kernelvec_addr := 2147483648; usertrap_addr := 2147487744; uservec_off := 0
|}.
#[export] Instance demo_trap_laws {E} : TrapLaws (demo_trap (E := E)).
Proof.
  split; [by eexists _, _|by eexists| |]; intros k Hk Hl; (exists k; split; [done|by apply calm_refl]).
Qed.
#[export] Instance demo_user_laws {E} : UserLaws (solo_switch (E := E)) demo_trap.
Proof.
  split; [by intros k k' [= <-]..|]. intros me w t k k' H Hc (q & Hq & Hw & Ht). simpl in H. rewrite Hc in H. unfold modify_proc in H. rewrite Hq in H.
  injection H as <-. exists (q <| state := RUNNING |>). split; [|done]. simpl. apply list_lookup_insert_eq. by eapply lookup_lt_Some.
Qed.

(** Process 3 with a trap frame, interrupted by the timer in kernel mode, or on
    a system call. *)
Definition trap_kst (i : bool) : kst Z :=
  (with_proc 3 (fun p => p <| state := RUNNING |> <| pid := 7 |> <| trapframe_ptr := 4096 |> <| pagetable := 8192 |>) (boot_kst 65536 0))
    <| mycpu := mkCpu (Some 3%nat) 0 false i |> <| tframes := {[4096 := junk_trapframe]} |>.
Definition trap_st (i mode : bool) (cause : Z) : tst Z := mkTst (trap_kst i) (mkCsrs cause 1000 0 mode true 0 0 0) (initlock "time").
Lemma trap_kst_running i : running 3 (trap_kst i).
Proof.
  assert (kwf (boot_kst (E := Z) 65536 0)) as Hb by (apply kwf_boot; unfold NCPU; lia).
  split; [|apply (locks_free_with_proc (boot_kst 65536 0) 3); [apply locks_free_boot|done]|done|done|unfold NPROC; lia].
  apply (kwf_with_proc _ 3 (fun p => p <| state := RUNNING |> <| pid := 7 |> <| trapframe_ptr := 4096 |> <| pagetable := 8192 |>)) in Hb.
  by destruct Hb; split.
Qed.

Lemma kerneltrap_transparent_witness :
  exists s', kerneltrap (I := quiet) (SW := solo_switch) (trap_st false true SCAUSE_TIMER) = Ok (tt, s') /\ sepc (csr s') = 1000 /\ lk_free (tickslock s').
Proof.
  destruct (trap_kst_running false) as [R1 R2 R3 R4 R5].
  pose proof (kerneltrap_transparent quiet solo_switch _ demo_trap _ (trap_st false true SCAUSE_TIMER) R1 R2 ltac:(done) R3 ltac:(done) ltac:(done)
    ltac:(intros me [= <-]; exact R5)) as H.
  destruct H as (s' & H1 & H2 & _ & _ & _ & _ & _ & _ & _ & H3). exists s'. split; [exact H1|]. split; [exact H2|exact H3].
Defined.

