(* ===== verification/TrapSys.v ===== *)
(** * System calls on processes (kernel/sysproc.c)

    sys_pause() waits long enough and ends; sys_sbrk() keeps the size of a
    process below the trap frame; sys_get_psinfo() hands out stack bytes. *)
From stdpp Require Import base list strings gmap.
From Stdlib Require Import ZArith Lia.
From S2P Require Import Prelude Spinlock KState SchedMLFQ Sched CString Riscv Proc ProcTable ProcSleep ProcLife Trap TrapSpec.

(** ** sys_pause *)

(** A process that sleeps for the clock runs again after a tick, or killed. *)
Class TickLaws {E} (SW : Switch E) : Prop := {
  law_tick me p (k k' : kst E) : swtch_out k = Ok (tt, k') -> cpu_proc (mycpu k) = Some me -> procs k !! me = Some p ->
    state p = SLEEPING -> chan p = Some ChTicks ->
    (exists q, procs k' !! me = Some q /\ killed q <> 0) \/ (exists d, 1 <= d < 2 ^ 31 /\ ticks k' = u32 (ticks k + d))
}.

Section Pause.
Context {E : Type} {SW : Switch E} {SL : SwitchLaws SW} {TW : TickLaws SW} {TE : TrapEnv E}.
Local Existing Instance quiet.
Implicit Types (s : tst E) (k : kst E).

Lemma release_proc_entry i k k' q : release_proc i k = Ok (tt, k') -> procs k !! i = Some q ->
  ticks k' = ticks k /\ exists q', procs k' !! i = Some q' /\ killed q' = killed q.
Proof.
  intros H Hq. unfold release_proc in H. rewrite Hq in H. destruct (release _ _ _) as [[c l]| | | |]; try done. injection H as <-. split; [done|].
  eexists. simpl. split; [apply list_lookup_insert_eq; by eapply lookup_lt_Some|done].
Qed.

(** sleep() after sleep_prepare(&ticks). *)
Lemma sleep_tick me k p : running me k -> procs k !! me = Some p -> chan p = Some ChTicks ->
  exists k', sleep k = Ok (tt, k') /\ running me k' /\
    ((exists q, procs k' !! me = Some q /\ killed q <> 0) \/ (exists d, 1 <= d < 2 ^ 31 /\ ticks k' = u32 (ticks k + d))).
Proof.
  intros Hr Hp Hch. destruct (sleep_running (I := quiet) me k Hr) as (k' & Hs & Hr' & _). exists k'. split; [done|]. split; [done|].
  pose proof (run_free _ _ Hr me p Hp) as Hf. pose proof (kwf_cpu _ (run_kwf _ _ Hr)) as Hc.
  rewrite (sleep_eq (I := quiet) k me p Hc (run_proc _ _ Hr) Hp Hf) in Hs. rewrite bool_decide_eq_false_2 in Hs by congruence.
  assert (sleep_proc p = p <| wait_count ::= fun n => u64 (n + 1) |> <| state := SLEEPING |>) as Hsp by (unfold sleep_proc; by rewrite bool_decide_eq_false_2 by congruence).
  rewrite Hsp in Hs. match type of Hs with context [klocked ?a ?b ?c] => set (k1 := klocked a b c) in Hs end.
  bind_inv Hs as u k4 H4. destruct u. unfold sched in H4.
  assert (mycpu k1 = push_off (lockcycle (mycpu k))) as Hm1 by done.
  assert (cpu_proc (mycpu k1) = Some me) as Hcp by (rewrite Hm1, proc_push_off, lockcycle_proc; apply (run_proc _ _ Hr)).
  assert (curproc k1 = Ok (me, k1 <| mycpu ::= lockcycle |>)) as Hcur by (apply curproc_eq; [rewrite Hm1; by apply cpu_wf_push_off, cpu_wf_lockcycle|done]).
  rewrite (mbind_Ok _ _ _ _ _ Hcur) in H4. match type of H4 with context [k1 <| mycpu ::= lockcycle |>] => set (k2 := k1 <| mycpu ::= lockcycle |>) in H4 end.
  set (pe := p <| wait_count ::= fun n => u64 (n + 1) |> <| state := SLEEPING |> <| lock := held_by (hartid k) (lock p) |>).
  assert (procs k2 !! me = Some pe) as Hpe by (apply list_lookup_insert_eq; by eapply lookup_lt_Some).
  rewrite (mbind_Ok _ _ _ pe k2) in H4 by (unfold read_proc; by rewrite Hpe). rewrite !mbind_reads in H4.
  destruct (negb (holding _ _)); [done|]. destruct (negb (noff _ =? 1)); [done|]. destruct (bool_decide _); [done|]. destruct (intr_get _); [done|].
  bind_inv H4 as u k3 H3. destruct u. apply Ok_pair_inj in H4 as [_ <-].
  assert (exists q, procs k3 !! me = Some q) as [q Hq].
  { unfold release_proc in Hs. simpl in Hs. destruct (procs k3 !! me) as [q|]; [by exists q|done]. }
  destruct (release_proc_entry me _ _ q Hs Hq) as (Ht & q' & Hq' & Hk). simpl in Ht.
  destruct (law_tick me pe k2 k3 H3) as [(q2 & Hq2 & Hk2)|(d & Hd & Htk)]; try done.
  - change (mycpu k2) with (lockcycle (mycpu k1)). by rewrite lockcycle_proc.
  - left. exists q'. split; [done|]. rewrite Hk. congruence.
  - right. exists d. split; [done|]. by rewrite Ht, Htk.
Qed.

(** The process holds tickslock; [c] is the hart before. *)
Record pausing me (c : cpu) s : Prop := {
  pz_kwf : kwf (tk s);
  pz_free : locks_free (procs (tk s));
  pz_cpu : mycpu (tk s) = push_off c;
  pz_c : cpu_wf c /\ noff c = 0 /\ cpu_proc c = Some me;
  pz_lt : (me < NPROC)%nat;
  pz_lock : exists l, lk_free l /\ release (hartid (tk s)) (mycpu (tk s)) (tickslock s) = Ok (lockcycle c, l)
}.
Lemma pause_enter me s : running me (tk s) -> lk_free (tickslock s) ->
  exists s1, acquire_ticks s = Ok (tt, s1) /\ pausing me (mycpu (tk s)) s1 /\ ticks (tk s1) = ticks (tk s) /\ procs (tk s1) = procs (tk s).
Proof.
  intros [A1 A2 A3 A4 A5] Hf. pose proof (acquire_release (hartid (tk s)) (mycpu (tk s)) (tickslock s) Hf (kwf_cpu _ A1)) as Har.
  unfold acquire_ticks. rewrite acquire_free in Har |- * by done. cbn [obind fst snd] in Har. eexists. split; [reflexivity|]. split; [|done].
  split; [|done|done|split; [apply A1|done]|done|by exists (tickslock s)].
  destruct (kwf_kenter _ A1). split; try done. by apply cpu_wf_push_off, A1.
Qed.
Lemma pause_leave me c s : pausing me c s -> exists s', release_ticks s = Ok (tt, s') /\ running me (tk s') /\ lk_free (tickslock s') /\
  ticks (tk s') = ticks (tk s) /\ procs (tk s') = procs (tk s).
Proof.
  intros [P1 P2 P3 (P4 & P5 & P6) P7 (l & Hl & Hr)]. unfold release_ticks. rewrite Hr. eexists. split; [reflexivity|]. simpl. split; [|done].
  split; simpl; [|done|by rewrite lockcycle_noff|by rewrite lockcycle_proc|done]. destruct P1. split; try done. by apply cpu_wf_lockcycle.
Qed.
Lemma pausing_same me c s : pausing me c s -> (tk s) <| mycpu ::= lockcycle |> = tk s /\ cpu_wf (mycpu (tk s)) /\ cpu_proc (mycpu (tk s)) = Some me.
Proof.
  intros [P1 P2 P3 (P4 & P5 & P6) P7 _]. split; [|split; [apply P1|by rewrite P3, proc_push_off]].
  assert (lockcycle (mycpu (tk s)) = mycpu (tk s)) as H by (rewrite P3; by apply lockcycle_push). destruct (tk s). simpl in *. by rewrite H.
Qed.
Lemma pausing_pass me c s p : pausing me c s -> lk_free (lock p) -> pausing me c (s <| tk := kpass (tk s) me p |>).
Proof.
  intros P Hf. pose proof P as [P1 P2 P3 P4 P7 P8]. assert (lockcycle (mycpu (tk s)) = mycpu (tk s)) as H by (rewrite P3; by apply lockcycle_push, P4).
  split; simpl; [by apply (kwf_kpass (I := quiet))|by apply locks_free_insert|by rewrite H|done|done|by rewrite H].
Qed.

Lemma u32_elapsed now t0 d n : 0 <= d -> u32 (now - t0) < n -> n < 2 ^ 31 -> d < 2 ^ 31 -> u32 (u32 (now + d) - t0) = u32 (now - t0) + d.
Proof.
  intros Hd He Hn Hd2. unfold u32 in *. rewrite Zminus_mod_idemp_l. replace (now + d - t0) with (now - t0 + d) by lia. rewrite <- Zplus_mod_idemp_l.
  apply Z.mod_small. pose proof (Z.mod_pos_bound (now - t0) (2 ^ 32) ltac:(lia)). lia.
Qed.

(** One turn of the loop. *)
Definition pause_end me n t0 (r : Z) s' : Prop :=
  running me (tk s') /\ lk_free (tickslock s') /\
  ((r = 0 /\ n <= u32 (ticks (tk s') - t0)) \/ (r = u64 (-1) /\ exists q, procs (tk s') !! me = Some q /\ killed q <> 0)).
Lemma pause_turn_ok me c s p n t0 : pausing me c s -> procs (tk s) !! me = Some p -> 0 <= n < 2 ^ 31 ->
  (exists r s', pause_turn n t0 tt s = Ok (inr r, s') /\ pause_end me n t0 r s') \/
  (killed p = 0 /\ u32 (ticks (tk s) - t0) < n /\ exists s' c' q, pause_turn n t0 tt s = Ok (inl tt, s') /\ pausing me c' s' /\ procs (tk s') !! me = Some q /\
     (killed q <> 0 \/ u32 (ticks (tk s) - t0) < u32 (ticks (tk s') - t0))).
Proof.
  intros P Hp Hn. unfold pause_turn. rewrite mbind_reads, (u32_small n) by lia. destruct (Z.ltb_spec (u32 (ticks (tk s) - t0)) n) as [Hlt|Hge].
  2: { left. destruct (pause_leave me c s P) as (s' & H1 & H2 & H3 & H4 & H5). rewrite (mbind_Ok _ _ _ _ _ H1). exists 0, s'. split; [done|].
       split; [done|]. split; [done|]. left. split; [done|]. by rewrite H4. }
  destruct (pausing_same me c s P) as (Hsame & Hwf & Hcp). rewrite (mbind_Ok _ _ _ me s).
  2: { unfold lift_k. rewrite (curproc_eq _ _ Hwf Hcp), Hsame. simpl. by destruct s. }
  pose proof (pz_free _ _ _ P me p Hp) as Hf. pose proof (pausing_pass me c s p P Hf) as P1. set (s1 := s <| tk := kpass (tk s) me p |>) in *.
  rewrite (mbind_Ok _ _ _ (killed p) s1).
  2: { unfold lift_k, proc_killed. rewrite (locked_read (I := quiet) _ me p) by done.
       rewrite (mbind_Ok _ _ _ _ _ (release_proc_klocked (I := quiet) (tk s) me p p Hp Hf Hwf)). done. }
  assert (procs (tk s1) !! me = Some p) as Hp1 by (simpl; apply list_lookup_insert_eq; by eapply lookup_lt_Some).
  destruct (Z.eqb_spec (killed p) 0) as [Hk|Hk]; cbn [negb].
  2: { left. destruct (pause_leave me c s1 P1) as (s' & H1 & H2 & H3 & H4 & H5). rewrite (mbind_Ok _ _ _ _ _ H1). exists (u64 (-1)), s'. split; [done|].
       split; [done|]. split; [done|]. right. split; [done|]. exists p. by rewrite H5. }
  right. split; [done|]. split; [done|]. destruct (pausing_same me c s1 P1) as (Hsame1 & Hwf1 & Hcp1).
  pose proof (pausing_pass me c s1 (prepare_proc ChTicks p) P1 Hf) as P2. set (s2 := s1 <| tk := kpass (tk s1) me (prepare_proc ChTicks p) |>) in *.
  rewrite (mbind_Ok _ _ _ tt s2).
  2: { unfold lift_k. rewrite (sleep_prepare_eq (I := quiet) _ me ChTicks p Hwf1 Hcp1 Hp1 Hf), Hsame1. done. }
  destruct (pause_leave me c s2 P2) as (s3 & H3 & R3 & L3 & T3 & Pr3). rewrite (mbind_Ok _ _ _ _ _ H3).
  assert (procs (tk s3) !! me = Some (prepare_proc ChTicks p)) as Hp3 by (rewrite Pr3; simpl; apply list_lookup_insert_eq; rewrite length_insert; by eapply lookup_lt_Some).
  destruct (sleep_tick me (tk s3) _ R3 Hp3 eq_refl) as (k4 & H4 & R4 & Hwhy).
  rewrite (mbind_Ok _ _ _ tt (s3 <| tk := k4 |>)) by (unfold lift_k; by rewrite H4). unfold clobber. rewrite mbind_modify.
  match goal with |- context [mbind acquire_ticks _ ?x] => set (s4 := x) end.
  destruct (pause_enter me s4 R4 L3) as (s5 & H5 & P5 & T5 & Pr5). rewrite (mbind_Ok _ _ _ _ _ H5).
  assert (ticks (tk s3) = ticks (tk s)) as Hts by (by rewrite T3).
  destruct (lookup_lt_is_Some_2 (procs (tk s5)) me) as [q Hq]; [rewrite (kwf_procs _ (pz_kwf _ _ _ P5)); apply (pz_lt _ _ _ P5)|].
  exists s5, (mycpu (tk s4)), q. split; [done|]. split; [done|]. split; [done|]. rewrite T5. destruct Hwhy as [(q' & Hq' & Hkq)|(d & Hd & Ht)].
  - left. rewrite Pr5 in Hq. simpl in Hq. congruence.
  - right. simpl. rewrite Ht, Hts. rewrite (u32_elapsed _ t0 d n) by lia. lia.
Qed.

Lemma pause_loop_ok me n t0 : 0 <= n < 2 ^ 31 -> forall fuel c s p, pausing me c s -> procs (tk s) !! me = Some p ->
  (killed p <> 0 /\ (1 <= fuel)%nat) \/ n - u32 (ticks (tk s) - t0) + 2 <= Z.of_nat fuel -> (1 <= fuel)%nat ->
  exists r s', mloop fuel (pause_turn n t0) tt s = Ok (r, s') /\ pause_end me n t0 r s'.
Proof.
  intros Hn. induction fuel as [|fuel IH]; intros c s p P Hp Hfuel Hf1; [lia|].
  destruct (pause_turn_ok me c s p n t0 P Hp Hn) as [(r & s' & Hr & He)|(Hk & Hlt & s' & c' & q & Hr & P' & Hq & Hwhy)].
  - exists r, s'. split; [by apply mloop_stop|done].
  - rewrite (mloop_next _ _ _ _ _ _ Hr). destruct Hfuel as [[Hk' _]|Hfuel]; [done|]. apply (IH c' s' q P' Hq); [|lia].
    destruct Hwhy as [Hk'|Hmore]; [left; split; [done|lia]|right; lia].
Qed.
End Pause.

(** ** Arguments *)
Section Args.
Context {E : Type}.
Implicit Types (s : tst E).

Definition cycled s : tst E := s <| tk ::= fun k => k <| mycpu ::= lockcycle |> |>.
Lemma curproc_cycled me s : running me (tk s) -> lift_k curproc s = Ok (me, cycled s).
Proof. intros Hr. unfold lift_k. by rewrite (curproc_running _ _ Hr). Qed.
Lemma cycled_running me s : running me (tk s) -> running me (tk (cycled s)).
Proof. intros Hr. by apply running_lockcycle in Hr. Qed.
Lemma karg_ok me w t s n : running me (tk s) -> held me w t (tk s) -> (n < 6)%nat ->
  karg n s = Ok (nth n [tf_a0 t; tf_a1 t; tf_a2 t; tf_a3 t; tf_a4 t; tf_a5 t] 0, cycled s).
Proof.
  intros Hr (q & Hq & Hw & Ht) Hn. unfold karg. rewrite (mbind_Ok _ _ _ _ _ (curproc_cycled me s Hr)).
  rewrite (mbind_Ok _ _ _ t (cycled s)) by (unfold read_tf; simpl; by rewrite Hq, Ht).
  by do 6 (destruct n as [|n]; [done|]); lia.
Qed.
Lemma kargint_ok me w t s n : running me (tk s) -> held me w t (tk s) -> (n < 6)%nat ->
  kargint n s = Ok (i32 (nth n [tf_a0 t; tf_a1 t; tf_a2 t; tf_a3 t; tf_a4 t; tf_a5 t] 0), cycled s).
Proof. intros Hr Hh Hn. unfold kargint. by rewrite (mbind_Ok _ _ _ _ _ (karg_ok me w t s n Hr Hh Hn)). Qed.
End Args.


(** A machine with a single process and a clock. *)
Definition tick_switch {E} : Switch E := {|
  swtch_out := fun k => match cpu_proc (mycpu k) with
    | Some me => obind (modify_proc me (fun p => p <| state := RUNNING |>) k) (fun r => Ok (tt, (snd r) <| ticks ::= fun t => u32 (t + 1) |>))
    | None => UB end;
  swtch_in := swtch_in (Switch := solo_switch)
|}.
#[export] Instance tick_switch_laws {E} : SwitchLaws (E := E) tick_switch.
Proof.
  pose proof (solo_switch_laws (E := E)) as [L1 L2]. split.
  - intros me k (p & Hh & Hs). simpl. rewrite (ho_proc _ _ _ _ Hh). unfold modify_proc. rewrite (ho_entry _ _ _ _ Hh). eexists. split; [reflexivity|].
    exists (p <| state := RUNNING |>). split; [|done]. apply (handed_over_state _ _ _ RUNNING) in Hh. by destruct Hh as [[] ? ? ? ? ? ?]; split; [split|..].
  - exact L2.
Qed.
#[export] Instance tick_switch_tick {E} : TickLaws (E := E) tick_switch.
Proof.
  split. intros me p k k' H Hc Hp _ _. simpl in H. rewrite Hc in H. unfold modify_proc in H. rewrite Hp in H. injection H as <-.
  right. exists 1. by split.
Qed.

Lemma running_tframes {E} me (k : kst E) ts : running me k -> running me (k <| tframes := ts |>).
Proof. intros [[] ? ? ? ?]. by split. Qed.


(** ** sys_sbrk *)

(** What growproc() relies on: uvmdealloc() returns the smaller size,
    uvmalloc() the size asked for, or 0 when memory runs out. *)
Class GrowLaws {E} (PE : ProcEnv E) : Prop := {
  law_uvmalloc pt old new x (e : E) : 0 <= old <= new -> new <= TRAPFRAME ->
    exists r e', env_uvmalloc pt old new x e = Ok (r, e') /\ (r = 0 \/ r = new);
  law_uvmdealloc pt old new (e : E) : 0 <= old <= TRAPFRAME -> 0 <= new ->
    exists e', env_uvmdealloc pt old new e = Ok (if old <=? new then old else new, e')
}.

(** The size after a successful sbrk(n). *)
Definition sbrk_size (old n : Z) : Z := if old + n <? 0 then old else old + n.

Section Sbrk.
Context {E : Type} {PE : ProcEnv E} {GL : GrowLaws PE} {TE : TrapEnv E}.
Implicit Types (k : kst E) (s : tst E).

(** [me] still runs, and its entry is [p] with size [x]. *)
Definition sized me p (x : Z) k : Prop := running me k /\ procs k !! me = Some (p <| sz := x |>).
Lemma sized_same me p k : running me k -> procs k !! me = Some p -> sized me p (sz p) k.
Proof. intros Hr Hp. split; [done|]. rewrite Hp. by destruct p. Qed.
Lemma sized_modify me p (f : proc -> proc) x k : running me k -> procs k !! me = Some p -> f p = p <| sz := x |> ->
  exists k', modify_proc me f k = Ok (tt, k') /\ sized me p x k'.
Proof.
  intros [[A1 A2 A3 A4 A5 A6] B C D F] Hp Hf. unfold modify_proc. rewrite Hp, Hf. eexists. split; [reflexivity|]. split.
  - split; simpl; [split; simpl; try done; by rewrite length_insert|apply locks_free_insert; [done|exact (B me p Hp)]|done..].
  - simpl. apply list_lookup_insert_eq. by eapply lookup_lt_Some.
Qed.

Lemma growproc_ok me p k n : running me k -> procs k !! me = Some p -> 0 <= sz p <= TRAPFRAME -> - 2 ^ 31 <= n < 2 ^ 31 ->
  exists r k', growproc n k = Ok (r, k') /\
    ((r = -1 /\ sized me p (sz p) k') \/ (r = 0 /\ sized me p (sbrk_size (sz p) n) k' /\ sbrk_size (sz p) n <= TRAPFRAME)).
Proof.
  intros Hr Hp Hsz Hn. assert (TRAPFRAME = 274877898752) as Htf by done. unfold growproc. rewrite (mbind_Ok _ _ _ _ _ (curproc_running me k Hr)).
  set (k1 := k <| mycpu ::= lockcycle |>). assert (running me k1) as Hr1 by (by apply running_lockcycle in Hr).
  assert (procs k1 !! me = Some p) as Hp1 by done. rewrite (mbind_Ok _ _ _ p k1) by (unfold read_proc; by rewrite Hp1).
  destruct (Z.ltb_spec 0 n) as [Hpos|Hpos]; [|destruct (Z.ltb_spec n 0) as [Hneg|Hneg]].
  - rewrite (u64_small (sz p + n)) by lia. destruct (Z.ltb_spec TRAPFRAME (sz p + n)) as [Hbig|Hbig].
    { exists (-1), k1. split; [done|]. left. split; [done|by apply sized_same]. }
    destruct (law_uvmalloc (pagetable p) (sz p) (sz p + n) PTE_W (env k1)) as (r & e & He & Hres); [lia..|].
    rewrite (mbind_Ok _ _ _ r (k1 <| env := e |>)) by (unfold lift_env; by rewrite He). destruct (Z.eqb_spec r 0) as [->|Hr0].
    { exists (-1), (k1 <| env := e |>). split; [done|]. left. split; [done|]. apply sized_same; [by apply running_env|done]. }
    destruct Hres as [Hres| ->]; [done|].
    destruct (sized_modify me p (fun q => q <| sz := sz p + n |>) (sz p + n) (k1 <| env := e |>)) as (k2 & H2 & Hs); [by apply running_env|done..|].
    rewrite (mbind_Ok _ _ _ _ _ H2). exists 0, k2. split; [done|]. right. unfold sbrk_size. destruct (Z.ltb_spec (sz p + n) 0); [lia|]. done.
  - destruct (law_uvmdealloc (pagetable p) (sz p) (u64 (sz p + n)) (env k1)) as (e & He); [done|unfold u64; apply Z.mod_pos_bound; lia|].
    assert ((if sz p <=? u64 (sz p + n) then sz p else u64 (sz p + n)) = sbrk_size (sz p) n) as Hx.
    { unfold sbrk_size. destruct (Z.ltb_spec (sz p + n) 0).
      - unfold u64. rewrite <- (Z_mod_plus_full (sz p + n) 1 (2 ^ 64)), Z.mod_small by lia. destruct (Z.leb_spec (sz p) (sz p + n + 1 * 2 ^ 64)); lia.
      - rewrite u64_small by lia. destruct (Z.leb_spec (sz p) (sz p + n)); lia. }
    rewrite Hx in He. rewrite (mbind_Ok _ _ _ (sbrk_size (sz p) n) (k1 <| env := e |>)) by (unfold lift_env; by rewrite He).
    destruct (sized_modify me p (fun q => q <| sz := sbrk_size (sz p) n |>) (sbrk_size (sz p) n) (k1 <| env := e |>)) as (k2 & H2 & Hs); [by apply running_env|done..|].
    rewrite (mbind_Ok _ _ _ _ _ H2). exists 0, k2. split; [done|]. right. split; [done|]. split; [done|]. unfold sbrk_size. destruct (Z.ltb_spec (sz p + n) 0); lia.
  - assert (n = 0) as -> by lia. destruct (sized_modify me p (fun q => q <| sz := sz p |>) (sz p) k1) as (k2 & H2 & Hs); [done..|].
    rewrite (mbind_Ok _ _ _ _ _ H2). exists 0, k2. split; [done|]. right. unfold sbrk_size. rewrite Z.add_0_r. destruct (Z.ltb_spec (sz p) 0); [lia|]. split; [done|]. split; [done|lia].
Qed.
End Sbrk.

(** C34: sbrk keeps the size of a process between 0 and the trap frame, whatever
    the signed 32-bit amount and the mode are: it returns the old size and the
    size has changed by exactly the amount, in one entry and one field, or it
    returns -1 and the size is what it was.  An amount that would make the
    size negative wraps around in the 64-bit sum, uvmdealloc() takes it for
    a larger size, and the call succeeds with the size unchanged. *)
Theorem sys_sbrk_size {E} (PE : ProcEnv E) (GL : GrowLaws PE) (TE : TrapEnv E) (me : nat) (w : Z * Z * Z) (t : trapframe) (p : proc) (s : tst E) :
  running me (tk s) -> held me w t (tk s) -> procs (tk s) !! me = Some p -> 0 <= sz p <= TRAPFRAME ->
  let n := i32 (tf_a0 t) in
  exists r s' x, sys_sbrk s = Ok (r, s') /\ running me (tk s') /\ procs (tk s') !! me = Some (p <| sz := x |>) /\ 0 <= x <= TRAPFRAME /\
    ((r = u64 (-1) /\ x = sz p) \/ (r = sz p /\ x = if sz p + n <? 0 then sz p else sz p + n)).
Proof.
  intros Hr Hh Hp Hsz n. assert (TRAPFRAME = 274877898752) as Htf by done. pose proof (i32_range (tf_a0 t)) as Hn. fold n in Hn.
  unfold sys_sbrk. rewrite (mbind_Ok _ _ _ _ _ (kargint_ok me w t s 0 Hr Hh ltac:(lia))). cbn [nth]. fold n.
  pose proof (cycled_running _ _ Hr) as Hr1. rewrite (mbind_Ok _ _ _ _ _ (kargint_ok me w t (cycled s) 1 Hr1 Hh ltac:(lia))). cbn [nth].
  pose proof (cycled_running _ _ Hr1) as Hr2. rewrite (mbind_Ok _ _ _ _ _ (curproc_cycled me _ Hr2)).
  pose proof (cycled_running _ _ Hr2) as Hr3. set (s3 := cycled (cycled (cycled s))) in *. assert (procs (tk s3) !! me = Some p) as Hp3 by done.
  rewrite (mbind_Ok _ _ _ p s3) by (unfold lift_k, read_proc; rewrite Hp3; reflexivity).
  destruct ((i32 (tf_a1 t) =? SBRK_EAGER) || (n <? 0)) eqn:Hmode.
  { destruct (growproc_ok me p (tk s3) n Hr3 Hp3 Hsz Hn) as (r & k' & Hg & Hres).
    rewrite (mbind_Ok _ _ _ _ _ (lift_k_ok _ _ _ _ Hg)). destruct Hres as [[-> [G1 G2]]|(-> & [G1 G2] & G3)].
    - exists (u64 (-1)), (s3 <| tk := k' |>), (sz p). split; [done|]. split; [done|]. split; [done|]. split; [done|]. by left.
    - exists (sz p), (s3 <| tk := k' |>), (sbrk_size (sz p) n). split; [done|]. split; [done|]. split; [done|].
      split; [unfold sbrk_size in *; destruct (Z.ltb_spec (sz p + n) 0); lia|]. by right. }
  apply orb_false_iff in Hmode as [_ Hpos%Z.ltb_ge]. rewrite (u64_small (sz p + n)) by lia.
  destruct (Z.ltb_spec (sz p + n) (sz p)); [lia|]. destruct (Z.ltb_spec TRAPFRAME (sz p + n)) as [Hbig|Hbig].
  { exists (u64 (-1)), s3, (sz p). split; [done|]. split; [done|]. split; [rewrite Hp3; by destruct p|]. split; [done|]. by left. }
  rewrite (mbind_Ok _ _ _ _ _ (curproc_cycled me _ Hr3)).
  destruct (sized_modify me p (fun p => p <| sz ::= fun s => u64 (s + n) |>) (sz p + n) (tk (cycled s3))) as (k' & Hm & G1 & G2).
  - by apply cycled_running.
  - done.
  - destruct p. simpl in *. by rewrite u64_small by lia.
  - rewrite (mbind_Ok _ _ _ _ _ (lift_k_ok _ _ _ _ Hm)). exists (sz p), ((cycled s3) <| tk := k' |>), (sz p + n).
    split; [done|]. split; [done|]. split; [done|]. split; [lia|]. right. destruct (Z.ltb_spec (sz p + n) 0); [lia|done].
Qed.

#[export] Instance bump_env_grow : GrowLaws bump_env.
Proof. split; intros; [by eexists _, _; split; [reflexivity|right]|by eexists]. Qed.

Lemma sys_sbrk_size_witness : exists r s' x,
  sys_sbrk (PE := bump_env) ((trap_st false false 8) <| tk ::= fun k => k <| tframes := {[4096 := junk_trapframe <| tf_a0 := u64 (-5) |>]} |> |>) = Ok (r, s') /\
  running 3 (tk s') /\ 0 <= x <= TRAPFRAME /\ (exists q, procs (tk s') !! 3%nat = Some q /\ sz q = x).
Proof.
  set (s := (trap_st false false 8) <| tk ::= fun k => k <| tframes := {[4096 := junk_trapframe <| tf_a0 := u64 (-5) |>]} |> |>).
  set (p := zero_proc <| state := RUNNING |> <| pid := 7 |> <| trapframe_ptr := 4096 |> <| pagetable := 8192 |>).
  assert (running 3 (tk s)) as Hr by exact (running_tframes 3 _ _ (trap_kst_running false)).
  destruct (sys_sbrk_size bump_env _ demo_trap 3 (4096, 8192, 0) (junk_trapframe <| tf_a0 := u64 (-5) |>) p s Hr) as (r & s' & x & H1 & H2 & H3 & H4 & _).
  - eexists. split; [reflexivity|]. split; [reflexivity|]. apply lookup_insert_eq.
  - reflexivity.
  - by vm_compute.
  - exists r, s', x. split; [exact H1|]. split; [exact H2|]. split; [exact H4|]. exists (p <| sz := x |>). split; [exact H3|reflexivity].
Defined.
