(* ===== verification/Exec.v ===== *)
(** * Program loading (kernel/exec.c, sys_exec of kernel/sysfile.c, forkret)

    kexec() on the kernel state of [KState].  The inode layer and the routines
    of kernel/vm.c that proc.c does not call are the class [ExecEnv]; strings
    are lists of bytes without their terminator. *)
From stdpp Require Import base list strings gmap.
From Stdlib Require Import ZArith Lia.
From S2P Require Import Prelude Spinlock KState Sched CString Riscv Kalloc FsState Proc Trap.

Class ExecEnv (E : Type) : Type := {
  env_namei : list Z -> M E Z;
  env_ilock : Z -> M E unit;
  env_iunlockput : Z -> M E unit;
  (** readi() into a structure of the kernel: inode, offset, length; the result with the bytes *)
  env_readi : Z -> Z -> Z -> M E (Z * list Z);
  (** readi() into physical memory: inode, address, offset, length *)
  env_readi_to : Z -> Z -> Z -> Z -> M E Z;
  env_walkaddr : Z -> Z -> M E Z;
  env_uvmclear : Z -> Z -> M E unit;
  (** page table, size, address, limit; the result with the string *)
  env_copyinstr : Z -> Z -> Z -> Z -> M E (Z * list Z);
  env_fsinit : M E unit;
  env_first : E -> Z;
  env_set_first : Z -> E -> E
}.

Definition MAXARG : nat := 32.
Definition USERSTACK : Z := 1.
Definition ELF_MAGIC : Z := 1179403647.
Definition ELF_PROG_LOAD : Z := 1.

(** struct elfhdr and struct proghdr: the fields the loader reads. *)
Record elfhdr : Type := mkElfhdr { magic : Z; entry : Z; phoff : Z; phnum : Z }.
Record proghdr : Type := mkProghdr { ph_type : Z; ph_flags : Z; ph_off : Z; ph_vaddr : Z; ph_filesz : Z; ph_memsz : Z }.
Definition elfhdr_size : Z := 64.
Definition proghdr_size : Z := 56.
Definition field (n off : Z) (d : list Z) : Z := le_val (slice off n d).
Definition get_elfhdr (d : list Z) : elfhdr := mkElfhdr (field 4 0 d) (field 8 24 d) (field 8 32 d) (field 2 56 d).
Definition get_proghdr (d : list Z) : proghdr :=
  mkProghdr (field 4 0 d) (field 4 4 d) (field 8 8 d) (field 8 16 d) (field 8 32 d) (field 8 40 d).

Definition flags2perm (flags : Z) : Z :=
  let perm := if negb (Z.land flags 1 =? 0) then PTE_X else 0 in
  if negb (Z.land flags 2 =? 0) then Z.lor perm PTE_W else perm.

(** The name behind the last slash of a path. *)
Fixpoint last_elem (last s : list Z) : list Z :=
  match s with
  | [] => last
  | c :: s => last_elem (if c =? 47 then s else last) s
  end.

Section Exec.
Context {E : Type} {I : Interference} {PE : ProcEnv E} {SW : Switch E} {EE : ExecEnv E}.

(** The pages are read one by one into their physical addresses; [i] is an
    unsigned int. *)
Definition loadseg (pt va ip offset sz : Z) : M (kst E) Z :=
  mloop (S (Z.to_nat (sz / PGSIZE + 1))) (fun i =>
    if i <? sz then
      let* pa := lift_env (env_walkaddr pt (u64 (va + i))) in
      if pa =? 0 then mpanic "loadseg: address should exist"
      else
        let n := if u32 (sz - i) <? PGSIZE then u32 (sz - i) else PGSIZE in
        let* r := lift_env (env_readi_to ip pa (u32 (offset + i)) n) in
        if negb (u32 r =? n) then mret (inr (-1))
        else mret (inl (u32 (i + PGSIZE)))
    else mret (inr 0)) 0.

(** One turn of the loop over the program headers: the next [i], [off] and
    [sz], or whether the loop ended well, with [sz]. *)
Definition load_turn (pt ip phnum : Z) (a : Z * Z * Z) : M (kst E) (Z * Z * Z + bool * Z) :=
  let '(i, off, sz) := a in
  let continue sz := if off + proghdr_size <? 2 ^ 31 then mret (inl (i + 1, off + proghdr_size, sz)) else mub in
  let bad sz := mret (inr (false, sz)) in
  if i <? phnum then
    let* r := lift_env (env_readi ip (u32 off) proghdr_size) in
    if negb (u64 (fst r) =? proghdr_size) then bad sz
    else
      let ph := get_proghdr (snd r) in
      if negb (ph_type ph =? ELF_PROG_LOAD) then continue sz
      else if ph_memsz ph <? ph_filesz ph then bad sz
      else if u64 (ph_vaddr ph + ph_memsz ph) <? ph_vaddr ph then bad sz
      else if negb (ph_vaddr ph mod PGSIZE =? 0) then bad sz
      else
        let* sz1 := lift_env (env_uvmalloc pt sz (u64 (ph_vaddr ph + ph_memsz ph)) (flags2perm (i32 (ph_flags ph)))) in
        if sz1 =? 0 then bad sz
        else
          let* r := loadseg pt (ph_vaddr ph) ip (u32 (ph_off ph)) (u32 (ph_filesz ph)) in
          if r <? 0 then bad sz1 else continue sz1
  else mret (inr (true, sz)).

(** The argument strings, pushed one below the other: the stack pointer and
    ustack[], or [None] for a jump to [bad]. *)
Fixpoint push_args (pt sz stackbase : Z) (argv : list (list Z)) (sp : Z) (ustack : list Z) : M (kst E) (option (Z * list Z)) :=
  match argv with
  | [] => if Nat.ltb (length ustack) MAXARG then mret (Some (sp, ustack ++ [0])) else mub
  | s :: argv =>
      let sp := u64 (sp - (Z.of_nat (length s) + 1)) in
      let sp := u64 (sp - sp mod 16) in
      if sp <? stackbase then mret None
      else
        let* r := lift_env (env_copyout pt sz sp (s ++ [0])) in
        if r <? 0 then mret None
        else if Nat.ltb (length ustack) MAXARG then push_args pt sz stackbase argv sp (ustack ++ [sp])
        else mub
  end.

(** The label [bad]. *)
Definition exec_bad (pt sz ip : Z) : M (kst E) Z :=
  (if pt =? 0 then mret tt else proc_freepagetable pt sz) ;;;
  (if ip =? 0 then mret tt
   else
     lift_env (env_iunlockput ip) ;;;
     lift_env env_end_op) ;;;
  mret (-1).

Definition modify_tf (i : nat) (f : trapframe -> trapframe) : M (kst E) unit :=
  let* p := read_proc i in
  fun k => match tframes k !! trapframe_ptr p with
           | Some t => Ok (tt, k <| tframes ::= <[trapframe_ptr p := f t]> |>)
           | None => UB
           end.

(** Commit to the user image. *)
Definition exec_commit (me : nat) (pt sz sp oldsz : Z) (elf : elfhdr) (path : list Z) : M (kst E) unit :=
  modify_tf me (fun t => t <| tf_a1 := sp |>) ;;;
  modify_proc me (fun p => p <| name ::= fun dst => safestrcpy_arr dst (last_elem path path ++ [0]) 16 |>) ;;;
  let* p := read_proc me in
  let oldpagetable := pagetable p in
  modify_proc me (fun p => p <| pagetable := pt |>) ;;;
  modify_proc me (fun p => p <| KState.sz := sz |>) ;;;
  modify_tf me (fun t => t <| epc := entry elf |>) ;;;
  modify_tf me (fun t => t <| tf_sp := sp |>) ;;;
  proc_freepagetable oldpagetable oldsz.

(** From the stack pages on. *)
Definition exec_stack (pt sz : Z) (elf : elfhdr) (path : list Z) (argv : list (list Z)) : M (kst E) Z :=
  let* me := curproc in
  let* p := read_proc me in
  let oldsz := KState.sz p in
  let sz := PGROUNDUP sz in
  let* sz1 := lift_env (env_uvmalloc pt sz (u64 (sz + (USERSTACK + 1) * PGSIZE)) PTE_W) in
  if sz1 =? 0 then exec_bad pt sz 0
  else
    let sz := sz1 in
    lift_env (env_uvmclear pt (u64 (sz - (USERSTACK + 1) * PGSIZE))) ;;;
    let stackbase := u64 (sz - USERSTACK * PGSIZE) in
    let* r := push_args pt sz stackbase argv sz [] in
    match r with
    | None => exec_bad pt sz 0
    | Some (sp, ustack) =>
        let argc := Z.of_nat (length argv) in
        let sp := u64 (sp - (argc + 1) * 8) in
        let sp := u64 (sp - sp mod 16) in
        if sp <? stackbase then exec_bad pt sz 0
        else
          let* r := lift_env (env_copyout pt sz sp (concat (map u64_bytes ustack))) in
          if r <? 0 then exec_bad pt sz 0
          else
            exec_commit me pt sz sp oldsz elf path ;;;
            mret (i32 argc)
    end.

(** From the locked inode on. *)
Definition kexec_open (path : list Z) (argv : list (list Z)) (me : nat) (ip : Z) : M (kst E) Z :=
  let* r := lift_env (env_readi ip 0 elfhdr_size) in
  if negb (u64 (fst r) =? elfhdr_size) then exec_bad 0 0 ip
  else
    let elf := get_elfhdr (snd r) in
    if negb (magic elf =? ELF_MAGIC) then exec_bad 0 0 ip
    else
      let* pt := proc_pagetable me in
      if pt =? 0 then exec_bad 0 0 ip
      else
        let* r := mloop (S (Z.to_nat (phnum elf))) (load_turn pt ip (phnum elf)) (0, i32 (phoff elf), 0) in
        if negb (fst r) then exec_bad pt (snd r) ip
        else
          lift_env (env_iunlockput ip) ;;;
          lift_env env_end_op ;;;
          exec_stack pt (snd r) elf path argv.

Definition kexec (path : list Z) (argv : list (list Z)) : M (kst E) Z :=
  let* me := curproc in
  lift_env env_begin_op ;;;
  let* ip := lift_env (env_namei path) in
  if ip =? 0 then
    lift_env env_end_op ;;;
    mret (-1)
  else
    lift_env (env_ilock ip) ;;;
    kexec_open path argv me ip.

(** ** sys_exec *)
Definition kfetchaddr (addr : Z) : M (tst E) (option Z) :=
  let* me := lift_k curproc in
  let* p := lift_k (read_proc me) in
  if (KState.sz p <=? addr) || (KState.sz p <? u64 (addr + 8)) then mret None
  else
    let* r := lift_k (lift_env (env_copyin (pagetable p) (KState.sz p) addr 8)) in
    if negb (fst r =? 0) then mret None else mret (Some (le_val (snd r))).
Definition kfetchstr (addr max : Z) : M (tst E) (option (list Z)) :=
  let* me := lift_k curproc in
  let* p := lift_k (read_proc me) in
  let* r := lift_k (lift_env (env_copyinstr (pagetable p) (KState.sz p) addr max)) in
  if fst r <? 0 then mret None else mret (Some (snd r)).

(** One turn of the loop that fetches the arguments: the pages allocated so
    far with their strings, or the end of the loop and whether it is [bad]. *)
Definition arg_turn (uargv : Z) (argv : list (Z * list Z)) : M (tst E) (list (Z * list Z) + bool * list (Z * list Z)) :=
  if Nat.leb MAXARG (length argv) then mret (inr (false, argv))
  else
    let* uarg := kfetchaddr (u64 (uargv + 8 * Z.of_nat (length argv))) in
    match uarg with
    | None => mret (inr (false, argv))
    | Some uarg =>
        if uarg =? 0 then mret (inr (true, argv))
        else
          let* pg := lift_k (lift_env env_kalloc) in
          if pg =? 0 then mret (inr (false, argv))
          else
            let* s := kfetchstr uarg PGSIZE in
            match s with
            | None => mret (inr (false, argv ++ [(pg, [])]))
            | Some s => mret (inl (argv ++ [(pg, s)]))
            end
    end.

Definition sys_exec : M (tst E) Z :=
  let* uargv := karg 1 in
  let* addr := karg 0 in
  let* path := kfetchstr addr MAXPATH in
  match path with
  | None => mret (u64 (-1))
  | Some path =>
      let* r := mloop (S MAXARG) (arg_turn uargv) [] in
      let* ret := (if fst r then lift_k (kexec path (map snd (snd r))) else mret (-1)) in
      for_each (map fst (snd r)) (fun pg => lift_k (lift_env (env_kfree pg))) ;;;
      mret (u64 ret)
  end.

(** ** forkret: the first thing a new process executes; the result is the
    page table handed to the trampoline. *)
Definition forkret {TE : TrapEnv E} : M (tst E) Z :=
  let* me := lift_k curproc in
  lift_k (release_proc me) ;;;
  let* first := mreads (fun s => env_first (env (tk s))) in
  (if negb (first =? 0) then
     lift_k (lift_env env_fsinit) ;;;
     mmodify (fun s => s <| tk ::= fun k => k <| env ::= env_set_first 0 |> |>) ;;;
     let init := [47; 105; 110; 105; 116] in
     let* r := lift_k (kexec init [init]) in
     upd_tf me (fun t => t <| tf_a0 := u64 r |>) ;;;
     if u64 r =? u64 (-1) then mpanic "exec" else mret tt
   else mret tt) ;;;
  prepare_return ;;;
  let* p := lift_k (read_proc me) in
  mret (MAKE_SATP (pagetable p)).
End Exec.
