(* ===== verification/ExecSpec.v ===== *)
(** * exec: what it loads, and what it leaves behind when it fails

    The layers below kexec() are seen through [world]: open transactions,
    references and locks on inodes, the pages handed out, and the user address
    spaces with their contents.  [ExecLaws] says what each routine does to it.
    kexec() replaces the address space of the process or leaves the world as
    it was. *)
From stdpp Require Import base list strings gmap.
From Stdlib Require Import ZArith Lia.
From S2P Require Import Prelude Spinlock KState Sched CString Riscv Kalloc FsState Bytes Proc ProcTable ProcSleep Trap TrapSpec Exec.

(** ** User memory: bytes by virtual address *)
Fixpoint put (va : Z) (l : list Z) (m : gmap Z Z) : gmap Z Z :=
  match l with
  | [] => m
  | b :: l => <[va := b]> (put (va + 1) l m)
  end.
Definition zeros (lo hi : Z) (m : gmap Z Z) : gmap Z Z := put lo (replicate (Z.to_nat (hi - lo)) 0) m.
Definition cut (lo hi : Z) (m : gmap Z Z) : gmap Z Z := filter (fun e => ~ (lo <= e.1 < hi)) m.

Lemma put_lookup l : forall va m a, put va l m !! a = if decide (va <= a < va + Z.of_nat (length l)) then l !! Z.to_nat (a - va) else m !! a.
Proof.
  induction l as [|b l IH]; intros va m a; simpl; [by rewrite decide_False by lia|].
  destruct (decide (va = a)) as [<-|Hne].
  - rewrite lookup_insert_eq, decide_True, Z.sub_diag by lia. done.
  - rewrite lookup_insert_ne, IH by done. destruct (decide (va + 1 <= a < va + 1 + Z.of_nat (length l))).
    + rewrite decide_True by lia. replace (Z.to_nat (a - va)) with (S (Z.to_nat (a - (va + 1)))) by lia. done.
    + by rewrite decide_False by lia.
Qed.
Lemma put_app l1 : forall va l2 m, put va (l1 ++ l2) m = put (va + Z.of_nat (length l1)) l2 (put va l1 m).
Proof.
  intros va l2 m. apply map_eq. intros a. rewrite !put_lookup, length_app. repeat case_decide; try lia; try done.
  - by rewrite lookup_app_r by lia; f_equal; lia.
  - by rewrite lookup_app_l by lia.
Qed.
Lemma put_dom va l m a : is_Some (m !! a) -> is_Some (put va l m !! a).
Proof. intros H. rewrite put_lookup. case_decide; [|done]. apply lookup_lt_is_Some_2. lia. Qed.
Lemma put_in va l m a : va <= a < va + Z.of_nat (length l) -> is_Some (put va l m !! a).
Proof. intros H. rewrite put_lookup, decide_True by done. apply lookup_lt_is_Some_2. lia. Qed.
Lemma zeros_dom lo hi m a : lo <= a < hi -> is_Some (zeros lo hi m !! a).
Proof. intros H. apply put_in. rewrite length_replicate. lia. Qed.
Lemma cut_lookup lo hi m a : ~ (lo <= a < hi) -> cut lo hi m !! a = m !! a.
Proof.
  intros H. unfold cut. destruct (m !! a) as [b|] eqn:Hm.
  - by apply map_lookup_filter_Some.
  - apply map_lookup_filter_None. by left.
Qed.
Lemma cut_none lo hi m a : lo <= a < hi -> cut lo hi m !! a = None.
Proof. intros H. apply map_lookup_filter_None. right. intros x _ Hx. by apply Hx. Qed.

(** The bytes [l] at [a]. *)
Definition holds (m : gmap Z Z) (a : Z) (l : list Z) : Prop := forall i b, l !! i = Some b -> m !! (a + Z.of_nat i) = Some b.
Lemma holds_put m a l : holds (put a l m) a l.
Proof.
  intros i b Hi. pose proof (lookup_lt_Some _ _ _ Hi). rewrite put_lookup, decide_True by lia. rewrite <- Hi. f_equal. lia.
Qed.
Lemma holds_agree m m' a l : (forall x, a <= x < a + Z.of_nat (length l) -> m' !! x = m !! x) -> holds m a l -> holds m' a l.
Proof. intros Hag Hh i b Hi. pose proof (lookup_lt_Some _ _ _ Hi). rewrite Hag by lia. by apply Hh. Qed.

Lemma slice_more off i n f : 0 <= off -> 0 <= i -> 0 <= n -> slice off (i + n) f = slice off i f ++ slice (off + i) n f.
Proof.
  intros. unfold slice. rewrite !Z2Nat.inj_add by lia. rewrite <- drop_drop. by rewrite take_take_drop.
Qed.

(** ** The world below *)
Record space : Type := mkSpace { sp_size : Z; sp_mem : gmap Z Z; sp_special : gset Z }.
#[global] Instance eta_space : Eta space := fun x => mkSpace (sp_size x) (sp_mem x) (sp_special x).
Record world : Type := mkWorld {
  w_ops : Z; w_refs : list Z; w_locked : list Z; w_files : gmap Z (list Z); w_spaces : gmap Z space; w_pages : gset Z
}.
#[global] Instance eta_world : Eta world := fun w => mkWorld (w_ops w) (w_refs w) (w_locked w) (w_files w) (w_spaces w) (w_pages w).
(** The user memory a machine can back with pages. *)
Definition MEMMAX : Z := PHYSTOP - KERNBASE.
Definition set_mem (pt : Z) (sp : space) (m : gmap Z Z) (w : world) : world := w <| w_spaces ::= <[pt := sp <| sp_mem := m |>]> |>.

Class ExecLaws {E} (PE : ProcEnv E) (EE : ExecEnv E) : Type := {
  world_of : E -> world;
  frame : E -> Z -> Z -> Z -> Prop;
  law_begin_op e : exists e' fs, env_begin_op e = Ok (tt, e') /\ world_of e' = (world_of e) <| w_ops ::= Z.succ |> <| w_files := fs |>;
  law_end_op e : exists e' fs, env_end_op e = Ok (tt, e') /\ world_of e' = (world_of e) <| w_ops ::= Z.pred |> <| w_files := fs |>;
  law_namei path e : exists ip e', env_namei path e = Ok (ip, e') /\
    ((ip = 0 /\ world_of e' = world_of e) \/ (ip <> 0 /\ world_of e' = (world_of e) <| w_refs ::= cons ip |>));
  law_ilock ip e : ip ∈ w_refs (world_of e) -> exists e' f, env_ilock ip e = Ok (tt, e') /\
    Z.of_nat (length f) <= MAXFILE * BSIZE /\ Forall (fun b => 0 <= b < 256) f /\ world_of e' = (world_of e) <| w_locked ::= cons ip |> <| w_files ::= <[ip := f]> |>;
  law_iunlockput ip refs lk e : w_refs (world_of e) = ip :: refs -> w_locked (world_of e) = ip :: lk ->
    exists e' fs, env_iunlockput ip e = Ok (tt, e') /\ world_of e' = (world_of e) <| w_refs := refs |> <| w_locked := lk |> <| w_files := fs |>;
  law_readi ip off n f e : ip ∈ w_locked (world_of e) -> w_files (world_of e) !! ip = Some f -> 0 <= off < 2 ^ 32 -> 0 <= n < 2 ^ 31 ->
    exists r bs e', env_readi ip off n e = Ok ((r, bs), e') /\ world_of e' = world_of e /\ -1 <= r <= n /\
      (r = n -> off + n <= Z.of_nat (length f) /\ bs = slice off n f);
  law_readi_to ip pa off n f pt sp va e : ip ∈ w_locked (world_of e) -> w_files (world_of e) !! ip = Some f -> 0 <= off < 2 ^ 32 -> 0 <= n <= PGSIZE ->
    w_spaces (world_of e) !! pt = Some sp -> frame e pt va pa ->
    exists r e', env_readi_to ip pa off n e = Ok (r, e') /\ -1 <= r <= n /\
      ((r = n /\ off + n <= Z.of_nat (length f) /\ world_of e' = set_mem pt sp (put va (slice off n f) (sp_mem sp)) (world_of e)) \/
       (r <> n /\ exists m, world_of e' = set_mem pt sp m (world_of e)));
  law_walkaddr pt va sp e : w_spaces (world_of e) !! pt = Some sp -> va mod PGSIZE = 0 -> is_Some (sp_mem sp !! va) ->
    exists pa e', env_walkaddr pt va e = Ok (pa, e') /\ pa <> 0 /\ frame e' pt va pa /\ world_of e' = world_of e;
  law_uvmcreate e : exists pt e', env_uvmcreate e = Ok (pt, e') /\
    ((pt = 0 /\ world_of e' = world_of e) \/
     (pt <> 0 /\ w_spaces (world_of e) !! pt = None /\ world_of e' = (world_of e) <| w_spaces ::= <[pt := mkSpace 0 ∅ ∅]> |>));
  law_mappages pt va pa perm sp e : w_spaces (world_of e) !! pt = Some sp -> va ∉ sp_special sp -> va = TRAMPOLINE \/ va = TRAPFRAME ->
    exists r e', env_mappages pt va PGSIZE pa perm e = Ok (r, e') /\
      ((r = -1 /\ world_of e' = world_of e) \/
       (r = 0 /\ world_of e' = (world_of e) <| w_spaces ::= <[pt := sp <| sp_special ::= union {[va]} |>]> |>));
  law_uvmunmap pt va sp e : w_spaces (world_of e) !! pt = Some sp -> va ∈ sp_special sp ->
    exists e', env_uvmunmap pt va 1 0 e = Ok (tt, e') /\
      world_of e' = (world_of e) <| w_spaces ::= <[pt := sp <| sp_special ::= fun x => x ∖ {[va]} |>]> |>;
  law_uvmfree pt size sp e : w_spaces (world_of e) !! pt = Some sp -> sp_special sp = ∅ -> PGROUNDUP (sp_size sp) = PGROUNDUP size ->
    exists e', env_uvmfree pt size e = Ok (tt, e') /\ world_of e' = (world_of e) <| w_spaces ::= delete pt |>;
  law_uvmalloc_space pt old new perm sp e : w_spaces (world_of e) !! pt = Some sp -> PGROUNDUP (sp_size sp) = PGROUNDUP old ->
    0 <= old <= MEMMAX -> 0 <= new < 2 ^ 64 ->
    exists r e', env_uvmalloc pt old new perm e = Ok (r, e') /\
      ((new < old /\ r = old /\ world_of e' = world_of e) \/
       (old <= new /\ r = 0 /\ world_of e' = world_of e) \/
       (old <= new <= MEMMAX /\ r = new /\ world_of e' =
          (world_of e) <| w_spaces ::= <[pt := sp <| sp_size := new |> <| sp_mem ::= zeros (PGROUNDUP old) (PGROUNDUP new) |>]> |>));
  law_uvmclear pt va sp e : w_spaces (world_of e) !! pt = Some sp -> va mod PGSIZE = 0 -> is_Some (sp_mem sp !! va) ->
    exists e', env_uvmclear pt va e = Ok (tt, e') /\ world_of e' = set_mem pt sp (cut va (va + PGSIZE) (sp_mem sp)) (world_of e);
  law_copyout pt va l sp e : w_spaces (world_of e) !! pt = Some sp ->
    exists r e', env_copyout pt (sp_size sp) va l e = Ok (r, e') /\
      ((r = -1 /\ exists m, world_of e' = set_mem pt sp m (world_of e)) \/
       (r = 0 /\ world_of e' = set_mem pt sp (put va l (sp_mem sp)) (world_of e)));
  law_copyin pt size va n sp e : w_spaces (world_of e) !! pt = Some sp ->
    exists r bs e' m, env_copyin pt size va n e = Ok ((r, bs), e') /\ world_of e' = set_mem pt sp m (world_of e);
  law_copyinstr pt size va n sp e : w_spaces (world_of e) !! pt = Some sp ->
    exists r s e' m, env_copyinstr pt size va n e = Ok ((r, s), e') /\ world_of e' = set_mem pt sp m (world_of e) /\
      (0 <= r -> Z.of_nat (length s) < n);
  law_kalloc e : exists pg e', env_kalloc e = Ok (pg, e') /\
    ((pg = 0 /\ world_of e' = world_of e) \/ (pg <> 0 /\ pg ∉ w_pages (world_of e) /\ world_of e' = (world_of e) <| w_pages ::= union {[pg]} |>));
  law_kfree pg e : pg ∈ w_pages (world_of e) ->
    exists e', env_kfree pg e = Ok (tt, e') /\ world_of e' = (world_of e) <| w_pages ::= fun x => x ∖ {[pg]} |>
}.

Section Exec.
Context {E : Type} {PE : ProcEnv E} {EE : ExecEnv E} {XL : ExecLaws PE EE}.
Local Existing Instance quiet.
Implicit Types (k : kst E) (e : E) (w : world) (sp : space) (m : gmap Z Z) (f : list Z).

Lemma lift_env_at {A B} (op : M E A) (K : A -> M (kst E) B) k e a e' : op e = Ok (a, e') ->
  mbind (lift_env op) K (k <| env := e |>) = K a (k <| env := e' |>).
Proof. intros H. unfold mbind, lift_env. simpl. by rewrite H. Qed.

Lemma set_mem_twice pt sp m1 m2 w : set_mem pt (sp <| sp_mem := m1 |>) m2 (set_mem pt sp m1 w) = set_mem pt sp m2 w.
Proof. unfold set_mem. destruct w. simpl. f_equal. by rewrite insert_insert_eq. Qed.
Lemma set_mem_same pt sp w : w_spaces w !! pt = Some sp -> set_mem pt sp (sp_mem sp) w = w.
Proof. intros H. unfold set_mem. destruct w, sp. simpl in *. f_equal. by apply insert_id. Qed.
Lemma set_mem_spaces pt sp m w : w_spaces (set_mem pt sp m w) !! pt = Some (sp <| sp_mem := m |>).
Proof. apply lookup_insert_eq. Qed.

(** loadseg() over pages that are there: the part of the file is in memory, or
    it is too short. *)
Lemma loadseg_ok k e pt sp va ip off n f :
  ip ∈ w_locked (world_of e) -> w_files (world_of e) !! ip = Some f -> Z.of_nat (length f) <= MAXFILE * BSIZE ->
  w_spaces (world_of e) !! pt = Some sp -> va mod PGSIZE = 0 -> 0 <= off < 2 ^ 32 -> 0 <= va -> 0 <= n -> va + n <= MEMMAX ->
  (forall a, va <= a < va + n -> is_Some (sp_mem sp !! a)) ->
  exists r e', loadseg pt va ip off n (k <| env := e |>) = Ok (r, k <| env := e' |>) /\
    ((r = -1 /\ exists m, world_of e' = set_mem pt sp m (world_of e)) \/
     (r = 0 /\ world_of e' = set_mem pt sp (put va (slice off n f) (sp_mem sp)) (world_of e))).
Proof.
  intros Hip Hf Hlen Hsp Hva Hoff Hva0 Hn Hmax Hdom. unfold loadseg.
  assert (MEMMAX = 134217728) as Hmm by done. assert (MAXFILE * BSIZE = 274432) as Hmf by done. assert (PGSIZE = 4096) as Hpg by done.
  match goal with |- context [mloop _ ?b 0] => set (body := b) end.
  assert (forall fuel i e1, 0 <= i -> i mod PGSIZE = 0 -> i < n + PGSIZE -> (n <= i \/ (n - i) / PGSIZE + 1 < Z.of_nat fuel) -> (0 < fuel)%nat ->
    (i = 0 \/ off + Z.min i n <= Z.of_nat (length f)) ->
    world_of e1 = set_mem pt sp (put va (slice off (Z.min i n) f) (sp_mem sp)) (world_of e) ->
    exists r e', mloop fuel body i (k <| env := e1 |>) = Ok (r, k <| env := e' |>) /\
    ((r = -1 /\ exists m, world_of e' = set_mem pt sp m (world_of e)) \/
     (r = 0 /\ world_of e' = set_mem pt sp (put va (slice off n f) (sp_mem sp)) (world_of e)))) as Hloop.
  2: { apply Hloop; [lia|done|lia| |lia|by left|]. 
       - right. rewrite Z.sub_0_r. pose proof (Z.div_pos n PGSIZE Hn ltac:(lia)). lia.
       - rewrite Z.min_l by lia. change (slice off 0 f) with (@nil Z). simpl. by rewrite set_mem_same. }
  induction fuel as [|fuel IH]; intros i e1 Hi Himod Hin Hfuel Hpos Hread Hw; [lia|].
  destruct (Z.ltb_spec i n) as [Hlt|Hge].
  2: { exists 0, e1. split; [apply mloop_stop; unfold body; by rewrite (proj2 (Z.ltb_ge i n))|]. right. split; [done|]. by rewrite Hw, Z.min_r. }
  rewrite Z.min_l in Hw, Hread by lia.
  assert (w_spaces (world_of e1) !! pt = Some (sp <| sp_mem := put va (slice off i f) (sp_mem sp) |>)) as Hsp1 by (rewrite Hw; apply set_mem_spaces).
  destruct (law_walkaddr pt (va + i) _ e1 Hsp1) as (pa & e2 & H2 & Hpa & Hfr & Hw2).
  { rewrite Z.add_mod, Hva, Himod by lia. done. }
  { apply put_dom, Hdom. lia. }
  set (c := if u32 (n - i) <? PGSIZE then u32 (n - i) else PGSIZE).
  assert (c = Z.min (n - i) PGSIZE) as Hc by (unfold c; rewrite u32_small by lia; destruct (Z.ltb_spec (n - i) PGSIZE); lia).
  assert (off + i < 2 ^ 32) as Hoi by (destruct Hread; lia).
  destruct (law_readi_to ip pa (off + i) c f pt (sp <| sp_mem := put va (slice off i f) (sp_mem sp) |>) (va + i) e2) as (r & e3 & H3 & Hr & Hres); [by rewrite Hw2, Hw|by rewrite Hw2, Hw|lia|lia|by rewrite Hw2|done|].
  assert (body i (k <| env := e1 |>) = if negb (u32 r =? c) then Ok (inr (-1), k <| env := e3 |>) else Ok (inl (u32 (i + PGSIZE)), k <| env := e3 |>)) as Hbody.
  { unfold body. rewrite (proj2 (Z.ltb_lt i n) Hlt), (u64_small (va + i)) by lia. rewrite (lift_env_at _ _ _ _ _ _ H2).
    rewrite (proj2 (Z.eqb_neq pa 0) Hpa), (u32_small (off + i)) by lia. fold c. rewrite (lift_env_at _ _ _ _ _ _ H3). by destruct (negb _). }
  destruct Hres as [(-> & Hle & Hw3)|(Hrne & m & Hw3)].
  - rewrite (u32_small c), Z.eqb_refl in Hbody by lia. rewrite (mloop_next _ _ _ _ _ _ Hbody). rewrite (u32_small (i + PGSIZE)) by lia.
    apply IH; [lia| |lia| | | |].
    + rewrite Z.add_mod, Himod by lia. done.
    + destruct Hfuel as [?|Hfuel]; [lia|]. destruct (Z.le_gt_cases n (i + PGSIZE)); [by left|right].
      replace (n - i) with (n - (i + PGSIZE) + 1 * PGSIZE) in Hfuel by lia. rewrite Z.div_add in Hfuel by lia. lia.
    + destruct Hfuel as [?|Hfuel]; [lia|]. pose proof (Z.div_pos (n - i) PGSIZE ltac:(lia) ltac:(lia)). lia.
    + right. lia.
    + rewrite Hw3, Hw2, Hw, set_mem_twice. f_equal. simpl.
      replace (Z.min (i + PGSIZE) n) with (i + c) by lia. rewrite slice_more, put_app by lia. f_equal.
      destruct Hread as [->|Hread]; [done|]. by rewrite length_slice by lia.
  - assert (negb (u32 r =? c) = true) as Hneg.
    { apply negb_true_iff, Z.eqb_neq. destruct (Z.eq_dec r (-1)) as [->|]; [change (u32 (-1)) with 4294967295; lia|rewrite u32_small by lia; done]. }
    rewrite Hneg in Hbody. exists (-1), e3. split; [by apply mloop_stop|]. left. split; [done|]. exists m. rewrite Hw3, Hw2, Hw. apply set_mem_twice.
Qed.

(** ** Page tables with the trampoline and the trap frame mapped *)
Definition special2 : gset Z := {[TRAPFRAME]} ∪ ({[TRAMPOLINE]} ∪ ∅).
Lemma special2_cut : (special2 ∖ {[TRAMPOLINE]}) ∖ {[TRAPFRAME]} = ∅.
Proof. unfold special2. set_solver. Qed.
Lemma tramp_frame : TRAMPOLINE <> TRAPFRAME.
Proof. done. Qed.

Lemma world_spaces_twice w g h : w <| w_spaces ::= g |> <| w_spaces ::= h |> = w <| w_spaces ::= fun x => h (g x) |>.
Proof. done. Qed.

Lemma freepagetable_ok k e pt sp size :
  w_spaces (world_of e) !! pt = Some sp -> sp_special sp = special2 -> PGROUNDUP (sp_size sp) = PGROUNDUP size ->
  exists e', proc_freepagetable pt size (k <| env := e |>) = Ok (tt, k <| env := e' |>) /\ world_of e' = (world_of e) <| w_spaces ::= delete pt |>.
Proof.
  intros Hsp Hs Hsize. unfold proc_freepagetable.
  destruct (law_uvmunmap pt TRAMPOLINE sp e Hsp) as (e1 & H1 & W1); [rewrite Hs; unfold special2; set_solver|]. rewrite (lift_env_at _ _ _ _ _ _ H1).
  destruct (law_uvmunmap pt TRAPFRAME (sp <| sp_special ::= fun x => x ∖ {[TRAMPOLINE]} |>) e1) as (e2 & H2 & W2).
  { rewrite W1. apply lookup_insert_eq. }
  { simpl. rewrite Hs. unfold special2. pose proof tramp_frame. set_solver. }
  rewrite (lift_env_at _ _ _ _ _ _ H2).
  destruct (law_uvmfree pt size (sp <| sp_special := ∅ |>) e2) as (e3 & H3 & W3); [| done|done|].
  { rewrite W2. simpl. rewrite lookup_insert_eq. f_equal. destruct sp. simpl in *. f_equal. subst. apply special2_cut. }
  exists e3. split; [unfold lift_env; simpl; by rewrite H3|]. rewrite W3, W2, W1. destruct (world_of e). simpl. f_equal.
  by rewrite insert_insert_eq, delete_insert_eq.
Qed.

Lemma proc_pagetable_ok k e me p : procs k !! me = Some p ->
  exists pt e', proc_pagetable me (k <| env := e |>) = Ok (pt, k <| env := e' |>) /\
    ((pt = 0 /\ world_of e' = world_of e) \/
     (pt <> 0 /\ w_spaces (world_of e) !! pt = None /\ world_of e' = (world_of e) <| w_spaces ::= <[pt := mkSpace 0 ∅ special2]> |>)).
Proof.
  intros Hp. unfold proc_pagetable. rewrite (mbind_Ok _ _ _ p (k <| env := e |>)) by (unfold read_proc; simpl; by rewrite Hp).
  destruct (law_uvmcreate e) as (pt & e1 & H1 & [[-> W1]|(Hpt & Hn & W1)]); rewrite (lift_env_at _ _ _ _ _ _ H1).
  { exists 0, e1. split; [done|by left]. }
  rewrite (proj2 (Z.eqb_neq pt 0) Hpt).
  assert (w_spaces (world_of e1) !! pt = Some (mkSpace 0 ∅ ∅)) as L1 by (rewrite W1; apply lookup_insert_eq).
  assert (forall e2 sp, world_of e2 = (world_of e) <| w_spaces ::= <[pt := sp]> |> -> sp_special sp = ∅ -> sp_size sp = 0 ->
    exists e3, env_uvmfree pt 0 e2 = Ok (tt, e3) /\ world_of e3 = world_of e) as Hfree.
  { intros e2 sp W2 Hs Hz. destruct (law_uvmfree pt 0 sp e2) as (e3 & H3 & W3); [rewrite W2; apply lookup_insert_eq|done|by rewrite Hz|].
    exists e3. split; [done|]. rewrite W3, W2. destruct (world_of e). simpl in *. f_equal. by apply delete_insert_id. }
  destruct (law_mappages pt TRAMPOLINE trampoline_addr (Z.lor PTE_R PTE_X) _ e1 L1) as (r & e2 & H2 & Hr); [set_solver|by left|].
  rewrite (lift_env_at _ _ _ _ _ _ H2). destruct Hr as [[-> W2]|[-> W2]]; [change (-1 <? 0) with true|change (0 <? 0) with false]; cbv iota.
  { destruct (Hfree e2 _ ltac:(by rewrite W2) eq_refl eq_refl) as (e3 & H3 & W3). rewrite (lift_env_at _ _ _ _ _ _ H3). exists 0, e3. split; [done|by left]. }
  assert (world_of e2 = (world_of e) <| w_spaces ::= <[pt := mkSpace 0 ∅ ({[TRAMPOLINE]} ∪ ∅)]> |>) as W2'.
  { rewrite W2, W1. destruct (world_of e). simpl. f_equal. by rewrite insert_insert_eq. }
  assert (w_spaces (world_of e2) !! pt = Some (mkSpace 0 ∅ ({[TRAMPOLINE]} ∪ ∅))) as L2 by (rewrite W2'; apply lookup_insert_eq).
  destruct (law_mappages pt TRAPFRAME (trapframe_ptr p) (Z.lor PTE_R PTE_W) _ e2 L2) as (r & e3 & H3 & Hr); [simpl; pose proof tramp_frame; set_solver|by right|].
  rewrite (lift_env_at _ _ _ _ _ _ H3). destruct Hr as [[-> W3]|[-> W3]]; [change (-1 <? 0) with true|change (0 <? 0) with false]; cbv iota.
  - destruct (law_uvmunmap pt TRAMPOLINE _ e3 ltac:(by rewrite W3)) as (e4 & H4 & W4); [simpl; set_solver|]. rewrite (lift_env_at _ _ _ _ _ _ H4).
    destruct (Hfree e4 (mkSpace 0 ∅ (({[TRAMPOLINE]} ∪ ∅) ∖ {[TRAMPOLINE]}))) as (e5 & H5 & W5); [|simpl; set_solver|done|].
    { rewrite W4, W3, W2'. destruct (world_of e). simpl. f_equal. by rewrite insert_insert_eq. }
    rewrite (lift_env_at _ _ _ _ _ _ H5). exists 0, e5. split; [done|by left].
  - exists pt, e3. split; [done|]. right. split; [done|]. split; [done|]. rewrite W3, W2'. destruct (world_of e). simpl. f_equal. by rewrite insert_insert_eq.
Qed.

(** The label [bad] with an open inode and a new page table. *)
Definition unchanged w w' : Prop :=
  w_ops w' = w_ops w /\ w_refs w' = w_refs w /\ w_locked w' = w_locked w /\ w_spaces w' = w_spaces w /\ w_pages w' = w_pages w.
Lemma exec_bad_inode k e w ip : ip <> 0 -> world_of e = w <| w_ops ::= Z.succ |> <| w_refs ::= cons ip |> <| w_locked ::= cons ip |> ->
  exists e', exec_bad 0 0 ip (k <| env := e |>) = Ok (-1, k <| env := e' |>) /\ unchanged w (world_of e').
Proof.
  intros Hip Hw. unfold exec_bad. change (0 =? 0) with true. cbv iota. rewrite mbind_ret, (proj2 (Z.eqb_neq ip 0) Hip), mbind_assoc.
  destruct (law_iunlockput ip (w_refs w) (w_locked w) e) as (e1 & fs & H1 & W1); [by rewrite Hw..|]. rewrite (lift_env_at _ _ _ _ _ _ H1).
  destruct (law_end_op e1) as (e2 & fs2 & H2 & W2). rewrite (lift_env_at _ _ _ _ _ _ H2). exists e2. split; [done|].
  rewrite W2, W1, Hw. unfold unchanged. simpl. split; [apply Z.pred_succ|done].
Qed.

(** ** The image of a program file *)
Definition headers f (off : Z) (n : nat) : list proghdr := (fun j => get_proghdr (slice (off + proghdr_size * Z.of_nat j) proghdr_size f)) <$> seq 0 n.
Definition load_seg f (a : Z * gmap Z Z) (ph : proghdr) : Z * gmap Z Z :=
  if ph_type ph =? ELF_PROG_LOAD then
    (Z.max (fst a) (ph_vaddr ph + ph_memsz ph),
     put (ph_vaddr ph) (slice (u32 (ph_off ph)) (u32 (ph_filesz ph)) f) (zeros (PGROUNDUP (fst a)) (PGROUNDUP (ph_vaddr ph + ph_memsz ph)) (snd a)))
  else a.
Definition load_image f (phs : list proghdr) : Z * gmap Z Z := foldl (load_seg f) (0, ∅) phs.

Lemma le_val_range l : Forall (fun b => 0 <= b < 256) l -> 0 <= le_val l < 256 ^ Z.of_nat (length l).
Proof.
  induction 1 as [|b l Hb _ IH]; simpl; [lia|]. rewrite Nat2Z.inj_succ, Z.pow_succ_r by lia. lia.
Qed.
Lemma field_range n off d : Forall (fun b => 0 <= b < 256) d -> 0 <= n -> 0 <= field n off d < 256 ^ n.
Proof.
  intros Hd Hn. unfold field. pose proof (le_val_range (slice off n d)) as H. destruct H as [H1 H2].
  { unfold slice. by apply Forall_take, Forall_drop. }
  split; [done|]. eapply Z.lt_le_trans; [exact H2|]. apply Z.pow_le_mono_r; [lia|]. unfold slice. rewrite length_take. lia.
Qed.
Lemma slice_bytes off n f : Forall (fun b => 0 <= b < 256) f -> Forall (fun b => 0 <= b < 256) (slice off n f).
Proof. intros H. by apply Forall_take, Forall_drop. Qed.

Lemma PGROUNDUP_mono a b : 0 <= a <= b -> b <= MEMMAX -> PGROUNDUP a <= PGROUNDUP b.
Proof.
  intros Ha Hb. assert (MEMMAX = 134217728) by done. rewrite !PGROUNDUP_spec by (unfold PGSIZE; lia). unfold PGSIZE. apply Z.mul_le_mono_nonneg_r; [lia|].
  apply Z.div_le_mono; lia.
Qed.

(** What the loop keeps of the new address space. *)
Definition loaded (sz : Z) (m : gmap Z Z) : Prop := 0 <= sz <= MEMMAX /\ forall a, 0 <= a < PGROUNDUP sz -> is_Some (m !! a).
Lemma loaded_zeros sz m new : loaded sz m -> sz <= new <= MEMMAX -> loaded new (zeros (PGROUNDUP sz) (PGROUNDUP new) m).
Proof.
  intros [H1 H2] H. split; [lia|]. intros a Ha. destruct (decide (a < PGROUNDUP sz)); [apply put_dom, H2; lia|apply zeros_dom; lia].
Qed.
Lemma loaded_put sz m va l : loaded sz m -> loaded sz (put va l m).
Proof. intros [H1 H2]. split; [done|]. intros a Ha. by apply put_dom, H2. Qed.
Lemma zeros_empty lo hi m : hi <= lo -> zeros lo hi m = m.
Proof. intros H. unfold zeros. by replace (Z.to_nat (hi - lo)) with 0%nat by lia. Qed.

Definition at_space e w (pt : Z) sp : Prop := world_of e = w <| w_spaces ::= <[pt := sp]> |>.
Lemma at_space_lookup e w pt sp : at_space e w pt sp -> w_spaces (world_of e) !! pt = Some sp.
Proof. intros ->. apply lookup_insert_eq. Qed.
Lemma at_space_set e e' w pt sp sp' : at_space e w pt sp -> world_of e' = (world_of e) <| w_spaces ::= <[pt := sp']> |> -> at_space e' w pt sp'.
Proof. unfold at_space. intros -> ->. destruct w. simpl. f_equal. by rewrite insert_insert_eq. Qed.

Lemma load_turn_ok k e w pt ip f n off0 j sz m :
  ip ∈ w_locked w -> w_files w !! ip = Some f -> Z.of_nat (length f) <= MAXFILE * BSIZE -> Forall (fun b => 0 <= b < 256) f ->
  at_space e w pt (mkSpace sz m special2) -> loaded sz m -> (j < n)%nat -> - 2 ^ 31 <= off0 < 2 ^ 31 ->
  (j = 0%nat \/ (0 <= off0 /\ off0 + proghdr_size * Z.of_nat j <= Z.of_nat (length f))) ->
  let ph := get_proghdr (slice (off0 + proghdr_size * Z.of_nat j) proghdr_size f) in
  exists r e', load_turn pt ip (Z.of_nat n) (Z.of_nat j, off0 + proghdr_size * Z.of_nat j, sz) (k <| env := e |>) = Ok (r, k <| env := e' |>) /\
    ((exists szr sp', r = inr (false, szr) /\ at_space e' w pt sp' /\ sp_special sp' = special2 /\ PGROUNDUP (sp_size sp') = PGROUNDUP szr) \/
     (exists sz' m', r = inl (Z.of_nat (S j), off0 + proghdr_size * Z.of_nat (S j), sz') /\ at_space e' w pt (mkSpace sz' m' special2) /\ loaded sz' m' /\
        load_seg f (sz, m) ph = (sz', m') /\ 0 <= off0 /\ off0 + proghdr_size * Z.of_nat (S j) <= Z.of_nat (length f))).
Proof.
  intros Hip Hf Hlen Hby Hat Hld Hj Hoff0 Hoff ph. pose proof (proj1 Hld) as Hsz.
  assert (MEMMAX = 134217728) as Hmm by done. assert (MAXFILE * BSIZE = 274432) as Hmf by done. assert (PGSIZE = 4096) as Hpg by done. assert (proghdr_size = 56) as Hps by done.
  set (off := off0 + proghdr_size * Z.of_nat j) in *. assert (off = off0 + 56 * Z.of_nat j) as Hoffd by done. unfold load_turn. rewrite (proj2 (Z.ltb_lt (Z.of_nat j) (Z.of_nat n))) by lia.
  destruct (law_readi ip (u32 off) proghdr_size f e) as (r & bs & e1 & H1 & W1 & Hr & Hok); [by rewrite Hat|by rewrite Hat|unfold u32; apply Z.mod_pos_bound; lia|lia|].
  assert (at_space e1 w pt (mkSpace sz m special2)) as Hat1 by (by unfold at_space; rewrite W1).
  rewrite (lift_env_at _ _ _ _ _ _ H1). cbn [fst snd].
  assert (forall (sp' : space) (e' : E) (szr : Z), at_space e' w pt sp' -> sp_special sp' = special2 -> PGROUNDUP (sp_size sp') = PGROUNDUP szr ->
    exists szr0 sp0, @inr (Z * Z * Z) (bool * Z) (false, szr) = inr (false, szr0) /\ at_space e' w pt sp0 /\ sp_special sp0 = special2 /\ PGROUNDUP (sp_size sp0) = PGROUNDUP szr0) as Hbad.
  { intros sp' e' szr A1 A2 A3. by exists szr, sp'. }
  destruct (Z.eqb_spec (u64 r) proghdr_size) as [Hrn|Hrn]; cbn [negb].
  2: { exists (inr (false, sz)), e1. split; [done|]. left. by eapply Hbad. }
  assert (r = proghdr_size) as ->.
  { destruct (Z.eq_dec r (-1)) as [->|]; [by change (u64 (-1)) with 18446744073709551615 in Hrn|rewrite u64_small in Hrn by lia; done]. }
  destruct (Hok eq_refl) as [Hle ->]. clear Hok Hrn Hr.
  assert (0 <= off0 /\ u32 off = off) as [Hoff00 Hu].
  { assert (- 2 ^ 31 <= off < 2 ^ 31) by (destruct Hoff; lia). destruct (Z.le_gt_cases 0 off) as [?|Hneg]; [rewrite u32_small by lia; split; [destruct Hoff; lia|done]|].
    exfalso. unfold u32 in Hle. rewrite <- (Z_mod_plus_full off 1 (2 ^ 32)), Z.mod_small in Hle by lia. lia. }
  rewrite Hu in *. fold ph. pose proof (slice_bytes off proghdr_size f Hby) as Hbs.
  pose proof (field_range 8 16 _ Hbs ltac:(lia)) as Hva. pose proof (field_range 8 40 _ Hbs ltac:(lia)) as Hms. pose proof (field_range 8 32 _ Hbs ltac:(lia)) as Hfs.
  change (field 8 16 _) with (ph_vaddr ph) in Hva. change (field 8 40 _) with (ph_memsz ph) in Hms. change (field 8 32 _) with (ph_filesz ph) in Hfs.
  change (256 ^ 8) with (2 ^ 64) in *.
  assert (forall sz' e' m', at_space e' w pt (mkSpace sz' m' special2) -> loaded sz' m' -> load_seg f (sz, m) ph = (sz', m') ->
    exists r e0, (if off + proghdr_size <? 2 ^ 31 then mret (inl (Z.of_nat j + 1, off + proghdr_size, sz')) else mub) (k <| env := e' |>) = Ok (r, k <| env := e0 |>) /\
    ((exists szr sp', r = inr (false, szr) /\ at_space e0 w pt sp' /\ sp_special sp' = special2 /\ PGROUNDUP (sp_size sp') = PGROUNDUP szr) \/
     (exists sz' m', r = inl (Z.of_nat (S j), off0 + proghdr_size * Z.of_nat (S j), sz') /\ at_space e0 w pt (mkSpace sz' m' special2) /\ loaded sz' m' /\
        load_seg f (sz, m) ph = (sz', m') /\ 0 <= off0 /\ off0 + proghdr_size * Z.of_nat (S j) <= Z.of_nat (length f)))) as Hnext.
  { intros sz' e' m' A1 A2 A3. rewrite (proj2 (Z.ltb_lt (off + proghdr_size) (2 ^ 31))) by lia. eexists _, e'. split; [reflexivity|]. right. exists sz', m'.
    assert (Z.of_nat (S j) = Z.of_nat j + 1) as -> by lia. assert (off0 + proghdr_size * (Z.of_nat j + 1) = off + proghdr_size) as -> by (rewrite Hps; lia). done. }
  destruct (Z.eqb_spec (ph_type ph) ELF_PROG_LOAD) as [Hty|Hty]; cbn [negb].
  2: { apply (Hnext sz e1 m Hat1 Hld). unfold load_seg. by rewrite (proj2 (Z.eqb_neq _ _) Hty). }
  destruct (Z.ltb_spec (ph_memsz ph) (ph_filesz ph)) as [?|Hmf1]; [exists (inr (false, sz)), e1; split; [done|left; by eapply Hbad]|].
  destruct (Z.ltb_spec (u64 (ph_vaddr ph + ph_memsz ph)) (ph_vaddr ph)) as [?|Hov]; [exists (inr (false, sz)), e1; split; [done|left; by eapply Hbad]|].
  destruct (Z.eqb_spec (ph_vaddr ph mod PGSIZE) 0) as [Hal|?]; cbn [negb]; [|exists (inr (false, sz)), e1; split; [done|left; by eapply Hbad]].
  assert (ph_vaddr ph + ph_memsz ph < 2 ^ 64) as Hsum.
  { destruct (Z.lt_ge_cases (ph_vaddr ph + ph_memsz ph) (2 ^ 64)) as [?|Hge]; [done|]. unfold u64 in Hov.
    rewrite <- (Z_mod_plus_full _ (-1) (2 ^ 64)), Z.mod_small in Hov by lia. lia. }
  rewrite (u64_small (ph_vaddr ph + ph_memsz ph)) by lia.
  destruct (law_uvmalloc_space pt sz (ph_vaddr ph + ph_memsz ph) (flags2perm (i32 (ph_flags ph))) (mkSpace sz m special2) e1) as (sz1 & e2 & H2 & Hal2);
    [by apply (at_space_lookup _ w)|done|lia|lia|].
  rewrite (lift_env_at _ _ _ _ _ _ H2).
  destruct (Z.eqb_spec sz1 0) as [Hz|Hnz].
  { exists (inr (false, sz)), e2. split; [done|]. left. destruct Hal2 as [(? & ? & W2)|[(? & ? & W2)|(? & Hs1 & W2)]].
    - apply (Hbad (mkSpace sz m special2)); [by unfold at_space; rewrite W2|done..].
    - apply (Hbad (mkSpace sz m special2)); [by unfold at_space; rewrite W2|done..].
    - eapply Hbad; [by eapply at_space_set|done|]. change (PGROUNDUP (ph_vaddr ph + ph_memsz ph) = PGROUNDUP sz). assert (ph_vaddr ph + ph_memsz ph = sz) as -> by lia. done. }
  set (m1 := zeros (PGROUNDUP sz) (PGROUNDUP (ph_vaddr ph + ph_memsz ph)) m).
  assert (sz1 = Z.max sz (ph_vaddr ph + ph_memsz ph) /\ at_space e2 w pt (mkSpace sz1 m1 special2) /\ loaded sz1 m1) as (Hs1 & Hat2 & Hld1).
  { destruct Hal2 as [(Hlt & -> & W2)|[(? & ? & W2)|(Hge & -> & W2)]]; [|done|].
    - assert (m1 = m) as -> by (apply zeros_empty, PGROUNDUP_mono; lia). split; [lia|]. split; [by unfold at_space; rewrite W2|done].
    - split; [lia|]. split; [by eapply at_space_set|]. by apply loaded_zeros. }
  destruct (loadseg_ok k e2 pt (mkSpace sz1 m1 special2) (ph_vaddr ph) ip (u32 (ph_off ph)) (u32 (ph_filesz ph)) f) as (r & e3 & H3 & Hres).
  - by rewrite Hat2.
  - by rewrite Hat2.
  - lia.
  - by apply (at_space_lookup _ w).
  - done.
  - unfold u32. apply Z.mod_pos_bound. lia.
  - lia.
  - unfold u32. apply Z.mod_pos_bound. lia.
  - assert (u32 (ph_filesz ph) <= ph_filesz ph) by (unfold u32; apply Z.mod_le; lia). pose proof (proj1 Hld1). lia.
  - intros a Ha. apply (proj2 Hld1). assert (u32 (ph_filesz ph) <= ph_filesz ph) by (unfold u32; apply Z.mod_le; lia).
    pose proof (PGROUNDUP_bounds sz1 ltac:(pose proof (proj1 Hld1); lia)). lia.
  - rewrite (mbind_Ok _ _ _ _ _ H3). destruct Hres as [(-> & m2 & W3)|(-> & W3)].
    + change (-1 <? 0) with true. cbv iota. exists (inr (false, sz1)), e3. split; [done|]. left. eapply Hbad; [by eapply at_space_set|done|done].
    + change (0 <? 0) with false. cbv iota. eapply Hnext; [by eapply at_space_set|by apply loaded_put|]. unfold load_seg. rewrite (proj2 (Z.eqb_eq _ _) Hty). simpl. by rewrite Hs1.
Qed.

Lemma headers_S f off n : headers f off (S n) = headers f off n ++ [get_proghdr (slice (off + proghdr_size * Z.of_nat n) proghdr_size f)].
Proof. unfold headers. by rewrite seq_S, fmap_app. Qed.
Lemma load_image_S f off n : load_image f (headers f off (S n)) = load_seg f (load_image f (headers f off n)) (get_proghdr (slice (off + proghdr_size * Z.of_nat n) proghdr_size f)).
Proof. unfold load_image. by rewrite headers_S, foldl_app. Qed.

Lemma load_loop_ok k w pt ip f n off0 :
  ip ∈ w_locked w -> w_files w !! ip = Some f -> Z.of_nat (length f) <= MAXFILE * BSIZE -> Forall (fun b => 0 <= b < 256) f -> - 2 ^ 31 <= off0 < 2 ^ 31 ->
  forall fuel j e sz m, (n < j + fuel)%nat -> (j <= n)%nat -> at_space e w pt (mkSpace sz m special2) -> loaded sz m ->
  load_image f (headers f off0 j) = (sz, m) ->
  (j = 0%nat \/ (0 <= off0 /\ off0 + proghdr_size * Z.of_nat j <= Z.of_nat (length f))) ->
  exists ok szr e' sp, mloop fuel (load_turn pt ip (Z.of_nat n)) (Z.of_nat j, off0 + proghdr_size * Z.of_nat j, sz) (k <| env := e |>) = Ok ((ok, szr), k <| env := e' |>) /\
    at_space e' w pt sp /\ sp_special sp = special2 /\ PGROUNDUP (sp_size sp) = PGROUNDUP szr /\
    (ok = true -> exists m', sp = mkSpace szr m' special2 /\ loaded szr m' /\ load_image f (headers f off0 n) = (szr, m')).
Proof.
  intros Hip Hf Hlen Hby Hoff0. induction fuel as [|fuel IH]; intros j e sz m Hfuel Hj Hat Hld Himg Hoff; [lia|].
  destruct (decide (j = n)) as [->|Hne].
  { exists true, sz, e, (mkSpace sz m special2). split; [|by repeat split; [..|exists m]]. apply mloop_stop. unfold load_turn. by rewrite Z.ltb_irrefl. }
  destruct (load_turn_ok k e w pt ip f n off0 j sz m Hip Hf Hlen Hby Hat Hld ltac:(lia) Hoff0 Hoff) as (r & e' & Ht & [(szr & sp' & -> & A1 & A2 & A3)|(sz' & m' & -> & A1 & A2 & A3 & A4 & A5)]).
  - exists false, szr, e', sp'. split; [by apply mloop_stop|]. done.
  - rewrite (mloop_next _ _ _ _ _ _ Ht). apply (IH (S j) e' sz' m'); [lia|lia|done|done| |by right]. by rewrite load_image_S, Himg.
Qed.

(** ** The stack *)
(** [argv] has been pushed between [lo] and [hi]: string [i] is at [ptrs !! i]. *)
Definition pushed (argv : list (list Z)) (ptrs : list Z) (lo hi : Z) m : Prop :=
  length ptrs = length argv /\ lo <= hi /\
  forall i s p, argv !! i = Some s -> ptrs !! i = Some p -> lo <= p /\ p + Z.of_nat (length s) + 1 <= hi /\ holds m p (s ++ [0]).
Lemma pushed_cons argv ptrs lo mid hi m s : pushed argv ptrs lo mid m -> mid + Z.of_nat (length s) + 1 <= hi -> holds m mid (s ++ [0]) ->
  pushed (s :: argv) (mid :: ptrs) lo hi m.
Proof.
  intros (P1 & P2 & P3) Hhi Hh. split; [simpl; lia|]. split; [lia|]. intros [|i] s' p Hs Hp; simpl in *; [simplify_eq; done|].
  destruct (P3 i s' p Hs Hp) as (Q1 & Q2 & Q3). split; [done|]. split; [lia|done].
Qed.
Lemma pushed_agree argv ptrs lo hi m m' : pushed argv ptrs lo hi m -> (forall a, lo <= a -> m' !! a = m !! a) -> pushed argv ptrs lo hi m'.
Proof.
  intros (P1 & P2 & P3) Hag. split; [done|]. split; [done|]. intros i s p Hs Hp. destruct (P3 i s p Hs Hp) as (Q1 & Q2 & Q3). split; [done|]. split; [done|].
  eapply holds_agree; [|done]. intros x Hx. apply Hag. lia.
Qed.

Lemma push_args_ok k w pt size special base argv : PGSIZE <= base -> size <= MEMMAX + 2 * PGSIZE -> Forall (fun s => Z.of_nat (length s) < PGSIZE) argv ->
  forall e m (sp : Z) ustack, (length ustack + length argv < MAXARG)%nat -> base <= sp <= size -> at_space e w pt (mkSpace size m special) ->
  exists r e', push_args pt size base argv sp ustack (k <| env := e |>) = Ok (r, k <| env := e' |>) /\
    ((r = None /\ exists m', at_space e' w pt (mkSpace size m' special)) \/
     (exists lo ptrs m', r = Some (lo, ustack ++ ptrs ++ [0]) /\ at_space e' w pt (mkSpace size m' special) /\ base <= lo /\ pushed argv ptrs lo sp m' /\
        (forall a, a < lo \/ sp <= a -> m' !! a = m !! a))).
Proof.
  intros Hbase Hsize. assert (PGSIZE = 4096) as Hpg by done. assert (MEMMAX = 134217728) as Hmm by done. induction 1 as [|s argv Hs Hargv IH]; intros e m sp ustack Hn Hsp Hat; cbn [push_args].
  { rewrite (proj2 (Nat.ltb_lt _ _)) by (simpl in Hn; lia). eexists _, e. split; [reflexivity|]. right. exists sp, [], m. split; [done|]. split; [done|]. split; [lia|].
    split; [|done]. split; [done|]. split; [lia|]. intros i s p Hi. by rewrite lookup_nil in Hi. }
  rewrite (u64_small (sp - _)) by lia. set (sp0 := sp - (Z.of_nat (length s) + 1)). pose proof (Z.mod_pos_bound sp0 16 ltac:(lia)) as Hmod.
  assert (0 <= sp0 - sp0 mod 16) by (pose proof (Z.mod_le sp0 16 ltac:(lia) ltac:(lia)); lia). rewrite (u64_small (sp0 - _)) by lia. set (sp1 := sp0 - sp0 mod 16) in *.
  destruct (Z.ltb_spec sp1 base) as [?|Hge].
  { exists None, e. split; [done|]. left. split; [done|by exists m]. }
  destruct (law_copyout pt sp1 (s ++ [0]) _ e (at_space_lookup _ _ _ _ Hat)) as (r & e1 & H1 & Hr). cbn [sp_size] in H1. rewrite (lift_env_at _ _ _ _ _ _ H1).
  destruct Hr as [(-> & m1 & W1)|(-> & W1)].
  { exists None, e1. split; [done|]. left. split; [done|]. exists m1. by eapply at_space_set. }
  change (0 <? 0) with false. cbv iota. rewrite (proj2 (Nat.ltb_lt _ _)) by (simpl in Hn; lia). apply (at_space_set _ _ _ _ _ _ Hat) in W1.
  destruct (IH e1 (put sp1 (s ++ [0]) m) sp1 (ustack ++ [sp1])) as (r & e2 & H2 & Hr); [rewrite length_app; simpl in *; lia|lia|done|].
  exists r, e2. split; [done|]. destruct Hr as [Hr|(lo & ptrs & m' & -> & A1 & A2 & A3 & A4)]; [by left|]. right. exists lo, (sp1 :: ptrs), m'.
  split; [by rewrite <- app_assoc|]. split; [done|]. split; [done|]. assert (lo <= sp1) as Hlo by (by destruct A3 as (_ & ? & _)). split.
  - apply (pushed_cons _ _ _ _ _ _ _ A3); [lia|]. apply (holds_agree (put sp1 (s ++ [0]) m)); [|apply holds_put]. intros x Hx. apply A4. lia.
  - intros a Ha. rewrite A4 by lia. rewrite put_lookup, decide_False; [done|]. rewrite length_app. simpl. lia.
Qed.

(** The label [bad] with a page table, and with or without the inode. *)
Lemma drop_space w pt sp : w_spaces w !! pt = None -> w <| w_spaces ::= <[pt := sp]> |> <| w_spaces ::= delete pt |> = w.
Proof. intros H. destruct w. simpl in *. f_equal. by apply delete_insert_id. Qed.
Lemma exec_bad_space k e w pt sp size : pt <> 0 -> at_space e w pt sp -> w_spaces w !! pt = None -> sp_special sp = special2 -> PGROUNDUP (sp_size sp) = PGROUNDUP size ->
  exists e', exec_bad pt size 0 (k <| env := e |>) = Ok (-1, k <| env := e' |>) /\ world_of e' = w.
Proof.
  intros Hpt Hat Hn Hs Hz. unfold exec_bad. rewrite (proj2 (Z.eqb_neq pt 0) Hpt). change (0 =? 0) with true. cbv iota.
  destruct (freepagetable_ok k e pt sp size (at_space_lookup _ _ _ _ Hat) Hs Hz) as (e1 & H1 & W1). rewrite (mbind_Ok _ _ _ _ _ H1), mbind_ret.
  exists e1. split; [done|]. rewrite W1, Hat. by apply drop_space.
Qed.
Lemma exec_bad_both k e w pt sp size ip : pt <> 0 -> ip <> 0 ->
  at_space e (w <| w_ops ::= Z.succ |> <| w_refs ::= cons ip |> <| w_locked ::= cons ip |>) pt sp -> w_spaces w !! pt = None -> sp_special sp = special2 ->
  PGROUNDUP (sp_size sp) = PGROUNDUP size ->
  exists e', exec_bad pt size ip (k <| env := e |>) = Ok (-1, k <| env := e' |>) /\ unchanged w (world_of e').
Proof.
  intros Hpt Hip Hat Hn Hs Hz. destruct (freepagetable_ok k e pt sp size (at_space_lookup _ _ _ _ Hat) Hs Hz) as (e1 & H1 & W1).
  destruct (exec_bad_inode k e1 w ip Hip) as (e2 & H2 & Hun). { rewrite W1, Hat. by apply drop_space. }
  exists e2. split; [|done]. rewrite <- H2. unfold exec_bad. rewrite (proj2 (Z.eqb_neq pt 0) Hpt), (mbind_Ok _ _ _ _ _ H1). change (0 =? 0) with true. cbv iota. by rewrite mbind_ret.
Qed.

Lemma modify_proc_at i (g : proc -> proc) k p : procs k !! i = Some p -> modify_proc i g k = Ok (tt, k <| procs := <[i := g p]> (procs k) |>).
Proof. intros H. unfold modify_proc. by rewrite H. Qed.
Lemma modify_tf_at i (g : trapframe -> trapframe) k p t : procs k !! i = Some p -> tframes k !! trapframe_ptr p = Some t ->
  modify_tf i g k = Ok (tt, k <| tframes ::= <[trapframe_ptr p := g t]> |>).
Proof. intros Hp Ht. unfold modify_tf, read_proc, mbind. rewrite Hp. simpl. by rewrite Ht. Qed.

(** The user stack of a new program. *)
Definition stack_ok m (size sp : Z) (argv : list (list Z)) : Prop :=
  sp mod 16 = 0 /\ size - USERSTACK * PGSIZE <= sp /\
  (forall a, size - (USERSTACK + 1) * PGSIZE <= a < size - USERSTACK * PGSIZE -> m !! a = None) /\
  exists ptrs lo, pushed argv ptrs lo size m /\ sp + 8 * (Z.of_nat (length argv) + 1) <= lo /\ holds m sp (concat (map u64_bytes (ptrs ++ [0]))).

Lemma length_u64s l : length (concat (map u64_bytes l)) = (8 * length l)%nat.
Proof. induction l as [|x l IH]; [done|]. cbn [map concat]. rewrite length_app, IH. simpl. lia. Qed.

(** The last steps of kexec(): the new image is committed. *)
Definition committed (me : nat) p t k (pt size sp : Z) (elf : elfhdr) (path : list Z) : kst E :=
  k <| procs := <[me := p <| name ::= fun dst => safestrcpy_arr dst (last_elem path path ++ [0]) 16 |> <| pagetable := pt |> <| KState.sz := size |>]> (procs k) |>
    <| tframes := <[trapframe_ptr p := t <| tf_a1 := sp |> <| epc := entry elf |> <| tf_sp := sp |>]> (tframes k) |>.

Lemma exec_commit_ok k e w me p t pt size (sp : Z) m elf path osp :
  procs k !! me = Some p -> tframes k !! trapframe_ptr p = Some t -> at_space e w pt (mkSpace size m special2) -> pt <> pagetable p ->
  w_spaces w !! pagetable p = Some osp -> sp_special osp = special2 -> PGROUNDUP (sp_size osp) = PGROUNDUP (KState.sz p) ->
  exists e', exec_commit me pt size sp (KState.sz p) elf path (k <| env := e |>) = Ok (tt, (committed me p t k pt size sp elf path) <| env := e' |>) /\
    world_of e' = w <| w_spaces ::= fun x => <[pt := mkSpace size m special2]> (delete (pagetable p) x) |>.
Proof.
  intros Hp Ht Hat Hne Hosp Hs Hz. pose proof (lookup_lt_Some _ _ _ Hp) as Hlt.
  destruct (freepagetable_ok (committed me p t k pt size sp elf path) e (pagetable p) osp (KState.sz p)) as (e' & H' & W'); [|done|done|].
  { rewrite Hat. simpl. by rewrite lookup_insert_ne. }
  exists e'. split; [|rewrite W', Hat; destruct w; simpl in *; f_equal; by rewrite delete_insert_ne]. rewrite <- H'.
  unfold exec_commit, modify_tf, modify_proc, read_proc, mbind, obind.
  repeat first [progress simpl | rewrite Hp | rewrite Ht | rewrite list_lookup_insert_eq by (rewrite ?length_insert; done) | rewrite lookup_insert_eq].
  f_equal. unfold committed. simpl. by rewrite !list_insert_insert_eq, !insert_insert_eq.
Qed.

Lemma running_committed me p t k pt size (sp : Z) elf path e : running me k -> procs k !! me = Some p ->
  running me ((committed me p t k pt size sp elf path) <| env := e |>).
Proof.
  intros [[A1 A2 A3 A4 A5 A6] B C D F] Hp. split; [split; try done; simpl; by rewrite length_insert| |done..].
  apply locks_free_insert; [done|]. exact (B me p Hp).
Qed.

Lemma PGROUNDUP_id a : a mod PGSIZE = 0 -> 0 <= a <= 2 ^ 64 - PGSIZE -> PGROUNDUP a = a.
Proof.
  intros Ha Hb. assert (PGSIZE = 4096) as Hpg by done. rewrite PGROUNDUP_spec by done. rewrite (Z.div_mod a PGSIZE) at 1 by lia. rewrite Ha, Z.add_0_r.
  replace (PGSIZE * (a / PGSIZE) + PGSIZE - 1) with (PGSIZE - 1 + a / PGSIZE * PGSIZE) by lia. rewrite Z.div_add, (Z.div_small (PGSIZE - 1)) by lia.
  pose proof (Z.div_mod a PGSIZE ltac:(lia)). lia.
Qed.

(** The array of pointers, below the strings. *)
Lemma stack_pointers k e w pt size m argv ptrs lo : pt <> 0 -> (length argv < MAXARG)%nat -> PGSIZE <= size - PGSIZE -> size <= MEMMAX + 2 * PGSIZE ->
  at_space e w pt (mkSpace size m special2) -> size - PGSIZE <= lo -> pushed argv ptrs lo size m ->
  (forall a, size - 2 * PGSIZE <= a < size - PGSIZE -> m !! a = None) ->
  let sp0 := u64 (lo - (Z.of_nat (length argv) + 1) * 8) in let sp := u64 (sp0 - sp0 mod 16) in
  sp < size - PGSIZE \/
  exists r e', env_copyout pt size sp (concat (map u64_bytes (ptrs ++ [0]))) e = Ok (r, e') /\
    ((r = -1 /\ exists m', at_space e' w pt (mkSpace size m' special2)) \/
     (r = 0 /\ exists m', at_space e' w pt (mkSpace size m' special2) /\ stack_ok m' size sp argv /\ forall a, a < size - PGSIZE -> m' !! a = m !! a)).
Proof.
  intros Hpt Hn Hlo0 Hsize Hat Hlo Hpush Hguard sp0 sp. assert (PGSIZE = 4096) as Hpg by done. assert (MEMMAX = 134217728) as Hmm by done.
  assert (Z.of_nat (length argv) < 32) as Hn' by (unfold MAXARG in Hn; lia). pose proof Hpush as (Hl & Hle & _).
  assert (sp0 = lo - (Z.of_nat (length argv) + 1) * 8) as Hsp0 by (apply u64_small; lia). pose proof (Z.mod_pos_bound sp0 16 ltac:(lia)).
  assert (sp = sp0 - sp0 mod 16) as Hsp by (apply u64_small; pose proof (Z.mod_le sp0 16 ltac:(lia) ltac:(lia)); lia).
  destruct (Z.lt_ge_cases sp (size - PGSIZE)) as [?|Hge]; [by left|right].
  destruct (law_copyout pt sp (concat (map u64_bytes (ptrs ++ [0]))) _ e (at_space_lookup _ _ _ _ Hat)) as (r & e' & H1 & Hr).
  exists r, e'. split; [exact H1|]. assert (Z.of_nat (length (concat (map u64_bytes (ptrs ++ [0])))) = 8 * (Z.of_nat (length argv) + 1)) as Hlen.
  { rewrite length_u64s, length_app, Hl. simpl. lia. }
  destruct Hr as [(-> & m' & W)|(-> & W)]; [left; split; [done|]; exists m'; by eapply at_space_set|]. right. split; [done|].
  eexists. split; [by eapply at_space_set|]. cbn [sp_mem]. split; [|intros a Ha; rewrite put_lookup, decide_False; [done|lia]].
  split; [rewrite Hsp; rewrite Zminus_mod_idemp_r, Z.sub_diag; done|]. unfold USERSTACK. split; [lia|]. split; [intros a Ha; rewrite put_lookup, decide_False by lia; apply Hguard; lia|].
  exists ptrs, lo. split; [|split; [lia|apply holds_put]]. eapply pushed_agree; [done|]. intros a Ha. rewrite put_lookup, decide_False; [done|lia].
Qed.

Lemma exec_stack_ok k e w me p t pt sz m elf path argv osp :
  running me k -> procs k !! me = Some p -> tframes k !! trapframe_ptr p = Some t ->
  pt <> 0 -> w_spaces w !! pt = None -> at_space e w pt (mkSpace sz m special2) -> loaded sz m ->
  w_spaces w !! pagetable p = Some osp -> sp_special osp = special2 -> PGROUNDUP (sp_size osp) = PGROUNDUP (KState.sz p) ->
  (length argv < MAXARG)%nat -> Forall (fun s => Z.of_nat (length s) < PGSIZE) argv ->
  exists r e', let k' := k <| mycpu ::= lockcycle |> in
    (exec_stack pt sz elf path argv (k <| env := e |>) = Ok (-1, k' <| env := e' |>) /\ world_of e' = w /\ r = -1) \/
    (exists (sp : Z) m', let size := PGROUNDUP sz + (USERSTACK + 1) * PGSIZE in
       exec_stack pt sz elf path argv (k <| env := e |>) = Ok (r, (committed me p t k' pt size sp elf path) <| env := e' |>) /\
       r = Z.of_nat (length argv) /\ world_of e' = w <| w_spaces ::= fun x => <[pt := mkSpace size m' special2]> (delete (pagetable p) x) |> /\
       stack_ok m' size sp argv /\ forall a, a < PGROUNDUP sz -> m' !! a = m !! a).
Proof.
  intros Hr Hp Ht Hpt Hfresh Hat Hld Hosp Hs Hz Hn Hargv. assert (PGSIZE = 4096) as Hpg by done. assert (MEMMAX = 134217728) as Hmm by done.
  pose proof (proj1 Hld) as Hsz. destruct (PGROUNDUP_bounds sz ltac:(lia)) as [Hup Hupm]. set (k' := k <| mycpu ::= lockcycle |>).
  assert (curproc (k <| env := e |>) = Ok (me, k' <| env := e |>)) as Hcur by exact (curproc_running me (k <| env := e |>) (running_env me k e Hr)).
  unfold exec_stack. rewrite (mbind_Ok _ _ _ _ _ Hcur). rewrite (mbind_Ok _ _ _ p (k' <| env := e |>)) by (unfold read_proc; simpl; by rewrite Hp). cbv zeta.
  change ((USERSTACK + 1) * PGSIZE) with (2 * PGSIZE). change (USERSTACK * PGSIZE) with PGSIZE. set (base := PGROUNDUP sz) in *.
  assert (PGROUNDUP base = base) as Hbb by (apply PGROUNDUP_id; [done|lia]).
  assert (base <= MEMMAX) as Hbm by (rewrite <- (PGROUNDUP_id MEMMAX) by done; apply PGROUNDUP_mono; lia).
  destruct (law_uvmalloc_space pt base (base + 2 * PGSIZE) PTE_W (mkSpace sz m special2) e) as (sz1 & e1 & H1 & Hal);
    [by apply (at_space_lookup _ w)|by rewrite Hbb|lia|lia|].
  rewrite (u64_small (base + _)) by lia. rewrite (lift_env_at _ _ _ _ _ _ H1).
  assert (forall e2 m2 size, at_space e2 w pt (mkSpace size m2 special2) -> PGROUNDUP size = PGROUNDUP (base + 2 * PGSIZE) ->
    exists e', exec_bad pt (base + 2 * PGSIZE) 0 (k' <| env := e2 |>) = Ok (-1, k' <| env := e' |>) /\ world_of e' = w) as Hbad.
  { intros e2 m2 size Hat2 Hsize. exact (exec_bad_space k' e2 w pt _ (base + 2 * PGSIZE) Hpt Hat2 Hfresh eq_refl Hsize). }
  destruct (Z.eqb_spec sz1 0) as [->|Hnz].
  { destruct Hal as [(? & ? & W1)|[(? & ? & W1)|(? & ? & W1)]]; [lia| |lia].
    destruct (exec_bad_space k' e1 w pt (mkSpace sz m special2) base Hpt) as (e2 & H2 & W2); [by unfold at_space; rewrite W1|done|done|done|].
    exists (-1), e2. left. by rewrite H2. }
  destruct Hal as [(? & ? & W1)|[(? & ? & W1)|(? & -> & W1)]]; [lia|done|]. apply (at_space_set _ _ _ _ _ _ Hat) in W1. simpl in W1.
  rewrite (u64_small (base + 2 * PGSIZE - 2 * PGSIZE)), (u64_small (base + 2 * PGSIZE - PGSIZE)) by lia. rewrite Z.add_simpl_r, Hbb in *.
  assert (PGROUNDUP (base + 2 * PGSIZE) = base + 2 * PGSIZE) as Hb2.
  { apply PGROUNDUP_id; [|lia]. rewrite Z.add_mod, Hupm by lia. done. }
  rewrite Hb2 in W1. destruct (law_uvmclear pt base _ e1 (at_space_lookup _ _ _ _ W1) Hupm) as (e2 & H2 & W2); [apply zeros_dom; lia|].
  rewrite (lift_env_at _ _ _ _ _ _ H2). apply (at_space_set _ _ _ _ _ _ W1) in W2. cbn [sp_mem] in W2. set (m2 := cut _ _ _) in W2.
  destruct (push_args_ok k' w pt (base + 2 * PGSIZE) special2 (base + 2 * PGSIZE - PGSIZE) argv ltac:(lia) ltac:(lia) Hargv e2 m2 (base + 2 * PGSIZE) []) as (r & e3 & H3 & Hr3);
    [simpl; lia|lia|exact W2|].
  rewrite (mbind_Ok _ _ _ _ _ H3). destruct Hr3 as [(-> & m3 & W3)|(lo & ptrs & m3 & -> & W3 & Hlo & Hpush & Hag)].
  { destruct (Hbad e3 m3 _ W3 eq_refl) as (e4 & H4 & W4). exists (-1), e4. left. by rewrite H4. }
  match goal with |- context [if ?x <? ?y then exec_bad _ _ _ else _] => destruct (Z.ltb_spec x y) as [Hsm|Hge] end.
  { destruct (Hbad e3 m3 _ W3 eq_refl) as (e4 & H4 & W4). exists (-1), e4. left. by rewrite H4. }
  destruct (stack_pointers k e3 w pt (base + 2 * PGSIZE) m3 argv ptrs lo Hpt Hn ltac:(lia) ltac:(lia) W3 Hlo Hpush) as [Hsmall|(r & e4 & H4 & Hr4)].
  { intros a Ha. rewrite Hag by lia. apply cut_none. lia. }
  { by apply Z.lt_nge in Hsmall. }
  rewrite app_nil_l, (lift_env_at _ _ _ _ _ _ H4). destruct Hr4 as [(-> & m4 & W4)|(-> & m4 & W4 & Hst & Hag4)].
  { change (-1 <? 0) with true. cbv iota. destruct (Hbad e4 m4 _ W4 eq_refl) as (e5 & H5 & W5). exists (-1), e5. left. by rewrite H5. }
  change (0 <? 0) with false. cbv iota.
  destruct (exec_commit_ok k' e4 w me p t pt (base + 2 * PGSIZE) (u64 (u64 (lo - (Z.of_nat (length argv) + 1) * 8) - u64 (lo - (Z.of_nat (length argv) + 1) * 8) mod 16)) m4 elf path osp)
    as (e5 & H5 & W5); [done|done|done|congruence|done|done|done|].
  rewrite (mbind_Ok _ _ _ _ _ H5). eexists _, e5. right. eexists _, m4. split; [reflexivity|]. split; [apply i32_small; unfold MAXARG in Hn; lia|]. split; [done|].
  split; [exact Hst|]. intros a Ha. rewrite Hag4, Hag by lia. unfold m2. rewrite cut_lookup by lia. unfold zeros. rewrite put_lookup, decide_False by lia. done.
Qed.

Lemma unchanged_files w w' F : unchanged (w <| w_files := F |>) w' -> unchanged w w'.
Proof. done. Qed.

(** The world [w] with the program file open and locked. *)
Definition opened w (ip : Z) : world := w <| w_ops ::= Z.succ |> <| w_refs ::= cons ip |> <| w_locked ::= cons ip |>.

(** What a successful kexec() makes of the state. *)
Definition replaced me p t k w path argv f k' : Prop := exists (pt sp sz : Z) m m',
  let elf := get_elfhdr (slice 0 elfhdr_size f) in
  let size := PGROUNDUP sz + (USERSTACK + 1) * PGSIZE in
  w_spaces w !! pt = None /\ magic elf = ELF_MAGIC /\
  load_image f (headers f (i32 (phoff elf)) (Z.to_nat (phnum elf))) = (sz, m) /\
  procs k' = procs (committed me p t k pt size sp elf path) /\ tframes k' = tframes (committed me p t k pt size sp elf path) /\
  unchanged (w <| w_spaces ::= fun x => <[pt := mkSpace size m' special2]> (delete (pagetable p) x) |>) (world_of (env k')) /\
  (forall a, a < PGROUNDUP sz -> m' !! a = m !! a) /\ stack_ok m' size sp argv.

Lemma kexec_open_ok k e w me p t ip f path argv osp :
  running me k -> procs k !! me = Some p -> tframes k !! trapframe_ptr p = Some t -> ip <> 0 -> world_of e = opened w ip ->
  w_files w !! ip = Some f -> Z.of_nat (length f) <= MAXFILE * BSIZE -> Forall (fun b => 0 <= b < 256) f ->
  w_spaces w !! pagetable p = Some osp -> sp_special osp = special2 -> PGROUNDUP (sp_size osp) = PGROUNDUP (KState.sz p) ->
  (length argv < MAXARG)%nat -> Forall (fun s => Z.of_nat (length s) < PGSIZE) argv ->
  exists r k', kexec_open path argv me ip (k <| env := e |>) = Ok (r, k') /\ running me k' /\
    ((r = -1 /\ procs k' = procs k /\ tframes k' = tframes k /\ unchanged w (world_of (env k'))) \/
     (r = Z.of_nat (length argv) /\ replaced me p t k w path argv f k')).
Proof.
  intros Hr Hp Ht Hip Hw Hf Hlen Hby Hosp Hs Hz Hn Hargv. assert (MAXFILE * BSIZE = 274432) as Hmf by done. unfold kexec_open.
  assert (forall e1, world_of e1 = opened w ip -> exists r k', exec_bad 0 0 ip (k <| env := e1 |>) = Ok (r, k') /\ running me k' /\
    ((r = -1 /\ procs k' = procs k /\ tframes k' = tframes k /\ unchanged w (world_of (env k'))) \/ (r = Z.of_nat (length argv) /\ replaced me p t k w path argv f k'))) as Hbad.
  { intros e1 W1. destruct (exec_bad_inode k e1 w ip Hip W1) as (e2 & H2 & Hun). exists (-1), (k <| env := e2 |>). split; [done|]. split; [by apply running_env|]. by left. }
  destruct (law_readi ip 0 elfhdr_size f e) as (r & bs & e1 & H1 & W1 & Hr1 & Hok); [rewrite Hw; apply list_elem_of_here|by rewrite Hw|lia|unfold elfhdr_size; lia|].
  rewrite (lift_env_at _ _ _ _ _ _ H1). cbn [fst snd]. destruct (Z.eqb_spec (u64 r) elfhdr_size) as [Hrn|Hrn]; cbn [negb]; [|apply Hbad; congruence].
  assert (r = elfhdr_size) as ->.
  { destruct (Z.eq_dec r (-1)) as [->|]; [by change (u64 (-1)) with 18446744073709551615 in Hrn|rewrite u64_small in Hrn by (unfold elfhdr_size in *; lia); done]. }
  destruct (Hok eq_refl) as [_ ->]. clear Hok. set (elf := get_elfhdr (slice 0 elfhdr_size f)).
  destruct (Z.eqb_spec (magic elf) ELF_MAGIC) as [Hmag|]; cbn [negb]; [|apply Hbad; congruence].
  destruct (proc_pagetable_ok k e1 me p Hp) as (pt & e2 & H2 & [[-> W2]|(Hpt & Hfresh & W2)]); rewrite (mbind_Ok _ _ _ _ _ H2).
  { apply Hbad. congruence. }
  rewrite (proj2 (Z.eqb_neq pt 0) Hpt). rewrite W1, Hw in Hfresh, W2.
  pose proof (field_range 2 56 _ (slice_bytes 0 elfhdr_size f Hby) ltac:(lia)) as Hph. change (field 2 56 _) with (phnum elf) in Hph.
  destruct (load_loop_ok k (opened w ip) pt ip f (Z.to_nat (phnum elf)) (i32 (phoff elf)) ltac:(apply list_elem_of_here) Hf Hlen Hby (i32_range _) (S (Z.to_nat (phnum elf))) 0 e2 0 ∅)
    as (ok & sz & e3 & sp3 & H3 & A1 & A2 & A3 & A4); [lia|lia|done|split; [done|]; intros a Ha; change (PGROUNDUP 0) with 0 in Ha; lia|done|by left|].
  rewrite Z2Nat.id, Z.mul_0_r, Z.add_0_r in H3 by lia. rewrite (mbind_Ok _ _ _ _ _ H3). cbn [fst snd]. destruct ok; cbn [negb].
  2: { destruct (exec_bad_both k e3 w pt sp3 sz ip Hpt Hip A1 Hfresh A2 A3) as (e4 & H4 & Hun). exists (-1), (k <| env := e4 |>).
       split; [done|]. split; [by apply running_env|]. by left. }
  destruct (A4 eq_refl) as (m & -> & Hld & Himg).
  destruct (law_iunlockput ip (w_refs w) (w_locked w) e3) as (e4 & fs & H4 & W4); [by rewrite A1..|]. rewrite (lift_env_at _ _ _ _ _ _ H4).
  destruct (law_end_op e4) as (e5 & fs2 & H5 & W5). rewrite (lift_env_at _ _ _ _ _ _ H5).
  assert (at_space e5 (w <| w_files := fs2 |>) pt (mkSpace sz m special2)) as Hat5.
  { unfold at_space. rewrite W5, W4, A1. unfold opened. destruct w. simpl. by rewrite Z.pred_succ. }
  destruct (exec_stack_ok k e5 (w <| w_files := fs2 |>) me p t pt sz m elf path argv osp) as (r & e6 & [(H6 & W6 & ->)|(sp & m' & H6 & -> & W6 & Hst & Hag)]);
    [exact Hr|exact Hp|exact Ht|exact Hpt|exact Hfresh|exact Hat5|exact Hld|exact Hosp|exact Hs|exact Hz|exact Hn|exact Hargv|..].
  - exists (-1), ((k <| mycpu ::= lockcycle |>) <| env := e6 |>). split; [exact H6|]. split; [by apply running_env, running_lockcycle|]. left. split; [done|]. split; [done|]. split; [done|].
    change (unchanged w (world_of e6)). by rewrite W6.
  - eexists _, _. split; [exact H6|]. split; [apply running_committed; [by apply running_lockcycle|done]|]. right. split; [done|].
    exists pt, sp, sz, m, m'. split; [done|]. split; [done|]. split; [done|]. split; [done|]. split; [done|]. split; [|done].
    match goal with |- unchanged ?a _ => change (unchanged a (world_of e6)) end. by rewrite W6.
Qed.
End Exec.

Lemma kexec_ok {E} (PE : ProcEnv E) (EE : ExecEnv E) (XL : ExecLaws PE EE) (k : kst E) (me : nat) (p : proc) (t : trapframe) (path : list Z) (argv : list (list Z)) (osp : space) :
  running me k -> procs k !! me = Some p -> tframes k !! trapframe_ptr p = Some t ->
  w_spaces (world_of (env k)) !! pagetable p = Some osp -> sp_special osp = special2 -> PGROUNDUP (sp_size osp) = PGROUNDUP (KState.sz p) ->
  (length argv < MAXARG)%nat -> Forall (fun s => Z.of_nat (length s) < PGSIZE) argv ->
  exists r k', kexec path argv k = Ok (r, k') /\ running me k' /\
    ((r = -1 /\ procs k' = procs k /\ tframes k' = tframes k /\ unchanged (world_of (env k)) (world_of (env k'))) \/
     (r = Z.of_nat (length argv) /\ exists f, replaced me p t k (world_of (env k)) path argv f k')).
Proof.
  intros Hr Hp Ht Hosp Hs Hz Hn Hargv. unfold kexec. rewrite (mbind_Ok _ _ _ _ _ (curproc_running me k Hr)).
  set (k1 := k <| mycpu ::= lockcycle |>). assert (running me k1) as Hr1 by (by apply running_lockcycle). change k1 with (k1 <| env := env k |>).
  destruct (law_begin_op (env k)) as (e1 & F1 & H1 & W1). rewrite (lift_env_at _ _ _ _ _ _ H1).
  destruct (law_namei path e1) as (ip & e2 & H2 & [[-> W2]|[Hip W2]]); rewrite (lift_env_at _ _ _ _ _ _ H2).
  { change (0 =? 0) with true. cbv iota. destruct (law_end_op e2) as (e3 & F3 & H3 & W3). rewrite (lift_env_at _ _ _ _ _ _ H3).
    exists (-1), (k1 <| env := e3 |>). split; [done|]. split; [by apply running_env|]. left. do 3 (split; [done|]). simpl. rewrite W3, W2, W1. split; [apply Z.pred_succ|done]. }
  rewrite (proj2 (Z.eqb_neq ip 0) Hip).
  destruct (law_ilock ip e2) as (e3 & f & H3 & Hlen & Hby & W3); [rewrite W2; apply list_elem_of_here|]. rewrite (lift_env_at _ _ _ _ _ _ H3).
  destruct (kexec_open_ok k1 e3 ((world_of (env k)) <| w_files := <[ip := f]> F1 |>) me p t ip f path argv osp) as (r & k' & H4 & Hr4 & Hres);
    [done|done|done|done|rewrite W3, W2, W1; reflexivity|apply lookup_insert_eq|done..|].
  exists r, k'. split; [exact H4|]. split; [done|]. destruct Hres as [(-> & A1 & A2 & A3)|[-> Hrep]].
  - left. split; [done|]. split; [exact A1|]. split; [exact A2|exact A3].
  - right. split; [done|]. exists f. exact Hrep.
Qed.

(** C12: exec either replaces the program of the calling process as a whole or
    changes nothing.  When it returns -1, on any of its failures (no such file,
    not a program, a header that does not fit, memory runs out, too many
    arguments), the process table and the trap frames are as before, every
    transaction is ended, every inode released and unlocked, and the page
    table built meanwhile is freed with its pages.  When it succeeds it returns
    argc; the process has a new address space, whose memory is the image of
    the program file's segments, a guard page without user access, and a stack
    page with the argument strings, each ended by a 0, below them the array of
    their addresses ended by a 0, where the 16-byte aligned sp and a1 point;
    the program counter is the entry point of the file and the old address
    space is freed.  It never panics. *)
Theorem kexec_correct {E} (PE : ProcEnv E) (EE : ExecEnv E) (XL : ExecLaws PE EE) (k : kst E) (me : nat) (p : proc) (t : trapframe) (path : list Z) (argv : list (list Z)) (osp : space) :
  running me k -> procs k !! me = Some p -> tframes k !! trapframe_ptr p = Some t ->
  w_spaces (world_of (env k)) !! pagetable p = Some osp -> sp_special osp = special2 -> PGROUNDUP (sp_size osp) = PGROUNDUP (KState.sz p) ->
  (length argv < MAXARG)%nat -> Forall (fun s => Z.of_nat (length s) < PGSIZE) argv ->
  exists r k', kexec path argv k = Ok (r, k') /\ running me k' /\
    ((r = -1 /\ procs k' = procs k /\ tframes k' = tframes k /\ unchanged (world_of (env k)) (world_of (env k'))) \/
     (r = Z.of_nat (length argv) /\ exists f, replaced me p t k (world_of (env k)) path argv f k')).
Proof. apply kexec_ok. Qed.

(** ** A concrete world *)
Definition with_space (w : world) (pt : Z) (g : space -> space) : world :=
  match w_spaces w !! pt with Some sp => w <| w_spaces ::= <[pt := g sp]> |> | None => w end.
(** A program file without segments: magic number, entry 4096, no headers. *)
Definition demo_file : list Z := [127; 69; 76; 70] ++ replicate 21 0 ++ [16] ++ replicate 38 0.
Definition file_of (w : world) (ip : Z) : list Z := default [] (w_files w !! ip).
Definition page_code (pt va : Z) : Z := Zpos (encode (pt, va)).
Definition page_decode (pa : Z) : Z * Z := match pa with Zpos x => default (0, 0) (decode x) | _ => (0, 0) end.
Definition world_proc : ProcEnv world := {|
  env_kalloc := fun w => let pg := fresh (w_pages w ∪ {[0]}) in Ok (pg, w <| w_pages ::= union {[pg]} |>);
  env_kfree := fun pg w => Ok (tt, w <| w_pages ::= fun x => x ∖ {[pg]} |>);
  env_uvmcreate := fun w => let pt := fresh (dom (w_spaces w) ∪ {[0]}) in Ok (pt, w <| w_spaces ::= <[pt := mkSpace 0 ∅ ∅]> |>);
  env_mappages := fun pt va _ _ _ w => Ok (0, with_space w pt (fun sp => sp <| sp_special ::= union {[va]} |>));
  env_uvmunmap := fun pt va _ _ w => Ok (tt, with_space w pt (fun sp => sp <| sp_special ::= fun x => x ∖ {[va]} |>));
  env_uvmfree := fun pt _ w => Ok (tt, w <| w_spaces ::= delete pt |>);
  env_uvmcopy := fun _ _ _ w => Ok (-1, w);
  env_uvmalloc := fun pt old new _ w =>
    if new <? old then Ok (old, w)
    else if MEMMAX <? new then Ok (0, w)
    else Ok (new, with_space w pt (fun sp => sp <| sp_size := new |> <| sp_mem ::= zeros (PGROUNDUP old) (PGROUNDUP new) |>));
  env_uvmdealloc := fun _ _ new w => Ok (new, w);
  env_copyout := fun pt _ va l w => Ok (0, with_space w pt (fun sp => sp <| sp_mem ::= put va l |>));
  env_copyin := fun _ _ _ _ w => Ok ((0, replicate 8 0), w);
  env_kwrite := fun _ _ w => Ok (tt, w);
  env_kread := fun _ n w => Ok (replicate (Z.to_nat n) 0, w);
  env_filedup := fun f w => Ok (f, w);
  env_fileclose := fun _ w => Ok (tt, w);
  env_idup := fun d w => Ok (d, w);
  env_iput := fun _ w => Ok (tt, w);
  env_namei_root := fun w => Ok (1, w);
  env_begin_op := fun w => Ok (tt, w <| w_ops ::= Z.succ |>);
  env_end_op := fun w => Ok (tt, w <| w_ops ::= Z.pred |>);
  forkret_addr := KERNBASE;
  trampoline_addr := KERNBASE + PGSIZE
|}.
Definition world_exec : ExecEnv world := {|
  env_namei := fun path w => match path with [] => Ok (0, w) | _ => Ok (1, w <| w_refs ::= cons 1 |>) end;
  env_ilock := fun ip w => Ok (tt, w <| w_locked ::= cons ip |> <| w_files ::= <[ip := demo_file]> |>);
  env_iunlockput := fun _ w => Ok (tt, w <| w_refs ::= tail |> <| w_locked ::= tail |>);
  env_readi := fun ip off n w =>
    if off + n <=? Z.of_nat (length (file_of w ip)) then Ok ((n, slice off n (file_of w ip)), w) else Ok ((-1, []), w);
  env_readi_to := fun ip pa off n w =>
    if off + n <=? Z.of_nat (length (file_of w ip))
    then Ok (n, with_space w (fst (page_decode pa)) (fun sp => sp <| sp_mem ::= put (snd (page_decode pa)) (slice off n (file_of w ip)) |>))
    else Ok (-1, w);
  env_walkaddr := fun pt va w => Ok (page_code pt va, w);
  env_uvmclear := fun pt va w => Ok (tt, with_space w pt (fun sp => sp <| sp_mem ::= cut va (va + PGSIZE) |>));
  env_copyinstr := fun _ _ _ n w => if 2 <? n then Ok ((0, [47; 105]), w) else Ok ((-1, []), w);
  env_fsinit := fun w => Ok (tt, w);
  env_first := fun _ => 1;
  env_set_first := fun _ w => w
|}.

Lemma page_decode_code pt va : page_decode (page_code pt va) = (pt, va).
Proof. unfold page_decode, page_code. by rewrite decode_encode. Qed.
Lemma with_space_eq w pt g sp : w_spaces w !! pt = Some sp -> with_space w pt g = w <| w_spaces ::= <[pt := g sp]> |>.
Proof. intros H. unfold with_space. by rewrite H. Qed.
Lemma world_files w : w <| w_files := w_files w |> = w.
Proof. by destruct w. Qed.

#[export] Instance world_laws : ExecLaws world_proc world_exec.
Proof.
  refine {| world_of := fun w => w; frame := fun _ pt va pa => pa = page_code pt va |}.
  - intros e. exists (e <| w_ops ::= Z.succ |>), (w_files e). done.
  - intros e. exists (e <| w_ops ::= Z.pred |>), (w_files e). done.
  - intros [|c path] e; simpl; [exists 0, e; split; [done|by left]|]. eexists 1, _. split; [reflexivity|]. by right.
  - intros ip e _. eexists _, demo_file. split; [reflexivity|]. split; [done|]. split; [|done]. by repeat constructor.
  - intros ip refs lk e H1 H2. eexists _, (w_files e). split; [reflexivity|]. destruct e. simpl in *. by subst.
  - intros ip off n f e _ Hf _ Hn. simpl. unfold file_of. rewrite Hf. simpl. destruct (Z.leb_spec (off + n) (Z.of_nat (length f))); eexists _, _, e; (split; [reflexivity|]); (split; [done|]).
    + split; [lia|done].
    + split; [lia|]. intros <-. lia.
  - intros ip pa off n f pt sp va e _ Hf _ Hn Hsp ->. cbn [env_readi_to world_exec]. unfold file_of. rewrite Hf, page_decode_code. cbn [fst snd default id from_option].
    destruct (Z.leb_spec (off + n) (Z.of_nat (length f))); eexists _, _; (split; [reflexivity|]).
    + split; [lia|]. left. split; [done|]. split; [done|]. by rewrite (with_space_eq _ _ _ _ Hsp).
    + split; [lia|]. right. split; [lia|]. exists (sp_mem sp). by rewrite set_mem_same.
  - intros pt va sp e _ _ _. by eexists _, e.
  - intros e. eexists _, _. split; [reflexivity|]. right. pose proof (is_fresh (dom (w_spaces e) ∪ {[0]})) as Hf. set (x := fresh _) in *. clearbody x.
    split; [set_solver|]. split; [|done]. apply not_elem_of_dom. set_solver.
  - intros pt va pa perm sp e Hsp _ _. eexists 0, _. split; [reflexivity|]. right. split; [done|]. by rewrite (with_space_eq _ _ _ _ Hsp).
  - intros pt va sp e Hsp _. eexists. split; [reflexivity|]. by rewrite (with_space_eq _ _ _ _ Hsp).
  - intros pt size sp e _ _ _. by eexists.
  - intros pt old new perm sp e Hsp _ Hold Hnew. simpl. destruct (Z.ltb_spec new old); [eexists _, _; split; [reflexivity|by left]|].
    destruct (Z.ltb_spec MEMMAX new); eexists _, _; (split; [reflexivity|]); right; [by left|right]. split; [done|]. split; [done|]. by rewrite (with_space_eq _ _ _ _ Hsp).
  - intros pt va sp e Hsp _ _. eexists. split; [reflexivity|]. by rewrite (with_space_eq _ _ _ _ Hsp).
  - intros pt va l sp e Hsp. eexists 0, _. split; [reflexivity|]. right. split; [done|]. by rewrite (with_space_eq _ _ _ _ Hsp).
  - intros pt size va n sp e Hsp. eexists _, _, e, (sp_mem sp). split; [reflexivity|]. by rewrite set_mem_same.
  - intros pt size va n sp e Hsp. simpl. destruct (Z.ltb_spec 2 n); eexists _, _, e, (sp_mem sp); (split; [reflexivity|]); (split; [by rewrite set_mem_same|]); simpl; lia.
  - intros e. eexists _, _. split; [reflexivity|]. right. pose proof (is_fresh (w_pages e ∪ {[0]})) as Hf. set (x := fresh _) in *. clearbody x.
    split; [set_solver|]. split; [set_solver|done].
  - intros pg e _. by eexists.
Defined.

(** Process 3 in a world with nothing but its address space. *)
Definition exec_demo : kst world :=
  (with_proc 3 (fun p => p <| state := RUNNING |> <| pid := 7 |> <| trapframe_ptr := 4096 |> <| pagetable := 8192 |>)
     (boot_kst (mkWorld 0 [] [] ∅ {[8192 := mkSpace 0 ∅ special2]} ∅) 0))
    <| mycpu := mkCpu (Some 3%nat) 0 false false |> <| tframes := {[4096 := junk_trapframe]} |>.
Lemma exec_demo_running : running 3 exec_demo.
Proof.
  set (w := mkWorld 0 [] [] ∅ {[8192 := mkSpace 0 ∅ special2]} ∅).
  assert (kwf (boot_kst w 0)) as Hb by (apply kwf_boot; unfold NCPU; lia).
  split; [|apply (locks_free_with_proc (boot_kst w 0) 3); [apply locks_free_boot|done]|done|done|unfold NPROC; lia].
  apply (kwf_with_proc _ 3 (fun p => p <| state := RUNNING |> <| pid := 7 |> <| trapframe_ptr := 4096 |> <| pagetable := 8192 |>)) in Hb.
  by destruct Hb; split.
Qed.

Lemma kexec_correct_witness :
  exists r k', kexec (PE := world_proc) (EE := world_exec) [47; 105] [[47; 105]; [97]] exec_demo = Ok (r, k') /\ running 3 k' /\ (r = -1 \/ r = 2).
Proof.
  destruct (kexec_correct world_proc world_exec world_laws exec_demo 3
    (zero_proc <| state := RUNNING |> <| pid := 7 |> <| trapframe_ptr := 4096 |> <| pagetable := 8192 |>) junk_trapframe [47; 105] [[47; 105]; [97]] (mkSpace 0 ∅ special2))
    as (r & k' & H1 & H2 & H3).
  - exact exec_demo_running.
  - reflexivity.
  - apply lookup_insert_eq.
  - apply lookup_insert_eq.
  - reflexivity.
  - reflexivity.
  - unfold MAXARG. simpl. lia.
  - repeat constructor.
  - exists r, k'. split; [exact H1|]. split; [exact H2|]. destruct H3 as [[-> _]|[-> _]]; [by left|by right].
Defined.
