(* ===== verification/ExecSys.v ===== *)
(** * The exec system call: its argument pages and its limits *)
From stdpp Require Import base list strings gmap.
From Stdlib Require Import ZArith Lia.
From S2P Require Import Prelude Spinlock KState CString Riscv FsState Proc ProcTable ProcSleep Trap TrapSpec TrapSys Exec ExecSpec.

Section Args.
Context {E : Type} {PE : ProcEnv E} {EE : ExecEnv E} {XL : ExecLaws PE EE}.
Implicit Types (s : tst E) (e : E) (w : world) (sp : space) (m : gmap Z Z).

Notation wof s := (world_of (env (tk s))).

(** The process goes on with the same entry and trap frame. *)
Record keeps me p t s : Prop := {
  kp_run : running me (tk s);
  kp_proc : procs (tk s) !! me = Some p;
  kp_frame : tframes (tk s) !! trapframe_ptr p = Some t
}.
Definition goes me s s' : Prop := running me (tk s') /\ procs (tk s') = procs (tk s) /\ tframes (tk s') = tframes (tk s).
Lemma goes_keeps me p t s s' : keeps me p t s -> goes me s s' -> keeps me p t s'.
Proof. intros [A1 A2 A3] (B1 & B2 & B3). split; [done|by rewrite B2|by rewrite B3]. Qed.
Lemma goes_trans me s1 s2 s3 : goes me s1 s2 -> goes me s2 s3 -> goes me s1 s3.
Proof. intros (A1 & A2 & A3) (B1 & B2 & B3). split; [done|]. split; congruence. Qed.
Lemma goes_env me s e : running me (tk s) -> goes me s (s <| tk ::= fun k => k <| env := e |> |>).
Proof. intros H. split; [by apply running_env|done]. Qed.
Lemma goes_cycled me s : running me (tk s) -> goes me s (cycled s).
Proof. intros H. split; [by apply cycled_running|done]. Qed.

(** A call of a lower layer. *)
Lemma lift_kenv {A B} (op : M E A) (K : A -> M (tst E) B) s a e' : op (env (tk s)) = Ok (a, e') ->
  mbind (lift_k (lift_env op)) K s = K a (s <| tk ::= fun k => k <| env := e' |> |>).
Proof. intros H. unfold mbind, lift_k, lift_env. by rewrite H. Qed.
Lemma cur_read {B} me p (K : proc -> M (tst E) B) s : running me (tk s) -> procs (tk s) !! me = Some p ->
  (let* me := lift_k curproc in let* p := lift_k (read_proc me) in K p) s = K p (cycled s).
Proof.
  intros Hr Hp. rewrite (mbind_Ok _ _ _ _ _ (curproc_cycled me s Hr)).
  by rewrite (mbind_Ok _ _ _ p (cycled s)) by (unfold lift_k, read_proc; simpl; by rewrite Hp).
Qed.

Lemma kfetchaddr_ok me p t s sp a : keeps me p t s -> w_spaces (wof s) !! pagetable p = Some sp ->
  exists r s' m, kfetchaddr a s = Ok (r, s') /\ goes me s s' /\ wof s' = set_mem (pagetable p) sp m (wof s).
Proof.
  intros [Hr Hp _] Hsp. unfold kfetchaddr. rewrite (cur_read me p _ s Hr Hp). pose proof (goes_cycled me s Hr) as Hg.
  destruct (_ || _).
  { exists None, (cycled s), (sp_mem sp). split; [done|]. split; [done|]. by rewrite set_mem_same. }
  destruct (law_copyin (pagetable p) (KState.sz p) a 8 sp (env (tk s)) Hsp) as (r & bs & e' & m & H1 & W1).
  rewrite (lift_kenv (env_copyin _ _ _ _) _ (cycled s) (r, bs) e' H1). cbn [fst snd].
  destruct (negb (r =? 0)); eexists _, _, m; (split; [reflexivity|]); (split; [|exact W1]); (eapply goes_trans; [exact Hg|apply goes_env, Hg]).
Qed.
Lemma kfetchstr_ok me p t s sp a n : keeps me p t s -> w_spaces (wof s) !! pagetable p = Some sp ->
  exists r s' m, kfetchstr a n s = Ok (r, s') /\ goes me s s' /\ wof s' = set_mem (pagetable p) sp m (wof s) /\
    (forall x, r = Some x -> Z.of_nat (length x) < n).
Proof.
  intros [Hr Hp _] Hsp. unfold kfetchstr. rewrite (cur_read me p _ s Hr Hp). pose proof (goes_cycled me s Hr) as Hg.
  destruct (law_copyinstr (pagetable p) (KState.sz p) a n sp (env (tk s)) Hsp) as (r & x & e' & m & H1 & W1 & Hx).
  rewrite (lift_kenv (env_copyinstr _ _ _ _) _ (cycled s) (r, x) e' H1). cbn [fst snd].
  destruct (Z.ltb_spec r 0); eexists _, _, m; (split; [reflexivity|]); (split; [eapply goes_trans; [exact Hg|apply goes_env, Hg]|]); (split; [exact W1|]); [done|].
  intros y [= <-]. auto.
Qed.

(** The pages of [argv] are allocated on top of [w], in which only the memory of
    the process may have been faulted in. *)
Definition argw w (pt : Z) sp m (argv : list (Z * list Z)) s : Prop :=
  wof s = (set_mem pt sp m w) <| w_pages := list_to_set (map fst argv) ∪ w_pages w |> /\
  NoDup (map fst argv) /\ (forall pg, pg ∈ map fst argv -> pg ∉ w_pages w) /\ Forall (fun x => Z.of_nat (length x) < PGSIZE) (map snd argv).
Lemma argw_space w pt sp m argv s : argw w pt sp m argv s -> w_spaces (wof s) !! pt = Some (sp <| sp_mem := m |>).
Proof. intros [-> _]. apply lookup_insert_eq. Qed.
Lemma argw_mem w pt sp m m' argv s s' : argw w pt sp m argv s -> wof s' = set_mem pt (sp <| sp_mem := m |>) m' (wof s) -> argw w pt sp m' argv s'.
Proof.
  intros [Hw H] W. split; [|done]. rewrite W, Hw. unfold set_mem. destruct w. simpl. f_equal. by rewrite insert_insert_eq.
Qed.
Lemma argw_page w pt sp m argv s s' pg x : argw w pt sp m argv s -> pg ∉ w_pages (wof s) -> wof s' = (wof s) <| w_pages ::= union {[pg]} |> ->
  Z.of_nat (length x) < PGSIZE -> argw w pt sp m (argv ++ [(pg, x)]) s'.
Proof.
  intros (Hw & H1 & H2 & H3) Hpg W Hx. rewrite Hw in Hpg. simpl in Hpg. split.
  - rewrite W, Hw. unfold set_mem. destruct w. simpl. f_equal. rewrite map_app. simpl. rewrite list_to_set_app_L. set_solver.
  - rewrite !map_app. simpl. split; [|split].
    + apply NoDup_app. split; [done|]. split; [|apply NoDup_singleton]. intros y Hy ->%list_elem_of_singleton. apply Hpg. apply elem_of_union_l, elem_of_list_to_set, Hy.
    + intros y Hy. apply elem_of_app in Hy as [Hy| ->%list_elem_of_singleton]; [by apply H2|]. set_solver.
    + apply Forall_app. split; [done|]. by repeat constructor.
Qed.

Definition turn_done w pt sp m (argv : list (Z * list Z)) s (r : list (Z * list Z) + bool * list (Z * list Z)) : Prop :=
  match r with
  | inl argv' => argw w pt sp m argv' s /\ length argv' = S (length argv) /\ (length argv < MAXARG)%nat
  | inr (ok, argv') => argw w pt sp m argv' s /\ (ok = true -> (length argv' < MAXARG)%nat)
  end.
Lemma arg_turn_ok me p t w sp m u argv s : keeps me p t s -> argw w (pagetable p) sp m argv s ->
  exists r s' m', arg_turn u argv s = Ok (r, s') /\ goes me s s' /\ turn_done w (pagetable p) sp m' argv s' r.
Proof.
  intros Hk Ha. unfold arg_turn. destruct (Nat.leb_spec MAXARG (length argv)) as [?|Hn].
  { exists (inr (false, argv)), s, m. split; [done|]. split; [split; [apply Hk|done]|]. by split. }
  destruct (kfetchaddr_ok me p t s _ (u64 (u + 8 * Z.of_nat (length argv))) Hk (argw_space _ _ _ _ _ _ Ha)) as (r & s1 & m1 & H1 & G1 & W1).
  rewrite (mbind_Ok _ _ _ _ _ H1). pose proof (argw_mem _ _ _ _ _ _ _ _ Ha W1) as Ha1. destruct r as [ua|]; [|exists (inr (false, argv)), s1, m1; by split].
  destruct (Z.eqb_spec ua 0) as [->|_]. { exists (inr (true, argv)), s1, m1. by split. }
  destruct (law_kalloc (env (tk s1))) as (pg & e2 & H2 & [[-> W2]|(Hpg & Hfr & W2)]); rewrite (lift_kenv env_kalloc _ s1 _ e2 H2).
  { eexists (inr (false, argv)), _, m1. split; [reflexivity|]. split; [eapply goes_trans; [exact G1|apply goes_env, G1]|]. split; [|done].
    destruct Ha1 as [A1 A2]. split; [|done]. simpl. by rewrite W2. }
  rewrite (proj2 (Z.eqb_neq pg 0) Hpg). set (s2 := s1 <| tk ::= fun k => k <| env := e2 |> |>).
  assert (goes me s s2) as G2 by (eapply goes_trans; [exact G1|apply goes_env, G1]).
  assert (forall x, Z.of_nat (length x) < PGSIZE -> argw w (pagetable p) sp m1 (argv ++ [(pg, x)]) s2) as Ha2 by (intros x Hx; exact (argw_page _ _ _ _ _ s1 s2 pg x Ha1 Hfr W2 Hx)).
  pose proof (argw_space _ _ _ _ _ _ (Ha2 [] ltac:(done))) as Hsp2.
  destruct (kfetchstr_ok me p t s2 _ ua PGSIZE (goes_keeps _ _ _ _ _ Hk G2) Hsp2) as (r & s3 & m3 & H3 & G3 & W3 & Hx).
  rewrite (mbind_Ok _ _ _ _ _ H3). pose proof (goes_trans _ _ _ _ G2 G3) as G. destruct r as [x|].
  - exists (inl (argv ++ [(pg, x)])), s3, m3. split; [done|]. split; [done|]. split; [eapply argw_mem; [apply Ha2; by apply Hx|exact W3]|]. rewrite length_app. simpl. split; [lia|done].
  - exists (inr (false, argv ++ [(pg, [])])), s3, m3. split; [done|]. split; [done|]. split; [eapply argw_mem; [by apply Ha2|exact W3]|done].
Qed.
Lemma arg_loop_ok me p t w sp u : forall fuel m argv s, keeps me p t s -> argw w (pagetable p) sp m argv s -> (MAXARG < length argv + fuel)%nat -> (0 < fuel)%nat ->
  exists ok argv' s' m', mloop fuel (arg_turn u) argv s = Ok ((ok, argv'), s') /\ goes me s s' /\ argw w (pagetable p) sp m' argv' s' /\ (ok = true -> (length argv' < MAXARG)%nat).
Proof.
  induction fuel as [|fuel IH]; intros m argv s Hk Ha Hf Hpos; [lia|].
  destruct (arg_turn_ok me p t w sp m u argv s Hk Ha) as (r & s1 & m1 & H1 & G1 & Hd). destruct r as [argv1|[ok argv1]].
  - destruct Hd as (A1 & A2 & A3). rewrite (mloop_next _ _ _ _ _ _ H1). destruct (IH m1 argv1 s1 (goes_keeps _ _ _ _ _ Hk G1) A1) as (ok & argv' & s' & m' & B1 & B2 & B3 & B4); [lia|lia|].
    exists ok, argv', s', m'. split; [done|]. split; [by eapply goes_trans|]. done.
  - exists ok, argv1, s1, m1. split; [by apply mloop_stop|]. by split.
Qed.

Lemma free_pages_ok me P : forall pgs s, running me (tk s) -> NoDup pgs -> (forall pg, pg ∈ pgs -> pg ∉ P) -> w_pages (wof s) = list_to_set pgs ∪ P ->
  exists s', for_each pgs (fun pg => lift_k (lift_env (env_kfree pg))) s = Ok (tt, s') /\ goes me s s' /\ wof s' = (wof s) <| w_pages := P |>.
Proof.
  induction pgs as [|pg pgs IH]; intros s Hr Hnd Hdis Hw.
  { exists s. split; [done|]. split; [done|]. simpl in Hw. rewrite union_empty_l_L in Hw. destruct (wof s). simpl in *. by subst. }
  apply NoDup_cons in Hnd as [Hpg Hnd]. cbn [for_each]. destruct (law_kfree pg (env (tk s))) as (e1 & H1 & W1); [rewrite Hw; set_solver|].
  rewrite (lift_kenv (env_kfree pg) _ s tt e1 H1). set (s1 := s <| tk ::= fun k => k <| env := e1 |> |>). pose proof (goes_env me s e1 Hr) as G1.
  destruct (IH s1) as (s' & H2 & G2 & W2); [apply G1|done|intros x Hx; apply Hdis; set_solver| |].
  { change (wof s1) with (world_of e1). rewrite W1. simpl. rewrite Hw. simpl. assert (pg ∉ P) by (apply Hdis; set_solver). assert (pg ∉@{gset Z} list_to_set pgs) by (by rewrite elem_of_list_to_set). set_solver. }
  exists s'. split; [done|]. split; [exact (goes_trans _ _ _ _ G1 G2)|]. rewrite W2. change (wof s1) with (world_of e1). by rewrite W1.
Qed.

Lemma replaced_pages me p t k w path argv f k' k'' P P' : replaced me p t k (w <| w_pages := P |>) path argv f k' ->
  procs k'' = procs k' -> tframes k'' = tframes k' -> world_of (env k'') = (world_of (env k')) <| w_pages := P' |> -> replaced me p t k (w <| w_pages := P' |>) path argv f k''.
Proof.
  intros (pt & sp & sz & m & m' & A1 & A2 & A3 & A4 & A5 & (B1 & B2 & B3 & B4 & B5) & A7 & A8) Hp Ht Hw. exists pt, sp, sz, m, m'.
  split; [exact A1|]. split; [exact A2|]. split; [exact A3|]. split; [by rewrite Hp|]. split; [by rewrite Ht|]. split; [|done]. rewrite Hw. by repeat split.
Qed.
Lemma replaced_start me p t k k1 w path argv f k' : procs k1 = procs k -> tframes k1 = tframes k -> replaced me p t k1 w path argv f k' -> replaced me p t k w path argv f k'.
Proof.
  intros Hp Ht (pt & sp & sz & m & m' & A1 & A2 & A3 & A4 & A5 & A). exists pt, sp, sz, m, m'. split; [exact A1|]. split; [exact A2|]. split; [exact A3|].
  split; [rewrite A4; simpl; by rewrite Hp|]. split; [rewrite A5; simpl; by rewrite Ht|done].
Qed.
End Args.

(** C20: the exec system call gives back every page it allocates for its
    arguments, on success and on every failure, and hands kexec() at most 31
    strings shorter than a page, so that the array ustack[] of kexec() is never
    overrun.  When it returns -1 the process, its address space (but for pages
    faulted in on the way) and the lower layers are as before; otherwise it
    returns argc to a replaced program. *)
Theorem sys_exec_correct {E} (PE : ProcEnv E) (EE : ExecEnv E) (XL : ExecLaws PE EE) (me : nat) (p : proc) (t : trapframe) (s : tst E) (sp : space) :
  running me (tk s) -> procs (tk s) !! me = Some p -> tframes (tk s) !! trapframe_ptr p = Some t ->
  let w := world_of (env (tk s)) in
  w_spaces w !! pagetable p = Some sp -> sp_special sp = special2 -> PGROUNDUP (sp_size sp) = PGROUNDUP (KState.sz p) ->
  exists r s' m, sys_exec s = Ok (r, s') /\ running me (tk s') /\
    let w' := set_mem (pagetable p) sp m w in
    ((r = u64 (-1) /\ procs (tk s') = procs (tk s) /\ tframes (tk s') = tframes (tk s) /\ unchanged w' (world_of (env (tk s')))) \/
     (exists path argv f, r = Z.of_nat (length argv) /\ (length argv < MAXARG)%nat /\ replaced me p t (tk s) w' path argv f (tk s'))).
Proof.
  intros Hr Hp Ht w Hsp Hs Hz. assert (held me (trapframe_ptr p, pagetable p, kstack p) t (tk s)) as Hh by (by exists p).
  unfold sys_exec. rewrite (mbind_Ok _ _ _ _ _ (karg_ok me _ t s 1 Hr Hh ltac:(lia))). pose proof (cycled_running me s Hr) as Hr1.
  rewrite (mbind_Ok _ _ _ _ _ (karg_ok me _ t (cycled s) 0 Hr1 Hh ltac:(lia))). cbn [nth]. set (s1 := cycled (cycled s)).
  assert (keeps me p t s1) as Hk1 by (split; [by apply cycled_running|done|done]). assert (goes me s s1) as G1 by (split; [apply Hk1|done]).
  destruct (kfetchstr_ok me p t s1 sp (tf_a0 t) MAXPATH Hk1 Hsp) as (path & s2 & m2 & H2 & G2 & W2 & _). rewrite (mbind_Ok _ _ _ _ _ H2).
  pose proof (goes_trans _ _ _ _ G1 G2) as G12. change (world_of (env (tk s1))) with w in W2. destruct path as [path|].
  2: { exists (u64 (-1)), s2, m2. split; [done|]. split; [apply G2|]. left. split; [done|]. split; [apply G12|]. split; [apply G12|]. by rewrite W2. }
  pose proof (goes_keeps _ _ _ _ _ Hk1 G2) as Hk2.
  assert (argw w (pagetable p) sp m2 [] s2) as Ha2.
  { split; [rewrite W2; unfold set_mem; destruct w; simpl; f_equal; by rewrite union_empty_l_L|]. split; [constructor|]. split; [|constructor]. intros pg []%not_elem_of_nil. }
  destruct (arg_loop_ok me p t w sp (tf_a1 t) (S MAXARG) m2 [] s2 Hk2 Ha2) as (ok & argv & s3 & m3 & H3 & G3 & (W3 & Hnd & Hdis & Hlen) & Hok); [simpl; lia|lia|].
  rewrite (mbind_Ok _ _ _ _ _ H3). cbn [fst snd]. pose proof (goes_trans _ _ _ _ G12 G3) as G13. pose proof (goes_keeps _ _ _ _ _ Hk2 G3) as [K1 K2 K3].
  set (w' := set_mem (pagetable p) sp m3 w).
  destruct ok.
  2: { rewrite mbind_ret. destruct (free_pages_ok me (w_pages w) (map fst argv) s3 K1 Hnd Hdis) as (s4 & H4 & G4 & W4); [by rewrite W3|].
       rewrite (mbind_Ok _ _ _ _ _ H4). pose proof (goes_trans _ _ _ _ G13 G4) as G. exists (u64 (-1)), s4, m3. split; [done|]. split; [apply G|]. left. split; [done|].
       split; [apply G|]. split; [apply G|]. rewrite W4, W3. by repeat split. }
  specialize (Hok eq_refl).
  destruct (kexec_ok PE EE XL (tk s3) me p t path (map snd argv) (sp <| sp_mem := m3 |>) K1 K2 K3) as (r & k4 & H4 & R4 & Hres);
    [rewrite W3; apply lookup_insert_eq|done|done|by rewrite length_map|done|].
  rewrite (mbind_Ok _ _ _ r (s3 <| tk := k4 |>)) by (by apply lift_k_ok).
  assert (w_pages (world_of (env k4)) = list_to_set (map fst argv) ∪ w_pages w) as HP.
  { destruct Hres as [(_ & _ & _ & Hun)|(_ & f & pt & x & sz & m & m' & _ & _ & _ & _ & _ & Hun & _)]; destruct Hun as (_ & _ & _ & _ & ->); by rewrite W3. }
  destruct (free_pages_ok me (w_pages w) (map fst argv) (s3 <| tk := k4 |>)) as (s5 & H5 & (G5a & G5b & G5c) & W5); [exact R4|exact Hnd|exact Hdis|exact HP|].
  rewrite (mbind_Ok _ _ _ _ _ H5). exists (u64 r), s5, m3. split; [done|]. split; [done|]. simpl in G5b, G5c, W5.
  destruct Hres as [(-> & A1 & A2 & A3)|(-> & f & Hrep)].
  - left. split; [done|]. split; [rewrite G5b, A1; apply G13|]. split; [rewrite G5c, A2; apply G13|]. rewrite W5. rewrite W3 in A3. destruct A3 as (B1 & B2 & B3 & B4 & _). by repeat split.
  - right. exists path, (map snd argv), f. split; [apply u64_small; rewrite length_map; unfold MAXARG in Hok; lia|]. split; [by rewrite length_map|].
    apply (replaced_start me p t (tk s) (tk s3)); [apply G13|apply G13|]. rewrite W3 in Hrep.
    exact (replaced_pages me p t (tk s3) w' path (map snd argv) f k4 (tk s5) _ (w_pages w) Hrep G5b G5c W5).
Qed.

Lemma sys_exec_correct_witness :
  exists r s', sys_exec (PE := world_proc) (EE := world_exec) (mkTst exec_demo (mkCsrs 8 1000 0 false true 0 0 0) (initlock "time")) = Ok (r, s') /\ running 3 (tk s').
Proof.
  destruct (sys_exec_correct world_proc world_exec world_laws 3
    (zero_proc <| state := RUNNING |> <| pid := 7 |> <| trapframe_ptr := 4096 |> <| pagetable := 8192 |>) junk_trapframe
    (mkTst exec_demo (mkCsrs 8 1000 0 false true 0 0 0) (initlock "time")) (mkSpace 0 ∅ special2)) as (r & s' & m & H1 & H2 & _).
  - exact exec_demo_running.
  - reflexivity.
  - apply lookup_insert_eq.
  - apply lookup_insert_eq.
  - reflexivity.
  - reflexivity.
  - exists r, s'. split; [exact H1|exact H2].
Defined.
