(* ===== verification/Sh.v ===== *)
(** * The shell (user/sh.c)

    A command line is the list of its characters, [text], followed by a NUL; a
    pointer into it is a position.  panic() of the shell, which prints a
    message and exits, is [Panic]; malloc() is taken to succeed.  runcmd() is
    the program of system calls it makes ([prog]). *)
From stdpp Require Import base list strings.
From Stdlib Require Import ZArith Lia.
From S2P Require Import Prelude Sysfile Ulib.

Definition MAXARGS : nat := 10.

(** The pointers argv[i] and eargv[i] of a command are pairs. *)
Inductive cmd : Type :=
| EXEC (argv : list (nat * nat))
| REDIR (c : cmd) (file efile : nat) (mode fd : Z)
| PIPE (left right : cmd)
| LIST (left right : cmd)
| BACK (c : cmd).

(** ** Tokens *)
Definition whitespace : list Z := [32; 9; 13; 10; 11].
Definition symbols : list Z := [60; 124; 62; 38; 59; 40; 41].
(** strchr(l, c) != 0 for a character that is not NUL *)
Definition has (l : list Z) (c : Z) : bool := existsb (Z.eqb c) l.
Definition blank (c : Z) : bool := has whitespace c.
Definition wordchar (c : Z) : bool := negb (has whitespace c) && negb (has symbols c).
(** while (s < es && P( *s)) s++: the number of steps *)
Fixpoint scan (P : Z -> bool) (l : list Z) : nat :=
  match l with
  | c :: l => if P c then S (scan P l) else O
  | [] => O
  end.

Section Parse.
Variable text : list Z.

Definition char_at (s : nat) : Z := nth s text 0.
Definition skip_ws (s : nat) : nat := (s + scan blank (drop s text))%nat.

(** The token, its limits, and the position behind it. *)
Definition gettoken (s : nat) : Z * (nat * nat) * nat :=
  let s := skip_ws s in
  let q := s in
  let c := char_at s in
  let '(ret, s) :=
    if c =? 0 then (0, s)
    else if has [124; 40; 41; 59; 38; 60] c then (c, S s)
    else if c =? 62 then if char_at (S s) =? 62 then (43, S (S s)) else (62, S s)
    else (97, (s + scan wordchar (drop s text))%nat) in
  (ret, (q, s), skip_ws s).

Definition peek (toks : list Z) (s : nat) : bool * nat :=
  let s := skip_ws s in
  (negb (char_at s =? 0) && has toks (char_at s), s).

(** ** The parser

    parseexec() keeps a pointer to the execcmd it fills while parseredirs()
    wraps redirections around it: here the redirections are a list, wrapped
    around the command when it is complete. *)
Record redir : Type := mkRedir { r_file : nat; r_efile : nat; r_mode : Z; r_fd : Z }.
Definition redircmd (c : cmd) (r : redir) : cmd := REDIR c (r_file r) (r_efile r) (r_mode r) (r_fd r).
Definition redir_of (tok : Z) (q : nat * nat) : list redir :=
  if tok =? 60 then [mkRedir (fst q) (snd q) O_RDONLY 0]
  else if tok =? 62 then [mkRedir (fst q) (snd q) (Z.lor (Z.lor O_WRONLY O_CREATE) O_TRUNC) 1]
  else if tok =? 43 then [mkRedir (fst q) (snd q) (Z.lor O_WRONLY O_CREATE) 1]
  else [].

Fixpoint parseredirs (fuel : nat) (s : nat) : outcome (list redir * nat) :=
  match fuel with
  | O => NoFuel
  | S fuel =>
      let '(b, s) := peek [60; 62] s in
      if b then
        let '(tok, _, s) := gettoken s in
        let '(t, q, s) := gettoken s in
        if negb (t =? 97) then Panic "missing file for redirection"
        else obind (parseredirs fuel s) (fun r => Ok (redir_of tok q ++ fst r, snd r))
      else Ok ([], s)
  end.

(** The loop of parseexec(): arguments and redirections. *)
Fixpoint parse_args (fuel : nat) (argv : list (nat * nat)) (rs : list redir) (s : nat) : outcome (list (nat * nat) * list redir * nat) :=
  match fuel with
  | O => NoFuel
  | S fuel' =>
      let '(b, s) := peek [124; 41; 38; 59] s in
      if b then Ok (argv, rs, s)
      else
        let '(tok, q, s) := gettoken s in
        if tok =? 0 then Ok (argv, rs, s)
        else if negb (tok =? 97) then Panic "syntax"
        else
          let argv := argv ++ [q] in
          if Nat.leb MAXARGS (length argv) then Panic "too many args"
          else obind (parseredirs fuel s) (fun r => parse_args fuel' argv (rs ++ fst r) (snd r))
  end.

(** while (peek(ps, es, "&")) *)
Fixpoint parse_back (fuel : nat) (c : cmd) (s : nat) : outcome (cmd * nat) :=
  match fuel with
  | O => NoFuel
  | S fuel =>
      let '(b, s) := peek [38] s in
      if b then
        let '(_, _, s) := gettoken s in
        parse_back fuel (BACK c) s
      else Ok (c, s)
  end.

(** [n] bounds the loops, [fuel] the depth of the recursion. *)
Fixpoint parseline (n fuel : nat) (s : nat) : outcome (cmd * nat) :=
  match fuel with
  | O => NoFuel
  | S fuel =>
      obind (parsepipe n fuel s) (fun r =>
      obind (parse_back n (fst r) (snd r)) (fun r =>
      let '(b, s) := peek [59] (snd r) in
      if b then
        let '(_, _, s) := gettoken s in
        obind (parseline n fuel s) (fun r' => Ok (LIST (fst r) (fst r'), snd r'))
      else Ok (fst r, s)))
  end
with parsepipe (n fuel : nat) (s : nat) : outcome (cmd * nat) :=
  match fuel with
  | O => NoFuel
  | S fuel =>
      obind (parseexec n fuel s) (fun r =>
      let '(b, s) := peek [124] (snd r) in
      if b then
        let '(_, _, s) := gettoken s in
        obind (parsepipe n fuel s) (fun r' => Ok (PIPE (fst r) (fst r'), snd r'))
      else Ok (fst r, s))
  end
with parseblock (n fuel : nat) (s : nat) : outcome (cmd * nat) :=
  match fuel with
  | O => NoFuel
  | S fuel =>
      let '(b, s) := peek [40] s in
      if negb b then Panic "parseblock"
      else
        let '(_, _, s) := gettoken s in
        obind (parseline n fuel s) (fun r =>
        let '(b, s) := peek [41] (snd r) in
        if negb b then Panic "syntax - missing )"
        else
          let '(_, _, s) := gettoken s in
          obind (parseredirs n s) (fun rs => Ok (foldl redircmd (fst r) (fst rs), snd rs)))
  end
with parseexec (n fuel : nat) (s : nat) : outcome (cmd * nat) :=
  match fuel with
  | O => NoFuel
  | S fuel =>
      let '(b, s) := peek [40] s in
      if b then parseblock n fuel s
      else
        obind (parseredirs n s) (fun rs =>
        obind (parse_args n [] (fst rs) (snd rs)) (fun r =>
        Ok (foldl redircmd (EXEC (fst (fst r))) (snd (fst r)), snd r)))
  end.

(** *eargv[i] = 0 and *efile = 0 in the line *)
Fixpoint nulterminate (c : cmd) (buf : list Z) : list Z :=
  match c with
  | EXEC argv => foldl (fun buf a => <[snd a := 0]> buf) buf argv
  | REDIR c _ efile _ _ => <[efile := 0]> (nulterminate c buf)
  | PIPE l r | LIST l r => nulterminate r (nulterminate l buf)
  | BACK c => nulterminate c buf
  end.

Definition parse_fuel : nat := (4 * length text + 4)%nat.
Definition parsecmd : outcome (cmd * list Z) :=
  obind (parseline (S (length text)) parse_fuel 0) (fun r =>
  let '(_, s) := peek [] (snd r) in
  if negb (Nat.eqb s (length text)) then Panic "syntax"
  else Ok (fst r, nulterminate (fst r) (text ++ [0]))).
End Parse.

(** ** System calls of the shell: a process is a tree of calls and what it
    does with their results; exec() returns only when it fails. *)
Inductive prog : Type :=
| Exit (status : Z)
| Exec (argv : list (list Z)) (k : prog)
| Close (fd : Z) (k : prog)
| Open (file : list Z) (mode : Z) (k : Z -> prog)
| Dup (fd : Z) (k : prog)
| Pipe (k : option (Z * Z) -> prog)
| Fork (k : Z -> prog)
| Wait (k : prog)
| Chdir (path : list Z) (k : Z -> prog)
| Fprintf (fd : Z) (msg : string) (arg : list Z) (k : prog).

Definition panic (s : string) : prog := Fprintf 2 s [] (Exit 1).
Definition fork1 (k : Z -> prog) : prog := Fork (fun pid => if pid =? -1 then panic "fork" else k pid).

(** The C string at a position. *)
Definition cstr (buf : list Z) (q : nat) : list Z := take (scan (fun c => negb (c =? 0)) (drop q buf)) (drop q buf).

Fixpoint runcmd (buf : list Z) (c : cmd) : prog :=
  match c with
  | EXEC [] => Exit 1
  | EXEC (((q, _) :: _) as argv) => Exec (map (fun a => cstr buf (fst a)) argv) (Fprintf 2 "exec %s failed" (cstr buf q) (Exit 0))
  | REDIR c file _ mode fd =>
      Close fd (Open (cstr buf file) mode (fun r =>
        if r <? 0 then Fprintf 2 "open %s failed" (cstr buf file) (Exit 1) else runcmd buf c))
  | LIST l r => fork1 (fun pid => if pid =? 0 then runcmd buf l else Wait (runcmd buf r))
  | PIPE l r =>
      Pipe (fun p =>
        match p with
        | None => panic "pipe"
        | Some (p0, p1) =>
            fork1 (fun pid =>
              if pid =? 0 then Close 1 (Dup p1 (Close p0 (Close p1 (runcmd buf l))))
              else fork1 (fun pid =>
                if pid =? 0 then Close 0 (Dup p0 (Close p0 (Close p1 (runcmd buf r))))
                else Close p0 (Close p1 (Wait (Wait (Exit 0))))))
        end)
  | BACK c => fork1 (fun pid => if pid =? 0 then runcmd buf c else Exit 0)
  end.

(** runcmd(parsecmd(s)) *)
Definition run_line (s : list Z) : prog :=
  match parsecmd s with
  | Ok (c, buf) => runcmd buf c
  | Panic msg => panic msg
  | _ => Exit 1
  end.

(** One turn of the loop of main(): [line] is what gets() has put into the
    buffer. *)
Definition sh_turn (line : list Z) (next : prog) : prog :=
  let c := cstr line (scan (fun c => (c =? 32) || (c =? 9)) line) in
  if nth 0 c 0 =? 10 then next
  else if (nth 0 c 0 =? 99) && (nth 1 c 0 =? 100) && (nth 2 c 0 =? 32) then
    let path := drop 3 (take (length c - 1) c) in
    Chdir path (fun r => if r <? 0 then Fprintf 2 "cannot cd %s" path next else next)
  else fork1 (fun pid => if pid =? 0 then run_line c else Wait next).
(** getcmd() and the loop; every line takes at least one byte of the input. *)
Fixpoint sh_loop (fuel : nat) (input : list Z) : prog :=
  match fuel with
  | O => Exit 0
  | S fuel =>
      let '(line, input) := gets 100 input in
      if nth 0 line 0 =? 0 then Exit 0 else sh_turn line (sh_loop fuel input)
  end.
(** Ensure that three file descriptors are open. *)
Fixpoint open_console (fuel : nat) (k : prog) : prog :=
  match fuel with
  | O => k
  | S fuel => Open [99; 111; 110; 115; 111; 108; 101] O_RDWR (fun fd => if fd <? 0 then k else if 3 <=? fd then Close fd k else open_console fuel k)
  end.
Definition sh_main (input : list Z) : prog := open_console 4 (sh_loop (S (length input)) input).
