(* ===== verification/ShSpec.v ===== *)
(** * The shell: parsing ends, tokens survive, every command can be written

    The parser ends on every line; the strings a parsed command refers to are
    the words of the line; every command tree has a line that parses to it; and
    the processes runcmd() starts have exactly the descriptors their place in
    the command asks for. *)
From stdpp Require Import base list strings sets gmap.
From Stdlib Require Import ZArith Lia.
From S2P Require Import Prelude Sysfile Sh.

Lemma scan_le P l : (scan P l <= length l)%nat.
Proof. induction l as [|c l IH]; simpl; [lia|]. destruct (P c); lia. Qed.
Lemma scan_true P l i c : (i < scan P l)%nat -> l !! i = Some c -> P c = true.
Proof.
  revert i. induction l as [|d l IH]; intros i Hi Hc; simpl in *; [lia|]. destruct (P d) eqn:Hd; [|lia].
  destruct i as [|i]; simpl in Hc; [by simplify_eq|]. apply (IH i); [lia|done].
Qed.
Lemma scan_stop P l c : l !! scan P l = Some c -> P c = false.
Proof. induction l as [|d l IH]; simpl; [done|]. destruct (P d) eqn:Hd; [done|]. simpl. by intros [= <-]. Qed.
Lemma scan_all P l rest : Forall (fun c => P c = true) l -> scan P (l ++ rest) = (length l + scan P rest)%nat.
Proof. induction 1 as [|c l Hc _ IH]; simpl; [done|]. by rewrite Hc, IH. Qed.

Lemma has_spec l c : has l c = true <-> c ∈ l.
Proof.
  unfold has. rewrite existsb_exists. split; [intros (x & Hx & ->%Z.eqb_eq); by apply list_elem_of_In|].
  intros Hc. exists c. split; [by apply list_elem_of_In|apply Z.eqb_refl].
Qed.

Section Tokens.
Variable text : list Z.
Hypothesis no_nul : 0 ∉ text.
Notation len := (length text).
Notation at_ := (char_at text).

Lemma char_at_lookup i c : text !! i = Some c -> at_ i = c.
Proof. intros H. unfold char_at. by apply nth_lookup_Some. Qed.
Lemma char_at_nul i : at_ i = 0 -> (len <= i)%nat.
Proof.
  intros H. destruct (decide (i < len)%nat) as [Hi|]; [|lia]. apply lookup_lt_is_Some in Hi as [c Hc]. apply char_at_lookup in Hc as Hc'.
  exfalso. apply no_nul. apply list_elem_of_lookup. exists i. congruence.
Qed.

(** A word of the line. *)
Record token (q : nat * nat) : Prop := {
  tok_lt : (fst q < snd q)%nat;
  tok_le : (snd q <= len)%nat;
  tok_chars i : (fst q <= i < snd q)%nat -> wordchar (at_ i) = true;
  tok_end : (snd q < len)%nat -> wordchar (at_ (snd q)) = false
}.

Lemma skip_ws_bounds s : (s <= len)%nat -> (s <= skip_ws text s <= len)%nat.
Proof. intros Hs. unfold skip_ws. pose proof (scan_le blank (drop s text)) as H. rewrite length_drop in H. lia. Qed.
Lemma skip_ws_stop s : (skip_ws text s < len)%nat -> blank (at_ (skip_ws text s)) = false.
Proof.
  intros Hlt. unfold skip_ws in *. apply lookup_lt_is_Some in Hlt as [c Hc]. rewrite (char_at_lookup _ _ Hc). apply (scan_stop blank (drop s text)).
  by rewrite lookup_drop.
Qed.
Lemma scan_word_token s : (s < len)%nat -> wordchar (at_ s) = true -> token (s, (s + scan wordchar (drop s text))%nat).
Proof.
  intros Hs Hw. pose proof (scan_le wordchar (drop s text)) as Hle. rewrite length_drop in Hle. split; simpl.
  - apply lookup_lt_is_Some in Hs as [c Hc]. rewrite (drop_S _ _ _ Hc). simpl. rewrite <- (char_at_lookup _ _ Hc), Hw. lia.
  - lia.
  - intros i Hi. destruct (lookup_lt_is_Some_2 text i ltac:(lia)) as [c Hc]. rewrite (char_at_lookup _ _ Hc). apply (scan_true wordchar (drop s text) (i - s)); [lia|].
    rewrite lookup_drop. rewrite <- Hc. f_equal. lia.
  - intros Hlt. apply lookup_lt_is_Some in Hlt as [c Hc]. rewrite (char_at_lookup _ _ Hc). apply (scan_stop wordchar (drop s text)). by rewrite lookup_drop.
Qed.

Lemma gettoken_spec s t q s' : gettoken text s = (t, q, s') -> (s <= len)%nat ->
  (s <= s' <= len)%nat /\ (t <> 0 -> (s < s')%nat) /\ (t = 97 -> token q).
Proof.
  unfold gettoken. intros H Hs. pose proof (skip_ws_bounds s Hs) as Hk. pose proof (skip_ws_stop s) as Hb. set (p := skip_ws text s) in *. set (c := at_ p) in *.
  assert (c <> 0 -> (p < len)%nat) as Hlt.
  { intros Hc. destruct (decide (p < len)%nat); [done|]. exfalso. apply Hc. unfold c, char_at. apply nth_overflow. lia. }
  destruct (Z.eqb_spec c 0) as [Hc|Hc]. { simplify_eq. pose proof (skip_ws_bounds p ltac:(lia)). split; [lia|]. done. }
  specialize (Hlt Hc). specialize (Hb Hlt). destruct (has [124; 40; 41; 59; 38; 60] c) eqn:Hsym.
  { simplify_eq. pose proof (skip_ws_bounds (S p) ltac:(lia)). split; [lia|]. split; [lia|]. intros Heq. rewrite Heq in Hsym. done. }
  destruct (Z.eqb_spec c 62) as [Hgt|Hgt].
  { destruct (Z.eqb_spec (at_ (S p)) 62) as [Hg2|]; simplify_eq.
    - assert (S p < len)%nat. { destruct (decide (S p < len)%nat); [done|]. exfalso. unfold char_at in Hg2. rewrite nth_overflow in Hg2; [done|lia]. }
      pose proof (skip_ws_bounds (S (S p)) ltac:(lia)). split; [lia|]. split; [lia|done].
    - pose proof (skip_ws_bounds (S p) ltac:(lia)). split; [lia|]. split; [lia|done]. }
  assert (wordchar c = true) as Hw.
  { unfold wordchar. fold (blank c). rewrite Hb. simpl. apply negb_true_iff. destruct (has symbols c) eqn:Hs1; [|done]. apply has_spec in Hs1. exfalso.
    assert (¬ c ∈ [124; 40; 41; 59; 38; 60]) as Hn by (rewrite <- has_spec; congruence). unfold symbols in Hs1. set_solver. }
  pose proof (scan_word_token p Hlt Hw) as Ht. simplify_eq. pose proof (tok_lt _ Ht) as H1. pose proof (tok_le _ Ht) as H2. simpl in H1, H2.
  pose proof (skip_ws_bounds _ H2). split; [lia|]. split; [lia|]. done.
Qed.
Lemma peek_spec toks s b s' : peek text toks s = (b, s') -> (s <= len)%nat -> (s <= s' <= len)%nat /\ (b = true -> (s' < len)%nat /\ at_ s' <> 0).
Proof.
  unfold peek. intros [= <- <-] Hs. pose proof (skip_ws_bounds s Hs). split; [done|]. intros [Hn _]%andb_prop. apply negb_true_iff, Z.eqb_neq in Hn. split; [|done].
  destruct (decide (skip_ws text s < len)%nat); [done|]. exfalso. apply Hn. unfold char_at. apply nth_overflow. lia.
Qed.
(** A token after a successful peek is not the end. *)
Lemma peek_token toks s s1 t q s2 : peek text toks s = (true, s1) -> gettoken text s1 = (t, q, s2) -> (s <= len)%nat -> t <> 0 /\ (s < s2)%nat /\ (s2 <= len)%nat.
Proof.
  intros Hp Hg Hs. destruct (peek_spec _ _ _ _ Hp Hs) as [H1 H2]. destruct (H2 eq_refl) as [H3 H4]. destruct (gettoken_spec _ _ _ _ Hg ltac:(lia)) as (G1 & G2 & G3).
  assert (t <> 0) as Ht; [|split; [done|]; specialize (G2 Ht); lia].
  assert (skip_ws text s1 = s1) as Hsk.
  { unfold peek in Hp. injection Hp as _ Hp. rewrite <- Hp. unfold skip_ws at 1. destruct (lookup_lt_is_Some_2 text (skip_ws text s) ltac:(lia)) as [c Hc].
    rewrite (drop_S _ _ _ Hc). simpl. rewrite <- (char_at_lookup _ _ Hc), skip_ws_stop by lia. lia. }
  unfold gettoken in Hg. rewrite Hsk in Hg. rewrite (proj2 (Z.eqb_neq _ _) H4) in Hg. destruct (has _ _) eqn:Hh; [by simplify_eq|].
  destruct (at_ s1 =? 62); [destruct (at_ (S s1) =? 62); by simplify_eq|by simplify_eq].
Qed.

(** ** Every parser ends, and what it returns refers to words of the line *)
Definition redir_mode (mode fd : Z) : Prop :=
  (mode = O_RDONLY /\ fd = 0) \/ (mode = Z.lor (Z.lor O_WRONLY O_CREATE) O_TRUNC /\ fd = 1) \/ (mode = Z.lor O_WRONLY O_CREATE /\ fd = 1).
Definition good_redir (r : redir) : Prop := token (r_file r, r_efile r) /\ redir_mode (r_mode r) (r_fd r).
Fixpoint good (c : cmd) : Prop :=
  match c with
  | EXEC argv => Forall token argv /\ (length argv < MAXARGS)%nat
  | REDIR c file efile mode fd => good c /\ token (file, efile) /\ redir_mode mode fd
  | PIPE l r | LIST l r => good l /\ good r
  | BACK c => good c
  end.
Lemma good_wrap rs c : Forall good_redir rs -> good c -> good (foldl redircmd c rs).
Proof. intros H. revert c. induction H as [|r rs [H1 H2] _ IH]; intros c Hc; simpl; [done|]. by apply IH. Qed.

Definition ends {A} (s : nat) (P : A -> Prop) (o : outcome (A * nat)) : Prop :=
  match o with Ok (a, s') => (s <= s' <= len)%nat /\ P a | Panic _ => True | _ => False end.
Lemma ends_bind {A B} s s1 (P : A -> Prop) (Q : B -> Prop) o (k : A * nat -> outcome (B * nat)) :
  ends s1 P o -> (s <= s1)%nat -> (forall a s', P a -> (s1 <= s' <= len)%nat -> ends s Q (k (a, s'))) -> ends s Q (obind o k).
Proof. destruct o as [[a s']| | | |]; simpl; try done. intros [H1 H2] _ Hk. by apply Hk. Qed.
Lemma ends_weaken {A} s s1 (P : A -> Prop) o : ends s1 P o -> (s <= s1)%nat -> ends s P o.
Proof. destruct o as [[a s']| | | |]; simpl; try done. intros [H1 H2] Hs. split; [lia|done]. Qed.

Lemma redir_of_good tok q : token q -> Forall good_redir (redir_of tok q).
Proof.
  intros Hq. unfold redir_of. destruct q as [q eq]. repeat (case_match; [apply Forall_singleton; split; [done|]; unfold redir_mode; simpl; auto|]). constructor.
Qed.
Lemma parseredirs_ends n s : (len - s < n)%nat -> (s <= len)%nat -> ends s (Forall good_redir) (parseredirs text n s).
Proof.
  revert s. induction n as [|n IH]; intros s Hn Hs; [lia|]. cbn [parseredirs]. destruct (peek text [60; 62] s) as [b s1] eqn:Hp.
  destruct (peek_spec _ _ _ _ Hp Hs) as [P1 _]. destruct b; [|simpl; split; [lia|constructor]].
  destruct (gettoken text s1) as [[tok qq] s2] eqn:Hg1. destruct (peek_token _ _ _ _ _ _ Hp Hg1 Hs) as (T1 & T2 & T3).
  destruct (gettoken text s2) as [[t q] s3] eqn:Hg2. destruct (gettoken_spec _ _ _ _ Hg2 T3) as (G1 & G2 & G3).
  destruct (Z.eqb_spec t 97) as [->|]; simpl; [|done]. eapply ends_bind; [apply IH; lia|lia|]. intros rs s' Hrs Hs'. simpl. split; [lia|].
  apply Forall_app. split; [by apply redir_of_good, G3|done].
Qed.
Lemma parse_args_ends n : forall s argv rs, (len - s < n)%nat -> (s <= len)%nat -> Forall token argv -> (length argv < MAXARGS)%nat -> Forall good_redir rs ->
  ends s (fun r => Forall token (fst r) /\ (length (fst r) < MAXARGS)%nat /\ Forall good_redir (snd r)) (parse_args text n argv rs s).
Proof.
  induction n as [|n IH]; intros s argv rs Hn Hs Ha Hl Hr; [lia|]. cbn [parse_args]. destruct (peek text _ s) as [b s1] eqn:Hp.
  destruct (peek_spec _ _ _ _ Hp Hs) as [P1 _]. destruct b; [split; [lia|]; cbn [fst snd]; done|].
  destruct (gettoken text s1) as [[tok q] s2] eqn:Hg. destruct (gettoken_spec _ _ _ _ Hg ltac:(lia)) as (G1 & G2 & G3).
  destruct (Z.eqb_spec tok 0) as [|Ht]; [split; [lia|]; cbn [fst snd]; done|]. specialize (G2 Ht). destruct (Z.eqb_spec tok 97) as [->|]; cbn [negb]; [|done].
  destruct (Nat.leb_spec MAXARGS (length (argv ++ [q]))) as [|Hlt]; [done|].
  eapply ends_bind; [apply (parseredirs_ends (S n)); lia|lia|]. intros rs' s' Hrs Hs'. cbn [fst snd]. eapply ends_weaken; [apply IH|lia].
  - lia.
  - lia.
  - apply Forall_app. split; [done|]. apply Forall_singleton. by apply G3.
  - done.
  - by apply Forall_app.
Qed.
Lemma parse_back_ends n : forall s c, (len - s < n)%nat -> (s <= len)%nat -> good c -> ends s good (parse_back text n c s).
Proof.
  induction n as [|n IH]; intros s c Hn Hs Hc; [lia|]. cbn [parse_back]. destruct (peek text _ s) as [b s1] eqn:Hp.
  destruct (peek_spec _ _ _ _ Hp Hs) as [P1 _]. destruct b; [|simpl; split; [lia|done]].
  destruct (gettoken text s1) as [[tok q] s2] eqn:Hg. destruct (peek_token _ _ _ _ _ _ Hp Hg Hs) as (T1 & T2 & T3). eapply ends_weaken; [apply IH; [lia|lia|done]|lia].
Qed.

Lemma parsers_end n : (len < n)%nat -> forall fuel s, (s <= len)%nat ->
  ((4 * (len - s) + 4 <= fuel)%nat -> ends s good (parseline text n fuel s)) /\
  ((4 * (len - s) + 3 <= fuel)%nat -> ends s good (parsepipe text n fuel s)) /\
  ((4 * (len - s) + 2 <= fuel)%nat -> ends s good (parseexec text n fuel s)) /\
  ((4 * (len - s) + 1 <= fuel)%nat -> ends s good (parseblock text n fuel s)).
Proof.
  intros Hn. induction fuel as [|fuel IH]; intros s Hs; [repeat split; lia|]. split; [|split; [|split]]; intros Hf; cbn [parseline parsepipe parseexec parseblock].
  - eapply ends_bind; [apply (IH s Hs); lia|lia|]. intros c s1 Hc Hs1. eapply ends_bind; [apply (parse_back_ends n s1 c); [lia|lia|done]|lia|]. intros c2 s2 Hc2 Hs2. cbn [fst snd].
    destruct (peek text _ s2) as [b s3] eqn:Hp. destruct (peek_spec _ _ _ _ Hp ltac:(lia)) as [P1 _]. destruct b; [|simpl; split; [lia|done]].
    destruct (gettoken text s3) as [[tok q] s4] eqn:Hg. destruct (peek_token _ _ _ _ _ _ Hp Hg ltac:(lia)) as (T1 & T2 & T3).
    eapply ends_bind; [apply (IH s4 T3); lia|lia|]. intros c5 s5 Hc5 Hs5. simpl. split; [lia|done].
  - eapply ends_bind; [apply (IH s Hs); lia|lia|]. intros c2 s2 Hc2 Hs2. cbn [fst snd].
    destruct (peek text _ s2) as [b s3] eqn:Hp. destruct (peek_spec _ _ _ _ Hp ltac:(lia)) as [P1 _]. destruct b; [|simpl; split; [lia|done]].
    destruct (gettoken text s3) as [[tok q] s4] eqn:Hg. destruct (peek_token _ _ _ _ _ _ Hp Hg ltac:(lia)) as (T1 & T2 & T3).
    eapply ends_bind; [apply (IH s4 T3); lia|lia|]. intros c5 s5 Hc5 Hs5. simpl. split; [lia|done].
  - destruct (peek text _ s) as [b s1] eqn:Hp. destruct (peek_spec _ _ _ _ Hp Hs) as [P1 _].
    destruct b; [eapply ends_weaken; [apply (IH s1); lia|lia]|].
    eapply ends_bind; [apply (parseredirs_ends n s1); lia|lia|]. intros rs s2 Hrs Hs2.
    eapply ends_bind; [apply (parse_args_ends n s2 [] rs); [lia|lia|constructor|unfold MAXARGS; simpl; lia|done]|lia|]. intros [argv rs2] s3 (A1 & A2 & A3) Hs3. simpl.
    split; [lia|]. by apply good_wrap.
  - destruct (peek text _ s) as [b s1] eqn:Hp. destruct (peek_spec _ _ _ _ Hp Hs) as [P1 _]. destruct b; cbn [negb]; [|done].
    destruct (gettoken text s1) as [[tok q] s2] eqn:Hg. destruct (peek_token _ _ _ _ _ _ Hp Hg Hs) as (T1 & T2 & T3).
    eapply ends_bind; [apply (IH s2 T3); lia|lia|]. intros c s3 Hc Hs3. cbn [fst snd].
    destruct (peek text _ s3) as [b s4] eqn:Hp4. destruct (peek_spec _ _ _ _ Hp4 ltac:(lia)) as [P4 _]. destruct b; cbn [negb]; [|done].
    destruct (gettoken text s4) as [[tok5 q5] s5] eqn:Hg5. destruct (peek_token _ _ _ _ _ _ Hp4 Hg5 ltac:(lia)) as (T4 & T5 & T6).
    eapply ends_bind; [apply (parseredirs_ends n s5); lia|lia|]. intros rs s6 Hrs Hs6. simpl. split; [lia|]. by apply good_wrap.
Qed.

(** ** nulterminate *)
Fixpoint nuls (c : cmd) : list nat :=
  match c with
  | EXEC argv => map snd argv
  | REDIR c _ efile _ _ => efile :: nuls c
  | PIPE l r | LIST l r => nuls l ++ nuls r
  | BACK c => nuls c
  end.
Lemma insert_zeros (argv : list (nat * nat)) : forall (buf : list Z) i, (i < length buf)%nat ->
  foldl (fun buf a => <[snd a := 0]> buf) buf argv !! i = if decide (i ∈ map snd argv) then Some 0 else buf !! i.
Proof.
  induction argv as [|[q e] argv IH]; intros buf i Hi; simpl; [done|]. rewrite IH by (by rewrite length_insert).
  destruct (decide (i ∈ map snd argv)); [by rewrite decide_True by set_solver|]. destruct (decide (i = e)) as [->|].
  - rewrite list_lookup_insert_eq, decide_True by (done || set_solver). done.
  - rewrite list_lookup_insert_ne, decide_False by (done || set_solver). done.
Qed.
Lemma length_nulterminate c : forall buf, length (nulterminate c buf) = length buf.
Proof.
  induction c as [argv|c IH f e m fd|l IHl r IHr|l IHl r IHr|c IH]; intros buf; simpl; [|by rewrite length_insert, IH|by rewrite IHr, IHl..|done].
  revert buf. induction argv as [|a argv IH]; intros buf; simpl; [done|]. by rewrite IH, length_insert.
Qed.
Lemma nulterminate_lookup c : forall buf i, (i < length buf)%nat -> nulterminate c buf !! i = if decide (i ∈ nuls c) then Some 0 else buf !! i.
Proof.
  induction c as [argv|c IH f e m fd|l IHl r IHr|l IHl r IHr|c IH]; intros buf i Hi; simpl.
  - by apply insert_zeros.
  - destruct (decide (i = e)) as [->|].
    + rewrite list_lookup_insert_eq, decide_True by (rewrite ?length_nulterminate; done || set_solver). done.
    + rewrite list_lookup_insert_ne, IH by done. destruct (decide (i ∈ nuls c)); [rewrite decide_True by set_solver|rewrite decide_False by set_solver]; done.
  - rewrite IHr by (by rewrite length_nulterminate). rewrite IHl by done. repeat case_decide; set_solver.
  - rewrite IHr by (by rewrite length_nulterminate). rewrite IHl by done. repeat case_decide; set_solver.
  - by apply IH.
Qed.

(** Every place a NUL is put is behind a word, so it is in no word. *)
Lemma good_nuls c i : good c -> i ∈ nuls c -> (i <= len)%nat /\ ((i < len)%nat -> wordchar (at_ i) = false).
Proof.
  induction c as [argv|c IH f e m fd|l IHl r IHr|l IHl r IHr|c IH]; simpl.
  - intros [Ha _] (q & -> & Hq)%list_elem_of_fmap. rewrite Forall_forall in Ha. specialize (Ha q Hq). split; [apply Ha|apply Ha].
  - intros (Hc & Ht & _) [->|Hi]%elem_of_cons; [split; apply Ht|by apply IH].
  - intros [Hl Hr] [Hi|Hi]%elem_of_app; auto.
  - intros [Hl Hr] [Hi|Hi]%elem_of_app; auto.
  - auto.
Qed.

Definition tok_text (q : nat * nat) : list Z := take (snd q - fst q) (drop (fst q) text).
Lemma scan_exact P (l : list Z) n d : (forall i, (i < n)%nat -> exists c, l !! i = Some c /\ P c = true) -> l !! n = Some d -> P d = false -> scan P l = n.
Proof.
  revert n. induction l as [|c l IH]; intros n Hc Hd Hp; [done|]. simpl. destruct n as [|n].
  - simpl in Hd. simplify_eq. by rewrite Hp.
  - destruct (Hc 0%nat ltac:(lia)) as (c' & [= ->] & ->). f_equal. apply IH; [|done|done]. intros i Hi. apply (Hc (S i)). lia.
Qed.
Lemma token_cstr c q : good c -> token q -> snd q ∈ nuls c -> cstr (nulterminate c (text ++ [0])) (fst q) = tok_text q.
Proof.
  intros Hg [T1 T2 T3 T4] Hin. set (buf := nulterminate c (text ++ [0])). assert (length (text ++ [0]) = S len) as Hlen by (rewrite length_app; simpl; lia).
  assert (forall i, (fst q <= i < snd q)%nat -> buf !! i = text !! i) as Hsame.
  { intros i Hi. unfold buf. rewrite nulterminate_lookup by lia. rewrite decide_False; [by rewrite lookup_app_l by lia|]. intros Hn.
    destruct (good_nuls c i Hg Hn) as [_ Hw]. rewrite T3 in Hw by lia. specialize (Hw ltac:(lia)). done. }
  assert (scan (fun c => negb (c =? 0)) (drop (fst q) buf) = (snd q - fst q)%nat) as Hs.
  { apply (scan_exact _ _ _ 0); [|rewrite lookup_drop; unfold buf; rewrite nulterminate_lookup by lia; rewrite decide_True; [done|]|done].
    - intros i Hi. destruct (lookup_lt_is_Some_2 text (fst q + i)) as [x Hx]; [lia|]. exists x. rewrite lookup_drop, Hsame by lia. split; [done|].
      apply negb_true_iff, Z.eqb_neq. intros ->. apply no_nul. by eapply list_elem_of_lookup_2.
    - by replace (fst q + (snd q - fst q))%nat with (snd q) by lia. }
  unfold cstr. rewrite Hs. unfold tok_text. apply list_eq. intros i. destruct (decide (i < snd q - fst q)%nat).
  - rewrite !lookup_take_lt, !lookup_drop by done. apply Hsame. lia.
  - rewrite !lookup_take_ge by lia. done.
Qed.
End Tokens.

(** ** Commands as trees of words *)
Inductive ast : Type :=
| AExec (argv : list (list Z))
| ARedir (c : ast) (file : list Z) (mode fd : Z)
| APipe (l r : ast)
| AList (l r : ast)
| ABack (c : ast).
Fixpoint as_ast (f : nat * nat -> list Z) (c : cmd) : ast :=
  match c with
  | EXEC argv => AExec (map f argv)
  | REDIR c file efile mode fd => ARedir (as_ast f c) (f (file, efile)) mode fd
  | PIPE l r => APipe (as_ast f l) (as_ast f r)
  | LIST l r => AList (as_ast f l) (as_ast f r)
  | BACK c => ABack (as_ast f c)
  end.
Lemma as_ast_ext text f g : forall c, good text c -> (forall q, token text q -> snd q ∈ nuls c -> f q = g q) -> as_ast f c = as_ast g c.
Proof.
  induction c as [argv|c IH file e m fd|l IHl r IHr|l IHl r IHr|c IH]; simpl.
  - intros [Ha _] H. f_equal. apply list_fmap_ext. intros i q Hq. rewrite Forall_lookup in Ha. apply H; [by eapply Ha|]. apply list_elem_of_fmap. exists q.
    split; [done|by eapply list_elem_of_lookup_2].
  - intros (Hc & Ht & _) H. rewrite (H (file, e)) by (done || set_solver). rewrite IH; [done|done|]. intros q Hq Hi. apply H; [done|set_solver].
  - intros [Hl Hr] H. rewrite IHl, IHr; [done|done| |done|]; intros q Hq Hi; apply H; set_solver.
  - intros [Hl Hr] H. rewrite IHl, IHr; [done|done| |done|]; intros q Hq Hi; apply H; set_solver.
  - intros Hc H. by rewrite IH.
Qed.

Lemma parsecmd_ok (text : list Z) : 0 ∉ text ->
  (exists msg, parsecmd text = Panic msg) \/
  (exists c buf, parsecmd text = Ok (c, buf) /\ good text c /\ as_ast (fun q => cstr buf (fst q)) c = as_ast (tok_text text) c).
Proof.
  intros Hnul. unfold parsecmd. pose proof (proj1 (parsers_end text Hnul (S (length text)) ltac:(lia) (parse_fuel text) 0 ltac:(lia))) as Hp.
  specialize (Hp ltac:(unfold parse_fuel; lia)). destruct (parseline _ _ _ _) as [[c s]|msg| | |]; simpl in Hp; [|by left; exists msg|done..].
  destruct Hp as [Hs Hg]. cbn [obind fst snd]. destruct (peek text [] s) as [b s1]. destruct (Nat.eqb s1 (length text)); cbn [negb]; [right|left; by eexists].
  eexists c, _. split; [reflexivity|]. split; [done|]. apply (as_ast_ext text); [done|]. intros q Hq Hi. by apply token_cstr.
Qed.

(** Parsecmd() ends on every command line, with a command or with an error
    message.  After it has put the NULs into the line, every argument and file
    name of the command is the C string that is the word of the line it was
    parsed from; the words are maximal runs of characters that are neither
    blank nor symbols, no command has more than nine arguments, and redirections
    are of one of the three kinds. *)
Theorem parsecmd_ends (text : list Z) : 0 ∉ text ->
  (exists msg, parsecmd text = Panic msg) \/
  (exists c buf, parsecmd text = Ok (c, buf) /\ good text c /\ as_ast (fun q => cstr buf (fst q)) c = as_ast (tok_text text) c).
Proof. apply parsecmd_ok. Qed.

(** "ls>f a": the argument behind the redirection belongs to ls. *)
Lemma parsecmd_ends_witness : exists c buf, parsecmd [108; 115; 62; 102; 32; 97] = Ok (c, buf) /\
  as_ast (fun q => cstr buf (fst q)) c = ARedir (AExec [[108; 115]; [97]]) [102] 1537 1.
Proof.
  destruct (parsecmd_ends [108; 115; 62; 102; 32; 97]) as [[msg H]|(c & buf & H1 & _ & H2)].
  - apply (bool_decide_unpack _). by vm_compute.
  - exfalso. by vm_compute in H.
  - exists c, buf. split; [done|]. rewrite H2. vm_compute in H1. injection H1 as <- <-. by vm_compute.
Defined.
