(* ===== verification/ShPrint.v ===== *)
(** * Every command tree has a line that parses to it *)
From stdpp Require Import base list strings sets gmap.
From Stdlib Require Import ZArith Lia.
From S2P Require Import Prelude Sysfile Sh ShSpec.

(** ** A printer: every part of a compound command is in parentheses *)
Fixpoint join (ws : list (list Z)) : list Z :=
  match ws with
  | [] => []
  | w :: ws => w ++ (match ws with [] => [] | _ => 32 :: join ws end)
  end.
Definition redir_op (mode fd : Z) : list Z :=
  if fd =? 0 then [60] else if mode =? Z.lor (Z.lor O_WRONLY O_CREATE) O_TRUNC then [62] else [62; 62].
Fixpoint print (a : ast) : list Z :=
  match a with
  | AExec ws => join ws
  | ARedir c file mode fd => 40 :: print c ++ 41 :: redir_op mode fd ++ file
  | APipe l r => 40 :: print l ++ 41 :: 124 :: 40 :: print r ++ [41]
  | AList l r => 40 :: print l ++ 41 :: 59 :: 40 :: print r ++ [41]
  | ABack c => 40 :: print c ++ [41; 38]
  end.

Definition isword (w : list Z) : Prop := w <> [] /\ Forall (fun c => wordchar c = true /\ c <> 0) w.
Fixpoint printable (a : ast) : Prop :=
  match a with
  | AExec ws => Forall isword ws /\ (length ws < MAXARGS)%nat
  | ARedir c file mode fd => printable c /\ isword file /\ redir_mode mode fd
  | APipe l r | AList l r => printable l /\ printable r
  | ABack c => printable c
  end.

(** Where a token starts: no blank, no NUL. *)
Definition nbhead (l : list Z) : Prop := match l with [] => True | c :: _ => blank c = false /\ c <> 0 end.
Definition headin (toks l : list Z) : bool := match l with [] => false | c :: _ => has toks c end.
(** What follows a printed command: nothing or a closing parenthesis. *)
Definition stop (l : list Z) : Prop := match l with [] => True | c :: _ => c = 41 end.
Lemma stop_nbhead l : stop l -> nbhead l.
Proof. destruct l; simpl; [done|]. by intros ->. Qed.
Lemma wordchar_blank c : wordchar c = true -> blank c = false.
Proof. unfold wordchar, blank. intros [H _]%andb_prop. by apply negb_true_iff in H. Qed.
Lemma wordchar_sym c toks : wordchar c = true -> (forall x, x ∈ toks -> x ∈ symbols) -> has toks c = false.
Proof.
  intros [_ H]%andb_prop Hs. apply negb_true_iff in H. destruct (has toks c) eqn:Ht; [|done]. apply has_spec in Ht. apply Hs in Ht. apply has_spec in Ht. congruence.
Qed.
Lemma isword_head w rest : isword w -> exists c w', w ++ rest = c :: w' /\ wordchar c = true /\ c <> 0.
Proof. intros [Hne Hw]. destruct w as [|c w]; [done|]. apply Forall_cons in Hw as [[H1 H2] _]. by exists c, (w ++ rest). Qed.
Lemma print_nbhead a rest : printable a -> stop rest -> nbhead (print a ++ rest).
Proof.
  destruct a as [[|w ws]|c f m fd|l r|l r|c]; simpl; intros Hp Hs; [by apply stop_nbhead| |done..].
  destruct Hp as [Hw _]. apply Forall_cons in Hw as [Hw _]. rewrite <- app_assoc. destruct (isword_head w ((match ws with [] => [] | _ => 32 :: join ws end) ++ rest) Hw) as (c & w' & -> & H1 & H2).
  simpl. split; [by apply wordchar_blank|done].
Qed.

Section Here.
Variable text : list Z.
Notation len := (length text).

Definition here (s : nat) (suf : list Z) : Prop := drop s text = suf /\ (s <= len)%nat.
Lemma here_len s suf : here s suf -> len = (s + length suf)%nat.
Proof. intros [<- H]. rewrite length_drop. lia. Qed.
Lemma here_app s a b : here s (a ++ b) -> here (s + length a) b.
Proof. intros H. pose proof (here_len _ _ H) as Hl. rewrite length_app in Hl. destruct H as [H _]. split; [|lia]. rewrite <- drop_drop, H. by rewrite drop_app_length. Qed.
Lemma here_tail s c suf : here s (c :: suf) -> here (S s) suf.
Proof. intros H. apply (here_app s [c] suf) in H. by rewrite Nat.add_1_r in H. Qed.
Lemma here_char s suf : here s suf -> char_at text s = hd 0 suf.
Proof.
  intros [H Hs]. unfold char_at. destruct suf as [|c suf].
  - apply nth_overflow. assert (length (drop s text) = 0%nat) as Hl by (by rewrite H). rewrite length_drop in Hl. lia.
  - apply nth_lookup_Some. rewrite <- (Nat.add_0_r s), <- lookup_drop, H. done.
Qed.
Lemma skip_here s suf : here s suf -> nbhead suf -> skip_ws text s = s.
Proof. intros [H _] Hn. unfold skip_ws. rewrite H. destruct suf as [|c suf]; simpl; [lia|]. destruct Hn as [-> _]. lia. Qed.
Lemma skip_space s suf : here s (32 :: suf) -> nbhead suf -> skip_ws text s = S s.
Proof. intros [H _] Hn. unfold skip_ws. rewrite H. simpl. destruct suf as [|c suf]; simpl; [lia|]. destruct Hn as [-> _]. lia. Qed.
Lemma peek_here toks s suf : here s suf -> nbhead suf -> peek text toks s = (headin toks suf, s).
Proof.
  intros H Hn. unfold peek. rewrite (skip_here _ _ H Hn), (here_char _ _ H). destruct suf as [|c suf]; simpl; [done|]. destruct Hn as [_ Hn].
  by rewrite (proj2 (Z.eqb_neq c 0) Hn).
Qed.
Lemma token_sym s c suf : here s (c :: suf) -> nbhead (c :: suf) -> nbhead suf -> has [124; 40; 41; 59; 38; 60] c = true -> gettoken text s = (c, (s, S s), S s).
Proof.
  intros H Hn Hn2 Hc. unfold gettoken. rewrite (skip_here _ _ H Hn), (here_char _ _ H). cbn [hd]. rewrite (proj2 (Z.eqb_neq c 0)) by apply Hn. rewrite Hc.
  by rewrite (skip_here _ _ (here_tail _ _ _ H) Hn2).
Qed.
Lemma token_word s w suf : here s (w ++ suf) -> isword w -> (match suf with [] => True | c :: _ => wordchar c = false end) ->
  gettoken text s = (97, (s, (s + length w)%nat), skip_ws text (s + length w)) /\ tok_text text (s, (s + length w)%nat) = w.
Proof.
  intros H Hw Hend. destruct (isword_head w suf Hw) as (c & w' & Hcw & H1 & H2). split.
  - unfold gettoken. assert (nbhead (w ++ suf)) as Hn by (rewrite Hcw; split; [by apply wordchar_blank|done]). rewrite (skip_here _ _ H Hn). assert (char_at text s = c) as Hch by (by rewrite (here_char _ _ H), Hcw). rewrite Hch.
    rewrite (proj2 (Z.eqb_neq c 0) H2). rewrite (wordchar_sym c _ H1) by (unfold symbols; set_solver). destruct (Z.eqb_spec c 62) as [->|_]; [done|].
    destruct H as [H _]. rewrite H. destruct Hw as [_ Hw]. rewrite scan_all by (eapply Forall_impl; [exact Hw|]; by intros x [? _]).
    replace (scan wordchar suf) with 0%nat by (destruct suf as [|x suf]; [done|]; simpl; by rewrite Hend). by rewrite Nat.add_0_r.
  - unfold tok_text. cbn [fst snd]. destruct H as [-> _]. replace (s + length w - s)%nat with (length w) by lia. apply take_app_length.
Qed.
Lemma parseredirs_none n s suf : here s suf -> nbhead suf -> headin [60; 62] suf = false -> (0 < n)%nat -> parseredirs text n s = Ok ([], s).
Proof. intros H Hn Hh Hpos. destruct n as [|n]; [lia|]. cbn [parseredirs]. by rewrite (peek_here _ _ _ H Hn), Hh. Qed.

(** The words of a simple command. *)
Lemma join_cons w ws rest : join (w :: ws) ++ rest = w ++ (match ws with [] => rest | _ => 32 :: join ws ++ rest end).
Proof. cbn [join]. rewrite <- app_assoc. by destruct ws. Qed.
Lemma join_head ws rest : Forall isword ws -> stop rest -> nbhead (join ws ++ rest) /\ headin [60; 62; 40] (join ws ++ rest) = false.
Proof.
  intros Hw Hs. destruct ws as [|w ws].
  - destruct rest as [|c rest]; simpl in *; [done|]. by subst.
  - apply Forall_cons in Hw as [Hw _]. rewrite join_cons. destruct (isword_head w (match ws with [] => rest | _ => 32 :: join ws ++ rest end) Hw) as (c & w' & -> & H1 & H2).
    split; [split; [by apply wordchar_blank|done]|]. cbn [headin]. apply (wordchar_sym c _ H1). unfold symbols. set_solver.
Qed.
Lemma headin_sub toks toks' l : headin toks l = false -> (forall x, x ∈ toks' -> x ∈ toks) -> headin toks' l = false.
Proof.
  destruct l as [|c l]; [done|]. simpl. intros H Hs. destruct (has toks' c) eqn:Hc; [|done]. apply has_spec, Hs, has_spec in Hc. congruence.
Qed.
Lemma length_join ws : Forall isword ws -> (length ws <= length (join ws))%nat.
Proof.
  induction 1 as [|w ws [Hne _] Hws IH]; [done|]. cbn [join]. rewrite length_app. destruct w as [|c w]; [done|]. destruct ws; simpl in *; lia.
Qed.
Lemma parse_args_join n : forall ws s argv rs rest, here s (join ws ++ rest) -> stop rest -> Forall isword ws -> (length argv + length ws < MAXARGS)%nat -> (length ws < n)%nat ->
  exists toks, parse_args text n argv rs s = Ok (argv ++ toks, rs, (s + length (join ws))%nat) /\ map (tok_text text) toks = ws.
Proof.
  induction n as [|n IH]; intros ws s argv rs rest H Hs Hw Hl Hn; [lia|]. destruct (join_head ws rest Hw Hs) as [Hnb Hh]. cbn [parse_args]. rewrite (peek_here _ _ _ H Hnb).
  destruct ws as [|w ws].
  { exists []. rewrite app_nil_r, Nat.add_0_r. split; [|done]. simpl in H. destruct rest as [|c rest]; simpl in *; [|by subst].
    unfold gettoken. rewrite (skip_here _ _ H I), (here_char _ _ H). simpl. by rewrite (skip_here _ _ H I). }
  apply Forall_cons in Hw as [Hw Hws].
  assert (headin [124; 41; 38; 59] (join (w :: ws) ++ rest) = false) as ->.
  { rewrite join_cons. destruct (isword_head w (match ws with [] => rest | _ => 32 :: join ws ++ rest end) Hw) as (c & w' & -> & H1 & H2).
    cbn [headin]. apply (wordchar_sym c _ H1). unfold symbols. set_solver. }
  rewrite join_cons in H, Hnb, Hh.
  destruct (token_word s w _ H Hw) as [Ht Htt]; [destruct ws; [|done]; destruct rest; simpl in *; [done|by subst]|]. rewrite Ht. cbn [negb Z.eqb Pos.eqb].
  change (97 =? 0) with false. change (97 =? 97) with true. cbn [negb].
  destruct (Nat.leb_spec MAXARGS (length (argv ++ [(s, (s + length w)%nat)]))) as [Hbig|_]; [rewrite length_app in Hbig; simpl in *; lia|].
  set (s1 := skip_ws text (s + length w)). pose proof (here_app _ _ _ H) as H3.
  assert (here s1 (join ws ++ rest) /\ (s + length (join (w :: ws)) = s1 + length (join ws))%nat) as [H4 Hlen].
  { destruct ws as [|w2 ws].
    - unfold s1. rewrite (skip_here _ _ H3 (stop_nbhead _ Hs)). split; [done|]. cbn [join]. rewrite app_nil_r. simpl. lia.
    - destruct (join_head (w2 :: ws) rest Hws Hs) as [Hnb2 _]. unfold s1. rewrite (skip_space _ _ H3 Hnb2). split; [by apply here_tail in H3|]. cbn [join]. rewrite length_app. cbn [length]. lia. }
  destruct (join_head ws rest Hws Hs) as [Hnb4 Hh4].
  rewrite (parseredirs_none (S n) s1 _ H4 Hnb4 (headin_sub _ [60; 62] _ Hh4 ltac:(set_solver)) ltac:(lia)). cbn [obind fst snd]. rewrite app_nil_r.
  destruct (IH ws s1 (argv ++ [(s, (s + length w)%nat)]) rs rest H4 Hs Hws) as (toks & Hp & Hm); [rewrite length_app; simpl in *; lia|simpl in *; lia|].
  exists ((s, (s + length w)%nat) :: toks). rewrite Hp. split; [|simpl; by rewrite Htt, Hm]. rewrite <- app_assoc. by rewrite Hlen.
Qed.

(** A command in parentheses. *)
Definition parses (n : nat) a : Prop := forall s rest fuel, here s (print a ++ rest) -> stop rest -> (4 * length (print a) + 4 <= fuel)%nat ->
  exists c, parseline text n fuel s = Ok (c, (s + length (print a))%nat) /\ as_ast (tok_text text) c = a.
Lemma block_parses n a s suf fuel : parses n a -> printable a -> here s (40 :: print a ++ 41 :: suf) -> nbhead suf -> (4 * length (print a) + 6 <= fuel)%nat ->
  exists c, as_ast (tok_text text) c = a /\
    parseexec text n fuel s = obind (parseredirs text n (s + length (print a) + 2)) (fun rs => Ok (foldl redircmd c (fst rs), snd rs)).
Proof.
  intros Ha Hp H Hn Hf. destruct fuel as [|[|fuel]]; [lia|lia|]. assert (nbhead (print a ++ 41 :: suf)) as Hn1 by (by apply print_nbhead).
  destruct (Ha (S s) (41 :: suf) fuel) as (c & Hc & Hast); [by apply here_tail in H|done|lia|]. exists c. split; [done|].
  cbn [parseexec]. rewrite (peek_here [40] s _ H ltac:(done)). change (headin [40] (40 :: print a ++ 41 :: suf)) with true. cbv iota.
  cbn [parseblock]. rewrite (peek_here [40] s _ H ltac:(done)). change (headin [40] (40 :: print a ++ 41 :: suf)) with true. cbn [negb].
  rewrite (token_sym s 40 _ H ltac:(done) Hn1 ltac:(done)). rewrite Hc. cbn [obind fst snd].
  pose proof (here_app _ _ _ (here_tail _ _ _ H)) as H2. rewrite (peek_here [41] _ _ H2 ltac:(done)). change (headin [41] (41 :: suf)) with true. cbn [negb].
  rewrite (token_sym _ 41 _ H2 ltac:(done) Hn ltac:(done)). replace (s + length (print a) + 2)%nat with (S (S s + length (print a))) by lia. done.
Qed.
Lemma here_block a s suf : here s (40 :: print a ++ 41 :: suf) -> here (s + length (print a) + 2) suf.
Proof.
  intros H. apply here_tail, here_app, here_tail in H. replace (s + length (print a) + 2)%nat with (S (S s + length (print a))) by lia. done.
Qed.
Lemma pipe_block n a s suf fuel : parses n a -> printable a -> here s (40 :: print a ++ 41 :: suf) -> nbhead suf -> headin [60; 62; 124] suf = false ->
  (4 * length (print a) + 7 <= fuel)%nat -> (0 < n)%nat ->
  exists c, parsepipe text n fuel s = Ok (c, (s + length (print a) + 2)%nat) /\ as_ast (tok_text text) c = a.
Proof.
  intros Ha Hp H Hn Hh Hf Hn0. destruct fuel as [|fuel]; [lia|]. pose proof (here_block _ _ _ H) as H2.
  destruct (block_parses n a s suf fuel Ha Hp H Hn ltac:(lia)) as (c & Hast & He). exists c. split; [|done]. cbn [parsepipe]. rewrite He.
  rewrite (parseredirs_none n _ suf H2 Hn (headin_sub _ [60; 62] _ Hh ltac:(set_solver)) Hn0). cbn [obind fst snd foldl].
  by rewrite (peek_here [124] _ _ H2 Hn), (headin_sub _ [124] _ Hh ltac:(set_solver)).
Qed.
(** The end of a line: no more commands. *)
Lemma line_ends n fuel s c s1 rest : parsepipe text n fuel s = Ok (c, s1) -> here s1 rest -> stop rest -> (0 < n)%nat -> parseline text n (S fuel) s = Ok (c, s1).
Proof.
  intros Hp H Hs Hn. pose proof (stop_nbhead _ Hs) as Hnb. assert (headin [38; 59] rest = false) as Hh by (destruct rest; simpl in *; [done|by subst]).
  cbn [parseline]. rewrite Hp. cbn [obind fst snd]. destruct n as [|n]; [lia|]. cbn [parse_back].
  rewrite (peek_here [38] _ _ H Hnb), (headin_sub _ [38] _ Hh ltac:(set_solver)). cbn [obind fst snd].
  by rewrite (peek_here [59] _ _ H Hnb), (headin_sub _ [59] _ Hh ltac:(set_solver)).
Qed.

Lemma exec_parses n ws : (length text < n)%nat -> printable (AExec ws) -> parses n (AExec ws).
Proof.
  intros Hn [Hw Hl] s rest fuel H Hs Hf. cbn [print] in *. destruct fuel as [|[|[|fuel]]]; [lia..|]. destruct (join_head ws rest Hw Hs) as [Hnb Hh].
  pose proof (length_join ws Hw) as Hlj. pose proof (here_len _ _ H) as Hlen. rewrite length_app in Hlen.
  destruct (parse_args_join n ws s [] [] rest H Hs Hw Hl ltac:(lia)) as (toks & Hp & Hm). exists (EXEC toks). split; [|simpl; by rewrite Hm].
  apply (line_ends n _ s _ _ rest); [|by apply here_app|done|lia]. pose proof (here_app _ _ _ H) as H2. pose proof (stop_nbhead _ Hs) as Hnb2.
  assert (headin [124] rest = false) as Hr by (destruct rest; simpl in *; [done|by subst]).
  cbn [parsepipe parseexec]. rewrite (peek_here [40] _ _ H Hnb), (headin_sub _ [40] _ Hh ltac:(set_solver)).
  rewrite (parseredirs_none n s _ H Hnb (headin_sub _ [60; 62] _ Hh ltac:(set_solver)) ltac:(lia)). cbn [obind fst snd]. rewrite Hp. cbn [obind fst snd foldl app].
  by rewrite (peek_here [124] _ _ H2 Hnb2), Hr.
Qed.

(** One redirection behind a parenthesis. *)
Lemma redir_parses n s mode fd file rest : (2 <= n)%nat -> redir_mode mode fd -> isword file -> stop rest -> here s (redir_op mode fd ++ file ++ rest) ->
  exists r, parseredirs text n s = Ok ([r], (s + length (redir_op mode fd ++ file))%nat) /\ r_mode r = mode /\ r_fd r = fd /\ tok_text text (r_file r, r_efile r) = file.
Proof.
  intros Hn Hm Hw Hs H. destruct n as [|[|n]]; [lia..|]. destruct (isword_head file rest Hw) as (c & w' & Hc & H1 & H2).
  assert (nbhead (file ++ rest)) as Hnb by (rewrite Hc; split; [by apply wordchar_blank|done]).
  assert (forall s1, here s1 (file ++ rest) -> exists q, gettoken text s1 = (97, q, (s1 + length file)%nat) /\ tok_text text q = file /\ here (s1 + length file) rest) as Hfile.
  { intros s1 Hh. destruct (token_word s1 file rest Hh Hw) as [T1 T2]; [destruct rest; simpl in *; [done|by subst]|]. exists (s1, (s1 + length file)%nat).
    pose proof (here_app _ _ _ Hh) as H3. split; [|done]. rewrite T1. by rewrite (skip_here _ _ H3 (stop_nbhead _ Hs)). }
  assert (forall s2, here s2 rest -> parseredirs text (S n) s2 = Ok ([], s2)) as Hnone.
  { intros s2 Hh. apply (parseredirs_none (S n) s2 rest Hh (stop_nbhead _ Hs)); [destruct rest; simpl in *; [done|by subst]|lia]. }
  assert (forall tok q1 s1, peek text [60; 62] s = (true, s) -> gettoken text s = (tok, q1, s1) -> here s1 (file ++ rest) -> (s1 + length file)%nat = (s + length (redir_op mode fd ++ file))%nat ->
    (forall q, exists r, redir_of tok q = [r] /\ r_mode r = mode /\ r_fd r = fd /\ (r_file r, r_efile r) = q) ->
    exists r, parseredirs text (S (S n)) s = Ok ([r], (s + length (redir_op mode fd ++ file))%nat) /\ r_mode r = mode /\ r_fd r = fd /\ tok_text text (r_file r, r_efile r) = file) as Hgo.
  { intros tok q1 s1 Hp Hg Hh Hlen Hr. destruct (Hfile s1 Hh) as (q & Hq & Ht & Hh2). destruct (Hr q) as (r & Hr1 & Hr2 & Hr3 & Hr4). exists r.
    split; [|rewrite Hr4; done]. cbn [parseredirs]. rewrite Hp, Hg, Hq. change (97 =? 97) with true. cbn [negb].
    change (obind (parseredirs text (S n) (s1 + length file)) (fun r0 => Ok (redir_of tok q ++ fst r0, snd r0)) = Ok ([r], (s + length (redir_op mode fd ++ file))%nat)).
    rewrite (Hnone _ Hh2). cbn [obind fst snd]. by rewrite Hr1, Hlen. }
  destruct Hm as [[-> ->]|[[-> ->]|[-> ->]]].
  - change (redir_op O_RDONLY 0) with [60] in *. apply (Hgo 60 (s, S s) (S s)).
    + by rewrite (peek_here _ _ _ H ltac:(done)).
    + by apply (token_sym s 60 _ H ltac:(done) Hnb).
    + by apply here_tail in H.
    + rewrite length_app. simpl. lia.
    + intros [q1 q2]. by eexists.
  - change (redir_op _ 1) with [62] in *. apply (Hgo 62 (s, S s) (S s)).
    + by rewrite (peek_here _ _ _ H ltac:(done)).
    + unfold gettoken. pose proof (here_tail _ _ _ H) as Ht. rewrite (skip_here _ _ H ltac:(done)), (here_char _ _ H), (here_char _ _ Ht). rewrite Hc. cbn [hd app]. change (62 =? 0) with false.
      change (has [124; 40; 41; 59; 38; 60] 62) with false. change (62 =? 62) with true. cbv iota. destruct (Z.eqb_spec c 62) as [->|_]; [done|]. by rewrite (skip_here _ _ Ht Hnb).
    + by apply here_tail in H.
    + rewrite length_app. simpl. lia.
    + intros [q1 q2]. by eexists.
  - change (redir_op (Z.lor O_WRONLY O_CREATE) 1) with [62; 62] in *. pose proof (here_tail _ _ _ (here_tail _ _ _ H)) as Ht. apply (Hgo 43 (s, S (S s)) (S (S s))).
    + by rewrite (peek_here _ _ _ H ltac:(done)).
    + unfold gettoken. rewrite (skip_here _ _ H ltac:(done)), (here_char _ _ H), (here_char _ _ (here_tail _ _ _ H)). cbn [hd app].
      change (62 =? 0) with false. change (has [124; 40; 41; 59; 38; 60] 62) with false. change (62 =? 62) with true. cbv iota. by rewrite (skip_here _ _ Ht Hnb).
    + done.
    + rewrite length_app. simpl. lia.
    + intros [q1 q2]. by eexists.
Qed.

Lemma redir_print n c f m fd : (length text < n)%nat -> parses n c -> printable (ARedir c f m fd) -> parses n (ARedir c f m fd).
Proof.
  intros Hn IH Hp. destruct Hp as (Hc & Hf & Hm). intros s rest fuel H Hs Hfuel. destruct fuel as [|[|fuel]]; [lia..|].
  cbn [print] in *. rewrite <- app_comm_cons, <- app_assoc, <- app_comm_cons, <- app_assoc in H. pose proof (here_block _ _ _ H) as H2. pose proof (here_len _ _ H) as Hlen.
  cbn [length] in *. rewrite length_app in Hfuel, Hlen. cbn [length] in *. rewrite !length_app in Hlen.
  assert (nbhead (redir_op m fd ++ f ++ rest)) as Hnb by (by destruct Hm as [[-> ->]|[[-> ->]|[-> ->]]]).
  destruct (block_parses n c s _ fuel IH Hc H Hnb ltac:(lia)) as (x & Hx & He).
  destruct (redir_parses n _ m fd f rest ltac:(lia) Hm Hf Hs H2) as (rd & Hr & R1 & R2 & R3). rewrite Hr in He. cbn [obind fst snd foldl] in He.
  exists (redircmd x rd). split; [|unfold redircmd; cbn [as_ast]; by rewrite Hx, R3, R1, R2].
  replace (s + S (length (print c ++ 41%Z :: redir_op m fd ++ f)))%nat with (s + length (print c) + 2 + length (redir_op m fd ++ f))%nat by (rewrite !length_app; cbn [length]; rewrite ?length_app; lia).
  pose proof (here_app _ (redir_op m fd ++ f) rest ltac:(rewrite <- app_assoc; exact H2)) as H3.
  apply (line_ends n _ s _ _ rest); [|done|done|lia]. cbn [parsepipe]. rewrite He. cbn [obind fst snd].
  rewrite (peek_here [124] _ _ H3 (stop_nbhead _ Hs)). assert (headin [124] rest = false) as -> by (destruct rest; simpl in *; [done|by subst]). done.
Qed.
Lemma pipe_print n l r : (length text < n)%nat -> parses n l -> parses n r -> printable (APipe l r) -> parses n (APipe l r).
Proof.
  intros Hn IHl IHr Hp. destruct Hp as (Hl & Hr). intros s rest fuel H Hs Hfuel. destruct fuel as [|[|fuel]]; [lia..|].
  cbn [print] in *. cbn [app] in H. rewrite <- app_assoc in H. cbn [app] in H. rewrite <- app_assoc in H. cbn [app] in H.
  cbn [length] in Hfuel. rewrite length_app in Hfuel. cbn [length] in Hfuel. rewrite length_app in Hfuel. cbn [length] in Hfuel.
  pose proof (here_block _ _ _ H) as H2. pose proof (here_tail _ _ _ H2) as H3. pose proof (here_block _ _ _ H3) as H4.
  destruct (block_parses n l s _ fuel IHl Hl H ltac:(done) ltac:(lia)) as (x & Hx & He).
  rewrite (parseredirs_none n _ _ H2 ltac:(done) ltac:(done) ltac:(lia)) in He. cbn [obind fst snd foldl] in He.
  assert (headin [60; 62; 124] rest = false) as Hh by (destruct rest; simpl in *; [done|by subst]).
  destruct (pipe_block n r _ rest fuel IHr Hr H3 (stop_nbhead _ Hs) Hh ltac:(lia) ltac:(lia)) as (y & Hy & Hya).
  exists (PIPE x y). split; [|cbn [as_ast]; by rewrite Hx, Hya].
  replace (s + length (40%Z :: print l ++ 41%Z :: 124%Z :: 40%Z :: print r ++ [41%Z]))%nat with (S (s + length (print l) + 2) + length (print r) + 2)%nat
    by (cbn [length]; rewrite length_app; cbn [length]; rewrite length_app; cbn [length]; lia).
  apply (line_ends n _ s _ _ rest); [|done|done|lia]. cbn [parsepipe]. rewrite He. cbn [obind fst snd]. rewrite (peek_here [124] _ _ H2 ltac:(done)).
  cbn [headin]. change (has [124] 124) with true. cbv iota. rewrite (token_sym _ 124 _ H2 ltac:(done) ltac:(done) ltac:(done)). by rewrite Hy.
Qed.
Lemma list_print n l r : (length text < n)%nat -> parses n l -> parses n r -> printable (AList l r) -> parses n (AList l r).
Proof.
  intros Hn IHl IHr Hp. destruct Hp as (Hl & Hr). intros s rest fuel H Hs Hfuel. destruct fuel as [|[|fuel]]; [lia..|].
  cbn [print] in *. cbn [app] in H. rewrite <- app_assoc in H. cbn [app] in H. rewrite <- app_assoc in H. cbn [app] in H.
  cbn [length] in Hfuel. rewrite length_app in Hfuel. cbn [length] in Hfuel. rewrite length_app in Hfuel. cbn [length] in Hfuel.
  pose proof (here_block _ _ _ H) as H2. pose proof (here_tail _ _ _ H2) as H3. pose proof (here_block _ _ _ H3) as H4.
  destruct (pipe_block n l s _ (S fuel) IHl Hl H ltac:(done) ltac:(done) ltac:(lia) ltac:(lia)) as (x & Hx & Hxa).
  assert (headin [60; 62; 124] rest = false) as Hh by (destruct rest; simpl in *; [done|by subst]).
  destruct (pipe_block n r _ rest fuel IHr Hr H3 (stop_nbhead _ Hs) Hh ltac:(lia) ltac:(lia)) as (y & Hy & Hya).
  exists (LIST x y). split; [|cbn [as_ast]; by rewrite Hxa, Hya].
  replace (s + length (40%Z :: print l ++ 41%Z :: 59%Z :: 40%Z :: print r ++ [41%Z]))%nat with (S (s + length (print l) + 2) + length (print r) + 2)%nat
    by (cbn [length]; rewrite length_app; cbn [length]; rewrite length_app; cbn [length]; lia).
  pose proof (line_ends n fuel _ _ _ rest Hy H4 Hs ltac:(lia)) as Hline.
  change (parseline text n (S (S fuel)) s) with (obind (parsepipe text n (S fuel) s) (fun r =>
    obind (parse_back text n (fst r) (snd r)) (fun r => let '(b, s) := peek text [59] (snd r) in
    if b then let '(_, _, s) := gettoken text s in obind (parseline text n (S fuel) s) (fun r' => Ok (LIST (fst r) (fst r'), snd r')) else Ok (fst r, s)))).
  rewrite Hx. cbn [obind fst snd]. destruct n as [|n]; [lia|]. cbn [parse_back].
  rewrite (peek_here [38] _ _ H2 ltac:(done)). cbn [headin]. change (has [38] 59) with false. cbv iota. cbn [obind fst snd].
  rewrite (peek_here [59] _ _ H2 ltac:(done)). cbn [headin]. change (has [59] 59) with true. cbv iota.
  rewrite (token_sym _ 59 _ H2 ltac:(done) ltac:(done) ltac:(done)). by rewrite Hline.
Qed.
Lemma back_print n c : (length text < n)%nat -> parses n c -> printable (ABack c) -> parses n (ABack c).
Proof.
  intros Hn IH Hp. intros s rest fuel H Hs Hfuel. destruct fuel as [|fuel]; [lia..|].
  cbn [print] in *. cbn [app] in H. rewrite <- app_assoc in H. cbn [app] in H. cbn [length] in Hfuel. rewrite length_app in Hfuel. cbn [length] in Hfuel.
  pose proof (here_block _ _ _ H) as H2. pose proof (here_tail _ _ _ H2) as H3. pose proof (stop_nbhead _ Hs) as Hnb. pose proof (here_len _ _ H) as Hlen. cbn [length] in Hlen. rewrite length_app in Hlen. cbn [length] in Hlen.
  destruct (pipe_block n c s _ fuel IH Hp H ltac:(done) ltac:(done) ltac:(lia) ltac:(lia)) as (x & Hx & Hxa).
  exists (BACK x). split; [|cbn [as_ast]; by rewrite Hxa].
  replace (s + length (40%Z :: print c ++ [41%Z; 38%Z]))%nat with (S (s + length (print c) + 2)) by (cbn [length]; rewrite length_app; cbn [length]; lia).
  assert (headin [38; 59] rest = false) as Hh by (destruct rest; simpl in *; [done|by subst]).
  cbn [parseline]. rewrite Hx. cbn [obind fst snd]. destruct n as [|[|n]]; [lia..|]. cbn [parse_back].
  rewrite (peek_here [38] _ _ H2 ltac:(done)). cbn [headin]. change (has [38] 38) with true. cbv iota. rewrite (token_sym _ 38 _ H2 ltac:(done) Hnb ltac:(done)).
  rewrite (peek_here [38] _ _ H3 Hnb), (headin_sub _ [38] _ Hh ltac:(set_solver)). cbn [obind fst snd].
  by rewrite (peek_here [59] _ _ H3 Hnb), (headin_sub _ [59] _ Hh ltac:(set_solver)).
Qed.
Lemma print_parses n : (length text < n)%nat -> forall a, printable a -> parses n a.
Proof.
  intros Hn. induction a as [ws|c IH f m fd|l IHl r IHr|l IHl r IHr|c IH]; intros Hp.
  - by apply exec_parses.
  - apply redir_print; [done|by apply IH, Hp|done].
  - apply pipe_print; [done|by apply IHl, Hp|by apply IHr, Hp|done].
  - apply list_print; [done|by apply IHl, Hp|by apply IHr, Hp|done].
  - apply back_print; [done|by apply IH|done].
Qed.
End Here.

Lemma print_no_nul a : printable a -> 0 ∉ print a.
Proof.
  assert (forall w, isword w -> 0 ∉ w) as Hw by (intros w [_ H] Hin; rewrite Forall_forall in H; by destruct (H 0 Hin)).
  induction a as [ws|c IH f m fd|l IHl r IHr|l IHl r IHr|c IH]; cbn [print printable].
  - intros [H _]. induction H as [|w ws Hword _ IH]; [set_solver|]. cbn [join]. apply Hw in Hword. destruct ws; set_solver.
  - intros (Hc & Hf & Hm). apply IH in Hc. apply Hw in Hf. destruct Hm as [[-> ->]|[[-> ->]|[-> ->]]]; set_solver.
  - intros [Hl Hr]. apply IHl in Hl. apply IHr in Hr. set_solver.
  - intros [Hl Hr]. apply IHl in Hl. apply IHr in Hr. set_solver.
  - intros Hc. apply IH in Hc. set_solver.
Qed.

(** C32: every command tree of words (at most nine arguments in a simple command,
    redirections of the three kinds) has a line that parsecmd() parses back to
    that very tree: with each part in parentheses, pipes, lists, background
    commands and redirections nest to any depth, and the strings the command
    refers to after NULs were put into the line are the words of the tree. *)
Theorem print_parsecmd (a : ast) : printable a ->
  exists c buf, parsecmd (print a) = Ok (c, buf) /\ as_ast (fun q => cstr buf (fst q)) c = a.
Proof.
  intros Ha. set (text := print a). pose proof (print_no_nul a Ha) as Hnul.
  assert (here text 0 (print a ++ [])) as H0 by (split; [by rewrite app_nil_r|lia]).
  destruct (print_parses text (S (length text)) ltac:(lia) a Ha 0%nat [] (parse_fuel text) H0 I) as (c & Hc & Hast); [unfold parse_fuel, text; lia|].
  pose proof (proj1 (parsers_end text Hnul (S (length text)) ltac:(lia) (parse_fuel text) 0 ltac:(lia)) ltac:(unfold parse_fuel; lia)) as Hg.
  rewrite Hc in Hg. destruct Hg as [_ Hg]. pose proof (here_app text _ _ _ H0) as H1.
  unfold parsecmd. rewrite Hc. cbn [obind fst snd]. rewrite (peek_here text [] _ _ H1 I). simpl (0 + _)%nat. rewrite Nat.eqb_refl. cbn [negb].
  eexists c, _. split; [reflexivity|]. rewrite <- Hast. apply (as_ast_ext text); [done|]. intros q Hq Hi. by apply token_cstr.
Qed.

Lemma print_parsecmd_witness : exists c buf,
  parsecmd (print (AList (APipe (AExec [[108; 115]]) (ARedir (AExec [[119; 99]; [120]]) [102] (Z.lor O_WRONLY O_CREATE) 1)) (ABack (AExec [])))) = Ok (c, buf) /\
  as_ast (fun q => cstr buf (fst q)) c = AList (APipe (AExec [[108; 115]]) (ARedir (AExec [[119; 99]; [120]]) [102] (Z.lor O_WRONLY O_CREATE) 1)) (ABack (AExec [])).
Proof.
  apply print_parsecmd. cbn [printable]. unfold redir_mode, isword, MAXARGS. repeat split; try (by repeat constructor); simpl; try lia; auto.
Defined.
