(* ===== verification/ShRun.v ===== *)
(** * What the shell starts

    [sim] runs the system calls of runcmd() on descriptor tables: open(), dup()
    and pipe() take the lowest free descriptors, fork() copies the table.  The
    programs it starts, with their descriptors, are those [wiring] derives from
    the command. *)
From stdpp Require Import base list strings sets gmap.
From Stdlib Require Import ZArith Lia.
From S2P Require Import Prelude Sysfile Sh ShSpec ShPrint.

(** What a descriptor refers to; a pipe has a number. *)
Inductive fdobj : Type :=
| Std (n : Z)
| Opened (file : list Z) (mode : Z)
| PipeRead (id : nat)
| PipeWrite (id : nat).
Definition fdtable : Type := list (option fdobj).

Fixpoint fd_alloc (o : fdobj) (t : fdtable) : option (Z * fdtable) :=
  match t with
  | [] => None
  | None :: t => Some (0, Some o :: t)
  | Some x :: t => match fd_alloc o t with Some (fd, t) => Some (fd + 1, Some x :: t) | None => None end
  end.

(** A program was executed, or a process waits for a child; with their
    descriptors. *)
Inductive event : Type :=
| Ran (argv : list (list Z)) (t : fdtable)
| Waiting (t : fdtable).

(** [n] is the number of the next pipe.  A child runs before its parent goes on;
    only descriptors can run out. *)
Fixpoint sim (p : prog) (t : fdtable) (n : nat) : list event * nat :=
  match p with
  | Exit _ => ([], n)
  | Exec argv _ => ([Ran argv t], n)
  | Close fd k => sim k (<[Z.to_nat fd := None]> t) n
  | Open file mode k => match fd_alloc (Opened file mode) t with Some (fd, t) => sim (k fd) t n | None => sim (k (-1)) t n end
  | Dup fd k =>
      match t !! Z.to_nat fd with
      | Some (Some o) => match fd_alloc o t with Some (_, t) => sim k t n | None => sim k t n end
      | _ => sim k t n
      end
  | Pipe k =>
      match fd_alloc (PipeRead n) t with
      | Some (p0, t1) => match fd_alloc (PipeWrite n) t1 with Some (p1, t2) => sim (k (Some (p0, p1))) t2 (S n) | None => sim (k None) t n end
      | None => sim (k None) t n
      end
  | Fork k => let '(es, n) := sim (k 0) t n in let '(es', n) := sim (k 1) t n in (es ++ es', n)
  | Wait k => let '(es, n) := sim k t n in (Waiting t :: es, n)
  | Chdir _ k => sim (k 0) t n
  | Fprintf _ _ _ k => sim k t n
  end.

(** Descriptors 0, 1 and 2 and nothing else. *)
Definition std (i o e : fdobj) : fdtable := [Some i; Some o; Some e] ++ replicate 13 None.

Fixpoint wiring (a : ast) (i o e : fdobj) (n : nat) : list event * nat :=
  match a with
  | AExec [] => ([], n)
  | AExec argv => ([Ran argv (std i o e)], n)
  | ARedir c file mode fd => if fd =? 0 then wiring c (Opened file mode) o e n else wiring c i (Opened file mode) e n
  | APipe l r =>
      let '(es, n') := wiring l i (PipeWrite n) e (S n) in
      let '(es', n'') := wiring r (PipeRead n) o e n' in
      (es ++ es' ++ [Waiting (std i o e); Waiting (std i o e)], n'')
  | AList l r =>
      let '(es, n') := wiring l i o e n in
      let '(es', n'') := wiring r i o e n' in
      (es ++ Waiting (std i o e) :: es', n'')
  | ABack c => wiring c i o e n
  end.

Fixpoint redirs_std (c : cmd) : Prop :=
  match c with
  | EXEC _ => True
  | REDIR c _ _ _ fd => redirs_std c /\ (fd = 0 \/ fd = 1)
  | PIPE l r | LIST l r => redirs_std l /\ redirs_std r
  | BACK c => redirs_std c
  end.
Lemma good_redirs_std text c : good text c -> redirs_std c.
Proof.
  induction c as [argv|c IH f e m fd|l IHl r IHr|l IHl r IHr|c IH]; simpl; try done; [|naive_solver..].
  intros (Hc & _ & Hm). split; [by apply IH|]. destruct Hm as [[_ ->]|[[_ ->]|[_ ->]]]; auto.
Qed.

Lemma sim_fork1 k t n : sim (fork1 k) t n = let '(es, n) := sim (k 0) t n in let '(es', n) := sim (k 1) t n in (es ++ es', n).
Proof. done. Qed.

Lemma runcmd_wiring buf c : redirs_std c -> forall i o e n, sim (runcmd buf c) (std i o e) n = wiring (as_ast (fun q => cstr buf (fst q)) c) i o e n.
Proof.
  induction c as [[|[q eq] argv]|c IH f ef m fd|l IHl r IHr|l IHl r IHr|c IH]; intros Hc i o e n; cbn [runcmd as_ast wiring redirs_std] in *.
  - reflexivity.
  - reflexivity.
  - destruct Hc as [Hc [-> | ->]]; cbn [sim].
    + change (<[Z.to_nat 0 := None]> (std i o e)) with (None :: drop 1 (std i o e)). cbn [fd_alloc]. change (0 <? 0) with false. cbv iota. by apply IH.
    + change (<[Z.to_nat 1 := None]> (std i o e)) with (Some i :: None :: drop 2 (std i o e)). cbn [fd_alloc]. change (0 + 1 <? 0) with false. cbv iota. by apply IH.
  - destruct Hc as [Hl Hr]. change (sim (Pipe ?k) (std i o e) n) with (sim (k (Some (3, 4))) ([Some i; Some o; Some e; Some (PipeRead n); Some (PipeWrite n)] ++ replicate 11 None) (S n)).
    cbv beta iota. rewrite sim_fork1. change (0 =? 0) with true. cbv iota.
    change (sim (Close 1 (Dup 4 (Close 3 (Close 4 (runcmd buf l))))) ?t (S n)) with (sim (runcmd buf l) (std i (PipeWrite n) e) (S n)).
    rewrite IHl by done. destruct (wiring _ i (PipeWrite n) e (S n)) as [es n1]. change (1 =? 0) with false. cbv iota. rewrite sim_fork1. change (0 =? 0) with true. cbv iota.
    change (sim (Close 0 (Dup 3 (Close 3 (Close 4 (runcmd buf r))))) ?t n1) with (sim (runcmd buf r) (std (PipeRead n) o e) n1).
    rewrite IHr by done. destruct (wiring _ (PipeRead n) o e n1) as [es' n2]. done.
  - destruct Hc as [Hl Hr]. rewrite sim_fork1. change (0 =? 0) with true. cbv iota. rewrite IHl by done. destruct (wiring _ i o e n) as [es n1].
    change (1 =? 0) with false. cbv iota. cbn [sim]. rewrite IHr by done. by destruct (wiring _ i o e n1) as [es' n2].
  - rewrite sim_fork1. change (0 =? 0) with true. cbv iota. rewrite IH by done. destruct (wiring _ i o e n) as [es n1].
    change (1 =? 0) with false. cbv iota. cbn [sim]. by rewrite app_nil_r.
Qed.


