(* ===== verification/Virtio.v ===== *)
(** * The disk driver (kernel/virtio_disk.c, kernel/virtio.h)

    The queue is shared with the device: descriptors, the ring of available
    requests and the ring of used ones.  What the device does with it is
    [dev_fetch] and [dev_complete], after the virtio specification.  A critical
    section of vdisk_lock is cut where the device can see a difference: a
    request is prepared, then published by the increment of avail->idx.
    [v_wait] holds idx[0] of the processes that wait for their request;
    wakeup() of a process is not part of the state. *)
From stdpp Require Import base list strings gmap.
From Stdlib Require Import ZArith Lia.
From S2P Require Import Prelude.

Definition NUM : nat := 8.
Definition VRING_DESC_F_NEXT : Z := 1.
Definition VRING_DESC_F_WRITE : Z := 2.
Definition VIRTIO_BLK_T_IN : Z := 0.
Definition VIRTIO_BLK_T_OUT : Z := 1.
Definition DISK_BSIZE : Z := 1024.
Definition u16 (x : Z) : Z := x mod 2 ^ 16.

(** The addresses put into descriptors: a command header, the data of a
    buffer, a status byte, or 0. *)
Inductive dma : Type :=
| NoAddr
| OpsAddr (i : nat)
| DataAddr (b : Z)
| StatusAddr (i : nat).
Record virtq_desc : Type := mkDesc { d_addr : dma; d_len : Z; d_flags : Z; d_next : Z }.
Record virtio_blk_req : Type := mkReq { q_type : Z; q_sector : Z }.
Record vinfo : Type := mkInfo { in_b : option Z; in_status : Z }.
Record vbuf : Type := mkVbuf { vb_blockno : Z; vb_disk : Z; vb_data : list Z }.
#[global] Instance eta_vinfo : Eta vinfo := fun x => mkInfo (in_b x) (in_status x).
#[global] Instance eta_vbuf : Eta vbuf := fun x => mkVbuf (vb_blockno x) (vb_disk x) (vb_data x).

Record vst : Type := mkVst {
  v_desc : list virtq_desc; v_ring : list Z; v_avail : Z; v_used_ring : list Z; v_used : Z;
  v_free : list Z; v_seen : Z; v_info : list vinfo; v_ops : list virtio_blk_req;
  v_bufs : gmap Z vbuf;
  v_disk : gmap Z (list Z); v_dev_avail : Z; v_fetched : list nat;
  v_wait : gmap Z nat; v_prep : option Z
}.
#[global] Instance eta_vst : Eta vst := fun x =>
  mkVst (v_desc x) (v_ring x) (v_avail x) (v_used_ring x) (v_used x) (v_free x) (v_seen x) (v_info x) (v_ops x) (v_bufs x)
    (v_disk x) (v_dev_avail x) (v_fetched x) (v_wait x) (v_prep x).

Definition no_desc : virtq_desc := mkDesc NoAddr 0 0 0.

Definition set_desc (i : nat) (d : virtq_desc) : M vst unit := fun s =>
  if Nat.ltb i NUM then Ok (tt, s <| v_desc ::= <[i := d]> |>) else UB.

Definition alloc_desc : M vst (option nat) :=
  for_until (seq 0 NUM) (fun i =>
    let* free := mreads v_free in
    if nth i free 0 =? 0 then mret None
    else
      mmodify (fun s => s <| v_free ::= <[i := 0]> |>) ;;;
      mret (Some i)).

Definition free_desc (i : nat) : M vst unit :=
  if Nat.leb NUM i then mpanic "free_desc 1"
  else
    let* free := mreads v_free in
    if negb (nth i free 0 =? 0) then mpanic "free_desc 2"
    else
      set_desc i no_desc ;;;
      mmodify (fun s => s <| v_free ::= <[i := 1]> |>).

(** One turn of the loop of free_chain(). *)
Definition chain_turn (i : nat) : M vst (nat + unit) :=
  let* desc := mreads v_desc in
  match desc !! i with
  | None => mub
  | Some d =>
      free_desc i ;;;
      if negb (Z.land (d_flags d) VRING_DESC_F_NEXT =? 0) then mret (inl (Z.to_nat (d_next d))) else mret (inr tt)
  end.
Definition free_chain (i : nat) : M vst unit := mloop (S NUM) chain_turn i.

(** alloc3_desc(): [None] for -1 *)
Definition alloc3_desc : M vst (option (nat * nat * nat)) :=
  let* i0 := alloc_desc in
  match i0 with
  | None => mret None
  | Some i0 =>
      let* i1 := alloc_desc in
      match i1 with
      | None => free_desc i0 ;;; mret None
      | Some i1 =>
          let* i2 := alloc_desc in
          match i2 with
          | None => free_desc i0 ;;; free_desc i1 ;;; mret None
          | Some i2 => mret (Some (i0, i1, i2))
          end
      end
  end.

(** virtio_disk_rw() up to the entry in the ring; it waits when no descriptors
    are free. *)
Definition rw_prepare (b : Z) (write : bool) : M vst unit :=
  let* bufs := mreads v_bufs in
  match bufs !! b with
  | None => mub
  | Some vb =>
      let sector := u32 (vb_blockno vb * (DISK_BSIZE / 512)) in
      let* idx := alloc3_desc in
      match idx with
      | None => mspin
      | Some (i0, i1, i2) =>
          mmodify (fun s => s <| v_ops ::= <[i0 := mkReq (if write then VIRTIO_BLK_T_OUT else VIRTIO_BLK_T_IN) sector]> |>) ;;;
          set_desc i0 (mkDesc (OpsAddr i0) 16 VRING_DESC_F_NEXT (Z.of_nat i1)) ;;;
          set_desc i1 (mkDesc (DataAddr b) DISK_BSIZE (Z.lor (if write then 0 else VRING_DESC_F_WRITE) VRING_DESC_F_NEXT) (Z.of_nat i2)) ;;;
          mmodify (fun s => s <| v_info ::= alter (fun x => x <| in_status := 255 |>) i0 |>) ;;;
          set_desc i2 (mkDesc (StatusAddr i0) 1 VRING_DESC_F_WRITE 0) ;;;
          mmodify (fun s => s <| v_bufs ::= <[b := vb <| vb_disk := 1 |>]> |>) ;;;
          mmodify (fun s => s <| v_info ::= alter (fun x => x <| in_b := Some b |>) i0 |>) ;;;
          mmodify (fun s => s <| v_ring ::= <[Z.to_nat (v_avail s mod Z.of_nat NUM) := Z.of_nat i0]> |>) ;;;
          mmodify (fun s => s <| v_wait ::= <[b := i0]> |> <| v_prep := Some b |>)
      end
  end.
(** avail->idx += 1 *)
Definition rw_publish : M vst unit :=
  mmodify (fun s => s <| v_avail ::= fun i => u16 (i + 1) |> <| v_prep := None |>).

(** The end of virtio_disk_rw(), when b->disk is no longer 1. *)
Definition rw_finish (b : Z) (i0 : nat) : M vst unit :=
  mmodify (fun s => s <| v_info ::= alter (fun x => x <| in_b := None |>) i0 |>) ;;;
  free_chain i0 ;;;
  mmodify (fun s => s <| v_wait ::= delete b |>).

(** One turn of the loop of virtio_disk_intr(); whether there was one. *)
Definition intr_turn : M vst bool :=
  let* s := mget in
  if v_seen s =? v_used s then mret false
  else
    let id := nth (Z.to_nat (v_seen s mod Z.of_nat NUM)) (v_used_ring s) 0 in
    match v_info s !! Z.to_nat id with
    | None => mub
    | Some inf =>
        if negb (in_status inf =? 0) then mpanic "virtio_disk_intr status"
        else
          match in_b inf with
          | None => mub
          | Some b =>
              match v_bufs s !! b with
              | None => mub
              | Some vb =>
                  mmodify (fun s => s <| v_bufs ::= <[b := vb <| vb_disk := 0 |>]> |>) ;;;
                  mmodify (fun s => s <| v_seen ::= fun i => u16 (i + 1) |>) ;;;
                  mret true
              end
          end
    end.
Definition virtio_disk_intr : M vst unit :=
  mloop (S (Z.to_nat (2 ^ 16))) (fun _ => let* more := intr_turn in mret (if more : bool then inl tt else inr tt)) tt.

(** ** The device *)
(** It takes the next available request. *)
Definition dev_fetch : M vst bool :=
  let* s := mget in
  if v_dev_avail s =? v_avail s then mret false
  else
    mmodify (fun s => s <| v_fetched ::= fun l => l ++ [Z.to_nat (nth (Z.to_nat (v_dev_avail s mod Z.of_nat NUM)) (v_ring s) 0)] |>
                        <| v_dev_avail ::= fun i => u16 (i + 1) |>) ;;;
    mret true.
(** The command a chain of descriptors describes: the buffer, whether it is a
    write, the sector, and the status byte. *)
Definition dev_command (s : vst) (head : nat) : option (Z * bool * Z * nat) :=
  match v_desc s !! head with
  | Some (mkDesc (OpsAddr i) _ f0 n1) =>
      match v_ops s !! i, v_desc s !! Z.to_nat n1 with
      | Some rq, Some (mkDesc (DataAddr b) len f1 n2) =>
          match v_desc s !! Z.to_nat n2 with
          | Some (mkDesc (StatusAddr j) 1 f2 _) =>
              if negb (Z.land f0 VRING_DESC_F_NEXT =? 0) && negb (Z.land f1 VRING_DESC_F_NEXT =? 0) && (Z.land f2 VRING_DESC_F_NEXT =? 0) &&
                 (len =? DISK_BSIZE) && negb (Z.land f2 VRING_DESC_F_WRITE =? 0) &&
                 Bool.eqb (q_type rq =? VIRTIO_BLK_T_OUT) (Z.land f1 VRING_DESC_F_WRITE =? 0)
              then Some (b, q_type rq =? VIRTIO_BLK_T_OUT, q_sector rq, j) else None
          | _ => None
          end
      | _, _ => None
      end
  | _ => None
  end.
(** A transfer between a buffer and the disk. *)
Definition transfer (b : Z) (write : bool) (sector : Z) (bufs : gmap Z vbuf) (disk : gmap Z (list Z)) : gmap Z vbuf * gmap Z (list Z) :=
  match bufs !! b with
  | None => (bufs, disk)
  | Some vb => if write then (bufs, <[sector := vb_data vb]> disk) else (<[b := vb <| vb_data := default [] (disk !! sector) |>]> bufs, disk)
  end.
(** It completes a request it has taken. *)
Definition dev_complete (head : nat) : M vst (Z * bool * Z) := fun s =>
  match dev_command s head with
  | None => UB
  | Some (b, write, sector, j) =>
      let r := transfer b write sector (v_bufs s) (v_disk s) in
      Ok ((b, write, sector),
          s <| v_bufs := fst r |> <| v_disk := snd r |> <| v_info ::= alter (fun x => x <| in_status := 0 |>) j |>
            <| v_used_ring ::= <[Z.to_nat (v_used s mod Z.of_nat NUM) := Z.of_nat head]> |>
            <| v_used ::= fun i => u16 (i + 1) |> <| v_fetched ::= filter (fun x => x <> head) |>)
  end.

(** ** virtio_disk_init()

    [rd w r] is what the device answers when register [r] is read after the
    writes [w], latest first. *)
Definition VIRTIO_MMIO_MAGIC_VALUE : Z := 0.
Definition VIRTIO_MMIO_VERSION : Z := 4.
Definition VIRTIO_MMIO_DEVICE_ID : Z := 8.
Definition VIRTIO_MMIO_VENDOR_ID : Z := 12.
Definition VIRTIO_MMIO_DEVICE_FEATURES : Z := 16.
Definition VIRTIO_MMIO_DRIVER_FEATURES : Z := 32.
Definition VIRTIO_MMIO_QUEUE_SEL : Z := 48.
Definition VIRTIO_MMIO_QUEUE_NUM_MAX : Z := 52.
Definition VIRTIO_MMIO_QUEUE_NUM : Z := 56.
Definition VIRTIO_MMIO_QUEUE_READY : Z := 68.
Definition VIRTIO_MMIO_STATUS : Z := 112.
Definition VIRTIO_MMIO_QUEUE_DESC_LOW : Z := 128.
Definition VIRTIO_MMIO_DRIVER_DESC_LOW : Z := 144.
Definition VIRTIO_MMIO_DEVICE_DESC_LOW : Z := 160.
Section Init.
Variable rd : list (Z * Z) -> Z -> Z.
(** kalloc() for the three pages *)
Variable pages : Z * Z * Z.

Definition wr (r v : Z) : M (list (Z * Z)) unit := mmodify (fun w => (r, u32 v) :: w).
Definition rr (r : Z) : M (list (Z * Z)) Z := fun w => Ok (rd w r, w).
Definition clear_bit (x bit : Z) : Z := Z.land x (u64 (Z.lnot (Z.shiftl 1 bit))).
Definition wr64 (r v : Z) : M (list (Z * Z)) unit := wr r v ;;; wr (r + 4) (Z.shiftr v 32).

(** The result is the driver's own state with every descriptor free. *)
Definition virtio_disk_init (bufs : gmap Z vbuf) (disk : gmap Z (list Z)) : M (list (Z * Z)) vst :=
  let* m := rr VIRTIO_MMIO_MAGIC_VALUE in
  let* v := rr VIRTIO_MMIO_VERSION in
  let* d := rr VIRTIO_MMIO_DEVICE_ID in
  let* n := rr VIRTIO_MMIO_VENDOR_ID in
  if negb (m =? 1953655158) || negb (v =? 2) || negb (d =? 2) || negb (n =? 1431127377) then mpanic "could not find virtio disk"
  else
    wr VIRTIO_MMIO_STATUS 0 ;;;
    wr VIRTIO_MMIO_STATUS 1 ;;;
    wr VIRTIO_MMIO_STATUS 3 ;;;
    let* features := rr VIRTIO_MMIO_DEVICE_FEATURES in
    wr VIRTIO_MMIO_DRIVER_FEATURES (foldl clear_bit features [5; 7; 9; 11; 12; 27; 29; 28]) ;;;
    wr VIRTIO_MMIO_STATUS 11 ;;;
    let* status := rr VIRTIO_MMIO_STATUS in
    if Z.land status 8 =? 0 then mpanic "virtio disk FEATURES_OK unset"
    else
      wr VIRTIO_MMIO_QUEUE_SEL 0 ;;;
      let* ready := rr VIRTIO_MMIO_QUEUE_READY in
      if negb (ready =? 0) then mpanic "virtio disk should not be ready"
      else
        let* max := rr VIRTIO_MMIO_QUEUE_NUM_MAX in
        if max =? 0 then mpanic "virtio disk has no queue 0"
        else if max <? Z.of_nat NUM then mpanic "virtio disk max queue too short"
        else
          let '(desc, avail, used) := pages in
          if (desc =? 0) || (avail =? 0) || (used =? 0) then mpanic "virtio disk kalloc"
          else
            wr VIRTIO_MMIO_QUEUE_NUM (Z.of_nat NUM) ;;;
            wr64 VIRTIO_MMIO_QUEUE_DESC_LOW desc ;;;
            wr64 VIRTIO_MMIO_DRIVER_DESC_LOW avail ;;;
            wr64 VIRTIO_MMIO_DEVICE_DESC_LOW used ;;;
            wr VIRTIO_MMIO_QUEUE_READY 1 ;;;
            wr VIRTIO_MMIO_STATUS (Z.lor status 4) ;;;
            mret (mkVst (replicate NUM no_desc) (replicate NUM 0) 0 (replicate NUM 0) 0 (replicate NUM 1) 0 (replicate NUM (mkInfo None 0))
                    (replicate NUM (mkReq 0 0)) bufs disk 0 [] ∅ None).
End Init.
