(* ===== verification/VirtioSpec.v ===== *)
(** * The disk driver against its specification

    Any number of processes, the device and the interrupt handler take turns in
    any order.  Every request moves exactly one block between its buffer and
    the disk, between the time it is made and the time virtio_disk_rw()
    returns, and no descriptor or ring entry is ever used for two requests. *)
From stdpp Require Import base list strings gmap.
From Stdlib Require Import ZArith Lia.
From S2P Require Import Prelude Virtio.

(** ** Requests in flight, by buffer *)
Inductive phase : Type := Prepared | Pending | Fetched | Done | Seen.
Record req : Type := mkRq { rq_i0 : nat; rq_i1 : nat; rq_i2 : nat; rq_write : bool; rq_blk : Z; rq_ph : phase }.
#[global] Instance eta_req : Eta req := fun r => mkRq (rq_i0 r) (rq_i1 r) (rq_i2 r) (rq_write r) (rq_blk r) (rq_ph r).
Definition idx3 (r : req) : list nat := [rq_i0 r; rq_i1 r; rq_i2 r].
Definition moved (ph : phase) : bool := match ph with Done | Seen => true | _ => false end.
Definition sector_of (blk : Z) : Z := u32 (blk * (DISK_BSIZE / 512)).

(** Block number and data of the buffers *)
Definition contents (bufs : gmap Z vbuf) : gmap Z (Z * list Z) := (fun vb => (vb_blockno vb, vb_data vb)) <$> bufs.

(** What the driver has written for a request. *)
Record req_ok (s : vst) (b : Z) (r : req) : Prop := {
  ro_lt : Forall (fun i => (i < NUM)%nat) (idx3 r);
  ro_nd : NoDup (idx3 r);
  ro_d0 : v_desc s !! rq_i0 r = Some (mkDesc (OpsAddr (rq_i0 r)) 16 VRING_DESC_F_NEXT (Z.of_nat (rq_i1 r)));
  ro_d1 : v_desc s !! rq_i1 r = Some (mkDesc (DataAddr b) DISK_BSIZE (Z.lor (if rq_write r then 0 else VRING_DESC_F_WRITE) VRING_DESC_F_NEXT) (Z.of_nat (rq_i2 r)));
  ro_d2 : v_desc s !! rq_i2 r = Some (mkDesc (StatusAddr (rq_i0 r)) 1 VRING_DESC_F_WRITE 0);
  ro_ops : v_ops s !! rq_i0 r = Some (mkReq (if rq_write r then VIRTIO_BLK_T_OUT else VIRTIO_BLK_T_IN) (sector_of (rq_blk r)));
  ro_info : v_info s !! rq_i0 r = Some (mkInfo (Some b) (if moved (rq_ph r) then 0 else 255));
  ro_buf : exists d, v_bufs s !! b = Some (mkVbuf (rq_blk r) (match rq_ph r with Seen => 0 | _ => 1 end) d)
}.

(** The entries [l] of a ring, from counter [n] on. *)
Definition window (ring : list Z) (n : Z) (l : list nat) : Prop :=
  forall j h, l !! j = Some h -> ring !! Z.to_nat ((n + Z.of_nat j) mod 8) = Some (Z.of_nat h).
Definition heads (A : gmap Z req) (ph : phase) (l : list nat) : Prop :=
  NoDup l /\ forall h, h ∈ l <-> exists b r, A !! b = Some r /\ rq_ph r = ph /\ rq_i0 r = h.

(** The descriptors: each belongs to one request or is free, and what the
    driver has written for the requests is in place. *)
Record own (s : vst) (A : gmap Z req) : Prop := {
  o_desc : length (v_desc s) = NUM; o_lfree : length (v_free s) = NUM; o_linfo : length (v_info s) = NUM; o_ops : length (v_ops s) = NUM;
  o_free i : (i < NUM)%nat -> (nth i (v_free s) 0 = 0 <-> exists b r, A !! b = Some r /\ i ∈ idx3 r);
  o_zero i : (i < NUM)%nat -> nth i (v_free s) 0 <> 0 -> nth i (v_free s) 0 = 1 /\ v_desc s !! i = Some no_desc;
  o_req b r : A !! b = Some r -> req_ok s b r;
  o_disj b b' r r' i : A !! b = Some r -> A !! b' = Some r' -> i ∈ idx3 r -> i ∈ idx3 r' -> b = b';
  o_wait : v_wait s = rq_i0 <$> A
}.
(** The two rings: [LP] is made available and not yet taken, [LU] used and not
    yet seen; [nd] and [ns] count what the device has taken and the driver
    seen since the start. *)
Record queues (s : vst) (A : gmap Z req) (LP LU : list nat) (nd ns : Z) : Prop := {
  i_ring : length (v_ring s) = NUM; i_uring : length (v_used_ring s) = NUM;
  i_pend : heads A Pending LP; i_fetch : heads A Fetched (v_fetched s); i_done : heads A Done LU;
  i_win : window (v_ring s) nd LP; i_uwin : window (v_used_ring s) ns LU;
  i_dev : v_dev_avail s = u16 nd; i_avail : v_avail s = u16 (nd + Z.of_nat (length LP));
  i_seen : v_seen s = u16 ns; i_used : v_used s = u16 (ns + Z.of_nat (length LU));
  i_prep b r : A !! b = Some r -> rq_ph r = Prepared -> v_prep s = Some b /\ v_ring s !! Z.to_nat ((nd + Z.of_nat (length LP)) mod 8) = Some (Z.of_nat (rq_i0 r));
  i_pre b : v_prep s = Some b -> exists r, A !! b = Some r /\ rq_ph r = Prepared
}.
Definition inv (s : vst) (A : gmap Z req) (LP LU : list nat) (nd ns : Z) : Prop := own s A /\ queues s A LP LU nd ns.

(** ** Counters *)
Lemma u16_mod8 x : (u16 x) mod 8 = x mod 8.
Proof. unfold u16. change (2 ^ 16) with (8 * 8192). rewrite Z.rem_mul_r by lia. rewrite Z.mul_comm, Z.mod_add by lia. apply Z.mod_mod. lia. Qed.
Lemma u16_succ x : u16 (u16 x + 1) = u16 (x + 1).
Proof. unfold u16. apply Zplus_mod_idemp_l. Qed.
Lemma u16_eq x n : 0 <= n < 2 ^ 16 -> u16 x = u16 (x + n) -> n = 0.
Proof.
  intros Hn H. unfold u16 in H. assert ((x + n - x) mod 2 ^ 16 = 0) as Hz by (rewrite Zminus_mod, <- H, Z.sub_diag; done).
  replace (x + n - x) with n in Hz by lia. rewrite Z.mod_small in Hz by lia. done.
Qed.
Lemma mod8_range x : (Z.to_nat (x mod 8) < NUM)%nat.
Proof. pose proof (Z.mod_pos_bound x 8 ltac:(lia)). unfold NUM. lia. Qed.
Lemma mod8_ne n j k : 0 <= j -> j < k -> k < 8 -> Z.to_nat ((n + j) mod 8) <> Z.to_nat ((n + k) mod 8).
Proof.
  intros Hj Hjk Hk H. pose proof (Z.mod_pos_bound (n + j) 8 ltac:(lia)). pose proof (Z.mod_pos_bound (n + k) 8 ltac:(lia)).
  assert ((n + j) mod 8 = (n + k) mod 8) as He by lia. assert ((n + k - (n + j)) mod 8 = 0) as Hz by (rewrite Zminus_mod, He, Z.sub_diag; done).
  replace (n + k - (n + j)) with (k - j) in Hz by lia. rewrite Z.mod_small in Hz by lia. lia.
Qed.

(** A new entry behind the window does not touch it. *)
Lemma window_keep ring n l h : window ring n l -> Z.of_nat (length l) < 8 -> window (<[Z.to_nat ((n + Z.of_nat (length l)) mod 8) := h]> ring) n l.
Proof.
  intros Hw Hl j x Hj. pose proof (lookup_lt_Some _ _ _ Hj). rewrite list_lookup_insert_ne; [by apply Hw|]. intros Heq. symmetry in Heq. by apply mod8_ne in Heq; lia.
Qed.
Lemma window_snoc ring n l h : window ring n l -> ring !! Z.to_nat ((n + Z.of_nat (length l)) mod 8) = Some (Z.of_nat h) -> window ring n (l ++ [h]).
Proof.
  intros Hw Hh j x Hj. destruct (decide (j < length l)%nat) as [Hlt|Hge].
  - rewrite lookup_app_l in Hj by done. by apply Hw.
  - rewrite lookup_app_r in Hj by lia. destruct (j - length l)%nat as [|k] eqn:Hk; [|done]. injection Hj as <-. by replace j with (length l) by lia.
Qed.
Lemma window_tail ring n h l : window ring n (h :: l) -> ring !! Z.to_nat (n mod 8) = Some (Z.of_nat h) /\ window ring (n + 1) l.
Proof.
  intros Hw. split; [specialize (Hw 0%nat h eq_refl); by rewrite Z.add_0_r in Hw|]. intros j x Hj. specialize (Hw (S j) x Hj).
  by replace (n + 1 + Z.of_nat j) with (n + Z.of_nat (S j)) by lia.
Qed.

(** Distinct descriptors: no more than [NUM]. *)
Lemma distinct_le (l : list nat) : NoDup l -> (forall i, i ∈ l -> (i < NUM)%nat) -> (length l <= NUM)%nat.
Proof.
  intros Hnd Hlt. rewrite <- (length_seq NUM 0). apply submseteq_length, NoDup_submseteq; [done|]. intros i Hi. apply elem_of_seq. specialize (Hlt i Hi). lia.
Qed.

(** ** A request changes its phase *)
Section Phase.
Variables (A : gmap Z req) (b : Z) (r : req) (q : phase).
Hypothesis Hb : A !! b = Some r.
Let r' : req := r <| rq_ph := q |>.
Let A' : gmap Z req := <[b := r']> A.

Lemma phase_lookup b1 x : A' !! b1 = Some x -> (b1 = b /\ x = r') \/ (b1 <> b /\ A !! b1 = Some x).
Proof.
  unfold A'. destruct (decide (b1 = b)) as [->|Hne]; [rewrite lookup_insert_eq; intros [= <-]; by left|]. rewrite lookup_insert_ne by done. by right.
Qed.
Lemma phase_back b1 x : A' !! b1 = Some x -> exists y, A !! b1 = Some y /\ idx3 y = idx3 x /\ rq_i0 y = rq_i0 x.
Proof. intros [[-> ->]|[_ H]]%phase_lookup; [by exists r|by exists x]. Qed.
Lemma phase_used i : (exists b1 x, A !! b1 = Some x /\ i ∈ idx3 x) <-> (exists b1 x, A' !! b1 = Some x /\ i ∈ idx3 x).
Proof.
  split.
  - intros (b1 & x & Hx & Hi). destruct (decide (b1 = b)) as [->|Hne].
    + exists b, r'. split; [apply lookup_insert_eq|]. simplify_eq. done.
    + exists b1, x. split; [by apply lookup_insert_Some; right|done].
  - intros (b1 & x & Hx & Hi). destruct (phase_back b1 x Hx) as (y & Hy & He & _). exists b1, y. by rewrite He.
Qed.
Lemma phase_wait : rq_i0 <$> A' = rq_i0 <$> A.
Proof. unfold A'. rewrite fmap_insert. apply insert_id. by rewrite lookup_fmap, Hb. Qed.
Lemma phase_disj : (forall b1 b2 x y i, A !! b1 = Some x -> A !! b2 = Some y -> i ∈ idx3 x -> i ∈ idx3 y -> b1 = b2) ->
  forall b1 b2 x y i, A' !! b1 = Some x -> A' !! b2 = Some y -> i ∈ idx3 x -> i ∈ idx3 y -> b1 = b2.
Proof.
  intros H b1 b2 x y i H1 H2 Hi Hj. destruct (phase_back _ _ H1) as (x1 & Hx & Ex & _). destruct (phase_back _ _ H2) as (y1 & Hy & Ey & _).
  eapply H; [exact Hx|exact Hy|by rewrite Ex|by rewrite Ey].
Qed.
Lemma heads_other ph l : rq_ph r <> ph -> q <> ph -> heads A ph l -> heads A' ph l.
Proof.
  intros Hr Hq [Hnd Hm]. split; [done|]. intros h. rewrite Hm. split.
  - intros (b1 & x & Hx & Hph & Hh). exists b1, x. split; [|done]. apply lookup_insert_Some. right. split; [|done]. intros <-. congruence.
  - intros (b1 & x & [[-> ->]|[_ Hx]]%phase_lookup & Hph & Hh); [done|]. by exists b1, x.
Qed.
Lemma heads_enter l : rq_ph r <> q -> (forall b1 x, A !! b1 = Some x -> rq_i0 x = rq_i0 r -> b1 = b) -> heads A q l -> heads A' q (l ++ [rq_i0 r]).
Proof.
  intros Hr Hu [Hnd Hm]. assert (rq_i0 r ∉ l) as Hnew.
  { rewrite Hm. intros (b1 & x & Hx & Hph & Hh). rewrite (Hu b1 x Hx Hh) in Hx. congruence. }
  split; [apply NoDup_app; split; [done|]; split; [|apply NoDup_singleton]; intros x Hx ->%list_elem_of_singleton; done|].
  intros h. rewrite elem_of_app, list_elem_of_singleton, Hm. split.
  - intros [(b1 & x & Hx & Hph & Hh)| ->]; [exists b1, x; split; [|done]; apply lookup_insert_Some; right; split; [|done]; intros <-; congruence|].
    exists b, r'. split; [apply lookup_insert_eq|done].
  - intros (b1 & x & [[-> ->]|[_ Hx]]%phase_lookup & Hph & Hh); [by right|]. left. by exists b1, x.
Qed.
Lemma heads_leave l l' : q <> rq_ph r -> (forall b1 x, A !! b1 = Some x -> rq_i0 x = rq_i0 r -> b1 = b) -> heads A (rq_ph r) l ->
  NoDup l' -> (forall h, h ∈ l' <-> h ∈ l /\ h <> rq_i0 r) -> heads A' (rq_ph r) l'.
Proof.
  intros Hq Hu [_ Hm] Hnd' Hl'. split; [done|]. intros h. rewrite Hl', Hm. split.
  - intros [(b1 & x & Hx & Hph & Hh) Hne]. exists b1, x. split; [|done]. apply lookup_insert_Some. right. split; [|done]. intros <-. congruence.
  - intros (b1 & x & [[-> ->]|[Hb1 Hx]]%phase_lookup & Hph & Hh); [done|]. split; [by exists b1, x|]. intros ->. apply Hb1. by apply (Hu b1 x).
Qed.
Lemma heads_pop ph l : rq_ph r = ph -> q <> ph -> (forall b1 x, A !! b1 = Some x -> rq_i0 x = rq_i0 r -> b1 = b) -> heads A ph (rq_i0 r :: l) -> heads A' ph l.
Proof.
  intros <- Hq Hu H. pose proof (proj1 H) as [Hn Hnd]%NoDup_cons. eapply heads_leave; [done|done|exact H|done|].
  intros x. rewrite elem_of_cons. split; [intros Hx; split; [by right|]; by intros ->|]. by intros [[->|?] ?].
Qed.
Lemma prep_keep s : rq_ph r <> Prepared -> (forall b1, v_prep s = Some b1 -> exists r, A !! b1 = Some r /\ rq_ph r = Prepared) ->
  forall b1, v_prep s = Some b1 -> exists r, A' !! b1 = Some r /\ rq_ph r = Prepared.
Proof.
  intros Hr H b1 H1. destruct (H b1 H1) as (x & Hx & Hpx). exists x. split; [|done]. apply lookup_insert_Some. right. split; [|done]. intros <-. congruence.
Qed.
End Phase.

Lemma own_uniq s A b r : own s A -> A !! b = Some r -> forall b1 x, A !! b1 = Some x -> rq_i0 x = rq_i0 r -> b1 = b.
Proof. intros I Hb b1 x Hx He. apply (o_disj _ _ I b1 b x r (rq_i0 r) Hx Hb); [rewrite <- He|]; apply list_elem_of_here. Qed.
Lemma heads_lt s A ph l : own s A -> heads A ph l -> forall i, i ∈ l -> (i < NUM)%nat.
Proof. intros I [Hnd Hm] i (b & r & Hb & _ & <-)%Hm. pose proof (ro_lt _ _ _ (o_req _ _ I b r Hb)) as H. by apply Forall_cons in H as [? _]. Qed.
Lemma heads_le s A ph l : own s A -> heads A ph l -> (length l <= NUM)%nat.
Proof. intros I H. apply distinct_le; [apply H|by eapply heads_lt]. Qed.

(** What is written for a request stays. *)
Lemma req_ok_move s s' b r q : req_ok s b r -> v_desc s' = v_desc s -> v_ops s' = v_ops s ->
  v_info s' !! rq_i0 r = Some (mkInfo (Some b) (if moved q then 0 else 255)) ->
  (exists d, v_bufs s' !! b = Some (mkVbuf (rq_blk r) (match q with Seen => 0 | _ => 1 end) d)) -> req_ok s' b (r <| rq_ph := q |>).
Proof. intros [] Hd Ho Hi Hb. by split; simpl; rewrite ?Hd, ?Ho. Qed.
Lemma req_same r : r <| rq_ph := rq_ph r |> = r.
Proof. by destruct r. Qed.
Lemma req_ok_frame s s' b r : req_ok s b r -> v_desc s' = v_desc s -> v_ops s' = v_ops s -> v_info s' !! rq_i0 r = v_info s !! rq_i0 r ->
  v_bufs s' !! b = v_bufs s !! b -> req_ok s' b r.
Proof.
  intros H Hd Ho Hi Hb. rewrite <- (req_same r). apply (req_ok_move s); [done..|by rewrite Hi; apply H|]. rewrite Hb. apply H.
Qed.
Lemma own_phase s s' A b r q : own s A -> A !! b = Some r ->
  v_desc s' = v_desc s -> v_ops s' = v_ops s -> v_free s' = v_free s -> v_wait s' = v_wait s -> length (v_info s') = length (v_info s) ->
  (forall i, i <> rq_i0 r -> v_info s' !! i = v_info s !! i) -> (forall b1, b1 <> b -> v_bufs s' !! b1 = v_bufs s !! b1) ->
  v_info s' !! rq_i0 r = Some (mkInfo (Some b) (if moved q then 0 else 255)) ->
  (exists d, v_bufs s' !! b = Some (mkVbuf (rq_blk r) (match q with Seen => 0 | _ => 1 end) d)) -> own s' (<[b := r <| rq_ph := q |>]> A).
Proof.
  intros O Hb Hd Ho Hf Hw Hl Hi Hbu Hi0 Hb0. pose proof (own_uniq _ _ _ _ O Hb) as Hu. destruct O. split; rewrite ?Hd, ?Ho, ?Hf, ?Hw, ?Hl; try done.
  - intros i Hlt. rewrite o_free0 by done. by apply phase_used.
  - intros b1 x [[-> ->]|[Hne Hx]]%phase_lookup; [by apply (req_ok_move s); [apply o_req0|..]|].
    apply (req_ok_frame s); [by apply o_req0|done|done|apply Hi; intros He; apply Hne; by apply (Hu b1 x)|by apply Hbu].
  - by apply phase_disj.
  - rewrite o_wait0. symmetry. by apply phase_wait.
Qed.
(** When nothing of the requests changes *)
Lemma own_phase_only s s' A b r q : own s A -> A !! b = Some r ->
  v_desc s' = v_desc s -> v_ops s' = v_ops s -> v_free s' = v_free s -> v_wait s' = v_wait s -> v_info s' = v_info s -> v_bufs s' = v_bufs s ->
  moved q = moved (rq_ph r) -> q <> Seen -> rq_ph r <> Seen -> own s' (<[b := r <| rq_ph := q |>]> A).
Proof.
  intros O Hb Hd Ho Hf Hw Hi Hbu Hm Hq Hr. pose proof (o_req _ _ O b r Hb) as H. eapply own_phase; try done; rewrite ?Hi, ?Hbu; [done|done|done|rewrite Hm; apply H|].
  destruct (ro_buf _ _ _ H) as [d Hd']. exists d. rewrite Hd'. by destruct (rq_ph r), q.
Qed.

(** The device takes a request. *)
Lemma fetch_ok s A h LP LU nd ns : inv s A (h :: LP) LU nd ns ->
  exists b r s', A !! b = Some r /\ rq_ph r = Pending /\ dev_fetch s = Ok (true, s') /\ inv s' (<[b := r <| rq_ph := Fetched |>]> A) LP LU (nd + 1) ns /\
    v_bufs s' = v_bufs s /\ v_disk s' = v_disk s.
Proof.
  intros [O I]. destruct (proj2 (i_pend _ _ _ _ _ _ I) h) as [(b & r & Hb & Hph & Hi) _]; [apply list_elem_of_here|]. pose proof (own_uniq _ _ b r O Hb) as Hu.
  pose proof (heads_le _ _ _ _ O (i_pend _ _ _ _ _ _ I)) as Hlen. unfold NUM in Hlen. destruct (window_tail _ _ _ _ (i_win _ _ _ _ _ _ I)) as [Hr0 Hw].
  unfold dev_fetch. rewrite mbind_get. rewrite (i_dev _ _ _ _ _ _ I), (i_avail _ _ _ _ _ _ I).
  destruct (Z.eqb_spec (u16 nd) (u16 (nd + Z.of_nat (length (h :: LP))))) as [He|_]; [apply u16_eq in He; cbn [length] in *; lia|].
  rewrite mbind_modify. change (Z.of_nat NUM) with 8. eexists b, r, _. do 2 (split; [done|]). split; [reflexivity|]. split; [|done].
  assert (nth (Z.to_nat (v_dev_avail s mod 8)) (v_ring s) 0 = Z.of_nat h) as Hnth by (rewrite (i_dev _ _ _ _ _ _ I), u16_mod8; by apply nth_lookup_Some).
  rewrite Hnth, Nat2Z.id. split; [eapply own_phase_only; try done; by rewrite Hph|]. destruct I. split; try done; simpl.
  - subst h. by apply heads_pop with (r := r).
  - subst h. apply heads_enter; [done|by rewrite Hph|exact Hu|done].
  - apply heads_other; [done|by rewrite Hph|done|done].
  - rewrite i_dev0. apply u16_succ.
  - rewrite i_avail0. f_equal. cbn [length]. lia.
  - intros b1 x [[-> ->]|[Hne Hx]]%phase_lookup Hpx; [done|]. destruct (i_prep0 b1 x Hx Hpx) as [H1 H2]. split; [done|]. rewrite <- H2. do 2 f_equal. f_equal. cbn [length]. lia.
  - apply prep_keep; [done|by rewrite Hph|done].
Qed.

(** A request is published. *)
Lemma publish_ok s A b LP LU nd ns : inv s A LP LU nd ns -> v_prep s = Some b ->
  exists r s', A !! b = Some r /\ rq_ph r = Prepared /\ rw_publish s = Ok (tt, s') /\
    inv s' (<[b := r <| rq_ph := Pending |>]> A) (LP ++ [rq_i0 r]) LU nd ns /\ v_bufs s' = v_bufs s /\ v_disk s' = v_disk s.
Proof.
  intros [O I] Hp. destruct (i_pre _ _ _ _ _ _ I b Hp) as (r & Hb & Hph). pose proof (own_uniq _ _ b r O Hb) as Hu.
  destruct (i_prep _ _ _ _ _ _ I b r Hb Hph) as [_ Hr]. eexists r, _. do 2 (split; [done|]). split; [reflexivity|]. split; [|done].
  split; [eapply own_phase_only; try done; by rewrite Hph|]. destruct I. split; try done; simpl.
  - apply heads_enter; [done|by rewrite Hph|exact Hu|done].
  - apply heads_other; [done|by rewrite Hph|done|done].
  - apply heads_other; [done|by rewrite Hph|done|done].
  - by apply window_snoc.
  - rewrite i_avail0, u16_succ. f_equal. rewrite length_app. simpl. lia.
  - intros b1 x [[-> ->]|[Hne Hx]]%phase_lookup Hpx; [done|]. destruct (i_prep0 b1 x Hx Hpx) as [H1 _]. congruence.
Qed.

(** The device completes a request. *)
Lemma command_ok s b r : req_ok s b r -> dev_command s (rq_i0 r) = Some (b, rq_write r, sector_of (rq_blk r), rq_i0 r).
Proof.
  intros []. unfold dev_command. rewrite ro_d3, ro_ops0, Nat2Z.id, ro_d4, Nat2Z.id, ro_d5. by destruct (rq_write r).
Qed.
Lemma transfer_other b w sec bufs disk b1 : b1 <> b -> fst (transfer b w sec bufs disk) !! b1 = bufs !! b1.
Proof. intros Hne. unfold transfer. destruct (bufs !! b); [|done]. destruct w; simpl; [done|]. by apply lookup_insert_ne. Qed.
Lemma transfer_fields b w sec bufs disk blk f d : bufs !! b = Some (mkVbuf blk f d) -> exists d', fst (transfer b w sec bufs disk) !! b = Some (mkVbuf blk f d').
Proof. intros Hb. unfold transfer. rewrite Hb. destruct w; simpl; [by exists d|]. rewrite lookup_insert_eq. by eexists. Qed.

Lemma fetch_none s A LU nd ns : inv s A [] LU nd ns -> dev_fetch s = Ok (false, s).
Proof. intros [_ I]. unfold dev_fetch. rewrite mbind_get, (i_dev _ _ _ _ _ _ I), (i_avail _ _ _ _ _ _ I). cbn [length]. by rewrite Z.add_0_r, Z.eqb_refl. Qed.

Lemma complete_ok s A h LP LU nd ns : inv s A LP LU nd ns -> h ∈ v_fetched s ->
  exists b r s', A !! b = Some r /\ rq_ph r = Fetched /\ rq_i0 r = h /\ dev_complete h s = Ok ((b, rq_write r, sector_of (rq_blk r)), s') /\
    inv s' (<[b := r <| rq_ph := Done |>]> A) LP (LU ++ [h]) nd ns /\
    (v_bufs s', v_disk s') = transfer b (rq_write r) (sector_of (rq_blk r)) (v_bufs s) (v_disk s).
Proof.
  intros [O I] Hh. apply (proj2 (i_fetch _ _ _ _ _ _ I)) in Hh as (b & r & Hb & Hph & Hi). pose proof (own_uniq _ _ b r O Hb) as Hu.
  pose proof (o_req _ _ O b r Hb) as Hr. destruct (ro_buf _ _ _ Hr) as [d Hd]. rewrite Hph in Hd.
  assert (heads (<[b := r <| rq_ph := Done |>]> A) Done (LU ++ [h])) as HD by (subst h; apply heads_enter; [done|by rewrite Hph|exact Hu|apply I]).
  unfold dev_complete. subst h. rewrite (command_ok _ _ _ Hr). eexists b, r, _. do 3 (split; [done|]). split; [reflexivity|]. split; [|by destruct (transfer _ _ _ _ _)].
  match goal with |- inv ?x _ _ _ _ _ => assert (own x (<[b := r <| rq_ph := Done |>]> A)) as O' end.
  { apply (own_phase s); try done; simpl.
    - apply length_alter.
    - intros i Hne. by apply list_lookup_alter_ne.
    - intros b1 Hne. by apply transfer_other.
    - rewrite list_lookup_alter_eq, (ro_info _ _ _ Hr). done.
    - by apply (transfer_fields _ _ _ _ _ _ _ d). }
  split; [exact O'|]. pose proof (heads_le _ _ _ _ O' HD) as Hlen. rewrite length_app in Hlen. cbn [length] in Hlen. unfold NUM in Hlen. change (Z.of_nat NUM) with 8 in *.
  assert (Z.to_nat (v_used s mod 8) = Z.to_nat ((ns + Z.of_nat (length LU)) mod 8)) as Hpos by (by rewrite (i_used _ _ _ _ _ _ I), u16_mod8).
  destruct I. split; try done; simpl; rewrite ?Hpos.
  - by rewrite length_insert.
  - apply heads_other; [done|by rewrite Hph|done|done].
  - rewrite <- Hph in *. eapply heads_leave; [done|by rewrite Hph|exact Hu|exact i_fetch0|apply NoDup_filter, i_fetch0|]. intros x. rewrite list_elem_of_filter. tauto.
  - apply window_snoc; [by apply window_keep; [|lia]|]. apply list_lookup_insert_eq. rewrite i_uring0. apply mod8_range.
  - rewrite i_used0, u16_succ. f_equal. rewrite length_app. simpl. lia.
  - intros b1 x [[-> ->]|[Hne Hx]]%phase_lookup Hpx; [done|]. by apply i_prep0.
  - apply prep_keep; [done|by rewrite Hph|done].
Qed.

(** The interrupt handler sees a request that is done. *)
Lemma turn_ok s A h LP LU nd ns : inv s A LP (h :: LU) nd ns ->
  exists b r s', A !! b = Some r /\ rq_ph r = Done /\ intr_turn s = Ok (true, s') /\ inv s' (<[b := r <| rq_ph := Seen |>]> A) LP LU nd (ns + 1) /\
    contents (v_bufs s') = contents (v_bufs s) /\ v_disk s' = v_disk s.
Proof.
  intros [O I]. destruct (proj2 (i_done _ _ _ _ _ _ I) h) as [(b & r & Hb & Hph & Hi) _]; [apply list_elem_of_here|]. pose proof (own_uniq _ _ b r O Hb) as Hu.
  pose proof (o_req _ _ O b r Hb) as Hr. destruct (ro_buf _ _ _ Hr) as [d Hd]. rewrite Hph in Hd. pose proof (ro_info _ _ _ Hr) as Hin. rewrite Hph in Hin. subst h.
  pose proof (heads_le _ _ _ _ O (i_done _ _ _ _ _ _ I)) as Hlen. unfold NUM in Hlen. destruct (window_tail _ _ _ _ (i_uwin _ _ _ _ _ _ I)) as [Hr0 Hw].
  unfold intr_turn. rewrite mbind_get. rewrite (i_seen _ _ _ _ _ _ I), (i_used _ _ _ _ _ _ I).
  destruct (Z.eqb_spec (u16 ns) (u16 (ns + Z.of_nat (length (rq_i0 r :: LU))))) as [He|_]; [apply u16_eq in He; cbn [length] in *; lia|].
  change (Z.of_nat NUM) with 8. rewrite u16_mod8, (nth_lookup_Some _ _ _ _ Hr0), Nat2Z.id, Hin. cbn [in_status in_b moved]. rewrite Hd. change (negb (0 =? 0)) with false. cbv iota. rewrite !mbind_modify.
  eexists b, r, _. do 2 (split; [done|]). split; [reflexivity|]. split; [|split; [simpl; unfold contents; rewrite fmap_insert; apply insert_id; by rewrite lookup_fmap, Hd|done]].
  split; [apply (own_phase s); try done; simpl; [intros b1 Hne; by apply lookup_insert_ne|by rewrite lookup_insert_eq; exists d]|].
  destruct I. split; try done; simpl.
  - apply heads_other; [done|by rewrite Hph|done|done].
  - apply heads_other; [done|by rewrite Hph|done|done].
  - by apply heads_pop with (r := r).
  - rewrite i_seen0. apply u16_succ.
  - rewrite i_used0. f_equal. cbn [length]. lia.
  - intros b1 x [[-> ->]|[Hne Hx]]%phase_lookup Hpx; [done|]. by apply i_prep0.
  - apply prep_keep; [done|by rewrite Hph|done].
Qed.
Lemma turn_none s A LP nd ns : inv s A LP [] nd ns -> intr_turn s = Ok (false, s).
Proof. intros [_ I]. unfold intr_turn. rewrite mbind_get, (i_seen _ _ _ _ _ _ I), (i_used _ _ _ _ _ _ I). cbn [length]. by rewrite Z.add_0_r, Z.eqb_refl. Qed.

(** ** Descriptors are given back and taken *)
Section Upd3.
Context {T : Type} (i0 i1 i2 : nat) (x0 x1 x2 : T) (l : list T).
Hypothesis Hnd : NoDup [i0; i1; i2].
Hypothesis Hlt : Forall (fun i => (i < length l)%nat) [i0; i1; i2].
Definition upd3 : list T := <[i2 := x2]> (<[i1 := x1]> (<[i0 := x0]> l)).
Lemma length_upd3 : length upd3 = length l.
Proof. unfold upd3. by rewrite !length_insert. Qed.
Lemma upd3_out i : i ∉ [i0; i1; i2] -> upd3 !! i = l !! i.
Proof. intros Hi. rewrite !not_elem_of_cons in Hi. unfold upd3. rewrite !list_lookup_insert_ne; naive_solver. Qed.
Lemma upd3_in : upd3 !! i0 = Some x0 /\ upd3 !! i1 = Some x1 /\ upd3 !! i2 = Some x2.
Proof.
  rewrite !NoDup_cons, !not_elem_of_cons in Hnd. rewrite !Forall_cons in Hlt. destruct Hnd as ((? & ? & _) & (? & _) & _), Hlt as (? & ? & ? & _). unfold upd3.
  split; [rewrite !list_lookup_insert_ne by congruence|split; [rewrite list_lookup_insert_ne by congruence|]]; apply list_lookup_insert_eq; by rewrite ?length_insert.
Qed.
End Upd3.
Lemma upd3_same {T} i0 i1 i2 (x : T) l i : NoDup [i0; i1; i2] -> Forall (fun i => (i < length l)%nat) [i0; i1; i2] -> i ∈ [i0; i1; i2] ->
  upd3 i0 i1 i2 x x x l !! i = Some x.
Proof. intros Hnd Hlt Hi. destruct (upd3_in i0 i1 i2 x x x l Hnd Hlt) as (H0 & H1 & H2). rewrite !elem_of_cons in Hi. destruct Hi as [->|[->|[->|Hi]]]; try done. by apply not_elem_of_nil in Hi. Qed.

Lemma free_desc_ok s i : (i < NUM)%nat -> nth i (v_free s) 0 = 0 -> free_desc i s = Ok (tt, s <| v_desc ::= <[i := no_desc]> |> <| v_free ::= <[i := 1]> |>).
Proof.
  intros Hi Hf. unfold free_desc. destruct (Nat.leb_spec NUM i); [lia|]. rewrite mbind_reads, Hf. cbn [Z.eqb negb]. unfold set_desc, mbind. by destruct (Nat.ltb_spec i NUM); [|lia].
Qed.
Lemma chain_next s i d fuel : v_desc s !! i = Some d -> (i < NUM)%nat -> nth i (v_free s) 0 = 0 -> Z.land (d_flags d) VRING_DESC_F_NEXT = 1 ->
  mloop (S fuel) chain_turn i s = mloop fuel chain_turn (Z.to_nat (d_next d)) (s <| v_desc ::= <[i := no_desc]> |> <| v_free ::= <[i := 1]> |>).
Proof. intros Hd Hi Hf Hn. apply mloop_next. unfold chain_turn. rewrite mbind_reads, Hd. rewrite (mbind_Ok _ _ _ _ _ (free_desc_ok s i Hi Hf)), Hn. reflexivity. Qed.

Lemma free_chain_ok s0 s b r : req_ok s0 b r -> v_desc s = v_desc s0 -> (forall i, i ∈ idx3 r -> nth i (v_free s) 0 = 0) ->
  free_chain (rq_i0 r) s = Ok (tt, s <| v_desc ::= upd3 (rq_i0 r) (rq_i1 r) (rq_i2 r) no_desc no_desc no_desc |> <| v_free ::= upd3 (rq_i0 r) (rq_i1 r) (rq_i2 r) 1 1 1 |>).
Proof.
  intros [] Hde Hf. rewrite <- Hde in *. unfold idx3 in *. pose proof ro_nd0 as Hnd. rewrite !NoDup_cons, !not_elem_of_cons in Hnd. destruct Hnd as ((H01 & H02 & _) & (H12 & _) & _).
  pose proof ro_lt0 as Hlt. rewrite !Forall_cons in Hlt. destruct Hlt as (L0 & L1 & L2 & _).
  pose proof (Hf (rq_i0 r) ltac:(set_solver)) as F0. pose proof (Hf (rq_i1 r) ltac:(set_solver)) as F1. pose proof (Hf (rq_i2 r) ltac:(set_solver)) as F2.
  rewrite nth_lookup in F1, F2. unfold free_chain. change (S NUM) with 9%nat.
  rewrite (chain_next _ _ _ _ ro_d3 L0 F0 eq_refl). cbn [d_next]. rewrite Nat2Z.id.
  rewrite (chain_next _ (rq_i1 r) (mkDesc (DataAddr b) DISK_BSIZE (Z.lor (if rq_write r then 0 else VRING_DESC_F_WRITE) VRING_DESC_F_NEXT) (Z.of_nat (rq_i2 r))));
    [|simpl; by rewrite list_lookup_insert_ne|done|simpl; by rewrite nth_lookup, list_lookup_insert_ne|by destruct (rq_write r)].
  cbn [d_next]. rewrite Nat2Z.id. apply mloop_stop. unfold chain_turn. rewrite mbind_reads. simpl. rewrite !list_lookup_insert_ne by done. rewrite ro_d5.
  erewrite mbind_Ok; [reflexivity|]. rewrite free_desc_ok; [reflexivity|done|]. simpl. by rewrite nth_lookup, !list_lookup_insert_ne.
Qed.

(** Requests that use other descriptors stay. *)
Lemma req_ok_same s s' b r : req_ok s b r -> (forall i, i ∈ idx3 r -> v_desc s' !! i = v_desc s !! i) -> v_ops s' !! rq_i0 r = v_ops s !! rq_i0 r ->
  v_info s' !! rq_i0 r = v_info s !! rq_i0 r -> v_bufs s' !! b = v_bufs s !! b -> req_ok s' b r.
Proof. intros [] Hd Ho Hi Hb. unfold idx3 in Hd. split; try done; by rewrite ?Ho, ?Hi, ?Hb, ?Hd by set_solver. Qed.
Lemma heads_delete A b r ph l : A !! b = Some r -> rq_ph r <> ph -> heads A ph l -> heads (delete b A) ph l.
Proof.
  intros Hb Hr [Hnd Hm]. split; [done|]. intros h. rewrite Hm. split.
  - intros (b1 & x & Hx & Hp & Hh). exists b1, x. split; [|done]. rewrite lookup_delete_ne; [done|]. intros <-. congruence.
  - intros (b1 & x & [_ Hx]%lookup_delete_Some & Hp & Hh). by exists b1, x.
Qed.
Lemma heads_insert A b r ph l : A !! b = None -> rq_ph r <> ph -> heads A ph l -> heads (<[b := r]> A) ph l.
Proof.
  intros Hb Hr [Hnd Hm]. split; [done|]. intros h. rewrite Hm. split.
  - intros (b1 & x & Hx & Hp & Hh). exists b1, x. split; [|done]. rewrite lookup_insert_ne; [done|]. intros <-. congruence.
  - intros (b1 & x & [[<- <-]|[_ Hx]]%lookup_insert_Some & Hp & Hh); [done|]. by exists b1, x.
Qed.

(** virtio_disk_rw() returns. *)
Lemma own_finish s A b r : own s A -> A !! b = Some r ->
  own (s <| v_info ::= alter (fun x => x <| in_b := None |>) (rq_i0 r) |> <| v_desc ::= upd3 (rq_i0 r) (rq_i1 r) (rq_i2 r) no_desc no_desc no_desc |>
         <| v_free ::= upd3 (rq_i0 r) (rq_i1 r) (rq_i2 r) 1 1 1 |> <| v_wait ::= delete b |>) (delete b A).
Proof.
  intros O Hb. pose proof (o_req _ _ O b r Hb) as R. pose proof (own_uniq _ _ _ _ O Hb) as Hu. destruct O. pose proof (ro_nd _ _ _ R) as Hnd. pose proof (ro_lt _ _ _ R) as Hlt.
  split; simpl; rewrite ?length_upd3, ?length_alter; try done.
  - intros i Hi. rewrite nth_lookup. destruct (decide (i ∈ idx3 r)) as [Hin|Hout].
    + rewrite upd3_same by (by rewrite ?o_lfree0). split; [done|]. intros (b1 & x & [Hne Hx]%lookup_delete_Some & Hix). exfalso. apply Hne. symmetry. by apply (o_disj0 b1 b x r i).
    + rewrite upd3_out by done. rewrite <- nth_lookup, o_free0 by done. split.
      * intros (b1 & x & Hx & Hix). exists b1, x. split; [|done]. rewrite lookup_delete_ne; [done|]. intros <-. congruence.
      * intros (b1 & x & [_ Hx]%lookup_delete_Some & Hix). by exists b1, x.
  - intros i Hi. rewrite nth_lookup. destruct (decide (i ∈ idx3 r)) as [Hin|Hout]; [by rewrite !upd3_same by (by rewrite ?o_lfree0, ?o_desc0)|].
    rewrite !upd3_out by done. rewrite <- nth_lookup. by apply o_zero0.
  - intros b1 x [Hne Hx]%lookup_delete_Some. apply (req_ok_same s); [by apply o_req0| |done| |done].
    + intros i Hi. simpl. apply upd3_out. intros Hin. apply Hne. symmetry. by apply (o_disj0 b1 b x r i).
    + simpl. apply list_lookup_alter_ne. intros He. apply Hne. symmetry. by apply (Hu b1 x).
  - intros b1 b2 x y i [_ H1]%lookup_delete_Some [_ H2]%lookup_delete_Some. by apply o_disj0.
  - by rewrite o_wait0, fmap_delete.
Qed.
Lemma finish_ok s A b r LP LU nd ns : inv s A LP LU nd ns -> A !! b = Some r -> rq_ph r = Seen ->
  exists s', rw_finish b (rq_i0 r) s = Ok (tt, s') /\ inv s' (delete b A) LP LU nd ns /\ v_bufs s' = v_bufs s /\ v_disk s' = v_disk s.
Proof.
  intros [O I] Hb Hph. pose proof (own_finish _ _ _ _ O Hb) as O'. pose proof (o_req _ _ O b r Hb) as R. eexists. split; [|split; [split; [exact O'|]|done]].
  - unfold rw_finish. rewrite mbind_modify. erewrite mbind_Ok; [reflexivity|]. apply (free_chain_ok s _ b); [done|done|]. intros i Hi. simpl.
    apply (o_free _ _ O); [|by exists b, r]. pose proof (ro_lt _ _ _ R) as Hlt. rewrite Forall_forall in Hlt. by apply Hlt.
  - destruct I. split; try done; simpl.
    1-3: by apply (heads_delete _ _ r); [|rewrite Hph|].
    + intros b1 x [_ Hx]%lookup_delete_Some. by apply i_prep0.
    + intros b1 H1. destruct (i_pre0 b1 H1) as (x & Hx & Hpx). exists x. split; [|done]. rewrite lookup_delete_ne; [done|]. intros <-. congruence.
Qed.

(** alloc_desc() takes the first free descriptor. *)
Lemma alloc_desc_ok s : length (v_free s) = NUM ->
  (alloc_desc s = Ok (None, s) /\ forall i, (i < NUM)%nat -> nth i (v_free s) 0 = 0) \/
  exists i, (i < NUM)%nat /\ nth i (v_free s) 0 <> 0 /\ alloc_desc s = Ok (Some i, s <| v_free ::= <[i := 0]> |>).
Proof.
  intros Hlen. unfold alloc_desc. set (body := fun i => _).
  assert (forall l, (forall i, i ∈ l -> (i < NUM)%nat) ->
    (for_until l body s = Ok (None, s) /\ forall i, i ∈ l -> nth i (v_free s) 0 = 0) \/
    exists i, (i < NUM)%nat /\ nth i (v_free s) 0 <> 0 /\ for_until l body s = Ok (Some i, s <| v_free ::= <[i := 0]> |>)) as H.
  { induction l as [|i l IH]; intros Hl; [left; split; [done|]; by intros i ?%not_elem_of_nil|].
    destruct (Z.eqb_spec (nth i (v_free s) 0) 0) as [H0|H0].
    - rewrite (for_until_next _ _ _ s s) by (unfold body; by rewrite mbind_reads, H0).
      destruct IH as [[H1 H2]|H1]; [intros j Hj; apply Hl; by right|left|by right]. split; [done|]. intros j [->|Hj]%elem_of_cons; auto.
    - right. exists i. split; [apply Hl; by left|]. split; [done|]. apply for_until_found. unfold body. rewrite mbind_reads. by destruct (Z.eqb_spec (nth i (v_free s) 0) 0). }
  destruct (H (seq 0 NUM)) as [[H1 H2]|H1]; [intros i Hi%elem_of_seq; lia|left|by right]. split; [done|]. intros i Hi. apply H2, elem_of_seq. lia.
Qed.

Lemma free_desc_bind {T} s i (k : M vst T) : (i < NUM)%nat -> nth i (v_free s) 0 = 0 ->
  (free_desc i ;;; k) s = k (s <| v_desc ::= <[i := no_desc]> |> <| v_free ::= <[i := 1]> |>).
Proof. intros Hi Hf. by rewrite (mbind_Ok _ _ _ _ _ (free_desc_ok s i Hi Hf)). Qed.
(** alloc3_desc() takes three, or none: then at most two were free. *)
Lemma give_back s A i : own s A -> (i < NUM)%nat -> nth i (v_free s) 0 <> 0 ->
  <[i := no_desc]> (v_desc s) = v_desc s /\ <[i := 1]> (<[i := 0]> (v_free s)) = v_free s.
Proof.
  intros O Hi Hf. destruct (o_zero _ _ O i Hi Hf) as [H1 Hd]. split; [by apply list_insert_id|]. rewrite list_insert_insert_eq. apply list_insert_id.
  destruct (lookup_lt_is_Some_2 (v_free s) i) as [x Hx]; [by rewrite (o_lfree _ _ O)|]. by rewrite (nth_lookup_Some _ _ 0 _ Hx) in H1; subst.
Qed.
Lemma vst_same s d f : d = v_desc s -> f = v_free s -> s <| v_desc := d |> <| v_free := f |> = s.
Proof. intros -> ->. by destruct s. Qed.

Lemma alloc3_ok s A : own s A ->
  (exists i0 i1 i2, NoDup [i0; i1; i2] /\ Forall (fun i => (i < NUM)%nat /\ nth i (v_free s) 0 <> 0) [i0; i1; i2] /\
     alloc3_desc s = Ok (Some (i0, i1, i2), s <| v_free ::= upd3 i0 i1 i2 0 0 0 |>)) \/
  (alloc3_desc s = Ok (None, s) /\ exists l, (length l <= 2)%nat /\ forall i, (i < NUM)%nat -> nth i (v_free s) 0 <> 0 -> i ∈ l).
Proof.
  intros O. pose proof (o_lfree _ _ O) as Hl. unfold alloc3_desc.
  destruct (alloc_desc_ok s Hl) as [[E0 Hn]|(i0 & L0 & F0 & E0)]; rewrite (mbind_Ok _ _ _ _ _ E0).
  { right. split; [done|]. exists []. split; [simpl; lia|]. intros i Hi []. by apply Hn. }
  destruct (give_back s A i0 O L0 F0) as [D0 R0].
  destruct (alloc_desc_ok (s <| v_free ::= <[i0 := 0]> |>)) as [[E1 Hn]|(i1 & L1 & F1 & E1)]; [simpl; by rewrite length_insert|rewrite (mbind_Ok _ _ _ _ _ E1)..].
  { right. rewrite free_desc_bind by (try done; simpl; rewrite nth_lookup, list_lookup_insert_eq by lia; done). split.
    - by rewrite <- (vst_same s _ _ D0 R0) at 2.
    - exists [i0]. split; [simpl; lia|]. intros i Hi Hf. destruct (decide (i = i0)) as [->|Hne]; [by left|]. destruct Hf. specialize (Hn i Hi). simpl in Hn.
      rewrite nth_lookup, list_lookup_insert_ne in Hn by done. by rewrite nth_lookup. }
  simpl in F1. assert (i0 <> i1) as N01 by (intros <-; rewrite nth_lookup, list_lookup_insert_eq in F1 by lia; done).
  rewrite nth_lookup, list_lookup_insert_ne, <- nth_lookup in F1 by done. destruct (give_back s A i1 O L1 F1) as [D1 R1].
  destruct (alloc_desc_ok (s <| v_free ::= <[i0 := 0]> |> <| v_free ::= <[i1 := 0]> |>)) as [[E2 Hn]|(i2 & L2 & F2 & E2)]; [simpl; by rewrite !length_insert|rewrite (mbind_Ok _ _ _ _ _ E2)..].
  - right. rewrite free_desc_bind by (try done; simpl; rewrite nth_lookup, list_lookup_insert_ne, list_lookup_insert_eq by (done || lia); done).
    rewrite free_desc_bind by (try done; simpl; rewrite nth_lookup, list_lookup_insert_ne, list_lookup_insert_eq by (done || rewrite ?length_insert; lia); done). split.
    + rewrite <- (vst_same s (<[i1 := no_desc]> (<[i0 := no_desc]> (v_desc s))) (<[i1 := 1]> (<[i0 := 1]> (<[i1 := 0]> (<[i0 := 0]> (v_free s))))) ) at 2; [done|by rewrite D0, D1|]. by rewrite (list_insert_insert_ne _ i0 i1), R0, R1 by done.
    + exists [i0; i1]. split; [simpl; lia|]. intros i Hi Hf. destruct (decide (i = i0)) as [->|Hne]; [by left|]. destruct (decide (i = i1)) as [->|Hne1]; [right; by left|].
      destruct Hf. specialize (Hn i Hi). simpl in Hn. rewrite nth_lookup, !list_lookup_insert_ne in Hn by done. by rewrite nth_lookup.
  - left. simpl in F2. assert (i0 <> i2) as N02 by (intros <-; rewrite nth_lookup, list_lookup_insert_ne, list_lookup_insert_eq in F2 by (done || lia); done).
    assert (i1 <> i2) as N12 by (intros <-; rewrite nth_lookup, list_lookup_insert_eq in F2 by (rewrite length_insert; lia); done).
    rewrite nth_lookup, !list_lookup_insert_ne, <- nth_lookup in F2 by done. exists i0, i1, i2. split; [|split; [by rewrite !Forall_cons, Forall_nil|done]].
    rewrite !NoDup_cons, !not_elem_of_cons. repeat split; try done; try apply NoDup_nil_2; apply not_elem_of_nil.
Qed.

(** A new request *)
Definition prepared (s : vst) (b : Z) (vb : vbuf) (write : bool) (i0 i1 i2 : nat) : vst :=
  s <| v_free ::= upd3 i0 i1 i2 0 0 0 |>
    <| v_ops ::= <[i0 := mkReq (if write then VIRTIO_BLK_T_OUT else VIRTIO_BLK_T_IN) (sector_of (vb_blockno vb))]> |>
    <| v_desc ::= upd3 i0 i1 i2 (mkDesc (OpsAddr i0) 16 VRING_DESC_F_NEXT (Z.of_nat i1))
                    (mkDesc (DataAddr b) DISK_BSIZE (Z.lor (if write then 0 else VRING_DESC_F_WRITE) VRING_DESC_F_NEXT) (Z.of_nat i2))
                    (mkDesc (StatusAddr i0) 1 VRING_DESC_F_WRITE 0) |>
    <| v_info ::= fun l => alter (fun x => x <| in_b := Some b |>) i0 (alter (fun x => x <| in_status := 255 |>) i0 l) |>
    <| v_bufs ::= <[b := vb <| vb_disk := 1 |>]> |>
    <| v_ring ::= <[Z.to_nat (v_avail s mod Z.of_nat NUM) := Z.of_nat i0]> |>
    <| v_wait ::= <[b := i0]> |> <| v_prep := Some b |>.
Lemma set_desc_bind {T} s i d (k : M vst T) : (i < NUM)%nat -> (set_desc i d ;;; k) s = k (s <| v_desc ::= <[i := d]> |>).
Proof. intros Hi. unfold mbind, set_desc. by destruct (Nat.ltb_spec i NUM); [|lia]. Qed.
Lemma rw_prepare_eq s b vb write i0 i1 i2 : v_bufs s !! b = Some vb -> alloc3_desc s = Ok (Some (i0, i1, i2), s <| v_free ::= upd3 i0 i1 i2 0 0 0 |>) ->
  Forall (fun i => (i < NUM)%nat) [i0; i1; i2] -> rw_prepare b write s = Ok (tt, prepared s b vb write i0 i1 i2).
Proof.
  intros Hb H3 Hlt. rewrite !Forall_cons in Hlt. destruct Hlt as (L0 & L1 & L2 & _). unfold rw_prepare. rewrite mbind_reads, Hb, (mbind_Ok _ _ _ _ _ H3).
  rewrite mbind_modify, set_desc_bind, set_desc_bind, mbind_modify, set_desc_bind by done. by rewrite !mbind_modify.
Qed.

Section Prepare.
Variables (s : vst) (A : gmap Z req) (b : Z) (vb : vbuf) (write : bool) (i0 i1 i2 : nat).
Hypothesis O : own s A.
Hypothesis Hb : A !! b = None.
Hypothesis Hvb : v_bufs s !! b = Some vb.
Hypothesis Hnd : NoDup [i0; i1; i2].
Hypothesis Hfree : Forall (fun i => (i < NUM)%nat /\ nth i (v_free s) 0 <> 0) [i0; i1; i2].
Let r : req := mkRq i0 i1 i2 write (vb_blockno vb) Prepared.

Lemma prep_lt : Forall (fun i => (i < NUM)%nat) [i0; i1; i2].
Proof. eapply Forall_impl; [exact Hfree|]. by intros i []. Qed.
Lemma prep_fresh b1 x i : A !! b1 = Some x -> i ∈ idx3 x -> i ∉ [i0; i1; i2].
Proof.
  intros Hx Hi Hin. rewrite Forall_forall in Hfree. destruct (Hfree i Hin) as [Hlt Hne]. apply Hne, (o_free _ _ O); [done|]. by exists b1, x.
Qed.
Lemma prep_req : req_ok (prepared s b vb write i0 i1 i2) b r.
Proof.
  pose proof prep_lt as Hlt. destruct (upd3_in i0 i1 i2 (mkDesc (OpsAddr i0) 16 VRING_DESC_F_NEXT (Z.of_nat i1))
    (mkDesc (DataAddr b) DISK_BSIZE (Z.lor (if write then 0 else VRING_DESC_F_WRITE) VRING_DESC_F_NEXT) (Z.of_nat i2))
    (mkDesc (StatusAddr i0) 1 VRING_DESC_F_WRITE 0) (v_desc s) Hnd) as (D0 & D1 & D2); [by rewrite (o_desc _ _ O)|].
  assert (i0 < NUM)%nat as L0 by (by apply Forall_cons in Hlt as [? _]). split; try done; simpl.
  - apply list_lookup_insert_eq. by rewrite (o_ops _ _ O).
  - rewrite !list_lookup_alter_eq. destruct (lookup_lt_is_Some_2 (v_info s) i0) as [x Hx]; [by rewrite (o_linfo _ _ O)|]. by rewrite Hx.
  - rewrite lookup_insert_eq. by exists (vb_data vb).
Qed.
Lemma own_prepare : own (prepared s b vb write i0 i1 i2) (<[b := r]> A).
Proof.
  pose proof prep_lt as Hlt. pose proof prep_fresh as Hfr. pose proof prep_req as Hreq. destruct O. split; simpl; rewrite ?length_upd3, ?length_alter, ?length_insert; try done.
  - intros i Hi. rewrite nth_lookup. destruct (decide (i ∈ [i0; i1; i2])) as [Hin|Hout].
    + rewrite upd3_same by (by rewrite ?o_lfree0). split; [|done]. intros _. exists b, r. split; [apply lookup_insert_eq|done].
    + rewrite upd3_out by done. rewrite <- nth_lookup, o_free0 by done. split.
      * intros (b1 & x & Hx & Hix). exists b1, x. split; [|done]. rewrite lookup_insert_ne; [done|]. intros <-. congruence.
      * intros (b1 & x & [[<- <-]|[_ Hx]]%lookup_insert_Some & Hix); [done|]. by exists b1, x.
  - intros i Hi. rewrite nth_lookup. destruct (decide (i ∈ [i0; i1; i2])) as [Hin|Hout]; [by rewrite upd3_same by (by rewrite ?o_lfree0)|].
    rewrite !upd3_out by done. rewrite <- nth_lookup. by apply o_zero0.
  - intros b1 x [[<- <-]|[Hne Hx]]%lookup_insert_Some; [done|]. assert (i0 <> rq_i0 x) as Hi0.
    { intros He. apply (Hfr b1 x (rq_i0 x) Hx); [by left|rewrite <- He; by left]. }
    apply (req_ok_same s); [by apply o_req0| |simpl..].
    + intros i Hi. simpl. apply upd3_out. by apply (Hfr b1 x).
    + by apply list_lookup_insert_ne.
    + by rewrite !list_lookup_alter_ne.
    + by apply lookup_insert_ne.
  - intros b1 b2 x y i [[<- <-]|[_ H1]]%lookup_insert_Some [[<- <-]|[_ H2]]%lookup_insert_Some Hi Hj; [done|by destruct (Hfr b2 y i)|by destruct (Hfr b1 x i)|by apply (o_disj0 b1 b2 x y i)].
  - by rewrite o_wait0, fmap_insert.
Qed.
Lemma queues_prepare LP LU nd ns : queues s A LP LU nd ns -> v_prep s = None -> queues (prepared s b vb write i0 i1 i2) (<[b := r]> A) LP LU nd ns.
Proof.
  intros I Hp. pose proof (heads_lt _ _ _ _ O (i_pend _ _ _ _ _ _ I)) as Hlt. assert (length (i0 :: LP) <= NUM)%nat as Hlen.
  { apply distinct_le; [apply NoDup_cons; split; [|apply I]|].
    - intros (b1 & x & Hx & _ & He)%(i_pend _ _ _ _ _ _ I). apply (prep_fresh b1 x i0 Hx); [rewrite <- He|]; by left.
    - intros i [->|Hi]%elem_of_cons; [pose proof prep_lt as H; by apply Forall_cons in H as [? _]|by apply Hlt]. }
  cbn [length] in Hlen. unfold NUM in Hlen. assert (Z.to_nat (v_avail s mod Z.of_nat NUM) = Z.to_nat ((nd + Z.of_nat (length LP)) mod 8)) as Hpos by (by rewrite (i_avail _ _ _ _ _ _ I), u16_mod8).
  destruct I. split; try done; simpl; rewrite ?Hpos.
  - by rewrite length_insert.
  - by apply heads_insert.
  - by apply heads_insert.
  - by apply heads_insert.
  - apply window_keep; [done|lia].
  - intros b1 x [[<- <-]|[Hne Hx]]%lookup_insert_Some Hpx; [|destruct (i_prep0 b1 x Hx Hpx); congruence]. split; [done|]. apply list_lookup_insert_eq. rewrite i_ring0. apply mod8_range.
  - intros b1 [= <-]. exists r. split; [apply lookup_insert_eq|done].
Qed.
End Prepare.

(** A request is made, or waits: then at least two others are in flight. *)
Lemma used_count (A : gmap Z req) : length (concat (idx3 <$> (map_to_list A).*2)) = (3 * size A)%nat.
Proof.
  rewrite <- (length_map_to_list A). induction (map_to_list A) as [|[b r] l IH]; [done|]. change (length (idx3 r ++ concat (idx3 <$> l.*2)) = (3 * S (length l))%nat).
  rewrite length_app, IH. change (length (idx3 r)) with 3%nat. lia.
Qed.
Lemma two_in_flight s A l : own s A -> (length l <= 2)%nat -> (forall i, (i < NUM)%nat -> nth i (v_free s) 0 <> 0 -> i ∈ l) -> (2 <= size A)%nat.
Proof.
  intros O Hl Hf. assert (seq 0 NUM ⊆+ l ++ concat (idx3 <$> (map_to_list A).*2)) as Hs%submseteq_length.
  { apply NoDup_submseteq; [apply NoDup_seq|]. intros i Hi%elem_of_seq. assert (i < NUM)%nat as Hlt by lia. apply elem_of_app.
    destruct (decide (nth i (v_free s) 0 = 0)) as [H0|H0]; [right|left; by apply Hf]. apply (o_free _ _ O) in H0 as (b & r & Hb & Hr); [|done].
    apply list_elem_of_In, in_concat. exists (idx3 r). split; [|by apply list_elem_of_In]. apply list_elem_of_In, list_elem_of_fmap_2, list_elem_of_fmap. exists (b, r). by split; [|apply elem_of_map_to_list]. }
  rewrite length_seq, length_app, used_count in Hs. unfold NUM in Hs. lia.
Qed.
Lemma prepare_ok s A b vb write LP LU nd ns : inv s A LP LU nd ns -> A !! b = None -> v_bufs s !! b = Some vb -> v_prep s = None ->
  (exists i0 i1 i2, rw_prepare b write s = Ok (tt, prepared s b vb write i0 i1 i2) /\
     inv (prepared s b vb write i0 i1 i2) (<[b := mkRq i0 i1 i2 write (vb_blockno vb) Prepared]> A) LP LU nd ns) \/
  (rw_prepare b write s = Spin /\ alloc3_desc s = Ok (None, s) /\ (2 <= size A)%nat).
Proof.
  intros [O I] Hb Hvb Hp. destruct (alloc3_ok s A O) as [(i0 & i1 & i2 & Hnd & Hfree & H3)|[H3 (l & Hl & Hf)]].
  - left. exists i0, i1, i2. split; [eapply rw_prepare_eq; [done|done|by eapply prep_lt]|]. split; [by apply own_prepare|by apply queues_prepare].
  - right. split; [unfold rw_prepare; by rewrite mbind_reads, Hvb, (mbind_Ok _ _ _ _ _ H3)|]. split; [done|by eapply two_in_flight].
Qed.

(** The holder of an idle buffer changes it. *)
Lemma edit_ok s A b vb LP LU nd ns : inv s A LP LU nd ns -> A !! b = None -> inv (s <| v_bufs ::= <[b := vb]> |>) A LP LU nd ns.
Proof.
  intros [O I] Hb. split.
  - destruct O. split; try done. intros b1 x Hx. apply (req_ok_same s); [by apply o_req0|done..|]. simpl. apply lookup_insert_ne. intros ->. congruence.
  - by destruct I.
Qed.
