(* ===== verification/VirtioRun.v ===== *)
(** * Runs of the disk driver

    Processes, the interrupt handler and the device take turns ([vstep]); the
    abstract disk ([dstep]) has a set of requests, each of which moves one
    block once.  The theorems: no step can go wrong, every run is a run of the
    abstract disk, and without new requests all requests come to an end. *)
From stdpp Require Import base list strings gmap.
From Stdlib Require Import ZArith Lia.
From S2P Require Import Prelude Virtio VirtioSpec.

(** What can be seen of a step: a request is made, a block moves, a request
    returns, or the holder of an idle buffer changes it. *)
Inductive vlabel : Type :=
| LAsk (b : Z) (write : bool)
| LMove (b : Z) (write : bool) (sector : Z)
| LRet (b : Z)
| LEdit (b : Z) (blk : Z) (d : list Z)
| LTau.

(** [v_prep] is set while a process is between its entry in the ring and
    avail->idx, with vdisk_lock held; a buffer is in one request at a time,
    since the caller of virtio_disk_rw() holds its sleep lock. *)
Inductive vstep : vst -> vlabel -> vst -> Prop :=
| VPrep s b w s' : v_prep s = None -> v_wait s !! b = None -> rw_prepare b w s = Ok (tt, s') -> vstep s (LAsk b w) s'
| VPub s b s' : v_prep s = Some b -> rw_publish s = Ok (tt, s') -> vstep s LTau s'
| VFetch s s' : dev_fetch s = Ok (true, s') -> vstep s LTau s'
| VMove s h b w sec s' : h ∈ v_fetched s -> dev_complete h s = Ok ((b, w, sec), s') -> vstep s (LMove b w sec) s'
| VTurn s s' : v_prep s = None -> intr_turn s = Ok (true, s') -> vstep s LTau s'
| VFin s b i0 vb s' : v_prep s = None -> v_wait s !! b = Some i0 -> v_bufs s !! b = Some vb -> vb_disk vb <> 1 -> rw_finish b i0 s = Ok (tt, s') -> vstep s (LRet b) s'
| VEdit s b vb blk d : v_wait s !! b = None -> v_bufs s !! b = Some vb ->
    vstep s (LEdit b blk d) (s <| v_bufs ::= <[b := vb <| vb_blockno := blk |> <| vb_data := d |>]> |>).
Inductive vruns : vst -> list vlabel -> vst -> Prop :=
| VNil s : vruns s [] s
| VSnoc s tr s1 l s2 : vruns s tr s1 -> vstep s1 l s2 -> vruns s (tr ++ [l]) s2.

(** ** The abstract disk *)
Record dstate : Type := mkD { ds_disk : gmap Z (list Z); ds_bufs : gmap Z (Z * list Z); ds_reqs : gmap Z (bool * Z * bool) }.
Definition dmove (b : Z) (write : bool) (sec : Z) (a : dstate) : dstate :=
  match ds_bufs a !! b with
  | None => a
  | Some (blk, d) =>
      mkD (if write then <[sec := d]> (ds_disk a) else ds_disk a) (if write then ds_bufs a else <[b := (blk, default [] (ds_disk a !! sec))]> (ds_bufs a))
        (<[b := (write, sec, true)]> (ds_reqs a))
  end.
Inductive dstep : dstate -> vlabel -> dstate -> Prop :=
| DAsk a b w blk d : ds_reqs a !! b = None -> ds_bufs a !! b = Some (blk, d) ->
    dstep a (LAsk b w) (mkD (ds_disk a) (ds_bufs a) (<[b := (w, sector_of blk, false)]> (ds_reqs a)))
| DMove a b w sec : ds_reqs a !! b = Some (w, sec, false) -> dstep a (LMove b w sec) (dmove b w sec a)
| DRet a b w sec : ds_reqs a !! b = Some (w, sec, true) -> dstep a (LRet b) (mkD (ds_disk a) (ds_bufs a) (delete b (ds_reqs a)))
| DEdit a b x blk d : ds_reqs a !! b = None -> ds_bufs a !! b = Some x -> dstep a (LEdit b blk d) (mkD (ds_disk a) (<[b := (blk, d)]> (ds_bufs a)) (ds_reqs a))
| DTau a : dstep a LTau a.
Inductive druns : dstate -> list vlabel -> dstate -> Prop :=
| DNil a : druns a [] a
| DSnoc a tr a1 l a2 : druns a tr a1 -> dstep a1 l a2 -> druns a (tr ++ [l]) a2.

Definition asked (r : req) : bool * Z * bool := (rq_write r, sector_of (rq_blk r), moved (rq_ph r)).
Definition abs (s : vst) (A : gmap Z req) : dstate := mkD (v_disk s) (contents (v_bufs s)) (asked <$> A).

(** ** Every step keeps the invariant and is a step of the abstract disk *)
Definition rank (r : req) : nat := match rq_ph r with Prepared => 5 | Pending => 4 | Fetched => 3 | Done => 2 | Seen => 1 end.
Definition ranks (A : gmap Z req) : nat := sum_list_with (rank ∘ snd) (map_to_list A).
Definition progress (l : vlabel) : bool := match l with LAsk _ _ | LEdit _ _ _ => false | _ => true end.

Lemma ranks_insert A b r : A !! b = None -> ranks (<[b := r]> A) = (rank r + ranks A)%nat.
Proof. intros Hb. unfold ranks. by rewrite (map_to_list_insert A b r Hb). Qed.
Lemma ranks_lookup A b r : A !! b = Some r -> ranks A = (rank r + ranks (delete b A))%nat.
Proof. intros Hb. rewrite <- (insert_delete_id A b r Hb) at 1. apply ranks_insert, lookup_delete_eq. Qed.
Lemma ranks_phase A b r r' : A !! b = Some r -> (rank r' < rank r)%nat -> (ranks (<[b := r']> A) < ranks A)%nat.
Proof. intros Hb Hr. rewrite (ranks_lookup A b r Hb), <- insert_delete_eq, ranks_insert by apply lookup_delete_eq. lia. Qed.
Lemma ranks_bound A : (ranks A <= 5 * size A)%nat.
Proof.
  rewrite <- (length_map_to_list A). unfold ranks. induction (map_to_list A) as [|[b r] l IH]; [done|]. simpl in *. assert (rank r <= 5)%nat by (unfold rank; destruct (rq_ph r); lia). lia.
Qed.

Lemma asked_phase (A : gmap Z req) b r q : A !! b = Some r -> moved q = moved (rq_ph r) -> asked <$> <[b := r <| rq_ph := q |>]> A = asked <$> A.
Proof. intros Hb Hm. rewrite fmap_insert. apply insert_id. rewrite lookup_fmap, Hb. simpl. unfold asked. simpl. by rewrite Hm. Qed.
Lemma contents_lookup (bufs : gmap Z vbuf) b blk f d : bufs !! b = Some (mkVbuf blk f d) -> contents bufs !! b = Some (blk, d).
Proof. intros Hb. unfold contents. by rewrite lookup_fmap, Hb. Qed.
Lemma transfer_dmove s s' A b r : req_ok s b r -> (v_bufs s', v_disk s') = transfer b (rq_write r) (sector_of (rq_blk r)) (v_bufs s) (v_disk s) ->
  abs s' (<[b := r <| rq_ph := Done |>]> A) = dmove b (rq_write r) (sector_of (rq_blk r)) (abs s A).
Proof.
  intros R Ht. destruct (ro_buf _ _ _ R) as [d Hd]. unfold dmove, abs. cbn [ds_bufs ds_disk ds_reqs]. rewrite (contents_lookup _ _ _ _ _ Hd), fmap_insert.
  unfold transfer in Ht. rewrite Hd in Ht. destruct (rq_write r) eqn:Hw; injection Ht as -> ->.
  - f_equal. unfold asked. simpl. by rewrite Hw.
  - f_equal; [unfold contents; by rewrite fmap_insert|]. unfold asked. simpl. by rewrite Hw.
Qed.

(** A new request *)
Lemma ask_abs s A b vb w i0 i1 i2 : A !! b = None -> v_bufs s !! b = Some vb ->
  dstep (abs s A) (LAsk b w) (abs (prepared s b vb w i0 i1 i2) (<[b := mkRq i0 i1 i2 w (vb_blockno vb) Prepared]> A)).
Proof.
  intros HA Hb. assert (contents (v_bufs (prepared s b vb w i0 i1 i2)) = contents (v_bufs s)) as Hc by (simpl; unfold contents; rewrite fmap_insert; apply insert_id; by rewrite lookup_fmap, Hb).
  unfold abs. rewrite Hc, fmap_insert. apply (DAsk (mkD _ _ _) _ _ (vb_blockno vb) (vb_data vb)); simpl; [by rewrite lookup_fmap, HA|unfold contents; by rewrite lookup_fmap, Hb].
Qed.
(** A step inside a request *)
Lemma tau_phase s s' (A : gmap Z req) b r q : A !! b = Some r -> moved q = moved (rq_ph r) -> (rank (r <| rq_ph := q |>) < rank r)%nat ->
  contents (v_bufs s') = contents (v_bufs s) -> v_disk s' = v_disk s ->
  dstep (abs s A) LTau (abs s' (<[b := r <| rq_ph := q |>]> A)) /\ (ranks (<[b := r <| rq_ph := q |>]> A) < ranks A)%nat.
Proof. intros Hb Hm Hr Eb Ed. split; [|by apply (ranks_phase _ _ r)]. unfold abs. rewrite (asked_phase _ _ _ _ Hb Hm), Eb, Ed. constructor. Qed.

(** Requests as the waiting processes see them *)
Definition vinv (s : vst) (A : gmap Z req) : Prop := exists LP LU nd ns, inv s A LP LU nd ns.
Lemma vinv_wait s A b : vinv s A -> v_wait s !! b = None -> A !! b = None.
Proof. intros (LP & LU & nd & ns & O & _) H. rewrite (o_wait _ _ O), lookup_fmap in H. by destruct (A !! b). Qed.
Lemma vinv_waiting s A b i0 : vinv s A -> v_wait s !! b = Some i0 -> exists r, A !! b = Some r /\ rq_i0 r = i0 /\ req_ok s b r.
Proof.
  intros (LP & LU & nd & ns & O & _) H. rewrite (o_wait _ _ O), lookup_fmap in H. destruct (A !! b) as [r|] eqn:Hb; [|done]. injection H as <-. exists r. by split; [|split; [|apply O]].
Qed.
Lemma seen_of s b r vb : req_ok s b r -> v_bufs s !! b = Some vb -> vb_disk vb <> 1 -> rq_ph r = Seen.
Proof. intros R Hb Hd. destruct (ro_buf _ _ _ R) as [d H]. rewrite Hb in H. injection H as ->. simpl in Hd. by destruct (rq_ph r). Qed.

Lemma vstep_ok s A l s' : vinv s A -> vstep s l s' -> exists A', vinv s' A' /\ dstep (abs s A) l (abs s' A') /\
  (if progress l then (ranks A' < ranks A)%nat else match l with LEdit _ _ _ => ranks A' = ranks A | _ => True end).
Proof.
  intros V Hst. pose proof V as (LP & LU & nd & ns & I). destruct Hst as [s b w s' Hp Hw H|s b s' Hp H|s s' H|s h b w sec s' Hh H|s s' Hp H|s b i0 vb s' Hp Hw Hb Hd H|s b vb blk d Hw Hb].
  - pose proof (vinv_wait _ _ _ V Hw) as HA. destruct (v_bufs s !! b) as [vb|] eqn:Hb; [|unfold rw_prepare in H; by rewrite mbind_reads, Hb in H].
    destruct (prepare_ok s A b vb w _ _ _ _ I HA Hb Hp) as [(i0 & i1 & i2 & E & I')|[E _]]; rewrite E in H; [|done].
    injection H as <-. eexists. split; [by eexists _, _, _, _|]. split; [|done]. by apply ask_abs.
  - destruct (publish_ok _ _ _ _ _ _ _ I Hp) as (r & s1 & Hb & Hph & E & I' & Eb & Ed). rewrite E in H. injection H as <-. eexists. split; [by eexists _, _, _, _|].
    apply tau_phase; unfold rank; simpl; rewrite ?Hph, ?Eb; done || lia.
  - destruct LP as [|h LP]; [by rewrite (fetch_none _ _ _ _ _ I) in H|]. destruct (fetch_ok _ _ _ _ _ _ _ I) as (b & r & s1 & Hb & Hph & E & I' & Eb & Ed). rewrite E in H. injection H as <-.
    eexists. split; [by eexists _, _, _, _|]. apply tau_phase; unfold rank; simpl; rewrite ?Hph, ?Eb; done || lia.
  - destruct (complete_ok _ _ _ _ _ _ _ I Hh) as (b1 & r & s1 & Hb & Hph & Hi & E & I' & Et). rewrite E in H. injection H as <- <- <- <-. eexists. split; [by eexists _, _, _, _|].
    split; [|apply (ranks_phase _ _ r); [done|]; unfold rank; simpl; rewrite Hph; lia]. erewrite transfer_dmove; [|by apply I|done]. constructor. simpl. rewrite lookup_fmap, Hb. simpl. unfold asked. by rewrite Hph.
  - destruct LU as [|h LU]; [by rewrite (turn_none _ _ _ _ _ I) in H|]. destruct (turn_ok _ _ _ _ _ _ _ I) as (b & r & s1 & Hb & Hph & E & I' & Eb & Ed). rewrite E in H. injection H as <-.
    eexists. split; [by eexists _, _, _, _|]. apply tau_phase; unfold rank; simpl; rewrite ?Hph, ?Eb; done || lia.
  - destruct (vinv_waiting _ _ _ _ V Hw) as (r & HA & <- & R). pose proof (seen_of _ _ _ _ R Hb Hd) as Hph. destruct (finish_ok _ _ _ _ _ _ _ _ I HA Hph) as (s1 & E & I' & Eb & Ed). rewrite E in H. injection H as <-.
    eexists. split; [by eexists _, _, _, _|]. split; [|simpl; rewrite (ranks_lookup _ _ _ HA); unfold rank; rewrite Hph; lia]. unfold abs. rewrite Eb, Ed, fmap_delete.
    apply (DRet (mkD _ _ _) b (rq_write r) (sector_of (rq_blk r))). simpl. rewrite lookup_fmap, HA. simpl. unfold asked. by rewrite Hph.
  - pose proof (vinv_wait _ _ _ V Hw) as HA. exists A. split; [eexists _, _, _, _; by apply edit_ok|]. split; [|done]. unfold abs. simpl. unfold contents at 2. rewrite fmap_insert.
    eapply (DEdit (mkD _ _ _)); simpl; [by rewrite lookup_fmap, HA|unfold contents; by rewrite lookup_fmap, Hb].
Qed.

(** ** The interrupt handler ends when the device is quiet *)
Lemma intr_loop_ok LU : forall s A LP nd ns fuel, inv s A LP LU nd ns -> (length LU < fuel)%nat ->
  exists s' A' ns', mloop fuel (fun _ : unit => let* more := intr_turn in mret (if more : bool then inl tt else inr tt)) tt s = Ok (tt, s') /\ inv s' A' LP [] nd ns'.
Proof.
  induction LU as [|h LU IH]; intros s A LP nd ns [|fuel] I Hf; simpl in Hf; try lia.
  - exists s, A, ns. split; [|done]. apply mloop_stop. by rewrite (mbind_Ok _ _ _ _ _ (turn_none _ _ _ _ _ I)).
  - destruct (turn_ok _ _ _ _ _ _ _ I) as (b & r & s1 & _ & _ & E & I' & _). destruct (IH _ _ _ _ _ fuel I') as (s' & A' & ns' & E' & I''); [lia|].
    exists s', A', ns'. split; [|done]. rewrite <- E'. apply mloop_next. by rewrite (mbind_Ok _ _ _ _ _ E).
Qed.
Lemma intr_ok s A : vinv s A -> exists s', virtio_disk_intr s = Ok (tt, s').
Proof.
  intros (LP & LU & nd & ns & I). pose proof (heads_le _ _ _ _ (proj1 I) (i_done _ _ _ _ _ _ (proj2 I))) as Hl. unfold NUM in Hl.
  destruct (intr_loop_ok LU s A LP nd ns (S (Z.to_nat (2 ^ 16))) I) as (s' & _ & _ & E & _); [lia|]. by exists s'.
Qed.

(** ** The start *)
Definition idle (bufs : gmap Z vbuf) (disk : gmap Z (list Z)) : vst :=
  mkVst (replicate NUM no_desc) (replicate NUM 0) 0 (replicate NUM 0) 0 (replicate NUM 1) 0 (replicate NUM (mkInfo None 0)) (replicate NUM (mkReq 0 0)) bufs disk 0 [] ∅ None.
Lemma init_idle rd pages bufs disk w0 s w : virtio_disk_init rd pages bufs disk w0 = Ok (s, w) -> s = idle bufs disk.
Proof.
  unfold virtio_disk_init, wr64. destruct pages as [[p1 p2] p3]. intros H.
  repeat match type of H with
  | mbind _ _ _ = Ok _ => apply mbind_Ok_inv in H as (? & ? & _ & H)
  | (if ?c then _ else _) _ = Ok _ => destruct c; [done|]
  end. by injection H as <- <-.
Qed.
Lemma heads_empty ph : heads ∅ ph [].
Proof. split; [apply NoDup_nil_2|]. intros h. rewrite elem_of_nil. split; [done|]. by intros (b & r & ? & _). Qed.
Lemma idle_inv bufs disk : vinv (idle bufs disk) ∅.
Proof.
  exists [], [], 0, 0. split; split; try done; try apply heads_empty.
  - intros i Hi. cbn [v_free idle]. rewrite nth_lookup, (lookup_replicate_2 NUM 1 i Hi). split; [done|]. by intros (b & r & ? & _).
  - intros i Hi. cbn [v_free v_desc idle]. by rewrite nth_lookup, (lookup_replicate_2 NUM 1 i Hi), (lookup_replicate_2 NUM no_desc i Hi).
Qed.
Lemma vruns_ok s A tr s' : vinv s A -> vruns s tr s' -> exists A', vinv s' A' /\ druns (abs s A) tr (abs s' A').
Proof.
  intros V H. induction H as [s|s tr s1 l s2 Hr IH Hs]; [exists A; split; [done|constructor]|]. destruct (IH V) as (A1 & V1 & D1).
  destruct (vstep_ok _ _ _ _ V1 Hs) as (A2 & V2 & D2 & _). exists A2. split; [done|by econstructor].
Qed.

(** Some step inside a request is possible while there is a request. *)
Lemma can_go s A : vinv s A -> v_wait s <> ∅ -> exists l s', vstep s l s' /\ progress l = true.
Proof.
  intros V Hw. pose proof V as (LP & LU & nd & ns & I). pose proof I as [O Q]. destruct (v_prep s) as [b|] eqn:Hp.
  { destruct (publish_ok _ _ _ _ _ _ _ I Hp) as (r & s' & _ & _ & E & _). exists LTau, s'. split; [by apply (VPub s b)|done]. }
  destruct (map_choose (v_wait s) Hw) as (b & i0 & Hb). destruct (vinv_waiting _ _ _ _ V Hb) as (r & HA & Hi & R). destruct (rq_ph r) eqn:Hph.
  - destruct (i_prep _ _ _ _ _ _ Q b r HA Hph). congruence.
  - destruct LP as [|h LP]; [exfalso; assert (rq_i0 r ∈ ([] : list nat)) as []%not_elem_of_nil by (apply Q; by exists b, r)|].
    destruct (fetch_ok _ _ _ _ _ _ _ I) as (b1 & r1 & s' & _ & _ & E & _). exists LTau, s'. split; [by apply VFetch|done].
  - destruct (complete_ok s A (rq_i0 r) _ _ _ _ I) as (b1 & r1 & s' & _ & _ & _ & E & _); [apply Q; by exists b, r|]. eexists _, s'. split; [apply (VMove s (rq_i0 r)); [apply Q; by exists b, r|exact E]|done].
  - destruct LU as [|h LU]; [exfalso; assert (rq_i0 r ∈ ([] : list nat)) as []%not_elem_of_nil by (apply Q; by exists b, r)|].
    destruct (turn_ok _ _ _ _ _ _ _ I) as (b1 & r1 & s' & _ & _ & E & _). exists LTau, s'. split; [by apply VTurn|done].
  - destruct (finish_ok _ _ _ _ _ _ _ _ I HA Hph) as (s' & E & _). destruct (ro_buf _ _ _ R) as [d Hd]. rewrite Hph in Hd. subst i0. exists (LRet b), s'. split; [by eapply VFin|done].
Qed.
Definition asks (l : vlabel) : bool := match l with LAsk _ _ => true | _ => false end.
Lemma drain s A tr s' : vinv s A -> vruns s tr s' -> Forall (fun l => asks l = false) tr -> exists A', vinv s' A' /\ (length (filter (fun l => progress l = true) tr) + ranks A' <= ranks A)%nat.
Proof.
  intros V H. induction H as [s|s tr s1 l s2 Hr IH Hs]; intros Hn; [exists A; split; [done|simpl; lia]|]. apply Forall_app in Hn as [Hn Hl]. apply Forall_cons in Hl as [Hl _].
  destruct (IH V Hn) as (A1 & V1 & H1). destruct (vstep_ok _ _ _ _ V1 Hs) as (A2 & V2 & _ & H2). exists A2. split; [done|]. rewrite filter_app, length_app, filter_cons.
  destruct (progress l) eqn:Hp; [rewrite decide_True by done; simpl; lia|]. rewrite decide_False by done. cbn [length filter list_filter]. destruct l; try done. lia.
Qed.

(** ** A run *)
Definition after {T : Type} (m : M vst T) (s : vst) : vst := match m s with Ok (_, s') => s' | _ => s end.
Definition vdemo_rd (w : list (Z * Z)) (r : Z) : Z :=
  if r =? VIRTIO_MMIO_MAGIC_VALUE then 1953655158 else if r =? VIRTIO_MMIO_VERSION then 2 else if r =? VIRTIO_MMIO_DEVICE_ID then 2
  else if r =? VIRTIO_MMIO_VENDOR_ID then 1431127377 else if r =? VIRTIO_MMIO_STATUS then 11 else if r =? VIRTIO_MMIO_QUEUE_NUM_MAX then 1024 else 0.
Definition vdemo_pages : Z * Z * Z := (2147487744, 2147491840, 2147495936).
Definition vdemo_bufs : gmap Z vbuf := {[ 1 := mkVbuf 3 0 [7]; 2 := mkVbuf 4 0 [] ]}.
Definition vdemo_disk : gmap Z (list Z) := {[ 8 := [5] ]}.
Definition vdemo0 : vst := idle vdemo_bufs vdemo_disk.
(** One buffer is written while another is read, and the write returns. *)
Definition vdemo1 : vst := after rw_publish (after (rw_prepare 1 true) vdemo0).
Definition vdemo2 : vst := after dev_fetch (after rw_publish (after (rw_prepare 2 false) vdemo1)).
Definition vdemo3 : vst := after intr_turn (after (dev_complete 0) vdemo2).
Definition vdemo4 : vst := after (rw_finish 1 0) vdemo3.
Definition vdemo_tr : list vlabel := [LAsk 1 true; LTau; LAsk 2 false; LTau; LTau; LMove 1 true 6; LTau].
Lemma vdemo_run : vruns vdemo0 vdemo_tr vdemo3.
Proof.
  apply (VSnoc vdemo0 [LAsk 1 true; LTau; LAsk 2 false; LTau; LTau; LMove 1 true 6] (after (dev_complete 0) vdemo2) LTau vdemo3); [|apply VTurn; vm_compute; reflexivity].
  apply (VSnoc vdemo0 [LAsk 1 true; LTau; LAsk 2 false; LTau; LTau] vdemo2 (LMove 1 true 6)); [|apply VMove with (h := 0%nat); [replace (v_fetched vdemo2) with [0%nat] by (vm_compute; reflexivity); left|vm_compute; reflexivity]].
  apply (VSnoc vdemo0 [LAsk 1 true; LTau; LAsk 2 false; LTau] (after rw_publish (after (rw_prepare 2 false) vdemo1)) LTau); [|apply VFetch; vm_compute; reflexivity].
  apply (VSnoc vdemo0 [LAsk 1 true; LTau; LAsk 2 false] (after (rw_prepare 2 false) vdemo1) LTau); [|apply VPub with (b := 2); vm_compute; reflexivity].
  apply (VSnoc vdemo0 [LAsk 1 true; LTau] vdemo1 (LAsk 2 false)); [|apply VPrep; vm_compute; reflexivity].
  apply (VSnoc vdemo0 [LAsk 1 true] (after (rw_prepare 1 true) vdemo0) LTau); [|apply VPub with (b := 1); vm_compute; reflexivity].
  apply (VSnoc vdemo0 [] vdemo0 (LAsk 1 true)); [apply VNil|apply VPrep; vm_compute; reflexivity].
Qed.
Lemma vdemo_end : vruns vdemo3 [LRet 1] vdemo4.
Proof. apply (VSnoc _ [] vdemo3); [apply VNil|]. apply VFin with (i0 := 0%nat) (vb := mkVbuf 3 0 [7]); [vm_compute; reflexivity..|done|vm_compute; reflexivity]. Qed.
Lemma vdemo_init : virtio_disk_init vdemo_rd vdemo_pages vdemo_bufs vdemo_disk [] = Ok (vdemo0, match virtio_disk_init vdemo_rd vdemo_pages vdemo_bufs vdemo_disk [] with Ok (_, w) => w | _ => [] end).
Proof. reflexivity. Qed.

(** ** The theorems *)
(** C23: After virtio_disk_init(), whatever requests are made and however
    processes, the interrupt handler and the device take turns: virtio_disk_intr()
    ends without a panic, the device finds a well-formed command in every chain
    it takes and has a legal next step, the end of virtio_disk_rw() frees its
    chain without a panic, and a new request is made unless fewer than three
    descriptors are free, which is only when two requests are in flight; then
    nothing is left allocated. *)
Theorem disk_driver_safe rd pages bufs disk s0 w tr s :
  virtio_disk_init rd pages bufs disk [] = Ok (s0, w) -> vruns s0 tr s ->
  (exists s', virtio_disk_intr s = Ok (tt, s')) /\
  (exists r, dev_fetch s = Ok r) /\
  (forall h, h ∈ v_fetched s -> exists r, dev_complete h s = Ok r) /\
  (forall b i0 vb, v_wait s !! b = Some i0 -> v_bufs s !! b = Some vb -> vb_disk vb <> 1 -> exists s', rw_finish b i0 s = Ok (tt, s')) /\
  (forall b vb write, v_prep s = None -> v_wait s !! b = None -> v_bufs s !! b = Some vb ->
     (exists s', rw_prepare b write s = Ok (tt, s')) \/
     (rw_prepare b write s = Spin /\ alloc3_desc s = Ok (None, s) /\ (2 <= size (v_wait s))%nat)).
Proof.
  intros H Hr. apply init_idle in H as ->. destruct (vruns_ok _ _ _ _ (idle_inv bufs disk) Hr) as (A & V & _). split; [by eapply intr_ok|].
  pose proof V as (LP & LU & nd & ns & I). split; [|split; [|split]].
  - destruct LP as [|h LP]; [by rewrite (fetch_none _ _ _ _ _ I); eexists|]. destruct (fetch_ok _ _ _ _ _ _ _ I) as (b & r & s' & _ & _ & E & _). rewrite E. by eexists.
  - intros h Hh. destruct (complete_ok _ _ _ _ _ _ _ I Hh) as (b & r & s' & _ & _ & _ & E & _). rewrite E. by eexists.
  - intros b i0 vb Hw Hb Hd. destruct (vinv_waiting _ _ _ _ V Hw) as (r & HA & <- & R). destruct (finish_ok _ _ _ _ _ _ _ _ I HA (seen_of _ _ _ _ R Hb Hd)) as (s' & E & _). by exists s'.
  - intros b vb write Hp Hw Hb. destruct (prepare_ok s A b vb write _ _ _ _ I (vinv_wait _ _ _ V Hw) Hb Hp) as [(i0 & i1 & i2 & E & _)|(E & E3 & Hs)]; [left; by eexists|right].
    split; [done|]. split; [done|]. by rewrite (o_wait _ _ (proj1 I)), map_size_fmap.
Qed.

(** C22: Every run of the driver is a run of the abstract disk with the same
    requests, transfers and returns: a request moves the block of its buffer
    exactly once, in its direction and at its sector, after virtio_disk_rw()
    is called and before it returns; no other transfer touches the disk or a
    buffer, and a buffer with a request is not changed by anything else. *)
Theorem disk_refines rd pages bufs disk s0 w tr s :
  virtio_disk_init rd pages bufs disk [] = Ok (s0, w) -> vruns s0 tr s ->
  exists a, druns (mkD disk (contents bufs) ∅) tr a /\ ds_disk a = v_disk s /\ ds_bufs a = contents (v_bufs s) /\ (forall b, is_Some (ds_reqs a !! b) <-> is_Some (v_wait s !! b)).
Proof.
  intros H Hr. apply init_idle in H as ->. destruct (vruns_ok _ _ _ _ (idle_inv bufs disk) Hr) as (A & (LP & LU & nd & ns & O & _) & D).
  exists (abs s A). split; [unfold abs in D at 1; by rewrite fmap_empty in D|]. do 2 (split; [done|]). intros b. simpl. by rewrite (o_wait _ _ O), !lookup_fmap, !fmap_is_Some.
Qed.


Lemma disk_driver_safe_witness :
  vruns vdemo0 vdemo_tr vdemo3 /\ (exists s', virtio_disk_intr vdemo3 = Ok (tt, s')) /\ (forall h, h ∈ v_fetched vdemo3 -> exists r, dev_complete h vdemo3 = Ok r).
Proof. split; [exact vdemo_run|]. destruct (disk_driver_safe _ _ _ _ _ _ _ _ vdemo_init vdemo_run) as (H1 & _ & H3 & _). by split. Defined.
Lemma disk_refines_witness : exists a, druns (mkD vdemo_disk (contents vdemo_bufs) ∅) vdemo_tr a /\ ds_disk a !! 6 = Some [7] /\ is_Some (ds_reqs a !! 2).
Proof.
  destruct (disk_refines _ _ _ _ _ _ _ _ vdemo_init vdemo_run) as (a & Hr & Hd & _ & Hq). exists a. split; [exact Hr|]. split; [rewrite Hd; vm_compute; reflexivity|apply Hq; by exists 3%nat].
Defined.
