(* ===== verification/Mkfs.v ===== *)
(** * The program that makes the file system image (mkfs/mkfs.c)

    mkfs runs on the host and writes the image the kernel boots from.  The
    state is the image file, as sectors, with the counters of mkfs.c; the host
    is little-endian.  assert() that fails and die() end the program, which is
    the outcome [Panic].  What read() returns for the files of the host is the
    parameter [host]. *)
From stdpp Require Import base list strings gmap.
From Stdlib Require Import ZArith Lia.
From S2P Require Import Prelude CString Kalloc FsState Fs.

Definition FSSIZE : Z := 2000.
Definition NINODES : Z := 200.
Definition nbitmap : Z := FSSIZE / BPB + 1.
Definition ninodeblocks : Z := NINODES / IPB + 1.
Definition nlog : Z := LOGBLOCKS + 1.
Definition nmeta : Z := 2 + nlog + ninodeblocks + nbitmap.
Definition nblocks : Z := FSSIZE - nmeta.

(** The image file: sector [i] is [im_blk i], for [i] below [im_len]. *)
Record img : Type := mkImg { im_blk : Z -> list Z; im_len : Z; freeinode : Z; freeblock : Z }.
#[global] Instance eta_img : Eta img := fun x => mkImg (im_blk x) (im_len x) (freeinode x) (freeblock x).

(** The value of a number stored byte by byte in the order of RISC-V. *)
Definition xshort (x : Z) : Z := le_val (le_bytes 2 x).
Definition xint (x : Z) : Z := le_val (le_bytes 4 x).
Definition zeroes : list Z := repeat 0 (Z.to_nat BSIZE).

(** sb, as main() fills it in *)
Definition mk_sb : superblock :=
  {| sb_magic := FSMAGIC; sb_size := xint FSSIZE; sb_nblocks := xint nblocks; sb_ninodes := xint NINODES; sb_nlog := xint nlog;
     sb_logstart := xint 2; sb_inodestart := xint (2 + nlog); sb_bmapstart := xint (2 + nlog + ninodeblocks) |}.
Definition superblock_bytes (s : superblock) : list Z :=
  concat (map (le_bytes 4) [sb_magic s; sb_size s; sb_nblocks s; sb_ninodes s; sb_nlog s; sb_logstart s; sb_inodestart s; sb_bmapstart s]).

(** lseek() to [sec * BSIZE], a uint *)
Definition seek (sec : Z) : Z := u32 (sec * BSIZE) / BSIZE.
Definition wsect (sec : Z) (buf : list Z) : M img unit :=
  mmodify (fun s => s <| im_blk ::= (fun f i => if i =? seek sec then buf else f i) |> <| im_len ::= Z.max (seek sec + 1) |>).
Definition rsect (sec : Z) : M img (list Z) := fun s =>
  if seek sec <? im_len s then Ok (im_blk s (seek sec), s) else Panic "read".

Definition winode (inum : Z) (ip : dinode) : M img unit :=
  let bn := IBLOCK inum mk_sb in
  let* buf := rsect bn in
  wsect bn (put_dinode (dinode_off inum) ip buf).
Definition rinode (inum : Z) : M img dinode :=
  let bn := IBLOCK inum mk_sb in
  let* buf := rsect bn in
  mret (get_dinode buf (dinode_off inum)).

Definition mk_ialloc (type : Z) : M img Z :=
  let* inum := mreads freeinode in
  mmodify (fun s => s <| freeinode := u32 (inum + 1) |>) ;;;
  winode inum (mkDinode (xshort type) 0 0 (xshort 1) (xint 0) (repeat 0 13)) ;;;
  mret inum.

(** freeblock++ *)
Definition next_block : M img Z :=
  let* b := mreads freeblock in
  mmodify (fun s => s <| freeblock := u32 (b + 1) |>) ;;;
  mret b.

(** The block for block [fbn] of the file, which it gets if it has none. *)
Definition iappend_block (din : dinode) (fbn : Z) : M img (dinode * Z) :=
  if fbn <? NDIRECT then
    let* din :=
      (if xint (nth (Z.to_nat fbn) (d_addrs din) 0) =? 0 then
         let* b := next_block in
         mret (din <| d_addrs ::= <[Z.to_nat fbn := xint b]> |>)
       else mret din) in
    mret (din, xint (nth (Z.to_nat fbn) (d_addrs din) 0))
  else
    let* din :=
      (if xint (nth (Z.to_nat NDIRECT) (d_addrs din) 0) =? 0 then
         let* b := next_block in
         mret (din <| d_addrs ::= <[Z.to_nat NDIRECT := xint b]> |>)
       else mret din) in
    let ind := xint (nth (Z.to_nat NDIRECT) (d_addrs din) 0) in
    let* indirect := rsect ind in
    let* indirect :=
      (if get32 indirect (4 * (fbn - NDIRECT)) =? 0 then
         let* b := next_block in
         let indirect := set32 (4 * (fbn - NDIRECT)) (xint b) indirect in
         wsect ind indirect ;;;
         mret indirect
       else mret indirect) in
    mret (din, xint (get32 indirect (4 * (fbn - NDIRECT)))).

(** One turn of the loop of iappend() *)
Definition iappend_turn (v : dinode * Z * list Z) : M img (dinode * Z * list Z + dinode * Z) :=
  let '(din, off, p) := v in
  let n := Z.of_nat (length p) in
  if negb (0 <? n) then mret (inr (din, off))
  else
    let fbn := off / BSIZE in
    if negb (fbn <? MAXFILE) then mpanic "assert"
    else
      let* r := iappend_block din fbn in
      let n1 := Z.min n (u32 ((fbn + 1) * BSIZE - off)) in
      let* buf := rsect (snd r) in
      wsect (snd r) (splice (off - fbn * BSIZE) (take (Z.to_nat n1) p) buf) ;;;
      mret (inl (fst r, u32 (off + n1), drop (Z.to_nat n1) p)).
Definition iappend (inum : Z) (xp : list Z) : M img unit :=
  let* din := rinode inum in
  let* r := mloop (S (length xp)) iappend_turn (din, xint (d_size din), xp) in
  winode inum ((fst r) <| d_size := xint (snd r) |>).

Definition mk_balloc (used : Z) : M img unit :=
  if negb (used <? BPB) then mpanic "assert"
  else wsect (sb_bmapstart mk_sb) (foldl (fun buf i => bit_set (Z.of_nat i) buf) zeroes (seq 0 (Z.to_nat used))).

(** A directory entry *)
Definition mk_dirent (inum : Z) (name : list Z) : list Z := dirent_bytes (xshort inum) (strncpy_name name).

(** argv[i] without user/ *)
Definition shortname (arg : list Z) : list Z :=
  if decide (take 5 arg = [117; 115; 101; 114; 47]) then drop 5 arg else arg.

Section Main.
(** Whether the image can be opened, and the results of read() on the files of
    the host; [None] for one that cannot be opened. *)
Variable open_img : list Z -> bool.
Variable host : list Z -> option (list (list Z)).

Definition add_file (rootino : Z) (arg : list Z) : M img unit :=
  let short := shortname arg in
  if bool_decide (SLASH ∈ short) then mpanic "assert"
  else
    match host arg with
    | None => mpanic "die"
    | Some reads =>
        let short := match short with 95 :: l => l | _ => short end in
        if negb (Z.of_nat (length short) <=? DIRSIZ) then mpanic "assert"
        else
          let* inum := mk_ialloc T_FILE in
          iappend rootino (mk_dirent inum short) ;;;
          for_each reads (iappend inum)
    end.
Definition mkfs_main (argv : list (list Z)) : M img unit :=
  match argv with
  | _ :: out :: args =>
      if negb (open_img out) then mpanic "die"
      else
        mmodify (fun s => s <| freeblock := nmeta |>) ;;;
        for_each (seq 0 (Z.to_nat FSSIZE)) (fun i => wsect (Z.of_nat i) zeroes) ;;;
        wsect 1 (splice 0 (superblock_bytes mk_sb) zeroes) ;;;
        let* rootino := mk_ialloc T_DIR in
        if negb (rootino =? ROOTINO) then mpanic "assert"
        else
          iappend rootino (mk_dirent rootino [46]) ;;;
          iappend rootino (mk_dirent rootino [46; 46]) ;;;
          for_each args (add_file rootino) ;;;
          (* the size of the root directory is a number of whole blocks *)
          let* din := rinode rootino in
          winode rootino (din <| d_size := xint (u32 ((xint (d_size din) / BSIZE + 1) * BSIZE)) |>) ;;;
          let* fb := mreads freeblock in
          mk_balloc fb
  | _ => mpanic "usage"
  end.
End Main.
(** The image before the first write *)
Definition new_img : img := mkImg (fun _ => []) 0 1 0.
