(* ===== verification/MkfsSpec.v ===== *)
(** * The image mkfs makes

    What the image holds is stated with the notions of the kernel's file
    system: the blocks of a file ([blk_addr], [slot]) and its bytes ([fbyte]). *)
From stdpp Require Import base list strings gmap.
From Stdlib Require Import ZArith Lia.
From S2P Require Import Prelude CString Spinlock Kalloc FsState Bio BioList BioSpec BioOps Bytes Log LogSpec LogCrash LogOps FsTxn Fs FsNames FsAlloc FsFile Mkfs.

Implicit Types (f : Z -> list Z) (A : list Z).
Definition vf f : Z * Z -> list Z := fun k => f k.2.
Definition baddr f A (bn : Z) : Z := blk_addr 1 (vf f) A bn.
Definition mslot f A (i : Z) : Z := slot 1 0 (vf f) A i.
Definition mbyte f A (x : Z) : Z := fbyte 1 (vf f) A x.
Definition wput f (sec : Z) (buf : list Z) : Z -> list Z := fun i => if i =? sec then buf else f i.

(** ** Sectors *)
Lemma xint_id x : 0 <= x < 2 ^ 32 -> xint x = x.
Proof. apply u32_le. Qed.
Lemma seek_id sec : 0 <= sec < FSSIZE -> seek sec = sec.
Proof. intros H. unfold seek, FSSIZE, BSIZE in *. rewrite u32_small by lia. by apply Z.div_mul. Qed.
Lemma wput_eq f sec buf : wput f sec buf sec = buf.
Proof. unfold wput. by rewrite Z.eqb_refl. Qed.
Lemma wput_ne f sec buf i : i <> sec -> wput f sec buf i = f i.
Proof. intros H. unfold wput. by destruct (Z.eqb_spec i sec). Qed.
Lemma wsect_ok f fi fb sec buf : 0 <= sec < FSSIZE -> wsect sec buf (mkImg f FSSIZE fi fb) = Ok (tt, mkImg (wput f sec buf) FSSIZE fi fb).
Proof. intros H. unfold wsect, mmodify. rewrite (seek_id sec H). do 2 f_equal. unfold update. simpl. f_equal. unfold FSSIZE in *. lia. Qed.
Lemma rsect_ok f fi fb sec : 0 <= sec < FSSIZE -> rsect sec (mkImg f FSSIZE fi fb) = Ok (f sec, mkImg f FSSIZE fi fb).
Proof. intros H. unfold rsect. rewrite (seek_id sec H). cbn [im_len im_blk]. by destruct (Z.ltb_spec sec FSSIZE); [|lia]. Qed.
Lemma next_block_ok f fi fb : 0 <= fb < FSSIZE -> next_block (mkImg f FSSIZE fi fb) = Ok (fb, mkImg f FSSIZE fi (fb + 1)).
Proof. intros H. unfold next_block. rewrite mbind_reads, mbind_modify. unfold update. simpl. rewrite u32_small; [done|unfold FSSIZE in H; lia]. Qed.

(** ** The blocks of files *)
(** The files of the image have the addresses [As]; blocks up to [fb] are given out. *)
Record core f (fb : Z) (As : list (list Z)) : Prop := {
  co_len b : 0 <= b < FSSIZE -> Z.of_nat (length (f b)) = BSIZE;
  co_fb : nmeta <= fb;
  co_zero b : fb <= b < FSSIZE -> f b = zeroes;
  co_alen k A : As !! k = Some A -> length A = 13%nat;
  co_range k A i : As !! k = Some A -> is_slot i -> mslot f A i <> 0 -> nmeta <= mslot f A i < fb;
  co_inj k k' A A' i j : As !! k = Some A -> As !! k' = Some A' -> is_slot i -> is_slot j -> mslot f A i <> 0 -> mslot f A i = mslot f A' j -> k = k' /\ i = j
}.
(** [data] in the [cnt] blocks of a file, followed by zeros. *)
Record fdata f A (data : list Z) (cnt : Z) : Prop := {
  fd_cnt : 0 <= cnt <= MAXFILE;
  fd_len : Z.of_nat (length data) <= cnt * BSIZE;
  fd_map bn : 0 <= bn < MAXFILE -> (baddr f A bn <> 0 <-> bn < cnt);
  fd_ind : ind_of A <> 0 <-> NDIRECT < cnt;
  fd_bytes x : 0 <= x < cnt * BSIZE -> mbyte f A x = nth (Z.to_nat x) data 0
}.

Lemma mslot_data f A bn : 0 <= bn -> mslot f A bn = baddr f A bn.
Proof. apply slot_data. Qed.
Lemma mslot_ind f A : mslot f A IND = ind_of A.
Proof. done. Qed.
Lemma slot_cases i : is_slot i -> i = IND \/ i = HOME \/ 0 <= i < MAXFILE.
Proof. unfold is_slot, IND, HOME. lia. Qed.
Lemma mslot_home f A : mslot f A HOME = 0.
Proof. done. Qed.
Lemma is_slot_ind : is_slot IND.
Proof. done. Qed.

(** Slots depend on the block of indirect addresses only. *)
Lemma mslot_ext f f' A i : (ind_of A <> 0 -> f' (ind_of A) = f (ind_of A)) -> mslot f' A i = mslot f A i.
Proof.
  intros H. unfold mslot, slot. destruct (i =? HOME); [done|]. destruct (i =? IND); [done|]. unfold blk_addr, vf. cbn [snd].
  destruct (i <? NDIRECT); [done|]. fold (ind_of A). destruct (Z.eqb_spec (ind_of A) 0) as [|Hn]; [done|]. by rewrite H.
Qed.
Lemma fdata_ext f f' A data cnt : (forall i, is_slot i -> mslot f A i <> 0 -> f' (mslot f A i) = f (mslot f A i)) -> fdata f A data cnt -> fdata f' A data cnt.
Proof.
  intros H [F1 F2 F3 F4 F5]. assert (forall i, mslot f' A i = mslot f A i) as Hs by (intros i; apply mslot_ext; apply (H IND is_slot_ind)).
  assert (forall bn, 0 <= bn -> baddr f' A bn = baddr f A bn) as Hb by (intros bn Hbn; by rewrite <- !mslot_data, Hs).
  split; try done.
  - intros bn Hbn. rewrite Hb by lia. by apply F3.
  - intros x Hx. rewrite <- F5 by done. unfold mbyte, fbyte. fold (baddr f' A (x / BSIZE)). fold (baddr f A (x / BSIZE)).
    assert (0 <= x / BSIZE < cnt) as Hbn by (split; [apply Z.div_pos; [lia|done]|apply Z.div_lt_upper_bound; [done|lia]]).
    rewrite Hb by lia. unfold vf. cbn [snd]. specialize (H (x / BSIZE)). rewrite mslot_data in H by lia. rewrite H; [done|apply is_slot_data; lia|]. apply F3; lia.
Qed.

(** Block [fb] goes into the slot [i0] of file [k]; only the file's block
    of indirect addresses may be written. *)
Section Alloc.
Variables (f f' : Z -> list Z) (fb : Z) (As : list (list Z)) (k : nat) (A A' : list Z) (i0 : Z).
Hypothesis C : core f fb As.
Hypothesis Hk : As !! k = Some A.
Hypothesis HA' : length A' = 13%nat.
Hypothesis Hs : forall i, is_slot i -> mslot f' A' i = if decide (i = i0) then fb else mslot f A i.
Hypothesis Hf : forall b, b <> ind_of A \/ ind_of A = 0 -> f' b = f b.
Hypothesis Hl : ind_of A <> 0 -> Z.of_nat (length (f' (ind_of A))) = BSIZE.

Lemma alloc_ind : ind_of A <> 0 -> nmeta <= ind_of A < fb.
Proof. apply (co_range _ _ _ C k A IND Hk is_slot_ind). Qed.
Lemma alloc_other j B i : As !! j = Some B -> j <> k -> is_slot i -> mslot f B i <> 0 -> f' (mslot f B i) = f (mslot f B i).
Proof.
  intros Hj Hjk Hi Hn. apply Hf. destruct (decide (mslot f B i = ind_of A)) as [He|]; [|by left]. exfalso. apply Hjk.
  by apply (co_inj _ _ _ C j k B A i IND Hj Hk Hi is_slot_ind).
Qed.
Lemma alloc_slots j B i : As !! j = Some B -> j <> k -> mslot f' B i = mslot f B i.
Proof. intros Hj Hjk. apply mslot_ext. intros Hn. by apply (alloc_other j B IND). Qed.
Lemma core_alloc : core f' (fb + 1) (<[k := A']> As).
Proof.
  assert (forall j B, <[k := A']> As !! j = Some B -> (j = k /\ B = A') \/ (j <> k /\ As !! j = Some B)) as Hlk.
  { intros j B Hj. apply list_lookup_insert_Some in Hj as [(-> & -> & _)|[? ?]]; [by left|by right]. }
  assert (forall j B i, <[k := A']> As !! j = Some B -> is_slot i -> mslot f' B i <> 0 ->
    (j = k /\ i = i0 /\ mslot f' B i = fb) \/ exists B0, As !! j = Some B0 /\ mslot f' B i = mslot f B0 i /\ mslot f B0 i <> 0) as Hold.
  { intros j B i [[-> ->]|[Hj HB]]%Hlk Hi Hn; [|rewrite (alloc_slots j B i HB Hj) in Hn |- *; right; by exists B]. rewrite (Hs i Hi) in Hn |- *. destruct (decide (i = i0)); [by left|right; by exists A]. }
  pose proof alloc_ind as Hind. pose proof (co_fb _ _ _ C) as Hm. assert (0 < nmeta) as Hnm by done. split.
  - intros b Hb. destruct (decide (b = ind_of A /\ ind_of A <> 0)) as [[-> ?]|Hne]; [by apply Hl|]. rewrite Hf by (destruct (decide (ind_of A = 0)); [by right|left; tauto]). by apply (co_len _ _ _ C).
  - lia.
  - intros b Hb. rewrite Hf by lia. apply (co_zero _ _ _ C). lia.
  - intros j B [[-> ->]|[_ HB]]%Hlk; [done|by apply (co_alen _ _ _ C j)].
  - intros j B i Hj Hi Hn. destruct (Hold j B i Hj Hi Hn) as [(_ & _ & ->)|(B0 & HB & He & Hn0)]; [lia|]. rewrite He. pose proof (co_range _ _ _ C j B0 i HB Hi Hn0). lia.
  - intros j j' B B' i i' Hj Hj' Hi Hi' Hn He. assert (mslot f' B' i' <> 0) as Hn' by congruence.
    destruct (Hold j B i Hj Hi Hn) as [(-> & -> & E1)|(B0 & HB & E1 & N1)], (Hold j' B' i' Hj' Hi' Hn') as [(-> & -> & E2)|(B1 & HB1 & E2 & N2)]; [done|..].
    + pose proof (co_range _ _ _ C j' B1 i' HB1 Hi' N2). lia.
    + pose proof (co_range _ _ _ C j B0 i HB Hi N1). lia.
    + apply (co_inj _ _ _ C j j' B0 B1); try done. congruence.
Qed.
End Alloc.

(** ** iappend_block() *)
Definition blocks (cnt : Z) : Z := if NDIRECT <? cnt then cnt + 1 else cnt.
(** The file [k] got block [fbn]. *)
Record appended f (fb : Z) (As : list (list Z)) (k : nat) A (data : list Z) (cnt fbn : Z) f' (fb' : Z) A' : Prop := {
  ap_core : core f' fb' (<[k := A']> As);
  ap_fb : fb' = fb + blocks (Z.max cnt (fbn + 1)) - blocks cnt;
  ap_data : fdata f' A' data (Z.max cnt (fbn + 1));
  ap_low b : 0 <= b < nmeta -> f' b = f b;
  ap_other j B data' cnt' : As !! j = Some B -> j <> k -> fdata f B data' cnt' -> fdata f' B data' cnt'
}.
Lemma blocks_mono a b : a <= b -> blocks a <= blocks b.
Proof. unfold blocks. destruct (Z.ltb_spec NDIRECT a), (Z.ltb_spec NDIRECT b); lia. Qed.

Lemma nth_addr f fb As k A data cnt i : core f fb As -> As !! k = Some A -> fb <= FSSIZE -> fdata f A data cnt -> 0 <= i <= NDIRECT ->
  xint (nth (Z.to_nat i) A 0) = nth (Z.to_nat i) A 0.
Proof.
  intros C Hk Hfb F Hi. apply xint_id. change nmeta with 47 in *. unfold FSSIZE in *. destruct (Z.eq_dec (nth (Z.to_nat i) A 0) 0) as [->|Hn]; [lia|].
  assert (nmeta <= nth (Z.to_nat i) A 0 < fb); [|change nmeta with 47 in *; lia]. destruct (Z.eq_dec i NDIRECT) as [->|Hne].
  - apply (co_range _ _ _ C k A IND Hk is_slot_ind Hn).
  - assert (mslot f A i = nth (Z.to_nat i) A 0) as He by (rewrite mslot_data by lia; unfold baddr, blk_addr; by destruct (Z.ltb_spec i NDIRECT); [|lia]).
    rewrite <- He in *. apply (co_range _ _ _ C k A i Hk); [apply is_slot_data; unfold MAXFILE, NDIRECT in *; split; [lia|]; change NINDIRECT with 256; lia|done].
Qed.

(** A block that is given out is zero: the file is a block longer. *)
Lemma fdata_grow f f' A A' data cnt fb : 0 < fb -> fdata f A data cnt -> cnt < MAXFILE -> f' fb = zeroes ->
  (forall i, is_slot i -> i <> IND -> mslot f' A' i = if decide (i = cnt) then fb else mslot f A i) ->
  (ind_of A' <> 0 <-> NDIRECT < cnt + 1) -> (forall i, is_slot i -> i <> IND -> mslot f A i <> 0 -> f' (mslot f A i) = f (mslot f A i)) ->
  fdata f' A' data (cnt + 1).
Proof.
  intros Hfb F Hc Hz Hs Hi Hd. pose proof F as [F1 F2 F3 F4 F5].
  assert (forall bn, 0 <= bn < MAXFILE -> baddr f' A' bn = if decide (bn = cnt) then fb else baddr f A bn) as Hb.
  { intros bn Hbn. rewrite <- !mslot_data by lia. apply Hs; [by apply is_slot_data|unfold IND; lia]. }
  split; [lia|unfold BSIZE in *; lia| |done|].
  - intros bn Hbn. rewrite Hb by done. destruct (decide (bn = cnt)); [lia|]. rewrite F3 by done. lia.
  - intros x Hx. assert (0 <= x / BSIZE < cnt + 1) as Hbn by (split; [apply Z.div_pos; [lia|done]|apply Z.div_lt_upper_bound; [done|lia]]).
    unfold mbyte, fbyte. fold (baddr f' A' (x / BSIZE)). rewrite Hb by lia. unfold vf. cbn [snd]. destruct (decide (x / BSIZE = cnt)) as [He|Hne].
    + rewrite Hz. unfold zeroes. rewrite nth_repeat_lt by (pose proof (Z.mod_pos_bound x BSIZE ltac:(done)); lia). symmetry. apply nth_overflow.
      pose proof (Z.mul_div_le x BSIZE ltac:(done)). rewrite He in *. unfold BSIZE in *. lia.
    + specialize (Hd (x / BSIZE)). rewrite mslot_data in Hd by lia. rewrite Hd; [|apply is_slot_data; lia|unfold IND; lia|apply F3; lia].
      rewrite <- F5; [done|]. pose proof (Z.div_mod x BSIZE ltac:(done)) as Hdm. pose proof (Z.mod_pos_bound x BSIZE ltac:(done)). unfold BSIZE in *. lia.
Qed.

Lemma lookup_addr A i v : length A = 13%nat -> 0 <= i <= NDIRECT -> forall j, 0 <= j <= NDIRECT -> nth (Z.to_nat j) (<[Z.to_nat i := v]> A) 0 = if decide (j = i) then v else nth (Z.to_nat j) A 0.
Proof.
  intros Hl Hi j Hj. unfold NDIRECT in *. rewrite !nth_lookup. destruct (decide (j = i)) as [->|Hne].
  - by rewrite list_lookup_insert_eq by lia.
  - by rewrite list_lookup_insert_ne by lia.
Qed.
(** The three ways a block is entered *)
Lemma slot_direct f A bn v : length A = 13%nat -> 0 <= bn < NDIRECT -> forall i, is_slot i -> mslot f (<[Z.to_nat bn := v]> A) i = if decide (i = bn) then v else mslot f A i.
Proof.
  intros Hl Hbn i Hi. assert (ind_of (<[Z.to_nat bn := v]> A) = ind_of A) as Hind by (unfold ind_of; rewrite lookup_addr by (done || lia); by rewrite decide_False by lia).
  destruct (slot_cases i Hi) as [->|[->|Hd]]; [rewrite !mslot_ind, decide_False by (unfold IND; lia); done|rewrite decide_False by (unfold HOME; lia); done|].
  rewrite !mslot_data by lia. unfold baddr, blk_addr. fold (ind_of A) (ind_of (<[Z.to_nat bn := v]> A)). rewrite Hind.
  destruct (Z.ltb_spec i NDIRECT); [by rewrite lookup_addr by (done || lia)|]. by rewrite decide_False by lia.
Qed.
Lemma slot_indirect f A v : length A = 13%nat -> ind_of A = 0 -> (v = 0 \/ f v = zeroes) -> forall i, is_slot i -> mslot f (<[Z.to_nat NDIRECT := v]> A) i = if decide (i = IND) then v else mslot f A i.
Proof.
  intros Hl H0 Hv i Hi. assert (ind_of (<[Z.to_nat NDIRECT := v]> A) = v) as Hind by (unfold ind_of; rewrite lookup_addr by (done || unfold NDIRECT; lia); by rewrite decide_True).
  destruct (slot_cases i Hi) as [->|[->|Hd]]; [done|done|]. rewrite decide_False by (unfold IND; lia).
  rewrite !mslot_data by lia. unfold baddr, blk_addr. fold (ind_of A) (ind_of (<[Z.to_nat NDIRECT := v]> A)). rewrite Hind, H0.
  destruct (Z.ltb_spec i NDIRECT); [rewrite lookup_addr by (done || lia); by rewrite decide_False by lia|]. cbn [Z.eqb]. destruct (Z.eqb_spec v 0); [done|].
  unfold vf. cbn [snd]. destruct Hv as [?|Hv]; [done|]. rewrite Hv. apply get32_zero.
Qed.
Lemma slot_entry f A bn v : ind_of A <> 0 -> Z.of_nat (length (f (ind_of A))) = BSIZE -> NDIRECT <= bn < MAXFILE -> 0 <= v < 2 ^ 32 ->
  forall i, is_slot i -> mslot (wput f (ind_of A) (set32 (4 * (bn - NDIRECT)) v (f (ind_of A)))) A i = if decide (i = bn) then v else mslot f A i.
Proof.
  intros Hn Hl Hbn Hv i Hi. change MAXFILE with 268 in *. unfold BSIZE, NDIRECT in Hl, Hbn.
  destruct (slot_cases i Hi) as [->|[->|Hd]]; [rewrite decide_False by (unfold IND; lia); done|rewrite decide_False by (unfold HOME; lia); done|]. change MAXFILE with 268 in *.
  rewrite !mslot_data by lia. unfold baddr, blk_addr. fold (ind_of A). destruct (Z.ltb_spec i NDIRECT) as [Hlt|Hge]; unfold NDIRECT in *; [by rewrite decide_False by lia|].
  destruct (Z.eqb_spec (ind_of A) 0); [done|]. unfold vf. cbn [snd]. rewrite wput_eq. destruct (decide (i = bn)) as [->|Hne].
  - rewrite get32_set32 by lia. by apply u32_small.
  - by rewrite get32_set32_other by lia.
Qed.

Section Append.
Variables (f : Z -> list Z) (fb : Z) (As : list (list Z)) (k : nat) (A : list Z) (data : list Z) (cnt : Z).
Hypothesis C : core f fb As.
Hypothesis Hk : As !! k = Some A.
Hypothesis F : fdata f A data cnt.

Lemma append_stay fbn : fbn < cnt -> appended f fb As k A data cnt fbn f fb A.
Proof. intros H. split; rewrite ?Z.max_l by lia; try done; [by rewrite list_insert_id|lia]. Qed.
Lemma append_make f' r A' fb' : cnt < MAXFILE -> core f' fb' (<[k := A']> As) -> fb' = fb + blocks (cnt + 1) - blocks cnt ->
  0 < r -> f' r = zeroes -> (forall i, is_slot i -> i <> IND -> mslot f' A' i = if decide (i = cnt) then r else mslot f A i) ->
  (ind_of A' <> 0 <-> NDIRECT < cnt + 1) -> (forall b, b < fb -> b <> ind_of A \/ ind_of A = 0 -> f' b = f b) ->
  appended f fb As k A data cnt cnt f' fb' A'.
Proof.
  intros Hc C' Hfb Hr Hz Hs Hi Hf. split; rewrite ?Z.max_r by lia; [done|done| | |].
  - apply (fdata_grow f f' A A' data cnt r); try done. intros i Hsi HiI Hn. apply Hf; [by apply (co_range _ _ _ C k A i)|left]. intros He.
    by destruct (co_inj _ _ _ C k k A A i IND Hk Hk Hsi is_slot_ind Hn He).
  - intros b Hb. apply Hf; [pose proof (co_fb _ _ _ C); lia|]. destruct (Z.eq_dec (ind_of A) 0) as [|Hn]; [by right|left]. pose proof (co_range _ _ _ C k A IND Hk is_slot_ind Hn) as Hx. change (mslot f A IND) with (ind_of A) in Hx. lia.
  - intros j B data' cnt' Hj Hjk. apply fdata_ext. intros i Hsi Hn. apply Hf; [by apply (co_range _ _ _ C j B i)|left]. intros He.
    by destruct (co_inj _ _ _ C j k B A i IND Hj Hk Hsi is_slot_ind Hn He).
Qed.

(** A direct block *)
Lemma append_direct : cnt < NDIRECT -> fb < FSSIZE -> appended f fb As k A data cnt cnt f (fb + 1) (<[Z.to_nat cnt := fb]> A).
Proof.
  intros Hc Hfb. pose proof (fd_cnt _ _ _ _ F) as Hc0. pose proof (co_alen _ _ _ C k A Hk) as Hl. pose proof (co_fb _ _ _ C) as Hm. change nmeta with 47 in Hm.
  assert (0 <= cnt < MAXFILE) as Hcm by (change MAXFILE with 268; unfold NDIRECT in Hc; lia).
  assert (0 <= cnt < NDIRECT) as Hcd by lia. assert (~ ind_of A <> 0) as Hi by (rewrite (fd_ind _ _ _ _ F); lia).
  apply (append_make f fb); try done; [lia| |unfold blocks; destruct (Z.ltb_spec NDIRECT (cnt + 1)), (Z.ltb_spec NDIRECT cnt); lia|lia|apply (co_zero _ _ _ C); lia| |].
  - apply (core_alloc f f fb As k A _ cnt); try done; [by rewrite length_insert|by apply slot_direct].
  - intros i Hsi _. by apply slot_direct.
  - unfold ind_of at 1. rewrite lookup_addr, decide_False by (done || unfold NDIRECT in *; lia). fold (ind_of A). lia.
Qed.
(** A block behind the direct ones *)
Lemma append_entry : ind_of A <> 0 -> cnt < MAXFILE -> fb < FSSIZE ->
  appended f fb As k A data cnt cnt (wput f (ind_of A) (set32 (4 * (cnt - NDIRECT)) fb (f (ind_of A)))) (fb + 1) A.
Proof.
  intros Hi Hcm Hfb. pose proof (co_alen _ _ _ C k A Hk) as Hl. pose proof (co_fb _ _ _ C) as Hm. change nmeta with 47 in Hm.
  pose proof (proj1 (fd_ind _ _ _ _ F) Hi) as Hc. pose proof (co_range _ _ _ C k A IND Hk is_slot_ind Hi) as Hr. change (mslot f A IND) with (ind_of A) in Hr. change nmeta with 47 in Hr.
  pose proof (co_len _ _ _ C (ind_of A) ltac:(lia)) as Hlen. unfold FSSIZE in *. assert (0 <= fb < 2 ^ 32) as Hfb32 by lia.
  pose proof (slot_entry f A cnt fb Hi Hlen ltac:(lia) Hfb32) as Hse.
  apply (append_make _ fb); try done; [|unfold blocks; destruct (Z.ltb_spec NDIRECT (cnt + 1)), (Z.ltb_spec NDIRECT cnt); lia|lia|rewrite wput_ne by lia; apply (co_zero _ _ _ C); unfold FSSIZE; lia|intros i Hsi _; by apply Hse|lia|].
  - apply (core_alloc f _ fb As k A _ cnt); try done.
    + intros b [Hb|Hb]; [by apply wput_ne|done].
    + intros _. rewrite wput_eq. rewrite length_set32; [done|unfold NDIRECT in *; lia|]. change MAXFILE with 268 in *. unfold NDIRECT, BSIZE in *. lia.
  - intros b _ [Hb|Hb]; [by apply wput_ne|done].
Qed.
End Append.
(** The first of these, with the block of indirect addresses *)
Lemma append_first f fb As k A data : core f fb As -> As !! k = Some A -> fdata f A data NDIRECT -> fb + 1 < FSSIZE ->
  appended f fb As k A data NDIRECT NDIRECT (wput f fb (set32 0 (fb + 1) zeroes)) (fb + 2) (<[Z.to_nat NDIRECT := fb]> A).
Proof.
  intros C Hk F Hfb. pose proof (co_alen _ _ _ C k A Hk) as Hl. pose proof (co_fb _ _ _ C) as Hm. change nmeta with 47 in Hm.
  assert (ind_of A = 0) as Hi by (destruct (Z.eq_dec (ind_of A) 0) as [|Hn]; [done|]; apply (fd_ind _ _ _ _ F) in Hn; lia).
  assert (f fb = zeroes) as Hz by (apply (co_zero _ _ _ C); lia). pose proof (slot_indirect f A fb Hl Hi (or_intror Hz)) as S1.
  set (A1 := <[Z.to_nat NDIRECT := fb]> A) in *. assert (ind_of A1 = fb) as HI1 by (rewrite <- (mslot_ind f); by rewrite (S1 IND is_slot_ind)).
  assert (core f (fb + 1) (<[k := A1]> As)) as C1.
  { apply (core_alloc f f fb As k A A1 IND); try done. unfold A1. by rewrite length_insert. }
  unfold FSSIZE in *. assert (0 <= fb + 1 < 2 ^ 32) as Hfb32 by lia. assert (ind_of A1 <> 0) as Hn1 by lia.
  pose proof (slot_entry f A1 NDIRECT (fb + 1) Hn1 ltac:(rewrite HI1, Hz; done) ltac:(done) Hfb32) as S2. rewrite HI1, Hz in S2. change (4 * (NDIRECT - NDIRECT)) with 0 in S2.
  apply (append_make f fb As k A data NDIRECT C Hk F _ (fb + 1)); try done; [|change (blocks (NDIRECT + 1)) with 14; change (blocks NDIRECT) with 12; lia|lia|rewrite wput_ne by lia; apply (co_zero _ _ _ C); unfold FSSIZE; lia| |].
  - replace (fb + 2) with (fb + 1 + 1) by lia. rewrite <- (list_insert_insert_eq As k A1 A1). apply (core_alloc f _ (fb + 1) (<[k := A1]> As) k A1 A1 NDIRECT); try done.
    + rewrite list_lookup_insert_eq; [done|by apply lookup_lt_Some in Hk].
    + unfold A1. by rewrite length_insert.
    + rewrite HI1. intros b [Hb|Hb]; [by apply wput_ne|lia].
    + rewrite HI1. intros _. by rewrite wput_eq, length_set32.
  - intros i Hsi HiI. rewrite S2 by done. destruct (decide (i = NDIRECT)); [done|]. rewrite S1 by done. by rewrite decide_False by done.
  - intros b Hb _. apply wput_ne. lia.
Qed.

Lemma blocks_ge cnt : 0 <= cnt -> cnt < blocks (cnt + 1).
Proof. unfold blocks. destruct (Z.ltb_spec NDIRECT (cnt + 1)); lia. Qed.
Lemma blocks_step cnt : blocks (cnt + 1) = blocks cnt + (if cnt =? NDIRECT then 2 else 1).
Proof. unfold blocks. destruct (Z.ltb_spec NDIRECT (cnt + 1)), (Z.ltb_spec NDIRECT cnt), (Z.eqb_spec cnt NDIRECT); lia. Qed.
Lemma set_addrs_eq (d : dinode) A : d_addrs d = A -> d <| d_addrs := A |> = d.
Proof. intros <-. by destruct d. Qed.

Lemma addrs_update (d : dinode) (g : list Z -> list Z) : d_addrs (d <| d_addrs ::= g |>) = g (d_addrs d).
Proof. done. Qed.

Lemma baddr_direct f A bn : 0 <= bn < NDIRECT -> baddr f A bn = nth (Z.to_nat bn) A 0.
Proof. intros H. unfold baddr, blk_addr. by destruct (Z.ltb_spec bn NDIRECT); [|lia]. Qed.
Lemma baddr_indirect f A bn : NDIRECT <= bn -> ind_of A <> 0 -> baddr f A bn = get32 (f (ind_of A)) (4 * (bn - NDIRECT)).
Proof. intros H Hn. unfold baddr, blk_addr. destruct (Z.ltb_spec bn NDIRECT); [lia|]. fold (ind_of A). by destruct (Z.eqb_spec (ind_of A) 0). Qed.

Local Ltac addr_side := first [done | lia | unfold NDIRECT; lia].

Section Block.
Variables (f : Z -> list Z) (fi fb : Z) (As : list (list Z)) (k : nat) (data : list Z) (cnt fbn : Z) (din : dinode).
Notation A := (d_addrs din).
Hypothesis C : core f fb As.
Hypothesis Hk : As !! k = Some A.
Hypothesis F : fdata f A data cnt.
Hypothesis Hfbn : 0 <= fbn <= cnt /\ fbn < MAXFILE.
Hypothesis Hroom : fb + blocks (Z.max cnt (fbn + 1)) - blocks cnt <= FSSIZE.

Lemma fb_range : nmeta <= fb <= FSSIZE.
Proof. pose proof (co_fb _ _ _ C). pose proof (blocks_mono cnt (Z.max cnt (fbn + 1)) ltac:(lia)). lia. Qed.
Definition block_post : Prop := exists f' fb' A', iappend_block din fbn (mkImg f FSSIZE fi fb) = Ok ((din <| d_addrs := A' |>, baddr f' A' fbn), mkImg f' FSSIZE fi fb') /\
  appended f fb As k A data cnt fbn f' fb' A'.
Lemma block_direct : fbn < NDIRECT -> block_post.
Proof.
  intros Hd. pose proof fb_range as Hfb. change nmeta with 47 in Hfb. assert (fb <= FSSIZE) as Hle by lia. unfold FSSIZE in Hfb. pose proof (co_alen _ _ _ C k _ Hk) as Hl. unfold block_post, iappend_block.
  destruct (Z.ltb_spec fbn NDIRECT) as [_|]; [|lia]. rewrite (nth_addr f fb As k A data cnt fbn C Hk Hle F) by lia. rewrite <- (baddr_direct f) by lia.
  destruct (Z.eqb_spec (baddr f A fbn) 0) as [He|Hne].
  - assert (fbn = cnt) as -> by (destruct (Z.eq_dec fbn cnt) as [|Hx]; [done|]; exfalso; apply (fd_map _ _ _ _ F fbn ltac:(lia)); [lia|done]).
    rewrite Z.max_r, blocks_step in Hroom by lia. destruct (Z.eqb_spec cnt NDIRECT); [lia|]. unfold FSSIZE in Hroom.
    eexists f, (fb + 1), (<[Z.to_nat cnt := fb]> A). split; [|apply append_direct; try done; unfold FSSIZE; lia].
    rewrite mbind_assoc. rewrite (mbind_Ok _ _ _ _ _ (next_block_ok f fi fb ltac:(unfold FSSIZE; lia))). rewrite mbind_ret. unfold mret. rewrite (xint_id fb) by lia.
    rewrite addrs_update, baddr_direct, !lookup_addr, decide_True by (done || lia). rewrite xint_id by lia. done.
  - exists f, fb, A. apply (fd_map _ _ _ _ F) in Hne; [|lia]. split; [|by apply append_stay]. rewrite mbind_ret. rewrite (nth_addr f fb As k A data cnt fbn C Hk Hle F) by lia. rewrite baddr_direct by lia. by rewrite set_addrs_eq.
Qed.
Lemma block_indirect : NDIRECT <= fbn -> block_post.
Proof.
  intros Hd. pose proof fb_range as Hfb. change nmeta with 47 in Hfb. assert (fb <= FSSIZE) as Hle by lia. pose proof (co_alen _ _ _ C k _ Hk) as Hl. unfold block_post, iappend_block.
  destruct (Z.ltb_spec fbn NDIRECT) as [|_]; [lia|]. rewrite (nth_addr f fb As k A data cnt NDIRECT C Hk Hle F) by (unfold NDIRECT; lia). fold (ind_of A).
  destruct (Z.eqb_spec (ind_of A) 0) as [Hi|Hi].
  - assert (cnt = NDIRECT) as Hc by (destruct (Z.eq_dec cnt NDIRECT) as [|Hx]; [done|]; exfalso; apply (proj2 (fd_ind _ _ _ _ F)); [lia|done]).
    assert (fbn = NDIRECT) as Hf by lia. rewrite Hf, Hc, Z.max_r, blocks_step in Hroom by lia. change (NDIRECT =? NDIRECT) with true in Hroom. cbv iota in Hroom. rewrite Hc in F.
    exists (wput f fb (set32 0 (fb + 1) zeroes)), (fb + 2), (<[Z.to_nat NDIRECT := fb]> A). rewrite Hc, Hf. pose proof (append_first f fb As k A data C Hk F ltac:(lia)) as HA. split; [|exact HA].
    unfold FSSIZE in Hfb. rewrite mbind_assoc, (mbind_Ok _ _ _ _ _ (next_block_ok f fi fb ltac:(lia))), mbind_ret.
    rewrite (xint_id fb) by (unfold FSSIZE in *; lia). rewrite addrs_update, lookup_addr, decide_True by addr_side. rewrite (xint_id fb) by (unfold FSSIZE in *; lia). rewrite (mbind_Ok _ _ _ _ _ (rsect_ok f fi (fb + 1) fb ltac:(lia))).
    rewrite (co_zero _ _ _ C fb) by lia. rewrite (get32_zero _ : get32 zeroes _ = 0). change (0 =? 0) with true. cbv iota.
    rewrite mbind_assoc, (mbind_Ok _ _ _ _ _ (next_block_ok f fi (fb + 1) ltac:(lia))). rewrite mbind_assoc, xint_id by lia. change (4 * (NDIRECT - NDIRECT)) with 0.
    rewrite (mbind_Ok _ _ _ _ _ (wsect_ok f fi (fb + 1 + 1) fb _ ltac:(lia))), mbind_ret. rewrite get32_set32 by done. rewrite u32_small, xint_id by lia.
    assert (ind_of (<[Z.to_nat NDIRECT := fb]> A) = fb) as Hind by (unfold ind_of; rewrite lookup_addr by addr_side; by rewrite decide_True).
    replace (fb + 1 + 1) with (fb + 2) by lia. unfold mret. rewrite (baddr_indirect _ _ NDIRECT) by (rewrite ?Hind; addr_side). rewrite Hind, wput_eq.
    change (4 * (NDIRECT - NDIRECT)) with 0. rewrite get32_set32 by done. by rewrite u32_small by lia.
  - pose proof (co_range _ _ _ C k A IND Hk is_slot_ind Hi) as Hr. change (mslot f A IND) with (ind_of A) in Hr. change nmeta with 47 in Hr.
    rewrite mbind_ret, (nth_addr f fb As k A data cnt NDIRECT C Hk Hle F) by (unfold NDIRECT; lia). fold (ind_of A). unfold FSSIZE in Hfb.
    rewrite (mbind_Ok _ _ _ _ _ (rsect_ok f fi fb (ind_of A) ltac:(unfold FSSIZE; lia))), <- baddr_indirect by done.
    destruct (Z.eqb_spec (baddr f A fbn) 0) as [He|Hne].
    + assert (fbn = cnt) as -> by (destruct (Z.eq_dec fbn cnt) as [|Hx]; [done|]; exfalso; apply (fd_map _ _ _ _ F fbn ltac:(unfold NDIRECT in *; lia)); [lia|done]).
      pose proof (proj1 (fd_ind _ _ _ _ F) Hi). rewrite Z.max_r, blocks_step in Hroom by lia. destruct (Z.eqb_spec cnt NDIRECT); [lia|]. unfold FSSIZE in Hroom.
      eexists _, (fb + 1), A. split; [|apply append_entry; try done; unfold FSSIZE; lia].
      rewrite mbind_assoc, (mbind_Ok _ _ _ _ _ (next_block_ok f fi fb ltac:(unfold FSSIZE; lia))), mbind_assoc, (xint_id fb) by lia.
      rewrite (mbind_Ok _ _ _ _ _ (wsect_ok f fi (fb + 1) (ind_of A) _ ltac:(unfold FSSIZE; lia))), mbind_ret. unfold mret. rewrite set_addrs_eq by done.
      rewrite baddr_indirect by done. rewrite wput_eq. pose proof (co_len _ _ _ C (ind_of A) ltac:(unfold FSSIZE; lia)) as Hlen. change MAXFILE with 268 in Hfbn. unfold BSIZE, NDIRECT in *.
      rewrite get32_set32, u32_small, xint_id by lia. done.
    + exists f, fb, A. pose proof (proj1 (fd_map _ _ _ _ F fbn ltac:(unfold NDIRECT in *; lia)) Hne). split; [|by apply append_stay]. rewrite mbind_ret, <- baddr_indirect by done. unfold mret. rewrite set_addrs_eq by done.
      rewrite xint_id; [done|]. rewrite <- (mslot_data f) in * by (unfold NDIRECT in *; lia). pose proof (co_range _ _ _ C k A fbn Hk) as Hx. change nmeta with 47 in Hx. specialize (Hx ltac:(apply is_slot_data; unfold NDIRECT in *; lia) Hne). lia.
Qed.
Lemma block_ok : block_post.
Proof. destruct (Z_lt_ge_dec fbn NDIRECT); [by apply block_direct|by apply block_indirect, Z.ge_le]. Qed.
End Block.

(** ** iappend() *)
(** File [k] got longer; the other files and the blocks below [nmeta] stay. *)
Record longer f (fb : Z) (As : list (list Z)) (k : nat) f' (fb' : Z) A' (data' : list Z) (cnt' : Z) : Prop := {
  gr_core : core f' fb' (<[k := A']> As);
  gr_data : fdata f' A' data' cnt';
  gr_low b : 0 <= b < nmeta -> f' b = f b;
  gr_other j B data1 cnt1 : As !! j = Some B -> j <> k -> fdata f B data1 cnt1 -> fdata f' B data1 cnt1
}.
Lemma longer_trans f fb As k f1 fb1 A1 d1 c1 f2 fb2 A2 d2 c2 :
  longer f fb As k f1 fb1 A1 d1 c1 -> longer f1 fb1 (<[k := A1]> As) k f2 fb2 A2 d2 c2 -> longer f fb As k f2 fb2 A2 d2 c2.
Proof.
  intros [G1 G2 G3 G4] [H1 H2 H3 H4]. rewrite list_insert_insert_eq in H1. split; try done.
  - intros b Hb. by rewrite H3, G3.
  - intros j B data1 cnt1 Hj Hjk HF. apply (H4 j); [by rewrite list_lookup_insert_ne|done|]. by apply (G4 j).
Qed.
Lemma longer_refl f fb As k A data cnt : core f fb As -> As !! k = Some A -> fdata f A data cnt -> longer f fb As k f fb A data cnt.
Proof. intros C Hk F. split; try done. by rewrite list_insert_id. Qed.
Lemma appended_longer f fb As k A data cnt fbn f' fb' A' : appended f fb As k A data cnt fbn f' fb' A' -> longer f fb As k f' fb' A' data (Z.max cnt (fbn + 1)).
Proof. by intros []. Qed.

Section Put.
Variables (f : Z -> list Z) (fb : Z) (As : list (list Z)) (k : nat) (A : list Z) (data : list Z) (cnt : Z) (fbn : Z).
Hypothesis C : core f fb As.
Hypothesis Hk : As !! k = Some A.
Hypothesis F : fdata f A data cnt.
Hypothesis Hfbn : 0 <= fbn < cnt.

Lemma put_slot_in : is_slot fbn /\ mslot f A fbn = baddr f A fbn /\ mslot f A fbn <> 0 /\ nmeta <= mslot f A fbn < fb.
Proof.
  pose proof (fd_cnt _ _ _ _ F). assert (is_slot fbn) as Hs by (apply is_slot_data; lia). split; [done|]. split; [apply mslot_data; lia|].
  assert (mslot f A fbn <> 0) as Hn by (rewrite mslot_data by lia; apply (fd_map _ _ _ _ F); lia). split; [done|]. by apply (co_range _ _ _ C k A).
Qed.
Variable d : list Z.
Hypothesis Hd : Z.of_nat (length d) = BSIZE.
Let f' : Z -> list Z := wput f (baddr f A fbn) d.
Lemma put_keep j B i : As !! j = Some B -> is_slot i -> mslot f B i <> 0 -> j <> k \/ i <> fbn -> f' (mslot f B i) = f (mslot f B i).
Proof.
  intros Hj Hi Hn Hne. destruct put_slot_in as (Hs & He & Hn0 & _). unfold f'. apply wput_ne. rewrite <- He. intros Hx.
  destruct (co_inj _ _ _ C j k B A i fbn Hj Hk Hi Hs Hn Hx) as [-> ->]. destruct Hne; done.
Qed.
Lemma put_slots j B i : As !! j = Some B -> mslot f' B i = mslot f B i.
Proof. intros Hj. apply mslot_ext. intros Hn. apply (put_keep j B IND Hj is_slot_ind Hn). right. unfold IND. lia. Qed.
Lemma core_put : core f' fb As.
Proof.
  destruct put_slot_in as (Hs & He & Hn0 & Hr). rewrite He in Hr. destruct C as [C1 C2 C3 C4 C5 C6]. split; try done.
  - intros b Hb. unfold f'. destruct (Z.eq_dec b (baddr f A fbn)) as [->|Hne]; [by rewrite wput_eq|]. rewrite wput_ne by done. by apply C1.
  - intros b Hb. unfold f'. rewrite wput_ne by lia. by apply C3.
  - intros j B i Hj Hi. rewrite (put_slots j B i Hj). by apply (C5 j).
  - intros j j' B B' i i' Hj Hj' Hi Hi'. rewrite (put_slots j B i Hj), (put_slots j' B' i' Hj'). by apply C6.
Qed.
Lemma mbyte_put x : 0 <= x < cnt * BSIZE -> mbyte f' A x = if decide (x / BSIZE = fbn) then nth (Z.to_nat (x mod BSIZE)) d 0 else mbyte f A x.
Proof.
  intros Hx. pose proof (fd_cnt _ _ _ _ F). assert (0 <= x / BSIZE < cnt) as Hbn by (split; [apply Z.div_pos; [lia|done]|apply Z.div_lt_upper_bound; [done|lia]]).
  unfold mbyte, fbyte. fold (baddr f' A (x / BSIZE)) (baddr f A (x / BSIZE)). rewrite <- !mslot_data by lia. rewrite (put_slots k A _ Hk). unfold vf. cbn [snd].
  destruct (decide (x / BSIZE = fbn)) as [He|Hne].
  - rewrite He. destruct put_slot_in as (_ & -> & _). unfold f'. by rewrite wput_eq.
  - rewrite (put_keep k A (x / BSIZE) Hk); [done|apply is_slot_data; lia|rewrite mslot_data by lia; apply (fd_map _ _ _ _ F); lia|by right].
Qed.
End Put.

(** The bytes [t] are written behind [data]. *)
Lemma nth_splice o t d i : 0 <= o -> o + Z.of_nat (length t) <= Z.of_nat (length d) -> 0 <= i ->
  nth (Z.to_nat i) (splice o t d) 0 = if decide (o <= i < o + Z.of_nat (length t)) then nth (Z.to_nat (i - o)) t 0 else nth (Z.to_nat i) d 0.
Proof.
  intros Ho Hl Hi. rewrite !nth_lookup, splice_lookup by lia. rewrite Z2Nat.id by lia. case_decide; [|done]. do 2 f_equal. lia.
Qed.
Lemma write_ok f fb As k A data cnt t : let off := Z.of_nat (length data) in let fbn := off / BSIZE in let x := baddr f A fbn in
  core f fb As -> fb <= FSSIZE -> As !! k = Some A -> fdata f A data cnt -> fbn < cnt -> off + Z.of_nat (length t) <= (fbn + 1) * BSIZE ->
  0 <= x < FSSIZE /\ longer f fb As k (wput f x (splice (off - fbn * BSIZE) t (f x))) fb A (data ++ t) cnt.
Proof.
  intros off fbn x C Hfb Hk F Hfbn Ht. assert (0 <= fbn < cnt) as H0 by (split; [apply Z.div_pos; [lia|done]|done]). pose proof (Z.mul_div_le off BSIZE ltac:(done)) as Hle. fold fbn in Hle.
  pose proof (Z.mul_succ_div_gt off BSIZE ltac:(done)) as Hgt. fold fbn in Hgt.
  pose proof (fd_cnt _ _ _ _ F) as Hcnt. destruct (put_slot_in f fb As k A data cnt fbn C Hk F H0) as (Hs & He & Hn & Hr). rewrite He in Hr. fold x in Hr. change nmeta with 47 in Hr.
  assert (0 <= x < FSSIZE) as Hx by lia. split; [done|]. pose proof (co_len _ _ _ C x Hx) as Hlx. set (d := splice _ _ _). unfold BSIZE in *.
  assert (Z.of_nat (length d) = 1024) as Hd by (unfold d; rewrite length_splice; lia). pose proof (core_put f fb As k A data cnt fbn C Hk F H0 d Hd) as C'. fold x in C'.
  split; [by rewrite list_insert_id| | |].
  - pose proof F as [F1 F2 F3 F4 F5]. split; try done.
    + rewrite length_app. unfold BSIZE. lia.
    + intros bn Hbn. rewrite <- mslot_data by lia. unfold x. rewrite (put_slots f fb As k A data cnt fbn C Hk F H0 d k A bn Hk). rewrite mslot_data by lia. by apply F3.
    + intros y Hy. unfold x. rewrite (mbyte_put f fb As k A data cnt fbn C Hk F H0 d) by done. fold x. unfold BSIZE in *.
      pose proof (Z.div_mod y 1024 ltac:(lia)) as Hdm. pose proof (Z.mod_pos_bound y 1024 ltac:(lia)) as Hmb. destruct (decide (y / 1024 = fbn)) as [Hyb|Hyb].
      * unfold d. rewrite nth_splice by lia. case_decide.
        -- rewrite app_nth2 by lia. f_equal. lia.
        -- assert (nth (Z.to_nat (y mod 1024)) (f x) 0 = mbyte f A y) as -> by (unfold mbyte, fbyte, BSIZE; fold (baddr f A (y / 1024)); by rewrite Hyb).
           rewrite F5 by lia. destruct (Z_lt_ge_dec y off); [by rewrite app_nth1 by lia|]. rewrite !nth_overflow; [done|rewrite length_app; lia|lia].
      * rewrite F5 by lia. destruct (Z_lt_ge_dec y off); [by rewrite app_nth1 by lia|]. rewrite !nth_overflow; [done|rewrite length_app; lia|lia].
  - intros b Hb. apply wput_ne. change nmeta with 47 in Hb. lia.
  - intros j B data1 cnt1 Hj Hjk. apply fdata_ext. intros i Hi Hn'. apply (put_keep f fb As k A data cnt fbn C Hk F H0 d j B i); try done. by left.
Qed.

(** The number of blocks that hold [n] bytes, and that a file of [n] bytes takes. *)
Definition nblk (n : Z) : Z := (n + (BSIZE - 1)) / BSIZE.
Definition need (n : Z) : Z := blocks (nblk n).
Lemma nblk_spec n : 0 <= n -> 0 <= nblk n /\ n <= nblk n * BSIZE < n + BSIZE.
Proof.
  intros Hn. unfold nblk, BSIZE. pose proof (Z.mul_div_le (n + (1024 - 1)) 1024 ltac:(lia)). pose proof (Z.mul_succ_div_gt (n + (1024 - 1)) 1024 ltac:(lia)).
  split; [apply Z.div_pos; lia|lia].
Qed.
Lemma nblk_mono a b : a <= b -> nblk a <= nblk b.
Proof. intros H. apply Z.div_le_mono; [done|lia]. Qed.
Lemma need_mono a b : a <= b -> need a <= need b.
Proof. intros H. by apply blocks_mono, nblk_mono. Qed.
Lemma nblk_step off m : 0 <= off -> 0 < m -> off + m <= (off / BSIZE + 1) * BSIZE -> nblk (off + m) = Z.max (nblk off) (off / BSIZE + 1) /\ off / BSIZE <= nblk off.
Proof.
  intros H1 H2 H3. pose proof (nblk_spec off H1) as [N1 N2]. pose proof (nblk_spec (off + m) ltac:(lia)) as [N3 N4].
  pose proof (Z.mul_div_le off BSIZE ltac:(done)). pose proof (Z.mul_succ_div_gt off BSIZE ltac:(done)). unfold BSIZE in *. lia.
Qed.

Lemma iappend_turn_ok f fi fb As k data din p : let off := Z.of_nat (length data) in let tot := off + Z.of_nat (length p) in
  core f fb As -> As !! k = Some (d_addrs din) -> fdata f (d_addrs din) data (nblk off) -> (0 < length p)%nat -> tot <= MAXFILE * BSIZE ->
  fb + need tot - need off <= FSSIZE ->
  exists f' A' n, (0 < n)%nat /\ let fb' := fb + need (off + Z.of_nat (length (take n p))) - need off in
    iappend_turn (din, off, p) (mkImg f FSSIZE fi fb) = Ok (inl (din <| d_addrs := A' |>, Z.of_nat (length (data ++ take n p)), drop n p), mkImg f' FSSIZE fi fb') /\
    longer f fb As k f' fb' A' (data ++ take n p) (nblk (Z.of_nat (length (data ++ take n p)))).
Proof.
  intros off tot C Hk F Hp Hmax Hroom. assert (0 <= off) as Hoff by lia. pose proof (Z.mul_div_le off BSIZE ltac:(done)) as Hle. pose proof (Z.mul_succ_div_gt off BSIZE ltac:(done)) as Hgt.
  set (fbn := off / BSIZE) in *. assert (0 <= fbn) as H0 by (apply Z.div_pos; [lia|done]). set (n1 := Z.min (Z.of_nat (length p)) ((fbn + 1) * BSIZE - off)).
  change MAXFILE with 268 in *. unfold BSIZE in *. assert (0 < n1 <= Z.of_nat (length p)) as Hn1 by lia.
  destruct (nblk_step off n1 Hoff ltac:(lia) ltac:(unfold BSIZE; fold fbn; lia)) as [Hnb Hfl]. unfold BSIZE in Hnb, Hfl. fold fbn in Hnb, Hfl.
  assert (length (take (Z.to_nat n1) p) = Z.to_nat n1) as Htk by (rewrite length_take; lia). assert (need (off + n1) <= need tot) as Hnm by (apply need_mono; lia).
  destruct (block_ok f fi fb As k data (nblk off) fbn din C Hk F ltac:(change MAXFILE with 268; lia)) as (f1 & fb1 & A1 & Eb & Hap); [unfold need in Hroom, Hnm; rewrite <- Hnb; lia|].
  pose proof (ap_fb _ _ _ _ _ _ _ _ _ _ _ Hap) as Hfb1. pose proof (appended_longer _ _ _ _ _ _ _ _ _ _ _ Hap) as G1. rewrite <- Hnb in Hfb1, G1. fold (need (off + n1)) (need off) in Hfb1.
  pose proof G1 as [G2 G3 _ _]. assert (<[k := A1]> As !! k = Some A1) as Hk1 by (apply list_lookup_insert_eq; by apply lookup_lt_Some in Hk).
  destruct (write_ok f1 fb1 (<[k := A1]> As) k A1 data _ (take (Z.to_nat n1) p) G2 ltac:(lia) Hk1 G3) as [Hx Hw]; unfold BSIZE; fold off; fold fbn; [lia|lia|]. unfold BSIZE in Hx, Hw. fold off in Hx, Hw. fold fbn in Hx, Hw.
  eexists _, A1, (Z.to_nat n1). split; [lia|]. rewrite Htk, Z2Nat.id by lia. cbv zeta. rewrite <- Hfb1.
  assert (Z.of_nat (length (data ++ take (Z.to_nat n1) p)) = off + n1) as Hl by (rewrite length_app, Htk; lia). rewrite Hl. split; [|eapply longer_trans; [exact G1|exact Hw]].
  unfold iappend_turn. destruct (Z.ltb_spec 0 (Z.of_nat (length p))); [|lia]. cbn [negb]. unfold BSIZE. fold fbn. destruct (Z.ltb_spec fbn MAXFILE) as [_|Hge]; [|change MAXFILE with 268 in Hge; lia]. cbn [negb].
  rewrite (mbind_Ok _ _ _ _ _ Eb). rewrite (u32_small ((fbn + 1) * 1024 - off)) by lia. fold n1. cbn [fst snd].
  rewrite (mbind_Ok _ _ _ _ _ (rsect_ok f1 fi fb1 _ Hx)), (mbind_Ok _ _ _ _ _ (wsect_ok f1 fi fb1 _ _ Hx)). unfold mret. by rewrite u32_small by lia.
Qed.

Lemma loop_ok fuel : forall f fi fb As k data din p, let off := Z.of_nat (length data) in let tot := off + Z.of_nat (length p) in
  core f fb As -> As !! k = Some (d_addrs din) -> fdata f (d_addrs din) data (nblk off) -> (length p < fuel)%nat -> tot <= MAXFILE * BSIZE ->
  fb + need tot - need off <= FSSIZE ->
  exists f' A', let fb' := fb + need tot - need off in
    mloop fuel iappend_turn (din, off, p) (mkImg f FSSIZE fi fb) = Ok ((din <| d_addrs := A' |>, tot), mkImg f' FSSIZE fi fb') /\
    longer f fb As k f' fb' A' (data ++ p) (nblk tot).
Proof.
  induction fuel as [|fuel IH]; intros f fi fb As k data din p off tot C Hk F Hf Hmax Hroom; [lia|]. destruct p as [|c p].
  - exists f, (d_addrs din). unfold tot. cbn [length]. rewrite Z.add_0_r. replace (fb + need off - need off) with fb by lia. rewrite app_nil_r, set_addrs_eq by done.
    split; [by apply mloop_stop|by apply longer_refl].
  - destruct (iappend_turn_ok f fi fb As k data din (c :: p)) as (f1 & A1 & n & Hn & E & G); try done; [cbn [length]; lia|]. cbv zeta in E, G. set (t := take n (c :: p)) in *. set (p' := drop n (c :: p)) in *.
    assert (length (c :: p) = length t + length p')%nat as Hlp by (rewrite <- length_app; unfold t, p'; by rewrite take_drop).
    assert (length p' < fuel)%nat as Hf' by (unfold p'; rewrite length_drop; cbn [length] in *; lia).
    assert (Z.of_nat (length (data ++ t)) + Z.of_nat (length p') = tot) as Ht by (unfold tot, off; rewrite length_app; lia).
    destruct (IH f1 fi (fb + need (off + Z.of_nat (length t)) - need off) (<[k := A1]> As) k (data ++ t) (din <| d_addrs := A1 |>) p') as (f2 & A2 & E2 & G2); try done.
    + apply G.
    + simpl. apply list_lookup_insert_eq. by apply lookup_lt_Some in Hk.
    + apply G.
    + by rewrite Ht.
    + rewrite Ht. rewrite length_app, Nat2Z.inj_add. fold off. lia.
    + rewrite Ht in *. rewrite (length_app data t), Nat2Z.inj_add in E2, G2. fold off in E2, G2. cbv zeta in E2, G2.
      replace (fb + need (off + Z.of_nat (length t)) - need off + need tot - need (off + Z.of_nat (length t))) with (fb + need tot - need off) in E2, G2 by lia.
      exists f2, A2. split.
      * rewrite (mloop_next _ _ _ _ _ _ E). rewrite (length_app data t), Nat2Z.inj_add. fold off. rewrite E2. reflexivity.
      * rewrite <- app_assoc in G2. unfold t, p' in G2. rewrite take_drop in G2. fold t in G2. eapply longer_trans; [exact G|exact G2].
Qed.
