(* ===== verification/MkfsImage.v ===== *)
(** * Inodes of the image, and mkfs as a whole *)
From stdpp Require Import base list strings gmap.
From Stdlib Require Import ZArith Lia.
From S2P Require Import Prelude CString Spinlock Kalloc FsState Bio BioList BioSpec BioOps Bytes Log LogSpec LogCrash LogOps FsTxn Fs FsNames FsAlloc FsFile Mkfs MkfsSpec.

Implicit Types (f : Z -> list Z) (A : list Z).

(** ** Inodes *)
Definition dinode_at f (inum : Z) : dinode := get_dinode (f (IBLOCK inum mk_sb)) (dinode_off inum).
Definition INUMS : Z := 208.
Lemma iblock_eq inum : IBLOCK inum mk_sb = inum / 16 + 33.
Proof. done. Qed.
Lemma iblock_range inum : 0 <= inum < INUMS -> 33 <= IBLOCK inum mk_sb < 46.
Proof. intros H. rewrite iblock_eq. unfold INUMS in H. pose proof (Z.div_pos inum 16). pose proof (Z.div_lt_upper_bound inum 16 13). lia. Qed.
Lemma dinode_off_eq inum : dinode_off inum = 64 * (inum mod 16).
Proof. done. Qed.

(** A block below [nmeta] is written: files do not notice. *)
Lemma core_meta f fb As b d : core f fb As -> b < nmeta -> Z.of_nat (length d) = BSIZE -> core (wput f b d) fb As.
Proof.
  intros [C1 C2 C3 C4 C5 C6] Hb Hd. assert (forall j B i, As !! j = Some B -> mslot (wput f b d) B i = mslot f B i) as Hs.
  { intros j B i Hj. apply mslot_ext. intros Hn. apply wput_ne. pose proof (C5 j B IND Hj is_slot_ind Hn) as Hr. change (mslot f B IND) with (ind_of B) in Hr. lia. }
  split; try done.
  - intros x Hx. destruct (Z.eq_dec x b) as [->|Hne]; [by rewrite wput_eq|]. rewrite wput_ne by done. by apply C1.
  - intros x Hx. rewrite wput_ne by lia. by apply C3.
  - intros j B i Hj Hi. rewrite (Hs j B i Hj). by apply (C5 j).
  - intros j j' B B' i i' Hj Hj' Hi Hi'. rewrite (Hs j B i Hj), (Hs j' B' i' Hj'). by apply C6.
Qed.
Lemma fdata_meta f fb As k A data cnt b d : core f fb As -> As !! k = Some A -> b < nmeta -> fdata f A data cnt -> fdata (wput f b d) A data cnt.
Proof. intros C Hk Hb. apply fdata_ext. intros i Hi Hn. apply wput_ne. pose proof (co_range _ _ _ C k A i Hk Hi Hn). lia. Qed.

Lemma rinode_ok f fi fb inum : 0 <= inum < INUMS -> rinode inum (mkImg f FSSIZE fi fb) = Ok (dinode_at f inum, mkImg f FSSIZE fi fb).
Proof. intros H. pose proof (iblock_range inum H). unfold rinode. by rewrite (mbind_Ok _ _ _ _ _ (rsect_ok f fi fb (IBLOCK inum mk_sb) ltac:(unfold FSSIZE; lia))). Qed.
Lemma winode_ok f fi fb As inum ip : core f fb As -> 0 <= inum < INUMS -> dinode_ok ip ->
  exists d, winode inum ip (mkImg f FSSIZE fi fb) = Ok (tt, mkImg (wput f (IBLOCK inum mk_sb) d) FSSIZE fi fb) /\ Z.of_nat (length d) = BSIZE /\
    dinode_at (wput f (IBLOCK inum mk_sb) d) inum = ip /\
    forall j, 0 <= j < INUMS -> j <> inum -> dinode_at (wput f (IBLOCK inum mk_sb) d) j = dinode_at f j.
Proof.
  intros C H Hip. pose proof (iblock_range inum H) as Hb. pose proof (co_len _ _ _ C (IBLOCK inum mk_sb) ltac:(unfold FSSIZE; lia)) as Hlen. exists (put_dinode (dinode_off inum) ip (f (IBLOCK inum mk_sb))).
  pose proof (Z.mod_pos_bound inum 16 ltac:(lia)) as Hm. unfold BSIZE in *.
  destruct (dinode_roundtrip (dinode_off inum) ip (f (IBLOCK inum mk_sb)) Hip) as (R1 & R2 & R3); [rewrite dinode_off_eq; lia|rewrite dinode_off_eq; unfold DINODE_SIZE; lia|].
  split; [|split; [by rewrite R2|split]].
  - unfold winode. rewrite (mbind_Ok _ _ _ _ _ (rsect_ok f fi fb (IBLOCK inum mk_sb) ltac:(unfold FSSIZE; lia))). apply wsect_ok. unfold FSSIZE. lia.
  - unfold dinode_at. by rewrite wput_eq.
  - intros j Hj Hne. unfold dinode_at. destruct (Z.eq_dec (IBLOCK j mk_sb) (IBLOCK inum mk_sb)) as [He|He]; [|by rewrite wput_ne].
    rewrite He, wput_eq. apply R3; rewrite !dinode_off_eq; pose proof (Z.mod_pos_bound j 16 ltac:(lia)); [lia|]. rewrite !iblock_eq in He.
    assert (j mod 16 <> inum mod 16) as Hmm by (intros Hx; apply Hne; rewrite (Z.div_mod j 16), (Z.div_mod inum 16) by lia; lia). unfold DINODE_SIZE. lia.
Qed.

(** ** The image while it is made *)
(** The type and the contents of each file, by inode number from 1 on *)
Notation flist := (list (Z * list Z)).
Definition fsize (x : Z * list Z) : Z := Z.of_nat (length x.2).
Fixpoint total (L : flist) : Z := match L with [] => 0 | x :: L => need (fsize x) + total L end.
Definition inode_of (x : Z * list Z) A : dinode := mkDinode x.1 0 0 1 (fsize x) A.
Record image (f : Z -> list Z) (fb : Z) (As : list (list Z)) (L : flist) : Prop := {
  im_core : core f fb As;
  im_fb : fb = nmeta + total L;
  im_As : length As = length L;
  im_size k x : L !! k = Some x -> fsize x <= MAXFILE * BSIZE /\ (x.1 = T_DIR \/ x.1 = T_FILE);
  im_file k x A : L !! k = Some x -> As !! k = Some A -> fdata f A x.2 (nblk (fsize x)) /\ dinode_at f (Z.of_nat k + 1) = inode_of x A;
  im_unused inum : Z.of_nat (length L) + 1 <= inum < INUMS -> d_type (dinode_at f inum) = 0;
  im_low b : 0 <= b < 33 \/ b = 46 -> f b = if decide (b = 1) then splice 0 (superblock_bytes mk_sb) zeroes else zeroes
}.
Definition st f fb (L : flist) : img := mkImg f FSSIZE (Z.of_nat (length L) + 1) fb.

Lemma total_app L1 L2 : total (L1 ++ L2) = total L1 + total L2.
Proof. induction L1; simpl; lia. Qed.
Lemma need_0 : need 0 = 0.
Proof. done. Qed.
Lemma need_nonneg n : 0 <= n -> 0 <= need n.
Proof. intros H. rewrite <- need_0. by apply need_mono. Qed.
Lemma total_nonneg L : 0 <= total L.
Proof. induction L as [|x L IH]; simpl; [lia|]. pose proof (need_nonneg (fsize x) ltac:(unfold fsize; lia)). lia. Qed.
Lemma total_insert L k x y : L !! k = Some x -> total (<[k := y]> L) = total L + need (fsize y) - need (fsize x).
Proof. intros Hk. rewrite (insert_take_drop L k y) by (by apply lookup_lt_Some in Hk). rewrite <- (take_drop_middle L k x Hk) at 3. rewrite !total_app. simpl. lia. Qed.
Lemma inode_ok x A f fb As k : core f fb As -> fb <= FSSIZE -> As !! k = Some A -> fdata f A x.2 (nblk (fsize x)) -> fsize x <= MAXFILE * BSIZE -> x.1 = T_DIR \/ x.1 = T_FILE -> dinode_ok (inode_of x A).
Proof.
  intros C Hfb Hk F Hs Ht. split; simpl; try (unfold T_DIR, T_FILE in *; lia); [unfold fsize in *; change (MAXFILE * BSIZE) with 274432 in Hs; lia|by apply (co_alen _ _ _ C k)|].
  apply Forall_lookup. intros i a Hi. pose proof (co_alen _ _ _ C k A Hk) as Hl. pose proof (lookup_lt_Some _ _ _ Hi). rewrite Hl in *.
  pose proof (nth_addr f fb As k A _ _ (Z.of_nat i) C Hk Hfb F ltac:(unfold NDIRECT; lia)) as Hx. rewrite Nat2Z.id, (nth_lookup_Some _ _ 0 _ Hi) in Hx. rewrite <- Hx. unfold xint. rewrite le_val_bytes. apply Z.mod_pos_bound. done.
Qed.

(** ** ialloc() and iappend() *)
(** An inode is written; the other inodes and the files stay. *)
Lemma image_inode f fb As L inum d : image f fb As L -> fb <= FSSIZE -> 0 < inum < INUMS -> Z.of_nat (length d) = BSIZE ->
  (forall j, 0 <= j < INUMS -> j <> inum -> dinode_at (wput f (IBLOCK inum mk_sb) d) j = dinode_at f j) ->
  let f' := wput f (IBLOCK inum mk_sb) d in
  core f' fb As /\ (forall k A data cnt, As !! k = Some A -> fdata f A data cnt -> fdata f' A data cnt) /\
  (forall b, 0 <= b < 33 \/ b = 46 -> f' b = if decide (b = 1) then splice 0 (superblock_bytes mk_sb) zeroes else zeroes).
Proof.
  intros I Hfb Hi Hd Hj f'. pose proof (iblock_range inum ltac:(lia)) as Hb. split; [apply core_meta; [apply I|change nmeta with 47; lia|done]|]. split.
  - intros k A data cnt Hk. eapply (fdata_meta f fb As k); [apply I|done|change nmeta with 47; lia].
  - intros b Hlow. unfold f'. rewrite wput_ne by lia. by apply I.
Qed.

Lemma xshort_small v : 0 <= v < 2 ^ 16 -> xshort v = v.
Proof. intros H. unfold xshort. rewrite le_val_bytes. by apply Z.mod_small. Qed.
Lemma empty_addr A i : A = repeat 0 13 -> nth i A 0 = 0.
Proof. intros ->. apply nth_repeat. Qed.
Lemma baddr_empty f bn : 0 <= bn -> baddr f (repeat 0 13) bn = 0.
Proof. intros H. unfold baddr, blk_addr. rewrite !(empty_addr _ _ eq_refl). by destruct (bn <? NDIRECT). Qed.
Lemma mslot_empty f i : is_slot i -> mslot f (repeat 0 13) i = 0.
Proof. intros Hi. destruct (slot_cases i Hi) as [->|[->|Hd]]; [done|done|]. rewrite mslot_data by lia. apply baddr_empty. lia. Qed.
Lemma fdata_empty f : fdata f (repeat 0 13) [] 0.
Proof. split; [done|done|intros bn Hbn; rewrite baddr_empty by lia; lia|done|lia]. Qed.
Lemma core_empty f fb As : core f fb As -> core f fb (As ++ [repeat 0 13]).
Proof.
  intros [C1 C2 C3 C4 C5 C6]. assert (forall j B i, (As ++ [repeat 0 13]) !! j = Some B -> is_slot i -> mslot f B i <> 0 -> As !! j = Some B) as H.
  { intros j B i [HB|[_ HB]]%lookup_app_Some Hi Hn; [done|]. destruct (j - length As)%nat; [|done]. injection HB as <-. by rewrite mslot_empty in Hn. }
  split; try done.
  - intros j B [HB|[_ HB]]%lookup_app_Some; [by apply (C4 j)|]. destruct (j - length As)%nat; [|done]. by injection HB as <-.
  - intros j B i Hj Hi Hn. apply (C5 j); try done. by apply (H j B i).
  - intros j j' B B' i i' Hj Hj' Hi Hi' Hn He. apply (C6 j j' B B'); try done; [by apply (H j B i)|]. apply (H j' B' i'); try done. by rewrite <- He.
Qed.

Lemma ialloc_ok f fb As L ty : image f fb As L -> fb <= FSSIZE -> Z.of_nat (length L) + 1 < INUMS -> ty = T_DIR \/ ty = T_FILE ->
  exists f', mk_ialloc ty (st f fb L) = Ok (Z.of_nat (length L) + 1, st f' fb (L ++ [(ty, [])])) /\ image f' fb (As ++ [repeat 0 13]) (L ++ [(ty, [])]).
Proof.
  intros I Hfb Hlen Hty. set (inum := Z.of_nat (length L) + 1). pose proof I as [I1 I2 I3 I4 I5 I6 I7]. assert (core f fb (As ++ [repeat 0 13])) as C1 by (by apply core_empty).
  assert (dinode_ok (inode_of (ty, []) (repeat 0 13))) as Hok by (apply (inode_ok (ty, []) (repeat 0 13) f fb (As ++ [repeat 0 13]) (length As)); try done; [apply list_lookup_middle; done|apply fdata_empty]).
  destruct (winode_ok f (inum + 1) fb As inum (inode_of (ty, []) (repeat 0 13)) I1 ltac:(lia) Hok) as (d & E & Hd & Hat & Hoth).
  destruct (image_inode f fb As L inum d I Hfb ltac:(lia) Hd Hoth) as (C & HF & Hlow). exists (wput f (IBLOCK inum mk_sb) d). split.
  - unfold mk_ialloc, st. rewrite mbind_reads. cbn [freeinode]. rewrite mbind_modify. fold inum. unfold update. cbn [im_blk im_len freeinode freeblock].
    unfold INUMS in Hlen. rewrite u32_small by lia. rewrite xshort_small by (destruct Hty as [-> | ->]; done). rewrite (mbind_Ok _ _ _ _ _ E). unfold mret. rewrite length_app. cbn [length]. do 3 f_equal. lia.
  - assert (forall k x, (L ++ [(ty, [])]) !! k = Some x -> L !! k = Some x \/ k = length L /\ x = (ty, [])) as Hlk.
    { intros k x [HB|[? HB]]%lookup_app_Some; [by left|right]. destruct (k - length L)%nat eqn:Hk; [|done]. injection HB as <-. split; [lia|done]. }
    split; try done.
    + by apply core_empty.
    + rewrite total_app. simpl. change (need (fsize (ty, []))) with 0. lia.
    + rewrite !length_app. by rewrite I3.
    + intros k x [Hx|[-> ->]]%Hlk; [by apply (I4 k)|done].
    + intros k x A [Hx|[-> ->]]%Hlk HA.
      * pose proof (lookup_lt_Some _ _ _ Hx) as Hlt. rewrite lookup_app_l in HA by (rewrite I3; lia). destruct (I5 k x A Hx HA) as [F1 F2]. split; [by apply (HF k)|]. rewrite Hoth; [done|lia|lia].
      * rewrite <- I3, list_lookup_middle in HA by done. injection HA as <-. split; [apply fdata_empty|exact Hat].
    + intros j Hj. rewrite length_app in Hj. cbn [length] in Hj. rewrite Hoth by lia. apply I6. lia.
Qed.

Lemma iappend_ok f fb As L k ty data p : image f fb As L -> L !! k = Some (ty, data) -> Z.of_nat (length L) < INUMS ->
  fsize (ty, data ++ p) <= MAXFILE * BSIZE -> nmeta + total (<[k := (ty, data ++ p)]> L) <= FSSIZE ->
  exists f' fb' As', iappend (Z.of_nat k + 1) p (st f fb L) = Ok (tt, st f' fb' (<[k := (ty, data ++ p)]> L)) /\ image f' fb' As' (<[k := (ty, data ++ p)]> L).
Proof.
  intros I Hk Hlen Hmax Hroom. pose proof I as [I1 I2 I3 I4 I5 I6 I7]. pose proof (lookup_lt_Some _ _ _ Hk) as Hlt. destruct (lookup_lt_is_Some_2 As k) as [A HA]; [by rewrite I3|].
  destruct (I5 k _ A Hk HA) as [F Hat]. destruct (I4 k _ Hk) as [Hs Hty]. cbn [fst snd] in *. set (inum := Z.of_nat k + 1) in *. unfold fsize in *. cbn [fst snd] in *.
  rewrite (total_insert L k _ _ Hk) in Hroom. unfold fsize in Hroom. cbn [snd] in Hroom. rewrite length_app, Nat2Z.inj_add in Hroom, Hmax.
  pose proof (need_mono (Z.of_nat (length data)) (Z.of_nat (length data) + Z.of_nat (length p)) ltac:(lia)) as Hnm.
  set (din := inode_of (ty, data) A) in *.
  destruct (loop_ok (S (length p)) f (Z.of_nat (length L) + 1) fb As k data din p I1 HA F ltac:(lia) Hmax ltac:(lia)) as (f1 & A1 & E & G). cbv zeta in E, G.
  set (tot := Z.of_nat (length data) + Z.of_nat (length p)) in *. set (fb1 := fb + need tot - need (Z.of_nat (length data))) in *. pose proof G as [G1 G2 G3 G4].
  set (As1 := <[k := A1]> As) in *. assert (As1 !! k = Some A1) as HA1 by (apply list_lookup_insert_eq; by apply lookup_lt_Some in HA).
  assert (forall j, dinode_at f1 j = dinode_at f j \/ ~ (0 <= j < INUMS)) as Hd1.
  { intros j. destruct (decide (0 <= j < INUMS)) as [Hj|]; [left|by right]. unfold dinode_at. rewrite G3; [done|]. pose proof (iblock_range j Hj). change nmeta with 47. lia. }
  assert (fb1 <= FSSIZE) as Hfb1 by (unfold fb1; lia). assert (fsize (ty, data ++ p) = tot) as Htot by (unfold fsize; cbn [snd]; rewrite length_app; lia).
  assert (dinode_ok (inode_of (ty, data ++ p) A1)) as Hok by (apply (inode_ok _ A1 f1 fb1 As1 k); try done; rewrite Htot; done).
  destruct (winode_ok f1 (Z.of_nat (length L) + 1) fb1 As1 inum (inode_of (ty, data ++ p) A1) G1 ltac:(lia) Hok) as (d & E2 & Hd & Hat2 & Hoth).
  exists (wput f1 (IBLOCK inum mk_sb) d), fb1, As1. split.
  - unfold iappend, st. rewrite (mbind_Ok _ _ _ _ _ (rinode_ok f _ fb inum ltac:(lia))), Hat. change (MAXFILE * BSIZE) with 274432 in *.
    assert (xint (d_size din) = Z.of_nat (length data)) as Hxs by (apply xint_id; simpl; unfold fsize; cbn [snd]; lia). rewrite Hxs.
    rewrite (mbind_Ok _ _ _ _ _ E). cbn [fst snd]. rewrite xint_id by lia. rewrite length_insert.
    assert (din <| d_addrs := A1 |> <| d_size := tot |> = inode_of (ty, data ++ p) A1) as -> by (unfold inode_of; by rewrite Htot). exact E2.
  - pose proof (iblock_range inum ltac:(lia)) as Hib. split.
    + apply core_meta; [done|change nmeta with 47; lia|done].
    + rewrite (total_insert L k _ _ Hk), Htot. unfold fb1. unfold fsize. cbn [snd]. lia.
    + unfold As1. by rewrite !length_insert.
    + intros j x [(<- & <- & _)|[Hne Hx]]%list_lookup_insert_Some; [by rewrite Htot|by apply (I4 j)].
    + intros j x B [(<- & <- & _)|[Hne Hx]]%list_lookup_insert_Some HB.
      * rewrite HA1 in HB. injection HB as <-. rewrite Htot. split; [|done]. eapply (fdata_meta f1 fb1 As1 k); [done|done|change nmeta with 47; lia|done].
      * assert (As !! j = Some B) as HB0 by (unfold As1 in HB; by rewrite list_lookup_insert_ne in HB). destruct (I5 j x B Hx HB0) as [F1 F2]. pose proof (lookup_lt_Some _ _ _ Hx).
        split; [eapply (fdata_meta f1 fb1 As1 j); [done|done|change nmeta with 47; lia|by apply (G4 j)]|]. rewrite Hoth by lia. destruct (Hd1 (Z.of_nat j + 1)) as [->|]; [done|lia].
    + rewrite length_insert. intros j Hj. rewrite Hoth by lia. destruct (Hd1 j) as [->|]; [by apply I6|lia].
    + intros b Hb. rewrite wput_ne by lia. rewrite G3 by (change nmeta with 47; lia). by apply I7.
Qed.

(** ** The start *)
Lemma slice_zero off n : le_val (slice off n zeroes) = 0.
Proof.
  apply le_val_zero, Forall_take, Forall_drop, Forall_forall. intros x Hx. by apply list_elem_of_In, repeat_spec in Hx.
Qed.
Lemma zero_loop n : (n <= Z.to_nat FSSIZE)%nat ->
  exists f, for_each (seq 0 n) (fun i => wsect (Z.of_nat i) zeroes) (mkImg (fun _ => []) 0 1 nmeta) = Ok (tt, mkImg f (Z.of_nat n) 1 nmeta) /\ forall i, 0 <= i < Z.of_nat n -> f i = zeroes.
Proof.
  induction n as [|n IH]; intros Hn; [exists (fun _ => []); split; [done|lia]|]. destruct IH as (f & E & Hf); [lia|]. exists (wput f (Z.of_nat n) zeroes).
  rewrite seq_S, for_each_app, (mbind_Ok _ _ _ _ _ E). split.
  - simpl. unfold wsect, mbind, mmodify, mret, obind. cbn [fst snd]. rewrite (seek_id (Z.of_nat n)) by (unfold FSSIZE in *; lia). unfold update. cbn [im_blk im_len freeinode freeblock]. do 3 f_equal. lia.
  - intros i Hi. destruct (Z.eq_dec i (Z.of_nat n)) as [->|]; [apply wput_eq|]. rewrite wput_ne by done. apply Hf. lia.
Qed.
Lemma superblock_len : length (splice 0 (superblock_bytes mk_sb) zeroes) = Z.to_nat BSIZE.
Proof. reflexivity. Qed.
Lemma image_start f : (forall i, 0 <= i < FSSIZE -> f i = zeroes) -> image (wput f 1 (splice 0 (superblock_bytes mk_sb) zeroes)) nmeta [] [].
Proof.
  intros Hf. assert (forall i, 0 <= i < FSSIZE -> i <> 1 -> wput f 1 (splice 0 (superblock_bytes mk_sb) zeroes) i = zeroes) as Hz by (intros i Hi Hne; rewrite wput_ne by done; by apply Hf).
  assert (nmeta = 47) as Hnm by done. split; try done; [split; try done| |].
  - intros b Hb. destruct (Z.eq_dec b 1) as [->|]; [by rewrite wput_eq, superblock_len|by rewrite Hz].
  - intros b Hb. apply Hz; unfold FSSIZE in *; lia.
  - intros inum Hi. simpl in Hi. pose proof (iblock_range inum ltac:(lia)). unfold dinode_at. rewrite Hz by (unfold FSSIZE; lia). unfold get_dinode. cbn [d_type]. unfold get16. by rewrite slice_zero.
  - intros b Hb. destruct (decide (b = 1)) as [->|]; [apply wput_eq|]. apply Hz; unfold FSSIZE; lia.
Qed.

(** ** The files *)
Lemma concat_imap_snoc {T U : Type} (g : nat -> T -> list U) l x : concat (imap g (l ++ [x])) = concat (imap g l) ++ g (length l) x.
Proof. rewrite imap_app, concat_app. simpl. by rewrite app_nil_r, Nat.add_0_r. Qed.

Section Files.
Variable host : list Z -> option (list (list Z)).
Definition name_of (arg : list Z) : list Z := match shortname arg with 95 :: l => l | _ => shortname arg end.
Definition content (arg : list Z) : list Z := concat (default [] (host arg)).
Definition entries (args : list (list Z)) : list Z := concat (imap (fun k arg => mk_dirent (Z.of_nat k + 2) (name_of arg)) args).
Definition root_data (args : list (list Z)) : list Z := mk_dirent 1 [46] ++ mk_dirent 1 [46; 46] ++ entries args.
(** The files of the image, by inode number *)
Definition files_of (args : list (list Z)) : flist := (T_DIR, root_data args) :: ((fun arg => (T_FILE, content arg)) <$> args).
(** An argument mkfs accepts: a file of the host whose name fits. *)
Record arg_ok (arg : list Z) : Prop := {
  ao_slash : SLASH ∉ shortname arg;
  ao_host : is_Some (host arg);
  ao_name : Z.of_nat (length (name_of arg)) <= DIRSIZ;
  ao_size : Z.of_nat (length (content arg)) <= MAXFILE * BSIZE
}.

Lemma entries_snoc args arg : entries (args ++ [arg]) = entries args ++ mk_dirent (Z.of_nat (length args) + 2) (name_of arg).
Proof. apply (concat_imap_snoc (fun k arg => mk_dirent (Z.of_nat k + 2) (name_of arg))). Qed.
Lemma root_snoc args arg : root_data (args ++ [arg]) = root_data args ++ mk_dirent (Z.of_nat (length args) + 2) (name_of arg).
Proof. unfold root_data. by rewrite entries_snoc, !app_assoc. Qed.
Lemma total_prefix l1 l2 : total (files_of l1) <= total (files_of (l1 ++ l2)).
Proof.
  unfold files_of. rewrite fmap_app. cbn [total]. rewrite total_app. pose proof (total_nonneg ((fun arg => (T_FILE, content arg)) <$> l2)).
  assert (need (fsize (T_DIR, root_data l1)) <= need (fsize (T_DIR, root_data (l1 ++ l2)))); [|lia]. apply need_mono. unfold fsize. cbn [snd]. unfold root_data, entries. rewrite imap_app, concat_app, !length_app. lia.
Qed.

Lemma reads_ok reads : forall f fb As L k ty data, image f fb As L -> L !! k = Some (ty, data) -> Z.of_nat (length L) < INUMS ->
  fsize (ty, data ++ concat reads) <= MAXFILE * BSIZE -> nmeta + total (<[k := (ty, data ++ concat reads)]> L) <= FSSIZE ->
  exists f' fb' As', for_each reads (iappend (Z.of_nat k + 1)) (st f fb L) = Ok (tt, st f' fb' (<[k := (ty, data ++ concat reads)]> L)) /\ image f' fb' As' (<[k := (ty, data ++ concat reads)]> L).
Proof.
  induction reads as [|p reads IH]; intros f fb As L k ty data I Hk Hlen Hmax Hroom.
  - assert (data ++ concat [] = data) as -> by apply app_nil_r. exists f, fb, As. rewrite list_insert_id by done. by split.
  - change (concat (p :: reads)) with (p ++ concat reads) in *. assert (fsize (ty, data ++ p) <= fsize (ty, data ++ p ++ concat reads)) as Hle by (unfold fsize; cbn [snd]; rewrite !length_app; lia).
    destruct (iappend_ok f fb As L k ty data p I Hk Hlen ltac:(lia)) as (f1 & fb1 & As1 & E & I1).
    { rewrite (total_insert L k _ _ Hk) in Hroom. rewrite (total_insert L k _ _ Hk). pose proof (need_mono _ _ Hle). lia. }
    destruct (IH f1 fb1 As1 (<[k := (ty, data ++ p)]> L) k ty (data ++ p)) as (f2 & fb2 & As2 & E2 & I2); rewrite <- ?app_assoc, ?length_insert, ?list_insert_insert_eq; try done.
    { apply list_lookup_insert_eq. by apply lookup_lt_Some in Hk. }
    exists f2, fb2, As2. rewrite <- app_assoc, list_insert_insert_eq in E2, I2. split; [|done]. cbn [for_each]. by rewrite (mbind_Ok _ _ _ _ _ E).
Qed.

Lemma length_files args : length (files_of args) = S (length args).
Proof. unfold files_of. cbn [length]. by rewrite length_fmap. Qed.
Lemma files_snoc args arg : files_of (args ++ [arg]) =
  <[length (files_of args) := (T_FILE, content arg)]> (<[0%nat := (T_DIR, root_data (args ++ [arg]))]> (files_of args ++ [(T_FILE, [])])).
Proof.
  transitivity ((T_DIR, root_data (args ++ [arg])) :: <[length args := (T_FILE, content arg)]> (((fun arg => (T_FILE, content arg)) <$> args) ++ [(T_FILE, [])])); [|by rewrite length_files].
  rewrite insert_app_r_alt by (rewrite length_fmap; lia). rewrite length_fmap, Nat.sub_diag. unfold files_of. by rewrite fmap_app.
Qed.

Lemma add_file_ok f fb As args arg : image f fb As (files_of args) -> arg_ok arg -> Z.of_nat (length args) + 2 < INUMS ->
  fsize (T_DIR, root_data (args ++ [arg])) <= MAXFILE * BSIZE -> nmeta + total (files_of (args ++ [arg])) <= FSSIZE ->
  exists f' fb' As', add_file host 1 arg (st f fb (files_of args)) = Ok (tt, st f' fb' (files_of (args ++ [arg]))) /\ image f' fb' As' (files_of (args ++ [arg])).
Proof.
  intros I [H1 [reads H2] H3 H4] Hlen Hmax Hroom. pose proof (total_prefix args [arg]) as Hpre. pose proof (im_fb _ _ _ _ I) as Hfb. pose proof (length_files args) as Hll.
  destruct (ialloc_ok f fb As (files_of args) T_FILE I ltac:(lia) ltac:(lia) ltac:(by right)) as (f1 & E1 & I1). set (L1 := files_of args ++ [(T_FILE, [])]) in *.
  assert (length L1 = S (S (length args))) as HL1 by (unfold L1; rewrite length_app, Hll; simpl; lia).
  assert (L1 !! 0%nat = Some (T_DIR, root_data args)) as Hr by done. assert (L1 !! length (files_of args) = Some (T_FILE, [])) as Hn by (by apply list_lookup_middle).
  set (L2 := <[0%nat := (T_DIR, root_data (args ++ [arg]))]> L1). assert (L2 !! length (files_of args) = Some (T_FILE, [])) as Hn2 by (unfold L2; rewrite list_lookup_insert_ne by (rewrite Hll; lia); done).
  rewrite (files_snoc args arg) in Hroom. fold L1 in Hroom. fold L2 in Hroom. rewrite (total_insert L2 _ _ _ Hn2) in Hroom. change (need (fsize (T_FILE, []))) with 0 in Hroom.
  pose proof (need_nonneg (fsize (T_FILE, content arg)) ltac:(unfold fsize; lia)) as Hnn.
  destruct (iappend_ok f1 fb (As ++ [repeat 0 13]) L1 0 T_DIR (root_data args) (mk_dirent (Z.of_nat (length args) + 2) (name_of arg)) I1 Hr) as (f2 & fb2 & As2 & E2 & I2); rewrite <- ?root_snoc; [rewrite HL1; lia|done|fold L2; lia|].
  rewrite <- root_snoc in E2, I2. fold L2 in E2, I2.
  assert (concat reads = content arg) as Hc by (unfold content; by rewrite H2).
  destruct (reads_ok reads f2 fb2 As2 L2 (length (files_of args)) T_FILE [] I2 Hn2) as (f3 & fb3 & As3 & E3 & I3).
  { unfold L2. rewrite length_insert, HL1. lia. }
  { rewrite app_nil_l, Hc. exact H4. }
  { rewrite app_nil_l, (total_insert L2 _ _ _ Hn2). change (need (fsize (T_FILE, []))) with 0. rewrite Hc. lia. }
  rewrite app_nil_l in E3, I3. rewrite Hc in E3, I3. assert (<[length (files_of args) := (T_FILE, content arg)]> L2 = files_of (args ++ [arg])) as HF by (symmetry; apply files_snoc). rewrite HF in E3, I3.
  exists f3, fb3, As3. split; [|exact I3]. unfold add_file. rewrite bool_decide_false by done. rewrite H2. fold (name_of arg).
  destruct (Z.leb_spec (Z.of_nat (length (name_of arg))) DIRSIZ); [|lia]. cbn [negb]. rewrite (mbind_Ok _ _ _ _ _ E1). rewrite Hll in *.
  replace (Z.of_nat (S (length args)) + 1) with (Z.of_nat (length args) + 2) in * by lia. change (Z.of_nat 0 + 1) with 1 in E2. rewrite (mbind_Ok _ _ _ _ _ E2). exact E3.
Qed.
Lemma add_files_ok rest : forall f fb As args, image f fb As (files_of args) -> Forall arg_ok rest -> Z.of_nat (length (args ++ rest)) + 1 < INUMS ->
  fsize (T_DIR, root_data (args ++ rest)) <= MAXFILE * BSIZE -> nmeta + total (files_of (args ++ rest)) <= FSSIZE ->
  exists f' fb' As', for_each rest (add_file host 1) (st f fb (files_of args)) = Ok (tt, st f' fb' (files_of (args ++ rest))) /\ image f' fb' As' (files_of (args ++ rest)).
Proof.
  induction rest as [|arg rest IH]; intros f fb As args I Hok Hlen Hmax Hroom; [rewrite app_nil_r; by exists f, fb, As|]. apply Forall_cons in Hok as [Ha Hok].
  replace (args ++ arg :: rest) with ((args ++ [arg]) ++ rest) in * by (by rewrite <- app_assoc). pose proof (total_prefix (args ++ [arg]) rest) as Hpre.
  assert (fsize (T_DIR, root_data (args ++ [arg])) <= fsize (T_DIR, root_data ((args ++ [arg]) ++ rest))) as Hrt.
  { unfold fsize. cbn [snd]. unfold root_data, entries. rewrite (imap_app _ (args ++ [arg]) rest), concat_app, !length_app. lia. }
  rewrite !length_app in Hlen. cbn [length] in Hlen.
  destruct (add_file_ok f fb As args arg I Ha ltac:(lia) ltac:(lia) ltac:(lia)) as (f1 & fb1 & As1 & E & I1).
  destruct (IH f1 fb1 As1 (args ++ [arg]) I1 Hok) as (f2 & fb2 & As2 & E2 & I2); [rewrite !length_app; cbn [length]; lia|done|done|].
  exists f2, fb2, As2. split; [|done]. cbn [for_each]. by rewrite (mbind_Ok _ _ _ _ _ E).
Qed.
End Files.

(** ** The free map *)
Lemma bitmap_ok n : (n <= Z.to_nat BPB)%nat -> let m := foldl (fun buf i => bit_set (Z.of_nat i) buf) zeroes (seq 0 n) in
  Z.of_nat (length m) = BSIZE /\ forall b, 0 <= b < BPB -> bit_free m b = negb (b <? Z.of_nat n).
Proof.
  induction n as [|n IH]; intros Hn; cbv zeta.
  - split; [done|]. intros b Hb. unfold bit_free. cbn [seq foldl]. unfold zeroes. rewrite nth_repeat. rewrite Z.land_0_l. by destruct (Z.ltb_spec b (Z.of_nat 0)); [lia|].
  - destruct IH as [H1 H2]; [lia|]. rewrite seq_S, foldl_app. cbn [foldl]. set (m := foldl _ _ _) in *. split; [by rewrite length_bit_set|]. intros b Hb.
    rewrite bit_free_set; [|change BPB with 8192 in *; unfold BSIZE in H1; lia|lia]. rewrite H2 by done. cbn [Nat.add].
    destruct (Z.eqb_spec b (Z.of_nat n)), (Z.ltb_spec b (Z.of_nat n)), (Z.ltb_spec b (Z.of_nat (S n))); try done; lia.
Qed.

(** ** main() *)
Definition root_inode (n : Z) A : dinode := mkDinode T_DIR 0 0 1 ((n / BSIZE + 1) * BSIZE) A.
Record final (host : list Z -> option (list (list Z))) (args : list (list Z)) f (fb : Z) (As : list (list Z)) : Prop := {
  fn_core : core f fb As;
  fn_fb : fb <= FSSIZE;
  fn_As : length As = S (length args);
  fn_file k x A : files_of host args !! k = Some x -> As !! k = Some A ->
    fdata f A x.2 (nblk (fsize x)) /\ dinode_at f (Z.of_nat k + 1) = (if decide (k = 0%nat) then root_inode (fsize x) A else inode_of x A);
  fn_unused inum : Z.of_nat (length args) + 2 <= inum < INUMS -> d_type (dinode_at f inum) = 0;
  fn_low b : 0 <= b < 33 -> f b = if decide (b = 1) then splice 0 (superblock_bytes mk_sb) zeroes else zeroes;
  fn_map b : 0 <= b < BPB -> bit_free (f 46) b = negb (b <? fb)
}.
(** What mkfs can put into an image: files it accepts, fewer than the inodes,
    and no more blocks than the image has. *)
Record fits (host : list Z -> option (list (list Z))) (args : list (list Z)) : Prop := {
  ft_ok : Forall (arg_ok host) args;
  ft_inodes : Z.of_nat (length args) + 1 < NINODES;
  ft_root : fsize (T_DIR, root_data args) <= MAXFILE * BSIZE;
  ft_blocks : nmeta + total (files_of host args) <= FSSIZE
}.

Lemma fix_root_ok host args f fb As : image f fb As (files_of host args) -> fb <= FSSIZE -> Z.of_nat (length args) + 1 < INUMS ->
  exists f', (let* din := rinode 1 in
     winode 1 (din <| d_size := xint (u32 ((xint (d_size din) / BSIZE + 1) * BSIZE)) |>) ;;;
     let* fb := mreads freeblock in mk_balloc fb) (st f fb (files_of host args)) = Ok (tt, st f' fb (files_of host args)) /\ final host args f' fb As.
Proof.
  intros I Hfb Hlen. pose proof I as [I1 I2 I3 I4 I5 I6 I7]. set (x := (T_DIR, root_data args)). assert (files_of host args !! 0%nat = Some x) as Hx by done. rewrite length_files in I3.
  destruct (lookup_lt_is_Some_2 As 0) as [A HA]; [lia|]. destruct (I5 0%nat x A Hx HA) as [F Hat]. change (Z.of_nat 0 + 1) with 1 in Hat. destruct (I4 0%nat x Hx) as [Hs _]. assert (0 <= fsize x) as H0 by (unfold fsize; lia). change (MAXFILE * BSIZE) with 274432 in Hs.
  pose proof (Z.div_pos (fsize x) BSIZE H0 ltac:(done)) as Hd0. pose proof (Z.div_lt_upper_bound (fsize x) BSIZE 269 ltac:(done) ltac:(unfold BSIZE; lia)) as Hd1.
  assert (dinode_ok (root_inode (fsize x) A)) as Hok.
  { pose proof (inode_ok x A f fb As 0 I1 Hfb HA F) as [? ? ? ? ? ? ?]; [change (MAXFILE * BSIZE) with 274432; lia|by left|]. split; try done. simpl. unfold BSIZE in *. lia. }
  destruct (winode_ok f (Z.of_nat (length (files_of host args)) + 1) fb As 1 _ I1 ltac:(done) Hok) as (d & E & Hd & Hat1 & Hoth).
  destruct (image_inode f fb As _ 1 d I Hfb ltac:(done) Hd Hoth) as (C1 & HF1 & Hlow1). set (f1 := wput f (IBLOCK 1 mk_sb) d) in *.
  pose proof (co_fb _ _ _ I1) as Hfb0. change nmeta with 47 in Hfb0. destruct (bitmap_ok (Z.to_nat fb)) as [Hm1 Hm2]; [unfold FSSIZE in Hfb; change BPB with 8192; lia|]. set (m := foldl _ _ _) in *.
  exists (wput f1 46 m). assert (forall j, 0 <= j < INUMS -> dinode_at (wput f1 46 m) j = dinode_at f1 j) as Hd46.
  { intros j Hj. pose proof (iblock_range j Hj). unfold dinode_at. by rewrite wput_ne by lia. }
  split.
  - unfold st. rewrite (mbind_Ok _ _ _ _ _ (rinode_ok f _ fb 1 ltac:(done))), Hat.
    assert (xint (d_size (inode_of x A)) = fsize x) as -> by (apply xint_id; simpl; lia). rewrite u32_small, xint_id by (unfold BSIZE in *; lia).
    change ((inode_of x A) <| d_size := (fsize x / BSIZE + 1) * BSIZE |>) with (root_inode (fsize x) A). rewrite (mbind_Ok _ _ _ _ _ E), mbind_reads. cbn [freeblock].
    unfold mk_balloc. destruct (Z.ltb_spec fb BPB) as [_|Hge]; [|unfold FSSIZE in Hfb; change BPB with 8192 in Hge; lia]. cbn [negb]. fold m. apply wsect_ok. done.
  - split; try assumption.
    + by apply core_meta.
    + intros k y B Hy HB. destruct (I5 k y B Hy HB) as [F1 F2]. split; [eapply (fdata_meta f1 fb As k); [exact C1|exact HB|done|by apply (HF1 k)]|]. pose proof (lookup_lt_Some _ _ _ Hy) as Hlt. rewrite length_files in Hlt.
      rewrite Hd46 by lia. destruct (decide (k = 0%nat)) as [->|Hne]; [rewrite HA in HB; injection HB as <-; rewrite Hx in Hy; injection Hy as <-; exact Hat1|]. by rewrite Hoth by lia.
    + intros inum Hi. rewrite Hd46 by lia. rewrite Hoth by lia. apply I6. rewrite length_files. lia.
    + intros b Hb. rewrite wput_ne by lia. apply Hlow1. by left.
    + intros b Hb. rewrite wput_eq, Hm2 by done. by rewrite Z2Nat.id by lia.
Qed.
Lemma length_strncpy_name l : length (strncpy_name l) = 14%nat.
Proof. apply length_bytes_at. Qed.

Lemma zero_all : exists f, for_each (seq 0 (Z.to_nat FSSIZE)) (fun i => wsect (Z.of_nat i) zeroes) (mkImg (fun _ => []) 0 1 nmeta) = Ok (tt, mkImg f FSSIZE 1 nmeta) /\ forall i, 0 <= i < FSSIZE -> f i = zeroes.
Proof. destruct (zero_loop (Z.to_nat FSSIZE) ltac:(lia)) as (f & E & Hf). rewrite (Z2Nat.id FSSIZE) in E, Hf by (unfold FSSIZE; lia). exists f. split; [exact E|exact Hf]. Qed.
Lemma mkfs_ok open_img host prog out args : open_img out = true -> fits host args ->
  exists f fb As, mkfs_main open_img host (prog :: out :: args) new_img = Ok (tt, st f fb (files_of host args)) /\ final host args f fb As.
Proof.
  intros Hopen [Hok Hino Hroot Hblk]. change NINODES with 200 in Hino. unfold mkfs_main. rewrite Hopen. cbn [negb]. rewrite mbind_modify. unfold update, new_img. cbn [im_blk im_len freeinode freeblock].
  destruct zero_all as (f0 & E0 & Hf0). rewrite (mbind_Ok _ _ _ _ _ E0). clear E0. pose proof (image_start f0 Hf0) as I0.
  set (sbb := splice 0 (superblock_bytes mk_sb) zeroes) in *. pose proof (wsect_ok f0 1 nmeta 1 sbb ltac:(done)) as E1. rewrite (mbind_Ok _ _ _ _ _ E1). clear E1. set (f1 := wput f0 1 sbb) in *.
  pose proof (total_prefix host [] args) as Hp0. rewrite app_nil_l in Hp0. assert (nmeta <= FSSIZE) as Hnm by done.
  destruct (ialloc_ok f1 nmeta [] [] T_DIR I0 Hnm ltac:(done) ltac:(by left)) as (f2 & E2 & I2). unfold st in E2. cbn [length] in E2. change (Z.of_nat 0 + 1) with 1 in E2. rewrite (mbind_Ok _ _ _ _ _ E2).
  change (1 =? ROOTINO) with true. cbn [negb]. rewrite !app_nil_l in *. fold (st f2 nmeta [(T_DIR, [])]).
  assert (forall l : list Z, (length l <= 32)%nat -> nmeta + total [(T_DIR, l)] <= FSSIZE /\ fsize (T_DIR, l) <= MAXFILE * BSIZE) as Hsmall.
  { intros l Hl. cbn [total]. unfold fsize. cbn [snd]. pose proof (need_mono (Z.of_nat (length l)) 32 ltac:(lia)) as Hn. change (need 32) with 1 in Hn. change nmeta with 47. change (MAXFILE * BSIZE) with 274432. unfold FSSIZE. lia. }
  assert (forall n name, length (mk_dirent n name) = 16%nat) as Hde by (intros n name; unfold mk_dirent, dirent_bytes; by rewrite length_app, length_le_bytes, length_strncpy_name).
  destruct (iappend_ok f2 nmeta _ [(T_DIR, [])] 0 T_DIR [] (mk_dirent 1 [46]) I2 eq_refl ltac:(done)) as (f3 & fb3 & As3 & E3 & I3); [apply Hsmall; rewrite app_nil_l, Hde; lia|apply Hsmall; rewrite app_nil_l, Hde; lia|].
  change (Z.of_nat 0 + 1) with 1 in E3. rewrite (mbind_Ok _ _ _ _ _ E3). rewrite app_nil_l in *. change (<[0%nat := (T_DIR, mk_dirent 1 [46])]> [(T_DIR, [])]) with [(T_DIR, mk_dirent 1 [46])] in *.
  destruct (iappend_ok f3 fb3 As3 [(T_DIR, mk_dirent 1 [46])] 0 T_DIR (mk_dirent 1 [46]) (mk_dirent 1 [46; 46]) I3 eq_refl ltac:(done)) as (f4 & fb4 & As4 & E4 & I4); [apply Hsmall; rewrite length_app, !Hde; lia|apply Hsmall; rewrite length_app, !Hde; lia|].
  change (Z.of_nat 0 + 1) with 1 in E4. rewrite (mbind_Ok _ _ _ _ _ E4).
  assert (<[0%nat := (T_DIR, mk_dirent 1 [46] ++ mk_dirent 1 [46; 46])]> [(T_DIR, mk_dirent 1 [46])] = files_of host []) as HL by (unfold files_of, root_data; by rewrite app_nil_r). rewrite HL in *.
  destruct (add_files_ok host args f4 fb4 As4 [] I4 Hok ltac:(rewrite app_nil_l; unfold INUMS; lia) Hroot Hblk) as (f5 & fb5 & As5 & E5 & I5). change (app [] args) with args in *. rewrite (mbind_Ok _ _ _ _ _ E5).
  destruct (fix_root_ok host args f5 fb5 As5 I5) as (f6 & E6 & Hfin); [rewrite (im_fb _ _ _ _ I5); lia|unfold INUMS; lia|]. by exists f6, fb5, As5.
Qed.
