(* ===== verification/MkfsSafe.v ===== *)
(** * The image mkfs makes is a file system of the kernel

    The theorems on mkfs: the image satisfies what the kernel's file system
    needs of a disk ([freemap], [file_wf], an empty log), and its files have
    the contents of the files of the host. *)
From stdpp Require Import base list strings gmap.
From Stdlib Require Import ZArith Lia.
From S2P Require Import Prelude CString Spinlock Kalloc FsState Bio BioList BioSpec BioOps Bytes Log LogSpec LogCrash LogOps FsTxn Fs FsNames FsAlloc FsFile Mkfs MkfsSpec MkfsImage.

Implicit Types (f : Z -> list Z) (A : list Z).

Section Wf.
Variables (host : list Z -> option (list (list Z))) (args : list (list Z)) (f : Z -> list Z) (fb : Z) (As : list (list Z)) (g : log_t).
Hypothesis Fin : final host args f fb As.
Hypothesis Hdev : log_dev g = 1.
Hypothesis Hlog : log_start g = 2.

Lemma final_range : 47 <= fb <= 2000.
Proof. split; [apply (co_fb _ _ _ (fn_core _ _ _ _ _ Fin))|apply Fin]. Qed.
Lemma bblock b : 0 <= b < FSSIZE -> BBLOCK b mk_sb = 46 /\ b mod BPB = b.
Proof. unfold FSSIZE. intros H. unfold BBLOCK. change BPB with 8192. rewrite Z.div_small, Z.mod_small by lia. done. Qed.
Lemma used_final b : 0 <= b < FSSIZE -> used mk_sb 1 (vf f) b = (b <? fb).
Proof.
  intros H. destruct (bblock b H) as [H1 H2]. unfold used. rewrite H1, H2. unfold vf. cbn [snd]. rewrite (fn_map _ _ _ _ _ Fin) by (unfold FSSIZE in H; change BPB with 8192; lia). apply negb_involutive.
Qed.
Lemma not_map b : b <> 46 -> ~ is_map mk_sb b.
Proof. intros Hb (x & Hx & ->). apply Hb. by apply bblock. Qed.
Lemma freemap_final : freemap mk_sb g (vf f).
Proof.
  pose proof final_range as Hfb. split.
  - by rewrite Hdev.
  - done.
  - intros x (b & Hb & ->). rewrite (proj1 (bblock b Hb)). unfold vf. cbn [snd]. apply (co_len _ _ _ (fn_core _ _ _ _ _ Fin)). done.
  - intros x (b & Hb & ->). rewrite (proj1 (bblock b Hb)). unfold data_block. rewrite Hlog. split; [right; done|done].
  - intros b Hb. change (sb_size mk_sb) with FSSIZE in Hb. rewrite Hdev, used_final by done. intros Hlt%Z.ltb_ge. split; [lia|]. split; [|apply not_map; lia].
    unfold data_block, is_int. rewrite Hlog. unfold FSSIZE in Hb. change LOGBLOCKS with 30. lia.
Qed.
Lemma in_use_final a : 32 < a < fb -> a <> 46 -> in_use mk_sb g (vf f) a.
Proof.
  pose proof final_range as Hfb. intros Ha Hne. change (sb_size mk_sb) with FSSIZE. split.
  - change (sb_size mk_sb) with FSSIZE. unfold FSSIZE. lia.
  - rewrite Hdev, used_final by (unfold FSSIZE; lia). apply Z.ltb_lt. lia.
  - unfold data_block, is_int. rewrite Hlog. change LOGBLOCKS with 30. lia.
  - by apply not_map.
  - rewrite Hdev. apply (co_len _ _ _ (fn_core _ _ _ _ _ Fin)). simpl. unfold FSSIZE. lia.
Qed.
Lemma slot_home h A i : slot 1 h (vf f) A i = if decide (i = HOME) then h else mslot f A i.
Proof. unfold mslot, slot. destruct (Z.eqb_spec i HOME), (decide (i = HOME)); done. Qed.
Lemma file_wf_final k A : As !! k = Some A -> Z.of_nat (length args) + 1 < INUMS -> file_wf mk_sb g (vf f) (IBLOCK (Z.of_nat k + 1) mk_sb) A.
Proof.
  intros Hk Hlen. pose proof (fn_core _ _ _ _ _ Fin) as C. pose proof (lookup_lt_Some _ _ _ Hk) as Hlt. rewrite (fn_As _ _ _ _ _ Fin) in Hlt. pose proof (iblock_range (Z.of_nat k + 1) ltac:(lia)) as Hh. pose proof final_range.
  assert (forall i, is_slot i -> mslot f A i <> 0 -> 47 <= mslot f A i < fb) as Hr by (intros i; apply (co_range _ _ _ C k A i Hk)).
  split.
  - by apply (co_alen _ _ _ C k).
  - lia.
  - rewrite Hdev. intros i Hi. rewrite slot_home. destruct (decide (i = HOME)); intros Hn; [apply in_use_final; lia|]. specialize (Hr i Hi Hn). apply in_use_final; lia.
  - rewrite Hdev. intros i j Hi Hj. rewrite !slot_home. destruct (decide (i = HOME)) as [->|], (decide (j = HOME)) as [->|]; intros Hn He; [done| | |by apply (co_inj _ _ _ C k k A A)].
    + assert (mslot f A j <> 0) as Hx by congruence. specialize (Hr j Hj Hx). lia.
    + specialize (Hr i Hi Hn). lia.
Qed.
End Wf.

(** The superblock as the kernel reads it *)
Lemma read_superblock : get_superblock (splice 0 (superblock_bytes mk_sb) zeroes) = mk_sb.
Proof. vm_compute. reflexivity. Qed.

(** C27: On every set of files that fits, mkfs ends, and the image is a file
    system for the kernel: the superblock is the one it announces, the log is
    empty, the free map marks exactly the blocks below the first free one and is
    the kernel's [freemap], every file has a well-formed block map ([file_wf])
    with one link, no block belongs to two files, and all other inodes are
    free. *)
Theorem mkfs_image_wf open_img host prog out args g :
  open_img out = true -> fits host args -> log_dev g = 1 -> log_start g = 2 ->
  exists s, mkfs_main open_img host (prog :: out :: args) new_img = Ok (tt, s) /\
    let V := vf (im_blk s) in
    get_superblock (V (1, 1)) = mk_sb /\ (forall b, 2 <= b < 33 -> V (1, b) = zero_block) /\
    freemap mk_sb g V /\ (forall b, 0 <= b < FSSIZE -> used mk_sb 1 V b = (b <? freeblock s)) /\
    (forall inum, 1 <= inum <= Z.of_nat (length args) + 1 ->
       let d := dinode_at (im_blk s) inum in
       d_type d <> 0 /\ d_nlink d = 1 /\ file_wf mk_sb g V (IBLOCK inum mk_sb) (d_addrs d)) /\
    (forall inum inum' i j, 1 <= inum <= Z.of_nat (length args) + 1 -> 1 <= inum' <= Z.of_nat (length args) + 1 -> is_slot i -> is_slot j ->
       mslot (im_blk s) (d_addrs (dinode_at (im_blk s) inum)) i <> 0 ->
       mslot (im_blk s) (d_addrs (dinode_at (im_blk s) inum)) i = mslot (im_blk s) (d_addrs (dinode_at (im_blk s) inum')) j -> inum = inum') /\
    (forall inum, Z.of_nat (length args) + 2 <= inum < NINODES -> d_type (dinode_at (im_blk s) inum) = 0).
Proof.
  intros Hopen Hfit Hdev Hlog. destruct (mkfs_ok open_img host prog out args Hopen Hfit) as (f & fb & As & E & Fin). exists (st f fb (files_of host args)). split; [exact E|]. clear E.
  pose proof (ft_inodes _ _ Hfit) as Hino. change NINODES with 200 in *. cbv zeta. cbn [im_blk freeblock st].
  assert (forall inum, 1 <= inum <= Z.of_nat (length args) + 1 -> exists k x A, inum = Z.of_nat k + 1 /\ files_of host args !! k = Some x /\ As !! k = Some A /\
    dinode_at f inum = (if decide (k = 0%nat) then root_inode (fsize x) A else inode_of x A)) as Hat.
  { intros inum Hi. destruct (lookup_lt_is_Some_2 (files_of host args) (Z.to_nat (inum - 1))) as [x Hx]; [rewrite length_files; lia|]. destruct (lookup_lt_is_Some_2 As (Z.to_nat (inum - 1))) as [A HA]; [rewrite (fn_As _ _ _ _ _ Fin); lia|].
    exists (Z.to_nat (inum - 1)), x, A. split; [lia|]. split; [done|]. split; [done|]. destruct (fn_file _ _ _ _ _ Fin _ x A Hx HA) as [_ H]. by replace (Z.of_nat (Z.to_nat (inum - 1)) + 1) with inum in H by lia. }
  assert (forall inum k x A, dinode_at f inum = (if decide (k = 0%nat) then root_inode (fsize x) A else inode_of x A) -> d_addrs (dinode_at f inum) = A) as Hadr by (intros inum k x A ->; by destruct (decide (k = 0%nat))).
  split; [|split; [|split; [|split; [|split; [|split]]]]].
  - unfold vf. cbn [snd]. rewrite (fn_low _ _ _ _ _ Fin) by done. apply read_superblock.
  - intros b Hb. unfold vf. cbn [snd]. rewrite (fn_low _ _ _ _ _ Fin) by lia. by rewrite decide_False by lia.
  - by apply (freemap_final host args f fb As).
  - by apply (used_final host args f fb As).
  - intros inum Hi. destruct (Hat inum Hi) as (k & x & A & -> & Hx & HA & Hd). rewrite (Hadr _ _ _ _ Hd). split; [|split; [by rewrite Hd; destruct (decide (k = 0%nat))|apply (file_wf_final host args f fb As g Fin); [done|done|done|unfold INUMS; lia]]].
    rewrite Hd. destruct (decide (k = 0%nat)); [done|]. destruct k; [done|]. unfold files_of in Hx. cbn [lookup list_lookup] in Hx. apply list_lookup_fmap_Some in Hx as (arg & -> & _). done.
  - intros inum inum' i j Hi Hi' Hsi Hsj. destruct (Hat inum Hi) as (k & x & A & -> & Hx & HA & Hd). destruct (Hat inum' Hi') as (k' & x' & A' & -> & Hx' & HA' & Hd').
    rewrite (Hadr _ _ _ _ Hd), (Hadr _ _ _ _ Hd'). intros Hn He. by destruct (co_inj _ _ _ (fn_core _ _ _ _ _ Fin) k k' A A' i j HA HA' Hsi Hsj Hn He) as [-> _].
  - intros inum Hi. apply (fn_unused _ _ _ _ _ Fin). unfold INUMS. lia.
Qed.

(** C28: The files of the image are the files of the host, under the names of the
    arguments: for the [k]-th one there is an inode with its length, and every
    byte the kernel finds in the file's blocks is the byte read() returned; the
    root directory holds ".", ".." and one entry per file, and zeros (free
    entries) behind them. *)
Theorem mkfs_contents open_img host prog out args :
  open_img out = true -> fits host args ->
  exists s, mkfs_main open_img host (prog :: out :: args) new_img = Ok (tt, s) /\
    (forall k arg, args !! k = Some arg -> exists A,
       dinode_at (im_blk s) (Z.of_nat k + 2) = mkDinode T_FILE 0 0 1 (Z.of_nat (length (content host arg))) A /\
       forall x, 0 <= x < Z.of_nat (length (content host arg)) -> fbyte 1 (vf (im_blk s)) A x = nth (Z.to_nat x) (content host arg) 0) /\
    exists A, dinode_at (im_blk s) ROOTINO = root_inode (Z.of_nat (length (root_data args))) A /\
      forall x, 0 <= x < nblk (Z.of_nat (length (root_data args))) * BSIZE -> fbyte 1 (vf (im_blk s)) A x = nth (Z.to_nat x) (root_data args) 0.
Proof.
  intros Hopen Hfit. destruct (mkfs_ok open_img host prog out args Hopen Hfit) as (f & fb & As & E & Fin). exists (st f fb (files_of host args)). split; [exact E|]. clear E. cbn [im_blk st]. split.
  - intros k arg Hk. pose proof (lookup_lt_Some _ _ _ Hk) as Hlt. destruct (lookup_lt_is_Some_2 As (S k)) as [A HA]; [rewrite (fn_As _ _ _ _ _ Fin); lia|].
    assert (files_of host args !! S k = Some (T_FILE, content host arg)) as Hx by (unfold files_of; cbn [lookup list_lookup]; apply list_lookup_fmap_Some; by exists arg).
    destruct (fn_file _ _ _ _ _ Fin (S k) _ A Hx HA) as [F Hd]. rewrite decide_False in Hd by done. exists A. replace (Z.of_nat (S k) + 1) with (Z.of_nat k + 2) in Hd by lia. split; [exact Hd|].
    intros x Hxr. apply (fd_bytes _ _ _ _ F). pose proof (nblk_spec (fsize (T_FILE, content host arg)) ltac:(unfold fsize; lia)) as Hn. unfold fsize in *. cbn [snd] in *. lia.
  - destruct (lookup_lt_is_Some_2 As 0) as [A HA]; [rewrite (fn_As _ _ _ _ _ Fin); lia|]. destruct (fn_file _ _ _ _ _ Fin 0%nat _ A eq_refl HA) as [F Hd]. exists A. split; [exact Hd|]. apply (fd_bytes _ _ _ _ F).
Qed.

(** ** An image with two files *)
Definition demo_args : list (list Z) := [[117; 115; 101; 114; 47; 95; 99; 97; 116]; [82; 69; 65; 68; 77; 69]].
Definition demo_host (arg : list Z) : option (list (list Z)) :=
  if decide (arg = [82; 69; 65; 68; 77; 69]) then Some [repeat 7 1024; [1; 2; 3]] else Some [[9]].
Definition demo_log : log_t := mkLog (initlock "log") 2 0 0 1 0 (mkLogheader 0 []).
Lemma demo_fits : fits demo_host demo_args.
Proof.
  split; [|done|vm_compute; discriminate|vm_compute; discriminate].
  apply Forall_cons; split; [|apply Forall_singleton]; (split; [eapply (bool_decide_eq_true_1 (_ ∉ _)); vm_compute; reflexivity|by eexists|vm_compute; discriminate|vm_compute; discriminate]).
Qed.
Lemma mkfs_image_wf_witness : exists s, mkfs_main (fun _ => true) demo_host ([] :: [] :: demo_args) new_img = Ok (tt, s) /\ freemap mk_sb demo_log (vf (im_blk s)).
Proof.
  destruct (mkfs_image_wf (fun _ => true) demo_host [] [] demo_args demo_log eq_refl demo_fits eq_refl eq_refl) as (s & E & _ & _ & H & _). exists s. split; [exact E|exact H].
Defined.
Lemma mkfs_contents_witness : exists s, mkfs_main (fun _ => true) demo_host ([] :: [] :: demo_args) new_img = Ok (tt, s) /\
  exists A, dinode_at (im_blk s) 3 = mkDinode T_FILE 0 0 1 1027 A /\ fbyte 1 (vf (im_blk s)) A 1025 = 2.
Proof.
  destruct (mkfs_contents (fun _ => true) demo_host [] [] demo_args eq_refl demo_fits) as (s & E & H & _). exists s. split; [exact E|]. clear E.
  destruct (H 1%nat _ eq_refl) as (A & H1 & H2). exists A. split; [exact H1|]. rewrite H2 by (vm_compute; split; [discriminate|reflexivity]). vm_compute. reflexivity.
Defined.
