(* ===== verification/Uart.v ===== *)
(** * The serial port (kernel/uart.c)

    The device is a 16550 with its FIFOs on: the transmit FIFO, whose
    characters go out one by one, the receive FIFO, and an interrupt that is
    pending when the transmit FIFO gets empty or input arrives.  LSR_TX_IDLE
    says that the transmit FIFO is empty.

    uartwrite() is cut at every access to the device, since other CPUs
    (uartputc_sync()), the device and the interrupt handler come between.  One
    process is in uartwrite() at a time (tx_lock); of sleep_prepare(), sleep()
    and wakeup() there is [w_chan], whether the process is still waiting on
    tx_chan: sleep() returns once wakeup() has cleared it. *)
From stdpp Require Import base list strings.
From Stdlib Require Import ZArith Lia.
From S2P Require Import Prelude KState.

Definition RHR : Z := 0.
Definition THR : Z := 0.
Definition IER : Z := 1.
Definition IER_RX_ENABLE : Z := 1.
Definition IER_TX_ENABLE : Z := 2.
Definition FCR : Z := 2.
Definition FCR_FIFO_ENABLE : Z := 1.
Definition FCR_FIFO_CLEAR : Z := 6.
Definition LCR : Z := 3.
Definition LCR_EIGHT_BITS : Z := 3.
Definition LCR_BAUD_LATCH : Z := 128.
Definition LSR_RX_READY : Z := 1.
Definition LSR_TX_IDLE : Z := 32.
(** Characters the FIFO of a 16550 holds *)
Definition FIFO_SIZE : nat := 16.

(** Where the process in uartwrite() is: the characters still to send. *)
Inductive txpc : Type :=
| WIdle
| WLoop (rest : list Z)
| WCheck (rest : list Z)
| WSend (rest : list Z)
| WSleep (rest : list Z).

(** A character in the FIFO, with the CPU it is from: [None] for uartwrite(). *)
Definition uchar : Type := option nat * Z.
(** [u_ready] is what CPUs in uartputc_sync() have found room for;
    [u_asked] the characters uartwrite() has been called with, and [u_input]
    what consoleintr() got. *)
Record ust : Type := mkUst {
  u_fifo : list uchar; u_sent : list uchar; u_rx : list Z; u_int : bool;
  w_pc : txpc; w_chan : bool; u_ready : list (option Z);
  u_asked : list Z; u_input : list Z
}.
#[global] Instance eta_ust : Eta ust := fun s =>
  mkUst (u_fifo s) (u_sent s) (u_rx s) (u_int s) (w_pc s) (w_chan s) (u_ready s) (u_asked s) (u_input s).

(** ** Registers *)
Definition read_lsr (s : ust) : Z :=
  Z.lor (if decide (u_rx s = []) then 0 else LSR_RX_READY) (if decide (u_fifo s = []) then LSR_TX_IDLE else 0).
Definition write_thr (from : option nat) (c : Z) : M ust unit := mmodify (fun s => s <| u_fifo ::= fun l => l ++ [(from, u8 c)] |>).
Definition tx_idle (s : ust) : bool := negb (Z.land (read_lsr s) LSR_TX_IDLE =? 0).

(** The registers uartinit() writes, in order *)
Definition uartinit : list (Z * Z) :=
  [(IER, 0); (LCR, LCR_BAUD_LATCH); (0, 3); (1, 0); (LCR, LCR_EIGHT_BITS); (FCR, Z.lor FCR_FIFO_ENABLE FCR_FIFO_CLEAR);
   (IER, Z.lor IER_TX_ENABLE IER_RX_ENABLE)].

(** ** uartwrite() *)
Definition uartwrite (buf : list Z) : M ust unit :=
  let* pc := mreads w_pc in
  match pc with
  | WIdle => mmodify (fun s => s <| w_pc := WLoop buf |> <| u_asked ::= fun l => l ++ (u8 <$> buf) |>)
  | _ => mspin
  end.
(** One step of the process; it waits in sleep(). *)
Definition uartwrite_step : M ust unit :=
  let* s := mget in
  match w_pc s with
  | WIdle => mspin
  | WLoop [] => mmodify (fun s => s <| w_pc := WIdle |>)
  | WLoop rest => mmodify (fun s => s <| w_chan := true |> <| w_pc := WCheck rest |>)
  | WCheck rest => mmodify (fun s => s <| w_pc := if tx_idle s then WSend rest else WSleep rest |>)
  | WSend [] => mub
  | WSend (c :: rest) => write_thr None c ;;; mmodify (fun s => s <| w_pc := WLoop rest |>)
  | WSleep rest => if w_chan s then mspin else mmodify (fun s => s <| w_pc := WLoop rest |>)
  end.

(** ** uartputc_sync(), on a machine that does not panic *)
Definition uartputc_check (cpu : nat) (c : Z) : M ust unit :=
  let* s := mget in
  match u_ready s !! cpu with
  | Some None => if tx_idle s then mmodify (fun s => s <| u_ready ::= <[cpu := Some c]> |>) else mspin
  | _ => mub
  end.
Definition uartputc_send (cpu : nat) : M ust unit :=
  let* s := mget in
  match u_ready s !! cpu with
  | Some (Some c) => write_thr (Some cpu) c ;;; mmodify (fun s => s <| u_ready ::= <[cpu := None]> |>)
  | _ => mub
  end.

(** ** Interrupts *)
(** -1 when there is no input *)
Definition uartgetc : M ust Z :=
  let* s := mget in
  if negb (Z.land (read_lsr s) LSR_RX_READY =? 0) then
    match u_rx s with
    | c :: l => mmodify (fun s => s <| u_rx := l |>) ;;; mret (u8 c)
    | [] => mub
    end
  else mret (-1).
Definition uartintr : M ust unit :=
  mmodify (fun s => s <| u_int := false |>) ;;;
  let* s := mget in
  (if tx_idle s then mmodify (fun s => s <| w_chan := false |>) else mret tt) ;;;
  mloop (S (length (u_rx s))) (fun _ =>
    let* c := uartgetc in
    if c =? -1 then mret (inr tt)
    else mmodify (fun s => s <| u_input ::= fun l => l ++ [c] |>) ;;; mret (inl tt)) tt.

(** ** The device *)
Definition dev_send : M ust unit :=
  let* s := mget in
  match u_fifo s with
  | [] => mspin
  | c :: l => mmodify (fun s => s <| u_fifo := l |> <| u_sent ::= fun k => k ++ [c] |> <| u_int ::= fun i => if decide (l = []) then true else i |>)
  end.
Definition dev_receive (c : Z) : M ust unit := mmodify (fun s => s <| u_rx ::= fun l => l ++ [c] |> <| u_int := true |>).

Definition uart_start : ust := mkUst [] [] [] false WIdle false (replicate NCPU None) [] [].
