(* ===== verification/UartSpec.v ===== *)
(** * The serial port under any interleaving

    Nothing uartwrite() is given is lost, doubled or reordered; the FIFO never
    overflows; and a call to uartwrite() always ends. *)
From stdpp Require Import base list strings.
From Stdlib Require Import ZArith Lia.
From S2P Require Import Prelude KState Uart.

(** A process calls uartwrite() or goes on in it; a CPU is in uartputc_sync();
    the device sends or receives; an interrupt is taken. *)
Inductive uevent : Type :=
| EWrite (buf : list Z)
| EStep
| ECheck (cpu : nat) (c : Z)
| EPut (cpu : nat)
| ESend
| EReceive (c : Z)
| EIntr.
Definition do_event (e : uevent) : M ust unit :=
  match e with
  | EWrite buf => uartwrite buf
  | EStep => uartwrite_step
  | ECheck cpu c => uartputc_check cpu c
  | EPut cpu => uartputc_send cpu
  | ESend => dev_send
  | EReceive c => dev_receive c
  | EIntr => fun s => if u_int s then uartintr s else Spin
  end.
Inductive uruns : ust -> list uevent -> ust -> Prop :=
| UNil s : uruns s [] s
| USnoc s tr s1 e s2 : uruns s tr s1 -> do_event e s1 = Ok (tt, s2) -> uruns s (tr ++ [e]) s2.

Definition rest_of (pc : txpc) : list Z := match pc with WIdle => [] | WLoop l | WCheck l | WSend l | WSleep l => l end.
(** Room that has been found for characters that are not yet in the FIFO *)
Definition slots (s : ust) : nat := (length (filter is_Some (u_ready s)) + match w_pc s with WSend _ => 1 | _ => 0 end)%nat.
(** The characters of uartwrite() *)
Definition written (l : list uchar) : list Z := snd <$> filter (fun x => fst x = None) l.

Record uinv (s : ust) : Prop := {
  ui_len : length (u_ready s) = NCPU;
  ui_fifo : (length (u_fifo s) + slots s <= S NCPU)%nat;
  ui_wait rest : w_pc s = WSleep rest -> w_chan s = true -> u_fifo s <> [] \/ u_int s = true;
  ui_send : w_pc s <> WSend [] /\ w_pc s <> WCheck [] /\ w_pc s <> WSleep [];
  ui_out : written (u_sent s ++ u_fifo s) ++ (u8 <$> rest_of (w_pc s)) = u_asked s
}.

Lemma tx_idle_spec s : tx_idle s = bool_decide (u_fifo s = []).
Proof. unfold tx_idle, read_lsr. destruct (decide (u_rx s = [])), (decide (u_fifo s = [])) as [Hf|Hf]; [rewrite bool_decide_true|rewrite bool_decide_false|rewrite bool_decide_true|rewrite bool_decide_false]; done. Qed.
Lemma rx_ready_spec s : (Z.land (read_lsr s) LSR_RX_READY =? 0) = bool_decide (u_rx s = []).
Proof. unfold read_lsr. destruct (decide (u_rx s = [])) as [Hf|Hf], (decide (u_fifo s = [])); [rewrite bool_decide_true|rewrite bool_decide_true|rewrite bool_decide_false|rewrite bool_decide_false]; done. Qed.
Lemma written_app l k : written (l ++ k) = written l ++ written k.
Proof. unfold written. by rewrite filter_app, fmap_app. Qed.

(** uartintr() ends, and takes all the input. *)
Definition after_intr (s : ust) : ust :=
  s <| u_int := false |> <| w_chan := if tx_idle s then false else w_chan s |> <| u_rx := [] |> <| u_input ::= fun l => l ++ (u8 <$> u_rx s) |>.
Lemma uartgetc_cons s c l : u_rx s = c :: l -> uartgetc s = Ok (u8 c, s <| u_rx := l |>).
Proof. intros H. unfold uartgetc. rewrite mbind_get, rx_ready_spec, H. by rewrite bool_decide_false. Qed.
Lemma uartgetc_nil s : u_rx s = [] -> uartgetc s = Ok (-1, s).
Proof. intros H. unfold uartgetc. rewrite mbind_get, rx_ready_spec, H. by rewrite bool_decide_true. Qed.
Lemma input_loop l : forall s, u_rx s = l ->
  mloop (S (length l)) (fun _ : unit => let* c := uartgetc in
    if c =? -1 then mret (inr tt) else mmodify (fun s => s <| u_input ::= fun l => l ++ [c] |>) ;;; mret (inl tt)) tt s =
  Ok (tt, s <| u_rx := [] |> <| u_input ::= fun k => k ++ (u8 <$> l) |>).
Proof.
  induction l as [|c l IH]; intros s Hs.
  - rewrite (mloop_stop _ _ _ tt s s) by (by rewrite (mbind_Ok _ _ _ _ _ (uartgetc_nil s Hs))). do 2 f_equal. destruct s; simpl in *. subst. unfold update. simpl. by rewrite app_nil_r.
  - assert (u8 c =? -1 = false) as Hc by (apply Z.eqb_neq; unfold u8; pose proof (Z.mod_pos_bound c (2 ^ 8) ltac:(done)); lia).
    rewrite (mloop_next _ _ _ tt s (s <| u_rx := l |> <| u_input ::= fun k => k ++ [u8 c] |>)) by (by rewrite (mbind_Ok _ _ _ _ _ (uartgetc_cons s c l Hs)), Hc).
    rewrite IH by done. do 2 f_equal. unfold update. simpl. by rewrite <- app_assoc.
Qed.
Lemma uartintr_ok s : uartintr s = Ok (tt, after_intr s).
Proof.
  unfold uartintr, after_intr. rewrite mbind_modify, mbind_get. change (tx_idle (s <| u_int := false |>)) with (tx_idle s).
  destruct (tx_idle s); [rewrite mbind_modify|rewrite mbind_ret]; by rewrite (input_loop (u_rx s)).
Qed.

(** ** Every event keeps the invariant *)
Lemma ready_insert (l : list (option Z)) cpu (x y : option Z) : l !! cpu = Some x ->
  (length (filter is_Some (<[cpu := y]> l)) + length (filter is_Some [x]) = length (filter is_Some l) + length (filter is_Some [y]))%nat.
Proof.
  intros Hl. rewrite (insert_take_drop l cpu (y : option Z)) by (by apply lookup_lt_Some in Hl). rewrite <- (take_drop_middle l cpu x Hl) at 3.
  change (y :: drop (S cpu) l) with ([y] ++ drop (S cpu) l). change (x :: drop (S cpu) l) with ([x] ++ drop (S cpu) l). rewrite !filter_app, !length_app. lia.
Qed.
Lemma ready_le (l : list (option Z)) : (length (filter is_Some l) <= length l)%nat.
Proof. apply length_filter. Qed.
Lemma uinv_start : uinv uart_start.
Proof. split; try done. vm_compute. lia. Qed.
Lemma tx_idle_true s : tx_idle s = true <-> u_fifo s = [].
Proof. rewrite tx_idle_spec. apply bool_decide_eq_true. Qed.

Lemma step_inv s s' : uinv s -> uartwrite_step s = Ok (tt, s') -> uinv s'.
Proof.
  intros [I1 I2 I4 (I5 & I6 & I7) I8] H. unfold uartwrite_step in H. rewrite mbind_get in H. unfold slots in I2. destruct (w_pc s) as [|[|c rest]|rest|[|c rest]|rest] eqn:Hpc; try done.
  - injection H as <-. by split.
  - injection H as <-. by split.
  - injection H as <-. destruct (tx_idle s) eqn:Hi.
    + apply tx_idle_true in Hi. split; try done; unfold slots; simpl in *; [rewrite Hi; simpl; pose proof (ready_le (u_ready s)); lia|split; [congruence|done]].
    + split; try done; unfold slots; simpl; [intros r [= <-] Hc; left; intros He; apply tx_idle_true in He; congruence|]. split; [done|]. split; [done|congruence].
  - unfold write_thr in H. rewrite mbind_modify in H. injection H as <-. split; try done; unfold slots; simpl in *.
    + rewrite length_app. simpl. lia.
    + rewrite <- I8, app_assoc, (written_app _ [(None, u8 c)]). simpl. by rewrite <- app_assoc.
  - destruct (w_chan s); [done|]. injection H as <-. by split.
Qed.
Lemma uinv_event s e s' : uinv s -> do_event e s = Ok (tt, s') -> uinv s'.
Proof.
  intros I H. pose proof I as [I1 I2 I4 (I5 & I6 & I7) I8]. unfold slots in I2. destruct e as [buf| |cpu c|cpu| |c|]; cbn [do_event] in H.
  - unfold uartwrite in H. rewrite mbind_reads in H. destruct (w_pc s) eqn:Hpc; try done. injection H as <-. split; try done; unfold slots; simpl in *. rewrite app_nil_r in I8. by rewrite I8.
  - by apply (step_inv s).
  - unfold uartputc_check in H. rewrite mbind_get in H. destruct (u_ready s !! cpu) as [[?|]|] eqn:Hc; try done. destruct (tx_idle s) eqn:Hi; [|done]. injection H as <-. apply tx_idle_true in Hi.
    split; try done; unfold slots; simpl; [by rewrite length_insert|]. rewrite Hi. simpl. pose proof (ready_le (<[cpu := Some c]> (u_ready s))) as Hl. rewrite length_insert in Hl. destruct (w_pc s); lia.
  - unfold uartputc_send in H. rewrite mbind_get in H. destruct (u_ready s !! cpu) as [[c|]|] eqn:Hc; try done. unfold write_thr in H. rewrite mbind_modify in H. injection H as <-.
    pose proof (ready_insert _ _ _ None Hc) as Hl. split; try done; unfold slots; simpl in *; [by rewrite length_insert|rewrite length_app; simpl; lia|intros r Hr Hw; left; by destruct (u_fifo s)|].
    rewrite <- I8, app_assoc, (written_app _ [(Some cpu, u8 c)]). simpl. by rewrite app_nil_r.
  - unfold dev_send in H. rewrite mbind_get in H. destruct (u_fifo s) as [|x l] eqn:Hf; [done|]. injection H as <-. split; try done; unfold slots; simpl in *; [lia| |].
    + intros r Hr Hw. destruct (decide (l = [])) as [->|]; [by right|by left].
    + by rewrite <- app_assoc.
  - injection H as <-. split; try done. intros r Hr Hw. by right.
  - destruct (u_int s) eqn:Hi; [|done]. rewrite uartintr_ok in H. injection H as <-. split; try done. unfold after_intr. simpl. intros r Hr Hw. destruct (tx_idle s) eqn:Ht; [done|]. left. intros He. apply tx_idle_true in He. congruence.
Qed.
Lemma uinv_runs tr s : uruns uart_start tr s -> uinv s.
Proof.
  remember uart_start as s0 eqn:Hs. intros H. revert Hs. induction H as [s|s tr s1 e s2 Hr IH He]; intros ->; [apply uinv_start|]. by apply (uinv_event s1 e); [apply IH|].
Qed.

(** ** uartwrite() ends *)
(** What goes on by itself, without new calls and new input *)
Definition quiet (e : uevent) : bool := match e with EStep | EPut _ | ESend | EIntr => true | _ => false end.
Definition pc_weight (s : ust) : nat :=
  match w_pc s with
  | WIdle => 0
  | WLoop _ => 3
  | WCheck _ => if w_chan s then 2 else 5
  | WSend _ => 1
  | WSleep _ => if w_chan s then 0 else 4
  end.
Definition mu (s : ust) : nat :=
  (10 * length (rest_of (w_pc s)) + 7 * length (u_fifo s) + 8 * length (filter is_Some (u_ready s)) + (if u_int s then 6 else 0) + pc_weight s)%nat.

Lemma quiet_less s e s' : quiet e = true -> do_event e s = Ok (tt, s') -> (mu s' < mu s)%nat.
Proof.
  intros Hq H. unfold mu, pc_weight. destruct e as [buf| |cpu c|cpu| |c|]; try done; cbn [do_event] in H.
  - unfold uartwrite_step in H. rewrite mbind_get in H. destruct (w_pc s) as [|[|c rest]|rest|[|c rest]|rest] eqn:Hpc; try done.
    + injection H as <-. simpl. lia.
    + injection H as <-. simpl. lia.
    + injection H as <-. simpl. destruct (tx_idle s); simpl; destruct (w_chan s); lia.
    + unfold write_thr in H. rewrite mbind_modify in H. injection H as <-. simpl. rewrite length_app. simpl. lia.
    + destruct (w_chan s); [done|]. injection H as <-. simpl. lia.
  - unfold uartputc_send in H. rewrite mbind_get in H. destruct (u_ready s !! cpu) as [[c|]|] eqn:Hc; try done. unfold write_thr in H. rewrite mbind_modify in H. injection H as <-.
    pose proof (ready_insert _ _ _ None Hc) as Hl. simpl in *. rewrite length_app. simpl. lia.
  - unfold dev_send in H. rewrite mbind_get in H. destruct (u_fifo s) as [|x l] eqn:Hf; [done|]. injection H as <-. simpl. destruct (decide (l = [])), (u_int s); lia.
  - destruct (u_int s) eqn:Hi; [|done]. rewrite uartintr_ok in H. injection H as <-. unfold after_intr. simpl. destruct (w_pc s), (tx_idle s), (w_chan s); simpl; lia.
Qed.
Lemma mu_bound s : uinv s -> (mu s <= 10 * length (rest_of (w_pc s)) + 83)%nat.
Proof. intros [_ I2 _ _ _]. unfold slots, NCPU in I2. unfold mu, pc_weight. destruct (w_pc s), (w_chan s), (u_int s); simpl in *; lia. Qed.
Lemma goes_on s : uinv s -> w_pc s <> WIdle -> exists e s', quiet e = true /\ do_event e s = Ok (tt, s').
Proof.
  intros [_ _ I4 (I5 & _) _] Hpc. destruct (w_pc s) as [|[|c rest]|rest|[|c rest]|rest] eqn:Hp; try done.
  1-4: exists EStep; eexists; split; [done|]; cbn [do_event]; unfold uartwrite_step; rewrite mbind_get, Hp; reflexivity.
  destruct (w_chan s) eqn:Hc.
  - destruct (I4 rest eq_refl eq_refl) as [Hf|Hi].
    + destruct (u_fifo s) as [|x l] eqn:He; [done|]. exists ESend. eexists. split; [done|]. cbn [do_event]. unfold dev_send. rewrite mbind_get, He. reflexivity.
    + exists EIntr. eexists. split; [done|]. cbn [do_event]. rewrite Hi. apply uartintr_ok.
  - exists EStep. eexists. split; [done|]. cbn [do_event]. unfold uartwrite_step. rewrite mbind_get, Hp, Hc. reflexivity.
Qed.
Lemma quiet_runs s tr s' : uruns s tr s' -> Forall (fun e => quiet e = true) tr -> (length tr + mu s' <= mu s)%nat.
Proof.
  induction 1 as [s|s tr s1 e s2 Hr IH He]; intros Hq; [simpl; lia|]. apply Forall_app in Hq as [Hq Hqe]. apply Forall_cons in Hqe as [Hqe _].
  pose proof (quiet_less s1 e s2 Hqe He). specialize (IH Hq). rewrite length_app. simpl. lia.
Qed.

(** ** The theorems *)
(** C26: However processes, CPUs in uartputc_sync(), the device and interrupts
    interleave: the characters of uartwrite() that are sent or in the FIFO,
    followed by those it still has to send, are exactly the ones it was asked
    to write, in order; and the FIFO never holds more than a character per CPU
    and one of uartwrite(), although all of them may see it empty at the same
    time, so that it never overflows. *)
Theorem uart_exact tr s : uruns uart_start tr s ->
  written (u_sent s ++ u_fifo s) ++ (u8 <$> rest_of (w_pc s)) = u_asked s /\ (length (u_fifo s) <= S NCPU)%nat /\ (S NCPU <= FIFO_SIZE)%nat /\
  uartwrite_step s <> UB.
Proof.
  intros H. pose proof (uinv_runs tr s H) as [I1 I2 I4 (I5 & _) I8]. split; [done|]. split; [lia|]. split; [unfold NCPU, FIFO_SIZE; lia|].
  unfold uartwrite_step. rewrite mbind_get. destruct (w_pc s) as [|[|c rest]|rest|[|c rest]|rest]; try done. by destruct (w_chan s).
Qed.


(** ** A run *)
Definition uafter (e : uevent) (s : ust) : ust := match do_event e s with Ok (_, s') => s' | _ => s end.
Definition uart_demo_events : list uevent := [EWrite [72; 105]; EStep; EStep; ECheck 3 33; EStep; EPut 3; EStep; EStep].
Definition uart_demo : ust := foldl (fun s e => uafter e s) uart_start uart_demo_events.
Lemma uart_demo_run : uruns uart_start uart_demo_events uart_demo.
Proof.
  assert (forall l s, (forall k e, l !! k = Some e -> do_event e (foldl (fun s e => uafter e s) s (take k l)) = Ok (tt, foldl (fun s e => uafter e s) s (take (S k) l))) ->
    uruns s l (foldl (fun s e => uafter e s) s l)) as H.
  { induction l as [|e l IH] using rev_ind; intros s Hl; [constructor|]. econstructor.
    - apply IH. intros k e' Hk. pose proof (lookup_lt_Some _ _ _ Hk). specialize (Hl k e'). rewrite lookup_app_l, !take_app_le in Hl by lia. by apply Hl.
    - specialize (Hl (length l) e (list_lookup_middle _ _ _ _ eq_refl)). rewrite take_app_length in Hl. rewrite Hl, firstn_all2; [done|rewrite length_app; simpl; lia]. }
  apply H. intros k e Hk. do 8 (destruct k as [|k]; [injection Hk as <-; vm_compute; reflexivity|]). done.
Qed.
Lemma uart_exact_witness : written (u_sent uart_demo ++ u_fifo uart_demo) = [72] /\ length (u_fifo uart_demo) = 2%nat /\ u_asked uart_demo = [72; 105] /\
  (length (u_fifo uart_demo) <= S NCPU)%nat.
Proof. split; [reflexivity|]. split; [reflexivity|]. split; [reflexivity|]. apply (uart_exact _ _ uart_demo_run). Defined.
