(* ===== verification/Plic.v ===== *)
(** * The interrupt controller (kernel/plic.c)

    The device follows the RISC-V PLIC specification: per source a priority, a
    gateway that forwards an asserted line as one pending interrupt and stays
    closed until that is completed; per context (two for each hart, for
    machine and for supervisor mode) enable bits and a threshold.  A read of the
    claim register takes the pending enabled source of the highest priority,
    the lowest number first.  The driver reaches all of it through addresses. *)
From stdpp Require Import base list strings gmap.
From Stdlib Require Import ZArith Lia.
From S2P Require Import Prelude KState Vm Trap.

(** ** The device *)
Record plic : Type := mkPlic {
  p_line : gset Z;                 (* lines that devices assert *)
  p_pend : gset Z;                 (* pending interrupts *)
  p_busy : gset Z;                 (* claimed and not completed *)
  p_prio : gmap Z Z;               (* priority, by source *)
  p_enable : gmap (Z * Z) Z;       (* enable word, by context and word *)
  p_thresh : gmap Z Z              (* threshold, by context *)
}.
#[global] Instance eta_plic : Eta plic := fun s =>
  mkPlic (p_line s) (p_pend s) (p_busy s) (p_prio s) (p_enable s) (p_thresh s).

(** The gateway of a source. *)
Definition forward (irq : Z) (s : plic) : plic :=
  if bool_decide (irq ∈ p_line s) && negb (bool_decide (irq ∈ p_busy s)) then s <| p_pend ::= fun l => {[irq]} ∪ l |> else s.
(** A device asserts or clears its line. *)
Definition assert_line (irq : Z) (s : plic) : plic := forward irq (s <| p_line ::= fun l => {[irq]} ∪ l |>).
Definition clear_line (irq : Z) (s : plic) : plic := s <| p_line ::= fun l => l ∖ {[irq]} |>.

Definition enabled (s : plic) (ctx irq : Z) : bool :=
  Z.testbit (default 0 (p_enable s !! (ctx, irq / 32))) (irq mod 32).
Definition prio (s : plic) (irq : Z) : Z := default 0 (p_prio s !! irq).
Definition candidate (s : plic) (ctx irq : Z) : bool :=
  bool_decide (irq ∈ p_pend s) && enabled s ctx irq && (0 <? prio s irq).
(** The sources in increasing order; of equal priority the first wins. *)
Definition best (s : plic) (ctx : Z) : Z :=
  foldl (fun b irq => if candidate s ctx irq && (prio s b <? prio s irq) then irq else b) 0 (seqZ 1 1023).
(** The interrupt signal of a context *)
Definition signalled (s : plic) (ctx : Z) : bool :=
  existsb (fun irq => candidate s ctx irq && (default 0 (p_thresh s !! ctx) <? prio s irq)) (seqZ 1 1023).

Inductive preg : Type := RPrio (irq : Z) | REnable (ctx word : Z) | RThresh (ctx : Z) | RClaim (ctx : Z) | RNone.
Definition decode (a : Z) : preg :=
  let off := a - PLIC in
  if (0 <=? off) && (off <? 4096) then RPrio (off / 4)
  else if (8192 <=? off) && (off <? 2097152) then REnable ((off - 8192) / 128) ((off - 8192) mod 128 / 4)
  else if (2097152 <=? off) && (off <? 67108864) then
    if (off - 2097152) mod 4096 =? 0 then RThresh ((off - 2097152) / 4096)
    else if (off - 2097152) mod 4096 =? 4 then RClaim ((off - 2097152) / 4096) else RNone
  else RNone.

(** 32-bit accesses *)
Definition plic_write (a v : Z) : M plic unit := mmodify (fun s =>
  match decode a with
  | RPrio irq => s <| p_prio ::= <[irq := v]> |>
  | REnable ctx w => s <| p_enable ::= <[(ctx, w) := v]> |>
  | RThresh ctx => s <| p_thresh ::= <[ctx := v]> |>
  | RClaim ctx => if enabled s ctx v && bool_decide (v ∈ p_busy s) then forward v (s <| p_busy ::= fun l => l ∖ {[v]} |>) else s
  | RNone => s
  end).
Definition plic_read (a : Z) : M plic Z :=
  let* s := mget in
  match decode a with
  | RPrio irq => mret (prio s irq)
  | REnable ctx w => mret (default 0 (p_enable s !! (ctx, w)))
  | RThresh ctx => mret (default 0 (p_thresh s !! ctx))
  | RClaim ctx =>
      let irq := best s ctx in
      (if irq =? 0 then mret tt
       else mmodify (fun s => s <| p_pend ::= fun l => l ∖ {[irq]} |> <| p_busy ::= fun l => {[irq]} ∪ l |>)) ;;;
      mret irq
  | RNone => mret 0
  end.

(** ** The driver *)
Definition PLIC_SENABLE (hart : Z) : Z := PLIC + 8320 + hart * 256.
Definition PLIC_SPRIORITY (hart : Z) : Z := PLIC + 2101248 + hart * 8192.
Definition PLIC_SCLAIM (hart : Z) : Z := PLIC + 2101252 + hart * 8192.

Definition plicinit : M plic unit :=
  plic_write (PLIC + UART0_IRQ * 4) 1 ;;;
  plic_write (PLIC + VIRTIO0_IRQ * 4) 1.
Definition plicinithart (hart : nat) : M plic unit :=
  plic_write (PLIC_SENABLE (Z.of_nat hart)) (Z.lor (Z.shiftl 1 UART0_IRQ) (Z.shiftl 1 VIRTIO0_IRQ)) ;;;
  plic_write (PLIC_SPRIORITY (Z.of_nat hart)) 0.
Definition plic_claim (hart : nat) : M plic Z := plic_read (PLIC_SCLAIM (Z.of_nat hart)).
Definition plic_complete (hart : nat) (irq : Z) : M plic unit := plic_write (PLIC_SCLAIM (Z.of_nat hart)) (u32 irq).

(** ** Claims *)
Lemma best_fold s ctx l b :
  let r := foldl (fun b irq => if candidate s ctx irq && (prio s b <? prio s irq) then irq else b) b l in
  prio s b <= prio s r /\ (r = b \/ (r ∈ l /\ candidate s ctx r = true)) /\
  forall i, i ∈ l -> candidate s ctx i = true -> prio s i <= prio s r.
Proof.
  revert b. induction l as [|i l IH]; intros b; simpl.
  { split; [lia|]. split; [by left|]. intros i Hi. by apply not_elem_of_nil in Hi. }
  destruct (IH (if candidate s ctx i && (prio s b <? prio s i) then i else b)) as (H1 & H2 & H3).
  set (b' := if candidate s ctx i && (prio s b <? prio s i) then i else b) in *.
  assert (prio s b <= prio s b' /\ (b' = b \/ (b' = i /\ candidate s ctx i = true)) /\
    (candidate s ctx i = true -> prio s i <= prio s b')) as (B1 & B2 & B3).
  { subst b'. clear. destruct (candidate s ctx i); simpl; [destruct (Z.ltb_spec (prio s b) (prio s i))|].
    - split; [lia|]. split; [by right|lia].
    - split; [lia|]. split; [by left|lia].
    - split; [lia|]. split; [by left|discriminate]. }
  split; [lia|]. split.
  - destruct H2 as [-> |[H2 H2']]; [|right; split; [by right|done]].
    destruct B2 as [-> |[-> B2]]; [by left|right]. split; [by left|done].
  - intros j [->|Hj]%elem_of_cons Hc; [specialize (B3 Hc); lia|by apply H3].
Qed.

Lemma best_spec s ctx :
  prio s 0 = 0 ->
  (best s ctx = 0 -> forall i, 1 <= i <= 1023 -> candidate s ctx i = false) /\
  (best s ctx <> 0 -> candidate s ctx (best s ctx) = true).
Proof.
  intros H0. unfold best. destruct (best_fold s ctx (seqZ 1 1023) 0) as (H1 & H2 & H3).
  set (r := foldl _ _ _) in *. clearbody r. split.
  - intros Hb i Hi. destruct (candidate s ctx i) eqn:E; [|done].
    assert (prio s i <= prio s r) as Hle by (apply H3; [apply elem_of_seqZ; lia|done]). rewrite Hb, H0 in Hle.
    unfold candidate in E. apply andb_prop in E as [_ E]. apply Z.ltb_lt in E. lia.
  - intros Hb. by destruct H2 as [H2|[_ H2]].
Qed.

(** ** The controller and the harts that serve interrupts

    [ps_hand] is the interrupt each hart serves, 0 for none: devintr() claims
    one and completes it when the device's handler is done.  Devices assert
    and clear their lines at any time. *)
Record psys : Type := mkPsys { ps_dev : plic; ps_hand : list Z }.
Definition device_irq (irq : Z) : Prop := irq = UART0_IRQ \/ irq = VIRTIO0_IRQ.

Inductive pstep : psys -> psys -> Prop :=
| ps_assert d hs irq : device_irq irq -> pstep (mkPsys d hs) (mkPsys (assert_line irq d) hs)
| ps_clear d hs irq : device_irq irq -> pstep (mkPsys d hs) (mkPsys (clear_line irq d) hs)
| ps_claim d hs h irq d' :
    hs !! h = Some 0 -> plic_claim h d = Ok (irq, d') -> pstep (mkPsys d hs) (mkPsys d' (<[h := irq]> hs))
| ps_complete d hs h irq d' :
    hs !! h = Some irq -> irq <> 0 -> plic_complete h irq d = Ok (tt, d') ->
    pstep (mkPsys d hs) (mkPsys d' (<[h := 0]> hs)).

Definition irq_word : Z := Z.lor (Z.shiftl 1 UART0_IRQ) (Z.shiftl 1 VIRTIO0_IRQ).

(** The configuration the driver sets up. *)
Record configured (d : plic) : Prop := {
  cf_prio : p_prio d = <[VIRTIO0_IRQ := 1]> {[ UART0_IRQ := 1 ]};
  cf_enable h : (h < NCPU)%nat -> p_enable d !! (2 * Z.of_nat h + 1, 0) = Some irq_word;
  cf_thresh h : (h < NCPU)%nat -> p_thresh d !! (2 * Z.of_nat h + 1) = Some 0
}.

Record pinv (s : psys) : Prop := {
  pi_conf : configured (ps_dev s);
  pi_len : length (ps_hand s) = NCPU;
  pi_pend irq : irq ∈ p_pend (ps_dev s) -> device_irq irq /\ irq ∉ p_busy (ps_dev s);
  pi_busy irq : irq ∈ p_busy (ps_dev s) <-> irq <> 0 /\ exists h, ps_hand s !! h = Some irq;
  pi_hand h irq : ps_hand s !! h = Some irq -> irq = 0 \/ device_irq irq;
  pi_one h h' irq : irq <> 0 -> ps_hand s !! h = Some irq -> ps_hand s !! h' = Some irq -> h = h';
  pi_line irq : irq ∈ p_line (ps_dev s) -> device_irq irq /\ (irq ∈ p_pend (ps_dev s) \/ irq ∈ p_busy (ps_dev s))
}.

(** The registers' addresses name the supervisor context of the hart. *)
Lemma decode_claim h : (h < NCPU)%nat -> decode (PLIC_SCLAIM (Z.of_nat h)) = RClaim (2 * Z.of_nat h + 1).
Proof.
  intros Hh. unfold NCPU in Hh. assert (h < 8)%nat as Hh' by lia.
  do 8 (destruct h as [|h]; [reflexivity|]). lia.
Qed.
Lemma decode_enable h : (h < NCPU)%nat -> decode (PLIC_SENABLE (Z.of_nat h)) = REnable (2 * Z.of_nat h + 1) 0.
Proof. intros Hh. unfold NCPU in Hh. do 8 (destruct h as [|h]; [reflexivity|]). lia. Qed.
Lemma decode_thresh h : (h < NCPU)%nat -> decode (PLIC_SPRIORITY (Z.of_nat h)) = RThresh (2 * Z.of_nat h + 1).
Proof. intros Hh. unfold NCPU in Hh. do 8 (destruct h as [|h]; [reflexivity|]). lia. Qed.

Lemma device_facts d h irq :
  configured d -> (h < NCPU)%nat -> device_irq irq ->
  enabled d (2 * Z.of_nat h + 1) irq = true /\ prio d irq = 1 /\ 1 <= irq <= 1023 /\ irq <> 0.
Proof.
  intros [H1 H2 _] Hh Hi. unfold enabled, prio. rewrite H1.
  destruct Hi as [->| ->]; change (UART0_IRQ / 32) with 0; change (VIRTIO0_IRQ / 32) with 0; rewrite (H2 h Hh);
    split_and!; try done; unfold UART0_IRQ, VIRTIO0_IRQ; lia.
Qed.
Lemma candidate_device d h irq :
  configured d -> (h < NCPU)%nat -> device_irq irq ->
  candidate d (2 * Z.of_nat h + 1) irq = bool_decide (irq ∈ p_pend d).
Proof.
  intros Hc Hh Hi. destruct (device_facts d h irq Hc Hh Hi) as (E1 & E2 & _). unfold candidate. rewrite E1, E2.
  by rewrite !andb_true_r.
Qed.

Definition plic0 : plic := mkPlic ∅ ∅ ∅ ∅ ∅ ∅.
Definition plic_boot : M plic unit := plicinit ;;; for_each (seq 0 NCPU) plicinithart.

Definition plic_up : plic :=
  mkPlic ∅ ∅ ∅ (<[VIRTIO0_IRQ := 1]> {[ UART0_IRQ := 1 ]})
    (list_to_map ((fun h => ((2 * Z.of_nat h + 1, 0), irq_word)) <$> seq 0 NCPU))
    (list_to_map ((fun h => (2 * Z.of_nat h + 1, 0)) <$> seq 0 NCPU)).

Lemma plic_boot_run : plic_boot plic0 = Ok (tt, plic_up).
Proof. vm_compute. reflexivity. Qed.

Lemma plic_boot_ok : pinv (mkPsys plic_up (replicate NCPU 0)).
Proof.
  split; cbn [ps_dev ps_hand].
  - split; [reflexivity|..]; intros h Hh; unfold NCPU in Hh; do 8 (destruct h as [|h]; [reflexivity|]); lia.
  - reflexivity.
  - intros irq H. by apply elem_of_empty in H.
  - intros irq. split; [intros H; by apply elem_of_empty in H|]. intros [Hz (h & Hh)].
    by apply lookup_replicate in Hh as [-> _].
  - intros h irq Hh. apply lookup_replicate in Hh as [-> _]. by left.
  - intros h h' irq Hz Hh. by apply lookup_replicate in Hh as [-> _].
  - intros irq H. by apply elem_of_empty in H.
Qed.

Lemma forward_same irq d :
  p_prio (forward irq d) = p_prio d /\ p_enable (forward irq d) = p_enable d /\ p_thresh (forward irq d) = p_thresh d /\
  p_line (forward irq d) = p_line d /\ p_busy (forward irq d) = p_busy d /\
  forall i, i ∈ p_pend (forward irq d) <-> i ∈ p_pend d \/ (i = irq /\ irq ∈ p_line d /\ irq ∉ p_busy d).
Proof.
  unfold forward. case_bool_decide; simpl; [case_bool_decide; simpl|]; split_and!; try done; intros i; set_solver.
Qed.

Lemma configured_ext d d' :
  configured d -> p_prio d' = p_prio d -> p_enable d' = p_enable d -> p_thresh d' = p_thresh d -> configured d'.
Proof. intros [H1 H2 H3] E1 E2 E3. split; rewrite ?E1, ?E2, ?E3; done. Qed.

(** What a claim does. *)
Lemma plic_claim_ok d h :
  configured d -> (h < NCPU)%nat -> (forall i, i ∈ p_pend d -> device_irq i) ->
  exists irq d', plic_claim h d = Ok (irq, d') /\
    if decide (irq = 0) then d' = d /\ p_pend d = ∅
    else irq ∈ p_pend d /\ d' = d <| p_pend ::= fun l => l ∖ {[irq]} |> <| p_busy ::= fun l => {[irq]} ∪ l |>.
Proof.
  intros Hc Hh Hp. unfold plic_claim, plic_read. rewrite decode_claim, mbind_get by done.
  assert (prio d 0 = 0) as Hz by (unfold prio; by rewrite (cf_prio _ Hc)).
  destruct (best_spec d (2 * Z.of_nat h + 1) Hz) as [B1 B2].
  set (b := best d (2 * Z.of_nat h + 1)) in *. clearbody b. destruct (decide (b = 0)) as [->|Hb].
  - exists 0, d. split; [done|]. rewrite decide_True by done. split; [done|].
    apply elem_of_equiv_empty_L. intros i Hi. destruct (device_facts d h i Hc Hh (Hp i Hi)) as (_ & _ & Hr & _).
    specialize (B1 eq_refl i Hr). rewrite candidate_device in B1 by auto. by apply bool_decide_eq_false in B1.
  - eexists b, _. rewrite (proj2 (Z.eqb_neq _ _)) by done. split; [reflexivity|]. rewrite decide_False by done.
    split; [|done]. specialize (B2 Hb). unfold candidate in B2. apply andb_prop in B2 as [B2 _].
    apply andb_prop in B2 as [B2 _]. by apply bool_decide_eq_true in B2.
Qed.

(** What a completion does. *)
Lemma plic_complete_ok d h irq :
  configured d -> (h < NCPU)%nat -> device_irq irq -> irq ∈ p_busy d ->
  plic_complete h irq d = Ok (tt, forward irq (d <| p_busy ::= fun l => l ∖ {[irq]} |>)).
Proof.
  intros Hc Hh Hi Hb. unfold plic_complete, plic_write, mmodify. rewrite decode_claim by done.
  assert (u32 irq = irq) as -> by (destruct Hi as [->| ->]; done).
  destruct (device_facts d h irq Hc Hh Hi) as [-> _]. by rewrite bool_decide_eq_true_2.
Qed.

Lemma pstep_inv s s' : pinv s -> pstep s s' -> pinv s'.
Proof.
  intros [C L P B H O N] Hs. destruct Hs as [d hs irq Hi|d hs irq Hi|d hs h irq d' Hh Hc|d hs h irq d' Hh Hz Hc];
    cbn [ps_dev ps_hand] in *.
  - destruct (forward_same irq (d <| p_line ::= fun l => {[irq]} ∪ l |>)) as (F1 & F2 & F3 & F4 & F5 & F6).
    unfold assert_line. split; cbn [ps_dev ps_hand]; rewrite ?F4, ?F5; try done.
    + by apply (configured_ext d).
    + intros i [Hi'|(-> & _ & Hn)]%F6; [by apply P|done].
    + intros i Hl. rewrite F6. simpl in *. apply elem_of_union in Hl as [->%elem_of_singleton|Hl].
      * split; [done|]. destruct (decide (irq ∈ p_busy d)); [by right|left; right]. split_and!; [done|set_solver -|done].
      * destruct (N i Hl) as [N1 [N2|N2]]; auto.
  - unfold clear_line. split; cbn [ps_dev ps_hand p_line p_pend p_busy]; try done.
    + by apply (configured_ext d).
    + simpl. intros i [Hl _]%elem_of_difference. by apply N.
  - pose proof (lookup_lt_Some _ _ _ Hh) as Hlt. rewrite L in Hlt.
    destruct (plic_claim_ok d h C Hlt) as (r & d1 & H1 & H2); [intros i Hi; by apply P|].
    rewrite Hc in H1. apply Ok_pair_inj in H1 as [<- <-]. clear Hc. destruct (decide (irq = 0)) as [->|Hz].
    { destruct H2 as [-> _]. rewrite list_insert_id by done. by split. }
    destruct H2 as [Hp ->]. destruct (P irq Hp) as [Hi Hnb].
    assert (forall h', hs !! h' <> Some irq) as Hno by (intros h' Hh'; apply Hnb, B; eauto).
    split; cbn [ps_dev ps_hand]; simpl.
    + by apply (configured_ext d).
    + by rewrite length_insert.
    + intros i [Hi' Hne%not_elem_of_singleton]%elem_of_difference. destruct (P i Hi') as [? ?]. split; [done|].
      by rewrite not_elem_of_union, not_elem_of_singleton.
    + intros i. rewrite elem_of_union, elem_of_singleton, B. split.
      * intros [->|[Hiz (h' & Hh')]]; [split; [done|]; exists h; apply list_lookup_insert_eq; lia|].
        split; [done|]. exists h'. rewrite list_lookup_insert_ne; [done|]. intros <-. congruence.
      * intros [Hiz (h' & Hh')]. apply list_lookup_insert_Some in Hh' as [(_ & <- & _)|[_ Hh']]; [by left|right; eauto].
    + intros h' i Hh'. apply list_lookup_insert_Some in Hh' as [(_ & <- & _)|[_ Hh']]; [by right|by eapply H].
    + intros h1 h2 i Hiz H1 H2. apply list_lookup_insert_Some in H1 as [(<- & <- & _)|[Hn1 H1]];
        apply list_lookup_insert_Some in H2 as [(<- & ? & _)|[Hn2 H2]]; subst; try done.
      * by destruct (Hno h2).
      * by destruct (Hno h1).
      * by eapply O.
    + intros i Hl. destruct (N i Hl) as [N1 N2]. split; [done|]. destruct (decide (i = irq)) as [->|Hne]; [right; set_solver -|].
      clear -N2 Hne. set_solver.
  - pose proof (lookup_lt_Some _ _ _ Hh) as Hlt. rewrite L in Hlt.
    destruct (H h irq Hh) as [?|Hi]; [done|]. assert (irq ∈ p_busy d) as Hb by (apply B; eauto).
    rewrite (plic_complete_ok d h irq C Hlt Hi Hb) in Hc. apply Ok_pair_inj in Hc as [_ <-].
    destruct (forward_same irq (d <| p_busy ::= fun l => l ∖ {[irq]} |>)) as (F1 & F2 & F3 & F4 & F5 & F6).
    split; cbn [ps_dev ps_hand]; rewrite ?F4, ?F5.
    + by apply (configured_ext d).
    + by rewrite length_insert.
    + intros i. rewrite F6. simpl. intros [Hp|(-> & _ & Hn)]; [|done]. destruct (P i Hp) as [P1 P2]. split; [done|]. clear -P2. set_solver.
    + intros i. simpl. rewrite elem_of_difference, B, not_elem_of_singleton. split.
      * intros [[Hiz (h' & Hh')] Hne]. split; [done|]. exists h'. rewrite list_lookup_insert_ne; [done|]. intros <-. congruence.
      * intros [Hiz (h' & Hh')]. apply list_lookup_insert_Some in Hh' as [(_ & <- & _)|[Hn Hh']]; [done|].
        split; [eauto|]. intros ->. by apply Hn, (O h h' irq).
    + intros h' i Hh'. apply list_lookup_insert_Some in Hh' as [(_ & <- & _)|[_ Hh']]; [by left|by eapply H].
    + intros h1 h2 i Hiz H1 H2. apply list_lookup_insert_Some in H1 as [(<- & <- & _)|[Hn1 H1]]; [done|].
      apply list_lookup_insert_Some in H2 as [(<- & <- & _)|[Hn2 H2]]; [done|]. by eapply O.
    + intros i Hl. rewrite F6. simpl in *. destruct (N i Hl) as [N1 N2]. split; [done|].
      destruct (decide (i = irq)) as [->|]; [left; right; split_and!; [done|done|set_solver -]|].
      destruct N2 as [N2|N2]; [by left; left|right]. by rewrite elem_of_difference, not_elem_of_singleton.
Qed.

(** ** Theorem *)

(** C29: once the controller is set up, however the devices assert and clear
    their lines and in whatever order the harts claim and complete, no two
    harts serve the same interrupt; no interrupt is lost: a line that is
    asserted is pending or being served; and while one is pending every hart is
    signalled and its claim returns a pending interrupt, and otherwise 0. *)
Theorem plic_exact d s :
  plic_boot plic0 = Ok (tt, d) -> rtc pstep (mkPsys d (replicate NCPU 0)) s ->
  (forall h h' irq, irq <> 0 -> ps_hand s !! h = Some irq -> ps_hand s !! h' = Some irq -> h = h') /\
  (forall irq, irq ∈ p_line (ps_dev s) -> irq ∈ p_pend (ps_dev s) \/ exists h, ps_hand s !! h = Some irq) /\
  (forall h, (h < NCPU)%nat ->
    exists irq d', plic_claim h (ps_dev s) = Ok (irq, d') /\
      if decide (p_pend (ps_dev s) = ∅) then irq = 0 /\ d' = ps_dev s
      else device_irq irq /\ irq ∈ p_pend (ps_dev s) /\ irq ∉ p_pend d' /\ (forall h', ps_hand s !! h' <> Some irq) /\
        signalled (ps_dev s) (2 * Z.of_nat h + 1) = true).
Proof.
  intros Hb Hr. rewrite plic_boot_run in Hb. apply Ok_pair_inj in Hb as [_ <-]. pose proof plic_boot_ok as H2.
  assert (pinv s) as [C L P B H O N].
  { revert H2. induction Hr as [s|s1 s2 s3 Hs _ IH]; intros H2; [done|]. apply IH. by eapply pstep_inv. }
  split; [done|]. split.
  - intros irq Hl. destruct (N irq Hl) as [_ [Hp|Hp]]; [by left|right]. by apply B in Hp as [_ Hp].
  - intros h Hh. destruct (plic_claim_ok (ps_dev s) h C Hh) as (irq & d' & H3 & H4); [intros i Hi; by apply P|].
    exists irq, d'. split; [exact H3|]. clear H3. destruct (decide (irq = 0)) as [->|Hz].
    { destruct H4 as [-> H4]. by rewrite decide_True. }
    destruct H4 as [Hp ->]. rewrite decide_False by (intros E; rewrite E in Hp; by apply elem_of_empty in Hp).
    destruct (P irq Hp) as [Hi Hnb]. split; [done|]. split; [done|]. simpl.
    split; [by intros [_ []%not_elem_of_singleton]%elem_of_difference|].
    split; [intros h' Hh'; apply Hnb, B; eauto|].
    destruct (device_facts (ps_dev s) h irq C Hh Hi) as (_ & E2 & E3 & _).
    unfold signalled. apply existsb_exists. exists irq. split; [apply list_elem_of_In, elem_of_seqZ; lia|].
    rewrite (candidate_device (ps_dev s) h irq C Hh Hi), bool_decide_eq_true_2 by done.
    by rewrite (cf_thresh _ C h Hh), E2.
Qed.

(** The serial port asserts its line; hart 1 claims it; the line stays up. *)
Lemma plic_exact_witness :
  exists s, rtc pstep (mkPsys plic_up (replicate NCPU 0)) s /\ ps_hand s !! 1%nat = Some UART0_IRQ /\
    (UART0_IRQ ∈ p_pend (ps_dev s) \/ exists h, ps_hand s !! h = Some UART0_IRQ).
Proof.
  destruct (plic_claim 1 (assert_line UART0_IRQ plic_up)) as [[irq d']| | | |] eqn:E; try (vm_compute in E; discriminate E).
  assert (irq = UART0_IRQ /\ bool_decide (UART0_IRQ ∈ p_line d') = true) as [-> Hl].
  { revert E. vm_compute. intros E. split; [congruence|]. injection E as _ <-. vm_compute. reflexivity. }
  assert (rtc pstep (mkPsys plic_up (replicate NCPU 0)) (mkPsys d' (<[1%nat := UART0_IRQ]> (replicate NCPU 0)))) as Hr.
  { eapply rtc_l; [by apply ps_assert; left|]. apply rtc_once. apply ps_claim; [reflexivity|exact E]. }
  clear E. exists (mkPsys d' (<[1%nat := UART0_IRQ]> (replicate NCPU 0))). split; [exact Hr|]. split; [reflexivity|].
  destruct (plic_exact plic_up _ plic_boot_run Hr) as (_ & H & _). apply H.
  by apply bool_decide_eq_true in Hl.
Defined.
