(* ===== verification/BootMem.v ===== *)
(** * Memory at boot

    What the initialisation code keeps: it leaves a hart as it was, with no
    process, no lock held and interrupts off.  The kernel's page table and the
    free pages while the rest of the kernel is initialised, and the address
    space of the first process. *)
From stdpp Require Import base list strings gmap.
From Stdlib Require Import ZArith Lia.
From S2P Require Import Prelude Spinlock CString Riscv Kalloc KState Vm VmTree VmMap KvmSpec.

(** ** The hart *)
Definition cpu_boot (c : cpu) : Prop := cpu_proc c = None /\ noff c = 0 /\ sie c = false.
Definition cpu_held (c : cpu) : Prop := cpu_proc c = None /\ noff c = 1 /\ sie c = false /\ intena c = false.
Lemma cpu_boot_wf c : cpu_boot c -> cpu_wf c.
Proof. intros (_ & H1 & H2). split; [lia|done]. Qed.
Lemma cpu_boot_cycle c : cpu_boot c -> cpu_boot (lockcycle c).
Proof. destruct c as [p n i s]. intros (H1 & H2 & H3). simpl in *. subst. done. Qed.
#[export] Hint Resolve cpu_boot_wf cpu_boot_cycle : kernel.

(** What an operation on memory does to the CPU *)
Definition on_cpu {A} (P Q : cpu -> Prop) (op : M vmst A) : Prop :=
  forall s a s', P (vm_cpu s) -> op s = Ok (a, s') -> Q (vm_cpu s').
Notation boot_safe := (on_cpu cpu_boot cpu_boot).

Lemma oc_ret {A} P (a : A) : on_cpu P P (mret a).
Proof. intros s b s' Hc H. by apply Ok_pair_inj in H as [_ <-]. Qed.
Lemma oc_panic {A} P Q msg : on_cpu (A := A) P Q (mpanic msg).
Proof. by intros s b s' Hc H. Qed.
Lemma oc_bind {A B} P R Q (m : M vmst A) (k : A -> M vmst B) :
  on_cpu P R m -> (forall a, on_cpu R Q (k a)) -> on_cpu P Q (mbind m k).
Proof. intros Hm Hk s b s' Hc H. apply mbind_Ok_inv in H as (a & s1 & H1 & H2). eapply Hk; [|exact H2]. by eapply Hm. Qed.
Lemma oc_reads {A} P (f : vmst -> A) : on_cpu P P (mreads f).
Proof. intros s b s' Hc H. by apply Ok_pair_inj in H as [_ <-]. Qed.
Lemma oc_modify P (f : vmst -> vmst) : (forall s, vm_cpu (f s) = vm_cpu s) -> on_cpu P P (mmodify f).
Proof. intros Hf s b s' Hc H. apply Ok_pair_inj in H as [_ <-]. by rewrite Hf. Qed.
Lemma oc_if {A} P Q (c : bool) (m1 m2 : M vmst A) : on_cpu P Q m1 -> on_cpu P Q m2 -> on_cpu P Q (if c then m1 else m2).
Proof. by destruct c. Qed.
Lemma oc_mloop {A B} P fuel (body : A -> M vmst (A + B)) a : (forall a, on_cpu P P (body a)) -> on_cpu P P (mloop fuel body a).
Proof.
  intros Hb. revert a. induction fuel as [|n IH]; intros a; cbn [mloop]; [by intros s b s' Hc H|].
  eapply oc_bind; [done|]. intros [x|x]; [apply IH|apply oc_ret].
Qed.
Lemma oc_for_each {A} P (l : list A) body : (forall a, on_cpu P P (body a)) -> on_cpu P P (for_each l body).
Proof. intros Hb. induction l as [|x l IH]; simpl; [apply oc_ret|]. by eapply oc_bind. Qed.
Lemma oc_acquire : on_cpu cpu_boot cpu_held acquire_kmem.
Proof.
  intros s a s' (C1 & C2 & C3) H. unfold acquire_kmem, acquire in H.
  destruct (holding _ _); [done|]. destruct (locked _ =? 0); [|done]. apply Ok_pair_inj in H as [_ <-].
  destruct (vm_cpu s) as [p n i b]. simpl in *. by subst.
Qed.
Lemma oc_release : on_cpu cpu_held cpu_boot release_kmem.
Proof.
  intros s a s' (C1 & C2 & C3 & C4) H. unfold release_kmem, release in H. destruct (negb _); [done|].
  destruct (vm_cpu s) as [p n i b]. simpl in *. subst. simpl in H. apply Ok_pair_inj in H as [_ <-]. done.
Qed.
Create HintDb cpu.
#[export] Hint Resolve oc_ret oc_panic oc_reads oc_modify oc_if oc_mloop oc_for_each oc_acquire oc_release : cpu.

(** One construct of a routine at a time. *)
Ltac on_cpu_step :=
  match goal with
  | |- on_cpu _ _ (if _ then _ else _) => apply oc_if
  | |- on_cpu _ _ (mloop _ _ _) => apply oc_mloop; intros ?
  | |- on_cpu _ _ (for_each _ _) => apply oc_for_each; intros ?
  | |- on_cpu _ _ (mmodify _) => apply oc_modify; intros ?; reflexivity
  | |- on_cpu _ _ (match ?x with (_, _) => _ end) => destruct x
  | |- on_cpu _ _ (let '(_, _) := ?x in _) => destruct x
  | |- on_cpu _ _ (mbind _ _) => eapply oc_bind; [solve [eauto with cpu] || on_cpu_step|intros ?]
  | |- _ => solve [eauto with cpu]
  end.

Section Ops.
Context (kend etext trampoline : Z).

Lemma oc_kalloc : boot_safe kalloc.
Proof. unfold kalloc. repeat on_cpu_step. Qed.
Lemma oc_kfree pa : boot_safe (kfree kend pa).
Proof. unfold kfree. repeat on_cpu_step. Qed.
#[local] Hint Resolve oc_kalloc oc_kfree : cpu.
Lemma oc_kinit : boot_safe (kinit kend).
Proof. unfold kinit, freerange. repeat on_cpu_step. Qed.
Lemma oc_fill a c : boot_safe (fill a c).
Proof. unfold fill. repeat on_cpu_step. Qed.
Lemma oc_walk_levels levels pt va alloc : boot_safe (walk_levels levels pt va alloc).
Proof.
  revert pt. induction levels as [|l levels IH]; intros pt; cbn [walk_levels]; [apply oc_ret|].
  unfold load, store_word, fill. repeat on_cpu_step; apply IH.
Qed.
#[local] Hint Resolve oc_fill oc_walk_levels : cpu.
Lemma oc_mappages pt va size pa perm : boot_safe (mappages pt va size pa perm).
Proof. unfold mappages, walk, load, store_word. repeat on_cpu_step. Qed.
#[local] Hint Resolve oc_mappages : cpu.
Lemma oc_kvmmap pt va pa size perm : boot_safe (kvmmap pt va pa size perm).
Proof. unfold kvmmap. repeat on_cpu_step. Qed.
#[local] Hint Resolve oc_kvmmap : cpu.
Lemma oc_kvmmake : boot_safe (kvmmake etext trampoline).
Proof. unfold kvmmake, proc_mapstacks. repeat on_cpu_step. Qed.
Lemma oc_uvmcreate : boot_safe uvmcreate.
Proof. unfold uvmcreate. repeat on_cpu_step. Qed.
End Ops.

(** ** The memory *)
Section BootMem.
Context (kend etext trampoline : Z) (Himg : image_ok kend etext trampoline).

Lemma kend_pos : 0 < kend.
Proof. destruct Himg as [(? & _ & ? & _) _]. unfold KERNBASE in *. lia. Qed.
Let Hk : 0 < kend := kend_pos.

(** The kernel's page table at [root] with the stacks [stacks]; of the pages
    [pages] those of [used] are in use for something else and [free] are free. *)
Record kernel_mem (pages : list Z) (s : vmst) (root : Z) (stacks used free : list Z) : Prop := {
  kn_space : exists T L, as_ok kend s root T L free /\ tpages T ++ used ++ free ≡ₚ pages /\
    forall va, 0 <= va < MAXVA -> L !! vpath va = leaf (kernel_map etext trampoline stacks) va;
  kn_stacks : length stacks = NPROC /\ Forall (page kend) stacks /\ stacks ⊆ used;
  kn_nodup : NoDup pages
}.

Lemma kvmmake_mem s free :
  kmem_ok kend s free -> (167 <= length free)%nat ->
  exists root s' stacks free', kvmmake etext trampoline s = Ok (root, s') /\
    kernel_mem free s' root stacks stacks free' /\ (length free <= length free' + 166)%nat /\ cpu_wf (vm_cpu s').
Proof.
  intros Hf Hroom. destruct (kvmmake_ok kend etext trampoline Hk Himg s free Hf Hroom)
    as (root & s' & st & T & f' & H1 & Hst & Hpg & [(L & Has & HL) Hpa Hperm]).
  exists root, s', st, f'. split; [done|]. split; [|split].
  - split; [by exists T, L|done|apply Hf].
  - pose proof (few_tables kpaths T Hpa) as Hfew. change (length kpaths) with 102%nat in Hfew. apply Permutation_length in Hperm. rewrite !length_app in Hperm. unfold NPROC in *. lia.
  - apply Has.
Qed.

(** The state of the CPU does not matter to memory. *)
Lemma kernel_mem_cpu pages s root stacks used free c h :
  cpu_wf c -> kernel_mem pages s root stacks used free -> kernel_mem pages (s <| vm_cpu := c |> <| vm_hart := h |>) root stacks used free.
Proof.
  intros Hc [(T & L & [[H1 H2 H3 H4 H5] H6 H7 H8 H9] & Hp & HL) Hs Hn]. split; [|done|done].
  exists T, L. split; [|done]. by split; [split|..].
Qed.
Lemma kernel_mem_free pages s root stacks used free : kernel_mem pages s root stacks used free -> kmem_ok kend s free.
Proof. by intros [(T & L & [H _] & _) _ _]. Qed.

Lemma kernel_mem_kalloc pages s root stacks used a free :
  kernel_mem pages s root stacks used (a :: free) ->
  exists s', kalloc s = Ok (a, s') /\ kernel_mem pages s' root stacks (a :: used) free /\ page kend a /\ a <> 0.
Proof.
  intros [(T & L & Has & Hp & HL) (S1 & S2 & S3) Hn].
  destruct (kalloc_as kend Hk s root T L _ Has) as (s1 & H1 & Has1 & _ & _ & Ha & Hz & _). cbn [hd tail] in *.
  exists s1. split; [done|]. split; [|done]. split; [|split; [done|split; [done|]]|done].
  - exists T, L. split; [done|]. split; [|done]. rewrite <- Hp. by rewrite (Permutation_middle used free a).
  - intros x Hx. right. by apply S3.
Qed.

Lemma kernel_mem_fill pages s root stacks used free a c :
  kernel_mem pages s root stacks used free -> a ∈ used -> page kend a ->
  exists s', fill a c s = Ok (tt, s') /\ kernel_mem pages s' root stacks used free.
Proof.
  intros [(T & L & Has & Hp & HL) Hs Hn] Hin Ha.
  destruct (fill_as kend s root T L free a c Has) as (s1 & H1 & Has1 & _); [apply Ha| |].
  - rewrite <- Hp in Hn. apply NoDup_app in Hn as (_ & N1 & N2). apply NoDup_app in N2 as (_ & N2 & _).
    intros [Hx|Hx]%elem_of_app; [apply (N1 a Hx), elem_of_app; by left|by apply (N2 a Hin)].
  - exists s1. split; [done|]. split; [by exists T, L|done|done].
Qed.

(** Another address space in the same memory, built from free pages. *)
Lemma kernel_mem_frame pages s s' root stacks used free root' T' L' free' new :
  kernel_mem pages s root stacks used free -> as_ok kend s' root' T' L' free' ->
  keeps free (ram s) (ram s') -> new ++ free' ≡ₚ free ->
  kernel_mem pages s' root stacks (new ++ used) free'.
Proof.
  intros [(T & L & [K1 K2 K3 K4 K5] & Hp & HL) (S1 & S2 & S3) Hn] Has' Hkeep Hperm. split; [|split; [done|split; [done|]]|done].
  - exists T, L. split; [split|].
    + apply Has'.
    + apply (tree_keeps kend free (ram s)); try done. apply (free_pages_aligned kend s free K1).
    + done.
    + done.
    + intros π p Hπ Hin. apply (K5 π p Hπ). rewrite <- Hperm. apply elem_of_app. by right.
    + split; [|done]. rewrite <- Hp, <- Hperm. by rewrite (Permutation_app_comm new used), <- !app_assoc.
  - intros x Hx. apply elem_of_app. right. by apply S3.
Qed.

(** ** The first address space: proc_pagetable() *)
Definition upaths : list (list Z) := [[]; [255]; [255; 511]].
(** The trampoline page, and below it the trap frame. *)
Definition user_regions (tf : Z) : list region :=
  [mkRegion TRAPFRAME tf PGSIZE RW; mkRegion TRAMPOLINE trampoline PGSIZE RX].
Definition user_space (s : vmst) (pt tf : Z) (tables : list Z) : Prop :=
  exists T L free, as_ok kend s pt T L free /\ tpages T = tables /\
    forall va, 0 <= va < MAXVA -> L !! vpath va = leaf (user_regions tf) va.

Lemma upath_top va : MAXVA - 2097152 <= va < MAXVA -> under upaths va.
Proof. intros H. change MAXVA with 274877906944 in H. apply (under_intro _ 255 511); [lia|lia|lia|set_solver..]. Qed.

Lemma first_space pages s root stacks used free tf :
  kernel_mem pages s root stacks used free -> (5 <= length free)%nat -> page kend tf ->
  exists pt s1 s2 s3 tables free', uvmcreate s = Ok (pt, s1) /\ pt <> 0 /\
    mappages pt TRAMPOLINE PGSIZE trampoline (Z.lor PTE_R PTE_X) s1 = Ok (0, s2) /\
    mappages pt TRAPFRAME PGSIZE tf (Z.lor PTE_R PTE_W) s2 = Ok (0, s3) /\
    user_space s3 pt tf tables /\ kernel_mem pages s3 root stacks (tables ++ used) free' /\ pt ∈ tables /\ cpu_wf (vm_cpu s3).
Proof.
  intros Hm Hroom Htf. pose proof (kernel_mem_free _ _ _ _ _ _ Hm) as Hf.
  destruct free as [|a free]; [simpl in Hroom; lia|].
  destruct (first_table kend Hk s a free Hf) as (s0 & s1 & H0 & H1 & Hsb & B1). specialize (B1 upaths ltac:(by left)).
  assert (a <> 0) as Haz.
  { pose proof (km_pages _ _ _ Hf) as [Ha _]%Forall_cons. by apply (page_nonzero kend Hk). }
  pose proof Himg as [(I1 & I2 & I3 & I4) (J1 & J2 & J3)]. destruct Htf as [T1 T2].
  assert (region_ok (mkRegion TRAMPOLINE trampoline PGSIZE RX)) as G1.
  { apply (region_page _ _ _ 0); try done; unfold PHYSTOP, KERNBASE, PGSIZE in *; lia. }
  assert (region_ok (mkRegion TRAPFRAME tf PGSIZE RW)) as G2.
  { apply (region_page _ _ _ 0); try done; unfold PHYSTOP, KERNBASE, PGSIZE in *; lia. }
  destruct (map_region_ok kend Hk upaths _ _ _ _ _ _ _ _ B1 G1) as (s2 & T2' & f2 & H2 & B2 & K2 & P2);
    [|simpl in *; lia|].
  { intros va Hva%inside_spec. cbn [r_va r_size] in Hva. split; [|done]. apply upath_top.
    unfold TRAMPOLINE, PGSIZE in *. lia. }
  destruct (map_region_ok kend Hk upaths _ _ _ _ _ _ _ _ B2 G2) as (s3 & T3 & f3 & H3 & B3 & K3 & P3);
    [|simpl in *; lia|].
  { intros va Hva%inside_spec. cbn [r_va r_size] in Hva. unfold TRAPFRAME, TRAMPOLINE, PGSIZE in *.
    change MAXVA with 274877906944 in *. split; [apply upath_top; change MAXVA with 274877906944; lia|].
    apply region_at_cons_None; [|done]. cbn [r_va r_size]. unfold TRAMPOLINE, PGSIZE. change MAXVA with 274877906944. lia. }
  destruct B3 as [(L & Has & HL) Hp3 Hpg]. exists a, s1, s2, s3, (tpages T3), f3.
  assert (tpages T3 ++ f3 ≡ₚ a :: free) as Hperm by exact Hpg.
  split; [|split; [done|split; [done|split; [done|split; [|split; [|split]]]]]].
  - unfold uvmcreate. rewrite (mbind_Ok _ _ _ _ _ H0), (proj2 (Z.eqb_neq _ _)) by done. by rewrite (mbind_Ok _ _ _ _ _ H1).
  - exists T3, L, f3. split; [done|]. split; [done|exact HL].
  - eapply kernel_mem_frame; [exact Hm|exact Has| |done].
    assert (tpages {[ [] := a ]} ++ free = a :: free) as E0 by (unfold tpages; by rewrite map_to_list_singleton).
    rewrite E0 in K2, P2. eapply keeps_trans; [apply (keeps_same_but a); [exact Hsb|by left]|].
    eapply keeps_trans; [exact K2|]. by eapply keeps_perm; [|exact K3].
  - apply elem_tpages. exists []. apply Has.
  - apply Has.
Qed.
End BootMem.
