(* ===== verification/Boot.v ===== *)
(** * Boot (kernel/start.c, kernel/main.c)

    The whole machine: every hart with its registers, and the state of each
    part of the kernel.  start() sets up the registers of a hart in machine
    mode; main() calls the initialisation of the parts, which are those of the
    other files, on hart 0, while the other harts wait for [started].  One
    step is one call of main(), so that the harts interleave at calls.

    The memory and the file system are the layers below the process table
    ([ProcEnv]).  At boot one hart at a time is in the kernel and no process
    runs, so that the copies these layers have of struct cpu agree. *)
From stdpp Require Import base list strings gmap.
From Stdlib Require Import ZArith Lia.
From S2P Require Import Prelude Spinlock CString Riscv Kalloc FsState Bio Log Fs Pipe File Printf Console Uart Virtio Vm KState Sched Proc Trap Plic.

(** ** A hart *)
Inductive priv : Type := PrivU | PrivS | PrivM.
#[global] Instance priv_eq_dec : EqDecision priv.
Proof. solve_decision. Defined.

Record mregs : Type := mkMregs {
  mstatus : Z; mepc : Z; medeleg : Z; mideleg : Z; sie_reg : Z; pmpaddr0 : Z; pmpcfg0 : Z;
  menvcfg : Z; mcounteren : Z; mtime : Z; mhartid : Z
}.
#[global] Instance eta_mregs : Eta mregs := fun r =>
  mkMregs (mstatus r) (mepc r) (medeleg r) (mideleg r) (sie_reg r) (pmpaddr0 r) (pmpcfg0 r) (menvcfg r) (mcounteren r)
    (mtime r) (mhartid r).

(** The calls of main() *)
Inductive call : Type :=
| Consoleinit | Printkinit | Printk (fmt : string) (hart : bool) | Kinit | Kvminit | Kvminithart | Procinit
| Trapinit | Trapinithart | Plicinit | Plicinithart | Binit | Iinit | Fileinit | VirtioDiskInit | Userinit
| StoreStarted | WaitStarted.

(** What a hart has to do: the rest of main() is followed by scheduler(). *)
Inductive place : Type := AtStart | AtMain (rest : list call).

Record hart : Type := mkHart {
  h_m : mregs; h_csr : csrs; h_tp : Z; h_priv : priv; h_pc : Z; h_cpu : cpu; h_at : place
}.
#[global] Instance eta_hart : Eta hart := fun h =>
  mkHart (h_m h) (h_csr h) (h_tp h) (h_priv h) (h_pc h) (h_cpu h) (h_at h).

(** ** start() *)
Definition MSTATUS_MPP_MASK : Z := Z.shiftl 3 11.
Definition MSTATUS_MPP_S : Z := Z.shiftl 1 11.
Definition SIE_SEIE : Z := Z.shiftl 1 9.
Definition SIE_STIE : Z := Z.shiftl 1 5.
Definition MENVCFG_STCE : Z := Z.shiftl 1 63.
Definition MENVCFG_ADUE : Z := Z.shiftl 1 61.

Definition w_m (f : mregs -> mregs) : M hart unit := mmodify (fun h => h <| h_m ::= f |>).
Definition w_csr (f : csrs -> csrs) : M hart unit := mmodify (fun h => h <| h_csr ::= f |>).
Definition r_m (f : mregs -> Z) : M hart Z := mreads (fun h => f (h_m h)).
Definition r_mhartid : M hart Z := r_m mhartid.
Definition r_mstatus : M hart Z := r_m mstatus.
Definition w_mstatus (x : Z) : M hart unit := w_m (fun r => r <| mstatus := x |>).
Definition w_mepc (x : Z) : M hart unit := w_m (fun r => r <| mepc := x |>).
Definition w_medeleg (x : Z) : M hart unit := w_m (fun r => r <| medeleg := x |>).
Definition w_mideleg (x : Z) : M hart unit := w_m (fun r => r <| mideleg := x |>).
Definition r_sie : M hart Z := r_m sie_reg.
Definition w_sie (x : Z) : M hart unit := w_m (fun r => r <| sie_reg := x |>).
Definition w_pmpaddr0 (x : Z) : M hart unit := w_m (fun r => r <| pmpaddr0 := x |>).
Definition w_pmpcfg0 (x : Z) : M hart unit := w_m (fun r => r <| pmpcfg0 := x |>).
Definition r_menvcfg : M hart Z := r_m menvcfg.
Definition w_menvcfg (x : Z) : M hart unit := w_m (fun r => r <| menvcfg := x |>).
Definition r_mcounteren : M hart Z := r_m mcounteren.
Definition w_mcounteren (x : Z) : M hart unit := w_m (fun r => r <| mcounteren := x |>).
Definition r_time : M hart Z := r_m mtime.
Definition w_stimecmp (x : Z) : M hart unit := w_csr (fun c => c <| stimecmp := x |>).
Definition w_satp (x : Z) : M hart unit := w_csr (fun c => c <| satp := x |>).
Definition r_tp : M hart Z := mreads h_tp.
Definition w_tp (x : Z) : M hart unit := mmodify (fun h => h <| h_tp := x |>).

Definition timerinit : M hart unit :=
  let* e := r_menvcfg in
  w_menvcfg (Z.lor e MENVCFG_STCE) ;;;
  let* c := r_mcounteren in
  w_mcounteren (Z.lor c 2) ;;;
  let* t := r_time in
  w_stimecmp (u64 (t + 1000000)).

(** The instruction mret: to the mode of mstatus.MPP at mepc, with
    mstatus.MIE from mstatus.MPIE. *)
Definition mret_status (x : Z) : Z :=
  let mpie := Z.land (Z.shiftr x 7) 1 in
  let x := Z.land x (u64 (Z.lnot (Z.lor MSTATUS_MPP_MASK (Z.shiftl 1 3)))) in
  Z.lor (Z.lor x (Z.shiftl mpie 3)) (Z.shiftl 1 7).
Definition mpp (x : Z) : Z := Z.land (Z.shiftr x 11) 3.
Definition mret_insn : M hart unit := mmodify (fun h =>
  h <| h_priv := if mpp (mstatus (h_m h)) =? 0 then PrivU else if mpp (mstatus (h_m h)) =? 1 then PrivS else PrivM |>
    <| h_pc := mepc (h_m h) |> <| h_m ::= fun r => r <| mstatus ::= mret_status |> |>).

Section Start.
Variable main_addr : Z.
Definition start : M hart unit :=
  let* x := r_mstatus in
  let x := Z.land x (u64 (Z.lnot MSTATUS_MPP_MASK)) in
  let x := Z.lor x MSTATUS_MPP_S in
  w_mstatus x ;;;
  w_mepc main_addr ;;;
  w_satp 0 ;;;
  w_medeleg 65535 ;;;
  w_mideleg 65535 ;;;
  let* e := r_sie in
  w_sie (Z.lor (Z.lor e SIE_SEIE) SIE_STIE) ;;;
  w_pmpaddr0 18014398509481983 ;;;
  w_pmpcfg0 15 ;;;
  let* e := r_menvcfg in
  w_menvcfg (Z.lor e MENVCFG_ADUE) ;;;
  timerinit ;;;
  let* id := r_mhartid in
  w_tp (u64 (i32 id)) ;;;
  mret_insn.
End Start.

(** ** The layers below the process table *)
Record lower (F : Type) : Type := mkLower { low_vm : vmst; low_fs : fsst F }.
Arguments mkLower {F}. Arguments low_vm {F}. Arguments low_fs {F}.
#[global] Instance eta_lower {F} : Eta (lower F) := fun e => mkLower (low_vm e) (low_fs e).

Section Lower.
Context {F : Type} `{Fs.FsEnv F} `{Pipe.PipeEnv F} `{File.DevEnv F}.
(** Linker addresses, and a buffer in kernel memory for what copyout() and
    copyin() move. *)
Variables (kend etext trampoline forkret_at kbuf : Z).

Definition on_low_vm {A} (op : M vmst A) : M (lower F) A := fun e =>
  obind (op (low_vm e)) (fun r => Ok (fst r, e <| low_vm := snd r |>)).
Definition on_low_fs {A} (op : M (fsst F) A) : M (lower F) A := fun e =>
  obind (op (low_fs e)) (fun r => Ok (fst r, e <| low_fs := snd r |>)).
Definition put_bytes (a : Z) (l : list Z) : M vmst unit := mmodify (fun s => s <| ram ::= fun m => store_bytes m a l |>).
Definition get_bytes (a n : Z) : M vmst (list Z) := mreads (fun s => bytes_at (ram s) a (Z.to_nat n)).

(** A file or an inode is its position in its table plus one, 0 for none. *)
Definition nth_of (x : Z) : nat := Z.to_nat (x - 1).
Definition slot_addr (i : nat) : Z := Z.of_nat i + 1.

Definition lower_env : ProcEnv (lower F) := {|
  Proc.env_kalloc := on_low_vm Kalloc.kalloc;
  Proc.env_kfree := fun pa => on_low_vm (Kalloc.kfree kend pa);
  env_uvmcreate := on_low_vm uvmcreate;
  env_mappages := fun pt va size pa perm => on_low_vm (mappages pt va size pa perm);
  env_uvmunmap := fun pt va n f => on_low_vm (uvmunmap kend pt va n f);
  env_uvmfree := fun pt size => on_low_vm (uvmfree kend pt size);
  env_uvmcopy := fun old new size => on_low_vm (uvmcopy kend old new size);
  env_uvmalloc := fun pt old new perm => on_low_vm (uvmalloc kend pt old new perm);
  env_uvmdealloc := fun pt old new => on_low_vm (uvmdealloc kend pt old new);
  Proc.env_copyout := fun pt size dst l =>
    on_low_vm (put_bytes kbuf l ;;; Vm.copyout kend pt size dst kbuf (Z.of_nat (length l)));
  Proc.env_copyin := fun pt size src n =>
    on_low_vm (let* r := Vm.copyin kend pt size kbuf src n in let* l := get_bytes kbuf n in mret (r, l));
  env_kwrite := fun a l => on_low_vm (put_bytes a l);
  env_kread := fun a n => on_low_vm (get_bytes a n);
  env_filedup := fun f => on_low_fs (let* f := filedup (nth_of f) in mret (slot_addr f));
  env_fileclose := fun f => on_low_fs (fileclose (nth_of f));
  env_idup := fun i => on_low_fs (let* i := Fs.idup (nth_of i) in mret (slot_addr i));
  env_iput := fun i => on_low_fs (Fs.iput (nth_of i));
  env_namei_root := on_low_fs (let* r := Fs.namei [47] in mret (match r with Some i => slot_addr i | None => 0 end));
  env_begin_op := on_low_fs begin_op;
  env_end_op := on_low_fs end_op;
  forkret_addr := forkret_at;
  trampoline_addr := trampoline
|}.
End Lower.

(** ** The machine *)
Definition CONSOLE : Z := 1.
Record machine (F : Type) : Type := mkMachine {
  m_harts : list hart;
  m_k : kst (lower F);             (* processes, scheduler, memory, file system *)
  m_tickslock : spinlock;
  m_pr : spinlock;                 (* pr.lock of printk() *)
  m_out : list Z;                  (* what printk() has written *)
  m_cons : cons_t;
  m_devsw : gset Z;                (* the majors with functions in devsw[] *)
  m_uart : list (Z * Z);           (* the registers of the serial port written so far *)
  m_plic : plic;
  m_vregs : list (Z * Z);          (* those of the disk, latest first *)
  m_disk : option vst;             (* the disk driver, once initialised *)
  m_kpt : Z;                       (* kernel_pagetable *)
  m_started : Z
}.
Arguments mkMachine {F}. Arguments m_harts {F}. Arguments m_k {F}. Arguments m_tickslock {F}. Arguments m_pr {F}.
Arguments m_out {F}. Arguments m_cons {F}. Arguments m_devsw {F}. Arguments m_uart {F}. Arguments m_plic {F}.
Arguments m_vregs {F}. Arguments m_disk {F}. Arguments m_kpt {F}. Arguments m_started {F}.
#[global] Instance eta_machine {F} : Eta (machine F) := fun m =>
  mkMachine (m_harts m) (m_k m) (m_tickslock m) (m_pr m) (m_out m) (m_cons m) (m_devsw m) (m_uart m) (m_plic m)
    (m_vregs m) (m_disk m) (m_kpt m) (m_started m).

(** main(), up to the call of scheduler() *)
Definition main (cpuid : Z) : list call :=
  if cpuid =? 0 then
    [Consoleinit; Printkinit; Printk "
" false; Printk "xv6 kernel is booting
" false; Printk "
" false; Kinit; Kvminit; Kvminithart; Procinit; Trapinit; Trapinithart; Plicinit; Plicinithart; Binit; Iinit; Fileinit;
     VirtioDiskInit; Userinit; StoreStarted]
  else [WaitStarted; Printk "hart %d starting
" true; Kvminithart; Trapinithart; Plicinithart].

Section Machine.
Context {F : Type} `{Fs.FsEnv F} `{Pipe.PipeEnv F} `{File.DevEnv F} {I : Interference} {TE : TrapEnv (lower F)}.
Variables (main_addr kend etext trampoline forkret_at kbuf : Z).
(** The answers of the disk's registers; the buffers and the disk of the driver. *)
Variables (rd : list (Z * Z) -> Z -> Z) (vbufs : gmap Z vbuf) (vdisk : gmap Z (list Z)).
#[local] Instance machine_env : ProcEnv (lower F) := lower_env kend trampoline forkret_at kbuf.
Notation machine := (machine F).

Definition on_hart {A} (h : nat) (op : M hart A) : M machine A := fun m =>
  match m_harts m !! h with
  | Some x => obind (op x) (fun r => Ok (fst r, m <| m_harts ::= <[h := snd r]> |>))
  | None => UB
  end.
(** An operation of hart [h], on its struct cpu. *)
Definition on_k {A} (h : nat) (op : M (kst (lower F)) A) : M machine A := fun m =>
  match m_harts m !! h with
  | Some x =>
      obind (op ((m_k m) <| mycpu := h_cpu x |> <| hartid := h |>)) (fun r =>
        Ok (fst r, m <| m_k := snd r |> <| m_harts ::= <[h := x <| h_cpu := mycpu (snd r) |>]> |>))
  | None => UB
  end.
Definition on_vm {A} (h : nat) (op : M vmst A) : M machine A :=
  on_k h (fun k =>
    obind (op ((low_vm (env k)) <| vm_cpu := mycpu k |> <| vm_hart := hartid k |>)) (fun r =>
      Ok (fst r, k <| mycpu := vm_cpu (snd r) |> <| env ::= fun e => e <| low_vm := snd r |> |>))).
Definition on_fs {A} (h : nat) (op : M (fsst F) A) : M machine A :=
  on_k h (fun k =>
    obind (op ((low_fs (env k)) <| fs_cpu := mycpu k |> <| fs_hart := hartid k |>)) (fun r =>
      Ok (fst r, k <| mycpu := fs_cpu (snd r) |> <| env ::= fun e => e <| low_fs := snd r |> |>))).
Definition on_trap {A} (h : nat) (op : M (tst (lower F)) A) : M machine A := fun m =>
  match m_harts m !! h with
  | Some x =>
      obind (op (mkTst ((m_k m) <| mycpu := h_cpu x |> <| hartid := h |>) (h_csr x) (m_tickslock m))) (fun r =>
        Ok (fst r, m <| m_k := tk (snd r) |> <| m_tickslock := tickslock (snd r) |>
          <| m_harts ::= <[h := x <| h_cpu := mycpu (tk (snd r)) |> <| h_csr := csr (snd r) |>]> |>))
  | None => UB
  end.
Definition on_plic {A} (op : M plic A) : M machine A := fun m =>
  obind (op (m_plic m)) (fun r => Ok (fst r, m <| m_plic := snd r |>)).

(** printk() with its lock, which is taken unless the kernel panics. *)
Definition printk (h : nat) (fmt : string) (args : list va) : M machine unit := fun m =>
  match m_harts m !! h with
  | Some x =>
      obind (acquire h (h_cpu x) (m_pr m)) (fun r =>
      obind (Printf.printk kdigits (bytes fmt) args) (fun out =>
      obind (release h (fst r) (snd r)) (fun r =>
        Ok (tt, m <| m_pr := snd r |> <| m_out ::= fun o => o ++ out |> <| m_harts ::= <[h := x <| h_cpu := fst r |>]> |>))))
  | None => UB
  end.
Definition printkinit : M machine unit := mmodify (fun m => m <| m_pr := initlock "pr" |>).
Definition consoleinit : M machine unit :=
  mmodify (fun m => m <| m_cons ::= fun c => c <| c_lock := initlock "cons" |> |>) ;;;
  mmodify (fun m => m <| m_uart ::= fun w => w ++ uartinit |>) ;;;
  mmodify (fun m => m <| m_devsw ::= fun d => {[CONSOLE]} ∪ d |>).

Definition kvminit (h : nat) : M machine unit :=
  let* pt := on_vm h (kvmmake etext trampoline) in
  mmodify (fun m => m <| m_kpt := pt |>).
Definition kvminithart (h : nat) : M machine unit :=
  let* pt := mreads m_kpt in
  on_hart h (w_satp (MAKE_SATP pt)).

(** The three pages of the queue, and the driver of [Virtio]. *)
Definition queue_page (h : nat) : M machine Z := on_vm h kalloc.
Definition virtio_disk_init (h : nat) : M machine unit :=
  let* desc := queue_page h in
  let* avail := queue_page h in
  let* used := queue_page h in
  let* d := (fun m => obind (Virtio.virtio_disk_init rd (desc, avail, used) vbufs vdisk (m_vregs m))
                        (fun r => Ok (fst r, m <| m_vregs := snd r |>))) in
  on_vm h (fill desc 0 ;;; fill avail 0 ;;; fill used 0) ;;;
  mmodify (fun m => m <| m_disk := Some d |>).

Definition run_call (h : nat) (c : call) : M machine unit :=
  match c with
  | Consoleinit => consoleinit
  | Printkinit => printkinit
  | Printk fmt hart => printk h fmt (if hart then [VInt (Z.of_nat h)] else [])
  | Kinit => on_vm h (kinit kend)
  | Kvminit => kvminit h
  | Kvminithart => kvminithart h
  | Procinit => on_k h procinit
  | Trapinit => on_trap h trapinit
  | Trapinithart => on_trap h trapinithart
  | Plicinit => on_plic plicinit
  | Plicinithart => on_plic (plicinithart h)
  | Binit => on_fs h binit
  | Iinit => on_fs h Fs.iinit
  | Fileinit => on_fs h fileinit
  | VirtioDiskInit => virtio_disk_init h
  | Userinit => on_k h userinit
  | StoreStarted => mmodify (fun m => m <| m_started := 1 |>)
  | WaitStarted => let* s := mreads m_started in if s =? 0 then mspin else mret tt
  end.

(** A hart runs start() and enters main(), or makes the next call of main(). *)
Definition hart_step (h : nat) : M machine unit :=
  let* x := (fun m => match m_harts m !! h with Some x => Ok (x, m) | None => UB end) in
  match h_at x with
  | AtStart =>
      on_hart h (start main_addr) ;;;
      let* pc := on_hart h (mreads h_pc) in
      let* tp := on_hart h r_tp in
      if pc =? main_addr then on_hart h (mmodify (fun x => x <| h_at := AtMain (main (i32 tp)) |>)) else mub
  | AtMain (c :: rest) =>
      run_call h c ;;;
      on_hart h (mmodify (fun x => x <| h_at := AtMain rest |>))
  | AtMain [] => mspin
  end.

(** The machine while it boots: [Spin] of a hart is waiting. *)
Inductive bstep : machine -> machine -> Prop :=
| bstep_hart h m m' : hart_step h m = Ok (tt, m') -> bstep m m'.

(** Where a hart has reached scheduler() *)
Definition in_scheduler (x : hart) : Prop := h_at x = AtMain [].
End Machine.
