(* ===== verification/BootProc.v ===== *)
(** * The first process

    procinit() on the zeroed process table, and userinit() over the memory and
    the file system of [Boot]. *)
From stdpp Require Import base list strings gmap.
From Stdlib Require Import ZArith Lia.
From S2P Require Import Prelude Spinlock CString Riscv Kalloc FsState Fs Pipe File Vm VmTree VmMap KvmSpec BootMem KState SchedScan Sched Proc ProcTable ProcLife Trap Boot.

#[local] Existing Instance quiet.

(** ** procinit() *)
Definition inited_proc (i : nat) : proc :=
  zero_proc <| lock := initlock "proc" |> <| state := UNUSED |> <| kstack := KSTACK (Z.of_nat i) |>.
Definition procs_up : list proc := inited_proc <$> seq 0 NPROC.
Definition kst_up {E} (k : kst E) : kst E :=
  k <| pid_lock := initlock "nextpid" |> <| wait_lock := initlock "wait_lock" |> <| procs := procs_up |>
    <| strategies := [Some rr_ptr; Some priority_ptr; Some mlfq_ptr] |>.

Lemma procinit_run {E} (e : E) c h :
  procinit ((boot_kst e h) <| mycpu := c |>) = Ok (tt, kst_up ((boot_kst e h) <| mycpu := c |>)).
Proof. vm_compute. reflexivity. Qed.

Lemma procs_up_lookup i p : procs_up !! i = Some p -> (i < NPROC)%nat /\ p = inited_proc i.
Proof.
  unfold procs_up. intros (j & -> & Hj)%list_lookup_fmap_Some. apply lookup_seq in Hj as [-> Hj]. done.
Qed.
Lemma procs_up_free : locks_free procs_up.
Proof. intros i p [_ ->]%procs_up_lookup. split; reflexivity. Qed.
Lemma kwf_up {E} (e : E) c h : (h < NCPU)%nat -> cpu_wf c -> kwf (kst_up ((boot_kst e h) <| mycpu := c |>)).
Proof. intros Hh Hc. destruct (kwf_boot e h Hh) as [H1 H2 H3 H4 H5 H6]. by split. Qed.

(** ** iinit() and the inode of the root directory *)
Definition zero_inode : inode :=
  {| i_dev := 0; i_inum := 0; i_ref := 0; i_lock := initsleeplock ""; i_valid := 0;
     i_dip := {| d_type := 0; d_major := 0; d_minor := 0; d_nlink := 0; d_size := 0; d_addrs := repeat 0 13 |} |}.
Definition inited_inode : inode := zero_inode <| i_lock := initsleeplock "inode" |>.
Definition root_inode : inode := inited_inode <| i_dev := ROOTDEV |> <| i_inum := ROOTINO |> <| i_ref := 1 |>.

Lemma iinit_run {F} `{FsEnv F} (s : fsst F) :
  iinit (s <| inodes := repeat zero_inode NINODE |>) =
  Ok (tt, s <| itable_lock := initlock "itable" |> <| inodes := repeat inited_inode NINODE |>).
Proof. destruct s. vm_compute. reflexivity. Qed.

Lemma iget_root_run {F} `{FsEnv F} (s : fsst F) :
  inodes s = repeat inited_inode NINODE -> itable_lock s = initlock "itable" -> cpu_wf (fs_cpu s) ->
  iget ROOTDEV ROOTINO s = Ok (0%nat, s <| fs_cpu := lockcycle (fs_cpu s) |> <| inodes := <[0%nat := root_inode]> (inodes s) |>).
Proof.
  destruct s as [c h pid cwd ofl bl bs d dw g sb il ins fl fs e]. cbn [inodes itable_lock fs_cpu]. intros -> Hl Hc.
  assert (lk_free il) as Hf by (rewrite Hl; by split). unfold iget, acquire_itable, with_lock.
  erewrite mbind_Ok; [|rewrite acquire_free by done; reflexivity]. rewrite mbind_reads. cbn [fst snd].
  match goal with |- match ?x with _ => _ end _ = _ => replace x with (@None nat) by (vm_compute; reflexivity) end.
  match goal with |- match ?x with _ => _ end _ = _ => replace x with (Some 0%nat) by (vm_compute; reflexivity) end.
  erewrite mbind_Ok; [|reflexivity]. unfold release_itable, with_lock. erewrite mbind_Ok.
  2:{ rewrite release_held by (split; reflexivity). cbn [fs_cpu]. simpl. rewrite pop_push_off by done. reflexivity. }
  destruct il as [a b o], Hf as [Hf1 Hf2]. simpl in *. by subst.
Qed.
Lemma namei_root_run {F} `{FsEnv F} (s : fsst F) :
  inodes s = repeat inited_inode NINODE -> itable_lock s = initlock "itable" -> cpu_wf (fs_cpu s) ->
  namei [47] s = Ok (Some 0%nat, s <| fs_cpu := lockcycle (fs_cpu s) |> <| inodes := <[0%nat := root_inode]> (inodes s) |>).
Proof.
  intros Hi Hl Hc. unfold namei, namex. rewrite mbind_assoc, mbind_reads. change (nth 0 [47] 0 =? SLASH) with true. cbv iota.
  rewrite mbind_assoc. rewrite (mbind_Ok _ _ _ _ _ (iget_root_run s Hi Hl Hc)). reflexivity.
Qed.

(** ** userinit() *)
Lemma lift_klocked_run {E A} (op : M E A) (k : kst E) i p r e' :
  op (env k) = Ok (r, e') -> Proc.lift_env op (klocked k i p) = Ok (r, klocked (k <| env := e' |>) i p).
Proof. intros H. unfold Proc.lift_env. change (env (klocked k i p)) with (env k). by rewrite H. Qed.

Lemma klocked_initproc {E} (k : kst E) i p x : (klocked k i p) <| initproc := x |> = klocked (k <| initproc := x |>) i p.
Proof. reflexivity. Qed.
Lemma klocked_tframes {E} (k : kst E) i p f : (klocked k i p) <| tframes ::= f |> = klocked (k <| tframes ::= f |>) i p.
Proof. reflexivity. Qed.

(** A field assignment to the locked entry. *)
Lemma modify_klocked {E A} (k : kst E) i p q f (K : unit -> M (kst E) A) :
  procs k !! i = Some q -> lock_frame f -> (forall p, lock (f p) = lock p) ->
  mbind (modify_proc i f) K (klocked k i p) = K tt (klocked k i (f p)).
Proof. intros Hq Hf Hl. by rewrite (mbind_Ok _ _ _ _ _ (modify_proc_klocked (I := quiet) k i p q f Hq Hf (Hl p))). Qed.
Ltac kset Hq := rewrite (modify_klocked _ _ _ _ _ _ Hq) by (first [intros ? ?; reflexivity | intros ?; reflexivity]).

Section Userinit.
Context {F : Type} {FE : FsEnv F} {PI : PipeEnv F} {DE : DevEnv F}.
Context (kend etext trampoline forkret_at kbuf : Z) (Himg : image_ok kend etext trampoline).
#[local] Instance boot_env : ProcEnv (lower F) := lower_env kend trampoline forkret_at kbuf.

(** The entry of the first process. *)
Definition first_proc (k : kst (lower F)) (tf pt : Z) : proc :=
  ready_proc (ticks k) ((fresh_proc k (inited_proc 0) tf pt) <| cwd := slot_addr 0 |> <| state := RUNNABLE |>).

Definition fs_up (s : fsst F) : Prop :=
  inodes s = repeat inited_inode NINODE /\ itable_lock s = initlock "itable" /\ cpu_wf (fs_cpu s).

Lemma allocproc_boot (k : kst (lower F)) e pages root stacks used free :
  kwf k -> procs k = procs_up -> nextpid k = 1 -> lk_free (pid_lock k) -> tframes k = ∅ -> env k = e ->
  kernel_mem kend etext trampoline pages (low_vm e) root stacks used free -> (6 <= length free)%nat ->
  exists k3 tf pt s4 tables free', allocproc k = Ok (Some 0%nat, klocked k3 0 (fresh_proc k (inited_proc 0) tf pt)) /\
    low_same k k3 /\ nextpid k3 = 2 /\ tframes k3 = {[ tf := junk_trapframe ]} /\ env k3 = e <| low_vm := s4 |> /\
    tf <> 0 /\ pt <> 0 /\ user_space kend trampoline s4 pt tf tables /\
    kernel_mem kend etext trampoline pages s4 root stacks (tables ++ tf :: used) free'.
Proof.
  intros Hk Hpr Hnx Hpl Htfs He Hm Hroom.
  assert (procs k !! 0%nat = Some (inited_proc 0)) as Hp by (by rewrite Hpr).
  assert (lk_free (lock (inited_proc 0))) as Hf by (split; reflexivity).
  unfold allocproc.
  change (seq 0 NPROC) with (0%nat :: seq 1 63). cbn [for_until].
  rewrite ?mbind_assoc.
  erewrite mbind_Ok; [|rewrite (alloc_scan_eq k 0 (inited_proc 0)) by (done || apply Hk); reflexivity].
  cbv beta iota. rewrite mbind_ret. unfold alloc_found. rewrite ?mbind_assoc.
  destruct (allocpid_klocked k 0 (inited_proc 0)) as (k1 & H1 & L1 & N1 & T1 & E1); [done|apply Hk|].
  rewrite (mbind_Ok _ _ _ _ _ H1).
  assert (procs k1 !! 0%nat = Some (inited_proc 0)) as Hp1 by (by rewrite (low_same_procs _ _ L1)).
  assert (env k1 = e) as E1' by (by rewrite E1, He).
  rewrite ?mbind_assoc. kset Hp1. rewrite ?mbind_assoc. kset Hp1. rewrite ?mbind_assoc.
  remember (proc_sched_init (ticks k) (current_sched_policy k) ((inited_proc 0) <| pid := nextpid k |> <| state := USED |>))
    as q0 eqn:Hq0. assert (lock q0 = lock (inited_proc 0)) as Hlq by (by rewrite Hq0).
  erewrite (mbind_Ok (sched_proc_init 0) _ _ tt (klocked k1 0 q0)).
  2:{ unfold sched_proc_init, sched_policy_current, mreads, mbind, obind. cbn [fst snd].
      rewrite (modify_proc_klocked (I := quiet) _ _ _ _ _ Hp1); [|by intros ? ?|done]. by rewrite Hq0, L1. }
  destruct free as [|tf free]; [simpl in Hroom; lia|].
  destruct (kernel_mem_kalloc kend etext trampoline Himg _ _ _ _ _ _ _ Hm) as (s1 & M1 & K1 & Htf & Htfz).
  unfold kalloc_trapframe. rewrite ?mbind_assoc.
  assert (forall (A : Type) (op : M vmst A) (kx : kst (lower F)) p r s', op (low_vm (env kx)) = Ok (r, s') ->
    Proc.lift_env (on_low_vm op) (klocked kx 0 p) = Ok (r, klocked (kx <| env := (env kx) <| low_vm := s' |> |>) 0 p)) as Hlift.
  { intros A op kx p r s' Hop. apply lift_klocked_run. unfold on_low_vm. by rewrite Hop. }
  change (Proc.env_kalloc) with (on_low_vm (F := F) Kalloc.kalloc).
  erewrite mbind_Ok; [|apply Hlift; rewrite E1'; exact M1]. cbv beta.
  rewrite (proj2 (Z.eqb_neq tf 0)) by done. rewrite ?mbind_assoc, mbind_modify, mbind_ret.
  rewrite klocked_tframes. set (k2 := (k1 <| env := (env k1) <| low_vm := s1 |> |>) <| tframes ::= <[tf := junk_trapframe]> |>).
  assert (procs k2 !! 0%nat = Some (inited_proc 0)) as Hp2 by exact Hp1.
  assert (low_same k k2) as L2 by (unfold low_same in *; unfold k2; rewrite L1; reflexivity).
  assert (nextpid k2 = 2 /\ tframes k2 = {[ tf := junk_trapframe ]} /\ env k2 = e <| low_vm := s1 |>) as (N2 & F2 & E2).
  { unfold k2. cbn [nextpid tframes env]. simpl. rewrite N1, T1, E1', Hnx, Htfs. done. }
  clearbody k2.
  rewrite ?mbind_assoc. kset Hp2. rewrite (proj2 (Z.eqb_neq tf 0)) by done. rewrite ?mbind_assoc.
  destruct (first_space kend etext trampoline Himg _ _ _ _ _ _ tf K1) as (pt & s2 & s3 & s4 & tables & free' & U1 & Hptz & U2 & U3 & U4 & U5 & _);
    [simpl in Hroom; lia|done|].
  unfold proc_pagetable. rewrite ?mbind_assoc.
  rewrite (mbind_Ok _ _ _ _ _ (read_proc_klocked (I := quiet) k2 0 _ _ Hp2)), ?mbind_assoc.
  erewrite (mbind_Ok (Proc.lift_env env_uvmcreate)); [|apply (Hlift _ uvmcreate k2); rewrite E2; exact U1].
  rewrite (proj2 (Z.eqb_neq pt 0)) by done. rewrite ?mbind_assoc.
  set (q1 := q0 <| trapframe_ptr := tf |>) in *.
  erewrite (mbind_Ok (Proc.lift_env (env_mappages pt TRAMPOLINE _ _ _))); [|eapply (Hlift _ _ _ q1); exact U2].
  change (0 <? 0) with false. cbv iota. rewrite ?mbind_assoc.
  erewrite (mbind_Ok (Proc.lift_env (env_mappages pt TRAPFRAME _ _ _))); [|eapply (Hlift _ _ _ q1); exact U3].
  change (0 <? 0) with false. cbv iota. rewrite mbind_ret.
  match goal with |- context [mbind _ _ (klocked ?x 0 _)] => set (k3 := x) end.
  assert (procs k3 !! 0%nat = Some (inited_proc 0)) as Hp3 by exact Hp2.
  assert (low_same k k3) as L3 by (unfold low_same in *; unfold k3; rewrite L2; reflexivity).
  assert (nextpid k3 = 2 /\ tframes k3 = {[ tf := junk_trapframe ]} /\ env k3 = e <| low_vm := s4 |>) as (N3 & F3 & E3).
  { unfold k3. cbn [nextpid tframes env]. simpl. rewrite N2, F2, E2. done. }
  clearbody k3.
  rewrite ?mbind_assoc. kset Hp3. rewrite (proj2 (Z.eqb_neq pt 0)) by done. rewrite ?mbind_assoc. kset Hp3.
  exists k3, tf, pt, s4, tables, free'. split; [unfold fresh_proc; rewrite <- Hq0; reflexivity|]. by split_and!.
Qed.

Lemma userinit_run (k : kst (lower F)) e c pages root stacks used free :
  kwf k -> procs k = procs_up -> nextpid k = 1 -> lk_free (pid_lock k) -> tframes k = ∅ -> env k = e -> mycpu k = c ->
  cpu_boot c -> kernel_mem kend etext trampoline pages (low_vm e) root stacks used free -> (6 <= length free)%nat ->
  fs_up (low_fs e) ->
  exists k' tf pt tables free', userinit k = Ok (tt, k') /\
    procs k' = <[0%nat := first_proc k tf pt]> procs_up /\ initproc k' = Some 0%nat /\ mycpu k' = lockcycle c /\
    hartid k' = hartid k /\ nextpid k' = 2 /\ wait_lock k' = wait_lock k /\ pid_lock k' = pid_lock k /\
    strategies k' = strategies k /\ current_sched_policy k' = current_sched_policy k /\
    tframes k' = {[ tf := junk_trapframe ]} /\ tf <> 0 /\ pt <> 0 /\
    user_space kend trampoline (low_vm (env k')) pt tf tables /\
    kernel_mem kend etext trampoline pages (low_vm (env k')) root stacks (tables ++ tf :: used) free' /\
    low_fs (env k') = (low_fs e) <| fs_cpu := lockcycle (fs_cpu (low_fs e)) |>
      <| inodes := <[0%nat := root_inode]> (repeat inited_inode NINODE) |>.
Proof.
  intros Hk Hpr Hnx Hpl Htfs He Hcpu Hc Hm Hroom (Fs1 & Fs2 & Fs3).
  destruct (allocproc_boot k e pages root stacks used free) as
    (k3 & tf & pt & s4 & tables & free' & H1 & L3 & N3 & F3 & E3 & Htfz & Hptz & U4 & U5); try done.
  unfold userinit. rewrite (mbind_Ok _ _ _ _ _ H1).
  assert (procs k3 !! 0%nat = Some (inited_proc 0)) as Hp3 by (by rewrite (low_same_procs _ _ L3), Hpr).
  rewrite mbind_modify. cbv beta iota.
  assert (lock (fresh_proc k (inited_proc 0) tf pt) = lock (inited_proc 0)) as Hl2 by reflexivity.
  rewrite klocked_initproc.
  set (k4 := k3 <| initproc := Some 0%nat |>).
  set (fs' := (low_fs e) <| fs_cpu := lockcycle (fs_cpu (low_fs e)) |> <| inodes := <[0%nat := root_inode]> (inodes (low_fs e)) |>).
  erewrite (mbind_Ok (Proc.lift_env env_namei_root) _ _ (slot_addr 0)).
  2:{ apply lift_klocked_run. change (env k4) with (env k3). rewrite E3. unfold env_namei_root, boot_env, lower_env, on_low_fs.
      cbn [low_fs]. rewrite (mbind_Ok _ _ _ _ _ (namei_root_run (low_fs e) Fs1 Fs2 Fs3)). reflexivity. }
  match goal with |- context [mbind _ _ (klocked ?x 0 _)] => set (k5 := x) end.
  assert (procs k5 !! 0%nat = Some (inited_proc 0)) as Hp5 by exact Hp3.
  kset Hp5. kset Hp5.
  rewrite (mbind_Ok _ _ _ _ _ (sched_proc_runnable_klocked (I := quiet) k5 0 _ _ Hp5)).
  set (q3 := ready_proc _ _).
  assert (ticks k5 = ticks k) as Ht5 by (unfold k5, k4; simpl; by rewrite L3).
  assert (mycpu k5 = c) as Hc5 by (unfold k5, k4; simpl; by rewrite L3).
  assert (q3 = first_proc k tf pt) as Hq3 by (unfold q3, first_proc; by rewrite Ht5).
  exists (kpass k5 0 q3), tf, pt, tables, free'.
  split; [apply (release_proc_klocked (I := quiet) k5 0 q3 _ Hp5); [by split|rewrite Hc5; auto with kernel]|].
  assert (procs k5 = procs_up) as Pk5 by (change (procs k3 = procs_up); by rewrite (low_same_procs _ _ L3)).
  assert (hartid k5 = hartid k /\ wait_lock k5 = wait_lock k /\ pid_lock k5 = pid_lock k /\ strategies k5 = strategies k /\
    current_sched_policy k5 = current_sched_policy k) as (A1 & A2 & A3 & A4 & A5).
  { unfold k5, k4. rewrite L3. done. }
  assert (nextpid k5 = 2 /\ tframes k5 = {[ tf := junk_trapframe ]} /\ low_vm (env k5) = s4) as (A6 & A7 & A8).
  { split; [exact N3|]. split; [exact F3|reflexivity]. }
  assert (low_fs (env k5) = fs') as A9 by reflexivity.
  rewrite <- Hq3. clearbody q3. change (low_vm (env (kpass k5 0 q3))) with (low_vm (env k5)). rewrite A8.
  split; [change (<[0%nat := q3]> (procs k5) = <[0%nat := q3]> procs_up); by rewrite Pk5|].
  split; [done|]. split; [change (lockcycle (mycpu k5) = lockcycle c); by rewrite Hc5|].
  split; [exact A1|]. split; [exact A6|]. split; [exact A2|]. split; [exact A3|]. split; [exact A4|]. split; [exact A5|].
  split; [exact A7|]. split; [done|]. split; [done|]. split; [exact U4|]. split; [exact U5|].
  change (low_fs (env (kpass k5 0 q3))) with (low_fs (env k5)). rewrite A9. unfold fs'. by rewrite Fs1.
Qed.
End Userinit.
