(* ===== verification/BootInv.v ===== *)
(** * What boot establishes

    The invariant of the machine while it boots: each part of the kernel is
    either as the loader left it or initialised, depending on the calls hart 0
    has still to make, and the registers of a hart are set up by the calls it
    has made. *)
From stdpp Require Import base list strings gmap.
From Stdlib Require Import ZArith Lia.
From S2P Require Import Prelude Spinlock CString Riscv Kalloc FsState Bio BioSpec BioOps Fs Pipe File Printf Console Uart Virtio VirtioRun Vm VmTree VmMap KvmSpec BootMem KState Sched Proc ProcTable ProcLife Trap Plic Boot BootProc.

#[local] Existing Instance quiet.

#[global] Instance call_eq_dec : EqDecision call.
Proof. solve_decision. Defined.
Definition todo (c : call) (r : list call) : bool := bool_decide (c ∈ r).

(** Replaces the conditions on the calls left by their values. *)
Ltac todo_eval :=
  repeat match goal with
  | |- context [todo ?c ?r] => let v := eval vm_compute in (todo c r) in change (todo c r) with v
  | H : context [todo ?c ?r] |- _ => let v := eval vm_compute in (todo c r) in change (todo c r) with v in H
  end; cbv iota in *.

(** ** start() *)
Record set_up (main_addr : Z) (h : nat) (x : hart) : Prop := {
  su_priv : h_priv x = PrivS;
  su_pc : h_pc x = main_addr;
  su_tp : h_tp x = Z.of_nat h;
  su_deleg : medeleg (h_m x) = 65535 /\ mideleg (h_m x) = 65535;
  su_sie : Z.testbit (sie_reg (h_m x)) 9 = true /\ Z.testbit (sie_reg (h_m x)) 5 = true;
  su_env : Z.testbit (menvcfg (h_m x)) 63 = true /\ Z.testbit (menvcfg (h_m x)) 61 = true;
  su_time : Z.testbit (mcounteren (h_m x)) 1 = true;
  su_pmp : pmpaddr0 (h_m x) = 2 ^ 54 - 1 /\ pmpcfg0 (h_m x) = 15
}.

Lemma mpp_supervisor x : mpp (Z.lor (Z.land x (u64 (Z.lnot MSTATUS_MPP_MASK))) MSTATUS_MPP_S) = 1.
Proof.
  unfold mpp. change 3 with (Z.ones 2). apply Z.bits_inj'. intros n Hn. rewrite Z.land_spec, Z.shiftr_spec, Z.lor_spec, Z.land_spec by done.
  destruct (decide (n = 0)) as [->|]; [vm_compute (Z.testbit (Z.ones 2) 0); change (Z.testbit MSTATUS_MPP_S (0 + 11)) with true; by rewrite orb_true_r|].
  destruct (decide (n = 1)) as [->|].
  - change (Z.testbit (u64 (Z.lnot MSTATUS_MPP_MASK)) (1 + 11)) with false. change (Z.testbit MSTATUS_MPP_S (1 + 11)) with false.
    by rewrite andb_false_r.
  - rewrite Z.ones_spec_high by lia. rewrite andb_false_r. symmetry. apply Z.bits_above_log2; [lia|]. simpl. lia.
Qed.

Lemma start_ok main_addr h x :
  mhartid (h_m x) = Z.of_nat h -> (h < NCPU)%nat ->
  exists x', start main_addr x = Ok (tt, x') /\ set_up main_addr h x' /\ h_cpu x' = h_cpu x /\
    satp (h_csr x') = 0 /\ stimecmp (h_csr x') = u64 (mtime (h_m x) + 1000000).
Proof.
  intros Hid Hh. unfold NCPU in Hh. destruct x as [m c tp pr pc cp at_]. destruct m as [a1 a2 a3 a4 a5 a6 a7 a8 a9 a10 a11].
  cbn [h_m mhartid] in Hid. subst a11. eexists.
  split; [cbv beta iota zeta delta [start timerinit mret_insn r_m w_m w_csr r_mhartid r_mstatus w_mstatus w_mepc w_medeleg w_mideleg r_sie w_sie w_pmpaddr0 w_pmpcfg0
    r_menvcfg w_menvcfg r_mcounteren w_mcounteren r_time w_stimecmp w_satp w_tp mreads mmodify mbind obind fst snd]; reflexivity|]. split; [|done].
  split; cbn [h_priv h_pc h_tp h_m medeleg mideleg sie_reg menvcfg mcounteren pmpaddr0 pmpcfg0].
  - simpl. by rewrite mpp_supervisor.
  - reflexivity.
  - change (u64 (i32 (Z.of_nat h)) = Z.of_nat h). unfold u64, i32. rewrite !(Z.mod_small (Z.of_nat h)) by lia.
    rewrite (proj2 (Z.ltb_lt _ _)) by lia. rewrite Z.mod_small by lia. done.
  - done.
  - change (Z.testbit (Z.lor (Z.lor a5 SIE_SEIE) SIE_STIE) 9 = true /\ Z.testbit (Z.lor (Z.lor a5 SIE_SEIE) SIE_STIE) 5 = true).
    rewrite !Z.lor_spec. change (Z.testbit SIE_SEIE 9) with true. change (Z.testbit SIE_STIE 5) with true.
    by rewrite !orb_true_r.
  - change (Z.testbit (Z.lor (Z.lor a8 MENVCFG_ADUE) MENVCFG_STCE) 63 = true /\ Z.testbit (Z.lor (Z.lor a8 MENVCFG_ADUE) MENVCFG_STCE) 61 = true).
    rewrite !Z.lor_spec. change (Z.testbit MENVCFG_STCE 63) with true. change (Z.testbit MENVCFG_ADUE 61) with true.
    by rewrite !orb_true_r.
  - change (Z.testbit (Z.lor a9 2) 1 = true). rewrite Z.lor_spec. change (Z.testbit 2 1) with true. apply orb_true_r.
  - done.
Qed.

(** ** The disk
    A virtio block device with a queue of at least NUM entries, by the
    registers written to it, latest first. *)
Record disk_device (rd : list (Z * Z) -> Z -> Z) : Prop := {
  dd_ids w : rd w VIRTIO_MMIO_MAGIC_VALUE = 1953655158 /\ rd w VIRTIO_MMIO_VERSION = 2 /\ rd w VIRTIO_MMIO_DEVICE_ID = 2 /\
    rd w VIRTIO_MMIO_VENDOR_ID = 1431127377;
  dd_features w : Z.land (rd ((VIRTIO_MMIO_STATUS, 11) :: w) VIRTIO_MMIO_STATUS) 8 <> 0;
  dd_ready w : VIRTIO_MMIO_QUEUE_READY ∉ w.*1 -> rd w VIRTIO_MMIO_QUEUE_READY = 0;
  dd_max w : Z.of_nat NUM <= rd w VIRTIO_MMIO_QUEUE_NUM_MAX
}.
Lemma rr_bind {A} rd r (k : Z -> M (list (Z * Z)) A) w : mbind (rr rd r) k w = k (rd w r) w.
Proof. reflexivity. Qed.
Lemma disk_inits rd p1 p2 p3 bufs disk : disk_device rd -> p1 <> 0 -> p2 <> 0 -> p3 <> 0 ->
  exists w, Virtio.virtio_disk_init rd (p1, p2, p3) bufs disk [] = Ok (VirtioRun.idle bufs disk, w).
Proof.
  intros [D1 D2 D3 D4] H1 H2 H3. eexists. unfold Virtio.virtio_disk_init, wr. rewrite !rr_bind.
  destruct (D1 []) as (-> & -> & -> & ->). rewrite !Z.eqb_refl. cbn [negb orb]. rewrite !mbind_modify, rr_bind, !mbind_modify, rr_bind.
  change (u32 11) with 11. rewrite (proj2 (Z.eqb_neq _ 0)) by apply D2.
  rewrite !mbind_modify, rr_bind, D3 by (cbn [fmap list_fmap fst]; set_solver).
  change (negb (0 =? 0)) with false. cbv iota. rewrite rr_bind.
  match goal with |- context [rd ?w VIRTIO_MMIO_QUEUE_NUM_MAX] => pose proof (D4 w) as Hm; set (mx := rd w VIRTIO_MMIO_QUEUE_NUM_MAX) in * end.
  change (Z.of_nat NUM) with 8 in *. rewrite (proj2 (Z.eqb_neq mx 0)), (proj2 (Z.ltb_ge mx 8)) by lia.
  rewrite (proj2 (Z.eqb_neq _ _) H1), (proj2 (Z.eqb_neq _ _) H2), (proj2 (Z.eqb_neq _ _) H3). reflexivity.
Qed.

Section Spec.
Context {F : Type} {FE : FsEnv F} {PI : PipeEnv F} {DE : DevEnv F} {TE : TrapEnv (lower F)}.
Context (main_addr kend etext trampoline forkret_at kbuf : Z) (Himg : image_ok kend etext trampoline).
Context (Hroom : (180 <= length (all_pages kend))%nat).
Context (rd : list (Z * Z) -> Z -> Z) (vbufs : gmap Z vbuf) (vdisk : gmap Z (list Z)).
Context (Hdev : disk_device rd).
#[local] Instance spec_env : ProcEnv (lower F) := lower_env kend trampoline forkret_at kbuf.
Notation machine := (machine F).
Notation run_call := (run_call kend etext trampoline forkret_at kbuf rd vbufs vdisk).
Notation hart_step := (hart_step main_addr kend etext trampoline forkret_at kbuf rd vbufs vdisk).
Notation bstep := (bstep main_addr kend etext trampoline forkret_at kbuf rd vbufs vdisk).

(** ** The parts, given the calls [r] hart 0 has still to make *)
Definition pages : list Z := reverse (all_pages kend).
Definition memory_up (vm : vmst) (kpt : Z) (n : nat) : Prop :=
  exists stacks used free, kernel_mem kend etext trampoline pages vm kpt stacks used free /\ (n <= length free)%nat.
Definition mem_stage (r : list call) (vm : vmst) (kpt : Z) : Prop :=
  if todo Kinit r then freelist vm = 0
  else if todo Kvminit r then kmem_ok kend vm pages
  else memory_up vm kpt (if todo VirtioDiskInit r then 9 else if todo Userinit r then 6 else 0).

(** The first process is ready to run: its trap frame and its page table. *)
Definition first_ready (k : kst (lower F)) : Prop :=
  exists tf pt tables p, procs k = <[0%nat := p]> procs_up /\ state p = RUNNABLE /\ pid p = 1 /\ lk_free (lock p) /\
    cwd p = slot_addr 0 /\ pagetable p = pt /\ trapframe_ptr p = tf /\ tframes k = {[ tf := junk_trapframe ]} /\
    ctx_ra (p_context p) = forkret_at /\ ctx_sp (p_context p) = KSTACK 0 + PGSIZE /\
    user_space kend trampoline (low_vm (env k)) pt tf tables /\ initproc k = Some 0%nat /\ nextpid k = 2.
Definition proc_stage (r : list call) (k : kst (lower F)) : Prop :=
  if todo Procinit r then exists c h, k = (boot_kst (env k) h) <| mycpu := c |>
  else if todo Userinit r then exists c h, k = kst_up ((boot_kst (env k) h) <| mycpu := c |>)
  else first_ready k /\ strategies_ready k /\ lk_free (pid_lock k) /\ lk_free (wait_lock k).
Definition fs_stage (r : list call) (s : fsst F) : Prop :=
  (if todo Binit r then bufs s = repeat zero_buf (S NBUF) else bufs s = boot_bufs /\ bcache_lock s = initlock "bcache") /\
  (if todo Iinit r then inodes s = repeat zero_inode NINODE
   else itable_lock s = initlock "itable" /\ cpu_wf (fs_cpu s) /\
     inodes s = if todo Userinit r then repeat inited_inode NINODE else <[0%nat := root_inode]> (repeat inited_inode NINODE)) /\
  (todo Fileinit r = false -> ftable_lock s = initlock "ftable").

Record shared (r : list call) (m : machine) : Prop := {
  sh_cons : if todo Consoleinit r then m_uart m = []
            else c_lock (m_cons m) = initlock "cons" /\ CONSOLE ∈ m_devsw m /\ m_uart m = uartinit;
  sh_pr : lk_free (m_pr m);
  sh_mem : mem_stage r (low_vm (env (m_k m))) (m_kpt m);
  sh_proc : proc_stage r (m_k m);
  sh_fs : fs_stage r (low_fs (env (m_k m)));
  sh_ticks : todo Trapinit r = false -> m_tickslock m = initlock "time";
  sh_plic : todo Plicinit r = false -> p_prio (m_plic m) = <[VIRTIO0_IRQ := 1]> {[ UART0_IRQ := 1 ]};
  sh_plic0 : todo Plicinit r = true -> p_prio (m_plic m) = ∅;
  sh_disk : if todo VirtioDiskInit r then m_vregs m = [] else m_disk m = Some (VirtioRun.idle vbufs vdisk);
  sh_started : m_started m = if todo StoreStarted r then 0 else 1
}.

(** What the interrupt controller has for a hart. *)
Definition plic_on (h : nat) (d : plic) : Prop :=
  p_enable d !! (2 * Z.of_nat h + 1, 0) = Some irq_word /\ p_thresh d !! (2 * Z.of_nat h + 1) = Some 0.

Record on_way (h : nat) (r : list call) (x : hart) (m : machine) : Prop := {
  ow_up : set_up main_addr h x;
  ow_rest : exists k, r = drop k (main (Z.of_nat h));
  ow_satp : todo Kvminithart r = false -> satp (h_csr x) = MAKE_SATP (m_kpt m);
  ow_stvec : todo Trapinithart r = false -> stvec (h_csr x) = kernelvec_addr;
  ow_plic : todo Plicinithart r = false -> plic_on h (m_plic m);
  ow_wait : h <> 0%nat -> todo WaitStarted r = false -> m_started m <> 0
}.
Definition hart_inv (h : nat) (x : hart) (m : machine) : Prop :=
  cpu_boot (h_cpu x) /\
  match h_at x with
  | AtStart => mhartid (h_m x) = Z.of_nat h
  | AtMain r => on_way h r x m
  end.
Definition left_of (h : nat) (x : hart) : list call :=
  match h_at x with AtStart => main (Z.of_nat h) | AtMain r => r end.
Record boot_inv (m : machine) : Prop := {
  bi_len : length (m_harts m) = NCPU;
  bi_hart h x : m_harts m !! h = Some x -> hart_inv h x m;
  bi_shared x : m_harts m !! 0%nat = Some x -> shared (left_of 0 x) m
}.

(** ** The calls of hart 0 *)

(** What a call does to its hart. *)
Definition hart_kept (c : call) (x x' : hart) (m' : machine) : Prop :=
  h_m x' = h_m x /\ h_tp x' = h_tp x /\ h_priv x' = h_priv x /\ h_pc x' = h_pc x /\ h_at x' = h_at x /\ cpu_boot (h_cpu x') /\
  satp (h_csr x') = (if bool_decide (c = Kvminithart) then MAKE_SATP (m_kpt m') else satp (h_csr x)) /\
  stvec (h_csr x') = (if bool_decide (c = Trapinithart) then kernelvec_addr else stvec (h_csr x)).
(** What it leaves to the other harts. *)
Definition call_post (h : nat) (c : call) (x : hart) (m m' : machine) : Prop :=
  exists x', m_harts m' = <[h := x']> (m_harts m) /\ hart_kept c x x' m' /\
    (c <> Kvminit -> m_kpt m' = m_kpt m) /\
    (forall h', plic_on h' (m_plic m) -> plic_on h' (m_plic m')) /\ (c = Plicinithart -> plic_on h (m_plic m')) /\
    (c <> StoreStarted -> m_started m' = m_started m).

(** *** Components *)
Lemma on_k_run {A} h x (op : M (kst (lower F)) A) (m : machine) r k' :
  m_harts m !! h = Some x -> op ((m_k m) <| mycpu := h_cpu x |> <| hartid := h |>) = Ok (r, k') ->
  on_k h op m = Ok (r, m <| m_k := k' |> <| m_harts ::= <[h := x <| h_cpu := mycpu k' |>]> |>).
Proof. intros Hx Hop. unfold on_k. by rewrite Hx, Hop. Qed.
Lemma on_vm_run {A} h x (op : M vmst A) (m : machine) r s' :
  m_harts m !! h = Some x -> op ((low_vm (env (m_k m))) <| vm_cpu := h_cpu x |> <| vm_hart := h |>) = Ok (r, s') ->
  on_vm h op m = Ok (r, m <| m_k := (m_k m) <| mycpu := vm_cpu s' |> <| hartid := h |> <| env ::= fun e => e <| low_vm := s' |> |> |>
    <| m_harts ::= <[h := x <| h_cpu := vm_cpu s' |>]> |>).
Proof.
  intros Hx Hop. unfold on_vm.
  rewrite (on_k_run h x _ m r ((m_k m) <| mycpu := vm_cpu s' |> <| hartid := h |> <| env ::= fun e => e <| low_vm := s' |> |>) Hx);
    [reflexivity|].
  change (obind (op ((low_vm (env (m_k m))) <| vm_cpu := h_cpu x |> <| vm_hart := h |>)) (fun r =>
    Ok (fst r, ((m_k m) <| mycpu := h_cpu x |> <| hartid := h |>) <| mycpu := vm_cpu (snd r) |>
      <| env ::= fun e => e <| low_vm := snd r |> |>)) = Ok (r, (m_k m) <| mycpu := vm_cpu s' |> <| hartid := h |>
      <| env ::= fun e => e <| low_vm := s' |> |>)). by rewrite Hop.
Qed.
Lemma on_fs_run {A} h x (op : M (fsst F) A) (m : machine) r s' :
  m_harts m !! h = Some x -> op ((low_fs (env (m_k m))) <| fs_cpu := h_cpu x |> <| fs_hart := h |>) = Ok (r, s') ->
  on_fs h op m = Ok (r, m <| m_k := (m_k m) <| mycpu := fs_cpu s' |> <| hartid := h |> <| env ::= fun e => e <| low_fs := s' |> |> |>
    <| m_harts ::= <[h := x <| h_cpu := fs_cpu s' |>]> |>).
Proof.
  intros Hx Hop. unfold on_fs.
  rewrite (on_k_run h x _ m r ((m_k m) <| mycpu := fs_cpu s' |> <| hartid := h |> <| env ::= fun e => e <| low_fs := s' |> |>) Hx);
    [reflexivity|].
  change (obind (op ((low_fs (env (m_k m))) <| fs_cpu := h_cpu x |> <| fs_hart := h |>)) (fun r =>
    Ok (fst r, ((m_k m) <| mycpu := h_cpu x |> <| hartid := h |>) <| mycpu := fs_cpu (snd r) |>
      <| env ::= fun e => e <| low_fs := snd r |> |>)) = Ok (r, (m_k m) <| mycpu := fs_cpu s' |> <| hartid := h |>
      <| env ::= fun e => e <| low_fs := s' |> |>)). by rewrite Hop.
Qed.

(** Two kernel states that differ in the hart that runs and in the layers below. *)
Definition core_same (k k' : kst (lower F)) : Prop :=
  k' = k <| mycpu := mycpu k' |> <| hartid := hartid k' |> <| env := env k' |>.
Lemma proc_stage_core r k k' : core_same k k' -> todo Userinit r = true -> proc_stage r k -> proc_stage r k'.
Proof.
  unfold proc_stage, core_same. intros Hk ->. destruct (todo Procinit r); intros (c & h & E); exists (mycpu k'), (hartid k');
    rewrite Hk at 1; rewrite E; reflexivity.
Qed.

Lemma call_post_hart h c x m m' cp :
  m_harts m' = <[h := x <| h_cpu := cp |>]> (m_harts m) -> cpu_boot cp -> c <> Kvminithart -> c <> Trapinithart ->
  c <> Plicinithart -> (c <> Kvminit -> m_kpt m' = m_kpt m) -> (forall h', plic_on h' (m_plic m) -> plic_on h' (m_plic m')) ->
  (c <> StoreStarted -> m_started m' = m_started m) -> call_post h c x m m'.
Proof.
  intros Hh Hcp N1 N2 N3 Hk Hp Hs. exists (x <| h_cpu := cp |>). split; [done|]. split; [|by split_and!].
  unfold hart_kept. rewrite !bool_decide_eq_false_2 by done. by split_and!.
Qed.

(** *** One call after the other *)
Definition rest0 (n : nat) : list call := drop n (main 0).
Definition call_goal (n : nat) (c : call) : Prop :=
  forall m x, m_harts m !! 0%nat = Some x -> cpu_boot (h_cpu x) -> shared (rest0 n) m ->
  exists m', run_call 0 c m = Ok (tt, m') /\ call_post 0 c x m m' /\ shared (rest0 (S n)) m'.

(** The fields of [shared] that a call does not touch. *)
Ltac shared_next :=
  split; unfold mem_stage, proc_stage, fs_stage in *; todo_eval; try assumption; try done.
Ltac same_hart x := exists x; split; [by rewrite list_insert_id|split; [by split_and!|by split_and!]].

Lemma call_consoleinit : call_goal 0 Consoleinit.
Proof.
  intros m x Hx Hc [S1 S2 S3 S4 S5 S6 S7 S8 S9 S10]. eexists. split; [reflexivity|]. split; [same_hart x|].
  shared_next. split; [done|]. split; [simpl; set_solver|]. change (m_uart m ++ uartinit = uartinit).
  revert S1. todo_eval. by intros ->.
Qed.
Lemma call_printkinit : call_goal 1 Printkinit.
Proof.
  intros m x Hx Hc [S1 S2 S3 S4 S5 S6 S7 S8 S9 S10]. eexists. split; [reflexivity|]. split; [same_hart x|].
  shared_next.
Qed.

Lemma printk_run h (m : machine) x fmt args out :
  m_harts m !! h = Some x -> lk_free (m_pr m) -> cpu_wf (h_cpu x) -> Printf.printk kdigits (bytes fmt) args = Ok out ->
  exists l, Boot.printk h fmt args m = Ok (tt, m <| m_pr := l |> <| m_out ::= fun o => o ++ out |>
    <| m_harts ::= <[h := x <| h_cpu := lockcycle (h_cpu x) |>]> |>) /\ lk_free l.
Proof.
  intros Hx Hl Hc Ho. eexists. unfold Boot.printk. rewrite Hx, acquire_free by done. cbn [obind fst snd]. rewrite Ho. cbn [obind].
  rewrite release_held by (split; reflexivity). rewrite pop_push_off by done. cbn [obind fst snd]. split; [reflexivity|]. by split.
Qed.

Lemma call_printk n fmt out :
  Printf.printk kdigits (bytes fmt) [] = Ok out -> rest0 n = Printk fmt false :: rest0 (S n) ->
  (forall m m' : machine, shared (rest0 n) m -> lk_free (m_pr m') -> m_uart m' = m_uart m -> m_cons m' = m_cons m -> m_devsw m' = m_devsw m ->
    m_k m' = m_k m -> m_kpt m' = m_kpt m -> m_tickslock m' = m_tickslock m -> m_plic m' = m_plic m -> m_vregs m' = m_vregs m ->
    m_disk m' = m_disk m -> m_started m' = m_started m -> shared (rest0 (S n)) m') ->
  call_goal n (Printk fmt false).
Proof.
  intros Ho _ Hnext m x Hx Hc Sh. destruct (printk_run 0 m x fmt [] out Hx (sh_pr _ _ Sh) (cpu_boot_wf _ Hc) Ho) as (l & H1 & Hl).
  eexists. split; [exact H1|]. split.
  - apply (call_post_hart _ _ _ _ _ (lockcycle (h_cpu x))); try done. by apply cpu_boot_cycle.
  - by apply (Hnext m).
Qed.
Lemma call_printks n : n ∈ [2; 3; 4]%nat -> exists fmt, nth_error (main 0) n = Some (Printk fmt false) /\ call_goal n (Printk fmt false).
Proof.
  intros Hn. rewrite !elem_of_cons, elem_of_nil in Hn. destruct Hn as [->|[->|[->|[]]]]; eexists; (split; [reflexivity|]);
    (eapply call_printk; [vm_compute; reflexivity|reflexivity|]);
    intros m m' [S1 S2 S3 S4 S5 S6 S7 S8 S9 S10] E1 E2 E3 E4 E5 E6 E7 E8 E9 E10 E11; split;
    rewrite ?E2, ?E3, ?E4, ?E5, ?E6, ?E7, ?E8, ?E9, ?E10, ?E11; unfold mem_stage, proc_stage, fs_stage in *; todo_eval; done.
Qed.

Lemma call_kinit : call_goal 5 Kinit.
Proof.
  intros m x Hx Hc [S1 S2 S3 S4 S5 S6 S7 S8 S9 S10].
  destruct (kinit_ok kend (kend_pos _ _ _ Himg)) with (s := (low_vm (env (m_k m))) <| vm_cpu := h_cpu x |> <| vm_hart := 0%nat |>)
    as (s' & H1 & H2).
  { destruct Himg as [(_ & _ & _ & ?) _]. lia. }
  { by apply cpu_boot_wf. }
  { revert S3. unfold mem_stage. todo_eval. done. }
  pose proof (oc_kinit kend _ _ _ (Hc : cpu_boot (vm_cpu ((low_vm (env (m_k m))) <| vm_cpu := h_cpu x |> <| vm_hart := 0%nat |>))) H1) as Hc'.
  eexists. split; [exact (on_vm_run 0 x _ m _ _ Hx H1)|]. split.
  - by apply (call_post_hart _ _ _ _ _ (vm_cpu s')).
  - split; try (unfold fs_stage in *; todo_eval; done).
    eapply proc_stage_core; [|reflexivity|]; [|exact S4]. reflexivity.
Qed.

Lemma kmem_cpu s c h l : cpu_wf c -> kmem_ok kend s l -> kmem_ok kend (s <| vm_cpu := c |> <| vm_hart := h |>) l.
Proof. intros Hc [H1 H2 H3 H4 H5]. by split. Qed.
Lemma memory_up_cpu s kpt n c h : cpu_wf c -> memory_up s kpt n -> memory_up (s <| vm_cpu := c |> <| vm_hart := h |>) kpt n.
Proof. intros Hc (st & u & f & H & Hn). exists st, u, f. split; [by apply kernel_mem_cpu|done]. Qed.
Lemma memory_up_less s kpt n n' : (n' <= n)%nat -> memory_up s kpt n -> memory_up s kpt n'.
Proof. intros Hn (st & u & f & H & Hf). exists st, u, f. split; [done|lia]. Qed.

Lemma call_kvminit : call_goal 6 Kvminit.
Proof.
  intros m x Hx Hc [S1 S2 S3 S4 S5 S6 S7 S8 S9 S10].
  assert (kmem_ok kend ((low_vm (env (m_k m))) <| vm_cpu := h_cpu x |> <| vm_hart := 0%nat |>) pages) as Hk.
  { apply kmem_cpu; [by apply cpu_boot_wf|]. revert S3. unfold mem_stage. todo_eval. done. }
  assert (length pages = length (all_pages kend)) as Hlen by (unfold pages; by rewrite length_reverse).
  destruct (kvmmake_mem kend etext trampoline Himg _ _ Hk) as (root & s' & st & free & H1 & H2 & H3 & _); [lia|].
  pose proof (oc_kvmmake _ _ _ _ _ (Hc : cpu_boot (vm_cpu ((low_vm (env (m_k m))) <| vm_cpu := h_cpu x |> <| vm_hart := 0%nat |>))) H1) as Hc'.
  eexists. split; [unfold run_call, kvminit; rewrite (mbind_Ok _ _ _ _ _ (on_vm_run 0 x _ m _ _ Hx H1)); reflexivity|]. split.
  - by apply (call_post_hart _ _ _ _ _ (vm_cpu s')).
  - split; try (unfold fs_stage in *; todo_eval; done).
    + unfold mem_stage. todo_eval. exists st, st, free. split; [exact H2|lia].
    + eapply proc_stage_core; [|reflexivity|]; [|exact S4]. reflexivity.
Qed.

Lemma call_kvminithart : call_goal 7 Kvminithart.
Proof.
  intros m x Hx Hc Sh. eexists.
  split; [unfold run_call, kvminithart; rewrite mbind_reads; unfold on_hart; rewrite Hx; reflexivity|]. split.
  - exists (x <| h_csr ::= fun c => c <| satp := MAKE_SATP (m_kpt m) |> |>). split; [done|]. split; [by split_and!|by split_and!].
  - destruct Sh as [S1 S2 S3 S4 S5 S6 S7 S8 S9 S10]. split; done.
Qed.

Lemma call_procinit : call_goal 8 Procinit.
Proof.
  intros m x Hx Hc [S1 S2 S3 S4 S5 S6 S7 S8 S9 S10].
  assert (exists e, m_k m = (boot_kst e 0) <| mycpu := mycpu (m_k m) |> <| hartid := hartid (m_k m) |> /\ e = env (m_k m)) as (e & Ek & He).
  { revert S4. unfold proc_stage. todo_eval. intros (c & h & E). exists (env (m_k m)). split; [|done]. rewrite E. done. }
  assert (procinit ((m_k m) <| mycpu := h_cpu x |> <| hartid := 0%nat |>) = Ok (tt, kst_up ((boot_kst e 0) <| mycpu := h_cpu x |>))) as H1.
  { rewrite Ek. apply procinit_run. }
  eexists. split; [exact (on_k_run 0 x _ m _ _ Hx H1)|]. split.
  - by apply (call_post_hart _ _ _ _ _ (h_cpu x)).
  - rewrite He. split; try done. unfold proc_stage. todo_eval. by eexists _, _.
Qed.

Lemma on_trap_run {A} h x (op : M (tst (lower F)) A) (m : machine) r t :
  m_harts m !! h = Some x -> op (mkTst ((m_k m) <| mycpu := h_cpu x |> <| hartid := h |>) (h_csr x) (m_tickslock m)) = Ok (r, t) ->
  on_trap h op m = Ok (r, m <| m_k := tk t |> <| m_tickslock := tickslock t |>
    <| m_harts ::= <[h := x <| h_cpu := mycpu (tk t) |> <| h_csr := csr t |>]> |>).
Proof. intros Hx Hop. unfold on_trap. by rewrite Hx, Hop. Qed.

Lemma call_trapinit : call_goal 9 Trapinit.
Proof.
  intros m x Hx Hc [S1 S2 S3 S4 S5 S6 S7 S8 S9 S10]. eexists. split; [eapply (on_trap_run 0 x _ m _ _ Hx); reflexivity|]. split.
  - by apply (call_post_hart _ _ _ _ _ (h_cpu x)).
  - split; try (unfold fs_stage in *; todo_eval; done). eapply proc_stage_core; [|reflexivity|]; [|exact S4]. reflexivity.
Qed.
Lemma trapinithart_run h (m : machine) x : m_harts m !! h = Some x ->
  run_call h Trapinithart m = Ok (tt, m <| m_k := (m_k m) <| mycpu := h_cpu x |> <| hartid := h |> |>
    <| m_harts ::= <[h := x <| h_csr ::= fun c => c <| stvec := kernelvec_addr |> |>]> |>).
Proof.
  intros Hx. unfold run_call. erewrite (on_trap_run h x _ m _ _ Hx); [|reflexivity]. simpl. by destruct m, x.
Qed.
Lemma call_trapinithart : call_goal 10 Trapinithart.
Proof.
  intros m x Hx Hc [S1 S2 S3 S4 S5 S6 S7 S8 S9 S10]. eexists. split; [apply (trapinithart_run 0 m x Hx)|]. split.
  - exists (x <| h_csr ::= fun c => c <| stvec := kernelvec_addr |> |>). split; [done|]. split; [by split_and!|by split_and!].
  - split; try (unfold fs_stage in *; todo_eval; done). eapply proc_stage_core; [|reflexivity|]; [|exact S4]. reflexivity.
Qed.

Lemma plicinit_run d :
  plicinit d = Ok (tt, d <| p_prio := <[VIRTIO0_IRQ := 1]> (<[UART0_IRQ := 1]> (p_prio d)) |>).
Proof. reflexivity. Qed.
Lemma plicinithart_run h d : (h < NCPU)%nat ->
  plicinithart h d = Ok (tt, d <| p_enable ::= <[(2 * Z.of_nat h + 1, 0) := irq_word]> |> <| p_thresh ::= <[2 * Z.of_nat h + 1 := 0]> |>).
Proof.
  intros Hh. unfold plicinithart, plic_write. rewrite mbind_modify, decode_enable by done.
  unfold mmodify. by rewrite decode_thresh.
Qed.
Lemma plic_on_hart h h' d : (h < NCPU)%nat ->
  let d' := d <| p_enable ::= <[(2 * Z.of_nat h + 1, 0) := irq_word]> |> <| p_thresh ::= <[2 * Z.of_nat h + 1 := 0]> |> in
  (plic_on h' d -> plic_on h' d') /\ plic_on h d'.
Proof.
  intros Hh d'. split; [|split; simpl; apply lookup_insert_eq].
  intros [H1 H2]. split; simpl.
  - destruct (decide (h = h')) as [->|Hn]; [apply lookup_insert_eq|]. rewrite lookup_insert_ne; [done|]. intros [=]. lia.
  - destruct (decide (h = h')) as [->|Hn]; [apply lookup_insert_eq|]. rewrite lookup_insert_ne; [done|]. lia.
Qed.

Lemma call_plicinit : call_goal 11 Plicinit.
Proof.
  intros m x Hx Hc [S1 S2 S3 S4 S5 S6 S7 S8 S9 S10].
  eexists. split; [unfold run_call, on_plic; rewrite plicinit_run; reflexivity|]. split; [same_hart x|].
  shared_next. intros _. simpl. by rewrite S8.
Qed.
Lemma plicinithart_call h (m : machine) x : (h < NCPU)%nat -> m_harts m !! h = Some x -> cpu_boot (h_cpu x) ->
  exists m', run_call h Plicinithart m = Ok (tt, m') /\ call_post h Plicinithart x m m' /\
    m' = m <| m_plic := m_plic m' |> /\ p_prio (m_plic m') = p_prio (m_plic m).
Proof.
  intros Hh Hx Hc. eexists. split; [unfold run_call, on_plic; rewrite plicinithart_run by done; reflexivity|].
  split; [|done]. exists x. split; [by rewrite list_insert_id|]. split; [by split_and!|]. split; [done|].
  destruct (plic_on_hart h h (m_plic m) Hh) as [_ P2]. split; [|split; [by intros _|done]].
  intros h'. by apply (plic_on_hart h h' (m_plic m) Hh).
Qed.
Lemma call_plicinithart : call_goal 12 Plicinithart.
Proof.
  intros m x Hx Hc [S1 S2 S3 S4 S5 S6 S7 S8 S9 S10].
  destruct (plicinithart_call 0 m x ltac:(unfold NCPU; lia) Hx Hc) as (m' & H1 & H2 & H3 & H4). exists m'. split; [done|]. split; [done|].
  rewrite H3. split; try done; simpl; rewrite H4; done.
Qed.

Lemma call_binit : call_goal 13 Binit.
Proof.
  intros m x Hx Hc [S1 S2 S3 S4 S5 S6 S7 S8 S9 S10].
  set (s := (low_fs (env (m_k m))) <| fs_cpu := h_cpu x |> <| fs_hart := 0%nat |>).
  assert (s <| bufs := repeat zero_buf (S NBUF) |> = s) as Es.
  { revert S5. unfold fs_stage. todo_eval. intros [B _]. rewrite <- B. by destruct (low_fs (env (m_k m))). }
  pose proof (binit_run s) as H1. rewrite Es in H1.
  eexists. split; [exact (on_fs_run 0 x _ m _ _ Hx H1)|]. split.
  - by apply (call_post_hart _ _ _ _ _ (h_cpu x)).
  - split; try done.
    + eapply proc_stage_core; [|reflexivity|]; [|exact S4]. reflexivity.
    + destruct S5 as (B1 & B2 & B3). unfold fs_stage in *. todo_eval. split; [by split|]. by split.
Qed.
Lemma call_iinit : call_goal 14 Iinit.
Proof.
  intros m x Hx Hc [S1 S2 S3 S4 S5 S6 S7 S8 S9 S10].
  set (s := (low_fs (env (m_k m))) <| fs_cpu := h_cpu x |> <| fs_hart := 0%nat |>).
  destruct S5 as (B1 & B2 & B3).
  assert (s <| inodes := repeat zero_inode NINODE |> = s) as Es.
  { revert B2. todo_eval. intros B2. rewrite <- B2. by destruct (low_fs (env (m_k m))). }
  pose proof (iinit_run s) as H1. rewrite Es in H1.
  eexists. split; [exact (on_fs_run 0 x _ m _ _ Hx H1)|]. split.
  - by apply (call_post_hart _ _ _ _ _ (h_cpu x)).
  - split; try done.
    + eapply proc_stage_core; [|reflexivity|]; [|exact S4]. reflexivity.
    + unfold fs_stage in *. todo_eval. split; [done|]. split; [|by intros ?].
      split; [done|]. split; [by apply cpu_boot_wf|done].
Qed.
Lemma call_fileinit : call_goal 15 Fileinit.
Proof.
  intros m x Hx Hc [S1 S2 S3 S4 S5 S6 S7 S8 S9 S10].
  eexists. split; [unfold run_call; erewrite (on_fs_run 0 x _ m _ _ Hx); [reflexivity|reflexivity]|]. split.
  - by apply (call_post_hart _ _ _ _ _ (h_cpu x)).
  - split; try done.
    + eapply proc_stage_core; [|reflexivity|]; [|exact S4]. reflexivity.
    + destruct S5 as (B1 & B2 & B3). unfold fs_stage in *. todo_eval. split; [done|]. split; [|done].
      destruct B2 as (B2 & _ & B4). split; [done|]. split; [by apply cpu_boot_wf|done].
Qed.
Lemma call_started : call_goal 18 StoreStarted.
Proof.
  intros m x Hx Hc [S1 S2 S3 S4 S5 S6 S7 S8 S9 S10]. eexists. split; [reflexivity|]. split; [same_hart x|]. split; done.
Qed.

(** Operations on memory in a row *)
Record vm_only (x : hart) (m m' : machine) : Prop := {
  vo_harts : exists c, cpu_boot c /\ m_harts m' = <[0%nat := x <| h_cpu := c |>]> (m_harts m);
  vo_rest : m' = m <| m_harts := m_harts m' |> <| m_k := m_k m' |>;
  vo_core : core_same (m_k m) (m_k m');
  vo_fs : low_fs (env (m_k m')) = low_fs (env (m_k m))
}.
Lemma vm_only_trans x x1 m m1 m2 :
  m_harts m1 !! 0%nat = Some x1 -> (exists c, x1 = x <| h_cpu := c |>) -> vm_only x m m1 -> vm_only x1 m1 m2 -> vm_only x m m2.
Proof.
  intros Hx1 [c1 ->] [(c & C1 & C2) A1 A2 A3] [(c' & D1 & D2) B1 B2 B3]. split.
  - exists c'. split; [done|]. rewrite D2, C2, list_insert_insert_eq. by destruct x.
  - rewrite B1, A1. done.
  - unfold core_same in *. rewrite B2 at 1. rewrite A2. done.
  - congruence.
Qed.
(** A step that keeps the memory invariant. *)
Lemma vm_step {A} (op : M vmst A) (m : machine) x r (Q : vmst -> Prop) :
  m_harts m !! 0%nat = Some x -> cpu_boot (h_cpu x) -> boot_safe op ->
  (exists s', op ((low_vm (env (m_k m))) <| vm_cpu := h_cpu x |> <| vm_hart := 0%nat |>) = Ok (r, s') /\ Q s') ->
  exists m' x', on_vm 0 op m = Ok (r, m') /\ vm_only x m m' /\ Q (low_vm (env (m_k m'))) /\
    m_harts m' !! 0%nat = Some x' /\ cpu_boot (h_cpu x') /\ exists c, x' = x <| h_cpu := c |>.
Proof.
  intros Hx Hc Hs (s' & H1 & HQ). eexists _, (x <| h_cpu := vm_cpu s' |>). split; [exact (on_vm_run 0 x _ m _ _ Hx H1)|].
  assert (cpu_boot (vm_cpu s')) as Hc' by (eapply Hs; [|exact H1]; exact Hc).
  split; [split; [by eexists|done|done|done]|]. split; [exact HQ|]. split; [|split; [done|by eexists]].
  simpl. apply list_lookup_insert_eq. by eapply lookup_lt_Some.
Qed.

Lemma queue_page_step (m : machine) x root stacks used free n :
  m_harts m !! 0%nat = Some x -> cpu_boot (h_cpu x) ->
  kernel_mem kend etext trampoline pages (low_vm (env (m_k m))) root stacks used free -> (S n <= length free)%nat ->
  exists a free' m' x', queue_page 0 m = Ok (a, m') /\ vm_only x m m' /\ page kend a /\ a <> 0 /\
    kernel_mem kend etext trampoline pages (low_vm (env (m_k m'))) root stacks (a :: used) free' /\ (n <= length free')%nat /\
    m_harts m' !! 0%nat = Some x' /\ cpu_boot (h_cpu x') /\ exists c, x' = x <| h_cpu := c |>.
Proof.
  intros Hx Hc Hm Hn. destruct free as [|a free]; [simpl in Hn; lia|].
  destruct (kernel_mem_kalloc kend etext trampoline Himg _ _ _ _ _ _ _
    (kernel_mem_cpu _ _ _ _ _ _ _ _ _ (h_cpu x) 0%nat (cpu_boot_wf _ Hc) Hm)) as (s' & K1 & K2 & K3 & K4).
  destruct (vm_step kalloc m x a (fun s => kernel_mem kend etext trampoline pages s root stacks (a :: used) free) Hx Hc oc_kalloc)
    as (m' & x' & V1 & V2 & V3 & V4 & V5 & V6); [by exists s'|].
  exists a, free, m', x'. split_and!; try done. simpl in Hn. lia.
Qed.

Lemma oc_fills a b c : boot_safe (fill a 0 ;;; fill b 0 ;;; fill c 0).
Proof. eapply oc_bind; [apply oc_fill|]. intros _. eapply oc_bind; [apply oc_fill|]. intros _. apply oc_fill. Qed.

Lemma call_virtio : call_goal 16 VirtioDiskInit.
Proof.
  intros m x Hx Hc Sh. pose proof (sh_mem _ _ Sh) as S3. unfold mem_stage in S3. todo_eval. destruct S3 as (st & used & free & Hm & Hf).
  destruct (queue_page_step m x _ _ _ _ 8 Hx Hc Hm Hf) as (a & f1 & m1 & x1 & A1 & A2 & A3 & A4 & A5 & A6 & A7 & A8 & A9).
  destruct (queue_page_step m1 x1 _ _ _ _ 7 A7 A8 A5 A6) as (b & f2 & m2 & x2 & B1 & B2 & B3 & B4 & B5 & B6 & B7 & B8 & B9).
  destruct (queue_page_step m2 x2 _ _ _ _ 6 B7 B8 B5 B6) as (c & f3 & m3 & x3 & C1 & C2 & C3 & C4 & C5 & C6 & C7 & C8 & C9).
  pose proof (vm_only_trans _ _ _ _ _ A7 A9 A2 B2) as V2.
  assert (exists d, x2 = x <| h_cpu := d |>) as X2 by (destruct A9 as [? ->], B9 as [? ->]; by eexists).
  pose proof (vm_only_trans _ _ _ _ _ B7 X2 V2 C2) as V3.
  assert (exists d, x3 = x <| h_cpu := d |>) as X3 by (destruct X2 as [? ->], C9 as [? ->]; by eexists).
  assert (m_vregs m3 = []) as Hv.
  { rewrite (vo_rest _ _ _ V3). pose proof (sh_disk _ _ Sh) as S9. by todo_eval. }
  destruct (disk_inits rd a b c vbufs vdisk Hdev A4 B4 C4) as (w & Hw).
  set (m4 := m3 <| m_vregs := w |>).
  assert (exists s', (fill a 0 ;;; fill b 0 ;;; fill c 0) ((low_vm (env (m_k m4))) <| vm_cpu := h_cpu x3 |> <| vm_hart := 0%nat |>) = Ok (tt, s') /\
    kernel_mem kend etext trampoline pages s' (m_kpt m) st (c :: b :: a :: used) f3) as Hfill.
  { pose proof (kernel_mem_cpu _ _ _ _ _ _ _ _ _ (h_cpu x3) 0%nat (cpu_boot_wf _ C8) C5) as K0.
    destruct (kernel_mem_fill kend etext trampoline _ _ _ _ _ _ a 0 K0) as (s1 & F1 & K1); [by right; right; left|done|].
    destruct (kernel_mem_fill kend etext trampoline _ _ _ _ _ _ b 0 K1) as (s2 & F2 & K2); [by right; left|done|].
    destruct (kernel_mem_fill kend etext trampoline _ _ _ _ _ _ c 0 K2) as (s3 & F3 & K3); [by left|done|].
    exists s3. split; [|done]. change (low_vm (env (m_k m4))) with (low_vm (env (m_k m3))).
    by rewrite (mbind_Ok _ _ _ _ _ F1), (mbind_Ok _ _ _ _ _ F2). }
  destruct (vm_step (fill a 0 ;;; fill b 0 ;;; fill c 0) m4 x3 tt _ C7 C8 (oc_fills a b c) Hfill) as (m5 & x5 & D1 & D2 & D3 & D4 & D5 & D6).
  exists (m5 <| m_disk := Some (VirtioRun.idle vbufs vdisk) |>). split.
  { unfold run_call, virtio_disk_init. rewrite (mbind_Ok _ _ _ _ _ A1), (mbind_Ok _ _ _ _ _ B1), (mbind_Ok _ _ _ _ _ C1).
    erewrite mbind_Ok; [|rewrite Hv, Hw; reflexivity]. change (m3 <| m_vregs := w |>) with m4. by rewrite (mbind_Ok _ _ _ _ _ D1). }
  destruct V3 as [(c3 & P1 & P2) P3 P4 P5], D2 as [(c5 & Q1 & Q2) Q3 Q4 Q5].
  assert (m_harts m5 = <[0%nat := x <| h_cpu := c5 |>]> (m_harts m)) as Hh.
  { rewrite Q2. change (m_harts m4) with (m_harts m3). rewrite P2, list_insert_insert_eq. destruct X3 as [? ->]. by destruct x. }
  assert (core_same (m_k m) (m_k m5)) as Hcore.
  { unfold core_same in *. rewrite Q4 at 1. change (m_k m4) with (m_k m3). rewrite P4. done. }
  assert (low_fs (env (m_k m5)) = low_fs (env (m_k m))) as Hfs by (rewrite Q5; exact P5).
  assert (m5 = m <| m_harts := m_harts m5 |> <| m_k := m_k m5 |> <| m_vregs := w |>) as Em.
  { rewrite Q3 at 1. unfold m4. rewrite P3. done. }
  destruct Sh as [S1 S2 S3 S4 S5 S6 S7 S8 S9 S10]. clear - S1 S2 S4 S5 S6 S7 S8 S10 Hh Hcore Hfs Em D3 C6 Q1.
  rewrite Em. split.
  - by apply (call_post_hart _ _ _ _ _ c5).
  - split; try done; simpl.
    + exists st, (c :: b :: a :: used), f3. split; [exact D3|]. todo_eval. lia.
    + eapply proc_stage_core; [|reflexivity|]; [exact Hcore|exact S4].
    + rewrite Hfs. exact S5.
Qed.

Lemma call_userinit : call_goal 17 Userinit.
Proof.
  intros m x Hx Hc [S1 S2 S3 S4 S5 S6 S7 S8 S9 S10].
  unfold mem_stage in S3. unfold proc_stage in S4. destruct S5 as (B1 & B2 & B3). todo_eval.
  destruct S3 as (st & used & free & Hm & Hf). destruct S4 as (c & h & Ek). destruct B2 as (B2 & B4 & B5).
  set (k := (m_k m) <| mycpu := h_cpu x |> <| hartid := 0%nat |>).
  assert (k = kst_up ((boot_kst (env (m_k m)) 0) <| mycpu := h_cpu x |>)) as Ek' by (unfold k; rewrite Ek; reflexivity).
  destruct (userinit_run kend etext trampoline forkret_at kbuf Himg k (env (m_k m)) (h_cpu x) pages (m_kpt m) st used free)
    as (k' & tf & pt & tables & free' & H1 & U1 & U2 & U3 & U4 & U5 & U6 & U7 & U8 & U9 & U10 & U11 & U12 & U13 & U14 & U15);
    try done; rewrite ?Ek'; try done.
  { apply kwf_up; [unfold NCPU; lia|by apply cpu_boot_wf]. }
  eexists. split; [exact (on_k_run 0 x _ m _ _ Hx H1)|].
  assert (cpu_boot (mycpu k')) as Hc' by (rewrite U3; by apply cpu_boot_cycle).
  split; [by apply (call_post_hart _ _ _ _ _ (mycpu k'))|]. clear H1. split; try done; simpl.
  - exists st, (tables ++ tf :: used), free'. split; [exact U14|]. todo_eval. lia.
  - unfold proc_stage. todo_eval. rewrite Ek' in *. split; [|split; [done|by split; [rewrite U7|rewrite U6]]].
    exists tf, pt, tables, (first_proc kend trampoline forkret_at kbuf (kst_up ((boot_kst (env (m_k m)) 0) <| mycpu := h_cpu x |>)) tf pt).
    split; [exact U1|]. split_and!; done.
  - rewrite U15. unfold fs_stage. todo_eval. split; [done|]. split; [|done]. split; [done|]. split; [|done].
    by apply cpu_wf_lockcycle.
Qed.

(** Whatever hart 0 calls next succeeds. *)
Lemma call0 n c : nth_error (main 0) n = Some c -> call_goal n c.
Proof.
  intros Hn. do 19 (destruct n as [|n];
    [injection Hn as <-; first [exact call_consoleinit|exact call_printkinit|exact call_kinit|exact call_kvminit|exact call_kvminithart
      |exact call_procinit|exact call_trapinit|exact call_trapinithart|exact call_plicinit|exact call_plicinithart|exact call_binit
      |exact call_iinit|exact call_fileinit|exact call_virtio|exact call_userinit|exact call_started
      |match goal with |- call_goal ?k _ => destruct (call_printks k) as (f & Hf & H); [set_solver -|by injection Hf as <-] end]|]).
  destruct n; discriminate Hn.
Qed.

(** ** The calls of the other harts *)
Lemma proc_stage_hart r k c h : proc_stage r k -> proc_stage r (k <| mycpu := c |> <| hartid := h |>).
Proof.
  unfold proc_stage. destruct (todo Procinit r); [|destruct (todo Userinit r)].
  - intros (c' & h' & E). exists c, h. rewrite E. reflexivity.
  - intros (c' & h' & E). exists c, h. rewrite E. reflexivity.
  - done.
Qed.
Lemma shared_harts r (m : machine) l : shared r m -> shared r (m <| m_harts := l |>).
Proof. intros []. by split. Qed.

Lemma main_other h : h <> 0%nat ->
  main (Z.of_nat h) = [WaitStarted; Printk "hart %d starting
" true; Kvminithart; Trapinithart; Plicinithart].
Proof. intros Hh. unfold main. by rewrite (proj2 (Z.eqb_neq _ _)) by lia. Qed.

Lemma hart_message h : (h < NCPU)%nat -> exists out, Printf.printk kdigits (bytes "hart %d starting
") [VInt (Z.of_nat h)] = Ok out.
Proof. intros Hh. unfold NCPU in Hh. do 8 (destruct h as [|h]; [eexists; vm_compute; reflexivity|]). lia. Qed.

Lemma call_other h n c (m : machine) x r0 :
  h <> 0%nat -> (h < NCPU)%nat -> nth_error (main (Z.of_nat h)) n = Some c -> m_harts m !! h = Some x -> cpu_boot (h_cpu x) ->
  shared r0 m -> (c = WaitStarted -> m_started m <> 0) ->
  exists m', run_call h c m = Ok (tt, m') /\ call_post h c x m m' /\ shared r0 m'.
Proof.
  intros Hh Hlt Hn Hx Hc Sh Hw. rewrite main_other in Hn by done.
  destruct n as [|[|[|[|[|n]]]]]; [injection Hn as <-..|destruct n; discriminate Hn].
  - exists m. split; [unfold run_call; by rewrite mbind_reads, (proj2 (Z.eqb_neq _ _)) by (by apply Hw)|].
    split; [|done]. exists x. split; [by rewrite list_insert_id|]. split; by split_and!.
  - destruct (hart_message h Hlt) as [out Ho].
    destruct (printk_run h m x _ _ out Hx (sh_pr _ _ Sh) (cpu_boot_wf _ Hc) Ho) as (l & H1 & Hl).
    eexists. split; [exact H1|]. split.
    + apply (call_post_hart _ _ _ _ _ (lockcycle (h_cpu x))); try done. by apply cpu_boot_cycle.
    + destruct Sh. by split.
  - eexists. split; [unfold run_call, kvminithart; rewrite mbind_reads; unfold on_hart; rewrite Hx; reflexivity|]. split.
    + exists (x <| h_csr ::= fun c => c <| satp := MAKE_SATP (m_kpt m) |> |>). split; [done|]. split; by split_and!.
    + destruct Sh. by split.
  - eexists. split; [apply (trapinithart_run h m x Hx)|]. split.
    + exists (x <| h_csr ::= fun c => c <| stvec := kernelvec_addr |> |>). split; [done|]. split; by split_and!.
    + destruct Sh. split; try done. by apply proc_stage_hart.
  - destruct (plicinithart_call h m x Hlt Hx Hc) as (m' & H1 & H2 & H3 & H4). exists m'. split; [done|]. split; [done|].
    rewrite H3. destruct Sh. split; try done; simpl; by rewrite H4.
Qed.

Lemma main_split h n c r : c :: r = drop n (main (Z.of_nat h)) ->
  nth_error (main (Z.of_nat h)) n = Some c /\ r = drop (S n) (main (Z.of_nat h)).
Proof.
  intros H. split.
  - rewrite <- (Nat.add_0_r n), <- nth_error_skipn. change (skipn n (main (Z.of_nat h))) with (drop n (main (Z.of_nat h))). by rewrite <- H.
  - rewrite <- Nat.add_1_r, <- drop_drop, <- H. done.
Qed.

(** Any call of any hart: it succeeds, or it waits. *)
Lemma any_call h c r (m : machine) x :
  boot_inv m -> m_harts m !! h = Some x -> h_at x = AtMain (c :: r) ->
  (c = WaitStarted /\ m_started m = 0 /\ run_call h c m = Spin) \/
  exists m', run_call h c m = Ok (tt, m') /\ call_post h c x m m' /\
    (forall x0, m_harts m !! 0%nat = Some x0 -> shared (if bool_decide (h = 0%nat) then r else left_of 0 x0) m') /\
    (h <> 0%nat -> todo WaitStarted r = false -> m_started m <> 0).
Proof.
  intros [Hlen Hh Hs] Hx Hat. pose proof (Hh h x Hx) as [Hc Hw]. rewrite Hat in Hw.
  pose proof (lookup_lt_Some _ _ _ Hx) as Hlt. rewrite Hlen in Hlt.
  destruct (ow_rest _ _ _ _ Hw) as [n Hn]. destruct (main_split h n c r Hn) as [Hnth Hr].
  destruct (decide (h = 0%nat)) as [->|Hne].
  - right. change (main (Z.of_nat 0)) with (main 0) in *. pose proof (Hs x Hx) as Sh. unfold left_of in Sh. rewrite Hat, Hn in Sh.
    destruct (call0 n c Hnth m x Hx Hc Sh) as (m' & H1 & H2 & H3). exists m'. split; [done|]. split; [done|].
    split; [|done]. intros x0 _. rewrite bool_decide_eq_true_2 by done. by rewrite Hr.
  - destruct (lookup_lt_is_Some_2 (m_harts m) 0) as [x0 Hx0]; [rewrite Hlen; unfold NCPU; lia|].
    destruct (decide (c = WaitStarted /\ m_started m = 0)) as [[-> Hz]|Hgo].
    { left. split; [done|]. split; [done|]. unfold run_call. by rewrite mbind_reads, Hz. }
    right. assert (c = WaitStarted -> m_started m <> 0) as Hgo' by (intros -> Hz; by apply Hgo).
    destruct (call_other h n c m x (left_of 0 x0) Hne Hlt Hnth Hx Hc (Hs x0 Hx0) Hgo') as (m' & H1 & H2 & H3).
    exists m'. split; [done|]. split; [done|]. split.
    + intros x1 Hx1. rewrite bool_decide_eq_false_2 by done. congruence.
    + intros _ Ht. destruct (decide (c = WaitStarted)) as [->|Hc']; [by apply Hgo'|].
      apply (ow_wait _ _ _ _ Hw Hne). unfold todo in *. apply bool_decide_eq_false_2. apply bool_decide_eq_false in Ht.
      intros [Heq|?]%elem_of_cons; [by symmetry in Heq|done].
Qed.

(** ** Steps *)
Definition togo (x : hart) : nat := match h_at x with AtStart => 20 | AtMain r => length r end.
Definition work (m : machine) : nat := sum_list_with togo (m_harts m).

Lemma sum_list_insert {A} (f : A -> nat) l i (x y : A) :
  l !! i = Some x -> (sum_list_with f (<[i := y]> l) + f x = sum_list_with f l + f y)%nat.
Proof.
  revert i. induction l as [|z l IH]; intros i Hi; [done|]. destruct i as [|i]; simpl in *.
  - injection Hi as ->. lia.
  - specialize (IH i Hi). lia.
Qed.

(** The hart enters main(). *)
Lemma step_start (m : machine) h x :
  boot_inv m -> m_harts m !! h = Some x -> h_at x = AtStart ->
  exists m', hart_step h m = Ok (tt, m') /\ boot_inv m' /\ (work m' < work m)%nat.
Proof.
  intros [Hlen Hh Hs] Hx Hat. pose proof (Hh h x Hx) as [Hc Hid]. rewrite Hat in Hid.
  pose proof (lookup_lt_Some _ _ _ Hx) as Hlt. pose proof Hlt as Hlt'. rewrite Hlen in Hlt.
  destruct (start_ok main_addr h x Hid Hlt) as (x1 & H1 & Hup & Hc1 & _).
  set (x2 := x1 <| h_at := AtMain (main (Z.of_nat h)) |>).
  assert (i32 (h_tp x1) = Z.of_nat h) as Htp.
  { rewrite (su_tp _ _ _ Hup). unfold i32. unfold NCPU in Hlt. rewrite Z.mod_small by lia.
    by rewrite (proj2 (Z.ltb_lt _ _)) by lia. }
  exists (m <| m_harts ::= <[h := x2]> |>). split; [|split; [split|]].
  - unfold hart_step. erewrite mbind_Ok; [|rewrite Hx; reflexivity]. cbv beta. rewrite Hat.
    erewrite mbind_Ok; [|unfold on_hart; rewrite Hx, H1; reflexivity].
    assert (forall A (op : M hart A), on_hart (F := F) h op (m <| m_harts ::= <[h := x1]> |>) =
      obind (op x1) (fun r => Ok (fst r, m <| m_harts ::= <[h := snd r]> |>))) as Hon.
    { intros A op. unfold on_hart. cbn [m_harts]. simpl. rewrite list_lookup_insert_eq by done.
      destruct (op x1) as [[a y]| | | |]; [|done..]. cbn [obind fst snd]. simpl. by rewrite list_insert_insert_eq. }
    erewrite mbind_Ok; [|rewrite Hon; reflexivity]. cbv beta. cbn [fst snd].
    erewrite mbind_Ok; [|rewrite Hon; reflexivity]. cbv beta. cbn [fst snd].
    rewrite (su_pc _ _ _ Hup), Z.eqb_refl, Hon, Htp. reflexivity.
  - simpl. by rewrite length_insert.
  - intros h' y Hy. simpl in Hy. apply list_lookup_insert_Some in Hy as [(<- & <- & _)|[Hn Hy]].
    + split; [simpl; by rewrite Hc1|]. simpl. split; simpl.
      * destruct Hup. by split.
      * by exists 0%nat.
      * unfold main. intros Ht. exfalso. revert Ht. destruct (Z.of_nat h =? 0); vm_compute; discriminate.
      * unfold main. intros Ht. exfalso. revert Ht. destruct (Z.of_nat h =? 0); vm_compute; discriminate.
      * unfold main. intros Ht. exfalso. revert Ht. destruct (Z.of_nat h =? 0); vm_compute; discriminate.
      * intros Hne Ht. exfalso. revert Ht. rewrite main_other by done. vm_compute. discriminate.
    + destruct (Hh h' y Hy) as [C1 C2]. split; [done|]. destruct (h_at y) as [|r]; [done|]. destruct C2. by split.
  - intros y Hy. apply shared_harts. simpl in Hy. apply list_lookup_insert_Some in Hy as [(-> & <- & _)|[Hn Hy]].
    + specialize (Hs x Hx). unfold left_of in *. by rewrite Hat in Hs.
    + by apply Hs.
  - unfold work. pose proof (sum_list_insert togo _ _ _ x2 Hx) as Hsum. simpl.
    assert (togo x = 20%nat) as E1 by (unfold togo; by rewrite Hat).
    assert (togo x2 <= 19)%nat as E2 by (unfold togo; simpl; unfold main; destruct (Z.of_nat h =? 0); simpl; lia). lia.
Qed.

Lemma before_wait h r :
  h <> 0%nat -> (exists k, r = drop k (main (Z.of_nat h))) -> todo WaitStarted r = true -> r = main (Z.of_nat h).
Proof.
  intros Hh [k ->] Ht. rewrite main_other in * by done. destruct k as [|k]; [done|].
  exfalso. destruct k as [|[|[|[|k]]]]; revert Ht; try (vm_compute; discriminate). by destruct k.
Qed.
Lemma boot_only h n c :
  nth_error (main (Z.of_nat h)) n = Some c -> c = Kvminit \/ c = StoreStarted ->
  h = 0%nat /\ n = if bool_decide (c = Kvminit) then 6%nat else 18%nat.
Proof.
  intros Hn Hc. destruct (decide (h = 0%nat)) as [->|Hne].
  - split; [done|]. change (main (Z.of_nat 0)) with (main 0) in Hn.
    do 19 (destruct n as [|n]; [injection Hn as <-; destruct Hc as [Hc|Hc]; (discriminate Hc || reflexivity)|]).
    destruct n; discriminate Hn.
  - exfalso. rewrite main_other in Hn by done.
    destruct n as [|[|[|[|[|n]]]]]; [injection Hn as <-; destruct Hc as [Hc|Hc]; discriminate Hc..|]. destruct n; discriminate Hn.
Qed.
Lemma todo_tail c c' r : todo c' r = false -> c' <> c -> todo c' (c :: r) = false.
Proof.
  unfold todo. intros H Hne. apply bool_decide_eq_false in H. apply bool_decide_eq_false_2. by intros [?|?]%elem_of_cons.
Qed.

(** What a call leaves to every other hart. *)
Lemma other_hart (m m' : machine) h c r x x1 h' y :
  boot_inv m -> m_harts m !! h = Some x -> h_at x = AtMain (c :: r) -> call_post h c x m m' ->
  (forall x0, m_harts m !! 0%nat = Some x0 -> shared (if bool_decide (h = 0%nat) then r else left_of 0 x0) m') ->
  h' <> h -> m_harts m !! h' = Some y -> hart_inv h' y (m' <| m_harts := x1 |>).
Proof.
  intros [Hlen Hh Hs] Hx Hat (_ & _ & _ & Hkpt & Hpl & _ & Hst) Hsh Hne Hy.
  pose proof (Hh h x Hx) as [_ Hw]. rewrite Hat in Hw. destruct (ow_rest _ _ _ _ Hw) as [n Hn].
  destruct (main_split h n c r Hn) as [Hnth Hr]. destruct (Hh h' y Hy) as [C1 C2]. split; [done|].
  destruct (h_at y) as [|r']; [done|]. destruct C2 as [U1 U2 U3 U4 U5 U6].
  assert (c = Kvminit -> h' <> 0%nat /\ r' = main (Z.of_nat h')) as Hwait.
  { intros ->. destruct (boot_only h n Kvminit Hnth (or_introl eq_refl)) as [-> ->]. split; [done|].
    apply before_wait; [done|done|]. destruct (todo WaitStarted r') eqn:E; [done|]. exfalso. apply (U6 Hne eq_refl).
    pose proof (sh_started _ _ (Hs x Hx)) as S. unfold left_of in S. rewrite Hat, Hn in S. exact S. }
  split; try done; simpl.
  - intros Ht. destruct (decide (c = Kvminit)) as [Hc|Hc]; [|by rewrite Hkpt, U3].
    destruct (Hwait Hc) as [Hn0 ->]. exfalso. revert Ht. rewrite main_other by done. vm_compute. discriminate.
  - intros Ht. apply Hpl, U5, Ht.
  - intros Hn0 Ht. destruct (decide (c = StoreStarted)) as [->|Hc]; [|rewrite Hst by done; by apply U6].
    destruct (boot_only h n StoreStarted Hnth (or_intror eq_refl)) as [-> ->].
    pose proof (sh_started _ _ (Hsh x Hx)) as S. rewrite Hr in S. rewrite S. vm_compute. discriminate.
Qed.

(** A call of main() *)
Lemma step_call (m m' : machine) h c r x :
  boot_inv m -> m_harts m !! h = Some x -> h_at x = AtMain (c :: r) -> run_call h c m = Ok (tt, m') -> call_post h c x m m' ->
  (forall x0, m_harts m !! 0%nat = Some x0 -> shared (if bool_decide (h = 0%nat) then r else left_of 0 x0) m') ->
  (h <> 0%nat -> todo WaitStarted r = false -> m_started m <> 0) ->
  exists m2, hart_step h m = Ok (tt, m2) /\ boot_inv m2 /\ (work m2 < work m)%nat.
Proof.
  intros HI Hx Hat H1 Hpost Hsh Hwt. pose proof HI as [Hlen Hh Hs].
  pose proof Hpost as (x1 & E1 & (K1 & K2 & K3 & K4 & K5 & K6 & K7 & K8) & Hkpt & Hpl & Hpl2 & Hst).
  pose proof (lookup_lt_Some _ _ _ Hx) as Hlt. pose proof (Hh h x Hx) as [Hc Hw]. rewrite Hat in Hw.
  destruct Hw as [U1 [n Hn] U3 U4 U5 U6]. destruct (main_split h n c r Hn) as [Hnth Hr].
  set (x2 := x1 <| h_at := AtMain r |>).
  assert (m_harts m' !! h = Some x1) as Hx1 by (rewrite E1; by apply list_lookup_insert_eq).
  exists (m' <| m_harts ::= <[h := x2]> |>).
  assert (m' <| m_harts ::= <[h := x2]> |> = m' <| m_harts := <[h := x2]> (m_harts m) |>) as Em.
  { change (m' <| m_harts := <[h := x2]> (m_harts m') |> = m' <| m_harts := <[h := x2]> (m_harts m) |>).
    by rewrite E1, list_insert_insert_eq. }
  split; [|rewrite Em; split; [split|]].
  - unfold hart_step. erewrite mbind_Ok; [|rewrite Hx; reflexivity]. cbv beta. rewrite Hat.
    rewrite (mbind_Ok _ _ _ _ _ H1). unfold on_hart. rewrite Hx1. reflexivity.
  - simpl. by rewrite length_insert.
  - intros h' y Hy. simpl in Hy. apply list_lookup_insert_Some in Hy as [(<- & <- & _)|[Hne Hy]].
    + unfold x2. split; [done|]. simpl. split; simpl.
      * destruct U1. split; simpl; rewrite ?K1, ?K2, ?K3, ?K4; done.
      * by exists (S n).
      * intros Ht. rewrite K7. destruct (bool_decide_reflect (c = Kvminithart)) as [Hc2|Hc2]; [done|]. destruct (decide (c = Kvminit)) as [->|Hc3].
        { exfalso. destruct (boot_only h n Kvminit Hnth (or_introl eq_refl)) as [-> ->]. rewrite Hr in Ht. revert Ht. vm_compute. discriminate. }
        rewrite Hkpt by done. apply U3. by apply todo_tail.
      * intros Ht. rewrite K8. destruct (bool_decide_reflect (c = Trapinithart)) as [Hc2|Hc2]; [done|]. apply U4. by apply todo_tail.
      * intros Ht. destruct (decide (c = Plicinithart)) as [Hc2|Hc2]; [by apply Hpl2|]. apply Hpl, U5. by apply todo_tail.
      * intros Hne Ht. rewrite Hst; [by apply Hwt|]. intros ->.
        by destruct (boot_only h n StoreStarted Hnth (or_intror eq_refl)) as [-> _].
    + apply (other_hart m m' h c r x (<[h := x2]> (m_harts m)) h' y HI Hx Hat Hpost Hsh); [by apply not_eq_sym|done].
  - intros y Hy. apply shared_harts. simpl in Hy. apply list_lookup_insert_Some in Hy as [(-> & <- & _)|[Hne Hy]].
    + specialize (Hsh x Hx). by rewrite bool_decide_eq_true_2 in Hsh.
    + specialize (Hsh y Hy). by rewrite bool_decide_eq_false_2 in Hsh.
  - unfold work. simpl. pose proof (sum_list_insert togo _ _ _ x2 Hx) as Hsum.
    assert (togo x = S (length r)) as T1 by (unfold togo; by rewrite Hat). assert (togo x2 = length r) as T2 by reflexivity. lia.
Qed.
End Spec.
