(* ===== verification/BootSpec.v ===== *)
(** * The machine starts

    From the state in which the loader leaves the machine, in every
    interleaving of the harts: no hart fails, a hart leaves the loop on
    [started] only when hart 0 has initialised every part of the kernel, a hart
    enters scheduler() with its registers set up, and all of them do. *)
From stdpp Require Import base list strings gmap relations.
From Stdlib Require Import ZArith Lia.
From S2P Require Import Prelude Spinlock CString Riscv Kalloc FsState Bio BioOps Fs FsAlloc FsWrite Pipe PipeSpec File Printf Console Uart Virtio VirtioRun Vm VmTree VmMap KvmSpec BootMem KState SchedScan Sched Proc ProcTable ProcLife Trap TrapSpec Plic Boot BootProc BootInv.

#[local] Existing Instance quiet.
#[local] Instance place_eq_dec : EqDecision place.
Proof. solve_decision. Defined.

Section Boot.
Context {F : Type} {FE : FsEnv F} {PI : PipeEnv F} {DE : DevEnv F} {TE : TrapEnv (lower F)}.
Context (main_addr kend etext trampoline forkret_at kbuf : Z) (Himg : image_ok kend etext trampoline).
Context (Hroom : (180 <= length (all_pages kend))%nat).
Context (rd : list (Z * Z) -> Z -> Z) (vbufs : gmap Z vbuf) (vdisk : gmap Z (list Z)).
Context (Hdev : disk_device rd).
Notation machine := (machine F).
Notation hart_step := (hart_step main_addr kend etext trampoline forkret_at kbuf rd vbufs vdisk).
Notation bstep := (bstep main_addr kend etext trampoline forkret_at kbuf rd vbufs vdisk).
Notation boot_inv := (boot_inv main_addr kend etext trampoline forkret_at vbufs vdisk).

(** As the loader leaves it: the harts at start(), zeroed static data. *)
Record powered_on (m : machine) : Prop := {
  po_len : length (m_harts m) = NCPU;
  po_hart h x : m_harts m !! h = Some x -> h_at x = AtStart /\ mhartid (h_m x) = Z.of_nat h /\ cpu_boot (h_cpu x);
  po_k : m_k m = boot_kst (env (m_k m)) 0;
  po_vm : freelist (low_vm (env (m_k m))) = 0;
  po_fs : bufs (low_fs (env (m_k m))) = repeat zero_buf (S NBUF) /\ inodes (low_fs (env (m_k m))) = repeat zero_inode NINODE;
  po_pr : lk_free (m_pr m);
  po_dev : m_uart m = [] /\ m_vregs m = [] /\ p_prio (m_plic m) = ∅;
  po_started : m_started m = 0
}.

(** Every part of the kernel is initialised. *)
Record kernel_ready (m : machine) : Prop := {
  kr_cons : c_lock (m_cons m) = initlock "cons" /\ CONSOLE ∈ m_devsw m /\ m_uart m = uartinit;
  kr_pr : lk_free (m_pr m);
  kr_mem : exists stacks used free,
    kernel_mem kend etext trampoline (pages kend) (low_vm (env (m_k m))) (m_kpt m) stacks used free;
  kr_proc : first_ready kend trampoline forkret_at (m_k m) /\ strategies_ready (m_k m) /\ lk_free (pid_lock (m_k m)) /\ lk_free (wait_lock (m_k m));
  kr_fs : bufs (low_fs (env (m_k m))) = boot_bufs /\ bcache_lock (low_fs (env (m_k m))) = initlock "bcache" /\
    itable_lock (low_fs (env (m_k m))) = initlock "itable" /\ ftable_lock (low_fs (env (m_k m))) = initlock "ftable" /\
    inodes (low_fs (env (m_k m))) = <[0%nat := root_inode]> (repeat inited_inode NINODE);
  kr_ticks : m_tickslock m = initlock "time";
  kr_plic : p_prio (m_plic m) = <[VIRTIO0_IRQ := 1]> {[ UART0_IRQ := 1 ]};
  kr_disk : m_disk m = Some (VirtioRun.idle vbufs vdisk)
}.
(** A hart is ready to run processes. *)
Record hart_ready (h : nat) (x : hart) (m : machine) : Prop := {
  hr_up : set_up main_addr h x;
  hr_cpu : cpu_boot (h_cpu x);
  hr_satp : satp (h_csr x) = MAKE_SATP (m_kpt m);
  hr_stvec : stvec (h_csr x) = kernelvec_addr;
  hr_plic : plic_on h (m_plic m)
}.
(** A hart that hart 0 has let go on *)
Definition past_wait (h : nat) (x : hart) : Prop :=
  match h_at x with AtStart => False | AtMain r => if bool_decide (h = 0%nat) then r = [] else WaitStarted ∉ r end.
Definition waiting (x : hart) (m : machine) : Prop :=
  m_started m = 0 /\ exists r, h_at x = AtMain (WaitStarted :: r).

Lemma powered_on_inv m : powered_on m -> boot_inv m.
Proof.
  intros [H1 H2 H3 H4 [H5 H6] H7 (H8 & H9 & H10) H11]. split; [done| |].
  - intros h x Hx. destruct (H2 h x Hx) as (A & B & C). split; [done|]. by rewrite A.
  - intros x Hx. destruct (H2 0%nat x Hx) as (A & _). unfold left_of. rewrite A. change (main (Z.of_nat 0)) with (main 0).
    split; unfold mem_stage, proc_stage, fs_stage; todo_eval; try done.
    + exists (mycpu (m_k m)), 0%nat. rewrite <- H3. by destruct (m_k m).
Qed.

Lemma any_step m h x :
  boot_inv m -> m_harts m !! h = Some x ->
  (exists m', hart_step h m = Ok (tt, m') /\ boot_inv m' /\ (work m' < work m)%nat) \/
  (hart_step h m = Spin /\ (in_scheduler x \/ waiting x m)).
Proof.
  intros HI Hx. destruct (h_at x) as [|[|c r]] eqn:Hat.
  - left. by apply (step_start main_addr kend etext trampoline forkret_at kbuf Hroom rd vbufs vdisk m h x).
  - right. split; [|by left]. unfold Boot.hart_step. erewrite mbind_Ok; [|rewrite Hx; reflexivity]. cbv beta. by rewrite Hat.
  - destruct (any_call main_addr kend etext trampoline forkret_at kbuf Himg Hroom rd vbufs vdisk Hdev h c r m x HI Hx Hat)
      as [(-> & Hz & Hs)|(m' & H1 & H2 & H3 & H4)].
    + right. split; [|right; split; [done|by exists r]].
      unfold Boot.hart_step. erewrite mbind_Ok; [|rewrite Hx; reflexivity]. cbv beta. rewrite Hat. unfold mbind at 1. by rewrite Hs.
    + left. by apply (step_call main_addr kend etext trampoline forkret_at kbuf Hroom rd vbufs vdisk m m' h c r x).
Qed.
Lemma bstep_inv m m' : boot_inv m -> bstep m m' -> boot_inv m' /\ (work m' < work m)%nat.
Proof.
  intros HI Hs. inversion Hs as [h ? ? E]; subst. destruct (m_harts m !! h) as [x|] eqn:Hx.
  - destruct (any_step m h x HI Hx) as [(m2 & E2 & H1 & H2)|[E2 _]]; [|by rewrite E2 in E].
    rewrite E2 in E. by injection E as <-.
  - unfold Boot.hart_step, mbind at 1 in E. by rewrite Hx in E.
Qed.
Lemma brun_inv m m' : boot_inv m -> rtc bstep m m' -> boot_inv m'.
Proof. intros HI Hr. induction Hr as [m|m1 m2 m3 Hs Hr IH]; [done|]. by apply IH, (bstep_inv m1). Qed.
Lemma bsteps_work n m m' : boot_inv m -> nsteps bstep n m m' -> (n + work m' <= work m)%nat.
Proof.
  intros HI Hr. induction Hr as [m|n m1 m2 m3 Hs Hr IH]; [lia|]. destruct (bstep_inv m1 m2 HI Hs) as [H1 H2].
  specialize (IH H1). lia.
Qed.

(** The part that hart 0 has in the invariant *)
Lemma hart0_place m x0 :
  boot_inv m -> m_harts m !! 0%nat = Some x0 ->
  (h_at x0 = AtMain [] /\ m_started m = 1) \/
  (m_started m = 0 /\ ~ in_scheduler x0 /\ ~ waiting x0 m).
Proof.
  intros [Hl Hh Hs] Hx. specialize (Hs x0 Hx). destruct (Hh 0%nat x0 Hx) as [_ Hw].
  pose proof (sh_started _ _ _ _ _ _ _ _ Hs) as S. unfold left_of, in_scheduler, waiting in *.
  destruct (h_at x0) as [|r]; [right; split; [done|split; [done|by intros [_ [r ?]]]]|].
  destruct (ow_rest _ _ _ _ _ Hw) as [k ->]. change (main (Z.of_nat 0)) with (main 0) in *.
  do 19 (destruct k as [|k]; [right; split; [by rewrite S|split; [done|by intros [_ [r ?]]]]|]). left. by destruct k.
Qed.

(** As long as a hart is not in scheduler(), some hart goes on. *)
Lemma progress m :
  boot_inv m -> Forall in_scheduler (m_harts m) \/ exists m', bstep m m' /\ boot_inv m' /\ (work m' < work m)%nat.
Proof.
  intros HI. pose proof (bi_len _ _ _ _ _ _ _ _ HI) as Hlen.
  assert (forall h x, m_harts m !! h = Some x -> ~ in_scheduler x -> ~ waiting x m -> exists m', bstep m m' /\ boot_inv m' /\ (work m' < work m)%nat) as Hgo.
  { intros h x Hx H1 H2. destruct (any_step m h x HI Hx) as [(m' & E & H)|[_ [?|?]]]; [|done|done]. exists m'. split; [by apply (bstep_hart _ _ _ _ _ _ _ _ _ h)|done]. }
  destruct (lookup_lt_is_Some_2 (m_harts m) 0) as [x0 Hx0]; [rewrite Hlen; unfold NCPU; lia|].
  destruct (hart0_place m x0 HI Hx0) as [[_ Hst]|(_ & N1 & N2)]; [|right; by apply (Hgo 0%nat x0)].
  destruct (decide (Exists (fun x => h_at x <> AtMain []) (m_harts m))) as [Hex|Hno].
  - right. apply Exists_exists in Hex as (x & [h Hx]%list_elem_of_lookup & Hn). apply (Hgo h x Hx Hn).
    intros [Hz _]. by rewrite Hz in Hst.
  - left. apply Forall_forall. intros x Hx. unfold in_scheduler. destruct (decide (h_at x = AtMain [])); [done|].
    exfalso. apply Hno, Exists_exists. by exists x.
Qed.
Lemma runs_to_end m : boot_inv m -> exists m', rtc bstep m m' /\ boot_inv m' /\ Forall in_scheduler (m_harts m').
Proof.
  remember (work m) as n eqn:Hn. revert m Hn. induction (lt_wf n) as [n _ IH]. intros m -> HI.
  destruct (progress m HI) as [Hd|(m1 & H1 & H2 & H3)]; [by exists m|].
  destruct (IH (work m1) H3 m1 eq_refl H2) as (m2 & R & H4). exists m2. split; [by eapply rtc_l|done].
Qed.

Lemma all_done_ready m x0 : boot_inv m -> m_harts m !! 0%nat = Some x0 -> h_at x0 = AtMain [] -> kernel_ready m.
Proof.
  intros [Hl Hh Hs] Hx Hat. specialize (Hs x0 Hx). unfold left_of in Hs. rewrite Hat in Hs.
  destruct Hs as [S1 S2 S3 S4 S5 S6 S7 S8 S9 S10]. unfold mem_stage, proc_stage, fs_stage in *. todo_eval.
  destruct S3 as (st & used & free & Hm & _), S5 as ((B1 & B2) & (B3 & _ & B4) & B5). split; try done; try (by apply S6 || by apply S7).
  - by exists st, used, free.
  - split_and!; try done. by apply B5.
Qed.
Lemma past_wait_ready m h x : boot_inv m -> m_harts m !! h = Some x -> past_wait h x -> kernel_ready m.
Proof.
  intros HI Hx Hp. destruct (lookup_lt_is_Some_2 (m_harts m) 0) as [x0 Hx0]; [rewrite (bi_len _ _ _ _ _ _ _ _ HI); unfold NCPU; lia|].
  apply (all_done_ready m x0 HI Hx0). unfold past_wait in Hp. destruct (h_at x) as [|r] eqn:Hat; [done|].
  destruct (bool_decide_reflect (h = 0%nat)) as [->|Hne]; [congruence|].
  destruct (hart0_place m x0 HI Hx0) as [[? _]|(Hz & _)]; [done|]. exfalso.
  destruct (bi_hart _ _ _ _ _ _ _ _ HI h x Hx) as [_ Hw]. rewrite Hat in Hw.
  apply (ow_wait _ _ _ _ _ Hw Hne); [by apply bool_decide_eq_false_2|done].
Qed.

(** C8: From the state in which the loader leaves the machine, whatever the
    order in which the harts take their steps (start(), and then one call of
    main() at a time), and whatever they hold in their other registers: (1) no
    step fails, the only harts that do not go on are those in scheduler() and
    those that wait for [started] while it is 0; (2) when a hart is past that
    loop, or hart 0 is in scheduler(), every part of the kernel is initialised:
    the console, the memory with the kernel's page table, the process table
    with the first process runnable in its address space and with the root
    directory, the buffer cache, the tables of inodes and files, the interrupt
    controller and the disk; (3) a hart in scheduler() is in supervisor mode
    with interrupts delegated, its page table is the kernel's, its trap vector
    is kernelvec, the interrupt controller serves it, and it holds no lock. *)
Theorem boot_correct m0 m :
  powered_on m0 -> rtc bstep m0 m ->
  (forall h x, m_harts m !! h = Some x ->
    (exists m', hart_step h m = Ok (tt, m')) \/ (hart_step h m = Spin /\ (in_scheduler x \/ waiting x m))) /\
  (forall h x, m_harts m !! h = Some x -> past_wait h x -> kernel_ready m) /\
  (forall h x, m_harts m !! h = Some x -> in_scheduler x -> hart_ready h x m /\ kernel_ready m).
Proof.
  intros H0 Hr. pose proof (brun_inv m0 m (powered_on_inv m0 H0) Hr) as HI. split; [|split].
  - intros h x Hx. destruct (any_step m h x HI Hx) as [(m' & E & _)|?]; [left; by exists m'|by right].
  - intros h x. by apply past_wait_ready.
  - intros h x Hx Hsch. split.
    + destruct (bi_hart _ _ _ _ _ _ _ _ HI h x Hx) as [Hc Hw]. rewrite Hsch in Hw. destruct Hw as [U1 U2 U3 U4 U5 U6].
      split; [done|done|by apply U3|by apply U4|by apply U5].
    + apply (past_wait_ready m h x HI Hx). unfold past_wait. rewrite Hsch. case_bool_decide; [done|]. by apply not_elem_of_nil.
Qed.

(** C30: The machine starts: from the state in which the loader leaves it, every
    run of start() and main() has at most 20 steps for each hart, and a run
    that no hart can continue, which the runs that always let some hart go on
    reach, has all the harts in scheduler(). *)
Theorem boot_ends m0 :
  powered_on m0 ->
  (forall n m, nsteps bstep n m0 m -> (n <= 20 * NCPU)%nat) /\
  (forall m, rtc bstep m0 m -> (forall m', ~ bstep m m') <-> Forall in_scheduler (m_harts m)).
Proof.
  intros H0. pose proof (powered_on_inv m0 H0) as HI0. split.
  - intros n m Hn. pose proof (bsteps_work n m0 m HI0 Hn) as Hw. enough (work m0 <= 20 * NCPU)%nat by lia.
    unfold work. rewrite <- (po_len _ H0). pose proof (po_hart _ H0) as Hat. revert Hat. generalize (m_harts m0). clear.
    intros l Hat. assert (Forall (fun x => h_at x = AtStart) l) as Hl.
    { apply Forall_lookup. intros h x Hx. by apply (Hat h x). }
    clear Hat. induction Hl as [|x l Hx Hl IH]; simpl; [lia|]. unfold togo at 1. rewrite Hx. lia.
  - intros m Hr. pose proof (brun_inv m0 m HI0 Hr) as HI. split.
    + intros Hno. destruct (progress m HI) as [?|(m' & Hs & _)]; [done|]. by destruct (Hno m').
    + intros Hall m' Hs. inversion Hs as [h ? ? E]; subst. destruct (m_harts m !! h) as [x|] eqn:Hx.
      * destruct (any_step m h x HI Hx) as [(m2 & E2 & _ & Hw)|[E2 _]]; [|by rewrite E2 in E].
        rewrite Forall_lookup in Hall. specialize (Hall h x Hx). unfold in_scheduler in Hall.
        unfold Boot.hart_step in E. erewrite mbind_Ok in E; [|rewrite Hx; reflexivity]. cbv beta in E. by rewrite Hall in E.
      * unfold Boot.hart_step, mbind at 1 in E. by rewrite Hx in E.
Qed.
End Boot.

(** ** A machine *)
#[local] Existing Instances no_user demo_trap.
#[local] Instance no_pipes : PipeEnv unit := {|
  env_pipe _ _ := None; env_set_pipe _ _ e := e; Pipe.env_kalloc e := (0, e); Pipe.env_kfree _ e := Ok e; env_killed _ := false
|}.
#[local] Instance no_devices : DevEnv unit := {| env_devread _ := None; env_devwrite _ := None |}.

Lemma vdemo_answers : disk_device vdemo_rd.
Proof. split; intros; try done; split_and!; done. Qed.

(** Eight harts and the memory of [KvmSpec]'s kernel; what the registers hold
    does not matter. *)
Definition demo_hart (h : nat) : hart :=
  mkHart (mkMregs 6144 0 0 0 0 0 0 0 0 5 (Z.of_nat h)) (mkCsrs 0 0 0 false false 0 99 0) 0 PrivM 0 (mkCpu None 0 false false) AtStart.
Definition boot_demo : machine unit := {|
  m_harts := map demo_hart (seq 0 NCPU);
  m_k := boot_kst (mkLower (kalloc_demo <| vm_cpu := mkCpu None 0 false false |>)
    (FsAlloc.demo_fs <| bufs := repeat zero_buf (S NBUF) |> <| inodes := repeat zero_inode NINODE |>)) 0;
  m_tickslock := initlock ""; m_pr := initlock ""; m_out := []; m_cons := mkCons (initlock "") [] 0 0 0; m_devsw := ∅;
  m_uart := []; m_plic := mkPlic ∅ ∅ ∅ ∅ ∅ ∅; m_vregs := []; m_disk := None; m_kpt := 0; m_started := 0
|}.
Lemma boot_demo_on : powered_on boot_demo.
Proof.
  split; try done.
  intros h x Hx. change ((demo_hart <$> seq 0 NCPU) !! h = Some x) in Hx. apply list_lookup_fmap_Some in Hx as (i & -> & [-> Hi]%lookup_seq). done.
Qed.
Lemma demo_image : image_ok kvm_demo_kend kvm_demo_kend KERNBASE.
Proof. split; unfold kvm_demo_kend, PHYSTOP, KERNBASE, PGSIZE; split_and!; (lia || done). Qed.
Lemma boot_demo_room : (180 <= length (all_pages kvm_demo_kend))%nat.
Proof. unfold all_pages. rewrite length_fmap, length_seq. vm_compute. lia. Qed.

(** The whole run of this machine *)
Lemma boot_correct_witness :
  exists m, rtc (bstep 4242 kvm_demo_kend kvm_demo_kend KERNBASE 77 0 vdemo_rd vdemo_bufs vdemo_disk) boot_demo m /\
    Forall in_scheduler (m_harts m) /\
    kernel_ready kvm_demo_kend kvm_demo_kend KERNBASE 77 vdemo_bufs vdemo_disk m /\
    forall h x, m_harts m !! h = Some x -> hart_ready 4242 h x m.
Proof.
  destruct (runs_to_end 4242 _ _ _ 77 0 demo_image boot_demo_room vdemo_rd vdemo_bufs vdemo_disk vdemo_answers boot_demo
    (powered_on_inv _ _ _ _ _ _ _ _ boot_demo_on)) as (m & Hr & HI & Hall).
  exists m. split; [exact Hr|]. split; [exact Hall|].
  destruct (boot_correct 4242 _ _ _ 77 0 demo_image boot_demo_room vdemo_rd vdemo_bufs vdemo_disk vdemo_answers boot_demo m boot_demo_on Hr)
    as (_ & H2 & H3). rewrite Forall_lookup in Hall. split; [|intros h x Hx; by apply (H3 h x Hx), (Hall h)].
  destruct (lookup_lt_is_Some_2 (m_harts m) 0) as [x0 Hx0]; [rewrite (bi_len _ _ _ _ _ _ _ _ HI); unfold NCPU; lia|].
  apply (H3 0%nat x0 Hx0), (Hall 0%nat x0 Hx0).
Defined.
Lemma boot_ends_witness :
  exists m, rtc (bstep 4242 kvm_demo_kend kvm_demo_kend KERNBASE 77 0 vdemo_rd vdemo_bufs vdemo_disk) boot_demo m /\
    (forall m', ~ bstep 4242 kvm_demo_kend kvm_demo_kend KERNBASE 77 0 vdemo_rd vdemo_bufs vdemo_disk m m') /\
    (forall n m', nsteps (bstep 4242 kvm_demo_kend kvm_demo_kend KERNBASE 77 0 vdemo_rd vdemo_bufs vdemo_disk) n boot_demo m' -> (n <= 160)%nat).
Proof.
  destruct (runs_to_end 4242 _ _ _ 77 0 demo_image boot_demo_room vdemo_rd vdemo_bufs vdemo_disk vdemo_answers boot_demo
    (powered_on_inv _ _ _ _ _ _ _ _ boot_demo_on)) as (m & Hr & _ & Hall).
  destruct (boot_ends 4242 _ _ _ 77 0 demo_image boot_demo_room vdemo_rd vdemo_bufs vdemo_disk vdemo_answers boot_demo boot_demo_on)
    as [H1 H2].
  exists m. split; [exact Hr|]. split; [by apply (H2 m Hr)|exact H1].
Defined.
